(* ===== verification/_CoqProject ===== *)
-Q . S2P
Prelude.v
Queue.v
Varint.v
Json.v
Base58.v
Openssl.v
Hash.v
Address.v
Object.v
PqHybrid.v
AddressV5.v
PqObject.v
Sql.v
ObjectStore.v
MessagesStore.v
Protocol.v
Crypto.v
MessageBuilder.v
IdentityStore.v
Keyring.v
PqStores.v
PqKeyring.v
TrialDecrypt.v
BroadcastDecrypt.v
PubkeyCache.v
Pow.v
PowQueue.v
SendPipeline.v
Dandelion.v
PeerManager.v
Config.v
TorControl.v
Network.v
PeerRegistry.v
EventLoop.v
PeerConnector.v
ObjectSync.v
PqDelivery.v
Startup.v
PoolSafety.v
Uploads.v
Delivery.v
SyncFacts.v
Onion.v
Api.v
ApiHandlers.v
ApiRpc.v
ApiAsync.v
ApiConvert.v
HttpClient.v
Client.v
ClientServer.v
