(* ===== verification/Prelude.v ===== *)
(** * A verification library for the Bitmessage node

    The program (directory src/src of the repository) is a node of the Bitmessage
    network.  Its event loop (infra/network.c) reads frames from peers and hands them
    to the handlers of infra/object_sync.c, which keep a pool of objects, decide how to
    propagate them, answer what peers ask for, and try to decrypt what arrives with
    the keys of the keyring; in the other direction core/send_pipeline.c builds
    encrypted and signed objects, has a queue do their proof of work, and publishes
    them.  The stores are SQLite tables.  This library translates these parts into
    Rocq functions and transition systems and proves what they are relied on for.

    ** Reading guide

    Foundations:
    - Prelude.v: outcomes of C functions, byte buffers, machine integers.
    - Queue.v (common/queue.c, common/log_throttle.c): the blocking queue between
      threads, over a heap of nodes.
    - Varint.v (common/varint.c): the variable-length integer codec.
    - Json.v (common/json.c): the JSON reader and writer of the command-line client;
      [double] is the class [CDouble].
    - Base58.v (common/base58.c): the Base58 codec; BIGNUM is the class [BigNum].
    - Openssl.v: the class [OpenSSL] of the library functions the node calls, its
      documented laws, and an instance that shows the laws can hold.
    - Hash.v (common/hash.c): digests, inventory hash, HMAC.
    - Address.v (core/address.c): key derivation, ripe, the text form of addresses
      and of private keys, deterministic generation.
    - Object.v (infra/object.c): the object header.
    - PqHybrid.v (pq/pq_crypto.c, pq/pq_hybrid.c): hybrid signatures (ML-DSA and
      Ed25519), X-Wing and sealing; the primitives are the class [PqOpenSSL].
    - AddressV5.v (pq/address_v5.c): post-quantum identities and their addresses.
    - PqObject.v (pq/pq_object.c): the objects of post-quantum identities.
    - Sql.v: a table with a primary key as a finite map, and SQL statements on it.

    Stores and configuration:
    - ObjectStore.v (infra/object_store.c): the pool of objects.
    - MessagesStore.v (core/messages_store.c): inbox, sent messages, address book,
      subscriptions.
    - IdentityStore.v (core/identity_store.c): stored identities and the vault.
    - Keyring.v (core/keyring.c): the unlocked identities and the wrapping of keys.
    - PqStores.v (core/pq_identity_store.c, core/pq_pubkey_cache.c), PqKeyring.v
      (core/pq_keyring.c): the same for post-quantum identities, whose private keys are
      made from their seeds when they are first needed.
    - PubkeyCache.v (core/pubkey_cache.c): public keys of correspondents.
    - PeerManager.v (core/peer_manager.c): known peers and their ratings.
    - Config.v (core/config_store.c, core/config_file.c): settings.

    Objects and their proof of work:
    - Protocol.v (infra/protocol.c): frames and the version, addr, inv, getdata and
      error messages.
    - Crypto.v (core/crypto.c): ECIES and ECDSA as composed from OpenSSL.
    - MessageBuilder.v (core/message_builder.c): the growable buffer and the
      builders of getpubkey, pubkey, msg, broadcast, ack and onionpeer objects.
    - TrialDecrypt.v (core/trial_decrypt.c): reception of messages.
    - BroadcastDecrypt.v (core/broadcast_decrypt.c): reception of broadcasts.
    - Pow.v (pow/pow_engine.c): target, trial value and the two searches.
    - PowQueue.v (pow/pow_queue.c): the job queue in front of the engine; it uses
      the engine through the class [PowRunner], of which Pow.v gives the instance.
    - SendPipeline.v (core/send_pipeline.c): sending messages and broadcasts.

    The network:
    - Dandelion.v (infra/dandelion.c): the propagation decision and its hash table.
    - Network.v, EventLoop.v (infra/network.c): one connection; accepting, closing,
      sweeping, and a turn of the epoll thread.
    - PeerRegistry.v (infra/peer_registry.c): the table of live connections.
    - TorControl.v (infra/tor_control.c): the client of the Tor control port.
    - PeerConnector.v (infra/peer_connector.c): outbound connections, the SOCKS5
      handshake and the rounds of connecting.
    - ObjectSync.v (infra/object_sync.c): the handlers of received commands.
    - PqDelivery.v (the parts under BM_HAVE_PQ of core/trial_decrypt.c,
      core/broadcast_decrypt.c, core/send_pipeline.c and infra/object_sync.c): sending
      and receiving for post-quantum identities.
    - Startup.v (main.c): settings in effect, and the start of the hidden service.

    The API server (core/api_server.c), in front of all of these:
    - Api.v: its parameters and state, text and numbers, the slots of sends that wait
      for a proof of work; cJSON is the class [CJson].
    - ApiHandlers.v: the methods, one definition [h_..] for each.
    - ApiRpc.v: requests and batches, the reception of a body, authentication, answers.
    - ApiAsync.v: the requests that wait, with the workers interleaved.
    - ApiConvert.v: the loop of convertV3AddressesToV4.

    The command-line client, a program of its own that calls the server:
    - HttpClient.v (cli/http_client.c): one request and its answer; the base64 encoder
      is the class [Base64].
    - Client.v (cli/main.c): calls, files of keys and addresses, bodies from files, and
      the commands.

    The composition, theorems about several of these files at once:
    - PoolSafety.v: what can enter the pool, over any run of the event loop.
    - Uploads.v: serving getdata, and the array behind the pending uploads.
    - Delivery.v: a received message reaches the inbox, its ack completes the sent one.
    - SyncFacts.v: the handshake and inventories.
    - Onion.v: onion peers are understood by those who hear of them.
    - ClientServer.v: the client only calls methods that the server has.

    Definitions have the names of the C functions they translate; a definition that
    stands for a loop or a repeated fragment of a function says so.

    ** How C is modelled

    A function that can fail returns [cres]: [Ok] a result, [Err] its error return,
    [Ub] an access outside a block, a division by zero, a signed overflow or a loop
    that never ends.  So a theorem that a call is [Ok] or [Err] is also a proof that
    it is memory safe on that input.  Bytes are integers in [0, 256), blocks are
    lists, [malloc] returns a block of cells that are no bytes until written, and
    [wr] and [rdn] are the checked counterparts of memcpy.  Integers that the code
    keeps at a width are reduced at that width ([u64], [u32], [s64], [u128]) where
    the code computes them.  Allocation is assumed to succeed (except for a request
    above PTRDIFF_MAX in trial decryption, which matters there); freeing and
    clearing memory have no counterpart.  Where the code shares objects through
    pointers (connections, the jobs of the send pipeline, the nodes of the queue),
    there is a heap, a finite map from addresses; reading a free address is [Ub].
    Time, random bytes, the answers of the kernel to read, send and epoll_ctl, and the
    answers of parts that are not modelled are arguments.  A SQL table is a finite map;
    its statements succeed.  The machine is little-endian where the code copies
    integers from memory.

    Loops over data are structural where they can be.  Fuel is used in these places:
    the search of [pow_single], of [bm_address_generate_deterministic] and of
    [bm_pqv5_identity_generate_deterministic], where the theorems say how much is enough (the position of the first solution, plus one);
    the growth of buffers ([grow], [double_until], fuel = the wanted size, enough
    because the capacity doubles); the search for the body of a message ([find_body],
    fuel = its length); the probing of the Dandelion index (fuel = the number of
    slots, after which the C loop would repeat itself; it is proved never to be used
    up); the JSON parser (three calls per byte, proved enough for every text); the
    loops that drain a send queue or a receive buffer (fuel = the bytes left); the
    reader of control-port lines (fuel = the free cells of its buffer); the pages
    of [convert_loop] (fuel = the identities stored, plus two, proved enough); and the
    client's readers of lines, answers and files (fuel = the bytes left, plus one).

    Threads are transition systems: [pow_step] for the workers of the engine, which
    share two atomics and a cancellation flag, and [queue_step] for the two queues,
    whose critical sections are the steps; [async_step] has the steps of the API
    server's thread and the reports of the workers.  Their theorems are about every
    reachable state, hence about every interleaving.

    ** What is proved

    - Round trips: varints, Base58, JSON, addresses, WIF keys, object headers, frames,
      version, addr and inv messages, ECIES, signatures, wrapped keys, onion peers; a
      message or broadcast built by a sender is read by its recipient or subscriber,
      end to end, if its subject is one line of at most 500 bytes (the readers cut any
      other); the same for the objects of post-quantum identities, which are
      restored from their two seeds, and whose messages go from one keyring to the
      inbox of another.
    - Authenticity: a decryption succeeds only with a valid MAC; a message enters
      the inbox only if it is addressed to the identity that opened it and signed by
      the keys its sender address is made of; a broadcast only under the address it
      was checked against; a public key is cached only if it is the key of its
      address; an identity is unlocked only with the key its address is made of.
    - The pool: after any turns of the event loop, with any bytes from any peers, it
      holds only validated objects.
    - Delivery: the effects of a received message, of the ack that comes back, of
      getdata, inv and version, on every branch; for each other peer, what it is told of
      the object of the message and of the ack in it.
    - Sending: a message that is sent is delivered to the network or reported failed,
      exactly once.
    - Refinements: the send queue of a connection implements a byte stream, the
      blocking queue a FIFO list, the array of pending uploads a list, the index of
      Dandelion a linear search; how a stream is cut into reads does not matter.
    - Parsers of network input: what each accepts, and that it reads only its input;
      where that fails, a theorem exhibits the input.
    - Proof of work: the target formula, the searches find a nonce that meets the
      target whatever the interleaving, or are cancelled.
    - The proof-of-work queue: jobs are answered once, in order, with a valid object
      or, at shutdown only, with none; it is bounded, rejects duplicate keys, and its
      shutdown can always complete.
    - Connections: limits on inbound connections and on buffered bytes, the idle
      sweep, eviction by generation (a reused address is not the evicted peer).
    - Settings: whatever the file holds, what is loaded is usable.
    - Tor control: the lines read do not depend on how they arrive, the reader
      terminates, the cookie is sent only after the announcement that asks for it, and the
      handshake gives a descriptor exactly when all of it was sent and accepted.
    - Outbound connections: when a SOCKS5 handshake succeeds, that a round of connecting
      ends by itself, and that it keeps the limit on connections.
    - Start-up: which setting wins, and that the onion address survives restarts.
    - API server: only a POST with the configured credentials and a body of at most a
      megabyte reaches a method; which requests of a batch are answered, with which id; a
      request that waits for proofs of work touches no freed memory, and is resumed
      once, when its last send is reported; the conversion of addresses ends and skips
      none.
    - Client: the requests it makes for a keys.dat file or a list of addresses, wherever its
      batches end, against a description of the file that has neither state nor batches, and
      what of a request is written; a body from a file is what the file holds or refused.

    Some theorems show behaviour the code does not intend: parsers that read or
    write outside their block ([bm_parse_version_message_short],
    [bm_parse_addr_message_overflow], [bm_trial_decrypt_msg_len_wrap]), a 128-bit
    product that wraps ([bm_pow_get_target_wraps]), a signed overflow on a peer's
    timestamp ([version_timestamp_overflow]), numbers in requests that are converted
    before they are checked ([addPeer_port_undefined]), hexadecimal texts that are none
    ([hex_decode_fixed_lax]) and addresses with several text forms
    ([bm_address_decode_leading_one], [bm_pqv5_address_leading_one]).

    ** What is not modelled

    Of the command-line client (cli/), the usage texts, the choice of the language and the
    messages for the user are left out.  Of the API server, bm_api_server_thread, which sets up
    libmicrohttpd and takes it down, and the logger are left out, and the branches of its
    methods for post-quantum identities: it is modelled as built without them.  Of
    the process start-up (main.c), opening databases and sockets and the starting and
    stopping of threads are left out; of infra/peer_connector.c, the thread that runs a
    round every 30 seconds and the periodic operations of dandelion.c and object_sync.c
    every second.  Of infra/network.c, the opening of the listening socket and the byte
    statistics are left out.  The post-quantum identities are an option of the build
    (BM_HAVE_PQ): the modules that only they use are modelled (pq/, without its
    benchmark, and core/pq_*.c), and so are the handlers and builders that other modules
    have for them; the branches of keyring.c, of the send jobs and of the decryption of
    the pool again that choose between the two kinds of identity are modelled as built
    without the option.  Logging and the opening of databases are input and output. *)

From Stdlib Require Import ZArith Lia Bool String Ascii.
From stdpp Require Import base tactics list numbers option.

#[global] Open Scope Z_scope.

(** ** Outcomes of C functions

    [Ok a]: the function returned [a]; [Err]: it returned its error code
    ([-1], [0] or [NULL], whichever the function uses) ; [Ub]: it performed
    an access outside the object it was given, divided by zero, or another
    operation C leaves undefined. *)
Inductive cres (A : Type) : Type :=
| Ok (a : A)
| Err
| Ub.
Arguments Ok {A} a.
Arguments Err {A}.
Arguments Ub {A}.

#[export] Instance cres_ret : MRet cres := fun A a => Ok a.
#[export] Instance cres_bind : MBind cres := fun A B f m =>
  match m with
  | Ok a => f a
  | Err => Err
  | Ub => Ub
  end.

Lemma bind_ok {A B} (a : A) (f : A -> cres B) : (Ok a ≫= f) = f a.
Proof. reflexivity. Qed.
Lemma bind_err {A B} (f : A -> cres B) : (Err ≫= f) = Err.
Proof. reflexivity. Qed.
Lemma bind_ub {A B} (f : A -> cres B) : (Ub ≫= f) = Ub.
Proof. reflexivity. Qed.

Lemma ok_inj {A} (a b : A) : Ok a = Ok b -> a = b.
Proof. by intros [= ->]. Qed.

Lemma bind_ok_inv {A B} (m : cres A) (f : A -> cres B) b :
  (m ≫= f) = Ok b -> exists a, m = Ok a /\ f a = Ok b.
Proof. destruct m; simpl; [eauto|done|done]. Qed.

(** [inv_bind H]: split a successful sequence into its first statement and the rest. *)
Ltac inv_bind H :=
  let a := fresh "a" in
  let E := fresh "E" in
  apply bind_ok_inv in H as (a & E & H); cbv beta iota zeta in H.

(** [cbn_bind]: run the next statement of an operation whose first one is known. *)
Ltac cbn_bind := rewrite ?bind_ok, ?bind_err, ?bind_ub; cbv beta iota zeta.

(** The C idiom [if (!cond) return -1;]. *)
Definition cguard {A} (b : bool) (k : cres A) : cres A := if b then k else Err.

#[export] Instance cres_eq_dec {A} `{EqDecision A} : EqDecision (cres A).
Proof. solve_decision. Defined.

(** A call of a library function that may fail. *)
Definition or_err {A} (o : option A) : cres A := match o with Some x => Ok x | None => Err end.

Lemma or_err_ok {A} (o : option A) x : or_err o = Ok x <-> o = Some x.
Proof. destruct o; cbn; split; congruence. Qed.

Lemma or_err_not_ub {A} (o : option A) : or_err o <> Ub.
Proof. by destruct o. Qed.

Definition is_ok {A} (r : cres A) : bool :=
  match r with Ok _ => true | _ => false end.

(** A result, or [d] when there is none. *)
Definition ok_or {A} (d : A) (r : cres A) : A := match r with Ok a => a | _ => d end.

(** Memory safety of one call: it did not perform an undefined access. *)
Definition safe {A} (r : cres A) : Prop := r <> Ub.

Lemma safe_bind {A B} (m : cres A) (f : A -> cres B) :
  safe m -> (forall a, m = Ok a -> safe (f a)) -> safe (m ≫= f).
Proof. unfold safe. destruct m; simpl; auto. Qed.

Lemma safe_guard {A} (b : bool) (k : cres A) :
  (b = true -> safe k) -> safe (cguard b k).
Proof. unfold safe. destruct b; simpl; auto. Qed.

(** ** Record update

    [r <| field := v |>] is [r] with one field changed, for a record with a [RecordEta]
    instance: the record rebuilt from its fields, in which the field is replaced. *)
Class RecordEta (R : Type) := record_eta : R -> R.
Class FieldUpdate {R T : Type} (field : R -> T) := update_field : (T -> T) -> R -> R.
Arguments update_field {R T} field {_} _ _.

Ltac derive_update :=
  match goal with
  | |- @FieldUpdate ?R ?T ?field =>
      let eta := constr:(_ : RecordEta R) in
      let body := eval hnf in eta in
      match eval pattern field in body with
      | ?update _ => exact (fun f : T -> T => update (fun r : R => f (field r)))
      end
  end.
#[export] Hint Extern 0 (FieldUpdate _) => derive_update : typeclass_instances.
Notation "r '<|' field ':=' v '|>'" := (update_field field (fun _ => v) r)
  (at level 1, left associativity, format "r  <| field  :=  v |>").

(** ** Bytes and buffers

    A byte is a [Z] in [0, 256); a buffer is the list of its bytes. *)
Definition is_byte (b : Z) : Prop := 0 <= b < 256.
Definition bytes_ok (l : list Z) : Prop := Forall is_byte l.
Definition blen (l : list Z) : Z := Z.of_nat (length l).

#[export] Instance is_byte_dec b : Decision (is_byte b).
Proof. unfold is_byte. apply _. Defined.
#[export] Instance bytes_ok_dec l : Decision (bytes_ok l).
Proof. unfold bytes_ok. apply _. Defined.

(** Machine widths. *)
Definition u8 (z : Z) : Z := z mod 2 ^ 8.
Definition u16 (z : Z) : Z := z mod 2 ^ 16.
Definition u32 (z : Z) : Z := z mod 2 ^ 32.
Definition u64 (z : Z) : Z := z mod 2 ^ 64.
Definition u128 (z : Z) : Z := z mod 2 ^ 128.
(** Conversion to [int64_t]: two's complement reading of the low 64 bits. *)
Definition s64 (z : Z) : Z := (z + 2 ^ 63) mod 2 ^ 64 - 2 ^ 63.
(** Conversion to [int]. *)
Definition s32 (z : Z) : Z := (z + 2 ^ 31) mod 2 ^ 32 - 2 ^ 31.

Definition is_u64 (z : Z) : Prop := 0 <= z < 2 ^ 64.
Definition is_u32 (z : Z) : Prop := 0 <= z < 2 ^ 32.

(** [buf[off]] and the [n] bytes at [buf + off]; undefined outside the buffer. *)
Definition rd (buf : list Z) (off : Z) : cres Z :=
  if (0 <=? off) && (off <? blen buf) then
    match buf !! Z.to_nat off with Some b => Ok b | None => Ub end
  else Ub.

Definition slice (buf : list Z) (off n : Z) : list Z :=
  take (Z.to_nat n) (drop (Z.to_nat off) buf).

Definition rdn (buf : list Z) (off n : Z) : cres (list Z) :=
  if (0 <=? off) && (0 <=? n) && (off + n <=? blen buf)
  then Ok (slice buf off n) else Ub.

(** Big-endian integers. *)
Fixpoint be_split (n : nat) (v : Z) : list Z :=
  match n with
  | O => []
  | S n => Z.land (Z.shiftr v (8 * Z.of_nat n)) 255 :: be_split n v
  end.

Fixpoint be_combine_acc (acc : Z) (l : list Z) : Z :=
  match l with
  | [] => acc
  | b :: l => be_combine_acc (acc * 256 + b) l
  end.
Definition be_combine (l : list Z) : Z := be_combine_acc 0 l.

(** String constants of the source: the character codes before the NUL. *)
Definition cstr (s : string) : list Z :=
  map (fun a => Z.of_N (N_of_ascii a)) (list_ascii_of_string s).

(** [list_eqb] is [memcmp(a, b, n) == 0] on blocks of the same length and
    [strcmp(a, b) == 0] on C strings. *)
Definition list_eqb (a b : list Z) : bool := bool_decide (a = b).

(** ** Lemmas on buffers *)

Lemma blen_nonneg l : 0 <= blen l.
Proof. unfold blen. lia. Qed.

Lemma blen_nil : blen [] = 0.
Proof. reflexivity. Qed.

Lemma blen_cons b l : blen (b :: l) = 1 + blen l.
Proof. unfold blen. simpl. lia. Qed.

Lemma blen_app a b : blen (a ++ b) = blen a + blen b.
Proof. unfold blen. rewrite length_app. lia. Qed.

Lemma blen_replicate n b : blen (replicate n b) = Z.of_nat n.
Proof. unfold blen. by rewrite length_replicate. Qed.

Lemma blen_slice buf off n :
  0 <= off -> 0 <= n -> off + n <= blen buf -> blen (slice buf off n) = n.
Proof.
  unfold blen, slice. intros. rewrite length_take, length_drop. lia.
Qed.

Lemma blen_drop n l : 0 <= n <= blen l -> blen (drop (Z.to_nat n) l) = blen l - n.
Proof. unfold blen. intros. rewrite length_drop. lia. Qed.

Lemma bytes_ok_nil : bytes_ok [].
Proof. constructor. Qed.

Lemma bytes_ok_cons b l : bytes_ok (b :: l) <-> is_byte b /\ bytes_ok l.
Proof. apply Forall_cons_iff. Qed.

Lemma bytes_ok_app a b : bytes_ok (a ++ b) <-> bytes_ok a /\ bytes_ok b.
Proof. apply Forall_app. Qed.

Lemma bytes_ok_take n l : bytes_ok l -> bytes_ok (take n l).
Proof. apply Forall_take. Qed.

Lemma bytes_ok_drop n l : bytes_ok l -> bytes_ok (drop n l).
Proof. apply Forall_drop. Qed.

Lemma bytes_ok_slice buf off n : bytes_ok buf -> bytes_ok (slice buf off n).
Proof. intros. unfold slice. by apply bytes_ok_take, bytes_ok_drop. Qed.

Lemma bytes_ok_replicate n b : is_byte b -> bytes_ok (replicate n b).
Proof. apply Forall_replicate. Qed.

Create HintDb bytes.
#[export] Hint Resolve bytes_ok_nil bytes_ok_take bytes_ok_drop bytes_ok_slice
  bytes_ok_replicate blen_nonneg : bytes.
#[export] Hint Extern 1 (is_byte _) => (unfold is_byte in *; lia) : bytes.
Create Rewrite HintDb blen.
#[export] Hint Rewrite blen_nil blen_cons blen_app blen_replicate : blen.

(** [solve_blen]: length goals over concatenations. *)
Ltac solve_blen := autorewrite with blen in *; unfold blen in *; simpl in *; lia.

Lemma slice_app_l a b n : n = blen a -> slice (a ++ b) 0 n = a.
Proof.
  intros ->. unfold slice, blen. change (Z.to_nat 0) with 0%nat.
  by rewrite drop_0, Nat2Z.id, take_app_length.
Qed.

Lemma drop_app_blen a b n : n = blen a -> drop (Z.to_nat n) (a ++ b) = b.
Proof. intros ->. unfold blen. rewrite Nat2Z.id. by rewrite drop_app_length. Qed.

Lemma slice_app_mid a b c off n :
  off = blen a -> n = blen b -> slice (a ++ b ++ c) off n = b.
Proof.
  intros -> ->. unfold slice. rewrite drop_app_blen by done.
  unfold blen. rewrite Nat2Z.id. by rewrite take_app_length.
Qed.

Lemma slice_app_skip a b off n :
  blen a <= off -> slice (a ++ b) off n = slice b (off - blen a) n.
Proof.
  intros. unfold slice. rewrite drop_app_ge by (unfold blen in *; lia).
  do 2 f_equal. unfold blen in *. lia.
Qed.

Lemma slice_all l n : n = blen l -> slice l 0 n = l.
Proof.
  intros ->. unfold slice, blen. change (Z.to_nat 0) with 0%nat.
  by rewrite drop_0, Nat2Z.id, firstn_all.
Qed.

Lemma slice_three w a b c :
  0 <= a -> 0 <= b -> 0 <= c -> a + b + c = blen w ->
  slice w 0 a ++ slice w a b ++ slice w (a + b) c = w.
Proof.
  intros Ha Hb Hc Hw. unfold slice, blen in *. change (Z.to_nat 0) with 0%nat. rewrite drop_0.
  rewrite (take_ge (drop (Z.to_nat (a + b)) w)) by (rewrite length_drop; lia).
  rewrite Z2Nat.inj_add, <- drop_drop by lia. by rewrite take_drop, take_drop.
Qed.

Lemma slice_split (l : list Z) off a b :
  0 <= off -> 0 <= a -> 0 <= b -> slice l off (a + b) = slice l off a ++ slice l (off + a) b.
Proof.
  intros. unfold slice. rewrite !Z2Nat.inj_add by lia. rewrite <- drop_drop.
  by rewrite take_take_drop.
Qed.

Lemma rdn_ok buf off n :
  0 <= off -> 0 <= n -> off + n <= blen buf -> rdn buf off n = Ok (slice buf off n).
Proof.
  intros. unfold rdn.
  by rewrite (proj2 (Z.leb_le 0 off)), (proj2 (Z.leb_le 0 n)),
    (proj2 (Z.leb_le (off + n) (blen buf))).
Qed.

Lemma rdn_ok_inv buf off n b :
  rdn buf off n = Ok b -> b = slice buf off n /\ 0 <= off /\ 0 <= n /\ off + n <= blen buf.
Proof.
  unfold rdn. destruct (Z.leb_spec 0 off), (Z.leb_spec 0 n), (Z.leb_spec (off + n) (blen buf));
    try done. intros [= <-]. split; [done|lia].
Qed.

Lemma rdn_oob buf off n : blen buf < off + n -> rdn buf off n = Ub.
Proof.
  intros. unfold rdn. rewrite (proj2 (Z.leb_gt (off + n) (blen buf))) by done.
  by rewrite andb_false_r.
Qed.

Lemma rdn_app_mid a b c off n :
  off = blen a -> n = blen b -> rdn (a ++ b ++ c) off n = Ok b.
Proof.
  intros. rewrite rdn_ok; [by rewrite slice_app_mid| | |];
    pose proof (blen_nonneg a); pose proof (blen_nonneg b);
    pose proof (blen_nonneg c); rewrite ?blen_app; lia.
Qed.

Lemma rd_ok buf off b : 0 <= off -> buf !! Z.to_nat off = Some b -> rd buf off = Ok b.
Proof.
  intros H0 H. unfold rd. pose proof (lookup_lt_Some _ _ _ H) as Hlt.
  rewrite (proj2 (Z.leb_le 0 off)) by lia.
  rewrite (proj2 (Z.ltb_lt off (blen buf))) by (unfold blen; lia). by rewrite H.
Qed.

Lemma rd_in buf off :
  0 <= off < blen buf -> exists b, rd buf off = Ok b /\ buf !! Z.to_nat off = Some b.
Proof.
  intros. destruct (lookup_lt_is_Some_2 buf (Z.to_nat off)) as [b Hb];
    [unfold blen in *; lia|]. exists b. split; [|done]. by apply rd_ok; [lia|].
Qed.

Lemma rd_in_byte buf off :
  bytes_ok buf -> 0 <= off < blen buf ->
  exists b, rd buf off = Ok b /\ is_byte b.
Proof.
  intros Hb H. destruct (rd_in _ _ H) as (b & -> & Hl). exists b. split; [done|].
  by apply (Forall_lookup_1 _ _ _ _ Hb Hl).
Qed.

Lemma list_eqb_refl a : list_eqb a a = true.
Proof. unfold list_eqb. by apply bool_decide_eq_true. Qed.

Lemma list_eqb_eq a b : list_eqb a b = true <-> a = b.
Proof. unfold list_eqb. apply bool_decide_eq_true. Qed.

(** ** Lemmas on machine integers *)

Lemma u64_small z : is_u64 z -> u64 z = z.
Proof. intros. by apply Z.mod_small. Qed.

Lemma u64_range z : is_u64 (u64 z).
Proof. apply Z.mod_pos_bound. lia. Qed.

Lemma u32_small z : is_u32 z -> u32 z = z.
Proof. intros. by apply Z.mod_small. Qed.

Lemma u32_range z : is_u32 (u32 z).
Proof. apply Z.mod_pos_bound. lia. Qed.

Lemma s64_small z : - 2 ^ 63 <= z < 2 ^ 63 -> s64 z = z.
Proof. intros. unfold s64. rewrite Z.mod_small; lia. Qed.

Lemma u64_s64 x : is_u64 x -> u64 (s64 x) = x.
Proof.
  unfold is_u64, u64, s64. intros H. rewrite Zminus_mod_idemp_l.
  replace (x + 2 ^ 63 - 2 ^ 63) with x by lia. apply Z.mod_small; lia.
Qed.

Lemma byte_land_255 z : is_byte (Z.land z 255).
Proof.
  change 255 with (Z.ones 8). rewrite Z.land_ones by lia.
  apply (Z.mod_pos_bound z (2 ^ 8)). lia.
Qed.

Lemma land_255_mod z : Z.land z 255 = z mod 256.
Proof. change 255 with (Z.ones 8). by rewrite Z.land_ones by lia. Qed.

(** A bitwise or of disjoint parts is a sum: how the shift-and-or readers of
    the source compute. *)
Lemma lor_add a b k :
  0 <= k -> a mod 2 ^ k = 0 -> 0 <= b < 2 ^ k -> Z.lor a b = a + b.
Proof.
  intros Hk Ha Hb.
  assert (Hland : Z.land a b = 0).
  { apply Z.bits_inj'. intros n Hn. rewrite Z.land_spec, Z.bits_0.
    destruct (Z.lt_ge_cases n k).
    - rewrite <- (Z.mod_pow2_bits_low a k n) by lia. by rewrite Ha, Z.bits_0.
    - rewrite <- (Z.mod_small b (2 ^ k)) by lia.
      rewrite Z.mod_pow2_bits_high by lia. by rewrite andb_false_r. }
  rewrite <- Z.lxor_lor by done. by rewrite Z.add_nocarry_lxor.
Qed.

Lemma lor_shiftl_add a b k :
  0 <= k -> 0 <= b < 2 ^ k -> Z.lor (Z.shiftl a k) b = a * 2 ^ k + b.
Proof.
  intros. rewrite Z.shiftl_mul_pow2 by lia. apply (lor_add _ _ k); [lia| |lia].
  apply Z.mod_mul. lia.
Qed.

(** ** Big-endian lemmas *)

Lemma length_be_split n v : length (be_split n v) = n.
Proof. induction n; simpl; auto. Qed.

Lemma blen_be_split n v : blen (be_split n v) = Z.of_nat n.
Proof. unfold blen. by rewrite length_be_split. Qed.

Lemma bytes_ok_be_split n v : bytes_ok (be_split n v).
Proof. induction n; simpl; constructor; auto using byte_land_255. Qed.
#[export] Hint Resolve bytes_ok_be_split : bytes.
#[export] Hint Rewrite blen_be_split : blen.

Lemma be_combine_acc_app acc a b :
  be_combine_acc acc (a ++ b) = be_combine_acc (be_combine_acc acc a) b.
Proof. revert acc. induction a; simpl; auto. Qed.

Lemma be_combine_acc_linear acc l :
  be_combine_acc acc l = acc * 256 ^ blen l + be_combine l.
Proof.
  unfold be_combine. revert acc.
  induction l as [|b l IH]; intros acc; cbn [be_combine_acc].
  - rewrite blen_nil. lia.
  - rewrite (IH (acc * 256 + b)), (IH (0 * 256 + b)), blen_cons.
    rewrite Z.pow_add_r by (pose proof (blen_nonneg l); lia). lia.
Qed.

Lemma be_combine_cons b l : be_combine (b :: l) = b * 256 ^ blen l + be_combine l.
Proof.
  unfold be_combine at 1. cbn [be_combine_acc].
  rewrite be_combine_acc_linear. lia.
Qed.

Lemma be_combine_app a b : be_combine (a ++ b) = be_combine a * 256 ^ blen b + be_combine b.
Proof. unfold be_combine. by rewrite be_combine_acc_app, be_combine_acc_linear. Qed.

Lemma be_combine_snoc a b : be_combine (a ++ [b]) = be_combine a * 256 + b.
Proof. unfold be_combine. by rewrite be_combine_acc_app. Qed.

Lemma be_combine_bound l : bytes_ok l -> 0 <= be_combine l < 256 ^ blen l.
Proof.
  induction l as [|b l IH]; intros Hl; [rewrite blen_nil; unfold be_combine; simpl; lia|].
  apply bytes_ok_cons in Hl as [Hb Hl]. specialize (IH Hl).
  rewrite be_combine_cons, blen_cons, Z.pow_add_r
    by (pose proof (blen_nonneg l); lia).
  unfold is_byte in Hb. nia.
Qed.

Lemma be_combine_split n v : be_combine (be_split n v) = v mod 256 ^ Z.of_nat n.
Proof.
  induction n as [|n IH]; [unfold be_combine; simpl; by rewrite Z.mod_1_r|].
  cbn [be_split]. rewrite be_combine_cons, IH, land_255_mod, Z.shiftr_div_pow2 by lia.
  rewrite blen_be_split, Nat2Z.inj_succ, Z.pow_succ_r by lia.
  replace (2 ^ (8 * Z.of_nat n)) with (256 ^ Z.of_nat n)
    by (rewrite Z.pow_mul_r by lia; done).
  rewrite (Z.mul_comm 256), Z.rem_mul_r by lia. lia.
Qed.

Lemma be_split_combine l : bytes_ok l -> be_split (length l) (be_combine l) = l.
Proof.
  intros Hl. assert (H : forall l' k, bytes_ok l' ->
    be_split (length l') (k * 256 ^ blen l' + be_combine l') = l').
  { clear. induction l' as [|b l' IH]; intros k Hl; [done|].
    apply bytes_ok_cons in Hl as [Hb Hl]. pose proof (be_combine_bound l' Hl).
    cbn [length be_split]. rewrite be_combine_cons, blen_cons.
    rewrite Z.pow_add_r by (pose proof (blen_nonneg l'); lia). f_equal.
    - rewrite land_255_mod, Z.shiftr_div_pow2 by lia.
      replace (2 ^ (8 * Z.of_nat (length l'))) with (256 ^ blen l')
        by (unfold blen; rewrite Z.pow_mul_r by lia; done).
      replace (k * (256 ^ 1 * 256 ^ blen l') + (b * 256 ^ blen l' + be_combine l'))
        with (be_combine l' + (k * 256 + b) * 256 ^ blen l') by lia.
      rewrite Z.div_add, Z.div_small by lia. unfold is_byte in Hb.
      replace (0 + (k * 256 + b)) with (b + k * 256) by lia.
      rewrite Z.mod_add by lia. by apply Z.mod_small.
    - etransitivity; [|by apply (IH (k * 256 + b))]. f_equal. lia. }
  etransitivity; [|by apply (H l 0)]. by rewrite Z.mul_0_l.
Qed.

Lemma be_split_u64 v : be_split 8 (u64 v) = be_split 8 v.
Proof.
  rewrite <- (be_split_combine (be_split 8 v)) at 1 by auto with bytes.
  rewrite length_be_split, be_combine_split. done.
Qed.

(** ** Writable memory

    [malloc n] is a block of [n] bytes whose contents are indeterminate: each
    cell holds [uninit], which is not a byte, so a result that satisfies
    [bytes_ok] has been written completely. *)
Definition uninit : Z := -1.
Definition malloc (n : Z) : list Z := replicate (Z.to_nat n) uninit.

(** [memcpy(buf + off, bytes, blen bytes)]; undefined outside the block. *)
Definition wr (buf : list Z) (off : Z) (bytes : list Z) : cres (list Z) :=
  if (0 <=? off) && (off + blen bytes <=? blen buf)
  then Ok (take (Z.to_nat off) buf ++ bytes
             ++ drop (Z.to_nat (off + blen bytes)) buf)
  else Ub.

Lemma blen_malloc n : 0 <= n -> blen (malloc n) = n.
Proof. intros. unfold malloc. rewrite blen_replicate. lia. Qed.

(** Sequential filling: a block whose first [blen done] bytes are written takes
    the next bytes right behind them. *)
Lemma wr_fill done rest bytes off :
  off = blen done -> blen bytes <= blen rest ->
  wr (done ++ rest) off bytes
  = Ok ((done ++ bytes) ++ drop (Z.to_nat (blen bytes)) rest).
Proof.
  intros -> Hle. unfold wr. pose proof (blen_nonneg done).
  rewrite (proj2 (Z.leb_le _ _)) by lia.
  rewrite (proj2 (Z.leb_le _ _)) by (rewrite blen_app; lia). simpl.
  pose proof (blen_nonneg bytes). rewrite <- app_assoc. do 2 f_equal.
  - unfold blen. rewrite Nat2Z.id. by rewrite take_app_length.
  - f_equal. rewrite drop_app_ge by (unfold blen in *; lia). f_equal.
    unfold blen in *. lia.
Qed.

Lemma wr_exact buf bytes :
  blen bytes = blen buf -> wr buf 0 bytes = Ok bytes.
Proof.
  intros H. pose proof (wr_fill [] buf bytes 0) as E. rewrite blen_nil in E.
  rewrite !app_nil_l in E. rewrite E by lia. f_equal.
  rewrite drop_ge by (unfold blen in *; lia). by rewrite app_nil_r.
Qed.

Lemma wr_oob buf off bytes : blen buf < off + blen bytes -> wr buf off bytes = Ub.
Proof.
  intros. unfold wr. rewrite (proj2 (Z.leb_gt (off + blen bytes) (blen buf))) by done. by rewrite andb_false_r.
Qed.

(** Writing does not change the size of a block. *)
Lemma wr_blen buf off bytes r : wr buf off bytes = Ok r -> blen r = blen buf.
Proof.
  unfold wr. destruct (Z.leb_spec 0 off); [|done].
  destruct (Z.leb_spec (off + blen bytes) (blen buf)); [|done]. cbn [andb]. intros E.
  injection E as <-. unfold blen in *. rewrite !length_app, length_take, length_drop. lia.
Qed.

(** ** Deciding comparisons

    [zdec] evaluates every integer comparison of the goal that the context
    decides. *)
Ltac zdec_step :=
  match goal with
  | |- context [?a >? ?b] => rewrite (Z.gtb_ltb a b)
  | |- context [?a >=? ?b] => rewrite (Z.geb_leb a b)
  | |- context [?a <? ?b] =>
      first [rewrite (proj2 (Z.ltb_lt a b)) by lia | rewrite (proj2 (Z.ltb_ge a b)) by lia]
  | |- context [?a <=? ?b] =>
      first [rewrite (proj2 (Z.leb_le a b)) by lia | rewrite (proj2 (Z.leb_gt a b)) by lia]
  | |- context [?a =? ?b] =>
      first [rewrite (proj2 (Z.eqb_eq a b)) by lia | rewrite (proj2 (Z.eqb_neq a b)) by lia]
  end.
Ltac zdec := repeat (zdec_step; cbn [andb orb negb]).

(** Signed 64-bit arithmetic, undefined on overflow. *)
Definition int64 (z : Z) : cres Z :=
  if (- 2 ^ 63 <=? z) && (z <? 2 ^ 63) then Ok z else Ub.

Lemma int64_ok z : - 2 ^ 63 <= z < 2 ^ 63 -> int64 z = Ok z.
Proof. intros. unfold int64. by zdec. Qed.

(** [solve_bytes]: byte well-formedness of an explicit concatenation. *)
Ltac solve_bytes :=
  repeat first [rewrite bytes_ok_app | rewrite bytes_ok_cons]; repeat match goal with |- _ /\ _ => split end;
  first [by auto with bytes | assumption | unfold is_byte; lia].

(** ** Filling a fresh block from the front *)

Lemma drop_malloc k n : 0 <= k -> drop (Z.to_nat k) (malloc n) = malloc (n - k).
Proof.
  intros. unfold malloc. rewrite drop_replicate. f_equal. lia.
Qed.

Lemma malloc_nil n : n <= 0 -> malloc n = [].
Proof. intros. unfold malloc. by replace (Z.to_nat n) with 0%nat by lia. Qed.

Lemma wr_malloc done m bytes off :
  off = blen done -> blen bytes <= m ->
  wr (done ++ malloc m) off bytes = Ok ((done ++ bytes) ++ malloc (m - blen bytes)).
Proof.
  intros Ho Hb. pose proof (blen_nonneg bytes).
  rewrite wr_fill by (rewrite ?blen_malloc; lia). by rewrite drop_malloc.
Qed.

Lemma wr_malloc_start m bytes :
  blen bytes <= m -> wr (malloc m) 0 bytes = Ok (bytes ++ malloc (m - blen bytes)).
Proof. intros. by rewrite <- (app_nil_l (malloc m)), wr_malloc. Qed.

Lemma wr_malloc_last done m bytes off :
  off = blen done -> blen bytes = m -> wr (done ++ malloc m) off bytes = Ok (done ++ bytes).
Proof.
  intros. rewrite wr_malloc by lia. by rewrite (malloc_nil (m - _)), app_nil_r by lia.
Qed.

Lemma rdn_prefix a b n : n = blen a -> rdn (a ++ b) 0 n = Ok a.
Proof.
  intros ->. pose proof (blen_nonneg a). pose proof (blen_nonneg b).
  rewrite rdn_ok by (rewrite ?blen_app; lia). by rewrite slice_app_l.
Qed.

Lemma rdn_all (l : list Z) n : blen l = n -> rdn l 0 n = Ok l.
Proof. intros <-. pose proof (blen_nonneg l). by rewrite rdn_ok, slice_all by lia. Qed.

Lemma rdn_suffix a b off n : off = blen a -> n = blen b -> rdn (a ++ b) off n = Ok b.
Proof. intros. rewrite <- (app_nil_r b) at 1. by apply rdn_app_mid. Qed.

(** A block that is long enough is a prefix of the wanted length and the rest. *)
Lemma split_at_blen l n :
  0 <= n <= blen l -> exists a b, l = a ++ b /\ blen a = n /\ blen b = blen l - n.
Proof.
  intros. exists (take (Z.to_nat n) l), (drop (Z.to_nat n) l).
  rewrite take_drop, blen_drop by lia. repeat split.
  unfold blen in *. rewrite length_take. lia.
Qed.

(** Overwriting a range of a block with as many bytes. *)
Lemma wr_over a b b' c off :
  off = blen a -> blen b' = blen b -> wr (a ++ b ++ c) off b' = Ok (a ++ b' ++ c).
Proof.
  intros Ho Hb. rewrite wr_fill by (rewrite ?blen_app; pose proof (blen_nonneg c); lia).
  f_equal. rewrite <- app_assoc. do 2 f_equal. by apply drop_app_blen.
Qed.

Lemma wr_over_last a b b' off :
  off = blen a -> blen b' = blen b -> wr (a ++ b) off b' = Ok (a ++ b').
Proof.
  intros. pose proof (wr_over a b b' [] off) as E. rewrite !app_nil_r in E. by apply E.
Qed.

Lemma malloc_app a b : 0 <= a -> 0 <= b -> malloc (a + b) = malloc a ++ malloc b.
Proof.
  intros. unfold malloc. rewrite <- replicate_add. f_equal. lia.
Qed.

Lemma blen_take n l : 0 <= n <= blen l -> blen (take (Z.to_nat n) l) = n.
Proof. intros. unfold blen in *. rewrite length_take. lia. Qed.

(** A block given as the sequence of its fields: the bytes at the position of a
    field are that field. *)
Lemma rdn_field fs i f off n :
  fs !! i = Some f -> off = blen (concat (take i fs)) -> n = blen f ->
  rdn (concat fs) off n = Ok f.
Proof.
  intros Hf -> ->. rewrite <- (take_drop_middle fs i f Hf) at 1.
  rewrite concat_app. cbn [concat]. by apply rdn_app_mid.
Qed.

Lemma drop_field fs i off :
  off = blen (concat (take i fs)) -> drop (Z.to_nat off) (concat fs) = concat (drop i fs).
Proof.
  intros ->. rewrite <- (take_drop i fs) at 2. rewrite concat_app. by apply drop_app_blen.
Qed.

(** [len_fields]: the length of a prefix of such a sequence. *)
Ltac len_fields := cbn [take concat]; autorewrite with blen; try lia.

Lemma wr_over_first b b' c : blen b' = blen b -> wr (b ++ c) 0 b' = Ok (b' ++ c).
Proof. intros. by apply (wr_over []). Qed.

(** Reading one byte of a range that is known. *)
Lemma rd_of_rdn data off n b i k :
  rdn data off n = Ok b -> 0 <= i < n -> k = off + i -> rd data k = rd b i.
Proof.
  intros Hr Hi ->. unfold rdn in Hr. destruct (Z.leb_spec 0 off); [|done].
  destruct (Z.leb_spec 0 n); [|done]. destruct (Z.leb_spec (off + n) (blen data)); [|done].
  cbn [andb] in Hr. injection Hr as <-. unfold rd. rewrite blen_slice by lia. zdec.
  unfold slice. rewrite lookup_take_lt, lookup_drop by lia.
  by replace (Z.to_nat off + Z.to_nat i)%nat with (Z.to_nat (off + i)) by lia.
Qed.

Lemma rd_app_here pre b rest k : k = blen pre -> rd (pre ++ b :: rest) k = Ok b.
Proof.
  intros ->. apply rd_ok; [apply blen_nonneg|]. unfold blen.
  by rewrite Nat2Z.id, lookup_app_r, Nat.sub_diag by lia.
Qed.

(** ** Scanning text: pieces of [sscanf] *)

Definition isspace (c : Z) : bool := (c =? 32) || ((9 <=? c) && (c <=? 13)).
Definition isdigit (c : Z) : bool := (48 <=? c) && (c <=? 57).

Fixpoint skip_while (p : Z -> bool) (l : list Z) : list Z :=
  match l with c :: l' => if p c then skip_while p l' else l | [] => [] end.

(** The longest prefix of at most [n] bytes that satisfy [p]. *)
Fixpoint span (n : nat) (p : Z -> bool) (l : list Z) : list Z * list Z :=
  match n, l with
  | S n, c :: l' => if p c then let '(w, rest) := span n p l' in (c :: w, rest) else ([], l)
  | _, _ => ([], l)
  end.

Definition digits_value (l : list Z) : Z := fold_left (fun a c => a * 10 + (c - 48)) l 0.
