(* ===== verification/Queue.v ===== *)
(** * The thread-safe queue and the log throttle (common/queue.c, common/log_throttle.c)

    The queue hands objects from the API threads to the broadcast thread.  It is a
    singly linked list in the heap, guarded by a mutex and a condition variable.  The
    model keeps the heap: a node is a cell at an address, dereferencing an address
    that holds no cell is [Ub], [malloc] may return any free address.  The critical
    sections are the steps of a transition system, which also counts the threads
    asleep on the condition variable; the system is shown to refine a FIFO list. *)

From Stdlib Require Import ZArith Lia.
From stdpp Require Import base tactics numbers gmap list.
From S2P Require Import Prelude.

(** ** The code *)

Abbreviation ptr := positive (only parsing).

Record bm_queue_node_t := { node_data : Z; node_next : option ptr }.

Record bm_queue_t := { q_head : option ptr; q_tail : option ptr; q_shutdown : bool }.

Abbreviation node_heap := (gmap positive bm_queue_node_t) (only parsing).

(** [p->field]: undefined when [p] is not the address of a live node. *)
Definition deref (h : node_heap) (p : ptr) : cres bm_queue_node_t :=
  match h !! p with Some n => Ok n | None => Ub end.

(** [free(p)]: undefined unless [p] is live. *)
Definition free_node (h : node_heap) (p : ptr) : cres node_heap :=
  match h !! p with Some _ => Ok (delete p h) | None => Ub end.

Definition bm_queue_init : bm_queue_t :=
  {| q_head := None; q_tail := None; q_shutdown := false |}.

(** [p] is the address [malloc] returned. *)
Definition bm_queue_push (h : node_heap) (q : bm_queue_t) (p : ptr) (data : Z)
  : cres (node_heap * bm_queue_t) :=
  let h := <[p := {| node_data := data; node_next := None |}]> h in
  match q_tail q with
  | None =>
      Ok (h, {| q_head := Some p; q_tail := Some p; q_shutdown := q_shutdown q |})
  | Some t =>
      n ← deref h t;
      Ok (<[t := {| node_data := node_data n; node_next := Some p |}]> h,
          {| q_head := q_head q; q_tail := Some p; q_shutdown := q_shutdown q |})
  end.

(** One pass through the critical section of [bm_queue_pop]: it goes (back) to sleep,
    returns [false], or detaches the first node, which is freed after the lock is
    released. *)
Inductive pop_result :=
| PopWait
| PopClosed
| PopItem (data : Z) (node : ptr) (q : bm_queue_t).

Definition bm_queue_pop (h : node_heap) (q : bm_queue_t) : cres pop_result :=
  match q_head q with
  | None => if q_shutdown q then Ok PopClosed else Ok PopWait
  | Some p =>
      n ← deref h p;
      Ok (PopItem (node_data n) p
            {| q_head := node_next n;
               q_tail := match node_next n with None => None | Some _ => q_tail q end;
               q_shutdown := q_shutdown q |})
  end.

Definition bm_queue_shutdown (q : bm_queue_t) : bm_queue_t :=
  {| q_head := q_head q; q_tail := q_tail q; q_shutdown := true |}.

(** The loop of [bm_queue_destroy]; the fuel bounds the number of nodes. *)
Fixpoint destroy_loop (fuel : nat) (h : node_heap) (curr : option ptr) : cres node_heap :=
  match curr with
  | None => Ok h
  | Some p =>
      match fuel with
      | O => Ub
      | S fuel =>
          n ← deref h p;
          h ← free_node h p;
          destroy_loop fuel h (node_next n)
      end
  end.

Definition bm_queue_destroy (h : node_heap) (q : bm_queue_t) : cres (node_heap * bm_queue_t) :=
  h ← destroy_loop (size h) h (q_head q);
  Ok (h, {| q_head := None; q_tail := None; q_shutdown := q_shutdown q |}).

(** ** The threads

    [asleep] threads wait on the condition variable, [woken] ones have been signalled
    (or woke spuriously) and will take the mutex again, [detached] nodes have been
    taken out of the list by threads that have yet to free them. *)
Record queue_system := {
  heap : node_heap;
  queue : bm_queue_t;
  asleep : nat;
  woken : nat;
  detached : list ptr
}.

Definition queue_start : queue_system :=
  {| heap := ∅; queue := bm_queue_init; asleep := 0; woken := 0; detached := [] |}.

(** What a thread observes. *)
Inductive queue_event :=
| EPush (data : Z)
| EPop (data : Z)
| EClosed
| EShutdown
| ESilent.

(** Leaving the critical section of [bm_queue_pop], entered with [w] woken threads left. *)
Inductive pop_exit (s : queue_system) (w : nat) : pop_result -> queue_event -> queue_system -> Prop :=
| exit_wait : pop_exit s w PopWait ESilent
    {| heap := heap s; queue := queue s; asleep := S (asleep s); woken := w;
       detached := detached s |}
| exit_closed : pop_exit s w PopClosed EClosed
    {| heap := heap s; queue := queue s; asleep := asleep s; woken := w;
       detached := detached s |}
| exit_item d p q : pop_exit s w (PopItem d p q) (EPop d)
    {| heap := heap s; queue := q; asleep := asleep s; woken := w;
       detached := p :: detached s |}.

Inductive queue_system_step (s : queue_system) : queue_event -> queue_system -> Prop :=
(* pthread_cond_signal wakes one sleeper if there is one *)
| sys_push p d h q :
    heap s !! p = None ->
    bm_queue_push (heap s) (queue s) p d = Ok (h, q) ->
    queue_system_step s (EPush d)
      {| heap := h; queue := q; asleep := asleep s - 1;
         woken := woken s + (if decide (asleep s = 0%nat) then 0 else 1);
         detached := detached s |}
(* a thread calls bm_queue_pop *)
| sys_pop_call r e s' :
    bm_queue_pop (heap s) (queue s) = Ok r -> pop_exit s (woken s) r e s' ->
    queue_system_step s e s'
(* a woken thread takes the mutex back *)
| sys_pop_wake r e s' w :
    woken s = S w ->
    bm_queue_pop (heap s) (queue s) = Ok r -> pop_exit s w r e s' ->
    queue_system_step s e s'
| sys_spurious n :
    asleep s = S n ->
    queue_system_step s ESilent
      {| heap := heap s; queue := queue s; asleep := n; woken := S (woken s);
         detached := detached s |}
| sys_free p ds h :
    detached s ≡ₚ p :: ds -> free_node (heap s) p = Ok h ->
    queue_system_step s ESilent
      {| heap := h; queue := queue s; asleep := asleep s; woken := woken s; detached := ds |}
| sys_shutdown :
    queue_system_step s EShutdown
      {| heap := heap s; queue := bm_queue_shutdown (queue s); asleep := 0;
         woken := woken s + asleep s; detached := detached s |}.

(** Runs of a labelled system; silent steps leave no mark in the trace. *)
Inductive trace {S : Type} (step : S -> queue_event -> S -> Prop) : S -> list queue_event -> S -> Prop :=
| trace_nil s : trace step s [] s
| trace_silent s tr s1 s2 :
    trace step s tr s1 -> step s1 ESilent s2 -> trace step s tr s2
| trace_snoc s tr s1 e s2 :
    trace step s tr s1 -> step s1 e s2 -> e <> ESilent -> trace step s (tr ++ [e]) s2.

(** ** The specification: a FIFO list that can be closed *)

Record fifo := { items : list Z; closed : bool }.

Inductive fifo_step : fifo -> queue_event -> fifo -> Prop :=
| fifo_push l c d : fifo_step {| items := l; closed := c |} (EPush d)
                              {| items := l ++ [d]; closed := c |}
| fifo_pop l c d : fifo_step {| items := d :: l; closed := c |} (EPop d)
                             {| items := l; closed := c |}
| fifo_closed : fifo_step {| items := []; closed := true |} EClosed
                          {| items := []; closed := true |}
| fifo_shutdown l c : fifo_step {| items := l; closed := c |} EShutdown
                                {| items := l; closed := true |}
| fifo_silent f : fifo_step f ESilent f.

Definition fifo_start : fifo := {| items := []; closed := false |}.

(** ** Representation of a list by a chain of nodes *)

(** [chain h p l ps]: from [p] the nodes at [ps] hold [l] and the last [next] is NULL. *)
Fixpoint chain (h : node_heap) (p : option ptr) (l : list Z) (ps : list ptr) : Prop :=
  match l, ps with
  | [], [] => p = None
  | d :: l, a :: ps =>
      p = Some a /\ exists n, h !! a = Some {| node_data := d; node_next := n |} /\ chain h n l ps
  | _, _ => False
  end.

Lemma chain_nil h p ps : chain h p [] ps <-> p = None /\ ps = [].
Proof. destruct ps; simpl; split; try done; by intros [? ?]. Qed.

Lemma chain_length h p l ps : chain h p l ps -> length l = length ps.
Proof.
  revert p ps. induction l as [|d l IH]; intros p [|a ps]; simpl; try done.
  intros (_ & n & _ & H). f_equal. eauto.
Qed.

(** Writes and frees outside the chain keep it. *)
Lemma chain_frame h h' p l ps :
  chain h p l ps -> (forall a, a ∈ ps -> h' !! a = h !! a) -> chain h' p l ps.
Proof.
  revert p ps. induction l as [|d l IH]; intros p [|a ps]; simpl; try done.
  intros (Hp & n & Hn & Hc) Hf. split; [done|]. exists n.
  rewrite Hf by (by left). split; [done|]. apply (IH _ _ Hc). intros b Hb. apply Hf. by right.
Qed.

Lemma chain_live h p l ps a : chain h p l ps -> a ∈ ps -> is_Some (h !! a).
Proof.
  revert p ps. induction l as [|d l IH]; intros p [|b ps]; simpl; try done.
  - by intros _ ?%elem_of_nil.
  - intros (_ & n & Hn & Hc) [->|Ha]%elem_of_cons; [by eexists|by eapply IH].
Qed.

(** Linking a fresh node behind the last one. *)
Lemma chain_snoc h p l ps t q d :
  chain h p l (ps ++ [t]) -> q ∉ ps ++ [t] -> NoDup (ps ++ [t]) ->
  chain (<[t := {| node_data := List.last l 0; node_next := Some q |}]>
           (<[q := {| node_data := d; node_next := None |}]> h))
        p (l ++ [d]) ((ps ++ [t]) ++ [q]).
Proof.
  revert p l. induction ps as [|a ps IH]; intros p [|x l] Hc Hq Hnd; simpl in *; try done.
  - destruct Hc as (-> & n & Hn & Hc).
    assert (l = []) as -> by (apply chain_length in Hc; by destruct l).
    assert (q <> t) by set_solver.
    split; [done|]. exists (Some q). rewrite lookup_insert_eq. split; [done|].
    simpl. split; [done|]. exists None. by rewrite lookup_insert_ne, lookup_insert_eq by done.
  - destruct Hc as (-> & n & Hn & Hc). split; [done|]. exists n.
    apply NoDup_cons in Hnd as [Ha Hnd]. rewrite elem_of_app in Ha.
    rewrite not_elem_of_cons in Hq. destruct Hq as [Hqa Hq].
    assert (l <> []) by (apply chain_length in Hc; rewrite length_app in Hc; destruct l; simpl in *; [lia|done]).
    split.
    + rewrite !lookup_insert_ne; [done| congruence | set_solver].
    + destruct l as [|y l]; [done|]. by apply (IH _ (y :: l)).
Qed.

Lemma last_data h p l ps t n :
  chain h p l (ps ++ [t]) -> h !! t = Some n -> node_data n = List.last l 0.
Proof.
  revert p l. induction ps as [|a ps IH]; intros p [|x l] Hc Ht; simpl in *; try done.
  - destruct Hc as (_ & n' & Hn & Hc). rewrite Ht in Hn. injection Hn as ->.
    assert (l = []) as -> by (apply chain_length in Hc; by destruct l). done.
  - destruct Hc as (_ & n' & Hn & Hc).
    destruct l as [|y l]; [by apply chain_length in Hc; rewrite length_app in Hc; simpl in Hc; lia|].
    by rewrite (IH _ _ Hc Ht).
Qed.

(** ** The invariant *)

(** [q] represents [l] through the nodes [ps]; the heap holds these nodes and the
    detached ones, nothing else. *)
Record queue_rep (s : queue_system) (l : list Z) (ps : list ptr) : Prop := {
  rep_chain : chain (heap s) (q_head (queue s)) l ps;
  rep_tail : q_tail (queue s) = last ps;
  rep_nodup : NoDup (ps ++ detached s);
  rep_dom : forall a, is_Some (heap s !! a) <-> a ∈ ps ++ detached s;
  (* no lost wake-up *)
  rep_wake : asleep s <> 0%nat -> (length l <= woken s)%nat;
  rep_shut : q_shutdown (queue s) = true -> asleep s = 0%nat
}.

Definition queue_refines (s : queue_system) (f : fifo) : Prop :=
  closed f = q_shutdown (queue s) /\ exists ps, queue_rep s (items f) ps.

Lemma queue_rep_start : queue_refines queue_start fifo_start.
Proof.
  split; [done|]. exists []. split; simpl; try done; [constructor|].
  intros a. rewrite lookup_empty. split; [by intros []|by intros ?%elem_of_nil].
Qed.

Lemma lookup_insert_live (h : node_heap) p n b :
  is_Some (<[p := n]> h !! b) <-> b = p \/ is_Some (h !! b).
Proof.
  destruct (decide (b = p)) as [->|].
  - rewrite lookup_insert_eq. split; [by left|by eexists].
  - rewrite lookup_insert_ne by done. naive_solver.
Qed.

(** ** Each critical section *)

Lemma queue_push_rep s l ps p d :
  queue_rep s l ps -> heap s !! p = None ->
  exists h q, bm_queue_push (heap s) (queue s) p d = Ok (h, q) /\
    q_shutdown q = q_shutdown (queue s) /\
    forall a w, (a <> 0%nat -> (length l < w)%nat) ->
      (q_shutdown (queue s) = true -> a = 0%nat) ->
      queue_rep {| heap := h; queue := q; asleep := a; woken := w; detached := detached s |}
        (l ++ [d]) (ps ++ [p]).
Proof.
  intros R Hp. destruct R as [Hc Ht Hnd Hdom _ _].
  assert (Hfresh : p ∉ ps ++ detached s) by (rewrite <- Hdom, Hp; by intros [? ?]).
  assert (Hnd' : NoDup ((ps ++ [p]) ++ detached s))
    by (rewrite <- app_assoc, Permutation_app_swap_app; by constructor).
  unfold bm_queue_push. destruct ps as [|t ps _] using rev_ind; simpl in Ht; rewrite Ht.
  - destruct l as [|x l]; [|done]. do 2 eexists. split; [reflexivity|]. split; [done|].
    intros a w Hw Hs. constructor; simpl; [|done|done| |intros Ha; specialize (Hw Ha); simpl in *; lia|done].
    + split; [done|]. exists None. by rewrite lookup_insert_eq.
    + intros b. rewrite elem_of_cons, <- (Hdom b). apply lookup_insert_live.
  - rewrite last_snoc in *. assert (t <> p) by set_solver.
    destruct (chain_live _ _ _ _ t Hc ltac:(set_solver)) as [n Hn].
    unfold deref. rewrite lookup_insert_ne, Hn by done. cbn_bind.
    do 2 eexists. split; [reflexivity|]. split; [done|]. intros a w Hw Hs.
    constructor; simpl; [|by rewrite last_snoc|done| |intros Ha; specialize (Hw Ha); rewrite length_app; simpl; lia|done].
    + rewrite (last_data _ _ _ _ _ _ Hc Hn). apply chain_snoc; [done| |]; [set_solver|].
      apply NoDup_app in Hnd. tauto.
    + intros b. rewrite <- app_assoc, Permutation_app_swap_app. simpl.
      rewrite elem_of_cons, <- (Hdom b), !lookup_insert_live. naive_solver.
Qed.

(** What one pass of [bm_queue_pop] does to the represented list. *)
Definition pop_outcome (s : queue_system) (l : list Z) (ps : list ptr) (r : pop_result) : Prop :=
  match r with
  | PopWait => l = [] /\ q_shutdown (queue s) = false
  | PopClosed => l = [] /\ q_shutdown (queue s) = true
  | PopItem d p q =>
      exists l' ps', l = d :: l' /\ ps = p :: ps' /\ q_shutdown q = q_shutdown (queue s) /\
        chain (heap s) (q_head q) l' ps' /\ q_tail q = last ps'
  end.

Lemma queue_pop_rep s l ps :
  queue_rep s l ps ->
  exists r, bm_queue_pop (heap s) (queue s) = Ok r /\ pop_outcome s l ps r.
Proof.
  intros [Hc Ht _ _ _ _]. unfold bm_queue_pop. destruct l as [|d l], ps as [|p ps]; simpl in Hc; try done.
  - rewrite Hc. destruct (q_shutdown (queue s)) eqn:E; eexists; (split; [done|]); simpl; auto.
  - destruct Hc as (-> & n & Hn & Hc). unfold deref. rewrite Hn. cbn_bind.
    eexists. split; [done|]. simpl. exists l, ps. repeat split; [done|].
    rewrite Ht. destruct l as [|x l], ps as [|b ps]; simpl in Hc; try done.
    + by rewrite Hc.
    + by destruct Hc as (-> & _).
Qed.

(** Detaching, sleeping and returning keep the representation. *)
Lemma pop_exit_refines s l ps w r e s' :
  queue_rep s l ps -> pop_outcome s l ps r -> pop_exit s w r e s' ->
  (asleep s <> 0%nat -> (length l <= S w)%nat) ->
  exists f', fifo_step {| items := l; closed := q_shutdown (queue s) |} e f' /\ queue_refines s' f'.
Proof.
  intros [Hc Ht Hnd Hdom Hw Hs] Ho He Hlen. destruct He as [| |d p q]; simpl in Ho.
  - destruct Ho as [-> Hf]. eexists. split; [constructor|]. split; [done|]. exists ps.
    constructor; simpl; try done; [intros; lia|congruence].
  - destruct Ho as [-> Hf]. rewrite Hf. eexists. split; [constructor|]. split; [done|]. exists ps.
    constructor; simpl; try done. intros; lia.
  - destruct Ho as (l' & ps' & -> & -> & Hq & Hc' & Ht'). eexists. split; [constructor|].
    split; [done|]. exists ps'. simpl in *.
    assert (Hp : ps' ++ p :: detached s ≡ₚ p :: ps' ++ detached s) by (symmetry; apply Permutation_middle).
    constructor; simpl; [done|done|by rewrite Hp| |intros Ha; specialize (Hlen Ha); lia|by rewrite Hq].
    intros a. by rewrite Hp, Hdom.
Qed.

Lemma queue_free_rep s l ps p ds :
  queue_rep s l ps -> detached s ≡ₚ p :: ds ->
  exists h, free_node (heap s) p = Ok h /\
    queue_rep {| heap := h; queue := queue s; asleep := asleep s; woken := woken s; detached := ds |} l ps.
Proof.
  intros [Hc Ht Hnd Hdom Hw Hs] Hd.
  assert (Hp : ps ++ detached s ≡ₚ p :: ps ++ ds) by (rewrite Hd; symmetry; apply Permutation_middle).
  rewrite Hp in Hnd. apply NoDup_cons in Hnd as [Hnp Hnd].
  assert (is_Some (heap s !! p)) as [n Hn] by (rewrite Hdom, Hp; by left).
  unfold free_node. rewrite Hn. eexists. split; [done|].
  constructor; simpl; try done.
  - apply (chain_frame _ _ _ _ _ Hc). intros a Ha. rewrite lookup_delete_ne; [done|].
    intros ->. apply Hnp, elem_of_app. by left.
  - intros a. destruct (decide (a = p)) as [->|].
    + rewrite lookup_delete_eq. split; [by intros [? ?]|done].
    + rewrite lookup_delete_ne, Hdom, Hp, elem_of_cons by done. naive_solver.
Qed.

Lemma destroy_loop_frees l : forall h p ps ds fuel,
  chain h p l ps -> NoDup (ps ++ ds) -> (forall a, is_Some (h !! a) <-> a ∈ ps ++ ds) ->
  (length l <= fuel)%nat ->
  exists h', destroy_loop fuel h p = Ok h' /\ forall a, is_Some (h' !! a) <-> a ∈ ds.
Proof.
  induction l as [|d l IH]; intros h p ps ds fuel Hc Hnd Hdom Hf; destruct ps as [|a ps]; simpl in Hc; try done.
  - subst p. exists h. by destruct fuel.
  - destruct Hc as (-> & n & Hn & Hc). destruct fuel as [|fuel]; [simpl in Hf; lia|].
    simpl in Hnd. apply NoDup_cons in Hnd as [Ha Hnd].
    simpl. unfold deref, free_node. rewrite Hn. cbn_bind. rewrite ?Hn. cbn_bind.
    apply (IH _ _ ps); [|done| |simpl in Hf; lia].
    + apply (chain_frame _ _ _ _ _ Hc). intros b Hb. rewrite lookup_delete_ne; [done|].
      intros ->. apply Ha, elem_of_app. by left.
    + intros b. destruct (decide (b = a)) as [->|].
      * rewrite lookup_delete_eq. split; [by intros [? ?]|done].
      * rewrite lookup_delete_ne, Hdom by done. simpl. rewrite elem_of_cons. naive_solver.
Qed.

Lemma queue_step_refines s e s' f :
  queue_refines s f -> queue_system_step s e s' ->
  exists f', fifo_step f e f' /\ queue_refines s' f'.
Proof.
  destruct f as [l c]. intros [Hcl [ps R]] H. simpl in Hcl, R. subst c.
  pose proof R as [Hc Ht Hnd Hdom Hw Hs].
  destruct H as [p d h q Hp Hpush|r e s' Hr He|r e s' w Hwk Hr He|n Hn|p ds h Hd Hf|].
  - destruct (queue_push_rep _ _ _ p d R Hp) as (h' & q' & E & Hsh & Hrep).
    rewrite E in Hpush. injection Hpush as <- <-. eexists. split; [constructor|].
    split; [done|]. exists (ps ++ [p]). simpl. apply Hrep.
    + intros Ha. specialize (Hw ltac:(lia)). case_decide; lia.
    + intros Hshut. rewrite (Hs Hshut). done.
  - destruct (queue_pop_rep _ _ _ R) as (r' & E & Ho). rewrite E in Hr. injection Hr as <-.
    apply (pop_exit_refines s l ps (woken s) r' e s' R Ho He). intros Ha. specialize (Hw Ha). lia.
  - destruct (queue_pop_rep _ _ _ R) as (r' & E & Ho). rewrite E in Hr. injection Hr as <-.
    apply (pop_exit_refines s l ps w r' e s' R Ho He). intros Ha. specialize (Hw Ha). lia.
  - eexists. split; [constructor|]. split; [done|]. exists ps. constructor; simpl; try done.
    + intros _. specialize (Hw ltac:(lia)). lia.
    + intros Hshut. rewrite (Hs Hshut) in Hn. done.
  - destruct (queue_free_rep _ _ _ p ds R Hd) as (h' & E & Hrep). rewrite E in Hf. injection Hf as <-.
    eexists. split; [constructor|]. split; [done|]. by exists ps.
  - eexists. split; [constructor|]. split; [done|]. exists ps. by constructor.
Qed.

Lemma queue_trace_refines tr s :
  trace queue_system_step queue_start tr s ->
  exists f, trace fifo_step fifo_start tr f /\ queue_refines s f.
Proof.
  remember queue_start as s0 eqn:E. intros H. induction H as [s|s tr s1 s2 H IH Hst|s tr s1 e s2 H IH Hst Hne]; subst s.
  - exists fifo_start. split; [constructor|]. apply queue_rep_start.
  - destruct (IH eq_refl) as (f & Ht & Hr). destruct (queue_step_refines _ _ _ _ Hr Hst) as (f' & Hs' & Hr').
    exists f'. split; [|done]. by eapply trace_silent.
  - destruct (IH eq_refl) as (f & Ht & Hr). destruct (queue_step_refines _ _ _ _ Hr Hst) as (f' & Hs' & Hr').
    exists f'. split; [|done]. by eapply trace_snoc.
Qed.

(** In every reachable state each operation is defined: no node is read or freed
    after it was freed, and destroying the queue frees exactly the nodes in it. *)
Lemma queue_defined tr s :
  trace queue_system_step queue_start tr s ->
  (forall p d, heap s !! p = None -> is_ok (bm_queue_push (heap s) (queue s) p d) = true) /\
  is_ok (bm_queue_pop (heap s) (queue s)) = true /\
  (forall p, p ∈ detached s -> is_ok (free_node (heap s) p) = true) /\
  (exists h q, bm_queue_destroy (heap s) (queue s) = Ok (h, q) /\
     forall a, is_Some (h !! a) <-> a ∈ detached s).
Proof.
  intros H. destruct (queue_trace_refines _ _ H) as ([l c] & _ & _ & ps & R). simpl in R.
  repeat split.
  - intros p d Hp. by destruct (queue_push_rep _ _ _ p d R Hp) as (h & q & -> & _).
  - by destruct (queue_pop_rep _ _ _ R) as (r & -> & _).
  - intros p Hp. destruct R as [_ _ _ Hdom _ _]. unfold free_node.
    assert (is_Some (heap s !! p)) as [n ->] by (rewrite Hdom, elem_of_app; by right). done.
  - destruct R as [Hc _ Hnd Hdom _ _]. unfold bm_queue_destroy.
    destruct (destroy_loop_frees l (heap s) _ ps (detached s) (size (heap s)) Hc Hnd Hdom)
      as (h & -> & Hh); [|cbn_bind; by eauto].
    rewrite (chain_length _ _ _ _ Hc), <- size_dom.
    assert (list_to_set ps ⊆ dom (heap s)) as Hsub.
    { intros a Ha%elem_of_list_to_set. apply elem_of_dom, Hdom, elem_of_app. by left. }
    apply subseteq_size in Hsub. apply NoDup_app in Hnd as [Hnd _].
    by rewrite size_list_to_set in Hsub.
Qed.

(** ** The log throttle *)

Record bm_log_throttle := { last_emit : Z; suppressed : Z; emitted : bool }.

(** The result is [Some n] when the caller should log, [n] being the number of calls
    silenced since the last one, and [None] when it should not. *)
Definition bm_log_throttle_check (t : bm_log_throttle) (now interval_seconds : Z)
  : cres (option Z * bm_log_throttle) :=
  emit ← (if negb (emitted t) then Ok true
          else
            d ← int64 (now - last_emit t);
            Ok ((interval_seconds <=? d) || (now <? last_emit t)));
  if emit : bool then
    Ok (Some (suppressed t), {| last_emit := now; suppressed := 0; emitted := true |})
  else
    Ok (None, {| last_emit := last_emit t; suppressed := u64 (suppressed t + 1); emitted := emitted t |}).

Definition throttle_start : bm_log_throttle :=
  {| last_emit := 0; suppressed := 0; emitted := false |}.

(** A sequence of calls at the given times, with the answers. *)
Fixpoint throttle_calls (t : bm_log_throttle) (interval : Z) (times : list Z)
  : cres (list (option Z) * bm_log_throttle) :=
  match times with
  | [] => Ok ([], t)
  | now :: times =>
      '(a, t) ← bm_log_throttle_check t now interval;
      '(l, t) ← throttle_calls t interval times;
      Ok (a :: l, t)
  end.

(** The calls that the answers account for: each answered one and those it reports. *)
Fixpoint accounted (l : list (option Z)) : Z :=
  match l with
  | [] => 0
  | Some n :: l => 1 + n + accounted l
  | None :: l => accounted l
  end.

Definition unix_time (t : Z) : Prop := 0 <= t < 2 ^ 62.

(** No call is forgotten: every call is logged, reported by a later log line, or still
    counted in the state. *)
Theorem throttle_accounts interval times t :
  Forall unix_time times -> unix_time (last_emit t) ->
  0 <= suppressed t -> suppressed t + Z.of_nat (length times) < 2 ^ 64 ->
  exists l t', throttle_calls t interval times = Ok (l, t') /\
    length l = length times /\
    accounted l + suppressed t' = suppressed t + Z.of_nat (length times).
Proof.
  intros Ht. revert t. induction Ht as [|now times Hn Ht IH]; intros t Hl Hs Hb.
  { exists [], t. simpl. repeat split; lia. }
  cbn [throttle_calls length] in *. unfold bm_log_throttle_check.
  assert (exists b, (if negb (emitted t) then Ok true
    else d ← int64 (now - last_emit t); Ok ((interval <=? d) || (now <? last_emit t))) = Ok b) as [b ->].
  { destruct (emitted t); [|by eexists]. unfold unix_time in *. rewrite int64_ok by lia.
    cbn_bind. by eexists. }
  cbn_bind. destruct b; cbn_bind.
  - destruct (IH {| last_emit := now; suppressed := 0; emitted := true |}) as (l & t' & -> & Hlen & Hacc);
      simpl in *; [done|lia|lia|].
    cbn_bind. do 2 eexists. split; [done|]. simpl. split; [lia|lia].
  - assert (u64 (suppressed t + 1) = suppressed t + 1) as -> by (apply u64_small; unfold is_u64; lia).
    destruct (IH {| last_emit := last_emit t; suppressed := suppressed t + 1; emitted := emitted t |})
      as (l & t' & -> & Hlen & Hacc); simpl in *; [done|lia|lia|].
    cbn_bind. do 2 eexists. split; [done|]. simpl. split; lia.
Qed.

(** ** Properties *)

(** C6: the linked queue refines a FIFO list.  Whatever the threads do and wherever
    [malloc] puts the nodes, what they observe (items pushed and popped, the answer
    that the queue is closed and empty, the shutdown) is a run of the list; the nodes
    represent that list; every operation is defined in the state reached, so no node is
    read or freed after it was freed, and destroying the queue frees exactly the nodes
    in it; and no wake-up is lost: while a thread sleeps, there are at least as many
    woken threads as items, and none sleeps after the shutdown. *)
Theorem bm_queue_refines_fifo tr s :
  trace queue_system_step queue_start tr s ->
  exists f, trace fifo_step fifo_start tr f /\ queue_refines s f /\
    (asleep s <> 0%nat -> (length (items f) <= woken s)%nat /\ closed f = false) /\
    (forall p d, heap s !! p = None -> is_ok (bm_queue_push (heap s) (queue s) p d) = true) /\
    is_ok (bm_queue_pop (heap s) (queue s)) = true /\
    (forall p, p ∈ detached s -> is_ok (free_node (heap s) p) = true) /\
    (exists h q, bm_queue_destroy (heap s) (queue s) = Ok (h, q) /\
       forall a, is_Some (h !! a) <-> a ∈ detached s).
Proof.
  intros H. destruct (queue_trace_refines _ _ H) as (f & Ht & Hr).
  destruct (queue_defined _ _ H) as (Hpush & Hpop & Hfree & Hdes).
  exists f. split; [done|]. split; [done|]. split; [|by auto].
  destruct Hr as [Hc [ps [_ _ _ _ Hw Hs]]]. intros Ha. split; [auto|].
  rewrite Hc. destruct (q_shutdown (queue s)); [|done]. by specialize (Hs eq_refl).
Qed.

Definition queue_after_push : queue_system :=
  {| heap := {[1%positive := {| node_data := 7; node_next := None |}]};
     queue := {| q_head := Some 1%positive; q_tail := Some 1%positive; q_shutdown := false |};
     asleep := 0; woken := 0; detached := [] |}.

Lemma bm_queue_refines_fifo_witness :
  trace queue_system_step queue_start [EPush 7] queue_after_push /\
  exists f, trace fifo_step fifo_start [EPush 7] f /\ queue_refines queue_after_push f.
Proof.
  assert (H : trace queue_system_step queue_start ([] ++ [EPush 7]) queue_after_push).
  { eapply trace_snoc; [constructor| |done]. by apply (sys_push queue_start 1%positive 7). }
  split; [exact H|]. destruct (bm_queue_refines_fifo _ _ H) as (f & Ht & Hr & _). by exists f.
Defined.
