(* ===== verification/Varint.v ===== *)
(** * common/varint.c

    The variable-length integer, string and byte-string codec of the protocol.
    [bm_varint_encode] writes in place; [varint_bytes] are the bytes it stores.
    [bm_varint_decode] reads a block [data] of which the caller claims
    [data_len] bytes; the block itself may be shorter, in which case a read
    outside it is [Ub]. *)

From stdpp Require Import base tactics list numbers option.
From S2P Require Import Prelude.

(** ** Operations *)

Definition bm_varint_size (v : Z) : Z :=
  if v <? 253 then 1
  else if v <=? 65535 then 3
  else if v <=? 4294967295 then 5
  else 9.

Definition varint_bytes (v : Z) : list Z :=
  if v <? 253 then [u8 v]
  else if v <=? 65535 then
    [253; Z.land (Z.shiftr v 8) 255; Z.land v 255]
  else if v <=? 4294967295 then
    [254; Z.land (Z.shiftr v 24) 255; Z.land (Z.shiftr v 16) 255;
     Z.land (Z.shiftr v 8) 255; Z.land v 255]
  else
    [255; Z.land (Z.shiftr v 56) 255; Z.land (Z.shiftr v 48) 255;
     Z.land (Z.shiftr v 40) 255; Z.land (Z.shiftr v 32) 255;
     Z.land (Z.shiftr v 24) 255; Z.land (Z.shiftr v 16) 255;
     Z.land (Z.shiftr v 8) 255; Z.land v 255].

(** [out] is a position in a block; [None] is the null pointer. *)
Definition bm_varint_encode (out : option (list Z * Z)) (v : Z) : cres (list Z) :=
  match out with
  | None => Err
  | Some (buf, off) => wr buf off (varint_bytes v)
  end.

Definition bm_varint_decode (data : list Z) (data_len : Z) : cres (Z * Z) :=
  if data_len <? 1 then Err else
  d0 ← rd data 0;
  if d0 <? 253 then Ok (1, d0) else
  if d0 =? 253 then
    if data_len <? 3 then Err else
    d1 ← rd data 1; d2 ← rd data 2;
    Ok (3, Z.lor (Z.shiftl d1 8) d2)
  else if d0 =? 254 then
    if data_len <? 5 then Err else
    d1 ← rd data 1; d2 ← rd data 2; d3 ← rd data 3; d4 ← rd data 4;
    Ok (5, Z.lor (Z.lor (Z.lor (Z.shiftl d1 24) (Z.shiftl d2 16))
                        (Z.shiftl d3 8)) d4)
  else
    if data_len <? 9 then Err else
    d1 ← rd data 1; d2 ← rd data 2; d3 ← rd data 3; d4 ← rd data 4;
    d5 ← rd data 5; d6 ← rd data 6; d7 ← rd data 7; d8 ← rd data 8;
    Ok (9, Z.lor (Z.lor (Z.lor (Z.lor (Z.lor (Z.lor (Z.lor
             (Z.shiftl d1 56) (Z.shiftl d2 48)) (Z.shiftl d3 40)) (Z.shiftl d4 32))
             (Z.shiftl d5 24)) (Z.shiftl d6 16)) (Z.shiftl d7 8)) d8).

(** A C string is the list of its bytes before the terminating NUL. *)
Definition bm_varstr_size (str : list Z) : Z := bm_varint_size (blen str) + blen str.

Definition bm_varstr_encode (out : option (list Z * Z)) (str : list Z) : cres (list Z) :=
  match out with
  | None => Err
  | Some (buf, off) =>
      buf ← bm_varint_encode (Some (buf, off)) (blen str);
      wr buf (off + bm_varint_size (blen str)) str
  end.

Definition bm_varbytes_size (len : Z) : Z := bm_varint_size len + len.

Definition bm_varbytes_encode (out : option (list Z * Z)) (data : list Z) : cres (list Z) :=
  match out with
  | None => Err
  | Some (buf, off) =>
      buf ← bm_varint_encode (Some (buf, off)) (blen data);
      if 0 <? blen data
      then wr buf (off + bm_varint_size (blen data)) data
      else Ok buf
  end.

(** ** The encoded bytes *)

Lemma varint_bytes_be v :
  is_u64 v ->
  varint_bytes v =
    if v <? 253 then [v]
    else if v <=? 65535 then 253 :: be_split 2 v
    else if v <=? 4294967295 then 254 :: be_split 4 v
    else 255 :: be_split 8 v.
Proof.
  intros Hv. unfold varint_bytes.
  repeat case_match; simpl; rewrite ?Z.shiftr_0_r; try done.
  f_equal. apply Z.mod_small. unfold is_u64 in Hv. lia.
Qed.

Lemma blen_varint_bytes v : blen (varint_bytes v) = bm_varint_size v.
Proof. unfold varint_bytes, bm_varint_size. by repeat case_match. Qed.
#[export] Hint Rewrite blen_varint_bytes : blen.

Lemma bm_varint_size_pos v : 1 <= bm_varint_size v <= 9.
Proof. unfold bm_varint_size. repeat case_match; lia. Qed.

Lemma bytes_ok_varint_bytes v : is_u64 v -> bytes_ok (varint_bytes v).
Proof.
  intros Hv. rewrite varint_bytes_be by done. unfold is_u64 in Hv.
  repeat case_match; apply bytes_ok_cons; split; auto with bytes;
    unfold is_byte; lia.
Qed.
#[export] Hint Resolve bytes_ok_varint_bytes : bytes.

(** ** Decoding *)

Lemma shift_or_2 a b : is_byte b -> Z.lor (Z.shiftl a 8) b = be_combine [a; b].
Proof.
  intros. unfold is_byte in *. rewrite lor_shiftl_add by lia.
  unfold be_combine. simpl. lia.
Qed.

Lemma lor_shiftl_low x b k :
  0 <= k -> 0 <= b < 256 -> Z.lor (x * 2 ^ (k + 8)) (Z.shiftl b k) = (x * 256 + b) * 2 ^ k.
Proof.
  intros Hk Hb. rewrite Z.shiftl_mul_pow2 by lia.
  rewrite (lor_add _ _ (k + 8)); [|lia| |].
  - rewrite Z.pow_add_r by lia. change (2 ^ 8) with 256. lia.
  - apply Z.mod_mul. lia.
  - rewrite Z.pow_add_r by lia. change (2 ^ 8) with 256. nia.
Qed.

(** One step of the left-to-right accumulation [... | (b << k)]. *)
Lemma shift_or_step acc b k k' :
  0 <= k -> k' = k + 8 -> is_byte b ->
  Z.lor (Z.shiftl acc k') (Z.shiftl b k) = Z.shiftl (acc * 256 + b) k.
Proof.
  intros Hk -> Hb. unfold is_byte in Hb.
  rewrite (Z.shiftl_mul_pow2 acc), lor_shiftl_low by lia.
  by rewrite Z.shiftl_mul_pow2.
Qed.

Lemma shift_or_last acc b : is_byte b -> Z.lor (Z.shiftl acc 8) b = acc * 256 + b.
Proof. intros. unfold is_byte in *. by rewrite lor_shiftl_add by lia. Qed.

Lemma shift_or_4 a b c d :
  is_byte b -> is_byte c -> is_byte d ->
  Z.lor (Z.lor (Z.lor (Z.shiftl a 24) (Z.shiftl b 16)) (Z.shiftl c 8)) d
  = be_combine [a; b; c; d].
Proof. intros. by rewrite !shift_or_step, shift_or_last. Qed.

Lemma shift_or_8 a b c d e f g h :
  is_byte b -> is_byte c -> is_byte d -> is_byte e -> is_byte f -> is_byte g -> is_byte h ->
  Z.lor (Z.lor (Z.lor (Z.lor (Z.lor (Z.lor (Z.lor
     (Z.shiftl a 56) (Z.shiftl b 48)) (Z.shiftl c 40)) (Z.shiftl d 32))
     (Z.shiftl e 24)) (Z.shiftl f 16)) (Z.shiftl g 8)) h
  = be_combine [a; b; c; d; e; f; g; h].
Proof. intros. by rewrite !shift_or_step, shift_or_last. Qed.

Lemma rd_head b l : rd (b :: l) 0 = Ok b.
Proof. apply rd_ok; [lia|done]. Qed.

Lemma rd_tail b l off : 0 < off -> rd (b :: l) off = rd l (off - 1).
Proof.
  intros. unfold rd. rewrite blen_cons.
  replace (0 <=? off - 1) with (0 <=? off) by (apply eq_true_iff_eq; rewrite !Z.leb_le; lia).
  replace (off - 1 <? blen l) with (off <? 1 + blen l)
    by (apply eq_true_iff_eq; rewrite !Z.ltb_lt; lia).
  replace (Z.to_nat off) with (S (Z.to_nat (off - 1))) by lia. done.
Qed.

(** [rd_simpl]: evaluate reads at constant offsets of an explicit prefix. *)
Ltac rd_simpl :=
  repeat (first [rewrite rd_head | rewrite rd_tail by lia;
    match goal with
    | |- context [rd _ ?o] => let o' := eval vm_compute in o in change o with o'
    end]; simpl mbind; cbv beta iota).

Lemma varint_decode_cases v rest n :
  is_u64 v -> bm_varint_size v <= n ->
  bm_varint_decode (varint_bytes v ++ rest) n = Ok (bm_varint_size v, v).
Proof.
  intros Hv Hn. pose proof (be_combine_split 2 v) as E2.
  pose proof (be_combine_split 4 v) as E4. pose proof (be_combine_split 8 v) as E8.
  pose proof (bytes_ok_be_split 8 v) as B. rewrite varint_bytes_be by done.
  unfold is_u64 in Hv. cbn [be_split Z.of_nat Z.mul] in *.
  repeat (apply bytes_ok_cons in B as [? B]).
  unfold bm_varint_size in *. unfold bm_varint_decode.
  destruct (Z.ltb_spec v 253); [|destruct (Z.leb_spec v 65535);
    [|destruct (Z.leb_spec v 4294967295)]];
    cbn [app] in *; zdec; rd_simpl; zdec; rd_simpl.
  - done.
  - rewrite shift_or_2 by done. rewrite E2. do 2 f_equal. apply Z.mod_small. lia.
  - rewrite shift_or_4 by done. rewrite E4. do 2 f_equal. apply Z.mod_small. lia.
  - rewrite shift_or_8 by done. rewrite E8. do 2 f_equal. apply Z.mod_small. lia.
Qed.

Lemma rd_nil off : rd [] off = Ub.
Proof.
  unfold rd. rewrite blen_nil. by destruct (Z.leb_spec 0 off), (Z.ltb_spec off 0); try lia.
Qed.

(** Expose [k] bytes of the block read by a successful decoding in [H]. *)
Ltac expose l H :=
  let b := fresh "b" in
  let l' := fresh "l" in
  destruct l as [|b l']; [rewrite ?rd_nil in H; simpl in H; discriminate|];
  repeat first [rewrite rd_head in H | rewrite rd_tail in H by lia;
    match type of H with
    | context [rd _ ?o] => let o' := eval vm_compute in o in change o with o' in H
    end]; simpl mbind in H; cbv beta iota in H.

Lemma be_split_fixed k l v :
  bytes_ok l -> length l = k -> be_combine l = v -> be_split k v = l.
Proof. intros ? <- <-. by apply be_split_combine. Qed.

Definition varint_ok (data : list Z) (n c v : Z) : Prop :=
  (c = 1 \/ c = 3 \/ c = 5 \/ c = 9) /\ c <= n /\ c <= blen data /\ is_u64 v
  /\ bm_varint_size v <= c
  /\ (c = bm_varint_size v -> take (Z.to_nat c) data = varint_bytes v).

Lemma varint_ok_intro data n k pre l rest v :
  (k = 2%nat /\ pre = 253) \/ (k = 4%nat /\ pre = 254) \/ (k = 8%nat /\ pre = 255) ->
  data = pre :: l ++ rest -> length l = k -> bytes_ok l -> v = be_combine l ->
  1 + Z.of_nat k <= n -> varint_ok data n (1 + Z.of_nat k) v.
Proof.
  intros Hk -> Hlen Hl -> Hn. pose proof (be_combine_bound l Hl) as Hv.
  assert (blen l = Z.of_nat k) as Eb by (unfold blen; lia). rewrite Eb in Hv.
  assert (Hu : is_u64 (be_combine l)).
  { unfold is_u64. destruct Hk as [[-> _]|[[-> _]|[-> _]]]; simpl in Hv; lia. }
  split_and!; [lia|lia| |done| |].
  - rewrite blen_cons, blen_app, Eb. pose proof (blen_nonneg rest). lia.
  - unfold bm_varint_size.
    destruct Hk as [[-> _]|[[-> _]|[-> _]]]; simpl in Hv; repeat case_match; lia.
  - intros Hc. rewrite varint_bytes_be by done.
    replace (Z.to_nat (1 + Z.of_nat k)) with (S k) by lia.
    cbn [take]. rewrite <- Hlen at 1. rewrite take_app_length.
    rewrite <- (be_split_combine l Hl) at 1. rewrite Hlen.
    unfold bm_varint_size in Hc.
    destruct Hk as [[-> ->]|[[-> ->]|[-> ->]]]; simpl in Hv; repeat case_match; try lia; done.
Qed.

Lemma varint_decode_inv data n c v :
  bytes_ok data -> bm_varint_decode data n = Ok (c, v) -> varint_ok data n c v.
Proof.
  intros Hb H. unfold bm_varint_decode in H.
  destruct (Z.ltb_spec n 1); [done|]. expose data H.
  apply bytes_ok_cons in Hb as [Hb0 Hb]. unfold is_byte in Hb0.
  destruct (Z.ltb_spec b 253).
  { inversion H; subst. unfold varint_ok, is_u64, bm_varint_size. zdec.
    pose proof (blen_nonneg l). rewrite blen_cons.
    split_and!; try lia. intros _. change (Z.to_nat 1) with 1%nat.
    rewrite varint_bytes_be by (unfold is_u64; lia). zdec. done. }
  destruct (Z.eqb_spec b 253); [|destruct (Z.eqb_spec b 254)].
  - destruct (Z.ltb_spec n 3); [done|]. expose l H. expose l0 H.
    repeat (apply bytes_ok_cons in Hb as [? Hb]). rewrite shift_or_2 in H by done.
    inversion H; subst. apply (varint_ok_intro _ _ 2 253 [b0; b1] l); try done; [lia|].
    solve_bytes.
  - destruct (Z.ltb_spec n 5); [done|]. expose l H. expose l0 H. expose l H. expose l0 H.
    repeat (apply bytes_ok_cons in Hb as [? Hb]). rewrite shift_or_4 in H by done.
    inversion H; subst. apply (varint_ok_intro _ _ 4 254 [b0; b1; b2; b3] l); try done; [lia|].
    solve_bytes.
  - destruct (Z.ltb_spec n 9); [done|]. assert (b = 255) as -> by lia.
    expose l H. expose l0 H. expose l H. expose l0 H.
    expose l H. expose l0 H. expose l H. expose l0 H.
    repeat (apply bytes_ok_cons in Hb as [? Hb]). rewrite shift_or_8 in H by done.
    inversion H; subst.
    apply (varint_ok_intro _ _ 8 255 [b; b0; b1; b2; b3; b4; b5; b6] l); try done; [lia|].
    solve_bytes.
Qed.

Lemma varint_decode_safe data n : n <= blen data -> safe (bm_varint_decode data n).
Proof.
  intros Hn. unfold bm_varint_decode. destruct (Z.ltb_spec n 1); [done|].
  assert (R : forall o, 0 <= o < n -> exists b, rd data o = Ok b).
  { intros o Ho. destruct (rd_in data o) as (b & Hb & _); [lia|eauto]. }
  destruct (R 0) as [b ->]; [lia|]. simpl.
  case_match; [done|].
  case_match; [|case_match]; (case_match; [done|]);
    repeat match goal with
    | |- context [rd data ?o] => destruct (R o) as [? ->]; [lia|]; simpl
    end; done.
Qed.

Lemma varint_decode_le data n c v : bm_varint_decode data n = Ok (c, v) -> 1 <= c <= n.
Proof.
  unfold bm_varint_decode. intros Hd. destruct (Z.ltb_spec n 1); [done|].
  inv_bind Hd. repeat case_match; try done; repeat inv_bind Hd; simplify_eq; lia.
Qed.

Lemma varint_encode_fill done rest v :
  bm_varint_size v <= blen rest ->
  bm_varint_encode (Some (done ++ rest, blen done)) v
  = Ok ((done ++ varint_bytes v) ++ drop (Z.to_nat (bm_varint_size v)) rest).
Proof.
  intros. unfold bm_varint_encode. rewrite wr_fill; [|done|];
    by rewrite blen_varint_bytes.
Qed.

Lemma varint_encode_malloc done m v off :
  off = blen done -> bm_varint_size v <= m ->
  bm_varint_encode (Some (done ++ malloc m, off)) v
  = Ok ((done ++ varint_bytes v) ++ malloc (m - bm_varint_size v)).
Proof.
  intros. unfold bm_varint_encode. rewrite wr_malloc; rewrite ?blen_varint_bytes; done.
Qed.

Lemma varint_encode_malloc_start m v :
  bm_varint_size v <= m ->
  bm_varint_encode (Some (malloc m, 0)) v
  = Ok (varint_bytes v ++ malloc (m - bm_varint_size v)).
Proof. intros. by rewrite <- (app_nil_l (malloc m)), varint_encode_malloc. Qed.

(** The string encoder fills exactly [bm_varstr_size] bytes with the length
    prefix and the characters. *)
Lemma varstr_encode_fill done rest str :
  bm_varstr_size str <= blen rest ->
  bm_varstr_encode (Some (done ++ rest, blen done)) str
  = Ok ((done ++ varint_bytes (blen str) ++ str)
          ++ drop (Z.to_nat (bm_varstr_size str)) rest).
Proof.
  unfold bm_varstr_size. intros H. pose proof (bm_varint_size_pos (blen str)).
  pose proof (blen_nonneg str). unfold bm_varstr_encode.
  rewrite varint_encode_fill by lia. simpl mbind. cbv beta iota.
  rewrite wr_fill.
  - rewrite drop_drop, <- !app_assoc. do 5 f_equal. lia.
  - solve_blen.
  - rewrite blen_drop; lia.
Qed.

Lemma varstr_encode_malloc done m str off :
  off = blen done -> bm_varstr_size str <= m ->
  bm_varstr_encode (Some (done ++ malloc m, off)) str
  = Ok ((done ++ varint_bytes (blen str) ++ str) ++ malloc (m - bm_varstr_size str)).
Proof.
  intros -> Hm. pose proof (bm_varint_size_pos (blen str)). pose proof (blen_nonneg str).
  unfold bm_varstr_size in *.
  rewrite varstr_encode_fill by (rewrite blen_malloc; unfold bm_varstr_size; lia).
  unfold bm_varstr_size. by rewrite drop_malloc by lia.
Qed.

(** ** Properties *)

(** Every 64-bit value survives the codec: [bm_varint_encode] fills a block
    of [bm_varint_size] bytes completely, and [bm_varint_decode] on that block,
    whatever follows it and whatever larger length is claimed, consumes exactly
    those bytes and returns the value. *)
Theorem bm_varint_roundtrip (v : Z) (rest : list Z) (n : Z) :
  is_u64 v -> bm_varint_size v <= n ->
  exists buf,
    bm_varint_encode (Some (malloc (bm_varint_size v), 0)) v = Ok buf
    /\ bytes_ok buf /\ blen buf = bm_varint_size v
    /\ bm_varint_decode (buf ++ rest) n = Ok (bm_varint_size v, v).
Proof.
  intros Hv Hn. exists (varint_bytes v). pose proof (bm_varint_size_pos v).
  split_and!; [|by auto with bytes|apply blen_varint_bytes|by apply varint_decode_cases].
  apply wr_exact. rewrite blen_varint_bytes, blen_malloc; lia.
Qed.

Lemma bm_varint_roundtrip_witness :
  exists buf,
    bm_varint_encode (Some (malloc (bm_varint_size 8444), 0)) 8444 = Ok buf
    /\ bytes_ok buf /\ blen buf = bm_varint_size 8444
    /\ bm_varint_decode (buf ++ [7]) 4 = Ok (bm_varint_size 8444, 8444).
Proof. apply (bm_varint_roundtrip 8444 [7] 4); [unfold is_u64; lia|vm_compute; done]. Defined.

(** [bm_varint_decode] never reads outside a block at least as long as the
    claimed length; when it succeeds it consumed 1, 3, 5 or 9 bytes that lie
    inside the block and the claimed length, the value fits 64 bits, no shorter
    form of it exists than [bm_varint_size], and when that many bytes were
    consumed they are the canonical encoding of the value. *)
Theorem bm_varint_decode_bounds (data : list Z) (n : Z) :
  bytes_ok data -> n <= blen data ->
  safe (bm_varint_decode data n)
  /\ forall c v, bm_varint_decode data n = Ok (c, v) -> varint_ok data n c v.
Proof.
  intros Hb Hn. split; [by apply varint_decode_safe|].
  intros c v. by apply varint_decode_inv.
Qed.

Lemma bm_varint_decode_bounds_witness :
  safe (bm_varint_decode [253; 0; 5; 9] 3)
  /\ forall c v, bm_varint_decode [253; 0; 5; 9] 3 = Ok (c, v) ->
     varint_ok [253; 0; 5; 9] 3 c v.
Proof.
  apply (bm_varint_decode_bounds [253; 0; 5; 9] 3);
    [by apply (bool_decide_unpack _); vm_compute|vm_compute; done].
Defined.
