(* ===== verification/Json.v ===== *)
(** * common/json.c

    The JSON reader and writer of the command-line client: the parser over a cursor, the
    values and their accessors, the serializer over its growable string buffer.

    The cursor [c->p .. c->end] is the list of the bytes not yet read, so reading
    through an exhausted cursor is reading from the empty list.  A failed parse
    (NULL) is [Err].  Floating-point numbers are the class [CDouble].  A string is
    its bytes before the terminating NUL. *)

From Stdlib Require Import String.
From stdpp Require Import base tactics list numbers option.
From S2P Require Import Prelude.

(** ** Numbers *)

(** [snprintf("%lld")]: a [long long] has at most 19 decimal digits. *)
Fixpoint decimal (fuel : nat) (n : Z) (acc : list Z) : list Z :=
  match fuel with
  | O => acc
  | S fuel =>
      let acc := 48 + n mod 10 :: acc in
      if n / 10 =? 0 then acc else decimal fuel (n / 10) acc
  end.
Definition fmt_lld (z : Z) : list Z :=
  (if z <? 0 then [45] else []) ++ decimal 19 (Z.abs z) [].

Definition is_digit (c : Z) : bool := (48 <=? c) && (c <=? 57).
Definition digits (l : list Z) : Prop := l <> [] /\ Forall (fun c => is_digit c = true) l.

(** Text of a number: sign, integer part, fraction, exponent. *)
Definition number_text (l : list Z) : Prop :=
  exists (neg : bool) (i : list Z) (f : option (list Z)) (e : option (bool * list Z)),
    l = (if neg then [45] else []) ++ i
        ++ match f with Some f => 46 :: f | None => [] end
        ++ match e with Some (m, e) => 101 :: (if m : bool then 45 else 43) :: e | None => [] end
    /\ digits i
    /\ match f with Some f => digits f | None => True end
    /\ match e with Some (_, e) => digits e | None => True end.

(** [double] and what the code does with it: [strtod], the casts from and to
    [long long] (undefined when the value does not fit), [==], [snprintf("%.17g")]
    and the constant [0.0]. *)
Class CDouble := {
  double : Type;
  strtod : list Z -> double;
  to_llong : double -> cres Z;
  of_llong : Z -> double;
  double_eqb : double -> double -> bool;
  fmt_17g : double -> list Z;
  double_zero : double;
  (** finite, of magnitude below 2^63, not a negative zero *)
  plain_double : double -> Prop;
}.

Class CDoubleLaws `{CDouble} : Prop := {
  (** such a value can be cast, and one that is an integer is read back from its digits *)
  to_llong_plain d : plain_double d ->
    exists z, to_llong d = Ok z /\ (double_eqb d (of_llong z) = true -> strtod (fmt_lld z) = d);
  (** seventeen significant digits determine a double; they take at most 24 characters *)
  fmt_17g_plain d : plain_double d ->
    number_text (fmt_17g d) /\ (length (fmt_17g d) <= 24)%nat /\ strtod (fmt_17g d) = d;
}.

(** ** Growable strings: [struct strbuf], and the triple [out], [out_len], [out_cap]
    of the parser *)

(** [sb_data] is the block of [sb_cap] bytes, [] for the null pointer. *)
Record strbuf := {
  sb_data : list Z;
  sb_len : Z;
  sb_cap : Z;
}.

Definition sb_null : strbuf := {| sb_data := []; sb_len := 0; sb_cap := 0 |}.

(** [while (cap < need) cap *= 2;] *)
Fixpoint double_until (fuel : nat) (cap need : Z) : cres Z :=
  if cap <? need then
    match fuel with O => Ub | S fuel => double_until fuel (cap * 2) need end
  else Ok cap.

(** [realloc] to a larger block. *)
Definition sb_realloc (b : strbuf) (cap : Z) : strbuf :=
  {| sb_data := sb_data b ++ malloc (cap - sb_cap b); sb_len := sb_len b; sb_cap := cap |}.

Section Json.
Context `{CDouble}.

(** ** Values *)

#[warnings="-register-all"]
Inductive bm_json_value :=
| BM_JSON_NULL
| BM_JSON_BOOL (boolean : bool)
| BM_JSON_NUMBER (number : double)
| BM_JSON_STRING (str : list Z)
| BM_JSON_ARRAY (items : list bm_json_value)
| BM_JSON_OBJECT (pairs : list (list Z * bm_json_value)).

(** ** Parser *)

Fixpoint skip_ws (c : list Z) : list Z :=
  match c with
  | ch :: rest =>
      if (ch =? 32) || (ch =? 9) || (ch =? 10) || (ch =? 13) then skip_ws rest else c
  | [] => []
  end.

Definition match_literal (c lit : list Z) : option (list Z) :=
  if (blen c <? blen lit) || negb (list_eqb (take (length lit) c) lit) then None
  else Some (drop (length lit) c).

(** The loop over digits: what is skipped and what is left. *)
Fixpoint skip_digits (c : list Z) : list Z * list Z :=
  match c with
  | ch :: rest =>
      if is_digit ch then let '(ds, c') := skip_digits rest in (ch :: ds, c') else ([], c)
  | [] => ([], [])
  end.

(** One digit is required, then as many as there are. *)
Definition some_digits (c : list Z) : cres (list Z * list Z) :=
  match c with
  | ch :: _ => if is_digit ch then Ok (skip_digits c) else Err
  | [] => Err
  end.

Definition head_is (c : list Z) (ch : Z) : bool :=
  match c with x :: _ => x =? ch | [] => false end.

(** The cursor movements of [parse_number]: the text from [start] and the rest. *)
Definition scan_number (c : list Z) : cres (list Z * list Z) :=
  let '(sign, c) := if head_is c 45 then ([45], drop 1 c) else ([], c) in
  '(i, c) ← some_digits c;
  '(f, c) ← (if head_is c 46 then
               '(f, c) ← some_digits (drop 1 c); Ok (46 :: f, c)
             else Ok ([], c));
  '(e, c) ← (match c with
             | x :: c' =>
                 if (x =? 101) || (x =? 69) then
                   let '(m, c') := match c' with
                                   | y :: c'' => if (y =? 43) || (y =? 45) then ([y], c'') else ([], c')
                                   | [] => ([], c')
                                   end in
                   '(e, c) ← some_digits c'; Ok (x :: m ++ e, c)
                 else Ok ([], c)
             | [] => Ok ([], c)
             end);
  Ok (sign ++ i ++ f ++ e, c).

Definition parse_number (c : list Z) : cres (bm_json_value * list Z) :=
  '(text, c) ← scan_number c;
  Ok (BM_JSON_NUMBER (strtod text), c).

(** The bytes [append_utf8] writes for a code point below 2^16. *)
Definition utf8_bytes (cp : Z) : list Z :=
  if cp <? 128 then [u8 cp]
  else if cp <? 2048 then
    [u8 (Z.lor 192 (Z.shiftr cp 6)); u8 (Z.lor 128 (Z.land cp 63))]
  else
    [u8 (Z.lor 224 (Z.shiftr cp 12)); u8 (Z.lor 128 (Z.land (Z.shiftr cp 6) 63));
     u8 (Z.lor 128 (Z.land cp 63))].

(** Room for [n] bytes and a NUL in the buffer of the string being read. *)
Definition out_reserve (b : strbuf) (n : Z) : cres strbuf :=
  if sb_len b + n + 1 >? sb_cap b then
    cap ← double_until (Z.to_nat (sb_len b + n + 1))
            (if sb_cap b =? 0 then 16 else sb_cap b * 2) (sb_len b + n + 1);
    Ok (sb_realloc b cap)
  else Ok b.

Definition out_append (b : strbuf) (bytes : list Z) : cres strbuf :=
  b ← out_reserve b (blen bytes);
  data ← wr (sb_data b) (sb_len b) bytes;
  Ok {| sb_data := data; sb_len := sb_len b + blen bytes; sb_cap := sb_cap b |}.

Definition append_utf8 (b : strbuf) (cp : Z) : cres strbuf := out_append b (utf8_bytes cp).
Definition append_raw_byte (b : strbuf) (byte : Z) : cres strbuf := out_append b [byte].

Definition hex_digit (ch : Z) : Z :=
  if (48 <=? ch) && (ch <=? 57) then ch - 48
  else if (97 <=? ch) && (ch <=? 102) then ch - 97 + 10
  else if (65 <=? ch) && (ch <=? 70) then ch - 65 + 10
  else -1.

(** The four digits of a [\u] escape. *)
Fixpoint hex_loop (n : nat) (c : list Z) (cp : Z) : cres (Z * list Z) :=
  match n with
  | O => Ok (cp, c)
  | S n =>
      match c with
      | [] => Ub
      | ch :: c =>
          let d := hex_digit ch in
          if d <? 0 then Err else hex_loop n c (Z.lor (u32 (Z.shiftl cp 4)) d)
      end
  end.

Definition escape (esc : Z) : option Z :=
  if esc =? 34 then Some 34 else if esc =? 92 then Some 92 else if esc =? 47 then Some 47
  else if esc =? 98 then Some 8 else if esc =? 102 then Some 12 else if esc =? 110 then Some 10
  else if esc =? 114 then Some 13 else if esc =? 116 then Some 9 else None.

(** The loop of [parse_string_raw]: the buffer and the cursor at its end. *)
Fixpoint string_loop (fuel : nat) (out : strbuf) (c : list Z) : cres (strbuf * list Z) :=
  match fuel with
  | O => Ub
  | S fuel =>
      match c with
      | [] => Ok (out, c)
      | ch :: rest =>
          if ch =? 34 then Ok (out, c)
          else if ch =? 92 then
            match rest with
            | [] => Err
            | esc :: c =>
                match escape esc with
                | Some b => out ← append_utf8 out b; string_loop fuel out c
                | None =>
                    if esc =? 117 then
                      if blen c <? 4 then Err else
                      '(cp, c) ← hex_loop 4 c 0;
                      out ← append_utf8 out cp;
                      string_loop fuel out c
                    else Err
                end
            end
          else
            out ← (if ch <? 128 then append_utf8 out ch else append_raw_byte out ch);
            string_loop fuel out rest
      end
  end.

(** The C string in a block: its bytes before the first NUL. *)
Fixpoint cstring (l : list Z) : list Z :=
  match l with
  | b :: l => if b =? 0 then [] else b :: cstring l
  | [] => []
  end.

(** Terminate the string and hand it over. *)
Definition out_finish (b : strbuf) : cres (list Z) :=
  let b := if sb_len b + 1 >? sb_cap b then sb_realloc b (sb_len b + 1) else b in
  data ← wr (sb_data b) (sb_len b) [0];
  Ok (cstring data).

Definition parse_string_raw (c : list Z) : cres (list Z * list Z) :=
  if negb (head_is c 34) then Err else
  '(out, c) ← string_loop (length c) sb_null (drop 1 c);
  if negb (head_is c 34) then Err else
  s ← out_finish out;
  Ok (s, drop 1 c).

Definition parse_string (c : list Z) : cres (bm_json_value * list Z) :=
  '(s, c) ← parse_string_raw c;
  Ok (BM_JSON_STRING s, c).

(** [bm_json_array_append] and [bm_json_object_set] on a value of the right type;
    on another one the item is freed. *)
Definition bm_json_array_append (arr item : bm_json_value) : bm_json_value :=
  match arr with
  | BM_JSON_ARRAY items => BM_JSON_ARRAY (items ++ [item])
  | _ => arr
  end.

Definition bm_json_object_set (obj : bm_json_value) (key : list Z) (value : bm_json_value)
  : bm_json_value :=
  match obj with
  | BM_JSON_OBJECT pairs => BM_JSON_OBJECT (pairs ++ [(key, value)])
  | _ => obj
  end.

(** The recursive descent.  The C functions call each other without a depth limit;
    [fuel] bounds the calls and loop turns ([Ub] when it is used up). *)
Fixpoint parse_value (fuel : nat) (c : list Z) : cres (bm_json_value * list Z) :=
  match fuel with
  | O => Ub
  | S fuel =>
      let c := skip_ws c in
      match c with
      | [] => Err
      | ch :: _ =>
          if ch =? 34 then parse_string c
          else if ch =? 91 then parse_array fuel c
          else if ch =? 123 then parse_object fuel c
          else if ch =? 116 then
            match match_literal c (cstr "true"%string) with
            | Some c => Ok (BM_JSON_BOOL true, c) | None => Err end
          else if ch =? 102 then
            match match_literal c (cstr "false"%string) with
            | Some c => Ok (BM_JSON_BOOL false, c) | None => Err end
          else if ch =? 110 then
            match match_literal c (cstr "null"%string) with
            | Some c => Ok (BM_JSON_NULL, c) | None => Err end
          else parse_number c
      end
  end
with parse_array (fuel : nat) (c : list Z) : cres (bm_json_value * list Z) :=
  match fuel with
  | O => Ub
  | S fuel =>
      let c := skip_ws (drop 1 c) in
      if head_is c 93 then Ok (BM_JSON_ARRAY [], drop 1 c)
      else array_loop fuel (BM_JSON_ARRAY []) c
  end
with array_loop (fuel : nat) (v : bm_json_value) (c : list Z) : cres (bm_json_value * list Z) :=
  match fuel with
  | O => Ub
  | S fuel =>
      '(item, c) ← parse_value fuel (skip_ws c);
      let v := bm_json_array_append v item in
      match skip_ws c with
      | [] => Err
      | ch :: c =>
          if ch =? 44 then array_loop fuel v c
          else if ch =? 93 then Ok (v, c)
          else Err
      end
  end
with parse_object (fuel : nat) (c : list Z) : cres (bm_json_value * list Z) :=
  match fuel with
  | O => Ub
  | S fuel =>
      let c := skip_ws (drop 1 c) in
      if head_is c 125 then Ok (BM_JSON_OBJECT [], drop 1 c)
      else object_loop fuel (BM_JSON_OBJECT []) c
  end
with object_loop (fuel : nat) (v : bm_json_value) (c : list Z) : cres (bm_json_value * list Z) :=
  match fuel with
  | O => Ub
  | S fuel =>
      '(key, c) ← parse_string_raw (skip_ws c);
      let c := skip_ws c in
      if negb (head_is c 58) then Err else
      '(val, c) ← parse_value fuel (skip_ws (drop 1 c));
      let v := bm_json_object_set v key val in
      match skip_ws c with
      | [] => Err
      | ch :: c =>
          if ch =? 44 then object_loop fuel v c
          else if ch =? 125 then Ok (v, c)
          else Err
      end
  end.

(** Three calls per byte and one more are enough. *)
Definition parse_fuel (c : list Z) : nat := 3 * length c + 1.

Definition bm_json_parse (text : list Z) : cres bm_json_value :=
  '(v, c) ← parse_value (parse_fuel text) text;
  match skip_ws c with
  | [] => Ok v
  | _ => Err
  end.

(** ** Accessors and constructors *)

Fixpoint find_key (pairs : list (list Z * bm_json_value)) (k : list Z) : option bm_json_value :=
  match pairs with
  | [] => None
  | (k', v) :: pairs => if list_eqb k' k then Some v else find_key pairs k
  end.

(** [None]: NULL *)
Definition bm_json_object_get (obj : option bm_json_value) (key : list Z) : option bm_json_value :=
  match obj with Some (BM_JSON_OBJECT pairs) => find_key pairs key | _ => None end.

Definition bm_json_array_get (arr : option bm_json_value) (i : Z) : option bm_json_value :=
  match arr with
  | Some (BM_JSON_ARRAY items) =>
      if i >=? Z.of_nat (length items) then None else items !! Z.to_nat i
  | _ => None
  end.

Definition bm_json_as_string (v : option bm_json_value) : option (list Z) :=
  match v with Some (BM_JSON_STRING s) => Some s | _ => None end.

Definition bm_json_as_number (v : option bm_json_value) : double :=
  match v with Some (BM_JSON_NUMBER d) => d | _ => double_zero end.

Definition bm_json_new_null : bm_json_value := BM_JSON_NULL.
Definition bm_json_new_bool (b : Z) : bm_json_value := BM_JSON_BOOL (negb (b =? 0)).
Definition bm_json_new_number (n : double) : bm_json_value := BM_JSON_NUMBER n.
Definition bm_json_new_string (s : list Z) : bm_json_value := BM_JSON_STRING (cstring s).
Definition bm_json_new_array : bm_json_value := BM_JSON_ARRAY [].
Definition bm_json_new_object : bm_json_value := BM_JSON_OBJECT [].

(** ** Serializer *)

Definition sb_reserve (b : strbuf) (additional : Z) : cres strbuf :=
  if sb_len b + additional + 1 <=? sb_cap b then Ok b else
  cap ← double_until (Z.to_nat (sb_len b + additional + 1))
          (if sb_cap b =? 0 then 64 else sb_cap b) (sb_len b + additional + 1);
  Ok (sb_realloc b cap).

Definition sb_append (b : strbuf) (s : list Z) : cres strbuf :=
  b ← sb_reserve b (blen s);
  data ← wr (sb_data b) (sb_len b) s;
  let len := sb_len b + blen s in
  data ← wr data len [0];
  Ok {| sb_data := data; sb_len := len; sb_cap := sb_cap b |}.

Definition sb_append_cstr (b : strbuf) (s : list Z) : cres strbuf := sb_append b s.

(** [snprintf("\\u%04x", v)] for a byte *)
Definition hex_char (d : Z) : Z := if d <? 10 then 48 + d else 97 + (d - 10).
Definition fmt_u04x (v : Z) : list Z :=
  92 :: 117 :: map (fun k => hex_char (Z.land (Z.shiftr v k) 15)) [12; 8; 4; 0].

(** What the loop of [sb_append_escaped_string] appends for a byte. *)
Definition escaped (p : Z) : list Z :=
  if p =? 34 then [92; 34]
  else if p =? 92 then [92; 92]
  else if p =? 10 then [92; 110]
  else if p =? 13 then [92; 114]
  else if p =? 9 then [92; 116]
  else if p <? 32 then fmt_u04x p
  else [p].

Fixpoint escape_loop (b : strbuf) (s : list Z) : cres strbuf :=
  match s with
  | [] => Ok b
  | p :: s => b ← sb_append b (escaped p); escape_loop b s
  end.

Definition sb_append_escaped_string (b : strbuf) (s : list Z) : cres strbuf :=
  b ← sb_append_cstr b [34];
  b ← escape_loop b s;
  sb_append_cstr b [34].

(** The text of a number, cut to the 63 characters [snprintf] may write. *)
Definition number_chars (d : double) : cres (list Z) :=
  z ← to_llong d;
  Ok (take 63 (if double_eqb d (of_llong z) then fmt_lld z else fmt_17g d)).

Fixpoint serialize_value (b : strbuf) (v : bm_json_value) : cres strbuf :=
  match v with
  | BM_JSON_NULL => sb_append_cstr b (cstr "null"%string)
  | BM_JSON_BOOL boolean =>
      sb_append_cstr b (if boolean then cstr "true"%string else cstr "false"%string)
  | BM_JSON_NUMBER d => buf ← number_chars d; sb_append_cstr b buf
  | BM_JSON_STRING s => sb_append_escaped_string b s
  | BM_JSON_ARRAY items =>
      b ← sb_append_cstr b [91];
      b ← (fix loop (i : nat) (b : strbuf) (items : list bm_json_value) : cres strbuf :=
             match items with
             | [] => Ok b
             | v :: items =>
                 b ← match i with O => Ok b | S _ => sb_append_cstr b [44] end;
                 b ← serialize_value b v;
                 loop (S i) b items
             end) 0%nat b items;
      sb_append_cstr b [93]
  | BM_JSON_OBJECT pairs =>
      b ← sb_append_cstr b [123];
      b ← (fix loop (i : nat) (b : strbuf) (pairs : list (list Z * bm_json_value)) : cres strbuf :=
             match pairs with
             | [] => Ok b
             | (k, v) :: pairs =>
                 b ← match i with O => Ok b | S _ => sb_append_cstr b [44] end;
                 b ← sb_append_escaped_string b k;
                 b ← sb_append_cstr b [58];
                 b ← serialize_value b v;
                 loop (S i) b pairs
             end) 0%nat b pairs;
      sb_append_cstr b [125]
  end.

(** The C string returned; [None] is the NULL value. *)
Definition bm_json_serialize (v : option bm_json_value) : cres (list Z) :=
  b ← match v with
      | None => sb_append_cstr sb_null (cstr "null"%string)
      | Some v => serialize_value sb_null v
      end;
  Ok (cstring (sb_data b)).
End Json.

(** ** Buffers *)

Definition sb_holds (b : strbuf) (l : list Z) : Prop :=
  sb_len b = blen l /\ blen l <= sb_cap b /\ exists rest, sb_data b = l ++ rest
    /\ blen rest = sb_cap b - blen l.

(** The block ends the string when it is not empty. *)
Definition sb_ended (b : strbuf) (l : list Z) : Prop :=
  sb_holds b l /\ exists rest, sb_data b = l ++ 0 :: rest.

Lemma sb_holds_null : sb_holds sb_null [].
Proof. split_and!; [done|done|]. exists []. done. Qed.

Lemma double_until_spec fuel c need :
  1 <= c -> need <= c + Z.of_nat fuel ->
  exists c', double_until fuel c need = Ok c' /\ c <= c' /\ need <= c'.
Proof.
  revert c. induction fuel as [|fuel IH]; intros c Hc Hn; cbn [double_until];
    destruct (Z.ltb_spec c need) as [Hl|Hl]; try lia; try (exists c; split; [done|lia]).
  destruct (IH (c * 2)) as (c' & -> & ? & ?); [lia..|]. exists c'. split; [done|lia].
Qed.

Lemma sb_realloc_holds b l cap : sb_holds b l -> sb_cap b <= cap -> sb_holds (sb_realloc b cap) l.
Proof.
  intros (E1 & E2 & rest & E3 & E4) Hc. split_and!; [done|simpl; lia|].
  exists (rest ++ malloc (cap - sb_cap b)). cbn [sb_realloc sb_data sb_cap].
  rewrite E3, app_assoc, blen_app, blen_malloc by lia. split; [done|lia].
Qed.

(** Room for [n] bytes and a NUL. *)
Definition sb_room (b : strbuf) (l : list Z) (n : Z) : Prop :=
  sb_holds b l /\ blen l + n + 1 <= sb_cap b.

Lemma out_reserve_room b l n :
  sb_holds b l -> 0 <= n -> exists b', out_reserve b n = Ok b' /\ sb_room b' l n.
Proof.
  intros Hb Hn. pose proof Hb as (E1 & E2 & _). pose proof (blen_nonneg l). unfold out_reserve.
  rewrite E1, Z.gtb_ltb. destruct (Z.ltb_spec (sb_cap b) (blen l + n + 1)).
  - set (c0 := if sb_cap b =? 0 then 16 else sb_cap b * 2).
    assert (1 <= c0 /\ sb_cap b <= c0) by (unfold c0; destruct (Z.eqb_spec (sb_cap b) 0); lia).
    destruct (double_until_spec (Z.to_nat (blen l + n + 1)) c0 (blen l + n + 1)) as (c & -> & ? & ?);
      [lia..|]. cbn_bind. eexists. split; [done|]. split; [apply sb_realloc_holds; [done|lia]|].
    simpl. lia.
  - exists b. split; [done|]. split; [done|lia].
Qed.

Lemma sb_reserve_room b l n :
  sb_holds b l -> 0 <= n -> exists b', sb_reserve b n = Ok b' /\ sb_room b' l n.
Proof.
  intros Hb Hn. pose proof Hb as (E1 & E2 & _). pose proof (blen_nonneg l). unfold sb_reserve.
  rewrite E1. destruct (Z.leb_spec (blen l + n + 1) (sb_cap b)).
  - exists b. split; [done|]. split; [done|lia].
  - set (c0 := if sb_cap b =? 0 then 64 else sb_cap b).
    assert (1 <= c0 /\ sb_cap b <= c0) by (unfold c0; destruct (Z.eqb_spec (sb_cap b) 0); lia).
    destruct (double_until_spec (Z.to_nat (blen l + n + 1)) c0 (blen l + n + 1)) as (c & -> & ? & ?);
      [lia..|]. cbn_bind. eexists. split; [done|]. split; [apply sb_realloc_holds; [done|lia]|].
    simpl. lia.
Qed.

(** Writing behind the contents. *)
Lemma sb_write b l bytes :
  sb_room b l (blen bytes) ->
  exists rest, wr (sb_data b) (sb_len b) bytes = Ok ((l ++ bytes) ++ rest)
    /\ blen rest = sb_cap b - blen l - blen bytes /\ 1 <= blen rest.
Proof.
  intros [(E1 & E2 & rest & E3 & E4) Hr]. pose proof (blen_nonneg bytes).
  rewrite E3, wr_fill by lia. eexists. split; [done|]. rewrite blen_drop by lia. lia.
Qed.

Lemma out_append_holds b l bytes :
  sb_holds b l -> exists b', out_append b bytes = Ok b' /\ sb_holds b' (l ++ bytes).
Proof.
  intros Hb. pose proof (blen_nonneg bytes). unfold out_append.
  destruct (out_reserve_room b l (blen bytes) Hb) as (b' & -> & Hr); [lia|]. cbn_bind.
  destruct (sb_write b' l bytes Hr) as (rest & -> & Hl & _). cbn_bind. eexists. split; [done|].
  destruct Hr as [(E1 & E2 & _) Hr]. split_and!; cbn [sb_len sb_cap sb_data].
  - rewrite blen_app. lia.
  - rewrite blen_app. lia.
  - exists rest. split; [done|]. rewrite blen_app. lia.
Qed.

Lemma sb_append_ended b l s :
  sb_holds b l -> exists b', sb_append b s = Ok b' /\ sb_ended b' (l ++ s).
Proof.
  intros Hb. pose proof (blen_nonneg s). unfold sb_append.
  destruct (sb_reserve_room b l (blen s) Hb) as (b' & -> & Hr); [lia|]. cbn_bind.
  destruct (sb_write b' l s Hr) as (rest & -> & Hl & H1). cbn_bind.
  destruct Hr as [(E1 & E2 & _) Hr]. rewrite E1.
  destruct rest as [|x rest]; [done|]. change (x :: rest) with ([x] ++ rest).
  rewrite wr_over by (rewrite ?blen_app; done). cbn_bind. eexists. split; [done|].
  rewrite blen_cons in Hl. split; [|by exists rest].
  split_and!; cbn [sb_len sb_cap sb_data]; rewrite ?blen_app; [done|lia|].
  exists (0 :: rest). split; [done|]. rewrite blen_cons. lia.
Qed.

(** ** Strings *)

Definition json_byte (b : Z) : Prop := 1 <= b < 256.
#[export] Instance json_byte_dec b : Decision (json_byte b).
Proof. unfold json_byte. apply _. Defined.

(** [by_bytes]: a concrete list of such bytes. *)
Ltac by_bytes := apply (bool_decide_unpack _); by vm_compute.

Lemma cstring_app l rest : Forall json_byte l -> cstring (l ++ 0 :: rest) = l.
Proof.
  induction 1 as [|b l Hb _ IH]; [done|]. cbn [app cstring]. unfold json_byte in Hb. zdec.
  by rewrite IH.
Qed.

(** Reading back what is written for one byte. *)
Lemma string_loop_escaped p fuel out l c :
  json_byte p -> sb_holds out l ->
  exists out', string_loop (S fuel) out (escaped p ++ c) = string_loop fuel out' c
    /\ sb_holds out' (l ++ [p]).
Proof.
  intros Hp Hb. destruct (out_append_holds out l [p] Hb) as (out' & E & Hb').
  exists out'. split; [|done]. unfold json_byte in Hp.
  assert (Low : p < 128 -> append_utf8 out p = Ok out').
  { intros Hl. unfold append_utf8, utf8_bytes. zdec. unfold u8. rewrite Z.mod_small by lia. done. }
  unfold escaped.
  destruct (Z.eqb_spec p 34) as [->|N1]; [cbn [app string_loop]; cbn -[append_utf8 string_loop];
    rewrite Low by lia; done|].
  destruct (Z.eqb_spec p 92) as [->|N2]; [cbn [app string_loop]; cbn -[append_utf8 string_loop];
    rewrite Low by lia; done|].
  destruct (Z.eqb_spec p 10) as [->|N3]; [cbn [app string_loop]; cbn -[append_utf8 string_loop];
    rewrite Low by lia; done|].
  destruct (Z.eqb_spec p 13) as [->|N4]; [cbn [app string_loop]; cbn -[append_utf8 string_loop];
    rewrite Low by lia; done|].
  destruct (Z.eqb_spec p 9) as [->|N5]; [cbn [app string_loop]; cbn -[append_utf8 string_loop];
    rewrite Low by lia; done|].
  destruct (Z.ltb_spec p 32) as [Hlt|Hge].
  - assert (Hx : hex_loop 4 (map (fun k => hex_char (Z.land (p ≫ k) 15)) [12; 8; 4; 0] ++ c) 0
                 = Ok (p, c)).
    { assert (Hin : In p (map Z.of_nat (seq 1 31))).
      { apply in_map_iff. exists (Z.to_nat p). split; [lia|]. apply in_seq. lia. }
      repeat destruct Hin as [<-|Hin]; try reflexivity. done. }
    unfold fmt_u04x. set (hx := map _ _) in *. assert (Hl : (blen (hx ++ c) <? 4) = false).
    { apply Z.ltb_ge. rewrite blen_app. pose proof (blen_nonneg c).
      change (blen hx) with 4. lia. }
    cbn [app string_loop]. change (92 =? 34) with false. change (92 =? 92) with true.
    change (escape 117) with (@None Z). change (117 =? 117) with true. cbv iota.
    rewrite Hl, Hx, bind_ok. cbv beta iota. by rewrite Low by lia.
  - cbn [app string_loop]. rewrite (proj2 (Z.eqb_neq p 34) N1), (proj2 (Z.eqb_neq p 92) N2).
    destruct (Z.ltb_spec p 128); [by rewrite Low|]. unfold append_raw_byte. by rewrite E.
Qed.

Definition escape_all (s : list Z) : list Z := concat (map escaped s).
Definition quoted (s : list Z) : list Z := 34 :: escape_all s ++ [34].

Lemma string_loop_all s fuel out l c :
  Forall json_byte s -> (length s < fuel)%nat -> sb_holds out l ->
  exists out', string_loop fuel out (escape_all s ++ 34 :: c) = Ok (out', 34 :: c)
    /\ sb_holds out' (l ++ s).
Proof.
  intros Hs. revert fuel out l. induction Hs as [|p s Hp _ IH]; intros fuel out l Hf Hb.
  - exists out. rewrite app_nil_r. destruct fuel; [lia|]. done.
  - destruct fuel as [|fuel]; [simpl in Hf; lia|]. unfold escape_all. cbn [map concat].
    rewrite <- app_assoc.
    destruct (string_loop_escaped p fuel out l (concat (map escaped s) ++ 34 :: c) Hp Hb)
      as (out1 & -> & Hb1).
    destruct (IH fuel out1 (l ++ [p])) as (out' & E & Hb'); [simpl in Hf; lia|done|].
    exists out'. rewrite <- app_assoc in Hb'. by split.
Qed.

Lemma out_finish_eq b l : sb_holds b l -> Forall json_byte l -> out_finish b = Ok l.
Proof.
  intros Hb Hl. unfold out_finish.
  assert (Hr : sb_room (if sb_len b + 1 >? sb_cap b then sb_realloc b (sb_len b + 1) else b) l 0).
  { pose proof Hb as (E1 & E2 & _). rewrite E1, Z.gtb_ltb.
    destruct (Z.ltb_spec (sb_cap b) (blen l + 1)); split; try done; try (simpl; lia).
    apply sb_realloc_holds; [done|lia]. }
  set (b' := if sb_len b + 1 >? sb_cap b then sb_realloc b (sb_len b + 1) else b) in *.
  destruct Hr as [(E1 & E2 & rest & E3 & E4) Hr].
  rewrite E1, E3. rewrite wr_fill by (done || (change (blen [0]) with 1; lia)). cbn_bind.
  f_equal. rewrite <- app_assoc. by apply cstring_app.
Qed.

Lemma escape_all_length s : (length s <= length (escape_all s))%nat.
Proof.
  unfold escape_all. induction s as [|p s IH]; [done|]. cbn [map concat length].
  rewrite length_app. assert (1 <= length (escaped p))%nat; [|lia].
  unfold escaped, fmt_u04x. repeat case_match; simpl; lia.
Qed.

Lemma parse_quoted s c : Forall json_byte s -> parse_string_raw (quoted s ++ c) = Ok (s, c).
Proof.
  intros Hs. unfold parse_string_raw, quoted. cbn [app head_is drop].
  change (34 =? 34) with true. cbn [negb]. rewrite <- app_assoc. cbn [app].
  rewrite drop_0. destruct (string_loop_all s (length (34 :: escape_all s ++ 34 :: c)) sb_null [] c Hs) as
    (out & -> & Hb).
  - cbn [length]. rewrite length_app. simpl. pose proof (escape_all_length s). lia.
  - apply sb_holds_null.
  - cbn_bind. cbn [head_is drop]. change (34 =? 34) with true. cbn [negb].
    rewrite (out_finish_eq out s) by done. cbn_bind. by rewrite drop_0.
Qed.

(** ** Numbers *)

(** What may follow a value inside a text. *)
Definition follow (c : list Z) : Prop :=
  match c with [] => True | ch :: _ => ch = 44 \/ ch = 93 \/ ch = 125 end.

Lemma skip_digits_app l c :
  Forall (fun x => is_digit x = true) l ->
  match c with [] => True | ch :: _ => is_digit ch = false end ->
  skip_digits (l ++ c) = (l, c).
Proof.
  intros Hl Hc. induction Hl as [|x l Hx _ IH]; cbn [app skip_digits].
  - destruct c as [|ch c]; [done|]. cbn [skip_digits]. by rewrite Hc.
  - by rewrite Hx, IH.
Qed.

Lemma some_digits_app l c :
  digits l -> match c with [] => True | ch :: _ => is_digit ch = false end ->
  some_digits (l ++ c) = Ok (l, c).
Proof.
  intros [Hne Hl] Hc. unfold some_digits. rewrite skip_digits_app by done.
  destruct l as [|x l]; [done|]. inversion_clear Hl as [|? ? Hx]. simpl. by rewrite Hx.
Qed.

Lemma follow_no_digit c : follow c -> match c with [] => True | ch :: _ => is_digit ch = false end.
Proof. destruct c as [|ch c]; [done|]. by intros [->|[->| ->]]. Qed.

Lemma scan_number_text l c : number_text l -> follow c -> scan_number (l ++ c) = Ok (l, c).
Proof.
  intros (neg & i & f & e & -> & Hi & Hf & He) Hc. unfold scan_number.
  set (fr := match f with Some f => _ | None => _ end). set (ex := match e with Some _ => _ | None => _ end).
  assert (E1 : (if head_is (((if neg then [45] else []) ++ i ++ fr ++ ex) ++ c) 45
                then ([45], drop 1 (((if neg then [45] else []) ++ i ++ fr ++ ex) ++ c))
                else ([], ((if neg then [45] else []) ++ i ++ fr ++ ex) ++ c))
               = (if neg then [45] else [], i ++ fr ++ ex ++ c)).
  { rewrite <- !app_assoc. destruct neg; [done|]. destruct Hi as [Hn Hd]. destruct i as [|x i]; [done|].
    inversion_clear Hd as [|? ? Hx]. cbn [app head_is]. unfold is_digit in Hx.
    destruct (Z.eqb_spec x 45) as [->|]; done. }
  rewrite E1. rewrite some_digits_app; [|done|].
  2: { destruct f; [done|]. destruct e as [[[]]|]; [done|done|]. by apply follow_no_digit. }
  cbn_bind. assert (E2 : (if head_is (fr ++ ex ++ c) 46 then
             '(f0, c0) ← some_digits (drop 1 (fr ++ ex ++ c)); Ok (46 :: f0, c0)
             else Ok ([], fr ++ ex ++ c)) = Ok (fr, ex ++ c)).
  { destruct f as [f|]; cbn [fr app head_is drop].
    - change (46 =? 46) with true. cbv iota. rewrite drop_0, some_digits_app; [done|done|].
      destruct e as [[[]]|]; [done|done|]. by apply follow_no_digit.
    - destruct e as [[[]]|]; [done|done|]. cbn [ex app]. destruct c as [|ch c]; [done|].
      by destruct Hc as [->|[->| ->]]. }
  rewrite E2. cbn_bind. destruct e as [[m e]|]; cbn [ex app].
  - change (101 =? 101) with true. cbn [orb].
    assert (Hm : ((if m then 45 else 43) =? 43) || ((if m then 45 else 43) =? 45) = true) by (by destruct m).
    rewrite Hm. cbv iota. rewrite some_digits_app; [|done|by apply follow_no_digit]. cbn_bind.
    done.
  - destruct c as [|ch c].
    + rewrite bind_ok. done.
    + assert (Hch : (ch =? 101) || (ch =? 69) = false) by (by destruct Hc as [->|[->| ->]]).
      rewrite Hch, bind_ok. done.
Qed.

Lemma decimal_digits fuel n acc :
  (0 < fuel)%nat -> Forall (fun x => is_digit x = true) acc ->
  digits (decimal fuel n acc) /\ (length (decimal fuel n acc) <= fuel + length acc)%nat.
Proof.
  revert n acc. induction fuel as [|fuel IH]; intros n acc Hf Ha; [lia|]. cbn [decimal].
  assert (Hd : Forall (fun x => is_digit x = true) (48 + n mod 10 :: acc)).
  { constructor; [|done]. unfold is_digit. pose proof (Z.mod_pos_bound n 10). by zdec. }
  destruct (n / 10 =? 0).
  - split; [by split|]. simpl. lia.
  - destruct fuel as [|fuel]; [split; [by split|simpl; lia]|].
    destruct (IH (n / 10) (48 + n mod 10 :: acc)) as [? Hl]; [lia|done|]. split; [done|].
    cbn [length] in Hl. lia.
Qed.

Lemma fmt_lld_text z : number_text (fmt_lld z) /\ (length (fmt_lld z) <= 20)%nat.
Proof.
  destruct (decimal_digits 19 (Z.abs z) []) as [Hd Hl]; [lia|constructor|]. split.
  - exists (z <? 0), (decimal 19 (Z.abs z) []), None, None. unfold fmt_lld. rewrite !app_nil_r. done.
  - unfold fmt_lld. rewrite length_app. cbn [length] in Hl. destruct (z <? 0); cbn [length]; lia.
Qed.

(** The printed digits are those of the number. *)
Lemma decimal_value fuel n acc :
  0 <= n < 10 ^ Z.of_nat fuel ->
  fold_left (fun v c => v * 10 + (c - 48)) (decimal fuel n acc) 0
  = fold_left (fun v c => v * 10 + (c - 48)) acc n.
Proof.
  revert n acc. induction fuel as [|fuel IH]; intros n acc Hn; cbn [decimal].
  - replace n with 0 by (simpl in Hn; lia). done.
  - rewrite Nat2Z.inj_succ, Z.pow_succ_r in Hn by lia.
    assert (Hstep : fold_left (fun v c => v * 10 + (c - 48)) (48 + n mod 10 :: acc) (n / 10)
      = fold_left (fun v c => v * 10 + (c - 48)) acc n).
    { cbn [fold_left]. f_equal. pose proof (Z.div_mod n 10). lia. }
    destruct (Z.eqb_spec (n / 10) 0) as [E|_].
    + by rewrite <- Hstep, E.
    + rewrite IH; [done|]. split; [apply Z.div_pos; lia|]. apply Z.div_lt_upper_bound; lia.
Qed.

(** ** Text of a value *)

(** Pieces separated by commas. *)
Definition sep (l : list (list Z)) : list Z :=
  match l with [] => [] | x :: l => x ++ concat (map (cons 44) l) end.

Section JsonText.
Context `{CDL : CDoubleLaws}.

Definition number_render (d : double) : list Z :=
  match number_chars d with Ok l => l | _ => [] end.

Fixpoint render (v : bm_json_value) : list Z :=
  match v with
  | BM_JSON_NULL => cstr "null"%string
  | BM_JSON_BOOL b => if b then cstr "true"%string else cstr "false"%string
  | BM_JSON_NUMBER d => number_render d
  | BM_JSON_STRING s => quoted s
  | BM_JSON_ARRAY items => 91 :: sep (map render items) ++ [93]
  | BM_JSON_OBJECT pairs =>
      123 :: sep (map (fun kv => quoted kv.1 ++ 58 :: render kv.2) pairs) ++ [125]
  end.

(** Strings without NUL, plain numbers. *)
Fixpoint json_ok (v : bm_json_value) : Prop :=
  match v with
  | BM_JSON_NUMBER d => plain_double d
  | BM_JSON_STRING s => Forall json_byte s
  | BM_JSON_ARRAY items => foldr (fun v P => json_ok v /\ P) True items
  | BM_JSON_OBJECT pairs =>
      foldr (fun kv P => (Forall json_byte kv.1 /\ json_ok kv.2) /\ P) True pairs
  | _ => True
  end.

(** Induction over values and the values in them. *)
Lemma json_induction (P : bm_json_value -> Prop) :
  P BM_JSON_NULL -> (forall b, P (BM_JSON_BOOL b)) -> (forall d, P (BM_JSON_NUMBER d)) ->
  (forall s, P (BM_JSON_STRING s)) -> (forall items, Forall P items -> P (BM_JSON_ARRAY items)) ->
  (forall pairs, Forall (fun kv => P kv.2) pairs -> P (BM_JSON_OBJECT pairs)) -> forall v, P v.
Proof.
  intros Hn Hb Hd Hs Ha Ho. fix IH 1. intros [| | | |items|pairs]; [done|done|done|done| |].
  - apply Ha. induction items as [|x items IHi]; constructor; [apply IH|apply IHi].
  - apply Ho. induction pairs as [|x pairs IHi]; constructor; [apply IH|apply IHi].
Qed.

Lemma number_render_ok d :
  plain_double d ->
  number_chars d = Ok (number_render d) /\ number_text (number_render d)
  /\ strtod (number_render d) = d.
Proof.
  intros Hd. unfold number_render, number_chars.
  destruct (to_llong_plain d Hd) as (z & -> & Hz). cbn_bind.
  destruct (fmt_17g_plain d Hd) as (Ht & Hl & Hr).
  destruct (double_eqb d (of_llong z)) eqn:E.
  - destruct (fmt_lld_text z) as [? ?]. rewrite take_ge by lia. auto.
  - rewrite take_ge by lia. auto.
Qed.

(** ** Serializing *)

Lemma escape_loop_ended s b l :
  sb_holds b l -> exists b', escape_loop b s = Ok b' /\ sb_holds b' (l ++ escape_all s).
Proof.
  revert b l. induction s as [|p s IH]; intros b l Hb; cbn [escape_loop].
  - exists b. by rewrite app_nil_r.
  - destruct (sb_append_ended b l (escaped p) Hb) as (b1 & -> & [Hb1 _]). cbn_bind.
    destruct (IH b1 (l ++ escaped p) Hb1) as (b' & E & Hb'). exists b'. split; [done|].
    by rewrite <- app_assoc in Hb'.
Qed.

Lemma append_escaped_ended b l s :
  sb_holds b l -> exists b', sb_append_escaped_string b s = Ok b' /\ sb_ended b' (l ++ quoted s).
Proof.
  intros Hb. unfold sb_append_escaped_string, sb_append_cstr.
  destruct (sb_append_ended b l [34] Hb) as (b1 & -> & [H1 _]). cbn_bind.
  destruct (escape_loop_ended s b1 _ H1) as (b2 & -> & H2). cbn_bind.
  destruct (sb_append_ended b2 _ [34] H2) as (b3 & -> & H3). exists b3. split; [done|].
  by rewrite <- !app_assoc in H3.
Qed.

(** A statement that appends. *)
Definition appends (m : strbuf -> cres strbuf) (s : list Z) : Prop :=
  forall b l, sb_holds b l -> exists b', m b = Ok b' /\ sb_ended b' (l ++ s).

(** A statement that appends and may append nothing. *)
Definition extends (m : strbuf -> cres strbuf) (s : list Z) : Prop :=
  forall b l, sb_holds b l -> exists b', m b = Ok b' /\ sb_holds b' (l ++ s).

Lemma appends_extends m s : appends m s -> extends m s.
Proof. intros Hm b l Hb. destruct (Hm b l Hb) as (b' & ? & ? & _). eauto. Qed.

Lemma appends_cstr s : appends (fun b => sb_append_cstr b s) s.
Proof. intros b l. apply sb_append_ended. Qed.

Lemma extends_seq m1 m2 s1 s2 :
  extends m1 s1 -> extends m2 s2 -> extends (fun b => b' ← m1 b; m2 b') (s1 ++ s2).
Proof.
  intros H1 H2 b l Hb. destruct (H1 b l Hb) as (b1 & -> & Hb1). cbn_bind.
  destruct (H2 b1 _ Hb1) as (b2 & E & Hb2). exists b2. rewrite <- app_assoc in Hb2. by split.
Qed.

Lemma appends_seq m1 m2 s1 s2 :
  extends m1 s1 -> appends m2 s2 -> appends (fun b => b' ← m1 b; m2 b') (s1 ++ s2).
Proof.
  intros H1 H2 b l Hb. destruct (H1 b l Hb) as (b1 & -> & Hb1). cbn_bind.
  destruct (H2 b1 _ Hb1) as (b2 & E & Hb2). exists b2. rewrite <- app_assoc in Hb2. by split.
Qed.

Lemma extends_ret : extends (fun b => Ok b) [].
Proof. intros b l Hb. exists b. by rewrite app_nil_r. Qed.

(** The separators of the loops. *)
Lemma extends_comma i :
  extends (fun b => match i with O => Ok b | S _ => sb_append_cstr b [44] end)
    (match i with O => [] | S _ => [44] end).
Proof. destruct i; [apply extends_ret|apply appends_extends, appends_cstr]. Qed.

Definition with_commas (i : nat) (l : list (list Z)) : list Z :=
  match i with O => sep l | S _ => concat (map (cons 44) l) end.

Lemma with_commas_cons i x l :
  with_commas i (x :: l) = match i with O => [] | S _ => [44] end ++ x ++ with_commas (S i) l.
Proof. unfold with_commas. by destruct i. Qed.

Lemma serialize_appends v : json_ok v -> appends (fun b => serialize_value b v) (render v).
Proof.
  induction v as [|b|d|s|items IH|pairs IH] using json_induction; intros Hv.
  - apply appends_cstr.
  - apply appends_cstr.
  - destruct (number_render_ok d Hv) as [E _]. intros b l Hb. cbn [serialize_value].
    rewrite E, bind_ok. by apply appends_cstr.
  - intros b l. apply append_escaped_ended.
  - cbn [serialize_value render]. change (91 :: ?x ++ [93]) with ([91] ++ x ++ [93]).
    apply appends_seq; [apply appends_extends, appends_cstr|].
    apply (appends_seq _ (fun b => sb_append_cstr b [93])); [|apply appends_cstr].
    change (sep ?l) with (with_commas 0 l). generalize 0%nat as i. cbn [json_ok] in Hv.
    induction IH as [|x items Hx _ IHi]; intros i; cbn [map].
    { unfold with_commas. destruct i; apply extends_ret. }
    destruct Hv as [Hx' Hv]. rewrite with_commas_cons. apply extends_seq; [apply extends_comma|].
    apply extends_seq; [by apply appends_extends, Hx|by apply IHi].
  - cbn [serialize_value render]. change (123 :: ?x ++ [125]) with ([123] ++ x ++ [125]).
    apply appends_seq; [apply appends_extends, appends_cstr|].
    apply (appends_seq _ (fun b => sb_append_cstr b [125])); [|apply appends_cstr].
    change (sep ?l) with (with_commas 0 l). generalize 0%nat as i. cbn [json_ok] in Hv.
    induction IH as [|[k x] pairs Hx _ IHi]; intros i; cbn [map].
    { unfold with_commas. destruct i; apply extends_ret. }
    destruct Hv as [[Hk Hx'] Hv]. rewrite with_commas_cons. cbn [fst snd] in *.
    rewrite <- app_assoc. change (58 :: render x) with ([58] ++ render x). rewrite <- app_assoc.
    apply extends_seq; [apply extends_comma|].
    apply extends_seq; [intros b l Hb; destruct (append_escaped_ended b l k Hb) as (? & ? & ? & _); eauto|].
    apply extends_seq; [apply appends_extends, appends_cstr|].
    apply extends_seq; [by apply appends_extends, Hx|by apply IHi].
Qed.

(** A surrogate of an escape is written as it is. *)
Lemma surrogate_not_replaced : utf8_bytes 55357 = [237; 160; 189].
Proof. reflexivity. Qed.

(** ** Parsing what was serialized *)

Definition is_ws (ch : Z) : bool := (ch =? 32) || (ch =? 9) || (ch =? 10) || (ch =? 13).

Lemma skip_ws_here ch c : is_ws ch = false -> skip_ws (ch :: c) = ch :: c.
Proof. unfold is_ws. cbn [skip_ws]. by intros ->. Qed.

(** The text of a value starts with a character that is no blank and closes nothing. *)
Lemma render_head v :
  json_ok v -> exists ch r, render v = ch :: r /\ is_ws ch = false /\ ch <> 93 /\ ch <> 125.
Proof.
  destruct v as [|[]|d|s|items|pairs]; cbn [render json_ok]; intros Hv;
    try (by eexists _, _).
  destruct (number_render_ok d Hv) as (_ & (neg & i & f & e & -> & [Hn Hd] & _) & _).
  destruct neg; [by eexists _, _|]. destruct i as [|x i]; [done|]. inversion_clear Hd as [|? ? Hx].
  eexists _, _. split; [done|]. unfold is_digit in Hx. apply andb_true_iff in Hx as [Hx1 Hx2].
  apply Z.leb_le in Hx1, Hx2. unfold is_ws. zdec. split; [done|]. lia.
Qed.

Lemma parse_value_number fuel d c :
  plain_double d -> follow c ->
  parse_value (S fuel) (number_render d ++ c) = Ok (BM_JSON_NUMBER d, c).
Proof.
  intros Hd Hc. destruct (render_head (BM_JSON_NUMBER d) Hd) as (ch & r & E & Hw & _).
  destruct (number_render_ok d Hd) as (_ & Ht & Hs). cbn [render] in E.
  cbn [parse_value]. rewrite E. cbn [app]. rewrite skip_ws_here by done.
  assert (Hch : ch = 45 \/ is_digit ch = true).
  { destruct Ht as (neg & i & f & e & Eq & [Hn Hdg] & _). rewrite E in Eq.
    destruct neg; [left; by injection Eq|right]. destruct i as [|x i]; [done|].
    inversion_clear Hdg as [|? ? Hx]. injection Eq as -> _. done. }
  assert (48 <= ch <= 57 \/ ch = 45).
  { destruct Hch as [->|Hch]; [lia|]. unfold is_digit in Hch. lia. }
  zdec. change (ch :: r ++ c) with ((ch :: r) ++ c). rewrite <- E. unfold parse_number.
  rewrite scan_number_text by done. cbn_bind. by rewrite Hs.
Qed.

(** Statement for a value, used for the values inside it. *)
Definition reads (v : bm_json_value) : Prop :=
  json_ok v -> forall fuel c, follow c -> (3 * length (render v ++ c) + 1 <= fuel)%nat ->
  parse_value fuel (render v ++ c) = Ok (v, c).

Lemma follow_ws c : follow c -> skip_ws c = c.
Proof. destruct c as [|ch c]; [done|]. by intros [->|[->| ->]]. Qed.

Lemma array_loop_reads items fuel acc c :
  items <> [] -> Forall reads items -> foldr (fun v P => json_ok v /\ P) True items ->
  (3 * length (sep (map render items) ++ 93%Z :: c) + 2 <= fuel)%nat ->
  array_loop fuel (BM_JSON_ARRAY acc) (sep (map render items) ++ 93 :: c)
  = Ok (BM_JSON_ARRAY (acc ++ items), c).
Proof.
  intros Hne HF. revert fuel acc. induction HF as [|v items Hv _ IH]; [done|].
  intros fuel acc [Hok Hoks] Hfuel. cbn [map sep] in *.
  destruct fuel as [|fuel]; [lia|]. cbn [array_loop].
  rewrite <- app_assoc in *. set (tail := concat _ ++ 93 :: c) in *.
  assert (Ht : follow tail) by (unfold tail; destruct items; simpl; auto).
  destruct (render_head v Hok) as (ch & r & E & Hw & _).
  assert (Hskip : skip_ws (render v ++ tail) = render v ++ tail)
    by (rewrite E; by apply skip_ws_here).
  rewrite Hskip, (Hv Hok) by (done || lia). cbn_bind. rewrite (follow_ws tail Ht).
  cbn [bm_json_array_append]. destruct items as [|w items].
  - cbn. done.
  - unfold tail in *. cbn [map concat app] in *. change (44 =? 44) with true. cbv iota.
    rewrite <- app_assoc. cbn [sep map] in IH. rewrite <- app_assoc in IH.
    rewrite (IH ltac:(done)); [by rewrite <- app_assoc|done|].
    rewrite length_app in Hfuel. cbn [length] in Hfuel. rewrite <- app_assoc in Hfuel. lia.
Qed.

Lemma object_loop_reads pairs fuel acc c :
  pairs <> [] -> Forall (fun kv => reads kv.2) pairs ->
  foldr (fun kv P => (Forall json_byte kv.1 /\ json_ok kv.2) /\ P) True pairs ->
  (3 * length (sep (map (fun kv => quoted kv.1 ++ 58%Z :: render kv.2) pairs) ++ 125%Z :: c) + 2
   <= fuel)%nat ->
  object_loop fuel (BM_JSON_OBJECT acc)
    (sep (map (fun kv => quoted kv.1 ++ 58 :: render kv.2) pairs) ++ 125 :: c)
  = Ok (BM_JSON_OBJECT (acc ++ pairs), c).
Proof.
  intros Hne HF. revert fuel acc. induction HF as [|[k v] pairs Hv _ IH]; [done|].
  intros fuel acc [[Hk Hok] Hoks] Hfuel. cbn [map sep fst snd] in *.
  destruct fuel as [|fuel]; [lia|]. cbn [object_loop].
  rewrite <- !app_assoc in *. cbn [app] in *.
  set (tail := concat _ ++ 125 :: c) in *.
  assert (Ht : follow tail) by (unfold tail; destruct pairs; simpl; auto).
  change (skip_ws (quoted k ++ 58 :: render v ++ tail)) with (quoted k ++ 58 :: render v ++ tail).
  rewrite parse_quoted by done. cbn_bind. rewrite skip_ws_here by done. cbn [head_is drop].
  change (58 =? 58) with true. cbn [negb]. rewrite drop_0.
  destruct (render_head v Hok) as (ch & r & E & Hw & _).
  assert (Hskip : skip_ws (render v ++ tail) = render v ++ tail)
    by (rewrite E; by apply skip_ws_here).
  assert (Hlen : (length (quoted k ++ 58%Z :: render v ++ tail)
                  = length (quoted k) + 1 + length (render v ++ tail))%nat)
    by (rewrite length_app; cbn [length]; lia).
  rewrite Hskip, (Hv Hok) by (done || lia). cbn_bind. rewrite (follow_ws tail Ht).
  cbn [bm_json_object_set]. destruct pairs as [|[k' w] pairs].
  - cbn. done.
  - unfold tail in *. cbn [map concat app fst snd] in *. change (44 =? 44) with true. cbv iota.
    rewrite <- app_assoc in *. cbn [sep map fst snd] in IH. rewrite <- app_assoc in IH.
    rewrite (IH ltac:(done)); [by rewrite <- app_assoc|done|].
    rewrite Hlen in Hfuel. rewrite (length_app (render v)) in Hfuel. cbn [length] in Hfuel. lia.
Qed.

Lemma match_literal_app lit c : match_literal (lit ++ c) lit = Some c.
Proof.
  unfold match_literal. pose proof (blen_nonneg c).
  rewrite take_app_length, drop_app_length, list_eqb_refl, blen_app. by zdec.
Qed.

Lemma parse_literal fuel c :
  parse_value (S fuel) (cstr "null"%string ++ c) = Ok (BM_JSON_NULL, c)
  /\ parse_value (S fuel) (cstr "true"%string ++ c) = Ok (BM_JSON_BOOL true, c)
  /\ parse_value (S fuel) (cstr "false"%string ++ c) = Ok (BM_JSON_BOOL false, c).
Proof.
  assert (E : forall lit, match_literal (lit ++ c) lit = Some c) by (intros; apply match_literal_app).
  pose proof (E (cstr "null"%string)) as En. pose proof (E (cstr "true"%string)) as Et.
  pose proof (E (cstr "false"%string)) as Ef. cbn [parse_value].
  split_and!; [set (t := cstr "null"%string ++ c) in *; change (skip_ws t) with t
    |set (t := cstr "true"%string ++ c) in *; change (skip_ws t) with t
    |set (t := cstr "false"%string ++ c) in *; change (skip_ws t) with t];
    rewrite ?En, ?Et, ?Ef; done.
Qed.

Lemma parse_render v : reads v.
Proof.
  induction v as [|b|d|s|items IH|pairs IH] using json_induction; intros Hv fuel c Hc Hf;
    (destruct fuel as [|fuel]; [lia|]).
  - apply parse_literal.
  - destruct b; apply parse_literal.
  - by apply parse_value_number.
  - cbn [parse_value render]. change (skip_ws (quoted s ++ c)) with (quoted s ++ c).
    cbn [quoted app]. change (34 =? 34) with true. cbv iota. unfold parse_string.
    change (34 :: (escape_all s ++ [34]) ++ c) with (quoted s ++ c). by rewrite parse_quoted.
  - cbn [parse_value render app]. rewrite skip_ws_here by done. change (91 =? 34) with false.
    change (91 =? 91) with true. cbv iota. cbn [render length app] in Hf.
    destruct fuel as [|fuel]; [lia|]. cbn [parse_array drop]. rewrite drop_0, <- app_assoc.
    rewrite <- app_assoc in Hf. cbn [app] in *. destruct items as [|x items]; [done|].
    destruct (render_head x (proj1 Hv)) as (ch & r & E & Hw & N & _).
    assert (Hs : skip_ws (sep (map render (x :: items)) ++ 93 :: c)
                 = sep (map render (x :: items)) ++ 93 :: c)
      by (cbn [map sep]; rewrite E; by apply skip_ws_here).
    rewrite Hs. replace (head_is _ 93) with false
      by (cbn [map sep]; rewrite E; cbn [app head_is]; by rewrite (proj2 (Z.eqb_neq ch 93) N)).
    rewrite array_loop_reads; [done|done|done|done|lia].
  - cbn [parse_value render app]. rewrite skip_ws_here by done. change (123 =? 34) with false.
    change (123 =? 91) with false. change (123 =? 123) with true. cbv iota. cbn [render length app] in Hf.
    destruct fuel as [|fuel]; [lia|]. cbn [parse_object drop]. rewrite drop_0, <- app_assoc.
    rewrite <- app_assoc in Hf. cbn [app] in *. destruct pairs as [|[k x] pairs]; [done|].
    set (body := sep _ ++ 125 :: c) in *.
    assert (Hs : skip_ws body = body) by done. rewrite Hs.
    replace (head_is body 125) with false by done.
    unfold body in *. rewrite object_loop_reads; [done|done|done|done|lia].
Qed.
End JsonText.

(** ** The parser on any text *)

(** The result is no undefined behaviour, and a success leaves fewer than [n] bytes. *)
Definition shrinks {A} (n : nat) (r : cres (A * list Z)) : Prop :=
  match r with Ok (_, c) => (length c < n)%nat | Err => True | Ub => False end.

Lemma shrinks_mono {A} n m (r : cres (A * list Z)) : shrinks n r -> (n <= m)%nat -> shrinks m r.
Proof. destruct r as [[a c]| |]; simpl; [lia|done|done]. Qed.

Lemma shrinks_bind {A B} n m (r : cres (A * list Z)) (k : A * list Z -> cres (B * list Z)) :
  shrinks n r -> (forall a c, (length c < n)%nat -> shrinks m (k (a, c))) -> shrinks m (r ≫= k).
Proof. destruct r as [[a c]| |]; simpl; auto. Qed.

Lemma skip_ws_length c : (length (skip_ws c) <= length c)%nat.
Proof. induction c as [|ch c IH]; [done|]. cbn [skip_ws]. case_match; cbn [length]; lia. Qed.

Lemma skip_digits_length c : (length (skip_digits c).2 <= length c)%nat.
Proof.
  induction c as [|ch c IH]; [done|]. cbn [skip_digits]. destruct (is_digit ch); [|done].
  destruct (skip_digits c). cbn [snd length] in *. lia.
Qed.

Lemma some_digits_shrinks c : shrinks (length c) (some_digits c).
Proof.
  destruct c as [|ch c]; [done|]. unfold some_digits. destruct (is_digit ch) eqn:E; [|done].
  cbn [skip_digits]. rewrite E. pose proof (skip_digits_length c) as Hl. destruct (skip_digits c).
  cbn [shrinks snd length] in *. lia.
Qed.

Lemma scan_number_shrinks c : shrinks (length c) (scan_number c).
Proof.
  unfold scan_number. destruct (if head_is c 45 then _ else _) as [sign c1] eqn:E1.
  assert (H1 : (length c1 <= length c)%nat).
  { destruct (head_is c 45); injection E1 as <- <-; [rewrite length_drop|]; lia. }
  eapply shrinks_bind; [apply some_digits_shrinks|]. intros i c2 H2.
  eapply (shrinks_bind (length c1)).
  { destruct (head_is c2 46); [|simpl; lia]. eapply shrinks_bind; [apply some_digits_shrinks|].
    intros f c3 H3. rewrite length_drop in H3. simpl. lia. }
  intros f c3 H3. eapply (shrinks_bind (length c1)); [|intros e c4 H4; simpl; lia].
  destruct c3 as [|x c3]; [simpl; lia|]. destruct (_ || _); [|done]. cbn [length] in H3.
  destruct (match c3 with [] => _ | _ => _ end) as [m c4] eqn:E4.
  assert (H4 : (length c4 <= length c3)%nat).
  { destruct c3 as [|y c3]; [by injection E4 as <- <-|].
    destruct (_ || _); injection E4 as <- <-; cbn [length]; lia. }
  eapply shrinks_bind; [apply some_digits_shrinks|]. intros e c5 H5. simpl. lia.
Qed.

Lemma hex_loop_shrinks n c cp :
  (n <= length c)%nat -> shrinks (S (length c)) (hex_loop n c cp).
Proof.
  revert c cp. induction n as [|n IH]; intros c cp Hn; cbn [hex_loop]; [simpl; lia|].
  destruct c as [|ch c]; [simpl in Hn; lia|]. destruct (_ <? 0); [done|]. cbn [length] in Hn.
  eapply shrinks_mono; [apply IH; lia|]. cbn [length]. lia.
Qed.

Lemma string_loop_total fuel out l c :
  sb_holds out l -> (length c < fuel)%nat ->
  match string_loop fuel out c with
  | Ok (out', c') => (exists l', sb_holds out' l') /\ (length c' <= length c)%nat
  | Err => True
  | Ub => False
  end.
Proof.
  revert out l c. induction fuel as [|fuel IH]; intros out l c Hb Hf; [lia|].
  destruct c as [|ch rest]; [cbn; eauto|]. cbn [string_loop]. cbn [length] in Hf.
  assert (Next : forall bytes c', (length c' <= length rest)%nat ->
    match (b ← out_append out bytes; string_loop fuel b c') with
    | Ok (out', c'') => (exists l', sb_holds out' l') /\ (length c'' <= length (ch :: rest))%nat
    | Err => True | Ub => False end).
  { intros bytes c' Hc'. destruct (out_append_holds out l bytes Hb) as (b & -> & Hb'). cbn_bind.
    specialize (IH b _ c' Hb' ltac:(lia)). destruct (string_loop fuel b c') as [[o c'']| |]; [|done|done].
    cbn [length]. destruct IH. split; [done|lia]. }
  destruct (ch =? 34); [split; [eauto|done]|]. destruct (ch =? 92).
  - destruct rest as [|esc c]; [done|]. destruct (escape esc) as [b|]; [apply Next; simpl; lia|].
    destruct (esc =? 117); [|done]. destruct (Z.ltb_spec (blen c) 4); [done|].
    pose proof (hex_loop_shrinks 4 c 0 ltac:(unfold blen in *; lia)) as Hx.
    destruct (hex_loop 4 c 0) as [[cp c']| |]; [|done|done]. cbn [shrinks] in Hx. cbn_bind.
    apply Next. cbn [length]. lia.
  - destruct (ch <? 128); apply Next; lia.
Qed.

Lemma out_finish_total b l : sb_holds b l -> exists s, out_finish b = Ok s.
Proof.
  intros Hb. unfold out_finish. pose proof Hb as (E1 & E2 & _). pose proof (blen_nonneg l).
  set (b' := if sb_len b + 1 >? sb_cap b then sb_realloc b (sb_len b + 1) else b).
  assert (Hb' : sb_holds b' l /\ blen l + 1 <= sb_cap b').
  { unfold b'. rewrite E1, Z.gtb_ltb. destruct (Z.ltb_spec (sb_cap b) (blen l + 1)); [|by split].
    split; [apply sb_realloc_holds; [done|lia]|simpl; lia]. }
  destruct Hb' as [(E3 & E4 & rest & E5 & E6) Hr]. rewrite E3, E5.
  rewrite wr_fill by (done || (change (blen [0]) with 1; lia)). cbn_bind. eauto.
Qed.

Lemma parse_string_raw_shrinks c : shrinks (length c) (parse_string_raw c).
Proof.
  unfold parse_string_raw. destruct c as [|ch c]; [done|]. destruct (negb (head_is (ch :: c) 34)); [done|].
  pose proof (string_loop_total (length (ch :: c)) sb_null [] (drop 1 (ch :: c)) sb_holds_null) as Ht.
  cbn [drop] in *. rewrite drop_0 in *. cbn [length] in *. specialize (Ht ltac:(lia)).
  destruct (string_loop (S (length c)) sb_null c) as [[out c']| |]; [|done|done].
  destruct Ht as [[l Hl] Hc]. cbn_bind. destruct c' as [|x c']; [done|].
  destruct (negb (head_is (x :: c') 34)); [done|].
  destruct (out_finish_total out l Hl) as [s ->]. cbn_bind. cbn [shrinks drop].
  rewrite drop_0. cbn [length] in Hc. lia.
Qed.

Section JsonTotal.
Context `{CD : CDouble}.

Lemma match_literal_shrinks c lit (v : bm_json_value) :
  lit <> [] ->
  shrinks (length c) (match match_literal c lit with Some c => Ok (v, c) | None => Err end).
Proof.
  intros Hl. unfold match_literal. destruct (_ || _) eqn:E; [done|].
  apply orb_false_iff in E as [E _]. apply Z.ltb_ge in E. cbn [shrinks]. rewrite length_drop.
  unfold blen in E. destruct lit; [done|]. cbn [length] in *. lia.
Qed.

Lemma parse_total fuel :
  (forall c, (3 * length c + 1 <= fuel)%nat -> shrinks (length c) (parse_value fuel c))
  /\ (forall c, c <> [] -> (3 * length c <= fuel)%nat -> shrinks (length c) (parse_array fuel c))
  /\ (forall v c, (3 * length c + 2 <= fuel)%nat -> shrinks (length c) (array_loop fuel v c))
  /\ (forall c, c <> [] -> (3 * length c <= fuel)%nat -> shrinks (length c) (parse_object fuel c))
  /\ (forall v c, (3 * length c + 2 <= fuel)%nat -> shrinks (length c) (object_loop fuel v c)).
Proof.
  induction fuel as [|fuel (IHv & IHa & IHal & IHo & IHol)].
  { split_and!; intros; try lia; destruct c; [done|simpl in *; lia|done|simpl in *; lia]. }
  split_and!.
  - intros c Hf. cbn [parse_value]. pose proof (skip_ws_length c) as Hw.
    eapply shrinks_mono; [|exact Hw]. destruct (skip_ws c) as [|ch r] eqn:E; [done|].
    destruct (ch =? 34).
    { unfold parse_string. eapply shrinks_bind; [apply parse_string_raw_shrinks|]. auto. }
    destruct (ch =? 91); [apply IHa; [done|lia]|].
    destruct (ch =? 123); [apply IHo; [done|lia]|].
    destruct (ch =? 116); [by apply match_literal_shrinks|].
    destruct (ch =? 102); [by apply match_literal_shrinks|].
    destruct (ch =? 110); [by apply match_literal_shrinks|].
    unfold parse_number. eapply shrinks_bind; [apply scan_number_shrinks|]. auto.
  - intros c Hne Hf. destruct c as [|ch c]; [done|]. cbn [parse_array drop]. rewrite drop_0.
    cbn [length] in *. pose proof (skip_ws_length c) as Hw.
    destruct (head_is (skip_ws c) 93); [cbn [shrinks]; rewrite length_drop; lia|].
    eapply shrinks_mono; [apply IHal; lia|lia].
  - intros v c Hf. cbn [array_loop]. pose proof (skip_ws_length c).
    eapply shrinks_bind; [apply IHv; lia|]. intros item c1 H1. pose proof (skip_ws_length c1).
    destruct (skip_ws c1) as [|ch c2]; [done|]. cbn [length] in *.
    destruct (ch =? 44); [eapply shrinks_mono; [apply IHal; lia|lia]|].
    destruct (ch =? 93); [simpl; lia|done].
  - intros c Hne Hf. destruct c as [|ch c]; [done|]. cbn [parse_object drop]. rewrite drop_0.
    cbn [length] in *. pose proof (skip_ws_length c) as Hw.
    destruct (head_is (skip_ws c) 125); [cbn [shrinks]; rewrite length_drop; lia|].
    eapply shrinks_mono; [apply IHol; lia|lia].
  - intros v c Hf. cbn [object_loop]. pose proof (skip_ws_length c).
    eapply shrinks_bind; [apply parse_string_raw_shrinks|]. intros key c1 H1.
    pose proof (skip_ws_length c1). destruct (negb (head_is (skip_ws c1) 58)); [done|].
    pose proof (skip_ws_length (drop 1 (skip_ws c1))) as Hd. rewrite length_drop in Hd.
    eapply shrinks_bind; [apply IHv; lia|]. intros val c2 H2. pose proof (skip_ws_length c2).
    destruct (skip_ws c2) as [|ch c3]; [done|]. cbn [length] in *.
    destruct (ch =? 44); [eapply shrinks_mono; [apply IHol; lia|lia]|].
    destruct (ch =? 125); [simpl; lia|done].
Qed.
End JsonTotal.

(** ** Properties *)

Section JsonProperties.
Context `{CDL : CDoubleLaws}.

Lemma json_byte_digits l : Forall (fun c => is_digit c = true) l -> Forall json_byte l.
Proof.
  intros Hl. apply Forall_forall. intros c Hin. pose proof (proj1 (Forall_forall _ _) Hl c Hin) as Hc. simpl in Hc. unfold is_digit, json_byte in *. lia.
Qed.

Lemma number_text_bytes l : number_text l -> Forall json_byte l.
Proof.
  assert (Hb : forall b : bool, json_byte (if b then 45 else 43)) by (intros []; by unfold json_byte).
  intros (neg & i & f & e & -> & [_ Hi] & Hf & He). rewrite !Forall_app. split_and!.
  - destruct neg; repeat constructor; unfold json_byte; lia.
  - by apply json_byte_digits.
  - destruct f as [f|]; [|constructor]. constructor; [unfold json_byte; lia|].
    destruct Hf. by apply json_byte_digits.
  - destruct e as [[m e]|]; [|constructor]. destruct He.
    constructor; [by unfold json_byte|]. constructor; [apply Hb|by apply json_byte_digits].
Qed.

Lemma quoted_bytes s : Forall json_byte s -> Forall json_byte (quoted s).
Proof.
  intros Hs. unfold quoted, escape_all. constructor; [unfold json_byte; lia|].
  apply Forall_app. split; [|repeat constructor; lia].
  induction Hs as [|p s Hp _ IH]; [constructor|]. cbn [map concat]. apply Forall_app. split; [|done].
  assert (Hx : forall d, 0 <= d < 16 -> json_byte (hex_char d)).
  { intros d Hd. unfold hex_char, json_byte. case_match; lia. }
  assert (Hn : forall k, 0 <= Z.land (p ≫ k) 15 < 16).
  { intros k. change 15 with (Z.ones 4). rewrite Z.land_ones by lia. by apply Z.mod_pos_bound. }
  assert (H2 : forall a b, json_byte a -> json_byte b -> Forall json_byte [a; b])
    by (intros; do 2 (constructor; [done|]); constructor).
  unfold escaped, fmt_u04x. repeat case_match; try (by apply H2; unfold json_byte).
  - do 2 (constructor; [by unfold json_byte|]). cbn [map].
    do 4 (constructor; [by apply Hx|]). constructor.
  - by constructor.
Qed.

Lemma sep_bytes l : Forall (Forall json_byte) l -> Forall json_byte (sep l).
Proof.
  destruct 1 as [|x l Hx Hl]; [constructor|]. cbn [sep]. apply Forall_app. split; [done|].
  induction Hl as [|y l Hy _ IH]; [constructor|]. cbn [map concat]. apply Forall_app.
  split; [constructor; [by unfold json_byte|done]|done].
Qed.

Lemma render_bytes v : json_ok v -> Forall json_byte (render v).
Proof.
  assert (Hc : forall (b1 b2 : Z) m, json_byte b1 -> json_byte b2 -> Forall json_byte m ->
    Forall json_byte (b1 :: m ++ [b2])).
  { intros. constructor; [done|]. apply Forall_app. split; [done|]. by constructor. }
  induction v as [|b|d|s|items IH|pairs IH] using json_induction; intros Hv; cbn [render json_ok] in *.
  - by_bytes.
  - destruct b; by_bytes.
  - apply number_text_bytes. by destruct (number_render_ok d Hv) as (_ & ? & _).
  - by apply quoted_bytes.
  - apply Hc; [by unfold json_byte..|]. apply sep_bytes.
    induction IH as [|x items Hx _ IHi]; cbn [map]; [constructor|]. destruct Hv as [? Hv].
    constructor; [by apply Hx|by apply IHi].
  - apply Hc; [by unfold json_byte..|]. apply sep_bytes.
    induction IH as [|[k x] pairs Hx _ IHi]; cbn [map]; [constructor|].
    destruct Hv as [[? ?] Hv]. constructor; [|by apply IHi]. cbn [fst snd] in *.
    apply Forall_app. split; [by apply quoted_bytes|]. constructor; [by unfold json_byte|by apply Hx].
Qed.

(** C29: What the client writes it can read: the text of any value (strings of any bytes
    but NUL, control characters and quotes included, numbers of magnitude below 2^63,
    nested arrays and objects with repeated keys) is built inside its buffer and
    parses to the same value. *)
Theorem bm_json_roundtrip (v : bm_json_value) :
  json_ok v ->
  exists text, bm_json_serialize (Some v) = Ok text /\ bm_json_parse text = Ok v.
Proof.
  intros Hv. exists (render v). split.
  - unfold bm_json_serialize.
    destruct (serialize_appends v Hv sb_null [] sb_holds_null) as (b & -> & _ & rest & E). cbn_bind.
    rewrite E. cbn [app]. by rewrite cstring_app by (by apply render_bytes).
  - unfold bm_json_parse, parse_fuel. pose proof (parse_render v Hv) as R.
    specialize (R (3 * length (render v) + 1)%nat []). rewrite app_nil_r in R.
    by rewrite R by done.
Qed.

(** The parser ends on every text and stays inside it: parsing any bytes either
    fails or gives a value, within three calls per byte, with no read past the end and
    no write past the string it builds. *)
Theorem bm_json_parse_total (text : list Z) : safe (bm_json_parse text).
Proof.
  unfold safe, bm_json_parse, parse_fuel.
  destruct (parse_total (3 * length text + 1)) as [Hv _]. specialize (Hv text ltac:(lia)).
  destruct (parse_value _ text) as [[v c]| |]; cbn_bind; [|done|done].
  by destruct (skip_ws c).
Qed.
End JsonProperties.

(** ** Witnesses *)

(** Two numbers, as their texts: 7 and 2.5. *)
Definition toy_double : CDouble := {|
  double := list Z;
  strtod := fun l => l;
  to_llong := fun d => Ok (if list_eqb d [55] then 7 else 2);
  of_llong := fmt_lld;
  double_eqb := list_eqb;
  fmt_17g := fun d => d;
  double_zero := [48];
  plain_double := fun d => d = [55] \/ d = [50; 46; 53];
|}.

Lemma toy_double_laws : CDoubleLaws (H := toy_double).
Proof.
  constructor; cbn.
  - intros d [->| ->].
    + exists 7. done.
    + exists 2. by split.
  - intros d [->| ->]; (split; [|split; [simpl; lia|done]]).
    + exists false, [55], None, None. split_and!; try done. by repeat constructor.
    + exists false, [50], (Some [53]), None. by split_and!; repeat constructor.
Qed.

Section JsonWitnesses.
#[local] Existing Instance toy_double.
#[local] Existing Instance toy_double_laws.

Definition json_example : bm_json_value :=
  BM_JSON_OBJECT [(cstr "id"%string, BM_JSON_NUMBER [55]);
                  ([34; 10; 1; 227], BM_JSON_ARRAY [BM_JSON_NUMBER [50; 46; 53]; BM_JSON_NULL;
                                                BM_JSON_STRING [92; 200]; BM_JSON_ARRAY []])].

Lemma bm_json_roundtrip_witness :
  exists text, bm_json_serialize (Some json_example) = Ok text /\ bm_json_parse text = Ok json_example.
Proof.
  apply (bm_json_roundtrip json_example). split_and!; try done.
  - by_bytes.
  - by left.
  - by_bytes.
Defined.
End JsonWitnesses.
