(* ===== verification/Base58.v ===== *)
(** * common/base58.c

    The encoder is the in-place long division of the source: [work] is divided
    by 58 from [start_at] on, the digits go into [temp] from its end.  The index
    [j] is a natural number that the loop decrements before each store, so a
    store in front of [temp] is [Ub] and no other bound on the loop is needed.

    The decoder computes with OpenSSL's [BIGNUM], which is not part of the
    sources: the class [BigNum] states the documented meaning of the functions
    used, and [Z_BigNum] is an instance of it. *)

From Stdlib Require Import String.
From stdpp Require Import base tactics list numbers option.
From S2P Require Import Prelude.

(** ** Interface of OpenSSL's BIGNUM *)

(** [BN_mul] and [BN_add] return [None] for a failure (return value 0). *)
Class BigNum := {
  bn : Type;
  bn_val : bn -> Z;
  BN_zero : bn;
  BN_set_word : Z -> bn;
  BN_mul : bn -> bn -> option bn;
  BN_add : bn -> bn -> option bn;
  BN_num_bytes : bn -> Z;
  BN_bn2bin : bn -> list Z;
}.

(** Documented behaviour, on nonnegative numbers and with memory available. *)
Class BigNumLaws `{BigNum} : Prop := {
  bn_zero_val : bn_val BN_zero = 0;
  bn_set_word_val w : 0 <= w < 2 ^ 64 -> bn_val (BN_set_word w) = w;
  bn_mul_val a b : exists c, BN_mul a b = Some c /\ bn_val c = bn_val a * bn_val b;
  bn_add_val a b : exists c, BN_add a b = Some c /\ bn_val c = bn_val a + bn_val b;
  bn_num_bytes_val a n :
    0 <= n -> (n = 0 /\ bn_val a = 0 \/ 0 < n /\ 256 ^ (n - 1) <= bn_val a < 256 ^ n) ->
    BN_num_bytes a = n;
  bn_bn2bin_val a : 0 <= bn_val a ->
    BN_bn2bin a = be_split (Z.to_nat (BN_num_bytes a)) (bn_val a);
}.

(** ** Encoder *)

Definition ALPHABET : list Z :=
  cstr "123456789ABCDEFGHJKLMNPQRSTUVWXYZabcdefghijkmnopqrstuvwxyz".
Definition BASE_58 : Z := 58.

Fixpoint divmod58_from (remainder : Z) (number : list Z) : list Z * Z :=
  match number with
  | [] => ([], remainder)
  | d :: number =>
      let digit256 := Z.land d 255 in
      let temp := Z.shiftl remainder 8 + digit256 in
      let '(q, r) := divmod58_from (temp mod BASE_58) number in
      (u8 (temp / BASE_58) :: q, r)
  end.

Definition divmod58 (number : list Z) (start_at : nat) : list Z * Z :=
  let '(q, r) := divmod58_from 0 (drop start_at number) in
  (take start_at number ++ q, r).

(** [while (zero_count < length && work[zero_count] == 0) zero_count++;] *)
Fixpoint count_zeros (work : list Z) : nat :=
  match work with
  | b :: work => if b =? 0 then S (count_zeros work) else O
  | [] => O
  end.

(** [while (start_at < length) ...]; [temp] holds [temp[j ..]]. *)
Fixpoint encode_loop (j : nat) (work : list Z) (start_at : nat) (temp : list Z)
  : cres (nat * list Z) :=
  if (start_at <? length work)%nat then
    let '(work, mod_) := divmod58 work start_at in
    let start_at' :=
      if bool_decide (work !! start_at = Some 0) then S start_at else start_at in
    match j with
    | O => Ub
    | S j =>
        c ← rd ALPHABET mod_;
        encode_loop j work start_at' (c :: temp)
    end
  else Ok (j, temp).

(** [while (j < temp_len && temp[j] == ALPHABET[0]) ++j;] *)
Fixpoint strip_ones (j : nat) (temp : list Z) : nat * list Z :=
  match temp with
  | c :: temp' => if c =? 49 then strip_ones (S j) temp' else (j, temp)
  | [] => (j, temp)
  end.

(** [while (zero_count--) temp[--j] = ALPHABET[0];] *)
Fixpoint prepend_ones (zero_count j : nat) (temp : list Z) : cres (list Z) :=
  match zero_count with
  | O => Ok temp
  | S zero_count =>
      match j with
      | O => Ub
      | S j => prepend_ones zero_count j (49 :: temp)
      end
  end.

Definition bm_base58_encode (input : list Z) : cres (list Z) :=
  if blen input =? 0 then Err else
  let zero_count := count_zeros input in
  let temp_len := (length input * 2)%nat in
  '(j, temp) ← encode_loop temp_len input zero_count [];
  let '(j, temp) := strip_ones j temp in
  prepend_ones zero_count j temp.

(** ** Decoder *)

(** [strchr(ALPHABET, c) - ALPHABET], for [c] not NUL. *)
Fixpoint strchr_from (i : Z) (s : list Z) (c : Z) : option Z :=
  match s with
  | [] => None
  | x :: s => if x =? c then Some i else strchr_from (i + 1) s c
  end.
Definition alphabet_index (c : Z) : option Z := strchr_from 0 ALPHABET c.

Section Decode.
Context `{BN : BigNum}.

Fixpoint decode_loop (input : list Z) (value : bn) : cres bn :=
  match input with
  | [] => Ok value
  | p :: input =>
      match alphabet_index p with
      | None => Err
      | Some digit =>
          match BN_mul value (BN_set_word BASE_58) with
          | None => Err
          | Some m =>
              match BN_add m (BN_set_word digit) with
              | None => Err
              | Some value => decode_loop input value
              end
          end
      end
  end.

Definition bm_base58_decode (input : list Z) : cres (list Z) :=
  match input with
  | [] => Err
  | _ => value ← decode_loop input BN_zero; Ok (BN_bn2bin value)
  end.
End Decode.

(** ** Base-58 numerals *)

Fixpoint b58_acc (acc : Z) (ds : list Z) : Z :=
  match ds with
  | [] => acc
  | d :: ds => b58_acc (acc * 58 + d) ds
  end.
Definition b58_value (ds : list Z) : Z := b58_acc 0 ds.

Definition is_digit58 (d : Z) : Prop := 0 <= d < 58.

(** The character of a digit. *)
Definition digit_char (d : Z) : Z := nth (Z.to_nat d) ALPHABET 0.

Lemma digit_char_spec d :
  is_digit58 d ->
  rd ALPHABET d = Ok (digit_char d) /\ alphabet_index (digit_char d) = Some d
  /\ digit_char d <> 0 /\ (digit_char d = 49 <-> d = 0).
Proof.
  intros Hd. unfold is_digit58 in Hd.
  assert (E : exists n, (n < 58)%nat /\ d = Z.of_nat n) by (exists (Z.to_nat d); lia).
  destruct E as (n & Hn & ->).
  do 58 (destruct n as [|n]; [vm_compute; split_and!; done|]). lia.
Qed.

Lemma b58_acc_app acc a b : b58_acc acc (a ++ b) = b58_acc (b58_acc acc a) b.
Proof. revert acc. induction a; simpl; auto. Qed.

Lemma b58_value_snoc ds d : b58_value (ds ++ [d]) = b58_value ds * 58 + d.
Proof. unfold b58_value. by rewrite b58_acc_app. Qed.

(** ** Long division *)

Lemma divmod58_from_spec l rem :
  bytes_ok l -> 0 <= rem < 58 ->
  exists q r,
    divmod58_from rem l = (q, r) /\ length q = length l /\ bytes_ok q
    /\ is_digit58 r /\ rem * 256 ^ blen l + be_combine l = be_combine q * 58 + r.
Proof.
  revert rem. induction l as [|d l IH]; intros rem Hl Hr.
  { exists [], rem. rewrite blen_nil. unfold be_combine, is_digit58. simpl.
    split_and!; try done; try lia. }
  apply bytes_ok_cons in Hl as [Hd Hl]. unfold is_byte in Hd. cbn [divmod58_from].
  rewrite land_255_mod, (Z.mod_small d) by lia.
  rewrite Z.shiftl_mul_pow2 by lia. change (2 ^ 8) with 256. unfold BASE_58.
  set (t := rem * 256 + d). pose proof (Z.mod_pos_bound t 58 ltac:(lia)) as Hm.
  pose proof (Z.div_mod t 58 ltac:(lia)) as Ht.
  destruct (IH (t mod 58) Hl Hm) as (q & r & -> & Hlen & Hq & Hr' & E).
  assert (0 <= t / 58 < 256) as Hb by (split; [apply Z.div_pos; lia|
    apply Z.div_lt_upper_bound; unfold t; lia]).
  exists (u8 (t / 58) :: q), r. unfold u8. rewrite Z.mod_small by lia.
  split_and!; [done|simpl; lia|solve_bytes|done|].
  rewrite be_combine_cons, (be_combine_cons (t / 58)).
  replace (blen q) with (blen l) by (unfold blen; lia).
  rewrite blen_cons, Z.pow_add_r by (pose proof (blen_nonneg l); lia).
  change (256 ^ 1) with 256. nia.
Qed.

(** The loop invariant: the digits before [start_at] are gone and the number
    still to convert has no leading zero byte. *)
Definition no_lead_zero (l : list Z) : Prop :=
  match l with [] => True | b :: _ => b <> 0 end.

Lemma no_lead_zero_bound b l :
  bytes_ok (b :: l) -> b <> 0 -> 256 ^ blen l <= be_combine (b :: l).
Proof.
  intros Hl Hb. apply bytes_ok_cons in Hl as [H1 Hl]. rewrite be_combine_cons.
  pose proof (be_combine_bound l Hl). unfold is_byte in H1. nia.
Qed.

Lemma divmod58_step work start b s :
  bytes_ok work -> drop start work = b :: s -> b <> 0 ->
  exists work' r start',
    divmod58 work start = (work', r) /\ length work' = length work
    /\ bytes_ok work' /\ is_digit58 r
    /\ start' = (if bool_decide (work' !! start = Some 0) then S start else start)
    /\ (start' <= length work')%nat /\ no_lead_zero (drop start' work')
    /\ be_combine (drop start work) = be_combine (drop start' work') * 58 + r.
Proof.
  intros Hw Hd Hb. unfold divmod58. rewrite Hd.
  assert (Hs : bytes_ok (b :: s)) by (rewrite <- Hd; auto with bytes).
  destruct (divmod58_from_spec (b :: s) 0 Hs ltac:(lia))
    as (q & r & -> & Hlen & Hq & Hr & E).
  assert (Hlt : (start + length (b :: s) = length work)%nat).
  { rewrite <- Hd, length_drop. apply (f_equal length) in Hd.
    rewrite length_drop in Hd. simpl in Hd. lia. }
  assert (Htl : length (take start work) = start) by (rewrite length_take; simpl in *; lia).
  assert (Hdrop : drop start (take start work ++ q) = q)
    by (rewrite <- Htl at 1; apply drop_app_length).
  exists (take start work ++ q), r. eexists. split; [done|].
  split; [rewrite length_app; lia|].
  split; [rewrite bytes_ok_app; auto with bytes|]. split; [done|]. split; [done|].
  assert (Hlk : (take start work ++ q) !! start = q !! 0%nat)
    by (rewrite lookup_app_r, Htl, Nat.sub_diag by lia; done).
  rewrite Hlk, Z.mul_0_l, Z.add_0_l in *.
  destruct q as [|q0 q']; [simpl in *; lia|]. change ((q0 :: q') !! 0%nat) with (Some q0).
  case_bool_decide as E0.
  - injection E0 as ->. apply bytes_ok_cons in Hq as [_ Hq'].
    assert (Hd2 : drop (S start) (take start work ++ 0 :: q') = q').
    { change (S start) with (1 + start)%nat. rewrite Nat.add_comm, <- drop_drop, Hdrop. done. }
    rewrite Hd2. rewrite (be_combine_cons 0), Z.mul_0_l, Z.add_0_l in E.
    split_and!; [rewrite length_app; simpl in *; lia| |by rewrite E].
    destruct q' as [|c q'']; [done|]. simpl. intros ->.
    pose proof (no_lead_zero_bound b s Hs Hb) as Hlo. rewrite E in Hlo.
    apply bytes_ok_cons in Hq' as [_ Hq''].
    rewrite be_combine_cons, Z.mul_0_l, Z.add_0_l in Hlo.
    pose proof (be_combine_bound q'' Hq'') as Hhi. simpl in Hlen.
    replace (blen s) with (1 + blen q'') in Hlo by (unfold blen; lia).
    rewrite Z.pow_add_r in Hlo by (pose proof (blen_nonneg q''); lia).
    change (256 ^ 1) with 256 in Hlo. unfold is_digit58 in Hr. lia.
  - rewrite Hdrop. split_and!; [rewrite length_app; simpl in *; lia| |done].
    simpl. intros ->. apply E0. done.
Qed.

Lemma encode_loop_done j work start temp :
  (length work <= start)%nat -> encode_loop j work start temp = Ok (j, temp).
Proof.
  intros H. destruct j; cbn [encode_loop]; by rewrite (proj2 (Nat.ltb_ge _ _)).
Qed.

Lemma encode_loop_spec k j work start temp :
  bytes_ok work -> (start <= length work)%nat -> no_lead_zero (drop start work) ->
  be_combine (drop start work) < 58 ^ Z.of_nat k -> (k <= j)%nat ->
  exists ds,
    encode_loop j work start temp = Ok ((j - length ds)%nat, map digit_char ds ++ temp)
    /\ (length ds <= k)%nat /\ Forall is_digit58 ds
    /\ b58_value ds = be_combine (drop start work) /\ no_lead_zero ds.
Proof.
  revert j work start temp. induction k as [|k IH]; intros j work start temp Hw Hs Hz Hv Hj.
  - assert (Hnil : drop start work = []).
    { destruct (drop start work) as [|b s] eqn:E; [done|]. simpl in Hz.
      assert (bytes_ok (b :: s)) by (rewrite <- E; auto with bytes).
      pose proof (no_lead_zero_bound b s ltac:(done) Hz).
      pose proof (blen_nonneg s). simpl in Hv. lia. }
    exists []. apply (f_equal length) in Hnil as Hl. rewrite length_drop in Hl. simpl in Hl.
    rewrite encode_loop_done, Hnil, Nat.sub_0_r by lia. by split_and!; [| |constructor| |].
  - destruct (drop start work) as [|b s] eqn:E.
    { exists []. apply (f_equal length) in E as Hl. rewrite length_drop in Hl. simpl in Hl.
      rewrite encode_loop_done, Nat.sub_0_r by lia.
      split_and!; [done|simpl; lia|constructor|done|done]. }
    simpl in Hz. rewrite <- E in *.
    destruct (divmod58_step work start b s Hw E Hz)
      as (work' & r & start' & Hdm & Hlen & Hw' & Hr & Hst & Hle & Hz' & Hval).
    destruct j as [|j]; [lia|].
    assert (Hlt : (start < length work)%nat).
    { apply (f_equal length) in E. rewrite length_drop in E. simpl in E. lia. }
    cbn [encode_loop]. rewrite (proj2 (Nat.ltb_lt _ _)), Hdm, <- Hst by lia.
    rewrite (proj1 (digit_char_spec r Hr)). simpl mbind. cbv beta iota.
    destruct (IH j work' start' (digit_char r :: temp) Hw' ltac:(lia) Hz')
      as (ds & -> & Hdl & Hds & Hdv & Hdz); [|lia|].
    { rewrite Nat2Z.inj_succ, Z.pow_succ_r in Hv by lia. unfold is_digit58 in Hr. lia. }
    exists (ds ++ [r]). rewrite map_app, <- app_assoc, length_app. simpl length.
    split_and!; [do 2 f_equal; lia|lia|apply Forall_app; auto| |].
    + rewrite b58_value_snoc. lia.
    + destruct ds as [|d ds]; [|done]. simpl. unfold b58_value in Hdv. simpl in Hdv.
      intros ->. pose proof (no_lead_zero_bound b s) as Hb. rewrite <- E in Hb.
      specialize (Hb ltac:(auto with bytes) Hz). pose proof (blen_nonneg s).
      assert (0 < 256 ^ blen s) by (apply Z.pow_pos_nonneg; lia). lia.
Qed.

Lemma count_zeros_spec l :
  (count_zeros l <= length l)%nat /\ no_lead_zero (drop (count_zeros l) l)
  /\ be_combine (drop (count_zeros l) l) = be_combine l
  /\ take (count_zeros l) l = replicate (count_zeros l) 0.
Proof.
  induction l as [|b l (H1 & H2 & H3 & H4)]; [done|]. cbn [count_zeros].
  destruct (Z.eqb_spec b 0) as [->|Hb]; [|by split_and!; [simpl; lia|done|done|done]].
  split_and!; [simpl; lia|done| |simpl; by rewrite H4].
  cbn [drop]. rewrite H3, be_combine_cons. lia.
Qed.

Lemma prepend_ones_ok zc j temp :
  (zc <= j)%nat -> prepend_ones zc j temp = Ok (replicate zc 49 ++ temp).
Proof.
  revert j temp. induction zc as [|zc IH]; intros j temp H; [done|].
  destruct j as [|j]; [lia|]. cbn [prepend_ones]. rewrite IH by lia.
  by rewrite replicate_S_end, <- app_assoc.
Qed.

Lemma pow_256_58 n : 256 ^ Z.of_nat n <= 58 ^ Z.of_nat (n * 2).
Proof.
  rewrite Nat2Z.inj_mul, Z.mul_comm, Z.pow_mul_r by lia.
  apply Z.pow_le_mono_l. lia.
Qed.

(** What the encoder computes: one ['1'] per leading zero byte and the base-58
    numeral, without leading zero, of the whole input read as a number. *)
Lemma base58_encode_spec input :
  bytes_ok input -> input <> [] ->
  exists ds,
    bm_base58_encode input
      = Ok (replicate (count_zeros input) 49 ++ map digit_char ds)
    /\ Forall is_digit58 ds /\ no_lead_zero ds /\ b58_value ds = be_combine input.
Proof.
  intros Hb Hne. destruct (count_zeros_spec input) as (H1 & H2 & H3 & H4).
  set (zc := count_zeros input) in *.
  assert (Hv : be_combine (drop zc input) < 58 ^ Z.of_nat ((length input - zc) * 2)).
  { pose proof (be_combine_bound (drop zc input) ltac:(auto with bytes)) as Hbd.
    pose proof (pow_256_58 (length input - zc)).
    replace (blen (drop zc input)) with (Z.of_nat (length input - zc)) in Hbd
      by (unfold blen; rewrite length_drop; lia). lia. }
  destruct (encode_loop_spec ((length input - zc) * 2) (length input * 2) input zc []
              Hb H1 H2 Hv ltac:(lia)) as (ds & E & Hl & Hds & Hval & Hz).
  exists ds. split_and!; [|done|done|by rewrite Hval, H3].
  unfold bm_base58_encode. fold zc.
  assert (blen input <> 0) by (destruct input; [done|unfold blen; simpl; lia]).
  zdec. rewrite E, app_nil_r. simpl mbind. cbv beta iota.
  assert (Hstrip : forall j, strip_ones j (map digit_char ds) = (j, map digit_char ds)).
  { intros j. destruct ds as [|d ds']; [done|]. simpl in Hz |- *.
    apply Forall_cons_iff in Hds as [Hd _].
    destruct (digit_char_spec d Hd) as (_ & _ & _ & Hone).
    by destruct (Z.eqb_spec (digit_char d) 49) as [e|e]; [apply Hone in e|]. }
  rewrite Hstrip. apply prepend_ones_ok. lia.
Qed.

(** ** Decoder correctness *)

Section DecodeSpec.
Context `{BNL : BigNumLaws}.

Lemma decode_loop_spec ds v :
  Forall is_digit58 ds ->
  exists v', decode_loop (map digit_char ds) v = Ok v'
             /\ bn_val v' = b58_acc (bn_val v) ds.
Proof.
  intros Hds. revert v. induction Hds as [|d ds Hd Hds IH]; intros v; [by exists v|].
  cbn [map decode_loop]. destruct (digit_char_spec d Hd) as (_ & -> & _).
  destruct (bn_mul_val v (BN_set_word BASE_58)) as (m & -> & Hm).
  destruct (bn_add_val m (BN_set_word d)) as (a & -> & Ha).
  destruct (IH a) as (v' & -> & Hv'). exists v'. split; [done|]. rewrite Hv'. cbn [b58_acc].
  f_equal. unfold is_digit58, BASE_58 in *. rewrite Ha, Hm, !bn_set_word_val by lia. done.
Qed.

Lemma num_bytes_canonical v s :
  bytes_ok s -> no_lead_zero s -> bn_val v = be_combine s -> BN_bn2bin v = s.
Proof.
  intros Hs Hz Hv. pose proof (be_combine_bound s Hs) as Hb.
  assert (Hn : BN_num_bytes v = blen s).
  { apply bn_num_bytes_val; [apply blen_nonneg|]. destruct s as [|b s]; [left; done|].
    right. pose proof (no_lead_zero_bound b s Hs Hz). pose proof (blen_nonneg s).
    rewrite blen_cons in *. replace (1 + blen s - 1) with (blen s) by lia. lia. }
  rewrite bn_bn2bin_val, Hn, Hv by lia. unfold blen. rewrite Nat2Z.id.
  by apply be_split_combine.
Qed.

(** Decoding what the encoder produced drops the leading zero bytes. *)
Lemma base58_decode_encode input :
  bytes_ok input -> input <> [] ->
  exists s, bm_base58_encode input = Ok s
    /\ bm_base58_decode s = Ok (drop (count_zeros input) input).
Proof.
  intros Hb Hne. destruct (base58_encode_spec input Hb Hne) as (ds & -> & Hds & Hz & Hv).
  eexists. split; [done|].
  assert (E : replicate (count_zeros input) 49 = map digit_char (replicate (count_zeros input) 0))
    by (induction (count_zeros input) as [|k IHk]; simpl; [done|by rewrite IHk]).
  rewrite E, <- map_app. set (all := replicate (count_zeros input) 0 ++ ds).
  assert (Hall : Forall is_digit58 all).
  { apply Forall_app. split; [|done]. apply Forall_replicate. unfold is_digit58. lia. }
  assert (Hacc : b58_acc 0 all = be_combine input).
  { unfold all. rewrite b58_acc_app. rewrite <- Hv. unfold b58_value. f_equal.
    clear. induction (count_zeros input); simpl; auto. }
  destruct (decode_loop_spec all BN_zero Hall) as (v' & El & Hv').
  rewrite bn_zero_val, Hacc in Hv'.
  destruct (count_zeros_spec input) as (H1 & H2 & H3 & H4).
  assert (Hnn : map digit_char all <> []).
  { unfold all. destruct (count_zeros input) eqn:Ez; [|done]. simpl. destruct ds; [|done].
    destruct input as [|b input]; [done|]. simpl in Ez. destruct (Z.eqb_spec b 0); [done|].
    pose proof (no_lead_zero_bound b input Hb n) as Hlo. pose proof (blen_nonneg input).
    assert (0 < 256 ^ blen input) by (apply Z.pow_pos_nonneg; lia).
    unfold b58_value in Hv. simpl in Hv. lia. }
  unfold bm_base58_decode. destruct (map digit_char all) eqn:Em; [done|].
  rewrite El. simpl. f_equal. apply num_bytes_canonical; auto with bytes. by rewrite H3.
Qed.

(** The number of bytes of the shortest big-endian form. *)
Definition nbytes (v : Z) : Z := if v <=? 0 then 0 else Z.log2 v / 8 + 1.

Lemma nbytes_spec v :
  0 <= v ->
  0 <= nbytes v /\ (nbytes v = 0 /\ v = 0
    \/ 0 < nbytes v /\ 256 ^ (nbytes v - 1) <= v < 256 ^ nbytes v).
Proof.
  intros Hv. unfold nbytes. destruct (Z.leb_spec v 0); [lia|].
  pose proof (Z.log2_nonneg v). pose proof (Z.log2_spec v ltac:(lia)) as [Hlo Hhi].
  pose proof (Z.div_mod (Z.log2 v) 8 ltac:(lia)) as Hd.
  pose proof (Z.mod_pos_bound (Z.log2 v) 8 ltac:(lia)).
  assert (0 <= Z.log2 v / 8) by (apply Z.div_pos; lia).
  split; [lia|]. right. split; [lia|]. change 256 with (2 ^ 8).
  rewrite <- !Z.pow_mul_r by lia. split.
  - etransitivity; [|exact Hlo]. apply Z.pow_le_mono_r; lia.
  - eapply Z.lt_le_trans; [exact Hhi|]. apply Z.pow_le_mono_r; lia.
Qed.

Lemma bn2bin_eq v :
  0 <= bn_val v -> BN_bn2bin v = be_split (Z.to_nat (nbytes (bn_val v))) (bn_val v).
Proof.
  intros Hv. destruct (nbytes_spec (bn_val v) Hv) as [Hn Hc].
  rewrite bn_bn2bin_val by done. by rewrite (bn_num_bytes_val v _ Hn Hc).
Qed.

Lemma strchr_from_range i s c d : strchr_from i s c = Some d -> i <= d < i + blen s.
Proof.
  revert i. induction s as [|x s IH]; intros i Hc; [done|]. simpl in Hc. rewrite blen_cons.
  pose proof (blen_nonneg s).
  destruct (x =? c); [injection Hc as <-; lia|]. apply IH in Hc. lia.
Qed.

Lemma alphabet_index_digit c d : alphabet_index c = Some d -> is_digit58 d.
Proof. intros Hc. apply strchr_from_range in Hc. done. Qed.

Lemma decode_loop_eq s v :
  0 <= bn_val v ->
  match mapM alphabet_index s with
  | Some ds => Forall is_digit58 ds /\ exists v', decode_loop s v = Ok v'
               /\ bn_val v' = b58_acc (bn_val v) ds /\ 0 <= bn_val v'
  | None => decode_loop s v = Err
  end.
Proof.
  revert v. induction s as [|c s IH]; intros v Hv; [simpl; eauto|].
  cbn [mapM decode_loop]. destruct (alphabet_index c) as [d|] eqn:E; [|done].
  apply alphabet_index_digit in E as Hd.
  destruct (bn_mul_val v (BN_set_word BASE_58)) as (m & -> & Hm).
  destruct (bn_add_val m (BN_set_word d)) as (a & -> & Ha).
  unfold is_digit58, BASE_58 in *. rewrite bn_set_word_val in Hm, Ha by lia.
  rewrite Hm in Ha. specialize (IH a ltac:(lia)). cbn [mbind option_bind].
  destruct (mapM alphabet_index s) as [ds|]; [|done]. cbn.
  destruct IH as (Hds & v' & -> & Hv' & Hp). split; [by constructor|].
  exists v'. split_and!; [done| |done]. by rewrite Hv', Ha.
Qed.

(** The decoder in closed form: every character must be in the alphabet, and the
    result is the shortest big-endian form of the numeral. *)
Lemma base58_decode_eq s :
  bm_base58_decode s =
    match s, mapM alphabet_index s with
    | [], _ | _, None => Err
    | _, Some ds => Ok (be_split (Z.to_nat (nbytes (b58_value ds))) (b58_value ds))
    end.
Proof.
  destruct s as [|c s]; [done|]. unfold bm_base58_decode.
  pose proof (decode_loop_eq (c :: s) BN_zero) as Hd. rewrite bn_zero_val in Hd.
  specialize (Hd ltac:(lia)). destruct (mapM alphabet_index (c :: s)) as [ds|].
  - destruct Hd as (_ & v' & -> & Hv' & Hp). cbn_bind. by rewrite bn2bin_eq, Hv'.
  - by rewrite Hd.
Qed.

Lemma base58_decode_bytes s d : bm_base58_decode s = Ok d -> bytes_ok d.
Proof.
  rewrite base58_decode_eq. repeat case_match; try done. intros [= <-]. auto with bytes.
Qed.

Lemma base58_decode_safe s : safe (bm_base58_decode s).
Proof. rewrite base58_decode_eq. by repeat case_match. Qed.

Lemma base58_decode_leading_one s : s <> [] -> bm_base58_decode (49 :: s) = bm_base58_decode s.
Proof.
  intros Hs. rewrite !base58_decode_eq. destruct s as [|c s]; [done|].
  assert (E : mapM alphabet_index (49 :: c :: s) =
    match mapM alphabet_index (c :: s) with Some ds => Some (0 :: ds) | None => None end)
    by reflexivity.
  rewrite E. by destruct (mapM alphabet_index (c :: s)).
Qed.
End DecodeSpec.

(** ** An instance of the interface *)

#[export] Instance Z_BigNum : BigNum := {|
  bn := Z; bn_val := fun z => z; BN_zero := 0; BN_set_word := fun w => w;
  BN_mul := fun a b => Some (a * b); BN_add := fun a b => Some (a + b);
  BN_num_bytes := fun v => if v <=? 0 then 0 else Z.log2 v / 8 + 1;
  BN_bn2bin := fun v =>
    be_split (Z.to_nat (if v <=? 0 then 0 else Z.log2 v / 8 + 1)) v;
|}.

#[export] Instance Z_BigNumLaws : BigNumLaws (H := Z_BigNum).
Proof.
  constructor; simpl; try done; try (intros; eexists; done).
  intros a n Hn H. destruct H as [[-> ->]|[Hp [Hlo Hhi]]]; [done|].
  assert (0 < 256 ^ (n - 1)) by (apply Z.pow_pos_nonneg; lia). zdec.
  assert (0 < a) by lia. change 256 with (2 ^ 8) in *.
  rewrite <- !Z.pow_mul_r in * by lia.
  apply Z.log2_le_pow2 in Hlo; [|lia]. apply Z.log2_lt_pow2 in Hhi; [|lia].
  enough (Z.log2 a / 8 = n - 1) by lia.
  symmetry. apply (Z.div_unique_pos _ _ _ (Z.log2 a - 8 * (n - 1))); lia.
Qed.

(** ** Properties *)

(** The Base58 encoder accepts every nonempty byte string, never writes
    outside its digit buffer of twice the input length, and the decoder, over
    any implementation of BIGNUM, gives back the input without its leading zero
    bytes; an input that starts with a nonzero byte comes back unchanged. *)
Theorem bm_base58_roundtrip `{BigNumLaws} (input : list Z) :
  bytes_ok input -> input <> [] ->
  exists s, bm_base58_encode input = Ok s
    /\ bm_base58_decode s = Ok (drop (count_zeros input) input)
    /\ (no_lead_zero input -> bm_base58_decode s = Ok input).
Proof.
  intros Hb Hne. destruct (base58_decode_encode input Hb Hne) as (s & E & D).
  exists s. split_and!; [done|done|]. intros Hz. rewrite D. f_equal.
  destruct input as [|b input]; [done|]. simpl in *. by destruct (Z.eqb_spec b 0).
Qed.

Lemma bm_base58_roundtrip_witness :
  exists s, bm_base58_encode [0; 128; 7; 255] = Ok s
    /\ bm_base58_decode s = Ok (drop (count_zeros [0; 128; 7; 255]) [0; 128; 7; 255])
    /\ (no_lead_zero [0; 128; 7; 255] -> bm_base58_decode s = Ok [0; 128; 7; 255]).
Proof.
  apply (bm_base58_roundtrip (H := Z_BigNum) [0; 128; 7; 255]); [|done].
  by apply (bool_decide_unpack _); vm_compute.
Defined.
