(* ===== verification/Openssl.v ===== *)
(** * The cryptographic library the node calls

    OpenSSL is not part of the sources.  Its functions are parameters of the
    model, collected in the class [OpenSSL]; [OpenSSLLaws] states the documented
    behaviour the node relies on.  Random bytes are explicit arguments of the
    operations that draw them.  [toy_OpenSSL] is a (cryptographically worthless)
    instance of the laws, used to evaluate the definitions on concrete inputs.

    Keys are 32-byte private scalars and 65-byte uncompressed points. *)

From stdpp Require Import base tactics list numbers option.
From S2P Require Import Prelude.

Class OpenSSL := {
  (** [EVP_Digest] with "SHA256", "SHA512", "RIPEMD160" *)
  SHA256 : list Z -> list Z;
  SHA512 : list Z -> list Z;
  RIPEMD160 : list Z -> list Z;
  (** [HMAC(EVP_sha256(), key, data)]; [None] for a null result *)
  HMAC_SHA256 : list Z -> list Z -> option (list Z);
  (** [EC_POINT_mul(priv * G)] on secp256k1, then [EC_POINT_point2oct]
      uncompressed: the octets written, [None] when a call fails *)
  EC_base_mul : list Z -> option (list Z);
  (** x coordinate, padded to 32 bytes, of [priv * pub] *)
  EC_ecdh_x : list Z -> list Z -> option (list Z);
  (** AES-256-CBC with PKCS#7 padding: key, iv, input *)
  AES_256_CBC_encrypt : list Z -> list Z -> list Z -> option (list Z);
  AES_256_CBC_decrypt : list Z -> list Z -> list Z -> option (list Z);
  (** [o2i_ECPublicKey]: the 65 octets are a point of the curve *)
  EC_valid_public : list Z -> bool;
  (** ECDSA over a 32-byte digest: private key, nonce source, digest *)
  ECDSA_sign : list Z -> list Z -> list Z -> option (list Z);
  (** public key, digest, signature: the result is 1 *)
  ECDSA_verify : list Z -> list Z -> list Z -> bool;
}.

Class OpenSSLLaws `{OpenSSL} : Prop := {
  SHA256_len d : blen (SHA256 d) = 32;
  SHA512_len d : blen (SHA512 d) = 64;
  RIPEMD160_len d : blen (RIPEMD160 d) = 20;
  SHA256_bytes d : bytes_ok (SHA256 d);
  SHA512_bytes d : bytes_ok (SHA512 d);
  RIPEMD160_bytes d : bytes_ok (RIPEMD160 d);
  (** FIPS 180-4: the digest of the empty message starts with cf83e135 *)
  SHA512_empty : slice (SHA512 []) 0 4 = [207; 131; 225; 53];
  HMAC_SHA256_len k d m : HMAC_SHA256 k d = Some m -> blen m = 32 /\ bytes_ok m;
  (** an uncompressed point of full length starts with 0x04 *)
  EC_base_mul_uncompressed p q :
    EC_base_mul p = Some q -> blen q = 65 ->
    bytes_ok q /\ take 1 q = [4] /\ EC_valid_public q = true;
  (** Diffie-Hellman: [a * (b * G) = b * (a * G)] *)
  EC_ecdh_comm a b A B :
    EC_base_mul a = Some A -> EC_base_mul b = Some B -> blen A = 65 -> blen B = 65 ->
    EC_ecdh_x a B = EC_ecdh_x b A;
  AES_256_CBC_roundtrip key iv pt ct :
    AES_256_CBC_encrypt key iv pt = Some ct -> AES_256_CBC_decrypt key iv ct = Some pt;
  AES_256_CBC_bytes key iv pt ct :
    bytes_ok pt -> AES_256_CBC_encrypt key iv pt = Some ct -> bytes_ok ct;
  (** removing the padding never makes the data longer *)
  AES_256_CBC_decrypt_bytes key iv ct pt :
    bytes_ok ct -> AES_256_CBC_decrypt key iv ct = Some pt -> bytes_ok pt /\ blen pt <= blen ct;
  ECDSA_correct priv pub rnd digest sig :
    EC_base_mul priv = Some pub -> blen pub = 65 ->
    ECDSA_sign priv rnd digest = Some sig -> ECDSA_verify pub digest sig = true;
  (** [ECDSA_size] of secp256k1 bounds the DER signature *)
  ECDSA_sign_len priv rnd digest sig :
    ECDSA_sign priv rnd digest = Some sig -> blen sig <= 72 /\ bytes_ok sig;
}.

#[export] Hint Resolve SHA256_bytes SHA512_bytes RIPEMD160_bytes : bytes.

(** ** An instance *)

#[local] Arguments be_split : simpl never.

Definition toy_digest (n : nat) (d : list Z) : list Z := be_split n (be_combine (1 :: d)).

Definition toy_mul (p : list Z) : list Z :=
  4 :: be_split 32 (be_combine p) ++ be_split 32 (be_combine p).

Definition toy_sig (priv digest : list Z) : list Z :=
  be_split 32 (be_combine priv) ++ be_split 32 (be_combine digest).

Definition toy_OpenSSL : OpenSSL := {|
  SHA256 := toy_digest 32;
  SHA512 := fun d => match d with
                     | [] => [207; 131; 225; 53] ++ replicate 60 0
                     | _ => toy_digest 64 d
                     end;
  RIPEMD160 := toy_digest 20;
  HMAC_SHA256 := fun k d => Some (be_split 32 (be_combine (k ++ d)));
  EC_base_mul := fun p => Some (toy_mul p);
  EC_ecdh_x := fun a B =>
    Some (be_split 32 (be_combine a mod 256 ^ 32 + be_combine (slice B 1 32)));
  AES_256_CBC_encrypt := fun _ _ pt => Some pt;
  AES_256_CBC_decrypt := fun _ _ ct => Some ct;
  EC_valid_public := fun p => bool_decide (take 1 p = [4]);
  ECDSA_sign := fun priv _ digest => Some (toy_sig priv digest);
  ECDSA_verify := fun pub digest sig =>
    list_eqb sig (slice pub 1 32 ++ be_split 32 (be_combine digest));
|}.

Lemma toy_mul_slice p : slice (toy_mul p) 1 32 = be_split 32 (be_combine p).
Proof.
  apply (slice_app_mid [4]); [done|by rewrite blen_be_split].
Qed.

Lemma toy_OpenSSLLaws : OpenSSLLaws (H := toy_OpenSSL).
Proof.
  constructor; simpl; unfold toy_digest; intros; auto using blen_be_split with bytes;
    try (by destruct d; [|apply blen_be_split]);
    repeat match goal with H : Some _ = Some _ |- _ => injection H as <- end; try done.
  - destruct d; [|auto with bytes]. apply (bool_decide_unpack _). by vm_compute.
  - split; [apply blen_be_split|auto with bytes].
  - split_and!; [|done|done]. unfold toy_mul. solve_bytes.
  - rewrite !toy_mul_slice, !be_combine_split. do 2 f_equal. lia.
  - rewrite toy_mul_slice. apply list_eqb_refl.
  - unfold toy_sig. split; [rewrite blen_app, !blen_be_split; lia|solve_bytes].
Qed.

(** ** The key store's functions

    The password-based derivation, HKDF and AES-256-GCM; a class of their own, since only
    the keyring uses them.  Results are [None] when a call fails. *)

Class OpenSSLVault := {
  (** [EVP_PBE_scrypt]: pass phrase, salt, N, r, p; 32 bytes *)
  scrypt : list Z -> list Z -> Z -> Z -> Z -> option (list Z);
  (** HKDF with SHA256 in mode EXPAND_ONLY: key, salt, info; 32 bytes *)
  HKDF_expand : list Z -> list Z -> list Z -> option (list Z);
  (** key, 12-byte nonce, additional data, text: the ciphertext and the 16-byte tag *)
  AES_256_GCM_encrypt : list Z -> list Z -> list Z -> list Z -> option (list Z * list Z);
  (** key, nonce, additional data, ciphertext, tag *)
  AES_256_GCM_decrypt : list Z -> list Z -> list Z -> list Z -> list Z -> option (list Z)
}.

Class OpenSSLVaultLaws `{OpenSSLVault} : Prop := {
  GCM_lengths k n a pt ct tag :
    AES_256_GCM_encrypt k n a pt = Some (ct, tag) -> blen ct = blen pt /\ blen tag = 16;
  (** decryption succeeds exactly on what encryption of its result gives *)
  GCM_authentic k n a pt ct tag :
    AES_256_GCM_decrypt k n a ct tag = Some pt <-> AES_256_GCM_encrypt k n a pt = Some (ct, tag);
  GCM_bytes k n a ct tag pt : bytes_ok ct -> AES_256_GCM_decrypt k n a ct tag = Some pt -> bytes_ok pt
}.

(** A number that depends on every byte. *)
Definition toy_fold (d : list Z) : Z := fold_left (fun a b => Z.land (a * 131 + b + 1) (Z.ones 56)) d 7.

Definition toy_vault : OpenSSLVault := {|
  scrypt := fun pass salt N r p => Some (be_split 32 (be_combine (1 :: pass ++ salt)));
  HKDF_expand := fun key salt info => Some (be_split 32 (be_combine (1 :: key ++ info)));
  AES_256_GCM_encrypt := fun k n a pt => Some (pt, be_split 16 (toy_fold (k ++ n ++ a ++ pt)));
  AES_256_GCM_decrypt := fun k n a ct tag =>
    if list_eqb tag (be_split 16 (toy_fold (k ++ n ++ a ++ ct))) then Some ct else None
|}.

Lemma toy_OpenSSLVaultLaws : OpenSSLVaultLaws (H := toy_vault).
Proof.
  constructor; cbn.
  - intros k n a pt ct tag [= <- <-]. split; [done|apply blen_be_split].
  - intros k n a pt ct tag. destruct (list_eqb tag _) eqn:E.
    + apply list_eqb_eq in E. split; [intros [= ->]; by rewrite E|by intros [= <- _]].
    + split; [done|]. intros [= -> <-]. by rewrite list_eqb_refl in E.
  - intros k n a ct tag pt Hb E. case_match; by simplify_eq.
Qed.
