(* ===== verification/Hash.v ===== *)
(** * common/hash.c

    Digests over the OpenSSL parameters.  [digest_oneshot] is the parameter
    itself (its output length argument is unused in the source). *)

From stdpp Require Import base tactics list numbers option.
From S2P Require Import Prelude Openssl.

Section Hash.
Context `{OS : OpenSSL}.

Definition bm_sha256 (data : list Z) : list Z := SHA256 data.
Definition bm_sha512 (data : list Z) : list Z := SHA512 data.
Definition bm_ripemd160 (data : list Z) : list Z := RIPEMD160 data.

Definition bm_double_sha256 (data : list Z) : list Z :=
  let first := bm_sha256 data in bm_sha256 first.

Definition bm_double_sha512 (data : list Z) : list Z :=
  let first := bm_sha512 data in bm_sha512 first.

(** [for (i = 0; i < 32; i++) out[i] = full[i];] *)
Definition bm_inventory_hash (payload : list Z) : list Z :=
  let full := bm_double_sha512 payload in take 32 full.

Definition bm_hmac_sha256 (key data : list Z) : cres (list Z) :=
  match HMAC_SHA256 key data with
  | Some result => if blen result =? 32 then Ok result else Err
  | None => Err
  end.
End Hash.

Section HashLemmas.
Context `{OSL : OpenSSLLaws}.

Lemma blen_sha512 d : blen (bm_sha512 d) = 64.
Proof. apply SHA512_len. Qed.
Lemma blen_double_sha512 d : blen (bm_double_sha512 d) = 64.
Proof. apply SHA512_len. Qed.
Lemma blen_double_sha256 d : blen (bm_double_sha256 d) = 32.
Proof. apply SHA256_len. Qed.
Lemma blen_ripemd160 d : blen (bm_ripemd160 d) = 20.
Proof. apply RIPEMD160_len. Qed.

Lemma bytes_ok_double_sha512 d : bytes_ok (bm_double_sha512 d).
Proof. apply SHA512_bytes. Qed.
Lemma bytes_ok_double_sha256 d : bytes_ok (bm_double_sha256 d).
Proof. apply SHA256_bytes. Qed.
Lemma bytes_ok_sha512 d : bytes_ok (bm_sha512 d).
Proof. apply SHA512_bytes. Qed.
Lemma bytes_ok_ripemd160 d : bytes_ok (bm_ripemd160 d).
Proof. apply RIPEMD160_bytes. Qed.

Lemma inventory_hash_32 p : blen (bm_inventory_hash p) = 32 /\ bytes_ok (bm_inventory_hash p).
Proof.
  unfold bm_inventory_hash. split; [|auto using bytes_ok_double_sha512 with bytes].
  pose proof (blen_double_sha512 p) as E. unfold blen in *. rewrite length_take. lia.
Qed.
End HashLemmas.

#[export] Hint Resolve bytes_ok_double_sha512 bytes_ok_double_sha256 bytes_ok_sha512
  bytes_ok_ripemd160 : bytes.
#[export] Hint Rewrite @blen_sha512 @blen_double_sha512 @blen_double_sha256
  @blen_ripemd160 using typeclasses eauto : blen.
