(* ===== verification/Address.v ===== *)
(** * core/address.c

    Key derivation, the address and WIF text formats, and the deterministic
    address search.  Blocks the source allocates or keeps on the stack are
    written in place with [wr], so a store outside one is [Ub]. *)

From Stdlib Require Import String.
From stdpp Require Import base tactics list numbers option.
From S2P Require Import Prelude Varint Base58 Openssl Hash.

Definition BM_PRIVATE_KEY_LEN : Z := 32.
Definition BM_PUBLIC_KEY_LEN : Z := 65.
Definition BM_RIPE_LEN : Z := 20.

(** [struct bm_generated_address] *)
Record bm_generated_address := {
  priv_signing : list Z;
  priv_encryption : list Z;
  pub_signing : list Z;
  pub_encryption : list Z;
  gen_ripe : list Z;
  signing_nonce : Z;
  encryption_nonce : Z;
}.

(** ** Operations *)

Section Address.
Context `{OS : OpenSSL} `{BN : BigNum}.

Definition bm_address_derive_private_key (passphrase : list Z) (nonce : Z) : cres (list Z) :=
  let pass_len := blen passphrase in
  let nonce_len := bm_varint_size nonce in
  buf ← wr (malloc (pass_len + nonce_len)) 0 passphrase;
  buf ← bm_varint_encode (Some (buf, pass_len)) nonce;
  Ok (take (Z.to_nat BM_PRIVATE_KEY_LEN) (bm_sha512 buf)).

Definition bm_address_get_public_key (priv : list Z) : cres (list Z) :=
  match EC_base_mul priv with
  | None => Err
  | Some out_pub => if blen out_pub =? BM_PUBLIC_KEY_LEN then Ok out_pub else Err
  end.

Definition bm_address_calc_ripe (sign_pub enc_pub : list Z) : cres (list Z) :=
  combined ← wr (malloc (BM_PUBLIC_KEY_LEN * 2)) 0 sign_pub;
  combined ← wr combined BM_PUBLIC_KEY_LEN enc_pub;
  Ok (bm_ripemd160 (bm_sha512 combined)).

(** Both halves are returned; the source skips a null output pointer. *)
Definition bm_address_derive_secret_and_tag (version stream : Z) (ripe : list Z)
  : cres (list Z * list Z) :=
  let offset := 0 in
  buf ← bm_varint_encode (Some (malloc (9 + 9 + BM_RIPE_LEN), offset)) version;
  let offset := offset + bm_varint_size version in
  buf ← bm_varint_encode (Some (buf, offset)) stream;
  let offset := offset + bm_varint_size stream in
  buf ← wr buf offset ripe;
  let offset := offset + BM_RIPE_LEN in
  full ← (input ← rdn buf 0 offset; Ok (bm_sha512 input));
  Ok (slice full 0 32, slice full 32 32).

(** The bytes of [ripe] that go into the address. *)
Definition trim_ripe (version : Z) (work : list Z) : cres (list Z) :=
  if (2 <=? version) && (version <? 4) then
    w0 ← rd work 0; w1 ← rd work 1;
    if (w0 =? 0) && (w1 =? 0) then Ok (drop 2 work)
    else if w0 =? 0 then Ok (drop 1 work)
    else Ok work
  else if version =? 4 then Ok (drop (count_zeros work) work)
  else Ok work.

Definition bm_address_encode (version stream : Z) (ripe : list Z) : cres (list Z) :=
  if negb (blen ripe =? BM_RIPE_LEN) then Err else
  trimmed ← trim_ripe version ripe;
  let ver_len := bm_varint_size version in
  let stream_len := bm_varint_size stream in
  let data_len := ver_len + stream_len + blen trimmed in
  data ← bm_varint_encode (Some (malloc (data_len + 4), 0)) version;
  data ← bm_varint_encode (Some (data, ver_len)) stream;
  data ← wr data (ver_len + stream_len) trimmed;
  checksum ← (input ← rdn data 0 data_len; Ok (bm_double_sha512 input));
  data ← wr data data_len (take 4 checksum);
  b58 ← bm_base58_encode data;
  Ok (cstr "BM-" ++ b58).

Definition bm_address_encode_wif (priv : list Z) : cres (list Z) :=
  raw ← wr (malloc (1 + BM_PRIVATE_KEY_LEN + 4)) 0 [128];
  raw ← wr raw 1 priv;
  input ← rdn raw 0 (1 + BM_PRIVATE_KEY_LEN);
  raw ← wr raw (1 + BM_PRIVATE_KEY_LEN) (take 4 (bm_double_sha256 input));
  bm_base58_encode raw.

Definition bm_address_decode_wif (wif : list Z) : cres (list Z) :=
  data ← bm_base58_decode wif;
  if negb (blen data =? 1 + BM_PRIVATE_KEY_LEN + 4) then Err else
  d0 ← rd data 0;
  if negb (d0 =? 128) then Err else
  input ← rdn data 0 (1 + BM_PRIVATE_KEY_LEN);
  sum ← rdn data (1 + BM_PRIVATE_KEY_LEN) 4;
  if negb (list_eqb (take 4 (bm_double_sha256 input)) sum) then Err else
  rdn data 1 BM_PRIVATE_KEY_LEN.

(** [strncmp(address, "BM-", 3) == 0] selects the tail. *)
Definition strip_prefix (address : list Z) : list Z :=
  if list_eqb (take 3 address) (cstr "BM-") then drop 3 address else address.

Definition decode_ripe (version : Z) (ripe_data : list Z) : cres (list Z) :=
  if (version =? 2) || (version =? 3) then
    if blen ripe_data >? BM_RIPE_LEN then Err else
    let zero_pad := BM_RIPE_LEN - blen ripe_data in
    Ok (replicate (Z.to_nat zero_pad) 0 ++ ripe_data)
  else
    if (blen ripe_data <? 4) || (blen ripe_data >? 20) then Err else
    r0 ← rd ripe_data 0;
    if r0 =? 0 then Err else
    let pad := 20 - blen ripe_data in
    Ok (replicate (Z.to_nat pad) 0 ++ ripe_data).

Definition bm_address_decode (address : list Z) : cres (Z * Z * list Z) :=
  let b58_part := strip_prefix address in
  data ← bm_base58_decode b58_part;
  if blen data <? 4 then Err else
  let payload_len := blen data - 4 in
  payload ← rdn data 0 payload_len;
  sum ← rdn data payload_len 4;
  if negb (list_eqb (take 4 (bm_double_sha512 payload)) sum) then Err else
  '(consumed, version) ← bm_varint_decode data payload_len;
  if (version <? 2) || (version >? 4) then Err else
  let offset := consumed in
  '(consumed, stream) ← bm_varint_decode (drop (Z.to_nat offset) data) (payload_len - offset);
  let offset := offset + consumed in
  ripe_data ← rdn data offset (payload_len - offset);
  out_ripe ← decode_ripe version ripe_data;
  Ok (version, stream, out_ripe).

(** [for (i = 0; i < null_bytes; i++) if (ripe[i] != 0x00) { ok = 0; break; }] *)
Fixpoint ripe_has_nulls (ripe : list Z) (i : Z) (null_bytes : nat) : cres bool :=
  match null_bytes with
  | O => Ok true
  | S null_bytes =>
      b ← rd ripe i;
      if negb (b =? 0) then Ok false else ripe_has_nulls ripe (i + 1) null_bytes
  end.

(** One turn of the [for (;;)]: [None] when the candidate does not qualify. *)
Definition try_nonces (passphrase : list Z) (null_bytes : nat) (sn en : Z)
  : cres (option bm_generated_address) :=
  priv_sign ← bm_address_derive_private_key passphrase sn;
  priv_enc ← bm_address_derive_private_key passphrase en;
  pub_sign ← bm_address_get_public_key priv_sign;
  pub_enc ← bm_address_get_public_key priv_enc;
  ripe ← bm_address_calc_ripe pub_sign pub_enc;
  ok ← ripe_has_nulls ripe 0 null_bytes;
  let sn' := u64 (sn + 2) in
  let en' := u64 (en + 2) in
  if (ok : bool) then
    Ok (Some {| priv_signing := priv_sign; priv_encryption := priv_enc;
                pub_signing := pub_sign; pub_encryption := pub_enc; gen_ripe := ripe;
                signing_nonce := u64 (sn' - 2); encryption_nonce := u64 (en' - 2) |})
  else Ok None.

(** [fuel] turns of the search; [Ok None]: still searching after them. *)
Fixpoint generate_loop (fuel : nat) (passphrase : list Z) (null_bytes : nat) (sn en : Z)
  : cres (option bm_generated_address) :=
  match fuel with
  | O => Ok None
  | S fuel =>
      r ← try_nonces passphrase null_bytes sn en;
      match r with
      | Some out => Ok (Some out)
      | None => generate_loop fuel passphrase null_bytes (u64 (sn + 2)) (u64 (en + 2))
      end
  end.

Definition bm_address_generate_deterministic (fuel : nat) (passphrase : list Z)
  (null_bytes : nat) : cres (option bm_generated_address) :=
  generate_loop fuel passphrase null_bytes 0 1.
End Address.

(** ** What the writers produce *)

Section AddressLemmas.
Context `{OSL : OpenSSLLaws} `{BNL : BigNumLaws}.

Lemma derive_private_key_eq passphrase nonce :
  bm_address_derive_private_key passphrase nonce
  = Ok (take 32 (bm_sha512 (passphrase ++ varint_bytes nonce))).
Proof.
  unfold bm_address_derive_private_key. pose proof (bm_varint_size_pos nonce).
  rewrite wr_malloc_start by lia. cbn_bind.
  rewrite varint_encode_malloc by lia. cbn_bind.
  by rewrite malloc_nil, app_nil_r by lia.
Qed.

Lemma calc_ripe_eq a b :
  blen a = 65 -> blen b = 65 ->
  bm_address_calc_ripe a b = Ok (bm_ripemd160 (bm_sha512 (a ++ b))).
Proof.
  intros Ha Hb. unfold bm_address_calc_ripe, BM_PUBLIC_KEY_LEN.
  rewrite wr_malloc_start by lia. cbn_bind. by rewrite wr_malloc_last by lia.
Qed.

Lemma get_public_key_len p q : bm_address_get_public_key p = Ok q -> blen q = 65.
Proof.
  unfold bm_address_get_public_key, BM_PUBLIC_KEY_LEN. repeat case_match; try done.
  intros [= <-]. lia.
Qed.

Lemma secret_and_tag_eq version stream ripe :
  blen ripe = 20 ->
  bm_address_derive_secret_and_tag version stream ripe
  = Ok (slice (bm_sha512 (varint_bytes version ++ varint_bytes stream ++ ripe)) 0 32,
        slice (bm_sha512 (varint_bytes version ++ varint_bytes stream ++ ripe)) 32 32).
Proof.
  intros Hr. unfold bm_address_derive_secret_and_tag, BM_RIPE_LEN.
  pose proof (bm_varint_size_pos version). pose proof (bm_varint_size_pos stream).
  rewrite varint_encode_malloc_start by lia. cbn_bind.
  rewrite varint_encode_malloc by (rewrite ?blen_varint_bytes; lia). cbn_bind.
  rewrite wr_malloc by (rewrite ?blen_app, ?blen_varint_bytes; lia). cbn_bind.
  rewrite rdn_prefix by (rewrite !blen_app, !blen_varint_bytes; lia).
  cbn_bind. by rewrite <- app_assoc.
Qed.

Lemma blen_take4_sum256 d : blen (take 4 (bm_double_sha256 d)) = 4.
Proof. pose proof (blen_double_sha256 d). unfold blen in *. rewrite length_take. lia. Qed.

Lemma blen_take4_sum512 d : blen (take 4 (bm_double_sha512 d)) = 4.
Proof. pose proof (blen_double_sha512 d). unfold blen in *. rewrite length_take. lia. Qed.

Lemma wif_raw priv :
  blen priv = 32 ->
  bm_address_encode_wif priv
  = bm_base58_encode ((128 :: priv) ++ take 4 (bm_double_sha256 (128 :: priv))).
Proof.
  intros Hp. unfold bm_address_encode_wif, BM_PRIVATE_KEY_LEN.
  rewrite wr_malloc_start by solve_blen. cbn_bind.
  rewrite wr_malloc by solve_blen. cbn_bind.
  rewrite rdn_prefix by solve_blen. cbn_bind. rewrite wr_malloc_last; [done|solve_blen|].
  change ([128] ++ priv) with (128 :: priv). rewrite blen_take4_sum256. solve_blen.
Qed.

Definition address_payload (version stream : Z) (trimmed : list Z) : list Z :=
  varint_bytes version ++ varint_bytes stream ++ trimmed.

Lemma address_encode_raw version stream ripe trimmed :
  blen ripe = 20 -> trim_ripe version ripe = Ok trimmed ->
  bm_address_encode version stream ripe
  = (b58 ← bm_base58_encode (address_payload version stream trimmed
             ++ take 4 (bm_double_sha512 (address_payload version stream trimmed)));
     Ok (cstr "BM-" ++ b58)).
Proof.
  intros Hr Ht. unfold bm_address_encode, BM_RIPE_LEN, address_payload. zdec. rewrite Ht.
  cbn_bind. pose proof (bm_varint_size_pos version). pose proof (bm_varint_size_pos stream).
  pose proof (blen_nonneg trimmed).
  rewrite varint_encode_malloc_start by lia. cbn_bind.
  rewrite varint_encode_malloc by (rewrite ?blen_varint_bytes; lia). cbn_bind.
  rewrite wr_malloc by (rewrite ?blen_app, ?blen_varint_bytes; lia). cbn_bind.
  rewrite rdn_prefix by (rewrite !blen_app, !blen_varint_bytes; lia). cbn_bind.
  rewrite wr_malloc_last; [by rewrite <- (app_assoc (varint_bytes version))|..];
    rewrite ?blen_app, ?blen_varint_bytes, ?blen_take4_sum512; lia.
Qed.

(** ** Reading an address back *)

Lemma strip_prefix_app s : strip_prefix (cstr "BM-" ++ s) = s.
Proof. reflexivity. Qed.

Lemma pad_drop k ripe :
  blen ripe = 20 -> (k <= 20)%nat -> take k ripe = replicate k 0 ->
  replicate (Z.to_nat (20 - blen (drop k ripe))) 0 ++ drop k ripe = ripe.
Proof.
  intros Hr Hk Ht. rewrite <- (take_drop k ripe) at 3. rewrite Ht. f_equal. f_equal.
  unfold blen in *. rewrite length_drop. lia.
Qed.

Lemma decode_ripe_low v k ripe :
  v = 2 \/ v = 3 -> blen ripe = 20 -> (k <= 20)%nat -> take k ripe = replicate k 0 ->
  decode_ripe v (drop k ripe) = Ok ripe.
Proof.
  intros Hv Hr Hk Ht. unfold decode_ripe, BM_RIPE_LEN.
  assert (blen (drop k ripe) <= 20) by (unfold blen in *; rewrite length_drop; lia).
  replace ((v =? 2) || (v =? 3)) with true by (destruct Hv as [->| ->]; done).
  zdec. by rewrite pad_drop.
Qed.

Lemma trim_ripe_spec v ripe :
  bytes_ok ripe -> blen ripe = 20 -> 2 <= v <= 4 -> (v = 4 -> (count_zeros ripe <= 16)%nat) ->
  exists t, trim_ripe v ripe = Ok t /\ bytes_ok t /\ decode_ripe v t = Ok ripe.
Proof.
  intros Hb Hr Hv H4. unfold trim_ripe.
  destruct ripe as [|r0 [|r1 r]]; [done|done|]. set (ripe := r0 :: r1 :: r) in *.
  destruct (Z.eq_dec v 4) as [->|Hn].
  { zdec.
    destruct (count_zeros_spec ripe) as (H1 & H2 & H3 & Ht). specialize (H4 eq_refl).
    exists (drop (count_zeros ripe) ripe). split_and!; [done|auto with bytes|].
    assert (Hl : blen (drop (count_zeros ripe) ripe) = 20 - Z.of_nat (count_zeros ripe))
      by (unfold blen in *; rewrite length_drop; lia).
    unfold decode_ripe. zdec.
    destruct (drop (count_zeros ripe) ripe) as [|b t] eqn:E; [rewrite blen_nil in Hl; lia|].
    rewrite rd_head. cbn_bind. simpl in H2. rewrite (proj2 (Z.eqb_neq b 0)) by done.
    rewrite <- E. by rewrite pad_drop by (try lia; done). }
  assert (E23 : v = 2 \/ v = 3) by lia. zdec.
  assert (R1 : rd ripe 1 = Ok r1) by (unfold ripe; rewrite rd_tail by lia; apply rd_head).
  rewrite (rd_head r0 (r1 :: r) : rd ripe 0 = Ok r0), R1. cbn_bind.
  destruct (Z.eqb_spec r0 0) as [->|Hr0]; [destruct (Z.eqb_spec r1 0) as [->|Hr1]|].
  - eexists. split_and!; [done|by apply bytes_ok_drop|].
    apply (decode_ripe_low v 2); [done|done|lia|done].
  - eexists. split_and!; [done|by apply bytes_ok_drop|].
    apply (decode_ripe_low v 1); [done|done|lia|done].
  - exists ripe. split_and!; [done|done|]. apply (decode_ripe_low v 0); [done|done|lia|done].
Qed.

Lemma payload_no_lead v s t rest :
  2 <= v <= 4 -> is_u64 s -> no_lead_zero (address_payload v s t ++ rest)
    /\ address_payload v s t ++ rest <> [].
Proof.
  intros Hv Hs. unfold address_payload. rewrite varint_bytes_be by (unfold is_u64; lia).
  zdec. simpl. split; [lia|done].
Qed.

Lemma address_decode_raw v s t ripe sum :
  2 <= v <= 4 -> is_u64 s -> decode_ripe v t = Ok ripe ->
  sum = take 4 (bm_double_sha512 (address_payload v s t)) ->
  forall b58, bm_base58_decode b58 = Ok (address_payload v s t ++ sum) ->
  bm_address_decode (cstr "BM-" ++ b58) = Ok (v, s, ripe).
Proof.
  intros Hv Hs Hd Hsum b58 E. unfold bm_address_decode. rewrite strip_prefix_app, E. cbn_bind.
  assert (Hl : blen sum = 4) by (subst sum; apply blen_take4_sum512).
  assert (Hp : blen (address_payload v s t ++ sum) - 4 = blen (address_payload v s t))
    by (rewrite blen_app; lia).
  pose proof (blen_nonneg (address_payload v s t)). rewrite Hp.
  rewrite rdn_prefix by done. rewrite rdn_suffix by lia. cbn_bind.
  rewrite <- Hsum, list_eqb_refl. rewrite blen_app. zdec.
  unfold address_payload. rewrite <- !app_assoc. pose proof (blen_nonneg t).
  pose proof (bm_varint_size_pos v). pose proof (bm_varint_size_pos s).
  rewrite varint_decode_cases
    by (unfold is_u64; rewrite ?blen_app, ?blen_varint_bytes; lia).
  cbn_bind. zdec. rewrite drop_app_blen by (by rewrite blen_varint_bytes).
  rewrite varint_decode_cases by (rewrite ?blen_app, ?blen_varint_bytes; first [done|lia]).
  cbn_bind. rewrite (app_assoc (varint_bytes v)).
  rewrite rdn_app_mid by (rewrite !blen_app, !blen_varint_bytes; lia).
  cbn_bind. by rewrite Hd.
Qed.
End AddressLemmas.

(** ** Properties *)

Section AddressProps.
Context `{OSL : OpenSSLLaws} `{BNL : BigNumLaws}.

Lemma wif_decode_raw priv b58 :
  blen priv = 32 ->
  bm_base58_decode b58 = Ok ((128 :: priv) ++ take 4 (bm_double_sha256 (128 :: priv))) ->
  bm_address_decode_wif b58 = Ok priv.
Proof.
  intros Hp E. unfold bm_address_decode_wif, BM_PRIVATE_KEY_LEN. rewrite E. cbn_bind.
  set (sum := take 4 (bm_double_sha256 (128 :: priv))).
  assert (Hs : blen sum = 4) by apply blen_take4_sum256.
  rewrite blen_app, blen_cons. zdec. change ((128 :: priv) ++ sum) with (128 :: (priv ++ sum)).
  rewrite rd_head. cbn_bind. zdec. change (128 :: priv ++ sum) with ((128 :: priv) ++ sum).
  rewrite rdn_prefix by (rewrite blen_cons; lia). cbn_bind.
  rewrite (rdn_suffix (128 :: priv) sum (1 + 32) 4); [|by rewrite blen_cons, Hp|by rewrite Hs]. cbn_bind.
  fold sum. rewrite list_eqb_refl. cbn [negb].
  change ((128 :: priv) ++ sum) with ([128] ++ priv ++ sum). by apply rdn_app_mid.
Qed.

Lemma decode_ripe_out v d r :
  bytes_ok d -> decode_ripe v d = Ok r -> blen r = 20 /\ bytes_ok r.
Proof.
  intros Hd. unfold decode_ripe, BM_RIPE_LEN. pose proof (blen_nonneg d).
  destruct ((v =? 2) || (v =? 3)).
  - rewrite Z.gtb_ltb. destruct (Z.ltb_spec 20 (blen d)) as [?|Hle]; [done|]. intros [= <-].
    rewrite blen_app, blen_replicate. split; [lia|]. solve_bytes.
  - destruct ((blen d <? 4) || (blen d >? 20)) eqn:E; [done|].
    apply orb_false_iff in E as [E1 E2]. rewrite Z.gtb_ltb in E2.
    destruct (rd d 0) as [r0| |] eqn:Er; [|done|done]. cbn_bind.
    destruct (r0 =? 0); [done|]. intros [= <-].
    rewrite blen_app, blen_replicate. split; [lia|]. solve_bytes.
Qed.

Lemma decode_ripe_safe v d : safe (decode_ripe v d).
Proof.
  unfold decode_ripe. destruct ((v =? 2) || (v =? 3)); [by case_match|].
  destruct ((blen d <? 4) || (blen d >? 20)) eqn:E; [done|].
  apply orb_false_iff in E as [E1 E2]. destruct (rd_in d 0) as (b & -> & _); [lia|].
  cbn_bind. by case_match.
Qed.

(** C36: an address printed by [bm_address_encode] for version 2, 3 or 4, any
    stream and any 20-byte ripe is read back by [bm_address_decode] as the same
    version, stream and ripe; for version 4 the ripe may have at most 16 leading
    zero bytes, the shortest form the decoder accepts. *)
Theorem bm_address_roundtrip (version stream : Z) (ripe : list Z) :
  2 <= version <= 4 -> is_u64 stream -> bytes_ok ripe -> blen ripe = 20 ->
  (version = 4 -> (count_zeros ripe <= 16)%nat) ->
  exists s, bm_address_encode version stream ripe = Ok s
    /\ bm_address_decode s = Ok (version, stream, ripe).
Proof.
  intros Hv Hs Hb Hr H4.
  destruct (trim_ripe_spec version ripe Hb Hr Hv H4) as (t & Et & Ht & Ed).
  rewrite (address_encode_raw _ _ _ t) by done.
  set (p := address_payload version stream t). set (sum := take 4 (bm_double_sha512 p)).
  destruct (payload_no_lead version stream t sum Hv Hs) as [Hz Hn].
  destruct (base58_decode_encode (p ++ sum)) as (b58 & -> & D); [|done|].
  { unfold p, address_payload, sum. assert (is_u64 version) by (unfold is_u64; lia).
    solve_bytes. }
  exists (cstr "BM-" ++ b58). split; [done|].
  apply (address_decode_raw version stream t ripe sum); [done..|].
  rewrite D. f_equal. fold p in Hz, Hn |- *. destruct (p ++ sum) as [|b l]; [done|].
  simpl in *. by destruct (Z.eqb_spec b 0).
Qed.

(** [bm_address_decode] is memory safe on every string, and what it accepts
    is a version between 2 and 4, a 64-bit stream and exactly 20 ripe bytes. *)
Theorem bm_address_decode_sound (address : list Z) :
  safe (bm_address_decode address)
  /\ forall version stream ripe,
       bm_address_decode address = Ok (version, stream, ripe) ->
       2 <= version <= 4 /\ is_u64 stream /\ blen ripe = 20 /\ bytes_ok ripe.
Proof.
  unfold bm_address_decode. pose proof (base58_decode_safe (strip_prefix address)).
  destruct (bm_base58_decode (strip_prefix address)) as [data| |] eqn:E; [|done|done].
  apply base58_decode_bytes in E as Hb. cbn_bind.
  destruct (Z.ltb_spec (blen data) 4); [done|].
  rewrite !rdn_ok by lia. cbn_bind. case_match; [done|].
  pose proof (varint_decode_safe data (blen data - 4) ltac:(lia)) as S1.
  destruct (bm_varint_decode data (blen data - 4)) as [[c v]| |] eqn:E1; [|done|done].
  apply varint_decode_inv in E1 as (Hc & Hc1 & Hc2 & _); [|done]. cbn_bind.
  destruct ((v <? 2) || (v >? 4)) eqn:Ev; [done|].
  apply orb_false_iff in Ev as [Ev1 Ev2]. rewrite Z.gtb_ltb in Ev2.
  assert (Hd : blen (drop (Z.to_nat c) data) = blen data - c) by (apply blen_drop; lia).
  pose proof (varint_decode_safe (drop (Z.to_nat c) data) (blen data - 4 - c) ltac:(lia)) as S2.
  destruct (bm_varint_decode (drop (Z.to_nat c) data) _) as [[c' s]| |] eqn:E2; [|done|done].
  apply varint_decode_inv in E2 as (Hc' & Hc1' & Hc2' & Hs & _); [|auto with bytes].
  cbn_bind. rewrite rdn_ok by lia. cbn_bind.
  pose proof (decode_ripe_safe v (slice data (c + c') (blen data - 4 - (c + c')))) as S3.
  destruct (decode_ripe v _) as [r| |] eqn:Er; [|done|done]. cbn_bind. split; [done|].
  intros ? ? ? [= <- <- <-]. apply decode_ripe_out in Er as [? ?]; [|auto with bytes].
  split_and!; try done; lia.
Qed.

(** An exported private key is imported unchanged: [bm_address_decode_wif]
    of [bm_address_encode_wif] returns the 32 key bytes. *)
Theorem bm_address_wif_roundtrip (priv : list Z) :
  bytes_ok priv -> blen priv = 32 ->
  exists wif, bm_address_encode_wif priv = Ok wif /\ bm_address_decode_wif wif = Ok priv.
Proof.
  intros Hb Hp. rewrite wif_raw by done.
  destruct (base58_decode_encode ((128 :: priv) ++ take 4 (bm_double_sha256 (128 :: priv))))
    as (b58 & -> & D); [|done|].
  { assert (is_byte 128) by (unfold is_byte; lia). solve_bytes. }
  exists b58. split; [done|]. by apply wif_decode_raw.
Qed.

(** The text form of an address is not unique: a ['1'] inserted after the
    prefix ["BM-"] of any decodable address gives another string that decodes to
    the same version, stream and ripe (also for version 4, whose decoder rejects
    non-minimal ripes for the sake of a unique form). *)
Theorem bm_address_decode_leading_one (b58 : list Z) (version stream : Z) (ripe : list Z) :
  bm_address_decode (cstr "BM-" ++ b58) = Ok (version, stream, ripe) ->
  bm_address_decode (cstr "BM-" ++ 49 :: b58) = Ok (version, stream, ripe).
Proof.
  unfold bm_address_decode. rewrite !strip_prefix_app. intros E.
  destruct b58 as [|c b58]; [done|]. by rewrite base58_decode_leading_one.
Qed.

Lemma ripe_has_nulls_true ripe n :
  ripe_has_nulls ripe 0 n = Ok true -> take n ripe = replicate n 0.
Proof.
  enough (H' : forall pre, ripe_has_nulls (pre ++ ripe) (blen pre) n = Ok true ->
    take n ripe = replicate n 0) by (intros; by apply (H' [])).
  revert ripe. induction n as [|n IH]; intros ripe pre E; [done|]. cbn [ripe_has_nulls] in E.
  inv_bind E. destruct ripe as [|r ripe].
  { rewrite app_nil_r in E0. unfold rd in E0. rewrite Z.ltb_irrefl, andb_false_r in E0. done. }
  assert (a = r) as ->.
  { rewrite (rd_ok _ _ r) in E0; [by injection E0| |]; [apply blen_nonneg|].
    unfold blen. rewrite Nat2Z.id, lookup_app_r, Nat.sub_diag by lia. done. }
  destruct (Z.eqb_spec r 0) as [->|]; [|done]. cbn [negb] in E. simpl. f_equal.
  apply (IH ripe (pre ++ [0])). rewrite <- app_assoc, blen_app. exact E.
Qed.

Lemma generate_loop_first p nb k fuel out (i : nat) :
  (i <= k)%nat -> Z.of_nat k < 2 ^ 62 -> (k - i < fuel)%nat ->
  (forall j, (i <= j < k)%nat ->
     try_nonces p nb (2 * Z.of_nat j) (2 * Z.of_nat j + 1) = Ok None) ->
  try_nonces p nb (2 * Z.of_nat k) (2 * Z.of_nat k + 1) = Ok (Some out) ->
  generate_loop fuel p nb (2 * Z.of_nat i) (2 * Z.of_nat i + 1) = Ok (Some out).
Proof.
  revert i. induction fuel as [|fuel IH]; intros i Hi Hk Hf Hno Hyes; [lia|].
  cbn [generate_loop]. destruct (decide (i = k)) as [->|Hne].
  - by rewrite Hyes.
  - rewrite Hno by lia. cbn_bind. rewrite !u64_small by (unfold is_u64; lia).
    replace (2 * Z.of_nat i + 2) with (2 * Z.of_nat (S i)) by lia.
    replace (2 * Z.of_nat i + 1 + 2) with (2 * Z.of_nat (S i) + 1) by lia.
    apply IH; try lia; [|done]. intros j Hj. apply Hno. lia.
Qed.

Lemma try_nonces_found p nb k out :
  0 <= k < 2 ^ 62 -> try_nonces p nb (2 * k) (2 * k + 1) = Ok (Some out) ->
  signing_nonce out = 2 * k /\ encryption_nonce out = 2 * k + 1
  /\ take nb (gen_ripe out) = replicate nb 0
  /\ bm_address_derive_private_key p (2 * k) = Ok (priv_signing out)
  /\ bm_address_derive_private_key p (2 * k + 1) = Ok (priv_encryption out)
  /\ bm_address_get_public_key (priv_signing out) = Ok (pub_signing out)
  /\ bm_address_get_public_key (priv_encryption out) = Ok (pub_encryption out)
  /\ bm_address_calc_ripe (pub_signing out) (pub_encryption out) = Ok (gen_ripe out).
Proof.
  intros Hk E. unfold try_nonces in E. do 6 inv_bind E.
  destruct a4; [|done]. injection E as <-. simpl.
  rewrite !(u64_small (_ + 2)) by (unfold is_u64; lia).
  rewrite !u64_small by (unfold is_u64; lia).
  split_and!; try done; try lia. by apply ripe_has_nulls_true.
Qed.

(** The deterministic search returns the first pair of consecutive nonces
    [2k], [2k+1] whose keys give a ripe with the requested leading zero bytes,
    after [k + 1] turns, and the returned nonces, keys and ripe belong together. *)
Theorem bm_address_generate_deterministic_first (passphrase : list Z) (null_bytes k fuel : nat)
  (out : bm_generated_address) :
  Z.of_nat k < 2 ^ 62 -> (k < fuel)%nat ->
  (forall j, (j < k)%nat ->
     try_nonces passphrase null_bytes (2 * Z.of_nat j) (2 * Z.of_nat j + 1) = Ok None) ->
  try_nonces passphrase null_bytes (2 * Z.of_nat k) (2 * Z.of_nat k + 1) = Ok (Some out) ->
  bm_address_generate_deterministic fuel passphrase null_bytes = Ok (Some out)
  /\ signing_nonce out = 2 * Z.of_nat k /\ encryption_nonce out = 2 * Z.of_nat k + 1
  /\ take null_bytes (gen_ripe out) = replicate null_bytes 0
  /\ bm_address_derive_private_key passphrase (signing_nonce out) = Ok (priv_signing out)
  /\ bm_address_derive_private_key passphrase (encryption_nonce out) = Ok (priv_encryption out)
  /\ bm_address_calc_ripe (pub_signing out) (pub_encryption out) = Ok (gen_ripe out).
Proof.
  intros Hk Hf Hno Hyes.
  destruct (try_nonces_found passphrase null_bytes (Z.of_nat k) out ltac:(lia) Hyes)
    as (E1 & E2 & E3 & E4 & E5 & _ & _ & E8).
  rewrite E1, E2. split_and!; try done. unfold bm_address_generate_deterministic.
  apply (generate_loop_first passphrase null_bytes k fuel out 0); try done; try lia.
  intros j Hj. apply Hno. lia.
Qed.
End AddressProps.

(** ** Witnesses *)

#[local] Existing Instance toy_OpenSSL.
#[local] Existing Instance toy_OpenSSLLaws.

Definition ripe_example : list Z := [0; 0; 0; 7] ++ replicate 16 200.

Lemma bm_address_roundtrip_witness :
  exists s, bm_address_encode 4 1 ripe_example = Ok s
    /\ bm_address_decode s = Ok (4, 1, ripe_example).
Proof.
  apply (bm_address_roundtrip 4 1 ripe_example);
    [lia|unfold is_u64; lia|by apply (bool_decide_unpack _); vm_compute|done|].
  intros _. vm_compute. lia.
Defined.

Lemma bm_address_decode_sound_witness :
  let address := match bm_address_encode 4 1 ripe_example with Ok a => a | _ => [] end in
  safe (bm_address_decode address)
  /\ forall version stream ripe,
       bm_address_decode address = Ok (version, stream, ripe) ->
       2 <= version <= 4 /\ is_u64 stream /\ blen ripe = 20 /\ bytes_ok ripe.
Proof. intros address. apply (bm_address_decode_sound address). Defined.

Lemma bm_address_wif_roundtrip_witness :
  exists wif, bm_address_encode_wif (replicate 32 5) = Ok wif
    /\ bm_address_decode_wif wif = Ok (replicate 32 5).
Proof.
  apply (bm_address_wif_roundtrip (replicate 32 5)); [|done].
  by apply (bool_decide_unpack _); vm_compute.
Defined.

(** An address of the model, computed. *)
Definition address_example : list Z :=
  match bm_address_encode 4 1 ripe_example with Ok s => drop 3 s | _ => [] end.

Lemma bm_address_decode_leading_one_witness :
  bm_address_decode (cstr "BM-" ++ 49 :: address_example) = Ok (4, 1, ripe_example).
Proof.
  apply (bm_address_decode_leading_one address_example 4 1 ripe_example).
  by vm_compute.
Defined.

Definition generated_example : bm_generated_address :=
  match try_nonces (cstr "general") 1 0 1 with
  | Ok (Some out) => out
  | _ => {| priv_signing := []; priv_encryption := []; pub_signing := [];
            pub_encryption := []; gen_ripe := []; signing_nonce := 7; encryption_nonce := 7 |}
  end.

Lemma bm_address_generate_deterministic_first_witness :
  bm_address_generate_deterministic 3 (cstr "general") 1 = Ok (Some generated_example)
  /\ signing_nonce generated_example = 0.
Proof.
  pose proof (bm_address_generate_deterministic_first (cstr "general") 1 0 3 generated_example
    ltac:(lia) ltac:(lia) ltac:(lia) ltac:(vm_compute; reflexivity)) as (H1 & H2 & _).
  split; [exact H1|exact H2].
Defined.
