(* ===== verification/Object.v ===== *)
(** * infra/object.c, infra/object.h

    The common header of network objects. *)

From stdpp Require Import base tactics list numbers option.
From S2P Require Import Prelude Varint.

(** [enum bm_object_type]; the wire carries any 32-bit number. *)
Definition BM_OBJECT_GETPUBKEY : Z := 0.
Definition BM_OBJECT_PUBKEY : Z := 1.
Definition BM_OBJECT_MSG : Z := 2.
Definition BM_OBJECT_BROADCAST : Z := 3.
Definition BM_OBJECT_ONIONPEER : Z := 7630706. (* 0x746f72 *)
Definition BM_OBJECT_I2P : Z := 4796496. (* 0x493250 *)

(** [struct bm_object_header] *)
Record bm_object_header := {
  nonce : Z;
  expires_time : Z;
  object_type : Z;
  version : Z;
  stream : Z;
  header_len : Z;
}.

(** ** Operations *)

Definition read_be32 (p : list Z) (off : Z) : cres Z :=
  p0 ← rd p off; p1 ← rd p (off + 1); p2 ← rd p (off + 2); p3 ← rd p (off + 3);
  Ok (Z.lor (Z.lor (Z.lor (Z.shiftl p0 24) (Z.shiftl p1 16)) (Z.shiftl p2 8)) p3).

(** [for (i = 0; i < 8; i++) v = (v << 8) | p[i];] on a [uint64_t] *)
Fixpoint read_be64_loop (p : list Z) (off : Z) (n : nat) (v : Z) : cres Z :=
  match n with
  | O => Ok v
  | S n => b ← rd p off; read_be64_loop p (off + 1) n (u64 (Z.lor (Z.shiftl v 8) b))
  end.
Definition read_be64 (p : list Z) (off : Z) : cres Z := read_be64_loop p off 8 0.

Definition bm_object_parse_header (data : list Z) : cres bm_object_header :=
  let data_len := blen data in
  if data_len <? 8 + 8 + 4 then Err else
  n ← read_be64 data 0;
  e ← read_be64 data 8;
  t ← read_be32 data 16;
  let offset := 20 in
  '(consumed, v) ← bm_varint_decode (drop (Z.to_nat offset) data) (data_len - offset);
  let offset := offset + consumed in
  '(consumed, s) ← bm_varint_decode (drop (Z.to_nat offset) data) (data_len - offset);
  let offset := offset + consumed in
  Ok {| nonce := n; expires_time := e; object_type := t; version := v; stream := s;
        header_len := offset |}.

(** ** Fixed-width readers *)

Lemma read_be64_loop_app pre l rest v :
  bytes_ok l -> 0 <= v -> v * 256 ^ blen l + be_combine l < 2 ^ 64 ->
  read_be64_loop (pre ++ l ++ rest) (blen pre) (length l) v
  = Ok (v * 256 ^ blen l + be_combine l).
Proof.
  revert pre v. induction l as [|b l IH]; intros pre v Hl Hv Hb.
  { simpl. rewrite blen_nil. unfold be_combine. simpl. f_equal. lia. }
  apply bytes_ok_cons in Hl as [Hb0 Hl]. cbn [length read_be64_loop app].
  rewrite rd_app_here by done. cbn_bind. rewrite shift_or_last by done. unfold is_byte in Hb0.
  pose proof (blen_nonneg l). pose proof (be_combine_bound l Hl).
  rewrite be_combine_cons, blen_cons, Z.pow_add_r in * by lia.
  change (256 ^ 1) with 256 in *.
  assert (v * 256 + b < 2 ^ 64) by nia. rewrite u64_small by (unfold is_u64; lia).
  replace (pre ++ b :: l ++ rest) with ((pre ++ [b]) ++ l ++ rest) by (by rewrite <- app_assoc).
  replace (blen pre + 1) with (blen (pre ++ [b])) by solve_blen.
  rewrite IH by (try done; lia). f_equal. lia.
Qed.

Lemma read_be64_app pre l rest :
  bytes_ok l -> length l = 8%nat ->
  read_be64 (pre ++ l ++ rest) (blen pre) = Ok (be_combine l).
Proof.
  intros Hl H8. unfold read_be64. rewrite <- H8.
  pose proof (be_combine_bound l Hl) as Hb. replace (blen l) with 8 in Hb by (unfold blen; lia).
  rewrite read_be64_loop_app; [f_equal; lia|done|lia|lia].
Qed.

Lemma read_be32_app pre a b c d rest :
  is_byte b -> is_byte c -> is_byte d ->
  read_be32 (pre ++ [a; b; c; d] ++ rest) (blen pre) = Ok (be_combine [a; b; c; d]).
Proof.
  intros. unfold read_be32. cbn [app].
  rewrite (rd_app_here pre a _ (blen pre)) by done. cbn_bind.
  replace (pre ++ a :: b :: c :: d :: rest) with ((pre ++ [a]) ++ b :: c :: d :: rest)
    by (by rewrite <- app_assoc).
  replace (blen pre + 1) with (blen (pre ++ [a])) by solve_blen.
  rewrite (rd_app_here (pre ++ [a]) b _ (blen (pre ++ [a]))) by done. cbn_bind.
  replace ((pre ++ [a]) ++ b :: c :: d :: rest) with ((pre ++ [a; b]) ++ c :: d :: rest)
    by (by rewrite <- !app_assoc).
  replace (blen pre + 2) with (blen (pre ++ [a; b])) by solve_blen.
  rewrite (rd_app_here (pre ++ [a; b]) c _ (blen (pre ++ [a; b]))) by done. cbn_bind.
  replace ((pre ++ [a; b]) ++ c :: d :: rest) with ((pre ++ [a; b; c]) ++ d :: rest)
    by (by rewrite <- !app_assoc).
  replace (blen pre + 3) with (blen (pre ++ [a; b; c])) by solve_blen.
  rewrite (rd_app_here (pre ++ [a; b; c]) d _ (blen (pre ++ [a; b; c]))) by done. cbn_bind. by rewrite shift_or_4.
Qed.

Lemma be_combine_split_64 v : is_u64 v -> be_combine (be_split 8 v) = v.
Proof. intros. rewrite be_combine_split. by apply Z.mod_small. Qed.

Lemma be_combine_split_32 v : is_u32 v -> be_combine (be_split 4 v) = v.
Proof. intros. rewrite be_combine_split. by apply Z.mod_small. Qed.

Lemma read_be64_at data pre v rest off :
  data = pre ++ be_split 8 v ++ rest -> off = blen pre -> is_u64 v ->
  read_be64 data off = Ok v.
Proof.
  intros -> -> Hv. rewrite read_be64_app by (auto with bytes; apply length_be_split).
  by rewrite be_combine_split_64.
Qed.

Lemma read_be32_at data pre v rest off :
  data = pre ++ be_split 4 v ++ rest -> off = blen pre -> is_u32 v ->
  read_be32 data off = Ok v.
Proof.
  intros -> -> Hv. rewrite <- (be_combine_split_32 v Hv) at 2.
  cbn [be_split]. by apply read_be32_app; apply byte_land_255.
Qed.

Lemma read_be64_inv data pre l rest off v :
  data = pre ++ l ++ rest -> bytes_ok l -> blen l = 8 -> off = blen pre ->
  read_be64 data off = Ok v -> be_split 8 v = l.
Proof.
  intros -> Hl H8 ->. rewrite read_be64_app by (done || unfold blen in *; lia).
  intros [= <-]. apply be_split_fixed; [done|unfold blen in *; lia|done].
Qed.

Lemma read_be32_inv data pre l rest off v :
  data = pre ++ l ++ rest -> bytes_ok l -> blen l = 4 -> off = blen pre ->
  read_be32 data off = Ok v -> be_split 4 v = l.
Proof.
  intros -> Hl H4 -> Hr. rewrite <- (be_split_combine l Hl) in Hr.
  replace (length l) with 4%nat in Hr by (unfold blen in *; lia).
  erewrite read_be32_at in Hr; [|done|done|].
  - injection Hr as <-. apply be_split_fixed; [done|unfold blen in *; lia|done].
  - pose proof (be_combine_bound l Hl) as Hb. rewrite H4 in Hb. unfold is_u32. lia.
Qed.

(** Both readers stay inside a block that has the bytes they read. *)
Lemma read_be64_loop_in p off n v :
  0 <= off -> off + Z.of_nat n <= blen p -> exists v', read_be64_loop p off n v = Ok v'.
Proof.
  revert off v. induction n as [|n IH]; intros off v H0 H1; [by eexists|].
  cbn [read_be64_loop]. destruct (rd_in p off) as (b & -> & _); [lia|]. cbn_bind.
  apply IH; lia.
Qed.

Lemma read_be64_in p off : 0 <= off -> off + 8 <= blen p -> exists v, read_be64 p off = Ok v.
Proof. intros. by apply read_be64_loop_in. Qed.

Lemma read_be32_in p off : 0 <= off -> off + 4 <= blen p -> exists v, read_be32 p off = Ok v.
Proof.
  intros. unfold read_be32.
  destruct (rd_in p off) as (? & -> & _); [lia|].
  destruct (rd_in p (off + 1)) as (? & -> & _); [lia|].
  destruct (rd_in p (off + 2)) as (? & -> & _); [lia|].
  destruct (rd_in p (off + 3)) as (? & -> & _); [lia|]. by eexists.
Qed.

(** ** Serialised headers

    The bytes every builder of the node puts in front of an object:
    nonce, expiry, type, version and stream. *)
Definition header_bytes (n e t v s : Z) : list Z :=
  be_split 8 n ++ be_split 8 e ++ be_split 4 t ++ varint_bytes v ++ varint_bytes s.

Lemma parse_header_bytes n e t v s body :
  is_u64 n -> is_u64 e -> is_u32 t -> is_u64 v -> is_u64 s ->
  bm_object_parse_header (header_bytes n e t v s ++ body)
  = Ok {| nonce := n; expires_time := e; object_type := t; version := v; stream := s;
          header_len := 20 + bm_varint_size v + bm_varint_size s |}.
Proof.
  intros Hn He Ht Hv Hs. unfold bm_object_parse_header, header_bytes.
  pose proof (bm_varint_size_pos v). pose proof (bm_varint_size_pos s).
  pose proof (blen_nonneg body).
  rewrite <- !app_assoc, !blen_app, !blen_be_split, !blen_varint_bytes.
  change (Z.of_nat 8) with 8. change (Z.of_nat 4) with 4. zdec.
  rewrite (read_be64_at _ [] n (be_split 8 e ++ be_split 4 t ++ varint_bytes v
    ++ varint_bytes s ++ body) 0) by done. cbn_bind.
  rewrite (read_be64_at _ (be_split 8 n) e (be_split 4 t ++ varint_bytes v
    ++ varint_bytes s ++ body) 8) by done. cbn_bind.
  rewrite (read_be32_at _ (be_split 8 n ++ be_split 8 e) t (varint_bytes v
    ++ varint_bytes s ++ body) 16) by done. cbn_bind.
  replace (be_split 8 n ++ be_split 8 e ++ be_split 4 t ++ varint_bytes v
    ++ varint_bytes s ++ body)
    with ((be_split 8 n ++ be_split 8 e ++ be_split 4 t) ++ varint_bytes v
    ++ varint_bytes s ++ body) by (by rewrite <- !app_assoc).
  rewrite (drop_app_blen (be_split 8 n ++ be_split 8 e ++ be_split 4 t) _ 20) by done.
  rewrite varint_decode_cases by (done || lia). cbn_bind.
  rewrite app_assoc, (drop_app_blen _ _ (20 + bm_varint_size v))
    by (rewrite !blen_app, blen_varint_bytes; done).
  rewrite varint_decode_cases by (done || lia). cbn_bind. done.
Qed.

Lemma parse_header_safe data : safe (bm_object_parse_header data).
Proof.
  unfold bm_object_parse_header. destruct (Z.ltb_spec (blen data) (8 + 8 + 4)); [done|].
  destruct (read_be64_in data 0) as [n ->]; [lia..|]. cbn_bind.
  destruct (read_be64_in data 8) as [e ->]; [lia..|]. cbn_bind.
  destruct (read_be32_in data 16) as [t ->]; [lia..|]. cbn_bind.
  apply safe_bind; [apply varint_decode_safe; rewrite blen_drop; lia|].
  intros [c v] Ev. apply varint_decode_le in Ev.
  apply safe_bind; [apply varint_decode_safe; rewrite blen_drop; lia|].
  intros [c' s] _. done.
Qed.

Lemma parse_header_inv data h :
  bytes_ok data -> bm_object_parse_header data = Ok h ->
  22 <= header_len h <= 38 /\ header_len h <= blen data
  /\ slice data 0 20 = be_split 8 (nonce h) ++ be_split 8 (expires_time h)
                       ++ be_split 4 (object_type h).
Proof.
  intros Hb Eh. unfold bm_object_parse_header in Eh.
  destruct (Z.ltb_spec (blen data) (8 + 8 + 4)); [done|].
  destruct (split_at_blen data 8) as (l1 & d1 & E1 & H1 & H1'); [lia|].
  destruct (split_at_blen d1 8) as (l2 & d2 & E2 & H2 & H2'); [lia|].
  destruct (split_at_blen d2 4) as (l3 & d3 & E3 & H3 & H3'); [lia|].
  assert (Hc : bytes_ok (l1 ++ l2 ++ l3 ++ d3)) by (by rewrite <- E3, <- E2, <- E1).
  rewrite !bytes_ok_app in Hc. destruct Hc as (Hc1 & Hc2 & Hc3 & Hc4).
  apply bind_ok_inv in Eh as (n & En & Eh). apply bind_ok_inv in Eh as (e & Ee & Eh).
  apply bind_ok_inv in Eh as (t & Et & Eh). apply bind_ok_inv in Eh as ([c v] & Ev & Eh).
  apply bind_ok_inv in Eh as ([c' s] & Es & Eh).
  apply varint_decode_inv in Ev as (Hv1 & Hv2 & _); [|auto with bytes].
  apply varint_decode_inv in Es as (Hw1 & Hw2 & _); [|auto with bytes].
  injection Eh as <-. cbn [header_len nonce expires_time object_type].
  split; [lia|]. split; [lia|].
  apply (read_be64_inv _ [] l1 d1) in En; [|done..].
  apply (read_be64_inv _ l1 l2 d2) in Ee; [|by subst|done..].
  apply (read_be32_inv _ (l1 ++ l2) l3 d3) in Et;
    [|by subst; rewrite <- !app_assoc|done|done|rewrite blen_app; lia].
  rewrite En, Ee, Et, E1, E2, E3.
  replace (l1 ++ l2 ++ l3 ++ d3) with ((l1 ++ l2 ++ l3) ++ d3) by (by rewrite <- !app_assoc).
  apply slice_app_l. rewrite !blen_app. lia.
Qed.

(** ** Properties *)

(** Object headers round trip: the parser reads back, from the bytes the
    builders put in front of any body, exactly the nonce, the expiry, the type,
    the version and the stream, and [header_len] is where the body starts. *)
Theorem bm_object_parse_header_roundtrip (n e t v s : Z) (body : list Z) :
  is_u64 n -> is_u64 e -> is_u32 t -> is_u64 v -> is_u64 s ->
  exists h,
    bm_object_parse_header (header_bytes n e t v s ++ body) = Ok h
    /\ nonce h = n /\ expires_time h = e /\ object_type h = t /\ version h = v
    /\ stream h = s /\ drop (Z.to_nat (header_len h)) (header_bytes n e t v s ++ body) = body.
Proof.
  intros. eexists. rewrite parse_header_bytes by done. repeat split.
  cbn [header_len].
  apply drop_app_blen. unfold header_bytes.
  rewrite !blen_app, !blen_be_split, !blen_varint_bytes. lia.
Qed.

Lemma bm_object_parse_header_roundtrip_witness :
  exists h,
    bm_object_parse_header (header_bytes 7 1700000000 2 1 300 ++ [9; 9]) = Ok h
    /\ nonce h = 7 /\ expires_time h = 1700000000 /\ object_type h = 2 /\ version h = 1
    /\ stream h = 300
    /\ drop (Z.to_nat (header_len h)) (header_bytes 7 1700000000 2 1 300 ++ [9; 9]) = [9; 9].
Proof.
  apply bm_object_parse_header_roundtrip; unfold is_u64, is_u32; lia.
Defined.

(** Parsing the header of any block of bytes received from a peer reads no
    byte outside it, fails on fewer than 22 bytes, and a header it accepts
    starts the object: its 64- and 32-bit fields are the big-endian prefix, and
    the body starts inside the block, 22 to 38 bytes from its start. *)
Theorem bm_object_parse_header_bounds (data : list Z) :
  bytes_ok data ->
  safe (bm_object_parse_header data)
  /\ (blen data < 22 -> bm_object_parse_header data = Err)
  /\ forall h, bm_object_parse_header data = Ok h ->
       22 <= header_len h <= 38 /\ header_len h <= blen data
       /\ slice data 0 20 = be_split 8 (nonce h) ++ be_split 8 (expires_time h)
                            ++ be_split 4 (object_type h).
Proof.
  intros Hb. assert (Hs : safe (bm_object_parse_header data)) by apply parse_header_safe.
  split; [done|]. split; [|intros h; by apply parse_header_inv].
  intros Hl. destruct (bm_object_parse_header data) as [h| |] eqn:E; [|done|done].
  apply parse_header_inv in E as (? & ? & _); [lia|done].
Qed.

Lemma bm_object_parse_header_bounds_witness :
  let data := header_bytes 7 1700000000 2 1 300 in
  safe (bm_object_parse_header data)
  /\ (blen data < 22 -> bm_object_parse_header data = Err)
  /\ forall h, bm_object_parse_header data = Ok h ->
       22 <= header_len h <= 38 /\ header_len h <= blen data
       /\ slice data 0 20 = be_split 8 (nonce h) ++ be_split 8 (expires_time h)
                            ++ be_split 4 (object_type h).
Proof.
  apply bm_object_parse_header_bounds. by apply (bool_decide_unpack _); vm_compute.
Defined.
