(* ===== verification/PqHybrid.v ===== *)
(** * Post-quantum primitives (pq/pq_crypto.c, pq/pq_hybrid.c)

    The wrapper around ML-DSA and ML-KEM, and what version 5 addresses build from it:
    signatures that are valid only if both the ML-DSA-65 and the Ed25519 part are, the
    X-Wing key encapsulation (ML-KEM-768 and X25519), and sealing under the encapsulated
    key with AES-256-GCM.

    OpenSSL is the class [PqOpenSSL] (and [OpenSSLVault] for AES-256-GCM); random bytes
    are arguments.  Arrays are lists, read with [rdn] and written with [wr].  Inputs are
    shorter than 2^31 bytes, so the [(int)] conversions of lengths keep their value.
    Clearing of key memory is not represented. *)

From Stdlib Require Import String.
From stdpp Require Import base tactics list numbers option.
From S2P Require Import Prelude Openssl.

#[local] Arguments be_split : simpl never.

(** ** What OpenSSL provides

    An algorithm is selected by its name in [EVP_PKEY_CTX_new_from_name] and
    [EVP_PKEY_new_raw_*_key_ex]. *)
Class PqOpenSSL := {
  (** [EVP_Digest] with [EVP_sha3_256()], [EVP_sha3_512()] *)
  SHA3_256 : list Z -> list Z;
  SHA3_512 : list Z -> list Z;
  (** [EVP_DigestFinalXOF] with [EVP_shake128()], [EVP_shake256()]: data, output length *)
  SHAKE128 : list Z -> Z -> option (list Z);
  SHAKE256 : list Z -> Z -> option (list Z);
  (** key generation from the parameter "seed": the raw public and private key *)
  PKEY_generate : list Z -> list Z -> option (list Z * list Z);
  (** [EVP_DigestSign] with an ML-DSA key, hedged: name, key, random bytes, message *)
  ML_DSA_sign : list Z -> list Z -> list Z -> list Z -> option (list Z);
  (** [EVP_DigestVerify] is 1: name, public key, signature, message *)
  ML_DSA_verify : list Z -> list Z -> list Z -> list Z -> bool;
  (** [EVP_PKEY_encapsulate]: name, public key, random bytes; ciphertext, shared secret *)
  ML_KEM_encapsulate : list Z -> list Z -> list Z -> option (list Z * list Z);
  (** [EVP_PKEY_decapsulate]: name, private key, ciphertext *)
  ML_KEM_decapsulate : list Z -> list Z -> list Z -> option (list Z);
  (** raw keys of type [EVP_PKEY_ED25519] and [EVP_PKEY_X25519] *)
  ED25519_public : list Z -> option (list Z);
  ED25519_sign : list Z -> list Z -> option (list Z);
  ED25519_verify : list Z -> list Z -> list Z -> bool;
  X25519_public : list Z -> option (list Z);
  X25519_derive : list Z -> list Z -> option (list Z)
}.

Class PqOpenSSLLaws `{PqOpenSSL} : Prop := {
  SHA3_256_len d : blen (SHA3_256 d) = 32;
  SHA3_512_len d : blen (SHA3_512 d) = 64;
  SHA3_256_bytes d : bytes_ok (SHA3_256 d);
  SHA3_512_bytes d : bytes_ok (SHA3_512 d);
  SHAKE128_len d n o : 0 <= n -> SHAKE128 d n = Some o -> blen o = n;
  SHAKE256_len d n o : 0 <= n -> SHAKE256 d n = Some o -> blen o = n;
  ML_DSA_correct name seed pk sk rnd msg sig :
    PKEY_generate name seed = Some (pk, sk) ->
    ML_DSA_sign name sk rnd msg = Some sig -> ML_DSA_verify name pk sig msg = true;
  ED25519_correct seed pk msg sig :
    ED25519_public seed = Some pk ->
    ED25519_sign seed msg = Some sig -> ED25519_verify pk msg sig = true;
  (** Diffie-Hellman *)
  X25519_comm a b A B :
    X25519_public a = Some A -> X25519_public b = Some B -> X25519_derive a B = X25519_derive b A
}.
#[export] Hint Resolve SHA3_256_bytes SHA3_512_bytes : bytes.

(** ** pq/pq_crypto.c *)

(** [enum bm_pq_sig_alg] and [enum bm_pq_kem_alg]; any [int] can be passed. *)
Definition BM_PQ_SIG_ML_DSA_44 : Z := 0.
Definition BM_PQ_SIG_ML_DSA_65 : Z := 1.
Definition BM_PQ_SIG_ML_DSA_87 : Z := 2.
Definition BM_PQ_SIG_ALG_COUNT : Z := 3.
Definition BM_PQ_KEM_ML_KEM_512 : Z := 0.
Definition BM_PQ_KEM_ML_KEM_768 : Z := 1.
Definition BM_PQ_KEM_ML_KEM_1024 : Z := 2.
Definition BM_PQ_KEM_ALG_COUNT : Z := 3.

Definition BM_PQ_SIG_SEED_LEN : Z := 32.
Definition BM_PQ_KEM_SEED_LEN : Z := 64.
Definition BM_PQ_KEM_SS_LEN : Z := 32.

Record bm_pq_sig_params := { sp_name : list Z; sp_pk_len : Z; sp_sk_len : Z; sp_sig_len : Z }.
Record bm_pq_kem_params := { kp_name : list Z; kp_pk_len : Z; kp_sk_len : Z; kp_ct_len : Z }.

Definition g_sig_params : list bm_pq_sig_params := [
  Build_bm_pq_sig_params (cstr "ML-DSA-44"%string) 1312 2560 2420;
  Build_bm_pq_sig_params (cstr "ML-DSA-65"%string) 1952 4032 3309;
  Build_bm_pq_sig_params (cstr "ML-DSA-87"%string) 2592 4896 4627
].

Definition g_kem_params : list bm_pq_kem_params := [
  Build_bm_pq_kem_params (cstr "ML-KEM-512"%string) 800 1632 768;
  Build_bm_pq_kem_params (cstr "ML-KEM-768"%string) 1184 2400 1088;
  Build_bm_pq_kem_params (cstr "ML-KEM-1024"%string) 1568 3168 1568
].

Definition bm_pq_sig_get_params (alg : Z) : option bm_pq_sig_params :=
  if (alg <? 0) || (alg >=? BM_PQ_SIG_ALG_COUNT) then None else g_sig_params !! Z.to_nat alg.

Definition bm_pq_kem_get_params (alg : Z) : option bm_pq_kem_params :=
  if (alg <? 0) || (alg >=? BM_PQ_KEM_ALG_COUNT) then None else g_kem_params !! Z.to_nat alg.

Section PqCrypto.
Context `{PQ : PqOpenSSL}.

(** The two keys, if they have the announced lengths. *)
Definition keypair_from_seed (alg_name seed : list Z) (pk_len sk_len : Z) : cres (list Z * list Z) :=
  '(pk, sk) ← or_err (PKEY_generate alg_name seed);
  if (blen pk =? pk_len) && (blen sk =? sk_len) then Ok (pk, sk) else Err.

Definition bm_pq_sig_keypair_from_seed (alg : Z) (seed : list Z) : cres (list Z * list Z) :=
  p ← or_err (bm_pq_sig_get_params alg);
  seed ← rdn seed 0 BM_PQ_SIG_SEED_LEN;
  keypair_from_seed (sp_name p) seed (sp_pk_len p) (sp_sk_len p).

Definition bm_pq_kem_keypair_from_seed (alg : Z) (seed : list Z) : cres (list Z * list Z) :=
  p ← or_err (bm_pq_kem_get_params alg);
  seed ← rdn seed 0 BM_PQ_KEM_SEED_LEN;
  keypair_from_seed (kp_name p) seed (kp_pk_len p) (kp_sk_len p).

Definition bm_pq_sig_sign (alg : Z) (msg sk rnd : list Z) : cres (list Z) :=
  p ← or_err (bm_pq_sig_get_params alg);
  sk ← rdn sk 0 (sp_sk_len p);
  sig ← or_err (ML_DSA_sign (sp_name p) sk rnd msg);
  if blen sig =? sp_sig_len p then Ok sig else Err.

Definition bm_pq_sig_verify (alg : Z) (sig : list Z) (sig_len : Z) (msg pk : list Z) : cres bool :=
  match bm_pq_sig_get_params alg with
  | None => Ok false
  | Some p =>
      if negb (sig_len =? sp_sig_len p) then Ok false else
      pk ← rdn pk 0 (sp_pk_len p);
      sig ← rdn sig 0 sig_len;
      Ok (ML_DSA_verify (sp_name p) pk sig msg)
  end.

Definition bm_pq_kem_encaps (alg : Z) (pk rnd : list Z) : cres (list Z * list Z) :=
  p ← or_err (bm_pq_kem_get_params alg);
  pk ← rdn pk 0 (kp_pk_len p);
  '(ct, ss) ← or_err (ML_KEM_encapsulate (kp_name p) pk rnd);
  if (blen ct =? kp_ct_len p) && (blen ss =? BM_PQ_KEM_SS_LEN) then Ok (ct, ss) else Err.

Definition bm_pq_kem_decaps (alg : Z) (ct sk : list Z) : cres (list Z) :=
  p ← or_err (bm_pq_kem_get_params alg);
  sk ← rdn sk 0 (kp_sk_len p);
  ct ← rdn ct 0 (kp_ct_len p);
  ss ← or_err (ML_KEM_decapsulate (kp_name p) sk ct);
  if blen ss =? BM_PQ_KEM_SS_LEN then Ok ss else Err.

End PqCrypto.

(** ** pq/pq_hybrid.c *)

Definition BM_PQV5_SIG_PK_LEN : Z := 1984.
Definition BM_PQV5_SIG_SK_LEN : Z := 4064.
Definition BM_PQV5_SIG_LEN : Z := 3373.
Definition BM_PQV5_KEM_PK_LEN : Z := 1216.
Definition BM_PQV5_KEM_SK_LEN : Z := 2432.
Definition BM_PQV5_KEM_CT_LEN : Z := 1120.
Definition BM_PQV5_SEED_LEN : Z := 32.
Definition BM_PQV5_AEAD_TAG_LEN : Z := 16.
Definition BM_PQV5_SEAL_OVERHEAD : Z := BM_PQV5_KEM_CT_LEN + BM_PQV5_AEAD_TAG_LEN.

Definition MLDSA_PK_LEN : Z := 1952.
Definition MLDSA_SK_LEN : Z := 4032.
Definition MLDSA_SIG_LEN : Z := 3309.
Definition MLKEM_PK_LEN : Z := 1184.
Definition MLKEM_SK_LEN : Z := 2400.
Definition MLKEM_CT_LEN : Z := 1088.
Definition ED25519_PK_LEN : Z := 32.
Definition ED25519_SK_LEN : Z := 32.
Definition ED25519_SIG_LEN : Z := 64.
Definition X25519_LEN : Z := 32.

Definition PQV5_SIG_ALG : Z := BM_PQ_SIG_ML_DSA_65.
Definition PQV5_KEM_ALG : Z := BM_PQ_KEM_ML_KEM_768.

(** The random bytes of one encapsulation: the ephemeral X25519 key, and what ML-KEM draws. *)
Record seal_random := { sr_eph_sk : list Z; sr_mlkem : list Z }.

Definition g_zero_nonce : list Z := replicate 12 0.

Section PqHybrid.
Context `{PQ : PqOpenSSL} `{OSV : OpenSSLVault}.

Definition bm_pq_sha3_256 (data : list Z) : list Z := SHA3_256 data.
Definition bm_pq_sha3_512 (data : list Z) : list Z := SHA3_512 data.
Definition bm_pq_shake128 (data : list Z) (out_len : Z) : cres (list Z) := or_err (SHAKE128 data out_len).
Definition bm_pq_shake256 (data : list Z) (out_len : Z) : cres (list Z) := or_err (SHAKE256 data out_len).

(** A result of the announced length, or a failure. *)
Definition of_len (len : Z) (r : option (list Z)) : cres (list Z) :=
  r ← or_err r; if blen r =? len then Ok r else Err.

Definition ed25519_public_from_seed (seed : list Z) : cres (list Z) :=
  seed ← rdn seed 0 ED25519_SK_LEN; of_len ED25519_PK_LEN (ED25519_public seed).

Definition ed25519_sign (seed msg : list Z) : cres (list Z) :=
  seed ← rdn seed 0 ED25519_SK_LEN; of_len ED25519_SIG_LEN (ED25519_sign seed msg).

Definition ed25519_verify (pk msg sig : list Z) : cres bool :=
  pk ← rdn pk 0 ED25519_PK_LEN;
  sig ← rdn sig 0 ED25519_SIG_LEN;
  Ok (ED25519_verify pk msg sig).

Definition x25519_public_from_private (sk : list Z) : cres (list Z) :=
  sk ← rdn sk 0 X25519_LEN; of_len X25519_LEN (X25519_public sk).

Definition x25519_shared (sk peer_pk : list Z) : cres (list Z) :=
  sk ← rdn sk 0 X25519_LEN;
  peer_pk ← rdn peer_pk 0 X25519_LEN;
  of_len X25519_LEN (X25519_derive sk peer_pk).

(** The parts of a key pair, written into the arrays [out_pk] and [out_sk]. *)
Definition sig_set_mldsa (xi out_pk out_sk : list Z) : cres (list Z * list Z) :=
  '(pk, sk) ← bm_pq_sig_keypair_from_seed PQV5_SIG_ALG xi;
  out_pk ← wr out_pk 0 pk;
  out_sk ← wr out_sk 0 sk;
  Ok (out_pk, out_sk).

Definition sig_set_ed25519 (seed out_pk out_sk : list Z) : cres (list Z * list Z) :=
  sk ← rdn seed 0 ED25519_SK_LEN;
  out_sk ← wr out_sk MLDSA_SK_LEN sk;
  pk ← ed25519_public_from_seed seed;
  out_pk ← wr out_pk MLDSA_PK_LEN pk;
  Ok (out_pk, out_sk).

Definition kem_set_mlkem (coins out_pk out_sk : list Z) : cres (list Z * list Z) :=
  '(pk, sk) ← bm_pq_kem_keypair_from_seed PQV5_KEM_ALG coins;
  out_pk ← wr out_pk 0 pk;
  out_sk ← wr out_sk 0 sk;
  Ok (out_pk, out_sk).

Definition kem_set_x25519 (sk32 out_pk out_sk : list Z) : cres (list Z * list Z) :=
  sk ← rdn sk32 0 X25519_LEN;
  out_sk ← wr out_sk MLKEM_SK_LEN sk;
  pk ← x25519_public_from_private sk32;
  out_pk ← wr out_pk MLKEM_PK_LEN pk;
  Ok (out_pk, out_sk).

Definition bm_pqv5_sig_keypair_from_seed (seed : list Z) : cres (list Z * list Z) :=
  seed ← rdn seed 0 BM_PQV5_SEED_LEN;
  expanded ← bm_pq_shake128 seed 64;
  '(out_pk, out_sk) ← sig_set_mldsa expanded (malloc BM_PQV5_SIG_PK_LEN) (malloc BM_PQV5_SIG_SK_LEN);
  sig_set_ed25519 (drop 32 expanded) out_pk out_sk.

(** [rnd]: what the hedged ML-DSA signature draws. *)
Definition bm_pqv5_sign (msg sk rnd : list Z) : cres (list Z) :=
  mldsa ← bm_pq_sig_sign PQV5_SIG_ALG msg sk rnd;
  out_sig ← wr (malloc BM_PQV5_SIG_LEN) 0 mldsa;
  if negb (blen mldsa =? MLDSA_SIG_LEN) then Err else
  ed ← ed25519_sign (drop (Z.to_nat MLDSA_SK_LEN) sk) msg;
  wr out_sig MLDSA_SIG_LEN ed.

Definition bm_pqv5_verify (msg sig pk : list Z) : cres bool :=
  ok ← bm_pq_sig_verify PQV5_SIG_ALG sig MLDSA_SIG_LEN msg pk;
  if negb ok then Ok false else
  ed25519_verify (drop (Z.to_nat MLDSA_PK_LEN) pk) msg (drop (Z.to_nat MLDSA_SIG_LEN) sig).

Definition xwing_label : list Z := [92; 46; 47; 47; 94; 92].

Definition xwing_combiner (ss_m ss_x ct_x pk_x : list Z) : cres (list Z) :=
  buf ← (ss ← rdn ss_m 0 32; wr (malloc (32 * 4 + 6)) 0 ss);
  buf ← (ss ← rdn ss_x 0 32; wr buf 32 ss);
  buf ← (ct ← rdn ct_x 0 32; wr buf 64 ct);
  buf ← (pk ← rdn pk_x 0 32; wr buf 96 pk);
  buf ← wr buf 128 xwing_label;
  Ok (bm_pq_sha3_256 buf).

Definition bm_pqv5_kem_keypair_from_seed (seed : list Z) : cres (list Z * list Z) :=
  seed ← rdn seed 0 BM_PQV5_SEED_LEN;
  expanded ← bm_pq_shake256 seed 96;
  '(out_pk, out_sk) ← kem_set_mlkem expanded (malloc BM_PQV5_KEM_PK_LEN) (malloc BM_PQV5_KEM_SK_LEN);
  kem_set_x25519 (drop 64 expanded) out_pk out_sk.

(** The ciphertext and the shared secret. *)
Definition bm_pqv5_xwing_encaps (pk : list Z) (rnd : seal_random) : cres (list Z * list Z) :=
  '(ct_m, ss_m) ← bm_pq_kem_encaps PQV5_KEM_ALG pk (sr_mlkem rnd);
  out_ct ← wr (malloc BM_PQV5_KEM_CT_LEN) 0 ct_m;
  ct_x ← x25519_public_from_private (sr_eph_sk rnd);
  out_ct ← wr out_ct MLKEM_CT_LEN ct_x;
  ss_x ← x25519_shared (sr_eph_sk rnd) (drop (Z.to_nat MLKEM_PK_LEN) pk);
  out_ss ← xwing_combiner ss_m ss_x (drop (Z.to_nat MLKEM_CT_LEN) out_ct) (drop (Z.to_nat MLKEM_PK_LEN) pk);
  Ok (out_ct, out_ss).

Definition bm_pqv5_xwing_decaps (sk ct : list Z) : cres (list Z) :=
  ss_m ← bm_pq_kem_decaps PQV5_KEM_ALG ct sk;
  ss_x ← x25519_shared (drop (Z.to_nat MLKEM_SK_LEN) sk) (drop (Z.to_nat MLKEM_CT_LEN) ct);
  pk_x ← x25519_public_from_private (drop (Z.to_nat MLKEM_SK_LEN) sk);
  xwing_combiner ss_m ss_x (drop (Z.to_nat MLKEM_CT_LEN) ct) pk_x.

(** The ciphertext and the tag. *)
Definition aead_seal (key aad pt : list Z) : cres (list Z * list Z) :=
  or_err (AES_256_GCM_encrypt key g_zero_nonce aad pt).

Definition aead_open (key aad ct tag : list Z) : cres (list Z) :=
  or_err (AES_256_GCM_decrypt key g_zero_nonce aad ct tag).

(** Writes the sealed text at [out + off]; its length comes second. *)
Definition bm_pqv5_seal (recipient_pk aad pt out : list Z) (off : Z) (rnd : seal_random) : cres (list Z * Z) :=
  '(kem_ct, key) ← bm_pqv5_xwing_encaps recipient_pk rnd;
  out ← wr out off kem_ct;
  '(ct, tag) ← aead_seal key aad pt;
  out ← wr out (off + BM_PQV5_KEM_CT_LEN) ct;
  out ← wr out (off + BM_PQV5_KEM_CT_LEN + blen pt) tag;
  Ok (out, BM_PQV5_SEAL_OVERHEAD + blen pt).

Definition bm_pqv5_open (sk aad inp : list Z) : cres (list Z) :=
  if blen inp <? BM_PQV5_SEAL_OVERHEAD then Err else
  let ct_len := blen inp - BM_PQV5_SEAL_OVERHEAD in
  key ← bm_pqv5_xwing_decaps sk inp;
  ct ← rdn inp BM_PQV5_KEM_CT_LEN ct_len;
  tag ← rdn inp (BM_PQV5_KEM_CT_LEN + ct_len) BM_PQV5_AEAD_TAG_LEN;
  aead_open key aad ct tag.

End PqHybrid.

(** ** Lemmas *)

Lemma drop_nat k (l : list Z) n : n = Z.of_nat k -> drop k l = drop (Z.to_nat n) l.
Proof. intros ->. by rewrite Nat2Z.id. Qed.

Lemma of_len_ok n r o : of_len n r = Ok o <-> r = Some o /\ blen o = n.
Proof.
  unfold of_len. destruct r as [r|]; cbn; [|by split; [|intros []]].
  destruct (Z.eqb_spec (blen r) n); split; intros Hr; [by simplify_eq|by destruct Hr; simplify_eq|done|].
  destruct Hr; simplify_eq.
Qed.

Lemma of_len_not_ub n r : of_len n r <> Ub.
Proof. unfold of_len. destruct r; cbn; [by case_match|done]. Qed.

Section PqHybridLemmas.
Context `{PQL : PqOpenSSLLaws} `{OSVL : OpenSSLVaultLaws}.

Definition ML_DSA_65 : list Z := cstr "ML-DSA-65"%string.
Definition ML_KEM_768 : list Z := cstr "ML-KEM-768"%string.

Lemma sig_params_65 : bm_pq_sig_get_params PQV5_SIG_ALG = Some (Build_bm_pq_sig_params ML_DSA_65 1952 4032 3309).
Proof. reflexivity. Qed.
Lemma kem_params_768 : bm_pq_kem_get_params PQV5_KEM_ALG = Some (Build_bm_pq_kem_params ML_KEM_768 1184 2400 1088).
Proof. reflexivity. Qed.

Lemma keypair_from_seed_ok name seed pl sl pk sk :
  keypair_from_seed name seed pl sl = Ok (pk, sk) ->
  PKEY_generate name seed = Some (pk, sk) /\ blen pk = pl /\ blen sk = sl.
Proof.
  unfold keypair_from_seed. intros E. apply bind_ok_inv in E as ([p s] & E%or_err_ok & Er).
  destruct (Z.eqb_spec (blen p) pl), (Z.eqb_spec (blen s) sl); by simplify_eq/=.
Qed.

(** The two halves of a key array, filled one after the other. *)
Lemma fill_halves n m a b :
  0 <= n -> 0 <= m -> blen a = n -> blen b = m ->
  (buf ← wr (malloc (n + m)) 0 a; wr buf n b) = Ok (a ++ b).
Proof.
  intros Hn Hm Ha Hb. rewrite wr_malloc_start by lia. cbn_bind.
  by rewrite wr_malloc_last by lia.
Qed.

(** A key pair for signing is a pair for ML-DSA-65 followed by a pair for Ed25519. *)
Lemma sig_keypair_parts seed pk sk :
  bm_pqv5_sig_keypair_from_seed seed = Ok (pk, sk) ->
  exists xi pk_m sk_m pk_e sk_e,
    pk = pk_m ++ pk_e /\ sk = sk_m ++ sk_e
    /\ blen pk_m = 1952 /\ blen sk_m = 4032 /\ blen pk_e = 32 /\ blen sk_e = 32
    /\ PKEY_generate ML_DSA_65 xi = Some (pk_m, sk_m) /\ ED25519_public sk_e = Some pk_e.
Proof.
  unfold bm_pqv5_sig_keypair_from_seed, sig_set_mldsa, sig_set_ed25519, bm_pq_sig_keypair_from_seed,
    ed25519_public_from_seed, bm_pq_shake128. rewrite sig_params_65. intros E.
  inv_bind E. inv_bind E. apply or_err_ok in E1. pose proof (SHAKE128_len _ 64 _ ltac:(lia) E1) as Hx.
  change (drop 32 a0) with (drop (Z.to_nat 32) a0) in E.
  pose proof (blen_drop 32 a0 ltac:(lia)) as Hd.
  unfold BM_PQ_SIG_SEED_LEN, ED25519_SK_LEN in E. cbn [or_err] in E.
  rewrite !bind_ok, !(rdn_ok a0), !(rdn_ok (drop _ a0)), !bind_ok in E by lia.
  inv_bind E. apply bind_ok_inv in E2 as ([pk_m sk_m] & Ek & E2).
  apply keypair_from_seed_ok in Ek as (Hg & Hp & Hs). cbn [sp_pk_len sp_sk_len] in Hp, Hs.
  rewrite !wr_malloc_start in E2 by (unfold BM_PQV5_SIG_PK_LEN, BM_PQV5_SIG_SK_LEN; lia).
  rewrite !bind_ok in E2. apply ok_inj in E2 as <-. cbn beta iota in E.
  set (sk_e := slice (drop (Z.to_nat 32) a0) 0 32) in *.
  assert (Hse : blen sk_e = 32) by (apply blen_slice; lia).
  unfold BM_PQV5_SIG_SK_LEN, BM_PQV5_SIG_PK_LEN, MLDSA_SK_LEN, MLDSA_PK_LEN in E.
  rewrite bind_ok, wr_malloc_last, bind_ok in E by lia. inv_bind E. apply of_len_ok in E2 as [Ee Hl].
  unfold ED25519_PK_LEN in Hl. rewrite wr_malloc_last, bind_ok in E by lia. apply ok_inj in E. simplify_eq.
  eexists _, pk_m, sk_m, a1, sk_e. by split_and!.
Qed.

(** A key pair for encapsulation is a pair for ML-KEM-768 followed by a pair for X25519. *)
Lemma kem_keypair_parts seed pk sk :
  bm_pqv5_kem_keypair_from_seed seed = Ok (pk, sk) ->
  exists coins pk_m sk_m pk_x sk_x,
    pk = pk_m ++ pk_x /\ sk = sk_m ++ sk_x
    /\ blen pk_m = 1184 /\ blen sk_m = 2400 /\ blen pk_x = 32 /\ blen sk_x = 32
    /\ PKEY_generate ML_KEM_768 coins = Some (pk_m, sk_m) /\ X25519_public sk_x = Some pk_x.
Proof.
  unfold bm_pqv5_kem_keypair_from_seed, kem_set_mlkem, kem_set_x25519, bm_pq_kem_keypair_from_seed,
    x25519_public_from_private, bm_pq_shake256. rewrite kem_params_768. intros E.
  inv_bind E. inv_bind E. apply or_err_ok in E1. pose proof (SHAKE256_len _ 96 _ ltac:(lia) E1) as Hx.
  change (drop 64 a0) with (drop (Z.to_nat 64) a0) in E.
  pose proof (blen_drop 64 a0 ltac:(lia)) as Hd.
  unfold BM_PQ_KEM_SEED_LEN, X25519_LEN in E. cbn [or_err] in E.
  rewrite !bind_ok, !(rdn_ok a0), !(rdn_ok (drop _ a0)), !bind_ok in E by lia.
  inv_bind E. apply bind_ok_inv in E2 as ([pk_m sk_m] & Ek & E2).
  apply keypair_from_seed_ok in Ek as (Hg & Hp & Hs). cbn [kp_pk_len kp_sk_len] in Hp, Hs.
  rewrite !wr_malloc_start in E2 by (unfold BM_PQV5_KEM_PK_LEN, BM_PQV5_KEM_SK_LEN; lia).
  rewrite !bind_ok in E2. apply ok_inj in E2 as <-. cbn beta iota in E.
  set (sk_x := slice (drop (Z.to_nat 64) a0) 0 32) in *.
  assert (Hse : blen sk_x = 32) by (apply blen_slice; lia).
  unfold BM_PQV5_KEM_SK_LEN, BM_PQV5_KEM_PK_LEN, MLKEM_SK_LEN, MLKEM_PK_LEN in E.
  rewrite bind_ok, wr_malloc_last, bind_ok in E by lia. inv_bind E. apply of_len_ok in E2 as [Ee Hl].
  rewrite wr_malloc_last, bind_ok in E by lia. apply ok_inj in E. simplify_eq.
  eexists _, pk_m, sk_m, a1, sk_x. by split_and!.
Qed.

Lemma slice_of_drop (l : list Z) k off n : 0 <= k -> 0 <= off -> slice (drop (Z.to_nat k) l) off n = slice l (k + off) n.
Proof. intros. unfold slice. rewrite drop_drop. do 2 f_equal. lia. Qed.

Lemma slice_app_end (a b : list Z) off n : off = blen a -> n = blen b -> slice (a ++ b) off n = b.
Proof. intros. rewrite <- (app_nil_r b) at 1. by apply slice_app_mid. Qed.

(** Both signatures are checked, each over the whole message and under its own key. *)
Lemma verify_spec msg sig pk :
  BM_PQV5_SIG_LEN <= blen sig -> BM_PQV5_SIG_PK_LEN <= blen pk ->
  bm_pqv5_verify msg sig pk
  = Ok (ML_DSA_verify ML_DSA_65 (slice pk 0 1952) (slice sig 0 3309) msg
        && ED25519_verify (slice pk 1952 32) msg (slice sig 3309 64)).
Proof.
  unfold BM_PQV5_SIG_LEN, BM_PQV5_SIG_PK_LEN. intros Hs Hp.
  unfold bm_pqv5_verify, bm_pq_sig_verify, ed25519_verify, MLDSA_SIG_LEN, MLDSA_PK_LEN, ED25519_PK_LEN,
    ED25519_SIG_LEN. rewrite sig_params_65. cbn [sp_sig_len sp_pk_len sp_name].
  rewrite Z.eqb_refl. cbn [negb]. rewrite !rdn_ok by (rewrite ?blen_drop; lia).
  rewrite !bind_ok, !slice_of_drop by lia. by destruct (ML_DSA_verify _ _ _ _).
Qed.

Lemma verify_not_ub msg sig pk :
  BM_PQV5_SIG_LEN <= blen sig -> BM_PQV5_SIG_PK_LEN <= blen pk -> bm_pqv5_verify msg sig pk <> Ub.
Proof. intros. by rewrite verify_spec. Qed.

(** What [bm_pqv5_sign] makes with the private key of a pair, [bm_pqv5_verify] accepts. *)
Lemma hybrid_sign_verify seed pk sk msg rnd sig :
  bm_pqv5_sig_keypair_from_seed seed = Ok (pk, sk) ->
  bm_pqv5_sign msg sk rnd = Ok sig ->
  blen sig = BM_PQV5_SIG_LEN /\ bm_pqv5_verify msg sig pk = Ok true.
Proof.
  intros (xi & pk_m & sk_m & pk_e & sk_e & -> & -> & Hpm & Hsm & Hpe & Hse & Hm & He)%sig_keypair_parts Es.
  unfold bm_pqv5_sign, bm_pq_sig_sign, ed25519_sign in Es. rewrite sig_params_65 in Es.
  unfold MLDSA_SIG_LEN, MLDSA_SK_LEN, BM_PQV5_SIG_LEN, ED25519_SK_LEN, ED25519_SIG_LEN in *.
  cbn [or_err] in Es. rewrite bind_ok in Es. cbn [sp_sk_len sp_name sp_sig_len] in Es.
  rewrite rdn_prefix, bind_ok in Es by done.
  apply bind_ok_inv in Es as (sig_m & Em & Es). apply bind_ok_inv in Em as (sig_m' & Em%or_err_ok & Hl).
  destruct (Z.eqb_spec (blen sig_m') 3309) as [Hl'|]; [|done]. apply ok_inj in Hl as <-.
  rewrite wr_malloc_start, bind_ok in Es by lia. rewrite Hl' in Es. cbn [negb Z.eqb Pos.eqb] in Es.
  rewrite drop_app_blen, (rdn_ok sk_e), slice_all, bind_ok in Es by lia.
  inv_bind Es. apply of_len_ok in E as [Ee Hle].
  rewrite wr_malloc_last in Es by lia. apply ok_inj in Es as <-.
  split; [rewrite blen_app; lia|].
  rewrite verify_spec by (unfold BM_PQV5_SIG_LEN, BM_PQV5_SIG_PK_LEN; rewrite blen_app; lia).
  rewrite !slice_app_l, !slice_app_end by (rewrite ?blen_app; lia).
  by rewrite (ML_DSA_correct _ _ _ _ _ _ _ Hm Em), (ED25519_correct _ _ _ _ He Ee).
Qed.

Lemma combiner_eq a b c d :
  blen a = 32 -> blen b = 32 -> 32 <= blen c -> 32 <= blen d ->
  xwing_combiner a b c d = Ok (SHA3_256 (a ++ b ++ slice c 0 32 ++ slice d 0 32 ++ xwing_label)).
Proof.
  intros Ha Hb Hc Hd. unfold xwing_combiner, bm_pq_sha3_256.
  rewrite !rdn_ok, (slice_all a), (slice_all b), !bind_ok by lia.
  pose proof (blen_slice c 0 32 ltac:(lia) ltac:(lia) Hc). pose proof (blen_slice d 0 32 ltac:(lia) ltac:(lia) Hd).
  rewrite wr_malloc_start, !bind_ok, wr_malloc, !bind_ok, wr_malloc, !bind_ok by (rewrite ?blen_app; lia).
  rewrite wr_malloc, !bind_ok, wr_malloc_last, !bind_ok;
    [by rewrite <- !app_assoc|rewrite ?blen_app; change (blen xwing_label) with 6; lia..].
Qed.

(** What an encapsulation consists of. *)
Lemma encaps_parts pk rnd ct ss :
  blen pk = BM_PQV5_KEM_PK_LEN ->
  bm_pqv5_xwing_encaps pk rnd = Ok (ct, ss) ->
  exists ct_m ss_m ct_x ss_x,
    ct = ct_m ++ ct_x /\ blen ct_m = 1088 /\ blen ct_x = 32 /\ blen ss_m = 32 /\ blen ss_x = 32
    /\ ML_KEM_encapsulate ML_KEM_768 (slice pk 0 1184) (sr_mlkem rnd) = Some (ct_m, ss_m)
    /\ X25519_public (slice (sr_eph_sk rnd) 0 32) = Some ct_x
    /\ X25519_derive (slice (sr_eph_sk rnd) 0 32) (slice pk 1184 32) = Some ss_x
    /\ ss = SHA3_256 (ss_m ++ ss_x ++ ct_x ++ slice pk 1184 32 ++ xwing_label).
Proof.
  unfold BM_PQV5_KEM_PK_LEN. intros Hpk E.
  unfold bm_pqv5_xwing_encaps, bm_pq_kem_encaps, x25519_public_from_private, x25519_shared in E.
  rewrite kem_params_768 in E. unfold X25519_LEN, MLKEM_PK_LEN, MLKEM_CT_LEN, BM_PQV5_KEM_CT_LEN, BM_PQ_KEM_SS_LEN in E.
  cbn [or_err] in E. rewrite bind_ok in E. cbn [kp_pk_len kp_name kp_ct_len] in E. rewrite (rdn_ok pk), bind_ok in E by lia.
  apply bind_ok_inv in E as ([ct_m ss_m] & Em & E). apply bind_ok_inv in Em as ([c s] & Em%or_err_ok & Hl).
  destruct (Z.eqb_spec (blen c) 1088), (Z.eqb_spec (blen s) 32); try done. apply ok_inj in Hl. simplify_eq.
  rewrite wr_malloc_start, bind_ok in E by lia.
  apply bind_ok_inv in E as (ct_x & Ex & E). apply bind_ok_inv in Ex as (eph & Eeph & Ex).
  rewrite Eeph, bind_ok in E. apply rdn_ok_inv in Eeph as (-> & _). apply of_len_ok in Ex as [Ex Hx].
  rewrite wr_malloc_last, bind_ok in E by lia.
  rewrite (rdn_ok (drop _ pk)), bind_ok, slice_of_drop in E by (rewrite ?blen_drop; lia).
  change (1184 + 0) with 1184 in E. inv_bind E. apply of_len_ok in E0 as [Ed Hd].
  assert (Hdp : drop (Z.to_nat 1184) pk = slice pk 1184 32).
  { unfold slice. rewrite (take_ge (drop _ _)); [done|]. rewrite length_drop. unfold blen in Hpk. lia. }
  rewrite drop_app_blen, Hdp, combiner_eq, !slice_all, bind_ok in E by (rewrite ?blen_slice; lia).
  apply ok_inj in E. simplify_eq. by eexists ct_m, ss_m, ct_x, a.
Qed.

(** ML-KEM's decapsulation undoes this encapsulation.  (For a generated pair it does, but for
    a draw [rnd] of probability less than 2^-164; FIPS 203, section 3.2.) *)
Definition mlkem_agrees (pk sk : list Z) (rnd : seal_random) : Prop :=
  forall ct ss, ML_KEM_encapsulate ML_KEM_768 (slice pk 0 1184) (sr_mlkem rnd) = Some (ct, ss) ->
  ML_KEM_decapsulate ML_KEM_768 (slice sk 0 2400) ct = Some ss.

Lemma decaps_eq sk ct ss_m ss_x pk_x :
  blen sk = BM_PQV5_KEM_SK_LEN -> BM_PQV5_KEM_CT_LEN <= blen ct ->
  ML_KEM_decapsulate ML_KEM_768 (slice sk 0 2400) (slice ct 0 1088) = Some ss_m -> blen ss_m = 32 ->
  X25519_derive (slice sk 2400 32) (slice ct 1088 32) = Some ss_x -> blen ss_x = 32 ->
  X25519_public (slice sk 2400 32) = Some pk_x -> blen pk_x = 32 ->
  bm_pqv5_xwing_decaps sk ct = Ok (SHA3_256 (ss_m ++ ss_x ++ slice ct 1088 32 ++ pk_x ++ xwing_label)).
Proof.
  unfold BM_PQV5_KEM_SK_LEN, BM_PQV5_KEM_CT_LEN. intros Hsk Hct Em Hm Ex Hx Ep Hp.
  unfold bm_pqv5_xwing_decaps, bm_pq_kem_decaps, x25519_shared, x25519_public_from_private, MLKEM_SK_LEN,
    MLKEM_CT_LEN, X25519_LEN, BM_PQ_KEM_SS_LEN. rewrite kem_params_768.
  cbn [or_err]. rewrite !bind_ok. cbn [kp_sk_len kp_ct_len kp_name].
  rewrite !rdn_ok, !bind_ok, Em by (rewrite ?blen_drop; lia). cbn [or_err]. rewrite bind_ok, Hm. cbn [Z.eqb Pos.eqb].
  rewrite !slice_of_drop, !Z.add_0_r, Ex, Ep by lia.
  rewrite (proj2 (of_len_ok 32 (Some ss_x) ss_x)), !bind_ok, (proj2 (of_len_ok 32 (Some pk_x) pk_x)), !bind_ok by done.
  rewrite combiner_eq, slice_of_drop, (slice_all pk_x) by (rewrite ?blen_drop; lia). done.
Qed.

(** The holder of the private key computes the shared secret of the encapsulation. *)
Lemma xwing_agree seed pk sk rnd ct ss rest :
  bm_pqv5_kem_keypair_from_seed seed = Ok (pk, sk) -> mlkem_agrees pk sk rnd ->
  bm_pqv5_xwing_encaps pk rnd = Ok (ct, ss) ->
  blen ct = BM_PQV5_KEM_CT_LEN /\ bm_pqv5_xwing_decaps sk (ct ++ rest) = Ok ss.
Proof.
  intros (coins & pk_m & sk_m & pk_x & sk_x & Hpk & Hsk & Hpm & Hsm & Hpx & Hsx & Hm & Hx)%kem_keypair_parts Ha E.
  apply encaps_parts in E as (ct_m & ss_m & ct_x & ss_x & -> & Hcm & Hcx & Hss & Hsx' & Em & Ex & Ed & ->);
    [|rewrite Hpk, blen_app; unfold BM_PQV5_KEM_PK_LEN; lia].
  pose proof (blen_nonneg rest). unfold BM_PQV5_KEM_CT_LEN. split; [rewrite blen_app; lia|].
  assert (Hs1 : slice sk 2400 32 = sk_x) by (rewrite Hsk; by apply slice_app_end).
  assert (Hp1 : slice pk 1184 32 = pk_x) by (rewrite Hpk; by apply slice_app_end).
  rewrite Hp1 in Ed |- *. rewrite <- app_assoc.
  assert (Hc0 : slice (ct_m ++ ct_x ++ rest) 0 1088 = ct_m) by (by apply slice_app_l).
  assert (Hc1 : slice (ct_m ++ ct_x ++ rest) 1088 32 = ct_x) by (by apply slice_app_mid).
  rewrite (decaps_eq sk _ ss_m ss_x pk_x); rewrite ?Hc0, ?Hc1, ?Hs1; try done.
  - unfold BM_PQV5_KEM_SK_LEN. rewrite Hsk, blen_app. lia.
  - unfold BM_PQV5_KEM_CT_LEN. rewrite !blen_app. lia.
  - by apply Ha.
  - rewrite <- Ed. symmetry. apply X25519_comm; done.
Qed.

(** What sealing writes behind [done]. *)
Lemma seal_parts pk aad pt done rnd out n :
  blen pk = BM_PQV5_KEM_PK_LEN ->
  bm_pqv5_seal pk aad pt (done ++ malloc (BM_PQV5_SEAL_OVERHEAD + blen pt)) (blen done) rnd = Ok (out, n) ->
  exists kem_ct key ct tag,
    bm_pqv5_xwing_encaps pk rnd = Ok (kem_ct, key)
    /\ AES_256_GCM_encrypt key g_zero_nonce aad pt = Some (ct, tag)
    /\ out = done ++ kem_ct ++ ct ++ tag /\ n = BM_PQV5_SEAL_OVERHEAD + blen pt
    /\ blen kem_ct = 1120 /\ blen ct = blen pt /\ blen tag = 16.
Proof.
  intros Hpk E. unfold bm_pqv5_seal in E. apply bind_ok_inv in E as ([kem_ct key] & Ek & E).
  destruct (encaps_parts _ _ _ _ Hpk Ek) as (ct_m & ss_m & ct_x & ss_x & Hct & Hcm & Hcx & _).
  assert (Hk : blen kem_ct = 1120) by (rewrite Hct, blen_app; lia). clear Hct.
  change BM_PQV5_SEAL_OVERHEAD with 1136 in *. change BM_PQV5_KEM_CT_LEN with 1120 in *.
  pose proof (blen_nonneg pt). rewrite wr_malloc, bind_ok in E by lia.
  apply bind_ok_inv in E as ([ct tag] & Ea%or_err_ok & E). destruct (GCM_lengths _ _ _ _ _ _ Ea) as [Hc Ht].
  rewrite wr_malloc, bind_ok in E by (rewrite ?blen_app; lia).
  rewrite wr_malloc_last, bind_ok in E by (rewrite ?blen_app; lia). apply ok_inj in E. simplify_eq.
  exists kem_ct, key, ct, tag. rewrite <- !app_assoc. by split_and!.
Qed.

(** A sealed text is opened by the holder of the private key, under the same header. *)
Lemma seal_open seed pk sk aad pt done rnd out n :
  bm_pqv5_kem_keypair_from_seed seed = Ok (pk, sk) -> mlkem_agrees pk sk rnd ->
  bm_pqv5_seal pk aad pt (done ++ malloc (BM_PQV5_SEAL_OVERHEAD + blen pt)) (blen done) rnd = Ok (out, n) ->
  exists sealed, out = done ++ sealed /\ blen sealed = n /\ n = BM_PQV5_SEAL_OVERHEAD + blen pt
    /\ bm_pqv5_open sk aad sealed = Ok pt.
Proof.
  intros Hk Ha E. pose proof (kem_keypair_parts _ _ _ Hk) as (_ & pk_m & _ & pk_x & _ & Hpk & _ & Hpm & _ & Hpx & _).
  apply seal_parts in E as (kem_ct & key & ct & tag & Ek & Ea & -> & -> & Hkc & Hc & Ht);
    [|rewrite Hpk, blen_app; unfold BM_PQV5_KEM_PK_LEN; lia].
  exists (kem_ct ++ ct ++ tag). change BM_PQV5_SEAL_OVERHEAD with 1136. pose proof (blen_nonneg pt).
  assert (Hl : blen (kem_ct ++ ct ++ tag) = 1136 + blen pt) by (rewrite !blen_app; lia).
  split_and!; [done|done|done|]. unfold bm_pqv5_open. rewrite Hl. change BM_PQV5_SEAL_OVERHEAD with 1136.
  change BM_PQV5_KEM_CT_LEN with 1120. change BM_PQV5_AEAD_TAG_LEN with 16. zdec.
  destruct (xwing_agree _ _ _ _ _ _ (ct ++ tag) Hk Ha Ek) as [_ ->]. rewrite bind_ok.
  replace (1136 + blen pt - 1136) with (blen pt) by lia.
  rewrite (rdn_app_mid _ _ _ 1120), bind_ok, app_assoc, rdn_suffix, bind_ok by (rewrite ?blen_app; lia).
  apply or_err_ok. by apply GCM_authentic.
Qed.

(** What opens is authentic: the decapsulated key seals the result to these very bytes, under
    this header. *)
Lemma open_authentic sk aad inp pt :
  bm_pqv5_open sk aad inp = Ok pt ->
  blen inp = BM_PQV5_SEAL_OVERHEAD + blen pt
  /\ exists key, bm_pqv5_xwing_decaps sk inp = Ok key
    /\ AES_256_GCM_encrypt key g_zero_nonce aad pt
       = Some (slice inp BM_PQV5_KEM_CT_LEN (blen pt), slice inp (BM_PQV5_KEM_CT_LEN + blen pt) BM_PQV5_AEAD_TAG_LEN).
Proof.
  unfold bm_pqv5_open. change BM_PQV5_SEAL_OVERHEAD with 1136. change BM_PQV5_KEM_CT_LEN with 1120.
  change BM_PQV5_AEAD_TAG_LEN with 16. destruct (Z.ltb_spec (blen inp) 1136); [done|]. intros E.
  inv_bind E. rewrite !rdn_ok, !bind_ok in E by lia. apply or_err_ok, GCM_authentic in E.
  destruct (GCM_lengths _ _ _ _ _ _ E) as [Hc _]. rewrite blen_slice in Hc by lia.
  split; [lia|]. exists a. split; [done|]. by rewrite <- Hc.
Qed.

Lemma open_bytes sk aad inp pt : bytes_ok inp -> bm_pqv5_open sk aad inp = Ok pt -> bytes_ok pt.
Proof.
  intros Hb E. unfold bm_pqv5_open in E. case_match; [done|]. inv_bind E.
  apply bind_ok_inv in E as (ct & (-> & _)%rdn_ok_inv & E). inv_bind E.
  apply or_err_ok in E. eapply GCM_bytes, E. auto with bytes.
Qed.

Lemma decaps_not_ub sk ct :
  blen sk = BM_PQV5_KEM_SK_LEN -> BM_PQV5_KEM_CT_LEN <= blen ct -> bm_pqv5_xwing_decaps sk ct <> Ub.
Proof.
  unfold BM_PQV5_KEM_SK_LEN, BM_PQV5_KEM_CT_LEN. intros Hsk Hct.
  unfold bm_pqv5_xwing_decaps, bm_pq_kem_decaps, x25519_shared, x25519_public_from_private, MLKEM_SK_LEN,
    MLKEM_CT_LEN, X25519_LEN, BM_PQ_KEM_SS_LEN. rewrite kem_params_768.
  cbn [or_err]. rewrite !bind_ok. cbn [kp_sk_len kp_ct_len kp_name].
  rewrite !rdn_ok, !bind_ok by (rewrite ?blen_drop; lia).
  repeat (apply safe_bind; [first [apply or_err_not_ub|apply of_len_not_ub|by case_match]|intros ? ?%of_len_ok]).
  rewrite combiner_eq by (rewrite ?blen_drop; lia). done.
Qed.

Lemma kem_keypair_not_ub seed : blen seed = 32 -> bm_pqv5_kem_keypair_from_seed seed <> Ub.
Proof.
  intros Hs. unfold bm_pqv5_kem_keypair_from_seed, kem_set_mlkem, kem_set_x25519, bm_pq_kem_keypair_from_seed,
    x25519_public_from_private, bm_pq_shake256. rewrite kem_params_768.
  rewrite rdn_ok, bind_ok by (unfold BM_PQV5_SEED_LEN; lia).
  apply safe_bind; [apply or_err_not_ub|]. intros e Ee%or_err_ok. apply SHAKE256_len in Ee; [|lia].
  change (drop 64 e) with (drop (Z.to_nat 64) e). pose proof (blen_drop 64 e ltac:(lia)) as Hd.
  unfold BM_PQ_KEM_SEED_LEN, X25519_LEN. cbn [or_err].
  rewrite !bind_ok, !(rdn_ok e), !(rdn_ok (drop _ e)), !bind_ok by lia.
  pose proof (blen_slice (drop (Z.to_nat 64) e) 0 32 ltac:(lia) ltac:(lia) ltac:(lia)) as Hsl.
  unfold BM_PQV5_KEM_SK_LEN, BM_PQV5_KEM_PK_LEN, MLKEM_SK_LEN, MLKEM_PK_LEN.
  destruct (keypair_from_seed _ _ _ _) as [[pk sk]| |] eqn:Ek; [|done|].
  - apply keypair_from_seed_ok in Ek as (_ & Hp & Hk). cbn [kp_pk_len kp_sk_len] in Hp, Hk.
    rewrite bind_ok, !wr_malloc_start, !bind_ok by lia. rewrite wr_malloc_last, bind_ok by lia.
    apply safe_bind; [apply of_len_not_ub|]. intros x [_ Hx]%of_len_ok. by rewrite wr_malloc_last by lia.
  - unfold keypair_from_seed in Ek. destruct (PKEY_generate _ _) as [[p k]|]; [|done]. cbn in Ek. by case_match.
Qed.

Lemma sig_keypair_not_ub seed : blen seed = 32 -> bm_pqv5_sig_keypair_from_seed seed <> Ub.
Proof.
  intros Hs. unfold bm_pqv5_sig_keypair_from_seed, sig_set_mldsa, sig_set_ed25519, bm_pq_sig_keypair_from_seed,
    ed25519_public_from_seed, bm_pq_shake128. rewrite sig_params_65.
  rewrite rdn_ok, bind_ok by (unfold BM_PQV5_SEED_LEN; lia).
  apply safe_bind; [apply or_err_not_ub|]. intros e Ee%or_err_ok. apply SHAKE128_len in Ee; [|lia].
  change (drop 32 e) with (drop (Z.to_nat 32) e). pose proof (blen_drop 32 e ltac:(lia)) as Hd.
  unfold BM_PQ_SIG_SEED_LEN, ED25519_SK_LEN, ED25519_PK_LEN. cbn [or_err].
  rewrite !bind_ok, !(rdn_ok e), !(rdn_ok (drop _ e)), !bind_ok by lia.
  pose proof (blen_slice (drop (Z.to_nat 32) e) 0 32 ltac:(lia) ltac:(lia) ltac:(lia)) as Hsl.
  unfold BM_PQV5_SIG_SK_LEN, BM_PQV5_SIG_PK_LEN, MLDSA_SK_LEN, MLDSA_PK_LEN.
  destruct (keypair_from_seed _ _ _ _) as [[pk sk]| |] eqn:Ek; [|done|].
  - apply keypair_from_seed_ok in Ek as (_ & Hp & Hk). cbn [sp_pk_len sp_sk_len] in Hp, Hk.
    rewrite bind_ok, !wr_malloc_start, !bind_ok by lia. rewrite wr_malloc_last, bind_ok by lia.
    apply safe_bind; [apply of_len_not_ub|]. intros x [_ Hx]%of_len_ok. by rewrite wr_malloc_last by lia.
  - unfold keypair_from_seed in Ek. destruct (PKEY_generate _ _) as [[p k]|]; [|done]. cbn in Ek. by case_match.
Qed.

Lemma open_not_ub sk aad inp : blen sk = BM_PQV5_KEM_SK_LEN -> bm_pqv5_open sk aad inp <> Ub.
Proof.
  intros Hsk. unfold bm_pqv5_open. change BM_PQV5_SEAL_OVERHEAD with 1136. change BM_PQV5_AEAD_TAG_LEN with 16.
  destruct (Z.ltb_spec (blen inp) 1136); [done|].
  apply safe_bind; [apply decaps_not_ub; change BM_PQV5_KEM_CT_LEN with 1120; [done|lia]|intros key _].
  change BM_PQV5_KEM_CT_LEN with 1120. rewrite !rdn_ok, !bind_ok by lia. apply or_err_not_ub.
Qed.
End PqHybridLemmas.

(** ** An instance of the laws

    As worthless as [toy_OpenSSL], and as easy to evaluate. *)

(** [len] bytes of which the last [n] come from [d]. *)
Definition toy_pad (n : nat) (len : Z) (d : list Z) : list Z :=
  replicate (Z.to_nat len - n) 0 ++ take n (d ++ replicate n 0).

(** Lengths by name: public key, private key, signature or ciphertext. *)
Definition toy_lengths (name : list Z) : option (Z * Z * Z) :=
  match list_find (fun p => name = sp_name p) g_sig_params with
  | Some (_, p) => Some (sp_pk_len p, sp_sk_len p, sp_sig_len p)
  | None => p ← list_find (fun p => name = kp_name p) g_kem_params;
            Some (kp_pk_len p.2, kp_sk_len p.2, kp_ct_len p.2)
  end.

Definition toy_number (d : list Z) : list Z := be_split 32 (be_combine d).

(** The key number at the end of a padded array. *)
Definition toy_key (d : list Z) : list Z := drop (length d - 32) d.

Definition toy_Pq : PqOpenSSL := {|
  SHA3_256 := fun d => be_split 32 (toy_fold d);
  SHA3_512 := fun d => be_split 64 (toy_fold d);
  SHAKE128 := fun d n => Some (be_split (Z.to_nat n) (be_combine d));
  SHAKE256 := fun d n => Some (be_split (Z.to_nat n) (be_combine d));
  PKEY_generate := fun name seed =>
    '(pk, sk, _) ← toy_lengths name; Some (toy_pad 32 pk seed, toy_pad 32 sk seed);
  ML_DSA_sign := fun name sk _ msg =>
    '(_, _, len) ← toy_lengths name; Some (toy_pad 64 len (toy_key sk ++ be_split 32 (toy_fold msg)));
  ML_DSA_verify := fun name pk sig msg =>
    match toy_lengths name with
    | Some (_, _, len) => list_eqb sig (toy_pad 64 len (toy_key pk ++ be_split 32 (toy_fold msg)))
    | None => false
    end;
  ML_KEM_encapsulate := fun name pk rnd =>
    '(_, _, len) ← toy_lengths name;
    let ct := toy_pad 32 len rnd in Some (ct, be_split 32 (toy_fold (toy_key pk ++ ct)));
  ML_KEM_decapsulate := fun name sk ct => Some (be_split 32 (toy_fold (toy_key sk ++ ct)));
  ED25519_public := fun seed => Some (toy_number seed);
  ED25519_sign := fun seed msg => Some (toy_number seed ++ be_split 32 (toy_fold msg));
  ED25519_verify := fun pk msg sig => list_eqb sig (pk ++ be_split 32 (toy_fold msg));
  X25519_public := fun sk => Some (toy_number sk);
  X25519_derive := fun sk pk => Some (be_split 32 (be_combine sk mod 256 ^ 32 + be_combine pk))
|}.

Lemma toy_key_pad len d : toy_key (toy_pad 32 len d) = take 32 (d ++ replicate 32 0).
Proof.
  unfold toy_key, toy_pad. rewrite length_app, length_take, length_app, !length_replicate.
  rewrite drop_app_ge by (rewrite length_replicate; lia). rewrite length_replicate.
  by replace (_ - _ - _)%nat with 0%nat by lia.
Qed.

Lemma toy_PqLaws : PqOpenSSLLaws (H := toy_Pq).
Proof.
  constructor; cbn [SHA3_256 SHA3_512 SHAKE128 SHAKE256 PKEY_generate ML_DSA_sign ML_DSA_verify ED25519_public
    ED25519_sign ED25519_verify X25519_public X25519_derive toy_Pq]; intros; auto using blen_be_split with bytes.
  - simplify_eq. rewrite blen_be_split. lia.
  - simplify_eq. rewrite blen_be_split. lia.
  - destruct (toy_lengths name) as [[[pl sl] len]|]; [|done]. simplify_eq/=.
    rewrite !toy_key_pad. apply list_eqb_refl.
  - simplify_eq. apply list_eqb_refl.
  - simplify_eq. unfold toy_number. rewrite !be_combine_split. do 2 f_equal. lia.
Qed.

(** In the instance, encapsulation and decapsulation agree for the keys of a pair. *)
Lemma toy_mlkem_agrees pk sk rnd :
  toy_key (slice pk 0 1184) = toy_key (slice sk 0 2400) -> mlkem_agrees (H := toy_Pq) pk sk rnd.
Proof.
  intros Hk ct ss. cbn [ML_KEM_encapsulate ML_KEM_decapsulate toy_Pq].
  destruct (toy_lengths ML_KEM_768) as [[[pl sl] len]|]; [|done]. cbn [mbind option_bind].
  intros E. injection E as <- <-. by rewrite Hk.
Qed.
