(* ===== verification/AddressV5.v ===== *)
(** * Post-quantum addresses (pq/address_v5.c)

    An address of version 5 names the SHA3-256 hash of the two public keys; an identity is
    kept as two 32-byte seeds, from which all keys are made again.

    A C string is the list of its characters.  [memset] and the clearing of key memory are
    not represented. *)

From Stdlib Require Import String.
From stdpp Require Import base tactics list numbers option.
From S2P Require Import Prelude Varint Base58 Openssl Hash Address PqHybrid.

#[local] Arguments be_split : simpl never.

Definition BM_PQV5_ADDRESS_VERSION : Z := 5.
Definition BM_PQV5_ID_LEN : Z := 32.
Definition BM_PQV5_DEFAULT_NULL_BYTES : Z := 1.
Definition BM_PQV5_LABEL_DETERMINISTIC : list Z := cstr "BitmessagePQ-v5-deterministic"%string.
Definition BM_PQV5_SEEDS_LEN : Z := 64.

Record bm_pqv5_seeds := { sig_seed : list Z; kem_seed : list Z }.

Record bm_pqv5_identity := {
  pi_version : Z;
  pi_stream : Z;
  pi_sig_pk : list Z;
  pi_sig_sk : list Z;
  pi_kem_pk : list Z;
  pi_kem_sk : list Z;
  pi_id : list Z;
  pi_sig_nonce : Z;
  pi_kem_nonce : Z;
  pi_seeds : bm_pqv5_seeds
}.
#[export] Instance bm_pqv5_identity_eta : RecordEta bm_pqv5_identity := fun i =>
  Build_bm_pqv5_identity (pi_version i) (pi_stream i) (pi_sig_pk i) (pi_sig_sk i) (pi_kem_pk i)
    (pi_kem_sk i) (pi_id i) (pi_sig_nonce i) (pi_kem_nonce i) (pi_seeds i).

(** Writes at a position of a block; the position behind. *)
Definition put_varint (buf : list Z) (p v : Z) : cres (list Z * Z) :=
  buf ← bm_varint_encode (Some (buf, p)) v;
  Ok (buf, p + bm_varint_size v).

Section AddressV5.
Context `{OS : OpenSSL} `{PQ : PqOpenSSL} `{BN : BigNum}.

Definition bm_pqv5_calc_id (sig_pk kem_pk : list Z) : cres (list Z) :=
  sig_pk ← rdn sig_pk 0 BM_PQV5_SIG_PK_LEN;
  buf ← wr (malloc (BM_PQV5_SIG_PK_LEN + BM_PQV5_KEM_PK_LEN)) 0 sig_pk;
  kem_pk ← rdn kem_pk 0 BM_PQV5_KEM_PK_LEN;
  buf ← wr buf BM_PQV5_SIG_PK_LEN kem_pk;
  Ok (bm_pq_sha3_256 buf).

(** The seed and the tag. *)
Definition bm_pqv5_derive_secret_and_tag (version stream : Z) (id : list Z) : cres (list Z * list Z) :=
  '(buf, p) ← put_varint (malloc (18 + BM_PQV5_ID_LEN)) 0 version;
  '(buf, p) ← put_varint buf p stream;
  id ← rdn id 0 BM_PQV5_ID_LEN;
  buf ← wr buf p id;
  input ← rdn buf 0 (p + BM_PQV5_ID_LEN);
  let digest := bm_pq_sha3_512 input in
  seed ← rdn digest 0 BM_PQV5_SEED_LEN;
  tag ← rdn digest 32 32;
  Ok (seed, tag).

Definition bm_pqv5_address_kem_keypair (version stream : Z) (id : list Z) : cres (list Z * list Z) :=
  '(seed, _) ← bm_pqv5_derive_secret_and_tag version stream id;
  bm_pqv5_kem_keypair_from_seed seed.

(** [while (strip < BM_PQV5_ID_LEN && id[strip] == 0x00) strip++;]  ([n]: how many are left) *)
Fixpoint strip_loop (n : nat) (id : list Z) (strip : Z) : cres Z :=
  match n with
  | O => Ok strip
  | S n => b ← rd id strip; if b =? 0 then strip_loop n id (strip + 1) else Ok strip
  end.

Definition bm_pqv5_address_encode (version stream : Z) (id : list Z) : cres (list Z) :=
  strip ← strip_loop (Z.to_nat BM_PQV5_ID_LEN) id 0;
  '(buf, p) ← put_varint (malloc (16 + BM_PQV5_ID_LEN + 4)) 0 version;
  '(buf, p) ← put_varint buf p stream;
  rest ← rdn id strip (BM_PQV5_ID_LEN - strip);
  buf ← wr buf p rest;
  let p := p + (BM_PQV5_ID_LEN - strip) in
  let data_len := p in
  checksum ← (input ← rdn buf 0 data_len; Ok (bm_double_sha512 input));
  buf ← wr buf p (take 4 checksum);
  data ← rdn buf 0 (data_len + 4);
  b58 ← bm_base58_encode data;
  Ok (cstr "BM-" ++ b58).

Definition bm_pqv5_address_decode (address : list Z) : cres (Z * Z * list Z) :=
  let body := strip_prefix address in
  raw ← bm_base58_decode body;
  let raw_len := blen raw in
  if raw_len <? 4 + 2 then Err else
  checksum ← (input ← rdn raw 0 (raw_len - 4); Ok (bm_double_sha512 input));
  sum ← rdn raw (raw_len - 4) 4;
  if negb (list_eqb (take 4 checksum) sum) then Err else
  '(consumed, version) ← bm_varint_decode raw (raw_len - 4);
  if negb (version =? BM_PQV5_ADDRESS_VERSION) then Err else
  let offset := consumed in
  '(consumed, stream) ← bm_varint_decode (drop (Z.to_nat offset) raw) (raw_len - 4 - offset);
  let offset := offset + consumed in
  let id_data_len := raw_len - 4 - offset in
  if id_data_len >? BM_PQV5_ID_LEN then Err else
  lead ← (if id_data_len >? 0 then rd raw offset else Ok 1);
  if lead =? 0 then Err else
  id_data ← rdn raw offset id_data_len;
  Ok (version, stream, replicate (Z.to_nat (BM_PQV5_ID_LEN - id_data_len)) 0 ++ id_data).

(** ** Identities *)

Definition id_has_leading_nulls (id : list Z) (null_bytes : Z) : cres bool :=
  ripe_has_nulls id 0 (Z.to_nat null_bytes).

(** The identity after [memset] and the first assignments. *)
Definition new_identity (stream : Z) (seeds : bm_pqv5_seeds) : bm_pqv5_identity := {|
  pi_version := BM_PQV5_ADDRESS_VERSION; pi_stream := stream;
  pi_sig_pk := replicate 1984 0; pi_sig_sk := replicate 4064 0;
  pi_kem_pk := replicate 1216 0; pi_kem_sk := replicate 2432 0;
  pi_id := replicate 32 0; pi_sig_nonce := 0; pi_kem_nonce := 0; pi_seeds := seeds
|}.

Definition set_sig_keys (out : bm_pqv5_identity) : cres bm_pqv5_identity :=
  '(pk, sk) ← bm_pqv5_sig_keypair_from_seed (sig_seed (pi_seeds out));
  Ok (out <| pi_sig_pk := pk |> <| pi_sig_sk := sk |>).

Definition set_kem_keys (out : bm_pqv5_identity) : cres bm_pqv5_identity :=
  '(pk, sk) ← bm_pqv5_kem_keypair_from_seed (kem_seed (pi_seeds out));
  Ok (out <| pi_kem_pk := pk |> <| pi_kem_sk := sk |>).

Definition set_id (out : bm_pqv5_identity) : cres bm_pqv5_identity :=
  id ← bm_pqv5_calc_id (pi_sig_pk out) (pi_kem_pk out);
  Ok (out <| pi_id := id |>).

Definition keys_from_seeds (out : bm_pqv5_identity) : cres bm_pqv5_identity :=
  out ← set_sig_keys out;
  out ← set_kem_keys out;
  set_id out.

Definition bm_pqv5_identity_from_seeds (stream : Z) (sig_seed kem_seed : list Z) : cres bm_pqv5_identity :=
  keys_from_seeds (new_identity stream {| sig_seed := sig_seed; kem_seed := kem_seed |}).

(** The search over the seeds [RAND_bytes] draws; [Ok None]: none of them qualifies. *)
Fixpoint random_search (null_bytes : Z) (out : bm_pqv5_identity) (draws : list (list Z))
  : cres (option bm_pqv5_identity) :=
  match draws with
  | [] => Ok None
  | draw :: draws =>
      let out := out <| pi_seeds := {| sig_seed := sig_seed (pi_seeds out); kem_seed := draw |} |> in
      out ← set_kem_keys out;
      out ← set_id out;
      ok ← id_has_leading_nulls (pi_id out) null_bytes;
      if (ok : bool) then Ok (Some out) else random_search null_bytes out draws
  end.

Definition bm_pqv5_identity_generate_random (stream null_bytes : Z) (sig_draw : list Z) (kem_draws : list (list Z))
  : cres (option bm_pqv5_identity) :=
  if (null_bytes <? 0) || (null_bytes >? BM_PQV5_ID_LEN) then Err else
  out ← set_sig_keys (new_identity stream {| sig_seed := sig_draw; kem_seed := replicate 32 0 |});
  random_search null_bytes out kem_draws.

Definition derive_seed (passphrase : list Z) (nonce : Z) : cres (list Z) :=
  let label_len := blen BM_PQV5_LABEL_DETERMINISTIC in
  let pass_len := blen passphrase in
  let total := label_len + 1 + pass_len + bm_varint_size nonce in
  buf ← wr (malloc total) 0 BM_PQV5_LABEL_DETERMINISTIC;
  buf ← wr buf label_len [0];
  buf ← wr buf (label_len + 1) passphrase;
  '(buf, p) ← put_varint buf (label_len + 1 + pass_len) nonce;
  input ← rdn buf 0 p;
  rdn (bm_pq_sha3_512 input) 0 BM_PQV5_SEED_LEN.

(** One turn of the [for (;;)]: the identity it makes, and whether it qualifies. *)
Definition try_seeds (passphrase : list Z) (stream null_bytes sig_nonce kem_nonce : Z)
  : cres (bm_pqv5_identity * bool) :=
  sig_seed ← derive_seed passphrase sig_nonce;
  kem_seed ← derive_seed passphrase kem_nonce;
  out ← keys_from_seeds (new_identity stream {| sig_seed := sig_seed; kem_seed := kem_seed |});
  ok ← id_has_leading_nulls (pi_id out) null_bytes;
  Ok (out, ok).

(** [fuel] turns of the search; [Ok None]: still searching after them. *)
Fixpoint deterministic_search (fuel : nat) (passphrase : list Z) (stream null_bytes sig_nonce kem_nonce : Z)
  : cres (option bm_pqv5_identity) :=
  match fuel with
  | O => Ok None
  | S fuel =>
      '(out, ok) ← try_seeds passphrase stream null_bytes sig_nonce kem_nonce;
      if (ok : bool) then Ok (Some (out <| pi_sig_nonce := sig_nonce |> <| pi_kem_nonce := kem_nonce |>))
      else deterministic_search fuel passphrase stream null_bytes (u64 (sig_nonce + 2)) (u64 (kem_nonce + 2))
  end.

Definition bm_pqv5_identity_generate_deterministic (fuel : nat) (passphrase : list Z)
  (stream start_nonce null_bytes : Z) : cres (option bm_pqv5_identity) :=
  if (null_bytes <? 0) || (null_bytes >? BM_PQV5_ID_LEN) then Err else
  deterministic_search fuel passphrase stream null_bytes start_nonce (u64 (start_nonce + 1)).

Definition bm_pqv5_next_start_nonce (previous : bm_pqv5_identity) : Z := u64 (pi_kem_nonce previous + 1).

End AddressV5.

(** ** What the hashes are taken of *)

Section AddressV5Lemmas.
Context `{OSL : OpenSSLLaws} `{PQL : PqOpenSSLLaws} `{BNL : BigNumLaws}.

Lemma calc_id_eq sig_pk kem_pk :
  blen sig_pk = BM_PQV5_SIG_PK_LEN -> blen kem_pk = BM_PQV5_KEM_PK_LEN ->
  bm_pqv5_calc_id sig_pk kem_pk = Ok (SHA3_256 (sig_pk ++ kem_pk)).
Proof.
  intros Hs Hk. unfold bm_pqv5_calc_id.
  rewrite !rdn_ok, !slice_all, !bind_ok by (unfold BM_PQV5_SIG_PK_LEN, BM_PQV5_KEM_PK_LEN in *; lia).
  rewrite wr_malloc_start, !bind_ok by (unfold BM_PQV5_SIG_PK_LEN, BM_PQV5_KEM_PK_LEN in *; lia).
  by rewrite wr_malloc_last, bind_ok by lia.
Qed.

Definition secret_digest (version stream : Z) (id : list Z) : list Z :=
  SHA3_512 (varint_bytes version ++ varint_bytes stream ++ id).

Definition v5_tag (version stream : Z) (id : list Z) : list Z := slice (secret_digest version stream id) 32 32.

Lemma put_varint_malloc done m v off :
  off = blen done -> bm_varint_size v <= m ->
  put_varint (done ++ malloc m) off v
  = Ok ((done ++ varint_bytes v) ++ malloc (m - bm_varint_size v), off + bm_varint_size v).
Proof. intros. unfold put_varint. by rewrite varint_encode_malloc, bind_ok. Qed.

Lemma derive_v5_eq version stream id :
  blen id = BM_PQV5_ID_LEN ->
  bm_pqv5_derive_secret_and_tag version stream id
  = Ok (slice (secret_digest version stream id) 0 32, v5_tag version stream id).
Proof.
  unfold BM_PQV5_ID_LEN. intros Hi. unfold bm_pqv5_derive_secret_and_tag, BM_PQV5_ID_LEN, BM_PQV5_SEED_LEN.
  pose proof (bm_varint_size_pos version). pose proof (bm_varint_size_pos stream).
  rewrite <- (app_nil_l (malloc _)), put_varint_malloc, bind_ok by (rewrite ?blen_nil; lia).
  rewrite put_varint_malloc, bind_ok by (rewrite ?app_nil_l, ?blen_varint_bytes; lia).
  rewrite rdn_ok, slice_all, bind_ok by lia.
  rewrite wr_malloc, bind_ok by (rewrite ?app_nil_l, ?blen_app, ?blen_varint_bytes; lia).
  rewrite rdn_prefix, bind_ok by (rewrite ?app_nil_l, !blen_app, ?blen_varint_bytes; lia).
  unfold v5_tag, secret_digest, bm_pq_sha3_512. rewrite app_nil_l, <- app_assoc.
  by rewrite !rdn_ok by (rewrite ?SHA3_512_len; lia).
Qed.

Lemma blen_v5_tag version stream id : blen (v5_tag version stream id) = 32.
Proof. apply blen_slice; [lia|lia|]. unfold secret_digest. rewrite SHA3_512_len. lia. Qed.

(** ** The text form *)

Lemma strip_loop_spec (pre id : list Z) n :
  length id = n -> strip_loop n (pre ++ id) (blen pre) = Ok (blen pre + Z.of_nat (count_zeros id)).
Proof.
  revert pre n. induction id as [|b id IH]; intros pre n <-; [cbn; f_equal; lia|].
  cbn [length strip_loop count_zeros]. rewrite rd_app_here, bind_ok by done.
  destruct (b =? 0); [|f_equal; lia].
  specialize (IH (pre ++ [b]) _ eq_refl). rewrite <- app_assoc, blen_app in IH.
  change (blen [b]) with 1 in IH. cbn [app] in IH. rewrite IH. f_equal. lia.
Qed.

Lemma encode_v5_raw version stream id :
  version < 2 ^ 32 -> blen id = 32 ->
  let k := count_zeros id in
  bm_pqv5_address_encode version stream id
  = (b58 ← bm_base58_encode (address_payload version stream (drop k id)
             ++ take 4 (bm_double_sha512 (address_payload version stream (drop k id))));
     Ok (cstr "BM-" ++ b58)).
Proof.
  intros Hv Hi k. unfold bm_pqv5_address_encode, BM_PQV5_ID_LEN, address_payload.
  pose proof (strip_loop_spec [] id (Z.to_nat 32) ltac:(unfold blen in Hi; lia)) as Hs.
  rewrite blen_nil, Z.add_0_l, app_nil_l in Hs. rewrite Hs, bind_ok. fold k.
  destruct (count_zeros_spec id) as (Hk & _). fold k in Hk.
  assert (Hk' : Z.of_nat k <= 32) by (unfold blen in Hi; lia).
  assert (Hv5 : 1 <= bm_varint_size version <= 5) by (unfold bm_varint_size; repeat case_match; lia).
  pose proof (bm_varint_size_pos stream).
  rewrite <- (app_nil_l (malloc _)), put_varint_malloc, bind_ok by (rewrite ?blen_nil; lia).
  rewrite put_varint_malloc, bind_ok by (rewrite ?app_nil_l, ?blen_varint_bytes; lia).
  rewrite app_nil_l, rdn_ok, bind_ok by lia.
  assert (Hd : slice id (Z.of_nat k) (32 - Z.of_nat k) = drop k id).
  { unfold slice. rewrite Nat2Z.id. apply take_ge. rewrite length_drop. unfold blen in Hi. lia. }
  assert (Hdl : blen (drop k id) = 32 - Z.of_nat k) by (unfold blen in *; rewrite length_drop; lia).
  rewrite Hd. rewrite wr_malloc, bind_ok by (rewrite ?blen_app, ?blen_varint_bytes; lia).
  rewrite rdn_prefix, !bind_ok by (rewrite !blen_app, ?blen_varint_bytes; lia).
  rewrite wr_malloc, bind_ok by (rewrite ?blen_app, ?blen_varint_bytes, ?blen_take4_sum512; lia).
  rewrite rdn_prefix, bind_ok by (rewrite !blen_app, ?blen_varint_bytes, blen_take4_sum512; lia).
  by rewrite <- (app_assoc (varint_bytes version)).
Qed.

Lemma lead_of_stripped id :
  (if blen (drop (count_zeros id) id) >? 0 then rd (drop (count_zeros id) id) 0 else Ok 1)
  = Ok (match drop (count_zeros id) id with [] => 1 | b :: _ => b end)
  /\ match drop (count_zeros id) id with [] => 1 | b :: _ => b end <> 0.
Proof.
  destruct (count_zeros_spec id) as (_ & H2 & _). destruct (drop (count_zeros id) id) as [|b t]; [done|].
  rewrite Z.gtb_ltb, (proj2 (Z.ltb_lt _ _)) by (rewrite blen_cons; pose proof (blen_nonneg t); lia).
  by rewrite rd_head.
Qed.

Lemma decode_v5_raw stream id b58 (k := count_zeros id) (p := address_payload 5 stream (drop k id)) :
  is_u64 stream -> blen id = 32 -> bm_base58_decode b58 = Ok (p ++ take 4 (bm_double_sha512 p)) ->
  bm_pqv5_address_decode (cstr "BM-" ++ b58) = Ok (5, stream, id).
Proof.
  intros Hs Hi E. unfold bm_pqv5_address_decode. rewrite strip_prefix_app, E, bind_ok.
  assert (Hl : blen (p ++ take 4 (bm_double_sha512 p)) = blen p + 4) by (rewrite blen_app, blen_take4_sum512; lia).
  destruct (count_zeros_spec id) as (Hk & _ & Hz & Hrep). fold k in Hk, Hz, Hrep.
  assert (Hdl : blen (drop k id) = 32 - Z.of_nat k) by (unfold blen in *; rewrite length_drop; lia).
  pose proof (bm_varint_size_pos stream) as Hss.
  assert (Hp : blen p = 1 + bm_varint_size stream + blen (drop k id)).
  { unfold p, address_payload. rewrite !blen_app, ?blen_varint_bytes. change (bm_varint_size 5) with 1. lia. }
  assert (Hk32 : Z.of_nat k <= 32) by (unfold blen in Hi; lia).
  rewrite Hl. replace (blen p + 4 - 4) with (blen p) by lia. zdec.
  rewrite rdn_prefix, !bind_ok, rdn_suffix, bind_ok by (rewrite ?blen_take4_sum512; done).
  rewrite list_eqb_refl. cbn [negb].
  assert (Hsplit : p ++ take 4 (bm_double_sha512 p)
    = varint_bytes 5 ++ varint_bytes stream ++ drop k id ++ take 4 (bm_double_sha512 p)).
  { unfold p at 1, address_payload. by rewrite <- !app_assoc. }
  rewrite Hsplit. rewrite varint_decode_cases
    by (unfold is_u64; rewrite ?blen_app, ?blen_varint_bytes, ?blen_take4_sum512; change (bm_varint_size 5) with 1 in *; lia).
  rewrite bind_ok. change (bm_varint_size 5) with 1. cbn [Z.eqb Pos.eqb negb BM_PQV5_ADDRESS_VERSION].
  rewrite drop_app_blen by done.
  rewrite varint_decode_cases by (rewrite ?blen_app, ?blen_varint_bytes, ?blen_take4_sum512; first [done|lia]).
  rewrite bind_ok. unfold BM_PQV5_ID_LEN. replace (blen p - (1 + bm_varint_size stream)) with (blen (drop k id)) by lia.
  rewrite Z.gtb_ltb, (proj2 (Z.ltb_ge _ _)) by lia.
  rewrite (app_assoc (varint_bytes 5)).
  assert (Hrd : (blen (drop k id) >? 0) = true ->
    rd ((varint_bytes 5 ++ varint_bytes stream) ++ drop k id ++ take 4 (bm_double_sha512 p)) (1 + bm_varint_size stream)
    = rd (drop k id) 0).
  { intros Hpos. rewrite (rd_of_rdn _ (1 + bm_varint_size stream) (blen (drop k id)) (drop k id) 0); [done| |lia|lia].
    apply rdn_app_mid; [rewrite blen_app, ?blen_varint_bytes; done|done]. }
  destruct (lead_of_stripped id) as [Hlead Hne]. fold k in Hlead, Hne.
  replace (if blen (drop k id) >? 0 then rd (_ ++ _) _ else Ok 1)
    with (Ok (match drop k id with [] => 1 | b :: _ => b end) : cres Z)
    by (rewrite <- Hlead; destruct (blen (drop k id) >? 0); [by rewrite Hrd|done]).
  rewrite bind_ok, (proj2 (Z.eqb_neq _ _) Hne).
  rewrite rdn_app_mid, bind_ok by (rewrite ?blen_app, ?blen_varint_bytes; done).
  do 2 f_equal. rewrite <- (take_drop k id) at 3. rewrite Hrep. f_equal. f_equal. lia.
Qed.
End AddressV5Lemmas.

(** ** Identities *)

Section IdentityLemmas.
Context `{OSL : OpenSSLLaws} `{PQL : PqOpenSSLLaws} `{BNL : BigNumLaws}.

(** The keys and the id an identity has are those its seeds give. *)
Definition made_from_seeds (out : bm_pqv5_identity) : Prop :=
  pi_version out = BM_PQV5_ADDRESS_VERSION
  /\ bm_pqv5_sig_keypair_from_seed (sig_seed (pi_seeds out)) = Ok (pi_sig_pk out, pi_sig_sk out)
  /\ bm_pqv5_kem_keypair_from_seed (kem_seed (pi_seeds out)) = Ok (pi_kem_pk out, pi_kem_sk out)
  /\ bm_pqv5_calc_id (pi_sig_pk out) (pi_kem_pk out) = Ok (pi_id out).

Lemma set_sig_keys_ok i out :
  set_sig_keys i = Ok out <->
  exists pk sk, bm_pqv5_sig_keypair_from_seed (sig_seed (pi_seeds i)) = Ok (pk, sk)
    /\ out = i <| pi_sig_pk := pk |> <| pi_sig_sk := sk |>.
Proof.
  unfold set_sig_keys. destruct (bm_pqv5_sig_keypair_from_seed _) as [[pk sk]| |]; cbn;
    (split; [intros [= <-]; eauto|by intros (? & ? & ? & ->); simplify_eq]) || (split; [done|by intros (? & ? & ? & _)]).
Qed.

Lemma set_kem_keys_ok i out :
  set_kem_keys i = Ok out <->
  exists pk sk, bm_pqv5_kem_keypair_from_seed (kem_seed (pi_seeds i)) = Ok (pk, sk)
    /\ out = i <| pi_kem_pk := pk |> <| pi_kem_sk := sk |>.
Proof.
  unfold set_kem_keys. destruct (bm_pqv5_kem_keypair_from_seed _) as [[pk sk]| |]; cbn;
    (split; [intros [= <-]; eauto|by intros (? & ? & ? & ->); simplify_eq]) || (split; [done|by intros (? & ? & ? & _)]).
Qed.

Lemma set_id_ok i out :
  set_id i = Ok out <->
  exists id, bm_pqv5_calc_id (pi_sig_pk i) (pi_kem_pk i) = Ok id /\ out = i <| pi_id := id |>.
Proof.
  unfold set_id. destruct (bm_pqv5_calc_id _ _) as [id| |]; cbn;
    (split; [intros [= <-]; eauto|by intros (? & ? & ->); simplify_eq]) || (split; [done|by intros (? & ? & _)]).
Qed.

Lemma keys_from_seeds_ok stream seeds out :
  keys_from_seeds (new_identity stream seeds) = Ok out ->
  made_from_seeds out /\ pi_stream out = stream /\ pi_seeds out = seeds
  /\ pi_sig_nonce out = 0 /\ pi_kem_nonce out = 0.
Proof.
  unfold keys_from_seeds. intros E. apply bind_ok_inv in E as (o1 & (pk & sk & Es & ->)%set_sig_keys_ok & E).
  apply bind_ok_inv in E as (o2 & (kpk & ksk & Ek & ->)%set_kem_keys_ok & E).
  apply set_id_ok in E as (id & Ei & ->). by split_and!.
Qed.

(** Two seeds restore the identity, whichever way it was generated. *)
Lemma made_restores out :
  made_from_seeds out ->
  bm_pqv5_identity_from_seeds (pi_stream out) (sig_seed (pi_seeds out)) (kem_seed (pi_seeds out))
  = Ok (out <| pi_sig_nonce := 0 |> <| pi_kem_nonce := 0 |>).
Proof.
  destruct out as [v st spk ssk kpk ksk id sn kn [ss ks]]. intros (Hv & Es & Ek & Ei). cbn in *. subst v.
  unfold bm_pqv5_identity_from_seeds, keys_from_seeds, set_sig_keys, set_kem_keys, set_id. cbn.
  rewrite Es. cbn. rewrite Ek. cbn. by rewrite Ei.
Qed.

Lemma made_parts out :
  made_from_seeds out ->
  blen (pi_sig_pk out) = BM_PQV5_SIG_PK_LEN /\ blen (pi_sig_sk out) = BM_PQV5_SIG_SK_LEN
  /\ blen (pi_kem_pk out) = BM_PQV5_KEM_PK_LEN /\ blen (pi_kem_sk out) = BM_PQV5_KEM_SK_LEN
  /\ pi_id out = SHA3_256 (pi_sig_pk out ++ pi_kem_pk out) /\ blen (pi_id out) = BM_PQV5_ID_LEN.
Proof.
  intros (_ & Es & Ek & Ei).
  apply sig_keypair_parts in Es as (? & p1 & s1 & p2 & s2 & Hp & Hs & ? & ? & ? & ? & _).
  apply kem_keypair_parts in Ek as (? & q1 & t1 & q2 & t2 & Hq & Ht & ? & ? & ? & ? & _).
  assert (blen (pi_sig_pk out) = BM_PQV5_SIG_PK_LEN) by (rewrite Hp, blen_app; unfold BM_PQV5_SIG_PK_LEN; lia).
  assert (blen (pi_sig_sk out) = BM_PQV5_SIG_SK_LEN) by (rewrite Hs, blen_app; unfold BM_PQV5_SIG_SK_LEN; lia).
  assert (blen (pi_kem_pk out) = BM_PQV5_KEM_PK_LEN) by (rewrite Hq, blen_app; unfold BM_PQV5_KEM_PK_LEN; lia).
  assert (blen (pi_kem_sk out) = BM_PQV5_KEM_SK_LEN) by (rewrite Ht, blen_app; unfold BM_PQV5_KEM_SK_LEN; lia).
  rewrite calc_id_eq in Ei by done. apply ok_inj in Ei. rewrite <- Ei, SHA3_256_len. by split_and!.
Qed.

(** The random search stops at the first seed whose id qualifies. *)
Lemma random_search_ok nb sp ss out draws r :
  pi_version out = BM_PQV5_ADDRESS_VERSION ->
  bm_pqv5_sig_keypair_from_seed (sig_seed (pi_seeds out)) = Ok (pi_sig_pk out, pi_sig_sk out) ->
  pi_stream out = sp -> sig_seed (pi_seeds out) = ss ->
  random_search nb out draws = Ok (Some r) ->
  made_from_seeds r /\ pi_stream r = sp /\ sig_seed (pi_seeds r) = ss /\ kem_seed (pi_seeds r) ∈ draws
  /\ take (Z.to_nat nb) (pi_id r) = replicate (Z.to_nat nb) 0.
Proof.
  revert out. induction draws as [|d draws IH]; intros out Hv Hk Hsp Hss E; [done|]. cbn [random_search] in E.
  apply bind_ok_inv in E as (o1 & (pk & sk & Ek & ->)%set_kem_keys_ok & E).
  apply bind_ok_inv in E as (o2 & (id & Ei & ->)%set_id_ok & E).
  inv_bind E. destruct a.
  - apply ok_inj in E as [= <-]. apply ripe_has_nulls_true in E0. split_and!; try done. by left.
  - apply IH in E as (? & ? & ? & ? & ?); [|done|done|done|done]. split_and!; try done. by right.
Qed.

Lemma u64_add a b : u64 (u64 a + b) = u64 (a + b).
Proof. unfold u64. by rewrite Zplus_mod_idemp_l. Qed.

(** The turns of the deterministic search. *)
Lemma deterministic_search_first p st nb start k fuel out i :
  (i <= k)%nat -> (k - i < fuel)%nat ->
  (forall j, (i <= j < k)%nat -> exists o,
     try_seeds p st nb (u64 (start + 2 * Z.of_nat j)) (u64 (start + 1 + 2 * Z.of_nat j)) = Ok (o, false)) ->
  try_seeds p st nb (u64 (start + 2 * Z.of_nat k)) (u64 (start + 1 + 2 * Z.of_nat k)) = Ok (out, true) ->
  deterministic_search fuel p st nb (u64 (start + 2 * Z.of_nat i)) (u64 (start + 1 + 2 * Z.of_nat i))
  = Ok (Some (out <| pi_sig_nonce := u64 (start + 2 * Z.of_nat k) |>
                  <| pi_kem_nonce := u64 (start + 1 + 2 * Z.of_nat k) |>)).
Proof.
  revert i. induction fuel as [|fuel IH]; intros i Hi Hf Hno Hyes; [lia|]. cbn [deterministic_search].
  destruct (decide (i = k)) as [->|Hne]; [by rewrite Hyes|].
  destruct (Hno i ltac:(lia)) as [o ->]. cbn [mbind cres_bind].
  rewrite !u64_add. replace (start + 2 * Z.of_nat i + 2) with (start + 2 * Z.of_nat (S i)) by lia.
  replace (start + 1 + 2 * Z.of_nat i + 2) with (start + 1 + 2 * Z.of_nat (S i)) by lia.
  apply IH; [lia|lia| |done]. intros j Hj. apply Hno. lia.
Qed.

Lemma deterministic_search_inv p st nb start fuel out :
  deterministic_search fuel p st nb start (u64 (start + 1)) = Ok (Some out) -> is_u64 start ->
  exists k o, (k < fuel)%nat /\
    try_seeds p st nb (u64 (start + 2 * Z.of_nat k)) (u64 (start + 1 + 2 * Z.of_nat k)) = Ok (o, true)
    /\ out = o <| pi_sig_nonce := u64 (start + 2 * Z.of_nat k) |>
                <| pi_kem_nonce := u64 (start + 1 + 2 * Z.of_nat k) |>
    /\ forall j, (j < k)%nat -> exists o',
       try_seeds p st nb (u64 (start + 2 * Z.of_nat j)) (u64 (start + 1 + 2 * Z.of_nat j)) = Ok (o', false).
Proof.
  intros E Hs. rewrite <- (u64_small start Hs) in E at 1.
  replace (u64 start) with (u64 (start + 2 * Z.of_nat 0)) in E by (f_equal; lia).
  replace (u64 (start + 1)) with (u64 (start + 1 + 2 * Z.of_nat 0)) in E by (f_equal; lia).
  enough (Hex : exists k o, (0 <= k < 0 + fuel)%nat /\
    try_seeds p st nb (u64 (start + 2 * Z.of_nat k)) (u64 (start + 1 + 2 * Z.of_nat k)) = Ok (o, true)
    /\ out = o <| pi_sig_nonce := u64 (start + 2 * Z.of_nat k) |>
                <| pi_kem_nonce := u64 (start + 1 + 2 * Z.of_nat k) |>
    /\ forall j, (0 <= j < k)%nat -> exists o',
       try_seeds p st nb (u64 (start + 2 * Z.of_nat j)) (u64 (start + 1 + 2 * Z.of_nat j)) = Ok (o', false)).
  { destruct Hex as (k & o & Hk & Ht & Ho & Hj). exists k, o. split_and!; [lia|done|done|]. intros j Hjk. apply Hj. lia. }
  clear Hs. revert E. generalize 0%nat as i. induction fuel as [|fuel IH]; intros i E; [done|].
  cbn [deterministic_search] in E. apply bind_ok_inv in E as ([o ok] & Et & E). destruct ok.
  - apply ok_inj in E as [= <-]. exists i, o. split_and!; [lia|lia|done|done|intros; lia].
  - rewrite !u64_add in E. replace (start + 2 * Z.of_nat i + 2) with (start + 2 * Z.of_nat (S i)) in E by lia.
    replace (start + 1 + 2 * Z.of_nat i + 2) with (start + 1 + 2 * Z.of_nat (S i)) in E by lia.
    apply IH in E as (k & o' & Hk & Hy & Ho & Hj). exists k, o'. split_and!; [lia|lia|done|done|].
    intros j Hji. destruct (decide (j = i)) as [->|]; [by exists o|apply Hj; lia].
Qed.
End IdentityLemmas.

(** ** Properties *)

Section AddressV5Props.
Context `{OSL : OpenSSLLaws} `{PQL : PqOpenSSLLaws} `{BNL : BigNumLaws}.

(** The text form of a version 5 address is read back: for any stream and any id, the address
    that [bm_pqv5_address_encode] makes, [bm_pqv5_address_decode] reads as version 5, that
    stream and that id, leading zero bytes of the id included. *)
Theorem bm_pqv5_address_roundtrip (stream : Z) (id : list Z) :
  is_u64 stream -> bytes_ok id -> blen id = BM_PQV5_ID_LEN ->
  exists s, bm_pqv5_address_encode BM_PQV5_ADDRESS_VERSION stream id = Ok s
    /\ bm_pqv5_address_decode s = Ok (BM_PQV5_ADDRESS_VERSION, stream, id).
Proof.
  unfold BM_PQV5_ADDRESS_VERSION, BM_PQV5_ID_LEN. intros Hs Hb Hi. rewrite encode_v5_raw by (done || lia).
  set (p := address_payload 5 stream (drop (count_zeros id) id)). set (sum := take 4 (bm_double_sha512 p)).
  destruct (base58_decode_encode (p ++ sum)) as (b58 & -> & D); [|done|].
  { unfold p, address_payload, sum. assert (is_u64 5) by (unfold is_u64; lia). solve_bytes. }
  exists (cstr "BM-" ++ b58). split; [done|]. apply decode_v5_raw; [done|done|]. fold p sum. rewrite D. f_equal.
Qed.

(** [bm_pqv5_address_decode] is memory safe on every string, and what it accepts is version 5, a
    64-bit stream and an id of 32 bytes, so that it can be printed again. *)
Theorem bm_pqv5_address_decode_sound (address : list Z) :
  safe (bm_pqv5_address_decode address)
  /\ forall version stream id, bm_pqv5_address_decode address = Ok (version, stream, id) ->
       version = BM_PQV5_ADDRESS_VERSION /\ is_u64 stream /\ blen id = BM_PQV5_ID_LEN /\ bytes_ok id.
Proof.
  unfold bm_pqv5_address_decode. pose proof (base58_decode_safe (strip_prefix address)).
  destruct (bm_base58_decode (strip_prefix address)) as [raw| |] eqn:E; [|done|done].
  apply base58_decode_bytes in E as Hb. rewrite bind_ok.
  destruct (Z.ltb_spec (blen raw) (4 + 2)); [done|].
  rewrite !rdn_ok by lia. rewrite !bind_ok. case_match; [done|].
  pose proof (varint_decode_safe raw (blen raw - 4) ltac:(lia)) as S1.
  destruct (bm_varint_decode raw (blen raw - 4)) as [[c v]| |] eqn:E1; [|done|done].
  apply varint_decode_inv in E1 as (Hc & Hc1 & Hc2 & _); [|done]. rewrite bind_ok.
  destruct (Z.eqb_spec v BM_PQV5_ADDRESS_VERSION) as [Hv|]; [|done]. cbn [negb].
  assert (Hd : blen (drop (Z.to_nat c) raw) = blen raw - c) by (apply blen_drop; lia).
  pose proof (varint_decode_safe (drop (Z.to_nat c) raw) (blen raw - 4 - c) ltac:(lia)) as S2.
  destruct (bm_varint_decode (drop (Z.to_nat c) raw) _) as [[c' s]| |] eqn:E2; [|done|done].
  apply varint_decode_inv in E2 as (Hc' & Hc1' & Hc2' & Hs & _); [|auto with bytes]. rewrite bind_ok.
  set (n := blen raw - 4 - (c + c')). rewrite Z.gtb_ltb. destruct (Z.ltb_spec BM_PQV5_ID_LEN n); [done|].
  assert (Hlead : exists b, (if n >? 0 then rd raw (c + c') else Ok 1) = Ok b).
  { rewrite Z.gtb_ltb. destruct (Z.ltb_spec 0 n); [|eauto].
    destruct (rd_in raw (c + c')) as (b & Hr & _); [lia|eauto]. }
  destruct Hlead as [b ->]. rewrite bind_ok. destruct (b =? 0); [done|].
  rewrite rdn_ok, bind_ok by lia. split; [done|]. intros ? ? ? [= <- <- <-].
  unfold BM_PQV5_ID_LEN in *. split_and!; [done|done| |].
  - rewrite blen_app, blen_replicate, blen_slice; lia.
  - apply bytes_ok_app. split; [apply bytes_ok_replicate; unfold is_byte; lia|auto with bytes].
Qed.

(** As for the older versions, the text form is not unique: a '1' behind the prefix changes
    nothing. *)
Lemma bm_pqv5_address_leading_one (b58 : list Z) :
  b58 <> [] -> bm_pqv5_address_decode (cstr "BM-" ++ 49 :: b58) = bm_pqv5_address_decode (cstr "BM-" ++ b58).
Proof. intros. unfold bm_pqv5_address_decode. rewrite !strip_prefix_app. by rewrite base58_decode_leading_one. Qed.

(** An identity is kept as two seeds, and they are enough.  Whichever way it was generated, at
    random or from a pass phrase, [bm_pqv5_identity_from_seeds] with its seeds gives back its
    keys and its id; the id is the hash of the two public keys and starts with the zero bytes
    that were asked for. *)
Theorem pqv5_identity_restored (fuel : nat) (passphrase sig_draw : list Z) (kem_draws : list (list Z))
  (stream start_nonce null_bytes : Z) (out : bm_pqv5_identity) :
  is_u64 start_nonce ->
  bm_pqv5_identity_generate_random stream null_bytes sig_draw kem_draws = Ok (Some out)
  \/ bm_pqv5_identity_generate_deterministic fuel passphrase stream start_nonce null_bytes = Ok (Some out) ->
  bm_pqv5_identity_from_seeds stream (sig_seed (pi_seeds out)) (kem_seed (pi_seeds out))
    = Ok (out <| pi_sig_nonce := 0 |> <| pi_kem_nonce := 0 |>)
  /\ pi_stream out = stream /\ pi_id out = SHA3_256 (pi_sig_pk out ++ pi_kem_pk out)
  /\ take (Z.to_nat null_bytes) (pi_id out) = replicate (Z.to_nat null_bytes) 0.
Proof.
  intros Hs Hgen.
  enough (Hm : made_from_seeds out /\ pi_stream out = stream
               /\ take (Z.to_nat null_bytes) (pi_id out) = replicate (Z.to_nat null_bytes) 0).
  { destruct Hm as (Hm & <- & Hn). split_and!; [by apply made_restores|done|apply (made_parts out Hm)|done]. }
  destruct Hgen as [E|E].
  - unfold bm_pqv5_identity_generate_random in E. case_match; [done|].
    apply bind_ok_inv in E as (o & (pk & sk & Ek & ->)%set_sig_keys_ok & E).
    by apply random_search_ok with (sp := stream) (ss := sig_draw) in E as (? & ? & _ & _ & ?).
  - unfold bm_pqv5_identity_generate_deterministic in E. case_match; [done|].
    apply deterministic_search_inv in E as (k & o & _ & Et & -> & _); [|done]. unfold try_seeds in Et.
    do 4 inv_bind Et. apply ok_inj in Et as [= <- ->].
    apply keys_from_seeds_ok in E1 as (Hm & Hst & _). apply ripe_has_nulls_true in E2. by split_and!.
Qed.

(** The deterministic search returns the first pair of nonces, counted by two from
    [start_nonce], whose keys give an id with the requested zero bytes, after [k + 1] turns. *)
Theorem bm_pqv5_generate_deterministic_first (passphrase : list Z) (stream start_nonce null_bytes : Z)
  (k fuel : nat) (out : bm_pqv5_identity) :
  is_u64 start_nonce -> 0 <= null_bytes <= BM_PQV5_ID_LEN -> (k < fuel)%nat ->
  (forall j, (j < k)%nat -> exists o, try_seeds passphrase stream null_bytes
     (u64 (start_nonce + 2 * Z.of_nat j)) (u64 (start_nonce + 1 + 2 * Z.of_nat j)) = Ok (o, false)) ->
  try_seeds passphrase stream null_bytes
    (u64 (start_nonce + 2 * Z.of_nat k)) (u64 (start_nonce + 1 + 2 * Z.of_nat k)) = Ok (out, true) ->
  bm_pqv5_identity_generate_deterministic fuel passphrase stream start_nonce null_bytes
  = Ok (Some (out <| pi_sig_nonce := u64 (start_nonce + 2 * Z.of_nat k) |>
                  <| pi_kem_nonce := u64 (start_nonce + 1 + 2 * Z.of_nat k) |>)).
Proof.
  intros Hs Hn Hf Hno Hyes. unfold bm_pqv5_identity_generate_deterministic. rewrite Z.gtb_ltb. zdec.
  pose proof (deterministic_search_first passphrase stream null_bytes start_nonce k fuel out 0) as Hd.
  rewrite !Z.add_0_r, (u64_small start_nonce) in Hd by done. apply Hd; [lia|lia|intros j Hj; apply Hno; lia|done].
Qed.

(** An address made after another one, from [bm_pqv5_next_start_nonce], uses nonces of its own
    (as long as they do not pass 2^64). *)
Theorem bm_pqv5_next_start_nonce_fresh (f1 f2 : nat) (passphrase : list Z) (stream start_nonce n1 n2 : Z)
  (first second : bm_pqv5_identity) :
  is_u64 start_nonce -> start_nonce + 2 * Z.of_nat f1 + 2 * Z.of_nat f2 + 2 < 2 ^ 64 ->
  bm_pqv5_identity_generate_deterministic f1 passphrase stream start_nonce n1 = Ok (Some first) ->
  bm_pqv5_identity_generate_deterministic f2 passphrase stream (bm_pqv5_next_start_nonce first) n2 = Ok (Some second) ->
  start_nonce <= pi_sig_nonce first < pi_kem_nonce first
  /\ pi_kem_nonce first < pi_sig_nonce second < pi_kem_nonce second.
Proof.
  intros Hs Hw E1 E2. unfold is_u64 in Hs. unfold bm_pqv5_identity_generate_deterministic in E1, E2.
  case_match; [done|]. case_match; [done|].
  apply deterministic_search_inv in E1 as (k1 & o1 & Hk1 & _ & -> & _); [|done].
  unfold bm_pqv5_next_start_nonce in E2. cbn in E2 |- *. rewrite u64_add in E2.
  apply deterministic_search_inv in E2 as (k2 & o2 & Hk2 & _ & -> & _); [|apply u64_range]. cbn.
  rewrite (u64_small (start_nonce + 1 + 2 * Z.of_nat k1 + 1)) by (unfold is_u64; lia).
  rewrite !u64_small by (unfold is_u64; lia). lia.
Qed.
End AddressV5Props.

(** ** Witnesses *)

#[local] Existing Instance toy_OpenSSL.
#[local] Existing Instance toy_OpenSSLLaws.
#[local] Existing Instance toy_Pq.
#[local] Existing Instance toy_PqLaws.

Definition id_example : list Z := [0; 0; 9] ++ replicate 29 200.

Lemma bm_pqv5_address_roundtrip_witness :
  exists s, bm_pqv5_address_encode 5 1 id_example = Ok s /\ bm_pqv5_address_decode s = Ok (5, 1, id_example).
Proof.
  apply (bm_pqv5_address_roundtrip 1 id_example); [unfold is_u64; lia|by apply (bool_decide_unpack _); vm_compute|done].
Defined.

(** An identity of the model, computed. *)
Definition v5_identity_of (nonce : Z) : bm_pqv5_identity :=
  match bm_pqv5_identity_generate_deterministic 1 (cstr "general"%string) 1 nonce 1 with
  | Ok (Some out) => out
  | _ => new_identity 0 {| sig_seed := []; kem_seed := [] |}
  end.

Lemma pqv5_identity_restored_witness :
  bm_pqv5_identity_from_seeds 1 (sig_seed (pi_seeds (v5_identity_of 0))) (kem_seed (pi_seeds (v5_identity_of 0)))
    = Ok ((v5_identity_of 0) <| pi_sig_nonce := 0 |> <| pi_kem_nonce := 0 |>)
  /\ take 1 (pi_id (v5_identity_of 0)) = [0].
Proof.
  destruct (pqv5_identity_restored 1 (cstr "general"%string) [] [] 1 0 1 (v5_identity_of 0)) as (H1 & _ & _ & H2).
  - unfold is_u64; lia.
  - right. by vm_compute.
  - split; [exact H1|exact H2].
Defined.

Definition v5_tried (nonce : Z) : bm_pqv5_identity :=
  match try_seeds (cstr "general"%string) 1 1 nonce (nonce + 1) with
  | Ok (out, _) => out
  | _ => new_identity 0 {| sig_seed := []; kem_seed := [] |}
  end.

Lemma bm_pqv5_generate_deterministic_first_witness :
  bm_pqv5_identity_generate_deterministic 2 (cstr "general"%string) 1 4 1
  = Ok (Some ((v5_tried 4) <| pi_sig_nonce := 4 |> <| pi_kem_nonce := 5 |>)).
Proof.
  apply (bm_pqv5_generate_deterministic_first (cstr "general"%string) 1 4 1 0 2 (v5_tried 4));
    [unfold is_u64; lia|unfold BM_PQV5_ID_LEN; lia|lia|intros; lia|vm_compute; reflexivity].
Defined.

Lemma bm_pqv5_next_start_nonce_fresh_witness :
  pi_kem_nonce (v5_identity_of 0) < pi_sig_nonce (v5_identity_of 2).
Proof.
  destruct (bm_pqv5_next_start_nonce_fresh 1 1 (cstr "general"%string) 1 0 1 1 (v5_identity_of 0) (v5_identity_of 2))
    as (_ & H & _); [unfold is_u64; lia|lia|by vm_compute|by vm_compute|exact H].
Defined.
