(* ===== verification/PqObject.v ===== *)
(** * Post-quantum objects (pq/pq_object.c)

    The objects of version 5 identities: getpubkey and pubkey (object version 5), msg
    (object version 2) and broadcast (object version 6), each a plain header, a tag where
    the object has one, and a sealed body that ends in a signature.

    The bounded writer and reader are records with the block, the position, the end and the
    error flag.  Random bytes are arguments, lengths are below 2^31 (the largest object of
    the network has 2^18 bytes).  Freeing and clearing of memory are not represented. *)

From stdpp Require Import base tactics list numbers option.
From S2P Require Import Prelude Varint Base58 Openssl Hash Address PqHybrid AddressV5.

#[local] Arguments be_split : simpl never.

Definition PQ_OBJECT_GETPUBKEY : Z := 0.
Definition PQ_OBJECT_PUBKEY : Z := 1.
Definition PQ_OBJECT_MSG : Z := 2.
Definition PQ_OBJECT_BROADCAST : Z := 3.

Definition BM_PQ_MSG_OBJECT_VERSION : Z := 2.
Definition BM_PQ_PUBKEY_OBJECT_VERSION : Z := 5.
Definition BM_PQ_GETPUBKEY_OBJECT_VERSION : Z := 5.
Definition BM_PQ_BROADCAST_OBJECT_VERSION : Z := 6.

Record bm_pq_sender_info := {
  ps_identity : bm_pqv5_identity;
  ps_bitfield : Z;
  ps_nonce_trials_per_byte : Z;
  ps_payload_length_extra_bytes : Z
}.

Record bm_pq_pubkey_parsed := {
  pp_address_version : Z;
  pp_stream : Z;
  pp_bitfield : Z;
  pp_sig_pk : list Z;
  pp_kem_pk : list Z;
  pp_nonce_trials_per_byte : Z;
  pp_payload_length_extra_bytes : Z
}.

(** [pm_message] and [pm_ack] are the [message_len] and [ack_len] bytes of the two blocks. *)
Record bm_pq_msg_parsed := {
  pm_from_address_version : Z;
  pm_from_stream : Z;
  pm_bitfield : Z;
  pm_from_sig_pk : list Z;
  pm_from_kem_pk : list Z;
  pm_nonce_trials_per_byte : Z;
  pm_payload_length_extra_bytes : Z;
  pm_to_id : list Z;
  pm_from_id : list Z;
  pm_encoding : Z;
  pm_message : list Z;
  pm_ack : list Z
}.

Record bm_pq_broadcast_parsed := {
  pb_from_address_version : Z;
  pb_from_stream : Z;
  pb_bitfield : Z;
  pb_from_sig_pk : list Z;
  pb_from_kem_pk : list Z;
  pb_nonce_trials_per_byte : Z;
  pb_payload_length_extra_bytes : Z;
  pb_from_id : list Z;
  pb_encoding : Z;
  pb_message : list Z
}.

#[export] Instance bm_pq_msg_parsed_eta : RecordEta bm_pq_msg_parsed := fun p =>
  Build_bm_pq_msg_parsed (pm_from_address_version p) (pm_from_stream p) (pm_bitfield p) (pm_from_sig_pk p)
    (pm_from_kem_pk p) (pm_nonce_trials_per_byte p) (pm_payload_length_extra_bytes p) (pm_to_id p)
    (pm_from_id p) (pm_encoding p) (pm_message p) (pm_ack p).
#[export] Instance bm_pq_broadcast_parsed_eta : RecordEta bm_pq_broadcast_parsed := fun p =>
  Build_bm_pq_broadcast_parsed (pb_from_address_version p) (pb_from_stream p) (pb_bitfield p) (pb_from_sig_pk p)
    (pb_from_kem_pk p) (pb_nonce_trials_per_byte p) (pb_payload_length_extra_bytes p) (pb_from_id p)
    (pb_encoding p) (pb_message p).

(** ** The bounded writer *)

Record wbuf := { w_mem : list Z; w_p : Z; w_end : Z; w_overflow : bool }.

Definition w_init (total : Z) : wbuf := {| w_mem := malloc total; w_p := 0; w_end := total; w_overflow := false |}.

Definition w_bytes (w : wbuf) (data : list Z) : cres wbuf :=
  if w_overflow w || (w_end w - w_p w <? blen data)
  then Ok {| w_mem := w_mem w; w_p := w_p w; w_end := w_end w; w_overflow := true |}
  else
    mem ← wr (w_mem w) (w_p w) data;
    Ok {| w_mem := mem; w_p := w_p w + blen data; w_end := w_end w; w_overflow := false |}.

Definition w_u32 (w : wbuf) (v : Z) : cres wbuf :=
  w_bytes w [u8 (Z.shiftr v 24); u8 (Z.shiftr v 16); u8 (Z.shiftr v 8); u8 v].

(** [for (i = 0; i < 8; i++) b[i] = (unsigned char)(v >> (56 - 8 * i));] *)
Definition w_u64 (w : wbuf) (v : Z) : cres wbuf :=
  w_bytes w (map (fun i => u8 (Z.shiftr v (56 - 8 * i))) [0; 1; 2; 3; 4; 5; 6; 7]).

Definition w_varint (w : wbuf) (v : Z) : cres wbuf :=
  let n := bm_varint_size v in
  b ← bm_varint_encode (Some (malloc 9, 0)) v;
  b ← rdn b 0 n;
  w_bytes w b.

Definition w_object_header (w : wbuf) (expires_time object_type object_version stream : Z) : cres wbuf :=
  w ← w_u64 w expires_time;
  w ← w_u32 w object_type;
  w ← w_varint w object_version;
  w_varint w stream.

Definition object_header_size (object_version stream : Z) : Z :=
  8 + 4 + bm_varint_size object_version + bm_varint_size stream.

(** ** The bounded reader *)

Record rbuf := { r_mem : list Z; r_p : Z; r_end : Z; r_error : bool }.

Definition r_init (mem : list Z) (p len : Z) : rbuf := {| r_mem := mem; r_p := p; r_end := len; r_error := false |}.

Definition r_fail (r : rbuf) : rbuf := {| r_mem := r_mem r; r_p := r_p r; r_end := r_end r; r_error := true |}.

Definition r_advance (r : rbuf) (n : Z) : rbuf :=
  {| r_mem := r_mem r; r_p := r_p r + n; r_end := r_end r; r_error := r_error r |}.

(** The array [out] after the call, [len] bytes long; unchanged after an error. *)
Definition r_bytes (r : rbuf) (out : list Z) (len : Z) : cres (list Z * rbuf) :=
  if r_error r || (r_end r - r_p r <? len) then Ok (out, r_fail r)
  else b ← rdn (r_mem r) (r_p r) len; Ok (b, r_advance r len).

Definition r_u32 (r : rbuf) : cres (Z * rbuf) :=
  '(b, r) ← r_bytes r (malloc 4) 4;
  if r_error r then Ok (0, r) else
  b0 ← rd b 0; b1 ← rd b 1; b2 ← rd b 2; b3 ← rd b 3;
  Ok (Z.lor (Z.lor (Z.lor (Z.shiftl b0 24) (Z.shiftl b1 16)) (Z.shiftl b2 8)) b3, r).

Definition r_varint (r : rbuf) : cres (Z * rbuf) :=
  if r_error r then Ok (0, r) else
  match bm_varint_decode (drop (Z.to_nat (r_p r)) (r_mem r)) (r_end r - r_p r) with
  | Ok (consumed, v) => Ok (v, r_advance r consumed)
  | Err => Ok (0, r_fail r)
  | Ub => Ub
  end.

(** Plain part and inner part, one after the other. *)
Definition build_signing_message (plain inner : list Z) : cres (list Z) :=
  buf ← wr (malloc (blen plain + blen inner)) 0 plain;
  wr buf (blen plain) inner.

(** Random bytes of an object: for the signature and for the sealing. *)
Record object_random := { or_sign : list Z; or_seal : seal_random }.

Section PqObject.
Context `{PQ : PqOpenSSL} `{OSV : OpenSSLVault}.

Definition bm_pq_build_getpubkey (address_version stream : Z) (id : list Z) (expires_time : Z) : cres (list Z) :=
  let total := object_header_size BM_PQ_GETPUBKEY_OBJECT_VERSION stream + 32 in
  '(_, tag) ← bm_pqv5_derive_secret_and_tag address_version stream id;
  w ← w_object_header (w_init total) expires_time PQ_OBJECT_GETPUBKEY BM_PQ_GETPUBKEY_OBJECT_VERSION stream;
  w ← w_bytes w tag;
  if w_overflow w then Err else Ok (w_mem w).

(** How the three sealed objects end: the signature over the plain part and what [iw] holds is
    appended to [iw], and the whole is sealed behind the plain part, in the block of [w]. *)
Definition sign_and_seal (w iw : wbuf) (plain_len inner_presig_len inner_len total : Z) (sig_sk kem_pk : list Z)
  (rnd : object_random) : cres (list Z) :=
  plain ← rdn (w_mem w) 0 plain_len;
  presig ← rdn (w_mem iw) 0 inner_presig_len;
  signing_msg ← build_signing_message plain presig;
  sig ← bm_pqv5_sign signing_msg sig_sk (or_sign rnd);
  iw ← w_varint iw BM_PQV5_SIG_LEN;
  iw ← w_bytes iw sig;
  if w_overflow iw then Err else
  inner ← rdn (w_mem iw) 0 inner_len;
  '(buf, sealed_len) ← bm_pqv5_seal kem_pk plain inner (w_mem w) plain_len (or_seal rnd);
  if negb (plain_len + sealed_len =? total) then Err else Ok buf.

(** The sender at the start of the sealed part of a msg or broadcast. *)
Definition w_sender (iw : wbuf) (from : bm_pq_sender_info) : cres wbuf :=
  let id := ps_identity from in
  iw ← w_varint iw (pi_version id);
  iw ← w_varint iw (pi_stream id);
  iw ← w_u32 iw (ps_bitfield from);
  iw ← w_bytes iw (pi_sig_pk id);
  iw ← w_bytes iw (pi_kem_pk id);
  iw ← w_varint iw (ps_nonce_trials_per_byte from);
  w_varint iw (ps_payload_length_extra_bytes from).

Definition bm_pq_build_pubkey (from : bm_pq_sender_info) (expires_time : Z) (rnd : object_random) : cres (list Z) :=
  let id := ps_identity from in
  let plain_len := object_header_size BM_PQ_PUBKEY_OBJECT_VERSION (pi_stream id) + 32 in
  let inner_presig_len := 4 + BM_PQV5_SIG_PK_LEN + BM_PQV5_KEM_PK_LEN
                          + bm_varint_size (ps_nonce_trials_per_byte from)
                          + bm_varint_size (ps_payload_length_extra_bytes from) in
  let inner_len := inner_presig_len + bm_varint_size BM_PQV5_SIG_LEN + BM_PQV5_SIG_LEN in
  let total := plain_len + BM_PQV5_SEAL_OVERHEAD + inner_len in
  '(_, tag) ← bm_pqv5_derive_secret_and_tag (pi_version id) (pi_stream id) (pi_id id);
  '(addr_kem_pk, _) ← bm_pqv5_address_kem_keypair (pi_version id) (pi_stream id) (pi_id id);
  w ← w_object_header (w_init total) expires_time PQ_OBJECT_PUBKEY BM_PQ_PUBKEY_OBJECT_VERSION (pi_stream id);
  w ← w_bytes w tag;
  iw ← w_u32 (w_init inner_len) (ps_bitfield from);
  iw ← w_bytes iw (pi_sig_pk id);
  iw ← w_bytes iw (pi_kem_pk id);
  iw ← w_varint iw (ps_nonce_trials_per_byte from);
  iw ← w_varint iw (ps_payload_length_extra_bytes from);
  if w_overflow w || w_overflow iw then Err else
  sign_and_seal w iw plain_len inner_presig_len inner_len total (pi_sig_sk id) addr_kem_pk rnd.

Definition bm_pq_build_msg (from : bm_pq_sender_info) (to_stream : Z) (to_id to_kem_pk : list Z)
  (encoding : Z) (message ack : list Z) (expires_time : Z) (rnd : object_random) : cres (list Z) :=
  let id := ps_identity from in
  let plain_len := object_header_size BM_PQ_MSG_OBJECT_VERSION to_stream in
  let message_len := blen message in
  let ack_len := blen ack in
  let inner_presig_len := bm_varint_size (pi_version id) + bm_varint_size (pi_stream id) + 4
                          + BM_PQV5_SIG_PK_LEN + BM_PQV5_KEM_PK_LEN
                          + bm_varint_size (ps_nonce_trials_per_byte from)
                          + bm_varint_size (ps_payload_length_extra_bytes from)
                          + BM_PQV5_ID_LEN
                          + bm_varint_size encoding
                          + bm_varint_size message_len + message_len
                          + bm_varint_size ack_len + ack_len in
  let inner_len := inner_presig_len + bm_varint_size BM_PQV5_SIG_LEN + BM_PQV5_SIG_LEN in
  let total := plain_len + BM_PQV5_SEAL_OVERHEAD + inner_len in
  w ← w_object_header (w_init total) expires_time PQ_OBJECT_MSG BM_PQ_MSG_OBJECT_VERSION to_stream;
  iw ← w_sender (w_init inner_len) from;
  iw ← w_bytes iw to_id;
  iw ← w_varint iw encoding;
  iw ← w_varint iw message_len;
  iw ← w_bytes iw message;
  iw ← w_varint iw ack_len;
  iw ← (if ack_len >? 0 then w_bytes iw ack else Ok iw);
  if w_overflow w || w_overflow iw || negb (w_p iw =? inner_presig_len) then Err else
  sign_and_seal w iw plain_len inner_presig_len inner_len total (pi_sig_sk id) to_kem_pk rnd.

Definition bm_pq_build_broadcast (from : bm_pq_sender_info) (encoding : Z) (message : list Z)
  (expires_time : Z) (rnd : object_random) : cres (list Z) :=
  let id := ps_identity from in
  let plain_len := object_header_size BM_PQ_BROADCAST_OBJECT_VERSION (pi_stream id) + 32 in
  let message_len := blen message in
  let inner_presig_len := bm_varint_size (pi_version id) + bm_varint_size (pi_stream id) + 4
                          + BM_PQV5_SIG_PK_LEN + BM_PQV5_KEM_PK_LEN
                          + bm_varint_size (ps_nonce_trials_per_byte from)
                          + bm_varint_size (ps_payload_length_extra_bytes from)
                          + bm_varint_size encoding
                          + bm_varint_size message_len + message_len in
  let inner_len := inner_presig_len + bm_varint_size BM_PQV5_SIG_LEN + BM_PQV5_SIG_LEN in
  let total := plain_len + BM_PQV5_SEAL_OVERHEAD + inner_len in
  '(_, tag) ← bm_pqv5_derive_secret_and_tag (pi_version id) (pi_stream id) (pi_id id);
  '(addr_kem_pk, _) ← bm_pqv5_address_kem_keypair (pi_version id) (pi_stream id) (pi_id id);
  w ← w_object_header (w_init total) expires_time PQ_OBJECT_BROADCAST BM_PQ_BROADCAST_OBJECT_VERSION (pi_stream id);
  w ← w_bytes w tag;
  iw ← w_sender (w_init inner_len) from;
  iw ← w_varint iw encoding;
  iw ← w_varint iw message_len;
  iw ← w_bytes iw message;
  if w_overflow w || w_overflow iw then Err else
  sign_and_seal w iw plain_len inner_presig_len inner_len total (pi_sig_sk id) addr_kem_pk rnd.

(** How the three parsers end: the signature behind what [r] has read, checked over the plain
    part and that. *)
Definition read_signature (r : rbuf) (plain sig_pk : list Z) : cres unit :=
  let presig_len := r_p r in
  '(sig_len_field, r) ← r_varint r;
  if r_error r || negb (sig_len_field =? BM_PQV5_SIG_LEN) then Err else
  '(sig, r) ← r_bytes r (malloc BM_PQV5_SIG_LEN) BM_PQV5_SIG_LEN;
  if r_error r then Err else
  presig ← rdn (r_mem r) 0 presig_len;
  signing_msg ← build_signing_message plain presig;
  ok ← bm_pqv5_verify signing_msg sig sig_pk;
  if (ok : bool) then Ok () else Err.

(** The test of a pubkey or broadcast of object version [version] against one candidate address:
    the tag, then opening with the key pair of the address.  The plain part and the inner part. *)
Definition open_tagged (object : list Z) (version address_version stream : Z) (id : list Z)
  : cres (list Z * list Z) :=
  let object_len := blen object in
  if object_len <? 8 then Err else
  let plain_len := object_header_size version stream + 32 in
  if object_len <? 8 + plain_len + BM_PQV5_SEAL_OVERHEAD then Err else
  '(_, expected_tag) ← bm_pqv5_derive_secret_and_tag address_version stream id;
  tag ← rdn object (8 + plain_len - 32) 32;
  if negb (list_eqb tag expected_tag) then Err else
  '(_, addr_kem_sk) ← bm_pqv5_address_kem_keypair address_version stream id;
  let sealed_len := object_len - 8 - plain_len in
  plain ← rdn object 8 plain_len;
  sealed ← rdn object (8 + plain_len) sealed_len;
  inner ← bm_pqv5_open addr_kem_sk plain sealed;
  Ok (plain, inner).

(** What the signature of a pubkey covers, read into [out]. *)
Definition read_pubkey_fields (address_version stream : Z) (r : rbuf) : cres (bm_pq_pubkey_parsed * rbuf) :=
  '(bitfield, r) ← r_u32 r;
  '(sig_pk, r) ← r_bytes r (replicate 1984 0) BM_PQV5_SIG_PK_LEN;
  '(kem_pk, r) ← r_bytes r (replicate 1216 0) BM_PQV5_KEM_PK_LEN;
  '(nonce_trials_per_byte, r) ← r_varint r;
  '(payload_length_extra_bytes, r) ← r_varint r;
  Ok ({| pp_address_version := address_version; pp_stream := stream; pp_bitfield := bitfield;
         pp_sig_pk := sig_pk; pp_kem_pk := kem_pk; pp_nonce_trials_per_byte := nonce_trials_per_byte;
         pp_payload_length_extra_bytes := payload_length_extra_bytes |}, r).

Definition bm_pq_parse_pubkey (object : list Z) (address_version stream : Z) (id : list Z)
  : cres bm_pq_pubkey_parsed :=
  '(plain, inner) ← open_tagged object BM_PQ_PUBKEY_OBJECT_VERSION address_version stream id;
  '(out, r) ← read_pubkey_fields address_version stream (r_init inner 0 (blen inner));
  _ ← read_signature r plain (pp_sig_pk out);
  recomputed_id ← bm_pqv5_calc_id (pp_sig_pk out) (pp_kem_pk out);
  id ← rdn id 0 BM_PQV5_ID_LEN;
  if negb (list_eqb recomputed_id id) then Err else Ok out.

(** A length and that many bytes; the length must fit. *)
Definition r_block (r : rbuf) : cres (list Z * rbuf) :=
  '(len_field, r) ← r_varint r;
  if r_error r || (len_field >? r_end r - r_p r) then Err else
  r_bytes r (malloc len_field) len_field.

(** The sender, as msg and broadcast objects carry it: version, stream, bitfield, the keys and
    the two proof-of-work parameters. *)
Definition read_sender (r : rbuf) : cres (Z * Z * Z * list Z * list Z * Z * Z * rbuf) :=
  '(version, r) ← r_varint r;
  '(stream, r) ← r_varint r;
  '(bitfield, r) ← r_u32 r;
  '(from_sig_pk, r) ← r_bytes r (replicate 1984 0) BM_PQV5_SIG_PK_LEN;
  '(from_kem_pk, r) ← r_bytes r (replicate 1216 0) BM_PQV5_KEM_PK_LEN;
  '(nonce_trials_per_byte, r) ← r_varint r;
  '(payload_length_extra_bytes, r) ← r_varint r;
  Ok (version, stream, bitfield, from_sig_pk, from_kem_pk, nonce_trials_per_byte, payload_length_extra_bytes, r).

(** What the signature of a msg covers; [from_id] is still zero. *)
Definition read_msg_fields (r : rbuf) : cres (bm_pq_msg_parsed * rbuf) :=
  '(version, stream, bitfield, from_sig_pk, from_kem_pk, nonce_trials_per_byte, payload_length_extra_bytes, r)
    ← read_sender r;
  '(to_id, r) ← r_bytes r (replicate 32 0) BM_PQV5_ID_LEN;
  '(encoding, r) ← r_varint r;
  '(message, r) ← r_block r;
  '(ack, r) ← r_block r;
  Ok ({| pm_from_address_version := version; pm_from_stream := stream; pm_bitfield := bitfield;
         pm_from_sig_pk := from_sig_pk; pm_from_kem_pk := from_kem_pk;
         pm_nonce_trials_per_byte := nonce_trials_per_byte;
         pm_payload_length_extra_bytes := payload_length_extra_bytes;
         pm_to_id := to_id; pm_from_id := replicate 32 0; pm_encoding := encoding;
         pm_message := message; pm_ack := ack |}, r).

(** The length of the plain part: up to the stream of the header. *)
Definition msg_plain_len (object : list Z) : cres Z :=
  let r := r_init object (8 + 8 + 4) (blen object) in
  '(version, r) ← r_varint r;
  if negb (version =? BM_PQ_MSG_OBJECT_VERSION) || r_error r then Err else
  '(_, r) ← r_varint r;
  if r_error r then Err else Ok (r_p r - 8).

Definition bm_pq_parse_msg (object kem_sk : list Z) : cres bm_pq_msg_parsed :=
  let object_len := blen object in
  if object_len <? 8 + 12 then Err else
  plain_len ← msg_plain_len object;
  if object_len <? 8 + plain_len + BM_PQV5_SEAL_OVERHEAD then Err else
  let sealed_len := object_len - 8 - plain_len in
  plain ← rdn object 8 plain_len;
  sealed ← rdn object (8 + plain_len) sealed_len;
  inner ← bm_pqv5_open kem_sk plain sealed;
  '(out, r) ← read_msg_fields (r_init inner 0 (blen inner));
  _ ← read_signature r plain (pm_from_sig_pk out);
  from_id ← bm_pqv5_calc_id (pm_from_sig_pk out) (pm_from_kem_pk out);
  Ok (out <| pm_from_id := from_id |>).

(** What the signature of a broadcast covers; [from_id] is still zero. *)
Definition read_broadcast_fields (r : rbuf) : cres (bm_pq_broadcast_parsed * rbuf) :=
  '(version, stream, bitfield, from_sig_pk, from_kem_pk, nonce_trials_per_byte, payload_length_extra_bytes, r)
    ← read_sender r;
  '(encoding, r) ← r_varint r;
  '(message, r) ← r_block r;
  Ok ({| pb_from_address_version := version; pb_from_stream := stream; pb_bitfield := bitfield;
         pb_from_sig_pk := from_sig_pk; pb_from_kem_pk := from_kem_pk;
         pb_nonce_trials_per_byte := nonce_trials_per_byte;
         pb_payload_length_extra_bytes := payload_length_extra_bytes;
         pb_from_id := replicate 32 0; pb_encoding := encoding; pb_message := message |}, r).

Definition bm_pq_parse_broadcast (object : list Z) (address_version stream : Z) (id : list Z)
  : cres bm_pq_broadcast_parsed :=
  '(plain, inner) ← open_tagged object BM_PQ_BROADCAST_OBJECT_VERSION address_version stream id;
  '(out, r) ← read_broadcast_fields (r_init inner 0 (blen inner));
  _ ← read_signature r plain (pb_from_sig_pk out);
  recomputed_id ← bm_pqv5_calc_id (pb_from_sig_pk out) (pb_from_kem_pk out);
  id ← rdn id 0 BM_PQV5_ID_LEN;
  if negb (list_eqb recomputed_id id) then Err else
  Ok (out <| pb_from_id := recomputed_id |>).

End PqObject.

(** ** Lemmas: the writer *)

(** A writer that has written [done] and has [m] cells left. *)
Definition wst (done : list Z) (m : Z) : wbuf :=
  {| w_mem := done ++ malloc m; w_p := blen done; w_end := blen done + m; w_overflow := false |}.

Lemma w_init_wst total : w_init total = wst [] total.
Proof. done. Qed.

Lemma w_bytes_wst done m d :
  blen d <= m -> w_bytes (wst done m) d = Ok (wst (done ++ d) (m - blen d)).
Proof.
  intros Hm. unfold w_bytes, wst. cbn [w_overflow w_end w_p w_mem orb].
  replace (blen done + m - blen done) with m by lia. zdec.
  rewrite wr_malloc, bind_ok by done. do 2 f_equal; rewrite blen_app; lia.
Qed.

Lemma u8_land z : u8 z = Z.land z 255.
Proof. by rewrite land_255_mod. Qed.

Lemma w_u32_wst done m v : 4 <= m -> w_u32 (wst done m) v = Ok (wst (done ++ be_split 4 v) (m - 4)).
Proof.
  intros Hm. unfold w_u32. rewrite w_bytes_wst by (unfold blen; cbn [length]; lia).
  unfold be_split. rewrite !u8_land. cbn [Z.of_nat Z.mul]. by rewrite Z.shiftr_0_r.
Qed.

Lemma w_u64_wst done m v : 8 <= m -> w_u64 (wst done m) v = Ok (wst (done ++ be_split 8 v) (m - 8)).
Proof.
  intros Hm. unfold w_u64. rewrite w_bytes_wst by (unfold blen; cbn [map length]; lia).
  unfold be_split. cbn [map]. by rewrite !u8_land.
Qed.

Lemma w_varint_wst done m v :
  bm_varint_size v <= m -> w_varint (wst done m) v = Ok (wst (done ++ varint_bytes v) (m - bm_varint_size v)).
Proof.
  intros Hm. unfold w_varint. pose proof (bm_varint_size_pos v).
  rewrite varint_encode_malloc_start, bind_ok, rdn_prefix, bind_ok by (rewrite ?blen_varint_bytes; lia).
  by rewrite w_bytes_wst, blen_varint_bytes by (rewrite blen_varint_bytes; lia).
Qed.

Definition header_bytes (expires_time object_type object_version stream : Z) : list Z :=
  be_split 8 expires_time ++ be_split 4 object_type ++ varint_bytes object_version ++ varint_bytes stream.

Lemma blen_header e t v s : blen (header_bytes e t v s) = object_header_size v s.
Proof. unfold header_bytes, object_header_size. rewrite !blen_app, !blen_be_split, !blen_varint_bytes. lia. Qed.

Lemma w_header_wst m e t v s :
  object_header_size v s <= m ->
  w_object_header (wst [] m) e t v s = Ok (wst (header_bytes e t v s) (m - object_header_size v s)).
Proof.
  unfold object_header_size. intros Hm. pose proof (bm_varint_size_pos v). pose proof (bm_varint_size_pos s).
  unfold w_object_header. rewrite w_u64_wst, bind_ok, w_u32_wst, bind_ok by lia.
  rewrite w_varint_wst, bind_ok, w_varint_wst by lia. unfold header_bytes. rewrite <- !app_assoc.
  cbn [app]. do 2 f_equal. lia.
Qed.

(** ** Lemmas: the reader *)

(** A reader that has read [pre] and has [post] before it. *)
Definition rst (pre post : list Z) : rbuf :=
  {| r_mem := pre ++ post; r_p := blen pre; r_end := blen (pre ++ post); r_error := false |}.

Lemma r_init_rst mem : r_init mem 0 (blen mem) = rst [] mem.
Proof. done. Qed.

Lemma r_bytes_rst pre d post out n :
  n = blen d -> r_bytes (rst pre (d ++ post)) out n = Ok (d, rst (pre ++ d) post).
Proof.
  intros ->. unfold r_bytes, rst. cbn [r_error r_end r_p r_mem orb]. rewrite !blen_app.
  pose proof (blen_nonneg post). zdec. rewrite rdn_app_mid, bind_ok by done.
  unfold r_advance. cbn [r_error r_end r_p r_mem]. rewrite <- app_assoc. do 3 f_equal. lia.
Qed.

Lemma r_varint_rst pre v post :
  is_u64 v -> r_varint (rst pre (varint_bytes v ++ post)) = Ok (v, rst (pre ++ varint_bytes v) post).
Proof.
  intros Hv. unfold r_varint, rst. cbn [r_error r_end r_p r_mem]. rewrite drop_app_blen by done.
  pose proof (bm_varint_size_pos v). pose proof (blen_nonneg post).
  rewrite varint_decode_cases by (rewrite ?blen_app, ?blen_varint_bytes; first [done|lia]).
  unfold r_advance. cbn [r_error r_end r_p r_mem]. rewrite !blen_app, !blen_varint_bytes, <- app_assoc.
  do 3 f_equal. lia.
Qed.

Lemma r_u32_rst pre v post :
  is_u32 v -> r_u32 (rst pre (be_split 4 v ++ post)) = Ok (v, rst (pre ++ be_split 4 v) post).
Proof.
  intros Hv. unfold r_u32. rewrite r_bytes_rst, bind_ok by (by rewrite blen_be_split).
  cbn [r_error rst]. pose proof (bytes_ok_be_split 4 v) as Hb. pose proof (be_combine_split 4 v) as Hc.
  destruct (be_split 4 v) as [|b0 [|b1 [|b2 [|b3 [|]]]]] eqn:E;
    try (apply (f_equal length) in E; rewrite length_be_split in E; done).
  repeat (apply bytes_ok_cons in Hb as [? Hb]).
  rewrite (rd_ok _ 0 b0), (rd_ok _ 1 b1), (rd_ok _ 2 b2), (rd_ok _ 3 b3), !bind_ok by done.
  rewrite shift_or_4, Hc by done. rewrite Z.mod_small by exact Hv. done.
Qed.

Lemma r_block_rst pre d post :
  blen d < 2 ^ 31 -> r_block (rst pre (varint_bytes (blen d) ++ d ++ post))
  = Ok (d, rst (pre ++ varint_bytes (blen d) ++ d) post).
Proof.
  intros Hd. unfold r_block. pose proof (blen_nonneg d). pose proof (blen_nonneg post).
  rewrite r_varint_rst, bind_ok by (unfold is_u64; lia).
  replace (r_error _ || _) with false.
  - rewrite r_bytes_rst by done. by rewrite <- app_assoc.
  - unfold rst. cbn [r_error r_end r_p orb]. rewrite !blen_app, blen_varint_bytes. rewrite Z.gtb_ltb. by zdec.
Qed.

Definition sender_bytes (from : bm_pq_sender_info) : list Z :=
  varint_bytes (pi_version (ps_identity from)) ++ varint_bytes (pi_stream (ps_identity from))
  ++ be_split 4 (ps_bitfield from) ++ pi_sig_pk (ps_identity from) ++ pi_kem_pk (ps_identity from)
  ++ varint_bytes (ps_nonce_trials_per_byte from) ++ varint_bytes (ps_payload_length_extra_bytes from).

(** An identity that can send: its keys for signing are a pair, and its id is the hash of its
    public keys.  (The sender does not need its other private key, nor its seeds.) *)
Definition signer `{PqOpenSSL} (id : bm_pqv5_identity) : Prop :=
  pi_version id = BM_PQV5_ADDRESS_VERSION
  /\ (exists seed, bm_pqv5_sig_keypair_from_seed seed = Ok (pi_sig_pk id, pi_sig_sk id))
  /\ blen (pi_kem_pk id) = BM_PQV5_KEM_PK_LEN /\ bm_pqv5_calc_id (pi_sig_pk id) (pi_kem_pk id) = Ok (pi_id id).

(** Parameters that are not part of the identity fit their width. *)
Definition sender_ok `{PqOpenSSL} (from : bm_pq_sender_info) : Prop :=
  signer (ps_identity from) /\ is_u64 (pi_stream (ps_identity from)) /\ is_u32 (ps_bitfield from)
  /\ is_u64 (ps_nonce_trials_per_byte from) /\ is_u64 (ps_payload_length_extra_bytes from).

Section PqObjectLemmas.
Context `{PQL : PqOpenSSLLaws} `{OSVL : OpenSSLVaultLaws}.

Lemma signer_parts id :
  signer id ->
  blen (pi_sig_pk id) = BM_PQV5_SIG_PK_LEN /\ blen (pi_sig_sk id) = BM_PQV5_SIG_SK_LEN
  /\ blen (pi_kem_pk id) = BM_PQV5_KEM_PK_LEN /\ pi_id id = SHA3_256 (pi_sig_pk id ++ pi_kem_pk id)
  /\ blen (pi_id id) = BM_PQV5_ID_LEN.
Proof.
  intros (_ & [seed Es] & Lk & Ei). apply sig_keypair_parts in Es as (? & p1 & s1 & p2 & s2 & Hp & Hs & ? & ? & ? & ? & _).
  assert (blen (pi_sig_pk id) = BM_PQV5_SIG_PK_LEN) by (rewrite Hp, blen_app; unfold BM_PQV5_SIG_PK_LEN; lia).
  assert (blen (pi_sig_sk id) = BM_PQV5_SIG_SK_LEN) by (rewrite Hs, blen_app; unfold BM_PQV5_SIG_SK_LEN; lia).
  rewrite calc_id_eq in Ei by done. apply ok_inj in Ei. rewrite <- Ei, SHA3_256_len. by split_and!.
Qed.

Lemma made_signer id : made_from_seeds id -> signer id.
Proof.
  intros Hm. pose proof (made_parts _ Hm) as (_ & _ & ? & _). destruct Hm as (? & ? & _ & ?). split_and!; eauto.
Qed.

Lemma read_sender_rst pre from post :
  sender_ok from ->
  let id := ps_identity from in
  read_sender (rst pre (sender_bytes from ++ post))
  = Ok (pi_version id, pi_stream id, ps_bitfield from, pi_sig_pk id, pi_kem_pk id,
        ps_nonce_trials_per_byte from, ps_payload_length_extra_bytes from, rst (pre ++ sender_bytes from) post).
Proof.
  intros (Hm & Hs & Hb & Hn & He) id. pose proof (signer_parts _ Hm) as (Hsp & _ & Hkp & _).
  assert (Hv : is_u64 (pi_version id)) by (destruct Hm as (Hv & _); unfold id; rewrite Hv; unfold is_u64, BM_PQV5_ADDRESS_VERSION; lia).
  unfold read_sender, sender_bytes. fold id. rewrite <- !app_assoc.
  rewrite r_varint_rst, bind_ok, r_varint_rst, bind_ok, r_u32_rst, bind_ok by done.
  rewrite r_bytes_rst, bind_ok, r_bytes_rst, bind_ok by done.
  rewrite r_varint_rst, bind_ok, r_varint_rst, bind_ok by done. by rewrite <- !app_assoc.
Qed.

Lemma blen_pq_sender_bytes from :
  sender_ok from ->
  blen (sender_bytes from)
  = bm_varint_size (pi_version (ps_identity from)) + bm_varint_size (pi_stream (ps_identity from)) + 4
    + BM_PQV5_SIG_PK_LEN + BM_PQV5_KEM_PK_LEN + bm_varint_size (ps_nonce_trials_per_byte from)
    + bm_varint_size (ps_payload_length_extra_bytes from).
Proof.
  intros (Hm & _). pose proof (signer_parts _ Hm) as (Hsp & _ & Hkp & _). unfold sender_bytes.
  rewrite !blen_app, !blen_varint_bytes, Hsp, Hkp. rewrite blen_be_split. lia.
Qed.

Lemma w_sender_wst done m from :
  sender_ok from -> blen (sender_bytes from) <= m ->
  w_sender (wst done m) from = Ok (wst (done ++ sender_bytes from) (m - blen (sender_bytes from))).
Proof.
  intros Hok Hm. rewrite (blen_pq_sender_bytes from Hok) in *. destruct Hok as (Hmade & _).
  pose proof (signer_parts _ Hmade) as (Hsp & _ & Hkp & _).
  pose proof (bm_varint_size_pos (pi_version (ps_identity from))).
  pose proof (bm_varint_size_pos (pi_stream (ps_identity from))).
  pose proof (bm_varint_size_pos (ps_nonce_trials_per_byte from)).
  pose proof (bm_varint_size_pos (ps_payload_length_extra_bytes from)).
  unfold BM_PQV5_SIG_PK_LEN, BM_PQV5_KEM_PK_LEN in *. unfold w_sender, sender_bytes.
  rewrite w_varint_wst, bind_ok, w_varint_wst, bind_ok, w_u32_wst, bind_ok by lia.
  rewrite w_bytes_wst, bind_ok, w_bytes_wst, bind_ok by lia.
  rewrite w_varint_wst, bind_ok, w_varint_wst by lia. rewrite Hsp, Hkp, <- !app_assoc. do 2 f_equal. lia.
Qed.

Lemma build_signing_message_eq plain inner : build_signing_message plain inner = Ok (plain ++ inner).
Proof.
  unfold build_signing_message. pose proof (blen_nonneg inner). pose proof (blen_nonneg plain).
  rewrite wr_malloc_start, bind_ok by lia. by rewrite wr_malloc_last by lia.
Qed.

(** The signature field of an object. *)
Definition signature_bytes (sig : list Z) : list Z := varint_bytes BM_PQV5_SIG_LEN ++ sig.

Lemma read_signature_rst presig sig post plain sig_pk :
  blen sig = BM_PQV5_SIG_LEN ->
  read_signature (rst presig (signature_bytes sig ++ post)) plain sig_pk
  = (ok ← bm_pqv5_verify (plain ++ presig) sig sig_pk; if (ok : bool) then Ok () else Err).
Proof.
  intros Hs. unfold read_signature, signature_bytes. rewrite <- app_assoc.
  rewrite r_varint_rst, bind_ok by (unfold is_u64, BM_PQV5_SIG_LEN; lia).
  rewrite Z.eqb_refl. cbn [r_error rst orb negb].
  rewrite r_bytes_rst, bind_ok by done. cbn [r_error rst r_mem r_p]. rewrite <- !app_assoc.
  rewrite rdn_prefix, bind_ok by done. by rewrite build_signing_message_eq, bind_ok.
Qed.

(** What the last steps of a builder make of a filled header and inner part. *)
Lemma sign_and_seal_wst plain presig sig_seed sig_pk sig_sk kem_seed kem_pk kem_sk total rnd object :
  bm_pqv5_sig_keypair_from_seed sig_seed = Ok (sig_pk, sig_sk) ->
  bm_pqv5_kem_keypair_from_seed kem_seed = Ok (kem_pk, kem_sk) -> mlkem_agrees kem_pk kem_sk (or_seal rnd) ->
  sign_and_seal (wst plain (BM_PQV5_SEAL_OVERHEAD + (blen presig + 3376))) (wst presig 3376)
    (blen plain) (blen presig) (blen presig + 3376) total sig_sk kem_pk rnd = Ok object ->
  exists sealed sig,
    object = plain ++ sealed /\ blen sealed = BM_PQV5_SEAL_OVERHEAD + (blen presig + 3376)
    /\ blen sig = BM_PQV5_SIG_LEN /\ bm_pqv5_verify (plain ++ presig) sig sig_pk = Ok true
    /\ bm_pqv5_open kem_sk plain sealed = Ok (presig ++ signature_bytes sig).
Proof.
  intros Hs Hk Ha E. unfold sign_and_seal in E. cbn [wst w_mem] in E.
  rewrite !rdn_prefix, !bind_ok, build_signing_message_eq, bind_ok in E by done.
  inv_bind E. destruct (hybrid_sign_verify _ _ _ _ _ _ Hs E0) as [Hl Hv].
  pose proof (blen_nonneg presig). rewrite w_varint_wst, bind_ok, w_bytes_wst, bind_ok in E
    by (change (bm_varint_size BM_PQV5_SIG_LEN) with 3; rewrite ?Hl; unfold BM_PQV5_SIG_LEN; lia).
  change (bm_varint_size BM_PQV5_SIG_LEN) with 3 in E. rewrite Hl in E.
  cbn [w_overflow w_mem wst] in E. rewrite (malloc_nil (_ - _ - _)), app_nil_r in E by (unfold BM_PQV5_SIG_LEN; lia).
  set (inner := (presig ++ varint_bytes BM_PQV5_SIG_LEN) ++ a) in E.
  assert (Hil : blen inner = blen presig + 3376).
  { unfold inner. rewrite !blen_app, blen_varint_bytes, Hl. unfold BM_PQV5_SIG_LEN. cbn. lia. }
  rewrite rdn_ok, slice_all, bind_ok in E by lia.
  apply bind_ok_inv in E as ([out n] & E1 & E). rewrite <- Hil in E1 |- *.
  apply seal_open with (seed := kem_seed) (sk := kem_sk) in E1 as (sealed & -> & Hsl & -> & Ho); [|done|done].
  case_match; [done|]. apply ok_inj in E as <-. exists sealed, a. split_and!; try done.
  rewrite Ho. unfold inner, signature_bytes. by rewrite <- app_assoc.
Qed.

(** ** Lemmas: what the builders sign *)

Definition msg_presig (from : bm_pq_sender_info) (to_id : list Z) (encoding : Z) (message ack : list Z) : list Z :=
  sender_bytes from ++ to_id ++ varint_bytes encoding ++ (varint_bytes (blen message) ++ message)
  ++ varint_bytes (blen ack) ++ ack.

Lemma sig_field_len n : n + bm_varint_size BM_PQV5_SIG_LEN + BM_PQV5_SIG_LEN = n + 3376.
Proof. change (bm_varint_size BM_PQV5_SIG_LEN) with 3. unfold BM_PQV5_SIG_LEN. lia. Qed.

(** [write_all]: run a sequence of writes that fit. *)
Ltac write_fits := change BM_PQV5_SEAL_OVERHEAD with 1136; rewrite ?blen_header; lia.
Ltac write_step :=
  first [rewrite w_bytes_wst by write_fits | rewrite w_varint_wst by write_fits | rewrite w_u32_wst by write_fits
        | rewrite w_sender_wst by (done || write_fits) | rewrite w_header_wst by write_fits]; rewrite ?bind_ok.
Ltac write_all := repeat write_step.

Lemma build_msg_wst from to_stream to_id to_kem_pk encoding message ack expires_time rnd
  (plain := header_bytes expires_time PQ_OBJECT_MSG BM_PQ_MSG_OBJECT_VERSION to_stream)
  (presig := msg_presig from to_id encoding message ack) :
  sender_ok from -> blen to_id = BM_PQV5_ID_LEN ->
  bm_pq_build_msg from to_stream to_id to_kem_pk encoding message ack expires_time rnd
  = sign_and_seal (wst plain (BM_PQV5_SEAL_OVERHEAD + (blen presig + 3376))) (wst presig 3376)
      (blen plain) (blen presig) (blen presig + 3376)
      (blen plain + BM_PQV5_SEAL_OVERHEAD + (blen presig + 3376)) (pi_sig_sk (ps_identity from)) to_kem_pk rnd.
Proof.
  intros Hok Hti. pose proof (blen_pq_sender_bytes from Hok) as Hsl.
  assert (Hpl : blen plain = object_header_size BM_PQ_MSG_OBJECT_VERSION to_stream) by apply blen_header.
  assert (Hps : blen presig = blen (sender_bytes from) + BM_PQV5_ID_LEN + bm_varint_size encoding
     + bm_varint_size (blen message) + blen message + bm_varint_size (blen ack) + blen ack).
  { unfold presig, msg_presig. rewrite !blen_app, !blen_varint_bytes, Hti. lia. }
  pose proof (blen_nonneg message). pose proof (blen_nonneg ack). pose proof (blen_nonneg (sender_bytes from)).
  pose proof (bm_varint_size_pos encoding). pose proof (bm_varint_size_pos (blen message)).
  pose proof (bm_varint_size_pos (blen ack)). pose proof (blen_nonneg presig). pose proof (blen_nonneg plain).
  unfold bm_pq_build_msg. rewrite <- Hsl, <- Hpl, <- Hps, !sig_field_len.
  unfold BM_PQV5_ID_LEN in *. rewrite (w_init_wst (_ + (blen presig + 3376))), (w_init_wst (blen presig + 3376)). write_all. rewrite Z.gtb_ltb. cbn [app].
  match goal with |- (?x ≫= _) = _ => replace x with (Ok (wst presig 3376)) end.
  - rewrite bind_ok. cbn [w_overflow wst w_p orb]. rewrite Z.eqb_refl. cbn [negb]. fold plain.
    do 2 f_equal. unfold wst. fold plain. f_equal; f_equal; lia.
  - unfold presig at 1, msg_presig. destruct (Z.ltb_spec 0 (blen ack)).
    + rewrite <- !app_assoc. do 2 f_equal. lia.
    + assert (ack = []) as -> by (destruct ack; [done|rewrite blen_cons in *; pose proof (blen_nonneg ack); lia]).
      rewrite app_nil_r, <- !app_assoc. do 2 f_equal. rewrite blen_nil in *. lia.
Qed.

(** The parsed form of a msg. *)
Definition msg_of (from : bm_pq_sender_info) (to_id : list Z) (encoding : Z) (message ack : list Z)
  : bm_pq_msg_parsed := {|
  pm_from_address_version := pi_version (ps_identity from); pm_from_stream := pi_stream (ps_identity from);
  pm_bitfield := ps_bitfield from; pm_from_sig_pk := pi_sig_pk (ps_identity from);
  pm_from_kem_pk := pi_kem_pk (ps_identity from);
  pm_nonce_trials_per_byte := ps_nonce_trials_per_byte from;
  pm_payload_length_extra_bytes := ps_payload_length_extra_bytes from;
  pm_to_id := to_id; pm_from_id := pi_id (ps_identity from); pm_encoding := encoding;
  pm_message := message; pm_ack := ack |}.

Lemma read_msg_fields_rst from to_id encoding message ack post :
  sender_ok from -> blen to_id = BM_PQV5_ID_LEN -> is_u64 encoding -> blen message < 2 ^ 31 -> blen ack < 2 ^ 31 ->
  read_msg_fields (rst [] (msg_presig from to_id encoding message ack ++ post))
  = Ok ((msg_of from to_id encoding message ack) <| pm_from_id := replicate 32 0 |>,
        rst (msg_presig from to_id encoding message ack) post).
Proof.
  intros Hok Hti He Hm Ha. unfold read_msg_fields, msg_presig. rewrite <- !app_assoc.
  rewrite read_sender_rst, bind_ok by done. rewrite r_bytes_rst, bind_ok, r_varint_rst, bind_ok by done.
  rewrite r_block_rst, bind_ok by done.
  rewrite r_block_rst, bind_ok by done. cbn [app]. by rewrite <- !app_assoc.
Qed.

Lemma msg_plain_len_eq nonce e to_stream rest (plain := header_bytes e PQ_OBJECT_MSG BM_PQ_MSG_OBJECT_VERSION to_stream) :
  blen nonce = 8 -> is_u64 to_stream -> msg_plain_len (nonce ++ plain ++ rest) = Ok (blen plain).
Proof.
  intros Hn Hs. unfold msg_plain_len.
  set (pre := nonce ++ be_split 8 e ++ be_split 4 PQ_OBJECT_MSG).
  assert (Hpre : blen pre = 20) by (unfold pre; rewrite !blen_app, !blen_be_split; lia).
  replace (r_init _ _ _) with (rst pre (varint_bytes BM_PQ_MSG_OBJECT_VERSION ++ varint_bytes to_stream ++ rest)).
  - rewrite r_varint_rst, bind_ok by (unfold is_u64, BM_PQ_MSG_OBJECT_VERSION; lia).
    cbn [r_error rst orb negb Z.eqb BM_PQ_MSG_OBJECT_VERSION Pos.eqb].
    rewrite r_varint_rst, bind_ok by done. cbn [r_error rst r_p]. f_equal.
    rewrite !blen_app, Hpre, !blen_varint_bytes. unfold plain. rewrite blen_header. unfold object_header_size.
    lia.
  - unfold rst, r_init. change (8 + 8 + 4) with 20. rewrite Hpre.
    replace (pre ++ _) with (nonce ++ plain ++ rest); [done|].
    unfold pre, plain, header_bytes. by rewrite <- !app_assoc.
Qed.

(** ** Lemmas: objects with a tag *)

(** The plain part of a pubkey or broadcast. *)
Definition tagged_plain (expires_time object_type object_version : Z) (id : bm_pqv5_identity) : list Z :=
  header_bytes expires_time object_type object_version (pi_stream id)
  ++ v5_tag (pi_version id) (pi_stream id) (pi_id id).

Lemma blen_tagged_plain e t v id : blen (tagged_plain e t v id) = object_header_size v (pi_stream id) + 32.
Proof. unfold tagged_plain. by rewrite blen_app, blen_header, blen_v5_tag. Qed.

Definition pubkey_presig (from : bm_pq_sender_info) : list Z :=
  be_split 4 (ps_bitfield from) ++ pi_sig_pk (ps_identity from) ++ pi_kem_pk (ps_identity from)
  ++ varint_bytes (ps_nonce_trials_per_byte from) ++ varint_bytes (ps_payload_length_extra_bytes from).

Definition broadcast_presig (from : bm_pq_sender_info) (encoding : Z) (message : list Z) : list Z :=
  sender_bytes from ++ varint_bytes encoding ++ varint_bytes (blen message) ++ message.

Lemma build_pubkey_wst from e rnd akpk aksk (id := ps_identity from)
  (plain := tagged_plain e PQ_OBJECT_PUBKEY BM_PQ_PUBKEY_OBJECT_VERSION id) (presig := pubkey_presig from) :
  sender_ok from ->
  bm_pqv5_address_kem_keypair (pi_version id) (pi_stream id) (pi_id id) = Ok (akpk, aksk) ->
  bm_pq_build_pubkey from e rnd
  = sign_and_seal (wst plain (BM_PQV5_SEAL_OVERHEAD + (blen presig + 3376))) (wst presig 3376)
      (blen plain) (blen presig) (blen presig + 3376)
      (blen plain + BM_PQV5_SEAL_OVERHEAD + (blen presig + 3376)) (pi_sig_sk id) akpk rnd.
Proof.
  intros (Hmade & _) Hk. pose proof (signer_parts _ Hmade) as (Hsp & _ & Hkp & _ & Hid). fold id in Hsp, Hkp, Hid.
  assert (Hpl : blen plain = object_header_size BM_PQ_PUBKEY_OBJECT_VERSION (pi_stream id) + 32) by apply blen_tagged_plain.
  assert (Hps : blen presig = 4 + BM_PQV5_SIG_PK_LEN + BM_PQV5_KEM_PK_LEN
    + bm_varint_size (ps_nonce_trials_per_byte from) + bm_varint_size (ps_payload_length_extra_bytes from)).
  { unfold presig, pubkey_presig. fold id. rewrite !blen_app, !blen_varint_bytes, blen_be_split, Hsp, Hkp. lia. }
  pose proof (bm_varint_size_pos (ps_nonce_trials_per_byte from)).
  pose proof (bm_varint_size_pos (ps_payload_length_extra_bytes from)).
  pose proof (blen_nonneg presig). pose proof (blen_nonneg plain).
  pose proof (blen_v5_tag (pi_version id) (pi_stream id) (pi_id id)) as Htag.
  unfold bm_pq_build_pubkey. fold id. rewrite derive_v5_eq, bind_ok, Hk, bind_ok by done.
  rewrite <- Hpl, <- Hps, !sig_field_len. unfold BM_PQV5_SIG_PK_LEN, BM_PQV5_KEM_PK_LEN in *.
  rewrite (w_init_wst (_ + (blen presig + 3376))), (w_init_wst (blen presig + 3376)). write_all.
  cbn [w_overflow wst orb app]. f_equal; [|].
  - unfold wst. fold (tagged_plain e PQ_OBJECT_PUBKEY BM_PQ_PUBKEY_OBJECT_VERSION id). fold plain.
    f_equal; [f_equal; f_equal; lia|lia].
  - unfold presig at 2, pubkey_presig. fold id. rewrite <- !app_assoc. f_equal. lia.
Qed.

Lemma build_broadcast_wst from encoding message e rnd akpk aksk (id := ps_identity from)
  (plain := tagged_plain e PQ_OBJECT_BROADCAST BM_PQ_BROADCAST_OBJECT_VERSION id)
  (presig := broadcast_presig from encoding message) :
  sender_ok from ->
  bm_pqv5_address_kem_keypair (pi_version id) (pi_stream id) (pi_id id) = Ok (akpk, aksk) ->
  bm_pq_build_broadcast from encoding message e rnd
  = sign_and_seal (wst plain (BM_PQV5_SEAL_OVERHEAD + (blen presig + 3376))) (wst presig 3376)
      (blen plain) (blen presig) (blen presig + 3376)
      (blen plain + BM_PQV5_SEAL_OVERHEAD + (blen presig + 3376)) (pi_sig_sk id) akpk rnd.
Proof.
  intros Hok Hk. pose proof Hok as (Hmade & _). pose proof (signer_parts _ Hmade) as (_ & _ & _ & _ & Hid). fold id in Hid.
  pose proof (blen_pq_sender_bytes from Hok) as Hsl.
  assert (Hpl : blen plain = object_header_size BM_PQ_BROADCAST_OBJECT_VERSION (pi_stream id) + 32) by apply blen_tagged_plain.
  assert (Hps : blen presig = blen (sender_bytes from) + bm_varint_size encoding
    + bm_varint_size (blen message) + blen message).
  { unfold presig, broadcast_presig. rewrite !blen_app, !blen_varint_bytes. lia. }
  pose proof (blen_nonneg message). pose proof (blen_nonneg (sender_bytes from)).
  pose proof (bm_varint_size_pos encoding). pose proof (bm_varint_size_pos (blen message)).
  pose proof (blen_nonneg presig). pose proof (blen_nonneg plain).
  pose proof (blen_v5_tag (pi_version id) (pi_stream id) (pi_id id)) as Htag.
  unfold bm_pq_build_broadcast. fold id. rewrite derive_v5_eq, bind_ok, Hk, bind_ok by done.
  fold id in Hsl. rewrite <- Hsl, <- Hpl, <- Hps, !sig_field_len.
  rewrite (w_init_wst (_ + (blen presig + 3376))), (w_init_wst (blen presig + 3376)). write_all.
  cbn [w_overflow wst orb app]. f_equal; [|].
  - unfold wst. fold (tagged_plain e PQ_OBJECT_BROADCAST BM_PQ_BROADCAST_OBJECT_VERSION id). fold plain.
    f_equal; [f_equal; f_equal; lia|lia].
  - unfold presig at 2, broadcast_presig. rewrite <- !app_assoc. f_equal. lia.
Qed.

(** The tag selects the candidate, whose key pair opens the object. *)
Lemma open_tagged_ok nonce e t v id sealed inner akpk aksk (plain := tagged_plain e t v id) :
  blen nonce = 8 -> blen (pi_id id) = BM_PQV5_ID_LEN ->
  bm_pqv5_address_kem_keypair (pi_version id) (pi_stream id) (pi_id id) = Ok (akpk, aksk) ->
  bm_pqv5_open aksk plain sealed = Ok inner ->
  open_tagged (nonce ++ plain ++ sealed) v (pi_version id) (pi_stream id) (pi_id id) = Ok (plain, inner).
Proof.
  intros Hn Hid Hk Ho. pose proof (open_authentic _ _ _ _ Ho) as [Hsl _]. pose proof (blen_nonneg inner).
  assert (Hpl : blen plain = object_header_size v (pi_stream id) + 32) by apply blen_tagged_plain.
  pose proof (blen_v5_tag (pi_version id) (pi_stream id) (pi_id id)) as Htag.
  assert (Hhl : 0 <= object_header_size v (pi_stream id)).
  { unfold object_header_size. pose proof (bm_varint_size_pos v). pose proof (bm_varint_size_pos (pi_stream id)). lia. }
  unfold open_tagged. rewrite <- Hpl, derive_v5_eq, bind_ok by done. change BM_PQV5_SEAL_OVERHEAD with 1136 in *.
  rewrite !blen_app, Hn. zdec.
  assert (Hrt : rdn (nonce ++ plain ++ sealed) (8 + blen plain - 32) 32
                = Ok (v5_tag (pi_version id) (pi_stream id) (pi_id id))).
  { unfold plain, tagged_plain. rewrite <- app_assoc, app_assoc. apply rdn_app_mid; [|done].
    rewrite !blen_app, blen_header. lia. }
  rewrite Hrt, bind_ok, list_eqb_refl, Hk, bind_ok. cbn [negb].
  replace (8 + (blen plain + blen sealed) - 8 - blen plain) with (blen sealed) by lia.
  rewrite (rdn_app_mid nonce plain sealed 8), bind_ok by lia.
  by rewrite app_assoc, rdn_suffix, bind_ok, Ho by (rewrite ?blen_app; lia).
Qed.

Definition pubkey_of (from : bm_pq_sender_info) : bm_pq_pubkey_parsed := {|
  pp_address_version := pi_version (ps_identity from); pp_stream := pi_stream (ps_identity from);
  pp_bitfield := ps_bitfield from; pp_sig_pk := pi_sig_pk (ps_identity from);
  pp_kem_pk := pi_kem_pk (ps_identity from); pp_nonce_trials_per_byte := ps_nonce_trials_per_byte from;
  pp_payload_length_extra_bytes := ps_payload_length_extra_bytes from |}.

Definition broadcast_of (from : bm_pq_sender_info) (encoding : Z) (message : list Z) : bm_pq_broadcast_parsed := {|
  pb_from_address_version := pi_version (ps_identity from); pb_from_stream := pi_stream (ps_identity from);
  pb_bitfield := ps_bitfield from; pb_from_sig_pk := pi_sig_pk (ps_identity from);
  pb_from_kem_pk := pi_kem_pk (ps_identity from);
  pb_nonce_trials_per_byte := ps_nonce_trials_per_byte from;
  pb_payload_length_extra_bytes := ps_payload_length_extra_bytes from;
  pb_from_id := pi_id (ps_identity from); pb_encoding := encoding; pb_message := message |}.

Lemma read_pubkey_fields_rst from post :
  sender_ok from ->
  read_pubkey_fields (pi_version (ps_identity from)) (pi_stream (ps_identity from))
    (rst [] (pubkey_presig from ++ post))
  = Ok (pubkey_of from, rst (pubkey_presig from) post).
Proof.
  intros (Hm & _ & Hb & Hn & He). pose proof (signer_parts _ Hm) as (Hsp & _ & Hkp & _).
  unfold read_pubkey_fields, pubkey_presig. rewrite <- !app_assoc.
  rewrite r_u32_rst, bind_ok, r_bytes_rst, bind_ok, r_bytes_rst, bind_ok by done.
  rewrite r_varint_rst, bind_ok, r_varint_rst, bind_ok by done. cbn [app]. by rewrite <- !app_assoc.
Qed.

Lemma read_broadcast_fields_rst from encoding message post :
  sender_ok from -> is_u64 encoding -> blen message < 2 ^ 31 ->
  read_broadcast_fields (rst [] (broadcast_presig from encoding message ++ post))
  = Ok ((broadcast_of from encoding message) <| pb_from_id := replicate 32 0 |>,
        rst (broadcast_presig from encoding message) post).
Proof.
  intros Hok He Hm. unfold read_broadcast_fields, broadcast_presig. rewrite <- !app_assoc.
  rewrite read_sender_rst, bind_ok by done. rewrite r_varint_rst, bind_ok by done.
  rewrite r_block_rst, bind_ok by done. cbn [app]. by rewrite <- !app_assoc.
Qed.
(** ** Lemmas: reading any bytes *)

Definition rok (r : rbuf) : Prop :=
  0 <= r_p r <= r_end r /\ r_end r = blen (r_mem r) /\ bytes_ok (r_mem r).

(** [r'] is a later state of the reader [r]. *)
Definition later (r r' : rbuf) : Prop := rok r' /\ r_mem r' = r_mem r /\ r_p r <= r_p r'.

Lemma later_trans r r1 r2 : later r r1 -> later r1 r2 -> later r r2.
Proof. intros (_ & H1 & H2) (H3 & H4 & H5). split_and!; [done|congruence|lia]. Qed.

Lemma later_rok r r' : later r r' -> rok r'.
Proof. by intros []. Qed.

Lemma later_refl r : rok r -> later r r.
Proof. intros. by split_and!. Qed.

Ltac later_chain := repeat (eapply later_trans; [eassumption|]); apply later_refl; eauto using later_rok.

Lemma rok_init mem : bytes_ok mem -> rok (r_init mem 0 (blen mem)).
Proof. intros. unfold rok, r_init. cbn. pose proof (blen_nonneg mem). split_and!; first [done|lia]. Qed.

Lemma later_fail r : rok r -> later r (r_fail r).
Proof. intros. by split_and!. Qed.

Lemma r_bytes_any r out n :
  rok r -> 0 <= n -> blen out = n ->
  exists b r', r_bytes r out n = Ok (b, r') /\ blen b = n /\ later r r'.
Proof.
  intros (Hp & He & Hb) Hn Ho. unfold r_bytes. destruct (r_error r || (r_end r - r_p r <? n)) eqn:E.
  - exists out, (r_fail r). by split_and!; [done|done|apply later_fail].
  - apply orb_false_iff in E as [_ E]. apply Z.ltb_ge in E. rewrite rdn_ok, bind_ok by lia.
    eexists _, _. split_and!; [done|apply blen_slice; lia|].
    unfold later, rok, r_advance. cbn. split_and!; first [done|lia].
Qed.

Lemma r_bytes_bytes r out n b r' :
  rok r -> r_bytes r out n = Ok (b, r') -> r_error r' = false -> bytes_ok b.
Proof.
  intros (_ & _ & Hb). unfold r_bytes. destruct (r_error r || (r_end r - r_p r <? n)); [by intros [= <- <-]|].
  intros E He. inv_bind E. apply ok_inj in E as [= <- <-]. apply rdn_ok_inv in E0 as [-> _]. auto with bytes.
Qed.

Lemma r_varint_any r : rok r -> exists v r', r_varint r = Ok (v, r') /\ is_u64 v /\ later r r'.
Proof.
  intros (Hp & He & Hb). unfold r_varint. destruct (r_error r).
  { exists 0, r. split_and!; [done|unfold is_u64; lia|by apply later_refl]. }
  pose proof (blen_drop (r_p r) (r_mem r) ltac:(lia)) as Hd.
  pose proof (varint_decode_safe (drop (Z.to_nat (r_p r)) (r_mem r)) (r_end r - r_p r) ltac:(lia)) as Hs.
  destruct (bm_varint_decode _ _) as [[c v]| |] eqn:E; [| |done].
  2: { exists 0, (r_fail r). split_and!; [done|unfold is_u64; lia|by apply later_fail]. }
  apply varint_decode_inv in E as (Hc & Hc1 & Hc2 & Hv & _); [|auto with bytes].
  eexists _, _. split_and!; [done|done|]. unfold later, rok, r_advance. cbn. split_and!; first [done|lia].
Qed.

Lemma r_u32_any r : rok r -> exists v r', r_u32 r = Ok (v, r') /\ is_u32 v /\ later r r'.
Proof.
  intros Hr. unfold r_u32. destruct (r_bytes_any r (malloc 4) 4 Hr ltac:(lia) (blen_malloc 4 ltac:(lia)))
    as (b & r' & E & Hb & Hl). pose proof (r_bytes_bytes _ _ _ _ _ Hr E) as Hok. rewrite E, bind_ok.
  destruct (r_error r'); [exists 0, r'; split_and!; [done|unfold is_u32; lia|done]|]. specialize (Hok eq_refl).
  assert (Hb4 : length b = 4%nat) by (unfold blen in Hb; lia).
  destruct b as [|b0 [|b1 [|b2 [|b3 [|]]]]]; try done.
  pose proof (be_combine_bound _ Hok) as Hc. repeat (apply bytes_ok_cons in Hok as [? Hok]).
  rewrite (rd_ok _ 0 b0), (rd_ok _ 1 b1), (rd_ok _ 2 b2), (rd_ok _ 3 b3), !bind_ok by done.
  eexists _, r'. split; [reflexivity|]. split; [|done]. by rewrite shift_or_4.
Qed.

Lemma r_block_any r : rok r -> r_block r = Err \/ exists d r', r_block r = Ok (d, r') /\ later r r'.
Proof.
  intros Hr. unfold r_block. destruct (r_varint_any r Hr) as (v & r' & -> & Hv & Hl). rewrite bind_ok.
  case_match; [by left|right]. unfold is_u64 in Hv.
  destruct (r_bytes_any r' (malloc v) v (proj1 Hl) ltac:(lia) (blen_malloc v ltac:(lia))) as (b & r2 & E & _ & Hl2).
  exists b, r2. split; [done|by eapply later_trans].
Qed.

(** [step_any]: one read of a known reader. *)
Ltac step_any :=
  match goal with
  | H : rok ?r |- context [r_varint ?r ≫= _] =>
      let E := fresh "E" in let L := fresh "L" in destruct (r_varint_any r H) as (? & ? & E & ? & L); rewrite E, bind_ok; clear E; pose proof (later_rok _ _ L)
  | H : rok ?r |- context [r_u32 ?r ≫= _] =>
      let E := fresh "E" in let L := fresh "L" in destruct (r_u32_any r H) as (? & ? & E & ? & L); rewrite E, bind_ok; clear E; pose proof (later_rok _ _ L)
  | H : rok ?r |- context [r_bytes ?r ?out ?n ≫= _] =>
      let E := fresh "E" in let L := fresh "L" in
      destruct (r_bytes_any r out n H ltac:(done) ltac:(done)) as (? & ? & E & ? & L); rewrite E, bind_ok; clear E; pose proof (later_rok _ _ L)
  end.

Lemma read_sender_any r :
  rok r -> exists v s bf spk kpk n e r',
    read_sender r = Ok (v, s, bf, spk, kpk, n, e, r')
    /\ (is_u64 v /\ is_u64 s /\ is_u32 bf /\ is_u64 n /\ is_u64 e)
    /\ blen spk = BM_PQV5_SIG_PK_LEN /\ blen kpk = BM_PQV5_KEM_PK_LEN /\ later r r'.
Proof.
  intros Hr. unfold read_sender. repeat step_any. eexists _, _, _, _, _, _, _, _.
  split_and!; [done..|]. later_chain.
Qed.

Definition sender_params_ok (out : bm_pq_msg_parsed) : Prop :=
  is_u64 (pm_from_address_version out) /\ is_u64 (pm_from_stream out) /\ is_u32 (pm_bitfield out)
  /\ is_u64 (pm_nonce_trials_per_byte out) /\ is_u64 (pm_payload_length_extra_bytes out).

Lemma read_msg_fields_any r :
  rok r -> read_msg_fields r = Err \/ exists out r', read_msg_fields r = Ok (out, r')
    /\ blen (pm_from_sig_pk out) = BM_PQV5_SIG_PK_LEN /\ blen (pm_from_kem_pk out) = BM_PQV5_KEM_PK_LEN
    /\ sender_params_ok out /\ later r r'.
Proof.
  intros Hr. unfold read_msg_fields.
  destruct (read_sender_any r Hr) as (v & s & bf & spk & kpk & n & e & r1 & -> & Hu & Hs & Hk & L1).
  rewrite bind_ok. pose proof (later_rok _ _ L1). repeat step_any.
  match goal with H : rok ?r |- context [r_block ?r] => destruct (r_block_any r H) as [->|(d & r2 & -> & L2)] end;
    [by left|]. rewrite bind_ok.
  destruct (r_block_any r2 (later_rok _ _ L2)) as [->|(d' & r3 & -> & L3)]; [by left|]. rewrite bind_ok. right.
  eexists _, _. split_and!; [done|done|done|done|]. later_chain.
Qed.

Lemma read_broadcast_fields_any r :
  rok r -> read_broadcast_fields r = Err \/ exists out r', read_broadcast_fields r = Ok (out, r')
    /\ blen (pb_from_sig_pk out) = BM_PQV5_SIG_PK_LEN /\ blen (pb_from_kem_pk out) = BM_PQV5_KEM_PK_LEN /\ later r r'.
Proof.
  intros Hr. unfold read_broadcast_fields.
  destruct (read_sender_any r Hr) as (v & s & bf & spk & kpk & n & e & r1 & -> & Hu & Hs & Hk & L1).
  rewrite bind_ok. pose proof (later_rok _ _ L1). repeat step_any.
  match goal with H : rok ?r |- context [r_block ?r] => destruct (r_block_any r H) as [->|(d & r2 & -> & L2)] end;
    [by left|]. rewrite bind_ok. right. eexists _, _. split_and!; [done|done|done|]. later_chain.
Qed.

Lemma read_pubkey_fields_any v s r :
  rok r -> exists out r', read_pubkey_fields v s r = Ok (out, r')
    /\ blen (pp_sig_pk out) = BM_PQV5_SIG_PK_LEN /\ blen (pp_kem_pk out) = BM_PQV5_KEM_PK_LEN /\ later r r'
    /\ pp_address_version out = v /\ pp_stream out = s.
Proof.
  intros Hr. unfold read_pubkey_fields. repeat step_any. eexists _, _. split_and!; [done|done|done| |done|done].
  later_chain.
Qed.

(** Both signatures hold over the plain part and over what was read of the inner part. *)
Definition signed_by (sig_pk signed : list Z) : Prop := exists sig,
  ML_DSA_verify ML_DSA_65 (slice sig_pk 0 1952) (slice sig 0 3309) signed = true
  /\ ED25519_verify (slice sig_pk 1952 32) signed (slice sig 3309 64) = true.

Lemma read_signature_any r plain sig_pk :
  rok r -> blen sig_pk = BM_PQV5_SIG_PK_LEN ->
  read_signature r plain sig_pk = Err
  \/ read_signature r plain sig_pk = Ok () /\ signed_by sig_pk (plain ++ take (Z.to_nat (r_p r)) (r_mem r)).
Proof.
  intros Hr Hpk. pose proof Hr as (Hp & He & _). unfold read_signature.
  destruct (r_varint_any r Hr) as (v & r1 & -> & _ & (Hr1 & Hm1 & _)). rewrite bind_ok. case_match; [by left|].
  destruct (r_bytes_any r1 (malloc BM_PQV5_SIG_LEN) BM_PQV5_SIG_LEN Hr1) as (sig & r2 & -> & Hs & Hr2 & Hm2 & _);
    [done|done|]. rewrite bind_ok. destruct (r_error r2); [by left|].
  rewrite Hm2, Hm1, rdn_ok, bind_ok, build_signing_message_eq, bind_ok by lia.
  rewrite verify_spec, bind_ok by lia. destruct (_ && _) eqn:Ev; [|by left]. right. split; [done|].
  apply andb_true_iff in Ev as [E1 E2]. exists sig.
  assert (Hsl : slice (r_mem r) 0 (r_p r) = take (Z.to_nat (r_p r)) (r_mem r)) by (unfold slice; by rewrite drop_0).
  by rewrite Hsl in E1, E2.
Qed.

(** What was opened for a candidate carries its tag and was sealed for its key pair. *)
Definition opened_for (object : list Z) (av s : Z) (id plain inner : list Z) : Prop :=
  exists header sealed akpk aksk,
    plain = header ++ v5_tag av s id /\ object = take 8 object ++ plain ++ sealed
    /\ bm_pqv5_address_kem_keypair av s id = Ok (akpk, aksk) /\ bm_pqv5_open aksk plain sealed = Ok inner.

Lemma address_kem_keypair_any av s id :
  blen id = BM_PQV5_ID_LEN ->
  bm_pqv5_address_kem_keypair av s id = Err
  \/ exists pk sk, bm_pqv5_address_kem_keypair av s id = Ok (pk, sk)
      /\ blen pk = BM_PQV5_KEM_PK_LEN /\ blen sk = BM_PQV5_KEM_SK_LEN.
Proof.
  intros Hid. unfold bm_pqv5_address_kem_keypair. rewrite derive_v5_eq, bind_ok by done.
  pose proof (kem_keypair_not_ub (slice (secret_digest av s id) 0 32)
    ltac:(apply blen_slice; [lia|lia|]; unfold secret_digest; rewrite SHA3_512_len; lia)) as Hn.
  destruct (bm_pqv5_kem_keypair_from_seed _) as [[pk sk]| |] eqn:E; [right|by left|done].
  apply kem_keypair_parts in E as (? & p1 & s1 & p2 & s2 & -> & -> & ? & ? & ? & ? & _).
  exists (p1 ++ p2), (s1 ++ s2). unfold BM_PQV5_KEM_PK_LEN, BM_PQV5_KEM_SK_LEN. rewrite !blen_app. split_and!; [done|lia|lia].
Qed.

Lemma object_three object n :
  0 <= n -> 8 + n <= blen object ->
  object = take 8 object ++ slice object 8 n ++ slice object (8 + n) (blen object - 8 - n).
Proof. intros. symmetry. apply (slice_three object 8 n (blen object - 8 - n)); lia. Qed.

Lemma open_tagged_any object v av s id :
  bytes_ok object -> blen id = BM_PQV5_ID_LEN ->
  open_tagged object v av s id = Err
  \/ exists plain inner, open_tagged object v av s id = Ok (plain, inner) /\ bytes_ok inner
       /\ opened_for object av s id plain inner.
Proof.
  intros Hb Hid. unfold open_tagged. change BM_PQV5_SEAL_OVERHEAD with 1136.
  destruct (Z.ltb_spec (blen object) 8); [by left|].
  assert (Hhl : 0 <= object_header_size v s).
  { unfold object_header_size. pose proof (bm_varint_size_pos v). pose proof (bm_varint_size_pos s). lia. }
  set (hl := object_header_size v s) in *. destruct (Z.ltb_spec (blen object) (8 + (hl + 32) + 1136)); [by left|].
  rewrite derive_v5_eq, bind_ok, (rdn_ok object (8 + (hl + 32) - 32)), bind_ok by (done || lia).
  destruct (list_eqb _ _) eqn:Et; [|by left]. apply list_eqb_eq in Et. cbn [negb].
  destruct (address_kem_keypair_any av s id Hid) as [->|(akpk & aksk & Hk & _ & Hsk)]; [by left|].
  rewrite Hk, bind_ok, !rdn_ok, !bind_ok by lia.
  pose proof (open_not_ub aksk (slice object 8 (hl + 32)) (slice object (8 + (hl + 32)) (blen object - 8 - (hl + 32))) Hsk) as Hn.
  destruct (bm_pqv5_open _ _ _) as [inner| |] eqn:Eo; [right|by left|done]. rewrite bind_ok.
  eexists _, inner. split_and!; [done|eapply open_bytes, Eo; auto with bytes|].
  exists (slice object 8 hl), (slice object (8 + (hl + 32)) (blen object - 8 - (hl + 32))), akpk, aksk.
  split_and!; [|apply object_three; lia|done|done].
  rewrite slice_split by lia. by replace (8 + hl) with (8 + (hl + 32) - 32) by lia; rewrite Et.
Qed.
End PqObjectLemmas.

(** ** Properties *)

Section PqObjectProps.
Context `{PQL : PqOpenSSLLaws} `{OSVL : OpenSSLVaultLaws}.

(** A version 5 message reaches its recipient.  What [bm_pq_build_msg] makes for the key pair of
    a seed, behind any 8 bytes of proof-of-work nonce, [bm_pq_parse_msg] opens with the private
    key of that pair: both signatures hold and every field comes back, the sender's keys,
    parameters and id, the recipient's id, the text and the ack.  (For the draws for which
    ML-KEM decapsulates, see [mlkem_agrees].) *)
Theorem bm_pq_msg_roundtrip (from : bm_pq_sender_info) (to_stream : Z) (to_id kem_seed to_kem_pk to_kem_sk : list Z)
  (encoding : Z) (message ack : list Z) (expires_time : Z) (rnd : object_random) (nonce object : list Z) :
  sender_ok from -> is_u64 to_stream -> blen to_id = BM_PQV5_ID_LEN -> is_u64 encoding ->
  blen message < 2 ^ 31 -> blen ack < 2 ^ 31 -> blen nonce = 8 ->
  bm_pqv5_kem_keypair_from_seed kem_seed = Ok (to_kem_pk, to_kem_sk) ->
  mlkem_agrees to_kem_pk to_kem_sk (or_seal rnd) ->
  bm_pq_build_msg from to_stream to_id to_kem_pk encoding message ack expires_time rnd = Ok object ->
  bm_pq_parse_msg (nonce ++ object) to_kem_sk = Ok (msg_of from to_id encoding message ack).
Proof.
  intros Hok Hts Hti He Hml Hal Hn Hk Hag E. rewrite build_msg_wst in E by done.
  pose proof Hok as (Hmade & _). pose proof Hmade as (_ & [sgseed Hsig] & _ & Hid).
  apply (sign_and_seal_wst _ _ _ _ _ _ _ to_kem_sk _ _ _ Hsig Hk Hag) in E
    as (sealed & sig & -> & Hsl & Hgl & Hv & Ho).
  set (plain := header_bytes _ _ _ _) in *. set (presig := msg_presig _ _ _ _ _) in *.
  unfold bm_pq_parse_msg. pose proof (blen_nonneg presig). change BM_PQV5_SEAL_OVERHEAD with 1136 in *.
  assert (Hpl : 14 <= blen plain).
  { unfold plain. rewrite blen_header. unfold object_header_size. pose proof (bm_varint_size_pos to_stream).
    pose proof (bm_varint_size_pos BM_PQ_MSG_OBJECT_VERSION). lia. }
  rewrite !blen_app, Hn. zdec. 
  pose proof (msg_plain_len_eq nonce expires_time to_stream sealed Hn Hts) as Hpe. fold plain in Hpe.
  rewrite Hpe, bind_ok. zdec.
  replace (8 + (blen plain + blen sealed) - 8 - blen plain) with (blen sealed) by lia.
  rewrite (rdn_app_mid nonce plain sealed 8), bind_ok by lia. rewrite app_assoc, rdn_suffix, bind_ok by (rewrite ?blen_app; lia).
  rewrite Ho, bind_ok, r_init_rst.
  pose proof (read_msg_fields_rst from to_id encoding message ack (signature_bytes sig) Hok Hti He Hml Hal) as Hr.
  fold presig in Hr. rewrite Hr, bind_ok.
  rewrite <- (app_nil_r (signature_bytes sig)). cbn [msg_of pm_from_sig_pk update_field].
  rewrite read_signature_rst by done. cbn. rewrite Hv, bind_ok. cbn. by rewrite Hid, bind_ok.
Qed.

(** A published version 5 key is found by whoever knows the address.  What [bm_pq_build_pubkey]
    makes, [bm_pq_parse_pubkey] accepts for the address of the sender, behind any nonce: the tag
    matches, the key pair of the address opens it, both signatures hold, and the keys and
    parameters come back. *)
Theorem bm_pq_pubkey_roundtrip (from : bm_pq_sender_info) (expires_time : Z) (rnd : object_random)
  (akpk aksk nonce object : list Z) :
  let id := ps_identity from in
  sender_ok from -> blen nonce = 8 ->
  bm_pqv5_address_kem_keypair (pi_version id) (pi_stream id) (pi_id id) = Ok (akpk, aksk) ->
  mlkem_agrees akpk aksk (or_seal rnd) ->
  bm_pq_build_pubkey from expires_time rnd = Ok object ->
  bm_pq_parse_pubkey (nonce ++ object) (pi_version id) (pi_stream id) (pi_id id) = Ok (pubkey_of from).
Proof.
  intros id Hok Hn Hk Hag E. rewrite (build_pubkey_wst from expires_time rnd akpk aksk Hok Hk) in E. fold id in E.
  pose proof Hok as (Hmade & _). pose proof Hmade as (_ & [sgseed Hsig] & _ & Hid). fold id in Hsig, Hid.
  pose proof (signer_parts _ Hmade) as (_ & _ & _ & _ & Hidl). fold id in Hidl.
  unfold bm_pqv5_address_kem_keypair in Hk. rewrite derive_v5_eq, bind_ok in Hk by done.
  apply (sign_and_seal_wst _ _ _ _ _ _ _ aksk _ _ _ Hsig Hk Hag) in E as (sealed & sig & -> & _ & Hgl & Hv & Ho).
  unfold bm_pq_parse_pubkey.
  rewrite (open_tagged_ok nonce _ _ _ id sealed (pubkey_presig from ++ signature_bytes sig) akpk aksk);
    [|done|done|unfold bm_pqv5_address_kem_keypair; by rewrite derive_v5_eq, bind_ok|done].
  pose proof (read_pubkey_fields_rst from (signature_bytes sig) Hok) as Hr. fold id in Hr.
  rewrite bind_ok, r_init_rst, Hr, bind_ok.
  rewrite <- (app_nil_r (signature_bytes sig)), read_signature_rst by done. cbn [pubkey_of pp_sig_pk pp_kem_pk].
  fold id. rewrite Hv, bind_ok, bind_ok, Hid, bind_ok, rdn_ok, slice_all, bind_ok by (unfold BM_PQV5_ID_LEN in *; lia).
  by rewrite list_eqb_refl.
Qed.

(** A version 5 broadcast is read by its subscribers.  What [bm_pq_build_broadcast] makes,
    [bm_pq_parse_broadcast] accepts for the address of the sender, and every field comes back. *)
Theorem bm_pq_broadcast_roundtrip (from : bm_pq_sender_info) (encoding : Z) (message : list Z) (expires_time : Z)
  (rnd : object_random) (akpk aksk nonce object : list Z) :
  let id := ps_identity from in
  sender_ok from -> is_u64 encoding -> blen message < 2 ^ 31 -> blen nonce = 8 ->
  bm_pqv5_address_kem_keypair (pi_version id) (pi_stream id) (pi_id id) = Ok (akpk, aksk) ->
  mlkem_agrees akpk aksk (or_seal rnd) ->
  bm_pq_build_broadcast from encoding message expires_time rnd = Ok object ->
  bm_pq_parse_broadcast (nonce ++ object) (pi_version id) (pi_stream id) (pi_id id)
  = Ok (broadcast_of from encoding message).
Proof.
  intros id Hok He Hml Hn Hk Hag E.
  rewrite (build_broadcast_wst from encoding message expires_time rnd akpk aksk Hok Hk) in E. fold id in E.
  pose proof Hok as (Hmade & _). pose proof Hmade as (_ & [sgseed Hsig] & _ & Hid). fold id in Hsig, Hid.
  pose proof (signer_parts _ Hmade) as (_ & _ & _ & _ & Hidl). fold id in Hidl.
  unfold bm_pqv5_address_kem_keypair in Hk. rewrite derive_v5_eq, bind_ok in Hk by done.
  apply (sign_and_seal_wst _ _ _ _ _ _ _ aksk _ _ _ Hsig Hk Hag) in E as (sealed & sig & -> & _ & Hgl & Hv & Ho).
  unfold bm_pq_parse_broadcast.
  rewrite (open_tagged_ok nonce _ _ _ id sealed (broadcast_presig from encoding message ++ signature_bytes sig) akpk aksk);
    [|done|done|unfold bm_pqv5_address_kem_keypair; by rewrite derive_v5_eq, bind_ok|done].
  rewrite bind_ok, r_init_rst, read_broadcast_fields_rst, bind_ok by done.
  rewrite <- (app_nil_r (signature_bytes sig)). cbn [broadcast_of pb_from_sig_pk pb_from_kem_pk].
  rewrite read_signature_rst by done. cbn. fold id. rewrite Hv, bind_ok, bind_ok, Hid, bind_ok.
  rewrite rdn_ok, slice_all, bind_ok by (unfold BM_PQV5_ID_LEN in *; lia). by rewrite list_eqb_refl.
Qed.

(** What [bm_pq_parse_msg] does with any bytes. *)
Lemma parse_msg_cases (object kem_sk : list Z) :
  bytes_ok object -> blen kem_sk = BM_PQV5_KEM_SK_LEN ->
  bm_pq_parse_msg object kem_sk = Err
  \/ exists plain sealed inner fields r,
       object = take 8 object ++ plain ++ sealed /\ bm_pqv5_open kem_sk plain sealed = Ok inner
       /\ read_msg_fields (r_init inner 0 (blen inner)) = Ok (fields, r)
       /\ signed_by (pm_from_sig_pk fields) (plain ++ take (Z.to_nat (r_p r)) inner)
       /\ blen (pm_from_sig_pk fields) = BM_PQV5_SIG_PK_LEN /\ blen (pm_from_kem_pk fields) = BM_PQV5_KEM_PK_LEN
       /\ sender_params_ok fields
       /\ bm_pq_parse_msg object kem_sk
          = Ok (fields <| pm_from_id := SHA3_256 (pm_from_sig_pk fields ++ pm_from_kem_pk fields) |>).
Proof.
  intros Hb Hsk. unfold bm_pq_parse_msg. change BM_PQV5_SEAL_OVERHEAD with 1136.
  destruct (Z.ltb_spec (blen object) (8 + 12)); [by left|]. unfold msg_plain_len.
  assert (Hr0 : rok (r_init object (8 + 8 + 4) (blen object))) by (unfold rok; cbn [r_p r_end r_mem r_init]; split_and!; first [done|lia]).
  destruct (r_varint_any _ Hr0) as (v & r1 & E1 & _ & L1). rewrite E1, bind_ok. case_match; [by left|].
  destruct (r_varint_any _ (later_rok _ _ L1)) as (v' & r2 & E2 & _ & L2). rewrite E2, bind_ok. case_match; [by left|].
  rewrite bind_ok. pose proof (later_trans _ _ _ L1 L2) as ((Hp2 & He2 & _) & Hm2 & Hle). cbn in Hm2, Hle.
  rewrite Hm2 in He2. set (n := r_p r2 - 8). destruct (Z.ltb_spec (blen object) (8 + n + 1136)); [by left|].
  rewrite !rdn_ok, !bind_ok by lia.
  set (plain := slice object 8 n). set (sealed := slice object (8 + n) (blen object - 8 - n)).
  pose proof (open_not_ub kem_sk plain sealed Hsk) as Hn.
  destruct (bm_pqv5_open kem_sk plain sealed) as [inner| |] eqn:Eo; [|by left|done]. rewrite bind_ok.
  assert (Hbi : bytes_ok inner) by (eapply open_bytes, Eo; unfold sealed; auto with bytes).
  destruct (read_msg_fields_any (r_init inner 0 (blen inner))) as [->|(fields & r & Ef & Hs & Hk & Hu & Hr & Hm & _)];
    [by apply rok_init|by left|]. rewrite Ef, bind_ok.
  destruct (read_signature_any r plain (pm_from_sig_pk fields) Hr Hs) as [->|[-> Hsig]]; [by left|].
  rewrite bind_ok, calc_id_eq, bind_ok by done. right.
  exists plain, sealed, inner, fields, r. rewrite Hm in Hsig. split_and!; [|done..].
  apply object_three; lia.
Qed.

(** A version 5 message is authentic.  [bm_pq_parse_msg] is memory safe on any bytes; and if it
    accepts an object, then the object is a plain header and a body sealed for the given key, the
    sender's ML-DSA and Ed25519 keys both signed that header followed by the part of the opened
    body from which every field of the result was read, and the sender's id is the hash of these
    keys. *)
Theorem bm_pq_parse_msg_authentic (object kem_sk : list Z) :
  bytes_ok object -> blen kem_sk = BM_PQV5_KEM_SK_LEN ->
  safe (bm_pq_parse_msg object kem_sk)
  /\ forall out, bm_pq_parse_msg object kem_sk = Ok out ->
     exists plain sealed inner fields r,
       object = take 8 object ++ plain ++ sealed /\ bm_pqv5_open kem_sk plain sealed = Ok inner
       /\ read_msg_fields (r_init inner 0 (blen inner)) = Ok (fields, r)
       /\ signed_by (pm_from_sig_pk out) (plain ++ take (Z.to_nat (r_p r)) inner)
       /\ out = fields <| pm_from_id := SHA3_256 (pm_from_sig_pk out ++ pm_from_kem_pk out) |>.
Proof.
  intros Hb Hsk. destruct (parse_msg_cases object kem_sk Hb Hsk)
    as [->|(plain & sealed & inner & fields & r & Ho & Hi & Hf & Hs & _ & _ & _ & ->)]; [done|].
  split; [done|]. intros out <-%ok_inj. by exists plain, sealed, inner, fields, r.
Qed.

(** As for messages, a pubkey object that [bm_pq_parse_pubkey] accepts for an address was sealed for
    the key pair of that address under its tag, is signed by both keys it carries, and these
    keys are the ones the address names. *)
Theorem bm_pq_parse_pubkey_authentic (object : list Z) (address_version stream : Z) (id : list Z) :
  bytes_ok object -> blen id = BM_PQV5_ID_LEN ->
  safe (bm_pq_parse_pubkey object address_version stream id)
  /\ forall out, bm_pq_parse_pubkey object address_version stream id = Ok out ->
     SHA3_256 (pp_sig_pk out ++ pp_kem_pk out) = id
     /\ pp_address_version out = address_version /\ pp_stream out = stream
     /\ exists plain inner r, opened_for object address_version stream id plain inner
       /\ read_pubkey_fields address_version stream (r_init inner 0 (blen inner)) = Ok (out, r)
       /\ signed_by (pp_sig_pk out) (plain ++ take (Z.to_nat (r_p r)) inner).
Proof.
  intros Hb Hid. unfold bm_pq_parse_pubkey.
  destruct (open_tagged_any object BM_PQ_PUBKEY_OBJECT_VERSION address_version stream id Hb Hid)
    as [->|(plain & inner & -> & Hbi & Hop)]; [done|]. rewrite bind_ok.
  destruct (read_pubkey_fields_any address_version stream (r_init inner 0 (blen inner)) (rok_init _ Hbi))
    as (out & r & Ef & Hs & Hk & (Hr & Hm & _) & Hv & Hst). rewrite Ef, bind_ok.
  destruct (read_signature_any r plain (pp_sig_pk out) Hr Hs) as [->|[-> Hsig]]; [done|].
  rewrite bind_ok, calc_id_eq, bind_ok, rdn_ok, slice_all, bind_ok by (done || unfold BM_PQV5_ID_LEN in *; lia).
  destruct (list_eqb _ id) eqn:Ei; [|done]. apply list_eqb_eq in Ei. split; [done|]. intros ? <-%ok_inj.
  rewrite Hm in Hsig. split_and!; try done. by exists plain, inner, r.
Qed.

(** The same for a broadcast, which thereby was sent by the subscribed address. *)
Theorem bm_pq_parse_broadcast_authentic (object : list Z) (address_version stream : Z) (id : list Z) :
  bytes_ok object -> blen id = BM_PQV5_ID_LEN ->
  safe (bm_pq_parse_broadcast object address_version stream id)
  /\ forall out, bm_pq_parse_broadcast object address_version stream id = Ok out ->
     SHA3_256 (pb_from_sig_pk out ++ pb_from_kem_pk out) = id /\ pb_from_id out = id
     /\ exists plain inner fields r, opened_for object address_version stream id plain inner
       /\ read_broadcast_fields (r_init inner 0 (blen inner)) = Ok (fields, r)
       /\ out = fields <| pb_from_id := id |>
       /\ signed_by (pb_from_sig_pk out) (plain ++ take (Z.to_nat (r_p r)) inner).
Proof.
  intros Hb Hid. unfold bm_pq_parse_broadcast.
  destruct (open_tagged_any object BM_PQ_BROADCAST_OBJECT_VERSION address_version stream id Hb Hid)
    as [->|(plain & inner & -> & Hbi & Hop)]; [done|]. rewrite bind_ok.
  destruct (read_broadcast_fields_any (r_init inner 0 (blen inner)) (rok_init _ Hbi))
    as [->|(fields & r & Ef & Hs & Hk & Hr & Hm & _)]; [done|]. rewrite Ef, bind_ok.
  destruct (read_signature_any r plain (pb_from_sig_pk fields) Hr Hs) as [->|[-> Hsig]]; [done|].
  rewrite bind_ok, calc_id_eq, bind_ok, rdn_ok, slice_all, bind_ok by (done || unfold BM_PQV5_ID_LEN in *; lia).
  destruct (list_eqb _ id) eqn:Ei; [|done]. apply list_eqb_eq in Ei. split; [done|]. intros ? <-%ok_inj.
  rewrite Hm in Hsig. rewrite Ei. split_and!; try done. by exists plain, inner, fields, r.
Qed.
End PqObjectProps.

(** ** Witnesses *)

#[local] Existing Instance toy_OpenSSL.
#[local] Existing Instance toy_Pq.
#[local] Existing Instance toy_PqLaws.
#[local] Existing Instance toy_vault.
#[local] Existing Instance toy_OpenSSLVaultLaws.

Definition pq_from_example : bm_pq_sender_info := {|
  ps_identity := v5_identity_of 0; ps_bitfield := 1; ps_nonce_trials_per_byte := 1000;
  ps_payload_length_extra_bytes := 1000 |}.

Definition pq_random_example : object_random := {|
  or_sign := replicate 32 9; or_seal := {| sr_eph_sk := replicate 32 3; sr_mlkem := replicate 32 4 |} |}.

Definition pq_nonce_example : list Z := replicate 8 7.

Definition or_nothing (r : cres (list Z)) : list Z := match r with Ok l => l | _ => [] end.

Definition pq_msg_example : list Z :=
  or_nothing (bm_pq_build_msg pq_from_example 1 (pi_id (v5_identity_of 2)) (pi_kem_pk (v5_identity_of 2)) 2
                [72; 105] [1; 2; 3] 5000 pq_random_example).

Definition pq_pubkey_example : list Z := or_nothing (bm_pq_build_pubkey pq_from_example 5000 pq_random_example).

Definition pq_broadcast_example : list Z :=
  or_nothing (bm_pq_build_broadcast pq_from_example 2 [72; 105] 5000 pq_random_example).

(** The key pair of the example's address. *)
Definition or_no_keys (r : cres (list Z * list Z)) : list Z * list Z := match r with Ok p => p | _ => ([], []) end.
Definition pq_address_keys : list Z * list Z :=
  or_no_keys (bm_pqv5_address_kem_keypair 5 1 (pi_id (v5_identity_of 0))).

Lemma v5_identity_made : made_from_seeds (v5_identity_of 0).
Proof. unfold made_from_seeds. repeat apply conj; vm_compute; reflexivity. Qed.

Lemma v5_identity_stream : pi_stream (v5_identity_of 0) = 1.
Proof. vm_compute. reflexivity. Qed.

Lemma pq_from_example_ok : sender_ok pq_from_example.
Proof.
  split; [apply made_signer, v5_identity_made|]. change (ps_identity pq_from_example) with (v5_identity_of 0).
  rewrite v5_identity_stream. unfold is_u64, is_u32, pq_from_example, ps_bitfield, ps_nonce_trials_per_byte,
    ps_payload_length_extra_bytes. lia.
Qed.

Lemma bm_pq_msg_roundtrip_witness :
  bm_pq_parse_msg (pq_nonce_example ++ pq_msg_example) (pi_kem_sk (v5_identity_of 2))
  = Ok (msg_of pq_from_example (pi_id (v5_identity_of 2)) 2 [72; 105] [1; 2; 3]).
Proof.
  apply (bm_pq_msg_roundtrip pq_from_example 1 (pi_id (v5_identity_of 2)) (kem_seed (pi_seeds (v5_identity_of 2)))
    (pi_kem_pk (v5_identity_of 2)) (pi_kem_sk (v5_identity_of 2)) 2 [72; 105] [1; 2; 3] 5000 pq_random_example);
    [apply pq_from_example_ok|unfold is_u64; lia|by vm_compute|unfold is_u64; lia|by vm_compute|by vm_compute|done|
     vm_compute; reflexivity| |vm_compute; reflexivity].
  apply toy_mlkem_agrees. vm_compute. reflexivity.
Defined.

Lemma bm_pq_pubkey_roundtrip_witness :
  bm_pq_parse_pubkey (pq_nonce_example ++ pq_pubkey_example) (pi_version (ps_identity pq_from_example))
    (pi_stream (ps_identity pq_from_example)) (pi_id (ps_identity pq_from_example))
  = Ok (pubkey_of pq_from_example).
Proof.
  refine (bm_pq_pubkey_roundtrip pq_from_example 5000 pq_random_example pq_address_keys.1 pq_address_keys.2 _ _ _ _ _ _ _);
    [apply pq_from_example_ok|done|vm_compute; reflexivity| |vm_compute; reflexivity].
  apply toy_mlkem_agrees. vm_compute. reflexivity.
Defined.

Lemma bm_pq_broadcast_roundtrip_witness :
  bm_pq_parse_broadcast (pq_nonce_example ++ pq_broadcast_example) (pi_version (ps_identity pq_from_example))
    (pi_stream (ps_identity pq_from_example)) (pi_id (ps_identity pq_from_example))
  = Ok (broadcast_of pq_from_example 2 [72; 105]).
Proof.
  refine (bm_pq_broadcast_roundtrip pq_from_example 2 [72; 105] 5000 pq_random_example pq_address_keys.1 pq_address_keys.2 _ _ _ _ _ _ _ _ _);
    [apply pq_from_example_ok|unfold is_u64; lia|done|done|vm_compute; reflexivity| |vm_compute; reflexivity].
  apply toy_mlkem_agrees. vm_compute. reflexivity.
Defined.

(** The sender's keys signed the example. *)
Lemma bm_pq_parse_msg_authentic_witness :
  exists signed, signed_by (pm_from_sig_pk (msg_of pq_from_example (pi_id (v5_identity_of 2)) 2 [72; 105] [1; 2; 3])) signed.
Proof.
  destruct (bm_pq_parse_msg_authentic (pq_nonce_example ++ pq_msg_example) (pi_kem_sk (v5_identity_of 2)))
    as [_ H]; [by apply (bool_decide_unpack _); vm_compute|by vm_compute|].
  destruct (H (msg_of pq_from_example (pi_id (v5_identity_of 2)) 2 [72; 105] [1; 2; 3]))
    as (plain & sealed & inner & fields & r & _ & _ & _ & Hs & _); [vm_compute; reflexivity|].
  eexists. exact Hs.
Defined.

Lemma bm_pq_parse_pubkey_authentic_witness :
  SHA3_256 (pp_sig_pk (pubkey_of pq_from_example) ++ pp_kem_pk (pubkey_of pq_from_example)) = pi_id (v5_identity_of 0).
Proof.
  destruct (bm_pq_parse_pubkey_authentic (pq_nonce_example ++ pq_pubkey_example) 5 1 (pi_id (v5_identity_of 0)))
    as [_ H]; [by apply (bool_decide_unpack _); vm_compute|by vm_compute|].
  destruct (H (pubkey_of pq_from_example)) as (Hid & _); [vm_compute; reflexivity|exact Hid].
Defined.

Lemma bm_pq_parse_broadcast_authentic_witness :
  SHA3_256 (pb_from_sig_pk (broadcast_of pq_from_example 2 [72; 105])
            ++ pb_from_kem_pk (broadcast_of pq_from_example 2 [72; 105])) = pi_id (v5_identity_of 0).
Proof.
  destruct (bm_pq_parse_broadcast_authentic (pq_nonce_example ++ pq_broadcast_example) 5 1 (pi_id (v5_identity_of 0)))
    as [_ H]; [by apply (bool_decide_unpack _); vm_compute|by vm_compute|].
  destruct (H (broadcast_of pq_from_example 2 [72; 105])) as (Hid & _); [vm_compute; reflexivity|exact Hid].
Defined.
