(* ===== verification/Sql.v ===== *)
(** * Tables of the SQLite stores

    The stores of the node keep their state in SQLite tables.  A table with a primary
    key is a finite map from the key to the other columns; a statement on a healthy
    database succeeds, and has the effect its SQL text says: [INSERT OR IGNORE],
    [INSERT .. ON CONFLICT DO UPDATE], [UPDATE .. WHERE], [DELETE .. WHERE] and
    [SELECT .. WHERE .. ORDER BY .. LIMIT] are the functions below.  Without ORDER BY, SQL
    leaves the order of a result open: the order of [map_to_list] stands for it, and no
    theorem depends on it. *)

From stdpp Require Import base tactics numbers gmap sorting list.
From S2P Require Import Prelude.

Section Tables.
Context {K R : Type} `{Countable K}.
Abbreviation table := (gmap K R) (only parsing).

(** INSERT OR IGNORE *)
Definition insert_or_ignore (t : table) (k : K) (r : R) : table :=
  match t !! k with Some _ => t | None => <[k := r]> t end.

(** INSERT .. ON CONFLICT(key) DO UPDATE SET ..; [upd] is the SET clause, applied to the
    old row. *)
Definition upsert (t : table) (k : K) (r : R) (upd : R -> R) : table :=
  match t !! k with Some old => <[k := upd old]> t | None => <[k := r]> t end.

(** UPDATE .. SET .. WHERE .. *)
Definition update_where (t : table) (p : K -> R -> bool) (upd : R -> R) : table :=
  map_imap (fun k r => Some (if p k r then upd r else r)) t.

(** DELETE .. WHERE ..; [sqlite3_changes] is the number of rows that go. *)
Definition delete_where (t : table) (p : K -> R -> bool) : table :=
  filter (fun kr => p kr.1 kr.2 = false) t.

Definition changes_of_delete (t : table) (p : K -> R -> bool) : Z :=
  Z.of_nat (size t - size (delete_where t p)).

(** SELECT .. WHERE .. *)
Definition select_where (t : table) (p : K -> R -> bool) : list (K * R) :=
  filter (fun kr => p kr.1 kr.2 = true) (map_to_list t).

Lemma lookup_insert_or_ignore t k r k' :
  insert_or_ignore t k r !! k' =
    if decide (k' = k) then Some (default r (t !! k)) else t !! k'.
Proof.
  unfold insert_or_ignore. destruct (t !! k) eqn:E; case_decide; subst; simpl.
  - by rewrite E.
  - done.
  - by rewrite lookup_insert_eq.
  - by rewrite lookup_insert_ne.
Qed.

Lemma lookup_upsert t k r upd k' :
  upsert t k r upd !! k' =
    if decide (k' = k) then Some (match t !! k with Some old => upd old | None => r end)
    else t !! k'.
Proof.
  unfold upsert. destruct (t !! k) eqn:E; case_decide; subst; simpl;
    first [by rewrite lookup_insert_eq | by rewrite lookup_insert_ne].
Qed.

Lemma lookup_update_where t p upd k :
  update_where t p upd !! k = (fun r => if p k r then upd r else r) <$> t !! k.
Proof. unfold update_where. rewrite map_lookup_imap. by destruct (t !! k). Qed.

Lemma lookup_delete_where t p k :
  delete_where t p !! k = r ← t !! k; if p k r then None else Some r.
Proof.
  unfold delete_where. destruct (t !! k) as [r|] eqn:E; simpl.
  - destruct (p k r) eqn:Ep.
    + apply map_lookup_filter_None. right. intros r' Hr. simpl. congruence.
    + apply map_lookup_filter_Some. by split.
  - apply map_lookup_filter_None. by left.
Qed.

Lemma elem_of_select_where t p k r :
  (k, r) ∈ select_where t p <-> t !! k = Some r /\ p k r = true.
Proof.
  unfold select_where. rewrite list_elem_of_filter, elem_of_map_to_list. simpl. tauto.
Qed.

Lemma NoDup_select_where t p : NoDup (select_where t p).
Proof. apply list.NoDup_filter, NoDup_map_to_list. Qed.

(** An invariant of the rows is kept by the statements that keep it row by row. *)
Lemma upsert_Forall (P : K -> R -> Prop) t k r upd :
  map_Forall P t -> P k r -> (forall old, P k old -> P k (upd old)) -> map_Forall P (upsert t k r upd).
Proof.
  intros Ht Hr Hu k' r'. rewrite lookup_upsert. case_decide as Hk; [|apply Ht].
  subst k'. intros [= <-]. destruct (t !! k) eqn:E; [|done]. apply Hu. by apply (Ht k).
Qed.

Lemma update_where_Forall (P : K -> R -> Prop) t p upd :
  map_Forall P t -> (forall k old, p k old = true -> P k old -> P k (upd old)) ->
  map_Forall P (update_where t p upd).
Proof.
  intros Ht Hu k r'. rewrite lookup_update_where, fmap_Some. intros (r & Hr & ->).
  apply Ht in Hr. destruct (p k r) eqn:E; auto.
Qed.

Lemma delete_where_Forall (P : K -> R -> Prop) t p :
  map_Forall P t -> map_Forall P (delete_where t p).
Proof.
  intros Ht k r'. rewrite lookup_delete_where, bind_Some. intros (r & Hr & He).
  apply Ht in Hr. destruct (p k r); naive_solver.
Qed.

(** A condition that no row meets, and the empty table. *)
Lemma select_where_empty p : select_where (∅ : table) p = [].
Proof. unfold select_where. by rewrite map_to_list_empty. Qed.
End Tables.

(** ** ORDER BY *)

Section OrderBy.
Context {A : Type} (le : A -> A -> bool).

Fixpoint order_insert (x : A) (l : list A) : list A :=
  match l with
  | [] => [x]
  | y :: l => if le x y then x :: y :: l else y :: order_insert x l
  end.

Fixpoint order_by (l : list A) : list A :=
  match l with [] => [] | x :: l => order_insert x (order_by l) end.

Lemma order_insert_perm x l : order_insert x l ≡ₚ x :: l.
Proof.
  induction l as [|y l IH]; simpl; [done|]. destruct (le x y); [done|].
  rewrite IH. apply perm_swap.
Qed.

Lemma order_by_perm l : order_by l ≡ₚ l.
Proof. induction l as [|x l IH]; simpl; [done|]. by rewrite order_insert_perm, IH. Qed.

(** The result is sorted when the comparison is total on the keys that occur. *)
Lemma order_insert_sorted x l :
  (forall y, y ∈ l -> le x y = true \/ le y x = true) ->
  Sorted (fun a b => le a b = true) l -> Sorted (fun a b => le a b = true) (order_insert x l).
Proof.
  induction l as [|y l IH]; intros Ht Hs; simpl; [by repeat constructor|].
  destruct (le x y) eqn:E; [by constructor; [done|constructor]|].
  apply Sorted_inv in Hs as [Hs Hh]. constructor.
  - apply IH; [|done]. intros z Hz. apply Ht. by right.
  - destruct l as [|z l]; simpl.
    + constructor. destruct (Ht y) as [H|H]; [by left|congruence|done].
    + destruct (le x z); constructor; [|by inversion Hh].
      destruct (Ht y) as [H|H]; [by left|congruence|done].
Qed.

Lemma order_by_sorted l :
  (forall x y, x ∈ l -> y ∈ l -> le x y = true \/ le y x = true) ->
  Sorted (fun a b => le a b = true) (order_by l).
Proof.
  induction l as [|x l IH]; intros Ht; simpl; [constructor|].
  apply order_insert_sorted.
  - intros y Hy. rewrite order_by_perm in Hy. apply Ht; [by left|by right].
  - apply IH. intros y z Hy Hz. apply Ht; by right.
Qed.

(** ORDER BY .. LIMIT n: the result has only rows of the source, at most [n], in order,
    and a row that was left out comes after all of them. *)
Lemma order_by_limit n l :
  (forall x y, x ∈ l -> y ∈ l -> le x y = true \/ le y x = true) ->
  (forall x y z, x ∈ l -> y ∈ l -> z ∈ l -> le x y = true -> le y z = true -> le x z = true) ->
  let r := take n (order_by l) in
  StronglySorted (fun a b => le a b = true) r /\ (length r <= n)%nat
  /\ (forall x, x ∈ r -> x ∈ l)
  /\ (forall x, x ∈ l -> x ∈ r \/ (length r = n /\ forall y, y ∈ r -> le y x = true)).
Proof.
  intros Htot Htr r.
  assert (Hss : StronglySorted (fun a b => le a b = true) (order_by l)).
  { assert (H : Forall (fun x => x ∈ l) (order_by l))
      by (apply Forall_forall; intros x; by rewrite order_by_perm).
    pose proof (order_by_sorted l Htot) as Hs. revert H Hs. generalize (order_by l) as o.
    induction o as [|x o IH]; intros HF Hs; [constructor|]. inv HF. inv Hs.
    specialize (IH ltac:(done) ltac:(done)). constructor; [done|].
    destruct o as [|y o]; [constructor|]. match goal with H : HdRel _ _ _ |- _ => inv H end.
    inv IH. rewrite Forall_forall in *. intros z [->|Hz]%elem_of_cons; [done|].
    apply (Htr x y z); auto; set_solver. }
  assert (Eo : order_by l = r ++ drop n (order_by l)) by (unfold r; by rewrite take_drop).
  rewrite Eo in Hss. split_and!.
  - by apply StronglySorted_app_1_l in Hss.
  - unfold r. rewrite length_take. lia.
  - intros x Hx. rewrite <- order_by_perm, Eo. apply elem_of_app. by left.
  - intros x Hx. rewrite <- order_by_perm, Eo, elem_of_app in Hx.
    destruct Hx as [Hx|Hx]; [by left|right]. split.
    + unfold r. rewrite length_take. destruct (decide (length (order_by l) <= n)%nat) as [Hd|]; [|lia].
      rewrite drop_ge in Hx by done. by apply not_elem_of_nil in Hx.
    + intros y Hy. by apply (StronglySorted_app_1_elem_of _ _ _ _ _ Hss).
Qed.
End OrderBy.

(** ** Columns read back *)

(** [strncpy(dst, text, size - 1)] into a cleared field of [size] bytes. *)
Definition text_field (size : Z) (s : list Z) : list Z := take (Z.to_nat (size - 1)) s.

(** A blob column copied into an array of [n] bytes when it has that size, which was
    cleared before. *)
Definition blob_field (n : Z) (b : list Z) : list Z :=
  if blen b =? n then b else replicate (Z.to_nat n) 0.

(** [strlen]: the bytes before the first NUL. *)
Fixpoint c_string (l : list Z) : list Z :=
  match l with
  | [] => []
  | c :: l => if c =? 0 then [] else c :: c_string l
  end.
