(* ===== verification/ObjectStore.v ===== *)
(** * The object pool (infra/object_store.c)

    Table [objects] of object_pool.db, keyed by the inventory hash. *)

From stdpp Require Import base tactics numbers option gmap list.
From S2P Require Import Prelude Sql.

Record object_row := {
  o_type : Z;
  o_stream : Z;
  o_payload : list Z;
  o_expires : Z;
  o_received : Z;
  o_processed : Z
}.
Abbreviation object_pool := (gmap (list Z) object_row).

Definition bm_object_store_init_schema : object_pool := ∅.

(** The length of the blob is converted to [int]; a negative length is undefined. *)
Definition bm_object_store_insert (db : object_pool) (hash : list Z) (object_type stream : Z)
    (payload : list Z) (expires_time received_time : Z) : cres object_pool :=
  if s32 (blen payload) <? 0 then Ub else
  Ok (insert_or_ignore db hash
        {| o_type := object_type; o_stream := stream; o_payload := payload;
           o_expires := expires_time; o_received := received_time; o_processed := 0 |}).

Definition bm_object_store_has (db : object_pool) (hash : list Z) : bool :=
  match db !! hash with Some _ => true | None => false end.

Definition bm_object_store_get (db : object_pool) (hash : list Z) : cres (list Z) :=
  match db !! hash with Some r => Ok (o_payload r) | None => Err end.

Definition is_expired (now : Z) (_ : list Z) (r : object_row) : bool := o_expires r <? now.

(** The new table and the number of deleted rows. *)
Definition bm_object_store_delete_expired (db : object_pool) (now : Z) : Z * object_pool :=
  (changes_of_delete db (is_expired now), delete_where db (is_expired now)).

(** The loop over the rows of a listing: at most [count] hashes are copied into an array
    of [count] entries, those of 32 bytes. *)
Fixpoint copy_hashes (count : nat) (hashes : list (list Z)) (rows : list (list Z * object_row))
  : list (list Z) :=
  if (length hashes <? count)%nat then
    match rows with
    | [] => hashes
    | (k, _) :: rows =>
        copy_hashes count (if blen k =? 32 then hashes ++ [k] else hashes) rows
    end
  else hashes.

(** The statement that counts and the one that reads are separate: another thread may
    write in between, hence two tables. *)
Definition list_hashes (p : list Z -> object_row -> bool) (db_count db_read : object_pool) : list (list Z) :=
  copy_hashes (length (select_where db_count p)) [] (select_where db_read p).

Definition bm_object_store_list_hashes_by_stream (db_count db_read : object_pool) (stream now : Z)
  : list (list Z) :=
  list_hashes (fun _ r => (o_stream r =? stream) && (now <? o_expires r)) db_count db_read.

Definition bm_object_store_list_hashes_by_type (db_count db_read : object_pool) (object_type : Z)
  : list (list Z) :=
  list_hashes (fun _ r => o_type r =? object_type) db_count db_read.

(** substr(payload, offset + 1, 32) = tag, newest expiry first; rows whose key has not 32
    bytes are skipped. *)
Definition bm_object_store_list_hashes_by_tag (db : object_pool) (object_type tag_offset : Z)
    (tag : list Z) : list (list Z) :=
  filter (fun k => blen k = 32)
    (map fst
       (order_by (fun a b => o_expires b.2 <=? o_expires a.2)
          (select_where db
             (fun _ r => (o_type r =? object_type) && list_eqb (slice (o_payload r) tag_offset 32) tag)))).

(** ** Lemmas *)

Lemma bm_object_store_has_spec db h : bm_object_store_has db h = true <-> is_Some (db !! h).
Proof.
  unfold bm_object_store_has. destruct (db !! h); by split; [|intros [? ?]].
Qed.

Lemma insert_ok db h ty st payload e t :
  blen payload < 2 ^ 31 ->
  bm_object_store_insert db h ty st payload e t
  = Ok (insert_or_ignore db h
          {| o_type := ty; o_stream := st; o_payload := payload; o_expires := e; o_received := t;
             o_processed := 0 |}).
Proof.
  intros Hl. unfold bm_object_store_insert. pose proof (blen_nonneg payload).
  assert (s32 (blen payload) = blen payload) as ->
    by (unfold s32; rewrite Z.mod_small by lia; lia).
  by zdec.
Qed.

Lemma copy_hashes_spec count rows : forall hashes,
  (length hashes <= count)%nat -> Forall (fun kr => blen kr.1 = 32) rows ->
  copy_hashes count hashes rows = hashes ++ map fst (take (count - length hashes) rows).
Proof.
  induction rows as [|[k r] rows IH]; intros hashes Hl Hr; simpl.
  - rewrite take_nil, app_nil_r. by destruct (_ <? _)%nat.
  - inv Hr. simpl in *. destruct (Nat.ltb_spec (length hashes) count).
    + zdec. rewrite IH by (rewrite ?length_app; simpl; auto with lia). rewrite length_app. simpl.
      replace (count - length hashes)%nat with (S (count - (length hashes + 1))) by lia.
      by rewrite <- app_assoc.
    + replace (count - length hashes)%nat with O by lia. by rewrite app_nil_r.
Qed.

(** A listing is a duplicate-free enumeration of the rows that match, when nothing was
    written in between. *)
Lemma list_hashes_exact (p : list Z -> object_row -> bool) (db : object_pool) :
  map_Forall (fun k _ => blen k = 32) db ->
  NoDup (list_hashes p db db) /\
  forall k, k ∈ list_hashes p db db <-> exists r, db !! k = Some r /\ p k r = true.
Proof.
  intros Hk. unfold list_hashes.
  assert (HF : Forall (fun kr => blen kr.1 = 32) (select_where db p)).
  { apply Forall_forall. intros [k r] [Hl _]%elem_of_select_where. by apply (Hk k r). }
  rewrite copy_hashes_spec by (simpl; auto with lia). simpl.
  rewrite Nat.sub_0_r, take_ge by done. split.
  - apply (NoDup_fmap_fst (select_where db p)); [|apply NoDup_select_where].
    intros k r1 r2 [H1 _]%elem_of_select_where [H2 _]%elem_of_select_where. congruence.
  - intros k. rewrite list_elem_of_fmap. split.
    + intros ([k' r] & -> & Hin). apply elem_of_select_where in Hin. by exists r.
    + intros (r & Hr). exists (k, r). split; [done|]. by apply elem_of_select_where.
Qed.

(** Whatever other threads do between the two statements, the array is not overrun. *)
Lemma copy_hashes_length count rows : forall hashes,
  (length hashes <= count)%nat -> (length (copy_hashes count hashes rows) <= count)%nat.
Proof.
  induction rows as [|[k r] rows IH]; intros hashes Hl; simpl;
    destruct (Nat.ltb_spec (length hashes) count); try done.
  apply IH. destruct (_ =? _); [rewrite length_app; simpl; lia|lia].
Qed.
