(* ===== verification/MessagesStore.v ===== *)
(** * Messages, subscriptions and the address book (core/messages_store.c)

    messages.db has four tables, each keyed by its primary key.  A C string is the list
    of its bytes before the NUL; a blob is a list of bytes. *)

From Stdlib Require Import String.
From stdpp Require Import base tactics numbers option gmap list.
From S2P Require Import Prelude Openssl Hash Sql.

Definition BM_RESEND_INITIAL_INTERVAL_SECONDS : Z := 4 * 60 * 60.
Definition BM_RESEND_MAX_ATTEMPTS : Z := 5.
Definition BM_MESSAGES_ADDRESS_MAX : Z := 64.
Definition BM_MESSAGES_FOLDER_MAX : Z := 16.

Definition INBOX : list Z := cstr "inbox"%string.
Definition SENT : list Z := cstr "sent"%string.
Definition TRASH : list Z := cstr "trash"%string.
Definition ACKRECEIVED : list Z := cstr "ackreceived"%string.
Definition MSGSENTNOACKEXPECTED : list Z := cstr "msgsentnoackexpected"%string.

Record inbox_row := {
  ib_to_address : list Z;
  ib_from_address : list Z;
  ib_subject : list Z;
  ib_body : list Z;
  ib_received_time : Z;
  ib_read : Z;
  ib_folder : list Z
}.
Abbreviation inbox := (gmap (list Z) inbox_row).

Record sent_row := {
  s_ack_data : list Z;
  s_to_address : list Z;
  s_from_address : list Z;
  s_subject : list Z;
  s_body : list Z;
  s_status : list Z;
  s_ack_stealth_level : Z;
  s_sent_time : Z;
  s_ttl : Z;
  s_resend_count : Z;
  s_next_resend_time : Z;
  s_folder : list Z
}.

Record subscription_row := { sub_label : list Z; sub_enabled : bool }.

Record messages_db := {
  m_inbox : inbox;
  m_sent : gmap (list Z) sent_row;
  m_address_book : gmap (list Z) (list Z);
  m_subscriptions : gmap (list Z) subscription_row
}.

Definition bm_messages_store_init_schema : messages_db :=
  {| m_inbox := ∅; m_sent := ∅; m_address_book := ∅; m_subscriptions := ∅ |}.

Definition with_inbox (db : messages_db) (t : inbox) : messages_db :=
  {| m_inbox := t; m_sent := m_sent db; m_address_book := m_address_book db;
     m_subscriptions := m_subscriptions db |}.
Definition with_sent (db : messages_db) (t : gmap (list Z) sent_row) : messages_db :=
  {| m_inbox := m_inbox db; m_sent := t; m_address_book := m_address_book db;
     m_subscriptions := m_subscriptions db |}.
Definition with_address_book (db : messages_db) (t : gmap (list Z) (list Z)) : messages_db :=
  {| m_inbox := m_inbox db; m_sent := m_sent db; m_address_book := t;
     m_subscriptions := m_subscriptions db |}.
Definition with_subscriptions (db : messages_db) (t : gmap (list Z) subscription_row) : messages_db :=
  {| m_inbox := m_inbox db; m_sent := m_sent db; m_address_book := m_address_book db;
     m_subscriptions := t |}.

(** ** inbox *)

(** The statement runs on the inbox table only; [strlen] of a null pointer is undefined. *)
Definition bm_messages_store_insert_inbox (db : inbox) (msg_id to_address from_address : list Z)
    (subject body : option (list Z)) (received_time : Z) : cres inbox :=
  match subject, body with
  | Some subject, Some body =>
      Ok (insert_or_ignore db msg_id
            {| ib_to_address := to_address; ib_from_address := from_address;
               ib_subject := c_string subject; ib_body := c_string body;
               ib_received_time := received_time; ib_read := 0; ib_folder := INBOX |})
  | _, _ => Ub
  end.

Record bm_inbox_message := {
  im_msg_id : list Z;
  im_to_address : list Z;
  im_from_address : list Z;
  im_subject : list Z;
  im_body : list Z;
  im_received_time : Z;
  im_read : Z;
  im_folder : list Z
}.

Definition read_inbox_row (kr : list Z * inbox_row) : bm_inbox_message :=
  {| im_msg_id := blob_field 32 kr.1;
     im_to_address := text_field BM_MESSAGES_ADDRESS_MAX (ib_to_address kr.2);
     im_from_address := text_field BM_MESSAGES_ADDRESS_MAX (ib_from_address kr.2);
     im_subject := ib_subject kr.2;
     im_body := ib_body kr.2;
     im_received_time := ib_received_time kr.2;
     im_read := ib_read kr.2;
     im_folder := text_field BM_MESSAGES_FOLDER_MAX (ib_folder kr.2) |}.

Definition bm_messages_store_list_inbox (db : messages_db) (folder_filter : option (list Z))
  : list bm_inbox_message :=
  let rows :=
    select_where (m_inbox db)
      (fun _ r => match folder_filter with None => true | Some f => list_eqb (ib_folder r) f end) in
  map read_inbox_row
    (order_by (fun a b => ib_received_time b.2 <=? ib_received_time a.2) rows).

Definition trash_inbox_row (r : inbox_row) : inbox_row :=
  {| ib_to_address := ib_to_address r; ib_from_address := ib_from_address r;
     ib_subject := ib_subject r; ib_body := ib_body r;
     ib_received_time := ib_received_time r; ib_read := ib_read r; ib_folder := TRASH |}.

Definition bm_messages_store_trash_inbox_message (db : messages_db) (msg_id : list Z) : messages_db :=
  with_inbox db (update_where (m_inbox db) (fun k _ => list_eqb k msg_id) trash_inbox_row).

(** ** sent *)

Definition bm_messages_store_insert_sent (db : messages_db) (msg_id ack_data to_address from_address
    subject body status : list Z) (ack_stealth_level sent_time ttl next_resend_time : Z) : messages_db :=
  with_sent db
    (upsert (m_sent db) msg_id
       {| s_ack_data := ack_data; s_to_address := to_address; s_from_address := from_address;
          s_subject := subject; s_body := body; s_status := status;
          s_ack_stealth_level := ack_stealth_level; s_sent_time := sent_time; s_ttl := ttl;
          s_resend_count := 0; s_next_resend_time := next_resend_time; s_folder := SENT |}
       (fun old =>
          {| s_ack_data := ack_data; s_to_address := s_to_address old;
             s_from_address := s_from_address old; s_subject := s_subject old; s_body := s_body old;
             s_status := status; s_ack_stealth_level := s_ack_stealth_level old;
             s_sent_time := sent_time; s_ttl := ttl; s_resend_count := s_resend_count old + 1;
             s_next_resend_time := next_resend_time; s_folder := s_folder old |})).

Definition set_status (status : list Z) (r : sent_row) : sent_row :=
  {| s_ack_data := s_ack_data r; s_to_address := s_to_address r; s_from_address := s_from_address r;
     s_subject := s_subject r; s_body := s_body r; s_status := status;
     s_ack_stealth_level := s_ack_stealth_level r; s_sent_time := s_sent_time r; s_ttl := s_ttl r;
     s_resend_count := s_resend_count r; s_next_resend_time := s_next_resend_time r;
     s_folder := s_folder r |}.

Section Acks.
Context `{OpenSSL}.

(** The loop over the selected acks: the first whose inventory hash is [received_hash]. *)
Fixpoint find_ack (received_hash : list Z) (rows : list (list Z * sent_row)) : option (list Z) :=
  match rows with
  | [] => None
  | (_, r) :: rows =>
      if blen (s_ack_data r) <=? 0 then find_ack received_hash rows
      else if list_eqb (bm_inventory_hash (s_ack_data r)) received_hash then Some (s_ack_data r)
      else find_ack received_hash rows
  end.

(** The answer says whether an ack was found; the database is returned in both cases. *)
Definition bm_messages_store_try_mark_ack_received (db : messages_db) (received_hash : list Z)
  : bool * messages_db :=
  let rows := select_where (m_sent db) (fun _ r => negb (list_eqb (s_status r) ACKRECEIVED)) in
  match find_ack received_hash rows with
  | Some ack_data =>
      (true, with_sent db (update_where (m_sent db) (fun _ r => list_eqb (s_ack_data r) ack_data)
                             (set_status ACKRECEIVED)))
  | None => (false, db)
  end.
End Acks.

Record bm_sent_resend_candidate := {
  rc_msg_id : list Z;
  rc_to_address : list Z;
  rc_from_address : list Z;
  rc_subject : list Z;
  rc_body : list Z;
  rc_ack_stealth_level : Z;
  rc_ttl : Z;
  rc_resend_count : Z
}.

Definition read_candidate (kr : list Z * sent_row) : bm_sent_resend_candidate :=
  {| rc_msg_id := kr.1;
     rc_to_address := text_field BM_MESSAGES_ADDRESS_MAX (s_to_address kr.2);
     rc_from_address := text_field BM_MESSAGES_ADDRESS_MAX (s_from_address kr.2);
     rc_subject := s_subject kr.2; rc_body := s_body kr.2;
     rc_ack_stealth_level := s_ack_stealth_level kr.2;
     rc_ttl := s_ttl kr.2; rc_resend_count := s_resend_count kr.2 |}.

(** The WHERE clause of the candidates. *)
Definition resend_due (now max_attempts : Z) (r : sent_row) : bool :=
  negb (list_eqb (s_status r) ACKRECEIVED) && negb (list_eqb (s_status r) MSGSENTNOACKEXPECTED)
  && (s_next_resend_time r <=? now) && (s_resend_count r <? max_attempts).

Definition bm_messages_store_list_resend_candidates (db : messages_db) (now max_attempts : Z)
  : list bm_sent_resend_candidate :=
  map read_candidate
    (filter (fun kr => blen kr.1 = 32)
       (select_where (m_sent db) (fun _ r => resend_due now max_attempts r))).

Record bm_sent_message := {
  sm_msg_id : list Z;
  sm_to_address : list Z;
  sm_from_address : list Z;
  sm_subject : list Z;
  sm_body : list Z;
  sm_status : list Z;
  sm_sent_time : Z;
  sm_ttl : Z;
  sm_resend_count : Z
}.

Definition read_sent_row (kr : list Z * sent_row) : bm_sent_message :=
  {| sm_msg_id := blob_field 32 kr.1;
     sm_to_address := text_field BM_MESSAGES_ADDRESS_MAX (s_to_address kr.2);
     sm_from_address := text_field BM_MESSAGES_ADDRESS_MAX (s_from_address kr.2);
     sm_subject := s_subject kr.2; sm_body := s_body kr.2;
     sm_status := text_field 24 (s_status kr.2);
     sm_sent_time := s_sent_time kr.2; sm_ttl := s_ttl kr.2; sm_resend_count := s_resend_count kr.2 |}.

Definition bm_messages_store_list_sent (db : messages_db) : list bm_sent_message :=
  map read_sent_row
    (order_by (fun a b => s_sent_time b.2 <=? s_sent_time a.2)
       (select_where (m_sent db) (fun _ r => list_eqb (s_folder r) SENT))).

Definition trash_sent_row (r : sent_row) : sent_row :=
  {| s_ack_data := s_ack_data r; s_to_address := s_to_address r; s_from_address := s_from_address r;
     s_subject := s_subject r; s_body := s_body r; s_status := s_status r;
     s_ack_stealth_level := s_ack_stealth_level r; s_sent_time := s_sent_time r; s_ttl := s_ttl r;
     s_resend_count := s_resend_count r; s_next_resend_time := s_next_resend_time r;
     s_folder := TRASH |}.

Definition bm_messages_store_trash_sent_message (db : messages_db) (msg_id : list Z) : messages_db :=
  with_sent db (update_where (m_sent db) (fun k _ => list_eqb k msg_id) trash_sent_row).

(** ** subscriptions and the address book *)

Definition bm_messages_store_add_subscription (db : messages_db) (address label : list Z) : messages_db :=
  with_subscriptions db
    (upsert (m_subscriptions db) address {| sub_label := label; sub_enabled := true |}
       (fun _ => {| sub_label := label; sub_enabled := true |})).

Definition bm_messages_store_remove_subscription (db : messages_db) (address : list Z) : messages_db :=
  with_subscriptions db (delete_where (m_subscriptions db) (fun k _ => list_eqb k address)).

(** Addresses and labels. *)
Definition bm_messages_store_list_subscriptions (db : messages_db) : list (list Z * list Z) :=
  map (fun kr => (text_field BM_MESSAGES_ADDRESS_MAX kr.1, text_field 128 (sub_label kr.2)))
    (select_where (m_subscriptions db) (fun _ r => sub_enabled r)).

(** A second entry for an address violates the primary key. *)
Definition bm_messages_store_add_address_book_entry (db : messages_db) (address label : list Z)
  : cres messages_db :=
  match m_address_book db !! address with
  | Some _ => Err
  | None => Ok (with_address_book db (<[address := label]> (m_address_book db)))
  end.

Definition bm_messages_store_remove_address_book_entry (db : messages_db) (address : list Z) : messages_db :=
  with_address_book db (delete_where (m_address_book db) (fun k _ => list_eqb k address)).

Definition bm_messages_store_list_address_book (db : messages_db) : list (list Z * list Z) :=
  map (fun kr => (text_field BM_MESSAGES_ADDRESS_MAX kr.1, text_field 128 kr.2))
    (select_where (m_address_book db) (fun _ _ => true)).

Definition rename_to (new_address : list Z) (r : inbox_row) : inbox_row :=
  {| ib_to_address := new_address; ib_from_address := ib_from_address r; ib_subject := ib_subject r;
     ib_body := ib_body r; ib_received_time := ib_received_time r; ib_read := ib_read r;
     ib_folder := ib_folder r |}.

Definition rename_from (new_address : list Z) (r : sent_row) : sent_row :=
  {| s_ack_data := s_ack_data r; s_to_address := s_to_address r; s_from_address := new_address;
     s_subject := s_subject r; s_body := s_body r; s_status := s_status r;
     s_ack_stealth_level := s_ack_stealth_level r; s_sent_time := s_sent_time r; s_ttl := s_ttl r;
     s_resend_count := s_resend_count r; s_next_resend_time := s_next_resend_time r;
     s_folder := s_folder r |}.

Definition bm_messages_store_rename_own_address (db : messages_db) (old_address new_address : list Z)
  : messages_db :=
  let db := with_inbox db (update_where (m_inbox db)
              (fun _ r => list_eqb (ib_to_address r) old_address) (rename_to new_address)) in
  with_sent db (update_where (m_sent db)
    (fun _ r => list_eqb (s_from_address r) old_address) (rename_from new_address)).

(** ** Lemmas *)

Section StoreLemmas.
Context `{OpenSSL}.

Lemma find_ack_some h rows ack :
  find_ack h rows = Some ack ->
  exists k r, (k, r) ∈ rows /\ s_ack_data r = ack /\ 0 < blen ack /\ bm_inventory_hash ack = h.
Proof.
  induction rows as [|[k r] rows IH]; simpl; [done|].
  assert (Hrec : find_ack h rows = Some ack -> exists k' r', (k', r') ∈ (k, r) :: rows /\
    s_ack_data r' = ack /\ 0 < blen ack /\ bm_inventory_hash ack = h).
  { intros E. destruct (IH E) as (k' & r' & Hin & Hr). exists k', r'. split; [by right|done]. }
  destruct (Z.leb_spec (blen (s_ack_data r)) 0); [done|].
  destruct (list_eqb _ _) eqn:E; [|done]. intros [= <-]. apply list_eqb_eq in E.
  exists k, r. split; [by left|]. auto.
Qed.

Lemma find_ack_none h rows k r :
  find_ack h rows = None -> (k, r) ∈ rows -> 0 < blen (s_ack_data r) ->
  bm_inventory_hash (s_ack_data r) <> h.
Proof.
  induction rows as [|[k' r'] rows IH]; simpl; [by intros _ ?%elem_of_nil|].
  intros E [[= <- <-]|Hin]%elem_of_cons Hlen.
  - destruct (Z.leb_spec (blen (s_ack_data r)) 0); [lia|].
    destruct (list_eqb _ _) eqn:E'; [done|]. intros Hh. rewrite Hh, list_eqb_refl in E'. done.
  - destruct (Z.leb_spec (blen (s_ack_data r')) 0); [by apply IH|].
    destruct (list_eqb _ _); [done|by apply IH].
Qed.

Lemma list_eqb_neq a b : list_eqb a b = false <-> a <> b.
Proof. unfold list_eqb. apply bool_decide_eq_false. Qed.

(** The sent row of [k] after an object has been received. *)
Lemma lookup_mark_ack db h k :
  m_sent (bm_messages_store_try_mark_ack_received db h).2 !! k
  = match find_ack h (select_where (m_sent db) (fun _ r => negb (list_eqb (s_status r) ACKRECEIVED))) with
    | Some ack =>
        (fun r => if list_eqb (s_ack_data r) ack then set_status ACKRECEIVED r else r) <$> m_sent db !! k
    | None => m_sent db !! k
    end.
Proof.
  unfold bm_messages_store_try_mark_ack_received. destruct (find_ack _ _); simpl; [|done].
  apply lookup_update_where.
Qed.
End StoreLemmas.

Lemma resend_due_status now n r :
  resend_due now n r = true ->
  s_status r <> ACKRECEIVED /\ s_status r <> MSGSENTNOACKEXPECTED /\
  s_next_resend_time r <= now /\ s_resend_count r < n.
Proof.
  unfold resend_due. rewrite !andb_true_iff, !negb_true_iff, !list_eqb_neq.
  intros [[[? ?] ?] ?]. split_and!; [done|done|lia|lia].
Qed.

(** ** The life of a sent message

    What can happen to the table of sent messages: a first transmission under a fresh
    id, the retransmission of a candidate (its proof of work may have taken any time),
    an object received from the network, a message moved to the trash. *)
Section Lifecycle.
Context `{OpenSSL}.

Inductive sent_step (db : messages_db) : messages_db -> Prop :=
| sent_first msg_id ack to from subject body level t ttl next status :
    m_sent db !! msg_id = None -> status <> ACKRECEIVED ->
    sent_step db (bm_messages_store_insert_sent db msg_id ack to from subject body status level t ttl next)
| sent_again c now ack t ttl next :
    c ∈ bm_messages_store_list_resend_candidates db now BM_RESEND_MAX_ATTEMPTS ->
    sent_step db
      (bm_messages_store_insert_sent db (rc_msg_id c) ack (rc_to_address c) (rc_from_address c)
         (rc_subject c) (rc_body c) SENT (rc_ack_stealth_level c) t ttl next)
| sent_receive h : sent_step db (bm_messages_store_try_mark_ack_received db h).2
| sent_trash msg_id : sent_step db (bm_messages_store_trash_sent_message db msg_id).

(** A message is retransmitted at most [BM_RESEND_MAX_ATTEMPTS] times. *)
Definition resends_bounded (db : messages_db) : Prop :=
  forall k r, m_sent db !! k = Some r -> 0 <= s_resend_count r <= BM_RESEND_MAX_ATTEMPTS.

Lemma candidate_row db now n c :
  c ∈ bm_messages_store_list_resend_candidates db now n ->
  exists r, m_sent db !! rc_msg_id c = Some r /\ resend_due now n r = true /\
    rc_resend_count c = s_resend_count r.
Proof.
  unfold bm_messages_store_list_resend_candidates.
  rewrite list_elem_of_fmap. intros ([k r] & -> & Hin).
  apply list_elem_of_filter in Hin as [_ [Hl Hd]%elem_of_select_where]. by exists r.
Qed.

Lemma sent_step_bounded db db' :
  sent_step db db' -> resends_bounded db -> resends_bounded db'.
Proof.
  intros Hst Hb k r. destruct Hst as [msg_id ack to from subject body level t ttl next status Hn Hs
    |c now ack t ttl next Hc|h|msg_id]; simpl.
  - rewrite lookup_upsert. case_decide; [|apply Hb]. rewrite Hn. intros [= <-]. simpl. unfold BM_RESEND_MAX_ATTEMPTS. lia.
  - apply candidate_row in Hc as (r0 & Hr0 & Hd & _). apply resend_due_status in Hd as (_ & _ & _ & Hlt).
    rewrite lookup_upsert. case_decide; [|apply Hb]. rewrite Hr0. intros [= <-]. simpl.
    specialize (Hb _ _ Hr0). lia.
  - rewrite lookup_mark_ack. destruct (find_ack _ _); [|apply Hb].
    destruct (m_sent db !! k) as [r0|] eqn:E; [|done]. simpl. specialize (Hb _ _ E).
    intros [= <-]. by destruct (list_eqb _ _).
  - rewrite lookup_update_where. destruct (m_sent db !! k) as [r0|] eqn:E; [|done]. simpl.
    specialize (Hb _ _ E). intros [= <-]. by destruct (list_eqb _ _).
Qed.
End Lifecycle.

(** ** Properties *)

Section StoreProperties.
Context `{OpenSSL}.

(** Acknowledgement and retransmission.  When an object arrives whose inventory
    hash is that of the ack of an unacknowledged message, the rows with that ack are
    marked and nothing else changes in the database; a marked row is no candidate for
    retransmission at any time; if the hash is no ack's, nothing changes.  And from an
    empty store, whatever is sent, received and trashed, no message is ever retransmitted
    more than five times. *)
Theorem bm_messages_store_ack_resend (db : messages_db) (h : list Z) :
  (let '(found, db') := bm_messages_store_try_mark_ack_received db h in
   if found then
     exists ack, bm_inventory_hash ack = h /\ 0 < blen ack /\
       (exists k r, m_sent db !! k = Some r /\ s_ack_data r = ack /\ s_status r <> ACKRECEIVED) /\
       (forall k, m_sent db' !! k =
          (fun r => if list_eqb (s_ack_data r) ack then set_status ACKRECEIVED r else r) <$> m_sent db !! k) /\
       m_inbox db' = m_inbox db /\
       (forall k r now n c, m_sent db !! k = Some r -> s_ack_data r = ack ->
          c ∈ bm_messages_store_list_resend_candidates db' now n -> rc_msg_id c <> k)
   else
     db' = db /\
     forall k r, m_sent db !! k = Some r -> s_status r <> ACKRECEIVED -> 0 < blen (s_ack_data r) ->
       bm_inventory_hash (s_ack_data r) <> h)
  /\ (forall db', rtc sent_step bm_messages_store_init_schema db' -> resends_bounded db').
Proof.
  split.
  - destruct (bm_messages_store_try_mark_ack_received db h) as [found db'] eqn:E0.
    pose proof (lookup_mark_ack db h) as L. rewrite E0 in L. cbn [snd] in L.
    unfold bm_messages_store_try_mark_ack_received in E0.
    destruct (find_ack _ _) as [ack|] eqn:E; injection E0 as <- <-.
    + destruct (find_ack_some _ _ _ E) as (k & r & Hin & Ha & Hlen & Hh).
      apply elem_of_select_where in Hin as [Hk Hs]. apply negb_true_iff, list_eqb_neq in Hs.
      exists ack. split_and!; [done|done|by exists k, r|done|done|].
      intros k' r' now n c Hr' Ha' Hc <-. apply candidate_row in Hc as (r2 & Hr2 & Hd & _).
      rewrite L, Hr' in Hr2. simpl in Hr2. rewrite Ha', list_eqb_refl in Hr2. injection Hr2 as <-.
      by apply resend_due_status in Hd as (Hd & _).
    + split; [done|]. intros k r Hk Hs Hlen. apply (find_ack_none _ _ k r E); [|done].
      apply elem_of_select_where. split; [done|]. by apply negb_true_iff, list_eqb_neq.
  - intros db' Hr. assert (H0 : resends_bounded bm_messages_store_init_schema) by done.
    induction Hr as [|x y z Hxy Hyz IH]; [done|]. apply IH. by eapply sent_step_bounded.
Qed.

(** An acknowledgement that arrives while a retransmission of the same message is
    being computed is lost: storing the retransmission resets the status of the row to
    "sent" and replaces its ack, so the message is due again later, although the
    recipient has confirmed it. *)
Theorem bm_messages_store_ack_lost_by_resend (db : messages_db) (c : bm_sent_resend_candidate)
    (r : sent_row) (now t ttl next : Z) (ack : list Z) :
  c ∈ bm_messages_store_list_resend_candidates db now BM_RESEND_MAX_ATTEMPTS ->
  m_sent db !! rc_msg_id c = Some r -> rc_resend_count c < BM_RESEND_MAX_ATTEMPTS - 1 ->
  (* the ack of the message, and of no other, has the hash that arrives *)
  find_ack (bm_inventory_hash (s_ack_data r))
    (select_where (m_sent db) (fun _ r => negb (list_eqb (s_status r) ACKRECEIVED))) = Some (s_ack_data r) ->
  let received := bm_messages_store_try_mark_ack_received db (bm_inventory_hash (s_ack_data r)) in
  let acked := received.2 in
  let stored := bm_messages_store_insert_sent acked (rc_msg_id c) ack (rc_to_address c)
                  (rc_from_address c) (rc_subject c) (rc_body c) SENT (rc_ack_stealth_level c) t ttl next in
  received.1 = true /\
  (exists ra, m_sent acked !! rc_msg_id c = Some ra /\ s_status ra = ACKRECEIVED) /\
  exists rs, m_sent stored !! rc_msg_id c = Some rs /\ s_status rs = SENT /\
    resend_due next BM_RESEND_MAX_ATTEMPTS rs = true.
Proof.
  intros Hc Hr Hcount Hf. pose proof (lookup_mark_ack db (bm_inventory_hash (s_ack_data r))) as L.
  cbv zeta. unfold bm_messages_store_try_mark_ack_received in *. rewrite Hf in *. cbn [fst snd] in *.
  destruct (candidate_row _ _ _ _ Hc) as (r' & Hr' & _ & Hn).
  assert (r' = r) as -> by congruence. rewrite Hn in Hcount.
  specialize (L (rc_msg_id c)). rewrite Hr in L. simpl in L. rewrite list_eqb_refl in L.
  split; [done|]. split; [by eexists|].
  eexists. split; [simpl; rewrite lookup_upsert, decide_True by done; simpl in L; rewrite L; done|].
  split; [done|]. unfold resend_due. simpl. unfold BM_RESEND_MAX_ATTEMPTS in *. by zdec.
Qed.
End StoreProperties.

Section StoreWitnesses.
#[local] Existing Instance toy_OpenSSL.

Definition sent_example : messages_db :=
  bm_messages_store_insert_sent bm_messages_store_init_schema (replicate 32 1) [1; 2; 3] [] [] [] [] SENT
    1 100 200 300.

Definition candidate_example : bm_sent_resend_candidate :=
  {| rc_msg_id := replicate 32 1; rc_to_address := []; rc_from_address := []; rc_subject := [];
     rc_body := []; rc_ack_stealth_level := 1; rc_ttl := 200; rc_resend_count := 0 |}.

Definition sent_row_example : sent_row :=
  {| s_ack_data := [1; 2; 3]; s_to_address := []; s_from_address := []; s_subject := []; s_body := [];
     s_status := SENT; s_ack_stealth_level := 1; s_sent_time := 100; s_ttl := 200; s_resend_count := 0;
     s_next_resend_time := 300; s_folder := SENT |}.

Lemma bm_messages_store_ack_lost_by_resend_witness :
  exists rs,
    m_sent (bm_messages_store_insert_sent
              (bm_messages_store_try_mark_ack_received sent_example (bm_inventory_hash [1; 2; 3])).2
              (replicate 32 1) [4; 5] [] [] [] [] SENT 1 400 200 500) !! replicate 32 1 = Some rs
    /\ s_status rs = SENT /\ resend_due 500 BM_RESEND_MAX_ATTEMPTS rs = true.
Proof.
  assert (Hc : candidate_example ∈ bm_messages_store_list_resend_candidates sent_example 300 BM_RESEND_MAX_ATTEMPTS)
    by (apply list_elem_of_fmap; exists (replicate 32 1, sent_row_example); split; [reflexivity|];
      apply list_elem_of_filter; split; [reflexivity|]; apply elem_of_select_where; split; reflexivity).
  assert (Hr : m_sent sent_example !! rc_msg_id candidate_example = Some sent_row_example)
    by (vm_compute; reflexivity).
  assert (Hf : find_ack (bm_inventory_hash [1; 2; 3])
    (select_where (m_sent sent_example) (fun _ r => negb (list_eqb (s_status r) ACKRECEIVED)))
    = Some [1; 2; 3]) by (vm_compute; reflexivity).
  destruct (bm_messages_store_ack_lost_by_resend sent_example candidate_example sent_row_example 300 400 200 500 [4; 5]
    Hc Hr eq_refl Hf) as (_ & _ & Hrs). exact Hrs.
Defined.
End StoreWitnesses.
