(* ===== verification/Protocol.v ===== *)
(** * infra/protocol.c, infra/protocol.h

    Framing of the peer-to-peer stream (24-byte header and payload) and the
    payloads of [version], [addr], [inv]/[getdata] and [error] messages.
    Writers fill a block byte range by byte range as the source does; readers
    are undefined outside the block they are given. *)

From Stdlib Require Import String.
From stdpp Require Import base tactics list numbers option.
From S2P Require Import Prelude Varint Openssl Hash.

#[local] Arguments be_split : simpl never.

Definition BM_MESSAGE_HEADER_SIZE : Z := 24.
Definition BM_MAX_MESSAGE_LENGTH : Z := 4 * 1024 * 1024.
Definition BM_SERVICE_NODE_DANDELION : Z := 8.

Definition MAGIC_MAINNET : list Z := [233; 190; 180; 217].
Definition MAGIC_TESTNET : list Z := [251; 17; 9; 7].
Definition bm_empty_payload_checksum : list Z := [207; 131; 225; 53].

(** The two process globals of the file. *)
Record protocol_globals := {
  bm_magicbytes : list Z;
  g_is_testnet : bool;
}.

Definition bm_protocol_set_testnet (enabled : bool) : protocol_globals :=
  {| g_is_testnet := enabled;
     bm_magicbytes := if enabled then MAGIC_TESTNET else MAGIC_MAINNET |}.

Definition bm_protocol_is_testnet (g : protocol_globals) : bool := g_is_testnet g.

(** The initial value of the globals: mainnet. *)
Definition protocol_initial : protocol_globals :=
  {| bm_magicbytes := [233; 190; 180; 217]; g_is_testnet := false |}.

(** [memcpy(&v, p, n)] and the byte swap to host order: big-endian reading,
    whatever the byte order of the host. *)
Definition read_be32 (p : list Z) (off : Z) : cres Z := b ← rdn p off 4; Ok (be_combine b).
Definition read_be64 (p : list Z) (off : Z) : cres Z := b ← rdn p off 8; Ok (be_combine b).
Definition read_be16 (p : list Z) (off : Z) : cres Z := b ← rdn p off 2; Ok (be_combine b).
Definition write_be32 (p : list Z) (off v : Z) : cres (list Z) := wr p off (be_split 4 v).
Definition write_be64 (p : list Z) (off v : Z) : cres (list Z) := wr p off (be_split 8 v).

(** ** Data *)

Record bm_message := {
  msg_command : list Z;
  msg_length : Z;
  msg_checksum : Z;
  msg_payload : option (list Z); (** [None]: the null pointer *)
}.

Inductive bm_parse_result :=
| BM_PARSE_OK (msg : bm_message) (consumed : Z)
| BM_PARSE_INCOMPLETE
| BM_PARSE_BAD_CHECKSUM (consumed : Z)
| BM_PARSE_BAD_MAGIC (consumed : Z)
| BM_PARSE_MESSAGE_TOO_LARGE.

Record bm_version_message := {
  v_version : Z;
  v_services : Z;
  v_timestamp : Z;
  v_addr_recv : list Z;
  v_addr_from : list Z;
  v_nonce : Z;
  v_user_agent : list Z; (** without the NUL the parser appends *)
  v_stream_numbers : list Z;
}.

Record bm_address_info := {
  ai_time : Z;
  ai_stream : Z;
  ai_services : Z;
  ai_ip : list Z;
  ai_port : Z;
}.

(** [struct sockaddr_storage] as far as the node looks into it; addresses and
    ports are in network byte order. *)
Inductive sockaddr_storage :=
| AF_INET (sin_addr sin_port : list Z)
| AF_INET6 (sin6_addr sin6_port : list Z)
| AF_OTHER.

(** ** Framing *)

Section Framing.
Context `{OS : OpenSSL}.

Definition bm_parse_message (g : protocol_globals) (data : list Z) : cres bm_parse_result :=
  let data_len := blen data in
  if data_len <? BM_MESSAGE_HEADER_SIZE then Ok BM_PARSE_INCOMPLETE else
  magic ← rdn data 0 4;
  if negb (list_eqb magic (bm_magicbytes g)) then Ok (BM_PARSE_BAD_MAGIC 1) else
  len ← read_be32 data 16;
  if len >? BM_MAX_MESSAGE_LENGTH then Ok BM_PARSE_MESSAGE_TOO_LARGE else
  let total := BM_MESSAGE_HEADER_SIZE + len in
  if data_len <? total then Ok BM_PARSE_INCOMPLETE else
  body ← rdn data BM_MESSAGE_HEADER_SIZE len;
  let hash := bm_sha512 body in
  sum ← rdn data 20 4;
  if negb (list_eqb (take 4 hash) sum) then Ok (BM_PARSE_BAD_CHECKSUM total) else
  cmd ← rdn data 4 12;
  checksum ← read_be32 data 20;
  Ok (BM_PARSE_OK {| msg_command := cmd; msg_length := len; msg_checksum := checksum;
                     msg_payload := if len >? 0 then Some body else None |} total).

Definition bm_create_packet (g : protocol_globals) (command payload : list Z) : cres (list Z) :=
  let payload_len := blen payload in
  let total := BM_MESSAGE_HEADER_SIZE + payload_len in
  let out := malloc total in
  out ← wr out 0 (bm_magicbytes g);
  out ← wr out 4 (replicate 12 0);
  let cmd_len := if blen command >? 12 then 12 else blen command in
  out ← wr out 4 (take (Z.to_nat cmd_len) command);
  out ← write_be32 out 16 (u32 payload_len);
  if payload_len >? 0 then
    let hash := bm_sha512 payload in
    out ← wr out 20 (take 4 hash);
    wr out BM_MESSAGE_HEADER_SIZE payload
  else wr out 20 bm_empty_payload_checksum.
End Framing.

(** ** version *)

Definition bm_encode_time_and_stream (buf : list Z) (off time_val stream : Z) : cres (list Z) :=
  buf ← write_be64 buf off time_val;
  write_be32 buf (off + 8) stream.

(** The 26 bytes [bm_encode_network_address] leaves in [addr]. *)
Definition network_address (local_addr : sockaddr_storage) : cres (list Z) :=
  let addr := replicate 26 0 in
  match local_addr with
  | AF_INET sin_addr sin_port =>
      addr ← wr addr 10 [255];
      addr ← wr addr 11 [255];
      addr ← wr addr 12 sin_addr;
      wr addr 24 sin_port
  | AF_INET6 sin6_addr sin6_port =>
      addr ← wr addr 8 sin6_addr;
      wr addr 24 sin6_port
  | AF_OTHER => Ok addr
  end.

Definition bm_encode_network_address (buf : list Z) (off : Z) (local_addr : sockaddr_storage)
  : cres (list Z) :=
  addr ← network_address local_addr; wr buf off addr.

Definition bm_unspecified_ipv4_address : sockaddr_storage :=
  AF_INET (replicate 4 0) (replicate 2 0).

(** [bm_varint_decode(payload + offset, payload_len - offset, &v)] with the
    [size_t] subtraction, where the caller ignores a failure: nothing is
    consumed and [v] keeps its initial 0. *)
Definition varint_or_zero (payload : list Z) (payload_len offset : Z) : cres (Z * Z) :=
  match bm_varint_decode (drop (Z.to_nat offset) payload) (u64 (payload_len - offset)) with
  | Ok cv => Ok cv
  | Err => Ok (0, 0)
  | Ub => Ub
  end.

(** The stream loop: [cap] is the size of the block [stream_numbers]. *)
Fixpoint version_streams (payload : list Z) (payload_len cap offset i : Z) (n : nat)
  : cres (list Z) :=
  match n with
  | O => Ok []
  | S n =>
      '(consumed, v) ← varint_or_zero payload payload_len offset;
      if cap <? 8 * i + 8 then Ub else
      rest ← version_streams payload payload_len cap (offset + consumed) (i + 1) n;
      Ok (v :: rest)
  end.

(** The null pointer is [None]: reading through it is undefined. *)
Definition bm_parse_version_message (payload : option (list Z)) (payload_len : Z)
  : cres bm_version_message :=
  match payload with
  | None => Ub
  | Some payload =>
      version ← read_be32 payload 0;
      services ← read_be64 payload 4;
      timestamp ← read_be64 payload 12;
      addr_recv ← rdn payload 20 26;
      addr_from ← rdn payload 46 26;
      nonce ← read_be64 payload 72;
      '(consumed, ua_len) ← varint_or_zero payload payload_len 80;
      let offset := 80 + consumed in
      ua ← rdn payload offset ua_len;
      ua_block ← wr (malloc (u64 (ua_len + 1))) 0 ua;
      ua_block ← wr ua_block ua_len [0];
      let offset := offset + ua_len in
      '(consumed, stream_count) ← varint_or_zero payload payload_len offset;
      let offset := offset + consumed in
      streams ← version_streams payload payload_len (u64 (8 * stream_count)) offset 0
                  (Z.to_nat stream_count);
      Ok {| v_version := version; v_services := services; v_timestamp := timestamp;
            v_addr_recv := addr_recv; v_addr_from := addr_from; v_nonce := nonce;
            v_user_agent := take (Z.to_nat ua_len) ua_block; v_stream_numbers := streams |}
  end.

Definition bm_version_payload_size (user_agent_str : list Z) : Z :=
  80 + bm_varstr_size user_agent_str + 2.
Definition bm_version_message_size (user_agent_str : list Z) : Z :=
  BM_MESSAGE_HEADER_SIZE + bm_version_payload_size user_agent_str.

(** [now] is [time(NULL)]; [rnd] what [getrandom] stored, [None] when it failed. *)
Definition bm_create_version_payload (out : option (list Z * Z)) (user_agent_str : list Z)
    (version : Z) (peer_addr local_addr : sockaddr_storage) (now : Z) (rnd : option Z)
  : cres (list Z) :=
  match out with
  | None => Err
  | Some (out, off) =>
      out ← write_be32 out off (u32 version);
      out ← write_be64 out (off + 4) BM_SERVICE_NODE_DANDELION;
      out ← write_be64 out (off + 12) (u64 now);
      out ← bm_encode_network_address out (off + 20) peer_addr;
      out ← bm_encode_network_address out (off + 46) local_addr;
      let nonce := match rnd with Some n => n | None => 0 end in
      out ← write_be64 out (off + 72) nonce;
      out ← bm_varstr_encode (Some (out, off + 80)) user_agent_str;
      let offset := off + 80 + bm_varstr_size user_agent_str in
      out ← wr out offset [1];
      wr out (offset + 1) [1]
  end.

Definition bm_new_version_message `{OpenSSL} (g : protocol_globals) (user_agent_str : list Z)
    (version : Z) (peer_addr local_addr : sockaddr_storage) (now : Z) (rnd : option Z)
  : cres (list Z) :=
  let payload_len := bm_version_payload_size user_agent_str in
  let total := BM_MESSAGE_HEADER_SIZE + payload_len in
  let msg := malloc total in
  msg ← bm_create_version_payload (Some (msg, BM_MESSAGE_HEADER_SIZE)) user_agent_str version
          peer_addr local_addr now rnd;
  msg ← wr msg 0 (bm_magicbytes g);
  msg ← wr msg 4 (replicate 12 0);
  msg ← wr msg 4 (cstr "version"%string);
  msg ← write_be32 msg 16 (u32 payload_len);
  body ← rdn msg BM_MESSAGE_HEADER_SIZE payload_len;
  let hash := bm_sha512 body in
  wr msg 20 (take 4 hash).

(** ** addr *)

(** One pass of the loop of [bm_parse_addr_message] per entry; [cap] is the
    size of the block [addresses], whose elements are 48 bytes with the port
    in bytes 40 and 41. *)
Fixpoint addr_entries (payload : list Z) (cap offset i : Z) (n : nat)
  : cres (list bm_address_info) :=
  match n with
  | O => Ok []
  | S n =>
      if offset + 38 >? blen payload then Err else
      time ← read_be64 payload offset;
      stream ← read_be32 payload (offset + 8);
      services ← read_be64 payload (offset + 12);
      ip ← rdn payload (offset + 20) 16;
      port ← read_be16 payload (offset + 36);
      if cap <? 48 * i + 42 then Ub else
      rest ← addr_entries payload cap (offset + 38) (i + 1) n;
      Ok ({| ai_time := time; ai_stream := stream; ai_services := services; ai_ip := ip;
             ai_port := port |} :: rest)
  end.

(** [struct bm_addr_message]: the count the peer declared and the entries. *)
Definition bm_parse_addr_message (payload : list Z) : cres (Z * list bm_address_info) :=
  '(consumed, count) ← bm_varint_decode payload (blen payload);
  addresses ← addr_entries payload (u64 (48 * count)) consumed 0 (Z.to_nat count);
  Ok (count, addresses).

Fixpoint write_addresses (buf : list Z) (p : Z) (addresses : list bm_address_info)
  : cres (list Z) :=
  match addresses with
  | [] => Ok buf
  | a :: addresses =>
      buf ← write_be64 buf p (ai_time a);
      buf ← write_be32 buf (p + 8) (ai_stream a);
      buf ← write_be64 buf (p + 12) (ai_services a);
      buf ← wr buf (p + 20) (ai_ip a);
      buf ← wr buf (p + 36) (be_split 2 (ai_port a));
      write_addresses buf (p + 38) addresses
  end.

Definition addr_payload (addresses : list bm_address_info) : cres (list Z) :=
  let count := Z.of_nat (length addresses) in
  let payload_len := bm_varint_size count + count * 38 in
  payload ← bm_varint_encode (Some (malloc payload_len, 0)) count;
  write_addresses payload (bm_varint_size count) addresses.

Definition bm_create_addr_message `{OpenSSL} (g : protocol_globals)
    (addresses : list bm_address_info) : cres (list Z) :=
  if Z.of_nat (length addresses) =? 0 then Err else
  payload ← addr_payload addresses;
  bm_create_packet g (cstr "addr"%string) payload.

(** ** inv, dinv, getdata *)

Fixpoint inventory_items (payload : list Z) (offset : Z) (n : nat) : cres (list (list Z)) :=
  match n with
  | O => Ok []
  | S n =>
      h ← rdn payload offset 32;
      rest ← inventory_items payload (offset + 32) n;
      Ok (h :: rest)
  end.

Definition bm_parse_inventory_message (payload : list Z) : cres (list (list Z)) :=
  let payload_len := blen payload in
  '(offset, declared_count) ← bm_varint_decode payload payload_len;
  if negb ((payload_len - offset) mod 32 =? 0) then Err else
  let actual_count := (payload_len - offset) / 32 in
  inventory_items payload offset (Z.to_nat actual_count).

Fixpoint write_hashes (buf : list Z) (p : Z) (hashes : list (list Z)) : cres (list Z) :=
  match hashes with
  | [] => Ok buf
  | h :: hashes => buf ← wr buf p h; write_hashes buf (p + 32) hashes
  end.

Definition inventory_payload (hashes : list (list Z)) : cres (list Z) :=
  let count := Z.of_nat (length hashes) in
  let payload_len := bm_varint_size count + count * 32 in
  payload ← bm_varint_encode (Some (malloc payload_len, 0)) count;
  write_hashes payload (bm_varint_size count) hashes.

Definition bm_create_inventory_message `{OpenSSL} (g : protocol_globals) (command : list Z)
    (hashes : list (list Z)) : cres (list Z) :=
  payload ← inventory_payload hashes;
  bm_create_packet g command payload.

(** ** error *)

Definition bm_create_error_message `{OpenSSL} (g : protocol_globals) (fatal ban_time : Z)
    (error_text : list Z) : cres (list Z) :=
  let text_len := blen error_text in
  let payload_len := bm_varint_size fatal + bm_varint_size ban_time + bm_varint_size 0
                     + bm_varint_size text_len + text_len in
  let p := 0 in
  payload ← bm_varint_encode (Some (malloc payload_len, p)) fatal;
  let p := p + bm_varint_size fatal in
  payload ← bm_varint_encode (Some (payload, p)) ban_time;
  let p := p + bm_varint_size ban_time in
  payload ← bm_varint_encode (Some (payload, p)) 0;
  let p := p + bm_varint_size 0 in
  payload ← bm_varint_encode (Some (payload, p)) text_len;
  let p := p + bm_varint_size text_len in
  payload ← wr payload p error_text;
  bm_create_packet g (cstr "error"%string) payload.

(** ** Reading and writing fixed-width fields *)

Lemma read_be_at (k : nat) data pre v rest off :
  data = pre ++ be_split k v ++ rest -> off = blen pre -> 0 <= v < 256 ^ Z.of_nat k ->
  (b ← rdn data off (Z.of_nat k); Ok (be_combine b)) = Ok v.
Proof.
  intros -> -> Hv. rewrite rdn_app_mid by (rewrite ?blen_be_split; lia). cbn_bind.
  by rewrite be_combine_split, Z.mod_small.
Qed.

Lemma field_be32_in p off :
  0 <= off -> off + 4 <= blen p -> read_be32 p off = Ok (be_combine (slice p off 4)).
Proof. intros. unfold read_be32. by rewrite rdn_ok by lia. Qed.
Lemma field_be64_in p off :
  0 <= off -> off + 8 <= blen p -> read_be64 p off = Ok (be_combine (slice p off 8)).
Proof. intros. unfold read_be64. by rewrite rdn_ok by lia. Qed.
Lemma field_be16_in p off :
  0 <= off -> off + 2 <= blen p -> read_be16 p off = Ok (be_combine (slice p off 2)).
Proof. intros. unfold read_be16. by rewrite rdn_ok by lia. Qed.

(** ** Frames *)

(** A command name in its 12-byte field. *)
Definition command_field (cmd : list Z) : list Z :=
  take 12 cmd ++ replicate (12 - length cmd) 0.

Lemma blen_command_field cmd : blen (command_field cmd) = 12.
Proof.
  unfold command_field, blen. rewrite length_app, length_take, length_replicate. lia.
Qed.

Lemma set_testnet_magic enabled :
  blen (bm_magicbytes (bm_protocol_set_testnet enabled)) = 4.
Proof. by destruct enabled. Qed.
#[local] Hint Rewrite blen_command_field set_testnet_magic : blen.

Section FramingLemmas.
Context `{OSL : OpenSSLLaws}.
Variable g : protocol_globals.
Hypothesis magic_4 : blen (bm_magicbytes g) = 4.

(** The bytes of a frame, and their decomposition as the parser reads it. *)
Definition frame (cmd len sum body : list Z) : list Z :=
  bm_magicbytes g ++ cmd ++ len ++ sum ++ body.

Definition packet (cmd payload : list Z) : list Z :=
  frame (command_field cmd) (be_split 4 (blen payload)) (take 4 (bm_sha512 payload)) payload.

Lemma blen_checksum body : blen (take 4 (bm_sha512 body)) = 4.
Proof.
  pose proof (blen_sha512 body) as E. unfold blen in *. rewrite length_take. lia.
Qed.

Lemma blen_packet cmd payload : blen (packet cmd payload) = 24 + blen payload.
Proof.
  unfold packet, frame.
  rewrite !blen_app, magic_4, blen_command_field, blen_be_split, blen_checksum. lia.
Qed.

Lemma empty_checksum : bm_empty_payload_checksum = take 4 (bm_sha512 []).
Proof. symmetry. apply SHA512_empty. Qed.

Lemma be_split_u32 v : be_split 4 (u32 v) = be_split 4 v.
Proof.
  rewrite <- (be_split_combine (be_split 4 v)) at 1 by auto with bytes.
  rewrite length_be_split, be_combine_split. done.
Qed.

Lemma command_field_write cmd :
  let n := if blen cmd >? 12 then 12 else blen cmd in
  exists zeros tail, replicate 12 0 = zeros ++ tail
    /\ blen zeros = blen (take (Z.to_nat n) cmd)
    /\ command_field cmd = take (Z.to_nat n) cmd ++ tail.
Proof.
  intros n. exists (replicate (Z.to_nat n) 0), (replicate (12 - length cmd) 0).
  assert (Hn : Z.to_nat n = Nat.min 12 (length cmd)).
  { subst n. rewrite Z.gtb_ltb. unfold blen in *.
    destruct (Z.ltb_spec 12 (Z.of_nat (length cmd))); lia. }
  rewrite Hn. split_and!.
  - rewrite <- replicate_add. f_equal. lia.
  - unfold blen. rewrite length_replicate, length_take. lia.
  - unfold command_field. f_equal.
    destruct (Nat.le_gt_cases 12 (length cmd)); [by rewrite Nat.min_l by lia|].
    rewrite !take_ge by lia. done.
Qed.

Lemma create_packet_eq cmd payload :
  bm_create_packet g cmd payload = Ok (packet cmd payload).
Proof.
  unfold bm_create_packet, packet, frame, BM_MESSAGE_HEADER_SIZE, write_be32.
  pose proof (blen_nonneg payload). rewrite be_split_u32.
  rewrite wr_malloc_start by (rewrite magic_4; lia). cbn_bind.
  rewrite wr_malloc by (rewrite ?magic_4, ?blen_replicate; lia). cbn_bind.
  pose proof (blen_command_field cmd) as H12.
  destruct (command_field_write cmd) as (zeros & tail & Ez & Hz & Ec).
  assert (E12 : blen (zeros ++ tail) = 12) by (by rewrite <- Ez, blen_replicate).
  rewrite Ez, E12, <- !app_assoc, wr_over by (done || lia). cbn_bind.
  rewrite (app_assoc _ tail), <- Ec, app_assoc.
  rewrite wr_malloc by (rewrite ?blen_app, ?blen_be_split; lia). cbn_bind.
  rewrite blen_be_split. pose proof (blen_checksum payload).
  destruct (Z.gtb_spec (blen payload) 0).
  - rewrite wr_malloc by (rewrite ?blen_app, ?blen_be_split; lia). cbn_bind.
    rewrite wr_malloc_last by (rewrite ?blen_app, ?blen_be_split; lia).
    by rewrite <- !app_assoc.
  - assert (payload = []) as -> by (destruct payload; [done|rewrite blen_cons in *;
      pose proof (blen_nonneg payload); lia]).
    rewrite empty_checksum, wr_malloc_last by (rewrite ?blen_app, ?blen_be_split; lia).
    by rewrite <- !app_assoc, app_nil_r.
Qed.

Lemma frame_fields magic cmd len sum tail :
  blen magic = 4 -> blen cmd = 12 -> blen len = 4 -> blen sum = 4 ->
  let data := magic ++ cmd ++ len ++ sum ++ tail in
  rdn data 0 4 = Ok magic /\ rdn data 4 12 = Ok cmd /\ rdn data 16 4 = Ok len
  /\ rdn data 20 4 = Ok sum
  /\ forall n, 0 <= n <= blen tail -> rdn data 24 n = Ok (slice tail 0 n).
Proof.
  intros Hm Hc Hl Hs data. subst data. split_and!.
  - by apply rdn_prefix.
  - by apply rdn_app_mid.
  - rewrite app_assoc. apply rdn_app_mid; rewrite ?blen_app; lia.
  - rewrite (app_assoc magic), (app_assoc _ len). apply rdn_app_mid; rewrite ?blen_app; lia.
  - intros n Hn. rewrite (app_assoc magic), (app_assoc _ len), (app_assoc _ sum).
    rewrite rdn_ok by (rewrite ?blen_app; lia).
    by rewrite slice_app_skip, !blen_app, Hm, Hc, Hl, Hs by (rewrite ?blen_app; lia).
Qed.

(** What the parser does with a complete frame, whatever its checksum. *)
Lemma parse_message_frame cmd len sum body rest :
  blen cmd = 12 -> blen len = 4 -> blen sum = 4 -> be_combine len = blen body ->
  blen body <= BM_MAX_MESSAGE_LENGTH ->
  bm_parse_message g (frame cmd len sum body ++ rest)
  = Ok (if list_eqb (take 4 (bm_sha512 body)) sum
        then BM_PARSE_OK {| msg_command := cmd; msg_length := blen body;
               msg_checksum := be_combine sum;
               msg_payload := if blen body >? 0 then Some body else None |} (24 + blen body)
        else BM_PARSE_BAD_CHECKSUM (24 + blen body)).
Proof.
  intros Hc Hl Hs Hlen Hmax. unfold bm_parse_message, BM_MESSAGE_HEADER_SIZE, read_be32.
  pose proof (blen_nonneg body). pose proof (blen_nonneg rest).
  destruct (frame_fields (bm_magicbytes g) cmd len sum (body ++ rest))
    as (R1 & R2 & R3 & R4 & R5); [done..|].
  replace (frame cmd len sum body ++ rest)
    with (bm_magicbytes g ++ cmd ++ len ++ sum ++ body ++ rest)
    by (unfold frame; by rewrite <- !app_assoc).
  assert (blen (bm_magicbytes g ++ cmd ++ len ++ sum ++ body ++ rest)
          = 24 + blen body + blen rest) as -> by (rewrite !blen_app; lia).
  rewrite R1, R3, R4, R2. cbn_bind. rewrite list_eqb_refl, Hlen. zdec.
  rewrite R5 by (rewrite blen_app; lia). cbn_bind. rewrite slice_app_l by done.
  by destruct (list_eqb _ _).
Qed.

Lemma parse_packet cmd payload rest :
  blen payload <= BM_MAX_MESSAGE_LENGTH ->
  bm_parse_message g (packet cmd payload ++ rest)
  = Ok (BM_PARSE_OK {| msg_command := command_field cmd; msg_length := blen payload;
          msg_checksum := be_combine (take 4 (bm_sha512 payload));
          msg_payload := if blen payload >? 0 then Some payload else None |}
          (24 + blen payload)).
Proof.
  intros Hm. unfold packet. pose proof (blen_nonneg payload).
  rewrite parse_message_frame; try done.
  - by rewrite list_eqb_refl.
  - apply blen_command_field.
  - apply blen_checksum.
  - rewrite be_combine_split. apply Z.mod_small. unfold BM_MAX_MESSAGE_LENGTH in Hm. lia.
Qed.

(** A block of at least a header is a header and the rest. *)
Lemma frame_split data :
  BM_MESSAGE_HEADER_SIZE <= blen data ->
  exists magic cmd len sum tail,
    data = magic ++ cmd ++ len ++ sum ++ tail
    /\ blen magic = 4 /\ blen cmd = 12 /\ blen len = 4 /\ blen sum = 4
    /\ blen tail = blen data - 24.
Proof.
  unfold BM_MESSAGE_HEADER_SIZE. intros.
  destruct (split_at_blen data 4) as (magic & d1 & -> & ? & E1); [lia|].
  destruct (split_at_blen d1 12) as (cmd & d2 & -> & ? & E2); [lia|].
  destruct (split_at_blen d2 4) as (len & d3 & -> & ? & E3); [lia|].
  destruct (split_at_blen d3 4) as (sum & d4 & -> & ? & E4); [lia|].
  exists magic, cmd, len, sum, d4. rewrite !blen_app in *. split; [done|]. lia.
Qed.

(** Every verdict of the parser, read as a statement about the block. *)
Definition parse_verdict (data : list Z) (r : bm_parse_result) : Prop :=
  match r with
  | BM_PARSE_OK msg consumed =>
      let body := default [] (msg_payload msg) in
      blen (msg_command msg) = 12 /\ msg_length msg = blen body
      /\ blen body <= BM_MAX_MESSAGE_LENGTH
      /\ consumed = 24 + blen body /\ consumed <= blen data
      /\ (msg_payload msg = None <-> msg_length msg = 0)
      /\ take (Z.to_nat consumed) data
         = frame (msg_command msg) (be_split 4 (blen body)) (take 4 (bm_sha512 body)) body
  | BM_PARSE_INCOMPLETE =>
      blen data < 24
      \/ exists len, slice data 0 4 = bm_magicbytes g /\ slice data 16 4 = be_split 4 len
           /\ 0 <= len <= BM_MAX_MESSAGE_LENGTH /\ blen data < 24 + len
  | BM_PARSE_BAD_CHECKSUM consumed =>
      24 <= consumed <= blen data /\ slice data 0 4 = bm_magicbytes g
      /\ slice data 16 4 = be_split 4 (consumed - 24)
      /\ take 4 (bm_sha512 (slice data 24 (consumed - 24))) <> slice data 20 4
  | BM_PARSE_BAD_MAGIC consumed =>
      consumed = 1 /\ 24 <= blen data /\ slice data 0 4 <> bm_magicbytes g
  | BM_PARSE_MESSAGE_TOO_LARGE =>
      exists len, slice data 0 4 = bm_magicbytes g /\ slice data 16 4 = be_split 4 len
        /\ BM_MAX_MESSAGE_LENGTH < len < 2 ^ 32
  end.

Lemma slice_rdn l off n b : rdn l off n = Ok b -> slice l off n = b.
Proof. unfold rdn. case_match; [by intros [= ->]|done]. Qed.

Lemma parse_message_complete cmd len sum tail :
  bytes_ok (cmd ++ len ++ sum ++ tail) ->
  blen cmd = 12 -> blen len = 4 -> blen sum = 4 ->
  be_combine len <= BM_MAX_MESSAGE_LENGTH -> be_combine len <= blen tail ->
  exists r, bm_parse_message g (frame cmd len sum tail) = Ok r
    /\ parse_verdict (frame cmd len sum tail) r.
Proof.
  intros Hb Hc Hl Hs Hmax Hle. rewrite !bytes_ok_app in Hb.
  destruct Hb as (Hbc & Hbl & Hbs & Hbt). pose proof (be_combine_bound len Hbl).
  destruct (split_at_blen tail (be_combine len)) as (body & rest & -> & Hbody & Hrest); [lia|].
  replace (frame cmd len sum (body ++ rest)) with (frame cmd len sum body ++ rest)
    by (unfold frame; by rewrite <- !app_assoc).
  eexists. split; [apply parse_message_frame; (done || lia)|].
  assert (El : be_split 4 (blen body) = len)
    by (apply be_split_fixed; [done|unfold blen in *; lia|lia]).
  assert (Ef : blen (frame cmd len sum body) = 24 + blen body)
    by (unfold frame; rewrite !blen_app; lia).
  pose proof (blen_nonneg body). pose proof (blen_nonneg rest).
  destruct (list_eqb _ _) eqn:Es.
  - apply list_eqb_eq in Es. cbn [parse_verdict msg_payload msg_length msg_command].
    assert (default [] (if blen body >? 0 then Some body else None) = body) as ->.
    { destruct (Z.gtb_spec (blen body) 0); [done|]. symmetry.
      apply nil_length_inv. unfold blen in *. lia. }
    rewrite blen_app, El, Es, Ef. split_and!; try (done || lia).
    + destruct (Z.gtb_spec (blen body) 0); split; (done || lia).
    + rewrite <- Ef. unfold blen. by rewrite Nat2Z.id, take_app_length.
  - assert (Es' : take 4 (bm_sha512 body) <> sum)
      by (intros E; apply list_eqb_eq in E; congruence).
    destruct (frame_fields (bm_magicbytes g) cmd len sum (body ++ rest))
      as (R1 & R2 & R3 & R4 & R5); [done..|].
    cbn [parse_verdict]. replace (frame cmd len sum body ++ rest)
      with (bm_magicbytes g ++ cmd ++ len ++ sum ++ body ++ rest)
      by (unfold frame; by rewrite <- !app_assoc).
    replace (24 + blen body - 24) with (blen body) by lia.
    rewrite (slice_rdn _ _ _ _ R1), (slice_rdn _ _ _ _ R3), (slice_rdn _ _ _ _ R4).
    rewrite (slice_rdn _ _ _ _ (R5 (blen body) ltac:(rewrite blen_app; lia))).
    rewrite slice_app_l by done. split_and!; [lia|rewrite !blen_app; lia|done|done|done].
Qed.

Lemma parse_message_verdict data :
  bytes_ok data -> exists r, bm_parse_message g data = Ok r /\ parse_verdict data r.
Proof.
  intros Hb. destruct (Z.lt_ge_cases (blen data) BM_MESSAGE_HEADER_SIZE) as [Hs|Hs].
  { exists BM_PARSE_INCOMPLETE. unfold bm_parse_message. zdec. by split; [|left]. }
  destruct (frame_split data Hs) as (m & cmd & len & sum & tail & -> & Hm & Hc & Hl & Hsum & Ht).
  destruct (frame_fields m cmd len sum tail) as (R1 & R2 & R3 & R4 & R5); [done..|].
  destruct (list_eqb m (bm_magicbytes g)) eqn:Em.
  2:{ exists (BM_PARSE_BAD_MAGIC 1). unfold bm_parse_message. zdec. rewrite R1. cbn_bind.
      rewrite Em. split; [done|]. split_and!; [done|done|]. rewrite (slice_rdn _ _ _ _ R1).
      intros E. apply list_eqb_eq in E. congruence. }
  apply list_eqb_eq in Em as ->. rewrite !bytes_ok_app in Hb.
  destruct Hb as (Hb1 & Hb2 & Hb3 & Hb4 & Hb5). pose proof (be_combine_bound len Hb3) as Hlb.
  assert (El : len = be_split 4 (be_combine len))
    by (symmetry; apply be_split_fixed; [done|unfold blen in *; lia|done]).
  rewrite Hl in Hlb. change (256 ^ 4) with (2 ^ 32) in Hlb.
  destruct (Z.lt_ge_cases BM_MAX_MESSAGE_LENGTH (be_combine len)).
  { exists BM_PARSE_MESSAGE_TOO_LARGE. unfold bm_parse_message, read_be32. zdec.
    rewrite R1, R3. cbn_bind. rewrite list_eqb_refl. zdec. split; [done|].
    exists (be_combine len). rewrite (slice_rdn _ _ _ _ R1), (slice_rdn _ _ _ _ R3), <- El.
    split_and!; [done|done|lia|lia]. }
  destruct (Z.lt_ge_cases (blen tail) (be_combine len)).
  { exists BM_PARSE_INCOMPLETE. unfold bm_parse_message, read_be32. zdec.
    rewrite R1, R3. cbn_bind. rewrite list_eqb_refl. unfold BM_MESSAGE_HEADER_SIZE in *. zdec.
    split; [done|]. right. exists (be_combine len).
    rewrite (slice_rdn _ _ _ _ R1), (slice_rdn _ _ _ _ R3), <- El.
    split_and!; [done|done|lia|lia|lia]. }
  apply parse_message_complete; [by rewrite !bytes_ok_app|(done || lia)..].
Qed.
End FramingLemmas.

(** ** version payloads *)

Definition sockaddr_ok (sa : sockaddr_storage) : Prop :=
  match sa with
  | AF_INET a p => blen a = 4 /\ blen p = 2 /\ bytes_ok a /\ bytes_ok p
  | AF_INET6 a p => blen a = 16 /\ blen p = 2 /\ bytes_ok a /\ bytes_ok p
  | AF_OTHER => True
  end.

Definition network_address_bytes (sa : sockaddr_storage) : list Z :=
  match sa with
  | AF_INET a p => replicate 10 0 ++ [255; 255] ++ a ++ replicate 8 0 ++ p
  | AF_INET6 a p => replicate 8 0 ++ a ++ p
  | AF_OTHER => replicate 26 0
  end.

Lemma network_address_eq sa :
  sockaddr_ok sa -> network_address sa = Ok (network_address_bytes sa).
Proof.
  destruct sa as [a p|a p|]; [intros (Ha & Hp & _)|intros (Ha & Hp & _)|done];
    unfold network_address, network_address_bytes.
  - change (replicate 26 0) with (replicate 10 0 ++ [0] ++ replicate 15 0).
    rewrite wr_over by done. cbn_bind.
    change (replicate 10 0 ++ [255] ++ replicate 15 0)
      with ((replicate 10 0 ++ [255]) ++ [0] ++ replicate 14 0).
    rewrite wr_over by done. cbn_bind.
    change ((replicate 10 0 ++ [255]) ++ [255] ++ replicate 14 0)
      with ((replicate 10 0 ++ [255; 255]) ++ replicate 4 0 ++ replicate 8 0 ++ replicate 2 0).
    rewrite wr_over by done. cbn_bind. rewrite !(app_assoc _ a), !(app_assoc _ (replicate 8 0)).
    rewrite wr_over_last by (rewrite ?blen_app, ?blen_replicate, ?Ha; done).
    by rewrite <- !app_assoc.
  - change (replicate 26 0) with (replicate 8 0 ++ replicate 16 0 ++ replicate 2 0).
    rewrite wr_over by done. cbn_bind. rewrite app_assoc.
    rewrite wr_over_last by (rewrite ?blen_app, ?blen_replicate, ?Ha; done).
    by rewrite <- !app_assoc.
Qed.

Lemma blen_network_address sa : sockaddr_ok sa -> blen (network_address_bytes sa) = 26.
Proof.
  destruct sa as [a p|a p|]; [intros (Ha & Hp & _)|intros (Ha & Hp & _)|done]; simpl;
    rewrite ?blen_cons, ?blen_app, ?blen_cons, ?blen_nil, ?Ha, ?Hp; done.
Qed.

Definition version_payload (ua : list Z) (version now nonce : Z) (peer me : sockaddr_storage)
  : list Z :=
  be_split 4 version ++ be_split 8 BM_SERVICE_NODE_DANDELION ++ be_split 8 now
  ++ network_address_bytes peer ++ network_address_bytes me ++ be_split 8 nonce
  ++ varint_bytes (blen ua) ++ ua ++ [1; 1].

Lemma create_version_payload_fill pre ua version peer me now rnd off :
  sockaddr_ok peer -> sockaddr_ok me -> off = blen pre ->
  bm_create_version_payload (Some (pre ++ malloc (bm_version_payload_size ua), off)) ua version
    peer me now rnd
  = Ok (pre ++ version_payload ua version now (default 0 rnd) peer me).
Proof.
  intros Hp Hm ->. unfold bm_create_version_payload, bm_version_payload_size, version_payload.
  unfold bm_encode_network_address, write_be32, write_be64.
  rewrite be_split_u32, be_split_u64, !network_address_eq by done. cbn_bind.
  pose proof (blen_network_address peer Hp). pose proof (blen_network_address me Hm).
  pose proof (blen_nonneg ua). pose proof (bm_varint_size_pos (blen ua)).
  unfold bm_varstr_size.
  do 6 (rewrite wr_malloc by (rewrite ?blen_app, ?blen_be_split; lia); cbn_bind).
  rewrite varstr_encode_malloc by (unfold bm_varstr_size; rewrite ?blen_app, ?blen_be_split; lia).
  cbn_bind. unfold bm_varstr_size.
  rewrite wr_malloc by (rewrite ?blen_app, ?blen_be_split, ?blen_varint_bytes, ?blen_cons, ?blen_nil; lia).
  cbn_bind. rewrite wr_malloc_last by
    (rewrite ?blen_app, ?blen_be_split, ?blen_varint_bytes, ?blen_cons, ?blen_nil; lia).
  by rewrite <- !app_assoc.
Qed.

Lemma blen_version_payload ua version now nonce peer me :
  sockaddr_ok peer -> sockaddr_ok me ->
  blen (version_payload ua version now nonce peer me) = bm_version_payload_size ua.
Proof.
  intros Hp Hm. unfold version_payload, bm_version_payload_size, bm_varstr_size.
  rewrite !blen_app, !blen_be_split, !blen_network_address, blen_varint_bytes by done.
  rewrite !blen_cons, blen_nil. lia.
Qed.

Lemma varint_or_zero_at payload payload_len offset v rest :
  is_u64 v -> 0 <= offset -> payload_len = blen payload -> payload_len < 2 ^ 64 ->
  drop (Z.to_nat offset) payload = varint_bytes v ++ rest ->
  varint_or_zero payload payload_len offset = Ok (bm_varint_size v, v).
Proof.
  intros Hv Ho -> Hl E. pose proof (bm_varint_size_pos v). pose proof (blen_nonneg rest).
  pose proof (f_equal blen E) as El. rewrite blen_app, blen_varint_bytes in El.
  assert (offset <= blen payload) by (unfold blen in *; rewrite length_drop in El; lia).
  rewrite blen_drop in El by lia. unfold varint_or_zero.
  rewrite u64_small by (unfold is_u64; lia). rewrite E, varint_decode_cases; [done|done|lia].
Qed.

Lemma parse_version_payload ua version now nonce peer me :
  sockaddr_ok peer -> sockaddr_ok me -> is_u32 version -> is_u64 now -> is_u64 nonce ->
  blen ua <= BM_MAX_MESSAGE_LENGTH ->
  let p := version_payload ua version now nonce peer me in
  bm_parse_version_message (Some p) (blen p)
  = Ok {| v_version := version; v_services := BM_SERVICE_NODE_DANDELION; v_timestamp := now;
          v_addr_recv := network_address_bytes peer; v_addr_from := network_address_bytes me;
          v_nonce := nonce; v_user_agent := ua; v_stream_numbers := [1] |}.
Proof.
  intros Hp Hm Hv Hn Hr Hu p. unfold BM_MAX_MESSAGE_LENGTH in Hu.
  pose proof (blen_nonneg ua). pose proof (bm_varint_size_pos (blen ua)) as Hs.
  pose proof (blen_network_address peer Hp) as Lp. pose proof (blen_network_address me Hm) as Lm.
  assert (Lv : blen p = bm_version_payload_size ua) by (by apply blen_version_payload).
  unfold bm_version_payload_size, bm_varstr_size in Lv.
  set (fs := [be_split 4 version; be_split 8 BM_SERVICE_NODE_DANDELION; be_split 8 now;
    network_address_bytes peer; network_address_bytes me; be_split 8 nonce;
    varint_bytes (blen ua); ua; [1; 1]]).
  assert (E : p = concat fs) by (cbn [fs concat]; by rewrite app_nil_r).
  assert (U : is_u64 (blen ua)) by (unfold is_u64; lia).
  unfold bm_parse_version_message, read_be32, read_be64.
  assert (R : forall i f off n, fs !! i = Some f -> off = blen (concat (take i fs)) ->
    n = blen f -> rdn p off n = Ok f) by (intros; rewrite E; by eapply rdn_field).
  assert (D : forall i off, off = blen (concat (take i fs)) ->
    drop (Z.to_nat off) p = concat (drop i fs)) by (intros; rewrite E; by apply drop_field).
  rewrite (R 0%nat (be_split 4 version) 0 4) by (done || subst fs; len_fields).
  rewrite (R 1%nat (be_split 8 BM_SERVICE_NODE_DANDELION) 4 8) by (done || subst fs; len_fields).
  rewrite (R 2%nat (be_split 8 now) 12 8) by (done || subst fs; len_fields).
  rewrite (R 3%nat (network_address_bytes peer) 20 26) by (done || subst fs; len_fields).
  rewrite (R 4%nat (network_address_bytes me) 46 26) by (done || subst fs; len_fields).
  rewrite (R 5%nat (be_split 8 nonce) 72 8) by (done || subst fs; len_fields). cbn_bind.
  rewrite (varint_or_zero_at _ _ _ (blen ua) (ua ++ [1; 1]));
    [|done|lia|done|lia|apply (D 6%nat); subst fs; len_fields]. cbn_bind.
  rewrite (R 7%nat ua) by (done || subst fs; len_fields). cbn_bind.
  rewrite u64_small by (unfold is_u64; lia).
  rewrite wr_malloc_start by lia. cbn_bind.
  rewrite wr_malloc_last by (rewrite ?blen_cons, ?blen_nil; lia). cbn_bind.
  assert (Dt : drop (Z.to_nat (80 + bm_varint_size (blen ua) + blen ua)) p = varint_bytes 1 ++ [1])
    by (apply (D 8%nat); subst fs; len_fields).
  rewrite (varint_or_zero_at _ _ _ 1 [1]); [|done|lia|done|lia|done]. cbn_bind.
  change (Z.to_nat 1) with 1%nat. cbn [version_streams].
  rewrite (varint_or_zero_at _ _ _ 1 []);
    [|done|change (bm_varint_size 1) with 1; lia|done|lia|].
  2:{ change (bm_varint_size 1) with 1. rewrite Z2Nat.inj_add, <- drop_drop, Dt by lia. done. }
  cbn_bind. change (u64 (8 * 1)) with 8. zdec. cbn_bind.
  rewrite !be_combine_split, !Z.mod_small by (done || unfold is_u32, is_u64 in *; lia).
  unfold blen. by rewrite Nat2Z.id, take_app_length.
Qed.

(** The parser trusts the fixed part of the payload to be there. *)
Lemma parse_version_short payload payload_len :
  blen payload < 80 -> bm_parse_version_message (Some payload) payload_len = Ub.
Proof.
  intros Hs. unfold bm_parse_version_message, read_be32, read_be64.
  assert (O : forall off n, blen payload < off + n -> rdn payload off n = Ub)
    by (intros; by apply rdn_oob).
  destruct (rdn payload 0 4) eqn:E1; [|by unfold rdn in E1; case_match|done]. cbn_bind.
  destruct (rdn payload 4 8) eqn:E2; [|by unfold rdn in E2; case_match|done]. cbn_bind.
  destruct (rdn payload 12 8) eqn:E3; [|by unfold rdn in E3; case_match|done]. cbn_bind.
  destruct (rdn payload 20 26) eqn:E4; [|by unfold rdn in E4; case_match|done]. cbn_bind.
  destruct (rdn payload 46 26) eqn:E5; [|by unfold rdn in E5; case_match|done]. cbn_bind.
  by rewrite O.
Qed.

Section VersionMessage.
Context `{OSL : OpenSSLLaws}.
Variable g : protocol_globals.
Hypothesis magic_4 : blen (bm_magicbytes g) = 4.

(** [bm_new_version_message] builds its frame in place; the result is the one
    [bm_create_packet] would build. *)
Lemma new_version_message_eq ua version peer me now rnd :
  sockaddr_ok peer -> sockaddr_ok me ->
  bm_new_version_message g ua version peer me now rnd
  = Ok (packet g (cstr "version"%string)
          (version_payload ua version now (default 0 rnd) peer me)).
Proof.
  intros Hp Hm. unfold bm_new_version_message, BM_MESSAGE_HEADER_SIZE, write_be32.
  set (p := version_payload ua version now (default 0 rnd) peer me).
  assert (Lp : blen p = bm_version_payload_size ua) by (by apply blen_version_payload).
  pose proof (blen_nonneg p). rewrite be_split_u32.
  rewrite (malloc_app 24) by lia.
  rewrite create_version_payload_fill by done. cbn_bind. fold p.
  change (malloc 24) with (malloc 4 ++ malloc 12 ++ malloc 4 ++ malloc 4).
  rewrite <- !app_assoc.
  rewrite wr_over_first by done. cbn_bind. rewrite wr_over by done. cbn_bind.
  change (replicate 12 0) with (replicate 7 0 ++ replicate 5 0). rewrite <- !app_assoc.
  rewrite wr_over by done. cbn_bind.
  rewrite (app_assoc _ (replicate 5 0)), (app_assoc (bm_magicbytes g)).
  rewrite wr_over by (rewrite ?blen_app, ?blen_be_split, ?magic_4; done). cbn_bind.
  rewrite <- (app_assoc (bm_magicbytes g)).
  destruct (frame_fields (bm_magicbytes g) (cstr "version"%string ++ replicate 5 0)
    (be_split 4 (bm_version_payload_size ua)) (malloc 4) p) as (_ & _ & _ & _ & R);
    [done..|]. rewrite R by lia. cbn_bind. clear R.
  rewrite slice_all, (app_assoc (bm_magicbytes g)), (app_assoc _ (be_split 4 _)) by lia.
  rewrite wr_over by (rewrite ?blen_app, ?blen_be_split, ?magic_4, ?blen_checksum; done).
  unfold packet, frame. rewrite Lp, <- !app_assoc. done.
Qed.
End VersionMessage.

(** ** addr payloads *)

Definition address_info_ok (a : bm_address_info) : Prop :=
  is_u64 (ai_time a) /\ is_u32 (ai_stream a) /\ is_u64 (ai_services a)
  /\ blen (ai_ip a) = 16 /\ bytes_ok (ai_ip a) /\ 0 <= ai_port a < 2 ^ 16.

Definition address_fields (a : bm_address_info) : list (list Z) :=
  [be_split 8 (ai_time a); be_split 4 (ai_stream a); be_split 8 (ai_services a); ai_ip a;
   be_split 2 (ai_port a)].
Definition address_bytes (a : bm_address_info) : list Z := concat (address_fields a).

Lemma blen_address_bytes a : address_info_ok a -> blen (address_bytes a) = 38.
Proof.
  intros (_ & _ & _ & Hip & _). unfold address_bytes, address_fields. len_fields.
Qed.

Lemma write_addresses_fill pre addresses p :
  Forall address_info_ok addresses -> p = blen pre ->
  write_addresses (pre ++ malloc (Z.of_nat (length addresses) * 38)) p addresses
  = Ok (pre ++ concat (map address_bytes addresses)).
Proof.
  revert pre p. induction addresses as [|a l IH]; intros pre p Hok ->; [done|].
  apply Forall_cons_1 in Hok as [Ha Hl]. destruct Ha as (_ & _ & _ & Hip & _).
  cbn [write_addresses length map concat]. unfold write_be64, write_be32.
  do 5 (rewrite wr_malloc by (rewrite ?blen_app, ?blen_be_split; lia); cbn_bind).
  rewrite !blen_be_split, Hip.
  replace (Z.of_nat (S (length l)) * 38 - Z.of_nat 8 - Z.of_nat 4 - Z.of_nat 8 - 16 - Z.of_nat 2)
    with (Z.of_nat (length l) * 38) by lia.
  rewrite IH; [|done|rewrite !blen_app, !blen_be_split; lia].
  unfold address_bytes, address_fields. cbn [concat]. by rewrite app_nil_r, <- !app_assoc.
Qed.

Lemma addr_payload_eq addresses :
  Forall address_info_ok addresses ->
  addr_payload addresses
  = Ok (varint_bytes (Z.of_nat (length addresses)) ++ concat (map address_bytes addresses)).
Proof.
  intros Hok. unfold addr_payload. set (n := Z.of_nat (length addresses)).
  rewrite varint_encode_malloc_start by lia. cbn_bind.
  replace (bm_varint_size n + n * 38 - bm_varint_size n) with (n * 38) by lia.
  apply write_addresses_fill; [done|by rewrite blen_varint_bytes].
Qed.

Lemma addr_entry_read pre a rest off :
  address_info_ok a -> off = blen pre ->
  let p := pre ++ address_bytes a ++ rest in
  read_be64 p off = Ok (ai_time a) /\ read_be32 p (off + 8) = Ok (ai_stream a)
  /\ read_be64 p (off + 12) = Ok (ai_services a) /\ rdn p (off + 20) 16 = Ok (ai_ip a)
  /\ read_be16 p (off + 36) = Ok (ai_port a).
Proof.
  intros (Ht & Hs & Hv & Hip & _ & Hp) -> p.
  assert (R : forall i f off n, address_fields a !! i = Some f ->
    off = blen pre + blen (concat (take i (address_fields a))) -> n = blen f ->
    rdn p off n = Ok f).
  { intros i f off n Hf -> ->.
    assert (p = concat ([pre] ++ address_fields a ++ [rest])) as ->.
    { subst p. rewrite !concat_app. cbn [concat]. by rewrite !app_nil_r. }
    eapply (rdn_field _ (S i)); [exact (lookup_app_l_Some _ [rest] _ _ Hf)| |done].
    cbn [take app concat].
    rewrite take_app_le by (apply lookup_lt_Some in Hf; lia). by rewrite blen_app. }
  unfold read_be64, read_be32, read_be16.
  rewrite (R 0%nat (be_split 8 (ai_time a)) (blen pre) 8) by (done || unfold address_fields; len_fields).
  rewrite (R 1%nat (be_split 4 (ai_stream a)) (blen pre + 8) 4) by (done || unfold address_fields; len_fields).
  rewrite (R 2%nat (be_split 8 (ai_services a)) (blen pre + 12) 8) by (done || unfold address_fields; len_fields).
  rewrite (R 3%nat (ai_ip a) (blen pre + 20) 16) by (done || unfold address_fields; len_fields).
  rewrite (R 4%nat (be_split 2 (ai_port a)) (blen pre + 36) 2) by (done || unfold address_fields; len_fields).
  cbn_bind. rewrite !be_combine_split, !Z.mod_small by (done || unfold is_u64, is_u32 in *; lia).
  done.
Qed.

Lemma addr_entries_read pre addresses cap i off :
  Forall address_info_ok addresses -> off = blen pre ->
  48 * (i + Z.of_nat (length addresses)) <= cap ->
  addr_entries (pre ++ concat (map address_bytes addresses)) cap off i (length addresses)
  = Ok addresses.
Proof.
  revert pre i off. induction addresses as [|a l IH]; intros pre i off Hok -> Hcap; [done|].
  apply Forall_cons_1 in Hok as [Ha Hl]. cbn [length addr_entries map concat] in *.
  pose proof (blen_nonneg (concat (map address_bytes l))).
  rewrite !blen_app, blen_address_bytes by done. zdec.
  destruct (addr_entry_read pre a (concat (map address_bytes l)) (blen pre) Ha eq_refl)
    as (-> & -> & -> & -> & ->). cbn_bind. zdec.
  rewrite app_assoc, IH;
    [cbn_bind; by destruct a|done|rewrite blen_app, blen_address_bytes by done; lia|lia].
Qed.

(** The loop reads inside the payload; only the store can be out of bounds. *)
Lemma addr_entries_safe payload cap off i n :
  0 <= off -> 48 * (i + Z.of_nat n) <= cap -> safe (addr_entries payload cap off i n).
Proof.
  revert off i. induction n as [|n IH]; intros off i Ho Hc; [done|].
  cbn [addr_entries]. destruct (Z.gtb_spec (off + 38) (blen payload)); [done|].
  rewrite !field_be64_in, field_be32_in, field_be16_in, rdn_ok by lia. cbn_bind. zdec.
  apply safe_bind; [apply IH; lia|done].
Qed.

Lemma addr_entries_count payload cap off i n l :
  0 <= off -> addr_entries payload cap off i n = Ok l ->
  length l = n /\ (off <= blen payload -> off + 38 * Z.of_nat n <= blen payload).
Proof.
  revert off i l. induction n as [|n IH]; intros off i l Ho Hl; cbn [addr_entries] in Hl.
  { injection Hl as <-. split; [done|lia]. }
  destruct (Z.gtb_spec (off + 38) (blen payload)); [done|].
  rewrite !field_be64_in, field_be32_in, field_be16_in, rdn_ok in Hl by lia.
  rewrite !bind_ok in Hl. case_match; [done|]. inv_bind Hl. injection Hl as <-.
  apply IH in E as [<- ?]; [|lia]. split; [done|lia].
Qed.

(** ** inventory payloads *)

Definition hash_ok (h : list Z) : Prop := blen h = 32 /\ bytes_ok h.

Lemma write_hashes_fill pre hashes p :
  Forall hash_ok hashes -> p = blen pre ->
  write_hashes (pre ++ malloc (Z.of_nat (length hashes) * 32)) p hashes
  = Ok (pre ++ concat hashes).
Proof.
  revert pre p. induction hashes as [|h l IH]; intros pre p Hok ->; [done|].
  apply Forall_cons_1 in Hok as [[Hh _] Hl]. cbn [write_hashes length concat].
  rewrite wr_malloc by lia. cbn_bind. rewrite Hh.
  replace (Z.of_nat (S (length l)) * 32 - 32) with (Z.of_nat (length l) * 32) by lia.
  rewrite IH; [by rewrite <- app_assoc|done|rewrite blen_app; lia].
Qed.

Lemma inventory_payload_eq hashes :
  Forall hash_ok hashes ->
  inventory_payload hashes = Ok (varint_bytes (Z.of_nat (length hashes)) ++ concat hashes).
Proof.
  intros Hok. unfold inventory_payload. set (n := Z.of_nat (length hashes)).
  rewrite varint_encode_malloc_start by lia. cbn_bind.
  replace (bm_varint_size n + n * 32 - bm_varint_size n) with (n * 32) by lia.
  apply write_hashes_fill; [done|by rewrite blen_varint_bytes].
Qed.

Lemma blen_concat_hashes hashes :
  Forall hash_ok hashes -> blen (concat hashes) = 32 * Z.of_nat (length hashes).
Proof.
  induction 1 as [|h l [Hh _] _ IH]; [done|]. cbn [concat length]. rewrite blen_app, Hh, IH. lia.
Qed.

Lemma inventory_items_read pre hashes off :
  Forall hash_ok hashes -> off = blen pre ->
  inventory_items (pre ++ concat hashes) off (length hashes) = Ok hashes.
Proof.
  revert pre off. induction hashes as [|h l IH]; intros pre off Hok ->; [done|].
  apply Forall_cons_1 in Hok as [[Hh ?] Hl]. cbn [inventory_items length concat].
  rewrite rdn_app_mid by done. cbn_bind.
  rewrite app_assoc, IH; [done|done|rewrite blen_app; lia].
Qed.

(** Any run of whole items is read completely, and the items are its bytes. *)
Lemma inventory_items_all payload off n :
  bytes_ok payload -> 0 <= off -> off + 32 * Z.of_nat n = blen payload ->
  exists items, inventory_items payload off n = Ok items /\ Forall hash_ok items
    /\ length items = n /\ concat items = drop (Z.to_nat off) payload.
Proof.
  intros Hb. revert off. induction n as [|n IH]; intros off Ho He.
  { exists []. split_and!; [done|done|done|]. symmetry. apply drop_ge. unfold blen in He. lia. }
  cbn [inventory_items]. rewrite rdn_ok by lia. cbn_bind.
  destruct (IH (off + 32)) as (items & -> & Hok & Hlen & Hc); [lia..|]. cbn_bind.
  eexists. split; [done|]. split_and!.
  - constructor; [split; [rewrite blen_slice; lia|auto with bytes]|done].
  - cbn [length]. lia.
  - cbn [concat]. rewrite Hc. unfold slice.
    rewrite Z2Nat.inj_add by lia. rewrite <- drop_drop. apply take_drop.
Qed.

Lemma parse_inventory_payload hashes :
  Forall hash_ok hashes -> Z.of_nat (length hashes) < 2 ^ 64 ->
  bm_parse_inventory_message (varint_bytes (Z.of_nat (length hashes)) ++ concat hashes)
  = Ok hashes.
Proof.
  intros Hok Hn. unfold bm_parse_inventory_message. set (n := Z.of_nat (length hashes)) in *.
  rewrite blen_app, blen_varint_bytes, blen_concat_hashes by done. fold n.
  rewrite varint_decode_cases by (unfold is_u64; lia). cbn_bind.
  replace (bm_varint_size n + 32 * n - bm_varint_size n) with (n * 32) by lia.
  rewrite Z.mod_mul, Z.div_mul by lia. zdec. unfold n. rewrite Nat2Z.id.
  apply inventory_items_read; [done|by rewrite blen_varint_bytes].
Qed.

Lemma parse_addr_payload addresses :
  Forall address_info_ok addresses -> 48 * Z.of_nat (length addresses) < 2 ^ 64 ->
  bm_parse_addr_message (varint_bytes (Z.of_nat (length addresses))
                         ++ concat (map address_bytes addresses))
  = Ok (Z.of_nat (length addresses), addresses).
Proof.
  intros Hok Hn. unfold bm_parse_addr_message. set (n := Z.of_nat (length addresses)) in *.
  rewrite varint_decode_cases; [|unfold is_u64; lia|].
  2:{ rewrite blen_app, blen_varint_bytes.
      pose proof (blen_nonneg (concat (map address_bytes addresses))). lia. }
  cbn_bind. replace (Z.to_nat n) with (length addresses) by lia.
  rewrite u64_small by (unfold is_u64; lia).
  rewrite addr_entries_read; [done|done|by rewrite blen_varint_bytes|lia].
Qed.

(** ** Properties *)

Section ProtocolProperties.
Context `{OSL : OpenSSLLaws}.

(** Frames round trip: what [bm_create_packet] builds for a command and a
    payload of at most 4 MiB, followed by anything, is parsed by a node of the
    same network as that command (padded to its 12-byte field) and that
    payload, consuming exactly the frame; the empty payload, whose checksum is a
    constant of the source, included.  A node of the other network skips one
    byte and resynchronises. *)
Theorem bm_create_packet_roundtrip (enabled : bool) (cmd payload rest : list Z) :
  blen payload <= BM_MAX_MESSAGE_LENGTH ->
  exists p,
    bm_create_packet (bm_protocol_set_testnet enabled) cmd payload = Ok p
    /\ blen p = 24 + blen payload
    /\ bm_parse_message (bm_protocol_set_testnet enabled) (p ++ rest)
       = Ok (BM_PARSE_OK {| msg_command := command_field cmd; msg_length := blen payload;
               msg_checksum := be_combine (take 4 (bm_sha512 payload));
               msg_payload := if blen payload >? 0 then Some payload else None |} (blen p))
    /\ bm_parse_message (bm_protocol_set_testnet (negb enabled)) (p ++ rest)
       = Ok (BM_PARSE_BAD_MAGIC 1).
Proof.
  intros Hm. eexists. rewrite create_packet_eq by apply set_testnet_magic. split; [done|].
  assert (L : blen (packet (bm_protocol_set_testnet enabled) cmd payload) = 24 + blen payload).
  { apply blen_packet, set_testnet_magic. }
  split; [done|]. rewrite L. split; [apply parse_packet; [apply set_testnet_magic|done]|].
  pose proof (blen_nonneg payload). pose proof (blen_nonneg rest).
  unfold bm_parse_message, BM_MESSAGE_HEADER_SIZE. rewrite blen_app, L. zdec.
  unfold packet, frame. rewrite <- app_assoc, rdn_prefix by (by rewrite set_testnet_magic).
  cbn_bind. by destruct enabled.
Qed.

(** C17: The frame parser answers on every block of received bytes, reads
    nothing outside it, and its verdict says what the block starts with: an
    accepted message is exactly a frame of this network whose checksum is that
    of its payload, at most 4 MiB long; [INCOMPLETE] only when the header or
    announced payload is not there yet; every verdict that drops bytes drops
    at least one and no more than there are. *)
Theorem bm_parse_message_verdict (enabled : bool) (data : list Z) :
  bytes_ok data ->
  exists r, bm_parse_message (bm_protocol_set_testnet enabled) data = Ok r
    /\ parse_verdict (bm_protocol_set_testnet enabled) data r.
Proof. apply parse_message_verdict, set_testnet_magic. Qed.

(** The [version] message a node sends is parsed by its peer, frame and
    payload, into the version, service bits, clock, addresses, nonce, user
    agent and the single stream 1 that were sent. *)
Theorem bm_new_version_message_roundtrip (enabled : bool) (ua rest : list Z)
    (version now : Z) (rnd : option Z) (peer me : sockaddr_storage) :
  sockaddr_ok peer -> sockaddr_ok me -> is_u32 version -> is_u64 now ->
  is_u64 (default 0 rnd) -> bm_version_payload_size ua <= BM_MAX_MESSAGE_LENGTH ->
  exists p msg,
    bm_new_version_message (bm_protocol_set_testnet enabled) ua version peer me now rnd = Ok p
    /\ blen p = bm_version_message_size ua
    /\ bm_parse_message (bm_protocol_set_testnet enabled) (p ++ rest)
       = Ok (BM_PARSE_OK msg (blen p))
    /\ msg_command msg = cstr "version"%string ++ replicate 5 0
    /\ bm_parse_version_message (msg_payload msg) (msg_length msg)
       = Ok {| v_version := version; v_services := BM_SERVICE_NODE_DANDELION;
               v_timestamp := now; v_addr_recv := network_address_bytes peer;
               v_addr_from := network_address_bytes me; v_nonce := default 0 rnd;
               v_user_agent := ua; v_stream_numbers := [1] |}.
Proof.
  intros Hp Hm Hv Hn Hr Hs. pose proof (set_testnet_magic enabled) as M.
  set (body := version_payload ua version now (default 0 rnd) peer me).
  assert (Lb : blen body = bm_version_payload_size ua) by (by apply blen_version_payload).
  pose proof (blen_nonneg ua). pose proof (bm_varint_size_pos (blen ua)).
  eexists _, _. rewrite new_version_message_eq by done. fold body. split; [done|].
  assert (L : blen (packet (bm_protocol_set_testnet enabled) (cstr "version"%string) body)
              = 24 + blen body).
  { by apply blen_packet. }
  rewrite L. split; [by rewrite Lb|]. split; [apply parse_packet; [done|lia]|].
  unfold bm_version_payload_size, bm_varstr_size in *.
  cbn [msg_command msg_payload msg_length]. split; [done|]. zdec.
  apply parse_version_payload; (done || lia).
Qed.

(** [bm_parse_version_message] has no bounds check: on every payload
    shorter than its 80 fixed bytes, and on the empty payload (whose pointer is
    null), it reads outside the payload. *)
Theorem bm_parse_version_message_short (payload : option (list Z)) (payload_len : Z) :
  match payload with Some p => blen p < 80 | None => True end ->
  bm_parse_version_message payload payload_len = Ub.
Proof. destruct payload as [p|]; [apply parse_version_short|done]. Qed.

(** [addr] messages round trip: the addresses a node shares reach a peer
    that parses the frame and its payload unchanged and in order. *)
Theorem bm_create_addr_message_roundtrip (enabled : bool) (addresses : list bm_address_info)
    (rest : list Z) :
  Forall address_info_ok addresses -> addresses <> [] ->
  9 + 38 * Z.of_nat (length addresses) <= BM_MAX_MESSAGE_LENGTH ->
  exists p msg body,
    bm_create_addr_message (bm_protocol_set_testnet enabled) addresses = Ok p
    /\ bm_parse_message (bm_protocol_set_testnet enabled) (p ++ rest)
       = Ok (BM_PARSE_OK msg (blen p))
    /\ msg_command msg = cstr "addr"%string ++ replicate 8 0
    /\ msg_payload msg = Some body
    /\ bm_parse_addr_message body = Ok (Z.of_nat (length addresses), addresses).
Proof.
  intros Hok Hne Hmax. pose proof (set_testnet_magic enabled) as M.
  set (body := varint_bytes (Z.of_nat (length addresses)) ++ concat (map address_bytes addresses)).
  assert (Lb : 1 <= blen body <= 9 + 38 * Z.of_nat (length addresses)).
  { subst body. rewrite blen_app, blen_varint_bytes.
    pose proof (bm_varint_size_pos (Z.of_nat (length addresses))).
    assert (blen (concat (map address_bytes addresses)) = 38 * Z.of_nat (length addresses)); [|lia].
    clear -Hok. induction Hok as [|a l Ha _ IH]; [done|].
    cbn [map concat length]. rewrite blen_app, blen_address_bytes, IH by done. lia. }
  unfold bm_create_addr_message.
  assert (length addresses <> 0)%nat by (by destruct addresses). zdec.
  rewrite addr_payload_eq by done. cbn_bind. rewrite create_packet_eq by done. fold body.
  eexists _, _, body. split; [done|].
  assert (L : blen (packet (bm_protocol_set_testnet enabled) (cstr "addr"%string) body)
              = 24 + blen body).
  { by apply blen_packet. }
  rewrite L. split; [apply parse_packet; [done|lia]|]. split; [done|].
  split; [cbn [msg_payload]; by zdec|].
  unfold BM_MAX_MESSAGE_LENGTH in Hmax. apply parse_addr_payload; [done|lia].
Qed.

(** [bm_parse_addr_message] stays inside its payload and inside the block
    it allocates whenever the declared count times 48 does not wrap around in
    the size computation, and then returns exactly the declared number of
    entries, all of which fit in the payload. *)
Theorem bm_parse_addr_message_safe (payload : list Z) :
  (forall c count, bm_varint_decode payload (blen payload) = Ok (c, count) ->
     0 <= 48 * count < 2 ^ 64) ->
  safe (bm_parse_addr_message payload)
  /\ forall count l, bm_parse_addr_message payload = Ok (count, l) ->
       Z.of_nat (length l) = count /\ 38 * count < blen payload.
Proof.
  intros Hw. unfold bm_parse_addr_message. pose proof (varint_decode_safe payload (blen payload)) as S.
  destruct (bm_varint_decode payload (blen payload)) as [[c count]| |] eqn:E; cbn_bind;
    [|done|by destruct S].
  specialize (Hw c count eq_refl). apply varint_decode_le in E.
  rewrite u64_small by (unfold is_u64; lia). split.
  - apply safe_bind; [apply addr_entries_safe; lia|done].
  - intros count' l Hl. inv_bind Hl. injection Hl as <- <-.
    apply addr_entries_count in E0 as [? ?]; lia.
Qed.

(** The size [bm_parse_addr_message] allocates wraps: a peer that declares
    2^60 addresses makes [malloc] return a block of 0 bytes, and the first entry
    is stored outside it, whatever the entries are. *)
Theorem bm_parse_addr_message_overflow (entries : list Z) :
  38 <= blen entries ->
  bm_parse_addr_message (varint_bytes (2 ^ 60) ++ entries) = Ub.
Proof.
  intros He. unfold bm_parse_addr_message. rewrite varint_decode_cases;
    [|unfold is_u64; lia|rewrite blen_app, blen_varint_bytes; lia]. cbn_bind.
  destruct (Z.to_nat (2 ^ 60)) as [|n] eqn:En; [lia|]. cbn [addr_entries].
  change (bm_varint_size (2 ^ 60)) with 9. change (u64 (48 * 2 ^ 60)) with 0.
  assert (blen (varint_bytes (2 ^ 60) ++ entries) = 9 + blen entries)
    by (by rewrite blen_app, blen_varint_bytes).
  zdec. rewrite !field_be64_in, field_be32_in, field_be16_in, rdn_ok by lia. cbn_bind. done.
Qed.

(** [inv], [dinv] and [getdata] round trip: the hashes a node announces or
    asks for reach a peer that parses the frame and its payload unchanged and in
    order. *)
Theorem bm_create_inventory_message_roundtrip (enabled : bool) (cmd : list Z)
    (hashes : list (list Z)) (rest : list Z) :
  Forall hash_ok hashes -> 9 + 32 * Z.of_nat (length hashes) <= BM_MAX_MESSAGE_LENGTH ->
  exists p msg body,
    bm_create_inventory_message (bm_protocol_set_testnet enabled) cmd hashes = Ok p
    /\ bm_parse_message (bm_protocol_set_testnet enabled) (p ++ rest)
       = Ok (BM_PARSE_OK msg (blen p))
    /\ msg_command msg = command_field cmd
    /\ msg_payload msg = Some body /\ bm_parse_inventory_message body = Ok hashes.
Proof.
  intros Hok Hmax. pose proof (set_testnet_magic enabled) as M.
  set (body := varint_bytes (Z.of_nat (length hashes)) ++ concat hashes).
  assert (Lb : 1 <= blen body <= 9 + 32 * Z.of_nat (length hashes)).
  { subst body. rewrite blen_app, blen_varint_bytes, blen_concat_hashes by done.
    pose proof (bm_varint_size_pos (Z.of_nat (length hashes))). lia. }
  unfold bm_create_inventory_message. rewrite inventory_payload_eq by done. cbn_bind.
  rewrite create_packet_eq by done. fold body. eexists _, _, body. split; [done|].
  assert (L : blen (packet (bm_protocol_set_testnet enabled) cmd body) = 24 + blen body).
  { by apply blen_packet. }
  rewrite L. split; [apply parse_packet; [done|lia]|]. split; [done|].
  split; [cbn [msg_payload]; by zdec|].
  unfold BM_MAX_MESSAGE_LENGTH in Hmax. apply parse_inventory_payload; [done|lia].
Qed.

(** Whatever a peer sends as [inv] or [getdata], the parser reads only its
    payload; what it accepts is a count followed by whole 32-byte hashes, and it
    returns those hashes, all of them, whatever the count says. *)
Theorem bm_parse_inventory_message_sound (payload : list Z) :
  bytes_ok payload ->
  safe (bm_parse_inventory_message payload)
  /\ forall items, bm_parse_inventory_message payload = Ok items ->
       Forall hash_ok items
       /\ exists c count, bm_varint_decode payload (blen payload) = Ok (c, count)
            /\ drop (Z.to_nat c) payload = concat items
            /\ blen payload = c + 32 * Z.of_nat (length items).
Proof.
  intros Hb. unfold bm_parse_inventory_message.
  pose proof (varint_decode_safe payload (blen payload)) as S.
  destruct (bm_varint_decode payload (blen payload)) as [[c count]| |] eqn:E; cbn_bind;
    [|done|by destruct S].
  apply varint_decode_le in E.
  destruct (Z.eqb_spec ((blen payload - c) mod 32) 0) as [Hd|]; [|done]. cbn [negb].
  pose proof (Z.div_mod (blen payload - c) 32 ltac:(lia)).
  destruct (inventory_items_all payload c (Z.to_nat ((blen payload - c) / 32)))
    as (items & -> & Hok & Hlen & Hc); [done|lia|lia|].
  split; [done|]. intros items' [= <-]. split; [done|]. exists c, count. by split_and!; [| |lia].
Qed.
End ProtocolProperties.

(** ** The properties on concrete inputs *)

Section ProtocolWitnesses.
#[local] Existing Instance toy_OpenSSL.
#[local] Existing Instance toy_OpenSSLLaws.

Lemma bm_create_packet_roundtrip_witness :
  exists p,
    bm_create_packet (bm_protocol_set_testnet true) (cstr "pong"%string) [] = Ok p
    /\ blen p = 24 + blen []
    /\ bm_parse_message (bm_protocol_set_testnet true) (p ++ [7])
       = Ok (BM_PARSE_OK {| msg_command := command_field (cstr "pong"%string);
               msg_length := blen []; msg_checksum := be_combine (take 4 (bm_sha512 []));
               msg_payload := if blen [] >? 0 then Some [] else None |} (blen p))
    /\ bm_parse_message (bm_protocol_set_testnet (negb true)) (p ++ [7])
       = Ok (BM_PARSE_BAD_MAGIC 1).
Proof. apply bm_create_packet_roundtrip. by vm_compute. Defined.

Lemma bm_parse_message_verdict_witness :
  exists r, bm_parse_message (bm_protocol_set_testnet false) (replicate 30 233) = Ok r
    /\ parse_verdict (bm_protocol_set_testnet false) (replicate 30 233) r.
Proof. apply bm_parse_message_verdict. by apply (bool_decide_unpack _); vm_compute. Defined.

Lemma bm_new_version_message_roundtrip_witness :
  exists p msg,
    bm_new_version_message (bm_protocol_set_testnet false) (cstr "/bm/"%string) 3
      (AF_INET [203; 0; 113; 42] [32; 252]) bm_unspecified_ipv4_address 1700000000 None = Ok p
    /\ blen p = bm_version_message_size (cstr "/bm/"%string)
    /\ bm_parse_message (bm_protocol_set_testnet false) (p ++ [])
       = Ok (BM_PARSE_OK msg (blen p))
    /\ msg_command msg = cstr "version"%string ++ replicate 5 0
    /\ bm_parse_version_message (msg_payload msg) (msg_length msg)
       = Ok {| v_version := 3; v_services := BM_SERVICE_NODE_DANDELION;
               v_timestamp := 1700000000;
               v_addr_recv := network_address_bytes (AF_INET [203; 0; 113; 42] [32; 252]);
               v_addr_from := network_address_bytes bm_unspecified_ipv4_address;
               v_nonce := default 0 None; v_user_agent := cstr "/bm/"%string;
               v_stream_numbers := [1] |}.
Proof.
  apply bm_new_version_message_roundtrip; try by vm_compute.
  all: split_and!; (done || by apply (bool_decide_unpack _); vm_compute).
Defined.

Lemma bm_parse_version_message_short_witness :
  bm_parse_version_message (Some (replicate 79 0)) 79 = Ub.
Proof. apply bm_parse_version_message_short. by vm_compute. Defined.

Lemma bm_create_addr_message_roundtrip_witness :
  let a := {| ai_time := 1700000000; ai_stream := 1; ai_services := 9;
              ai_ip := replicate 10 0 ++ [255; 255; 203; 0; 113; 42]; ai_port := 8444 |} in
  exists p msg body,
    bm_create_addr_message (bm_protocol_set_testnet false) [a] = Ok p
    /\ bm_parse_message (bm_protocol_set_testnet false) (p ++ [1])
       = Ok (BM_PARSE_OK msg (blen p))
    /\ msg_command msg = cstr "addr"%string ++ replicate 8 0
    /\ msg_payload msg = Some body
    /\ bm_parse_addr_message body = Ok (Z.of_nat (length [a]), [a]).
Proof.
  intros a. apply bm_create_addr_message_roundtrip; [|done|by vm_compute].
  constructor; [|done]. unfold address_info_ok, is_u64, is_u32.
  split_and!; try by vm_compute. by apply (bool_decide_unpack _); vm_compute.
Defined.

Lemma bm_parse_addr_message_safe_witness :
  let payload := varint_bytes 2 ++ replicate 40 0 in
  safe (bm_parse_addr_message payload)
  /\ forall count l, bm_parse_addr_message payload = Ok (count, l) ->
       Z.of_nat (length l) = count /\ 38 * count < blen payload.
Proof.
  intros payload. apply bm_parse_addr_message_safe. intros c count E. vm_compute in E.
  injection E as <- <-. lia.
Defined.

Lemma bm_parse_addr_message_overflow_witness :
  bm_parse_addr_message (varint_bytes (2 ^ 60) ++ replicate 38 0) = Ub.
Proof. apply bm_parse_addr_message_overflow. rewrite blen_replicate. lia. Defined.

Lemma bm_create_inventory_message_roundtrip_witness :
  exists p msg body,
    bm_create_inventory_message (bm_protocol_set_testnet false) (cstr "getdata"%string)
      [replicate 32 1; replicate 32 2] = Ok p
    /\ bm_parse_message (bm_protocol_set_testnet false) (p ++ [])
       = Ok (BM_PARSE_OK msg (blen p))
    /\ msg_command msg = command_field (cstr "getdata"%string)
    /\ msg_payload msg = Some body
    /\ bm_parse_inventory_message body = Ok [replicate 32 1; replicate 32 2].
Proof.
  apply bm_create_inventory_message_roundtrip; [|by vm_compute].
  by repeat constructor; try by vm_compute.
Defined.

Lemma bm_parse_inventory_message_sound_witness :
  let payload := varint_bytes 9 ++ replicate 32 1 in
  safe (bm_parse_inventory_message payload)
  /\ forall items, bm_parse_inventory_message payload = Ok items ->
       Forall hash_ok items
       /\ exists c count, bm_varint_decode payload (blen payload) = Ok (c, count)
            /\ drop (Z.to_nat c) payload = concat items
            /\ blen payload = c + 32 * Z.of_nat (length items).
Proof.
  apply bm_parse_inventory_message_sound. by apply (bool_decide_unpack _); vm_compute.
Defined.
End ProtocolWitnesses.
