(* ===== verification/Crypto.v ===== *)
(** * core/crypto.c

    ECIES (IV, ephemeral key, AES-256-CBC body, HMAC-SHA256) and ECDSA over
    SHA-256, on the OpenSSL parameters.  Random bytes are arguments; [None] is a
    failed [RAND_bytes].  Inputs are shorter than 2^31 bytes, so the [(int)]
    conversions of lengths keep their value.  Wiping of secrets
    ([OPENSSL_cleanse]) leaves no trace in the model. *)

From stdpp Require Import base tactics list numbers option.
From S2P Require Import Prelude Varint Openssl Hash Address.

#[local] Arguments be_split : simpl never.

Definition ECIES_IV_LEN : Z := 16.
Definition ECIES_PUBKEY_TLV_LEN : Z := 70.
Definition ECIES_MAC_LEN : Z := 32.
Definition SECP256K1_CURVE_ID : Z := 714.

Definition encode_pubkey_tlv (pub : list Z) : cres (list Z) :=
  let out := malloc ECIES_PUBKEY_TLV_LEN in
  out ← wr out 0 [Z.land (Z.shiftr SECP256K1_CURVE_ID 8) 255];
  out ← wr out 1 [Z.land SECP256K1_CURVE_ID 255];
  out ← wr out 2 [0];
  out ← wr out 3 [32];
  x ← rdn pub 1 32;
  out ← wr out 4 x;
  out ← wr out 36 [0];
  out ← wr out 37 [32];
  y ← rdn pub 33 32;
  wr out 38 y.

Definition decode_pubkey_tlv (tlv : list Z) : cres (list Z) :=
  t0 ← rd tlv 0; t1 ← rd tlv 1;
  let curve_id := Z.lor (Z.shiftl t0 8) t1 in
  t2 ← rd tlv 2; t3 ← rd tlv 3;
  let len_x := Z.lor (Z.shiftl t2 8) t3 in
  t36 ← rd tlv 36; t37 ← rd tlv 37;
  let len_y := Z.lor (Z.shiftl t36 8) t37 in
  if negb (curve_id =? SECP256K1_CURVE_ID) || negb (len_x =? 32) || negb (len_y =? 32)
  then Err else
  out_pub ← wr (malloc 65) 0 [4];
  x ← rdn tlv 4 32;
  out_pub ← wr out_pub 1 x;
  y ← rdn tlv 38 32;
  wr out_pub 33 y.

(** [for (i = 0; i < n; i++) diff |= a[i] ^ b[i];] *)
Fixpoint ct_diff (a b : list Z) (i : Z) (n : nat) (diff : Z) : cres Z :=
  match n with
  | O => Ok diff
  | S n => x ← rd a i; y ← rd b i; ct_diff a b (i + 1) n (Z.lor diff (u8 (Z.lxor x y)))
  end.

Section Crypto.
Context `{OS : OpenSSL}.

Definition ecdh_shared_secret (priv pub : list Z) : cres (list Z) :=
  match EC_ecdh_x priv pub with
  | Some x => if blen x =? 32 then Ok x else Err
  | None => Err
  end.

Definition aes256cbc_encrypt (key iv plaintext : list Z) : cres (list Z) :=
  match AES_256_CBC_encrypt key iv plaintext with Some c => Ok c | None => Err end.

Definition aes256cbc_decrypt (key iv ciphertext : list Z) : cres (list Z) :=
  match AES_256_CBC_decrypt key iv ciphertext with Some p => Ok p | None => Err end.

(** The callers ignore the result of [bm_hmac_sha256]: after a failure they
    read an array that was never written. *)
Definition hmac_unchecked (key data : list Z) : cres (list Z) :=
  match bm_hmac_sha256 key data with Ok m => Ok m | _ => Ub end.

Definition bm_crypto_ecies_encrypt (plaintext recipient_pub : list Z)
    (rand_priv rand_iv : option (list Z)) : cres (list Z) :=
  eph_priv ← match rand_priv with Some r => Ok r | None => Err end;
  eph_pub ← bm_address_get_public_key eph_priv;
  shared ← ecdh_shared_secret eph_priv recipient_pub;
  let k := bm_sha512 shared in
  key_e ← rdn k 0 32;
  key_m ← rdn k 32 32;
  iv ← match rand_iv with Some r => Ok r | None => Err end;
  pub_tlv ← encode_pubkey_tlv eph_pub;
  ciphertext ← aes256cbc_encrypt key_e iv plaintext;
  let prefix_len := ECIES_IV_LEN + ECIES_PUBKEY_TLV_LEN in
  let total := prefix_len + blen ciphertext + ECIES_MAC_LEN in
  output ← wr (malloc total) 0 iv;
  output ← wr output ECIES_IV_LEN pub_tlv;
  output ← wr output prefix_len ciphertext;
  input ← rdn output 0 (prefix_len + blen ciphertext);
  mac ← hmac_unchecked key_m input;
  wr output (prefix_len + blen ciphertext) mac.

Definition bm_crypto_ecies_decrypt (ciphertext priv : list Z) : cres (list Z) :=
  let ciphertext_len := blen ciphertext in
  let prefix_len := ECIES_IV_LEN + ECIES_PUBKEY_TLV_LEN in
  if ciphertext_len <? prefix_len + ECIES_MAC_LEN then Err else
  iv ← rdn ciphertext 0 ECIES_IV_LEN;
  pub_tlv ← rdn ciphertext ECIES_IV_LEN ECIES_PUBKEY_TLV_LEN;
  enc_body ← rdn ciphertext prefix_len (ciphertext_len - prefix_len - ECIES_MAC_LEN);
  mac ← rdn ciphertext (ciphertext_len - ECIES_MAC_LEN) ECIES_MAC_LEN;
  eph_pub ← decode_pubkey_tlv pub_tlv;
  shared ← ecdh_shared_secret priv eph_pub;
  let k := bm_sha512 shared in
  key_e ← rdn k 0 32;
  key_m ← rdn k 32 32;
  input ← rdn ciphertext 0 (ciphertext_len - ECIES_MAC_LEN);
  computed_mac ← hmac_unchecked key_m input;
  diff ← ct_diff computed_mac mac 0 (Z.to_nat ECIES_MAC_LEN) 0;
  if negb (diff =? 0) then Err else
  aes256cbc_decrypt key_e iv enc_body.

(** [build_ec_key(priv, pub)]: a key object, or [NULL] when the octets of [pub]
    are not a point of the curve. *)
Definition build_ec_key (priv pub : option (list Z)) : cres (option (list Z) * option (list Z)) :=
  match pub with
  | Some p => if EC_valid_public p then Ok (priv, pub) else Err
  | None => Ok (priv, pub)
  end.

Definition bm_crypto_sign (data priv rnd : list Z) : cres (list Z) :=
  pub ← bm_address_get_public_key priv;
  key ← build_ec_key (Some priv) (Some pub);
  let digest := bm_sha256 data in
  match ECDSA_sign priv rnd digest with
  | Some sig => Ok sig
  | None => Err
  end.

Definition bm_crypto_verify (data sig pub : list Z) : bool :=
  match build_ec_key None (Some pub) with
  | Ok _ => ECDSA_verify pub (bm_sha256 data) sig
  | _ => false
  end.
End Crypto.

(** ** The ephemeral key *)

Definition pubkey_tlv (pub : list Z) : list Z :=
  [2; 202; 0; 32] ++ slice pub 1 32 ++ [0; 32] ++ slice pub 33 32.

Lemma blen_pubkey_tlv pub : blen pub = 65 -> blen (pubkey_tlv pub) = 70.
Proof.
  intros Hp. unfold pubkey_tlv. rewrite !blen_app, !blen_slice by lia. done.
Qed.

Lemma encode_pubkey_tlv_eq pub : blen pub = 65 -> encode_pubkey_tlv pub = Ok (pubkey_tlv pub).
Proof.
  intros Hp. unfold encode_pubkey_tlv, ECIES_PUBKEY_TLV_LEN, pubkey_tlv.
  rewrite !rdn_ok by lia. cbn_bind.
  rewrite wr_malloc_start by (rewrite blen_cons, blen_nil; lia). cbn_bind.
  do 6 (rewrite wr_malloc
    by (rewrite ?blen_app, ?blen_cons, ?blen_nil, ?blen_slice by lia; lia); cbn_bind).
  rewrite wr_malloc_last
    by (rewrite ?blen_app, ?blen_cons, ?blen_nil, ?blen_slice by lia; lia).
  by rewrite <- !app_assoc.
Qed.

Lemma pub_split pub :
  blen pub = 65 -> pub = take 1 pub ++ slice pub 1 32 ++ slice pub 33 32.
Proof.
  intros Hp. unfold slice. rewrite <- (take_drop 1 pub) at 1. f_equal.
  change (Z.to_nat 1) with 1%nat. change (Z.to_nat 33) with (1 + 32)%nat.
  rewrite <- drop_drop. rewrite <- (take_drop 32 (drop 1 pub)) at 1. f_equal.
  symmetry. apply take_ge. rewrite !length_drop. unfold blen in Hp. lia.
Qed.

Lemma decode_pubkey_tlv_eq pub :
  blen pub = 65 -> take 1 pub = [4] -> decode_pubkey_tlv (pubkey_tlv pub) = Ok pub.
Proof.
  intros Hp H4. unfold decode_pubkey_tlv.
  assert (Hx : blen (slice pub 1 32) = 32) by (apply blen_slice; lia).
  assert (Hy : blen (slice pub 33 32) = 32) by (apply blen_slice; lia).
  set (fs := [[2; 202; 0; 32]; slice pub 1 32; [0; 32]; slice pub 33 32]).
  assert (E : pubkey_tlv pub = concat fs) by (cbn [fs concat]; by rewrite app_nil_r).
  pose proof (rdn_field fs 0 [2; 202; 0; 32] 0 4 eq_refl eq_refl eq_refl) as R0.
  pose proof (rdn_field fs 1 (slice pub 1 32) 4 32 eq_refl eq_refl ltac:(lia)) as R1.
  assert (R2 : rdn (concat fs) 36 2 = Ok [0; 32])
    by (apply (rdn_field fs 2); (done || subst fs; len_fields)).
  assert (R3 : rdn (concat fs) 38 32 = Ok (slice pub 33 32))
    by (apply (rdn_field fs 3); (done || subst fs; len_fields)).
  rewrite E, R1, R3.
  rewrite (rd_of_rdn _ _ _ _ 0 0 R0), (rd_of_rdn _ _ _ _ 1 1 R0), (rd_of_rdn _ _ _ _ 2 2 R0),
    (rd_of_rdn _ _ _ _ 3 3 R0), (rd_of_rdn _ _ _ _ 0 36 R2), (rd_of_rdn _ _ _ _ 1 37 R2) by lia.
  change (rd [2; 202; 0; 32] 0) with (Ok 2). change (rd [2; 202; 0; 32] 1) with (Ok 202).
  change (rd [2; 202; 0; 32] 2) with (Ok 0). change (rd [2; 202; 0; 32] 3) with (Ok 32).
  change (rd [0; 32] 0) with (Ok 0). change (rd [0; 32] 1) with (Ok 32). cbn_bind.
  change (negb (Z.lor (2 ≪ 8) 202 =? SECP256K1_CURVE_ID)
    || negb (Z.lor (0 ≪ 8) 32 =? 32) || negb (Z.lor (0 ≪ 8) 32 =? 32)) with false.
  cbv beta iota.
  rewrite wr_malloc_start by (rewrite blen_cons, blen_nil; lia). cbn_bind.
  rewrite wr_malloc by (rewrite ?blen_cons, ?blen_nil; lia). cbn_bind.
  rewrite wr_malloc_last by (rewrite ?blen_app, ?blen_cons, ?blen_nil; lia).
  rewrite <- app_assoc, <- H4. f_equal. symmetry. by apply pub_split.
Qed.

(** ** The constant-time comparison *)

Lemma lor_lxor_zero d x y :
  0 <= d -> is_byte x -> is_byte y -> Z.lor d (u8 (Z.lxor x y)) = 0 <-> d = 0 /\ x = y.
Proof.
  intros Hd Hx Hy. rewrite Z.lor_eq_0_iff.
  assert (E : u8 (Z.lxor x y) = Z.lxor x y).
  { unfold u8. rewrite <- Z.land_ones by lia. apply Z.bits_inj'. intros n Hn.
    rewrite Z.land_spec, Z.lxor_spec, Z.testbit_ones_nonneg by lia.
    destruct (Z.ltb_spec n 8) as [|Hg]; [by rewrite andb_true_r|]. rewrite andb_false_r.
    unfold is_byte in *.
    assert (T : forall z, 0 <= z < 256 -> Z.testbit z n = false).
    { intros z Hz. rewrite <- (Z.mod_small z (2 ^ 8)) by lia.
      apply Z.mod_pow2_bits_high. lia. }
    by rewrite !T by lia. }
  rewrite E. by rewrite Z.lxor_eq_0_iff.
Qed.

Lemma ct_diff_spec pre_a pre_b a b diff n i :
  bytes_ok a -> bytes_ok b -> length a = n -> length b = n -> 0 <= diff ->
  i = blen pre_a -> i = blen pre_b ->
  exists d, ct_diff (pre_a ++ a) (pre_b ++ b) i n diff = Ok d
    /\ 0 <= d /\ (d = 0 <-> diff = 0 /\ a = b).
Proof.
  revert pre_a pre_b a b diff i.
  induction n as [|n IH]; intros pre_a pre_b [|x a] [|y b] diff i Ha Hb La Lb Hd Hi Hj;
    try discriminate.
  { exists diff. split; [done|]. split; [done|]. tauto. }
  apply bytes_ok_cons in Ha as [Hx Ha]. apply bytes_ok_cons in Hb as [Hy Hb].
  cbn [ct_diff]. rewrite (rd_app_here pre_a), (rd_app_here pre_b) by done. cbn_bind.
  destruct (IH (pre_a ++ [x]) (pre_b ++ [y]) a b (Z.lor diff (u8 (Z.lxor x y))) (i + 1))
    as (d & E & Hd' & Hz); try done; try (simpl in *; lia).
  { apply Z.lor_nonneg. split; [done|]. apply Z.mod_pos_bound. lia. }
  { rewrite blen_app, blen_cons, blen_nil. lia. }
  { rewrite blen_app, blen_cons, blen_nil. lia. }
  rewrite <- !app_assoc in E. exists d. split; [exact E|]. split; [done|].
  rewrite Hz, lor_lxor_zero by done. split; [intros [[-> ->] ->]; done|].
  intros [-> [= -> ->]]. done.
Qed.

Lemma ct_diff_mac a b :
  bytes_ok a -> bytes_ok b -> blen a = 32 -> blen b = 32 ->
  exists d, ct_diff a b 0 (Z.to_nat ECIES_MAC_LEN) 0 = Ok d /\ (d = 0 <-> a = b).
Proof.
  intros Ha Hb La Lb. unfold blen in *.
  destruct (ct_diff_spec [] [] a b 0 32 0) as (d & E & _ & Hz); (done || lia || idtac).
  exists d. split; [exact E|]. tauto.
Qed.

(** ** ECIES *)

Section CryptoLemmas.
Context `{OSL : OpenSSLLaws}.

Lemma hmac_unchecked_inv key data m :
  hmac_unchecked key data = Ok m ->
  HMAC_SHA256 key data = Some m /\ blen m = 32 /\ bytes_ok m.
Proof.
  unfold hmac_unchecked, bm_hmac_sha256. destruct (HMAC_SHA256 key data) as [m'|] eqn:E; [|done].
  destruct (HMAC_SHA256_len _ _ _ E) as [L B]. rewrite L. intros Em. by simplify_eq/=.
Qed.

Lemma hmac_unchecked_cases key data :
  (exists m, hmac_unchecked key data = Ok m /\ HMAC_SHA256 key data = Some m
     /\ blen m = 32 /\ bytes_ok m)
  \/ hmac_unchecked key data = Ub.
Proof.
  destruct (hmac_unchecked key data) as [m| |] eqn:E; [|exfalso|by right].
  - left. exists m. split; [done|]. by apply hmac_unchecked_inv.
  - revert E. unfold hmac_unchecked. by case_match.
Qed.

(** The two keys of a shared secret. *)
Definition key_e (shared : list Z) : list Z := slice (bm_sha512 shared) 0 32.
Definition key_m (shared : list Z) : list Z := slice (bm_sha512 shared) 32 32.

Lemma keys_read shared :
  rdn (bm_sha512 shared) 0 32 = Ok (key_e shared) /\ rdn (bm_sha512 shared) 32 32 = Ok (key_m shared).
Proof. pose proof (blen_sha512 shared). split; apply rdn_ok; lia. Qed.

(** Decryption on the four parts of a ciphertext. *)
Lemma ecies_decrypt_parts iv tlv body mac priv :
  blen iv = 16 -> blen tlv = 70 -> blen mac = 32 -> bytes_ok mac ->
  bm_crypto_ecies_decrypt (iv ++ tlv ++ body ++ mac) priv
  = (eph_pub ← decode_pubkey_tlv tlv;
     shared ← ecdh_shared_secret priv eph_pub;
     computed ← hmac_unchecked (key_m shared) (iv ++ tlv ++ body);
     if list_eqb computed mac then aes256cbc_decrypt (key_e shared) iv body else Err).
Proof.
  intros Hi Ht Hm Hb. pose proof (blen_nonneg body).
  unfold bm_crypto_ecies_decrypt, ECIES_IV_LEN, ECIES_PUBKEY_TLV_LEN, ECIES_MAC_LEN.
  assert (L : blen (iv ++ tlv ++ body ++ mac) = 118 + blen body) by (rewrite !blen_app; lia).
  rewrite L. zdec.
  assert (R : forall i f off n, [iv; tlv; body; mac] !! i = Some f ->
    off = blen (concat (take i [iv; tlv; body; mac])) -> n = blen f ->
    rdn (iv ++ tlv ++ body ++ mac) off n = Ok f).
  { intros i f off n Hf -> ->. pose proof (rdn_field _ i f _ _ Hf eq_refl eq_refl) as E.
    cbn [concat] in E. by rewrite app_nil_r in E. }
  rewrite (R 0%nat iv 0 16), (R 1%nat tlv 16 70), (R 2%nat body (16 + 70)),
    (R 3%nat mac _ 32) by (done || cbn [take concat]; rewrite ?blen_app, ?blen_nil; lia).
  cbn_bind. destruct (decode_pubkey_tlv tlv) as [eph| |]; [|done|done]. cbn_bind.
  destruct (ecdh_shared_secret priv eph) as [shared| |]; [|done|done]. cbn_bind.
  destruct (keys_read shared) as [-> ->]. cbn_bind.
  rewrite (app_assoc tlv), (app_assoc iv).
  rewrite (rdn_prefix (iv ++ tlv ++ body)) by (rewrite !blen_app; lia). cbn_bind.
  destruct (hmac_unchecked_cases (key_m shared) (iv ++ tlv ++ body))
    as [(m & -> & _ & Lm & Bm)| ->]; [|done]. cbn_bind.
  destruct (ct_diff_mac m mac) as (d & E & Hz); [done..|].
  change (Z.to_nat 32) with (Z.to_nat ECIES_MAC_LEN). rewrite E. cbn_bind.
  destruct (list_eqb m mac) eqn:Em.
  - apply list_eqb_eq in Em. apply Hz in Em as ->. done.
  - destruct (Z.eqb_spec d 0) as [->|]; [|done].
    rewrite (proj1 Hz eq_refl), list_eqb_refl in Em. done.
Qed.

Lemma ecies_encrypt_inv pt pub ep iv out :
  blen iv = 16 ->
  bm_crypto_ecies_encrypt pt pub (Some ep) (Some iv) = Ok out ->
  exists eph_pub shared ct mac,
    bm_address_get_public_key ep = Ok eph_pub /\ ecdh_shared_secret ep pub = Ok shared
    /\ AES_256_CBC_encrypt (key_e shared) iv pt = Some ct
    /\ hmac_unchecked (key_m shared) (iv ++ pubkey_tlv eph_pub ++ ct) = Ok mac
    /\ out = iv ++ pubkey_tlv eph_pub ++ ct ++ mac.
Proof.
  intros Hi He. unfold bm_crypto_ecies_encrypt in He. rewrite bind_ok in He.
  apply bind_ok_inv in He as (eph_pub & Ep & He). pose proof (get_public_key_len _ _ Ep) as Lp.
  apply bind_ok_inv in He as (shared & Es & He). cbv zeta in He.
  destruct (keys_read shared) as [Ke Km]. rewrite Ke, Km, !bind_ok in He.
  rewrite encode_pubkey_tlv_eq, bind_ok in He by done.
  apply bind_ok_inv in He as (ct & Ec & He). unfold aes256cbc_encrypt in Ec.
  destruct (AES_256_CBC_encrypt _ _ _) as [ct'|] eqn:Ea; [|done]. injection Ec as ->.
  pose proof (blen_pubkey_tlv _ Lp) as Lt. pose proof (blen_nonneg ct).
  unfold ECIES_IV_LEN, ECIES_PUBKEY_TLV_LEN, ECIES_MAC_LEN in He.
  rewrite wr_malloc_start, bind_ok in He by lia. rewrite wr_malloc, bind_ok in He by lia.
  rewrite wr_malloc, bind_ok in He by (rewrite ?blen_app; lia).
  rewrite rdn_prefix, bind_ok in He by (rewrite !blen_app; lia).
  apply bind_ok_inv in He as (mac & Em & He).
  destruct (hmac_unchecked_inv _ _ _ Em) as (_ & Lm & _).
  rewrite wr_malloc_last in He by (rewrite ?blen_app; lia). injection He as <-.
  rewrite <- !app_assoc in Em. rewrite <- !app_assoc.
  by exists eph_pub, shared, ct, mac.
Qed.

Lemma public_key_inv priv pub :
  bm_address_get_public_key priv = Ok pub -> EC_base_mul priv = Some pub /\ blen pub = 65.
Proof.
  unfold bm_address_get_public_key, BM_PUBLIC_KEY_LEN. destruct (EC_base_mul priv); [|done].
  case_match; [|done]. intros [= ->]. split; [done|lia].
Qed.

Lemma ecies_decrypt_encrypt pt priv pub ep iv out :
  blen iv = 16 -> bm_address_get_public_key priv = Ok pub ->
  bm_crypto_ecies_encrypt pt pub (Some ep) (Some iv) = Ok out ->
  bm_crypto_ecies_decrypt out priv = Ok pt.
Proof.
  intros Hi Hp He. apply ecies_encrypt_inv in He as (ephp & sh & ct & mac & E1 & E2 & E3 & E4 & ->);
    [|done].
  apply public_key_inv in E1 as [M1 L1]. apply public_key_inv in Hp as [M2 L2].
  destruct (EC_base_mul_uncompressed _ _ M1 L1) as (_ & T1 & _).
  destruct (hmac_unchecked_inv _ _ _ E4) as (_ & Lm & Bm).
  rewrite ecies_decrypt_parts by (done || by apply blen_pubkey_tlv).
  rewrite decode_pubkey_tlv_eq by done. cbn_bind.
  unfold ecdh_shared_secret in *. rewrite (EC_ecdh_comm priv ep pub ephp M2 M1 L2 L1), E2. cbn_bind.
  rewrite E4. cbn_bind. rewrite list_eqb_refl. unfold aes256cbc_decrypt.
  by rewrite (AES_256_CBC_roundtrip _ _ _ _ E3).
Qed.

Lemma sign_verify data priv pub rnd sig :
  bm_address_get_public_key priv = Ok pub -> bm_crypto_sign data priv rnd = Ok sig ->
  bm_crypto_verify data sig pub = true.
Proof.
  intros Hp Hs. unfold bm_crypto_sign in Hs. rewrite Hp, bind_ok in Hs.
  apply public_key_inv in Hp as [M L]. unfold build_ec_key in Hs.
  destruct (EC_base_mul_uncompressed _ _ M L) as (_ & _ & V). rewrite V, bind_ok in Hs.
  destruct (ECDSA_sign _ _ _) eqn:E; [|done]. injection Hs as ->.
  unfold bm_crypto_verify, build_ec_key. rewrite V. by eapply ECDSA_correct.
Qed.

Lemma ecies_parts ct :
  bytes_ok ct -> 118 <= blen ct ->
  exists iv tlv body mac, ct = iv ++ tlv ++ body ++ mac /\ blen iv = 16 /\ blen tlv = 70
    /\ blen mac = 32 /\ bytes_ok tlv /\ bytes_ok mac.
Proof.
  intros Hb Hl.
  destruct (split_at_blen ct 16) as (iv & r1 & -> & Hi & E1); [lia|].
  destruct (split_at_blen r1 70) as (tlv & r2 & -> & Ht & E2); [lia|].
  destruct (split_at_blen r2 (blen r2 - 32)) as (body & mac & -> & Hm & E3); [lia|].
  rewrite !bytes_ok_app in Hb. exists iv, tlv, body, mac. split_and!; (done || lia || tauto).
Qed.

Lemma decode_pubkey_tlv_safe tlv : blen tlv = 70 -> safe (decode_pubkey_tlv tlv).
Proof.
  intros L. unfold decode_pubkey_tlv.
  assert (R : forall o, 0 <= o < 70 -> exists b, rd tlv o = Ok b)
    by (intros o Ho; destruct (rd_in tlv o) as (b & ? & _); [lia|eauto]).
  destruct (R 0) as [? ->]; [lia|]. destruct (R 1) as [? ->]; [lia|].
  destruct (R 2) as [? ->]; [lia|]. destruct (R 3) as [? ->]; [lia|].
  destruct (R 36) as [? ->]; [lia|]. destruct (R 37) as [? ->]; [lia|]. cbn_bind.
  case_match; [done|]. rewrite !rdn_ok by lia. cbn_bind.
  rewrite wr_malloc_start by (rewrite blen_cons, blen_nil; lia). cbn_bind.
  rewrite wr_malloc by (rewrite ?blen_cons, ?blen_nil, ?blen_slice by lia; lia). cbn_bind.
  by rewrite wr_malloc_last by (rewrite ?blen_app, ?blen_cons, ?blen_nil, ?blen_slice by lia; lia).
Qed.

(** Decryption of any bytes: the plaintext is made of bytes and no longer than the
    ciphertext; the only way to fail hard is an HMAC that returns NULL. *)
Lemma ecies_decrypt_bytes ct priv pt :
  bytes_ok ct -> bm_crypto_ecies_decrypt ct priv = Ok pt -> bytes_ok pt /\ blen pt <= blen ct.
Proof.
  intros Hb Hd. destruct (Z.lt_ge_cases (blen ct) 118) as [Hl|Hl].
  { unfold bm_crypto_ecies_decrypt, ECIES_IV_LEN, ECIES_PUBKEY_TLV_LEN, ECIES_MAC_LEN in Hd.
    rewrite (proj2 (Z.ltb_lt _ _)) in Hd by lia. done. }
  destruct (ecies_parts ct Hb Hl) as (iv & tlv & body & mac & -> & Hi & Ht & Hm & _ & Bm).
  rewrite ecies_decrypt_parts in Hd by done.
  inv_bind Hd. inv_bind Hd. inv_bind Hd. destruct (list_eqb _ _); [|done].
  unfold aes256cbc_decrypt in Hd. case_match eqn:Ea; [|done]. injection Hd as ->.
  rewrite !bytes_ok_app in Hb. apply AES_256_CBC_decrypt_bytes in Ea as [? ?]; [|tauto].
  rewrite !blen_app. split; [done|lia].
Qed.

Lemma ecies_decrypt_safe ct priv :
  (forall k d, HMAC_SHA256 k d <> None) -> bytes_ok ct -> safe (bm_crypto_ecies_decrypt ct priv).
Proof.
  intros Hh Hb. destruct (Z.lt_ge_cases (blen ct) 118) as [Hl|Hl].
  { unfold bm_crypto_ecies_decrypt, ECIES_IV_LEN, ECIES_PUBKEY_TLV_LEN, ECIES_MAC_LEN. by zdec. }
  destruct (ecies_parts ct Hb Hl) as (iv & tlv & body & mac & -> & Hi & Ht & Hm & _ & Bm).
  rewrite ecies_decrypt_parts by done.
  apply safe_bind; [by apply decode_pubkey_tlv_safe|]. intros eph _.
  apply safe_bind; [unfold ecdh_shared_secret; by repeat case_match|]. intros sh _.
  unfold hmac_unchecked, bm_hmac_sha256.
  destruct (HMAC_SHA256 _ _) as [m|] eqn:E; [|by destruct (Hh _ _ E)].
  destruct (HMAC_SHA256_len _ _ _ E) as [-> _]. cbn.
  destruct (list_eqb _ _); [|done]. unfold aes256cbc_decrypt. by case_match.
Qed.
End CryptoLemmas.

(** ** Properties *)

Section CryptoProperties.
Context `{OSL : OpenSSLLaws}.

(** C1: ECIES round trips: what is encrypted to a public key is decrypted by
    its private key to the same plaintext; the same ciphertext with any other
    32 bytes in place of its MAC is rejected. *)
Theorem bm_crypto_ecies_roundtrip (plaintext priv pub eph_priv iv out : list Z) :
  blen iv = 16 -> bm_address_get_public_key priv = Ok pub ->
  bm_crypto_ecies_encrypt plaintext pub (Some eph_priv) (Some iv) = Ok out ->
  bm_crypto_ecies_decrypt out priv = Ok plaintext
  /\ forall mac', bytes_ok mac' -> blen mac' = 32 ->
       let forged := take (Z.to_nat (blen out - 32)) out ++ mac' in
       forged <> out -> bm_crypto_ecies_decrypt forged priv = Err.
Proof.
  intros Hi Hp He. split; [by eapply ecies_decrypt_encrypt|].
  intros mac' Hb Hl forged Hne. subst forged.
  apply ecies_encrypt_inv in He as (ephp & sh & ct & mac & E1 & E2 & E3 & E4 & ->); [|done].
  destruct (hmac_unchecked_inv _ _ _ E4) as (_ & Lm & Bm).
  apply public_key_inv in E1 as [M1 L1]. apply public_key_inv in Hp as [M2 L2].
  destruct (EC_base_mul_uncompressed _ _ M1 L1) as (_ & T1 & _).
  set (pre := iv ++ pubkey_tlv ephp ++ ct) in *.
  replace (iv ++ pubkey_tlv ephp ++ ct ++ mac) with (pre ++ mac) in *
    by (subst pre; by rewrite <- !app_assoc).
  assert (take (Z.to_nat (blen (pre ++ mac) - 32)) (pre ++ mac) = pre) as Et.
  { rewrite blen_app, Lm. replace (blen pre + 32 - 32) with (blen pre) by lia.
    unfold blen. by rewrite Nat2Z.id, take_app_length. }
  rewrite Et in *. subst pre. rewrite <- !app_assoc.
  rewrite ecies_decrypt_parts by (done || by apply blen_pubkey_tlv).
  rewrite decode_pubkey_tlv_eq by done. cbn_bind.
  unfold ecdh_shared_secret in *. rewrite (EC_ecdh_comm priv eph_priv pub ephp M2 M1 L2 L1), E2.
  cbn_bind. rewrite E4. cbn_bind. destruct (list_eqb mac mac') eqn:Eq; [|done].
  apply list_eqb_eq in Eq as ->. done.
Qed.

(** Authenticated decryption of any bytes a peer sends: a ciphertext shorter
    than 118 bytes is refused, and a plaintext is returned only when the last 32
    bytes are the HMAC of everything before them, under the key derived from the
    recipient's key and the ephemeral point of the header (curve 714, two 32-byte
    coordinates); the plaintext is then the AES decryption of the body. *)
Theorem bm_crypto_ecies_decrypt_authentic (ct priv : list Z) :
  bytes_ok ct ->
  (blen ct < 118 -> bm_crypto_ecies_decrypt ct priv = Err)
  /\ forall pt, bm_crypto_ecies_decrypt ct priv = Ok pt ->
       exists iv tlv body mac eph_pub shared,
         ct = iv ++ tlv ++ body ++ mac /\ blen iv = 16 /\ blen tlv = 70 /\ blen mac = 32
         /\ decode_pubkey_tlv tlv = Ok eph_pub /\ EC_ecdh_x priv eph_pub = Some shared
         /\ HMAC_SHA256 (key_m shared) (iv ++ tlv ++ body) = Some mac
         /\ AES_256_CBC_decrypt (key_e shared) iv body = Some pt.
Proof.
  intros Hb. split.
  { intros Hl. unfold bm_crypto_ecies_decrypt, ECIES_IV_LEN, ECIES_PUBKEY_TLV_LEN, ECIES_MAC_LEN.
    by zdec. }
  intros pt Hd. destruct (Z.lt_ge_cases (blen ct) 118) as [Hl|Hl].
  { unfold bm_crypto_ecies_decrypt, ECIES_IV_LEN, ECIES_PUBKEY_TLV_LEN, ECIES_MAC_LEN in Hd.
    rewrite (proj2 (Z.ltb_lt _ _)) in Hd by lia. done. }
  destruct (ecies_parts ct Hb Hl) as (iv & tlv & body & mac & -> & Hi & Ht & Hm & _ & Bm).
  rewrite ecies_decrypt_parts in Hd by done.
  apply bind_ok_inv in Hd as (eph & Ee & Hd). apply bind_ok_inv in Hd as (sh & Es & Hd).
  apply bind_ok_inv in Hd as (m & Em & Hd). destruct (list_eqb m mac) eqn:Eq; [|done].
  apply list_eqb_eq in Eq as ->. apply hmac_unchecked_inv in Em as (Em & _).
  exists iv, tlv, body, mac, eph, sh. split_and!; try done.
  - unfold ecdh_shared_secret in Es. repeat case_match; try done. by injection Es as ->.
  - unfold aes256cbc_decrypt in Hd. case_match; [by injection Hd as ->|done].
Qed.

(** A signature made with a private key verifies under its public key. *)
Theorem bm_crypto_sign_verify (data priv pub rnd sig : list Z) :
  bm_address_get_public_key priv = Ok pub -> bm_crypto_sign data priv rnd = Ok sig ->
  bm_crypto_verify data sig pub = true.
Proof. apply sign_verify. Qed.
End CryptoProperties.

Section CryptoWitnesses.
#[local] Existing Instance toy_OpenSSL.
#[local] Existing Instance toy_OpenSSLLaws.

Definition priv_example : list Z := replicate 31 1 ++ [9].
Definition ecies_example : list Z :=
  match bm_crypto_ecies_encrypt [104; 105] (toy_mul priv_example) (Some (replicate 32 5))
          (Some (replicate 16 6)) with Ok o => o | _ => [] end.

Lemma bm_crypto_ecies_roundtrip_witness :
  bm_crypto_ecies_decrypt ecies_example priv_example = Ok [104; 105]
  /\ forall mac', bytes_ok mac' -> blen mac' = 32 ->
       let forged := take (Z.to_nat (blen ecies_example - 32)) ecies_example ++ mac' in
       forged <> ecies_example -> bm_crypto_ecies_decrypt forged priv_example = Err.
Proof.
  apply (bm_crypto_ecies_roundtrip [104; 105] priv_example (toy_mul priv_example)
    (replicate 32 5) (replicate 16 6) ecies_example); by vm_compute.
Defined.

Lemma bm_crypto_ecies_decrypt_authentic_witness :
  (blen ecies_example < 118 -> bm_crypto_ecies_decrypt ecies_example priv_example = Err)
  /\ forall pt, bm_crypto_ecies_decrypt ecies_example priv_example = Ok pt ->
       exists iv tlv body mac eph_pub shared,
         ecies_example = iv ++ tlv ++ body ++ mac
         /\ blen iv = 16 /\ blen tlv = 70 /\ blen mac = 32
         /\ decode_pubkey_tlv tlv = Ok eph_pub /\ EC_ecdh_x priv_example eph_pub = Some shared
         /\ HMAC_SHA256 (key_m shared) (iv ++ tlv ++ body) = Some mac
         /\ AES_256_CBC_decrypt (key_e shared) iv body = Some pt.
Proof.
  apply bm_crypto_ecies_decrypt_authentic. by apply (bool_decide_unpack _); vm_compute.
Defined.

Lemma bm_crypto_sign_verify_witness :
  bm_crypto_verify [1; 2; 3] (toy_sig priv_example (bm_sha256 [1; 2; 3])) (toy_mul priv_example)
  = true.
Proof.
  apply (bm_crypto_sign_verify [1; 2; 3] priv_example (toy_mul priv_example) []); by vm_compute.
Defined.
End CryptoWitnesses.
