(* ===== verification/MessageBuilder.v ===== *)
(** * core/message_builder.c

    The growable byte buffer of the file and the builders of every object the
    node sends (without the proof-of-work nonce in front).  Random bytes are
    arguments; [None] is a failed [RAND_bytes]. *)

From Stdlib Require Import String.
From stdpp Require Import base tactics list numbers option.
From S2P Require Import Prelude Varint Base58 Openssl Hash Address Object Crypto.

#[local] Arguments be_split : simpl never.

(** ** [struct bytebuf] *)

(** [bb_data] is the block of [bb_cap] bytes ([] for the null pointer). *)
Record bytebuf := {
  bb_data : list Z;
  bb_len : Z;
  bb_cap : Z;
}.

Definition bb_init : bytebuf := {| bb_data := []; bb_len := 0; bb_cap := 0 |}.

(** [while (new_cap < need) new_cap *= 2;] Sizes of objects in memory are below
    2^63, so the doubling does not wrap.  A capacity is at least 64, so every
    round adds more than one: [need] rounds are enough (see [grow_spec]). *)
Fixpoint grow (fuel : nat) (new_cap need : Z) : cres Z :=
  if new_cap <? need then
    match fuel with
    | O => Err
    | S fuel => grow fuel (new_cap * 2) need
    end
  else Ok new_cap.

Definition bb_reserve (b : bytebuf) (additional : Z) : cres bytebuf :=
  if bb_len b + additional <=? bb_cap b then Ok b else
  let new_cap := if bb_cap b =? 0 then 64 else bb_cap b in
  new_cap ← grow (Z.to_nat (bb_len b + additional)) new_cap (bb_len b + additional);
  Ok {| bb_data := bb_data b ++ malloc (new_cap - bb_cap b); bb_len := bb_len b;
        bb_cap := new_cap |}.

Definition bb_append (b : bytebuf) (data : list Z) (len : Z) : cres bytebuf :=
  if len =? 0 then Ok b else
  b ← bb_reserve b len;
  src ← rdn data 0 len;
  d ← wr (bb_data b) (bb_len b) src;
  Ok {| bb_data := d; bb_len := bb_len b + len; bb_cap := bb_cap b |}.

Definition bb_append_be64 (b : bytebuf) (v : Z) : cres bytebuf := bb_append b (be_split 8 v) 8.
Definition bb_append_be32 (b : bytebuf) (v : Z) : cres bytebuf := bb_append b (be_split 4 v) 4.

Definition bb_append_varint (b : bytebuf) (v : Z) : cres bytebuf :=
  tmp ← bm_varint_encode (Some (malloc 9, 0)) v;
  bb_append b tmp (bm_varint_size v).

Definition bb_append_varbytes (b : bytebuf) (data : list Z) (len : Z) : cres bytebuf :=
  b ← bb_append_varint b len;
  bb_append b data len.

(** The block handed to the caller, cut to [*out_len] bytes. *)
Definition bb_take (b : bytebuf) : list Z := take (Z.to_nat (bb_len b)) (bb_data b).

(** ** Builders *)

(** [struct bm_identity_info] *)
Record bm_identity_info := {
  id_address_version : Z;
  id_stream : Z;
  id_pub_signing : list Z;
  id_pub_encryption : list Z;
  id_priv_signing : list Z;
  id_nonce_trials_per_byte : Z;
  id_payload_length_extra_bytes : Z;
  id_does_ack : bool;
}.

Definition append_common_header (b : bytebuf) (expires_time object_type version stream : Z)
  : cres bytebuf :=
  b ← bb_append_be64 b expires_time;
  b ← bb_append_be32 b object_type;
  b ← bb_append_varint b version;
  bb_append_varint b stream.

Definition append_bitfield (b : bytebuf) (does_ack : bool) : cres bytebuf :=
  bb_append_be32 b (if does_ack then 1 else 0).

Definition append_pubkey64 (b : bytebuf) (pub65 : list Z) : cres bytebuf :=
  src ← rdn pub65 1 64;
  bb_append b src 64.

Definition append_simple_encoded_message (b : bytebuf) (subject body : list Z) : cres bytebuf :=
  msg ← bb_append bb_init (cstr "Subject:"%string) 8;
  msg ← bb_append msg subject (blen subject);
  msg ← bb_append msg (10 :: cstr "Body:"%string) 6;
  msg ← bb_append msg body (blen body);
  b ← bb_append_varint b 2;
  bb_append_varbytes b (bb_data msg) (bb_len msg).

(** Random choices of one build: the signature nonce, and what [RAND_bytes]
    gives for the ephemeral key and the IV. *)
Record entropy := {
  e_sign : list Z;
  e_priv : option (list Z);
  e_iv : option (list Z);
}.

Section Builders.
Context `{OS : OpenSSL}.

Definition bm_build_getpubkey (address_version stream : Z) (ripe : list Z) (expires_time : Z)
  : cres (list Z) :=
  b ← append_common_header bb_init expires_time BM_OBJECT_GETPUBKEY address_version stream;
  b ← (if address_version <=? 3 then bb_append b ripe 20
       else
         '(_, tag) ← bm_address_derive_secret_and_tag address_version stream ripe;
         bb_append b tag 32);
  Ok (bb_take b).

Definition bm_build_pubkey_v2 (id : bm_identity_info) (expires_time : Z) : cres (list Z) :=
  b ← append_common_header bb_init expires_time BM_OBJECT_PUBKEY 2 (id_stream id);
  b ← append_bitfield b (id_does_ack id);
  b ← append_pubkey64 b (id_pub_signing id);
  b ← append_pubkey64 b (id_pub_encryption id);
  Ok (bb_take b).

Definition bm_build_pubkey_v3 (id : bm_identity_info) (expires_time : Z) (e_sign : list Z)
  : cres (list Z) :=
  b ← append_common_header bb_init expires_time BM_OBJECT_PUBKEY 3 (id_stream id);
  b ← append_bitfield b (id_does_ack id);
  b ← append_pubkey64 b (id_pub_signing id);
  b ← append_pubkey64 b (id_pub_encryption id);
  b ← bb_append_varint b (id_nonce_trials_per_byte id);
  b ← bb_append_varint b (id_payload_length_extra_bytes id);
  input ← rdn (bb_data b) 0 (bb_len b);
  sig ← bm_crypto_sign input (id_priv_signing id) e_sign;
  b ← bb_append_varbytes b sig (blen sig);
  Ok (bb_take b).

(** [bb_append(&to_sign, x.data, x.len); bb_append(&to_sign, y.data, y.len);
    bm_crypto_sign(to_sign.data, to_sign.len, ...)] *)
Definition sign_both (x y : bytebuf) (priv e_sign : list Z) : cres (list Z) :=
  to_sign ← bb_append bb_init (bb_data x) (bb_len x);
  to_sign ← bb_append to_sign (bb_data y) (bb_len y);
  input ← rdn (bb_data to_sign) 0 (bb_len to_sign);
  bm_crypto_sign input priv e_sign.

(** [bm_crypto_ecies_encrypt(b.data, b.len, pub, ...)] *)
Definition encrypt_buf (b : bytebuf) (pub : list Z) (e : entropy) : cres (list Z) :=
  input ← rdn (bb_data b) 0 (bb_len b);
  bm_crypto_ecies_encrypt input pub (e_priv e) (e_iv e).

Definition bm_build_pubkey_v4 (id : bm_identity_info) (ripe : list Z) (expires_time : Z)
    (e : entropy) : cres (list Z) :=
  plain ← append_common_header bb_init expires_time BM_OBJECT_PUBKEY 4 (id_stream id);
  '(priv_enc, tag) ← bm_address_derive_secret_and_tag 4 (id_stream id) ripe;
  plain ← bb_append plain tag 32;
  to_encrypt ← append_bitfield bb_init (id_does_ack id);
  to_encrypt ← append_pubkey64 to_encrypt (id_pub_signing id);
  to_encrypt ← append_pubkey64 to_encrypt (id_pub_encryption id);
  to_encrypt ← bb_append_varint to_encrypt (id_nonce_trials_per_byte id);
  to_encrypt ← bb_append_varint to_encrypt (id_payload_length_extra_bytes id);
  sig ← sign_both plain to_encrypt (id_priv_signing id) (e_sign e);
  to_encrypt ← bb_append_varbytes to_encrypt sig (blen sig);
  pub_enc ← bm_address_get_public_key priv_enc;
  ciphertext ← encrypt_buf to_encrypt pub_enc e;
  plain ← bb_append plain ciphertext (blen ciphertext);
  Ok (bb_take plain).

(** The sender's part of [bm_build_msg] and [bm_build_broadcast]. *)
Definition append_sender (b : bytebuf) (from : bm_identity_info) : cres bytebuf :=
  b ← bb_append_varint b (id_address_version from);
  b ← bb_append_varint b (id_stream from);
  b ← append_bitfield b (id_does_ack from);
  b ← append_pubkey64 b (id_pub_signing from);
  b ← append_pubkey64 b (id_pub_encryption from);
  if id_address_version from >=? 3 then
    b ← bb_append_varint b (id_nonce_trials_per_byte from);
    bb_append_varint b (id_payload_length_extra_bytes from)
  else Ok b.

(** A null [ack_payload] is [None]; the source then points at the string "". *)
Definition bm_build_msg (from : bm_identity_info) (to_stream : Z)
    (to_ripe to_pub_encryption subject body : list Z) (ack_payload : option (list Z))
    (ack_payload_len expires_time : Z) (e : entropy) : cres (list Z) :=
  header ← append_common_header bb_init expires_time BM_OBJECT_MSG 1 to_stream;
  payload ← append_sender bb_init from;
  payload ← bb_append payload to_ripe 20;
  payload ← append_simple_encoded_message payload subject body;
  payload ← bb_append_varbytes payload (match ack_payload with Some a => a | None => [0] end)
              ack_payload_len;
  sig ← sign_both header payload (id_priv_signing from) (e_sign e);
  payload ← bb_append_varbytes payload sig (blen sig);
  ciphertext ← encrypt_buf payload to_pub_encryption e;
  header ← bb_append header ciphertext (blen ciphertext);
  Ok (bb_take header).

Definition bm_build_broadcast (from : bm_identity_info) (from_ripe subject body : list Z)
    (expires_time : Z) (e : entropy) : cres (list Z) :=
  let is_v5 := id_address_version from >=? 4 in
  let object_version := if is_v5 then 5 else 4 in
  plain ← append_common_header bb_init expires_time BM_OBJECT_BROADCAST object_version
            (id_stream from);
  '(priv_enc, tag) ← bm_address_derive_secret_and_tag (id_address_version from)
                       (id_stream from) from_ripe;
  plain ← (if is_v5 then bb_append plain tag 32 else Ok plain);
  to_encrypt ← append_sender bb_init from;
  to_encrypt ← append_simple_encoded_message to_encrypt subject body;
  sig ← sign_both plain to_encrypt (id_priv_signing from) (e_sign e);
  to_encrypt ← bb_append_varbytes to_encrypt sig (blen sig);
  pub_enc ← bm_address_get_public_key priv_enc;
  ciphertext ← encrypt_buf to_encrypt pub_enc e;
  plain ← bb_append plain ciphertext (blen ciphertext);
  Ok (bb_take plain).

Definition build_ack_level0 (stream : Z) (random32 : option (list Z)) : cres (list Z) :=
  b ← bb_append_be32 bb_init BM_OBJECT_MSG;
  b ← bb_append_varint b 1;
  b ← bb_append_varint b stream;
  r ← match random32 with Some r => Ok r | None => Err end;
  b ← bb_append b r 32;
  Ok (bb_take b).

Definition build_ack_level1 (stream : Z) (random32 : option (list Z)) : cres (list Z) :=
  b ← bb_append_be32 bb_init BM_OBJECT_GETPUBKEY;
  b ← bb_append_varint b 4;
  b ← bb_append_varint b stream;
  r ← match random32 with Some r => Ok r | None => Err end;
  b ← bb_append b r 32;
  Ok (bb_take b).

(** [rand_message n] is what [RAND_bytes] gives for [n] bytes. *)
Definition build_ack_level2 (stream : Z) (dummy_priv : option (list Z)) (rand_len_seed : option Z)
    (rand_message : Z -> option (list Z)) (e : entropy) : cres (list Z) :=
  dummy_priv ← match dummy_priv with Some r => Ok r | None => Err end;
  dummy_pub ← bm_address_get_public_key dummy_priv;
  rand_len_seed ← match rand_len_seed with Some r => Ok r | None => Err end;
  let dummy_len := 234 + rand_len_seed mod (800 - 234 + 1) in
  dummy_message ← match rand_message dummy_len with Some m => Ok m | None => Err end;
  ciphertext ← bm_crypto_ecies_encrypt dummy_message dummy_pub (e_priv e) (e_iv e);
  b ← bb_append_be32 bb_init BM_OBJECT_MSG;
  b ← bb_append_varint b 1;
  b ← bb_append_varint b stream;
  b ← bb_append b ciphertext (blen ciphertext);
  Ok (bb_take b).

Definition bm_build_ack_object (stealth_level stream : Z) (random32 dummy_priv : option (list Z))
    (rand_len_seed : option Z) (rand_message : Z -> option (list Z)) (e : entropy)
  : cres (list Z) :=
  if stealth_level =? 1 then build_ack_level1 stream random32
  else if stealth_level =? 2 then
    build_ack_level2 stream dummy_priv rand_len_seed rand_message e
  else build_ack_level0 stream random32.
End Builders.

(** ** onionpeer *)

(** The loop of [base32_decode_lower]: [Err] is the [return 0] for a character
    outside the alphabet. *)
Fixpoint base32_decode_loop (input : list Z) (out : list Z) (buffer bits out_len : Z)
  : cres (list Z * Z) :=
  match input with
  | [] => Ok (out, out_len)
  | c :: input =>
      val ← (if (97 <=? c) && (c <=? 122) then Ok (c - 97)
             else if (50 <=? c) && (c <=? 55) then Ok (c - 50 + 26)
             else Err);
      let buffer := u64 (Z.lor (Z.shiftl buffer 5) val) in
      let bits := bits + 5 in
      if bits >=? 8 then
        let bits := bits - 8 in
        out ← wr out out_len [Z.land (Z.shiftr buffer bits) 255];
        base32_decode_loop input out buffer bits (out_len + 1)
      else base32_decode_loop input out buffer bits out_len
  end.

Definition base32_decode_lower (input : list Z) (in_len : Z) (out : list Z)
  : cres (list Z * Z) :=
  input ← rdn input 0 in_len;
  base32_decode_loop input out 0 0 0.

Definition ONIONCAT_PREFIX : list Z := [253; 135; 216; 126; 235; 67].

Definition bm_build_onionpeer (onion_address : list Z) (port stream expires_time : Z)
  : cres (list Z) :=
  let addr_len := blen onion_address in
  if negb (addr_len =? 56 + 6) then Err else
  suffix ← rdn onion_address 56 6;
  if negb (list_eqb suffix (cstr ".onion"%string)) then Err else
  '(key_bytes, n) ← base32_decode_lower onion_address 56 (malloc 35);
  if negb (n =? 35) then Err else
  b ← append_common_header bb_init expires_time BM_OBJECT_ONIONPEER 1 stream;
  b ← bb_append_varint b port;
  b ← bb_append b ONIONCAT_PREFIX 6;
  b ← bb_append b key_bytes 35;
  Ok (bb_take b).

(** ** The buffer refines list append

    [bb_holds b l]: [b] is a well-formed buffer whose contents are [l]. *)
Definition bb_holds (b : bytebuf) (l : list Z) : Prop :=
  bb_len b = blen l /\ bb_len b <= bb_cap b /\ blen (bb_data b) = bb_cap b
  /\ take (Z.to_nat (bb_len b)) (bb_data b) = l /\ (bb_cap b = 0 \/ 64 <= bb_cap b).

Lemma bb_holds_init : bb_holds bb_init [].
Proof. repeat split; simpl; lia. Qed.

Lemma bb_holds_take b l : bb_holds b l -> bb_take b = l.
Proof. by intros (_ & _ & _ & E & _). Qed.

Lemma bb_holds_len b l : bb_holds b l -> bb_len b = blen l.
Proof. by intros (E & _). Qed.

Lemma bb_holds_read b l : bb_holds b l -> rdn (bb_data b) 0 (bb_len b) = Ok l.
Proof.
  intros (E1 & E2 & E3 & E4 & _). pose proof (blen_nonneg l).
  rewrite rdn_ok by lia. f_equal. exact E4.
Qed.

Lemma grow_spec fuel c need :
  1 <= c -> need <= c + Z.of_nat fuel ->
  exists c', grow fuel c need = Ok c' /\ c <= c' /\ need <= c'.
Proof.
  revert c. induction fuel as [|fuel IH]; intros c Hc Hn; cbn [grow];
    destruct (Z.ltb_spec c need) as [Hl|Hl]; try lia; try (exists c; split; [done|lia]).
  destruct (IH (c * 2)) as (c' & -> & ? & ?); [lia..|]. exists c'. split; [done|lia].
Qed.

Lemma bb_reserve_spec b l n :
  bb_holds b l -> 0 <= n ->
  exists b', bb_reserve b n = Ok b' /\ bb_holds b' l /\ blen l + n <= bb_cap b'.
Proof.
  intros (E1 & E2 & E3 & E4 & E5) Hn. pose proof (blen_nonneg l). unfold bb_reserve.
  destruct (Z.leb_spec (bb_len b + n) (bb_cap b)) as [Hf|Hf].
  { exists b. split; [done|]. split; [done|lia]. }
  set (c0 := if bb_cap b =? 0 then 64 else bb_cap b).
  assert (64 <= c0 /\ bb_cap b <= c0) as [Hc0 Hc1].
  { subst c0. destruct (Z.eqb_spec (bb_cap b) 0); lia. }
  destruct (grow_spec (Z.to_nat (bb_len b + n)) c0 (bb_len b + n)) as (c' & -> & ? & ?); [lia..|].
  cbn_bind. eexists. split; [done|]. unfold bb_holds. cbn [bb_len bb_cap bb_data].
  rewrite blen_app, blen_malloc by lia. split; [|lia]. split_and!; try lia.
  rewrite take_app_le; [done|]. unfold blen in *. lia.
Qed.

(** [yields m l]: the statement [m] leaves a buffer that holds [l]. *)
Definition yields (m : cres bytebuf) (l : list Z) : Prop :=
  exists b, m = Ok b /\ bb_holds b l.

Lemma yields_bind {B} m l (k : bytebuf -> cres B) r :
  yields m l -> (forall b, bb_holds b l -> k b = r) -> (m ≫= k) = r.
Proof. intros (b & -> & Hb) Hk. rewrite bind_ok. auto. Qed.

Lemma yields_seq m l k l' :
  yields m l -> (forall b, bb_holds b l -> yields (k b) l') -> yields (m ≫= k) l'.
Proof. intros (b & -> & Hb) Hk. rewrite bind_ok. auto. Qed.

Lemma yields_ret b l : bb_holds b l -> yields (Ok b) l.
Proof. by exists b. Qed.

(** Appending the first [n] bytes of a block. *)
Lemma yields_append b l data src rest n :
  bb_holds b l -> data = src ++ rest -> n = blen src ->
  yields (bb_append b data n) (l ++ src).
Proof.
  intros Hb -> ->. pose proof (blen_nonneg src). pose proof (blen_nonneg rest).
  unfold bb_append. destruct (Z.eqb_spec (blen src) 0) as [Hz|Hz].
  { destruct src; [rewrite app_nil_r; by exists b|rewrite blen_cons in Hz;
      pose proof (blen_nonneg src); lia]. }
  destruct (bb_reserve_spec b l (blen src) Hb) as (b' & -> & (E1 & E2 & E3 & E4 & E5) & Hc); [lia|].
  cbn_bind. rewrite rdn_prefix by done. cbn_bind.
  rewrite <- (take_drop (Z.to_nat (bb_len b')) (bb_data b')), E4.
  pose proof (blen_nonneg l).
  rewrite wr_fill by (done || rewrite blen_drop; lia). cbn_bind.
  eexists. split; [done|]. unfold bb_holds. cbn [bb_len bb_cap bb_data].
  rewrite !blen_app, !blen_drop by (rewrite ?blen_drop; lia).
  split_and!; try lia. rewrite take_app_le by (unfold blen in *; rewrite length_app; lia).
  apply take_ge. unfold blen in *. rewrite length_app. lia.
Qed.

Lemma yields_data b l data n :
  bb_holds b l -> n = blen data -> yields (bb_append b data n) (l ++ data).
Proof. intros. by apply (yields_append b l data data []); [|rewrite app_nil_r|]. Qed.

Lemma yields_be64 b l v : bb_holds b l -> yields (bb_append_be64 b v) (l ++ be_split 8 v).
Proof. intros. apply yields_data; [done|by rewrite blen_be_split]. Qed.
Lemma yields_be32 b l v : bb_holds b l -> yields (bb_append_be32 b v) (l ++ be_split 4 v).
Proof. intros. apply yields_data; [done|by rewrite blen_be_split]. Qed.

Lemma yields_varint b l v :
  bb_holds b l -> yields (bb_append_varint b v) (l ++ varint_bytes v).
Proof.
  intros. pose proof (bm_varint_size_pos v) as Hv. unfold bb_append_varint.
  rewrite varint_encode_malloc_start by lia. cbn_bind.
  by eapply yields_append; [|done|rewrite blen_varint_bytes].
Qed.

Lemma yields_varbytes b l data n :
  bb_holds b l -> n = blen data ->
  yields (bb_append_varbytes b data n) (l ++ varint_bytes (blen data) ++ data).
Proof.
  intros Hb ->. eapply yields_seq; [by apply yields_varint|]. intros b' Hb'.
  rewrite app_assoc. by apply yields_data.
Qed.

(** Appending the contents of another buffer. *)
Lemma bb_holds_split b l : bb_holds b l -> exists rest, bb_data b = l ++ rest.
Proof.
  intros (_ & _ & _ & E & _). exists (drop (Z.to_nat (bb_len b)) (bb_data b)).
  rewrite <- E. by rewrite take_drop.
Qed.

Lemma yields_buf b l x lx :
  bb_holds b l -> bb_holds x lx -> yields (bb_append b (bb_data x) (bb_len x)) (l ++ lx).
Proof.
  intros Hb Hx. destruct (bb_holds_split x lx Hx) as [rest E].
  by apply (yields_append _ _ _ _ rest); [| |apply bb_holds_len].
Qed.

Lemma yields_varbuf b l x lx :
  bb_holds b l -> bb_holds x lx ->
  yields (bb_append_varbytes b (bb_data x) (bb_len x)) (l ++ varint_bytes (blen lx) ++ lx).
Proof.
  intros Hb Hx. unfold bb_append_varbytes. pose proof (bb_holds_len _ _ Hx) as E.
  eapply yields_seq; [by apply yields_varint|]. intros b' Hb'. rewrite E in Hb'.
  rewrite app_assoc. by apply yields_buf.
Qed.

Create HintDb yields.
#[export] Hint Resolve yields_be64 yields_be32 yields_varint yields_buf yields_varbuf
  yields_ret bb_holds_init : yields.
#[export] Hint Extern 2 (yields (bb_append _ _ _) _) =>
  (apply yields_data; [eassumption || apply bb_holds_init|done]) : yields.
#[export] Hint Extern 2 (yields (bb_append_varbytes _ _ _) _) =>
  (apply yields_varbytes; [eassumption|done]) : yields.

(** [bb_step]: run one appending statement of a builder, naming the buffer it
    leaves. *)
Ltac bb_step :=
  let b := fresh "b" in
  let Hb := fresh "Hb" in
  first [eapply yields_bind | eapply yields_seq];
  [by eauto with yields|intros b Hb; cbv beta iota zeta; rewrite ?app_nil_l in Hb].

(** ** What the builders append *)

Definition common_header (e t v s : Z) : list Z :=
  be_split 8 e ++ be_split 4 t ++ varint_bytes v ++ varint_bytes s.

Lemma yields_common_header b l e t v s :
  bb_holds b l -> yields (append_common_header b e t v s) (l ++ common_header e t v s).
Proof.
  intros Hb. unfold append_common_header, common_header. do 3 bb_step.
  rewrite !app_assoc. by eauto with yields.
Qed.

Lemma yields_pubkey64 b l pub :
  bb_holds b l -> blen pub = 65 -> yields (append_pubkey64 b pub) (l ++ slice pub 1 64).
Proof.
  intros Hb Hp. unfold append_pubkey64. rewrite rdn_ok by lia. cbn_bind.
  apply yields_data; [done|]. rewrite blen_slice; lia.
Qed.

Definition bitfield (does_ack : bool) : list Z := be_split 4 (if does_ack then 1 else 0).

Lemma yields_bitfield b l a :
  bb_holds b l -> yields (append_bitfield b a) (l ++ bitfield a).
Proof. apply yields_be32. Qed.

Definition simple_message (subject body : list Z) : list Z :=
  cstr "Subject:"%string ++ subject ++ (10 :: cstr "Body:"%string) ++ body.
Definition simple_encoded (subject body : list Z) : list Z :=
  varint_bytes 2 ++ varint_bytes (blen (simple_message subject body))
  ++ simple_message subject body.

Lemma blen_simple_message subject body :
  blen (simple_message subject body) = 14 + blen subject + blen body.
Proof.
  unfold simple_message. rewrite !blen_app. change (blen (cstr "Subject:"%string)) with 8.
  change (blen (10 :: cstr "Body:"%string)) with 6. lia.
Qed.

Lemma yields_simple b l subject body :
  bb_holds b l ->
  yields (append_simple_encoded_message b subject body) (l ++ simple_encoded subject body).
Proof.
  intros Hb. unfold append_simple_encoded_message. do 5 bb_step.
  unfold simple_encoded. rewrite app_assoc.
  replace (simple_message subject body) with (((cstr "Subject:"%string ++ subject)
    ++ 10 :: cstr "Body:"%string) ++ body) by (unfold simple_message; by rewrite <- !app_assoc).
  by eauto with yields.
Qed.
#[export] Hint Resolve yields_common_header yields_pubkey64 yields_bitfield yields_simple : yields.

(** An identity as the node keeps it: uncompressed 65-byte points. *)
Definition identity_ok (id : bm_identity_info) : Prop :=
  is_u64 (id_address_version id) /\ is_u64 (id_stream id)
  /\ blen (id_pub_signing id) = 65 /\ blen (id_pub_encryption id) = 65
  /\ is_u64 (id_nonce_trials_per_byte id) /\ is_u64 (id_payload_length_extra_bytes id).

Definition sender_bytes (from : bm_identity_info) : list Z :=
  varint_bytes (id_address_version from) ++ varint_bytes (id_stream from)
  ++ bitfield (id_does_ack from) ++ slice (id_pub_signing from) 1 64
  ++ slice (id_pub_encryption from) 1 64
  ++ (if id_address_version from >=? 3
      then varint_bytes (id_nonce_trials_per_byte from)
           ++ varint_bytes (id_payload_length_extra_bytes from) else []).

Lemma blen_bitfield a : blen (bitfield a) = 4.
Proof. unfold bitfield. by rewrite blen_be_split. Qed.

Lemma blen_sender_bytes from :
  identity_ok from -> 134 <= blen (sender_bytes from) <= 168.
Proof.
  intros (_ & _ & Hs & He & _). unfold sender_bytes.
  rewrite !blen_app, !blen_varint_bytes, blen_bitfield, !blen_slice by lia.
  pose proof (bm_varint_size_pos (id_address_version from)).
  pose proof (bm_varint_size_pos (id_stream from)).
  pose proof (bm_varint_size_pos (id_nonce_trials_per_byte from)).
  pose proof (bm_varint_size_pos (id_payload_length_extra_bytes from)).
  case_match; rewrite ?blen_app, ?blen_varint_bytes, ?blen_nil; lia.
Qed.

Lemma yields_sender b l from :
  bb_holds b l -> identity_ok from -> yields (append_sender b from) (l ++ sender_bytes from).
Proof.
  intros Hb (_ & _ & Hs & He & _ & _). unfold append_sender, sender_bytes. do 5 bb_step.
  case_match; [bb_step|]; rewrite !app_assoc, ?app_nil_r; by eauto with yields.
Qed.
#[export] Hint Resolve yields_sender : yields.

Section BuilderLemmas.
Context `{OSL : OpenSSLLaws}.

Lemma sign_both_eq x lx y ly priv r :
  bb_holds x lx -> bb_holds y ly ->
  sign_both x y priv r = bm_crypto_sign (lx ++ ly) priv r.
Proof.
  intros Hx Hy. unfold sign_both. do 2 bb_step.
  by rewrite (bb_holds_read _ _ Hb0), bind_ok.
Qed.

Lemma encrypt_buf_eq b l pub e :
  bb_holds b l -> encrypt_buf b pub e = bm_crypto_ecies_encrypt l pub (e_priv e) (e_iv e).
Proof. intros Hb. unfold encrypt_buf. by rewrite (bb_holds_read _ _ Hb), bind_ok. Qed.

(** Sign [head ++ payload], append the signature to [payload], encrypt: the tail
    shared by pubkey v4, msg and broadcast. *)
Definition sealed (head payload priv pub : list Z) (e : entropy) : cres (list Z) :=
  sig ← bm_crypto_sign (head ++ payload) priv (e_sign e);
  ct ← bm_crypto_ecies_encrypt (payload ++ varint_bytes (blen sig) ++ sig) pub (e_priv e) (e_iv e);
  Ok (head ++ ct).

Definition msg_payload (from : bm_identity_info) (to_ripe subject body ack : list Z) : list Z :=
  sender_bytes from ++ to_ripe ++ simple_encoded subject body ++ varint_bytes (blen ack) ++ ack.

Lemma build_msg_eq from to_stream to_ripe to_pub subject body ack expires e :
  identity_ok from -> blen to_ripe = 20 ->
  bm_build_msg from to_stream to_ripe to_pub subject body (Some ack) (blen ack) expires e
  = sealed (common_header expires BM_OBJECT_MSG 1 to_stream)
      (msg_payload from to_ripe subject body ack) (id_priv_signing from) to_pub e.
Proof.
  intros Hid Hr. unfold bm_build_msg, sealed, msg_payload.
  do 5 bb_step. rewrite <- !app_assoc in Hb3.
  rewrite (sign_both_eq _ _ _ _ _ _ Hb Hb3).
  destruct (bm_crypto_sign _ _ _) as [sig| |]; [|done|done]. cbn_bind. bb_step.
  rewrite (encrypt_buf_eq _ _ _ _ Hb4), <- !app_assoc.
  destruct (bm_crypto_ecies_encrypt _ _ _ _) as [ct| |]; [|done|done]. cbn_bind. bb_step.
  by rewrite (bb_holds_take _ _ Hb5).
Qed.

Lemma build_msg_no_ack from to_stream to_ripe to_pub subject body expires e :
  bm_build_msg from to_stream to_ripe to_pub subject body None 0 expires e
  = bm_build_msg from to_stream to_ripe to_pub subject body (Some []) (blen []) expires e.
Proof. reflexivity. Qed.

Definition broadcast_payload (from : bm_identity_info) (subject body : list Z) : list Z :=
  sender_bytes from ++ simple_encoded subject body.

Definition address_digest (v s : Z) (ripe : list Z) : list Z :=
  bm_sha512 (varint_bytes v ++ varint_bytes s ++ ripe).

Definition broadcast_head (from : bm_identity_info) (ripe : list Z) (expires : Z) : list Z :=
  let v := id_address_version from in
  common_header expires BM_OBJECT_BROADCAST (if v >=? 4 then 5 else 4) (id_stream from)
  ++ (if v >=? 4 then slice (address_digest v (id_stream from) ripe) 32 32 else []).

Lemma build_broadcast_eq from ripe subject body expires e pub :
  identity_ok from -> blen ripe = 20 ->
  bm_address_get_public_key
    (slice (address_digest (id_address_version from) (id_stream from) ripe) 0 32) = Ok pub ->
  bm_build_broadcast from ripe subject body expires e
  = sealed (broadcast_head from ripe expires) (broadcast_payload from subject body)
      (id_priv_signing from) pub e.
Proof.
  intros Hid Hr Hp. unfold bm_build_broadcast, sealed, broadcast_payload, broadcast_head.
  unfold address_digest in *. bb_step. rewrite secret_and_tag_eq by done. cbn_bind.
  set (tag := slice _ 32 32).
  assert (yields (if id_address_version from >=? 4 then bb_append b tag 32 else Ok b)
    (common_header expires BM_OBJECT_BROADCAST (if id_address_version from >=? 4 then 5 else 4)
       (id_stream from) ++ (if id_address_version from >=? 4 then tag else []))) as Hy.
  { case_match; [|rewrite app_nil_r; by apply yields_ret].
    apply yields_data; [done|]. subst tag. rewrite blen_slice; [done|lia|lia|].
    rewrite blen_sha512. lia. }
  eapply yields_bind; [exact Hy|]. intros b1 Hb1. do 2 bb_step.
  rewrite (sign_both_eq _ _ _ _ _ _ Hb1 Hb2).
  destruct (bm_crypto_sign _ _ _) as [sig| |]; [|done|done]. cbn_bind. bb_step.
  rewrite Hp. cbn_bind. rewrite (encrypt_buf_eq _ _ _ _ Hb3), <- !app_assoc.
  destruct (bm_crypto_ecies_encrypt _ _ _ _) as [ct| |]; [|done|done]. cbn_bind. bb_step.
  by rewrite (bb_holds_take _ _ Hb4), <- !app_assoc.
Qed.

Lemma build_getpubkey_eq v s ripe expires :
  blen ripe = 20 ->
  bm_build_getpubkey v s ripe expires
  = Ok (common_header expires BM_OBJECT_GETPUBKEY v s
        ++ (if v <=? 3 then ripe else slice (address_digest v s ripe) 32 32)).
Proof.
  intros Hr. unfold bm_build_getpubkey, address_digest. bb_step. case_match.
  - bb_step. by rewrite (bb_holds_take _ _ Hb0).
  - rewrite secret_and_tag_eq by done. cbn_bind.
    eapply yields_bind; [apply yields_data; [done|rewrite blen_slice; rewrite ?blen_sha512; lia]|].
    intros b' Hb'. by rewrite (bb_holds_take _ _ Hb').
Qed.

Lemma build_pubkey_v2_eq id expires :
  identity_ok id ->
  bm_build_pubkey_v2 id expires
  = Ok (common_header expires BM_OBJECT_PUBKEY 2 (id_stream id) ++ bitfield (id_does_ack id)
        ++ slice (id_pub_signing id) 1 64 ++ slice (id_pub_encryption id) 1 64).
Proof.
  intros (_ & _ & Hs & He & _ & _). unfold bm_build_pubkey_v2. do 4 bb_step.
  by rewrite (bb_holds_take _ _ Hb2), <- !app_assoc.
Qed.

Definition pubkey_fields (id : bm_identity_info) : list Z :=
  bitfield (id_does_ack id) ++ slice (id_pub_signing id) 1 64
  ++ slice (id_pub_encryption id) 1 64 ++ varint_bytes (id_nonce_trials_per_byte id)
  ++ varint_bytes (id_payload_length_extra_bytes id).

Lemma build_pubkey_v3_eq id expires r :
  identity_ok id ->
  let signed := common_header expires BM_OBJECT_PUBKEY 3 (id_stream id) ++ pubkey_fields id in
  bm_build_pubkey_v3 id expires r
  = (sig ← bm_crypto_sign signed (id_priv_signing id) r;
     Ok (signed ++ varint_bytes (blen sig) ++ sig)).
Proof.
  intros (_ & _ & Hs & He & _ & _) signed. unfold bm_build_pubkey_v3. do 6 bb_step.
  rewrite <- !app_assoc in Hb4. rewrite (bb_holds_read _ _ Hb4). cbn_bind.
  fold (pubkey_fields id) in Hb4 |- *. fold signed in Hb4 |- *.
  destruct (bm_crypto_sign _ _ _) as [sig| |]; [|done|done]. cbn_bind. bb_step.
  by rewrite (bb_holds_take _ _ Hb5).
Qed.

Lemma build_pubkey_v4_eq id ripe expires e pub :
  identity_ok id -> blen ripe = 20 ->
  bm_address_get_public_key (slice (address_digest 4 (id_stream id) ripe) 0 32) = Ok pub ->
  bm_build_pubkey_v4 id ripe expires e
  = sealed (common_header expires BM_OBJECT_PUBKEY 4 (id_stream id)
            ++ slice (address_digest 4 (id_stream id) ripe) 32 32)
      (pubkey_fields id) (id_priv_signing id) pub e.
Proof.
  intros (_ & _ & Hs & He & _ & _) Hr Hp. unfold bm_build_pubkey_v4, sealed, address_digest in *.
  bb_step. rewrite secret_and_tag_eq by done. cbn_bind.
  eapply yields_bind; [apply yields_data; [done|rewrite blen_slice; rewrite ?blen_sha512; lia]|].
  intros b' Hb'. do 5 bb_step. rewrite <- !app_assoc in Hb4.
  rewrite (sign_both_eq _ _ _ _ _ _ Hb' Hb4). fold (pubkey_fields id) in Hb4 |- *.
  destruct (bm_crypto_sign _ _ _) as [sig| |]; [|done|done]. cbn_bind. bb_step.
  rewrite Hp. cbn_bind. rewrite (encrypt_buf_eq _ _ _ _ Hb5).
  destruct (bm_crypto_ecies_encrypt _ _ _ _) as [ct| |]; [|done|done]. cbn_bind. bb_step.
  by rewrite (bb_holds_take _ _ Hb6), <- !app_assoc.
Qed.

(** With any nonce in front, [p] is an object with these header fields and this body. *)
Definition reads_as (p : list Z) (e t v s : Z) (body : list Z) : Prop :=
  forall n, is_u64 n -> exists h, bm_object_parse_header (be_split 8 n ++ p) = Ok h
    /\ nonce h = n /\ expires_time h = e /\ object_type h = t /\ version h = v /\ stream h = s
    /\ drop (Z.to_nat (header_len h)) (be_split 8 n ++ p) = body.

Lemma common_header_reads e t v s body :
  is_u64 e -> is_u32 t -> is_u64 v -> is_u64 s ->
  reads_as (common_header e t v s ++ body) e t v s body.
Proof.
  intros He Ht Hv Hs n Hn. eexists.
  replace (be_split 8 n ++ common_header e t v s ++ body) with (header_bytes n e t v s ++ body)
    by (unfold header_bytes, common_header; by rewrite <- !app_assoc).
  rewrite parse_header_bytes by done. split_and!; try done. cbn [header_len].
  apply drop_app_blen. unfold header_bytes.
  rewrite !blen_app, !blen_be_split, !blen_varint_bytes. lia.
Qed.

Lemma sealed_head head payload priv pub e p :
  sealed head payload priv pub e = Ok p -> exists ct, p = head ++ ct.
Proof. unfold sealed. intros E. inv_bind E. inv_bind E. injection E as <-. eauto. Qed.

End BuilderLemmas.

(** [range_ok]: an argument is in range by hypothesis or is a constant. *)
Ltac range_ok :=
  first [assumption | unfold is_u64, is_u32, BM_OBJECT_GETPUBKEY, BM_OBJECT_PUBKEY, BM_OBJECT_MSG,
    BM_OBJECT_BROADCAST; repeat case_match; lia].

(** ** Properties *)

Section BuilderProperties.
Context `{OSL : OpenSSLLaws}.

(** What every builder returns is, behind any nonce, an object that the header
    parser reads with the expiry given, the right type, version and stream: getpubkey
    (whose body is the ripe up to version 3 and the 32-byte tag from version 4),
    pubkey versions 2 (whose body is the bitfield and the two keys) to 4, msg and
    broadcast (version 5 with the tag from address version 4 on, else 4). *)
Theorem bm_build_objects_parse (id : bm_identity_info) (v s expires : Z)
    (ripe to_pub subject body ack pub4 pub_b : list Z) (r : list Z) (e : entropy) :
  identity_ok id -> blen ripe = 20 -> is_u64 v -> is_u64 s -> is_u64 expires ->
  bm_address_get_public_key (slice (address_digest 4 (id_stream id) ripe) 0 32) = Ok pub4 ->
  bm_address_get_public_key
    (slice (address_digest (id_address_version id) (id_stream id) ripe) 0 32) = Ok pub_b ->
  (exists p, bm_build_getpubkey v s ripe expires = Ok p
     /\ reads_as p expires BM_OBJECT_GETPUBKEY v s
          (if v <=? 3 then ripe else slice (address_digest v s ripe) 32 32))
  /\ (exists p, bm_build_pubkey_v2 id expires = Ok p
     /\ reads_as p expires BM_OBJECT_PUBKEY 2 (id_stream id)
          (bitfield (id_does_ack id) ++ slice (id_pub_signing id) 1 64
           ++ slice (id_pub_encryption id) 1 64))
  /\ (forall p, bm_build_pubkey_v3 id expires r = Ok p ->
     exists rest, reads_as p expires BM_OBJECT_PUBKEY 3 (id_stream id) (pubkey_fields id ++ rest))
  /\ (forall p, bm_build_pubkey_v4 id ripe expires e = Ok p ->
     exists ct, reads_as p expires BM_OBJECT_PUBKEY 4 (id_stream id)
       (slice (address_digest 4 (id_stream id) ripe) 32 32 ++ ct))
  /\ (forall p, bm_build_msg id s ripe to_pub subject body (Some ack) (blen ack) expires e = Ok p ->
     exists ct, reads_as p expires BM_OBJECT_MSG 1 s ct)
  /\ (forall p, bm_build_broadcast id ripe subject body expires e = Ok p ->
     exists ct, reads_as p expires BM_OBJECT_BROADCAST
       (if id_address_version id >=? 4 then 5 else 4) (id_stream id)
       ((if id_address_version id >=? 4
         then slice (address_digest (id_address_version id) (id_stream id) ripe) 32 32 else []) ++ ct)).
Proof.
  intros Hid Hr Hv Hs He E4 Eb. pose proof Hid as (_ & Hst & _). split_and!.
  - rewrite build_getpubkey_eq by done. eexists. split; [reflexivity|]. apply common_header_reads; range_ok.
  - rewrite build_pubkey_v2_eq by done. eexists. split; [reflexivity|]. apply common_header_reads; range_ok.
  - intros p. rewrite build_pubkey_v3_eq by done. cbv zeta. intros E. inv_bind E.
    apply ok_inj in E as <-. exists (varint_bytes (blen a) ++ a). rewrite <- (app_assoc (common_header _ _ _ _)).
    apply common_header_reads; range_ok.
  - intros p. rewrite (build_pubkey_v4_eq _ _ _ _ pub4) by done. intros [ct ->]%sealed_head.
    exists ct. rewrite <- (app_assoc (common_header _ _ _ _)). apply common_header_reads; range_ok.
  - intros p. rewrite build_msg_eq by done. intros [ct ->]%sealed_head. exists ct.
    apply common_header_reads; range_ok.
  - intros p. rewrite (build_broadcast_eq _ _ _ _ _ _ pub_b) by done. intros [ct ->]%sealed_head.
    exists ct. unfold broadcast_head. rewrite <- (app_assoc (common_header _ _ _ _)).
    apply common_header_reads; range_ok.
Qed.
End BuilderProperties.

(** ** Witnesses *)

Section BuilderWitnesses.
#[local] Existing Instance toy_OpenSSL.
#[local] Existing Instance toy_OpenSSLLaws.

Definition builder_identity : bm_identity_info :=
  {| id_address_version := 4; id_stream := 1; id_pub_signing := toy_mul (be_split 32 11);
     id_pub_encryption := toy_mul (be_split 32 12); id_priv_signing := be_split 32 11;
     id_nonce_trials_per_byte := 1000; id_payload_length_extra_bytes := 1000;
     id_does_ack := true |}.
Definition builder_entropy : entropy :=
  {| e_sign := []; e_priv := Some (be_split 32 5); e_iv := Some (be_split 16 6) |}.
Definition builder_ripe : list Z := be_split 20 77.
Definition builder_secret : list Z := slice (address_digest 4 1 builder_ripe) 0 32.

Lemma bm_build_objects_parse_witness :
  (exists p, bm_build_getpubkey 4 1 builder_ripe 1700000000 = Ok p
     /\ reads_as p 1700000000 BM_OBJECT_GETPUBKEY 4 1
          (slice (address_digest 4 1 builder_ripe) 32 32))
  /\ (exists p, bm_build_pubkey_v2 builder_identity 1700000000 = Ok p
     /\ reads_as p 1700000000 BM_OBJECT_PUBKEY 2 1
          (bitfield true ++ slice (id_pub_signing builder_identity) 1 64
           ++ slice (id_pub_encryption builder_identity) 1 64))
  /\ (forall p, bm_build_msg builder_identity 1 builder_ripe (toy_mul (be_split 32 9)) [65] [66]
                  (Some []) (blen []) 1700000000 builder_entropy = Ok p ->
     exists ct, reads_as p 1700000000 BM_OBJECT_MSG 1 1 ct).
Proof.
  destruct (bm_build_objects_parse builder_identity 4 1 1700000000 builder_ripe
    (toy_mul (be_split 32 9)) [65] [66] [] (toy_mul builder_secret) (toy_mul builder_secret)
    [] builder_entropy) as (H1 & H2 & _ & _ & H5 & _).
  - split_and!; by vm_compute.
  - by vm_compute.
  - by vm_compute.
  - by vm_compute.
  - by vm_compute.
  - by vm_compute.
  - by vm_compute.
  - split_and!; [exact H1|exact H2|exact H5].
Defined.
End BuilderWitnesses.
