(* ===== verification/IdentityStore.v ===== *)
(** * The stored identities (core/identity_store.c)

    Table [identities] of identity.db, keyed by the address, and the single row of
    [kdf_vault].  Character arrays and C strings are the characters before their NUL.
    (The tables of public keys in the same database are in PubkeyCache.v.) *)

From Stdlib Require Import String.
From stdpp Require Import base tactics numbers option gmap sorting list.
From S2P Require Import Prelude Sql.

Definition BM_IDENTITY_ADDRESS_MAX : Z := 64.
Definition BM_IDENTITY_LABEL_MAX : Z := 128.
Definition BM_IDENTITY_KDF_ALGO_MAX : Z := 16.
Definition BM_IDENTITY_KDF_PARAMS_MAX : Z := 128.
Definition BM_IDENTITY_KDF_SALT_LEN : Z := 16.
Definition BM_IDENTITY_WRAPPED_KEY_LEN : Z := 60.
Definition BM_IDENTITY_VAULT_SALT_LEN : Z := BM_IDENTITY_KDF_SALT_LEN.

Record bm_identity_row := {
  r_address : list Z;
  r_label : list Z;
  r_enabled : Z;
  r_is_chan : Z;
  r_address_version : Z;
  r_stream : Z;
  r_signing_pubkey : list Z;
  r_encryption_pubkey : list Z;
  r_kdf_algo : list Z;
  r_kdf_salt : list Z;
  r_kdf_params : list Z;
  r_wrapped_priv_signing_key : list Z;
  r_wrapped_priv_encryption_key : list Z;
  r_nonce_trials_per_byte : Z;
  r_payload_length_extra_bytes : Z;
  r_created_time : Z
}.
#[export] Instance bm_identity_row_eta : RecordEta bm_identity_row := fun r =>
  Build_bm_identity_row (r_address r) (r_label r) (r_enabled r) (r_is_chan r) (r_address_version r)
    (r_stream r) (r_signing_pubkey r) (r_encryption_pubkey r) (r_kdf_algo r) (r_kdf_salt r)
    (r_kdf_params r) (r_wrapped_priv_signing_key r) (r_wrapped_priv_encryption_key r)
    (r_nonce_trials_per_byte r) (r_payload_length_extra_bytes r) (r_created_time r).

Record vault_row := { va_salt : list Z; va_params : list Z; va_canary : list Z }.

(** The columns of a row of [identities] are the fields of the struct it was made from;
    64-bit numbers are stored as signed ones. *)
Record identity_db := {
  identities : gmap (list Z) bm_identity_row;
  kdf_vault : option vault_row
}.
#[export] Instance identity_db_eta : RecordEta identity_db := fun d =>
  Build_identity_db (identities d) (kdf_vault d).

(** A new database; on an existing one the statements leave these tables as they are. *)
Definition bm_identity_store_init_schema : identity_db := {| identities := ∅; kdf_vault := None |}.

(** INSERT fails on a second row of the same address. *)
Definition bm_identity_store_insert (db : identity_db) (row : bm_identity_row) : cres identity_db :=
  match identities db !! r_address row with
  | Some _ => Err
  | None =>
      Ok (db <| identities :=
            <[r_address row := row <| r_nonce_trials_per_byte := s64 (r_nonce_trials_per_byte row) |>
                                 <| r_payload_length_extra_bytes := s64 (r_payload_length_extra_bytes row) |>]>
              (identities db) |>)
  end.

Definition bm_identity_store_load (db : identity_db) (address : list Z) : cres bm_identity_row :=
  match identities db !! address with
  | None => Err
  | Some r =>
      if negb (blen (r_signing_pubkey r) =? 65) || negb (blen (r_encryption_pubkey r) =? 65) then Err else
      if negb (blen (r_kdf_salt r) =? BM_IDENTITY_KDF_SALT_LEN) then Err else
      if negb (blen (r_wrapped_priv_signing_key r) =? BM_IDENTITY_WRAPPED_KEY_LEN)
         || negb (blen (r_wrapped_priv_encryption_key r) =? BM_IDENTITY_WRAPPED_KEY_LEN) then Err else
      Ok (r <| r_address := text_field BM_IDENTITY_ADDRESS_MAX address |>
            <| r_label := text_field BM_IDENTITY_LABEL_MAX (r_label r) |>
            <| r_kdf_algo := text_field BM_IDENTITY_KDF_ALGO_MAX (r_kdf_algo r) |>
            <| r_kdf_params := text_field BM_IDENTITY_KDF_PARAMS_MAX (r_kdf_params r) |>
            <| r_nonce_trials_per_byte := u64 (r_nonce_trials_per_byte r) |>
            <| r_payload_length_extra_bytes := u64 (r_payload_length_extra_bytes r) |>)
  end.

Definition bm_identity_store_delete (db : identity_db) (address : list Z) : identity_db :=
  db <| identities := delete_where (identities db) (fun k _ => list_eqb k address) |>.

Definition set_is_chan (is_chan : Z) (r : bm_identity_row) : bm_identity_row := r <| r_is_chan := is_chan |>.

Definition bm_identity_store_set_is_chan (db : identity_db) (address : list Z) (is_chan : Z) : identity_db :=
  db <| identities := update_where (identities db) (fun k _ => list_eqb k address) (set_is_chan is_chan) |>.

(** No row changed is an error. *)
Definition bm_identity_store_update_label (db : identity_db) (address label : list Z) : cres identity_db :=
  match identities db !! address with
  | None => Err
  | Some _ =>
      Ok (db <| identities := update_where (identities db) (fun k _ => list_eqb k address)
                                (fun r => r <| r_label := label |>) |>)
  end.

Record bm_identity_summary := {
  sm_address : list Z;
  sm_label : list Z;
  sm_enabled : Z;
  sm_is_chan : Z
}.

Definition read_summary (kr : list Z * bm_identity_row) : bm_identity_summary :=
  {| sm_address := text_field BM_IDENTITY_ADDRESS_MAX kr.1;
     sm_label := text_field BM_IDENTITY_LABEL_MAX (r_label kr.2);
     sm_enabled := r_enabled kr.2; sm_is_chan := r_is_chan kr.2 |}.

Definition bm_identity_store_list (db : identity_db) : list bm_identity_summary :=
  map read_summary
    (order_by (fun a b => r_created_time a.2 <=? r_created_time b.2)
       (select_where (identities db) (fun _ _ => true))).

(** The order of texts: byte by byte, a prefix first. *)
Fixpoint text_leb (a b : list Z) : bool :=
  match a, b with
  | [], _ => true
  | _ :: _, [] => false
  | x :: a, y :: b => (x <? y) || (x =? y) && text_leb a b
  end.

Definition created_leb (a b : list Z * bm_identity_row) : bool :=
  (r_created_time a.2 <? r_created_time b.2)
  || (r_created_time a.2 =? r_created_time b.2) && text_leb a.1 b.1.

(** LIMIT and OFFSET are bound as signed numbers; a negative limit is none, a negative
    offset is 0. *)
Definition limit_offset {A} (limit offset : Z) (l : list A) : list A :=
  let l := drop (Z.to_nat (s64 offset)) l in
  if s64 limit <? 0 then l else take (Z.to_nat (s64 limit)) l.

Definition bm_identity_store_list_by_version (db : identity_db) (address_version limit offset : Z)
  : list bm_identity_summary :=
  map read_summary
    (limit_offset limit offset
       (order_by created_leb
          (select_where (identities db) (fun _ r => r_address_version r =? address_version)))).

Definition bm_identity_store_count_by_version (db : identity_db) (address_version : Z) : Z :=
  Z.of_nat (length (select_where (identities db) (fun _ r => r_address_version r =? address_version))).

(** The salt, the parameters and the canary. *)
Definition bm_identity_store_load_vault (db : identity_db) : cres vault_row :=
  match kdf_vault db with
  | None => Err
  | Some v =>
      if negb (blen (va_salt v) =? BM_IDENTITY_VAULT_SALT_LEN)
         || negb (blen (va_canary v) =? BM_IDENTITY_WRAPPED_KEY_LEN) then Err else
      Ok {| va_salt := va_salt v; va_params := text_field BM_IDENTITY_KDF_PARAMS_MAX (va_params v);
            va_canary := va_canary v |}
  end.

Definition bm_identity_store_create_vault (db : identity_db) (vault_salt kdf_params canary : list Z)
  : cres identity_db :=
  match kdf_vault db with
  | Some _ => Err
  | None => Ok (db <| kdf_vault := Some {| va_salt := vault_salt; va_params := kdf_params; va_canary := canary |} |>)
  end.

Definition rewrap (kdf_algo kdf_salt wrapped_signing wrapped_encryption : list Z) (r : bm_identity_row)
  : bm_identity_row :=
  r <| r_kdf_algo := kdf_algo |> <| r_kdf_salt := kdf_salt |> <| r_kdf_params := [] |>
    <| r_wrapped_priv_signing_key := wrapped_signing |>
    <| r_wrapped_priv_encryption_key := wrapped_encryption |>.

Definition bm_identity_store_update_wrapped_keys (db : identity_db)
    (address kdf_algo kdf_salt wrapped_signing wrapped_encryption : list Z) : identity_db :=
  db <| identities := update_where (identities db) (fun k _ => list_eqb k address)
                        (rewrap kdf_algo kdf_salt wrapped_signing wrapped_encryption) |>.

(** ** Lemmas and the paging property *)

Lemma text_leb_total a : forall b, text_leb a b = true \/ text_leb b a = true.
Proof.
  induction a as [|x a IH]; intros [|y b]; cbn; auto.
  destruct (Z.ltb_spec x y), (Z.ltb_spec y x), (Z.eqb_spec x y), (Z.eqb_spec y x); cbn; auto; lia.
Qed.

Lemma created_leb_total a b : created_leb a b = true \/ created_leb b a = true.
Proof.
  unfold created_leb. pose proof (text_leb_total a.1 b.1).
  destruct (Z.ltb_spec (r_created_time a.2) (r_created_time b.2)); [by left|].
  destruct (Z.ltb_spec (r_created_time b.2) (r_created_time a.2)); [by right|].
  replace (r_created_time b.2) with (r_created_time a.2) by lia. rewrite Z.eqb_refl. done.
Qed.

(** Consecutive pages of [n] make up a list. *)
Lemma pages_concat {A} (l : list A) (n : nat) k :
  concat (map (fun i => take n (drop (i * n) l)) (seq 0 k)) = take (k * n) l.
Proof.
  induction k as [|k IH]; [by rewrite take_0|].
  rewrite seq_S, map_app, concat_app, IH. cbn [map concat]. rewrite app_nil_r.
  replace (S k * n)%nat with (k * n + n)%nat by lia. cbn [Nat.add]. by rewrite take_take_drop.
Qed.

(** Paging through the identities of a version.  The pages of [limit] at the offsets
    0, limit, 2 * limit, .. up to the count are, one after the other, every identity of that
    version exactly once, the oldest first. *)
Theorem identity_pages db v limit (pages : nat) :
  0 < limit -> Z.of_nat pages * limit < 2 ^ 63 ->
  bm_identity_store_count_by_version db v <= Z.of_nat pages * limit ->
  exists rows,
    concat (map (fun i => bm_identity_store_list_by_version db v limit (Z.of_nat i * limit)) (seq 0 pages))
      = map read_summary rows
    /\ Sorted (fun a b => created_leb a b = true) rows /\ NoDup rows
    /\ (forall a r, (a, r) ∈ rows <-> identities db !! a = Some r /\ r_address_version r = v)
    /\ bm_identity_store_count_by_version db v = Z.of_nat (length rows).
Proof.
  intros Hl Hb Hc. unfold bm_identity_store_count_by_version in *.
  set (sel := select_where (identities db) (fun _ r => r_address_version r =? v)) in *.
  exists (order_by created_leb sel). split_and!.
  - transitivity (concat (map (fun i => take (Z.to_nat limit)
        (drop (i * Z.to_nat limit) (map read_summary (order_by created_leb sel)))) (seq 0 pages))).
    + f_equal. apply map_ext_in. intros i [_ Hi]%in_seq. unfold bm_identity_store_list_by_version, limit_offset.
      assert (Z.of_nat i * limit <= Z.of_nat pages * limit) by (apply Z.mul_le_mono_nonneg_r; lia).
      assert (1 * limit <= Z.of_nat pages * limit) by (apply Z.mul_le_mono_nonneg_r; lia).
      rewrite !s64_small by lia. destruct (Z.ltb_spec limit 0); [lia|].
      rewrite skipn_map, firstn_map. fold sel. do 3 f_equal. rewrite Z2Nat.inj_mul by lia.
      by rewrite Nat2Z.id.
    + rewrite pages_concat. apply take_ge. rewrite length_map, order_by_perm. nia.
  - apply order_by_sorted. intros x y _ _. apply created_leb_total.
  - rewrite order_by_perm. apply NoDup_select_where.
  - intros a r. rewrite order_by_perm. unfold sel. by rewrite elem_of_select_where, Z.eqb_eq.
  - by rewrite order_by_perm.
Qed.

Definition page_row (address : list Z) (created : Z) : bm_identity_row :=
  {| r_address := address; r_label := []; r_enabled := 1; r_is_chan := 0; r_address_version := 4; r_stream := 1;
     r_signing_pubkey := []; r_encryption_pubkey := []; r_kdf_algo := []; r_kdf_salt := []; r_kdf_params := [];
     r_wrapped_priv_signing_key := []; r_wrapped_priv_encryption_key := []; r_nonce_trials_per_byte := 0;
     r_payload_length_extra_bytes := 0; r_created_time := created |}.
Definition page_db : identity_db :=
  {| identities := {[ [65] := page_row [65] 7; [66] := page_row [66] 5; [67] := page_row [67] 7 ]};
     kdf_vault := None |}.

Lemma identity_pages_witness :
  exists rows : list (list Z * bm_identity_row),
    concat (map (fun i => bm_identity_store_list_by_version page_db 4 2 (Z.of_nat i * 2)) (seq 0 2))
      = map read_summary rows
    /\ bm_identity_store_count_by_version page_db 4 = Z.of_nat (length rows).
Proof.
  destruct (identity_pages page_db 4 2 2) as (rows & H & _ & _ & _ & Hc); [lia|lia|by vm_compute|].
  exists rows. split; [exact H|exact Hc].
Defined.
