(* ===== verification/Keyring.v ===== *)
(** * The keyring (core/keyring.c)

    The list of unlocked identities, and the wrapping of the private keys in identity.db
    under a pass phrase: a row either has a key of its own, derived by scrypt, or hangs on
    the vault, whose master key is derived once and expanded per row.

    The reader-writer lock makes each operation on the list atomic.  Random bytes and the
    time are arguments.  Clearing of key memory is not represented; the post-quantum list
    (BM_HAVE_PQ) is not modelled. *)

From Stdlib Require Import String.
From stdpp Require Import base tactics numbers option gmap list.
From S2P Require Import Prelude Varint Base58 Openssl Hash Address Sql IdentityStore.

#[local] Arguments be_split : simpl never.

Definition BM_ADDRESS_STR_MAX : Z := 64.
Definition BM_KEYRING_MAX_ADDRESS_LEN : Z := BM_ADDRESS_STR_MAX.

Record bm_unlocked_identity := {
  u_address : list Z;
  u_ripe : list Z;
  u_priv_signing : list Z;
  u_priv_encryption : list Z;
  u_pub_signing : list Z;
  u_pub_encryption : list Z;
  u_address_version : Z;
  u_stream : Z;
  u_nonce_trials_per_byte : Z;
  u_payload_length_extra_bytes : Z;
  u_is_chan : bool;
  u_unlocked_at : Z
}.
#[export] Instance bm_unlocked_identity_eta : RecordEta bm_unlocked_identity := fun u =>
  Build_bm_unlocked_identity (u_address u) (u_ripe u) (u_priv_signing u) (u_priv_encryption u)
    (u_pub_signing u) (u_pub_encryption u) (u_address_version u) (u_stream u)
    (u_nonce_trials_per_byte u) (u_payload_length_extra_bytes u) (u_is_chan u) (u_unlocked_at u).

(** The list from [head]. *)
Abbreviation bm_keyring_t := (list bm_unlocked_identity).

Definition bm_keyring_init : bm_keyring_t := [].
Definition bm_keyring_destroy (kr : bm_keyring_t) : bm_keyring_t := [].

(** [strcmp(a, b) == 0] and [strncmp(a, b, BM_KEYRING_MAX_ADDRESS_LEN) == 0] *)
Definition same_address (a b : list Z) : bool :=
  list_eqb (take (Z.to_nat BM_KEYRING_MAX_ADDRESS_LEN) a) (take (Z.to_nat BM_KEYRING_MAX_ADDRESS_LEN) b).

(** ** Looking up *)

(** The first entry that satisfies a condition. *)
Fixpoint find_entry (p : bm_unlocked_identity -> bool) (kr : bm_keyring_t) : option bm_unlocked_identity :=
  match kr with
  | [] => None
  | cur :: kr => if p cur then Some cur else find_entry p kr
  end.

Definition bm_keyring_find_by_ripe (kr : bm_keyring_t) (ripe : list Z) : option bm_unlocked_identity :=
  find_entry (fun cur => list_eqb (u_ripe cur) ripe) kr.

Definition bm_keyring_find_by_ripe_version (kr : bm_keyring_t) (ripe : list Z) (address_version stream : Z)
  : option bm_unlocked_identity :=
  find_entry (fun cur => (u_address_version cur =? address_version) && (u_stream cur =? stream)
                         && list_eqb (u_ripe cur) ripe) kr.

Definition bm_keyring_find_by_address (kr : bm_keyring_t) (address : list Z) : option bm_unlocked_identity :=
  find_entry (fun cur => same_address (u_address cur) address) kr.

Fixpoint bm_keyring_find_by_tag `{OpenSSL} (kr : bm_keyring_t) (tag : list Z)
  : cres (option bm_unlocked_identity) :=
  match kr with
  | [] => Ok None
  | cur :: kr =>
      if 4 <=? u_address_version cur then
        '(_, computed) ← bm_address_derive_secret_and_tag (u_address_version cur) (u_stream cur) (u_ripe cur);
        if list_eqb computed tag then Ok (Some cur) else bm_keyring_find_by_tag kr tag
      else bm_keyring_find_by_tag kr tag
  end.

(** ** Locking *)

(** Whether an entry was removed. *)
Fixpoint bm_keyring_lock (kr : bm_keyring_t) (address : list Z) : bool * bm_keyring_t :=
  match kr with
  | [] => (false, [])
  | cur :: kr =>
      if same_address (u_address cur) address then (true, kr)
      else let '(found, kr) := bm_keyring_lock kr address in (found, cur :: kr)
  end.

Definition bm_keyring_lock_all (kr : bm_keyring_t) : bm_keyring_t := [].

Fixpoint mark_unlocked_entry_as_chan (kr : bm_keyring_t) (address : list Z) : bm_keyring_t :=
  match kr with
  | [] => []
  | cur :: kr =>
      if list_eqb (u_address cur) address then cur <| u_is_chan := true |> :: kr
      else cur :: mark_unlocked_entry_as_chan kr address
  end.

Definition bm_keyring_delete_identity (kr : bm_keyring_t) (db : identity_db) (address : list Z)
  : bm_keyring_t * identity_db :=
  ((bm_keyring_lock kr address).2, bm_identity_store_delete db address).

Definition bm_keyring_mark_as_chan (db : identity_db) (address : list Z) : identity_db :=
  bm_identity_store_set_is_chan db address 1.

(** ** Derivation parameters *)

Definition BM_KEYRING_SCRYPT_N : Z := 32768.
Definition BM_KEYRING_SCRYPT_R : Z := 8.
Definition BM_KEYRING_SCRYPT_P : Z := 1.

(** A key of the JSON text: the letter in double quotes and a colon. *)
Definition json_key (c : Z) : list Z := [34; c; 34; 58].

(** What [snprintf] makes of the three constants. *)
Definition scrypt_params : list Z :=
  [123] ++ json_key 78 ++ cstr "32768,"%string ++ json_key 114 ++ cstr "8,"%string
  ++ json_key 112 ++ cstr "1}"%string.

Fixpoint scan_literal (lit l : list Z) : option (list Z) :=
  match lit, l with
  | [], _ => Some l
  | c :: lit, d :: l => if c =? d then scan_literal lit l else None
  | _ :: _, [] => None
  end.

(** %llu and %u: white space, a sign, digits; [strtoull] stops at 2^64 - 1, a minus sign
    negates modulo 2^64, and %u keeps the low 32 bits. *)
Definition scan_unsigned (wrap : Z -> Z) (l : list Z) : option (Z * list Z) :=
  let l := skip_while isspace l in
  let '(neg, l) := match l with
                   | c :: r => if c =? 45 then (true, r) else if c =? 43 then (false, r) else (false, l)
                   | [] => (false, l)
                   end in
  let '(ds, l) := span (length l) isdigit l in
  match ds with
  | [] => None
  | _ =>
      let v := digits_value ds in
      Some (wrap (if v >=? 2 ^ 64 then 2 ^ 64 - 1 else if neg : bool then u64 (- v) else v), l)
  end.

(** The closing brace is not needed for the three conversions. *)
Definition parse_kdf_params (json : list Z) : cres (Z * Z * Z) :=
  let r :=
    l ← scan_literal ([123] ++ json_key 78) json;
    '(n, l) ← scan_unsigned u64 l;
    l ← scan_literal ([44] ++ json_key 114) l;
    '(r, l) ← scan_unsigned u32 l;
    l ← scan_literal ([44] ++ json_key 112) l;
    '(p, l) ← scan_unsigned u32 l;
    Some (n, r, p) in
  match r with Some x => Ok x | None => Err end.

(** ** Wrapping *)

Definition BM_KEYRING_WRAP_OVERHEAD : Z := 28.

Section Wrapping.
Context `{OSV : OpenSSLVault}.

Definition derive_kek (passphrase salt : list Z) (n r p : Z) : cres (list Z) :=
  or_err (scrypt passphrase salt n r p).

(** The nonce, the ciphertext and the tag. *)
Definition bm_keyring_internal_wrap (kek aad plaintext nonce : list Z) : cres (list Z) :=
  '(ciphertext, tag) ← or_err (AES_256_GCM_encrypt kek nonce aad plaintext);
  Ok (nonce ++ ciphertext ++ tag).

Definition bm_keyring_internal_unwrap (kek aad wrapped : list Z) : cres (list Z) :=
  if blen wrapped <? BM_KEYRING_WRAP_OVERHEAD then Err else
  let pt_len := blen wrapped - BM_KEYRING_WRAP_OVERHEAD in
  or_err (AES_256_GCM_decrypt kek (slice wrapped 0 12) aad (slice wrapped 12 pt_len)
            (slice wrapped (12 + pt_len) 16)).

Definition hkdf_expand_wrap_key (master_kek row_salt address : list Z) : cres (list Z) :=
  or_err (HKDF_expand master_kek row_salt address).

Definition derive_master_kek (passphrase vault_salt vault_kdf_params : list Z) : cres (list Z) :=
  '(n, r, p) ← parse_kdf_params vault_kdf_params;
  derive_kek passphrase vault_salt n r p.

Definition VAULT_CANARY_PLAINTEXT : list Z := cstr "bm-vault-canary-v1-ok"%string ++ replicate 11 0.
Definition VAULT_CANARY_AAD : list Z := cstr "bm-vault-canary-v1-ctx"%string.

Definition verify_vault_canary (master_kek canary : list Z) : cres unit :=
  check ← bm_keyring_internal_unwrap master_kek VAULT_CANARY_AAD canary;
  if list_eqb check VAULT_CANARY_PLAINTEXT then Ok () else Err.

(** The vault's master key, when the pass phrase is the vault's. *)
Definition vault_master_kek (db : identity_db) (passphrase : list Z) : cres (list Z) :=
  v ← bm_identity_store_load_vault db;
  master_kek ← derive_master_kek passphrase (va_salt v) (va_params v);
  _ ← verify_vault_canary master_kek (va_canary v);
  Ok master_kek.

Definition VAULT_HKDF : list Z := cstr "vault-hkdf"%string.
Definition SCRYPT : list Z := cstr "scrypt"%string.

Definition bm_keyring_internal_resolve_kek (db : identity_db) (kdf_algo kdf_salt kdf_params address
    passphrase : list Z) : cres (list Z) :=
  if list_eqb kdf_algo VAULT_HKDF then
    master_kek ← vault_master_kek db passphrase;
    hkdf_expand_wrap_key master_kek kdf_salt address
  else
    '(n, r, p) ← parse_kdf_params kdf_params;
    derive_kek passphrase kdf_salt n r p.

Definition resolve_kek_for_row (db : identity_db) (row : bm_identity_row) (passphrase : list Z)
  : cres (list Z) :=
  bm_keyring_internal_resolve_kek db (r_kdf_algo row) (r_kdf_salt row) (r_kdf_params row) (r_address row)
    passphrase.

(** Both keys of a row. *)
Definition unwrap_both (kek address : list Z) (row : bm_identity_row) : cres (list Z * list Z) :=
  match bm_keyring_internal_unwrap kek address (r_wrapped_priv_signing_key row),
        bm_keyring_internal_unwrap kek address (r_wrapped_priv_encryption_key row) with
  | Ub, _ | _, Ub => Ub
  | Ok priv_signing, Ok priv_encryption => Ok (priv_signing, priv_encryption)
  | _, _ => Err
  end.

(** ** Unlocking *)

Section Unlocking.
Context `{OS : OpenSSL}.

Definition add_unlocked_entry (kr : bm_keyring_t) (row : bm_identity_row)
    (priv_signing priv_encryption : list Z) (now : Z) : cres bm_keyring_t :=
  ripe ← bm_address_calc_ripe (r_signing_pubkey row) (r_encryption_pubkey row);
  Ok ({| u_address := text_field BM_KEYRING_MAX_ADDRESS_LEN (r_address row); u_ripe := ripe;
         u_priv_signing := priv_signing; u_priv_encryption := priv_encryption;
         u_pub_signing := r_signing_pubkey row; u_pub_encryption := r_encryption_pubkey row;
         u_address_version := u64 (r_address_version row); u_stream := u64 (r_stream row);
         u_nonce_trials_per_byte := r_nonce_trials_per_byte row;
         u_payload_length_extra_bytes := r_payload_length_extra_bytes row;
         u_is_chan := negb (r_is_chan row =? 0); u_unlocked_at := now |} :: kr).

Definition unlock_with_kek (kr : bm_keyring_t) (row : bm_identity_row) (kek : list Z) (now : Z)
  : cres bm_keyring_t :=
  '(priv_signing, priv_encryption) ← unwrap_both kek (r_address row) row;
  add_unlocked_entry kr row priv_signing priv_encryption now.

Definition unlock_with_vault (kr : bm_keyring_t) (row : bm_identity_row) (master_kek : list Z) (now : Z)
  : cres bm_keyring_t :=
  kek ← hkdf_expand_wrap_key master_kek (r_kdf_salt row) (r_address row);
  unlock_with_kek kr row kek now.

Definition bm_keyring_unlock (kr : bm_keyring_t) (db : identity_db) (address passphrase : list Z) (now : Z)
  : cres bm_keyring_t :=
  row ← bm_identity_store_load db address;
  kek ← resolve_kek_for_row db row passphrase;
  unlock_with_kek kr row kek now.
End Unlocking.

(** The keys themselves, without unlocking anything. *)
Definition bm_keyring_export (db : identity_db) (address passphrase : list Z) : cres (list Z * list Z) :=
  row ← bm_identity_store_load db address;
  kek ← resolve_kek_for_row db row passphrase;
  unwrap_both kek address row.

(** ** Storing *)

(** The random bytes of a row: its salt and the two nonces. *)
Record wrap_random := { wr_salt : list Z; wr_nonce_signing : list Z; wr_nonce_encryption : list Z }.

Definition store_new_identity_with_kek (db : identity_db) (address : list Z) (label : option (list Z))
    (address_version stream : Z) (pub_signing pub_encryption priv_signing priv_encryption
    kdf_algo kdf_salt kdf_params kek : list Z) (nonce_trials_per_byte payload_length_extra_bytes : Z)
    (rnd : wrap_random) (now : Z) : cres identity_db :=
  match bm_keyring_internal_wrap kek address priv_signing (wr_nonce_signing rnd),
        bm_keyring_internal_wrap kek address priv_encryption (wr_nonce_encryption rnd) with
  | Ok wrapped_signing, Ok wrapped_encryption =>
      bm_identity_store_insert db
        {| r_address := text_field BM_IDENTITY_ADDRESS_MAX address;
           r_label := text_field BM_IDENTITY_LABEL_MAX (default [] label);
           r_enabled := 1; r_is_chan := 0; r_address_version := address_version; r_stream := stream;
           r_signing_pubkey := pub_signing; r_encryption_pubkey := pub_encryption;
           r_kdf_algo := text_field BM_IDENTITY_KDF_ALGO_MAX kdf_algo; r_kdf_salt := kdf_salt;
           r_kdf_params := text_field BM_IDENTITY_KDF_PARAMS_MAX kdf_params;
           r_wrapped_priv_signing_key := wrapped_signing;
           r_wrapped_priv_encryption_key := wrapped_encryption;
           r_nonce_trials_per_byte := nonce_trials_per_byte;
           r_payload_length_extra_bytes := payload_length_extra_bytes; r_created_time := now |}
  | _, _ => Err
  end.

(** The salt is random; the text of the parameters and the key. *)
Definition bm_keyring_internal_new_scrypt_kek (passphrase salt : list Z) : cres (list Z * list Z) :=
  kek ← derive_kek passphrase salt BM_KEYRING_SCRYPT_N BM_KEYRING_SCRYPT_R BM_KEYRING_SCRYPT_P;
  Ok (scrypt_params, kek).

Definition bm_keyring_create_identity (db : identity_db) (address : list Z) (label : option (list Z))
    (address_version stream : Z) (pub_signing pub_encryption priv_signing priv_encryption passphrase : list Z)
    (nonce_trials_per_byte payload_length_extra_bytes : Z) (rnd : wrap_random) (now : Z) : cres identity_db :=
  '(kdf_params, kek) ← bm_keyring_internal_new_scrypt_kek passphrase (wr_salt rnd);
  store_new_identity_with_kek db address label address_version stream pub_signing pub_encryption
    priv_signing priv_encryption SCRYPT (wr_salt rnd) kdf_params kek nonce_trials_per_byte
    payload_length_extra_bytes rnd now.

(** A new vault; [salt] and [nonce] are random. *)
Definition create_vault (db : identity_db) (passphrase salt nonce : list Z) : cres (list Z * identity_db) :=
  master_kek ← derive_kek passphrase salt BM_KEYRING_SCRYPT_N BM_KEYRING_SCRYPT_R BM_KEYRING_SCRYPT_P;
  canary ← bm_keyring_internal_wrap master_kek VAULT_CANARY_AAD VAULT_CANARY_PLAINTEXT nonce;
  db ← bm_identity_store_create_vault db salt scrypt_params canary;
  Ok (master_kek, db).

Definition bm_keyring_resolve_or_create_vault_master_kek (db : identity_db) (passphrase salt nonce : list Z)
  : cres (list Z * identity_db) :=
  match bm_identity_store_load_vault db with
  | Ok _ => master_kek ← vault_master_kek db passphrase; Ok (master_kek, db)
  | _ => create_vault db passphrase salt nonce
  end.

Definition bm_keyring_import_identity_with_master_kek (db : identity_db) (address : list Z)
    (label : option (list Z)) (address_version stream : Z) (pub_signing pub_encryption priv_signing
    priv_encryption master_kek : list Z) (nonce_trials_per_byte payload_length_extra_bytes : Z)
    (rnd : wrap_random) (now : Z) : cres identity_db :=
  kek ← hkdf_expand_wrap_key master_kek (wr_salt rnd) address;
  store_new_identity_with_kek db address label address_version stream pub_signing pub_encryption
    priv_signing priv_encryption VAULT_HKDF (wr_salt rnd) [] kek nonce_trials_per_byte
    payload_length_extra_bytes rnd now.

(** Whether the row was stored; the vault stays even when it was not. *)
Definition bm_keyring_import_identity (db : identity_db) (address : list Z) (label : option (list Z))
    (address_version stream : Z) (pub_signing pub_encryption priv_signing priv_encryption passphrase : list Z)
    (nonce_trials_per_byte payload_length_extra_bytes : Z) (vault_salt vault_nonce : list Z)
    (rnd : wrap_random) (now : Z) : cres (bool * identity_db) :=
  match bm_keyring_resolve_or_create_vault_master_kek db passphrase vault_salt vault_nonce with
  | Ub => Ub
  | Err => Ok (false, db)
  | Ok (master_kek, db) =>
      match bm_keyring_import_identity_with_master_kek db address label address_version stream pub_signing
              pub_encryption priv_signing priv_encryption master_kek nonce_trials_per_byte
              payload_length_extra_bytes rnd now with
      | Ub => Ub
      | Err => Ok (false, db)
      | Ok db => Ok (true, db)
      end
  end.

(** ** Migration to the vault *)

(** The keys come from the keyring, where the identity has just been unlocked. *)
Definition rewrap_to_vault (db : identity_db) (kr : bm_keyring_t) (address master_kek : list Z)
    (rnd : wrap_random) : cres identity_db :=
  match bm_keyring_find_by_address kr address with
  | None => Err
  | Some unlocked =>
      kek ← hkdf_expand_wrap_key master_kek (wr_salt rnd) address;
      match bm_keyring_internal_wrap kek address (u_priv_signing unlocked) (wr_nonce_signing rnd),
            bm_keyring_internal_wrap kek address (u_priv_encryption unlocked) (wr_nonce_encryption rnd) with
      | Ok wrapped_signing, Ok wrapped_encryption =>
          Ok (bm_identity_store_update_wrapped_keys db address VAULT_HKDF (wr_salt rnd) wrapped_signing
                wrapped_encryption)
      | _, _ => Err
      end
  end.

(** ** Bulk unlocking *)

Record bm_unlock_all_entry := { ua_address : list Z; ua_unlocked : bool; ua_not_found : bool }.

(** [have_master_kek] and [master_kek]: [None] without a usable key. *)
Record unlock_bulk_state := { vault_exists : bool; bulk_master_kek : option (list Z) }.

Definition unlock_bulk_begin (db : identity_db) (passphrase : list Z) : unlock_bulk_state :=
  {| vault_exists := match bm_identity_store_load_vault db with Ok _ => true | _ => false end;
     bulk_master_kek := match vault_master_kek db passphrase with Ok k => Some k | _ => None end |}.

(** The random bytes one identity may need. *)
Record bulk_random := { bk_vault_salt : list Z; bk_canary_nonce : list Z; bk_wrap : wrap_random }.

Section Bulk.
Context `{OS : OpenSSL} (passphrase : list Z) (now : Z).

(** The vault of the first identity that is migrated. *)
Definition bulk_vault (db : identity_db) (st : unlock_bulk_state) (rnd : bulk_random)
  : unlock_bulk_state * identity_db :=
  match bulk_master_kek st, vault_exists st with
  | None, false =>
      match create_vault db passphrase (bk_vault_salt rnd) (bk_canary_nonce rnd) with
      | Ok (k, db) => ({| vault_exists := true; bulk_master_kek := Some k |}, db)
      | _ => (st, db)
      end
  | _, _ => (st, db)
  end.

Definition bulk_rewrap (db : identity_db) (kr : bm_keyring_t) (st : unlock_bulk_state) (address : list Z)
    (rnd : bulk_random) : cres identity_db :=
  match bulk_master_kek st with
  | None => Ok db
  | Some k =>
      match rewrap_to_vault db kr address k (bk_wrap rnd) with
      | Ub => Ub
      | Err => Ok db
      | Ok db => Ok db
      end
  end.

Definition unlock_bulk_one (kr : bm_keyring_t) (db : identity_db) (st : unlock_bulk_state)
    (address : list Z) (rnd : bulk_random)
  : cres (bm_unlock_all_entry * bm_keyring_t * identity_db * unlock_bulk_state) :=
  let entry unlocked not_found :=
    {| ua_address := text_field BM_KEYRING_MAX_ADDRESS_LEN address; ua_unlocked := unlocked;
       ua_not_found := not_found |} in
  match bm_keyring_find_by_address kr address with
  | Some _ => Ok (entry true false, kr, db, st)
  | None =>
      match bm_identity_store_load db address with
      | Ub => Ub
      | Err => Ok (entry false true, kr, db, st)
      | Ok row =>
          if list_eqb (r_kdf_algo row) VAULT_HKDF then
            match bulk_master_kek st with
            | None => Ok (entry false false, kr, db, st)
            | Some k =>
                match unlock_with_vault kr row k now with
                | Ub => Ub
                | Err => Ok (entry false false, kr, db, st)
                | Ok kr => Ok (entry true false, kr, db, st)
                end
            end
          else
            match bm_keyring_unlock kr db address passphrase now with
            | Ub => Ub
            | Err => Ok (entry false false, kr, db, st)
            | Ok kr =>
                let '(st, db) := bulk_vault db st rnd in
                db ← bulk_rewrap db kr st address rnd;
                Ok (entry true false, kr, db, st)
            end
      end
  end.

(** The loop over the addresses, with the random bytes of each. *)
Fixpoint unlock_bulk (kr : bm_keyring_t) (db : identity_db) (st : unlock_bulk_state)
    (addresses : list (list Z * bulk_random))
  : cres (list bm_unlock_all_entry * bm_keyring_t * identity_db) :=
  match addresses with
  | [] => Ok ([], kr, db)
  | (address, rnd) :: addresses =>
      '(e, kr, db, st) ← unlock_bulk_one kr db st address rnd;
      '(es, kr, db) ← unlock_bulk kr db st addresses;
      Ok (e :: es, kr, db)
  end.

Definition bm_keyring_unlock_addresses (kr : bm_keyring_t) (db : identity_db)
    (addresses : list (list Z * bulk_random)) : cres (list bm_unlock_all_entry * bm_keyring_t * identity_db) :=
  unlock_bulk kr db (unlock_bulk_begin db passphrase) addresses.

Definition BM_KEYRING_UNLOCK_ALL_MAX_IDENTITIES : Z := 10000.

(** [None] when there are more than [max_identities]; [rnd i]: the bytes of the [i]-th. *)
Definition bm_keyring_unlock_all_with_limit (kr : bm_keyring_t) (db : identity_db) (max_identities : Z)
    (rnd : nat -> bulk_random)
  : cres (option (list bm_unlock_all_entry) * bm_keyring_t * identity_db) :=
  let l := bm_identity_store_list db in
  if Z.of_nat (length l) >? max_identities then Ok (None, kr, db) else
  '(es, kr, db) ← unlock_bulk kr db (unlock_bulk_begin db passphrase)
                    (imap (fun i s => (sm_address s, rnd i)) l);
  Ok (Some es, kr, db).

Definition bm_keyring_unlock_all (kr : bm_keyring_t) (db : identity_db) (rnd : nat -> bulk_random)
  : cres (option (list bm_unlock_all_entry) * bm_keyring_t * identity_db) :=
  bm_keyring_unlock_all_with_limit kr db BM_KEYRING_UNLOCK_ALL_MAX_IDENTITIES rnd.
End Bulk.

(** ** The version 4 sibling of a version 3 identity *)

(** [master_kek_state] and [master_kek]: 0 before the first use, then the key or -1. *)
Inductive master_kek_state := KEK_UNKNOWN | KEK_KNOWN (master_kek : list Z) | KEK_WRONG.
Record bm_keyring_convert_session := { cs_passphrase : list Z; cs_master_kek : master_kek_state }.

Definition bm_keyring_convert_session_init (passphrase : list Z) : bm_keyring_convert_session :=
  {| cs_passphrase := passphrase; cs_master_kek := KEK_UNKNOWN |}.
Definition bm_keyring_convert_session_clear (s : bm_keyring_convert_session) : bm_keyring_convert_session :=
  {| cs_passphrase := cs_passphrase s; cs_master_kek := KEK_UNKNOWN |}.

Definition session_master_kek (db : identity_db) (s : bm_keyring_convert_session)
  : cres (list Z) * bm_keyring_convert_session :=
  let st := match cs_master_kek s with
            | KEK_UNKNOWN => match vault_master_kek db (cs_passphrase s) with
                             | Ok k => KEK_KNOWN k | _ => KEK_WRONG end
            | st => st
            end in
  (match st with KEK_KNOWN k => Ok k | _ => Err end,
   {| cs_passphrase := cs_passphrase s; cs_master_kek := st |}).

(** The return codes. *)
Inductive convert_result := CONVERT_OK | CONVERT_FAILED | CONVERT_ERR_NOT_FOUND | CONVERT_ERR_NOT_V3
  | CONVERT_ERR_PASSPHRASE.

(** What the function works on and leaves: its code, [*out_created] and the text in
    [out_v4_address]. *)
Record convert_state := {
  cv_keyring : bm_keyring_t;
  cv_db : identity_db;
  cv_session : bm_keyring_convert_session;
  cv_v4_address : list Z;
  cv_created : bool
}.
#[export] Instance convert_state_eta : RecordEta convert_state := fun c =>
  Build_convert_state (cv_keyring c) (cv_db c) (cv_session c) (cv_v4_address c) (cv_created c).

Section Convert.
Context `{OS : OpenSSL} (now : Z) (rnd : wrap_random).

Definition convert_kek (db : identity_db) (v3 : bm_identity_row) (s : bm_keyring_convert_session)
  : cres (list Z) * bm_keyring_convert_session :=
  if list_eqb (r_kdf_algo v3) VAULT_HKDF then
    let '(m, s) := session_master_kek db s in
    ((m ← m; hkdf_expand_wrap_key m (r_kdf_salt v3) (r_address v3)), s)
  else (resolve_kek_for_row db v3 (cs_passphrase s), s).

(** The sibling exists: its label and its chan flag are completed. *)
Definition complete_sibling (c : convert_state) (v3 v4 : bm_identity_row) : bm_identity_row * convert_state :=
  let db := cv_db c in
  let db := if (blen (r_label v4) =? 0) && negb (blen (r_label v3) =? 0)
            then match bm_identity_store_update_label db (cv_v4_address c) (r_label v3) with
                 | Ok db => db | _ => db end
            else db in
  if negb (r_is_chan v3 =? 0) && (r_is_chan v4 =? 0) then
    (set_is_chan 1 v4,
     c <| cv_db := bm_identity_store_set_is_chan db (cv_v4_address c) 1 |>
       <| cv_keyring := mark_unlocked_entry_as_chan (cv_keyring c) (cv_v4_address c) |>)
  else (v4, c <| cv_db := db |>).

(** It does not: it is stored under the same kind of key. *)
Definition store_sibling (c : convert_state) (v3 : bm_identity_row) (priv_signing priv_encryption : list Z)
  : cres identity_db :=
  let address := cv_v4_address c in
  if list_eqb (r_kdf_algo v3) VAULT_HKDF then
    match cs_master_kek (cv_session c) with
    | KEK_KNOWN k =>
        bm_keyring_import_identity_with_master_kek (cv_db c) address (Some (r_label v3)) 4 (r_stream v3)
          (r_signing_pubkey v3) (r_encryption_pubkey v3) priv_signing priv_encryption k
          (r_nonce_trials_per_byte v3) (r_payload_length_extra_bytes v3) rnd now
    | _ => Err
    end
  else
    bm_keyring_create_identity (cv_db c) address (Some (r_label v3)) 4 (r_stream v3)
      (r_signing_pubkey v3) (r_encryption_pubkey v3) priv_signing priv_encryption
      (cs_passphrase (cv_session c)) (r_nonce_trials_per_byte v3) (r_payload_length_extra_bytes v3)
      rnd now.

(** The row, when it was stored and could be read back. *)
Definition create_sibling (c : convert_state) (v3 : bm_identity_row) (priv_signing priv_encryption : list Z)
  : cres (option bm_identity_row * convert_state) :=
  match store_sibling c v3 priv_signing priv_encryption with
  | Ub => Ub
  | Err => Ok (None, c)
  | Ok db =>
      match bm_identity_store_load db (cv_v4_address c) with
      | Ub => Ub
      | Err => Ok (None, c <| cv_db := db |>)
      | Ok v4 =>
          if r_is_chan v3 =? 0 then Ok (Some v4, c <| cv_db := db |> <| cv_created := true |>)
          else Ok (Some (set_is_chan 1 v4),
                   c <| cv_db := bm_identity_store_set_is_chan db (cv_v4_address c) 1 |>
                     <| cv_created := true |>)
      end
  end.

(** A version 3 identity that is unlocked gets its sibling unlocked too. *)
Definition unlock_sibling (c : convert_state) (v3 v4 : bm_identity_row) (priv_signing priv_encryption : list Z)
  : cres (convert_result * convert_state) :=
  match bm_keyring_find_by_address (cv_keyring c) (r_address v3),
        bm_keyring_find_by_address (cv_keyring c) (cv_v4_address c) with
  | Some _, None =>
      kr ← add_unlocked_entry (cv_keyring c) v4 priv_signing priv_encryption now;
      Ok (CONVERT_OK, c <| cv_keyring := kr |>)
  | _, _ => Ok (CONVERT_OK, c)
  end.

(** With the keys in hand: find or store the sibling, then unlock it. *)
Definition sibling_with_keys (c : convert_state) (v3 : bm_identity_row) (priv_signing priv_encryption : list Z)
  : cres (convert_result * convert_state) :=
  ripe ← bm_address_calc_ripe (r_signing_pubkey v3) (r_encryption_pubkey v3);
  match bm_address_encode 4 (u64 (r_stream v3)) ripe with
  | Ub => Ub
  | Err => Ok (CONVERT_FAILED, c)
  | Ok v4_address =>
      let c := c <| cv_v4_address := text_field BM_KEYRING_MAX_ADDRESS_LEN v4_address |> in
      match bm_identity_store_load (cv_db c) (cv_v4_address c) with
      | Ub => Ub
      | Ok v4 =>
          if negb (list_eqb (r_signing_pubkey v4) (r_signing_pubkey v3))
             || negb (list_eqb (r_encryption_pubkey v4) (r_encryption_pubkey v3))
          then Ok (CONVERT_FAILED, c) else
          let '(v4, c) := complete_sibling c v3 v4 in
          unlock_sibling c v3 v4 priv_signing priv_encryption
      | Err =>
          '(v4, c) ← create_sibling c v3 priv_signing priv_encryption;
          match v4 with
          | None => Ok (CONVERT_FAILED, c)
          | Some v4 => unlock_sibling c v3 v4 priv_signing priv_encryption
          end
      end
  end.

Definition bm_keyring_ensure_v4_sibling (kr : bm_keyring_t) (db : identity_db) (v3_address : list Z)
    (s : bm_keyring_convert_session) : cres (convert_result * convert_state) :=
  let c := {| cv_keyring := kr; cv_db := db; cv_session := s; cv_v4_address := []; cv_created := false |} in
  match bm_identity_store_load db v3_address with
  | Ub => Ub
  | Err => Ok (CONVERT_ERR_NOT_FOUND, c)
  | Ok v3 =>
      if negb (r_address_version v3 =? 3) then Ok (CONVERT_ERR_NOT_V3, c) else
      let '(kek, s) := convert_kek db v3 s in
      let c := c <| cv_session := s |> in
      match kek with
      | Ub => Ub
      | Err => Ok (CONVERT_ERR_PASSPHRASE, c)
      | Ok kek =>
          match unwrap_both kek (r_address v3) v3 with
          | Ub => Ub
          | Err => Ok (CONVERT_ERR_PASSPHRASE, c)
          | Ok (priv_signing, priv_encryption) => sibling_with_keys c v3 priv_signing priv_encryption
          end
      end
  end.
End Convert.
End Wrapping.

(** ** Lemmas: the list *)

Lemma find_entry_Some p kr u :
  find_entry p kr = Some u <->
  exists pre post, kr = pre ++ u :: post /\ p u = true /\ Forall (fun v => p v = false) pre.
Proof.
  induction kr as [|v kr IH]; cbn [find_entry].
  { split; [done|]. intros (pre & post & E & _). by destruct pre. }
  destruct (p v) eqn:Ev.
  - split; [intros [= ->]; by exists [], kr|]. intros (pre & post & E & Hu & Hp).
    destruct pre as [|w pre]; injection E as -> E; [done|]. apply Forall_cons_1 in Hp as [Hp _]. congruence.
  - rewrite IH. split.
    + intros (pre & post & -> & Hu & Hp). exists (v :: pre), post. split_and!; [done|done|by constructor].
    + intros (pre & post & E & Hu & Hp). destruct pre as [|w pre]; injection E as -> E; [congruence|].
      apply Forall_cons_1 in Hp as [_ Hp]. by exists pre, post.
Qed.

Lemma same_address_refl a : same_address a a = true.
Proof. apply list_eqb_refl. Qed.

Lemma text_field_short n s : blen s < n -> text_field n s = s.
Proof. intros. unfold text_field, blen in *. apply take_ge. lia. Qed.

Lemma same_address_short a b : blen a < 64 -> same_address a b = true -> b = a.
Proof.
  unfold same_address, BM_KEYRING_MAX_ADDRESS_LEN, BM_ADDRESS_STR_MAX. intros Ha H%list_eqb_eq.
  unfold blen in Ha. rewrite take_ge in H by lia. rewrite H.
  destruct (decide (length b <= 64)%nat); [by rewrite take_ge by lia|].
  apply (f_equal length) in H. rewrite length_take in H. lia.
Qed.

(** The lock removes the first entry of the address, and only that. *)
Lemma bm_keyring_lock_spec kr address :
  match bm_keyring_lock kr address with
  | (true, kr') => exists pre u post, kr = pre ++ u :: post /\ kr' = pre ++ post
      /\ same_address (u_address u) address = true
      /\ Forall (fun v => same_address (u_address v) address = false) pre
  | (false, kr') => kr' = kr /\ Forall (fun v => same_address (u_address v) address = false) kr
  end.
Proof.
  induction kr as [|v kr IH]; cbn [bm_keyring_lock]; [by split|].
  destruct (same_address (u_address v) address) eqn:Ev; [by exists [], v, kr|].
  destruct (bm_keyring_lock kr address) as [[] kr'].
  - destruct IH as (pre & u & post & -> & -> & Hu & Hp). exists (v :: pre), u, post.
    split_and!; [done|done|done|by constructor].
  - destruct IH as [-> Hp]. split; [done|by constructor].
Qed.

(** ** Lemmas: wrapping *)

Lemma scrypt_params_parse : parse_kdf_params scrypt_params = Ok (BM_KEYRING_SCRYPT_N, BM_KEYRING_SCRYPT_R, BM_KEYRING_SCRYPT_P).
Proof. reflexivity. Qed.

Section WrapLemmas.
Context `{OSVL : OpenSSLVaultLaws}.

Lemma wrap_ok kek aad pt nonce w :
  blen nonce = 12 -> bm_keyring_internal_wrap kek aad pt nonce = Ok w ->
  blen w = blen pt + 28 /\ bm_keyring_internal_unwrap kek aad w = Ok pt.
Proof.
  intros Hn E. unfold bm_keyring_internal_wrap in E. apply bind_ok_inv in E as ([ct tag] & E & Ew).
  apply or_err_ok in E. pose proof (GCM_lengths _ _ _ _ _ _ E) as [Hc Ht]. apply ok_inj in Ew as <-.
  assert (Hl : blen (nonce ++ ct ++ tag) = blen pt + 28) by (rewrite !blen_app; lia).
  split; [done|]. unfold bm_keyring_internal_unwrap, BM_KEYRING_WRAP_OVERHEAD. rewrite Hl.
  pose proof (blen_nonneg pt). zdec.
  replace (blen pt + 28 - 28) with (blen ct) by lia.
  rewrite (slice_app_l nonce) by done. rewrite (slice_app_mid nonce ct tag) by done.
  replace (slice (nonce ++ ct ++ tag) (12 + blen ct) 16) with tag.
  - apply or_err_ok. by apply GCM_authentic.
  - rewrite app_assoc, <- (app_nil_r ((nonce ++ ct) ++ tag)), <- app_assoc.
    symmetry. apply slice_app_mid; [rewrite blen_app; lia|done].
Qed.

(** What can be unwrapped is the wrapping of the result, under the nonce it starts with. *)
Lemma unwrap_authentic kek aad w pt :
  bm_keyring_internal_unwrap kek aad w = Ok pt ->
  28 <= blen w /\ bm_keyring_internal_wrap kek aad pt (slice w 0 12) = Ok w.
Proof.
  unfold bm_keyring_internal_unwrap, BM_KEYRING_WRAP_OVERHEAD. destruct (Z.ltb_spec (blen w) 28); [done|].
  intros E%or_err_ok%GCM_authentic. split; [done|]. unfold bm_keyring_internal_wrap. rewrite E.
  cbn [or_err]. cbn_bind. f_equal. apply slice_three; lia.
Qed.

Lemma unwrap_not_ub kek aad w : bm_keyring_internal_unwrap kek aad w <> Ub.
Proof. unfold bm_keyring_internal_unwrap. destruct (_ <? _); [done|apply or_err_not_ub]. Qed.

Lemma unwrap_both_ok kek address row ps pe :
  unwrap_both kek address row = Ok (ps, pe) <->
  bm_keyring_internal_unwrap kek address (r_wrapped_priv_signing_key row) = Ok ps
  /\ bm_keyring_internal_unwrap kek address (r_wrapped_priv_encryption_key row) = Ok pe.
Proof.
  unfold unwrap_both. pose proof (unwrap_not_ub kek address (r_wrapped_priv_signing_key row)).
  pose proof (unwrap_not_ub kek address (r_wrapped_priv_encryption_key row)).
  destruct (bm_keyring_internal_unwrap kek address (r_wrapped_priv_signing_key row)),
    (bm_keyring_internal_unwrap kek address (r_wrapped_priv_encryption_key row)); split; intros; naive_solver.
Qed.

Lemma unwrap_both_not_ub kek address row : unwrap_both kek address row <> Ub.
Proof.
  unfold unwrap_both. pose proof (unwrap_not_ub kek address (r_wrapped_priv_signing_key row)).
  pose proof (unwrap_not_ub kek address (r_wrapped_priv_encryption_key row)).
  destruct (bm_keyring_internal_unwrap kek address (r_wrapped_priv_signing_key row)),
    (bm_keyring_internal_unwrap kek address (r_wrapped_priv_encryption_key row)); done.
Qed.

Lemma parse_kdf_params_not_ub l : parse_kdf_params l <> Ub.
Proof. unfold parse_kdf_params. destruct (_ ≫= _) as [[[]]|]; done. Qed.

Lemma vault_master_kek_not_ub db pass : vault_master_kek db pass <> Ub.
Proof.
  unfold vault_master_kek, bm_identity_store_load_vault. destruct (kdf_vault db) as [v|]; [|done].
  destruct (_ || _); [done|]. cbn_bind. unfold derive_master_kek.
  pose proof (parse_kdf_params_not_ub (text_field BM_IDENTITY_KDF_PARAMS_MAX (va_params v))).
  cbn [va_params va_salt va_canary]. destruct (parse_kdf_params _) as [[[n r] p]| |]; cbn_bind; [|done|done].
  unfold derive_kek. destruct (scrypt _ _ _ _ _) as [k|]; cbn [or_err]; cbn_bind; [|done].
  unfold verify_vault_canary. pose proof (unwrap_not_ub k VAULT_CANARY_AAD (va_canary v)).
  destruct (bm_keyring_internal_unwrap k VAULT_CANARY_AAD (va_canary v)); cbn_bind; [|done|done].
  by destruct (list_eqb _ _).
Qed.

Lemma resolve_not_ub db row pass : resolve_kek_for_row db row pass <> Ub.
Proof.
  unfold resolve_kek_for_row, bm_keyring_internal_resolve_kek. destruct (list_eqb _ _).
  - pose proof (vault_master_kek_not_ub db pass). destruct (vault_master_kek db pass); cbn_bind; [|done|done].
    apply or_err_not_ub.
  - pose proof (parse_kdf_params_not_ub (r_kdf_params row)).
    destruct (parse_kdf_params _) as [[[n r] p]| |]; cbn_bind; [|done|done]. apply or_err_not_ub.
Qed.
End WrapLemmas.

(** ** Lemmas: rows *)

Definition random_ok (rnd : wrap_random) : Prop :=
  blen (wr_salt rnd) = 16 /\ blen (wr_nonce_signing rnd) = 12 /\ blen (wr_nonce_encryption rnd) = 12.

(** The sizes of the key arrays. *)
Definition keys_sized (pub_signing pub_encryption priv_signing priv_encryption : list Z) : Prop :=
  blen pub_signing = 65 /\ blen pub_encryption = 65 /\ blen priv_signing = 32 /\ blen priv_encryption = 32.

Lemma load_fields db address row :
  bm_identity_store_load db address = Ok row ->
  r_address row = text_field 64 address /\ blen (r_signing_pubkey row) = 65
  /\ blen (r_encryption_pubkey row) = 65 /\ blen (r_kdf_salt row) = 16
  /\ blen (r_wrapped_priv_signing_key row) = 60 /\ blen (r_wrapped_priv_encryption_key row) = 60.
Proof.
  unfold bm_identity_store_load, BM_IDENTITY_KDF_SALT_LEN, BM_IDENTITY_WRAPPED_KEY_LEN.
  destruct (identities db !! address) as [r|]; [|done].
  destruct (Z.eqb_spec (blen (r_signing_pubkey r)) 65); [|done].
  destruct (Z.eqb_spec (blen (r_encryption_pubkey r)) 65); [|done].
  destruct (Z.eqb_spec (blen (r_kdf_salt r)) 16); [|done].
  destruct (Z.eqb_spec (blen (r_wrapped_priv_signing_key r)) 60); [|done].
  destruct (Z.eqb_spec (blen (r_wrapped_priv_encryption_key r)) 60); [|done].
  cbn [negb orb]. by intros [= <-].
Qed.

Lemma load_not_ub db address : bm_identity_store_load db address <> Ub.
Proof.
  unfold bm_identity_store_load. destruct (identities db !! address); [|done].
  by repeat (case_match; [done|]).
Qed.

(** A row is read from its own key only. *)
Lemma load_ext db db' address :
  identities db !! address = identities db' !! address ->
  bm_identity_store_load db address = bm_identity_store_load db' address.
Proof. unfold bm_identity_store_load. by intros ->. Qed.

Section RowLemmas.
Context `{OSVL : OpenSSLVaultLaws} `{OS : OpenSSL}.

(** What an entry of the keyring owes to its row. *)
Definition entry_of (row : bm_identity_row) (ps pe : list Z) (u : bm_unlocked_identity) : Prop :=
  u_address u = r_address row /\ u_priv_signing u = ps /\ u_priv_encryption u = pe
  /\ u_pub_signing u = r_signing_pubkey row /\ u_pub_encryption u = r_encryption_pubkey row
  /\ bm_address_calc_ripe (r_signing_pubkey row) (r_encryption_pubkey row) = Ok (u_ripe u)
  /\ u_address_version u = u64 (r_address_version row) /\ u_stream u = u64 (r_stream row).

Lemma text_field_idemp n s : text_field n (text_field n s) = text_field n s.
Proof. unfold text_field. rewrite take_take. f_equal. lia. Qed.

Lemma unlock_with_kek_ok kr db address row kek now :
  bm_identity_store_load db address = Ok row ->
  match unwrap_both kek (r_address row) row with
  | Ok (ps, pe) => exists u, unlock_with_kek kr row kek now = Ok (u :: kr) /\ entry_of row ps pe u
  | _ => unlock_with_kek kr row kek now = Err
  end.
Proof.
  intros Hl. destruct (load_fields _ _ _ Hl) as (Ha & Hs & He & _). unfold unlock_with_kek.
  pose proof (unwrap_both_not_ub kek (r_address row) row) as Hn.
  destruct (unwrap_both kek (r_address row) row) as [[ps pe]| |]; [|done|done].
  cbn_bind. unfold add_unlocked_entry. rewrite calc_ripe_eq by done. cbn_bind.
  eexists. split; [reflexivity|]. unfold entry_of. cbn.
  unfold BM_KEYRING_MAX_ADDRESS_LEN, BM_ADDRESS_STR_MAX. rewrite Ha, text_field_idemp.
  split_and!; try done. by apply calc_ripe_eq.
Qed.

(** Unlocking is exporting into the keyring. *)
Lemma unlock_export kr db address pass now :
  blen address < 64 ->
  match bm_keyring_export db address pass with
  | Ok (ps, pe) => exists row u, bm_identity_store_load db address = Ok row
      /\ bm_keyring_unlock kr db address pass now = Ok (u :: kr) /\ entry_of row ps pe u
  | _ => bm_keyring_unlock kr db address pass now = Err
  end.
Proof.
  intros Ha. unfold bm_keyring_export, bm_keyring_unlock. pose proof (load_not_ub db address) as Hn.
  destruct (bm_identity_store_load db address) as [row| |] eqn:El; cbn_bind; [|done|done].
  destruct (load_fields _ _ _ El) as (Hr & _). rewrite text_field_short in Hr by lia.
  pose proof (resolve_not_ub db row pass) as Hk.
  destruct (resolve_kek_for_row db row pass) as [kek| |]; cbn_bind; [|done|done].
  pose proof (unlock_with_kek_ok kr db address row kek now El) as Hu0. rewrite Hr in Hu0.
  destruct (unwrap_both kek address row) as [[ps pe]| |]; [|done|done].
  destruct Hu0 as (u & -> & Hu). by exists row, u.
Qed.

(** A stored identity opens under the key it was stored with. *)
Lemma stored_row db db' address label v st pubs pube ps pe algo salt params kek trials extra rnd now :
  store_new_identity_with_kek db address label v st pubs pube ps pe algo salt params kek trials extra rnd now
    = Ok db' ->
  blen address < 64 -> keys_sized pubs pube ps pe -> random_ok rnd -> blen salt = 16 ->
  blen algo < 16 -> blen params < 128 ->
  kdf_vault db' = kdf_vault db
  /\ (forall a, a <> address -> identities db' !! a = identities db !! a)
  /\ identities db !! address = None
  /\ exists row, bm_identity_store_load db' address = Ok row /\ r_kdf_algo row = algo
       /\ r_kdf_salt row = salt /\ r_kdf_params row = params /\ r_address_version row = v
       /\ r_stream row = st /\ r_signing_pubkey row = pubs /\ r_encryption_pubkey row = pube
       /\ r_is_chan row = 0 /\ unwrap_both kek address row = Ok (ps, pe).
Proof.
  intros E Ha (Hs & He & Hps & Hpe) (_ & Hn1 & Hn2) Hsalt Halgo Hpar.
  unfold store_new_identity_with_kek in E.
  destruct (bm_keyring_internal_wrap kek address ps _) as [w1| |] eqn:E1; [|done|done].
  destruct (bm_keyring_internal_wrap kek address pe _) as [w2| |] eqn:E2; [|done|done].
  apply wrap_ok in E1 as [L1 U1]; [|done]. apply wrap_ok in E2 as [L2 U2]; [|done].
  unfold bm_identity_store_insert in E. cbn [r_address] in E.
  unfold BM_IDENTITY_ADDRESS_MAX, BM_IDENTITY_KDF_ALGO_MAX, BM_IDENTITY_KDF_PARAMS_MAX in E.
  rewrite (text_field_short 64 address), (text_field_short 16 algo), (text_field_short 128 params) in E by lia.
  destruct (identities db !! address) eqn:En; [done|]. apply ok_inj in E as <-.
  split_and!; [done|intros a Hne; cbn; by rewrite lookup_insert_ne|done|].
  unfold bm_identity_store_load, BM_IDENTITY_KDF_SALT_LEN, BM_IDENTITY_WRAPPED_KEY_LEN. cbn.
  rewrite lookup_insert_eq. cbn. zdec. eexists. split; [reflexivity|]. cbn.
  unfold BM_IDENTITY_ADDRESS_MAX, BM_IDENTITY_KDF_ALGO_MAX, BM_IDENTITY_KDF_PARAMS_MAX.
  rewrite !text_field_short by lia. split_and!; try done. by apply unwrap_both_ok.
Qed.

Lemma vault_ext db db' pass :
  kdf_vault db = kdf_vault db' -> vault_master_kek db pass = vault_master_kek db' pass.
Proof. unfold vault_master_kek, bm_identity_store_load_vault. by intros ->. Qed.

Lemma resolve_ext db db' row pass :
  kdf_vault db = kdf_vault db' -> resolve_kek_for_row db row pass = resolve_kek_for_row db' row pass.
Proof.
  intros E. unfold resolve_kek_for_row, bm_keyring_internal_resolve_kek. by rewrite (vault_ext db db' pass E).
Qed.

(** A new vault opens under the pass phrase it was made with. *)
Lemma create_vault_ok db pass salt nonce k db' :
  create_vault db pass salt nonce = Ok (k, db') -> blen salt = 16 -> blen nonce = 12 ->
  vault_master_kek db' pass = Ok k /\ identities db' = identities db /\ kdf_vault db = None
  /\ is_ok (bm_identity_store_load_vault db') = true.
Proof.
  intros E Hs Hn. unfold create_vault in E. inv_bind E. inv_bind E. inv_bind E.
  destruct (wrap_ok _ _ _ _ _ Hn E1) as [Hl Hu].
  unfold bm_identity_store_create_vault in E2. destruct (kdf_vault db); [done|].
  apply ok_inj in E2 as <-. injection E as <- <-.
  change (blen VAULT_CANARY_PLAINTEXT) with 32 in Hl.
  set (db' := db <| kdf_vault := Some _ |>).
  assert (Hload : bm_identity_store_load_vault db'
    = Ok {| va_salt := salt; va_params := scrypt_params; va_canary := a0 |}).
  { unfold bm_identity_store_load_vault, BM_IDENTITY_VAULT_SALT_LEN, BM_IDENTITY_KDF_SALT_LEN,
      BM_IDENTITY_WRAPPED_KEY_LEN. cbn. by rewrite Hs, Hl. }
  split_and!; [|done|done|by rewrite Hload].
  unfold vault_master_kek. rewrite Hload. cbn_bind. cbn [va_salt va_params va_canary].
  unfold derive_master_kek. rewrite scrypt_params_parse. cbn_bind. rewrite E0. cbn_bind.
  unfold verify_vault_canary. rewrite Hu. cbn_bind. by rewrite list_eqb_refl.
Qed.

(** Exporting from a row that was stored under a key the pass phrase gives. *)
Lemma stored_export db address row kek pass ps pe :
  bm_identity_store_load db address = Ok row -> resolve_kek_for_row db row pass = Ok kek ->
  unwrap_both kek address row = Ok (ps, pe) -> bm_keyring_export db address pass = Ok (ps, pe).
Proof. intros El Er Eu. unfold bm_keyring_export. rewrite El. cbn_bind. rewrite Er. by cbn_bind. Qed.

(** The two ways in which rows are stored. *)
Lemma create_identity_export db db' address label v st pubs pube ps pe pass trials extra rnd now :
  bm_keyring_create_identity db address label v st pubs pube ps pe pass trials extra rnd now = Ok db' ->
  blen address < 64 -> keys_sized pubs pube ps pe -> random_ok rnd ->
  identities db !! address = None /\ kdf_vault db' = kdf_vault db
  /\ (forall a, a <> address -> identities db' !! a = identities db !! a)
  /\ bm_keyring_export db' address pass = Ok (ps, pe)
  /\ exists row, bm_identity_store_load db' address = Ok row /\ r_address_version row = v
       /\ r_stream row = st /\ r_signing_pubkey row = pubs /\ r_encryption_pubkey row = pube
       /\ r_is_chan row = 0.
Proof.
  intros E Ha Hk Hr. unfold bm_keyring_create_identity, bm_keyring_internal_new_scrypt_kek in E.
  destruct (derive_kek pass (wr_salt rnd) _ _ _) as [kek| |] eqn:Ek; [|done|done].
  rewrite !bind_ok in E. cbv beta iota in E. pose proof Hr as (Hs & _).
  apply stored_row in E as (Hv & Ho & Hn & row & El & Ea & Es & Ep & Ev & Est & E1 & E2 & Ec & Eu); try done.
  split_and!; try done; [|by exists row].
  apply (stored_export _ _ row kek); [done| |done].
  unfold resolve_kek_for_row, bm_keyring_internal_resolve_kek. rewrite Ea, Es, Ep.
  change (list_eqb SCRYPT VAULT_HKDF) with false. cbv iota. rewrite scrypt_params_parse. by cbn_bind.
Qed.

Lemma import_with_kek_export db db' address label v st pubs pube ps pe pass k trials extra rnd now :
  bm_keyring_import_identity_with_master_kek db address label v st pubs pube ps pe k trials extra rnd now
    = Ok db' ->
  vault_master_kek db pass = Ok k ->
  blen address < 64 -> keys_sized pubs pube ps pe -> random_ok rnd ->
  identities db !! address = None /\ kdf_vault db' = kdf_vault db
  /\ (forall a, a <> address -> identities db' !! a = identities db !! a)
  /\ bm_keyring_export db' address pass = Ok (ps, pe)
  /\ exists row, bm_identity_store_load db' address = Ok row /\ r_address_version row = v
       /\ r_stream row = st /\ r_signing_pubkey row = pubs /\ r_encryption_pubkey row = pube
       /\ r_is_chan row = 0.
Proof.
  intros E Hm Ha Hk Hr. unfold bm_keyring_import_identity_with_master_kek in E.
  inv_bind E. rename a into kek. pose proof Hr as (Hs & _).
  apply stored_row in E as (Hv & Ho & Hn & row & El & Ea & Es & Ep & Ev & Est & E1 & E2 & Ec & Eu); try done.
  split_and!; try done; [|by exists row].
  apply (stored_export _ _ row kek); [done| |done].
  unfold resolve_kek_for_row, bm_keyring_internal_resolve_kek. rewrite Ea, Es.
  change (list_eqb VAULT_HKDF VAULT_HKDF) with true. cbv iota.
  rewrite (vault_ext db' db pass Hv), Hm. cbn_bind.
  destruct (load_fields _ _ _ El) as (-> & _). by rewrite text_field_short by lia.
Qed.
End RowLemmas.

(** ** Lemmas: unlocking everything *)

Definition bulk_random_ok (rnd : bulk_random) : Prop :=
  blen (bk_vault_salt rnd) = 16 /\ blen (bk_canary_nonce rnd) = 12 /\ random_ok (bk_wrap rnd).

Section BulkLemmas.
Context `{OSVL : OpenSSLVaultLaws} `{OS : OpenSSL} (pass : list Z) (now : Z).

(** Every key the pass phrase opens is still there, and opens to the same. *)
Definition keeps (db db' : identity_db) : Prop :=
  forall a ps pe, bm_keyring_export db a pass = Ok (ps, pe) -> bm_keyring_export db' a pass = Ok (ps, pe).

(** What the bulk state knows about the vault. *)
Definition bulk_ok (db : identity_db) (st : unlock_bulk_state) : Prop :=
  vault_exists st = is_ok (bm_identity_store_load_vault db)
  /\ bulk_master_kek st = match vault_master_kek db pass with Ok k => Some k | _ => None end.

Lemma bulk_begin_ok db : bulk_ok db (unlock_bulk_begin db pass).
Proof. unfold bulk_ok, unlock_bulk_begin. cbn. split; [by destruct (bm_identity_store_load_vault db)|done]. Qed.

(** Creating the vault touches no row, and no row could hang on a vault before. *)
Lemma new_vault_keeps db db' :
  identities db' = identities db -> kdf_vault db = None -> keeps db db'.
Proof.
  intros Hi Hv a ps pe. unfold bm_keyring_export.
  rewrite (load_ext db db' a) by (by rewrite Hi). intros E. inv_bind E. rename a0 into row.
  rewrite E0. cbn_bind. inv_bind E. rename a0 into kek.
  assert (resolve_kek_for_row db' row pass = Ok kek) as ->; [|by cbn_bind].
  rewrite <- E1. unfold resolve_kek_for_row, bm_keyring_internal_resolve_kek in *.
  destruct (list_eqb (r_kdf_algo row) VAULT_HKDF); [|done].
  unfold vault_master_kek, bm_identity_store_load_vault in E1. by rewrite Hv in E1.
Qed.

Lemma bulk_vault_ok db st rnd st' db' :
  bulk_vault pass db st rnd = (st', db') -> bulk_random_ok rnd -> bulk_ok db st ->
  bulk_ok db' st' /\ keeps db db' /\ identities db' = identities db.
Proof.
  intros E (Hs & Hn & _) Hb. unfold bulk_vault in E.
  assert (Hsame : (st, db) = (st', db') -> bulk_ok db' st' /\ keeps db db' /\ identities db' = identities db)
    by (intros [= <- <-]; split_and!; [done|by intros ?|done]).
  destruct (bulk_master_kek st); [by apply Hsame|]. destruct (vault_exists st); [by apply Hsame|].
  destruct (create_vault _ _ _ _) as [[k d]| |] eqn:Ec; [|by apply Hsame|by apply Hsame].
  injection E as <- <-. apply create_vault_ok in Ec as (Hk & Hi & Hv & Hl); [|done|done].
  split_and!; [|by apply new_vault_keeps|done]. unfold bulk_ok. cbn. by rewrite Hl, Hk.
Qed.

(** A row that was rewrapped opens to the keys of the entry it was rewrapped from. *)
Lemma rewrapped_export db db' address row k u rnd :
  bm_identity_store_load db address = Ok row -> blen address < 64 -> random_ok rnd ->
  vault_master_kek db pass = Ok k -> blen (u_priv_signing u) = 32 -> blen (u_priv_encryption u) = 32 ->
  rewrap_to_vault db [u] address k rnd = Ok db' ->
  bm_keyring_export db' address pass = Ok (u_priv_signing u, u_priv_encryption u)
  /\ kdf_vault db' = kdf_vault db
  /\ forall a, a <> address -> identities db' !! a = identities db !! a.
Proof.
  intros El Ha (Hs & Hn1 & Hn2) Hk L1 L2 E. unfold rewrap_to_vault in E.
  destruct (bm_keyring_find_by_address [u] address) as [v|] eqn:Ef; [|done].
  unfold bm_keyring_find_by_address in Ef. cbn [find_entry] in Ef.
  destruct (same_address _ _); [|done]. injection Ef as <-. inv_bind E. rename a into kek.
  destruct (bm_keyring_internal_wrap kek address (u_priv_signing u) _) as [w1| |] eqn:E1; [|done|done].
  destruct (bm_keyring_internal_wrap kek address (u_priv_encryption u) _) as [w2| |] eqn:E2; [|done|done].
  apply wrap_ok in E1 as [W1 U1]; [|done]. apply wrap_ok in E2 as [W2 U2]; [|done].
  apply ok_inj in E as <-. split_and!; [|done|].
  - assert (Hl : exists row', bm_identity_store_load
        (bm_identity_store_update_wrapped_keys db address VAULT_HKDF (wr_salt rnd) w1 w2) address = Ok row'
      /\ r_kdf_algo row' = VAULT_HKDF /\ r_kdf_salt row' = wr_salt rnd
      /\ r_wrapped_priv_signing_key row' = w1 /\ r_wrapped_priv_encryption_key row' = w2).
    { destruct (load_fields _ _ _ El) as (_ & Lp & Le & _). revert El.
      unfold bm_identity_store_load, bm_identity_store_update_wrapped_keys, BM_IDENTITY_KDF_SALT_LEN,
        BM_IDENTITY_WRAPPED_KEY_LEN. cbn.
      rewrite lookup_update_where. destruct (identities db !! address) as [r|]; [|done]. cbn [fmap option_fmap option_map].
      rewrite list_eqb_refl. unfold rewrap. cbn. rewrite Hs, W1, W2, L1, L2. cbn.
      destruct (Z.eqb_spec (blen (r_signing_pubkey r)) 65); [|done].
      destruct (Z.eqb_spec (blen (r_encryption_pubkey r)) 65); [|done]. cbn. intros _.
      eexists. split; [reflexivity|]. by cbn. }
    destruct Hl as (row' & El' & Ea & Es & Ew1 & Ew2).
    apply (stored_export _ _ row' kek); [done| |].
    + unfold resolve_kek_for_row, bm_keyring_internal_resolve_kek. rewrite Ea, Es.
      change (list_eqb VAULT_HKDF VAULT_HKDF) with true. cbv iota.
      rewrite (vault_ext _ db pass), Hk by done. cbn_bind.
      destruct (load_fields _ _ _ El') as (-> & _). by rewrite text_field_short by lia.
    + apply unwrap_both_ok. by rewrite Ew1, Ew2.
  - intros a Hne. unfold bm_identity_store_update_wrapped_keys. cbn. rewrite lookup_update_where.
    destruct (identities db !! a); [|done]. cbn. destruct (list_eqb a address) eqn:E; [|done].
    by apply list_eqb_eq in E.
Qed.

Lemma unwrap_len kek aad w pt : bm_keyring_internal_unwrap kek aad w = Ok pt -> blen pt = blen w - 28.
Proof.
  intros E. destruct (unwrap_authentic _ _ _ _ E) as [Hw E'].
  apply wrap_ok in E' as [Hl _]; [lia|]. by apply blen_slice; lia.
Qed.

Lemma find_cons_other u kr a :
  same_address (u_address u) a = false ->
  bm_keyring_find_by_address (u :: kr) a = bm_keyring_find_by_address kr a.
Proof. unfold bm_keyring_find_by_address. cbn [find_entry]. by intros ->. Qed.

(** The rewrapping after a successful unlock of a row of its own key. *)
Lemma bulk_rewrap_ok db st kr address rnd row ps pe u :
  bulk_random_ok rnd -> bulk_ok db st -> blen address < 64 ->
  bm_identity_store_load db address = Ok row -> bm_keyring_export db address pass = Ok (ps, pe) ->
  entry_of row ps pe u -> bm_keyring_find_by_address kr address = None ->
  exists db', bulk_rewrap db (u :: kr) st address rnd = Ok db' /\ bulk_ok db' st /\ keeps db db'.
Proof.
  intros (_ & _ & Hr) Hb Ha El Ex (Hu & Hps & Hpe & _) Hf.
  assert (Hsame : bulk_ok db st /\ keeps db db) by (split; [done|by intros ?]).
  unfold bulk_rewrap. destruct (bulk_master_kek st) as [k|] eqn:Ek; [|by exists db].
  assert (Hk : vault_master_kek db pass = Ok k).
  { destruct Hb as [_ Hb]. rewrite Ek in Hb. by destruct (vault_master_kek db pass); [injection Hb as ->| |]. }
  assert (E1 : rewrap_to_vault db (u :: kr) address k (bk_wrap rnd) = rewrap_to_vault db [u] address k (bk_wrap rnd)).
  { unfold rewrap_to_vault, bm_keyring_find_by_address in *. cbn [find_entry]. rewrite Hf.
    by destruct (same_address (u_address u) address). }
  rewrite E1. destruct (rewrap_to_vault db [u] address k (bk_wrap rnd)) as [db'| |] eqn:Ew; [|by exists db|].
  - assert (Hl : blen (u_priv_signing u) = 32 /\ blen (u_priv_encryption u) = 32).
    { rewrite Hps, Hpe. unfold bm_keyring_export in Ex. rewrite El, bind_ok in Ex. cbv beta in Ex. inv_bind Ex.
      apply unwrap_both_ok in Ex as [X1%unwrap_len X2%unwrap_len].
      destruct (load_fields _ _ _ El) as (_ & _ & _ & _ & L1 & L2). lia. }
    destruct (rewrapped_export db db' address row k u (bk_wrap rnd)) as (Hx & Hv & Ho); try tauto.
    exists db'. split; [done|]. split.
    + unfold bulk_ok, bm_identity_store_load_vault in *. by rewrite (vault_ext db' db pass Hv), Hv.
    + intros a xs xe E. destruct (decide (a = address)) as [->|Hne].
      * rewrite Ex in E. injection E as <- <-. by rewrite Hx, Hps, Hpe.
      * unfold bm_keyring_export in *. rewrite <- (load_ext db db' a) by (symmetry; by apply Ho).
        inv_bind E. rewrite E0. cbn_bind. by rewrite (resolve_ext db' db) by done.
  - exfalso. revert Ew. unfold rewrap_to_vault. destruct (bm_keyring_find_by_address [u] address); [|done].
    unfold hkdf_expand_wrap_key. destruct (HKDF_expand _ _ _); cbn [or_err]; cbn_bind; [|done].
    by repeat case_match.
Qed.

(** A row of the vault is unlocked with the key the bulk state holds. *)
Lemma vault_row_unlock kr db st address row :
  bm_identity_store_load db address = Ok row -> bulk_ok db st ->
  list_eqb (r_kdf_algo row) VAULT_HKDF = true ->
  match bulk_master_kek st with
  | Some k => unlock_with_vault kr row k now = bm_keyring_unlock kr db address pass now
  | None => bm_keyring_unlock kr db address pass now = Err
  end.
Proof.
  intros El [_ Hb] Ev. rewrite Hb. unfold bm_keyring_unlock. rewrite El. cbn_bind.
  unfold resolve_kek_for_row, bm_keyring_internal_resolve_kek. rewrite Ev.
  pose proof (vault_master_kek_not_ub db pass).
  destruct (vault_master_kek db pass); [|done|done]. by cbn_bind.
Qed.

(** One identity: what it leaves, and that an identity the pass phrase opens is unlocked. *)
Definition bulk_step (kr : bm_keyring_t) (db : identity_db) (address : list Z)
    (e : bm_unlock_all_entry) (kr' : bm_keyring_t) (db' : identity_db) : Prop :=
  keeps db db'
  /\ (forall a, a <> address -> bm_keyring_find_by_address kr' a = bm_keyring_find_by_address kr a)
  /\ (forall u, bm_keyring_find_by_address kr address = Some u -> bm_keyring_find_by_address kr' address = Some u)
  /\ ua_address e = address
  /\ forall ps pe, bm_keyring_export db address pass = Ok (ps, pe) ->
       ua_unlocked e = true /\ exists u, bm_keyring_find_by_address kr' address = Some u
         /\ (bm_keyring_find_by_address kr address = None -> u_priv_signing u = ps /\ u_priv_encryption u = pe).

Lemma unlock_bulk_one_ok kr db st address rnd :
  bulk_random_ok rnd -> bulk_ok db st -> blen address < 64 ->
  exists e kr' db' st', unlock_bulk_one pass now kr db st address rnd = Ok (e, kr', db', st')
    /\ bulk_ok db' st' /\ bulk_step kr db address e kr' db'.
Proof.
  intros Hr Hb Ha. unfold unlock_bulk_one.
  unfold BM_KEYRING_MAX_ADDRESS_LEN, BM_ADDRESS_STR_MAX. rewrite (text_field_short 64 address) by lia.
  destruct (bm_keyring_find_by_address kr address) as [u0|] eqn:Ef.
  { do 4 eexists. split; [reflexivity|]. split; [done|]. split_and!; [by intros ?|done|done|done|].
    intros ps pe _. split; [done|]. exists u0. split; [done|congruence]. }
  assert (Hfail : forall e, ua_address e = address ->
    (forall ps pe, bm_keyring_export db address pass <> Ok (ps, pe)) -> bulk_step kr db address e kr db).
  { intros e He Hn. split_and!; [by intros ?|done|done|done|]. intros ps pe E. by apply Hn in E. }
  pose proof (load_not_ub db address). destruct (bm_identity_store_load db address) as [row| |] eqn:El; [| |done].
  2: { do 4 eexists. split; [reflexivity|]. split; [done|]. apply Hfail; [done|].
       intros ps pe. unfold bm_keyring_export. by rewrite El. }
  pose proof (unlock_export kr db address pass now Ha) as Hx.
  assert (Hdone : forall row' ps pe u db', bm_identity_store_load db address = Ok row' ->
    bm_keyring_export db address pass = Ok (ps, pe) -> entry_of row' ps pe u -> keeps db db' ->
    bulk_step kr db address {| ua_address := address; ua_unlocked := true; ua_not_found := false |} (u :: kr) db').
  { intros row' ps pe u db' El' Ex (Hua & Hps & Hpe & _) Hk.
    destruct (load_fields _ _ _ El') as (Hra & _). rewrite text_field_short in Hra by lia.
    split_and!; [done| |by intros ? ?; congruence|done|].
    - intros a Hne. apply find_cons_other. destruct (same_address (u_address u) a) eqn:Es; [|done].
      apply same_address_short in Es; [|by rewrite Hua, Hra]. congruence.
    - intros ps' pe' Ex'. rewrite Ex in Ex'. injection Ex' as <- <-. split; [done|]. exists u.
      split; [|done]. unfold bm_keyring_find_by_address. cbn [find_entry].
      by rewrite Hua, Hra, same_address_refl. }
  destruct (list_eqb (r_kdf_algo row) VAULT_HKDF) eqn:Ev.
  - pose proof (vault_row_unlock kr db st address row El Hb Ev) as Hv.
    destruct (bulk_master_kek st) as [k|].
    + rewrite Hv. destruct (bm_keyring_export db address pass) as [[ps pe]| |] eqn:Ex.
      * destruct Hx as (row' & u & El' & -> & Hu). do 4 eexists. split; [reflexivity|]. split; [done|].
        apply (Hdone row' ps pe); [congruence|done|done|by intros ?].
      * rewrite Hx. do 4 eexists. split; [reflexivity|]. split; [done|]. by apply Hfail.
      * rewrite Hx. do 4 eexists. split; [reflexivity|]. split; [done|]. by apply Hfail.
    + do 4 eexists. split; [reflexivity|]. split; [done|]. apply Hfail; [done|]. intros ps pe E.
      rewrite E in Hx. destruct Hx as (? & ? & _ & E' & _). congruence.
  - destruct (bm_keyring_export db address pass) as [[ps pe]| |] eqn:Ex.
    + destruct Hx as (row' & u & El' & -> & Hu). assert (row' = row) as -> by congruence.
      destruct (bulk_vault pass db st rnd) as [st1 db1] eqn:Ebv.
      destruct (bulk_vault_ok _ _ _ _ _ Ebv Hr Hb) as (Hb1 & Hk1 & Hi1).
      destruct (bulk_rewrap_ok db1 st1 kr address rnd row ps pe u) as (db2 & -> & Hb2 & Hk2); try done.
      { rewrite <- El. apply load_ext. by rewrite Hi1. }
      { by apply Hk1. }
      cbn_bind. do 4 eexists. split; [reflexivity|]. split; [done|].
      apply (Hdone row ps pe); [done|done|done|]. intros a xs xe Hxs. by apply Hk2, Hk1.
    + rewrite Hx. do 4 eexists. split; [reflexivity|]. split; [done|]. by apply Hfail.
    + rewrite Hx. do 4 eexists. split; [reflexivity|]. split; [done|]. by apply Hfail.
Qed.

(** The loop. *)
Lemma unlock_bulk_ok l : forall kr db st,
  Forall (fun ar => blen ar.1 < 64 /\ bulk_random_ok ar.2) l -> bulk_ok db st ->
  exists es kr' db', unlock_bulk pass now kr db st l = Ok (es, kr', db')
    /\ keeps db db'
    /\ map ua_address es = map fst l
    /\ (forall a, a ∉ map fst l -> bm_keyring_find_by_address kr' a = bm_keyring_find_by_address kr a)
    /\ (forall a u, bm_keyring_find_by_address kr a = Some u -> bm_keyring_find_by_address kr' a = Some u)
    /\ forall a ps pe, a ∈ map fst l -> bm_keyring_export db a pass = Ok (ps, pe) ->
         (exists u, bm_keyring_find_by_address kr' a = Some u
            /\ (bm_keyring_find_by_address kr a = None -> u_priv_signing u = ps /\ u_priv_encryption u = pe))
         /\ exists e, e ∈ es /\ ua_address e = a /\ ua_unlocked e = true.
Proof.
  induction l as [|[address rnd] l IH]; intros kr db st Hl Hb; cbn [unlock_bulk].
  { do 3 eexists. split; [reflexivity|]. split_and!; [by intros ?|done|done|done|].
    intros a ps pe Ha. by apply not_elem_of_nil in Ha. }
  apply Forall_cons_1 in Hl as [[Ha Hr] Hl]. cbn [fst snd] in *.
  destruct (unlock_bulk_one_ok kr db st address rnd Hr Hb Ha)
    as (e & kr1 & db1 & st1 & -> & Hb1 & Hk1 & Ho1 & Hs1 & He1 & Hx1). cbn_bind.
  destruct (IH kr1 db1 st1 Hl Hb1) as (es & kr' & db' & -> & Hk & Hes & Ho & Hs & Hx). cbn_bind.
  assert (Hmono : forall a u, bm_keyring_find_by_address kr a = Some u -> bm_keyring_find_by_address kr' a = Some u).
  { intros a u Hu. apply Hs. destruct (decide (a = address)) as [->|Hne]; [by apply Hs1|by rewrite Ho1]. }
  exists (e :: es), kr', db'. split; [done|]. split_and!; [| | |done|].
  - intros a ps pe E. by apply Hk, Hk1.
  - cbn [map fst]. by rewrite He1, Hes.
  - cbn [map fst]. intros a [Hne Hn]%not_elem_of_cons. by rewrite Ho, Ho1.
  - cbn [map fst]. intros a ps pe Hin E. destruct (decide (a = address)) as [->|Hne].
    + destruct (Hx1 ps pe E) as (Hu & u & Hf & Hkeys). split.
      * exists u. split; [by apply Hs|done].
      * exists e. split_and!; [by left|done|done].
    + apply elem_of_cons in Hin as [?|Hin]; [done|].
      destruct (Hx a ps pe Hin (Hk1 _ _ _ E)) as ((u & Hf & Hkeys) & e' & Hin' & Ha' & Hu'). split.
      * exists u. split; [done|]. intros Hn. apply Hkeys. by rewrite Ho1.
      * exists e'. split_and!; [by right|done|done].
Qed.

Lemma listed_address db a r :
  identities db !! a = Some r -> blen a < 64 -> a ∈ map sm_address (bm_identity_store_list db).
Proof.
  intros Hr Ha. unfold bm_identity_store_list. rewrite map_map. apply list_elem_of_fmap.
  exists (a, r). cbn. split; [by rewrite text_field_short by (unfold BM_IDENTITY_ADDRESS_MAX; lia)|].
  rewrite order_by_perm. by apply elem_of_select_where.
Qed.

Lemma list_every db : length (bm_identity_store_list db) = size (identities db).
Proof.
  unfold bm_identity_store_list. rewrite length_map, order_by_perm, <- length_map_to_list. unfold select_where.
  induction (map_to_list (identities db)) as [|r l IH]; [done|]. rewrite filter_cons. case_decide; [exact (f_equal S IH)|done].
Qed.

Lemma blen_text_field n s : 0 < n -> blen (text_field n s) < n.
Proof. intros. unfold text_field, blen. rewrite length_take. lia. Qed.
End BulkLemmas.

(** ** Lemmas: the sibling *)

Section SiblingLemmas.
Context `{OSVL : OpenSSLVaultLaws} `{OS : OpenSSL} (now : Z) (rnd : wrap_random).

(** A change of the label or of the chan flag leaves what a row opens to. *)
Definition touches (f : bm_identity_row -> bm_identity_row) : Prop :=
  forall r, exists label chan, f r = r <| r_label := label |> <| r_is_chan := chan |>.

Lemma touch_label label : touches (fun r => r <| r_label := label |>).
Proof. intros r. by exists label, (r_is_chan r). Qed.
Lemma touch_chan chan : touches (set_is_chan chan).
Proof. intros r. by exists (r_label r), chan. Qed.

Definition touch_row (db : identity_db) (address : list Z) (f : bm_identity_row -> bm_identity_row) : identity_db :=
  db <| identities := update_where (identities db) (fun k _ => list_eqb k address) f |>.

Lemma touch_load db address f a row :
  touches f -> bm_identity_store_load db a = Ok row ->
  exists label chan, bm_identity_store_load (touch_row db address f) a
      = Ok (row <| r_label := label |> <| r_is_chan := chan |>)
    /\ (a <> address -> label = r_label row /\ chan = r_is_chan row).
Proof.
  intros Hf. unfold bm_identity_store_load, touch_row. cbn. rewrite lookup_update_where.
  destruct (identities db !! a) as [r|]; [|done]. cbn.
  destruct (Hf r) as (label & chan & ->). intros E.
  destruct (list_eqb a address) eqn:Ea; cbn in *.
  - repeat (destruct (negb _); [done|]; cbn [orb] in E |- * ). injection E as <-.
    do 2 eexists. split; [reflexivity|]. apply list_eqb_eq in Ea. by intros ?.
  - rewrite E. exists (r_label row), (r_is_chan row). by split; [destruct row|].
Qed.

Lemma touch_keeps db address f pass : touches f -> keeps pass db (touch_row db address f).
Proof.
  intros Hf a ps pe. unfold bm_keyring_export. intros E. inv_bind E.
  destruct (touch_load db address f a a0 Hf E0) as (label & chan & -> & _). cbn_bind. inv_bind E.
  assert (resolve_kek_for_row (touch_row db address f) (a0 <| r_label := label |> <| r_is_chan := chan |>) pass
    = Ok a1) as ->; [|by cbn_bind]. rewrite <- E1. unfold resolve_kek_for_row. cbn. by apply resolve_ext.
Qed.

Lemma find_mark_chan kr a b :
  is_Some (bm_keyring_find_by_address (mark_unlocked_entry_as_chan kr a) b)
  <-> is_Some (bm_keyring_find_by_address kr b).
Proof.
  unfold bm_keyring_find_by_address. induction kr as [|u kr IH]; cbn; [done|].
  destruct (list_eqb (u_address u) a); cbn; destruct (same_address (u_address u) b); try done.
Qed.
Lemma load_touched_label db address label row :
  bm_identity_store_load db address = Ok row ->
  bm_identity_store_load (touch_row db address (fun r => r <| r_label := label |>)) address
  = Ok (row <| r_label := text_field BM_IDENTITY_LABEL_MAX label |>).
Proof.
  unfold bm_identity_store_load, touch_row. cbn. rewrite lookup_update_where.
  destruct (identities db !! address) as [r|]; [|done]. cbn. rewrite list_eqb_refl. cbn.
  repeat (destruct (negb _); [done|]; cbn [orb]). by intros [= <-].
Qed.

Lemma load_touched_chan db address chan row :
  bm_identity_store_load db address = Ok row ->
  bm_identity_store_load (touch_row db address (set_is_chan chan)) address = Ok (set_is_chan chan row).
Proof.
  unfold bm_identity_store_load, touch_row. cbn. rewrite lookup_update_where.
  destruct (identities db !! address) as [r|]; [|done]. cbn. rewrite list_eqb_refl. cbn.
  repeat (destruct (negb _); [done|]; cbn [orb]). by intros [= <-].
Qed.

(** What the sibling's row must be. *)
Definition sibling_row (v3 : bm_identity_row) (db : identity_db) (address : list Z) : Prop :=
  exists row, bm_identity_store_load db address = Ok row
    /\ r_signing_pubkey row = r_signing_pubkey v3 /\ r_encryption_pubkey row = r_encryption_pubkey v3
    /\ (r_is_chan v3 <> 0 -> r_is_chan row <> 0).

Lemma complete_sibling_ok c v3 v4 v4' c' pass :
  complete_sibling c v3 v4 = (v4', c') -> bm_identity_store_load (cv_db c) (cv_v4_address c) = Ok v4 ->
  r_signing_pubkey v4 = r_signing_pubkey v3 -> r_encryption_pubkey v4 = r_encryption_pubkey v3 ->
  keeps pass (cv_db c) (cv_db c') /\ cv_v4_address c' = cv_v4_address c /\ cv_created c' = cv_created c
  /\ sibling_row v3 (cv_db c') (cv_v4_address c)
  /\ (forall b, is_Some (bm_keyring_find_by_address (cv_keyring c') b)
               <-> is_Some (bm_keyring_find_by_address (cv_keyring c) b))
  /\ r_address v4' = r_address v4 /\ r_signing_pubkey v4' = r_signing_pubkey v4
  /\ r_encryption_pubkey v4' = r_encryption_pubkey v4.
Proof.
  intros E El Es Ee. unfold complete_sibling in E.
  set (db1 := if (blen (r_label v4) =? 0) && _ then _ else _) in E.
  assert (H1 : keeps pass (cv_db c) db1 /\ exists label, bm_identity_store_load db1 (cv_v4_address c)
      = Ok (v4 <| r_label := label |>)).
  { assert (Hsame : keeps pass (cv_db c) (cv_db c) /\ exists label,
      bm_identity_store_load (cv_db c) (cv_v4_address c) = Ok (v4 <| r_label := label |>)).
    { split; [by intros ?|]. exists (r_label v4). rewrite El. by destruct v4. }
    unfold db1. destruct (_ && _); [|done]. unfold bm_identity_store_update_label.
    destruct (identities (cv_db c) !! cv_v4_address c); [|done].
    split; [apply (touch_keeps _ _ _ _ (touch_label _))|].
    eexists. by apply load_touched_label. }
  destruct H1 as [Hk [label Hl]]. clearbody db1.
  destruct (negb (r_is_chan v3 =? 0) && (r_is_chan v4 =? 0)) eqn:Ec.
  - injection E as <- <-. cbn [cv_db cv_v4_address cv_created cv_keyring update_field record_eta].
    split_and!; try done.
    + intros a ps pe Hx. apply (touch_keeps db1 (cv_v4_address c) (set_is_chan 1) pass (touch_chan 1)). by apply Hk.
    + eexists. split; [exact (load_touched_chan _ _ 1 _ Hl)|]. by cbn.
    + intros b. apply find_mark_chan.
  - injection E as <- <-. cbn. split_and!; try done. eexists. split; [exact Hl|]. cbn.
    split_and!; [done|done|]. intros H3 H4. rewrite H4 in Ec. cbn in Ec.
    by destruct (Z.eqb_spec (r_is_chan v3) 0).
Qed.
Lemma stored_keeps db db' address pass :
  identities db !! address = None -> kdf_vault db' = kdf_vault db ->
  (forall a, a <> address -> identities db' !! a = identities db !! a) -> keeps pass db db'.
Proof.
  intros Hn Hv Ho a ps pe. unfold bm_keyring_export. destruct (decide (a = address)) as [->|Hne].
  - unfold bm_identity_store_load at 1. by rewrite Hn.
  - rewrite (load_ext db' db) by (by apply Ho). intros E. inv_bind E. rewrite E0. cbn_bind.
    by rewrite (resolve_ext db' db) by done.
Qed.

(** The session's master key, once known, is the vault's. *)
Definition session_ok (db : identity_db) (s : bm_keyring_convert_session) : Prop :=
  forall k, cs_master_kek s = KEK_KNOWN k -> vault_master_kek db (cs_passphrase s) = Ok k.

Lemma session_master_kek_ok db s r s' :
  session_master_kek db s = (r, s') -> session_ok db s ->
  session_ok db s' /\ cs_passphrase s' = cs_passphrase s
  /\ forall k, r = Ok k -> vault_master_kek db (cs_passphrase s) = Ok k.
Proof.
  unfold session_master_kek. intros E Hs. injection E as <- <-. unfold session_ok. cbn.
  pose proof (vault_master_kek_not_ub db (cs_passphrase s)).
  destruct (cs_master_kek s) eqn:Em; [|apply Hs in Em|]; split_and!; try done; try congruence.
  - destruct (vault_master_kek db (cs_passphrase s)); congruence.
  - destruct (vault_master_kek db (cs_passphrase s)); congruence.
Qed.

Lemma create_sibling_ok c v3 ps pe v4 c' :
  create_sibling now rnd c v3 ps pe = Ok (Some v4, c') -> session_ok (cv_db c) (cv_session c) ->
  keys_sized (r_signing_pubkey v3) (r_encryption_pubkey v3) ps pe -> random_ok rnd ->
  blen (cv_v4_address c) < 64 ->
  keeps (cs_passphrase (cv_session c)) (cv_db c) (cv_db c')
  /\ cv_v4_address c' = cv_v4_address c /\ cv_created c' = true /\ cv_keyring c' = cv_keyring c
  /\ sibling_row v3 (cv_db c') (cv_v4_address c)
  /\ bm_keyring_export (cv_db c') (cv_v4_address c) (cs_passphrase (cv_session c)) = Ok (ps, pe)
  /\ r_address v4 = cv_v4_address c
  /\ r_signing_pubkey v4 = r_signing_pubkey v3 /\ r_encryption_pubkey v4 = r_encryption_pubkey v3.
Proof.
  intros E Hs Hk Hr Ha. unfold create_sibling in E.
  destruct (store_sibling now rnd c v3 ps pe) as [db1| |] eqn:Est; [|done|done].
  assert (H1 : identities (cv_db c) !! cv_v4_address c = None /\ kdf_vault db1 = kdf_vault (cv_db c)
    /\ (forall a, a <> cv_v4_address c -> identities db1 !! a = identities (cv_db c) !! a)
    /\ bm_keyring_export db1 (cv_v4_address c) (cs_passphrase (cv_session c)) = Ok (ps, pe)
    /\ exists row, bm_identity_store_load db1 (cv_v4_address c) = Ok row /\ r_address_version row = 4
       /\ r_stream row = r_stream v3 /\ r_signing_pubkey row = r_signing_pubkey v3
       /\ r_encryption_pubkey row = r_encryption_pubkey v3 /\ r_is_chan row = 0).
  { unfold store_sibling in Est. destruct (list_eqb _ _).
    - destruct (cs_master_kek (cv_session c)) as [|k|] eqn:Em; [done| |done].
      by apply (import_with_kek_export _ _ _ _ _ _ _ _ _ _ _ _ _ _ _ _ Est (Hs k Em)).
    - by apply create_identity_export in Est. }
  destruct H1 as (Hn & Hv & Ho & Hx & row & El & _ & _ & E1 & E2 & _). rewrite El in E.
  pose proof (stored_keeps (cv_db c) db1 (cv_v4_address c) (cs_passphrase (cv_session c)) Hn Hv Ho) as Hkeep.
  destruct (load_fields _ _ _ El) as (Hra & _). rewrite text_field_short in Hra by lia.
  destruct (Z.eqb_spec (r_is_chan v3) 0) as [H0|H0]; injection E as <- <-; cbn; split_and!; try done.
  - exists row. by split_and!.
  - intros a xs xe Hxs. apply (touch_keeps _ _ _ _ (touch_chan 1)). by apply Hkeep.
  - eexists. split; [exact (load_touched_chan _ _ 1 _ El)|]. by cbn.
  - by apply (touch_keeps _ _ _ _ (touch_chan 1)).
Qed.

(** The sibling is unlocked when the version 3 identity is. *)
Lemma unlock_sibling_ok c v3 v4 ps pe :
  r_address v4 = text_field 64 (cv_v4_address c) -> blen (cv_v4_address c) < 64 ->
  blen (r_signing_pubkey v4) = 65 -> blen (r_encryption_pubkey v4) = 65 ->
  exists kr, unlock_sibling now c v3 v4 ps pe = Ok (CONVERT_OK, c <| cv_keyring := kr |>)
    /\ (is_Some (bm_keyring_find_by_address (cv_keyring c) (r_address v3)) ->
        is_Some (bm_keyring_find_by_address kr (cv_v4_address c))).
Proof.
  intros Hra Ha Hs He. rewrite text_field_short in Hra by lia. unfold unlock_sibling.
  assert (Hsame : c = c <| cv_keyring := cv_keyring c |>) by (by destruct c).
  destruct (bm_keyring_find_by_address (cv_keyring c) (r_address v3)) as [u3|].
  - destruct (bm_keyring_find_by_address (cv_keyring c) (cv_v4_address c)) as [u4|] eqn:Ef.
    + exists (cv_keyring c). split; [by rewrite <- Hsame|]. rewrite Ef. by eexists.
    + unfold add_unlocked_entry. rewrite calc_ripe_eq by done. cbn_bind. eexists. split; [reflexivity|].
      intros _. unfold bm_keyring_find_by_address. cbn [find_entry u_address].
      unfold BM_KEYRING_MAX_ADDRESS_LEN, BM_ADDRESS_STR_MAX.
      rewrite Hra, text_field_short, same_address_refl by lia. by eexists.
  - exists (cv_keyring c). split; [by rewrite <- Hsame|]. by intros [? ?].
Qed.
(** The session's key is the one the pass phrase gives. *)
Lemma convert_kek_ok db v3 s kek s' :
  convert_kek db v3 s = (Ok kek, s') -> session_ok db s ->
  resolve_kek_for_row db v3 (cs_passphrase s) = Ok kek /\ session_ok db s'
  /\ cs_passphrase s' = cs_passphrase s.
Proof.
  unfold convert_kek. destruct (list_eqb (r_kdf_algo v3) VAULT_HKDF) eqn:Ev.
  - destruct (session_master_kek db s) as [m s1] eqn:Em. intros [= E <-] Hs.
    destruct (session_master_kek_ok _ _ _ _ Em Hs) as (Hs1 & Hp & Hk). split_and!; [|done|done].
    destruct m as [k| |]; [|done|done]. rewrite bind_ok in E.
    unfold resolve_kek_for_row, bm_keyring_internal_resolve_kek. rewrite Ev, (Hk k) by done. by cbn_bind.
  - by intros [= E <-] Hs.
Qed.

Lemma sibling_with_keys_ok c v3 ps pe c' :
  sibling_with_keys now rnd c v3 ps pe = Ok (CONVERT_OK, c') ->
  session_ok (cv_db c) (cv_session c) -> cv_created c = false ->
  keys_sized (r_signing_pubkey v3) (r_encryption_pubkey v3) ps pe -> random_ok rnd ->
  keeps (cs_passphrase (cv_session c)) (cv_db c) (cv_db c')
  /\ sibling_row v3 (cv_db c') (cv_v4_address c')
  /\ (cv_created c' = true -> bm_identity_store_load (cv_db c) (cv_v4_address c') = Err
       /\ bm_keyring_export (cv_db c') (cv_v4_address c') (cs_passphrase (cv_session c)) = Ok (ps, pe))
  /\ (cv_created c' = false -> is_ok (bm_identity_store_load (cv_db c) (cv_v4_address c')) = true)
  /\ (is_Some (bm_keyring_find_by_address (cv_keyring c) (r_address v3)) ->
      is_Some (bm_keyring_find_by_address (cv_keyring c') (cv_v4_address c')))
  /\ exists ripe a, bm_address_calc_ripe (r_signing_pubkey v3) (r_encryption_pubkey v3) = Ok ripe
       /\ bm_address_encode 4 (u64 (r_stream v3)) ripe = Ok a /\ cv_v4_address c' = text_field 64 a.
Proof.
  intros E Hs Hcr Hk Hr. unfold sibling_with_keys in E. inv_bind E. rename a into ripe.
  destruct (bm_address_encode 4 (u64 (r_stream v3)) ripe) as [a| |] eqn:Ea; [|done|done].
  unfold BM_KEYRING_MAX_ADDRESS_LEN, BM_ADDRESS_STR_MAX in E.
  set (c1 := c <| cv_v4_address := text_field 64 a |>) in E.
  assert (Ha : blen (cv_v4_address c1) < 64) by (by apply blen_text_field).
  change (cv_db c) with (cv_db c1) in *. change (cv_session c) with (cv_session c1) in *.
  change (cv_keyring c) with (cv_keyring c1) in *. change (cv_created c) with (cv_created c1) in Hcr.
  assert (Hva : cv_v4_address c1 = text_field 64 a) by done. clearbody c1.
  pose proof Hk as (K1 & K2 & _).
  destruct (bm_identity_store_load (cv_db c1) (cv_v4_address c1)) as [v4| |] eqn:El; [| |done].
  - destruct (list_eqb (r_signing_pubkey v4) _) eqn:E1; [|done].
    destruct (list_eqb (r_encryption_pubkey v4) _) eqn:E2; [|done]. cbn [negb orb] in E.
    apply list_eqb_eq in E1, E2. destruct (complete_sibling c1 v3 v4) as [v4' c2] eqn:Ec.
    destruct (complete_sibling_ok c1 v3 v4 v4' c2 (cs_passphrase (cv_session c1)) Ec El E1 E2)
      as (Hkeep & Hv & Hc & Hrow & Hf & R1 & R2 & R3).
    destruct (load_fields _ _ _ El) as (Hra & _).
    destruct (unlock_sibling_ok c2 v3 v4' ps pe) as (kr & E' & Hu);
      [by rewrite R1, Hra, Hv|by rewrite Hv|by rewrite R2, E1|by rewrite R3, E2|].
    rewrite E in E'. injection E' as ->. cbn. rewrite Hv in *. split_and!; try done.
    + intros Ht. congruence.
    + by rewrite El.
    + intros H3. apply Hu. by apply Hf.
    + by exists ripe, a.
  - destruct (create_sibling now rnd c1 v3 ps pe) as [[[v4|] c2]| |] eqn:Ec; [|done|done|done].
    rewrite bind_ok in E. cbv beta iota in E.
    destruct (create_sibling_ok c1 v3 ps pe v4 c2 Ec Hs Hk Hr Ha)
      as (Hkeep & Hv & Hc & Hkr & Hrow & Hx & R1 & R2 & R3).
    destruct (unlock_sibling_ok c2 v3 v4 ps pe) as (kr & E' & Hu);
      [by rewrite R1, Hv, text_field_short|by rewrite Hv|by rewrite R2|by rewrite R3|].
    rewrite E in E'. injection E' as ->. cbn. rewrite Hv in *. split_and!; try done.
    + intros Ht. congruence.
    + rewrite <- Hkr. apply Hu.
    + by exists ripe, a.
Qed.
End SiblingLemmas.

(** ** Properties *)

Section Properties.
Context `{OSVL : OpenSSLVaultLaws} `{OS : OpenSSL}.

(** C19: storing an identity and opening it again.  A new identity, with a key of its own or
    on the vault, can be exported with the pass phrase it was stored with, and gives the
    private keys it was stored with; unlocking puts an entry with these keys at the head
    of the keyring, where it is found by its address. *)
Theorem keyring_store_roundtrip db db' address label v st pubs pube ps pe pass trials extra salt nonce rnd now :
  blen address < 64 -> keys_sized pubs pube ps pe -> random_ok rnd -> blen salt = 16 -> blen nonce = 12 ->
  bm_keyring_create_identity db address label v st pubs pube ps pe pass trials extra rnd now = Ok db'
  \/ bm_keyring_import_identity db address label v st pubs pube ps pe pass trials extra salt nonce rnd now
       = Ok (true, db') ->
  bm_keyring_export db' address pass = Ok (ps, pe)
  /\ forall kr now', exists u, bm_keyring_unlock kr db' address pass now' = Ok (u :: kr)
       /\ bm_keyring_find_by_address (u :: kr) address = Some u
       /\ u_priv_signing u = ps /\ u_priv_encryption u = pe /\ u_pub_signing u = pubs /\ u_pub_encryption u = pube.
Proof.
  intros Ha Hk Hr Hs Hn E.
  assert (H0 : bm_keyring_export db' address pass = Ok (ps, pe)
    /\ exists row, bm_identity_store_load db' address = Ok row
         /\ r_signing_pubkey row = pubs /\ r_encryption_pubkey row = pube).
  { destruct E as [E|E].
    - apply create_identity_export in E as (_ & _ & _ & Hx & row & El & _ & _ & E1 & E2 & _); try done.
      split; [done|by exists row].
    - unfold bm_keyring_import_identity in E.
      destruct (bm_keyring_resolve_or_create_vault_master_kek db pass salt nonce) as [[k db1]| |] eqn:Ev; [|done|done].
      assert (Hv : vault_master_kek db1 pass = Ok k).
      { unfold bm_keyring_resolve_or_create_vault_master_kek in Ev.
        destruct (bm_identity_store_load_vault db).
        - inv_bind Ev. injection Ev as <- <-. done.
        - apply create_vault_ok in Ev as (? & _); done.
        - apply create_vault_ok in Ev as (? & _); done. }
      destruct (bm_keyring_import_identity_with_master_kek _ _ _ _ _ _ _ _ _ _ _ _ _ _) as [db2| |] eqn:Ei; [|done|done].
      injection E as ->.
      apply (import_with_kek_export _ _ _ _ _ _ _ _ _ _ pass) in Ei
        as (_ & _ & _ & Hx & row & El & _ & _ & E1 & E2 & _); try done. split; [done|by exists row]. }
  destruct H0 as (Hx & row & El & E1 & E2). split; [done|]. intros kr now'.
  pose proof (unlock_export kr db' address pass now' Ha) as Hu. rewrite Hx in Hu.
  destruct Hu as (row' & u & El' & -> & Hua & Hps & Hpe & Hpub & Hpub2 & _).
  assert (row' = row) as -> by congruence. destruct (load_fields _ _ _ El) as (Hra & _).
  exists u. split_and!; try done; [|congruence|congruence].
  unfold bm_keyring_find_by_address. cbn [find_entry].
  by rewrite Hua, Hra, text_field_short, same_address_refl by lia.
Qed.

(** What unlocks is what was wrapped.  When a pass phrase unlocks an identity, the two
    stored blobs are the wrapping of the private keys that enter the keyring, under the
    key of that row and bound to that address; a blob that was altered or moved from
    another identity does not unlock. *)
Theorem bm_keyring_unlock_authentic kr db address pass now kr' :
  blen address < 64 -> bm_keyring_unlock kr db address pass now = Ok kr' ->
  exists row kek u, bm_identity_store_load db address = Ok row
    /\ resolve_kek_for_row db row pass = Ok kek /\ kr' = u :: kr /\ u_address u = address
    /\ bm_keyring_internal_wrap kek address (u_priv_signing u) (slice (r_wrapped_priv_signing_key row) 0 12)
         = Ok (r_wrapped_priv_signing_key row)
    /\ bm_keyring_internal_wrap kek address (u_priv_encryption u) (slice (r_wrapped_priv_encryption_key row) 0 12)
         = Ok (r_wrapped_priv_encryption_key row).
Proof.
  intros Ha E. pose proof (unlock_export kr db address pass now Ha) as Hu.
  destruct (bm_keyring_export db address pass) as [[ps pe]| |] eqn:Ex; [|congruence|congruence].
  destruct Hu as (row & u & El & E' & Hua & <- & <- & _). rewrite E in E'. injection E' as ->.
  unfold bm_keyring_export in Ex. rewrite El, bind_ok in Ex. cbv beta in Ex. inv_bind Ex.
  apply unwrap_both_ok in Ex as [[_ X1]%unwrap_authentic [_ X2]%unwrap_authentic].
  destruct (load_fields _ _ _ El) as (Hra & _). rewrite text_field_short in Hra by lia.
  exists row, a, u. by rewrite Hua, Hra.
Qed.

(** C34: unlocking all identities, which moves those with a key of their own to the vault
    and creates the vault when there is none, loses no key: it always ends, and every identity
    the pass phrase could export before exports the same keys after.  It refuses exactly when
    there are more identities than the limit, and then touches nothing; otherwise it makes a
    report for every identity, and every one that the pass phrase could export, at an address of
    less than 64 characters, is unlocked and reported so (with these keys, unless an entry was
    there before). *)
Theorem unlock_all_keeps_keys kr db pass now max_identities rnd :
  (forall i, bulk_random_ok (rnd i)) ->
  exists r kr' db',
    bm_keyring_unlock_all_with_limit pass now kr db max_identities rnd = Ok (r, kr', db')
    /\ keeps pass db db'
    /\ (r = None <-> max_identities < Z.of_nat (size (identities db)))
    /\ (r = None -> kr' = kr /\ db' = db)
    /\ (forall es, r = Some es -> map ua_address es = map sm_address (bm_identity_store_list db))
    /\ forall es address ps pe, r = Some es -> blen address < 64 ->
         bm_keyring_export db address pass = Ok (ps, pe) ->
         (exists u, bm_keyring_find_by_address kr' address = Some u
            /\ (bm_keyring_find_by_address kr address = None -> u_priv_signing u = ps /\ u_priv_encryption u = pe))
         /\ exists e, e ∈ es /\ ua_address e = address /\ ua_unlocked e = true.
Proof.
  intros Hr. unfold bm_keyring_unlock_all_with_limit.
  rewrite list_every. destruct (Z.gtb_spec (Z.of_nat (size (identities db))) max_identities) as [Hm|Hm].
  { do 3 eexists. split; [reflexivity|]. by split_and!; [intros ?| | | |]. }
  set (l := imap _ _).
  assert (Hfst : map fst l = map sm_address (bm_identity_store_list db)).
  { unfold l. generalize rnd. induction (bm_identity_store_list db) as [|s ss IH]; [done|].
    intros rnd0. cbn. f_equal. apply (IH (fun i => rnd0 (S i))). }
  destruct (unlock_bulk_ok pass now l kr db (unlock_bulk_begin db pass)) as (es & kr' & db' & -> & Hk & Hes & _ & _ & Hx).
  - apply Forall_forall. intros [a r] Hin. unfold l in Hin. apply elem_of_lookup_imap in Hin as (i & s & [= -> ->] & Hs).
    split; [|apply Hr]. cbn. apply list_elem_of_lookup_2 in Hs. unfold bm_identity_store_list in Hs.
    apply list_elem_of_fmap in Hs as (kr0 & -> & _). by apply blen_text_field.
  - apply bulk_begin_ok.
  - cbn_bind. do 3 eexists. split; [reflexivity|]. split_and!; [done|by split; [|lia]|done|intros es' [= <-]; by rewrite Hes|].
    intros es' address ps pe [= <-] Ha E. apply Hx; [|done]. rewrite Hfst.
    unfold bm_keyring_export in E. destruct (bm_identity_store_load db address) eqn:El; [|done|done].
    unfold bm_identity_store_load in El. destruct (identities db !! address) as [r|] eqn:Ei; [|done].
    by apply (listed_address _ _ r).
Qed.

(** Unlocking an identity that is unlocked already adds a second entry, of which locking
    removes only the first: the lock reports success and the private keys stay in the
    keyring. *)
Theorem unlock_twice_survives_lock kr kr1 kr2 db address pass now now' :
  blen address < 64 ->
  bm_keyring_unlock kr db address pass now = Ok kr1 -> bm_keyring_unlock kr1 db address pass now' = Ok kr2 ->
  exists kr3 u, bm_keyring_lock kr2 address = (true, kr3) /\ bm_keyring_find_by_address kr3 address = Some u
    /\ bm_keyring_export db address pass = Ok (u_priv_signing u, u_priv_encryption u).
Proof.
  intros Ha E1 E2. pose proof (unlock_export kr db address pass now Ha) as H1.
  pose proof (unlock_export kr1 db address pass now' Ha) as H2.
  destruct (bm_keyring_export db address pass) as [[ps pe]| |]; [|congruence|congruence].
  destruct H1 as (row & u & El & E1' & Hu & Hps & Hpe & _). destruct H2 as (row2 & u2 & El2 & E2' & Hu2 & _).
  rewrite E1 in E1'. injection E1' as ->. rewrite E2 in E2'. injection E2' as ->.
  destruct (load_fields _ _ _ El) as (Hra & _). destruct (load_fields _ _ _ El2) as (Hra2 & _).
  rewrite text_field_short in Hra, Hra2 by lia.
  exists (u :: kr), u. unfold bm_keyring_find_by_address. cbn [bm_keyring_lock find_entry].
  rewrite Hu2, Hra2, Hu, Hra, same_address_refl. by rewrite Hps, Hpe.
Qed.

(** The version 4 sibling of a version 3 identity.  When the conversion of an identity that
    the pass phrase opens succeeds, the address made of the same keys has a row with these
    public keys, a chan if the identity is one; the row is new and opens to the same private
    keys, or was there before; no key is lost; and if the identity is unlocked its sibling
    is too. *)
Theorem ensure_v4_sibling_spec kr db v3_address s v3 ps pe rnd now c :
  blen v3_address < 64 -> bm_identity_store_load db v3_address = Ok v3 ->
  bm_keyring_export db v3_address (cs_passphrase s) = Ok (ps, pe) -> session_ok db s -> random_ok rnd ->
  bm_keyring_ensure_v4_sibling now rnd kr db v3_address s = Ok (CONVERT_OK, c) ->
  r_address_version v3 = 3
  /\ keeps (cs_passphrase s) db (cv_db c)
  /\ sibling_row v3 (cv_db c) (cv_v4_address c)
  /\ (cv_created c = true -> bm_identity_store_load db (cv_v4_address c) = Err
       /\ bm_keyring_export (cv_db c) (cv_v4_address c) (cs_passphrase s) = Ok (ps, pe))
  /\ (cv_created c = false -> is_ok (bm_identity_store_load db (cv_v4_address c)) = true)
  /\ (is_Some (bm_keyring_find_by_address kr v3_address) ->
      is_Some (bm_keyring_find_by_address (cv_keyring c) (cv_v4_address c)))
  /\ exists ripe a, bm_address_calc_ripe (r_signing_pubkey v3) (r_encryption_pubkey v3) = Ok ripe
       /\ bm_address_encode 4 (u64 (r_stream v3)) ripe = Ok a /\ cv_v4_address c = text_field 64 a.
Proof.
  intros Ha El Ex Hs Hr E. unfold bm_keyring_ensure_v4_sibling in E. rewrite El in E.
  destruct (Z.eqb_spec (r_address_version v3) 3) as [Hv3|]; [|done]. cbn [negb] in E.
  destruct (convert_kek db v3 s) as [kek s1] eqn:Ek. destruct kek as [kek| |]; [|done|done].
  destruct (convert_kek_ok _ _ _ _ _ Ek Hs) as (Hkek & Hs1 & Hp).
  destruct (load_fields _ _ _ El) as (Hra & L1 & L2 & _ & L3 & L4). rewrite text_field_short in Hra by lia.
  rewrite Hra in E. unfold bm_keyring_export in Ex. rewrite El, bind_ok in Ex. cbv beta in Ex.
  rewrite Hkek, bind_ok in Ex. cbv beta in Ex. rewrite Ex in E.
  apply unwrap_both_ok in Ex as [X1%unwrap_len X2%unwrap_len].
  split; [done|]. rewrite <- Hp, <- Hra.
  eapply (sibling_with_keys_ok now rnd _ v3 ps pe c E); cbn; [done|done| |done].
  unfold keys_sized. split_and!; lia.
Qed.
End Properties.

(** ** Witnesses *)

Section KeyringWitnesses.
#[local] Existing Instance toy_OpenSSL.
#[local] Existing Instance toy_vault.
#[local] Existing Instance toy_OpenSSLVaultLaws.

Definition ring_random : wrap_random :=
  {| wr_salt := replicate 16 1; wr_nonce_signing := replicate 12 2; wr_nonce_encryption := replicate 12 3 |}.
Definition ring_bulk : bulk_random :=
  {| bk_vault_salt := replicate 16 4; bk_canary_nonce := replicate 12 5; bk_wrap := ring_random |}.
Definition ring_pub : list Z := 4 :: replicate 64 1.
Definition ring_address : list Z := cstr "BM-2cRing"%string.
Definition ring_pass : list Z := cstr "secret"%string.

Definition ring_created : cres identity_db :=
  bm_keyring_create_identity bm_identity_store_init_schema ring_address None 3 1 ring_pub ring_pub
    (replicate 32 7) (replicate 32 8) ring_pass 1000 1000 ring_random 5.
Definition ring_db : identity_db :=
  match ring_created with Ok d => d | _ => bm_identity_store_init_schema end.

Lemma ring_random_ok : random_ok ring_random.
Proof. by repeat split. Qed.

Lemma keyring_store_roundtrip_witness :
  bm_keyring_export ring_db ring_address ring_pass = Ok (replicate 32 7, replicate 32 8).
Proof.
  destruct (keyring_store_roundtrip bm_identity_store_init_schema ring_db ring_address None 3 1 ring_pub ring_pub
    (replicate 32 7) (replicate 32 8) ring_pass 1000 1000 (replicate 16 4) (replicate 12 5) ring_random 5)
    as [H _]; [by vm_compute|by repeat split|by repeat split|done|done|left; by vm_compute|exact H].
Defined.

Definition ring_unlocked (kr : bm_keyring_t) : bm_keyring_t :=
  match bm_keyring_unlock kr ring_db ring_address ring_pass 9 with Ok k => k | _ => [] end.

Lemma bm_keyring_unlock_authentic_witness :
  exists row kek u, bm_identity_store_load ring_db ring_address = Ok row
    /\ resolve_kek_for_row ring_db row ring_pass = Ok kek /\ ring_unlocked [] = [u] /\ u_address u = ring_address.
Proof.
  destruct (bm_keyring_unlock_authentic [] ring_db ring_address ring_pass 9 (ring_unlocked []))
    as (row & kek & u & H1 & H2 & H3 & H4 & _); [by vm_compute|by vm_compute|].
  exists row, kek, u. split; [exact H1|]. split; [exact H2|]. split; [exact H3|exact H4].
Defined.

Lemma unlock_all_keeps_keys_witness :
  exists r kr' db', bm_keyring_unlock_all_with_limit ring_pass 9 [] ring_db 10 (fun _ => ring_bulk) = Ok (r, kr', db')
    /\ keeps ring_pass ring_db db'.
Proof.
  destruct (unlock_all_keeps_keys [] ring_db ring_pass 9 10 (fun _ => ring_bulk)) as (r & kr' & db' & E & H & _).
  - intros _. split; [reflexivity|]. split; [reflexivity|]. split; [reflexivity|]. split; reflexivity.
  - exists r, kr', db'. split; [exact E|exact H].
Defined.

Lemma unlock_twice_survives_lock_witness :
  exists kr3 u, bm_keyring_lock (ring_unlocked (ring_unlocked [])) ring_address = (true, kr3)
    /\ bm_keyring_find_by_address kr3 ring_address = Some u.
Proof.
  destruct (unlock_twice_survives_lock [] (ring_unlocked []) (ring_unlocked (ring_unlocked [])) ring_db ring_address
    ring_pass 9 9) as (kr3 & u & H1 & H2 & _); [by vm_compute|by vm_compute|by vm_compute|].
  exists kr3, u. split; [exact H1|exact H2].
Defined.

Definition ring_sibling : cres (convert_result * convert_state) :=
  bm_keyring_ensure_v4_sibling 9 ring_random [] ring_db ring_address (bm_keyring_convert_session_init ring_pass).

Lemma ring_loads : is_ok (bm_identity_store_load ring_db ring_address) = true.
Proof. by vm_compute. Qed.

Lemma ring_sibling_ok : match ring_sibling with Ok (CONVERT_OK, _) => true | _ => false end = true.
Proof. by vm_compute. Qed.

Lemma ensure_v4_sibling_spec_witness :
  exists c v3, ring_sibling = Ok (CONVERT_OK, c) /\ sibling_row v3 (cv_db c) (cv_v4_address c).
Proof.
  pose proof ring_sibling_ok as Hok.
  destruct ring_sibling as [[r c]| |] eqn:E; [|discriminate Hok|discriminate Hok].
  destruct r; try discriminate Hok.
  pose proof ring_loads as Hload.
  destruct (bm_identity_store_load ring_db ring_address) as [v3| |] eqn:El;
    [|discriminate Hload|discriminate Hload].
  destruct (ensure_v4_sibling_spec [] ring_db ring_address (bm_keyring_convert_session_init ring_pass) v3
    (replicate 32 7) (replicate 32 8) ring_random 9 c) as (_ & _ & H & _).
  - by vm_compute.
  - exact El.
  - by vm_compute.
  - intros k Hk. discriminate.
  - apply ring_random_ok.
  - exact E.
  - exists c, v3. split; [reflexivity|exact H].
Defined.
End KeyringWitnesses.
