(* ===== verification/PqStores.v ===== *)
(** * Tables of post-quantum identities (core/pq_identity_store.c, core/pq_pubkey_cache.c)

    Table [pq_identities] of identity.db, keyed by the address, and the tables of foreign
    keys and of pending requests, keyed by the tag of the address.  Character arrays and C
    strings are the characters before their NUL. *)

From Stdlib Require Import String.
From stdpp Require Import base tactics numbers option gmap sorting list.
From S2P Require Import Prelude Varint Base58 Openssl Hash Address PqHybrid AddressV5 PqObject Sql IdentityStore Keyring.

#[local] Arguments be_split : simpl never.

Definition BM_PQ_IDENTITY_WRAPPED_SEEDS_LEN : Z := BM_PQV5_SEEDS_LEN + BM_KEYRING_WRAP_OVERHEAD.

Record bm_pq_identity_row := {
  pr_address : list Z;
  pr_label : list Z;
  pr_enabled : Z;
  pr_address_version : Z;
  pr_stream : Z;
  pr_id : list Z;
  pr_sig_pk : list Z;
  pr_kem_pk : list Z;
  pr_kdf_algo : list Z;
  pr_kdf_salt : list Z;
  pr_kdf_params : list Z;
  pr_wrapped_seeds : list Z;
  pr_nonce_trials_per_byte : Z;
  pr_payload_length_extra_bytes : Z;
  pr_created_time : Z
}.
#[export] Instance bm_pq_identity_row_eta : RecordEta bm_pq_identity_row := fun r =>
  Build_bm_pq_identity_row (pr_address r) (pr_label r) (pr_enabled r) (pr_address_version r) (pr_stream r)
    (pr_id r) (pr_sig_pk r) (pr_kem_pk r) (pr_kdf_algo r) (pr_kdf_salt r) (pr_kdf_params r)
    (pr_wrapped_seeds r) (pr_nonce_trials_per_byte r) (pr_payload_length_extra_bytes r) (pr_created_time r).

(** A row of [pq_pubkey_cache] behind its key, the tag. *)
Record pq_pubkey_row := {
  qp_id : list Z;
  qp_address_version : Z;
  qp_stream : Z;
  qp_behavior_bitfield : Z;
  qp_sig_pk : list Z;
  qp_kem_pk : list Z;
  qp_nonce_trials_per_byte : Z;
  qp_payload_length_extra_bytes : Z;
  qp_received_time : Z
}.

Record pq_request_row := {
  qr_id : list Z;
  qr_address_version : Z;
  qr_stream : Z;
  qr_requested_time : Z
}.
#[export] Instance pq_request_row_eta : RecordEta pq_request_row := fun r =>
  Build_pq_request_row (qr_id r) (qr_address_version r) (qr_stream r) (qr_requested_time r).

(** The tables of identity.db these files own. *)
Record pq_db := {
  pq_identities : gmap (list Z) bm_pq_identity_row;
  pq_pubkey_cache : gmap (list Z) pq_pubkey_row;
  pq_pubkey_requests : gmap (list Z) pq_request_row
}.
#[export] Instance pq_db_eta : RecordEta pq_db := fun d =>
  Build_pq_db (pq_identities d) (pq_pubkey_cache d) (pq_pubkey_requests d).

(** New tables; existing ones the statements leave as they are. *)
Definition bm_pq_identity_store_init_schema : gmap (list Z) bm_pq_identity_row := ∅.
Definition bm_pq_pubkey_cache_init_schema : gmap (list Z) pq_pubkey_row * gmap (list Z) pq_request_row := (∅, ∅).

(** ** Identities *)

(** INSERT fails on a second row of the same address; 64-bit numbers become signed columns. *)
Definition bm_pq_identity_store_insert (db : pq_db) (row : bm_pq_identity_row) : cres pq_db :=
  match pq_identities db !! pr_address row with
  | Some _ => Err
  | None =>
      Ok (db <| pq_identities :=
            <[pr_address row := row <| pr_address_version := s64 (pr_address_version row) |>
                                    <| pr_stream := s64 (pr_stream row) |>
                                    <| pr_nonce_trials_per_byte := s64 (pr_nonce_trials_per_byte row) |>
                                    <| pr_payload_length_extra_bytes := s64 (pr_payload_length_extra_bytes row) |>]>
              (pq_identities db) |>)
  end.

(** A blob column of the expected length. *)
Definition copy_blob (blob : list Z) (expected_len : Z) : cres (list Z) :=
  if blen blob =? expected_len then Ok blob else Err.

Definition bm_pq_identity_store_load (db : pq_db) (address : list Z) : cres bm_pq_identity_row :=
  match pq_identities db !! address with
  | None => Err
  | Some r =>
      id ← copy_blob (pr_id r) BM_PQV5_ID_LEN;
      sig_pk ← copy_blob (pr_sig_pk r) BM_PQV5_SIG_PK_LEN;
      kem_pk ← copy_blob (pr_kem_pk r) BM_PQV5_KEM_PK_LEN;
      kdf_salt ← copy_blob (pr_kdf_salt r) BM_IDENTITY_KDF_SALT_LEN;
      wrapped_seeds ← copy_blob (pr_wrapped_seeds r) BM_PQ_IDENTITY_WRAPPED_SEEDS_LEN;
      Ok {| pr_address := text_field BM_IDENTITY_ADDRESS_MAX address;
            pr_label := text_field BM_IDENTITY_LABEL_MAX (pr_label r);
            pr_enabled := pr_enabled r;
            pr_address_version := u64 (pr_address_version r);
            pr_stream := u64 (pr_stream r);
            pr_id := id; pr_sig_pk := sig_pk; pr_kem_pk := kem_pk;
            pr_kdf_algo := text_field BM_IDENTITY_KDF_ALGO_MAX (pr_kdf_algo r);
            pr_kdf_salt := kdf_salt;
            pr_kdf_params := text_field BM_IDENTITY_KDF_PARAMS_MAX (pr_kdf_params r);
            pr_wrapped_seeds := wrapped_seeds;
            pr_nonce_trials_per_byte := u64 (pr_nonce_trials_per_byte r);
            pr_payload_length_extra_bytes := u64 (pr_payload_length_extra_bytes r);
            pr_created_time := pr_created_time r |}
  end.

Definition bm_pq_identity_store_delete (db : pq_db) (address : list Z) : pq_db :=
  db <| pq_identities := delete_where (pq_identities db) (fun k _ => list_eqb k address) |>.

(** No row changed is an error. *)
Definition bm_pq_identity_store_update_label (db : pq_db) (address label : list Z) : cres pq_db :=
  match pq_identities db !! address with
  | None => Err
  | Some _ =>
      Ok (db <| pq_identities := update_where (pq_identities db) (fun k _ => list_eqb k address)
                                   (fun r => r <| pr_label := label |>) |>)
  end.

Definition pq_created_leb (a b : list Z * bm_pq_identity_row) : bool :=
  (pr_created_time a.2 <? pr_created_time b.2)
  || (pr_created_time a.2 =? pr_created_time b.2) && text_leb a.1 b.1.

Definition read_pq_summary (kr : list Z * bm_pq_identity_row) : bm_identity_summary :=
  {| sm_address := text_field BM_IDENTITY_ADDRESS_MAX kr.1;
     sm_label := text_field BM_IDENTITY_LABEL_MAX (pr_label kr.2);
     sm_enabled := pr_enabled kr.2; sm_is_chan := 0 |}.

Definition bm_pq_identity_store_list (db : pq_db) : list bm_identity_summary :=
  map read_pq_summary (order_by pq_created_leb (select_where (pq_identities db) (fun _ _ => true))).

(** ** Foreign keys and requests *)

Section PqPubkeyCache.
Context `{PQ : PqOpenSSL}.

Definition bm_pq_pubkey_cache_record_request (db : pq_db) (address_version stream : Z) (id : list Z)
  (requested_time : Z) : cres pq_db :=
  '(_, tag) ← bm_pqv5_derive_secret_and_tag address_version stream id;
  id ← rdn id 0 BM_PQV5_ID_LEN;
  Ok (db <| pq_pubkey_requests :=
        upsert (pq_pubkey_requests db) tag
          {| qr_id := id; qr_address_version := s64 address_version; qr_stream := s64 stream;
             qr_requested_time := requested_time |}
          (fun old => old <| qr_requested_time := requested_time |>) |>).

Definition bm_pq_pubkey_cache_has_recent_request (db : pq_db) (tag : list Z) (now max_age_seconds : Z) : cres bool :=
  match pq_pubkey_requests db !! tag with
  | Some r => d ← int64 (now - qr_requested_time r); Ok (d <? max_age_seconds)
  | None => Ok false
  end.

(** The version, the stream and the id of the request. *)
Definition bm_pq_pubkey_cache_find_request (db : pq_db) (tag : list Z) : cres (Z * Z * list Z) :=
  match pq_pubkey_requests db !! tag with
  | Some r =>
      if blen (qr_id r) =? BM_PQV5_ID_LEN
      then Ok (u64 (qr_address_version r), u64 (qr_stream r), qr_id r) else Err
  | None => Err
  end.

Definition bm_pq_pubkey_cache_clear_request (db : pq_db) (tag : list Z) : pq_db :=
  db <| pq_pubkey_requests := delete_where (pq_pubkey_requests db) (fun k _ => list_eqb k tag) |>.

Definition bm_pq_pubkey_cache_upsert (db : pq_db) (id : list Z) (pubkey : bm_pq_pubkey_parsed) (received_time : Z)
  : cres pq_db :=
  '(_, tag) ← bm_pqv5_derive_secret_and_tag (pp_address_version pubkey) (pp_stream pubkey) id;
  id ← rdn id 0 BM_PQV5_ID_LEN;
  sig_pk ← rdn (pp_sig_pk pubkey) 0 BM_PQV5_SIG_PK_LEN;
  kem_pk ← rdn (pp_kem_pk pubkey) 0 BM_PQV5_KEM_PK_LEN;
  Ok (db <| pq_pubkey_cache :=
        <[tag := {| qp_id := id; qp_address_version := s64 (pp_address_version pubkey);
                    qp_stream := s64 (pp_stream pubkey); qp_behavior_bitfield := pp_bitfield pubkey;
                    qp_sig_pk := sig_pk; qp_kem_pk := kem_pk;
                    qp_nonce_trials_per_byte := s64 (pp_nonce_trials_per_byte pubkey);
                    qp_payload_length_extra_bytes := s64 (pp_payload_length_extra_bytes pubkey);
                    qp_received_time := received_time |}]> (pq_pubkey_cache db) |>).

Definition bm_pq_pubkey_cache_store_sender (db : pq_db) (address_version stream : Z) (id : list Z) (bitfield : Z)
  (sig_pk kem_pk : list Z) (nonce_trials_per_byte payload_length_extra_bytes now : Z) : cres pq_db :=
  sig_pk ← rdn sig_pk 0 BM_PQV5_SIG_PK_LEN;
  kem_pk ← rdn kem_pk 0 BM_PQV5_KEM_PK_LEN;
  db ← bm_pq_pubkey_cache_upsert db id
         {| pp_address_version := address_version; pp_stream := stream; pp_bitfield := bitfield;
            pp_sig_pk := sig_pk; pp_kem_pk := kem_pk; pp_nonce_trials_per_byte := nonce_trials_per_byte;
            pp_payload_length_extra_bytes := payload_length_extra_bytes |} now;
  '(_, tag) ← bm_pqv5_derive_secret_and_tag address_version stream id;
  Ok (bm_pq_pubkey_cache_clear_request db tag).

Definition bm_pq_pubkey_cache_lookup (db : pq_db) (address_version stream : Z) (id : list Z)
  : cres bm_pq_pubkey_parsed :=
  '(_, tag) ← bm_pqv5_derive_secret_and_tag address_version stream id;
  match pq_pubkey_cache db !! tag with
  | None => Err
  | Some r =>
      if (blen (qp_sig_pk r) =? BM_PQV5_SIG_PK_LEN) && (blen (qp_kem_pk r) =? BM_PQV5_KEM_PK_LEN) then
        Ok {| pp_address_version := address_version; pp_stream := stream;
              pp_bitfield := u32 (qp_behavior_bitfield r); pp_sig_pk := qp_sig_pk r; pp_kem_pk := qp_kem_pk r;
              pp_nonce_trials_per_byte := u64 (qp_nonce_trials_per_byte r);
              pp_payload_length_extra_bytes := u64 (qp_payload_length_extra_bytes r) |}
      else Err
  end.
End PqPubkeyCache.

(** ** Lemmas *)

(** The fields of the struct fit their arrays. *)
Definition pq_row_sized (row : bm_pq_identity_row) : Prop :=
  blen (pr_address row) < BM_IDENTITY_ADDRESS_MAX /\ blen (pr_label row) < BM_IDENTITY_LABEL_MAX
  /\ blen (pr_kdf_algo row) < BM_IDENTITY_KDF_ALGO_MAX /\ blen (pr_kdf_params row) < BM_IDENTITY_KDF_PARAMS_MAX
  /\ blen (pr_id row) = BM_PQV5_ID_LEN /\ blen (pr_sig_pk row) = BM_PQV5_SIG_PK_LEN
  /\ blen (pr_kem_pk row) = BM_PQV5_KEM_PK_LEN /\ blen (pr_kdf_salt row) = BM_IDENTITY_KDF_SALT_LEN
  /\ blen (pr_wrapped_seeds row) = BM_PQ_IDENTITY_WRAPPED_SEEDS_LEN
  /\ is_u64 (pr_address_version row) /\ is_u64 (pr_stream row)
  /\ is_u64 (pr_nonce_trials_per_byte row) /\ is_u64 (pr_payload_length_extra_bytes row).

Lemma copy_blob_ok b n : blen b = n -> copy_blob b n = Ok b.
Proof. intros Hb. unfold copy_blob. by rewrite Hb, Z.eqb_refl. Qed.

Lemma copy_blob_inv b n b' : copy_blob b n = Ok b' -> b' = b /\ blen b' = n.
Proof. unfold copy_blob. destruct (Z.eqb_spec (blen b) n); [by intros [= <-]|done]. Qed.

Lemma copy_blob_not_ub b n : copy_blob b n <> Ub.
Proof. unfold copy_blob. by case_match. Qed.

(** What was inserted is loaded. *)
Lemma pq_insert_load db row db' :
  pq_row_sized row -> bm_pq_identity_store_insert db row = Ok db' ->
  pq_identities db !! pr_address row = None /\ bm_pq_identity_store_load db' (pr_address row) = Ok row.
Proof.
  intros (H1 & H2 & H3 & H4 & H5 & H6 & H7 & H8 & H9 & U1 & U2 & U3 & U4) E.
  unfold bm_pq_identity_store_insert in E.
  destruct (pq_identities db !! pr_address row) eqn:En; [done|]. apply ok_inj in E as <-. split; [done|].
  unfold bm_pq_identity_store_load. simpl pq_identities. rewrite lookup_insert_eq. cbn -[lookup].
  rewrite !copy_blob_ok, !bind_ok by done. rewrite !text_field_short, !u64_s64 by done. by destruct row.
Qed.

(** What is loaded has the widths of the struct. *)
Lemma pq_load_sized db address row :
  bm_pq_identity_store_load db address = Ok row -> pq_row_sized row /\ pr_address row = text_field BM_IDENTITY_ADDRESS_MAX address.
Proof.
  unfold bm_pq_identity_store_load. destruct (pq_identities db !! address) as [r|]; [|done].
  intros E. do 5 inv_bind E. repeat match goal with H : copy_blob _ _ = Ok _ |- _ => apply copy_blob_inv in H as [-> ?] end.
  apply ok_inj in E as <-. split; [|done]. unfold pq_row_sized. cbn.
  split_and!; first [done|apply u64_range|by apply blen_text_field].
Qed.

Lemma pq_load_not_ub db address : bm_pq_identity_store_load db address <> Ub.
Proof.
  unfold bm_pq_identity_store_load. case_match; [|done]. unfold copy_blob. by repeat case_match.
Qed.

Section PqStoreProperties.
Context `{PQL : PqOpenSSLLaws}.

(** The key of a sender is kept for the reply.  After [bm_pq_pubkey_cache_store_sender] the lookup of that
    address gives its keys and parameters, and a pending request for it is gone; addresses and
    requests with another tag are as before. *)
Theorem pq_store_sender_lookup db (version stream : Z) (id : list Z) (bitfield : Z) (sig_pk kem_pk : list Z)
  (trials extra now : Z) :
  blen id = BM_PQV5_ID_LEN -> is_u32 bitfield ->
  blen sig_pk = BM_PQV5_SIG_PK_LEN -> blen kem_pk = BM_PQV5_KEM_PK_LEN -> is_u64 trials -> is_u64 extra ->
  exists db', bm_pq_pubkey_cache_store_sender db version stream id bitfield sig_pk kem_pk trials extra now = Ok db'
    /\ bm_pq_pubkey_cache_lookup db' version stream id
       = Ok {| pp_address_version := version; pp_stream := stream; pp_bitfield := bitfield; pp_sig_pk := sig_pk;
               pp_kem_pk := kem_pk; pp_nonce_trials_per_byte := trials; pp_payload_length_extra_bytes := extra |}
    /\ bm_pq_pubkey_cache_find_request db' (v5_tag version stream id) = Err
    /\ (forall tag, tag <> v5_tag version stream id ->
          bm_pq_pubkey_cache_find_request db' tag = bm_pq_pubkey_cache_find_request db tag)
    /\ (forall v s i, blen i = BM_PQV5_ID_LEN -> v5_tag v s i <> v5_tag version stream id ->
          bm_pq_pubkey_cache_lookup db' v s i = bm_pq_pubkey_cache_lookup db v s i)
    /\ pq_identities db' = pq_identities db.
Proof.
  intros Hi Hb H1 H2 Ht He. unfold bm_pq_pubkey_cache_store_sender, bm_pq_pubkey_cache_upsert.
  rewrite (rdn_all sig_pk), (rdn_all kem_pk), !bind_ok by done. cbn [pp_address_version pp_stream pp_sig_pk pp_kem_pk].
  rewrite derive_v5_eq, bind_ok by done.
  rewrite (rdn_all id), (rdn_all sig_pk), (rdn_all kem_pk), !bind_ok by done.
  set (tag := v5_tag version stream id). eexists. split; [reflexivity|].
  assert (Hf : forall t', bm_pq_pubkey_cache_find_request (bm_pq_pubkey_cache_clear_request db tag) t'
                 = if decide (t' = tag) then Err else bm_pq_pubkey_cache_find_request db t').
  { intros t'. unfold bm_pq_pubkey_cache_find_request, bm_pq_pubkey_cache_clear_request. simpl pq_pubkey_requests.
    rewrite lookup_delete_where. case_decide as Hd.
    - subst t'. rewrite list_eqb_refl. by destruct (_ !! tag).
    - destruct (list_eqb t' tag) eqn:E; [by apply list_eqb_eq in E|]. by destruct (_ !! t'). }
  split_and!.
  - unfold bm_pq_pubkey_cache_lookup. rewrite derive_v5_eq, bind_ok by done. fold tag. simpl pq_pubkey_cache.
    rewrite lookup_insert_eq. simpl. rewrite H1, H2, !u64_s64, u32_small by done. done.
  - etransitivity; [apply Hf|]. by rewrite decide_True.
  - intros t' Hn. etransitivity; [apply Hf|]. by rewrite decide_False.
  - intros v s i Hi' Hn. unfold bm_pq_pubkey_cache_lookup. rewrite derive_v5_eq, !bind_ok by done.
    simpl pq_pubkey_cache. by rewrite lookup_insert_ne.
  - done.
Qed.

Lemma recorded_row db tag id v s requested :
  (forall r, pq_pubkey_requests db !! tag = Some r -> qr_id r = id /\ qr_address_version r = v /\ qr_stream r = s) ->
  exists r, upsert (pq_pubkey_requests db) tag
      {| qr_id := id; qr_address_version := v; qr_stream := s; qr_requested_time := requested |}
      (fun old => old <| qr_requested_time := requested |>) !! tag = Some r
    /\ qr_id r = id /\ qr_address_version r = v /\ qr_stream r = s /\ qr_requested_time r = requested.
Proof.
  intros Ho. rewrite lookup_upsert, decide_True by done.
  destruct (pq_pubkey_requests db !! tag) as [r|]; eexists; (split; [reflexivity|]); [|done].
  simpl. by destruct (Ho r eq_refl) as (? & ? & ?).
Qed.

(** Asking for a key: the request is on record until it is answered, a second one only moves
    its time, and it counts as recent as long as it is younger than the limit. *)
Theorem pq_request_recorded db (version stream : Z) (id : list Z) (requested now max_age : Z) :
  is_u64 version -> is_u64 stream -> blen id = BM_PQV5_ID_LEN -> - 2 ^ 63 <= now - requested < 2 ^ 63 ->
  (forall r, pq_pubkey_requests db !! v5_tag version stream id = Some r ->
     qr_id r = id /\ qr_address_version r = s64 version /\ qr_stream r = s64 stream) ->
  exists db', bm_pq_pubkey_cache_record_request db version stream id requested = Ok db'
    /\ bm_pq_pubkey_cache_find_request db' (v5_tag version stream id) = Ok (version, stream, id)
    /\ bm_pq_pubkey_cache_has_recent_request db' (v5_tag version stream id) now max_age
       = Ok (now - requested <? max_age)
    /\ bm_pq_pubkey_cache_has_recent_request
         (bm_pq_pubkey_cache_clear_request db' (v5_tag version stream id)) (v5_tag version stream id) now max_age
       = Ok false.
Proof.
  intros Hv Hs Hi Hn Ho. unfold bm_pq_pubkey_cache_record_request. rewrite derive_v5_eq, bind_ok by done.
  rewrite (rdn_all id), !bind_ok by done.
  set (tag := v5_tag version stream id) in *. eexists. split; [reflexivity|].
  unfold bm_pq_pubkey_cache_find_request, bm_pq_pubkey_cache_has_recent_request, bm_pq_pubkey_cache_clear_request.
  simpl pq_pubkey_requests. rewrite lookup_delete_where.
  destruct (recorded_row db tag id (s64 version) (s64 stream) requested) as (r & -> & E1 & E2 & E3 & E4); [done|]. rewrite E1, E2, E3, E4, Hi, Z.eqb_refl, !u64_s64 by done.
  rewrite int64_ok, bind_ok by done. split_and!; [done|done|].
  simpl. by rewrite list_eqb_refl.
Qed.
End PqStoreProperties.

Lemma pq_created_leb_total a b : pq_created_leb a b = true \/ pq_created_leb b a = true.
Proof.
  unfold pq_created_leb. pose proof (text_leb_total a.1 b.1).
  destruct (Z.ltb_spec (pr_created_time a.2) (pr_created_time b.2)); [by left|].
  destruct (Z.ltb_spec (pr_created_time b.2) (pr_created_time a.2)); [by right|].
  replace (pr_created_time b.2) with (pr_created_time a.2) by lia. rewrite Z.eqb_refl. done.
Qed.

(** The list of identities has each of them once, the oldest first. *)
Theorem pq_identity_list_all db :
  exists rows, bm_pq_identity_store_list db = map read_pq_summary rows
    /\ Sorted (fun a b => pq_created_leb a b = true) rows /\ NoDup rows
    /\ forall a r, (a, r) ∈ rows <-> pq_identities db !! a = Some r.
Proof.
  eexists. split; [reflexivity|]. split_and!.
  - apply order_by_sorted. intros x y _ _. apply pq_created_leb_total.
  - rewrite order_by_perm. apply NoDup_select_where.
  - intros a r. rewrite order_by_perm, elem_of_select_where. naive_solver.
Qed.
