(* ===== verification/PqKeyring.v ===== *)
(** * The keyring of post-quantum identities (core/pq_keyring.c)

    The list of unlocked identities of version 5.  Only the two seeds of an identity are
    stored, wrapped; the private keys are made from them when they are first needed, outside
    the lock, and then kept with the entry.

    The list is guarded by the reader-writer lock of the keyring: what happens under the lock
    is one step.  A function that gives the lock back and takes it again has what other threads
    do in between as an argument.  Random bytes and the time are arguments.  Clearing of key
    memory is not represented. *)

From Stdlib Require Import String.
From stdpp Require Import base tactics numbers option gmap list relations.
From S2P Require Import Prelude Varint Base58 Openssl Hash Address PqHybrid AddressV5 PqObject Sql IdentityStore Keyring PqStores.

#[local] Arguments be_split : simpl never.

Record bm_unlocked_pq_identity := {
  q_address : list Z;
  q_address_version : Z;
  q_stream : Z;
  q_id : list Z;
  q_tag : list Z;
  q_sig_pk : list Z;
  q_kem_pk : list Z;
  q_seeds : bm_pqv5_seeds;
  q_expanded : bool;
  q_sig_sk : list Z;
  q_kem_sk : list Z;
  q_nonce_trials_per_byte : Z;
  q_payload_length_extra_bytes : Z;
  q_unlocked_at : Z
}.
#[export] Instance bm_unlocked_pq_identity_eta : RecordEta bm_unlocked_pq_identity := fun q =>
  Build_bm_unlocked_pq_identity (q_address q) (q_address_version q) (q_stream q) (q_id q) (q_tag q) (q_sig_pk q)
    (q_kem_pk q) (q_seeds q) (q_expanded q) (q_sig_sk q) (q_kem_sk q) (q_nonce_trials_per_byte q)
    (q_payload_length_extra_bytes q) (q_unlocked_at q).

Record bm_pq_identity_public := {
  pu_address : list Z;
  pu_address_version : Z;
  pu_stream : Z;
  pu_id : list Z;
  pu_tag : list Z;
  pu_sig_pk : list Z;
  pu_kem_pk : list Z;
  pu_nonce_trials_per_byte : Z;
  pu_payload_length_extra_bytes : Z
}.

(** The list from [pq_head]. *)
Abbreviation pq_keyring := (list bm_unlocked_pq_identity).

(** What other threads do to the list while the lock is free. *)
Abbreviation interference := (pq_keyring -> pq_keyring) (only parsing).

Fixpoint find_pq_entry (p : bm_unlocked_pq_identity -> bool) (kr : pq_keyring) : option bm_unlocked_pq_identity :=
  match kr with
  | [] => None
  | cur :: kr => if p cur then Some cur else find_pq_entry p kr
  end.

Definition find_locked (kr : pq_keyring) (address : list Z) : option bm_unlocked_pq_identity :=
  find_pq_entry (fun cur => same_address (q_address cur) address) kr.

Definition copy_public (src : bm_unlocked_pq_identity) : bm_pq_identity_public := {|
  pu_address := q_address src; pu_address_version := q_address_version src; pu_stream := q_stream src;
  pu_id := q_id src; pu_tag := q_tag src; pu_sig_pk := q_sig_pk src; pu_kem_pk := q_kem_pk src;
  pu_nonce_trials_per_byte := q_nonce_trials_per_byte src;
  pu_payload_length_extra_bytes := q_payload_length_extra_bytes src |}.

Definition bm_pq_keyring_find_by_address (kr : pq_keyring) (address : list Z) : option bm_pq_identity_public :=
  copy_public <$> find_locked kr address.

Definition bm_pq_keyring_find_by_tag (kr : pq_keyring) (tag : list Z) : option bm_pq_identity_public :=
  copy_public <$> find_pq_entry (fun cur => list_eqb (q_tag cur) tag) kr.

Definition bm_pq_keyring_clear_locked (kr : pq_keyring) : pq_keyring := [].

(** Whether an entry was removed. *)
Fixpoint bm_pq_keyring_remove_locked (kr : pq_keyring) (address : list Z) : bool * pq_keyring :=
  match kr with
  | [] => (false, [])
  | cur :: kr =>
      if same_address (q_address cur) address then (true, kr)
      else let '(found, kr) := bm_pq_keyring_remove_locked kr address in (found, cur :: kr)
  end.

(** Replaces the entry that [find_locked] finds. *)
Fixpoint update_entry (kr : pq_keyring) (address : list Z) (entry : bm_unlocked_pq_identity) : pq_keyring :=
  match kr with
  | [] => []
  | cur :: kr => if same_address (q_address cur) address then entry :: kr else cur :: update_entry kr address entry
  end.

Section PqKeyring.
Context `{OS : OpenSSL} `{OSV : OpenSSLVault} `{PQ : PqOpenSSL} `{BN : BigNum}.

(** The random bytes of a new row: the salt of its key and the nonce of the wrapping. *)
Record seeds_random := { sd_salt : list Z; sd_nonce : list Z }.

(** The bytes of the struct, in which the seeds follow each other. *)
Definition seeds_bytes (seeds : bm_pqv5_seeds) : cres (list Z) :=
  sig_seed ← rdn (sig_seed seeds) 0 BM_PQV5_SEED_LEN;
  kem_seed ← rdn (kem_seed seeds) 0 BM_PQV5_SEED_LEN;
  Ok (sig_seed ++ kem_seed).

Definition seeds_of_bytes (b : list Z) : cres bm_pqv5_seeds :=
  sig_seed ← rdn b 0 BM_PQV5_SEED_LEN;
  kem_seed ← rdn b BM_PQV5_SEED_LEN BM_PQV5_SEED_LEN;
  Ok {| sig_seed := sig_seed; kem_seed := kem_seed |}.

(** The address and the changed database. *)
Definition bm_pq_keyring_create_identity (db : pq_db) (identity : bm_pqv5_identity) (label : option (list Z))
  (passphrase : list Z) (nonce_trials_per_byte payload_length_extra_bytes : Z) (rnd : seeds_random) (now : Z)
  : cres (list Z * pq_db) :=
  address ← bm_pqv5_address_encode (pi_version identity) (pi_stream identity) (pi_id identity);
  if blen address >=? BM_IDENTITY_ADDRESS_MAX then Err else
  id ← rdn (pi_id identity) 0 BM_PQV5_ID_LEN;
  sig_pk ← rdn (pi_sig_pk identity) 0 BM_PQV5_SIG_PK_LEN;
  kem_pk ← rdn (pi_kem_pk identity) 0 BM_PQV5_KEM_PK_LEN;
  '(kdf_params, kek) ← bm_keyring_internal_new_scrypt_kek passphrase (sd_salt rnd);
  seeds ← seeds_bytes (pi_seeds identity);
  wrapped_seeds ← bm_keyring_internal_wrap kek address seeds (sd_nonce rnd);
  db ← bm_pq_identity_store_insert db
         {| pr_address := text_field BM_IDENTITY_ADDRESS_MAX address;
            pr_label := text_field BM_IDENTITY_LABEL_MAX (default [] label);
            pr_enabled := 1;
            pr_address_version := pi_version identity; pr_stream := pi_stream identity;
            pr_id := id; pr_sig_pk := sig_pk; pr_kem_pk := kem_pk;
            pr_kdf_algo := text_field BM_IDENTITY_KDF_ALGO_MAX SCRYPT;
            pr_kdf_salt := sd_salt rnd; pr_kdf_params := kdf_params; pr_wrapped_seeds := wrapped_seeds;
            pr_nonce_trials_per_byte := nonce_trials_per_byte;
            pr_payload_length_extra_bytes := payload_length_extra_bytes; pr_created_time := now |};
  Ok (text_field BM_KEYRING_MAX_ADDRESS_LEN address, db).

Definition row_is_consistent (row : bm_pq_identity_row) : cres bool :=
  match bm_pqv5_address_decode (pr_address row) with
  | Err => Ok false
  | Ub => Ub
  | Ok (version, stream, addr_id) =>
      calc_id ← bm_pqv5_calc_id (pr_sig_pk row) (pr_kem_pk row);
      Ok ((version =? pr_address_version row) && (stream =? pr_stream row)
          && list_eqb addr_id (pr_id row) && list_eqb calc_id (pr_id row))
  end.

(** [bm_pq_keyring_unlock] up to the lock: the entry made of the stored row.  [vault] holds
    the other tables of the same database. *)
Definition unlocked_entry (vault : identity_db) (db : pq_db) (address passphrase : list Z) (now : Z)
  : cres bm_unlocked_pq_identity :=
  row ← bm_pq_identity_store_load db address;
  consistent ← row_is_consistent row;
  if negb consistent then Err else
  kek ← bm_keyring_internal_resolve_kek vault (pr_kdf_algo row) (pr_kdf_salt row) (pr_kdf_params row)
          (pr_address row) passphrase;
  plaintext ← bm_keyring_internal_unwrap kek (pr_address row) (pr_wrapped_seeds row);
  seeds ← seeds_of_bytes plaintext;
  '(_, tag) ← bm_pqv5_derive_secret_and_tag (pr_address_version row) (pr_stream row) (pr_id row);
  Ok {| q_address := text_field BM_KEYRING_MAX_ADDRESS_LEN (pr_address row);
        q_address_version := pr_address_version row; q_stream := pr_stream row; q_id := pr_id row;
        q_tag := tag; q_sig_pk := pr_sig_pk row; q_kem_pk := pr_kem_pk row; q_seeds := seeds;
        q_expanded := false; q_sig_sk := replicate 4064 0; q_kem_sk := replicate 2432 0;
        q_nonce_trials_per_byte := pr_nonce_trials_per_byte row;
        q_payload_length_extra_bytes := pr_payload_length_extra_bytes row; q_unlocked_at := now |}.

(** Its critical section: an identity that is unlocked already stays as it is. *)
Definition add_entry (kr : pq_keyring) (entry : bm_unlocked_pq_identity) : pq_keyring :=
  match find_locked kr (q_address entry) with
  | None => entry :: kr
  | Some _ => kr
  end.

Definition bm_pq_keyring_unlock (kr : pq_keyring) (vault : identity_db) (db : pq_db) (address passphrase : list Z)
  (now : Z) : cres pq_keyring :=
  entry ← unlocked_entry vault db address passphrase now;
  Ok (add_entry kr entry).

(** The second critical section of [bm_pq_keyring_get_secret_keys]: the keys, and the list in
    which they are kept. *)
Definition keep_keys (kr : pq_keyring) (address : list Z) (expanded : bm_pqv5_identity)
  : option (list Z * list Z) * pq_keyring :=
  match find_locked kr address with
  | None => (None, kr)
  | Some cur =>
      if list_eqb (pi_sig_pk expanded) (q_sig_pk cur) && list_eqb (pi_kem_pk expanded) (q_kem_pk cur) then
        if q_expanded cur then (Some (q_sig_sk cur, q_kem_sk cur), kr)
        else
          let cur := cur <| q_sig_sk := pi_sig_sk expanded |> <| q_kem_sk := pi_kem_sk expanded |>
                         <| q_expanded := true |> in
          (Some (q_sig_sk cur, q_kem_sk cur), update_entry kr address cur)
      else (None, kr)
  end.

(** The private keys, unless it fails, and the list. *)
Definition bm_pq_keyring_get_secret_keys (kr : pq_keyring) (address : list Z) (meanwhile : interference)
  : cres (option (list Z * list Z) * pq_keyring) :=
  match find_locked kr address with
  | None => Ok (None, kr)
  | Some cur =>
      if q_expanded cur then Ok (Some (q_sig_sk cur, q_kem_sk cur), kr) else
      match bm_pqv5_identity_from_seeds (q_stream cur) (sig_seed (q_seeds cur)) (kem_seed (q_seeds cur)) with
      | Err => Ok (None, meanwhile kr)
      | Ub => Ub
      | Ok expanded => Ok (keep_keys (meanwhile kr) address expanded)
      end
  end.

(** [address == NULL], or the same address. *)
Definition selected (address : option (list Z)) (cur : bm_unlocked_pq_identity) : bool :=
  match address with None => true | Some a => same_address (q_address cur) a end.

(** The addresses that [expand_pending] copies under the lock. *)
Definition pending_addresses (kr : pq_keyring) (address : option (list Z)) : list (list Z) :=
  map q_address (filter (fun cur => negb (q_expanded cur) && selected address cur = true) kr).

(** Its loop; other threads have two occasions in each turn. *)
Fixpoint expand_loop (kr : pq_keyring) (addresses : list (list Z)) (meanwhile : nat -> interference) (i : nat)
  : cres pq_keyring :=
  match addresses with
  | [] => Ok kr
  | a :: addresses =>
      '(_, kr) ← bm_pq_keyring_get_secret_keys (meanwhile i kr) a (meanwhile (S i));
      expand_loop kr addresses meanwhile (S (S i))
  end.

Definition expand_pending (kr : pq_keyring) (address : option (list Z)) (meanwhile : nat -> interference)
  : cres pq_keyring :=
  expand_loop kr (pending_addresses kr address) meanwhile 0.

(** The search of [bm_pq_keyring_open_msg], under the lock. *)
Fixpoint open_loop (kr : pq_keyring) (address : option (list Z)) (object : list Z)
  : cres (option (bm_pq_msg_parsed * list Z)) :=
  match kr with
  | [] => Ok None
  | cur :: kr =>
      if negb (q_expanded cur) || negb (selected address cur) then open_loop kr address object else
      match bm_pq_parse_msg object (q_kem_sk cur) with
      | Err => open_loop kr address object
      | Ub => Ub
      | Ok out =>
          if negb (pm_from_address_version out =? BM_PQV5_ADDRESS_VERSION) || negb (list_eqb (pm_to_id out) (q_id cur))
          then open_loop kr address object
          else Ok (Some (out, q_address cur))
      end
  end.

(** The message and the address it is for, if it could be opened; [meanwhile 0] is what happens
    between the two parts. *)
Definition bm_pq_keyring_open_msg (kr : pq_keyring) (address : option (list Z)) (object : list Z)
  (meanwhile : nat -> interference) : cres (option (bm_pq_msg_parsed * list Z) * pq_keyring) :=
  kr ← expand_pending kr address (fun i => meanwhile (S i));
  let kr := meanwhile 0%nat kr in
  r ← open_loop kr address object;
  Ok (r, kr).

End PqKeyring.

(** ** The list *)

Lemma find_pq_Some p kr e : find_pq_entry p kr = Some e -> e ∈ kr /\ p e = true.
Proof.
  induction kr as [|c kr IH]; [done|]. cbn. destruct (p c) eqn:Ep.
  - intros [= ->]. split; [by left|done].
  - intros [? ?]%IH. split; [by right|done].
Qed.

Lemma find_locked_same kr a b : same_address a b = true -> find_locked kr a = find_locked kr b.
Proof.
  intros Hab. unfold find_locked. induction kr as [|c kr IH]; [done|]. cbn.
  replace (same_address (q_address c) a) with (same_address (q_address c) b); [by rewrite IH|].
  unfold same_address in *. apply list_eqb_eq in Hab. by rewrite Hab.
Qed.

Lemma find_pq_None p kr e : find_pq_entry p kr = None -> e ∈ kr -> p e = false.
Proof.
  induction kr as [|c kr IH]; [by intros _ ?%elem_of_nil|]. cbn. destruct (p c) eqn:Ep; [done|].
  intros Hn [->|Hin]%elem_of_cons; auto.
Qed.

Lemma update_entry_In kr a e x : x ∈ update_entry kr a e -> x = e \/ x ∈ kr.
Proof.
  induction kr as [|c kr IH]; cbn; [by intros ?%elem_of_nil|]. destruct (same_address _ _).
  - intros [->|H]%elem_of_cons; [by left|]. right. by right.
  - intros [->|H]%elem_of_cons; [right; by left|]. apply IH in H as [->|H]; [by left|]. right. by right.
Qed.

Lemma update_entry_addresses kr a e e0 :
  find_locked kr a = Some e0 -> q_address e = q_address e0 -> map q_address (update_entry kr a e) = map q_address kr.
Proof.
  unfold find_locked. induction kr as [|c kr IH]; cbn; [done|]. destruct (same_address _ _).
  - intros [= ->] He. cbn. by rewrite He.
  - intros Hf He. cbn. by rewrite IH.
Qed.

Lemma find_update kr a e e0 :
  find_locked kr a = Some e0 -> q_address e = q_address e0 -> find_locked (update_entry kr a e) a = Some e.
Proof.
  unfold find_locked. induction kr as [|c kr IH]; cbn; [done|]. destruct (same_address (q_address c) a) eqn:Ec.
  - intros [= ->] He. cbn. by rewrite He, Ec.
  - intros Hf He. cbn. rewrite Ec. by apply IH.
Qed.

Lemma remove_In kr a x : x ∈ (bm_pq_keyring_remove_locked kr a).2 -> x ∈ kr.
Proof.
  induction kr as [|c kr IH]; cbn; [done|]. destruct (same_address _ _); [by right|].
  destruct (bm_pq_keyring_remove_locked kr a) as [f kr']. cbn in *.
  intros [->|H]%elem_of_cons; [by left|right; auto].
Qed.

Lemma remove_sublist kr a : (bm_pq_keyring_remove_locked kr a).2 `sublist_of` kr.
Proof.
  induction kr as [|c kr IH]; cbn; [done|]. destruct (same_address _ _); [by constructor|].
  destruct (bm_pq_keyring_remove_locked kr a) as [f kr']. cbn in *. by constructor.
Qed.

(** ** What an entry promises *)

Section PqKeyringLemmas.
Context `{OSL : OpenSSLLaws} `{OSVL : OpenSSLVaultLaws} `{PQL : PqOpenSSLLaws} `{BNL : BigNumLaws}.

(** The address of the entry names its public keys; the private keys, once they are there,
    belong to them. *)
Definition pq_entry_ok (e : bm_unlocked_pq_identity) : Prop :=
  bm_pqv5_address_decode (q_address e) = Ok (BM_PQV5_ADDRESS_VERSION, q_stream e, q_id e)
  /\ (q_address_version e = BM_PQV5_ADDRESS_VERSION
      /\ is_u64 (q_nonce_trials_per_byte e) /\ is_u64 (q_payload_length_extra_bytes e))
  /\ q_id e = SHA3_256 (q_sig_pk e ++ q_kem_pk e)
  /\ q_tag e = v5_tag BM_PQV5_ADDRESS_VERSION (q_stream e) (q_id e)
  /\ blen (q_address e) < BM_KEYRING_MAX_ADDRESS_LEN
  /\ blen (sig_seed (q_seeds e)) = BM_PQV5_SEED_LEN /\ blen (kem_seed (q_seeds e)) = BM_PQV5_SEED_LEN
  /\ (q_expanded e = true -> exists i, made_from_seeds i /\ pi_sig_pk i = q_sig_pk e /\ pi_kem_pk i = q_kem_pk e
        /\ pi_sig_sk i = q_sig_sk e /\ pi_kem_sk i = q_kem_sk e).

(** Every entry is sound, and no address is unlocked twice. *)
Definition ring_ok (kr : pq_keyring) : Prop := Forall pq_entry_ok kr /\ NoDup (map q_address kr).

(** The critical sections that change the list. *)
Inductive ring_step (kr : pq_keyring) : pq_keyring -> Prop :=
| step_unlock vault db address passphrase now entry :
    unlocked_entry vault db address passphrase now = Ok entry -> ring_step kr (add_entry kr entry)
| step_keep_keys address stream ss ks expanded :
    bm_pqv5_identity_from_seeds stream ss ks = Ok expanded -> ring_step kr (keep_keys kr address expanded).2
| step_remove address : ring_step kr (bm_pq_keyring_remove_locked kr address).2
| step_clear : ring_step kr (bm_pq_keyring_clear_locked kr).

(** Other threads run these sections only. *)
Definition other_threads (f : pq_keyring -> pq_keyring) : Prop := forall kr, rtc ring_step kr (f kr).

Lemma seeds_of_bytes_ok b seeds :
  seeds_of_bytes b = Ok seeds ->
  blen (sig_seed seeds) = BM_PQV5_SEED_LEN /\ blen (kem_seed seeds) = BM_PQV5_SEED_LEN.
Proof.
  unfold seeds_of_bytes. intros E. inv_bind E. inv_bind E. apply ok_inj in E as <-.
  apply rdn_ok_inv in E0 as (-> & _ & _ & ?), E1 as (-> & _ & _ & ?). unfold BM_PQV5_SEED_LEN in *.
  by split; apply blen_slice.
Qed.

Lemma row_consistent_ok row :
  blen (pr_id row) = BM_PQV5_ID_LEN -> blen (pr_sig_pk row) = BM_PQV5_SIG_PK_LEN ->
  blen (pr_kem_pk row) = BM_PQV5_KEM_PK_LEN -> row_is_consistent row = Ok true ->
  bm_pqv5_address_decode (pr_address row) = Ok (BM_PQV5_ADDRESS_VERSION, pr_stream row, pr_id row)
  /\ pr_address_version row = BM_PQV5_ADDRESS_VERSION
  /\ pr_id row = SHA3_256 (pr_sig_pk row ++ pr_kem_pk row).
Proof.
  intros L1 L2 L3. unfold row_is_consistent. destruct (bm_pqv5_address_decode_sound (pr_address row)) as [_ Hs].
  destruct (bm_pqv5_address_decode _) as [[[v s] aid]| |]; [|done|done].
  rewrite calc_id_eq, bind_ok by done. intros [= E]. destruct (Hs v s aid eq_refl) as (-> & _).
  repeat match goal with H : (_ && _)%bool = true |- _ => apply andb_prop in H as [H ?] end.
  repeat match goal with H : (_ =? _) = true |- _ => apply Z.eqb_eq in H
         | H : list_eqb _ _ = true |- _ => apply list_eqb_eq in H end. by subst.
Qed.

Lemma unlocked_entry_ok vault db address passphrase now e :
  unlocked_entry vault db address passphrase now = Ok e -> pq_entry_ok e /\ q_expanded e = false.
Proof.
  unfold unlocked_entry. intros E. apply bind_ok_inv in E as (row & El & E).
  apply pq_load_sized in El as ((L1 & _ & _ & _ & L2 & L3 & L4 & _ & _ & _ & _ & U1 & U2) & _).
  apply bind_ok_inv in E as ([] & Ec & E); cbn [negb] in E; [|done]. inv_bind E. inv_bind E.
  apply bind_ok_inv in E as (seeds & Es & E). apply seeds_of_bytes_ok in Es as [S1 S2].
  rewrite derive_v5_eq, bind_ok in E by done. apply ok_inj in E as <-.
  destruct (row_consistent_ok row L2 L3 L4 Ec) as (D1 & D2 & D3).
  split; [|done]. unfold pq_entry_ok. cbn. rewrite text_field_short by done. by rewrite D2.
Qed.

(** Unlocking reads what is stored, at its length. *)
Lemma kek_not_ub vault algo salt params address passphrase :
  bm_keyring_internal_resolve_kek vault algo salt params address passphrase <> Ub.
Proof.
  unfold bm_keyring_internal_resolve_kek. destruct (list_eqb _ _).
  - pose proof (vault_master_kek_not_ub vault passphrase). destruct (vault_master_kek vault passphrase); cbn_bind; [|done|done].
    apply or_err_not_ub.
  - pose proof (parse_kdf_params_not_ub params). destruct (parse_kdf_params _) as [[[n r] p]| |]; cbn_bind; [|done|done].
    apply or_err_not_ub.
Qed.

Lemma unwrap_length kek aad wrapped p :
  bm_keyring_internal_unwrap kek aad wrapped = Ok p -> blen p = blen wrapped - BM_KEYRING_WRAP_OVERHEAD.
Proof.
  unfold bm_keyring_internal_unwrap, BM_KEYRING_WRAP_OVERHEAD. destruct (Z.ltb_spec (blen wrapped) 28); [done|].
  intros E%or_err_ok. apply GCM_authentic, GCM_lengths in E as [E _]. rewrite <- E, blen_slice; lia.
Qed.

Lemma unlocked_entry_not_ub vault db address passphrase now : unlocked_entry vault db address passphrase now <> Ub.
Proof.
  unfold unlocked_entry. apply safe_bind; [apply pq_load_not_ub|]. intros row El.
  apply pq_load_sized in El as ((_ & _ & _ & _ & L2 & L3 & L4 & _ & L5 & U1 & U2 & _) & _).
  apply safe_bind; [|intros [] _; cbn [negb]; [|done]].
  { unfold row_is_consistent. pose proof (proj1 (bm_pqv5_address_decode_sound (pr_address row))).
    destruct (bm_pqv5_address_decode _) as [[[v s] i]| |]; [|done|done]. by rewrite calc_id_eq, bind_ok. }
  apply safe_bind; [apply kek_not_ub|]. intros kek _. apply safe_bind; [apply unwrap_not_ub|].
  intros plain Hp%unwrap_length. rewrite L5 in Hp. change (blen plain = 64) in Hp.
  unfold seeds_of_bytes, BM_PQV5_SEED_LEN. rewrite !rdn_ok, !bind_ok by lia. by rewrite derive_v5_eq, bind_ok.
Qed.

Lemma restored_made stream ss ks i :
  bm_pqv5_identity_from_seeds stream ss ks = Ok i -> made_from_seeds i.
Proof. intros E. by apply keys_from_seeds_ok in E as (? & _). Qed.

(** What the second critical section does when it succeeds. *)
Lemma keep_keys_ok kr a i :
  ring_ok kr -> made_from_seeds i -> ring_ok (keep_keys kr a i).2.
Proof.
  intros [Hf Hn] Hm. unfold keep_keys. destruct (find_locked kr a) as [cur|] eqn:Ef; [|done].
  destruct (list_eqb (pi_sig_pk i) _) eqn:E1; [|done]. destruct (list_eqb (pi_kem_pk i) _) eqn:E2; [|done].
  apply list_eqb_eq in E1, E2. destruct (q_expanded cur); [done|]. cbn [andb snd].
  set (e := (((cur <| q_sig_sk := _ |>) <| q_kem_sk := _ |>) <| q_expanded := true |>)).
  assert (Hcur : pq_entry_ok cur).
  { apply find_pq_Some in Ef as [Hin _]. rewrite Forall_forall in Hf. by apply Hf. }
  split.
  - apply Forall_forall. intros x [->|Hx]%update_entry_In; [|rewrite Forall_forall in Hf; by apply Hf].
    destruct Hcur as (C1 & (C2 & C2t & C2x) & C3 & C4 & C5 & C6 & C7 & _). unfold pq_entry_ok. cbn. split_and!; try done.
    intros _. by exists i.
  - by rewrite (update_entry_addresses kr a e cur).
Qed.

Lemma ring_step_ok kr kr' : ring_step kr kr' -> ring_ok kr -> ring_ok kr'.
Proof.
  intros [vault db a p now e E|a s ss ks i E|a|] [Hf Hn].
  - apply unlocked_entry_ok in E as [He _]. unfold add_entry. destruct (find_locked kr (q_address e)) eqn:Ef; [done|].
    split; [by constructor|]. cbn. constructor; [|done]. intros (x & Hx & Hin)%list_elem_of_fmap.
    apply (find_pq_None _ _ x) in Ef; [|done]. cbv beta in Ef. by rewrite Hx, same_address_refl in Ef.
  - apply keep_keys_ok; [done|]. by apply restored_made in E.
  - split.
    + apply Forall_forall. intros x Hx%remove_In. rewrite Forall_forall in Hf. by apply Hf.
    + eapply sublist_NoDup; [exact Hn|]. apply (fmap_sublist q_address), remove_sublist.
  - split; [by constructor|by apply NoDup_nil].
Qed.
Lemma from_seeds_not_ub stream ss ks :
  blen ss = BM_PQV5_SEED_LEN -> blen ks = BM_PQV5_SEED_LEN -> bm_pqv5_identity_from_seeds stream ss ks <> Ub.
Proof.
  intros Ls Lk. unfold bm_pqv5_identity_from_seeds, keys_from_seeds, set_sig_keys, set_kem_keys, set_id.
  cbn [pi_seeds new_identity sig_seed].
  pose proof (sig_keypair_not_ub ss Ls) as N1. pose proof (kem_keypair_not_ub ks Lk) as N2.
  destruct (bm_pqv5_sig_keypair_from_seed ss) as [[spk ssk]| |] eqn:Es; [|done|done].
  apply sig_keypair_parts in Es as (xi & p1 & s1 & p2 & s2 & -> & _ & ? & _ & ? & _).
  cbn. destruct (bm_pqv5_kem_keypair_from_seed ks) as [[kpk ksk]| |] eqn:Ek; [|done|done].
  apply kem_keypair_parts in Ek as (c & q1 & t1 & q2 & t2 & -> & _ & ? & _ & ? & _).
  cbn. by rewrite calc_id_eq by (rewrite blen_app; unfold BM_PQV5_SIG_PK_LEN, BM_PQV5_KEM_PK_LEN; lia).
Qed.

Lemma ring_steps_ok kr kr' : rtc ring_step kr kr' -> ring_ok kr -> ring_ok kr'.
Proof. induction 1; [done|]. intros. by eauto using ring_step_ok. Qed.

Lemma ring_entry_ok kr e : ring_ok kr -> e ∈ kr -> pq_entry_ok e.
Proof. intros [Hf _]. rewrite Forall_forall in Hf. apply Hf. Qed.

(** ** The functions as runs of the critical sections *)

Lemma get_keys_steps kr a m :
  ring_ok kr -> other_threads m ->
  exists r kr', bm_pq_keyring_get_secret_keys kr a m = Ok (r, kr') /\ rtc ring_step kr kr'.
Proof.
  intros Hr Hm. unfold bm_pq_keyring_get_secret_keys.
  destruct (find_locked kr a) as [cur|] eqn:Ef; [|by do 2 eexists].
  destruct (q_expanded cur); [by do 2 eexists|].
  apply find_pq_Some in Ef as [Hin _]. destruct (ring_entry_ok _ _ Hr Hin) as (_ & _ & _ & _ & _ & S1 & S2 & _).
  pose proof (from_seeds_not_ub (q_stream cur) _ _ S1 S2) as Hn.
  destruct (bm_pqv5_identity_from_seeds _ _ _) as [i| |] eqn:Ei; [| |done].
  - destruct (keep_keys (m kr) a i) as [r kr'] eqn:Ek. exists r, kr'. split; [done|].
    eapply rtc_r; [apply Hm|]. replace kr' with (keep_keys (m kr) a i).2 by (by rewrite Ek). by eapply step_keep_keys.
  - by exists None, (m kr).
Qed.

Lemma expand_loop_steps addresses : forall kr m i,
  ring_ok kr -> (forall j, other_threads (m j)) ->
  exists kr', expand_loop kr addresses m i = Ok kr' /\ rtc ring_step kr kr'.
Proof.
  induction addresses as [|a addresses IH]; intros kr m i Hr Hm; cbn [expand_loop]; [by exists kr|].
  pose proof (Hm i kr) as S1.
  destruct (get_keys_steps (m i kr) a (m (S i))) as (r & kr1 & -> & S2); [by eapply ring_steps_ok|done|].
  rewrite bind_ok. destruct (IH kr1 m (S (S i))) as (kr2 & -> & S3); [|done|].
  - by eapply ring_steps_ok, ring_steps_ok.
  - exists kr2. split; [done|]. by repeat (etransitivity; [eassumption|]).
Qed.

(** ** Opening messages *)

Lemma expanded_key e : pq_entry_ok e -> q_expanded e = true -> blen (q_kem_sk e) = BM_PQV5_KEM_SK_LEN.
Proof.
  intros (_ & _ & _ & _ & _ & _ & _ & He) (i & Hm & _ & _ & _ & <-)%He. by apply made_parts in Hm as (_ & _ & _ & ? & _).
Qed.

Lemma open_loop_spec kr address object :
  Forall pq_entry_ok kr -> bytes_ok object ->
  exists r, open_loop kr address object = Ok r
    /\ forall out a, r = Some (out, a) -> exists e, e ∈ kr /\ q_expanded e = true /\ selected address e = true
         /\ q_address e = a /\ bm_pq_parse_msg object (q_kem_sk e) = Ok out
         /\ pm_from_address_version out = BM_PQV5_ADDRESS_VERSION /\ pm_to_id out = q_id e.
Proof.
  intros Hf Hb. induction Hf as [|e kr He Hf IH]; cbn [open_loop]; [by eexists|].
  destruct IH as (r & -> & IH).
  assert (Hrest : exists r0, Ok r = Ok r0 /\ forall out a, r0 = Some (out, a) -> exists e0, e0 ∈ e :: kr
     /\ q_expanded e0 = true /\ selected address e0 = true /\ q_address e0 = a
     /\ bm_pq_parse_msg object (q_kem_sk e0) = Ok out
     /\ pm_from_address_version out = BM_PQV5_ADDRESS_VERSION /\ pm_to_id out = q_id e0).
  { exists r. split; [done|]. intros out a (e0 & Hin & He0)%IH. exists e0. split; [by right|done]. }
  destruct (q_expanded e) eqn:Ex; [|exact Hrest]. destruct (selected address e) eqn:Es; [|exact Hrest].
  cbn [negb orb].
  destruct (parse_msg_cases object (q_kem_sk e) Hb (expanded_key e He Ex))
    as [->|(plain & sealed & inner & fields & rb & _ & _ & _ & _ & _ & _ & _ & E)]; [exact Hrest|].
  rewrite E. set (out := fields <| pm_from_id := _ |>) in *.
  destruct (Z.eqb_spec (pm_from_address_version out) BM_PQV5_ADDRESS_VERSION); [|exact Hrest].
  destruct (list_eqb (pm_to_id out) (q_id e)) eqn:El; [|exact Hrest]. cbn [negb orb]. apply list_eqb_eq in El.
  eexists. split; [done|]. intros out' a [= <- <-]. exists e. split; [by left|done].
Qed.

(** A search for one address finds it in the entry of that address. *)
Lemma open_loop_single kr a e object out :
  find_locked kr a = Some e -> q_expanded e = true -> bm_pq_parse_msg object (q_kem_sk e) = Ok out ->
  pm_from_address_version out = BM_PQV5_ADDRESS_VERSION -> pm_to_id out = q_id e ->
  open_loop kr (Some a) object = Ok (Some (out, q_address e)).
Proof.
  intros Hf Hx Hp Hv Ht. unfold find_locked in Hf. induction kr as [|c kr IH]; [done|].
  cbn [find_pq_entry open_loop selected] in *. destruct (same_address (q_address c) a) eqn:Ea.
  - injection Hf as ->. by rewrite Hx, Hp, Hv, Ht, Z.eqb_refl, list_eqb_refl.
  - rewrite orb_true_r. by apply IH.
Qed.

Lemma open_msg_steps kr address object m :
  ring_ok kr -> bytes_ok object -> (forall j, other_threads (m j)) ->
  exists r kr', bm_pq_keyring_open_msg kr address object m = Ok (r, kr') /\ rtc ring_step kr kr'
    /\ open_loop kr' address object = Ok r.
Proof.
  intros Hr Hb Hm. unfold bm_pq_keyring_open_msg, expand_pending.
  destruct (expand_loop_steps (pending_addresses kr address) kr (fun i => m (S i)) 0 Hr) as (kr1 & -> & S1); [done|].
  rewrite bind_ok. pose proof (Hm 0%nat kr1) as S2. assert (S3 : rtc ring_step kr (m 0%nat kr1)) by (by etransitivity).
  destruct (ring_steps_ok _ _ S3 Hr) as [Hf _].
  destruct (open_loop_spec (m 0%nat kr1) address object Hf Hb) as (r & E & _). rewrite E, bind_ok. eauto.
Qed.

(** ** Expanding keys *)

(** The entry [e] with the private keys of [i]. *)
Definition with_keys (e : bm_unlocked_pq_identity) (i : bm_pqv5_identity) : bm_unlocked_pq_identity :=
  e <| q_sig_sk := pi_sig_sk i |> <| q_kem_sk := pi_kem_sk i |> <| q_expanded := true |>.

(** An entry whose seeds are those of [i] is expanded to the keys of [i], if other threads
    leave it alone. *)
Lemma get_keys_expands kr a e i m :
  find_locked kr a = Some e -> q_expanded e = false ->
  bm_pqv5_identity_from_seeds (q_stream e) (sig_seed (q_seeds e)) (kem_seed (q_seeds e)) = Ok i ->
  pi_sig_pk i = q_sig_pk e -> pi_kem_pk i = q_kem_pk e -> find_locked (m kr) a = find_locked kr a ->
  exists kr', bm_pq_keyring_get_secret_keys kr a m = Ok (Some (pi_sig_sk i, pi_kem_sk i), kr')
    /\ find_locked kr' a = Some (with_keys e i).
Proof.
  intros Hf Hx Hi Hs Hk Hm. unfold bm_pq_keyring_get_secret_keys. rewrite Hf, Hx, Hi.
  unfold keep_keys. rewrite Hm, Hf, Hs, Hk, !list_eqb_refl, Hx. cbn [andb].
  eexists. split; [reflexivity|]. apply (find_update (m kr) a (with_keys e i) e); [by rewrite Hm|done].
Qed.

Lemma get_keys_expanded kr a e m :
  find_locked kr a = Some e -> q_expanded e = true ->
  bm_pq_keyring_get_secret_keys kr a m = Ok (Some (q_sig_sk e, q_kem_sk e), kr).
Proof. intros Hf Hx. unfold bm_pq_keyring_get_secret_keys. by rewrite Hf, Hx. Qed.

Definition leaves_alone (a : list Z) (f : pq_keyring -> pq_keyring) : Prop :=
  forall kr, find_locked (f kr) a = find_locked kr a.

Lemma get_keys_find_same kr a b m :
  same_address b a = true ->
  bm_pq_keyring_get_secret_keys kr b m = bm_pq_keyring_get_secret_keys kr a m.
Proof.
  intros Hs. unfold bm_pq_keyring_get_secret_keys, keep_keys. rewrite !(find_locked_same _ _ _ Hs).
  assert (Hu : forall kr e, update_entry kr b e = update_entry kr a e).
  { clear -Hs. intros kr e. induction kr as [|c kr IH]; [done|]. cbn.
    replace (same_address (q_address c) b) with (same_address (q_address c) a); [by rewrite IH|].
    unfold same_address in *. apply list_eqb_eq in Hs. by rewrite Hs. }
  destruct (find_locked kr a); [|done]. case_match; [done|]. case_match; [|done|done].
  destruct (find_locked (m kr) a); [|done]. by rewrite Hu.
Qed.

Lemma expand_loop_expanded addresses : forall kr a e m j,
  Forall (fun b => same_address b a = true) addresses ->
  find_locked kr a = Some e -> q_expanded e = true -> (forall j, leaves_alone a (m j)) ->
  exists kr', expand_loop kr addresses m j = Ok kr' /\ find_locked kr' a = Some e.
Proof.
  induction addresses as [|b bs IH]; intros kr a e m j Hb Hf Hx Hm; cbn [expand_loop]; [by eexists|].
  apply Forall_cons_1 in Hb as [Hb Hbs]. rewrite (get_keys_find_same _ a b) by done.
  assert (Hf' : find_locked (m j kr) a = Some e) by (by rewrite Hm).
  rewrite (get_keys_expanded _ _ _ _ Hf' Hx), bind_ok. by apply IH.
Qed.

Lemma pending_selected kr a : Forall (fun b => same_address b a = true) (pending_addresses kr (Some a)).
Proof.
  apply Forall_forall. intros b (e & -> & [[_ Hs]%andb_prop _]%list_elem_of_filter)%list_elem_of_fmap. exact Hs.
Qed.

Lemma pending_found kr a e :
  find_locked kr a = Some e -> q_expanded e = false -> pending_addresses kr (Some a) <> [].
Proof.
  intros [Hin Hs]%find_pq_Some Hx Hn. assert (Hp : q_address e ∈ pending_addresses kr (Some a)).
  { apply list_elem_of_fmap. exists e. split; [done|]. apply list_elem_of_filter. cbn. by rewrite Hx, Hs. }
  rewrite Hn in Hp. by apply elem_of_nil in Hp.
Qed.

Lemma expand_pending_single kr a e i m :
  find_locked kr a = Some e -> q_expanded e = false ->
  bm_pqv5_identity_from_seeds (q_stream e) (sig_seed (q_seeds e)) (kem_seed (q_seeds e)) = Ok i ->
  pi_sig_pk i = q_sig_pk e -> pi_kem_pk i = q_kem_pk e -> (forall j, leaves_alone a (m j)) ->
  exists kr', expand_pending kr (Some a) m = Ok kr' /\ find_locked kr' a = Some (with_keys e i).
Proof.
  intros Hf Hx Hi Hs Hk Hm. unfold expand_pending. pose proof (pending_selected kr a) as Hp.
  pose proof (pending_found kr a e Hf Hx) as Hn. destruct (pending_addresses kr (Some a)) as [|b bs]; [done|].
  apply Forall_cons_1 in Hp as [Hb Hbs]. cbn [expand_loop]. rewrite (get_keys_find_same _ a b) by done.
  destruct (get_keys_expands (m 0%nat kr) a e i (m 1%nat)) as (kr1 & -> & Hf1); [by rewrite Hm|done..|apply Hm|].
  rewrite bind_ok. by apply (expand_loop_expanded bs kr1 a (with_keys e i)).
Qed.

(** Private keys that the keyring gives out are those of the identity the address names. *)
Lemma get_keys_match kr a m sig_sk kem_sk kr' :
  ring_ok kr -> other_threads m -> bm_pq_keyring_get_secret_keys kr a m = Ok (Some (sig_sk, kem_sk), kr') ->
  exists i stream, made_from_seeds i /\ bm_pqv5_address_decode a = Ok (BM_PQV5_ADDRESS_VERSION, stream, pi_id i)
    /\ pi_sig_sk i = sig_sk /\ pi_kem_sk i = kem_sk.
Proof.
  intros Hr Hm E.
  assert (Hfind : forall kr e, ring_ok kr -> find_locked kr a = Some e -> pq_entry_ok e /\ a = q_address e).
  { intros kr0 e Hr0 [Hin Hs]%find_pq_Some. pose proof (ring_entry_ok _ _ Hr0 Hin) as He. split; [done|].
    apply same_address_short; [|done]. by destruct He as (_ & _ & _ & _ & ? & _). }
  assert (Hkeys : forall e i, pq_entry_ok e -> a = q_address e -> made_from_seeds i ->
    pi_sig_pk i = q_sig_pk e -> pi_kem_pk i = q_kem_pk e ->
    bm_pqv5_address_decode a = Ok (BM_PQV5_ADDRESS_VERSION, q_stream e, pi_id i)).
  { intros e i (Hd & _ & Hid & _) -> Hmade Hs Hk. apply made_parts in Hmade as (_ & _ & _ & _ & -> & _).
    by rewrite Hs, Hk, <- Hid. }
  unfold bm_pq_keyring_get_secret_keys in E. destruct (find_locked kr a) as [cur|] eqn:Ef; [|done].
  destruct (Hfind _ _ Hr Ef) as [Hcur Ha]. destruct (q_expanded cur) eqn:Ex.
  - apply ok_inj in E as [= <- <- <-]. pose proof Hcur as (_ & _ & _ & _ & _ & _ & _ & Hc).
    destruct (Hc Ex) as (i & Hi & Hs & Hk & <- & <-). exists i, (q_stream cur). split_and!; eauto.
  - destruct (bm_pqv5_identity_from_seeds _ _ _) as [i| |] eqn:Ei; [|done|done]. apply restored_made in Ei.
    apply ok_inj in E. unfold keep_keys in E. destruct (find_locked (m kr) a) as [cur'|] eqn:Ef'; [|done].
    destruct (Hfind (m kr) cur') as [Hcur' Ha']; [exact (ring_steps_ok _ _ (Hm kr) Hr)|done|].
    destruct (list_eqb (pi_sig_pk i) _) eqn:E1; [|done]. destruct (list_eqb (pi_kem_pk i) _) eqn:E2; [|done].
    apply list_eqb_eq in E1, E2. destruct (q_expanded cur') eqn:Ex'; simplify_eq/=.
    + pose proof Hcur' as (_ & _ & _ & _ & _ & _ & _ & Hc).
      destruct (Hc Ex') as (i' & Hi & Hs & Hk & <- & <-). exists i', (q_stream cur'). split_and!; eauto.
    + exists i, (q_stream cur'). split_and!; eauto.
Qed.

(** The same for an entry that other threads leave alone. *)
Lemma get_keys_of_entry kr a m e sig_sk kem_sk kr' :
  ring_ok kr -> find_locked kr a = Some e -> leaves_alone a m ->
  bm_pq_keyring_get_secret_keys kr a m = Ok (Some (sig_sk, kem_sk), kr') ->
  exists i, made_from_seeds i /\ pi_sig_pk i = q_sig_pk e /\ pi_kem_pk i = q_kem_pk e
    /\ pi_sig_sk i = sig_sk /\ pi_kem_sk i = kem_sk.
Proof.
  intros Hr Hf Hm E. pose proof (find_pq_Some _ _ _ Hf) as [Hin _].
  pose proof (ring_entry_ok _ _ Hr Hin) as (_ & _ & _ & _ & _ & _ & _ & Hk).
  destruct (q_expanded e) eqn:Ex.
  - rewrite (get_keys_expanded _ _ _ _ Hf Ex) in E. apply ok_inj in E as [= <- <- <-]. by apply Hk.
  - unfold bm_pq_keyring_get_secret_keys in E. rewrite Hf, Ex in E.
    destruct (bm_pqv5_identity_from_seeds _ _ _) as [i| |] eqn:Ei; [|done|done]. apply restored_made in Ei.
    apply ok_inj in E. unfold keep_keys in E. rewrite Hm, Hf, Ex in E.
    destruct (list_eqb (pi_sig_pk i) _) eqn:E1; [|done]. destruct (list_eqb (pi_kem_pk i) _) eqn:E2; [|done].
    apply list_eqb_eq in E1, E2. cbn in E. simplify_eq. by exists i.
Qed.

(** Where the keyring would give out keys, the search of [bm_pq_keyring_open_msg] has them. *)
Lemma expand_pending_gives kr a e m sig_sk kem_sk kr1 :
  find_locked kr a = Some e -> (forall j, leaves_alone a (m j)) ->
  bm_pq_keyring_get_secret_keys kr a (fun kr => kr) = Ok (Some (sig_sk, kem_sk), kr1) ->
  exists kr' e', expand_pending kr (Some a) m = Ok kr' /\ find_locked kr' a = Some e' /\ q_expanded e' = true
    /\ q_kem_sk e' = kem_sk /\ q_id e' = q_id e /\ q_address e' = q_address e.
Proof.
  intros Hf Hm E. destruct (q_expanded e) eqn:Ex.
  - rewrite (get_keys_expanded _ _ _ _ Hf Ex) in E. apply ok_inj in E as [= <- <- <-].
    destruct (expand_loop_expanded _ kr a e m 0 (pending_selected kr a) Hf Ex Hm) as (kr' & E' & Hf').
    by exists kr', e.
  - unfold bm_pq_keyring_get_secret_keys in E. rewrite Hf, Ex in E.
    destruct (bm_pqv5_identity_from_seeds _ _ _) as [i| |] eqn:Ei; [|done|done].
    apply ok_inj in E. unfold keep_keys in E. rewrite Hf, Ex in E.
    destruct (list_eqb (pi_sig_pk i) _) eqn:E1; [|done]. destruct (list_eqb (pi_kem_pk i) _) eqn:E2; [|done].
    apply list_eqb_eq in E1, E2. cbn in E. simplify_eq.
    destruct (expand_pending_single kr a e i m Hf Ex Ei E1 E2 Hm) as (kr' & E' & Hf').
    by exists kr', (with_keys e i).
Qed.

(** ** Storing and unlocking *)

Definition identity_sized (i : bm_pqv5_identity) : Prop :=
  made_from_seeds i /\ is_u64 (pi_stream i) /\ blen (sig_seed (pi_seeds i)) = BM_PQV5_SEED_LEN
  /\ blen (kem_seed (pi_seeds i)) = BM_PQV5_SEED_LEN.

Definition seeds_random_ok (rnd : seeds_random) : Prop :=
  blen (sd_salt rnd) = BM_IDENTITY_KDF_SALT_LEN /\ blen (sd_nonce rnd) = 12.

Lemma seeds_bytes_ok seeds :
  blen (sig_seed seeds) = BM_PQV5_SEED_LEN -> blen (kem_seed seeds) = BM_PQV5_SEED_LEN ->
  seeds_bytes seeds = Ok (sig_seed seeds ++ kem_seed seeds)
  /\ seeds_of_bytes (sig_seed seeds ++ kem_seed seeds) = Ok seeds.
Proof.
  intros Ls Lk. unfold seeds_bytes, seeds_of_bytes. rewrite !rdn_all, !bind_ok by done.
  rewrite rdn_prefix, bind_ok by done. rewrite rdn_suffix, bind_ok by done. by destruct seeds.
Qed.

Lemma create_pq_entry db i label passphrase trials extra rnd now a db' vault now' :
  identity_sized i -> is_u64 trials -> is_u64 extra -> seeds_random_ok rnd ->
  bm_pq_keyring_create_identity db i label passphrase trials extra rnd now = Ok (a, db') ->
  pq_identities db !! a = None
  /\ exists e, unlocked_entry vault db' a passphrase now' = Ok e /\ q_address e = a
      /\ q_stream e = pi_stream i /\ q_id e = pi_id i /\ q_seeds e = pi_seeds i /\ q_sig_pk e = pi_sig_pk i
      /\ q_kem_pk e = pi_kem_pk i /\ q_nonce_trials_per_byte e = trials
      /\ q_payload_length_extra_bytes e = extra.
Proof.
  intros (Hm & Hst & Ls & Lk) Ht Hx (Hsalt & Hnonce) E. pose proof (made_parts _ Hm) as (P1 & _ & P2 & _ & Hid & P3).
  pose proof Hm as (Hv & _). unfold bm_pq_keyring_create_identity in E. rewrite Hv in E.
  destruct (bm_pqv5_address_roundtrip (pi_stream i) (pi_id i)) as (s & Es & Ds); [done|rewrite Hid; auto with bytes|done|].
  rewrite Es, bind_ok in E. rewrite Z.geb_leb in E. destruct (Z.leb_spec BM_IDENTITY_ADDRESS_MAX (blen s)); [done|].
  rewrite !rdn_all, !bind_ok in E by done.
  destruct (seeds_bytes_ok (pi_seeds i) Ls Lk) as [Hsb Hso].
  unfold bm_keyring_internal_new_scrypt_kek in E.
  destruct (derive_kek passphrase (sd_salt rnd) _ _ _) as [kek| |] eqn:Ek; [|done|done].
  rewrite !bind_ok in E. cbv beta iota in E. rewrite Hsb, bind_ok in E.
  apply bind_ok_inv in E as (w & Ew & E). apply wrap_ok in Ew as [Lw Uw]; [|done].
  rewrite blen_app, Ls, Lk in Lw. apply bind_ok_inv in E as (db1 & Ei & E). apply ok_inj in E as [= <- <-].
  rewrite (text_field_short BM_KEYRING_MAX_ADDRESS_LEN) by done.
  rewrite (text_field_short BM_IDENTITY_ADDRESS_MAX) in Ei by done.
  apply pq_insert_load in Ei as [Hn El].
  2: { unfold pq_row_sized. cbn -[SCRYPT scrypt_params]. split_and!; try done. by apply blen_text_field. }
  cbn [pr_address] in Hn, El. split; [done|].
  unfold unlocked_entry. rewrite El, bind_ok. unfold row_is_consistent. cbn [pr_address pr_sig_pk pr_kem_pk
    pr_address_version pr_stream pr_id pr_kdf_algo pr_kdf_salt pr_kdf_params pr_wrapped_seeds].
  rewrite Ds, calc_id_eq, !bind_ok, !Z.eqb_refl, <- Hid, !list_eqb_refl by done. cbn [andb negb].
  unfold bm_keyring_internal_resolve_kek. change (list_eqb (text_field _ SCRYPT) VAULT_HKDF) with false. cbv iota.
  rewrite scrypt_params_parse, bind_ok, Ek, bind_ok, Uw, bind_ok, Hso, bind_ok.
  rewrite derive_v5_eq, bind_ok by done. eexists. split; [reflexivity|]. cbn.
  by rewrite text_field_short.
Qed.
End PqKeyringLemmas.

(** ** Properties *)

Section PqKeyringProperties.
Context `{OSL : OpenSSLLaws} `{OSVL : OpenSSLVaultLaws} `{PQL : PqOpenSSLLaws} `{BNL : BigNumLaws}.

(** C31: The invariant of the post-quantum keyring.  Whatever the threads did, every unlocked
    identity is the one its address names, its private keys (once expanded) belong to its public
    keys, and no address is there twice.  The functions never leave their memory, and act on the
    list only through their critical sections: unlocking, asking for keys and opening a message
    lead from reachable lists to reachable lists, whatever other threads do in between. *)
Theorem pq_keyring_invariant (kr : pq_keyring) :
  rtc ring_step [] kr ->
  ring_ok kr
  /\ (forall vault db address passphrase now,
        bm_pq_keyring_unlock kr vault db address passphrase now <> Ub
        /\ forall kr', bm_pq_keyring_unlock kr vault db address passphrase now = Ok kr' -> rtc ring_step [] kr')
  /\ (forall address meanwhile, other_threads meanwhile ->
        exists r kr', bm_pq_keyring_get_secret_keys kr address meanwhile = Ok (r, kr') /\ rtc ring_step [] kr')
  /\ (forall address object meanwhile, bytes_ok object -> (forall j, other_threads (meanwhile j)) ->
        exists r kr', bm_pq_keyring_open_msg kr address object meanwhile = Ok (r, kr') /\ rtc ring_step [] kr').
Proof.
  intros Hs. assert (Hr : ring_ok kr) by (apply (ring_steps_ok _ _ Hs); split; [constructor|apply NoDup_nil_2]).
  split_and!; [done| | |].
  - intros vault db a p now. unfold bm_pq_keyring_unlock. split.
    { apply safe_bind; [apply unlocked_entry_not_ub|done]. }
    intros kr' E. inv_bind E. apply ok_inj in E as <-. eapply rtc_r; [done|]. by eapply step_unlock.
  - intros a m Hm. destruct (get_keys_steps kr a m Hr Hm) as (r & kr' & E & S).
    exists r, kr'. split; [done|]. by etransitivity.
  - intros a object m Hb Hm. destruct (open_msg_steps kr a object m Hr Hb Hm) as (r & kr' & E & S & _).
    exists r, kr'. split; [done|]. by etransitivity.
Qed.

(** C32: A message enters under an address of version 5 only if it is for it: when
    [bm_pq_keyring_open_msg] reports a message for an address, that address is unlocked (and is the
    requested one, if one was requested), the object opens with the private key of the identity
    that the address names, the recipient named inside the message is this identity, and the
    sender has an address of version 5. *)
Theorem pq_open_msg_authentic (kr : pq_keyring) (address : option (list Z)) (object : list Z)
  (meanwhile : nat -> pq_keyring -> pq_keyring) (out : bm_pq_msg_parsed) (a : list Z) (kr' : pq_keyring) :
  rtc ring_step [] kr -> bytes_ok object -> (forall j, other_threads (meanwhile j)) ->
  bm_pq_keyring_open_msg kr address object meanwhile = Ok (Some (out, a), kr') ->
  exists i stream, made_from_seeds i /\ bm_pqv5_address_decode a = Ok (BM_PQV5_ADDRESS_VERSION, stream, pi_id i)
    /\ bm_pq_parse_msg object (pi_kem_sk i) = Ok out
    /\ pm_to_id out = pi_id i /\ pm_from_address_version out = BM_PQV5_ADDRESS_VERSION
    /\ (forall b, address = Some b -> a = b)
    /\ exists u, bm_pq_keyring_find_by_address kr' a = Some u /\ pu_id u = pi_id i.
Proof.
  intros Hs Hb Hm E. assert (Hr : ring_ok kr) by (apply (ring_steps_ok _ _ Hs); split; [constructor|apply NoDup_nil_2]).
  destruct (open_msg_steps kr address object meanwhile Hr Hb Hm) as (r & kr1 & E' & S & El).
  rewrite E in E'. apply ok_inj in E' as [= <- <-]. pose proof (ring_steps_ok _ _ S Hr) as Hr'.
  destruct (open_loop_spec kr' address object) as (r & El' & Hspec); [apply Hr'|done|].
  rewrite El in El'. apply ok_inj in El' as <-. destruct (Hspec out a eq_refl) as (e & Hin & Hx & Hsel & Ha & Hp & Hv & Ht).
  pose proof (ring_entry_ok _ _ Hr' Hin) as He. pose proof He as (Hd & _ & Hid & _ & Hl & _ & _ & Hk).
  destruct (Hk Hx) as (i & Hi & Hs1 & Hk1 & _ & Hk2). subst a.
  assert (Hii : pi_id i = q_id e) by (apply made_parts in Hi as (_ & _ & _ & _ & -> & _); by rewrite Hs1, Hk1, <- Hid).
  exists i, (q_stream e). rewrite Hii, Hk2. split_and!; try done.
  - intros b ->. symmetry. by apply same_address_short.
  - unfold bm_pq_keyring_find_by_address. destruct (find_locked kr' (q_address e)) as [e'|] eqn:Ef.
    + eexists. split; [reflexivity|]. cbn. apply find_pq_Some in Ef as [Hin' Hs'].
      destruct (ring_entry_ok _ _ Hr' Hin') as (Hd' & _ & _ & _ & Hl' & _).
      apply same_address_short in Hs'; [|done]. rewrite Hs' in Hd. congruence.
    + apply (find_pq_None _ _ e) in Ef; [|done]. cbv beta in Ef. by rewrite same_address_refl in Ef.
Qed.

(** A stored identity keeps its keys.  What [bm_pq_keyring_create_identity] stored, the same pass
    phrase unlocks under the address it returned; the identity is then found by its address and
    by its tag, and its private keys are given out, although only its seeds were stored, as
    long as other threads do not lock it again. *)
Theorem pq_identity_kept (db : pq_db) (i : bm_pqv5_identity) (label : option (list Z)) (passphrase : list Z)
  (trials extra : Z) (rnd : seeds_random) (now : Z) (a : list Z) (db' : pq_db) (vault : identity_db)
  (kr : pq_keyring) (now' : Z) (meanwhile : pq_keyring -> pq_keyring) :
  identity_sized i -> is_u64 trials -> is_u64 extra -> seeds_random_ok rnd ->
  bm_pq_keyring_create_identity db i label passphrase trials extra rnd now = Ok (a, db') ->
  find_locked kr a = None -> bm_pq_keyring_find_by_tag kr (v5_tag BM_PQV5_ADDRESS_VERSION (pi_stream i) (pi_id i)) = None ->
  leaves_alone a meanwhile ->
  exists kr' u kr'', bm_pq_keyring_unlock kr vault db' a passphrase now' = Ok kr'
    /\ bm_pq_keyring_find_by_address kr' a = Some u
    /\ bm_pq_keyring_find_by_tag kr' (v5_tag BM_PQV5_ADDRESS_VERSION (pi_stream i) (pi_id i)) = Some u
    /\ pu_id u = pi_id i /\ pu_sig_pk u = pi_sig_pk i /\ pu_kem_pk u = pi_kem_pk i
    /\ pu_nonce_trials_per_byte u = trials /\ pu_payload_length_extra_bytes u = extra
    /\ bm_pq_keyring_get_secret_keys kr' a meanwhile = Ok (Some (pi_sig_sk i, pi_kem_sk i), kr'').
Proof.
  intros Hi Ht Hx Hrnd E Hf Htag Hm. pose proof Hi as (Hmade & _).
  destruct (create_pq_entry _ _ _ _ _ _ _ _ _ _ vault now' Hi Ht Hx Hrnd E) as (_ & e & Ee & Ea & Est & Eid & Eseeds & Es & Ek & Et & Eex).
  destruct (unlocked_entry_ok _ _ _ _ _ _ Ee) as [(_ & _ & _ & Htg & _) Hex].
  assert (Hfe : find_locked (e :: kr) a = Some e) by (unfold find_locked; cbn; by rewrite Ea, same_address_refl).
  pose proof (made_restores _ Hmade) as Hres. rewrite <- Est, <- Eseeds in Hres.
  destruct (get_keys_expands (e :: kr) a e _ meanwhile Hfe Hex Hres) as (kr'' & Eg & _); [done|done|apply Hm|].
  exists (e :: kr), (copy_public e), kr''. unfold bm_pq_keyring_unlock. rewrite Ee, bind_ok.
  unfold add_entry, bm_pq_keyring_find_by_address, bm_pq_keyring_find_by_tag. rewrite Ea, Hf, Hfe.
  split_and!; try done. cbn. by rewrite Htg, Est, Eid, list_eqb_refl.
Qed.

(** From the sender to the recipient.  An identity was created and stored, and is unlocked
    with its pass phrase.  Then whatever anyone sends to its id and public key with
    [bm_pq_build_msg], behind any proof-of-work nonce, [bm_pq_keyring_open_msg] opens under its
    address with every field as the sender gave it, as long as other threads do not lock the
    identity. *)
Theorem pq_message_received (db : pq_db) (i : bm_pqv5_identity) (label : option (list Z)) (passphrase : list Z)
  (trials extra : Z) (rnd : seeds_random) (now : Z) (a : list Z) (db' : pq_db) (vault : identity_db)
  (kr : pq_keyring) (now' : Z) (from : bm_pq_sender_info) (to_stream encoding : Z) (message ack : list Z)
  (expires_time : Z) (orand : object_random) (nonce object : list Z) (meanwhile : nat -> pq_keyring -> pq_keyring) :
  identity_sized i -> is_u64 trials -> is_u64 extra -> seeds_random_ok rnd ->
  bm_pq_keyring_create_identity db i label passphrase trials extra rnd now = Ok (a, db') ->
  find_locked kr a = None ->
  sender_ok from -> is_u64 to_stream -> is_u64 encoding -> blen message < 2 ^ 31 -> blen ack < 2 ^ 31 ->
  blen nonce = 8 -> mlkem_agrees (pi_kem_pk i) (pi_kem_sk i) (or_seal orand) ->
  bm_pq_build_msg from to_stream (pi_id i) (pi_kem_pk i) encoding message ack expires_time orand = Ok object ->
  (forall j, leaves_alone a (meanwhile j)) ->
  exists kr' kr'', bm_pq_keyring_unlock kr vault db' a passphrase now' = Ok kr'
    /\ bm_pq_keyring_open_msg kr' (Some a) (nonce ++ object) meanwhile
       = Ok (Some (msg_of from (pi_id i) encoding message ack, a), kr'').
Proof.
  intros Hi Ht Hx Hrnd E Hf Hfrom Hts Henc Hmsg Hack Hn Hag Hb Hm. pose proof Hi as (Hmade & _).
  destruct (create_pq_entry _ _ _ _ _ _ _ _ _ _ vault now' Hi Ht Hx Hrnd E) as (_ & e & Ee & Ea & Est & Eid & Eseeds & Es & Ek & _).
  destruct (unlocked_entry_ok _ _ _ _ _ _ Ee) as [_ Hex].
  assert (Hfe : find_locked (e :: kr) a = Some e) by (unfold find_locked; cbn; by rewrite Ea, same_address_refl).
  pose proof (made_restores _ Hmade) as Hres. rewrite <- Est, <- Eseeds in Hres.
  destruct (expand_pending_single (e :: kr) a e _ (fun j => meanwhile (S j)) Hfe Hex Hres) as (kr1 & E1 & Hf1);
    [done|done|intros j; apply Hm|].
  exists (e :: kr), (meanwhile 0%nat kr1). unfold bm_pq_keyring_unlock. rewrite Ee, bind_ok.
  unfold add_entry. rewrite Ea, Hf. split; [done|]. unfold bm_pq_keyring_open_msg. rewrite E1, bind_ok.
  destruct (made_parts _ Hmade) as (_ & _ & _ & _ & _ & Lid). destruct Hmade as (_ & _ & Hkem & _).
  pose proof (bm_pq_msg_roundtrip from to_stream (pi_id i) (kem_seed (pi_seeds i)) (pi_kem_pk i) (pi_kem_sk i) encoding
    message ack expires_time orand nonce object Hfrom Hts Lid Henc Hmsg Hack Hn Hkem Hag Hb) as Hp.
  rewrite (open_loop_single _ a (with_keys e (i <| pi_sig_nonce := 0 |> <| pi_kem_nonce := 0 |>)) _
    (msg_of from (pi_id i) encoding message ack)); [|by rewrite Hm|done|done| |done].
  - rewrite bind_ok. by replace (q_address _) with a.
  - destruct Hfrom as ((Hv & _) & _). exact Hv.
Qed.
End PqKeyringProperties.

(** ** Witnesses *)

#[local] Existing Instance toy_OpenSSL.
#[local] Existing Instance toy_OpenSSLLaws.
#[local] Existing Instance toy_Pq.
#[local] Existing Instance toy_PqLaws.
#[local] Existing Instance toy_vault.
#[local] Existing Instance toy_OpenSSLVaultLaws.

(** The identity of the example message, stored and unlocked. *)
Definition pq_db_empty : pq_db := {| pq_identities := ∅; pq_pubkey_cache := ∅; pq_pubkey_requests := ∅ |}.
Definition pq_seeds_random : seeds_random := {| sd_salt := replicate 16 1; sd_nonce := replicate 12 2 |}.
Definition pq_pass : list Z := [115; 101; 99].
Definition pq_stored : list Z * pq_db :=
  match bm_pq_keyring_create_identity pq_db_empty (v5_identity_of 2) None pq_pass 1000 1000 pq_seeds_random 5 with
  | Ok r => r
  | _ => ([], pq_db_empty)
  end.
Definition pq_entry : list bm_unlocked_pq_identity :=
  match unlocked_entry bm_identity_store_init_schema pq_stored.2 pq_stored.1 pq_pass 6 with Ok e => [e] | _ => [] end.
Definition pq_ring : pq_keyring := pq_entry.
Definition pq_idle (kr : pq_keyring) : pq_keyring := kr.

Lemma pq_stored_ok :
  bm_pq_keyring_create_identity pq_db_empty (v5_identity_of 2) None pq_pass 1000 1000 pq_seeds_random 5 = Ok pq_stored.
Proof. vm_compute. reflexivity. Qed.

Lemma pq_ring_reached : rtc ring_step [] pq_ring.
Proof.
  apply rtc_once. unfold pq_ring, pq_entry.
  destruct (unlocked_entry bm_identity_store_init_schema pq_stored.2 pq_stored.1 pq_pass 6) as [e| |] eqn:E.
  - by apply (step_unlock [] _ _ _ _ _ _ E).
  - apply (step_clear []).
  - apply (step_clear []).
Qed.

Lemma pq_identity_sized : identity_sized (v5_identity_of 2).
Proof.
  split; [unfold made_from_seeds; repeat apply conj; vm_compute; reflexivity|].
  split; [apply (bool_decide_unpack _); vm_compute; exact I|]. split; vm_compute; reflexivity.
Qed.

Lemma pq_keyring_invariant_witness : ring_ok pq_ring /\ length pq_ring = 1%nat.
Proof.
  destruct (pq_keyring_invariant pq_ring pq_ring_reached) as [H _]. split; [exact H|]. vm_compute. reflexivity.
Defined.

Definition pq_opened : pq_keyring :=
  match bm_pq_keyring_open_msg pq_ring None (pq_nonce_example ++ pq_msg_example) (fun _ => pq_idle) with
  | Ok (_, kr) => kr
  | _ => []
  end.

Lemma pq_open_msg_authentic_witness :
  pm_to_id (msg_of pq_from_example (pi_id (v5_identity_of 2)) 2 [72; 105] [1; 2; 3]) = pi_id (v5_identity_of 2)
  /\ exists u, bm_pq_keyring_find_by_address pq_opened pq_stored.1 = Some u.
Proof.
  destruct (pq_open_msg_authentic pq_ring None (pq_nonce_example ++ pq_msg_example) (fun _ => pq_idle)
    (msg_of pq_from_example (pi_id (v5_identity_of 2)) 2 [72; 105] [1; 2; 3]) pq_stored.1 pq_opened)
    as (i & s & _ & _ & _ & _ & _ & _ & u & Hu & _).
  - apply pq_ring_reached.
  - by apply (bool_decide_unpack _); vm_compute.
  - intros j kr. apply rtc_refl.
  - vm_compute. reflexivity.
  - split; [reflexivity|]. exists u. exact Hu.
Defined.

Lemma pq_identity_kept_witness :
  exists kr' kr'', bm_pq_keyring_unlock [] bm_identity_store_init_schema pq_stored.2 pq_stored.1 pq_pass 6 = Ok kr'
    /\ bm_pq_keyring_get_secret_keys kr' pq_stored.1 pq_idle
       = Ok (Some (pi_sig_sk (v5_identity_of 2), pi_kem_sk (v5_identity_of 2)), kr'').
Proof.
  destruct (pq_identity_kept pq_db_empty (v5_identity_of 2) None pq_pass 1000 1000 pq_seeds_random 5 pq_stored.1 pq_stored.2
    bm_identity_store_init_schema [] 6 pq_idle) as (kr' & u & kr'' & H1 & _ & _ & _ & _ & _ & _ & _ & H2).
  - apply pq_identity_sized.
  - unfold is_u64; lia.
  - unfold is_u64; lia.
  - by split.
  - rewrite <- surjective_pairing. apply pq_stored_ok.
  - done.
  - done.
  - intros kr. reflexivity.
  - exists kr', kr''. split; [exact H1|exact H2].
Defined.

Lemma pq_message_received_witness :
  exists kr' kr'', bm_pq_keyring_unlock [] bm_identity_store_init_schema pq_stored.2 pq_stored.1 pq_pass 6 = Ok kr'
    /\ bm_pq_keyring_open_msg kr' (Some pq_stored.1) (pq_nonce_example ++ pq_msg_example) (fun _ => pq_idle)
       = Ok (Some (msg_of pq_from_example (pi_id (v5_identity_of 2)) 2 [72; 105] [1; 2; 3], pq_stored.1), kr'').
Proof.
  apply (pq_message_received pq_db_empty (v5_identity_of 2) None pq_pass 1000 1000 pq_seeds_random 5 pq_stored.1 pq_stored.2
    bm_identity_store_init_schema [] 6 pq_from_example 1 2 [72; 105] [1; 2; 3] 5000 pq_random_example).
  - apply pq_identity_sized.
  - unfold is_u64; lia.
  - unfold is_u64; lia.
  - by split.
  - rewrite <- surjective_pairing. apply pq_stored_ok.
  - done.
  - apply pq_from_example_ok.
  - unfold is_u64; lia.
  - unfold is_u64; lia.
  - by vm_compute.
  - by vm_compute.
  - done.
  - apply toy_mlkem_agrees. vm_compute. reflexivity.
  - vm_compute. reflexivity.
  - intros j kr. reflexivity.
Defined.
