(* ===== verification/TrialDecrypt.v ===== *)
(** * core/trial_decrypt.c

    Trial decryption of [msg] objects with the unlocked keys, and the inbox row
    an accepted message leaves.  Positions are [size_t]: the additions of the
    source wrap at 2^64.  The keyring is the list of its unlocked identities in
    list order; the reader lock around the loop makes the list constant during
    one call. *)

From Stdlib Require Import String.
From stdpp Require Import base tactics list numbers option gmap.
From S2P Require Import Prelude Varint Base58 Openssl Hash Address Object Sql IdentityStore Keyring Crypto MessageBuilder MessagesStore.

#[local] Arguments be_split : simpl never.

(** The largest block [malloc] returns (glibc: more is refused with ENOMEM). *)
Definition PTRDIFF_MAX : Z := 2 ^ 63 - 1.
(** [struct bm_decoded_msg]; a null pointer is [None]. *)
Record bm_decoded_msg := {
  dm_from_address_version : Z;
  dm_from_stream : Z;
  dm_from_address : list Z;
  dm_to_address : list Z;
  dm_subject : option (list Z);
  dm_body : option (list Z);
  dm_ack_payload : option (list Z);
}.

(** ** Text *)

(** The [len] bytes at [buf + off], copied; the result without its NUL. *)
Definition dup_bytes_as_cstr (buf : list Z) (off len : Z) : cres (option (list Z)) :=
  if u64 (len + 1) >? PTRDIFF_MAX then Ok None else
  bytes ← (if len >? 0 then rdn buf off len else Ok []);
  out ← wr (malloc (u64 (len + 1))) 0 bytes;
  out ← wr out len [0];
  Ok (Some (take (Z.to_nat len) out)).

Definition BODY_NEEDLE : list Z := 10 :: cstr "Body:"%string.

(** The search loop of [decode_simple].  Each round reads six bytes further on,
    so more rounds than the block has bytes read outside it: with fuel
    [S (length buf)] the fuel never runs out before the loop does. *)
Fixpoint find_body (fuel : nat) (buf : list Z) (off len i : Z) : cres (option Z) :=
  match fuel with
  | O => Ub
  | S fuel =>
      if i + 6 <=? len then
        w ← rdn buf (off + i) 6;
        if list_eqb w BODY_NEEDLE then Ok (Some i) else find_body fuel buf off len (i + 1)
      else Ok None
  end.

(** [for (i = 0; i < subject_len; i++) if (data[8 + i] == '\n') ...] *)
Fixpoint first_line (buf : list Z) (pos i : Z) (n : nat) : cres Z :=
  match n with
  | O => Ok i
  | S n => c ← rd buf (pos + i); if c =? 10 then Ok i else first_line buf pos (i + 1) n
  end.

Definition decode_simple (buf : list Z) (off len : Z)
  : cres (option (list Z) * option (list Z)) :=
  body_idx ← (if len >=? 6 then find_body (S (length buf)) buf off len 0 else Ok None);
  match body_idx with
  | Some body_idx =>
      if body_idx >? 1 then
        let subject_len := if 8 <=? body_idx then body_idx - 8 else 0 in
        let subject_len := if subject_len >? 500 then 500 else subject_len in
        first_line_len ← first_line buf (off + 8) 0 (Z.to_nat subject_len);
        subject ← dup_bytes_as_cstr buf (off + 8) first_line_len;
        let body_start := body_idx + 6 in
        body ← dup_bytes_as_cstr buf (off + body_start) (len - body_start);
        Ok (subject, body)
      else
        subject ← dup_bytes_as_cstr buf off 0;
        body ← dup_bytes_as_cstr buf off len;
        Ok (subject, body)
  | None =>
      subject ← dup_bytes_as_cstr buf off 0;
      body ← dup_bytes_as_cstr buf off len;
      Ok (subject, body)
  end.

(** ** The decrypted payload *)

(** [consumed = bm_varint_decode(decrypted + p, decrypted_len - p, &v)], failing
    when nothing is consumed; the result is the position behind and the value. *)
Definition take_varint (decrypted : list Z) (p : Z) : cres (Z * Z) :=
  '(consumed, v) ← bm_varint_decode (drop (Z.to_nat p) decrypted) (u64 (blen decrypted - p));
  Ok (p + consumed, v).

(** A length field and the range it announces:
    [if (consumed == 0 || p + consumed + len > decrypted_len) goto fail;
     p += consumed; data = decrypted + p; p += len;] Result: where the data
    starts, its length, and the position behind it. *)
Definition take_block (decrypted : list Z) (p : Z) : cres (Z * Z * Z) :=
  '(start, len) ← take_varint decrypted p;
  if u64 (start + len) >? blen decrypted then Err else
  Ok (start, len, u64 (start + len)).

(** What msg and broadcast payloads start with. *)
Record sender := {
  s_version : Z;
  s_stream : Z;
  s_pub_signing : list Z;
  s_pub_encryption : list Z;
  s_end : Z; (** position behind *)
}.

Definition take_sender (decrypted : list Z) : cres sender :=
  let decrypted_len := blen decrypted in
  '(p, from_ver) ← take_varint decrypted 0;
  '(p, from_stream) ← take_varint decrypted p;
  if p + 4 + 64 + 64 >? decrypted_len then Err else
  let p := p + 4 in
  x ← rdn decrypted p 64;
  let from_pub_signing := 4 :: x in
  let p := p + 64 in
  x ← rdn decrypted p 64;
  let from_pub_encryption := 4 :: x in
  let p := p + 64 in
  p ← (if from_ver >=? 3 then
         '(p, nonce_trials) ← take_varint decrypted p;
         '(p, extra_bytes) ← take_varint decrypted p;
         Ok p
       else Ok p);
  Ok {| s_version := from_ver; s_stream := from_stream; s_pub_signing := from_pub_signing;
        s_pub_encryption := from_pub_encryption; s_end := p |}.

Section TrialDecrypt.
Context `{OS : OpenSSL}.

(** [bm_crypto_verify(..., sig, sig_len, ...)] with its [(int)sig_len]: a
    negative length is no signature. *)
Definition verify_at (data buf : list Z) (sig_pos sig_len : Z) (pub : list Z) : cres bool :=
  if s32 sig_len <? 0 then Ok false else
  sig ← rdn buf sig_pos (s32 sig_len);
  Ok (bm_crypto_verify data sig pub).

(** [snprintf(out, 64, "%s", s)] *)
Definition snprintf_address (s : list Z) : list Z := take (Z.to_nat (BM_ADDRESS_STR_MAX - 1)) s.

(** The address text of a sender; empty when [bm_address_encode] fails. *)
Definition sender_address (version stream : Z) (ripe : list Z) : cres (list Z) :=
  match bm_address_encode version stream ripe with
  | Ok s => Ok (snprintf_address s)
  | Err => Ok []
  | Ub => Ub
  end.

Definition trial_decrypt_body (identity : bm_unlocked_identity) (hdr : bm_object_header)
    (object decrypted : list Z) : cres bm_decoded_msg :=
  let decrypted_len := blen decrypted in
  s ← take_sender decrypted;
  let p := s_end s in
  if p + 20 >? decrypted_len then Err else
  to_ripe ← rdn decrypted p 20;
  if negb (list_eqb to_ripe (u_ripe identity)) then Err else
  let p := p + 20 in
  '(p, encoding) ← take_varint decrypted p;
  '(msg_data, msg_len, p) ← take_block decrypted p;
  '(ack_data, ack_len, p) ← take_block decrypted p;
  let presig_offset := p in
  '(sig, sig_len, _) ← take_block decrypted p;
  let header_no_nonce_len := header_len hdr - 8 in
  head ← rdn object 8 header_no_nonce_len;
  to_sign ← wr (malloc (header_no_nonce_len + presig_offset)) 0 head;
  payload ← rdn decrypted 0 presig_offset;
  to_sign ← wr to_sign header_no_nonce_len payload;
  verify_ok ← verify_at to_sign decrypted sig sig_len (s_pub_signing s);
  if negb verify_ok then Err else
  from_ripe ← bm_address_calc_ripe (s_pub_signing s) (s_pub_encryption s);
  from_address ← sender_address (s_version s) (s_stream s) from_ripe;
  '(subject, body) ← (if encoding =? 2 then decode_simple decrypted msg_data msg_len
                      else
                        subject ← dup_bytes_as_cstr decrypted msg_data 0;
                        body ← dup_bytes_as_cstr decrypted msg_data msg_len;
                        Ok (subject, body));
  ack ← (if (ack_len >? 0) && negb (u_is_chan identity)
         then a ← rdn decrypted ack_data ack_len; Ok (Some a)
         else Ok None);
  Ok {| dm_from_address_version := s_version s; dm_from_stream := s_stream s;
        dm_from_address := from_address; dm_to_address := snprintf_address (u_address identity);
        dm_subject := subject; dm_body := body; dm_ack_payload := ack |}.

(** The loop over the unlocked identities: the first key that opens the
    ciphertext. *)
Fixpoint keyring_try (kr : list bm_unlocked_identity) (ciphertext : list Z)
  : cres (bm_unlocked_identity * list Z) :=
  match kr with
  | [] => Err
  | cur :: kr =>
      match bm_crypto_ecies_decrypt ciphertext (u_priv_encryption cur) with
      | Ok decrypted => Ok (cur, decrypted)
      | Err => keyring_try kr ciphertext
      | Ub => Ub
      end
  end.

(** The header checks of both entry points; the result is the header and the
    ciphertext behind it. *)
Definition msg_ciphertext (object : list Z) : cres (bm_object_header * list Z) :=
  hdr ← bm_object_parse_header object;
  if negb (object_type hdr =? BM_OBJECT_MSG) || negb (version hdr =? 1) then Err else
  ciphertext ← rdn object (header_len hdr) (blen object - header_len hdr);
  Ok (hdr, ciphertext).

Definition bm_trial_decrypt_msg (kr : list bm_unlocked_identity) (object : list Z)
  : cres bm_decoded_msg :=
  '(hdr, ciphertext) ← msg_ciphertext object;
  '(matched, decrypted) ← keyring_try kr ciphertext;
  trial_decrypt_body matched hdr object decrypted.

Definition bm_trial_decrypt_msg_single (identity : bm_unlocked_identity) (object : list Z)
  : cres bm_decoded_msg :=
  '(hdr, ciphertext) ← msg_ciphertext object;
  decrypted ← bm_crypto_ecies_decrypt ciphertext (u_priv_encryption identity);
  trial_decrypt_body identity hdr object decrypted.
End TrialDecrypt.

(** ** Storing what was decrypted *)

(** The new inbox and the ack handed to the caller. *)
Definition store_decoded_msg `{OpenSSL} (db : inbox) (object : list Z) (decoded : bm_decoded_msg)
    (now : Z) : cres (inbox * option (list Z)) :=
  let msg_id := bm_inventory_hash object in
  db ← bm_messages_store_insert_inbox db msg_id (dm_to_address decoded) (dm_from_address decoded)
         (dm_subject decoded) (dm_body decoded) now;
  Ok (db, dm_ack_payload decoded).

Definition bm_trial_decrypt_and_store `{OpenSSL} (kr : list bm_unlocked_identity) (db : inbox)
    (object : list Z) (now : Z) : cres (inbox * option (list Z)) :=
  decoded ← bm_trial_decrypt_msg kr object;
  store_decoded_msg db object decoded now.

Definition bm_trial_decrypt_and_store_single `{OpenSSL} (identity : bm_unlocked_identity)
    (db : inbox) (object : list Z) (now : Z) : cres (inbox * option (list Z)) :=
  decoded ← bm_trial_decrypt_msg_single identity object;
  store_decoded_msg db object decoded now.

(** ** Reading back the text *)

Lemma u64_len l : blen l < 2 ^ 63 -> u64 (blen l) = blen l.
Proof. intros. apply u64_small. unfold is_u64. pose proof (blen_nonneg l). lia. Qed.

Lemma dup_bytes_ok buf off len :
  0 <= off -> 0 <= len -> off + len <= blen buf -> len < 2 ^ 62 ->
  dup_bytes_as_cstr buf off len = Ok (Some (slice buf off len)).
Proof.
  intros Ho Hl Hb Hm. unfold dup_bytes_as_cstr, PTRDIFF_MAX.
  rewrite u64_small by (unfold is_u64; lia). zdec.
  assert ((if 0 <? len then rdn buf off len else Ok []) = Ok (slice buf off len)) as ->.
  { destruct (Z.ltb_spec 0 len); [by apply rdn_ok|]. by replace len with 0 by lia. }
  cbn_bind. assert (Ls : blen (slice buf off len) = len) by (apply blen_slice; lia).
  rewrite wr_malloc_start by lia. cbn_bind.
  rewrite wr_malloc_last by (rewrite ?blen_cons, ?blen_nil; lia). cbn_bind.
  rewrite <- Ls at 1. unfold blen at 1. by rewrite Nat2Z.id, take_app_length.
Qed.

Lemma find_body_here fuel l0 pre rest off len i :
  (10 ∉ pre) -> off + i = blen l0 -> (length pre < fuel)%nat -> i + blen pre + 6 <= len ->
  find_body fuel (l0 ++ pre ++ BODY_NEEDLE ++ rest) off len i = Ok (Some (i + blen pre)).
Proof.
  revert fuel l0 i. induction pre as [|c pre IH]; intros [|fuel] l0 i Hn Ho Hf Hl;
    try (simpl in Hf; lia); cbn [find_body].
  - rewrite blen_nil in *. zdec. cbn [app]. rewrite Ho.
    rewrite (rdn_app_mid l0 BODY_NEEDLE) by done. cbn_bind.
    rewrite list_eqb_refl. f_equal. f_equal. lia.
  - rewrite blen_cons in *. pose proof (blen_nonneg pre). pose proof (blen_nonneg rest).
    pose proof (blen_nonneg l0). zdec.
    rewrite rdn_ok; [|lia|lia|rewrite !blen_app, blen_cons; change (blen BODY_NEEDLE) with 6; lia].
    cbn_bind. destruct (list_eqb _ _) eqn:E.
    { exfalso. apply list_eqb_eq in E. rewrite Ho, slice_app_skip, Z.sub_diag in E by lia.
      unfold slice in E. simpl in E. injection E as -> _. apply Hn. by left. }
    specialize (IH fuel (l0 ++ [c]) (i + 1)). rewrite <- app_assoc in IH. cbn [app] in *.
    rewrite IH; [f_equal; f_equal; lia| | | |lia].
    + intros Hin. apply Hn. by right.
    + rewrite blen_app, blen_cons, blen_nil. lia.
    + simpl in Hf. lia.
Qed.

Lemma first_line_all l0 line rest pos i :
  (10 ∉ line) -> pos + i = blen l0 ->
  first_line (l0 ++ line ++ rest) pos i (length line) = Ok (i + blen line).
Proof.
  revert l0 i. induction line as [|c line IH]; intros l0 i Hn Ho; cbn [first_line length].
  { rewrite blen_nil. f_equal. lia. }
  cbn [app]. rewrite (rd_app_here l0 c) by done. cbn_bind.
  destruct (Z.eqb_spec c 10) as [->|_]; [exfalso; apply Hn; by left|].
  specialize (IH (l0 ++ [c]) (i + 1)). rewrite <- app_assoc in IH. cbn [app] in IH.
  rewrite IH; [rewrite blen_cons; f_equal; lia| |].
  - intros Hin. apply Hn. by right.
  - rewrite blen_app, blen_cons, blen_nil. lia.
Qed.

Lemma decode_simple_message l0 subject body rest off len :
  (10 ∉ subject) -> blen subject <= 500 -> blen body < 2 ^ 61 -> off = blen l0 ->
  len = blen (simple_message subject body) ->
  decode_simple (l0 ++ simple_message subject body ++ rest) off len
  = Ok (Some subject, Some body).
Proof.
  intros Hn Hs Hb -> ->. pose proof (blen_nonneg subject). pose proof (blen_nonneg body).
  pose proof (blen_nonneg l0). pose proof (blen_nonneg rest).
  set (pre := cstr "Subject:"%string ++ subject).
  assert (Em : simple_message subject body = pre ++ BODY_NEEDLE ++ body)
    by (unfold simple_message, pre; by rewrite <- app_assoc).
  assert (Lp : blen pre = 8 + blen subject) by (unfold pre; rewrite blen_app; done).
  assert (Lm : blen (simple_message subject body) = 14 + blen subject + blen body)
    by (rewrite Em, !blen_app, Lp; change (blen BODY_NEEDLE) with 6; lia).
  unfold decode_simple. rewrite Lm, Em, <- !app_assoc. zdec.
  rewrite find_body_here; [| |lia| |lia].
  2:{ unfold pre. rewrite elem_of_app. intros [Hin|Hin]; [|done]. revert Hin.
      apply (bool_decide_unpack (10 ∉ cstr "Subject:"%string)). by vm_compute. }
  2:{ rewrite !length_app. lia. }
  cbn_bind. rewrite Lp. zdec. replace (0 + (8 + blen subject) - 8) with (blen subject) by lia.
  zdec. unfold pre. rewrite <- !app_assoc.
  assert (Ha : blen (l0 ++ cstr "Subject:"%string) = blen l0 + 8) by (rewrite blen_app; done).
  replace (Z.to_nat (blen subject)) with (length subject) by (unfold blen; lia).
  rewrite (app_assoc l0 (cstr "Subject:"%string)), first_line_all by (done || lia). cbn_bind.
  rewrite !dup_bytes_ok; cbn_bind;
    [|rewrite ?blen_app; change (blen BODY_NEEDLE) with 6;
      change (blen (cstr "Subject:"%string)) with 8; lia..].
  do 2 f_equal; f_equal.
  - apply slice_app_mid; lia.
  - rewrite (app_assoc _ subject), (app_assoc _ BODY_NEEDLE).
    apply slice_app_mid; rewrite ?blen_app; change (blen BODY_NEEDLE) with 6;
      change (blen (cstr "Subject:"%string)) with 8; lia.
Qed.

(** ** Reading back the payload *)

Lemma take_varint_at pre v rest p :
  is_u64 v -> p = blen pre -> blen (pre ++ varint_bytes v ++ rest) < 2 ^ 63 ->
  take_varint (pre ++ varint_bytes v ++ rest) p = Ok (blen (pre ++ varint_bytes v), v).
Proof.
  intros Hv -> Hl. unfold take_varint. rewrite drop_app_blen by done.
  rewrite !blen_app, blen_varint_bytes in *. pose proof (blen_nonneg pre).
  pose proof (blen_nonneg rest). pose proof (bm_varint_size_pos v).
  rewrite u64_small by (unfold is_u64; lia). rewrite varint_decode_cases by (done || lia).
  by rewrite bind_ok.
Qed.

Lemma take_varint_start v rest :
  is_u64 v -> blen (varint_bytes v ++ rest) < 2 ^ 63 ->
  take_varint (varint_bytes v ++ rest) 0 = Ok (blen (varint_bytes v), v).
Proof. intros. by apply (take_varint_at []). Qed.

Lemma take_block_at pre x rest p :
  p = blen pre -> blen (pre ++ varint_bytes (blen x) ++ x ++ rest) < 2 ^ 63 ->
  take_block (pre ++ varint_bytes (blen x) ++ x ++ rest) p
  = Ok (blen (pre ++ varint_bytes (blen x)), blen x, blen (pre ++ varint_bytes (blen x) ++ x)).
Proof.
  intros Hp Hl. unfold take_block. pose proof (blen_nonneg x). pose proof (blen_nonneg pre).
  pose proof (blen_nonneg rest). pose proof (bm_varint_size_pos (blen x)) as Hv.
  rewrite take_varint_at by (rewrite ?blen_app, ?blen_varint_bytes in *; unfold is_u64; lia).
  cbn_bind. rewrite !blen_app, !blen_varint_bytes in *.
  rewrite u64_small by (unfold is_u64; lia). zdec. do 2 f_equal; lia.
Qed.

(** The same with the block given by an equation. *)
Lemma take_varint_is d pre v rest p :
  d = pre ++ varint_bytes v ++ rest -> p = blen pre -> is_u64 v -> blen d < 2 ^ 63 ->
  take_varint d p = Ok (blen (pre ++ varint_bytes v), v).
Proof. intros ->. intros. by apply take_varint_at. Qed.

Lemma take_block_is d pre x rest p :
  d = pre ++ varint_bytes (blen x) ++ x ++ rest -> p = blen pre -> blen d < 2 ^ 63 ->
  take_block d p
  = Ok (blen (pre ++ varint_bytes (blen x)), blen x, blen (pre ++ varint_bytes (blen x) ++ x)).
Proof. intros ->. intros. by apply take_block_at. Qed.

Definition uncompressed (pub : list Z) : Prop := blen pub = 65 /\ take 1 pub = [4].

Lemma uncompressed_cons pub : uncompressed pub -> 4 :: slice pub 1 64 = pub.
Proof.
  intros [Hl Ht]. rewrite <- (take_drop 1 pub) at 2. rewrite Ht. cbn [app]. f_equal.
  unfold slice. apply take_ge. rewrite length_drop. unfold blen in Hl. lia.
Qed.

(** The tail of the sender's part, present from address version 3 on. *)
Lemma take_sender_tail from pre rest p :
  identity_ok from -> p = blen pre ->
  let ext := if id_address_version from >=? 3
             then varint_bytes (id_nonce_trials_per_byte from)
                  ++ varint_bytes (id_payload_length_extra_bytes from) else [] in
  let d := pre ++ ext ++ rest in
  blen d < 2 ^ 63 ->
  (if id_address_version from >=? 3 then
     '(p, nonce_trials) ← take_varint d p;
     '(p, extra_bytes) ← take_varint d p;
     Ok p
   else Ok p) = Ok (blen (pre ++ ext)).
Proof.
  intros (_ & _ & _ & _ & Hn & He) -> ext d Hl. subst ext d.
  destruct (id_address_version from >=? 3); [|by rewrite app_nil_r].
  rewrite <- !app_assoc in *. rewrite take_varint_at by (try done; lia). cbn_bind.
  rewrite (app_assoc pre) in *.
  rewrite take_varint_at by (try done; lia). cbn_bind. by rewrite <- app_assoc.
Qed.

Lemma take_sender_eq from rest :
  identity_ok from -> uncompressed (id_pub_signing from) ->
  uncompressed (id_pub_encryption from) ->
  blen (sender_bytes from ++ rest) < 2 ^ 63 ->
  take_sender (sender_bytes from ++ rest)
  = Ok {| s_version := id_address_version from; s_stream := id_stream from;
          s_pub_signing := id_pub_signing from; s_pub_encryption := id_pub_encryption from;
          s_end := blen (sender_bytes from) |}.
Proof.
  intros Hid Us Ue Hl. pose proof Hid as (Hv & Hst & Ls & Le & _ & _).
  pose proof (blen_sender_bytes from Hid) as Hm.
  unfold take_sender, sender_bytes in *.
  set (ext := if id_address_version from >=? 3 then _ else _) in *.
  set (ver := varint_bytes (id_address_version from)) in *.
  set (str := varint_bytes (id_stream from)) in *.
  set (bit := bitfield (id_does_ack from)) in *.
  set (ps := slice (id_pub_signing from) 1 64) in *.
  set (pe := slice (id_pub_encryption from) 1 64) in *.
  assert (Lb : blen bit = 4) by apply blen_bitfield.
  assert (Lps : blen ps = 64) by (apply blen_slice; lia).
  assert (Lpe : blen pe = 64) by (apply blen_slice; lia).
  pose proof (blen_nonneg ext). pose proof (blen_nonneg rest). pose proof (blen_nonneg ver).
  pose proof (blen_nonneg str). rewrite <- !app_assoc in *.
  pose proof (take_varint_start (id_address_version from)
    (str ++ bit ++ ps ++ pe ++ ext ++ rest) Hv Hl) as T1. fold ver in T1. rewrite T1. cbn_bind.
  pose proof (take_varint_at ver (id_stream from) (bit ++ ps ++ pe ++ ext ++ rest) (blen ver)
    Hst eq_refl Hl) as T2. fold str in T2. rewrite T2. cbn_bind.
  rewrite !blen_app in Hl. rewrite !blen_app, Lb, Lps, Lpe. zdec.
  assert (R : forall i f off n, [ver; str; bit; ps; pe; ext ++ rest] !! i = Some f ->
    off = blen (concat (take i [ver; str; bit; ps; pe; ext ++ rest])) -> n = blen f ->
    rdn (ver ++ str ++ bit ++ ps ++ pe ++ ext ++ rest) off n = Ok f).
  { intros i f off n Hf -> ->. pose proof (rdn_field _ i f _ _ Hf eq_refl eq_refl) as E.
    cbn [concat] in E. by rewrite app_nil_r in E. }
  rewrite (R 3%nat ps (blen ver + blen str + 4) 64) by (done || cbn [take concat]; rewrite ?blen_app, ?blen_nil; lia).
  cbn_bind.
  rewrite (R 4%nat pe (blen ver + blen str + 4 + 64) 64) by (done || cbn [take concat]; rewrite ?blen_app, ?blen_nil; lia).
  cbn_bind.
  pose proof (take_sender_tail from (ver ++ str ++ bit ++ ps ++ pe) rest
    (blen ver + blen str + 4 + 64 + 64) Hid ltac:(rewrite !blen_app; lia)) as T.
  cbv zeta in T. fold ext in T. rewrite Z.geb_leb, <- !app_assoc in T.
  rewrite T by (rewrite !blen_app; lia). cbn_bind.
  rewrite !blen_app, Lb, Lps, Lpe. unfold ps, pe. by rewrite !uncompressed_cons.
Qed.

Lemma s32_small n : 0 <= n < 2 ^ 31 -> s32 n = n.
Proof. intros. unfold s32. rewrite Z.mod_small; lia. Qed.

Section BodyLemmas.
Context `{OSL : OpenSSLLaws}.

(** The ripe of a pair of public keys. *)
Definition keys_ripe (a b : list Z) : list Z := bm_ripemd160 (bm_sha512 (a ++ b)).

Lemma verify_at_eq data pre sig pub pos len :
  pos = blen pre -> len = blen sig -> blen sig < 2 ^ 31 ->
  verify_at data (pre ++ sig) pos len pub = Ok (bm_crypto_verify data sig pub).
Proof.
  intros -> -> Hl. unfold verify_at. pose proof (blen_nonneg sig).
  rewrite s32_small by lia. zdec. rewrite rdn_suffix by done. done.
Qed.

(** The node signs the header without its nonce and the payload up to the
    signature; what it assembles for verification is exactly that. *)
Lemma to_sign_eq (object decrypted head payload rest nonce tail : list Z) (hl : Z) :
  object = nonce ++ head ++ tail -> blen nonce = 8 -> hl = 8 + blen head ->
  decrypted = payload ++ rest ->
  (h ← rdn object 8 (hl - 8);
   to_sign ← wr (malloc (hl - 8 + blen payload)) 0 h;
   p ← rdn decrypted 0 (blen payload);
   wr to_sign (hl - 8) p) = Ok (head ++ payload).
Proof.
  intros -> Hn -> ->. replace (8 + blen head - 8) with (blen head) by lia.
  pose proof (blen_nonneg head). pose proof (blen_nonneg payload).
  rewrite rdn_app_mid by lia. cbn_bind.
  rewrite wr_malloc_start by lia. cbn_bind. rewrite rdn_prefix by lia. cbn_bind.
  by rewrite wr_malloc_last by lia.
Qed.

Lemma bind_assoc {A B C} (m : cres A) (f : A -> cres B) (g : B -> cres C) :
  (m ≫= f) ≫= g = m ≫= (fun a => f a ≫= g).
Proof. by destruct m. Qed.

Lemma blen_msg_total from to_ripe subject body ack sig :
  identity_ok from -> blen to_ripe = 20 -> blen subject <= 500 -> blen body < 2 ^ 61 ->
  blen ack < 2 ^ 61 -> blen sig <= 72 ->
  let D := msg_payload from to_ripe subject body ack ++ varint_bytes (blen sig) ++ sig in
  blen (sender_bytes from) + 20 <= blen D < 2 ^ 63.
Proof.
  intros Hid Lr Hs Hb Ha Hsig D. unfold D, msg_payload, simple_encoded.
  pose proof (blen_simple_message subject body). pose proof (blen_sender_bytes from Hid).
  set (m := simple_message subject body) in *.
  pose proof (blen_nonneg subject). pose proof (blen_nonneg body). pose proof (blen_nonneg ack).
  pose proof (blen_nonneg sig). pose proof (bm_varint_size_pos (blen m)).
  pose proof (bm_varint_size_pos (blen ack)). pose proof (bm_varint_size_pos (blen sig)).
  rewrite !blen_app, !blen_varint_bytes. change (bm_varint_size 2) with 1. lia.
Qed.

(** Where the receiver finds the fields behind the recipient's ripe. *)
Lemma msg_fields from to_ripe subject body ack sig :
  let P := msg_payload from to_ripe subject body ack in
  let D := P ++ varint_bytes (blen sig) ++ sig in
  (10 ∉ subject) -> blen subject <= 500 -> blen body < 2 ^ 61 -> blen D < 2 ^ 63 ->
  exists p_enc p_msg p_ack len p_data,
    take_varint D (blen (sender_bytes from ++ to_ripe)) = Ok (p_enc, 2)
    /\ take_block D p_enc = Ok (p_msg, len, p_ack)
    /\ decode_simple D p_msg len = Ok (Some subject, Some body)
    /\ take_block D p_ack = Ok (p_data, blen ack, blen P) /\ rdn D p_data (blen ack) = Ok ack
    /\ take_block D (blen P) = Ok (blen (P ++ varint_bytes (blen sig)), blen sig, blen D).
Proof.
  intros P D Hn Hs Hb LD. set (m := simple_message subject body).
  set (p0 := sender_bytes from ++ to_ripe). set (p1 := p0 ++ varint_bytes 2).
  set (p2 := p1 ++ varint_bytes (blen m) ++ m).
  assert (EP : p2 ++ varint_bytes (blen ack) ++ ack = P)
    by (unfold p2, p1, p0, P, msg_payload, simple_encoded, m; by rewrite <- !app_assoc).
  assert (E2 : D = p2 ++ varint_bytes (blen ack) ++ ack ++ varint_bytes (blen sig) ++ sig)
    by (unfold D; rewrite <- EP; by rewrite <- !app_assoc).
  assert (E1 : D = p1 ++ varint_bytes (blen m) ++ m ++ varint_bytes (blen ack) ++ ack
    ++ varint_bytes (blen sig) ++ sig) by (rewrite E2; unfold p2; by rewrite <- !app_assoc).
  exists (blen p1), (blen (p1 ++ varint_bytes (blen m))), (blen p2), (blen m),
    (blen (p2 ++ varint_bytes (blen ack))). split_and!.
  - eapply take_varint_is; [rewrite E1; unfold p1; by rewrite <- app_assoc|done|done|done].
  - by eapply take_block_is.
  - rewrite E1, app_assoc. by apply decode_simple_message.
  - rewrite <- EP. by eapply take_block_is.
  - rewrite E2, app_assoc. by apply rdn_app_mid.
  - apply (take_block_is D P sig []); [by rewrite app_nil_r|done|done].
Qed.

(** Up to the signature check every payload is processed alike: [P] is the signed
    part, and what remains is to extract text and ack. *)
Lemma trial_body_signed identity hdr from P rest sig nonce head tail addr
    p_enc enc p_msg ml p_ack p_data al :
  let D := P ++ varint_bytes (blen sig) ++ sig in
  identity_ok from -> uncompressed (id_pub_signing from) ->
  uncompressed (id_pub_encryption from) -> blen (u_ripe identity) = 20 ->
  D = sender_bytes from ++ u_ripe identity ++ rest -> blen D < 2 ^ 63 ->
  take_varint D (blen (sender_bytes from ++ u_ripe identity)) = Ok (p_enc, enc) ->
  take_block D p_enc = Ok (p_msg, ml, p_ack) ->
  take_block D p_ack = Ok (p_data, al, blen P) ->
  take_block D (blen P) = Ok (blen (P ++ varint_bytes (blen sig)), blen sig, blen D) ->
  blen sig <= 72 -> blen nonce = 8 -> header_len hdr = 8 + blen head ->
  bm_crypto_verify (head ++ P) sig (id_pub_signing from) = true ->
  sender_address (id_address_version from) (id_stream from)
    (keys_ripe (id_pub_signing from) (id_pub_encryption from)) = Ok addr ->
  trial_decrypt_body identity hdr (nonce ++ head ++ tail) D
  = ('(subject, body) ← (if enc =? 2 then decode_simple D p_msg ml
                         else
                           subject ← dup_bytes_as_cstr D p_msg 0;
                           body ← dup_bytes_as_cstr D p_msg ml;
                           Ok (subject, body));
     ack ← (if (al >? 0) && negb (u_is_chan identity)
            then a ← rdn D p_data al; Ok (Some a) else Ok None);
     Ok {| dm_from_address_version := id_address_version from;
           dm_from_stream := id_stream from; dm_from_address := addr;
           dm_to_address := snprintf_address (u_address identity);
           dm_subject := subject; dm_body := body; dm_ack_payload := ack |}).
Proof.
  intros D Hid Us Ue Lr ED LD V B1 B2 B3 Hsig Ln Hh Hv Haddr. unfold trial_decrypt_body.
  rewrite ED, take_sender_eq, <- ED by (done || by rewrite <- ED).
  cbn_bind. cbn [s_version s_stream s_pub_signing s_pub_encryption s_end].
  assert (blen (sender_bytes from) + 20 <= blen D)
    by (rewrite ED, !blen_app; pose proof (blen_nonneg rest); lia).
  rewrite (Z.gtb_ltb _ (blen D)), (proj2 (Z.ltb_ge (blen D) _)) by lia.
  assert (R1 : rdn D (blen (sender_bytes from)) 20 = Ok (u_ripe identity))
    by (rewrite ED; by apply rdn_app_mid).
  rewrite R1. cbn_bind. rewrite list_eqb_refl. cbn [negb].
  replace (blen (sender_bytes from) + 20) with (blen (sender_bytes from ++ u_ripe identity))
    by (rewrite blen_app; lia).
  rewrite V. cbn_bind. rewrite B1. cbn_bind. rewrite B2. cbn_bind. rewrite B3. cbn_bind.
  pose proof (to_sign_eq (nonce ++ head ++ tail) D head P (varint_bytes (blen sig) ++ sig) nonce tail
    (header_len hdr) eq_refl Ln Hh eq_refl) as TS.
  apply bind_ok_inv in TS as (h & -> & TS). cbn_bind.
  apply bind_ok_inv in TS as (ts & -> & TS). cbn_bind.
  apply bind_ok_inv in TS as (pl & -> & TS). cbn_bind. rewrite TS. cbn_bind.
  assert (VA : verify_at (head ++ P) D (blen (P ++ varint_bytes (blen sig))) (blen sig)
    (id_pub_signing from) = Ok true)
    by (unfold D; rewrite app_assoc, verify_at_eq by (done || lia); by rewrite Hv).
  rewrite VA. cbn_bind. cbn [negb].
  rewrite calc_ripe_eq by (apply Us || apply Ue). cbn_bind.
  fold (keys_ripe (id_pub_signing from) (id_pub_encryption from)). by rewrite Haddr.
Qed.

Lemma trial_body_roundtrip identity hdr from to_ripe subject body ack sig nonce head tail addr :
  identity_ok from -> uncompressed (id_pub_signing from) ->
  uncompressed (id_pub_encryption from) ->
  blen to_ripe = 20 -> u_ripe identity = to_ripe ->
  (10 ∉ subject) -> blen subject <= 500 -> blen body < 2 ^ 61 -> blen ack < 2 ^ 61 ->
  blen sig <= 72 -> blen nonce = 8 -> header_len hdr = 8 + blen head ->
  bm_crypto_verify (head ++ msg_payload from to_ripe subject body ack) sig
    (id_pub_signing from) = true ->
  sender_address (id_address_version from) (id_stream from)
    (keys_ripe (id_pub_signing from) (id_pub_encryption from)) = Ok addr ->
  trial_decrypt_body identity hdr (nonce ++ head ++ tail)
    (msg_payload from to_ripe subject body ack ++ varint_bytes (blen sig) ++ sig)
  = Ok {| dm_from_address_version := id_address_version from; dm_from_stream := id_stream from;
          dm_from_address := addr; dm_to_address := snprintf_address (u_address identity);
          dm_subject := Some subject; dm_body := Some body;
          dm_ack_payload := if (blen ack >? 0) && negb (u_is_chan identity)
                            then Some ack else None |}.
Proof.
  intros Hid Us Ue Lr Er Hn Hs Hb Ha Hsig Ln Hh Hv Haddr. subst to_ripe.
  pose proof (blen_msg_total from (u_ripe identity) subject body ack sig) as [_ L2]; [done..|].
  pose proof (msg_fields from (u_ripe identity) subject body ack sig Hn Hs Hb L2)
    as (p_enc & p_msg & p_ack & len & p_data & V & B1 & DS & B2 & RA & B3).
  erewrite (trial_body_signed identity hdr from _ _ sig nonce head tail addr);
    [|done|done|done|done|unfold msg_payload; by rewrite <- !app_assoc|exact L2|exact V|exact B1
     |exact B2|exact B3|done|done|done|done|done].
  change (2 =? 2) with true. cbv iota. rewrite DS. cbn_bind. rewrite RA.
  by destruct ((blen ack >? 0) && negb (u_is_chan identity)).
Qed.
End BodyLemmas.

Section MsgLemmas.
Context `{OSL : OpenSSLLaws}.

Lemma sealed_inv head payload priv pub e o :
  sealed head payload priv pub e = Ok o ->
  exists sig ep iv ct, bm_crypto_sign (head ++ payload) priv (e_sign e) = Ok sig
    /\ e_priv e = Some ep /\ e_iv e = Some iv
    /\ bm_crypto_ecies_encrypt (payload ++ varint_bytes (blen sig) ++ sig) pub (Some ep) (Some iv)
       = Ok ct
    /\ o = head ++ ct.
Proof.
  unfold sealed. intros Ho. apply bind_ok_inv in Ho as (sig & Es & Ho).
  apply bind_ok_inv in Ho as (ct & Ec & Ho). injection Ho as <-.
  destruct (e_priv e) as [ep|] eqn:E1; [|done]. destruct (e_iv e) as [iv|] eqn:E2.
  2:{ unfold bm_crypto_ecies_encrypt in Ec. exfalso. revert Ec. rewrite bind_ok.
      destruct (bm_address_get_public_key ep); [|done|done]. rewrite bind_ok.
      destruct (ecdh_shared_secret ep pub) as [sh| |]; [|done|done]. rewrite bind_ok. cbv zeta.
      destruct (keys_read sh) as [-> ->]. by rewrite !bind_ok. }
  by exists sig, ep, iv, ct.
Qed.

Lemma sign_len data priv r sig : bm_crypto_sign data priv r = Ok sig -> blen sig <= 72.
Proof.
  unfold bm_crypto_sign. intros E. apply bind_ok_inv in E as (pub & _ & E).
  apply bind_ok_inv in E as (k & _ & E). case_match eqn:Es; [|done]. injection E as <-.
  by apply ECDSA_sign_len in Es as [? _].
Qed.

Lemma public_key_uncompressed priv pub :
  bm_address_get_public_key priv = Ok pub -> uncompressed pub.
Proof.
  intros E. apply public_key_inv in E as [M L]. split; [done|].
  by destruct (EC_base_mul_uncompressed _ _ M L) as (_ & ? & _).
Qed.

(** The header and ciphertext the receiver cuts a finished object into. *)
Lemma msg_ciphertext_eq nonce expires stream ct :
  is_u64 nonce -> is_u64 expires -> is_u64 stream ->
  exists hdr, msg_ciphertext (be_split 8 nonce ++ common_header expires BM_OBJECT_MSG 1 stream ++ ct)
    = Ok (hdr, ct)
    /\ header_len hdr = 8 + blen (common_header expires BM_OBJECT_MSG 1 stream).
Proof.
  intros Hn He Hs. unfold msg_ciphertext.
  assert (E : be_split 8 nonce ++ common_header expires BM_OBJECT_MSG 1 stream ++ ct
    = header_bytes nonce expires BM_OBJECT_MSG 1 stream ++ ct)
    by (unfold header_bytes, common_header; by rewrite <- !app_assoc).
  assert (L : 8 + blen (common_header expires BM_OBJECT_MSG 1 stream)
    = 20 + bm_varint_size 1 + bm_varint_size stream).
  { unfold common_header. rewrite !blen_app, !blen_be_split, !blen_varint_bytes. lia. }
  rewrite E, parse_header_bytes by (done || (unfold is_u64; lia)). cbn_bind.
  cbn [object_type version header_len]. change (BM_OBJECT_MSG =? BM_OBJECT_MSG) with true.
  change (1 =? 1) with true. cbn [negb orb].
  rewrite (rdn_suffix (header_bytes nonce expires BM_OBJECT_MSG 1 stream) ct).
  - cbn_bind. eexists. split; [done|]. cbn [header_len]. lia.
  - rewrite <- L. unfold header_bytes, common_header. rewrite !blen_app, !blen_be_split. lia.
  - rewrite <- L, blen_app. unfold header_bytes, common_header.
    rewrite !blen_app, !blen_be_split. lia.
Qed.

Lemma keyring_try_found pre idn post ct d :
  (forall i, i ∈ pre -> bm_crypto_ecies_decrypt ct (u_priv_encryption i) = Err) ->
  bm_crypto_ecies_decrypt ct (u_priv_encryption idn) = Ok d ->
  keyring_try (pre ++ idn :: post) ct = Ok (idn, d).
Proof.
  induction pre as [|i pre IH]; intros Hpre Hd; cbn [keyring_try app].
  - by rewrite Hd.
  - rewrite Hpre by (by left). apply IH; [|done]. intros j Hj. apply Hpre. by right.
Qed.

Lemma address_encode_exists v s ripe :
  is_u64 v -> is_u64 s -> bytes_ok ripe -> blen ripe = 20 ->
  exists a, bm_address_encode v s ripe = Ok a.
Proof.
  intros Hv Hs Hb Hr.
  assert (exists t, trim_ripe v ripe = Ok t /\ bytes_ok t) as (t & Et & Ht).
  { unfold trim_ripe. destruct ripe as [|r0 [|r1 r]]; [done|done|].
    rewrite rd_head, rd_tail by lia. change (1 - 1) with 0. rewrite rd_head. cbn_bind.
    repeat case_match; eexists; (split; [done|]); by auto with bytes. }
  rewrite (address_encode_raw v s ripe t) by done.
  destruct (base58_decode_encode (address_payload v s t
    ++ take 4 (bm_double_sha512 (address_payload v s t)))) as (b58 & -> & _).
  { unfold address_payload. pose proof (bytes_ok_varint_bytes v Hv).
    pose proof (bytes_ok_varint_bytes s Hs). solve_bytes. }
  { intros E. apply (f_equal blen) in E. unfold address_payload in E.
    rewrite !blen_app, !blen_varint_bytes in E.
    pose proof (bm_varint_size_pos v). pose proof (bm_varint_size_pos s).
    pose proof (blen_nonneg t).
    pose proof (blen_nonneg (take 4 (bm_double_sha512 (varint_bytes v ++ varint_bytes s ++ t)))).
    rewrite blen_nil in E. lia. }
  cbn_bind. by eexists.
Qed.
End MsgLemmas.

(** ** Inversion *)

Lemma dup_bytes_some buf off len x :
  dup_bytes_as_cstr buf off len = Ok (Some x) -> 0 < len -> off + len <= blen buf.
Proof.
  unfold dup_bytes_as_cstr. intros E Hl. case_match; [done|].
  rewrite (proj2 (Z.gtb_lt len 0)) in E by lia. inv_bind E. apply rdn_ok_inv in E0. lia.
Qed.

Lemma find_body_some fuel buf off len i k :
  find_body fuel buf off len i = Ok (Some k) ->
  k + 6 <= len /\ i <= k /\ off + k + 6 <= blen buf.
Proof.
  revert i. induction fuel as [|fuel IH]; intros i E; cbn [find_body] in E; [done|].
  destruct (Z.leb_spec (i + 6) len); [|done]. inv_bind E. case_match.
  - injection E as <-. apply rdn_ok_inv in E0. lia.
  - apply IH in E. lia.
Qed.

Lemma decode_simple_some buf off len s x :
  decode_simple buf off len = Ok (s, Some x) -> 0 < len -> off + len <= blen buf.
Proof.
  unfold decode_simple. intros E Hl. apply bind_ok_inv in E as ([k|] & E0 & E).
  - destruct (len >=? 6); [|done]. apply find_body_some in E0. destruct (k >? 1).
    + inv_bind E. inv_bind E. inv_bind E. injection E as _ ->.
      destruct (Z.eq_dec (len - (k + 6)) 0); [lia|]. apply dup_bytes_some in E3; lia.
    + inv_bind E. inv_bind E. injection E as _ ->. by apply dup_bytes_some in E2.
  - inv_bind E. inv_bind E. injection E as _ ->. by apply dup_bytes_some in E2.
Qed.

Lemma take_varint_inv d p q v :
  take_varint d p = Ok (q, v) -> exists c, bm_varint_decode (drop (Z.to_nat p) d)
    (u64 (blen d - p)) = Ok (c, v) /\ q = p + c /\ 1 <= c.
Proof.
  unfold take_varint. intros E. inv_bind E. destruct a as [c v']. injection E as <- <-.
  exists c. split; [done|]. apply varint_decode_le in E0. lia.
Qed.

Lemma take_varint_bound d p q v :
  bytes_ok d -> 0 <= p <= blen d -> blen d < 2 ^ 63 -> take_varint d p = Ok (q, v) ->
  p < q <= blen d /\ is_u64 v.
Proof.
  intros Hb Hp Hl E. apply take_varint_inv in E as (c & E & -> & Hc).
  rewrite u64_small in E by (unfold is_u64; lia).
  apply varint_decode_inv in E as (_ & Hle & _ & Hv & _); [|auto with bytes]. split; [lia|done].
Qed.

Lemma take_block_bound d p st len q :
  bytes_ok d -> 0 <= p <= blen d -> blen d < 2 ^ 63 -> take_block d p = Ok (st, len, q) ->
  p < st <= blen d /\ is_u64 len /\ q = u64 (st + len) /\ 0 <= q <= blen d.
Proof.
  intros Hb Hp Hl E. unfold take_block in E. inv_bind E. destruct a as [st' len'].
  apply take_varint_bound in E0; [|done..]. destruct (Z.gtb_spec (u64 (st' + len')) (blen d)); [done|].
  injection E as <- <- <-. pose proof (u64_range (st' + len')) as R. unfold is_u64 in R.
  split_and!; (done || lia || tauto).
Qed.

Lemma take_sender_inv d s :
  take_sender d = Ok s ->
  blen (s_pub_signing s) = 65 /\ blen (s_pub_encryption s) = 65 /\ 0 <= s_end s.
Proof.
  unfold take_sender. intros E.
  apply bind_ok_inv in E as ([p1 v1] & E1 & E). apply take_varint_inv in E1 as (c1 & _ & -> & ?).
  apply bind_ok_inv in E as ([p2 v2] & E2 & E). apply take_varint_inv in E2 as (c2 & _ & -> & ?).
  cbv zeta in E. case_match; [done|].
  apply bind_ok_inv in E as (x & Ex & E). apply rdn_ok_inv in Ex as (-> & ? & _ & ?).
  apply bind_ok_inv in E as (y & Ey & E). apply rdn_ok_inv in Ey as (-> & _ & _ & ?).
  apply bind_ok_inv in E as (p3 & E3 & E). injection E as <-. cbn [s_pub_signing s_pub_encryption s_end].
  rewrite !blen_cons, !blen_slice by lia. split_and!; [done|done|].
  case_match; [|injection E3 as <-; lia].
  apply bind_ok_inv in E3 as ([p4 v4] & E4 & E3). apply take_varint_inv in E4 as (c4 & _ & -> & ?).
  apply bind_ok_inv in E3 as ([p5 v5] & E5 & E3). apply take_varint_inv in E5 as (c5 & _ & -> & ?).
  injection E3 as <-. lia.
Qed.

Section Soundness.
Context `{OSL : OpenSSLLaws}.

(** Subject and body in the message block, as [trial_decrypt_body] reads them. *)
Definition message_texts (decrypted : list Z) (encoding msg_data msg_len : Z)
    : cres (option (list Z) * option (list Z)) :=
  if encoding =? 2 then decode_simple decrypted msg_data msg_len
  else
    subject ← dup_bytes_as_cstr decrypted msg_data 0;
    body ← dup_bytes_as_cstr decrypted msg_data msg_len;
    Ok (subject, body).

(** What an accepted message proves about its object: [decrypted] is the
    plaintext, [presig] how much of it is signed: everything up to the end of the ack. *)
Definition msg_evidence (idn : bm_unlocked_identity) (hdr : bm_object_header)
    (object decrypted : list Z) (out : bm_decoded_msg) : Prop :=
  exists s p_encoded encoding msg_data msg_len p_msg ack_data ack_len presig sig,
    take_sender decrypted = Ok s
    /\ slice decrypted (s_end s) 20 = u_ripe idn
    /\ take_varint decrypted (s_end s + 20) = Ok (p_encoded, encoding)
    /\ take_block decrypted p_encoded = Ok (msg_data, msg_len, p_msg)
    /\ take_block decrypted p_msg = Ok (ack_data, ack_len, presig)
    /\ bm_crypto_verify (slice object 8 (header_len hdr - 8) ++ slice decrypted 0 presig) sig
         (s_pub_signing s) = true
    /\ sender_address (s_version s) (s_stream s)
         (keys_ripe (s_pub_signing s) (s_pub_encryption s)) = Ok (dm_from_address out)
    /\ dm_from_address_version out = s_version s /\ dm_from_stream out = s_stream s
    /\ dm_to_address out = snprintf_address (u_address idn)
    /\ message_texts decrypted encoding msg_data msg_len = Ok (dm_subject out, dm_body out)
    /\ dm_ack_payload out
       = (if (ack_len >? 0) && negb (u_is_chan idn) then Some (slice decrypted ack_data ack_len) else None)
    /\ (bytes_ok decrypted -> blen decrypted < 2 ^ 63 -> u_is_chan idn = false ->
        dm_body out <> None ->
        s_end s + 20 < msg_data /\ msg_data + msg_len < ack_data /\ ack_data + ack_len = presig
        /\ presig <= blen decrypted).

Lemma to_sign_inv object decrypted hl n h t p r :
  rdn object 8 (hl - 8) = Ok h -> wr (malloc (hl - 8 + n)) 0 h = Ok t ->
  rdn decrypted 0 n = Ok p -> wr t (hl - 8) p = Ok r ->
  r = slice object 8 (hl - 8) ++ slice decrypted 0 n.
Proof.
  intros Eh Et Ep E. apply rdn_ok_inv in Eh as (-> & _ & ? & ?).
  apply rdn_ok_inv in Ep as (-> & _ & ? & ?).
  rewrite wr_malloc_start in Et by (rewrite blen_slice; lia). injection Et as <-.
  rewrite blen_slice in E by lia.
  rewrite wr_malloc_last in E by (rewrite blen_slice; lia). by injection E as <-.
Qed.

Lemma verify_at_true data buf pos len pub :
  verify_at data buf pos len pub = Ok true -> exists sig, bm_crypto_verify data sig pub = true.
Proof.
  unfold verify_at. case_match; [done|]. intros E. inv_bind E. injection E as E. by exists a.
Qed.

(** Without wrap-around the message and the ack lie in the signed part, which ends with the ack. *)
Lemma signed_covers decrypted p enc md ml p2 ad al p3 subject body :
  bytes_ok decrypted -> blen decrypted < 2 ^ 63 -> 0 <= p <= blen decrypted ->
  take_block decrypted p = Ok (md, ml, p2) -> take_block decrypted p2 = Ok (ad, al, p3) ->
  message_texts decrypted enc md ml = Ok (subject, body) ->
  (al > 0 -> ad + al <= blen decrypted) -> body <> None ->
  p < md /\ md + ml < ad /\ ad + al = p3 /\ p3 <= blen decrypted.
Proof.
  intros Hb Hl Hp B1 B2 T A Hn. destruct body as [body|]; [|done]. unfold message_texts in T.
  apply take_block_bound in B1 as (? & Hm & -> & ?); [|done..]. unfold is_u64 in Hm.
  assert (ml = 0 \/ md + ml <= blen decrypted) as Hml.
  { destruct (Z.eq_dec ml 0); [by left|right]. destruct (enc =? 2).
    - apply decode_simple_some in T; lia.
    - inv_bind T. inv_bind T. injection T as _ ->. apply dup_bytes_some in E0; lia. }
  rewrite u64_small in B2 by (unfold is_u64; lia).
  apply take_block_bound in B2 as (? & Ha & -> & ?); [|done|lia|done]. unfold is_u64 in Ha.
  assert (al = 0 \/ ad + al <= blen decrypted) as Hal by lia.
  rewrite u64_small by (unfold is_u64; lia). lia.
Qed.

Lemma trial_body_inv idn hdr object decrypted out :
  trial_decrypt_body idn hdr object decrypted = Ok out ->
  msg_evidence idn hdr object decrypted out.
Proof.
  unfold trial_decrypt_body. intros E. apply bind_ok_inv in E as (s & Es & E). cbv zeta in E.
  pose proof (take_sender_inv _ _ Es) as (L1 & L2 & L3).
  destruct (Z.gtb_spec (s_end s + 20) (blen decrypted)); [done|].
  apply bind_ok_inv in E as (tr & Er & E). apply rdn_ok_inv in Er as (-> & _).
  destruct (list_eqb _ _) eqn:Eq; [|done]. apply list_eqb_eq in Eq. cbn [negb] in E.
  apply bind_ok_inv in E as ([p1 enc] & E1 & E). apply bind_ok_inv in E as ([[md ml] p2] & E2 & E).
  apply bind_ok_inv in E as ([[ad al] p3] & E3 & E). apply bind_ok_inv in E as ([[sp sl] p4] & _ & E).
  apply bind_ok_inv in E as (h & Eh & E). apply bind_ok_inv in E as (t & Et & E).
  apply bind_ok_inv in E as (pl & Ep & E). apply bind_ok_inv in E as (ts & Ets & E).
  rewrite (to_sign_inv _ _ _ _ _ _ _ _ Eh Et Ep Ets) in E.
  apply bind_ok_inv in E as ([] & Ev & E); [|done]. cbn [negb] in E.
  apply verify_at_true in Ev as [sig Ev]. rewrite calc_ripe_eq, bind_ok in E by done.
  apply bind_ok_inv in E as (addr & Ea & E). apply bind_ok_inv in E as ([sj bd] & Et' & E).
  apply bind_ok_inv in E as (ack & Eack & E). injection E as <-.
  assert (Ha : ack = (if (al >? 0) && negb (u_is_chan idn) then Some (slice decrypted ad al) else None)
               /\ ((al >? 0) && negb (u_is_chan idn) = true -> ad + al <= blen decrypted)).
  { destruct ((al >? 0) && negb (u_is_chan idn)).
    - inv_bind Eack. apply rdn_ok_inv in E as (-> & _ & _ & ?). injection Eack as <-. by split.
    - injection Eack as <-. by split. }
  destruct Ha as [Ha Hin].
  exists s, p1, enc, md, ml, p2, ad, al, p3, sig. cbn [dm_from_address dm_from_address_version dm_from_stream dm_to_address
    dm_subject dm_ack_payload dm_body]. split_and!; try done.
  intros Hb Hl Hc Hn. apply take_varint_bound in E1 as [? _]; [|done|lia|done]. rewrite Hc in Hin.
  destruct (signed_covers decrypted p1 enc md ml p2 ad al p3 sj bd) as (? & ? & ? & ?); try done; [lia| |lia].
  intros Hal. apply Hin. by rewrite (proj2 (Z.gtb_lt _ _)) by lia.
Qed.

Lemma keyring_try_inv kr ct idn d :
  keyring_try kr ct = Ok (idn, d) ->
  idn ∈ kr /\ bm_crypto_ecies_decrypt ct (u_priv_encryption idn) = Ok d.
Proof.
  induction kr as [|i kr IH]; cbn [keyring_try]; [done|]. intros E.
  destruct (bm_crypto_ecies_decrypt ct (u_priv_encryption i)) eqn:Ed; [| |done].
  - injection E as <- <-. split; [by left|done].
  - destruct (IH E). split; [by right|done].
Qed.

Lemma msg_ciphertext_inv object hdr ct :
  msg_ciphertext object = Ok (hdr, ct) ->
  bm_object_parse_header object = Ok hdr /\ object_type hdr = BM_OBJECT_MSG /\ version hdr = 1
  /\ ct = drop (Z.to_nat (header_len hdr)) object.
Proof.
  unfold msg_ciphertext. intros E. apply bind_ok_inv in E as (h & Eh & E).
  destruct (Z.eqb_spec (object_type h) BM_OBJECT_MSG); [|done].
  destruct (Z.eqb_spec (version h) 1); [|done]. cbn [negb orb] in E.
  apply bind_ok_inv in E as (c & Ec & E). injection E as <- <-.
  apply rdn_ok_inv in Ec as (-> & ? & ? & ?). split_and!; try done.
  unfold slice. apply take_ge. rewrite length_drop. unfold blen. lia.
Qed.
End Soundness.

(** ** A length field that wraps

    A payload whose message length is 2^64 - 1: the position behind the message
    is one byte back, on the last byte of that length field, which with the
    eight zero bytes behind it reads as an ack length of 0. *)
Definition wrapped_payload (from : bm_identity_info) (to_ripe : list Z) : list Z :=
  sender_bytes from ++ to_ripe ++ varint_bytes 1 ++ varint_bytes (2 ^ 64 - 1) ++ replicate 8 0.

Section Wrap.
Context `{OSL : OpenSSLLaws}.

Lemma wrapped_fields from to_ripe sig :
  identity_ok from -> blen to_ripe = 20 -> blen sig <= 72 ->
  let P := wrapped_payload from to_ripe in
  let D := P ++ varint_bytes (blen sig) ++ sig in
  exists p_enc p_msg p_data,
    take_varint D (blen (sender_bytes from ++ to_ripe)) = Ok (p_enc, 1)
    /\ take_block D p_enc = Ok (p_msg, 2 ^ 64 - 1, p_msg - 1) /\ 0 < p_msg
    /\ take_block D (p_msg - 1) = Ok (p_data, 0, blen P)
    /\ take_block D (blen P) = Ok (blen (P ++ varint_bytes (blen sig)), blen sig, blen D)
    /\ blen (sender_bytes from) + 20 <= blen D < 2 ^ 63.
Proof.
  intros Hid Lr Ls P D. pose proof (blen_sender_bytes from Hid) as LS.
  pose proof (blen_nonneg sig). pose proof (bm_varint_size_pos (blen sig)).
  set (p0 := sender_bytes from ++ to_ripe). set (p1 := p0 ++ varint_bytes 1).
  set (R := varint_bytes (blen sig) ++ sig).
  assert (EP : P = p1 ++ varint_bytes (2 ^ 64 - 1) ++ replicate 8 0)
    by (unfold P, wrapped_payload, p1, p0; by rewrite <- !app_assoc).
  assert (E1 : D = p1 ++ varint_bytes (2 ^ 64 - 1) ++ replicate 8 0 ++ R)
    by (unfold D; rewrite EP; by rewrite <- !app_assoc).
  assert (E2 : D = (p1 ++ replicate 8 255) ++ (255 :: replicate 8 0) ++ R)
    by (rewrite E1, <- app_assoc; done).
  assert (L1 : blen p1 = blen (sender_bytes from) + 21)
    by (unfold p1, p0; rewrite !blen_app, Lr; change (blen (varint_bytes 1)) with 1; lia).
  assert (LP : blen P = blen p1 + 17)
    by (rewrite EP, !blen_app; change (blen (varint_bytes (2 ^ 64 - 1))) with 9;
        change (blen (replicate 8 0)) with 8; lia).
  assert (LD : blen D = blen P + blen R) by (unfold D; by rewrite blen_app).
  assert (LR : 1 <= blen R <= 81) by (unfold R; rewrite blen_app, blen_varint_bytes; lia).
  exists (blen p1), (blen p1 + 9), (blen p1 + 17). split_and!; try lia.
  - eapply take_varint_is; [rewrite E1; unfold p1; by rewrite <- app_assoc|done|done|lia].
  - unfold take_block.
    rewrite (take_varint_is D p1 (2 ^ 64 - 1) (replicate 8 0 ++ R))
      by (done || lia || (unfold is_u64; lia)).
    cbn_bind. rewrite blen_app. change (blen (varint_bytes (2 ^ 64 - 1))) with 9.
    replace (u64 (blen p1 + 9 + (2 ^ 64 - 1))) with (blen p1 + 9 - 1).
    2:{ unfold u64. replace (blen p1 + 9 + (2 ^ 64 - 1)) with (blen p1 + 9 - 1 + 1 * 2 ^ 64) by lia.
        rewrite Z.mod_add, Z.mod_small; lia. }
    by zdec.
  - unfold take_block, take_varint. rewrite E2.
    rewrite drop_app_blen by (rewrite blen_app; change (blen (replicate 8 255)) with 8; lia).
    rewrite <- E2. rewrite u64_small by (unfold is_u64; lia).
    assert (V : bm_varint_decode ((255 :: replicate 8 0) ++ R) (blen D - (blen p1 + 9 - 1)) = Ok (9, 0))
      by (unfold bm_varint_decode; zdec; cbn [replicate app];
          rewrite (rd_ok _ 0 255), (rd_ok _ 1 0), (rd_ok _ 2 0), (rd_ok _ 3 0), (rd_ok _ 4 0),
            (rd_ok _ 5 0), (rd_ok _ 6 0), (rd_ok _ 7 0), (rd_ok _ 8 0) by done; done).
    rewrite V. cbn_bind. rewrite u64_small by (unfold is_u64; lia). zdec. do 3 f_equal; lia.
  - apply (take_block_is D P sig []); [by rewrite app_nil_r|done|lia].
Qed.

Lemma dup_bytes_wrap buf off :
  0 <= off -> blen buf < 2 ^ 63 -> dup_bytes_as_cstr buf off (2 ^ 64 - 1) = Ub.
Proof.
  intros Ho Hb. unfold dup_bytes_as_cstr. change (u64 (2 ^ 64 - 1 + 1)) with 0.
  change (0 >? PTRDIFF_MAX) with false. change (2 ^ 64 - 1 >? 0) with true. cbv iota.
  by rewrite rdn_oob by lia.
Qed.

Lemma trial_body_wrap identity hdr from sig nonce head tail addr :
  identity_ok from -> uncompressed (id_pub_signing from) ->
  uncompressed (id_pub_encryption from) -> blen (u_ripe identity) = 20 ->
  blen sig <= 72 -> blen nonce = 8 -> header_len hdr = 8 + blen head ->
  bm_crypto_verify (head ++ wrapped_payload from (u_ripe identity)) sig
    (id_pub_signing from) = true ->
  sender_address (id_address_version from) (id_stream from)
    (keys_ripe (id_pub_signing from) (id_pub_encryption from)) = Ok addr ->
  trial_decrypt_body identity hdr (nonce ++ head ++ tail)
    (wrapped_payload from (u_ripe identity) ++ varint_bytes (blen sig) ++ sig) = Ub.
Proof.
  intros Hid Us Ue Lr Hsig Ln Hh Hv Haddr.
  pose proof (wrapped_fields from (u_ripe identity) sig Hid Lr Hsig)
    as (p_enc & p_msg & p_data & V & B1 & Hp & B2 & B3 & L1 & L2).
  erewrite (trial_body_signed identity hdr from _ _ sig nonce head tail addr);
    [|done|done|done|done|unfold wrapped_payload; by rewrite <- !app_assoc|exact L2|exact V|exact B1
     |exact B2|exact B3|done|done|done|done|done].
  change (1 =? 2) with false. cbv iota.
  change (dup_bytes_as_cstr (wrapped_payload from (u_ripe identity) ++ varint_bytes (blen sig) ++ sig)
    p_msg 0) with (Ok (Some ([] : list Z))). cbn_bind. by rewrite dup_bytes_wrap by lia.
Qed.
End Wrap.

(** ** Properties *)

Section MsgProperties.
Context `{OSL : OpenSSLLaws}.

(** A sealed payload reaches [trial_decrypt_body]. *)
Lemma trial_decrypt_sealed nonce expires stream payload priv pub e o idn pre post to_pub :
  is_u64 nonce -> is_u64 expires -> is_u64 stream ->
  bm_address_get_public_key priv = Ok pub ->
  bm_address_get_public_key (u_priv_encryption idn) = Ok to_pub ->
  (forall iv, e_iv e = Some iv -> blen iv = 16) ->
  let head := common_header expires BM_OBJECT_MSG 1 stream in
  sealed head payload priv to_pub e = Ok o ->
  (forall i, i ∈ pre -> bm_crypto_ecies_decrypt (drop (Z.to_nat (blen head)) o)
     (u_priv_encryption i) = Err) ->
  exists hdr sig ct, o = head ++ ct /\ header_len hdr = 8 + blen head /\ blen sig <= 72
    /\ bm_crypto_verify (head ++ payload) sig pub = true
    /\ bm_trial_decrypt_msg (pre ++ idn :: post) (be_split 8 nonce ++ o)
       = trial_decrypt_body idn hdr (be_split 8 nonce ++ head ++ ct)
           (payload ++ varint_bytes (blen sig) ++ sig).
Proof.
  intros Hn He Hs Hp Ht Hiv head Ho Hpre.
  apply sealed_inv in Ho as (sig & ep & iv & ct & Es & Ep & Ei & Ec & ->).
  rewrite drop_app_blen in Hpre by done.
  destruct (msg_ciphertext_eq nonce expires stream ct) as (hdr & Em & Hh); [done..|].
  exists hdr, sig, ct. split_and!; [done|done|by eapply sign_len|by eapply sign_verify|].
  unfold bm_trial_decrypt_msg. fold head in Em. rewrite Em. cbn_bind.
  erewrite keyring_try_found; [by cbn_bind|done|].
  by eapply ecies_decrypt_encrypt; [apply Hiv|..].
Qed.

Lemma sender_address_ok v s a b :
  is_u64 v -> is_u64 s ->
  exists addr, bm_address_encode v s (keys_ripe a b) = Ok addr
    /\ sender_address v s (keys_ripe a b) = Ok (snprintf_address addr).
Proof.
  intros Hv Hs. destruct (address_encode_exists v s (keys_ripe a b)) as [addr E];
    [done|done|apply RIPEMD160_bytes|apply RIPEMD160_len|].
  exists addr. unfold sender_address. by rewrite E.
Qed.

(** What [bm_build_msg] makes is read by its recipient. *)
Lemma build_msg_decrypts (from : bm_identity_info) (idn : bm_unlocked_identity)
    (pre post : list bm_unlocked_identity) (to_pub subject body ack o : list Z)
    (to_stream expires nonce : Z) (e : entropy) :
  identity_ok from -> uncompressed (id_pub_encryption from) ->
  bm_address_get_public_key (id_priv_signing from) = Ok (id_pub_signing from) ->
  bm_address_get_public_key (u_priv_encryption idn) = Ok to_pub -> blen (u_ripe idn) = 20 ->
  is_u64 nonce -> is_u64 expires -> is_u64 to_stream ->
  (10 ∉ subject) -> blen subject <= 500 -> blen body < 2 ^ 61 -> blen ack < 2 ^ 61 ->
  (forall iv, e_iv e = Some iv -> blen iv = 16) ->
  bm_build_msg from to_stream (u_ripe idn) to_pub subject body (Some ack) (blen ack) expires e
  = Ok o ->
  (forall i, i ∈ pre ->
     bm_crypto_ecies_decrypt (drop (Z.to_nat (blen (common_header expires BM_OBJECT_MSG 1 to_stream))) o)
       (u_priv_encryption i) = Err) ->
  exists addr,
    bm_address_encode (id_address_version from) (id_stream from)
      (keys_ripe (id_pub_signing from) (id_pub_encryption from)) = Ok addr
    /\ bm_trial_decrypt_msg (pre ++ idn :: post) (be_split 8 nonce ++ o)
       = Ok {| dm_from_address_version := id_address_version from;
               dm_from_stream := id_stream from; dm_from_address := snprintf_address addr;
               dm_to_address := snprintf_address (u_address idn);
               dm_subject := Some subject; dm_body := Some body;
               dm_ack_payload := if (blen ack >? 0) && negb (u_is_chan idn)
                                 then Some ack else None |}.
Proof.
  intros Hid Ue Hk Ht Lr Hn He Hst Hs1 Hs2 Hb Ha Hiv Ho Hpre.
  destruct (sender_address_ok (id_address_version from) (id_stream from) (id_pub_signing from)
    (id_pub_encryption from)) as (addr & Ea & Es); [apply Hid..|].
  exists addr. split; [done|]. rewrite build_msg_eq in Ho by done.
  destruct (trial_decrypt_sealed nonce expires to_stream _ _ _ _ o idn pre post to_pub Hn He Hst
    Hk Ht Hiv Ho Hpre) as (hdr & sig & ct & _ & Hh & Hsig & Hv & ->).
  apply trial_body_roundtrip; try done. by eapply public_key_uncompressed.
Qed.

(** C2: A message reaches its reader: the object [bm_build_msg] makes for a
    recipient, with any nonce in front, is decrypted by [bm_trial_decrypt_msg] on
    any keyring that holds the recipient (behind keys that do not open it) to the
    sender's version, stream and address, the subject (one line of at most 500
    bytes), the body and the ack, which is withheld for a chan. *)
Theorem bm_trial_decrypt_msg_roundtrip (from : bm_identity_info) (idn : bm_unlocked_identity)
    (pre post : list bm_unlocked_identity) (to_pub subject body ack o : list Z)
    (to_stream expires nonce : Z) (e : entropy) :
  identity_ok from -> uncompressed (id_pub_encryption from) ->
  bm_address_get_public_key (id_priv_signing from) = Ok (id_pub_signing from) ->
  bm_address_get_public_key (u_priv_encryption idn) = Ok to_pub -> blen (u_ripe idn) = 20 ->
  is_u64 nonce -> is_u64 expires -> is_u64 to_stream ->
  (10 ∉ subject) -> blen subject <= 500 -> blen body < 2 ^ 61 -> blen ack < 2 ^ 61 ->
  (forall iv, e_iv e = Some iv -> blen iv = 16) ->
  bm_build_msg from to_stream (u_ripe idn) to_pub subject body (Some ack) (blen ack) expires e
  = Ok o ->
  (forall i, i ∈ pre ->
     bm_crypto_ecies_decrypt (drop (Z.to_nat (blen (common_header expires BM_OBJECT_MSG 1 to_stream))) o)
       (u_priv_encryption i) = Err) ->
  exists addr,
    bm_address_encode (id_address_version from) (id_stream from)
      (keys_ripe (id_pub_signing from) (id_pub_encryption from)) = Ok addr
    /\ bm_trial_decrypt_msg (pre ++ idn :: post) (be_split 8 nonce ++ o)
       = Ok {| dm_from_address_version := id_address_version from;
               dm_from_stream := id_stream from; dm_from_address := snprintf_address addr;
               dm_to_address := snprintf_address (u_address idn);
               dm_subject := Some subject; dm_body := Some body;
               dm_ack_payload := if (blen ack >? 0) && negb (u_is_chan idn)
                                 then Some ack else None |}.
Proof. apply build_msg_decrypts. Qed.

(** C22: Authenticity of the inbox: whatever bytes are received as an object, a
    message is accepted only if it has a [msg] header of version 1, some
    identity of the keyring opens it, names that identity as its recipient, and
    the signature over header and payload verifies under the signing key from
    which the sender's address is computed; the subject, the body and the ack that are handed
    out are those of the decrypted payload, whose signed part ends with the ack, so that
    without a chan and with a readable body both blocks lie inside it (in a payload of bytes,
    shorter than 2^63). *)
Theorem bm_trial_decrypt_msg_authentic (kr : list bm_unlocked_identity) (object : list Z)
    (out : bm_decoded_msg) :
  bm_trial_decrypt_msg kr object = Ok out ->
  exists idn hdr decrypted,
    idn ∈ kr /\ bm_object_parse_header object = Ok hdr /\ object_type hdr = BM_OBJECT_MSG
    /\ version hdr = 1
    /\ bm_crypto_ecies_decrypt (drop (Z.to_nat (header_len hdr)) object) (u_priv_encryption idn)
       = Ok decrypted
    /\ msg_evidence idn hdr object decrypted out.
Proof.
  intros E. unfold bm_trial_decrypt_msg in E. apply bind_ok_inv in E as ([hdr ct] & Ec & E).
  apply bind_ok_inv in E as ([idn d] & Ek & E). apply msg_ciphertext_inv in Ec as (E1 & E2 & E3 & ->).
  apply keyring_try_inv in Ek as [K1 K2]. apply trial_body_inv in E.
  by exists idn, hdr, d.
Qed.

(** The bounds checks of [trial_decrypt_body] can be passed by wrapping:
    any sender can make, for any recipient whose keys it knows, a correctly
    signed and encrypted object on which the recipient reads outside the
    decrypted payload. *)
Theorem bm_trial_decrypt_msg_len_wrap (from : bm_identity_info) (idn : bm_unlocked_identity)
    (post : list bm_unlocked_identity) (to_pub o : list Z) (to_stream expires nonce : Z)
    (e : entropy) :
  identity_ok from -> uncompressed (id_pub_encryption from) ->
  bm_address_get_public_key (id_priv_signing from) = Ok (id_pub_signing from) ->
  bm_address_get_public_key (u_priv_encryption idn) = Ok to_pub -> blen (u_ripe idn) = 20 ->
  is_u64 nonce -> is_u64 expires -> is_u64 to_stream ->
  (forall iv, e_iv e = Some iv -> blen iv = 16) ->
  sealed (common_header expires BM_OBJECT_MSG 1 to_stream) (wrapped_payload from (u_ripe idn))
    (id_priv_signing from) to_pub e = Ok o ->
  bm_trial_decrypt_msg (idn :: post) (be_split 8 nonce ++ o) = Ub.
Proof.
  intros Hid Ue Hk Ht Lr Hn He Hst Hiv Ho.
  destruct (sender_address_ok (id_address_version from) (id_stream from) (id_pub_signing from)
    (id_pub_encryption from)) as (addr & Ea & Es); [apply Hid..|].
  destruct (trial_decrypt_sealed nonce expires to_stream _ _ _ _ o idn [] post to_pub Hn He Hst
    Hk Ht Hiv Ho ltac:(by intros i Hi; inv Hi)) as (hdr & sig & ct & _ & Hh & Hsig & Hv & E).
  cbn [app] in E. rewrite E.
  eapply trial_body_wrap; try done. by eapply public_key_uncompressed.
Qed.

(** Storing is idempotent: an accepted message adds one inbox row, under the
    inventory hash of its object, unless that row exists, and receiving the
    object again leaves the inbox as it is. *)
Theorem bm_trial_decrypt_and_store_once (kr : list bm_unlocked_identity) (db db' : inbox)
    (object : list Z) (now now' : Z) (ack : option (list Z)) :
  bm_trial_decrypt_and_store kr db object now = Ok (db', ack) ->
  bm_trial_decrypt_and_store kr db' object now' = Ok (db', ack)
  /\ is_Some (db' !! bm_inventory_hash object)
  /\ forall id, (id <> bm_inventory_hash object \/ is_Some (db !! id)) -> db' !! id = db !! id.
Proof.
  unfold bm_trial_decrypt_and_store. intros E. apply bind_ok_inv in E as (d & -> & E). cbn_bind.
  unfold store_decoded_msg, bm_messages_store_insert_inbox, insert_or_ignore in *.
  destruct (dm_subject d) as [sj|]; [|done]. destruct (dm_body d) as [bd|]; [|done].
  rewrite bind_ok in E. injection E as <- <-. rewrite bind_ok.
  destruct (db !! bm_inventory_hash object) as [row|] eqn:Ed.
  - rewrite Ed. split_and!; [done|by eexists|done].
  - rewrite lookup_insert_eq. split_and!; [done|by eexists|].
    intros id [Hne|Hs]; [by apply lookup_insert_ne|].
    apply lookup_insert_ne. intros <-. rewrite Ed in Hs. by destruct Hs.
Qed.
End MsgProperties.

Section MsgWitnesses.
#[local] Existing Instance toy_OpenSSL.
#[local] Existing Instance toy_OpenSSLLaws.

Definition from_example : bm_identity_info :=
  {| id_address_version := 4; id_stream := 1; id_pub_signing := toy_mul (replicate 32 3);
     id_pub_encryption := toy_mul (replicate 32 7); id_priv_signing := replicate 32 3;
     id_nonce_trials_per_byte := 1000; id_payload_length_extra_bytes := 1000;
     id_does_ack := true |}.
Definition to_example : bm_unlocked_identity :=
  {| u_address := cstr "BM-2c"%string; u_ripe := replicate 20 8; u_priv_signing := replicate 32 10;
     u_priv_encryption := replicate 32 9; u_pub_signing := toy_mul (replicate 32 10);
     u_pub_encryption := toy_mul (replicate 32 9); u_address_version := 4; u_stream := 1;
     u_nonce_trials_per_byte := 1000; u_payload_length_extra_bytes := 1000; u_is_chan := false;
     u_unlocked_at := 0 |}.
Definition entropy_example : entropy :=
  {| e_sign := []; e_priv := Some (replicate 32 5); e_iv := Some (replicate 16 6) |}.
Definition msg_object_example : list Z :=
  match bm_build_msg from_example 1 (u_ripe to_example) (toy_mul (replicate 32 9))
          (cstr "hi"%string) (cstr "there"%string) (Some [1; 2]) 2 1700000000 entropy_example
  with Ok o => o | _ => [] end.

Lemma from_example_ok : identity_ok from_example.
Proof. unfold identity_ok, is_u64. cbn -[blen toy_mul]. split_and!; (lia || by vm_compute). Qed.
Lemma from_example_point : uncompressed (id_pub_encryption from_example).
Proof. split; by vm_compute. Qed.

Lemma bm_trial_decrypt_msg_roundtrip_witness :
  exists addr,
    bm_address_encode (id_address_version from_example) (id_stream from_example)
      (keys_ripe (id_pub_signing from_example) (id_pub_encryption from_example)) = Ok addr
    /\ bm_trial_decrypt_msg ([] ++ to_example :: []) (be_split 8 77 ++ msg_object_example)
       = Ok {| dm_from_address_version := id_address_version from_example;
               dm_from_stream := id_stream from_example;
               dm_from_address := snprintf_address addr;
               dm_to_address := snprintf_address (u_address to_example);
               dm_subject := Some (cstr "hi"%string); dm_body := Some (cstr "there"%string);
               dm_ack_payload := if (blen [1; 2] >? 0) && negb (u_is_chan to_example)
                                 then Some [1; 2] else None |}.
Proof.
  eapply (bm_trial_decrypt_msg_roundtrip from_example to_example [] [] (toy_mul (replicate 32 9))
    (cstr "hi"%string) (cstr "there"%string) [1; 2] msg_object_example 1 1700000000 77
    entropy_example).
  - exact from_example_ok.
  - exact from_example_point.
  - by vm_compute.
  - by vm_compute.
  - by vm_compute.
  - unfold is_u64. lia.
  - unfold is_u64. lia.
  - unfold is_u64. lia.
  - apply (bool_decide_unpack _). by vm_compute.
  - by vm_compute.
  - by vm_compute.
  - by vm_compute.
  - by intros iv [= <-].
  - by vm_compute.
  - intros i Hi. inv Hi.
Defined.

Lemma bm_trial_decrypt_msg_authentic_witness :
  exists out, bm_trial_decrypt_msg [to_example] (be_split 8 77 ++ msg_object_example) = Ok out
  /\ exists idn hdr decrypted,
    idn ∈ [to_example]
    /\ bm_object_parse_header (be_split 8 77 ++ msg_object_example) = Ok hdr
    /\ object_type hdr = BM_OBJECT_MSG /\ version hdr = 1
    /\ bm_crypto_ecies_decrypt
         (drop (Z.to_nat (header_len hdr)) (be_split 8 77 ++ msg_object_example))
         (u_priv_encryption idn) = Ok decrypted
    /\ msg_evidence idn hdr (be_split 8 77 ++ msg_object_example) decrypted out.
Proof.
  destruct (bm_trial_decrypt_msg [to_example] (be_split 8 77 ++ msg_object_example))
    as [out| |] eqn:E; [|by vm_compute in E..].
  exists out. split; [reflexivity|]. exact (bm_trial_decrypt_msg_authentic _ _ _ E).
Defined.

Lemma bm_trial_decrypt_msg_len_wrap_witness :
  bm_trial_decrypt_msg [to_example]
    (be_split 8 77 ++
     match sealed (common_header 1700000000 BM_OBJECT_MSG 1 1)
             (wrapped_payload from_example (u_ripe to_example)) (replicate 32 3)
             (toy_mul (replicate 32 9)) entropy_example with Ok o => o | _ => [] end) = Ub.
Proof.
  eapply (bm_trial_decrypt_msg_len_wrap from_example to_example [] (toy_mul (replicate 32 9)) _
    1 1700000000 77 entropy_example).
  - exact from_example_ok.
  - exact from_example_point.
  - by vm_compute.
  - by vm_compute.
  - by vm_compute.
  - unfold is_u64. lia.
  - unfold is_u64. lia.
  - unfold is_u64. lia.
  - by intros iv [= <-].
  - by vm_compute.
Defined.

Definition stored_example : inbox :=
  match bm_trial_decrypt_and_store [to_example] ∅ (be_split 8 77 ++ msg_object_example) 5
  with Ok (db, _) => db | _ => ∅ end.

Lemma bm_trial_decrypt_and_store_once_witness :
  bm_trial_decrypt_and_store [to_example] stored_example (be_split 8 77 ++ msg_object_example) 6
    = Ok (stored_example, Some [1; 2])
  /\ is_Some (stored_example !! bm_inventory_hash (be_split 8 77 ++ msg_object_example))
  /\ forall id, (id <> bm_inventory_hash (be_split 8 77 ++ msg_object_example)
                 \/ is_Some ((∅ : inbox) !! id)) -> stored_example !! id = (∅ : inbox) !! id.
Proof.
  apply (bm_trial_decrypt_and_store_once [to_example] ∅ stored_example
    (be_split 8 77 ++ msg_object_example) 5 6 (Some [1; 2])). vm_compute. reflexivity.
Defined.
End MsgWitnesses.
