(* ===== verification/BroadcastDecrypt.v ===== *)
(** * core/broadcast_decrypt.c

    Reading [broadcast] objects with the address of a subscription.  The file
    repeats the text helpers and the sender's part of trial_decrypt.c word for
    word; the model shares their definitions. *)

From Stdlib Require Import String.
From stdpp Require Import base tactics list numbers option gmap.
From S2P Require Import Prelude Varint Base58 Openssl Hash Address Object Crypto.
From S2P Require Import MessageBuilder Sql MessagesStore TrialDecrypt.

#[local] Arguments be_split : simpl never.

(** [struct bm_decoded_broadcast] *)
Record bm_decoded_broadcast := {
  db_from_address_version : Z;
  db_from_stream : Z;
  db_from_address : list Z;
  db_subject : option (list Z);
  db_body : option (list Z);
}.

Section Broadcast.
Context `{OS : OpenSSL}.

(** From the sender's part on. [strncpy(out, s, 63)] into a zeroed array of 64
    keeps the first 63 bytes, like [snprintf]. *)
Definition broadcast_body (hdr : bm_object_header) (object candidate_ripe decrypted : list Z)
  : cres bm_decoded_broadcast :=
  s ← take_sender decrypted;
  '(p, encoding) ← take_varint decrypted (s_end s);
  '(msg_data, msg_len, p) ← take_block decrypted p;
  let presig_offset := p in
  '(sig, sig_len, _) ← take_block decrypted p;
  let header_no_nonce_len := header_len hdr - 8 in
  let tag_len := if version hdr =? 5 then 32 else 0 in
  head ← rdn object 8 header_no_nonce_len;
  to_sign ← wr (malloc (header_no_nonce_len + tag_len + presig_offset)) 0 head;
  to_sign ← (if tag_len >? 0 then
               tag ← rdn object (header_len hdr) 32;
               wr to_sign header_no_nonce_len tag
             else Ok to_sign);
  payload ← rdn decrypted 0 presig_offset;
  to_sign ← wr to_sign (header_no_nonce_len + tag_len) payload;
  verify_ok ← verify_at to_sign decrypted sig sig_len (s_pub_signing s);
  if negb verify_ok then Err else
  computed_ripe ← bm_address_calc_ripe (s_pub_signing s) (s_pub_encryption s);
  if negb (list_eqb computed_ripe candidate_ripe) then Err else
  from_address ← sender_address (s_version s) (s_stream s) computed_ripe;
  '(subject, body) ← (if encoding =? 2 then decode_simple decrypted msg_data msg_len
                      else
                        subject ← dup_bytes_as_cstr decrypted msg_data 0;
                        body ← dup_bytes_as_cstr decrypted msg_data msg_len;
                        Ok (subject, body));
  Ok {| db_from_address_version := s_version s; db_from_stream := s_stream s;
        db_from_address := from_address; db_subject := subject; db_body := body |}.

Definition bm_trial_decrypt_broadcast (object : list Z) (candidate_version candidate_stream : Z)
    (candidate_ripe : list Z) : cres bm_decoded_broadcast :=
  hdr ← bm_object_parse_header object;
  if negb (object_type hdr =? BM_OBJECT_BROADCAST)
     || (negb (version hdr =? 4) && negb (version hdr =? 5)) then Err else
  '(secret, expected_tag) ← bm_address_derive_secret_and_tag candidate_version candidate_stream
                              candidate_ripe;
  offset ← (if version hdr =? 5 then
              if header_len hdr + 32 >? blen object then Err else
              tag ← rdn object (header_len hdr) 32;
              if negb (list_eqb tag expected_tag) then Err else
              Ok (header_len hdr + 32)
            else Ok (header_len hdr));
  ciphertext ← rdn object offset (blen object - offset);
  decrypted ← bm_crypto_ecies_decrypt ciphertext secret;
  broadcast_body hdr object candidate_ripe decrypted.

(** The row of a broadcast names the sender as recipient. *)
Definition bm_trial_decrypt_broadcast_and_store (db : inbox) (object : list Z)
    (candidate_version candidate_stream : Z) (candidate_ripe : list Z) (now : Z) : cres inbox :=
  decoded ← bm_trial_decrypt_broadcast object candidate_version candidate_stream candidate_ripe;
  let msg_id := bm_inventory_hash object in
  bm_messages_store_insert_inbox db msg_id (db_from_address decoded) (db_from_address decoded)
    (db_subject decoded) (db_body decoded) now.
End Broadcast.

Section BroadcastLemmas.
Context `{OSL : OpenSSLLaws}.

(** Where the receiver finds the fields behind the sender's part. *)
Lemma broadcast_fields from subject body sig :
  let P := broadcast_payload from subject body in
  let D := P ++ varint_bytes (blen sig) ++ sig in
  (10 ∉ subject) -> blen subject <= 500 -> blen body < 2 ^ 61 -> blen D < 2 ^ 63 ->
  exists p_enc p_msg len,
    take_varint D (blen (sender_bytes from)) = Ok (p_enc, 2)
    /\ take_block D p_enc = Ok (p_msg, len, blen P)
    /\ decode_simple D p_msg len = Ok (Some subject, Some body)
    /\ take_block D (blen P) = Ok (blen (P ++ varint_bytes (blen sig)), blen sig, blen D).
Proof.
  intros P D Hn Hs Hb LD. set (m := simple_message subject body).
  set (p1 := sender_bytes from ++ varint_bytes 2).
  assert (EP : p1 ++ varint_bytes (blen m) ++ m = P)
    by (unfold p1, P, broadcast_payload, simple_encoded, m; by rewrite <- !app_assoc).
  assert (E1 : D = p1 ++ varint_bytes (blen m) ++ m ++ varint_bytes (blen sig) ++ sig)
    by (unfold D; rewrite <- EP; by rewrite <- !app_assoc).
  exists (blen p1), (blen (p1 ++ varint_bytes (blen m))), (blen m). split_and!.
  - eapply take_varint_is; [rewrite E1; unfold p1; by rewrite <- app_assoc|done|done|done].
  - rewrite <- EP. by eapply take_block_is.
  - rewrite E1, app_assoc. by apply decode_simple_message.
  - apply (take_block_is D P sig []); [by rewrite app_nil_r|done|done].
Qed.

Lemma blen_broadcast_total from subject body sig :
  identity_ok from -> blen subject <= 500 -> blen body < 2 ^ 61 -> blen sig <= 72 ->
  blen (broadcast_payload from subject body ++ varint_bytes (blen sig) ++ sig) < 2 ^ 63.
Proof.
  intros Hid Hs Hb Hsig. unfold broadcast_payload, simple_encoded.
  pose proof (blen_simple_message subject body). pose proof (blen_sender_bytes from Hid).
  set (m := simple_message subject body) in *.
  pose proof (bm_varint_size_pos (blen m)). pose proof (bm_varint_size_pos (blen sig)).
  rewrite !blen_app, !blen_varint_bytes. change (bm_varint_size 2) with 1. lia.
Qed.

(** The head of the object as the receiver reassembles it: header without nonce,
    then the tag of a version 5 broadcast. *)
Lemma broadcast_to_sign hdr (nonce hd tag tail P rest : list Z) :
  blen nonce = 8 -> header_len hdr = 8 + blen hd ->
  tag = [] /\ version hdr <> 5 \/ blen tag = 32 /\ version hdr = 5 ->
  let tag_len := if version hdr =? 5 then 32 else 0 in
  let object := nonce ++ hd ++ tag ++ tail in
  exists h t1 t2, rdn object 8 (header_len hdr - 8) = Ok h
    /\ wr (malloc (header_len hdr - 8 + tag_len + blen P)) 0 h = Ok t1
    /\ (if tag_len >? 0 then
          tag ← rdn object (header_len hdr) 32; wr t1 (header_len hdr - 8) tag
        else Ok t1) = Ok t2
    /\ rdn (P ++ rest) 0 (blen P) = Ok P
    /\ wr t2 (header_len hdr - 8 + tag_len) P = Ok ((hd ++ tag) ++ P).
Proof.
  intros Hn Hh Ht tag_len object. pose proof (blen_nonneg hd). pose proof (blen_nonneg P).
  assert (El : header_len hdr - 8 = blen hd) by lia. rewrite El.
  exists hd, (hd ++ malloc (tag_len + blen P)), ((hd ++ tag) ++ malloc (blen P)).
  assert (Hl : tag_len = blen tag).
  { subst tag_len. destruct Ht as [[-> Hv]|[Hl Hv]].
    - by rewrite (proj2 (Z.eqb_neq _ _) Hv).
    - by rewrite Hv. }
  pose proof (blen_nonneg tag). split_and!.
  - apply rdn_app_mid; lia.
  - rewrite wr_malloc_start by lia. do 3 f_equal. lia.
  - destruct (Z.gtb_spec tag_len 0) as [Hp|Hp].
    + subst object. rewrite (app_assoc nonce), rdn_app_mid; [|rewrite blen_app; lia|
        destruct Ht as [[-> _]|[? _]]; [rewrite blen_nil in *; lia|lia]].
      cbn_bind. rewrite wr_malloc by lia. do 3 f_equal. lia.
    + assert (tag = []) as -> by (destruct tag; [done|rewrite blen_cons in *;
        pose proof (blen_nonneg tag); lia]).
      rewrite app_nil_r. do 3 f_equal. rewrite blen_nil in Hl. lia.
  - by apply rdn_prefix.
  - by apply wr_malloc_last; [rewrite blen_app; lia|].
Qed.

Lemma broadcast_body_roundtrip hdr from subject body sig nonce hd tag tail addr :
  identity_ok from -> uncompressed (id_pub_signing from) ->
  uncompressed (id_pub_encryption from) ->
  (10 ∉ subject) -> blen subject <= 500 -> blen body < 2 ^ 61 -> blen sig <= 72 ->
  blen nonce = 8 -> header_len hdr = 8 + blen hd ->
  tag = [] /\ version hdr <> 5 \/ blen tag = 32 /\ version hdr = 5 ->
  bm_crypto_verify ((hd ++ tag) ++ broadcast_payload from subject body) sig
    (id_pub_signing from) = true ->
  sender_address (id_address_version from) (id_stream from)
    (keys_ripe (id_pub_signing from) (id_pub_encryption from)) = Ok addr ->
  broadcast_body hdr (nonce ++ hd ++ tag ++ tail)
    (keys_ripe (id_pub_signing from) (id_pub_encryption from))
    (broadcast_payload from subject body ++ varint_bytes (blen sig) ++ sig)
  = Ok {| db_from_address_version := id_address_version from;
          db_from_stream := id_stream from; db_from_address := addr;
          db_subject := Some subject; db_body := Some body |}.
Proof.
  intros Hid Us Ue Hn Hs Hb Hsig Ln Hh Ht Hv Haddr.
  pose proof (blen_broadcast_total from subject body sig Hid Hs Hb Hsig) as LD.
  pose proof (broadcast_fields from subject body sig Hn Hs Hb LD)
    as (p_enc & p_msg & len & V & B1 & DS & B3).
  set (P := broadcast_payload from subject body) in *.
  set (D := P ++ varint_bytes (blen sig) ++ sig) in *.
  assert (ED : D = sender_bytes from ++ simple_encoded subject body ++ varint_bytes (blen sig) ++ sig)
    by (unfold D, P, broadcast_payload; by rewrite <- !app_assoc).
  unfold broadcast_body. rewrite ED, take_sender_eq, <- ED by (done || by rewrite <- ED).
  cbn_bind. cbn [s_version s_stream s_pub_signing s_pub_encryption s_end].
  rewrite V. cbn_bind. rewrite B1. cbn_bind. rewrite B3. cbn_bind.
  destruct (broadcast_to_sign hdr nonce hd tag tail P (varint_bytes (blen sig) ++ sig) Ln Hh Ht)
    as (h & t1 & t2 & R1 & R2 & R3 & R4 & R5).
  rewrite R1. cbn_bind. rewrite R2. cbn_bind. rewrite R3. cbn_bind.
  fold D in R4. rewrite R4. cbn_bind. rewrite R5. cbn_bind.
  assert (VA : verify_at ((hd ++ tag) ++ P) D (blen (P ++ varint_bytes (blen sig))) (blen sig)
    (id_pub_signing from) = Ok true)
    by (unfold D; rewrite (app_assoc P), verify_at_eq by (done || lia); by rewrite Hv).
  rewrite VA. cbn_bind. cbn [negb].
  rewrite calc_ripe_eq by (apply Us || apply Ue). cbn_bind.
  fold (keys_ripe (id_pub_signing from) (id_pub_encryption from)).
  rewrite list_eqb_refl. cbn [negb]. rewrite Haddr. cbn_bind.
  change (2 =? 2) with true. cbv iota. by rewrite DS.
Qed.

(** The parsed header of a broadcast. *)
Definition broadcast_header (nonce expires : Z) (from : bm_identity_info) : bm_object_header :=
  let v := if id_address_version from >=? 4 then 5 else 4 in
  {| nonce := nonce; expires_time := expires; object_type := BM_OBJECT_BROADCAST; version := v;
     stream := id_stream from; header_len := 20 + bm_varint_size v + bm_varint_size (id_stream from) |}.

Lemma parse_broadcast_header n expires from rest :
  is_u64 n -> is_u64 expires -> is_u64 (id_stream from) ->
  let v := if id_address_version from >=? 4 then 5 else 4 in
  let hd := common_header expires BM_OBJECT_BROADCAST v (id_stream from) in
  bm_object_parse_header (be_split 8 n ++ hd ++ rest) = Ok (broadcast_header n expires from)
  /\ header_len (broadcast_header n expires from) = 8 + blen hd
  /\ 0 < header_len (broadcast_header n expires from).
Proof.
  intros Hn He Hs v hd. split_and!.
  - replace (be_split 8 n ++ hd ++ rest)
      with (header_bytes n expires BM_OBJECT_BROADCAST v (id_stream from) ++ rest)
      by (unfold header_bytes, hd, common_header; by rewrite <- !app_assoc).
    apply parse_header_bytes; try done. subst v. case_match; unfold is_u64; lia.
  - cbn [broadcast_header header_len]. fold v. unfold hd, common_header.
    rewrite !blen_app, !blen_be_split, !blen_varint_bytes. lia.
  - cbn [broadcast_header header_len]. pose proof (bm_varint_size_pos (id_stream from)).
    fold v. pose proof (bm_varint_size_pos v). lia.
Qed.

(** From the finished object to the decrypted body. *)
Lemma trial_decrypt_broadcast_sealed n expires from ripe ct d :
  is_u64 n -> is_u64 expires -> is_u64 (id_stream from) -> blen ripe = 20 ->
  bm_crypto_ecies_decrypt ct
    (slice (address_digest (id_address_version from) (id_stream from) ripe) 0 32) = Ok d ->
  bm_trial_decrypt_broadcast (be_split 8 n ++ broadcast_head from ripe expires ++ ct)
    (id_address_version from) (id_stream from) ripe
  = broadcast_body (broadcast_header n expires from)
      (be_split 8 n ++ broadcast_head from ripe expires ++ ct) ripe d.
Proof.
  intros Hn He Hs Hr Hd. unfold bm_trial_decrypt_broadcast, broadcast_head.
  set (v := if id_address_version from >=? 4 then 5 else 4).
  set (hd := common_header expires BM_OBJECT_BROADCAST v (id_stream from)).
  set (tag := slice (address_digest (id_address_version from) (id_stream from) ripe) 32 32).
  rewrite <- !app_assoc.
  destruct (parse_broadcast_header n expires from
    ((if id_address_version from >=? 4 then tag else []) ++ ct)) as (E & Hh & Hp); [done..|].
  fold v hd in E, Hh. rewrite E. cbn_bind.
  cbn [broadcast_header object_type version]. fold v.
  change (BM_OBJECT_BROADCAST =? BM_OBJECT_BROADCAST) with true. cbn [negb orb].
  assert (Lt : blen tag = 32)
    by (unfold tag; rewrite blen_slice; [done|lia|lia|unfold address_digest; rewrite blen_sha512; lia]).
  pose proof (blen_nonneg ct) as Hct. set (hl := header_len (broadcast_header n expires from)) in *.
  rewrite secret_and_tag_eq by done. fold (address_digest (id_address_version from) (id_stream from) ripe).
  fold tag. subst v. destruct (id_address_version from >=? 4); cbn_bind.
  - change (negb (5 =? 4) && negb (5 =? 5)) with false. change (5 =? 5) with true. cbv iota.
    assert (blen (be_split 8 n ++ hd ++ tag ++ ct) = hl + 32 + blen ct)
      by (rewrite !blen_app, blen_be_split; lia).
    zdec. rewrite (app_assoc (be_split 8 n)), rdn_app_mid
      by (rewrite ?blen_app, ?blen_be_split; lia). cbn_bind. rewrite list_eqb_refl. cbn_bind.
    cbn [negb]. cbn_bind.
    rewrite (app_assoc (be_split 8 n ++ hd)), (rdn_suffix ((be_split 8 n ++ hd) ++ tag) ct)
      by (rewrite ?blen_app, ?blen_be_split; lia). cbn_bind. rewrite Hd. by rewrite bind_ok.
  - change (negb (4 =? 4) && negb (4 =? 5)) with false. change (4 =? 5) with false. cbv iota.
    cbn_bind. cbn [app].
    rewrite (app_assoc (be_split 8 n)), (rdn_suffix (be_split 8 n ++ hd) ct)
      by (rewrite ?blen_app, ?blen_be_split; lia). cbn_bind. rewrite Hd. by rewrite bind_ok.
Qed.
End BroadcastLemmas.

(** ** Inversion *)

Definition tag_size (hdr : bm_object_header) : Z := if version hdr =? 5 then 32 else 0.

Lemma slice_slice l a n m :
  0 <= a -> 0 <= n -> 0 <= m -> slice l a n ++ slice l (a + n) m = slice l a (n + m).
Proof.
  intros. unfold slice. rewrite !Z2Nat.inj_add by lia.
  rewrite <- (take_take_drop (drop (Z.to_nat a) l)). by rewrite drop_drop.
Qed.

Section BroadcastInversion.
Context `{OSL : OpenSSLLaws}.

(** What an accepted broadcast proves: [presig] bytes of the plaintext are signed,
    together with the header and the tag. *)
Definition broadcast_evidence (hdr : bm_object_header) (object ripe decrypted : list Z)
    (out : bm_decoded_broadcast) : Prop :=
  exists snd presig sig,
    take_sender decrypted = Ok snd
    /\ keys_ripe (s_pub_signing snd) (s_pub_encryption snd) = ripe
    /\ bm_crypto_verify (slice object 8 (header_len hdr - 8 + tag_size hdr)
                         ++ slice decrypted 0 presig) sig (s_pub_signing snd) = true
    /\ sender_address (s_version snd) (s_stream snd) ripe = Ok (db_from_address out)
    /\ db_from_address_version out = s_version snd /\ db_from_stream out = s_stream snd.

Lemma broadcast_to_sign_inv hdr object decrypted n h t1 t2 p r :
  let tag_len := tag_size hdr in
  rdn object 8 (header_len hdr - 8) = Ok h ->
  wr (malloc (header_len hdr - 8 + tag_len + n)) 0 h = Ok t1 ->
  (if tag_len >? 0 then tag ← rdn object (header_len hdr) 32; wr t1 (header_len hdr - 8) tag
   else Ok t1) = Ok t2 ->
  rdn decrypted 0 n = Ok p -> wr t2 (header_len hdr - 8 + tag_len) p = Ok r ->
  r = slice object 8 (header_len hdr - 8 + tag_size hdr) ++ slice decrypted 0 n.
Proof.
  intros tag_len Eh E1 E2 Ep Er. apply rdn_ok_inv in Eh as (-> & _ & ? & ?).
  apply rdn_ok_inv in Ep as (-> & _ & ? & ?). subst tag_len. unfold tag_size in *.
  destruct (version hdr =? 5).
  - change (32 >? 0) with true in E2. cbv iota in E2. inv_bind E2.
    apply rdn_ok_inv in E as (-> & _ & _ & ?).
    rewrite wr_malloc_start in E1 by (rewrite blen_slice; lia). injection E1 as <-.
    rewrite wr_malloc in E2 by (rewrite !blen_slice; lia). injection E2 as <-.
    rewrite !blen_slice in Er by lia.
    rewrite wr_malloc_last in Er by (rewrite ?blen_app, !blen_slice; lia). injection Er as <-.
    rewrite <- slice_slice by lia. by replace (8 + (header_len hdr - 8)) with (header_len hdr) by lia.
  - change (0 >? 0) with false in E2. cbv iota in E2. injection E2 as <-.
    rewrite wr_malloc_start in E1 by (rewrite blen_slice; lia). injection E1 as <-.
    rewrite blen_slice in Er by lia.
    rewrite wr_malloc_last in Er by (rewrite blen_slice; lia). injection Er as <-.
    by rewrite Z.add_0_r.
Qed.

Lemma broadcast_body_inv hdr object ripe decrypted out :
  broadcast_body hdr object ripe decrypted = Ok out ->
  broadcast_evidence hdr object ripe decrypted out.
Proof.
  unfold broadcast_body. intros E. apply bind_ok_inv in E as (s & Es & E).
  pose proof (take_sender_inv _ _ Es) as (L1 & L2 & _).
  apply bind_ok_inv in E as ([p1 enc] & _ & E). apply bind_ok_inv in E as ([[md ml] p2] & _ & E).
  apply bind_ok_inv in E as ([[sp sl] p3] & _ & E). cbv zeta in E.
  apply bind_ok_inv in E as (h & Eh & E). apply bind_ok_inv in E as (t1 & E1 & E).
  apply bind_ok_inv in E as (t2 & E2 & E). apply bind_ok_inv in E as (pl & Ep & E).
  apply bind_ok_inv in E as (ts & Ets & E).
  rewrite (broadcast_to_sign_inv _ _ _ _ _ _ _ _ _ Eh E1 E2 Ep Ets) in E.
  apply bind_ok_inv in E as ([] & Ev & E); [|done]. cbn [negb] in E.
  apply verify_at_true in Ev as [sig Ev]. rewrite calc_ripe_eq, bind_ok in E by done.
  fold (keys_ripe (s_pub_signing s) (s_pub_encryption s)) in E.
  destruct (list_eqb _ _) eqn:Eq; [|done]. apply list_eqb_eq in Eq. cbn [negb] in E.
  apply bind_ok_inv in E as (addr & Ea & E). apply bind_ok_inv in E as ([sj bd] & _ & E).
  injection E as <-. rewrite Eq in Ea. by exists s, p2, sig.
Qed.
End BroadcastInversion.

(** ** Properties *)

Section BroadcastProperties.
Context `{OSL : OpenSSLLaws}.

(** Broadcasts reach their subscribers: the object [bm_build_broadcast]
    makes, with any nonce in front, is read by [bm_trial_decrypt_broadcast] under
    the sender's version, stream and ripe to the sender's address, the subject
    (one line of at most 500 bytes) and the body, tagged (address version 4 and
    up) or not. *)
Theorem bm_trial_decrypt_broadcast_roundtrip (from : bm_identity_info) (subject body o pub : list Z)
    (expires n : Z) (e : entropy) :
  let ripe := keys_ripe (id_pub_signing from) (id_pub_encryption from) in
  identity_ok from -> uncompressed (id_pub_encryption from) ->
  bm_address_get_public_key (id_priv_signing from) = Ok (id_pub_signing from) ->
  bm_address_get_public_key
    (slice (address_digest (id_address_version from) (id_stream from) ripe) 0 32) = Ok pub ->
  is_u64 n -> is_u64 expires -> (10 ∉ subject) -> blen subject <= 500 -> blen body < 2 ^ 61 ->
  (forall iv, e_iv e = Some iv -> blen iv = 16) ->
  bm_build_broadcast from ripe subject body expires e = Ok o ->
  exists addr,
    bm_address_encode (id_address_version from) (id_stream from) ripe = Ok addr
    /\ bm_trial_decrypt_broadcast (be_split 8 n ++ o) (id_address_version from)
         (id_stream from) ripe
       = Ok {| db_from_address_version := id_address_version from;
               db_from_stream := id_stream from; db_from_address := snprintf_address addr;
               db_subject := Some subject; db_body := Some body |}.
Proof.
  intros ripe Hid Ue Hk Hp Hn He Hs1 Hs2 Hb Hiv Ho.
  pose proof Hid as (Hv & Hst & _).
  destruct (sender_address_ok (id_address_version from) (id_stream from) (id_pub_signing from)
    (id_pub_encryption from)) as (addr & Ea & Es); [done..|].
  exists addr. split; [done|].
  rewrite (build_broadcast_eq _ _ _ _ _ _ pub) in Ho by (done || apply RIPEMD160_len).
  apply sealed_inv in Ho as (sig & ep & iv & ct & Esig & _ & Ei & Ec & ->).
  rewrite (trial_decrypt_broadcast_sealed _ _ _ _ _
    (broadcast_payload from subject body ++ varint_bytes (blen sig) ++ sig));
    [|done|done|done|apply RIPEMD160_len|by eapply ecies_decrypt_encrypt; [apply Hiv|..]].
  unfold broadcast_head at 1. rewrite <- !app_assoc.
  destruct (parse_broadcast_header n expires from ct) as (_ & Hh & _); [done..|].
  apply broadcast_body_roundtrip; try done.
  - by eapply public_key_uncompressed.
  - by eapply sign_len.
  - cbn [broadcast_header version]. destruct (id_address_version from >=? 4); [right|by left].
    split; [|done]. rewrite blen_slice; [done|lia|lia|unfold address_digest; rewrite blen_sha512; lia].
  - by eapply sign_verify.
Qed.

(** A broadcast is attributed to a subscribed address only when it is
    authentic: whatever bytes are received, acceptance under a candidate address
    means a broadcast header of version 4 or 5, for version 5 the candidate's
    tag, a body the candidate's key opens, keys in it that hash to the candidate's
    ripe, and a signature under them over header, tag and body. *)
Theorem bm_trial_decrypt_broadcast_authentic (object ripe : list Z) (v s : Z)
    (out : bm_decoded_broadcast) :
  blen ripe = 20 -> bm_trial_decrypt_broadcast object v s ripe = Ok out ->
  exists hdr decrypted,
    bm_object_parse_header object = Ok hdr /\ object_type hdr = BM_OBJECT_BROADCAST
    /\ (version hdr = 4 \/ version hdr = 5
        /\ slice object (header_len hdr) 32 = slice (address_digest v s ripe) 32 32)
    /\ bm_crypto_ecies_decrypt (drop (Z.to_nat (header_len hdr + tag_size hdr)) object)
         (slice (address_digest v s ripe) 0 32) = Ok decrypted
    /\ broadcast_evidence hdr object ripe decrypted out.
Proof.
  intros Hr E. unfold bm_trial_decrypt_broadcast in E.
  apply bind_ok_inv in E as (hdr & Eh & E). rewrite secret_and_tag_eq, bind_ok in E by done.
  fold (address_digest v s ripe) in E.
  destruct (Z.eqb_spec (object_type hdr) BM_OBJECT_BROADCAST); [|done]. cbn [negb orb] in E.
  destruct (negb (version hdr =? 4) && negb (version hdr =? 5)) eqn:Ev; [done|].
  apply bind_ok_inv in E as (off & Eo & E). apply bind_ok_inv in E as (ct & Ec & E).
  apply bind_ok_inv in E as (d & Ed & E). apply broadcast_body_inv in E.
  exists hdr, d. apply rdn_ok_inv in Ec as (-> & ? & ? & ?).
  assert (off = header_len hdr + tag_size hdr /\ (version hdr = 4 \/ version hdr = 5
    /\ slice object (header_len hdr) 32 = slice (address_digest v s ripe) 32 32)) as [-> Ht].
  { unfold tag_size. destruct (Z.eqb_spec (version hdr) 5) as [E5|E5].
    - case_match; [done|]. inv_bind Eo. apply rdn_ok_inv in E0 as (-> & _).
      destruct (list_eqb _ _) eqn:El; [|done]. apply list_eqb_eq in El. injection Eo as <-. auto.
    - injection Eo as <-. split; [lia|]. left. destruct (Z.eqb_spec (version hdr) 4); [done|].
      done. }
  split_and!; try done. rewrite <- Ed. f_equal. symmetry. unfold slice. apply take_ge.
  rewrite length_drop. unfold blen. lia.
Qed.
End BroadcastProperties.

Section BroadcastWitnesses.
#[local] Existing Instance toy_OpenSSL.
#[local] Existing Instance toy_OpenSSLLaws.

Definition ripe_from_example : list Z :=
  keys_ripe (id_pub_signing from_example) (id_pub_encryption from_example).
Definition broadcast_secret_example : list Z := slice (address_digest 4 1 ripe_from_example) 0 32.
Definition broadcast_object_example : list Z :=
  match bm_build_broadcast from_example ripe_from_example (cstr "news"%string)
          (cstr "today"%string) 1700000000 entropy_example with Ok o => o | _ => [] end.

Lemma bm_trial_decrypt_broadcast_roundtrip_witness :
  exists addr,
    bm_address_encode 4 1 ripe_from_example = Ok addr
    /\ bm_trial_decrypt_broadcast (be_split 8 5 ++ broadcast_object_example) 4 1 ripe_from_example
       = Ok {| db_from_address_version := 4; db_from_stream := 1;
               db_from_address := snprintf_address addr;
               db_subject := Some (cstr "news"%string);
               db_body := Some (cstr "today"%string) |}.
Proof.
  apply (bm_trial_decrypt_broadcast_roundtrip from_example (cstr "news"%string)
    (cstr "today"%string) broadcast_object_example (toy_mul broadcast_secret_example)
    1700000000 5 entropy_example).
  - exact from_example_ok.
  - exact from_example_point.
  - by vm_compute.
  - by vm_compute.
  - unfold is_u64. lia.
  - unfold is_u64. lia.
  - apply (bool_decide_unpack _). by vm_compute.
  - by vm_compute.
  - by vm_compute.
  - by intros iv [= <-].
  - by vm_compute.
Defined.

Lemma bm_trial_decrypt_broadcast_authentic_witness :
  exists out,
    bm_trial_decrypt_broadcast (be_split 8 5 ++ broadcast_object_example) 4 1 ripe_from_example
    = Ok out
    /\ exists hdr decrypted,
      bm_object_parse_header (be_split 8 5 ++ broadcast_object_example) = Ok hdr
      /\ object_type hdr = BM_OBJECT_BROADCAST
      /\ (version hdr = 4 \/ version hdr = 5
          /\ slice (be_split 8 5 ++ broadcast_object_example) (header_len hdr) 32
             = slice (address_digest 4 1 ripe_from_example) 32 32)
      /\ bm_crypto_ecies_decrypt (drop (Z.to_nat (header_len hdr + tag_size hdr))
           (be_split 8 5 ++ broadcast_object_example))
           (slice (address_digest 4 1 ripe_from_example) 0 32) = Ok decrypted
      /\ broadcast_evidence hdr (be_split 8 5 ++ broadcast_object_example) ripe_from_example
           decrypted out.
Proof.
  destruct (bm_trial_decrypt_broadcast (be_split 8 5 ++ broadcast_object_example) 4 1
    ripe_from_example) as [out| |] eqn:E; [|by vm_compute in E..].
  exists out. split; [reflexivity|].
  apply (bm_trial_decrypt_broadcast_authentic _ ripe_from_example 4 1 out); [by vm_compute|exact E].
Defined.
End BroadcastWitnesses.
