(* ===== verification/PubkeyCache.v ===== *)
(** * Public keys of correspondents (core/pubkey_cache.c)

    The tables of identity.db that hold received public keys, pending requests and the
    node's own published answers, and the parsers of pubkey objects. *)

From Stdlib Require Import String.
From stdpp Require Import base tactics numbers option gmap list.
From S2P Require Import Prelude Varint Base58 Openssl Hash Address Object Crypto MessageBuilder Sql MessagesStore TrialDecrypt.

#[local] Arguments be_split : simpl never.

(** ** The tables *)

Record bm_cached_pubkey := {
  c_ripe : list Z;
  c_tag : list Z;
  c_address_version : Z;
  c_stream : Z;
  c_behavior_bitfield : Z;
  c_signing_pubkey : list Z;
  c_encryption_pubkey : list Z;
  c_nonce_trials_per_byte : Z;
  c_payload_length_extra_bytes : Z
}.

(** A row of [pubkey_cache] behind its key, the ripe: the integer columns are
    [sqlite3_int64]. *)
Record pubkey_row := {
  pk_tag : list Z;
  pk_address_version : Z;
  pk_stream : Z;
  pk_behavior_bitfield : Z;
  pk_signing : list Z;
  pk_encryption : list Z;
  pk_nonce_trials : Z;
  pk_extra_bytes : Z;
  pk_received_time : Z;
  pk_used_personally : bool
}.

Record request_row := { rq_address_version : Z; rq_stream : Z; rq_requested_time : Z }.

Record response_row := { sr_object_hash : list Z; sr_expires_time : Z; sr_does_ack : bool }.

(** The tables of identity.db this file owns. *)
Record pubkey_db := {
  pubkey_cache : gmap (list Z) pubkey_row;
  pubkey_requests : gmap (list Z) request_row;
  self_pubkey_response_cache : gmap (list Z * Z * Z) response_row
}.

Definition empty_pubkey_db : pubkey_db :=
  {| pubkey_cache := ∅; pubkey_requests := ∅; self_pubkey_response_cache := ∅ |}.

Definition with_pubkey_cache (db : pubkey_db) (t : gmap (list Z) pubkey_row) : pubkey_db :=
  {| pubkey_cache := t; pubkey_requests := pubkey_requests db;
     self_pubkey_response_cache := self_pubkey_response_cache db |}.
Definition with_requests (db : pubkey_db) (t : gmap (list Z) request_row) : pubkey_db :=
  {| pubkey_cache := pubkey_cache db; pubkey_requests := t;
     self_pubkey_response_cache := self_pubkey_response_cache db |}.
Definition with_responses (db : pubkey_db) (t : gmap (list Z * Z * Z) response_row) : pubkey_db :=
  {| pubkey_cache := pubkey_cache db; pubkey_requests := pubkey_requests db;
     self_pubkey_response_cache := t |}.

Definition entry_row (entry : bm_cached_pubkey) (received_time : Z) (used : bool) : pubkey_row :=
  {| pk_tag := c_tag entry; pk_address_version := s64 (c_address_version entry);
     pk_stream := s64 (c_stream entry); pk_behavior_bitfield := s64 (c_behavior_bitfield entry);
     pk_signing := c_signing_pubkey entry; pk_encryption := c_encryption_pubkey entry;
     pk_nonce_trials := s64 (c_nonce_trials_per_byte entry);
     pk_extra_bytes := s64 (c_payload_length_extra_bytes entry);
     pk_received_time := received_time; pk_used_personally := used |}.

Definition bm_pubkey_cache_upsert (db : pubkey_db) (entry : bm_cached_pubkey) (received_time : Z)
  : pubkey_db :=
  with_pubkey_cache db
    (upsert (pubkey_cache db) (c_ripe entry) (entry_row entry received_time false)
       (fun old => entry_row entry received_time (pk_used_personally old))).

Definition load_row (ripe : list Z) (r : pubkey_row) : cres bm_cached_pubkey :=
  if negb (blen ripe =? 20) then Err else
  if negb (blen (pk_signing r) =? 65) || negb (blen (pk_encryption r) =? 65) then Err else
  Ok {| c_ripe := ripe; c_tag := blob_field 32 (pk_tag r);
        c_address_version := u64 (pk_address_version r); c_stream := u64 (pk_stream r);
        c_behavior_bitfield := u32 (pk_behavior_bitfield r);
        c_signing_pubkey := pk_signing r; c_encryption_pubkey := pk_encryption r;
        c_nonce_trials_per_byte := u64 (pk_nonce_trials r);
        c_payload_length_extra_bytes := u64 (pk_extra_bytes r) |}.

Definition bm_pubkey_cache_lookup_by_ripe (db : pubkey_db) (ripe : list Z) : cres bm_cached_pubkey :=
  match pubkey_cache db !! ripe with Some r => load_row ripe r | None => Err end.

(** The first row with that tag. *)
Definition bm_pubkey_cache_lookup_by_tag (db : pubkey_db) (tag : list Z) : cres bm_cached_pubkey :=
  match select_where (pubkey_cache db) (fun _ r => list_eqb (pk_tag r) tag) with
  | (ripe, r) :: _ => load_row ripe r
  | [] => Err
  end.

Definition mark_used (r : pubkey_row) : pubkey_row :=
  {| pk_tag := pk_tag r; pk_address_version := pk_address_version r; pk_stream := pk_stream r;
     pk_behavior_bitfield := pk_behavior_bitfield r; pk_signing := pk_signing r;
     pk_encryption := pk_encryption r; pk_nonce_trials := pk_nonce_trials r;
     pk_extra_bytes := pk_extra_bytes r; pk_received_time := pk_received_time r;
     pk_used_personally := true |}.

Definition bm_pubkey_cache_mark_used_personally (db : pubkey_db) (ripe : list Z) : pubkey_db :=
  with_pubkey_cache db (update_where (pubkey_cache db) (fun k _ => list_eqb k ripe) mark_used).

(** ** Requests *)

Definition bm_pubkey_cache_record_request (db : pubkey_db) (ripe : list Z)
    (address_version stream requested_time : Z) : pubkey_db :=
  with_requests db
    (upsert (pubkey_requests db) ripe
       {| rq_address_version := s64 address_version; rq_stream := s64 stream;
          rq_requested_time := requested_time |}
       (fun old => {| rq_address_version := rq_address_version old; rq_stream := rq_stream old;
                      rq_requested_time := requested_time |})).

Definition bm_pubkey_cache_has_recent_request (db : pubkey_db) (ripe : list Z)
    (now max_age_seconds : Z) : cres bool :=
  match pubkey_requests db !! ripe with
  | Some r => d ← int64 (now - rq_requested_time r); Ok (d <? max_age_seconds)
  | None => Ok false
  end.

(** Ripe, address version and stream of each request. *)
Definition bm_pubkey_cache_list_pending_requests (db : pubkey_db) : list (list Z * Z * Z) :=
  map (fun kr => (kr.1, u64 (rq_address_version kr.2), u64 (rq_stream kr.2)))
    (filter (fun kr => blen kr.1 = 20) (select_where (pubkey_requests db) (fun _ _ => true))).

Definition bm_pubkey_cache_clear_request (db : pubkey_db) (ripe : list Z) : pubkey_db :=
  with_requests db (delete_where (pubkey_requests db) (fun k _ => list_eqb k ripe)).

(** ** The node's own answers *)

Definition bm_pubkey_cache_set_self_response_id (db : pubkey_db) (id : list Z)
    (address_version stream : Z) (object_hash : list Z) (expires_time : Z) : pubkey_db :=
  let r := {| sr_object_hash := object_hash; sr_expires_time := expires_time; sr_does_ack := true |} in
  with_responses db
    (upsert (self_pubkey_response_cache db) (id, s64 address_version, s64 stream) r (fun _ => r)).

(** The published object, if it has not expired. *)
Definition bm_pubkey_cache_get_self_response_id (db : pubkey_db) (id : list Z)
    (address_version stream now : Z) : option (list Z) :=
  match self_pubkey_response_cache db !! (id, s64 address_version, s64 stream) with
  | Some r =>
      if sr_does_ack r && (now <? sr_expires_time r) && (blen (sr_object_hash r) =? 32)
      then Some (sr_object_hash r) else None
  | None => None
  end.

(** ** Parsers *)

(** What follows the header of a version 3 pubkey and what a version 4 pubkey decrypts to. *)
Record pubkey_block := {
  k_bitfield : Z;
  k_sign_pub : list Z;
  k_enc_pub : list Z;
  k_nonce_trials : Z;
  k_extra_bytes : Z;
  k_presig_offset : Z;
  k_sig : Z; (** position *)
  k_sig_len : Z
}.

Definition take_pubkey (buf : list Z) : cres pubkey_block :=
  if 4 + 64 + 64 >? blen buf then Err else
  bitfield ← read_be32 buf 0;
  x ← rdn buf 4 64;
  y ← rdn buf (4 + 64) 64;
  '(p, nonce_trials) ← take_varint buf (4 + 64 + 64);
  '(presig_offset, extra_bytes) ← take_varint buf p;
  '(sig, sig_len, _) ← take_block buf presig_offset;
  Ok {| k_bitfield := bitfield; k_sign_pub := 4 :: x; k_enc_pub := 4 :: y;
        k_nonce_trials := nonce_trials; k_extra_bytes := extra_bytes;
        k_presig_offset := presig_offset; k_sig := sig; k_sig_len := sig_len |}.

Definition NO_TAG : list Z := replicate 32 0.

Section Parsers.
Context `{OS : OpenSSL}.

Definition bm_parse_pubkey_v2 (object : list Z) : cres bm_cached_pubkey :=
  hdr ← bm_object_parse_header object;
  if negb (object_type hdr =? BM_OBJECT_PUBKEY) || negb (version hdr =? 2) then Err else
  let p := drop (Z.to_nat (header_len hdr)) object in
  let remaining := blen object - header_len hdr in
  if negb (remaining =? 4 + 64 + 64) then Err else
  bitfield ← read_be32 p 0;
  x ← rdn p 4 64;
  y ← rdn p (4 + 64) 64;
  ripe ← bm_address_calc_ripe (4 :: x) (4 :: y);
  Ok {| c_ripe := ripe; c_tag := NO_TAG; c_address_version := 2; c_stream := stream hdr;
        c_behavior_bitfield := bitfield; c_signing_pubkey := 4 :: x; c_encryption_pubkey := 4 :: y;
        c_nonce_trials_per_byte := 0; c_payload_length_extra_bytes := 0 |}.

Definition bm_parse_pubkey_v3 (object : list Z) : cres bm_cached_pubkey :=
  hdr ← bm_object_parse_header object;
  if negb (object_type hdr =? BM_OBJECT_PUBKEY) || negb (version hdr =? 3) then Err else
  let p := drop (Z.to_nat (header_len hdr)) object in
  k ← take_pubkey p;
  let header_no_nonce_len := header_len hdr - 8 in
  head ← rdn object 8 header_no_nonce_len;
  to_sign ← wr (malloc (header_no_nonce_len + k_presig_offset k)) 0 head;
  payload ← rdn p 0 (k_presig_offset k);
  to_sign ← wr to_sign header_no_nonce_len payload;
  ok ← verify_at to_sign p (k_sig k) (k_sig_len k) (k_sign_pub k);
  if negb ok then Err else
  ripe ← bm_address_calc_ripe (k_sign_pub k) (k_enc_pub k);
  Ok {| c_ripe := ripe; c_tag := NO_TAG; c_address_version := 3; c_stream := stream hdr;
        c_behavior_bitfield := k_bitfield k; c_signing_pubkey := k_sign_pub k;
        c_encryption_pubkey := k_enc_pub k; c_nonce_trials_per_byte := k_nonce_trials k;
        c_payload_length_extra_bytes := k_extra_bytes k |}.

Definition bm_parse_pubkey_v4 (object candidate_ripe : list Z)
    (candidate_version candidate_stream : Z) : cres bm_cached_pubkey :=
  hdr ← bm_object_parse_header object;
  if negb (object_type hdr =? BM_OBJECT_PUBKEY) || negb (version hdr =? 4) then Err else
  if header_len hdr + 32 >? blen object then Err else
  tag ← rdn object (header_len hdr) 32;
  ciphertext ← rdn object (header_len hdr + 32) (blen object - header_len hdr - 32);
  '(priv_enc, expected_tag) ←
     bm_address_derive_secret_and_tag candidate_version candidate_stream candidate_ripe;
  if negb (list_eqb tag expected_tag) then Err else
  decrypted ← bm_crypto_ecies_decrypt ciphertext priv_enc;
  k ← take_pubkey decrypted;
  let header_no_nonce_len := header_len hdr - 8 in
  head ← rdn object 8 header_no_nonce_len;
  to_sign ← wr (malloc (header_no_nonce_len + 32 + k_presig_offset k)) 0 head;
  to_sign ← wr to_sign header_no_nonce_len tag;
  payload ← rdn decrypted 0 (k_presig_offset k);
  to_sign ← wr to_sign (header_no_nonce_len + 32) payload;
  ok ← verify_at to_sign decrypted (k_sig k) (k_sig_len k) (k_sign_pub k);
  if negb ok then Err else
  computed_ripe ← bm_address_calc_ripe (k_sign_pub k) (k_enc_pub k);
  if negb (list_eqb computed_ripe candidate_ripe) then Err else
  Ok {| c_ripe := candidate_ripe; c_tag := tag; c_address_version := candidate_version;
        c_stream := candidate_stream; c_behavior_bitfield := k_bitfield k;
        c_signing_pubkey := k_sign_pub k; c_encryption_pubkey := k_enc_pub k;
        c_nonce_trials_per_byte := k_nonce_trials k; c_payload_length_extra_bytes := k_extra_bytes k |}.
End Parsers.

(** ** What the parsers read *)

(** The entry that stands for an identity. *)
Definition identity_entry (id : bm_identity_info) (v : Z) (ripe tag : list Z) (trials extra : Z)
  : bm_cached_pubkey :=
  {| c_ripe := ripe; c_tag := tag; c_address_version := v; c_stream := id_stream id;
     c_behavior_bitfield := if id_does_ack id then 1 else 0;
     c_signing_pubkey := id_pub_signing id; c_encryption_pubkey := id_pub_encryption id;
     c_nonce_trials_per_byte := trials; c_payload_length_extra_bytes := extra |}.

Lemma read_bitfield a rest : read_be32 (bitfield a ++ rest) 0 = Ok (if a then 1 else 0).
Proof.
  unfold bitfield. apply (read_be32_at _ [] _ rest); [done|done|].
  unfold is_u32. destruct a; lia.
Qed.

Lemma take_pubkey_fields id sig :
  identity_ok id -> uncompressed (id_pub_signing id) -> uncompressed (id_pub_encryption id) ->
  blen sig <= 72 ->
  take_pubkey (pubkey_fields id ++ varint_bytes (blen sig) ++ sig)
  = Ok {| k_bitfield := if id_does_ack id then 1 else 0; k_sign_pub := id_pub_signing id;
          k_enc_pub := id_pub_encryption id; k_nonce_trials := id_nonce_trials_per_byte id;
          k_extra_bytes := id_payload_length_extra_bytes id;
          k_presig_offset := blen (pubkey_fields id);
          k_sig := blen (pubkey_fields id ++ varint_bytes (blen sig)); k_sig_len := blen sig |}.
Proof.
  intros (Hv & Hst & Hls & Hle & Hn & He) Us Ue Hsig.
  pose proof (uncompressed_cons _ Us) as Ps. pose proof (uncompressed_cons _ Ue) as Pe.
  set (bf := bitfield (id_does_ack id)). set (x := slice (id_pub_signing id) 1 64) in *.
  set (y := slice (id_pub_encryption id) 1 64) in *.
  set (t := varint_bytes (id_nonce_trials_per_byte id)).
  set (ex := varint_bytes (id_payload_length_extra_bytes id)).
  assert (Lb : blen bf = 4) by apply blen_bitfield.
  assert (Lx : blen x = 64) by (unfold x; rewrite blen_slice; lia).
  assert (Ly : blen y = 64) by (unfold y; rewrite blen_slice; lia).
  assert (Lt : 1 <= blen t <= 9) by (unfold t; rewrite blen_varint_bytes; apply bm_varint_size_pos).
  assert (Le : 1 <= blen ex <= 9) by (unfold ex; rewrite blen_varint_bytes; apply bm_varint_size_pos).
  pose proof (blen_nonneg sig) as Ls.
  assert (Lv : 1 <= blen (varint_bytes (blen sig)) <= 9)
    by (rewrite blen_varint_bytes; apply bm_varint_size_pos).
  assert (EF : pubkey_fields id = bf ++ x ++ y ++ t ++ ex) by done.
  set (D := pubkey_fields id ++ varint_bytes (blen sig) ++ sig).
  assert (ED : D = bf ++ x ++ y ++ t ++ ex ++ varint_bytes (blen sig) ++ sig)
    by (unfold D; rewrite EF, <- !app_assoc; done).
  assert (LD : blen D < 2 ^ 63) by (rewrite ED, !blen_app; lia).
  assert (HD : 132 <= blen D) by (rewrite ED, !blen_app; lia). unfold take_pubkey. zdec.
  assert (RB : read_be32 D 0 = Ok (if id_does_ack id then 1 else 0)) by (rewrite ED; apply read_bitfield).
  assert (RX : rdn D 4 64 = Ok x) by (rewrite ED; apply rdn_app_mid; lia).
  assert (RY : rdn D 68 64 = Ok y)
    by (rewrite ED, (app_assoc bf); apply rdn_app_mid; rewrite ?blen_app; lia).
  rewrite RB. cbn_bind. rewrite RX. cbn_bind. change (4 + 64) with 68. rewrite RY. cbn_bind.
  rewrite (take_varint_is D (bf ++ x ++ y) (id_nonce_trials_per_byte id)
    (ex ++ varint_bytes (blen sig) ++ sig)); [|by rewrite ED, <- !app_assoc|rewrite !blen_app; lia|done|done].
  cbn_bind. fold t.
  rewrite (take_varint_is D ((bf ++ x ++ y) ++ t) (id_payload_length_extra_bytes id)
    (varint_bytes (blen sig) ++ sig)); [|by rewrite ED, <- !app_assoc|done|done|done].
  cbn_bind. fold ex.
  assert (EP : ((bf ++ x ++ y) ++ t) ++ ex = pubkey_fields id) by (rewrite EF, <- !app_assoc; done).
  rewrite EP, (take_block_is D (pubkey_fields id) sig []); [|by rewrite app_nil_r|done|done].
  cbn_bind. by rewrite Ps, Pe.
Qed.

(** The parsed header of a pubkey object. *)
Lemma parse_pubkey_header n expires v s rest :
  is_u64 n -> is_u64 expires -> is_u64 v -> is_u64 s ->
  let hd := common_header expires BM_OBJECT_PUBKEY v s in
  exists h, bm_object_parse_header (be_split 8 n ++ hd ++ rest) = Ok h
    /\ object_type h = BM_OBJECT_PUBKEY /\ version h = v /\ stream h = s
    /\ header_len h = 8 + blen hd
    /\ drop (Z.to_nat (header_len h)) (be_split 8 n ++ hd ++ rest) = rest.
Proof.
  intros Hn He Hv Hs hd.
  replace (be_split 8 n ++ hd ++ rest) with (header_bytes n expires BM_OBJECT_PUBKEY v s ++ rest)
    by (unfold header_bytes, hd, common_header; by rewrite <- !app_assoc).
  assert (L : 8 + blen hd = blen (header_bytes n expires BM_OBJECT_PUBKEY v s))
    by (unfold header_bytes, hd, common_header; rewrite !blen_app, !blen_be_split; lia).
  assert (L' : 20 + bm_varint_size v + bm_varint_size s = 8 + blen hd)
    by (unfold hd, common_header; rewrite !blen_app, !blen_be_split, !blen_varint_bytes; lia).
  rewrite parse_header_bytes by (done || (unfold is_u32, BM_OBJECT_PUBKEY; lia)).
  eexists. split; [done|]. cbn [object_type version stream header_len]. split_and!; [done..|].
  apply drop_app_blen. lia.
Qed.

Section ParserLemmas.
Context `{OSL : OpenSSLLaws}.

Definition id_ripe (id : bm_identity_info) : list Z :=
  keys_ripe (id_pub_signing id) (id_pub_encryption id).

Lemma calc_ripe_id id :
  uncompressed (id_pub_signing id) -> uncompressed (id_pub_encryption id) ->
  bm_address_calc_ripe (id_pub_signing id) (id_pub_encryption id) = Ok (id_ripe id).
Proof. intros [H1 _] [H2 _]. by rewrite calc_ripe_eq. Qed.

Lemma blen_id_ripe id : blen (id_ripe id) = 20.
Proof. apply blen_ripemd160. Qed.

(** An unsigned version 2 pubkey needs the public keys only. *)
Lemma parse_pubkey_v2_eq id n expires o :
  identity_ok id -> uncompressed (id_pub_signing id) -> uncompressed (id_pub_encryption id) ->
  is_u64 n -> is_u64 expires -> bm_build_pubkey_v2 id expires = Ok o ->
  bm_parse_pubkey_v2 (be_split 8 n ++ o) = Ok (identity_entry id 2 (id_ripe id) NO_TAG 0 0).
Proof.
  intros Hid Us Ue Hn He Ho. rewrite build_pubkey_v2_eq in Ho by done. apply ok_inj in Ho as <-.
  pose proof Hid as (_ & Hst & Hls & Hle & _ & _). pose proof (blen_bitfield (id_does_ack id)) as Lb.
  set (body := bitfield (id_does_ack id) ++ slice (id_pub_signing id) 1 64 ++ slice (id_pub_encryption id) 1 64).
  assert (blen (slice (id_pub_signing id) 1 64) = 64) by (rewrite blen_slice; lia).
  assert (blen (slice (id_pub_encryption id) 1 64) = 64) by (rewrite blen_slice; lia).
  assert (Lbody : blen body = 132) by (unfold body; rewrite !blen_app, !blen_slice by lia; lia).
  destruct (parse_pubkey_header n expires 2 (id_stream id) body) as (h & E & Ht & Hv & Hs & Hl & Hd);
    [done|done|unfold is_u64; lia|done|].
  unfold bm_parse_pubkey_v2. rewrite E. cbn_bind. rewrite Ht, Hv, Hd, Hs, Hl. cbn [negb orb].
  change (BM_OBJECT_PUBKEY =? BM_OBJECT_PUBKEY) with true. cbn [negb orb].
  rewrite !blen_app, blen_be_split, Lbody. zdec.
  unfold body. rewrite read_bitfield. cbn_bind.
  rewrite (rdn_app_mid (bitfield (id_does_ack id)) _ _ 4 64) by lia. cbn_bind.
  rewrite app_assoc, rdn_suffix by (rewrite ?blen_app; lia). cbn_bind.
  rewrite !uncompressed_cons, calc_ripe_id by done. done.
Qed.

Lemma parse_pubkey_v3_eq id n expires r o :
  identity_ok id -> uncompressed (id_pub_signing id) -> uncompressed (id_pub_encryption id) ->
  bm_address_get_public_key (id_priv_signing id) = Ok (id_pub_signing id) ->
  is_u64 n -> is_u64 expires -> bm_build_pubkey_v3 id expires r = Ok o ->
  bm_parse_pubkey_v3 (be_split 8 n ++ o)
  = Ok (identity_entry id 3 (id_ripe id) NO_TAG (id_nonce_trials_per_byte id)
          (id_payload_length_extra_bytes id)).
Proof.
  intros Hid Us Ue Hk Hn He Ho. rewrite build_pubkey_v3_eq in Ho by done.
  set (hd := common_header expires BM_OBJECT_PUBKEY 3 (id_stream id)) in *.
  apply bind_ok_inv in Ho as (sig & Hsig & Ho). apply ok_inj in Ho as <-.
  pose proof (sign_len _ _ _ _ Hsig) as Ls.
  pose proof (sign_verify _ _ _ _ _ Hk Hsig) as Hver.
  set (P := pubkey_fields id) in *. set (D := P ++ varint_bytes (blen sig) ++ sig).
  destruct (parse_pubkey_header n expires 3 (id_stream id) D) as (h & E & Ht & Hv & Hs & Hl & Hd);
    [done|done|unfold is_u64; lia|apply Hid|]. fold hd in E, Hl, Hd.
  assert (EO : be_split 8 n ++ (hd ++ P) ++ varint_bytes (blen sig) ++ sig = be_split 8 n ++ hd ++ D)
    by (unfold D; by rewrite <- !app_assoc).
  rewrite EO. unfold bm_parse_pubkey_v3. rewrite E. cbn_bind. rewrite Ht, Hv, Hd, Hs.
  change (BM_OBJECT_PUBKEY =? BM_OBJECT_PUBKEY) with true. cbn [negb orb Z.eqb].
  pose proof (take_pubkey_fields id sig Hid Us Ue Ls) as TP. fold P in TP. fold D in TP.
  rewrite TP. cbn_bind.
  cbn [k_presig_offset k_sig k_sig_len k_sign_pub k_enc_pub k_bitfield k_nonce_trials k_extra_bytes].
  replace (header_len h - 8) with (blen hd) by lia. pose proof (blen_nonneg P). pose proof (blen_nonneg hd).
  assert (R3 : rdn (be_split 8 n ++ hd ++ D) 8 (blen hd) = Ok hd)
    by (apply rdn_app_mid; rewrite ?blen_be_split; lia).
  assert (R4 : rdn D 0 (blen P) = Ok P) by (by apply rdn_prefix).
  rewrite R3. cbn_bind. rewrite wr_malloc_start by lia. cbn_bind. rewrite R4. cbn_bind.
  rewrite wr_malloc_last by lia. cbn_bind.
  unfold D. rewrite (app_assoc P), verify_at_eq by (done || lia). cbn_bind. rewrite Hver. cbn [negb].
  by rewrite calc_ripe_id.
Qed.

Lemma parse_pubkey_v4_eq id n expires e o pub :
  identity_ok id -> uncompressed (id_pub_signing id) -> uncompressed (id_pub_encryption id) ->
  bm_address_get_public_key (id_priv_signing id) = Ok (id_pub_signing id) ->
  bm_address_get_public_key (slice (address_digest 4 (id_stream id) (id_ripe id)) 0 32) = Ok pub ->
  (forall iv, e_iv e = Some iv -> blen iv = 16) ->
  is_u64 n -> is_u64 expires -> bm_build_pubkey_v4 id (id_ripe id) expires e = Ok o ->
  bm_parse_pubkey_v4 (be_split 8 n ++ o) (id_ripe id) 4 (id_stream id)
  = Ok (identity_entry id 4 (id_ripe id) (slice (address_digest 4 (id_stream id) (id_ripe id)) 32 32)
          (id_nonce_trials_per_byte id) (id_payload_length_extra_bytes id)).
Proof.
  intros Hid Us Ue Hk Hp Hiv Hn He Ho. rewrite (build_pubkey_v4_eq _ _ _ _ pub) in Ho
    by (done || apply blen_id_ripe).
  set (hd := common_header expires BM_OBJECT_PUBKEY 4 (id_stream id)) in *.
  set (dg := address_digest 4 (id_stream id) (id_ripe id)) in *. set (tag := slice dg 32 32) in *.
  assert (Ldg : blen dg = 64) by apply blen_sha512.
  assert (Lt : blen tag = 32) by (unfold tag; rewrite blen_slice; lia).
  apply sealed_inv in Ho as (sig & ep & iv & ct & Hsig & Hep & Eiv & Hct & ->).
  pose proof (sign_len _ _ _ _ Hsig) as Ls. pose proof (sign_verify _ _ _ _ _ Hk Hsig) as Hver.
  pose proof (ecies_decrypt_encrypt _ _ _ _ _ _ (Hiv _ Eiv) Hp Hct) as Hdec.
  set (P := pubkey_fields id) in *. set (D := P ++ varint_bytes (blen sig) ++ sig) in *.
  destruct (parse_pubkey_header n expires 4 (id_stream id) (tag ++ ct))
    as (h & E & Ht & Hv & Hs & Hl & _); [done|done|unfold is_u64; lia|apply Hid|]. fold hd in E, Hl.
  assert (EO : be_split 8 n ++ (hd ++ tag) ++ ct = be_split 8 n ++ hd ++ tag ++ ct)
    by (by rewrite <- !app_assoc).
  rewrite EO. unfold bm_parse_pubkey_v4. rewrite E. cbn_bind. rewrite Ht, Hv.
  change (BM_OBJECT_PUBKEY =? BM_OBJECT_PUBKEY) with true. cbn [negb orb Z.eqb].
  pose proof (blen_nonneg ct) as Lc. pose proof (blen_nonneg hd) as Lh.
  assert (LO : blen (be_split 8 n ++ hd ++ tag ++ ct) = header_len h + 32 + blen ct)
    by (rewrite !blen_app, blen_be_split; lia).
  rewrite LO. zdec.
  assert (R1 : rdn (be_split 8 n ++ hd ++ tag ++ ct) (header_len h) 32 = Ok tag)
    by (rewrite (app_assoc (be_split 8 n)); apply rdn_app_mid; rewrite ?blen_app, ?blen_be_split; lia).
  assert (R2 : rdn (be_split 8 n ++ hd ++ tag ++ ct) (header_len h + 32)
      (header_len h + 32 + blen ct - header_len h - 32) = Ok ct)
    by (rewrite !app_assoc; apply rdn_suffix; rewrite ?blen_app, ?blen_be_split; lia).
  rewrite R1. cbn_bind. rewrite R2. cbn_bind.
  rewrite secret_and_tag_eq by apply blen_id_ripe. cbn_bind.
  fold (address_digest 4 (id_stream id) (id_ripe id)). fold dg. fold tag.
  rewrite list_eqb_refl. cbn [negb]. rewrite Hdec. cbn_bind.
  pose proof (take_pubkey_fields id sig Hid Us Ue Ls) as TP. fold P in TP. fold D in TP.
  rewrite TP. cbn_bind.
  cbn [k_presig_offset k_sig k_sig_len k_sign_pub k_enc_pub k_bitfield k_nonce_trials k_extra_bytes].
  replace (header_len h - 8) with (blen hd) by lia.
  assert (R3 : rdn (be_split 8 n ++ hd ++ tag ++ ct) 8 (blen hd) = Ok hd)
    by (apply rdn_app_mid; rewrite ?blen_be_split; lia).
  pose proof (blen_nonneg P) as LP. rewrite R3. cbn_bind.
  rewrite wr_malloc_start by lia. cbn_bind. rewrite wr_malloc by lia. cbn_bind.
  assert (R4 : rdn D 0 (blen P) = Ok P) by (by apply rdn_prefix). rewrite R4. cbn_bind.
  rewrite wr_malloc_last by (rewrite ?blen_app; lia). cbn_bind.
  unfold D. rewrite (app_assoc P), verify_at_eq by (done || lia). cbn_bind. rewrite Hver. cbn [negb].
  rewrite calc_ripe_id by done. cbn_bind. by rewrite list_eqb_refl.
Qed.
End ParserLemmas.

(** ** What an accepted pubkey proves *)

Lemma take_pubkey_inv d k :
  take_pubkey d = Ok k ->
  132 <= blen d /\ k_sign_pub k = 4 :: slice d 4 64 /\ k_enc_pub k = 4 :: slice d 68 64
  /\ blen (k_sign_pub k) = 65 /\ blen (k_enc_pub k) = 65
  /\ exists p tr, take_varint d 132 = Ok (p, tr) /\ take_varint d p = Ok (k_presig_offset k, k_extra_bytes k)
     /\ exists q, take_block d (k_presig_offset k) = Ok (k_sig k, k_sig_len k, q).
Proof.
  unfold take_pubkey. intros E. destruct (Z.gtb_spec (4 + 64 + 64) (blen d)); [done|].
  inv_bind E. apply bind_ok_inv in E as (x & Ex & E). apply rdn_ok_inv in Ex as (-> & _).
  apply bind_ok_inv in E as (y & Ey & E). apply rdn_ok_inv in Ey as (-> & _).
  apply bind_ok_inv in E as ([p tr] & Ep & E). apply bind_ok_inv in E as ([q ex] & Eq & E).
  apply bind_ok_inv in E as ([[sg sl] w] & Es & E). injection E as <-.
  cbn [k_sign_pub k_enc_pub k_presig_offset k_extra_bytes k_sig k_sig_len].
  rewrite !blen_cons, !blen_slice by lia. split_and!; [lia|done|done|lia|lia|].
  exists p, tr. split; [done|]. split; [done|]. by exists w.
Qed.

Lemma take_pubkey_bounds d k :
  bytes_ok d -> blen d < 2 ^ 63 -> take_pubkey d = Ok k ->
  132 < k_presig_offset k < k_sig k /\ k_sig k <= blen d /\ is_u64 (k_sig_len k)
  /\ 0 <= u64 (k_sig k + k_sig_len k) <= blen d.
Proof.
  intros Hb Hl E. apply take_pubkey_inv in E as (H & _ & _ & _ & _ & p & tr & E1 & E2 & q & E3).
  apply take_varint_bound in E1; [|done|lia|done]. apply take_varint_bound in E2; [|done|lia|done].
  apply take_block_bound in E3 as (? & ? & -> & ?); [|done|lia|done]. split_and!; (done || lia).
Qed.

Lemma take_varint_safe d p : 0 <= p <= blen d -> blen d < 2 ^ 63 -> safe (take_varint d p).
Proof.
  intros Hp Hl. unfold take_varint. apply safe_bind; [|by intros [? ?]].
  apply varint_decode_safe. rewrite blen_drop, u64_small by (unfold is_u64; lia). lia.
Qed.

Lemma take_pubkey_safe d : bytes_ok d -> blen d < 2 ^ 63 -> safe (take_pubkey d).
Proof.
  intros Hb Hl. unfold take_pubkey. destruct (Z.gtb_spec (4 + 64 + 64) (blen d)); [done|].
  destruct (read_be32_in d 0) as [bf ->]; [lia..|]. cbn_bind.
  rewrite !rdn_ok by lia. cbn_bind.
  apply safe_bind; [apply take_varint_safe; lia|]. intros [p tr] E1.
  apply take_varint_bound in E1; [|done|lia|done].
  apply safe_bind; [apply take_varint_safe; lia|]. intros [q ex] E2.
  apply take_varint_bound in E2; [|done|lia|done].
  apply safe_bind; [|by intros [[? ?] ?]]. unfold take_block.
  apply safe_bind; [apply take_varint_safe; lia|]. intros [? ?] _. by case_match.
Qed.

Section Evidence.
Context `{OSL : OpenSSLLaws}.

(** A length that passed the wrapping bounds check is in bounds once converted to [int]. *)
Lemma verify_at_safe data buf pos len pub :
  0 <= pos <= blen buf -> blen buf < 2 ^ 31 -> is_u64 len ->
  u64 (pos + len) <= blen buf -> safe (verify_at data buf pos len pub).
Proof.
  intros Hp Hl Hlen Hw. unfold verify_at. destruct (Z.ltb_spec (s32 len) 0) as [|Hs]; [done|].
  apply safe_bind; [|done]. unfold is_u64, u64 in *.
  assert (s32 len <= blen buf - pos); [|by rewrite rdn_ok by lia].
  unfold s32 in *. destruct (Z.lt_ge_cases (pos + len) (2 ^ 64)) as [Hc|Hc].
  - rewrite Z.mod_small in Hw by lia. rewrite Z.mod_small; lia.
  - replace (pos + len) with (pos + len - 2 ^ 64 + 1 * 2 ^ 64) in Hw by lia.
    rewrite Z.mod_add, Z.mod_small in Hw by lia.
    replace (len + 2 ^ 31) with (len - 2 ^ 64 + 2 ^ 31 + 2 ^ 32 * 2 ^ 32) in Hs |- * by lia.
    rewrite Z.mod_add in Hs |- * by lia.
    destruct (Z.lt_ge_cases (len - 2 ^ 64 + 2 ^ 31) 0).
    + replace (len - 2 ^ 64 + 2 ^ 31) with (len - 2 ^ 64 + 2 ^ 31 + 2 ^ 32 + -1 * 2 ^ 32) in Hs |- * by lia.
      rewrite Z.mod_add, Z.mod_small in Hs |- * by lia. lia.
    + rewrite Z.mod_small by lia. lia.
Qed.

(** The keys of an entry are the ones its ripe is made of, and the signing key has
    signed the header and everything before the signature. *)
Definition pubkey_evidence (head body : list Z) (out : bm_cached_pubkey) : Prop :=
  exists k sig, take_pubkey body = Ok k
    /\ c_signing_pubkey out = 4 :: slice body 4 64 /\ c_encryption_pubkey out = 4 :: slice body 68 64
    /\ c_ripe out = keys_ripe (c_signing_pubkey out) (c_encryption_pubkey out)
    /\ c_nonce_trials_per_byte out = k_nonce_trials k
    /\ c_payload_length_extra_bytes out = k_extra_bytes k
    /\ bm_crypto_verify (head ++ slice body 0 (k_presig_offset k)) sig (c_signing_pubkey out) = true
    /\ (bytes_ok body -> blen body < 2 ^ 63 -> 132 < k_presig_offset k < blen body).

Lemma signed_prefix body k : take_pubkey body = Ok k -> bytes_ok body -> blen body < 2 ^ 63 -> 132 < k_presig_offset k < blen body.
Proof. intros E Hb Hl. destruct (take_pubkey_bounds _ _ Hb Hl E) as (? & ? & _). lia. Qed.

Lemma parse_pubkey_v3_inv object out :
  bm_parse_pubkey_v3 object = Ok out ->
  exists h, bm_object_parse_header object = Ok h
    /\ object_type h = BM_OBJECT_PUBKEY /\ version h = 3 /\ c_stream out = stream h
    /\ c_address_version out = 3
    /\ pubkey_evidence (slice object 8 (header_len h - 8))
         (drop (Z.to_nat (header_len h)) object) out.
Proof.
  unfold bm_parse_pubkey_v3. intros E. apply bind_ok_inv in E as (h & Eh & E).
  destruct (Z.eqb_spec (object_type h) BM_OBJECT_PUBKEY); [|done].
  destruct (Z.eqb_spec (version h) 3); [|done]. cbn [negb orb] in E. cbv zeta in E.
  apply bind_ok_inv in E as (k & Ek & E). apply bind_ok_inv in E as (hd & E1 & E).
  apply bind_ok_inv in E as (t1 & E2 & E). apply bind_ok_inv in E as (pl & E3 & E).
  apply bind_ok_inv in E as (t2 & E4 & E). apply bind_ok_inv in E as (ok & E5 & E).
  destruct ok; [|done]. cbn [negb] in E. apply bind_ok_inv in E as (rp & E6 & E). injection E as <-.
  pose proof (to_sign_inv _ _ _ _ _ _ _ _ E1 E2 E3 E4) as ->.
  apply verify_at_true in E5 as (sig & Hv).
  pose proof (take_pubkey_inv _ _ Ek) as (_ & Hs & He & Ls & Le & _).
  rewrite calc_ripe_eq in E6 by done. injection E6 as <-.
  exists h. split_and!; [done..|]. exists k, sig. cbn [c_signing_pubkey c_encryption_pubkey c_ripe
    c_nonce_trials_per_byte c_payload_length_extra_bytes]. rewrite <- Hs, <- He. split_and!; try done. by apply signed_prefix.
Qed.

Lemma to_sign3_inv object decrypted tag hl n h t1 t2 p r :
  blen tag = 32 ->
  rdn object 8 (hl - 8) = Ok h -> wr (malloc (hl - 8 + 32 + n)) 0 h = Ok t1 ->
  wr t1 (hl - 8) tag = Ok t2 -> rdn decrypted 0 n = Ok p -> wr t2 (hl - 8 + 32) p = Ok r ->
  r = (slice object 8 (hl - 8) ++ tag) ++ slice decrypted 0 n.
Proof.
  intros Lt Eh E1 E2 Ep E. apply rdn_ok_inv in Eh as (-> & _ & ? & ?).
  apply rdn_ok_inv in Ep as (-> & _ & ? & ?).
  rewrite wr_malloc_start in E1 by (rewrite blen_slice; lia). injection E1 as <-.
  rewrite blen_slice in E2 by lia.
  rewrite wr_malloc in E2 by (rewrite ?blen_slice; lia). injection E2 as <-.
  rewrite wr_malloc_last in E by (rewrite ?blen_app, ?blen_slice; lia). by injection E as <-.
Qed.

Lemma parse_pubkey_v4_inv object ripe v s out :
  blen ripe = 20 -> bm_parse_pubkey_v4 object ripe v s = Ok out ->
  exists h decrypted, bm_object_parse_header object = Ok h
    /\ object_type h = BM_OBJECT_PUBKEY /\ version h = 4
    /\ c_ripe out = ripe /\ c_address_version out = v /\ c_stream out = s
    /\ c_tag out = slice (address_digest v s ripe) 32 32
    /\ slice object (header_len h) 32 = c_tag out
    /\ bm_crypto_ecies_decrypt (slice object (header_len h + 32) (blen object - header_len h - 32))
         (slice (address_digest v s ripe) 0 32) = Ok decrypted
    /\ pubkey_evidence (slice object 8 (header_len h - 8) ++ c_tag out) decrypted out.
Proof.
  intros Lr. unfold bm_parse_pubkey_v4. intros E. apply bind_ok_inv in E as (h & Eh & E).
  destruct (Z.eqb_spec (object_type h) BM_OBJECT_PUBKEY); [|done].
  destruct (Z.eqb_spec (version h) 4); [|done]. cbn [negb orb] in E. case_match; [done|].
  apply bind_ok_inv in E as (tag & Et & E). apply bind_ok_inv in E as (ct & Ec & E).
  rewrite secret_and_tag_eq in E by done. rewrite bind_ok in E. cbv beta iota zeta in E.
  fold (address_digest v s ripe) in E. destruct (list_eqb tag _) eqn:Etag; [|done]. cbn [negb] in E.
  apply list_eqb_eq in Etag. apply bind_ok_inv in E as (d & Ed & E).
  apply bind_ok_inv in E as (k & Ek & E). apply bind_ok_inv in E as (hd & E1 & E).
  apply bind_ok_inv in E as (t1 & E2 & E). apply bind_ok_inv in E as (t2 & E3 & E).
  apply bind_ok_inv in E as (pl & E4 & E). apply bind_ok_inv in E as (t3 & E5 & E).
  apply bind_ok_inv in E as (ok & E6 & E). destruct ok; [|done]. cbn [negb] in E.
  apply bind_ok_inv in E as (rp & E7 & E). destruct (list_eqb rp ripe) eqn:Er; [|done].
  apply list_eqb_eq in Er as ->. cbn [negb] in E. injection E as <-.
  apply rdn_ok_inv in Et as (Et & ? & _ & ?). apply rdn_ok_inv in Ec as (-> & _).
  pose proof (to_sign3_inv _ _ tag _ _ _ _ _ _ _ ltac:(rewrite Et, blen_slice; lia) E1 E2 E3 E4 E5) as ->.
  apply verify_at_true in E6 as (sig & Hv).
  pose proof (take_pubkey_inv _ _ Ek) as (_ & Hs & He & Ls & Le & _).
  rewrite calc_ripe_eq in E7 by done. apply ok_inj in E7.
  exists h, d. cbn [c_ripe c_address_version c_stream c_tag]. split_and!; [done..|].
  exists k, sig. cbn [c_signing_pubkey c_encryption_pubkey c_ripe c_nonce_trials_per_byte
    c_payload_length_extra_bytes c_tag]. rewrite <- Hs, <- He. split_and!; try done. by apply signed_prefix.
Qed.

Lemma parse_pubkey_v3_safe object :
  bytes_ok object -> blen object < 2 ^ 31 -> safe (bm_parse_pubkey_v3 object).
Proof.
  intros Hb Hl. unfold bm_parse_pubkey_v3. apply safe_bind; [apply parse_header_safe|].
  intros h Eh. apply parse_header_inv in Eh as (? & ? & _); [|done]. case_match; [done|]. cbv zeta.
  set (p := drop (Z.to_nat (header_len h)) object).
  assert (Lp : blen p = blen object - header_len h) by (apply blen_drop; lia).
  assert (Hp : bytes_ok p) by (unfold p; auto with bytes).
  apply safe_bind; [apply take_pubkey_safe; [done|lia]|]. intros k Ek.
  pose proof (take_pubkey_inv _ _ Ek) as (_ & _ & _ & Ls & Le & _).
  apply take_pubkey_bounds in Ek as (? & ? & ? & ?); [|done|lia].
  rewrite (rdn_ok object 8) by lia. cbn_bind.
  rewrite wr_malloc_start by (rewrite blen_slice by lia; lia). cbn_bind. rewrite rdn_ok by lia. cbn_bind.
  rewrite wr_malloc_last by (rewrite ?blen_slice by lia; lia). cbn_bind.
  apply safe_bind; [apply verify_at_safe; (done || lia)|]. intros ok _. destruct ok; [|done].
  by rewrite calc_ripe_eq.
Qed.

Lemma parse_pubkey_v4_safe object ripe v s :
  (forall k d, HMAC_SHA256 k d <> None) ->
  bytes_ok object -> blen object < 2 ^ 31 -> blen ripe = 20 -> safe (bm_parse_pubkey_v4 object ripe v s).
Proof.
  intros Hh Hb Hl Lr. unfold bm_parse_pubkey_v4. apply safe_bind; [apply parse_header_safe|].
  intros h Eh. apply parse_header_inv in Eh as (? & ? & _); [|done]. case_match; [done|].
  destruct (Z.gtb_spec (header_len h + 32) (blen object)); [done|].
  rewrite (rdn_ok object (header_len h)) by lia. cbn_bind.
  rewrite (rdn_ok object (header_len h + 32)) by lia. cbn_bind.
  rewrite secret_and_tag_eq by done. cbn_bind. case_match; [done|].
  set (ct := slice object (header_len h + 32) _).
  assert (Hc : bytes_ok ct) by (unfold ct; auto with bytes).
  assert (Lc : blen ct = blen object - header_len h - 32) by (apply blen_slice; lia).
  apply safe_bind; [by apply ecies_decrypt_safe|]. intros d Ed.
  apply ecies_decrypt_bytes in Ed as [Hd Ld]; [|done].
  apply safe_bind; [apply take_pubkey_safe; [done|lia]|]. intros k Ek.
  pose proof (take_pubkey_inv _ _ Ek) as (_ & _ & _ & Ls & Le & _).
  apply take_pubkey_bounds in Ek as (? & ? & ? & ?); [|done|lia].
  rewrite (rdn_ok object 8) by lia. cbn_bind.
  rewrite wr_malloc_start by (rewrite blen_slice by lia; lia). cbn_bind.
  rewrite wr_malloc by (rewrite ?blen_slice by lia; lia). cbn_bind. rewrite rdn_ok by lia. cbn_bind.
  rewrite wr_malloc_last by (rewrite ?blen_app, ?blen_slice by lia; lia). cbn_bind.
  apply safe_bind; [apply verify_at_safe; (done || lia)|]. intros ok _. destruct ok; [|done]. cbn [negb].
  rewrite calc_ripe_eq by done. cbn_bind. by case_match.
Qed.

Lemma parse_pubkey_v2_safe object :
  bytes_ok object -> blen object < 2 ^ 31 -> safe (bm_parse_pubkey_v2 object).
Proof.
  intros Hb Hl. unfold bm_parse_pubkey_v2. apply safe_bind; [apply parse_header_safe|].
  intros h Eh. apply parse_header_inv in Eh as (? & ? & _); [|done]. case_match; [done|]. cbv zeta.
  destruct (Z.eqb_spec (blen object - header_len h) (4 + 64 + 64)); [|done]. cbn [negb].
  set (p := drop (Z.to_nat (header_len h)) object).
  assert (Lp : blen p = 132) by (unfold p; rewrite blen_drop; lia).
  destruct (read_be32_in p 0) as [bf ->]; [lia..|]. cbn_bind. rewrite !rdn_ok by lia. cbn_bind.
  by rewrite calc_ripe_eq by (rewrite blen_cons, blen_slice; lia).
Qed.
End Evidence.

(** ** The cache *)

Definition entry_ok (e : bm_cached_pubkey) : Prop :=
  blen (c_ripe e) = 20 /\ blen (c_tag e) = 32 /\ blen (c_signing_pubkey e) = 65
  /\ blen (c_encryption_pubkey e) = 65 /\ is_u64 (c_address_version e) /\ is_u64 (c_stream e)
  /\ is_u32 (c_behavior_bitfield e) /\ is_u64 (c_nonce_trials_per_byte e)
  /\ is_u64 (c_payload_length_extra_bytes e).

(** What was stored is what is loaded, whatever the cache held for that ripe before. *)
Lemma cache_lookup_upsert db e t :
  entry_ok e -> bm_pubkey_cache_lookup_by_ripe (bm_pubkey_cache_upsert db e t) (c_ripe e) = Ok e.
Proof.
  intros (L1 & L2 & L3 & L4 & H1 & H2 & H3 & H4 & H5).
  assert (load : forall used, load_row (c_ripe e) (entry_row e t used) = Ok e).
  { intros used. unfold load_row, entry_row, blob_field. cbn [pk_tag pk_address_version pk_stream
      pk_behavior_bitfield pk_signing pk_encryption pk_nonce_trials pk_extra_bytes].
    rewrite L1, L2, L3, L4, !u64_s64 by done. cbn [Z.eqb Pos.eqb negb orb].
    unfold is_u32 in H3. rewrite s64_small by lia. unfold u32. rewrite Z.mod_small by lia.
    by destruct e. }
  unfold bm_pubkey_cache_lookup_by_ripe, bm_pubkey_cache_upsert, with_pubkey_cache.
  cbn [pubkey_cache]. rewrite lookup_upsert, decide_True by done. case_match; apply load.
Qed.

Section PubkeyProperties.
Context `{OSL : OpenSSLLaws}.

Lemma identity_entry_ok id v tag n x :
  identity_ok id -> is_u64 v -> blen tag = 32 -> is_u64 n -> is_u64 x ->
  entry_ok (identity_entry id v (id_ripe id) tag n x).
Proof.
  intros (_ & Hs & L1 & L2 & _) ? ? ? ?. pose proof (blen_id_ripe id).
  unfold entry_ok, identity_entry. cbn [c_ripe c_tag c_signing_pubkey c_encryption_pubkey
    c_address_version c_stream c_behavior_bitfield c_nonce_trials_per_byte c_payload_length_extra_bytes].
  split_and!; try done. unfold is_u32. destruct (id_does_ack id); lia.
Qed.

Lemma blen_tag v s r : blen (slice (address_digest v s r) 32 32) = 32.
Proof. assert (blen (address_digest v s r) = 64) by apply blen_sha512. rewrite blen_slice; lia. Qed.

(** The public key an identity publishes reaches its correspondents: the object of each
    version (2 unsigned, 3 signed, 4 signed and encrypted under the secret of the address)
    parses to an entry with the identity's keys, ripe, stream, acknowledgement bit and
    proof-of-work demands, and the cache then answers a lookup of that ripe with exactly
    this entry, whatever it held for the ripe before. *)
Theorem bm_parse_pubkey_roundtrip id n expires e pub db t :
  identity_ok id -> uncompressed (id_pub_signing id) -> uncompressed (id_pub_encryption id) ->
  bm_address_get_public_key (id_priv_signing id) = Ok (id_pub_signing id) ->
  bm_address_get_public_key (slice (address_digest 4 (id_stream id) (id_ripe id)) 0 32) = Ok pub ->
  (forall iv, e_iv e = Some iv -> blen iv = 16) -> is_u64 n -> is_u64 expires ->
  let tag := slice (address_digest 4 (id_stream id) (id_ripe id)) 32 32 in
  let trials := id_nonce_trials_per_byte id in
  let extra := id_payload_length_extra_bytes id in
  let received parsed entry :=
    parsed = Ok entry
    /\ bm_pubkey_cache_lookup_by_ripe (bm_pubkey_cache_upsert db entry t) (id_ripe id) = Ok entry in
  (forall o, bm_build_pubkey_v2 id expires = Ok o ->
     received (bm_parse_pubkey_v2 (be_split 8 n ++ o)) (identity_entry id 2 (id_ripe id) NO_TAG 0 0))
  /\ (forall o, bm_build_pubkey_v3 id expires (e_sign e) = Ok o ->
     received (bm_parse_pubkey_v3 (be_split 8 n ++ o))
       (identity_entry id 3 (id_ripe id) NO_TAG trials extra))
  /\ (forall o, bm_build_pubkey_v4 id (id_ripe id) expires e = Ok o ->
     received (bm_parse_pubkey_v4 (be_split 8 n ++ o) (id_ripe id) 4 (id_stream id))
       (identity_entry id 4 (id_ripe id) tag trials extra)).
Proof.
  intros Hid Us Ue Hk Hp Hiv Hn He tag trials extra received. unfold received.
  pose proof Hid as (_ & _ & _ & _ & Ht & Hx).
  assert (forall v, 2 <= v <= 4 -> is_u64 v) by (unfold is_u64; lia).
  assert (is_u64 0) by (unfold is_u64; lia). pose proof (blen_tag 4 (id_stream id) (id_ripe id)).
  split_and!; intros o Ho; (split; [eauto using parse_pubkey_v2_eq, parse_pubkey_v3_eq, parse_pubkey_v4_eq|]);
    apply (cache_lookup_upsert db (identity_entry id _ (id_ripe id) _ _ _) t), identity_entry_ok; auto with lia.
Qed.

(** C23: a pubkey object of version 3 or 4 is believed only on evidence: its keys hash to
    the ripe of the entry (for version 4 the ripe that was asked for, under the tag of that
    address), and the header and everything before the signature, the keys included, is signed
    by the signing key among them. *)
Theorem bm_parse_pubkey_authentic object ripe v s out :
  blen ripe = 20 ->
  (bm_parse_pubkey_v3 object = Ok out ->
   exists h, bm_object_parse_header object = Ok h
    /\ object_type h = BM_OBJECT_PUBKEY /\ version h = 3 /\ c_stream out = stream h
    /\ pubkey_evidence (slice object 8 (header_len h - 8))
         (drop (Z.to_nat (header_len h)) object) out)
  /\ (bm_parse_pubkey_v4 object ripe v s = Ok out ->
   exists h decrypted, bm_object_parse_header object = Ok h
    /\ object_type h = BM_OBJECT_PUBKEY /\ version h = 4
    /\ c_ripe out = ripe /\ c_tag out = slice (address_digest v s ripe) 32 32
    /\ slice object (header_len h) 32 = c_tag out
    /\ bm_crypto_ecies_decrypt (slice object (header_len h + 32) (blen object - header_len h - 32))
         (slice (address_digest v s ripe) 0 32) = Ok decrypted
    /\ pubkey_evidence (slice object 8 (header_len h - 8) ++ c_tag out) decrypted out).
Proof.
  intros Lr. split.
  - intros (h & ? & ? & ? & ? & _ & ?)%parse_pubkey_v3_inv. by exists h.
  - intros (h & d & ? & ? & ? & ? & _ & _ & ? & ? & ? & ?)%parse_pubkey_v4_inv; [|done].
    exists h, d. by split_and!.
Qed.

(** No pubkey object, however malformed, makes its parser read or write outside a
    buffer (for version 4, as long as OpenSSL computes the MAC), although the length of the
    signature comes from the object and its bounds check wraps. *)
Theorem bm_parse_pubkey_safe object ripe v s :
  bytes_ok object -> blen object < 2 ^ 31 -> blen ripe = 20 -> (forall k d, HMAC_SHA256 k d <> None) ->
  bm_parse_pubkey_v2 object <> Ub /\ bm_parse_pubkey_v3 object <> Ub
  /\ bm_parse_pubkey_v4 object ripe v s <> Ub.
Proof.
  intros. split_and!; intros E.
  - pose proof (parse_pubkey_v2_safe object) as F. rewrite E in F. by apply F.
  - pose proof (parse_pubkey_v3_safe object) as F. rewrite E in F. by apply F.
  - pose proof (parse_pubkey_v4_safe object ripe v s) as F. rewrite E in F. by apply F.
Qed.

(** A version 2 pubkey is not signed and needs the public keys only, and the cache is
    keyed by the ripe alone: whoever has received a signed pubkey can publish the same keys
    as version 2, and every node that stores it forgets the proof of work the owner demands
    (and the tag and version of the address). *)
Theorem pubkey_v2_downgrades id other n expires o db t t' entry :
  identity_ok id -> uncompressed (id_pub_signing id) -> uncompressed (id_pub_encryption id) ->
  id_pub_signing other = id_pub_signing id -> id_pub_encryption other = id_pub_encryption id ->
  is_u64 n -> is_u64 expires -> is_u64 (id_stream other) ->
  is_u64 (id_address_version other) -> is_u64 (id_nonce_trials_per_byte other) ->
  is_u64 (id_payload_length_extra_bytes other) ->
  c_ripe entry = id_ripe id -> bm_build_pubkey_v2 other expires = Ok o ->
  exists low, bm_parse_pubkey_v2 (be_split 8 n ++ o) = Ok low
    /\ bm_pubkey_cache_lookup_by_ripe
         (bm_pubkey_cache_upsert (bm_pubkey_cache_upsert db entry t) low t') (c_ripe entry) = Ok low
    /\ c_address_version low = 2 /\ c_tag low = NO_TAG
    /\ c_nonce_trials_per_byte low = 0 /\ c_payload_length_extra_bytes low = 0.
Proof.
  intros (_ & _ & L1 & L2 & _) Us Ue E1 E2 ? ? ? ? ? ? Er Ho.
  assert (Hid : identity_ok other) by (unfold identity_ok; split_and!; by rewrite ?E1, ?E2).
  assert (E : id_ripe other = id_ripe id) by (unfold id_ripe; by rewrite E1, E2).
  exists (identity_entry other 2 (id_ripe other) NO_TAG 0 0). split_and!; try done.
  - apply parse_pubkey_v2_eq with expires; rewrite ?E1, ?E2; done.
  - rewrite Er, <- E. apply (cache_lookup_upsert _ (identity_entry other 2 _ NO_TAG 0 0)).
    apply identity_entry_ok; try done; unfold is_u64; lia.
Qed.
End PubkeyProperties.

(** ** Witnesses *)

Section PubkeyWitnesses.
#[local] Existing Instance toy_OpenSSL.
#[local] Existing Instance toy_OpenSSLLaws.

Definition pubkey_secret : list Z := slice (address_digest 4 1 (id_ripe builder_identity)) 0 32.
Definition pubkey_v3_object : list Z :=
  be_split 8 5 ++ match bm_build_pubkey_v3 builder_identity 1700000000 [] with Ok o => o | _ => [] end.
Definition pubkey_v2_payload : list Z :=
  match bm_build_pubkey_v2 builder_identity 1700000000 with Ok o => o | _ => [] end.

Lemma builder_identity_ok : identity_ok builder_identity.
Proof. unfold identity_ok, is_u64. split_and!; by vm_compute. Qed.
Lemma builder_identity_points :
  uncompressed (id_pub_signing builder_identity) /\ uncompressed (id_pub_encryption builder_identity).
Proof. split; split; by vm_compute. Qed.

Lemma bm_parse_pubkey_roundtrip_witness :
  exists o, bm_build_pubkey_v3 builder_identity 1700000000 [] = Ok o
    /\ bm_parse_pubkey_v3 (be_split 8 5 ++ o)
       = Ok (identity_entry builder_identity 3 (id_ripe builder_identity) NO_TAG 1000 1000).
Proof.
  destruct (bm_parse_pubkey_roundtrip builder_identity 5 1700000000 builder_entropy
    (toy_mul pubkey_secret) empty_pubkey_db 1600000000) as (_ & H & _).
  - exact builder_identity_ok.
  - apply builder_identity_points.
  - apply builder_identity_points.
  - by vm_compute.
  - by vm_compute.
  - by intros iv [= <-].
  - unfold is_u64. lia.
  - unfold is_u64. lia.
  - destruct (bm_build_pubkey_v3 builder_identity 1700000000 []) as [o| |] eqn:E.
    + exists o. split; [done|]. by apply H.
    + exfalso. by vm_compute in E.
    + exfalso. by vm_compute in E.
Defined.

Lemma bm_parse_pubkey_authentic_witness :
  exists out h, bm_parse_pubkey_v3 pubkey_v3_object = Ok out
    /\ bm_object_parse_header pubkey_v3_object = Ok h
    /\ pubkey_evidence (slice pubkey_v3_object 8 (header_len h - 8))
         (drop (Z.to_nat (header_len h)) pubkey_v3_object) out.
Proof.
  destruct (bm_parse_pubkey_v3 pubkey_v3_object) as [out| |] eqn:E;
    [|exfalso; by vm_compute in E|exfalso; by vm_compute in E].
  destruct (bm_parse_pubkey_authentic pubkey_v3_object (replicate 20 0) 4 1 out) as [F _]; [done|].
  destruct (F E) as (h & Eh & _ & _ & _ & Hev). exists out, h. by split_and!.
Defined.

Lemma bm_parse_pubkey_safe_witness : bm_parse_pubkey_v3 pubkey_v3_object <> Ub.
Proof.
  destruct (bm_parse_pubkey_safe pubkey_v3_object (replicate 20 0) 4 1) as (_ & H & _).
  - apply (bool_decide_unpack _). by vm_compute.
  - by vm_compute.
  - done.
  - by intros k d [=].
  - exact H.
Defined.

Lemma pubkey_v2_downgrades_witness :
  exists low, bm_parse_pubkey_v2 (be_split 8 5 ++ pubkey_v2_payload) = Ok low
    /\ c_nonce_trials_per_byte low = 0.
Proof.
  destruct (pubkey_v2_downgrades builder_identity builder_identity 5 1700000000 pubkey_v2_payload
    empty_pubkey_db 1 2
    (identity_entry builder_identity 3 (id_ripe builder_identity) NO_TAG 1000 1000))
    as (low & E & _ & _ & _ & H & _).
  - exact builder_identity_ok.
  - apply builder_identity_points.
  - apply builder_identity_points.
  - done.
  - done.
  - unfold is_u64. lia.
  - unfold is_u64. lia.
  - apply builder_identity_ok.
  - apply builder_identity_ok.
  - apply builder_identity_ok.
  - apply builder_identity_ok.
  - done.
  - by vm_compute.
  - exists low. split; [exact E|exact H].
Defined.
End PubkeyWitnesses.
