(* ===== verification/Pow.v ===== *)
(** * pow/pow_engine.c

    The proof-of-work target, the trial value, the single-threaded search and
    the multi-threaded one.  The threads of the latter are a transition system
    over the two atomics they share; [cancel] is a flag another thread may raise
    at any time. *)

From stdpp Require Import base tactics list numbers option relations.
From S2P Require Import Prelude Varint Openssl Hash.

#[local] Arguments be_split : simpl never.

Definition UINT64_MAX : Z := 2 ^ 64 - 1.

(** All intermediate results are [__uint128_t]. *)
Definition bm_pow_get_target (payload_length ttl nonce_trials_per_byte
    payload_length_extra_bytes : Z) : cres Z :=
  let l := u128 (u128 (payload_length + 8) + payload_length_extra_bytes) in
  let denom := u128 (nonce_trials_per_byte * u128 (l + Z.shiftr (u128 (ttl * l)) 16)) in
  if denom =? 0 then Ub else
  let target := Z.shiftl 1 64 / denom in
  Ok (if target >? UINT64_MAX then UINT64_MAX else target).

Section Pow.
Context `{OS : OpenSSL}.

Definition bm_pow_trial_value (nonce : Z) (initial_hash : list Z) : cres Z :=
  buf ← wr (malloc (8 + 64)) 0 (be_split 8 nonce);
  h ← rdn initial_hash 0 64;
  buf ← wr buf 8 h;
  let digest := bm_double_sha512 buf in
  value ← rdn digest 0 8;
  Ok (be_combine value).

(** ** One thread

    [cancel nonce]: what the flag reads when the loop looks at it with [nonce].
    The result is [None] when the fuel is used up, else what the function
    returns: the nonce, or [Err] for -1. *)
Fixpoint pow_single (fuel : nat) (initial_hash : list Z) (target : Z) (cancel : Z -> bool)
    (nonce : Z) : option (cres Z) :=
  match fuel with
  | O => None
  | S fuel =>
      match bm_pow_trial_value nonce initial_hash with
      | Ok value =>
          if value >? target then
            let nonce := u64 (nonce + 1) in
            if (Z.land nonce 63 =? 0) && cancel nonce then Some Err
            else pow_single fuel initial_hash target cancel nonce
          else Some (Ok nonce)
      | Err => Some Err
      | Ub => Some Ub
      end
  end.

(** ** Worker threads *)

(** Where a worker is in [pow_worker]: in round [i] with [nonce], between the
    successful compare-and-exchange and the store of its result, or returned. *)
Inductive worker :=
| Searching (i nonce : Z)
| Storing (nonce : Z)
| Returned.

Record pow_state := {
  workers : list worker;
  found : bool;
  result_nonce : Z;
  cancelled : bool;
}.

Definition set_worker (s : pow_state) (w : nat) (x : worker) : pow_state :=
  {| workers := <[w := x]> (workers s); found := found s; result_nonce := result_nonce s;
     cancelled := cancelled s |}.

(** Worker [i] of [num_threads] starts at nonce [i]. *)
Definition pow_start (num_threads : nat) : pow_state :=
  {| workers := map (fun i => Searching 0 (Z.of_nat i)) (seq 0 num_threads);
     found := false; result_nonce := 0; cancelled := false |}.

(** One step of one thread.  Loads are relaxed: a worker may still read the old
    value of a flag, so it may go on even when the flag is raised; the
    compare-and-exchange acts on the current value. [cancellable] is
    [cancel != NULL]. *)
Inductive pow_step (initial_hash : list Z) (target : Z) (cancellable : bool)
  : pow_state -> pow_state -> Prop :=
| step_cancel s :
    cancellable = true ->
    pow_step initial_hash target cancellable s
      {| workers := workers s; found := found s; result_nonce := result_nonce s;
         cancelled := true |}
| step_leave s w i nonce :
    workers s !! w = Some (Searching i nonce) -> Z.land i 63 = 0 ->
    found s = true \/ cancelled s = true ->
    pow_step initial_hash target cancellable s (set_worker s w Returned)
| step_miss s w i nonce value :
    workers s !! w = Some (Searching i nonce) ->
    bm_pow_trial_value nonce initial_hash = Ok value -> target < value ->
    pow_step initial_hash target cancellable s
      (set_worker s w (Searching (u64 (i + 1)) (u64 (nonce + Z.of_nat (length (workers s))))))
| step_hit s w i nonce value :
    workers s !! w = Some (Searching i nonce) ->
    bm_pow_trial_value nonce initial_hash = Ok value -> value <= target -> found s = false ->
    pow_step initial_hash target cancellable s
      {| workers := <[w := Storing nonce]> (workers s); found := true;
         result_nonce := result_nonce s; cancelled := cancelled s |}
| step_late s w i nonce value :
    workers s !! w = Some (Searching i nonce) ->
    bm_pow_trial_value nonce initial_hash = Ok value -> value <= target -> found s = true ->
    pow_step initial_hash target cancellable s (set_worker s w Returned)
| step_store s w nonce :
    workers s !! w = Some (Storing nonce) ->
    pow_step initial_hash target cancellable s
      {| workers := <[w := Returned]> (workers s); found := found s; result_nonce := nonce;
         cancelled := cancelled s |}.

(** After every [pthread_join]. *)
Definition all_returned (s : pow_state) : Prop := Forall (fun x => x = Returned) (workers s).

(** What [bm_pow_run_cancellable] makes of the final state. *)
Definition pow_finish (s : pow_state) : cres Z :=
  if negb (found s) then Err else Ok (result_nonce s).

(** The call as a whole: it can return [r].  [cancellable] is [cancel != NULL],
    [raised] what the flag holds when the call returns (it is never lowered),
    [num_cpus] the answer of [sysconf]. *)
Definition bm_pow_run_cancellable (payload : list Z) (target : Z) (cancellable raised : bool)
    (r : cres Z) : Prop :=
  let initial_hash := bm_sha512 payload in
  exists num_cpus, num_cpus < 2 ^ 63 /\
  let num_threads := if num_cpus >=? 1 then num_cpus else 1 in
  if num_threads <=? 1 then
    exists fuel cancel, (forall nonce, cancel nonce = true -> cancellable = true /\ raised = true)
      /\ pow_single fuel initial_hash target cancel 0 = Some r
  else
    exists s, rtc (pow_step initial_hash target cancellable) (pow_start (Z.to_nat num_threads)) s
      /\ all_returned s /\ (cancelled s = true -> raised = true) /\ r = pow_finish s.

(** [bm_pow_run] passes no flag, ignores the return code and returns its local
    [nonce], which starts at 0. *)
Definition bm_pow_run (payload : list Z) (target nonce : Z) : Prop :=
  exists r, bm_pow_run_cancellable payload target false false r
    /\ nonce = match r with Ok n => n | _ => 0 end.
End Pow.

(** ** The target *)

Lemma u128_small z : 0 <= z < 2 ^ 128 -> u128 z = z.
Proof. intros. by apply Z.mod_small. Qed.

(** The formula of the protocol, in integers. *)
Definition pow_denominator (len ttl ntpb extra : Z) : Z :=
  ntpb * (len + 8 + extra + ttl * (len + 8 + extra) / 2 ^ 16).

Lemma get_target_exact len ttl ntpb extra :
  0 <= len < 2 ^ 32 -> 0 <= ttl < 2 ^ 32 -> 0 <= ntpb < 2 ^ 40 -> 0 <= extra < 2 ^ 32 ->
  bm_pow_get_target len ttl ntpb extra
  = if pow_denominator len ttl ntpb extra =? 0 then Ub
    else Ok (Z.min UINT64_MAX (2 ^ 64 / pow_denominator len ttl ntpb extra)).
Proof.
  intros Hl Ht Hn He. unfold bm_pow_get_target, pow_denominator.
  rewrite (u128_small (len + 8)), (u128_small (len + 8 + extra)) by lia.
  set (l := len + 8 + extra). assert (8 <= l < 2 ^ 34) by lia.
  assert (0 <= ttl * l < 2 ^ 66) by nia. rewrite (u128_small (ttl * l)) by lia.
  rewrite Z.shiftr_div_pow2 by lia.
  assert (0 <= ttl * l / 2 ^ 16 <= ttl * l)
    by (split; [apply Z.div_pos; lia|apply Z.div_le_upper_bound; lia]).
  set (q := ttl * l / 2 ^ 16) in *. assert (8 <= l + q < 2 ^ 67) by lia.
  rewrite (u128_small (l + q)) by lia.
  assert (0 <= ntpb * (l + q) < 2 ^ 107) by nia. rewrite u128_small by lia.
  destruct (Z.eqb_spec (ntpb * (l + q)) 0); [done|]. f_equal.
  change (Z.shiftl 1 64) with (2 ^ 64). unfold UINT64_MAX. rewrite Z.gtb_ltb.
  destruct (Z.ltb_spec (2 ^ 64 - 1) (2 ^ 64 / (ntpb * (l + q)))); lia.
Qed.

Section PowLemmas.
Context `{OSL : OpenSSLLaws}.
Variable initial_hash : list Z.
Hypothesis hash_64 : blen initial_hash = 64.
Variable target : Z.

(** The 64-bit trial value of a nonce. *)
Definition trial (nonce : Z) : Z :=
  be_combine (slice (bm_double_sha512 (be_split 8 nonce ++ initial_hash)) 0 8).

Lemma trial_value_eq nonce : bm_pow_trial_value nonce initial_hash = Ok (trial nonce).
Proof.
  unfold bm_pow_trial_value, trial.
  rewrite wr_malloc_start by (rewrite blen_be_split; lia). cbn_bind.
  rewrite rdn_ok, slice_all by lia. cbn_bind.
  rewrite wr_malloc_last by (rewrite blen_be_split; lia). cbn_bind.
  by rewrite rdn_ok by (rewrite ?blen_double_sha512; lia).
Qed.

(** The search from [n] to the first nonce that is good enough. *)
Lemma pow_single_first k n :
  0 <= n -> n + Z.of_nat k < 2 ^ 64 ->
  (forall m, n <= m < n + Z.of_nat k -> target < trial m) -> trial (n + Z.of_nat k) <= target ->
  pow_single (S k) initial_hash target (fun _ => false) n = Some (Ok (n + Z.of_nat k)).
Proof.
  revert n. induction k as [|k IH]; intros n Hn Hk Hm Ht; cbn [pow_single];
    rewrite trial_value_eq.
  - replace (n + Z.of_nat 0) with n in * by lia. by zdec.
  - specialize (Hm n ltac:(lia)) as Hn'. zdec.
    rewrite u64_small by (unfold is_u64; lia). rewrite andb_false_r.
    replace (n + Z.of_nat (S k)) with (n + 1 + Z.of_nat k) in * by lia.
    apply IH; [lia|lia| |done]. intros m Hm'. apply Hm. lia.
Qed.

(** Whatever the flag does, a returned nonce is good enough. *)
Lemma pow_single_sound fuel cancel n r :
  pow_single fuel initial_hash target cancel n = Some r ->
  (r = Err /\ exists m, cancel m = true) \/ exists nonce, r = Ok nonce /\ trial nonce <= target.
Proof.
  revert n. induction fuel as [|fuel IH]; intros n E; cbn [pow_single] in E; [done|].
  rewrite trial_value_eq in E. destruct (Z.gtb_spec (trial n) target).
  - destruct (_ && _) eqn:Hc; [injection E as <-|by apply IH in E].
    apply andb_true_iff in Hc as [_ Hc]. left. eauto.
  - injection E as <-. right. by exists n.
Qed.

(** With the flag raised the loop ends after at most 64 rounds. *)
Lemma pow_single_ends : exists r, pow_single 64 initial_hash target (fun _ => true) 0 = Some r.
Proof.
  enough (Hall : forall fuel n, 0 <= n -> n + Z.of_nat fuel = 64 -> (0 < fuel)%nat ->
    exists r, pow_single fuel initial_hash target (fun _ => true) n = Some r) by (by apply Hall; lia).
  induction fuel as [|fuel IH]; intros n Hn Hs Hf; [lia|]. cbn [pow_single].
  rewrite trial_value_eq. destruct (_ >? _); [|by eexists].
  rewrite u64_small by (unfold is_u64; lia). rewrite andb_true_r.
  destruct (Z.eqb_spec (Z.land (n + 1) 63) 0) as [|Hz]; [by eexists|].
  destruct fuel as [|fuel]; [|apply IH; lia].
  exfalso. apply Hz. by replace (n + 1) with 64 by lia.
Qed.

(** ** The threads *)

Definition good (nonce : Z) : Prop := trial nonce <= target.

(** Worker [w] tries only nonces of its own residue class (before wrapping). *)
Definition worker_inv (s : pow_state) (w : nat) (x : worker) : Prop :=
  match x with
  | Searching i nonce =>
      exists k, 0 <= k /\ nonce = u64 (Z.of_nat w + k * Z.of_nat (length (workers s)))
  | Storing nonce => good nonce /\ found s = true
  | Returned => found s = true \/ cancelled s = true
  end.

Definition pow_inv (cancellable : bool) (n : nat) (s : pow_state) : Prop :=
  length (workers s) = n
  /\ (forall w x, workers s !! w = Some x -> worker_inv s w x)
  /\ (found s = true ->
      (exists w nonce, workers s !! w = Some (Storing nonce)) \/ good (result_nonce s))
  /\ (cancelled s = true -> cancellable = true).

Lemma pow_inv_start cancellable n : Z.of_nat n < 2 ^ 64 -> pow_inv cancellable n (pow_start n).
Proof.
  intros Hn. split_and!; try done.
  - simpl. by rewrite length_map, length_seq.
  - intros w x Hx. cbn [pow_start workers] in Hx.
    apply list_lookup_fmap_Some in Hx as (i & -> & Hi).
    apply lookup_seq in Hi as [-> Hlt]. cbn [worker_inv]. exists 0. split; [lia|].
    rewrite u64_small by (unfold is_u64; lia). lia.
Qed.

(** A worker that changes while the flags only rise keeps the others' invariants. *)
Lemma worker_inv_mono s s' w x :
  worker_inv s w x -> length (workers s') = length (workers s) ->
  (found s = true -> found s' = true) -> (cancelled s = true -> cancelled s' = true) ->
  worker_inv s' w x.
Proof. destruct x; simpl; intros I Hl Hf Hc; rewrite ?Hl; intuition auto. Qed.

Lemma pow_inv_set cancellable n s s' w x :
  pow_inv cancellable n s -> workers s' = <[w := x]> (workers s) ->
  (found s = true -> found s' = true) -> cancelled s' = cancelled s ->
  worker_inv s' w x ->
  (found s' = true ->
   (exists w' nonce, workers s' !! w' = Some (Storing nonce)) \/ good (result_nonce s')) ->
  pow_inv cancellable n s'.
Proof.
  intros (I1 & I2 & I3 & I4) Hw Hf Hc Hx Hr.
  assert (Hl : length (workers s') = length (workers s)) by (by rewrite Hw, length_insert).
  split_and!; [by rewrite Hl| |done|by rewrite Hc].
  intros w' x' Hx'. rewrite Hw in Hx'.
  apply list_lookup_insert_Some in Hx' as [(-> & <- & _)|(Hne & Hx')]; [done|].
  eapply worker_inv_mono; [by apply I2| |done|by rewrite Hc]. done.
Qed.

(** Another worker's pending store survives a step of [w]. *)
Lemma storing_other s w x :
  (forall nonce, workers s !! w <> Some (Storing nonce)) ->
  (exists w' nonce, workers s !! w' = Some (Storing nonce)) ->
  exists w' nonce, <[w := x]> (workers s) !! w' = Some (Storing nonce).
Proof.
  intros Hw (w' & nonce & Hs). exists w', nonce. rewrite list_lookup_insert_ne; [done|].
  intros ->. by apply (Hw nonce).
Qed.

Lemma pow_inv_step cancellable n s s' :
  pow_inv cancellable n s -> pow_step initial_hash target cancellable s s' ->
  pow_inv cancellable n s'.
Proof.
  intros I St. pose proof I as (I1 & I2 & I3 & I4). destruct St as
    [s Hc|s w i nonce Hw _ Hf|s w i nonce v Hw Hv Ht|s w i nonce v Hw Hv Ht Hf
    |s w i nonce v Hw Hv Ht Hf|s w nonce Hw].
  - split_and!; try done. intros w x Hx. eapply worker_inv_mono; [by apply I2|done..].
  - eapply pow_inv_set; [done|done|done|done|done|]. intros Hf'.
    destruct (I3 Hf') as [Hs|Hg]; [left|by right]. apply storing_other; [|done]. by rewrite Hw.
  - eapply pow_inv_set; [done|done|done|done| |].
    + destruct (I2 _ _ Hw) as (k & Hk & ->). exists (k + 1). split; [lia|]. cbn [set_worker workers].
      rewrite length_insert. unfold u64. rewrite Zplus_mod_idemp_l. f_equal. lia.
    + intros Hf'. destruct (I3 Hf') as [Hs|Hg]; [left|by right]. apply storing_other; [|done].
      by rewrite Hw.
  - eapply pow_inv_set; [done|done|done|done| |].
    + split; [|done]. rewrite trial_value_eq in Hv. injection Hv as <-. done.
    + intros _. left. exists w, nonce. cbn [workers]. apply list_lookup_insert_eq.
      by eapply lookup_lt_Some.
  - eapply pow_inv_set; [done|done|done|done|by left|]. intros Hf'.
    destruct (I3 Hf') as [Hs|Hg]; [left|by right]. apply storing_other; [|done]. by rewrite Hw.
  - destruct (I2 _ _ Hw) as [Hg Hf].
    eapply pow_inv_set; [done|done|done|done|by left|]. intros _. by right.
Qed.

Lemma pow_inv_reachable cancellable n s :
  Z.of_nat n < 2 ^ 64 -> rtc (pow_step initial_hash target cancellable) (pow_start n) s ->
  pow_inv cancellable n s.
Proof.
  intros Hn R. assert (I : pow_inv cancellable n (pow_start n)) by (by apply pow_inv_start).
  induction R as [|a b c Hab _ IH]; [done|]. apply IH. by eapply pow_inv_step.
Qed.

(** What the joined threads leave behind. *)
Lemma pow_threads_result cancellable n s :
  (0 < n)%nat -> Z.of_nat n < 2 ^ 64 ->
  rtc (pow_step initial_hash target cancellable) (pow_start n) s -> all_returned s ->
  (exists nonce, pow_finish s = Ok nonce /\ trial nonce <= target)
  \/ pow_finish s = Err /\ cancellable = true /\ cancelled s = true.
Proof.
  intros Hpos Hn R Hall.
  destruct (pow_inv_reachable cancellable n s Hn R) as (I1 & I2 & I3 & I4).
  unfold pow_finish. destruct (found s) eqn:Hf; cbn [negb].
  - left. exists (result_nonce s). split; [done|].
    destruct (I3 eq_refl) as [(w & nonce & Hw)|Hg]; [|done].
    by apply (Forall_lookup_1 _ _ _ _ Hall) in Hw.
  - right. split; [done|]. destruct (lookup_lt_is_Some_2 (workers s) 0) as [x Hx]; [lia|].
    pose proof (Forall_lookup_1 _ _ _ _ Hall Hx) as ->.
    destruct (I2 _ _ Hx) as [Hf'|Hc]; [congruence|]. auto.
Qed.
End PowLemmas.

(** Both branches together. *)
Lemma pow_run_result `{OSL : OpenSSLLaws} payload target cancellable raised r :
  bm_pow_run_cancellable payload target cancellable raised r ->
  (exists nonce, r = Ok nonce /\ trial (bm_sha512 payload) nonce <= target)
  \/ r = Err /\ cancellable = true /\ raised = true.
Proof.
  intros (n & Hn & R). assert (H64 : blen (bm_sha512 payload) = 64) by apply blen_sha512.
  cbv zeta in R. destruct (Z.leb_spec (if n >=? 1 then n else 1) 1) as [_|Ht].
  - destruct R as (fuel & cancel & Hc & E).
    apply (pow_single_sound _ H64) in E as [[-> [m Hm]]|?]; [right|by left].
    split; [done|]. by apply (Hc m).
  - destruct R as (s & R & Hall & Hc & ->). rewrite Z.geb_leb in *.
    destruct (Z.leb_spec 1 n); [|lia].
    apply (pow_threads_result _ H64) in R as [?|(-> & ? & ?)]; [by left|right; auto|lia|lia|done].
Qed.

(** ** Properties *)

Section PowProperties.
Context `{OSL : OpenSSLLaws}.

(** For the sizes, lifetimes and difficulties in use the 128-bit arithmetic is
    exact: the target is the protocol's quotient 2^64 / (trials * (L + ttl * L /
    2^16)) with L = length + 8 + extra bytes, capped at 2^64 - 1; a difficulty of
    zero divides by zero. *)
Theorem bm_pow_get_target_exact (len ttl ntpb extra : Z) :
  0 <= len < 2 ^ 32 -> 0 <= ttl < 2 ^ 32 -> 0 <= ntpb < 2 ^ 40 -> 0 <= extra < 2 ^ 32 ->
  (ntpb = 0 -> bm_pow_get_target len ttl ntpb extra = Ub)
  /\ (0 < ntpb -> exists target, bm_pow_get_target len ttl ntpb extra = Ok target
       /\ 0 <= target <= UINT64_MAX
       /\ target = Z.min UINT64_MAX (2 ^ 64 / pow_denominator len ttl ntpb extra)).
Proof.
  intros Hl Ht Hn He. rewrite get_target_exact by done. split; [by intros ->|]. intros Hp.
  assert (0 < pow_denominator len ttl ntpb extra).
  { unfold pow_denominator. assert (0 <= ttl * (len + 8 + extra) / 2 ^ 16); [|nia].
    apply Z.div_pos; nia. }
  zdec. eexists. split; [done|]. split; [|done]. split; [|lia].
  apply Z.min_glb; [done|]. apply Z.div_pos; lia.
Qed.

(** The 128-bit product of [bm_pow_get_target] can wrap: a recipient who announces
    2^63 trials per byte and suitable extra bytes makes the denominator of a
    1000-byte message with a lifetime of 345900 seconds zero. *)
Theorem bm_pow_get_target_wraps :
  bm_pow_get_target 1000 345900 (2 ^ 63) 11753233257319525477 = Ub
  /\ 0 < pow_denominator 1000 345900 (2 ^ 63) 11753233257319525477.
Proof. by vm_compute. Qed.

(** The single-threaded search terminates at the first nonce whose trial
    value meets the target, when there is one and nobody cancels; with any
    behaviour of the flag, a nonce it returns meets the target. *)
Theorem pow_single_correct (payload : list Z) (target : Z) (k : nat) :
  let initial_hash := bm_sha512 payload in
  Z.of_nat k < 2 ^ 64 -> trial initial_hash (Z.of_nat k) <= target ->
  (forall m, 0 <= m < Z.of_nat k -> target < trial initial_hash m) ->
  pow_single (S k) initial_hash target (fun _ => false) 0 = Some (Ok (Z.of_nat k))
  /\ forall fuel cancel r, pow_single fuel initial_hash target cancel 0 = Some r ->
       r = Err \/ exists nonce, r = Ok nonce
         /\ bm_pow_trial_value nonce initial_hash = Ok (trial initial_hash nonce)
         /\ trial initial_hash nonce <= target.
Proof.
  intros ih Hk Ht Hm. assert (H64 : blen ih = 64) by apply blen_sha512. split.
  - apply (pow_single_first ih H64 target k 0); [lia|lia| |].
    + intros m Hm'. apply Hm. lia.
    + by rewrite Z.add_0_l.
  - intros fuel cancel r E. apply (pow_single_sound ih H64) in E as [[-> _]|(n & -> & Hn)]; [by left|].
    right. exists n. split_and!; [done|by apply trial_value_eq|done].
Qed.

(** C37: The multi-threaded search, under every interleaving of its threads and
    of a canceller: when all workers have returned, either the nonce it hands out
    meets the target, although it is stored after the flag that announces it, or
    nothing was found and that only because of a cancellation, which is
    impossible without a cancel flag. *)
Theorem pow_threads_correct (payload : list Z) (target : Z) (cancellable : bool)
    (num_threads : nat) (s : pow_state) :
  let initial_hash := bm_sha512 payload in
  (0 < num_threads)%nat -> Z.of_nat num_threads < 2 ^ 64 ->
  rtc (pow_step initial_hash target cancellable) (pow_start num_threads) s -> all_returned s ->
  (exists nonce, pow_finish s = Ok nonce
     /\ bm_pow_trial_value nonce initial_hash = Ok (trial initial_hash nonce)
     /\ trial initial_hash nonce <= target)
  \/ pow_finish s = Err /\ cancellable = true /\ cancelled s = true.
Proof.
  intros ih Hpos Hn R Hall. assert (H64 : blen ih = 64) by apply blen_sha512.
  destruct (pow_threads_result ih H64 target cancellable num_threads s) as [(n & -> & Hg)|?];
    [done..|left|by right].
  exists n. split_and!; [done|by apply trial_value_eq|done].
Qed.
End PowProperties.

Section PowWitnesses.
#[local] Existing Instance toy_OpenSSL.
#[local] Existing Instance toy_OpenSSLLaws.

Lemma bm_pow_get_target_exact_witness :
  (1000 = 0 -> bm_pow_get_target 500 345600 1000 1000 = Ub)
  /\ (0 < 1000 -> exists target, bm_pow_get_target 500 345600 1000 1000 = Ok target
       /\ 0 <= target <= UINT64_MAX
       /\ target = Z.min UINT64_MAX (2 ^ 64 / pow_denominator 500 345600 1000 1000)).
Proof. apply bm_pow_get_target_exact; lia. Defined.

(** With the instance of the library the trial value of a nonce is constant. *)
Lemma pow_single_correct_witness :
  let initial_hash := bm_sha512 [1; 2] in
  pow_single 1 initial_hash (2 ^ 63) (fun _ => false) 0 = Some (Ok (Z.of_nat 0))
  /\ forall fuel cancel r, pow_single fuel initial_hash (2 ^ 63) cancel 0 = Some r ->
       r = Err \/ exists nonce, r = Ok nonce
         /\ bm_pow_trial_value nonce initial_hash = Ok (trial initial_hash nonce)
         /\ trial initial_hash nonce <= 2 ^ 63.
Proof. apply (pow_single_correct [1; 2] (2 ^ 63) 0); [lia|by vm_compute|lia]. Defined.

Lemma pow_threads_correct_witness :
  let initial_hash := bm_sha512 [1; 2] in
  let s := {| workers := [Returned]; found := true; result_nonce := 0; cancelled := false |} in
  (exists nonce, pow_finish s = Ok nonce
     /\ bm_pow_trial_value nonce initial_hash = Ok (trial initial_hash nonce)
     /\ trial initial_hash nonce <= 2 ^ 63)
  \/ pow_finish s = Err /\ false = true /\ cancelled s = true.
Proof.
  intros initial_hash s. apply (pow_threads_correct [1; 2] (2 ^ 63) false 1 s); [lia|lia| |].
  - apply rtc_l with {| workers := [Storing 0]; found := true; result_nonce := 0;
                        cancelled := false |}.
    { apply (step_hit _ _ _ (pow_start 1) 0 0 0 0); by vm_compute. }
    apply rtc_once. by apply (step_store _ _ _ {| workers := [Storing 0]; found := true;
      result_nonce := 0; cancelled := false |} 0 0).
  - by repeat constructor.
Defined.
End PowWitnesses.
