(* ===== verification/PowQueue.v ===== *)
(** * pow/pow_queue.c

    The queue that takes proof of work off the caller's thread: submission with
    its key-based rejection of duplicates, the worker thread and the shutdown.
    Every critical section of the queue's mutex is one step of [queue_step]; the
    worker's run of the proof of work and its callback happen outside it.

    What the queue needs from pow_engine.c is the class [PowRunner]; the engine
    of Pow.v is an instance. *)

From stdpp Require Import base tactics list numbers option relations.
From S2P Require Import Prelude Varint Openssl Hash Pow.

#[local] Arguments be_split : simpl never.

(** ** What the queue uses of the engine *)

(** [pow_run payload target cancellable raised r]: the cancellable run can return [r];
    [pow_good payload target nonce]: the nonce is a proof of work. *)
Class PowRunner := {
  pow_run : list Z -> Z -> bool -> bool -> cres Z -> Prop;
  pow_good : list Z -> Z -> Z -> Prop;
}.

Class PowRunnerLaws `{PowRunner} : Prop := {
  pow_run_returns payload target cancellable raised r :
    pow_run payload target cancellable raised r ->
    (exists nonce, r = Ok nonce /\ pow_good payload target (u64 nonce))
    \/ r = Err /\ cancellable = true /\ raised = true;
  (** once the flag is raised the run can come to its end *)
  pow_run_ends payload target : exists r, pow_run payload target true true r;
}.

#[export] Instance engine_PowRunner `{OpenSSL} : PowRunner := {|
  pow_run := bm_pow_run_cancellable;
  pow_good payload target nonce :=
    exists value, bm_pow_trial_value nonce (bm_sha512 payload) = Ok value /\ value <= target;
|}.

Definition BM_POW_QUEUE_KEY_MAX : Z := 40.

(** ** Data *)

(** [key] holds the [key_len] bytes of the C field; [user_data] stands for the
    callback and its argument. *)
Record bm_pow_job := {
  payload : list Z;
  target : Z;
  key : list Z;
  user_data : Z;
}.

(** The linked list [head] .. [tail] is a list. *)
Record bm_pow_queue := {
  head : list bm_pow_job;
  pending : Z;
  max_pending : Z;
  running : option bm_pow_job;
  shutdown : bool;
  cancel : bool;
  completed : Z;
}.

(** A call of a job's callback: the object it was given ([None]: NULL) and the time. *)
Record done_call := {
  done_user : Z;
  done_object : option (list Z);
  done_now : Z;
}.

(** ** Operations *)

(** Eight bytes of the nonce, most significant first, then the payload. *)
Definition build_object (payload : list Z) (nonce : Z) : cres (list Z) :=
  let object_len := u64 (8 + blen payload) in
  object ← wr (malloc object_len) 0 (be_split 8 nonce);
  wr object 8 payload.

Definition discard (job : bm_pow_job) : done_call :=
  {| done_user := user_data job; done_object := None; done_now := 0 |}.

Definition bm_pow_queue_init (max : Z) : bm_pow_queue :=
  {| head := []; pending := 0; max_pending := max; running := None; shutdown := false;
     cancel := false; completed := 0 |}.

Definition same_key (j : bm_pow_job) (k : list Z) : bool :=
  (blen (key j) =? blen k) && list_eqb (key j) k.

(** [on_worker]: the caller is the queue's own thread. *)
Definition key_in_flight (on_worker : bool) (q : bm_pow_queue) (k : list Z) : bool :=
  match running q with
  | Some j => negb on_worker && same_key j k
  | None => false
  end || existsb (fun j => same_key j k) (head q).

(** The return code and the queue afterwards; [NULL] is no key. *)
Definition bm_pow_queue_submit (on_worker : bool) (q : bm_pow_queue) (data : list Z) (tgt : Z)
    (key_arg : option (list Z)) (user : Z) : Z * bm_pow_queue :=
  let k := default [] key_arg in
  if blen k >? BM_POW_QUEUE_KEY_MAX then (-1, q) else
  if shutdown q || (pending q >=? max_pending q) then (-1, q) else
  if (blen k >? 0) && key_in_flight on_worker q k then (1, q) else
  let job := {| payload := data; target := tgt; key := k; user_data := user |} in
  (0, {| head := head q ++ [job]; pending := u64 (pending q + 1); max_pending := max_pending q;
         running := running q; shutdown := shutdown q; cancel := cancel q;
         completed := completed q |}).

(** The worker takes the first job. *)
Definition worker_take (q : bm_pow_queue) : option (bm_pow_job * bm_pow_queue) :=
  if shutdown q then None else
  match head q with
  | [] => None
  | job :: rest =>
      Some (job, {| head := rest; pending := u64 (pending q - 1); max_pending := max_pending q;
                    running := Some job; shutdown := shutdown q; cancel := cancel q;
                    completed := completed q |})
  end.

(** The worker is back from the callback. *)
Definition worker_finish (q : bm_pow_queue) : bm_pow_queue :=
  {| head := head q; pending := pending q; max_pending := max_pending q; running := None;
     shutdown := shutdown q; cancel := cancel q; completed := u64 (completed q + 1) |}.

(** The locked part of the shutdown: the jobs to discard, [None] when the queue
    is shut down already. *)
Definition bm_pow_queue_shutdown (q : bm_pow_queue) : option (list bm_pow_job * bm_pow_queue) :=
  if shutdown q then None else
  Some (head q, {| head := []; pending := 0; max_pending := max_pending q; running := running q;
                   shutdown := true; cancel := true; completed := completed q |}).

Definition bm_pow_queue_completed_count (q : bm_pow_queue) : Z := completed q.

(** ** The threads *)

(** The worker: at the head of its loop, in the proof of work, in the callback,
    returned. *)
Inductive worker_at :=
| At_loop
| At_pow (job : bm_pow_job)
| At_done (job : bm_pow_job)
| At_exit.

(** The first call of the shutdown: not yet made, joining the worker, discarding,
    returned. *)
Inductive shutdown_at :=
| Not_called
| Joining (jobs : list bm_pow_job)
| Discarding (jobs : list bm_pow_job)
| Shut.

(** The system: the queue, its threads, the callbacks made so far and (what no
    thread stores) the jobs accepted so far, both oldest first. *)
Record system := {
  queue : bm_pow_queue;
  worker_pc : worker_at;
  shutdown_pc : shutdown_at;
  calls : list done_call;
  accepted : list bm_pow_job;
}.

Definition system_start (max : Z) : system :=
  {| queue := bm_pow_queue_init max; worker_pc := At_loop; shutdown_pc := Not_called;
     calls := []; accepted := [] |}.

Definition submitted (s : system) (q : bm_pow_queue) (code : Z) (job : bm_pow_job) : system :=
  {| queue := q; worker_pc := worker_pc s; shutdown_pc := shutdown_pc s; calls := calls s;
     accepted := if code =? 0 then accepted s ++ [job] else accepted s |}.

Section Queue.
Context `{PR : PowRunner}.

Inductive queue_step : system -> system -> Prop :=
| step_submit s data tgt k user code q :
    bm_pow_queue_submit false (queue s) data tgt k user = (code, q) ->
    queue_step s (submitted s q code
      {| payload := data; target := tgt; key := default [] k; user_data := user |})
| step_submit_in_done s j data tgt k user code q :
    worker_pc s = At_done j ->
    bm_pow_queue_submit true (queue s) data tgt k user = (code, q) ->
    queue_step s (submitted s q code
      {| payload := data; target := tgt; key := default [] k; user_data := user |})
| step_take s job q :
    worker_pc s = At_loop -> worker_take (queue s) = Some (job, q) ->
    queue_step s {| queue := q; worker_pc := At_pow job; shutdown_pc := shutdown_pc s;
                    calls := calls s; accepted := accepted s |}
| step_solved s job nonce object now :
    worker_pc s = At_pow job ->
    pow_run (payload job) (target job) true (cancel (queue s)) (Ok nonce) ->
    build_object (payload job) nonce = Ok object ->
    queue_step s {| queue := queue s; worker_pc := At_done job; shutdown_pc := shutdown_pc s;
                    calls := calls s ++ [{| done_user := user_data job;
                                            done_object := Some object; done_now := now |}];
                    accepted := accepted s |}
| step_cancelled s job :
    worker_pc s = At_pow job ->
    pow_run (payload job) (target job) true (cancel (queue s)) Err ->
    queue_step s {| queue := queue s; worker_pc := At_done job; shutdown_pc := shutdown_pc s;
                    calls := calls s ++ [discard job]; accepted := accepted s |}
| step_finish s job :
    worker_pc s = At_done job ->
    queue_step s {| queue := worker_finish (queue s); worker_pc := At_loop;
                    shutdown_pc := shutdown_pc s; calls := calls s; accepted := accepted s |}
| step_exit s :
    worker_pc s = At_loop -> shutdown (queue s) = true ->
    queue_step s {| queue := queue s; worker_pc := At_exit; shutdown_pc := shutdown_pc s;
                    calls := calls s; accepted := accepted s |}
| step_shutdown s jobs q :
    bm_pow_queue_shutdown (queue s) = Some (jobs, q) ->
    queue_step s {| queue := q; worker_pc := worker_pc s; shutdown_pc := Joining jobs;
                    calls := calls s; accepted := accepted s |}
| step_join s jobs :
    shutdown_pc s = Joining jobs -> worker_pc s = At_exit ->
    queue_step s {| queue := queue s; worker_pc := worker_pc s; shutdown_pc := Discarding jobs;
                    calls := calls s; accepted := accepted s |}
| step_discard s job jobs :
    shutdown_pc s = Discarding (job :: jobs) ->
    queue_step s {| queue := queue s; worker_pc := worker_pc s; shutdown_pc := Discarding jobs;
                    calls := calls s ++ [discard job]; accepted := accepted s |}
| step_shut s :
    shutdown_pc s = Discarding [] ->
    queue_step s {| queue := queue s; worker_pc := worker_pc s; shutdown_pc := Shut;
                    calls := calls s; accepted := accepted s |}.

(** [q == NULL]: the proof of work and the callback on the caller's thread. *)
Definition bm_pow_queue_submit_sync (data : list Z) (tgt user now : Z) (c : done_call) : Prop :=
  exists r object, pow_run data tgt false false r
    /\ build_object data (match r with Ok n => n | _ => 0 end) = Ok object
    /\ c = {| done_user := user; done_object := Some object; done_now := now |}.
End Queue.

(** ** Lemmas *)

Lemma build_object_inv data nonce object :
  build_object data nonce = Ok object -> object = be_split 8 nonce ++ data.
Proof.
  unfold build_object. intros E. pose proof (blen_nonneg data).
  assert (Hr := u64_range (8 + blen data)). unfold is_u64 in Hr.
  destruct (Z.leb_spec (8 + blen data) (u64 (8 + blen data))) as [Hle|Hgt].
  - assert (Hu : u64 (8 + blen data) = 8 + blen data).
    { apply u64_small. unfold is_u64. lia. }
    rewrite Hu, wr_malloc_start in E by (rewrite blen_be_split; lia).
    rewrite bind_ok, wr_malloc_last in E by (rewrite ?blen_be_split; lia). by injection E.
  - inv_bind E. assert (Hl : blen a = u64 (8 + blen data)).
    { apply wr_blen in E0. rewrite E0. apply blen_malloc. lia. }
    rewrite wr_oob in E by lia. done.
Qed.

Lemma build_object_ok data nonce :
  blen data + 8 < 2 ^ 64 -> build_object data nonce = Ok (be_split 8 nonce ++ data).
Proof.
  intros H. pose proof (blen_nonneg data). unfold build_object.
  rewrite u64_small by (unfold is_u64; lia).
  rewrite wr_malloc_start by (rewrite blen_be_split; lia).
  rewrite bind_ok. apply wr_malloc_last; rewrite blen_be_split; lia.
Qed.

Lemma same_key_eq j k : same_key j k = true <-> key j = k.
Proof.
  unfold same_key. rewrite andb_true_iff, list_eqb_eq, Z.eqb_eq. split; [by intros []|by intros ->].
Qed.

(** The keys that take part in the rejection of duplicates. *)
Definition nonempty_keys (l : list bm_pow_job) : list (list Z) :=
  filter (fun k => k <> []) (map key l).

Lemma nonempty_keys_app a b : nonempty_keys (a ++ b) = nonempty_keys a ++ nonempty_keys b.
Proof. unfold nonempty_keys. by rewrite map_app, filter_app. Qed.

Lemma nonempty_keys_one j :
  nonempty_keys [j] = if decide (key j = []) then [] else [key j].
Proof.
  unfold nonempty_keys. simpl. rewrite filter_cons, filter_nil. by repeat case_decide.
Qed.

Lemma nonempty_keys_in k l : k ∈ nonempty_keys l <-> k <> [] /\ k ∈ map key l.
Proof. unfold nonempty_keys. by rewrite list_elem_of_filter. Qed.

Lemma key_in_flight_false on_worker q k :
  k <> [] -> key_in_flight on_worker q k = false ->
  (k ∉ nonempty_keys (head q))
  /\ (on_worker = false -> forall j, running q = Some j -> key j <> k).
Proof.
  unfold key_in_flight. intros Hk E. apply orb_false_iff in E as [Er Eh]. split.
  - rewrite nonempty_keys_in. intros [_ Hin]. apply list_elem_of_fmap in Hin as (j & -> & Hj).
    assert (existsb (fun j' => same_key j' (key j)) (head q) = true); [|congruence].
    apply existsb_exists. exists j. split; [by apply list_elem_of_In|by apply same_key_eq].
  - intros -> j Hj Hkj. rewrite Hj in Er. simpl in Er. apply same_key_eq in Hkj. congruence.
Qed.

(** What a submission does to the queue, by its return code. *)
Lemma submit_spec on_worker q data tgt k user code q' :
  bm_pow_queue_submit on_worker q data tgt k user = (code, q') ->
  (code <> 0 /\ q' = q) \/
  code = 0 /\ shutdown q = false /\ pending q < max_pending q
  /\ (let j := {| payload := data; target := tgt; key := default [] k; user_data := user |} in
      blen (key j) <= BM_POW_QUEUE_KEY_MAX
      /\ (key j <> [] -> key_in_flight on_worker q (key j) = false)
      /\ q' = {| head := head q ++ [j]; pending := u64 (pending q + 1);
                 max_pending := max_pending q; running := running q; shutdown := shutdown q;
                 cancel := cancel q; completed := completed q |}).
Proof.
  unfold bm_pow_queue_submit. intros E. set (kk := default [] k) in *.
  destruct (Z.gtb_spec (blen kk) BM_POW_QUEUE_KEY_MAX); [left; by injection E as <- <-|].
  destruct (shutdown q) eqn:Hs; [left; by injection E as <- <-|]. cbn [orb] in E.
  rewrite Z.geb_leb in E.
  destruct (Z.leb_spec (max_pending q) (pending q)); [left; by injection E as <- <-|].
  destruct (_ && _) eqn:Hd; [left; by injection E as <- <-|]. injection E as <- <-. right.
  cbn [key]. split_and!; try done. intros Hk. destruct kk as [|b kk']; [done|].
  rewrite blen_cons in Hd. pose proof (blen_nonneg kk').
  destruct (Z.gtb_spec (1 + blen kk') 0); [done|lia].
Qed.

(** ** The invariant *)

Definition in_pow (s : system) : list bm_pow_job :=
  match worker_pc s with At_pow j => [j] | _ => [] end.

Definition to_discard (s : system) : list bm_pow_job :=
  match shutdown_pc s with Joining l | Discarding l => l | _ => [] end.

Section QueueLemmas.
Context `{PRL : PowRunnerLaws}.

(** The callback's object is the job's payload behind a nonce that proves the work;
    only a queue that is being shut down gives none. *)
Definition answers (shut : bool) (j : bm_pow_job) (c : done_call) : Prop :=
  done_user c = user_data j /\
  match done_object c with
  | Some o => exists nonce, is_u64 nonce /\ o = be_split 8 nonce ++ payload j
                /\ pow_good (payload j) (target j) nonce
  | None => shut = true
  end.

Record queue_inv (s : system) : Prop := {
  inv_order : exists finished, Forall2 (answers (shutdown (queue s))) finished (calls s)
    /\ accepted s = finished ++ in_pow s ++ head (queue s) ++ to_discard s;
  inv_running : running (queue s)
    = match worker_pc s with At_pow j | At_done j => Some j | _ => None end;
  inv_pending : pending (queue s) = Z.of_nat (length (head (queue s)));
  inv_max : pending (queue s) <= max_pending (queue s) < 2 ^ 64;
  inv_cancel : cancel (queue s) = shutdown (queue s);
  inv_open : shutdown (queue s) = false <-> shutdown_pc s = Not_called;
  inv_closed : shutdown (queue s) = true -> head (queue s) = [];
  inv_exit : worker_pc s = At_exit -> shutdown (queue s) = true;
  inv_joined : (exists l, shutdown_pc s = Discarding l) \/ shutdown_pc s = Shut ->
    worker_pc s = At_exit;
  inv_keys : NoDup (nonempty_keys (head (queue s)));
  inv_pow_key : forall j, worker_pc s = At_pow j -> (key j ∉ nonempty_keys (head (queue s)));
}.

Lemma answers_mono shut shut' j c :
  answers shut j c -> (shut = true -> shut' = true) -> answers shut' j c.
Proof. intros [? A] ?. split; [done|]. destruct (done_object c); auto. Qed.

Lemma order_answered s shut fin j c rest :
  Forall2 (answers shut) fin (calls s) -> answers shut j c ->
  accepted s = fin ++ j :: rest ->
  exists finished, Forall2 (answers shut) finished (calls s ++ [c])
    /\ accepted s = finished ++ rest.
Proof.
  intros F A ->. exists (fin ++ [j]). split; [|by rewrite <- app_assoc].
  apply Forall2_app; [done|]. by constructor.
Qed.

Lemma queue_inv_start max : 0 <= max < 2 ^ 64 -> queue_inv (system_start max).
Proof.
  intros Hm. constructor; try done.
  - by exists [].
  - intros [[l [=]]|[=]].
  - apply NoDup_nil. constructor.
Qed.

(** A submission from either thread. *)
Lemma queue_inv_submit s on_worker data tgt k user code q :
  queue_inv s -> (on_worker = true -> exists j, worker_pc s = At_done j) ->
  bm_pow_queue_submit on_worker (queue s) data tgt k user = (code, q) ->
  queue_inv (submitted s q code
    {| payload := data; target := tgt; key := default [] k; user_data := user |}).
Proof.
  intros I Hw E. apply submit_spec in E as [[Hc ->]|(-> & Hs & Hp & _ & Hk & ->)];
    destruct I as [(fin & F & Ho) Ir Ip Im Ic Io Icl Ie Ij Ik Iw]; unfold submitted.
  { rewrite (proj2 (Z.eqb_neq code 0) Hc). constructor; try done. by exists fin. }
  assert (Hd : to_discard s = []) by (unfold to_discard; by rewrite (proj1 Io Hs)).
  set (j := {| payload := data |}) in *.
  constructor; cbn [queue head pending max_pending running shutdown cancel worker_pc shutdown_pc
    calls accepted]; try done.
  - exists fin. split; [done|]. unfold in_pow, to_discard in *. cbn [worker_pc shutdown_pc].
    rewrite Hd, app_nil_r in Ho |- *. cbn [Z.eqb]. by rewrite Ho, !app_assoc.
  - rewrite u64_small by (unfold is_u64; lia). rewrite length_app. simpl. lia.
  - rewrite u64_small by (unfold is_u64; lia). lia.
  - intros. congruence.
  - rewrite nonempty_keys_app, nonempty_keys_one. case_decide as Hn; [by rewrite app_nil_r|].
    apply NoDup_app. split_and!; [done| |apply NoDup_singleton].
    intros x Hx ->%list_elem_of_singleton. by apply key_in_flight_false in Hk as [? _].
  - intros r Hr. rewrite nonempty_keys_app, nonempty_keys_one, elem_of_app.
    intros [Hin|Hin]; [by apply (Iw r Hr)|]. case_decide as Hn; [by apply elem_of_nil in Hin|].
    apply list_elem_of_singleton in Hin. destruct on_worker.
    { destruct (Hw eq_refl) as [? ?]. congruence. }
    apply key_in_flight_false in Hk as [_ Hrun]; [|done|done].
    apply (Hrun eq_refl r); [by rewrite Ir, Hr|done].
Qed.

Lemma answers_solved shut job nonce object now :
  pow_run (payload job) (target job) true shut (Ok nonce) ->
  build_object (payload job) nonce = Ok object ->
  answers shut job {| done_user := user_data job; done_object := Some object; done_now := now |}.
Proof.
  intros R E. apply pow_run_returns in R as [(n & [= <-] & Hg)|(? & _)]; [|done].
  split; [done|]. cbn [done_object]. exists (u64 nonce).
  split_and!; [apply u64_range| |done]. rewrite be_split_u64. by apply build_object_inv.
Qed.

Lemma answers_cancelled shut job :
  pow_run (payload job) (target job) true shut Err -> answers shut job (discard job).
Proof. intros R. apply pow_run_returns in R as [(n & ? & _)|(_ & _ & ->)]; done. Qed.

(** Without a queue the callback always gets an object. *)
Lemma submit_sync_answers j now c :
  bm_pow_queue_submit_sync (payload j) (target j) (user_data j) now c -> answers false j c.
Proof.
  intros (r & o & R & E & ->). pose proof R as [(n & -> & Hg)|(_ & [=] & _)]%pow_run_returns.
  split; [done|]. exists (u64 n). split_and!; [apply u64_range| |done].
  rewrite be_split_u64. by apply build_object_inv.
Qed.

(** The callback of the job in the proof of work, whatever its result. *)
Lemma queue_inv_answered s job c :
  queue_inv s -> worker_pc s = At_pow job -> answers (shutdown (queue s)) job c ->
  queue_inv {| queue := queue s; worker_pc := At_done job; shutdown_pc := shutdown_pc s;
               calls := calls s ++ [c]; accepted := accepted s |}.
Proof.
  intros [(fin & F & Ho) Ir Ip Im Ic Io Icl Ie Ij Ik Iw] Hw A.
  constructor; cbn [queue worker_pc shutdown_pc calls accepted]; try done.
  - apply (order_answered _ _ fin job c); [done|done|]. unfold in_pow in Ho.
    by rewrite Hw in Ho.
  - by rewrite Hw in Ir.
  - intros Hx. apply Ij in Hx. congruence.
Qed.

Lemma queue_inv_take s job q :
  queue_inv s -> worker_pc s = At_loop -> worker_take (queue s) = Some (job, q) ->
  queue_inv {| queue := q; worker_pc := At_pow job; shutdown_pc := shutdown_pc s;
               calls := calls s; accepted := accepted s |}.
Proof.
  intros [(fin & F & Ho) Ir Ip Im Ic Io Icl Ie Ij Ik Iw] Hw E. unfold worker_take in E.
  destruct (shutdown (queue s)) eqn:Hs; [done|].
  destruct (head (queue s)) as [|j rest] eqn:Hh; [done|]. injection E as <- <-.
  simpl in Ip. change (j :: rest) with ([j] ++ rest) in Ik. rewrite nonempty_keys_app in Ik.
  apply NoDup_app in Ik as (_ & Hj & Ik).
  constructor; cbn [queue head pending max_pending running shutdown cancel worker_pc shutdown_pc
    calls accepted]; try done.
  - exists fin. split; [done|]. unfold in_pow, to_discard in *. cbn [worker_pc shutdown_pc].
    by rewrite Hw in Ho.
  - rewrite u64_small by (unfold is_u64; lia). lia.
  - rewrite u64_small by (unfold is_u64; lia). lia.
  - intros Hx. apply Ij in Hx. congruence.
  - intros j' [= <-] Hin. pose proof Hin as [Hne _]%nonempty_keys_in.
    apply (Hj (key j)); [|done]. rewrite nonempty_keys_one. case_decide; [done|].
    by apply list_elem_of_singleton.
Qed.

Lemma queue_inv_shutdown s jobs q :
  queue_inv s -> bm_pow_queue_shutdown (queue s) = Some (jobs, q) ->
  queue_inv {| queue := q; worker_pc := worker_pc s; shutdown_pc := Joining jobs;
               calls := calls s; accepted := accepted s |}.
Proof.
  intros [(fin & F & Ho) Ir Ip Im Ic Io Icl Ie Ij Ik Iw] E. unfold bm_pow_queue_shutdown in E.
  destruct (shutdown (queue s)) eqn:Hs; [done|]. injection E as <- <-.
  constructor; cbn [queue head pending max_pending running shutdown cancel worker_pc shutdown_pc
    calls accepted]; try done.
  - exists fin. split.
    + eapply Forall2_impl; [done|]. intros. by eapply answers_mono.
    + unfold in_pow, to_discard in *. cbn [worker_pc shutdown_pc head]. rewrite (proj1 Io eq_refl) in Ho.
      by rewrite app_nil_r in Ho.
  - lia.
  - by intros [[l [=]]|[=]].
  - apply NoDup_nil. constructor.
  - intros j _. apply not_elem_of_nil.
Qed.

Lemma queue_inv_step s s' : queue_inv s -> queue_step s s' -> queue_inv s'.
Proof.
  intros I St. destruct St as [s data tgt k user code q E|s j data tgt k user code q Hw E
    |s job q Hw E|s job nonce object now Hw R E|s job Hw R|s job Hw|s Hw Hs|s jobs q E
    |s jobs Hp Hw|s job jobs Hp|s Hp].
  - by eapply (queue_inv_submit s false).
  - eapply queue_inv_submit; eauto.
  - by eapply queue_inv_take.
  - apply queue_inv_answered; [done|done|]. rewrite (inv_cancel s I) in R.
    by eapply answers_solved.
  - apply queue_inv_answered; [done|done|]. rewrite (inv_cancel s I) in R.
    by apply answers_cancelled.
  - destruct I as [(fin & F & Ho) Ir Ip Im Ic Io Icl Ie Ij Ik Iw].
    constructor; try done.
    + exists fin. unfold in_pow in Ho. by rewrite Hw in Ho.
    + cbn. intros Hx. apply Ij in Hx. congruence.
  - destruct I as [(fin & F & Ho) Ir Ip Im Ic Io Icl Ie Ij Ik Iw].
    constructor; try done.
    + exists fin. unfold in_pow in Ho. by rewrite Hw in Ho.
    + cbn. by rewrite Hw in Ir.
  - by eapply queue_inv_shutdown.
  - destruct I as [(fin & F & Ho) Ir Ip Im Ic Io Icl Ie Ij Ik Iw].
    constructor; try done.
    + exists fin. unfold to_discard in Ho. by rewrite Hp in Ho.
    + cbn. rewrite Io, Hp. split; intros [=].
  - destruct I as [(fin & F & Ho) Ir Ip Im Ic Io Icl Ie Ij Ik Iw].
    assert (Hs : shutdown (queue s) = true).
    { destruct (shutdown (queue s)); [done|]. rewrite (proj1 Io eq_refl) in Hp. done. }
    unfold in_pow, to_discard in Ho. rewrite Hp, Ij in Ho by eauto. rewrite Icl in Ho by done.
    constructor; try done.
    + unfold in_pow, to_discard. cbn. rewrite Ij, Icl by eauto.
      apply (order_answered _ _ fin job); [done|by split|done].
    + cbn. rewrite Io, Hp. split; intros [=].
    + cbn. intros _. apply Ij. eauto.
  - destruct I as [(fin & F & Ho) Ir Ip Im Ic Io Icl Ie Ij Ik Iw].
    constructor; try done.
    + exists fin. unfold to_discard in Ho. by rewrite Hp in Ho.
    + cbn. rewrite Io, Hp. split; intros [=].
    + cbn. intros _. apply Ij. eauto.
Qed.

Lemma queue_inv_reachable max s :
  0 <= max < 2 ^ 64 -> rtc queue_step (system_start max) s -> queue_inv s.
Proof.
  intros Hm R. pose proof (queue_inv_start max Hm) as I.
  induction R as [|a b c Hab _ IH]; [done|]. apply IH. by eapply queue_inv_step.
Qed.

Lemma max_pending_reachable max s :
  rtc queue_step (system_start max) s -> max_pending (queue s) = max.
Proof.
  assert (St : forall a b, queue_step a b -> max_pending (queue b) = max_pending (queue a)).
  { intros a b St. destruct St as [s' data tgt k user code q E|s' j data tgt k user code q Hw E
      |s' job q Hw E| | | | |s' jobs q E| | |]; try done; cbn.
    - by apply submit_spec in E as [[_ ->]|(_ & _ & _ & _ & _ & ->)].
    - by apply submit_spec in E as [[_ ->]|(_ & _ & _ & _ & _ & ->)].
    - unfold worker_take in E. repeat case_match; simplify_eq. done.
    - unfold bm_pow_queue_shutdown in E. by case_match; simplify_eq. }
  intros R. enough (forall a, rtc queue_step a s -> max_pending (queue s) = max_pending (queue a))
    as Hall by (by rewrite (Hall _ R)).
  clear R. intros a R. induction R as [|a b c Hab _ IH]; [done|]. by rewrite IH, (St a b).
Qed.

(** After the shutdown nothing is left but answered jobs. *)
Lemma queue_inv_shut s :
  queue_inv s -> shutdown_pc s = Shut ->
  Forall2 (answers (shutdown (queue s))) (accepted s) (calls s).
Proof.
  intros I Hp. destruct (inv_order s I) as (fin & F & Ho).
  unfold in_pow, to_discard in Ho. rewrite Hp, (inv_joined s I) in Ho by auto.
  rewrite (inv_closed s I) in Ho by (apply (inv_exit s I), (inv_joined s I); auto).
  simpl in Ho. rewrite app_nil_r in Ho. by subst.
Qed.

(** ** The end of a shutdown *)

Definition fits (j : bm_pow_job) : Prop := blen (payload j) + 8 < 2 ^ 64.

Definition moved (s : system) (w : worker_at) (p : shutdown_at) (cs : list done_call)
    (q : bm_pow_queue) : system :=
  {| queue := q; worker_pc := w; shutdown_pc := p; calls := cs; accepted := accepted s |}.

(** The run in progress ends and its callback is made. *)
Lemma worker_pow_ends s job :
  worker_pc s = At_pow job -> cancel (queue s) = true -> fits job ->
  exists c, queue_step s (moved s (At_done job) (shutdown_pc s) (calls s ++ [c]) (queue s)).
Proof.
  intros Hw Hc Hf. destruct (pow_run_ends (payload job) (target job)) as [r R].
  rewrite <- Hc in R at 2. pose proof R as [(n & -> & _)|(-> & _)]%pow_run_returns.
  - eexists. apply (step_solved s job n (be_split 8 n ++ payload job) 0); [done|done|by apply build_object_ok].
  - eexists. by apply step_cancelled.
Qed.

(** The worker leaves its loop. *)
Lemma worker_exits s :
  queue_inv s -> shutdown (queue s) = true -> Forall fits (in_pow s) ->
  exists s', rtc queue_step s s' /\ worker_pc s' = At_exit /\ shutdown_pc s' = shutdown_pc s.
Proof.
  intros I Hs Hf.
  assert (Loop : forall q cs, shutdown q = true ->
    queue_step (moved s At_loop (shutdown_pc s) cs q) (moved s At_exit (shutdown_pc s) cs q))
    by (intros; by apply (step_exit (moved s At_loop _ _ _))).
  assert (Fin : forall j cs, queue_step (moved s (At_done j) (shutdown_pc s) cs (queue s))
    (moved s At_loop (shutdown_pc s) cs (worker_finish (queue s))))
    by (intros j cs; by apply (step_finish (moved s (At_done j) _ _ _) j)).
  destruct (worker_pc s) as [|j|j|] eqn:Hw.
  - exists (moved s At_exit (shutdown_pc s) (calls s) (queue s)). split; [|done].
    apply rtc_once. specialize (Loop (queue s) (calls s) Hs). destruct s; simpl in *. by subst.
  - unfold in_pow in Hf. rewrite Hw in Hf. inversion_clear Hf.
    destruct (worker_pow_ends s j Hw) as [c St]; [by rewrite (inv_cancel s I)|done|].
    exists (moved s At_exit (shutdown_pc s) (calls s ++ [c]) (worker_finish (queue s))).
    split; [|done]. eapply rtc_l; [done|]. eapply rtc_l; [apply Fin|]. by apply rtc_once, Loop.
  - eexists (moved s At_exit (shutdown_pc s) (calls s) _). split; [|done].
    eapply rtc_l; [|by apply rtc_once, (Loop (worker_finish (queue s)))].
    specialize (Fin j (calls s)). destruct s; simpl in *. by subst.
  - by exists s.
Qed.

Lemma shutdown_discards s jobs :
  shutdown_pc s = Discarding jobs ->
  exists s', rtc queue_step s s' /\ shutdown_pc s' = Shut.
Proof.
  revert s. induction jobs as [|j jobs IH]; intros s Hp.
  - eexists. split; [apply rtc_once; by apply step_shut|done].
  - destruct (IH (moved s (worker_pc s) (Discarding jobs) (calls s ++ [discard j]) (queue s)))
      as (s' & R & ?); [done|].
    exists s'. split; [|done]. eapply rtc_l; [|done]. by apply step_discard.
Qed.

Lemma shutdown_ends s :
  queue_inv s -> shutdown (queue s) = true -> Forall fits (in_pow s) ->
  exists s', rtc queue_step s s' /\ shutdown_pc s' = Shut.
Proof.
  intros I Hs Hf. destruct (shutdown_pc s) as [|jobs|jobs|] eqn:Hp.
  - apply (inv_open s I) in Hp. congruence.
  - destruct (worker_exits s I Hs Hf) as (s1 & R1 & Hw & Hp1). rewrite Hp in Hp1.
    destruct (shutdown_discards (moved s1 (worker_pc s1) (Discarding jobs) (calls s1) (queue s1)) jobs)
      as (s2 & R2 & ?); [done|].
    exists s2. split; [|done]. etransitivity; [done|]. eapply rtc_l; [|done].
    by apply (step_join s1 jobs).
  - by apply (shutdown_discards s jobs).
  - by exists s.
Qed.
End QueueLemmas.

#[export] Instance engine_PowRunnerLaws `{OpenSSLLaws} : PowRunnerLaws.
Proof.
  constructor.
  - intros data tgt cancellable raised r R.
    apply pow_run_result in R as [(n & -> & Hn)|?]; [left|by right]. exists n. split; [done|].
    exists (trial (bm_sha512 data) n). split; [|done].
    rewrite trial_value_eq by apply blen_sha512. unfold trial. by rewrite be_split_u64.
  - intros data tgt. destruct (pow_single_ends (bm_sha512 data) (blen_sha512 data) tgt) as [r R].
    exists r, 1. split; [lia|]. cbn. exists 64%nat, (fun _ => true). auto.
Qed.

(** ** Properties *)

Section QueueProperties.
Context `{OSL : OpenSSLLaws}.

(** C21: In every reachable state of the queue and its threads, the jobs accepted so
    far are, in the order of acceptance, those whose callback has been made, the one
    in the proof of work, the waiting ones and those the shutdown has yet to
    discard; every callback was made once, for its own job, with the job's payload
    behind a nonce that meets the job's target, or with NULL when the queue is being
    shut down; when the shutdown has returned, every accepted job has had its
    callback. *)
Theorem pow_queue_fifo_once (max : Z) (s : system) :
  0 <= max < 2 ^ 64 -> rtc queue_step (system_start max) s ->
  (exists finished, Forall2 (answers (shutdown (queue s))) finished (calls s)
     /\ accepted s = finished ++ in_pow s ++ head (queue s) ++ to_discard s)
  /\ (shutdown_pc s = Shut ->
      Forall2 (answers (shutdown (queue s))) (accepted s) (calls s)).
Proof.
  intros Hm R. pose proof (queue_inv_reachable max s Hm R) as I.
  split; [apply (inv_order s I)|]. by apply queue_inv_shut.
Qed.

(** In every reachable state [pending] counts the waiting jobs and does not
    exceed the bound given at initialisation; no two waiting jobs have the same
    (non-empty) key, and none has the key of the job in the proof of work: only the
    callback of a job may queue another one under its key. *)
Theorem pow_queue_bounded_dedup (max : Z) (s : system) :
  0 <= max < 2 ^ 64 -> rtc queue_step (system_start max) s ->
  pending (queue s) = Z.of_nat (length (head (queue s)))
  /\ pending (queue s) <= max
  /\ NoDup (nonempty_keys (head (queue s)))
  /\ (forall j, worker_pc s = At_pow j -> (key j ∉ nonempty_keys (head (queue s)))).
Proof.
  intros Hm R. pose proof (queue_inv_reachable max s Hm R) as I.
  assert (Hmax : max_pending (queue s) = max) by (by apply (max_pending_reachable max)).
  split_and!; [apply (inv_pending s I)|rewrite <- Hmax; apply (inv_max s I)
    |apply (inv_keys s I)|apply (inv_pow_key s I)].
Qed.

(** A shutdown that has begun can always run to its end: from every reachable
    state the worker (whose proof of work stops at the raised flag) and the
    shutting thread reach the return of the shutdown, with every accepted job
    answered; no order of steps before it leads to a deadlock. *)
Theorem pow_queue_shutdown_completes (max : Z) (s : system) :
  0 <= max < 2 ^ 64 -> rtc queue_step (system_start max) s -> shutdown (queue s) = true ->
  Forall fits (accepted s) ->
  exists s', rtc queue_step s s' /\ shutdown_pc s' = Shut
    /\ length (calls s') = length (accepted s').
Proof.
  intros Hm R Hs Hf. pose proof (queue_inv_reachable max s Hm R) as I.
  destruct (inv_order s I) as (fin & _ & Ho). rewrite Ho, !Forall_app in Hf.
  destruct (shutdown_ends s I Hs) as (s' & R' & Hp); [tauto|]. exists s'. split_and!; [done|done|].
  assert (I' : queue_inv s') by (apply (queue_inv_reachable max); [done|by etransitivity]).
  by symmetry; apply (Forall2_length _ _ _ (queue_inv_shut s' I' Hp)).
Qed.
End QueueProperties.

(** ** Witnesses *)

Section QueueWitnesses.
#[local] Existing Instance toy_OpenSSL.
#[local] Existing Instance toy_OpenSSLLaws.

Definition job_1 : bm_pow_job :=
  {| payload := [1; 2]; target := 2 ^ 63; key := [7]; user_data := 1 |}.
Definition job_2 : bm_pow_job :=
  {| payload := [3]; target := 2 ^ 63; key := [8]; user_data := 2 |}.
Definition queue_of (l : list bm_pow_job) (run : option bm_pow_job) (shut : bool) : bm_pow_queue :=
  {| head := l; pending := Z.of_nat (length l); max_pending := 2; running := run;
     shutdown := shut; cancel := shut; completed := 0 |}.

(** Two jobs are submitted, the first one is taken, the queue is shut down. *)
Definition one_waiting : system :=
  {| queue := queue_of [job_1] None false; worker_pc := At_loop;
     shutdown_pc := Not_called; calls := []; accepted := [job_1] |}.
Definition two_waiting : system :=
  {| queue := queue_of [job_1; job_2] None false; worker_pc := At_loop;
     shutdown_pc := Not_called; calls := []; accepted := [job_1; job_2] |}.
Definition one_taken : system :=
  {| queue := queue_of [job_2] (Some job_1) false; worker_pc := At_pow job_1;
     shutdown_pc := Not_called; calls := []; accepted := [job_1; job_2] |}.
Definition shutting : system :=
  {| queue := queue_of [] (Some job_1) true; worker_pc := At_pow job_1;
     shutdown_pc := Joining [job_2]; calls := []; accepted := [job_1; job_2] |}.

Lemma two_waiting_reachable : rtc queue_step (system_start 2) two_waiting.
Proof.
  apply rtc_l with one_waiting.
  - by apply (step_submit (system_start 2) [1; 2] (2 ^ 63) (Some [7]) 1 0 (queue_of [job_1] None false)).
  - apply rtc_once.
    by apply (step_submit one_waiting [3] (2 ^ 63) (Some [8]) 2 0 (queue_of [job_1; job_2] None false)).
Qed.

Lemma one_taken_reachable : rtc queue_step (system_start 2) one_taken.
Proof.
  eapply rtc_r; [apply two_waiting_reachable|]. by apply (step_take two_waiting job_1).
Qed.

Lemma shutting_reachable : rtc queue_step (system_start 2) shutting.
Proof.
  eapply rtc_r; [apply one_taken_reachable|]. by apply (step_shutdown one_taken [job_2]).
Qed.

Lemma pow_queue_fifo_once_witness :
  (exists finished, Forall2 (answers (shutdown (queue one_taken))) finished (calls one_taken)
     /\ accepted one_taken
        = finished ++ in_pow one_taken ++ head (queue one_taken) ++ to_discard one_taken)
  /\ (shutdown_pc one_taken = Shut ->
      Forall2 (answers (shutdown (queue one_taken))) (accepted one_taken) (calls one_taken)).
Proof. apply (pow_queue_fifo_once 2); [lia|apply one_taken_reachable]. Defined.

Lemma pow_queue_bounded_dedup_witness :
  pending (queue one_taken) = Z.of_nat (length (head (queue one_taken)))
  /\ pending (queue one_taken) <= 2
  /\ NoDup (nonempty_keys (head (queue one_taken)))
  /\ (forall j, worker_pc one_taken = At_pow j -> (key j ∉ nonempty_keys (head (queue one_taken)))).
Proof. apply (pow_queue_bounded_dedup 2); [lia|apply one_taken_reachable]. Defined.

Lemma pow_queue_shutdown_completes_witness :
  exists s', rtc queue_step shutting s' /\ shutdown_pc s' = Shut
    /\ length (calls s') = length (accepted s').
Proof.
  apply (pow_queue_shutdown_completes 2); [lia|apply shutting_reachable|done|].
  by repeat constructor.
Defined.
End QueueWitnesses.
