(* ===== verification/SendPipeline.v ===== *)
(** * core/send_pipeline.c

    Sending a message in two proofs of work (the ack, then the message that carries it)
    and a broadcast in one.  A stage is a job on the heap; its address and the callback
    to run make up the [user_data] the proof-of-work queue holds.

    The build is the one without BM_HAVE_PQ. *)

From Stdlib Require Import String.
From stdpp Require Import base tactics numbers option gmap fin_sets list relations.
From S2P Require Import Prelude Varint Base58 Openssl Hash Address Object Sql MessagesStore Protocol Crypto.
From S2P Require Import MessageBuilder IdentityStore Keyring TrialDecrypt PubkeyCache Pow PowQueue.

#[local] Arguments be_split : simpl never.

Definition BM_ACK_NONCE_TRIALS_PER_BYTE : Z := 1000.
Definition BM_ACK_PAYLOAD_LENGTH_EXTRA_BYTES : Z := 1000.

(** ** Data *)

(** [j_queued]: [pow_queue] is not NULL; [j_user_data]: [done] and its argument. *)
Record send_msg_job := {
  j_queued : bool;
  j_from_info : bm_identity_info;
  j_to_stream : Z;
  j_to_ripe : list Z;
  j_to_pub_encryption : list Z;
  j_is_self : bool;
  j_from_address : list Z;
  j_to_address : list Z;
  j_subject : list Z;
  j_body : list Z;
  j_ttl_seconds : Z;
  j_ack_stealth_level : Z;
  j_expires_time : Z;
  j_required_nonce_trials : Z;
  j_required_extra_bytes : Z;
  j_msg_id : list Z;
  j_next_resend_time : Z;
  j_ack_data : option (list Z);
  j_key : list Z;
  j_user_data : Z
}.
#[export] Instance send_msg_job_eta : RecordEta send_msg_job := fun j =>
  Build_send_msg_job (j_queued j) (j_from_info j) (j_to_stream j) (j_to_ripe j) (j_to_pub_encryption j)
    (j_is_self j) (j_from_address j) (j_to_address j) (j_subject j) (j_body j) (j_ttl_seconds j)
    (j_ack_stealth_level j) (j_expires_time j) (j_required_nonce_trials j) (j_required_extra_bytes j)
    (j_msg_id j) (j_next_resend_time j) (j_ack_data j) (j_key j) (j_user_data j).

Record send_broadcast_job := { bj_queued : bool; bj_user_data : Z }.

Inductive pipeline_job := Msg_job (j : send_msg_job) | Broadcast_job (j : send_broadcast_job).

Definition job_user (j : pipeline_job) : Z :=
  match j with Msg_job j => j_user_data j | Broadcast_job j => bj_user_data j end.

(** A call of [done]. *)
Record send_report := { rp_user : Z; rp_rc : Z; rp_object : option (list Z); rp_now : Z }.

(** The heap of jobs, what the pipeline writes to, and the reports made so far. *)
Record pipe_state := {
  sp_queue : bm_pow_queue;
  sp_pubkeys : pubkey_db;
  sp_messages : messages_db;
  sp_jobs : gmap Z pipeline_job;
  sp_reports : list send_report
}.
#[export] Instance pipe_state_eta : RecordEta pipe_state := fun s =>
  Build_pipe_state (sp_queue s) (sp_pubkeys s) (sp_messages s) (sp_jobs s) (sp_reports s).

(** The three callbacks, and the [user_data] of a proof of work. *)
Inductive callback := ACK_POW_DONE | MSG_POW_DONE | BROADCAST_POW_DONE.

Definition callback_code (c : callback) : Z :=
  match c with ACK_POW_DONE => 0 | MSG_POW_DONE => 1 | BROADCAST_POW_DONE => 2 end.
Definition pow_user (c : callback) (p : Z) : Z := p * 4 + callback_code c.
Definition user_callback (user : Z) : option callback :=
  match user mod 4 with
  | 0 => Some ACK_POW_DONE | 1 => Some MSG_POW_DONE | 2 => Some BROADCAST_POW_DONE | _ => None
  end.
Definition user_job (user : Z) : Z := user / 4.

Definition deref_msg (s : pipe_state) (p : Z) : cres send_msg_job :=
  match sp_jobs s !! p with Some (Msg_job j) => Ok j | _ => Ub end.
Definition deref_broadcast (s : pipe_state) (p : Z) : cres send_broadcast_job :=
  match sp_jobs s !! p with Some (Broadcast_job j) => Ok j | _ => Ub end.

Definition store_job (s : pipe_state) (p : Z) (j : pipeline_job) : pipe_state :=
  s <| sp_jobs := <[p := j]> (sp_jobs s) |>.
Definition msg_job_free (s : pipe_state) (p : Z) : pipe_state :=
  s <| sp_jobs := delete p (sp_jobs s) |>.
Definition report (s : pipe_state) (user rc : Z) (object : option (list Z)) (now : Z) : pipe_state :=
  s <| sp_reports := sp_reports s ++ [{| rp_user := user; rp_rc := rc; rp_object := object; rp_now := now |}] |>.

(** A callback on the state: the object ([None]: NULL) and the time. *)
Definition pow_done : Type := pipe_state -> option (list Z) -> Z -> cres pipe_state.

Section Pipeline.
Context `{OS : OpenSSL} `{BN : BigNum} (g : protocol_globals).
(** The nonce that a proof of work on the caller's thread finds for a payload and a target. *)
Context (solve : list Z -> Z -> Z).

(** [bm_pow_queue_submit] with or without a queue; [on_worker]: the caller is the
    queue's thread. *)
Definition pow_submit (queued on_worker : bool) (s : pipe_state) (payload : list Z) (target : Z)
    (key : option (list Z)) (c : callback) (p : Z) (done : pow_done) (now : Z) : cres (Z * pipe_state) :=
  if queued then
    let '(rc, q) := bm_pow_queue_submit on_worker (sp_queue s) payload target key (pow_user c p) in
    Ok (rc, s <| sp_queue := q |>)
  else
    object ← build_object payload (solve payload target);
    s ← done s (Some object) now;
    Ok (0, s).

Definition build_msg_payload (job : send_msg_job) (ack_packet : option (list Z)) (ack_packet_len : Z)
    (e : entropy) : cres (list Z) :=
  bm_build_msg (j_from_info job) (j_to_stream job) (j_to_ripe job) (j_to_pub_encryption job)
    (j_subject job) (j_body job) ack_packet ack_packet_len (j_expires_time job) e.

Definition msg_job_fail (s : pipe_state) (p : Z) (now : Z) : cres pipe_state :=
  job ← deref_msg s p;
  Ok (msg_job_free (report s (j_user_data job) (-1) None now) p).

Definition msg_pow_done (p : Z) : pow_done := fun s object now =>
  job ← deref_msg s p;
  match object with
  | None => msg_job_fail s p now
  | Some object =>
      let ack_data_for_store := default [] (j_ack_data job) in
      let status := if j_is_self job then MSGSENTNOACKEXPECTED else SENT in
      let db := bm_messages_store_insert_sent (sp_messages s) (j_msg_id job) ack_data_for_store
                  (j_to_address job) (j_from_address job) (j_subject job) (j_body job) status
                  (j_ack_stealth_level job) now (s64 (j_ttl_seconds job)) (j_next_resend_time job) in
      let db := if j_is_self job then
                  match bm_messages_store_insert_inbox (m_inbox db) (bm_inventory_hash object)
                          (j_to_address job) (j_from_address job) (Some (j_subject job))
                          (Some (j_body job)) now with
                  | Ok i => with_inbox db i
                  | _ => db
                  end
                else db in
      Ok (msg_job_free (report (s <| sp_messages := db |>) (j_user_data job) 0 (Some object) now) p)
  end.

(** [e]: the random bytes of the message. *)
Definition build_and_submit_msg (on_worker : bool) (e : entropy) (p : Z) (s : pipe_state)
    (ack_packet : list Z) (now : Z) : cres pipe_state :=
  job ← deref_msg s p;
  match build_msg_payload job (Some ack_packet) (blen ack_packet) e with
  | Ub => Ub
  | Err => msg_job_fail s p now
  | Ok payload =>
      target ← bm_pow_get_target (blen payload) (j_ttl_seconds job) (j_required_nonce_trials job)
                 (j_required_extra_bytes job);
      '(rc, s) ← pow_submit (j_queued job) on_worker s payload target (Some (j_key job)) MSG_POW_DONE p
                   (msg_pow_done p) now;
      if negb (rc =? 0) then msg_job_fail s p now else Ok s
  end.

Definition ack_pow_done (on_worker : bool) (e : entropy) (p : Z) : pow_done := fun s object now =>
  job ← deref_msg s p;
  match object with
  | None => msg_job_fail s p now
  | Some object =>
      match bm_create_packet g (cstr "object"%string) object with
      | Ub => Ub
      | Err => msg_job_fail s p now
      | Ok packet =>
          let s := store_job s p (Msg_job (job <| j_ack_data := Some object |>)) in
          build_and_submit_msg on_worker e p s packet now
      end
  end.

(** The random bytes of an ack, of a message and of its id ([None]: RAND_bytes failed). *)
Record send_random := {
  sr_random32 : option (list Z);
  sr_dummy_priv : option (list Z);
  sr_len_seed : option Z;
  sr_message : Z -> option (list Z);
  sr_ack_entropy : entropy;
  sr_msg_id : option (list Z);
  sr_msg_entropy : entropy
}.

Definition build_ack_payload (stealth_level stream expires_time : Z) (rnd : send_random) : cres (list Z) :=
  ack_body ← bm_build_ack_object stealth_level stream (sr_random32 rnd) (sr_dummy_priv rnd)
               (sr_len_seed rnd) (sr_message rnd) (sr_ack_entropy rnd);
  payload ← wr (malloc (8 + blen ack_body)) 0 (be_split 8 expires_time);
  wr payload 8 ack_body.

(** Whether the recipient is one of the node's own identities, the key to encrypt to, and
    the cache with the recipient marked as used. *)
Definition recipient_key (ids : identity_db) (pk : pubkey_db) (to_address to_ripe : list Z)
  : cres (bool * list Z * pubkey_db) :=
  match bm_identity_store_load ids to_address with
  | Ub => Ub
  | Ok row => Ok (true, r_encryption_pubkey row, pk)
  | Err =>
      cached ← bm_pubkey_cache_lookup_by_ripe pk to_ripe;
      Ok (false, c_encryption_pubkey cached, bm_pubkey_cache_mark_used_personally pk to_ripe)
  end.

(** The demands of the recipient's key, from version 3 on. *)
Definition recipient_demands (pk : pubkey_db) (to_ripe : list Z) : Z * Z :=
  match bm_pubkey_cache_lookup_by_ripe pk to_ripe with
  | Ok r => if c_address_version r >=? 3
            then (c_nonce_trials_per_byte r, c_payload_length_extra_bytes r) else (0, 0)
  | _ => (0, 0)
  end.

Definition sender_info (from_id : bm_unlocked_identity) : bm_identity_info :=
  {| id_address_version := u_address_version from_id; id_stream := u_stream from_id;
     id_pub_signing := u_pub_signing from_id; id_pub_encryption := u_pub_encryption from_id;
     id_priv_signing := u_priv_signing from_id;
     id_nonce_trials_per_byte := u_nonce_trials_per_byte from_id;
     id_payload_length_extra_bytes := u_payload_length_extra_bytes from_id; id_does_ack := true |}.

(** [if (theirs > ours) ours = theirs;] *)
Definition larger (theirs ours : Z) : Z := if theirs >? ours then theirs else ours.

(** The job with its sender and recipient filled in; [Err]: -1, which leaves the cache as
    it is. *)
Definition prepare_legacy_msg (job : send_msg_job) (kr : bm_keyring_t) (ids : identity_db) (pk : pubkey_db)
    (from_address to_address : list Z) : cres (send_msg_job * pubkey_db) :=
  match bm_keyring_find_by_address kr from_address with
  | None => Err
  | Some from_id =>
      '(_, to_stream, to_ripe) ← bm_address_decode to_address;
      '(is_self, to_pub_encryption, pk) ← recipient_key ids pk to_address to_ripe;
      let '(trials, extra) := recipient_demands pk to_ripe in
      Ok (job <| j_from_info := sender_info from_id |> <| j_to_stream := to_stream |>
              <| j_to_ripe := to_ripe |> <| j_to_pub_encryption := to_pub_encryption |>
              <| j_is_self := is_self |>
              <| j_required_nonce_trials := larger trials (u_nonce_trials_per_byte from_id) |>
              <| j_required_extra_bytes := larger extra (u_payload_length_extra_bytes from_id) |>, pk)
  end.

Definition no_identity_info : bm_identity_info :=
  {| id_address_version := 0; id_stream := 0; id_pub_signing := replicate 65 0;
     id_pub_encryption := replicate 65 0; id_priv_signing := replicate 32 0;
     id_nonce_trials_per_byte := 0; id_payload_length_extra_bytes := 0; id_does_ack := false |}.

(** [calloc] and the fields that are known at once. *)
Definition new_msg_job (queued : bool) (from_address to_address subject body : list Z)
    (ttl_seconds ack_stealth_level next_resend_time now user : Z) : send_msg_job :=
  {| j_queued := queued; j_from_info := no_identity_info; j_to_stream := 0; j_to_ripe := replicate 20 0;
     j_to_pub_encryption := replicate 65 0; j_is_self := false; j_from_address := from_address;
     j_to_address := to_address; j_subject := subject; j_body := body; j_ttl_seconds := ttl_seconds;
     j_ack_stealth_level := ack_stealth_level; j_expires_time := u64 (now + ttl_seconds);
     j_required_nonce_trials := 0; j_required_extra_bytes := 0; j_msg_id := replicate 32 0;
     j_next_resend_time := next_resend_time; j_ack_data := None; j_key := replicate 33 0;
     j_user_data := user |}.

(** What follows the choice of the first stage: the submission, and the job freed when it
    was refused. *)
Definition submit_stage (queued on_worker : bool) (s : pipe_state) (payload : list Z) (target : Z) (key : option (list Z))
    (c : callback) (p : Z) (done : pow_done) (now : Z) : cres (Z * pipe_state) :=
  '(rc, s) ← pow_submit queued on_worker s payload target key c p done now;
  Ok (rc, if negb (rc =? 0) then msg_job_free s p else s).

(** The return code and the state; [p]: the address [calloc] gave. *)
Definition bm_send_pipeline_send_message_async (queued on_worker : bool) (kr : bm_keyring_t) (ids : identity_db)
    (s : pipe_state) (from_address to_address subject body : list Z) (ttl_seconds ack_stealth_level : Z)
    (reuse_msg_id : option (list Z)) (next_resend_time now user p : Z) (rnd : send_random)
  : cres (Z * pipe_state) :=
  let job := new_msg_job queued from_address to_address subject body ttl_seconds ack_stealth_level
               next_resend_time now user in
  match prepare_legacy_msg job kr ids (sp_pubkeys s) from_address to_address with
  | Ub => Ub
  | Err => Ok (-1, s)
  | Ok (job, pk) =>
      let s := s <| sp_pubkeys := pk |> in
      match (match reuse_msg_id with Some id => Some id | None => sr_msg_id rnd end) with
      | None => Ok (-1, s)
      | Some msg_id =>
          let job := job <| j_msg_id := msg_id |> <| j_key := 83 :: msg_id |> in
          let s := store_job s p (Msg_job job) in
          if j_is_self job then
            match build_msg_payload job None 0 (sr_msg_entropy rnd) with
            | Ub => Ub
            | Err => Ok (-1, msg_job_free s p)
            | Ok payload =>
                target ← bm_pow_get_target (blen payload) ttl_seconds (j_required_nonce_trials job)
                           (j_required_extra_bytes job);
                submit_stage queued on_worker s payload target (Some (j_key job)) MSG_POW_DONE p
                  (msg_pow_done p) now
            end
          else
            match build_ack_payload ack_stealth_level (j_to_stream job) (j_expires_time job) rnd with
            | Ub => Ub
            | Err => Ok (-1, msg_job_free s p)
            | Ok ack_payload =>
                target ← bm_pow_get_target (blen ack_payload) ttl_seconds BM_ACK_NONCE_TRIALS_PER_BYTE
                           BM_ACK_PAYLOAD_LENGTH_EXTRA_BYTES;
                submit_stage queued on_worker s ack_payload target (Some (j_key job)) ACK_POW_DONE p
                  (ack_pow_done on_worker (sr_msg_entropy rnd) p) now
            end
      end
  end.

(** ** Broadcasts *)

Definition broadcast_pow_done (p : Z) : pow_done := fun s object now =>
  job ← deref_broadcast s p;
  Ok (msg_job_free (report s (bj_user_data job) (match object with None => -1 | Some _ => 0 end) object now) p).

(** The payload and its target. *)
Definition build_legacy_broadcast (kr : bm_keyring_t) (from_address subject body : list Z)
    (ttl_seconds now : Z) (e : entropy) : cres (list Z * Z) :=
  match bm_keyring_find_by_address kr from_address with
  | None => Err
  | Some from_id =>
      payload ← bm_build_broadcast (sender_info from_id) (u_ripe from_id) subject body
                  (u64 (now + ttl_seconds)) e;
      target ← bm_pow_get_target (blen payload) ttl_seconds (u_nonce_trials_per_byte from_id)
                 (u_payload_length_extra_bytes from_id);
      Ok (payload, target)
  end.

Definition bm_send_pipeline_send_broadcast_async (queued on_worker : bool) (kr : bm_keyring_t) (s : pipe_state)
    (from_address subject body : list Z) (ttl_seconds now user p : Z) (e : entropy)
  : cres (Z * pipe_state) :=
  match build_legacy_broadcast kr from_address subject body ttl_seconds now e with
  | Ub => Ub
  | Err => Ok (-1, s)
  | Ok (payload, target) =>
      let s := store_job s p (Broadcast_job {| bj_queued := queued; bj_user_data := user |}) in
      submit_stage queued on_worker s payload target None BROADCAST_POW_DONE p (broadcast_pow_done p) now
  end.

(** ** The synchronous forms *)

(** What [sync_done] left in the result: the last report to [user]; before any, -1. *)
Definition sync_result (s : pipe_state) (user : Z) : cres (list Z) :=
  match last (filter (fun r => rp_user r = user) (sp_reports s)) with
  | Some {| rp_rc := rc; rp_object := Some object |} => if rc =? 0 then Ok object else Err
  | _ => Err
  end.

(** The object, or [None] for -1, and the state. *)
Definition bm_send_pipeline_send_message (kr : bm_keyring_t) (ids : identity_db) (s : pipe_state)
    (from_address to_address subject body : list Z) (ttl_seconds ack_stealth_level : Z)
    (reuse_msg_id : option (list Z)) (next_resend_time now user p : Z) (rnd : send_random)
  : cres (option (list Z) * pipe_state) :=
  '(rc, s) ← bm_send_pipeline_send_message_async false false kr ids s from_address to_address subject body
               ttl_seconds ack_stealth_level reuse_msg_id next_resend_time now user p rnd;
  Ok (if negb (rc =? 0) then None
      else match sync_result s user with Ok object => Some object | _ => None end, s).

Definition bm_send_pipeline_send_broadcast (kr : bm_keyring_t) (s : pipe_state)
    (from_address subject body : list Z) (ttl_seconds now user p : Z) (e : entropy)
  : cres (option (list Z) * pipe_state) :=
  '(rc, s) ← bm_send_pipeline_send_broadcast_async false false kr s from_address subject body ttl_seconds now
               user p e;
  Ok (if negb (rc =? 0) then None
      else match sync_result s user with Ok object => Some object | _ => None end, s).

(** ** The callback of a proof of work *)

(** [e]: the random bytes of the message when the ack is done. *)
Definition run_callback (on_worker : bool) (e : entropy) (s : pipe_state) (user : Z)
    (object : option (list Z)) (now : Z) : cres pipe_state :=
  match user_callback user with
  | Some ACK_POW_DONE => ack_pow_done on_worker e (user_job user) s object now
  | Some MSG_POW_DONE => msg_pow_done (user_job user) s object now
  | Some BROADCAST_POW_DONE => broadcast_pow_done (user_job user) s object now
  | None => Ub
  end.
End Pipeline.

(** ** The pipeline with its worker thread *)

(** The pipeline, the worker of the queue, its shutdown, and (what no thread stores) the
    [user_data] of the sends accepted so far. *)
Record pipeline := {
  pl_send : pipe_state;
  pl_worker : worker_at;
  pl_shutdown : shutdown_at;
  pl_accepted : list Z
}.

Definition pipeline_start (max : Z) (pk : pubkey_db) (m : messages_db) : pipeline :=
  {| pl_send := {| sp_queue := bm_pow_queue_init max; sp_pubkeys := pk; sp_messages := m; sp_jobs := ∅;
                   sp_reports := [] |};
     pl_worker := At_loop; pl_shutdown := Not_called; pl_accepted := [] |}.

Definition with_worker (s : pipeline) (q : bm_pow_queue) (w : worker_at) : pipeline :=
  {| pl_send := (pl_send s) <| sp_queue := q |>; pl_worker := w; pl_shutdown := pl_shutdown s;
     pl_accepted := pl_accepted s |}.
Definition after_callback (s : pipeline) (s' : pipe_state) (w : worker_at) (d : shutdown_at) : pipeline :=
  {| pl_send := s'; pl_worker := w; pl_shutdown := d; pl_accepted := pl_accepted s |}.
Definition after_send (s : pipeline) (rc user : Z) (s' : pipe_state) : pipeline :=
  {| pl_send := s'; pl_worker := pl_worker s; pl_shutdown := pl_shutdown s;
     pl_accepted := if rc =? 0 then pl_accepted s ++ [user] else pl_accepted s |}.

Section Steps.
Context `{OS : OpenSSL} `{BN : BigNum} `{PR : PowRunner} (g : protocol_globals) (solve : list Z -> Z -> Z).

Inductive pipeline_step : pipeline -> pipeline -> Prop :=
| pipe_message s kr ids from to subject body ttl level reuse next now user p rnd rc s' :
    sp_jobs (pl_send s) !! p = None ->
    bm_send_pipeline_send_message_async g solve true false kr ids (pl_send s) from to subject body ttl level
      reuse next now user p rnd = Ok (rc, s') ->
    pipeline_step s (after_send s rc user s')
| pipe_broadcast s kr from subject body ttl now user p e rc s' :
    sp_jobs (pl_send s) !! p = None ->
    bm_send_pipeline_send_broadcast_async solve true false kr (pl_send s) from subject body ttl now user p e
      = Ok (rc, s') ->
    pipeline_step s (after_send s rc user s')
| pipe_take s job q :
    pl_worker s = At_loop -> worker_take (sp_queue (pl_send s)) = Some (job, q) ->
    pipeline_step s (with_worker s q (At_pow job))
| pipe_solved s job nonce object e now s' :
    pl_worker s = At_pow job ->
    pow_run (payload job) (target job) true (cancel (sp_queue (pl_send s))) (Ok nonce) ->
    build_object (payload job) nonce = Ok object ->
    run_callback g solve true e (pl_send s) (user_data job) (Some object) now = Ok s' ->
    pipeline_step s (after_callback s s' (At_done job) (pl_shutdown s))
| pipe_cancelled s job e s' :
    pl_worker s = At_pow job ->
    pow_run (payload job) (target job) true (cancel (sp_queue (pl_send s))) Err ->
    run_callback g solve true e (pl_send s) (user_data job) None 0 = Ok s' ->
    pipeline_step s (after_callback s s' (At_done job) (pl_shutdown s))
| pipe_finish s job :
    pl_worker s = At_done job ->
    pipeline_step s (with_worker s (worker_finish (sp_queue (pl_send s))) At_loop)
| pipe_exit s :
    pl_worker s = At_loop -> shutdown (sp_queue (pl_send s)) = true ->
    pipeline_step s (after_callback s (pl_send s) At_exit (pl_shutdown s))
| pipe_shutdown s jobs q :
    bm_pow_queue_shutdown (sp_queue (pl_send s)) = Some (jobs, q) ->
    pipeline_step s (after_callback s ((pl_send s) <| sp_queue := q |>) (pl_worker s) (Joining jobs))
| pipe_join s jobs :
    pl_shutdown s = Joining jobs -> pl_worker s = At_exit ->
    pipeline_step s (after_callback s (pl_send s) (pl_worker s) (Discarding jobs))
| pipe_discard s job jobs e s' :
    pl_shutdown s = Discarding (job :: jobs) ->
    run_callback g solve false e (pl_send s) (user_data job) None 0 = Ok s' ->
    pipeline_step s (after_callback s s' (pl_worker s) (Discarding jobs))
| pipe_shut s :
    pl_shutdown s = Discarding [] ->
    pipeline_step s (after_callback s (pl_send s) (pl_worker s) Shut).
End Steps.

(** ** Lemmas: one send or callback *)

Lemma pow_user_callback c p : user_callback (pow_user c p) = Some c /\ user_job (pow_user c p) = p.
Proof.
  unfold user_callback, user_job, pow_user.
  rewrite Z.add_comm, Z.mod_add, Z.div_add by lia. by destruct c.
Qed.

Lemma submit_cases ow q data tgt k user rc q' :
  bm_pow_queue_submit ow q data tgt k user = (rc, q') ->
  rc = 0 /\ shutdown q = false /\ shutdown q' = false
    /\ (exists j, head q' = head q ++ [j] /\ user_data j = user /\ payload j = data /\ target j = tgt)
  \/ rc <> 0 /\ q' = q.
Proof.
  unfold bm_pow_queue_submit. destruct (_ >? _); [intros [= <- <-]; by right|].
  destruct (shutdown q) eqn:Es; [intros [= <- <-]; by right|]. cbn.
  destruct (_ >=? _); [intros [= <- <-]; by right|].
  destruct (_ && _); [intros [= <- <-]; by right|]. intros [= <- <-]. left. cbn. eauto 10.
Qed.

Section CallLemmas.
Context `{OS : OpenSSL} `{BN : BigNum} (g : protocol_globals) (solve : list Z -> Z -> Z).

(** The job at [p] has been reported as [r] and freed. *)
Definition reported_as (s : pipe_state) (p : Z) (r : send_report) (s' : pipe_state) : Prop :=
  sp_queue s' = sp_queue s /\ sp_jobs s' = delete p (sp_jobs s) /\ sp_reports s' = sp_reports s ++ [r].
Definition reported (s : pipe_state) (p : Z) (j : pipeline_job) (s' : pipe_state) : Prop :=
  exists r, rp_user r = job_user j /\ reported_as s p r s'.
Definition failure (j : pipeline_job) (now : Z) : send_report :=
  {| rp_user := job_user j; rp_rc := -1; rp_object := None; rp_now := now |}.

(** Its next stage is in the queue. *)
Definition staged (s : pipe_state) (p : Z) (j : pipeline_job) (c : callback) (s' : pipe_state) : Prop :=
  (exists b, head (sp_queue s') = head (sp_queue s) ++ [b] /\ user_data b = pow_user c p)
  /\ shutdown (sp_queue s) = false /\ shutdown (sp_queue s') = false
  /\ sp_jobs s' = <[p := j]> (sp_jobs s) /\ sp_reports s' = sp_reports s.

(** The kind of job a callback expects, with a queue. *)
Definition job_kind (c : callback) (j : pipeline_job) : Prop :=
  match c, j with
  | BROADCAST_POW_DONE, Broadcast_job _ => True
  | ACK_POW_DONE, Msg_job j | MSG_POW_DONE, Msg_job j => j_queued j = true
  | _, _ => False
  end.

Lemma msg_job_fail_ok s p j now :
  sp_jobs s !! p = Some (Msg_job j) ->
  exists s', msg_job_fail s p now = Ok s' /\ reported_as s p (failure (Msg_job j) now) s'.
Proof. intros Hp. unfold msg_job_fail, deref_msg. rewrite Hp. cbn_bind. by eexists. Qed.

Lemma msg_job_fails s p j now s' :
  sp_jobs s !! p = Some (Msg_job j) -> msg_job_fail s p now = Ok s' -> reported s p (Msg_job j) s'.
Proof.
  intros Hp E. destruct (msg_job_fail_ok s p j now Hp) as (s1 & E1 & H1). rewrite E1 in E.
  injection E as <-. by exists (failure (Msg_job j) now).
Qed.

Lemma msg_pow_done_ok s p j object now :
  sp_jobs s !! p = Some (Msg_job j) ->
  exists s', msg_pow_done p s object now = Ok s'
    /\ reported_as s p {| rp_user := j_user_data j;
                          rp_rc := match object with None => -1 | Some _ => 0 end;
                          rp_object := object; rp_now := now |} s'.
Proof.
  intros Hp. unfold msg_pow_done. destruct object; unfold deref_msg at 1; rewrite Hp; cbn_bind.
  - eexists. split; [reflexivity|]. done.
  - by apply msg_job_fail_ok.
Qed.

Lemma broadcast_pow_done_ok s p j object now :
  sp_jobs s !! p = Some (Broadcast_job j) ->
  exists s', broadcast_pow_done p s object now = Ok s'
    /\ reported_as s p {| rp_user := bj_user_data j;
                          rp_rc := match object with None => -1 | Some _ => 0 end;
                          rp_object := object; rp_now := now |} s'.
Proof.
  intros Hp. unfold broadcast_pow_done, deref_broadcast. rewrite Hp. cbn_bind. by eexists.
Qed.

(** A refused submission leaves the state as it was. *)
Lemma pow_submit_cases ow s data tgt key c p done now rc s' :
  pow_submit solve true ow s data tgt key c p done now = Ok (rc, s') ->
  rc = 0 /\ shutdown (sp_queue s) = false /\ shutdown (sp_queue s') = false
    /\ (exists b, head (sp_queue s') = head (sp_queue s) ++ [b] /\ user_data b = pow_user c p
          /\ payload b = data /\ target b = tgt)
    /\ s' = s <| sp_queue := sp_queue s' |>
  \/ rc <> 0 /\ s' = s.
Proof.
  unfold pow_submit. destruct (bm_pow_queue_submit _ _ _ _ _ _) as [rc' q'] eqn:E.
  intros [= <- <-]. apply submit_cases in E as [(-> & ? & ? & ?)|(? & ->)]; [by left|right].
  by destruct s.
Qed.

Lemma ack_pow_done_cases ow e s p j object now s' :
  sp_jobs s !! p = Some (Msg_job j) -> j_queued j = true ->
  ack_pow_done g solve ow e p s object now = Ok s' ->
  reported s p (Msg_job j) s'
  \/ exists j', j_queued j' = true /\ j_user_data j' = j_user_data j
                /\ staged s p (Msg_job j') MSG_POW_DONE s'.
Proof.
  intros Hp Hq. unfold ack_pow_done. destruct object as [object|]; unfold deref_msg at 1; rewrite Hp; cbn_bind.
  2:{ intros E%(msg_job_fails _ _ j); [by left|done]. }
  destruct (bm_create_packet _ _ _) as [packet| |]; [|intros E%(msg_job_fails _ _ j); [by left|done]|done].
  set (j' := j <| j_ack_data := Some object |>). set (s1 := store_job s p (Msg_job j')).
  assert (H1 : sp_jobs s1 !! p = Some (Msg_job j')) by apply lookup_insert_eq.
  assert (Hr : forall s2, reported s1 p (Msg_job j') s2 -> reported s p (Msg_job j) s2).
  { intros s2 (r & ? & ? & Hd & ?). exists r. unfold reported_as.
    split_and!; try done. rewrite Hd. cbn.
    by rewrite delete_insert_eq. }
  unfold build_and_submit_msg. unfold deref_msg at 1. rewrite H1. cbn_bind.
  destruct (build_msg_payload _ _ _ _) as [data| |]; [|intros E%(msg_job_fails _ _ j'); [left; by apply Hr|done]|done].
  intros E. inv_bind E. change (j_queued j') with (j_queued j) in E. rewrite Hq in E. inv_bind E. destruct a0 as [rc s2].
  apply pow_submit_cases in E1 as [(-> & Hs & Hs2 & (b & Hb & Hu & _) & Hs')|(Hrc & ->)].
  - injection E as <-. right. exists j'. split_and!; try done.
    split_and!; [by exists b|done|done| |]; rewrite Hs'; done.
  - destruct (Z.eqb_spec rc 0); [done|]. cbn in E.
    apply (msg_job_fails _ _ j') in E; [|done]. left. by apply Hr.
Qed.

(** NULL in place of an object always ends the job. *)
Lemma run_callback_null ow e s c p j now :
  sp_jobs s !! p = Some j -> job_kind c j ->
  exists s', run_callback g solve ow e s (pow_user c p) None now = Ok s'
    /\ reported_as s p (failure j now) s'.
Proof.
  intros Hp Hk. unfold run_callback. destruct (pow_user_callback c p) as [-> ->].
  destruct c, j; try done.
  - unfold ack_pow_done. unfold deref_msg at 1. rewrite Hp. cbn_bind. by apply msg_job_fail_ok.
  - by apply msg_pow_done_ok.
  - by apply broadcast_pow_done_ok.
Qed.

Lemma run_callback_cases ow e s c p j object now s' :
  sp_jobs s !! p = Some j -> job_kind c j ->
  run_callback g solve ow e s (pow_user c p) object now = Ok s' ->
  reported s p j s'
  \/ exists c' j', job_kind c' j' /\ job_user j' = job_user j /\ staged s p j' c' s'.
Proof.
  intros Hp Hk. unfold run_callback. destruct (pow_user_callback c p) as [-> ->].
  destruct c, j as [j|j]; try done; intros E.
  - destruct (ack_pow_done_cases _ _ _ _ _ _ _ _ Hp Hk E) as [?|(j' & ? & ? & ?)]; [by left|].
    right. by exists MSG_POW_DONE, (Msg_job j').
  - destruct (msg_pow_done_ok s p j object now Hp) as (s1 & E1 & Hr). left. rewrite E1 in E.
    injection E as <-. eexists. by split; [|exact Hr].
  - destruct (broadcast_pow_done_ok s p j object now Hp) as (s1 & E1 & Hr). left. rewrite E1 in E.
    injection E as <-. eexists. by split; [|exact Hr].
Qed.

(** What [Ok (rc, s')] of a send means. *)
Definition sent (s : pipe_state) (p user rc : Z) (s' : pipe_state) : Prop :=
  rc = 0 /\ (exists c j, job_kind c j /\ job_user j = user /\ staged s p j c s')
  \/ rc <> 0 /\ sp_queue s' = sp_queue s /\ sp_jobs s' = sp_jobs s /\ sp_reports s' = sp_reports s.

Lemma submit_stage_sent ow s p j data tgt key c done now rc s' :
  sp_jobs s !! p = None -> job_kind c j ->
  submit_stage solve true ow (store_job s p j) data tgt key c p done now = Ok (rc, s') ->
  sent s p (job_user j) rc s'.
Proof.
  intros Hp Hk E. unfold submit_stage in E. inv_bind E. destruct a as [rc1 s1]. injection E as <- <-.
  apply pow_submit_cases in E0 as [(-> & Hs & Hs2 & (b & Hb & Hu & _) & Hs')|(Hrc & ->)].
  - left. split; [done|]. exists c, j. split_and!; try done. cbn.
    split_and!; [by exists b|done|done| |]; rewrite Hs'; done.
  - right. destruct (Z.eqb_spec rc1 0); [done|]. cbn. split_and!; try done. by rewrite delete_insert_id.
Qed.

Lemma send_message_sent ow kr ids s from to subject body ttl level reuse next now user p rnd rc s' :
  sp_jobs s !! p = None ->
  bm_send_pipeline_send_message_async g solve true ow kr ids s from to subject body ttl level reuse next now
    user p rnd = Ok (rc, s') ->
  sent s p user rc s'.
Proof.
  intros Hp. unfold bm_send_pipeline_send_message_async.
  assert (Hu : forall j0 j pk, prepare_legacy_msg j0 kr ids (sp_pubkeys s) from to = Ok (j, pk) ->
            j_queued j = j_queued j0 /\ j_user_data j = j_user_data j0).
  { intros j0 j pk. unfold prepare_legacy_msg. destruct (bm_keyring_find_by_address kr from); [|done].
    intros E. inv_bind E. destruct a as [[? ?] ?]. inv_bind E. destruct a as [[? ?] ?].
    destruct (recipient_demands _ _). by injection E as <- <-. }
  destruct (prepare_legacy_msg _ _ _ _ _ _) as [[j pk]| |] eqn:Ep; [|intros [= <- <-]; by right|done].
  destruct (Hu _ _ _ Ep) as [Hq Hj]. cbn in Hq, Hj. clear Hu Ep.
  destruct (match reuse with Some id => Some id | None => _ end) as [id|]; [|intros [= <- <-]; by right].
  set (j' := j <| j_msg_id := id |> <| j_key := 83 :: id |>). rewrite <- Hj.
  change (j_user_data j) with (job_user (Msg_job j')).
  destruct (j_is_self j').
  - destruct (build_msg_payload _ _ _ _) as [data| |]; [|intros [= <- <-]|done].
    + intros E. inv_bind E. by apply submit_stage_sent in E.
    + right. split; [done|]. cbn. by rewrite delete_insert_id.
  - destruct (build_ack_payload _ _ _ _) as [data| |]; [|intros [= <- <-]|done].
    + intros E. inv_bind E. by apply submit_stage_sent in E.
    + right. split; [done|]. cbn. by rewrite delete_insert_id.
Qed.

Lemma send_broadcast_sent ow kr s from subject body ttl now user p e rc s' :
  sp_jobs s !! p = None ->
  bm_send_pipeline_send_broadcast_async solve true ow kr s from subject body ttl now user p e = Ok (rc, s') ->
  sent s p user rc s'.
Proof.
  intros Hp. unfold bm_send_pipeline_send_broadcast_async.
  destruct (build_legacy_broadcast _ _ _ _ _ _ _) as [[data tgt]| |]; [|intros [= <- <-]; by right|done].
  intros E. by apply submit_stage_sent in E.
Qed.
End CallLemmas.

(** ** Lemmas: accounting *)

(** The users whose job is on the heap. *)
Definition waiting (jobs : gmap Z pipeline_job) : list Z := map (fun kj => job_user kj.2) (map_to_list jobs).

Lemma waiting_insert jobs p j : jobs !! p = None -> waiting (<[p := j]> jobs) ≡ₚ job_user j :: waiting jobs.
Proof. intros H. unfold waiting. by rewrite map_to_list_insert. Qed.

Lemma waiting_delete jobs p j : jobs !! p = Some j -> waiting jobs ≡ₚ job_user j :: waiting (delete p jobs).
Proof. intros H. unfold waiting. by rewrite <- map_to_list_delete by done. Qed.

Lemma waiting_update jobs p j j' :
  jobs !! p = Some j -> job_user j' = job_user j -> waiting (<[p := j']> jobs) ≡ₚ waiting jobs.
Proof.
  intros H Hu. rewrite (waiting_delete jobs p j H), <- Hu, <- (insert_delete_eq jobs p j').
  apply waiting_insert. apply lookup_delete_eq.
Qed.

(** The proofs of work that still call back: the queue, the worker and the shutdown. *)
Definition at_work (w : worker_at) : list bm_pow_job := match w with At_pow j => [j] | _ => [] end.
Definition to_discard (d : shutdown_at) : list bm_pow_job :=
  match d with Joining l | Discarding l => l | _ => [] end.
Definition in_flight (s : pipeline) : list Z :=
  map user_data (head (sp_queue (pl_send s)) ++ at_work (pl_worker s) ++ to_discard (pl_shutdown s)).

(** Every call still to come is for a job of its own on the heap, of the kind its callback
    expects, and no job waits for nothing. *)
Definition matched (fl : list Z) (jobs : gmap Z pipeline_job) : Prop :=
  exists l, fl ≡ₚ map (fun cp => pow_user cp.1 cp.2) l /\ NoDup l.*2
    /\ (forall p, p ∈ l.*2 <-> is_Some (jobs !! p))
    /\ (forall c p j, (c, p) ∈ l -> jobs !! p = Some j -> job_kind c j).

Record pipeline_inv (s : pipeline) : Prop := {
  inv_matched : matched (in_flight s) (sp_jobs (pl_send s));
  inv_accounts : pl_accepted s ≡ₚ map rp_user (sp_reports (pl_send s)) ++ waiting (sp_jobs (pl_send s));
  inv_closed : pl_shutdown s <> Not_called -> shutdown (sp_queue (pl_send s)) = true;
  inv_empty : shutdown (sp_queue (pl_send s)) = true -> head (sp_queue (pl_send s)) = [];
  inv_joined : (forall l, pl_shutdown s = Discarding l -> pl_worker s = At_exit)
    /\ (pl_shutdown s = Shut -> pl_worker s = At_exit)
}.

Lemma matched_perm fl fl' jobs : fl ≡ₚ fl' -> matched fl jobs -> matched fl' jobs.
Proof. intros H (l & Hl & Hr). exists l. split; [by rewrite <- H|done]. Qed.

#[export] Instance matched_proper : Proper ((≡ₚ) ==> (=) ==> iff) matched.
Proof. intros fl fl' H jobs ? <-. by split; apply matched_perm. Qed.

Lemma matched_insert fl jobs c p j :
  matched fl jobs -> jobs !! p = None -> job_kind c j -> matched (pow_user c p :: fl) (<[p := j]> jobs).
Proof.
  intros (l & Hl & Hd & Hp & Hk) Hn Hc.
  assert (Hf : p ∉ l.*2) by (rewrite Hp, Hn; by intros [? [=]]).
  exists ((c, p) :: l). split_and!; cbn.
  - by rewrite Hl.
  - by constructor.
  - intros p'. rewrite elem_of_cons, Hp, lookup_insert_is_Some. destruct (decide (p = p')); naive_solver.
  - intros c' p' j' [[= -> ->]|Hin]%elem_of_cons; [rewrite lookup_insert_eq; by intros [= <-]|].
    assert (p <> p') by (intros ->; apply Hf; by apply (list_elem_of_fmap_2 snd) in Hin).
    rewrite lookup_insert_ne by done. by apply Hk.
Qed.

Lemma matched_next u fl jobs :
  matched (u :: fl) jobs ->
  exists c p j, u = pow_user c p /\ jobs !! p = Some j /\ job_kind c j /\ matched fl (delete p jobs).
Proof.
  intros (l & Hl & Hd & Hp & Hk).
  assert (Hu : u ∈ map (fun cp => pow_user cp.1 cp.2) l) by (rewrite <- Hl; by constructor).
  apply list_elem_of_fmap in Hu as ([c p] & -> & Hin). cbn in *.
  destruct (Hp p) as [[j Hj] _]; [by apply (list_elem_of_fmap_2 snd) in Hin|].
  exists c, p, j. split_and!; [done|done|by apply (Hk c p)|].
  apply list_elem_of_split in Hin as (l1 & l2 & ->).
  rewrite fmap_app, fmap_cons in Hd, Hp. cbn in Hd, Hp.
  assert (Hnp : p ∉ (l1 ++ l2).*2).
  { apply NoDup_app in Hd as (_ & Ha & [Hb _]%NoDup_cons). rewrite fmap_app, elem_of_app.
    intros [Hx|Hx]; [|done]. apply (Ha p Hx). by constructor. }
  exists (l1 ++ l2). split_and!.
  - apply (Permutation_cons_inv (a := pow_user c p)). rewrite Hl, !map_app. cbn.
    by rewrite Permutation_middle.
  - rewrite fmap_app. rewrite <- Permutation_middle in Hd. by apply NoDup_cons in Hd as [_ ?].
  - intros p'. rewrite lookup_delete_is_Some, <- Hp, fmap_app, !elem_of_app, elem_of_cons.
    rewrite fmap_app, elem_of_app in Hnp. split; [|naive_solver]. intros Hx. split; [|tauto].
    intros ->. tauto.
  - intros c' p' j' Hin' [? Hj']%lookup_delete_Some. apply (Hk c' p'); [|done].
    rewrite !elem_of_app, ?elem_of_cons in *. tauto.
Qed.

Section InvLemmas.
Context `{OS : OpenSSL} `{BN : BigNum} `{PR : PowRunner} (g : protocol_globals) (solve : list Z -> Z -> Z).

(** What a callback leaves: it serves the call [u]. *)
Lemma callback_keeps ow e s u fl object now s' :
  matched (u :: fl) (sp_jobs s) -> run_callback g solve ow e s u object now = Ok s' ->
  exists bs, head (sp_queue s') = head (sp_queue s) ++ bs
    /\ matched (map user_data bs ++ fl) (sp_jobs s')
    /\ map rp_user (sp_reports s') ++ waiting (sp_jobs s')
         ≡ₚ map rp_user (sp_reports s) ++ waiting (sp_jobs s)
    /\ shutdown (sp_queue s') = shutdown (sp_queue s)
    /\ (shutdown (sp_queue s) = true -> bs = []).
Proof.
  intros (c & p & j & -> & Hp & Hk & Hm)%matched_next E.
  destruct (run_callback_cases _ _ _ _ _ _ _ _ _ _ _ Hp Hk E)
    as [(r & Hu & Hq & Hd & Hr)|(c' & j' & Hk' & Hu & (b & Hb & Hbu) & Hs & Hs' & Hj & Hr)].
  - exists []. rewrite Hq, Hd, Hr, app_nil_r, map_app. cbn. split_and!; try done.
    rewrite (waiting_delete (sp_jobs s) p j Hp), <- Hu. by rewrite <- app_assoc.
  - exists [b]. rewrite Hb, Hj, Hr, Hs, Hs', (waiting_update (sp_jobs s) p j j') by done. cbn. rewrite Hbu.
    split_and!; try done. rewrite <- insert_delete_eq. apply matched_insert; [done| |done].
    apply lookup_delete_eq.
Qed.

Lemma after_send_inv s p user rc s' :
  pipeline_inv s -> sp_jobs (pl_send s) !! p = None -> sent (pl_send s) p user rc s' ->
  pipeline_inv (after_send s rc user s').
Proof.
  intros [Hm Ha Hc He Hj] Hp [(-> & c & j & Hk & Hu & (b & Hb & Hbu) & Hs & Hs' & Hjobs & Hr)|(Hrc & Hq & Hjobs & Hr)].
  - split; cbn; [| |by intros Hn%Hc; congruence|congruence|done].
    + rewrite Hjobs. apply (matched_perm (pow_user c p :: in_flight s)); [|by apply matched_insert].
      unfold in_flight. cbn. rewrite Hb, !map_app. rewrite <- app_assoc. cbn. rewrite Hbu.
      apply Permutation_middle.
    + rewrite Ha, Hjobs, Hr, waiting_insert, Hu by done. rewrite <- app_assoc.
      f_equiv. symmetry. apply Permutation_cons_append.
  - unfold after_send. destruct (Z.eqb_spec rc 0); [done|].
    split; cbn; rewrite ?Hq, ?Hjobs, ?Hr; try done. unfold in_flight in *. cbn. by rewrite Hq.
Qed.

Lemma pipeline_start_inv max pk m : pipeline_inv (pipeline_start max pk m).
Proof.
  split; cbn; try done. exists []. split_and!; cbn; try done; [apply NoDup_nil_2|].
  intros p. rewrite lookup_empty. split; [by intros ?%elem_of_nil|by intros [? [=]]].
Qed.
End InvLemmas.

Section Accounting.
Context `{OS : OpenSSL} `{BN : BigNum} `{PR : PowRunner} (g : protocol_globals) (solve : list Z -> Z -> Z).

(** A callback of the worker or of the shutdown: the call [u] is taken out of the flight. *)
Lemma callback_inv s w d ow e u object now s' :
  pipeline_inv s -> run_callback g solve ow e (pl_send s) u object now = Ok s' ->
  at_work w = [] ->
  in_flight s ≡ₚ u :: map user_data (head (sp_queue (pl_send s)) ++ to_discard d) ->
  (d <> Not_called -> pl_shutdown s <> Not_called) -> d <> Shut ->
  (forall l, d = Discarding l -> w = At_exit) ->
  pipeline_inv (after_callback s s' w d).
Proof.
  intros [Hm Ha Hc He Hj] E Hw Hf Hd Hns Hx. eapply matched_perm in Hm; [|exact Hf].
  destruct (callback_keeps g solve _ _ _ _ _ _ _ _ Hm E) as (bs & Hb & Hm' & Hr & Hs & Hbs).
  split; cbn.
  - eapply matched_perm; [|exact Hm']. unfold in_flight. cbn. rewrite Hw, Hb, !map_app. cbn.
    rewrite app_assoc. f_equiv. apply Permutation_app_comm.
  - by rewrite Hr.
  - rewrite Hs. auto.
  - rewrite Hs. intros Ht. by rewrite Hb, He, Hbs.
  - split; [done|]. by intros ->.
Qed.

Lemma pipeline_step_inv s s' : pipeline_step g solve s s' -> pipeline_inv s -> pipeline_inv s'.
Proof.
  intros Hs Hi. destruct Hs as
    [s kr ids from to subject body ttl level reuse next now user p rnd rc s' Hp E
    |s kr from subject body ttl now user p e rc s' Hp E|s job q Hw E
    |s job nonce object e now s' Hw Hr Hb E|s job e s' Hw Hr E|s job Hw|s Hw Hsh|s jobs q E
    |s jobs Hd Hw|s job jobs e s' Hd E|s Hd].
  - apply send_message_sent in E; [|done]. by apply (after_send_inv s p).
  - apply send_broadcast_sent in E; [|done]. by apply (after_send_inv s p).
  - destruct Hi as [Hm Ha Hc He [Hj Hj']]. unfold worker_take in E.
    destruct (shutdown (sp_queue (pl_send s))) eqn:Esh; [done|].
    destruct (head (sp_queue (pl_send s))) as [|b rest] eqn:Eh; [done|]. injection E as <- <-.
    split; cbn; rewrite ?Esh; try done.
    + eapply matched_perm; [|exact Hm]. unfold in_flight. cbn. rewrite Hw, Eh, !map_app. cbn.
      by rewrite Permutation_middle.
    + split; [intros l Hl|intros Hl]; rewrite Hl in Hc; by discriminate Hc.
  - eapply callback_inv; [done|exact E|done| |done| |].
    + unfold in_flight. rewrite Hw, !map_app. cbn. by rewrite Permutation_middle.
    + intros Hx. apply Hi in Hx. congruence.
    + intros l Hx. apply Hi in Hx. congruence.
  - eapply callback_inv; [done|exact E|done| |done| |].
    + unfold in_flight. rewrite Hw, !map_app. cbn. by rewrite Permutation_middle.
    + intros Hx. apply Hi in Hx. congruence.
    + intros l Hx. apply Hi in Hx. congruence.
  - destruct Hi as [Hm Ha Hc He [Hj Hj']]. split; cbn; try done.
    + unfold in_flight in *. cbn. by rewrite Hw in Hm.
    + split; [intros l Hl|intros Hl]; [apply Hj in Hl|apply Hj' in Hl]; congruence.
  - destruct Hi as [Hm Ha Hc He Hj]. split; cbn; try done.
    + unfold in_flight in *. cbn. by rewrite Hw in Hm.
  - destruct Hi as [Hm Ha Hc He Hj]. unfold bm_pow_queue_shutdown in E.
    destruct (shutdown (sp_queue (pl_send s))) eqn:Esh; [done|]. injection E as <- <-.
    split; cbn; try done.
    eapply matched_perm; [|exact Hm]. unfold in_flight. cbn.
    assert (Hn : to_discard (pl_shutdown s) = []).
    { destruct (pl_shutdown s); cbn; try done; by discriminate Hc. }
    rewrite Hn, app_nil_r, !map_app. apply Permutation_app_comm.
  - destruct Hi as [Hm Ha Hc He Hj]. split; cbn; try done.
    + unfold in_flight in *. cbn. by rewrite Hd in Hm.
    + intros _. apply Hc. congruence.
  - eapply callback_inv; [done|exact E| | | | |].
    + destruct Hi as [_ _ _ _ [Hj _]]. by rewrite (Hj _ Hd).
    + destruct Hi as [_ _ _ _ [Hj _]]. unfold in_flight. rewrite (Hj _ Hd), Hd, !map_app. cbn.
      by rewrite Permutation_middle.
    + congruence.
    + done.
    + intros l _. destruct Hi as [_ _ _ _ [Hj _]]. by rewrite (Hj _ Hd).
  - destruct Hi as [Hm Ha Hc He [Hj Hj']]. split; cbn; try done.
    + unfold in_flight in *. cbn. by rewrite Hd in Hm.
    + intros _. apply Hc. congruence.
    + split; [done|]. intros _. by apply (Hj _ Hd).
Qed.

Lemma pipeline_reachable_inv max pk m s :
  rtc (pipeline_step g solve) (pipeline_start max pk m) s -> pipeline_inv s.
Proof.
  intros H. assert (Hi := pipeline_start_inv max pk m). revert Hi.
  induction H as [|s1 s2 s3 H1 _ IH]; [done|]. intros Hi. by apply IH, (pipeline_step_inv s1).
Qed.

Lemma matched_length fl jobs : matched fl jobs -> NoDup fl /\ length fl = size jobs.
Proof.
  intros (l & Hl & Hd & Hp & _).
  assert (Hj : map user_job (map (fun cp => pow_user cp.1 cp.2) l) = l.*2).
  { rewrite map_map. apply map_ext. intros [c p]. apply pow_user_callback. }
  split.
  - rewrite Hl. apply (NoDup_fmap_1 user_job). rewrite <- Hj in Hd. exact Hd.
  - rewrite Hl, length_map, <- (length_fmap snd), <- (size_list_to_set (C := gset Z)) by done.
    rewrite <- (size_dom (D := gset Z)). f_equiv. apply set_eq. intros p.
    by rewrite elem_of_list_to_set, elem_of_dom.
Qed.

(** C16: no send is lost and none is reported twice.  Whatever sends, broadcasts, proofs of
    work, cancellations and shutdown steps have happened, the accepted sends are the
    reported ones together with those whose job is on the heap; each of those jobs has
    exactly one call of the proof-of-work queue to come, no callback refers to a freed job,
    and cancelling any of the calls to come ends in a report of its own send with -1 (so a
    shutdown leaves none waiting). *)
Theorem pipeline_reports_once (max : Z) (pk : pubkey_db) (m : messages_db) (s : pipeline) :
  rtc (pipeline_step g solve) (pipeline_start max pk m) s ->
  pl_accepted s ≡ₚ map rp_user (sp_reports (pl_send s)) ++ waiting (sp_jobs (pl_send s))
  /\ length (in_flight s) = size (sp_jobs (pl_send s))
  /\ NoDup (in_flight s)
  /\ (forall u, u ∈ in_flight s -> exists c p j, u = pow_user c p
        /\ sp_jobs (pl_send s) !! p = Some j /\ job_kind c j
        /\ forall ow e now, exists s', run_callback g solve ow e (pl_send s) u None now = Ok s'
             /\ sp_jobs s' = delete p (sp_jobs (pl_send s))
             /\ sp_reports s' = sp_reports (pl_send s)
                  ++ [{| rp_user := job_user j; rp_rc := -1; rp_object := None; rp_now := now |}])
  /\ (pl_shutdown s = Shut ->
      sp_jobs (pl_send s) = ∅ /\ pl_accepted s ≡ₚ map rp_user (sp_reports (pl_send s))).
Proof.
  intros Hs%pipeline_reachable_inv. destruct (matched_length _ _ (inv_matched _ Hs)) as [Hd Hl].
  split_and!; [apply Hs|done|done| |].
  - intros u [fl Hu]%elem_of_Permutation. pose proof (inv_matched _ Hs) as Hm. rewrite Hu in Hm.
    apply matched_next in Hm as (c & p & j & -> & Hp & Hk & _). exists c, p, j. split_and!; [done..|].
    intros ow e now. destruct (run_callback_null g solve ow e _ c p j now Hp Hk) as (s' & E & _ & Hr).
    by exists s'.
  - intros Hsh. assert (Hf : in_flight s = []).
    { unfold in_flight. destruct Hs as [_ _ Hc He [_ Hj]]. rewrite (Hj Hsh), He, Hsh; [done|].
      apply Hc. congruence. }
    rewrite Hf in Hl. symmetry in Hl. apply map_size_empty_iff in Hl. split; [done|].
    rewrite (inv_accounts _ Hs), Hl. unfold waiting. by rewrite map_to_list_empty, app_nil_r.
Qed.
End Accounting.

(** ** Delivery *)

Section Delivery.
Context `{OS : OpenSSL} `{BN : BigNum} `{BL : !BigNumLaws} `{OSL : !OpenSSLLaws}.
Context (g : protocol_globals) (solve : list Z -> Z -> Z).

Lemma mark_used_lookup pk ripe ripe' :
  bm_pubkey_cache_lookup_by_ripe (bm_pubkey_cache_mark_used_personally pk ripe) ripe'
  = bm_pubkey_cache_lookup_by_ripe pk ripe'.
Proof.
  unfold bm_pubkey_cache_lookup_by_ripe, bm_pubkey_cache_mark_used_personally. cbn.
  rewrite lookup_update_where. destruct (pubkey_cache pk !! ripe'); [|done]. cbn. by case_match.
Qed.

Lemma prepare_inv job kr ids pk from to job' pk' :
  prepare_legacy_msg job kr ids pk from to = Ok (job', pk') ->
  bm_identity_store_load ids to = Err ->
  exists fid v cached, bm_keyring_find_by_address kr from = Some fid
    /\ bm_address_decode to = Ok (v, j_to_stream job', j_to_ripe job')
    /\ bm_pubkey_cache_lookup_by_ripe pk (j_to_ripe job') = Ok cached
    /\ j_to_pub_encryption job' = c_encryption_pubkey cached
    /\ j_is_self job' = false
    /\ exists trials extra, job' = job <| j_from_info := sender_info fid |>
         <| j_to_stream := j_to_stream job' |> <| j_to_ripe := j_to_ripe job' |>
         <| j_to_pub_encryption := c_encryption_pubkey cached |> <| j_is_self := false |>
         <| j_required_nonce_trials := trials |> <| j_required_extra_bytes := extra |>
       /\ u_nonce_trials_per_byte fid <= trials /\ u_payload_length_extra_bytes fid <= extra
       /\ (3 <= c_address_version cached -> c_nonce_trials_per_byte cached <= trials
                                           /\ c_payload_length_extra_bytes cached <= extra).
Proof.
  unfold prepare_legacy_msg. intros E Hl. destruct (bm_keyring_find_by_address kr from) as [fid|]; [|done].
  inv_bind E. destruct a as [[v st] ripe]. inv_bind E. destruct a as [[self key] pk1].
  unfold recipient_key in E1. rewrite Hl in E1. inv_bind E1. injection E1 as <- <- <-.
  destruct (recipient_demands _ _) as [trials extra] eqn:Ed. injection E as <- <-.
  exists fid, v, a. split_and!; try done. do 2 eexists. split; [reflexivity|].
  unfold recipient_demands in Ed. rewrite mark_used_lookup, E2 in Ed. unfold larger.
  destruct (Z.geb_spec (c_address_version a) 3); injection Ed as <- <-; repeat case_match; lia.
Qed.
(** What a send to a foreign address puts on the heap and in the queue. *)
Lemma send_message_stage1 ow kr ids s from to subject body ttl level reuse next now user p rnd s1 :
  bm_identity_store_load ids to = Err ->
  bm_send_pipeline_send_message_async g solve true ow kr ids s from to subject body ttl level reuse next now
    user p rnd = Ok (0, s1) ->
  exists fid v cached j a id, bm_keyring_find_by_address kr from = Some fid
    /\ bm_address_decode to = Ok (v, j_to_stream j, j_to_ripe j)
    /\ bm_pubkey_cache_lookup_by_ripe (sp_pubkeys s) (j_to_ripe j) = Ok cached
    /\ j_to_pub_encryption j = c_encryption_pubkey cached
    /\ u_nonce_trials_per_byte fid <= j_required_nonce_trials j
    /\ u_payload_length_extra_bytes fid <= j_required_extra_bytes j
    /\ (3 <= c_address_version cached -> c_nonce_trials_per_byte cached <= j_required_nonce_trials j
                                         /\ c_payload_length_extra_bytes cached <= j_required_extra_bytes j)
    /\ j = (new_msg_job true from to subject body ttl level next now user)
             <| j_from_info := sender_info fid |> <| j_to_stream := j_to_stream j |>
             <| j_to_ripe := j_to_ripe j |> <| j_to_pub_encryption := j_to_pub_encryption j |>
             <| j_required_nonce_trials := j_required_nonce_trials j |>
             <| j_required_extra_bytes := j_required_extra_bytes j |>
             <| j_msg_id := id |> <| j_key := 83 :: id |>
    /\ sp_jobs s1 !! p = Some (Msg_job j)
    /\ head (sp_queue s1) = head (sp_queue s) ++ [a] /\ user_data a = pow_user ACK_POW_DONE p.
Proof.
  intros Hl. unfold bm_send_pipeline_send_message_async.
  destruct (prepare_legacy_msg _ _ _ _ _ _) as [[j pk]| |] eqn:Ep; [|done|done].
  destruct (prepare_inv _ _ _ _ _ _ _ _ Ep Hl)
    as (fid & v & cached & Hf & Hd & Hc & He & Hself & trials & extra & Ej & Ht & Hx & H3).
  destruct (match reuse with Some id => Some id | None => _ end) as [id|]; [|done].
  set (j' := j <| j_msg_id := id |> <| j_key := 83 :: id |>).
  change (j_is_self j') with (j_is_self j). rewrite Hself.
  destruct (build_ack_payload _ _ _ _) as [data| |]; [|done|done]. intros E. inv_bind E.
  unfold submit_stage in E. inv_bind E. destruct a0 as [rc s2].
  apply pow_submit_cases in E1 as [(-> & _ & _ & (b & Hb & Hu & _) & Hs')|(Hrc & ->)];
    [|by injection E as -> _].
  injection E as <-. exists fid, v, cached, j', b, id. rewrite Hs'. cbn [sp_jobs sp_queue].
  assert (Et : j_required_nonce_trials j' = trials) by (unfold j'; by rewrite Ej).
  assert (Ee : j_required_extra_bytes j' = extra) by (unfold j'; by rewrite Ej).
  assert (Ek : j_to_pub_encryption j' = c_encryption_pubkey cached) by done.
  rewrite Et, Ee, Ek. split_and!; try done; [|apply lookup_insert_eq].
  unfold j' at 1. rewrite Ej at 1. done.
Qed.

Lemma ack_stage ow e s p j ack now s' m :
  sp_jobs s !! p = Some (Msg_job j) -> j_queued j = true ->
  run_callback g solve ow e s (pow_user ACK_POW_DONE p) (Some ack) now = Ok s' ->
  head (sp_queue s') = head (sp_queue s) ++ [m] ->
  exists packet, bm_create_packet g (cstr "object"%string) ack = Ok packet
    /\ build_msg_payload j (Some packet) (blen packet) e = Ok (payload m)
    /\ bm_pow_get_target (blen (payload m)) (j_ttl_seconds j) (j_required_nonce_trials j)
         (j_required_extra_bytes j) = Ok (target m)
    /\ user_data m = pow_user MSG_POW_DONE p
    /\ sp_jobs s' !! p = Some (Msg_job (j <| j_ack_data := Some ack |>)).
Proof.
  intros Hp Hq E Hm. unfold run_callback in E. destruct (pow_user_callback ACK_POW_DONE p) as [E1 E2].
  rewrite E1, E2 in E. clear E1 E2. unfold ack_pow_done in E. unfold deref_msg at 1 in E. rewrite Hp in E.
  rewrite bind_ok in E. cbv beta iota in E.
  assert (Hf : forall s0 j0, sp_jobs s0 !! p = Some (Msg_job j0) -> sp_queue s0 = sp_queue s ->
            msg_job_fail s0 p now = Ok s' -> False).
  { intros s0 j0 H0 Hq0 (r & _ & Hx & _)%(msg_job_fails _ _ j0); [|done]. rewrite Hx, Hq0 in Hm.
    apply (f_equal length) in Hm. rewrite length_app in Hm. cbn in Hm. lia. }
  destruct (bm_create_packet _ _ _) as [packet| |] eqn:Ec; [|by apply (Hf s j) in E|done].
  exists packet. split; [done|]. set (j' := j <| j_ack_data := Some ack |>) in *.
  set (s1 := store_job s p (Msg_job j')) in *.
  assert (H1 : sp_jobs s1 !! p = Some (Msg_job j')) by apply lookup_insert_eq.
  unfold build_and_submit_msg in E. unfold deref_msg at 1 in E. rewrite H1, bind_ok in E. cbv beta iota in E.
  change (build_msg_payload j' (Some packet) (blen packet) e)
    with (build_msg_payload j (Some packet) (blen packet) e) in E.
  destruct (build_msg_payload j _ _ _) as [data| |]; [|by apply (Hf s1 j') in E|done].
  inv_bind E. inv_bind E. destruct a0 as [rc s2]. change (j_queued j') with (j_queued j) in E1.
  rewrite Hq in E1. apply pow_submit_cases in E1 as [(-> & _ & _ & (b & Hb & Hu & Hd & Ht) & Hs')|(Hrc & ->)].
  - injection E as <-. rewrite Hb in Hm. cbn in Hm. apply app_inj_tail in Hm as [_ <-].
    rewrite Hd, Ht. split_and!; try done. by rewrite Hs'.
  - destruct (Z.eqb_spec rc 0); [done|]. by apply (Hf s1 j') in E.
Qed.
(** C15: a message to another node's address, with a subject of one line and at most 500 bytes
    (of any other the recipient keeps less), arrives and can be acknowledged.  Once
    [bm_send_pipeline_send_message_async] has accepted it, the callbacks of its two proofs
    of work, whatever the node does in between, end in a report of success with an object
    that the recipient (the holder of the private key of the cached public key) decrypts
    to the sender, the subject, the body and, without a chan, a packet of the very ack
    whose data the row of the sent message waits for; and the second proof of work meets
    at least the demands of the sender and of the recipient's public key. *)
Theorem send_message_delivers kr ids s from to subject body ttl level reuse next now user p rnd s1
    fid idn post v cached t1 n1 ack e1 now1 s2 a m t2 n2 o e2 now2 s3 :
  blen (bm_magicbytes g) = 4 ->
  bm_keyring_find_by_address kr from = Some fid -> identity_ok (sender_info fid) ->
  uncompressed (u_pub_encryption fid) ->
  bm_address_get_public_key (u_priv_signing fid) = Ok (u_pub_signing fid) ->
  bm_identity_store_load ids to = Err -> (exists st, bm_address_decode to = Ok (v, st, u_ripe idn)) ->
  bm_pubkey_cache_lookup_by_ripe (sp_pubkeys s) (u_ripe idn) = Ok cached ->
  bm_address_get_public_key (u_priv_encryption idn) = Ok (c_encryption_pubkey cached) ->
  (10 ∉ subject) -> blen subject <= 500 -> blen body < 2 ^ 61 ->
  bm_send_pipeline_send_message_async g solve true false kr ids s from to subject body ttl level reuse next now
    user p rnd = Ok (0, s1) ->
  head (sp_queue s1) = head (sp_queue s) ++ [a] ->
  sp_jobs t1 !! p = sp_jobs s1 !! p -> build_object (payload a) n1 = Ok ack -> blen ack < 2 ^ 60 ->
  (forall iv, e_iv e1 = Some iv -> blen iv = 16) ->
  run_callback g solve true e1 t1 (user_data a) (Some ack) now1 = Ok s2 ->
  head (sp_queue s2) = head (sp_queue t1) ++ [m] ->
  sp_jobs t2 !! p = sp_jobs s2 !! p -> is_u64 n2 -> build_object (payload m) n2 = Ok o ->
  run_callback g solve true e2 t2 (user_data m) (Some o) now2 = Ok s3 ->
  sp_reports s3 = sp_reports t2 ++ [{| rp_user := user; rp_rc := 0; rp_object := Some o; rp_now := now2 |}]
  /\ sp_jobs s3 = delete p (sp_jobs t2)
  /\ (exists id row, m_sent (sp_messages s3) !! id = Some row /\ s_ack_data row = ack /\ s_status row = SENT)
  /\ (exists packet addr, bm_create_packet g (cstr "object"%string) ack = Ok packet
      /\ bm_address_encode (u_address_version fid) (u_stream fid)
           (keys_ripe (u_pub_signing fid) (u_pub_encryption fid)) = Ok addr
      /\ bm_trial_decrypt_msg (idn :: post) o
         = Ok {| dm_from_address_version := u_address_version fid; dm_from_stream := u_stream fid;
                 dm_from_address := snprintf_address addr;
                 dm_to_address := snprintf_address (u_address idn);
                 dm_subject := Some subject; dm_body := Some body;
                 dm_ack_payload := if u_is_chan idn then None else Some packet |})
  /\ (exists trials extra, bm_pow_get_target (blen (payload m)) ttl trials extra = Ok (target m)
      /\ u_nonce_trials_per_byte fid <= trials /\ u_payload_length_extra_bytes fid <= extra
      /\ (3 <= c_address_version cached -> c_nonce_trials_per_byte cached <= trials
                                          /\ c_payload_length_extra_bytes cached <= extra)).
Proof.
  intros Hg Hf Hid Hu Hks Hself [st Hd] Hc Hkr Hs1 Hs2 Hb Es Ha Ht1 Eo1 Hack Hiv E1 Hm Ht2 Hn2 Eo2 E2.
  destruct (send_message_stage1 _ _ _ _ _ _ _ _ _ _ _ _ _ _ _ _ _ Hself Es)
    as (fid' & v' & cached' & j & a' & id & Hf' & Hd' & Hc' & He & Hx1 & Hx2 & Hx3 & Ej & Hj & Ha' & Hua).
  rewrite Hf in Hf'. injection Hf' as <-. rewrite Hd in Hd'. injection Hd' as <- Hst Hri.
  rewrite <- Hri, Hc in Hc'. injection Hc' as <-.
  rewrite Ha in Ha'. apply app_inj_tail in Ha' as [_ <-]. rewrite Hua in E1. rewrite Hj in Ht1.
  destruct (ack_stage _ _ _ _ _ _ _ _ _ Ht1 ltac:(by rewrite Ej) E1 Hm)
    as (packet & Ep & Em & Et & Hum & Hj2).
  rewrite Hj2 in Ht2. rewrite Hum in E2. unfold run_callback in E2.
  destruct (pow_user_callback MSG_POW_DONE p) as [U1 U2]. rewrite U1, U2 in E2. clear U1 U2.
  unfold msg_pow_done, deref_msg in E2. rewrite Ht2, bind_ok in E2. cbv beta iota in E2.
  apply build_object_inv in Eo2. injection E2 as <-.
  assert (Fs : j_is_self j = false) by (by rewrite Ej). assert (Fu : j_user_data j = user) by (by rewrite Ej).
  assert (Ft : j_ttl_seconds j = ttl) by (by rewrite Ej).
  assert (Fi : j_from_info j = sender_info fid) by (by rewrite Ej).
  assert (Fx : j_expires_time j = u64 (now + ttl)) by (by rewrite Ej).
  assert (Fb : j_subject j = subject /\ j_body j = body) by (by rewrite Ej). destruct Fb as [Fsu Fbo].
  clear Ej. cbn [sp_reports sp_jobs sp_messages]. rewrite Ft in Et. split_and!.
  - change (j_user_data _) with (j_user_data j). by rewrite Fu.
  - done.
  - change (j_is_self _) with (j_is_self j). rewrite Fs. exists (j_msg_id j).
    change (m_sent _) with (m_sent (bm_messages_store_insert_sent (sp_messages t2) (j_msg_id j) ack
      (j_to_address j) (j_from_address j) (j_subject j) (j_body j) SENT (j_ack_stealth_level j) now2
      (s64 (j_ttl_seconds j)) (j_next_resend_time j))).
    unfold bm_messages_store_insert_sent, with_sent. cbn [m_sent]. rewrite lookup_upsert, decide_True by done. eexists. split; [reflexivity|]. by case_match.
  - destruct (bm_address_decode_sound to) as [_ Hds]. destruct (Hds _ _ _ Hd) as (_ & Hst64 & Hr20 & _).
    rewrite create_packet_eq in Ep by done. injection Ep as <-.
    unfold build_msg_payload in Em. rewrite Fi, Fx, Fsu, Fbo, <- Hri, He in Em.
    rewrite Hst in Hst64. subst o. pose proof (blen_nonneg ack).
    edestruct (build_msg_decrypts (sender_info fid) idn [] post) as (addr & Ea & Ed);
      [exact Hid|exact Hu|exact Hks|exact Hkr|exact Hr20|exact Hn2|apply u64_range|exact Hst64|exact Hs1
      |exact Hs2|exact Hb| |exact Hiv|exact Em|by intros i ?%elem_of_nil|].
    { rewrite blen_packet by done. lia. }
    eexists _, addr. split_and!; [by apply create_packet_eq|exact Ea|]. cbn [app] in Ed. rewrite Ed.
    f_equal. f_equal. rewrite blen_packet by done. destruct (Z.gtb_spec (24 + blen ack) 0); [|lia].
    by destruct (u_is_chan idn).
  - by exists (j_required_nonce_trials j), (j_required_extra_bytes j).
Qed.
End Delivery.

(** ** Witnesses *)

Section PipelineWitnesses.
#[local] Existing Instance toy_OpenSSL.
#[local] Existing Instance toy_OpenSSLLaws.

Definition pipe_sender : bm_unlocked_identity :=
  {| u_address := cstr "BM-2cSender"%string; u_ripe := replicate 20 6; u_priv_signing := replicate 32 3;
     u_priv_encryption := replicate 32 7; u_pub_signing := toy_mul (replicate 32 3);
     u_pub_encryption := toy_mul (replicate 32 7); u_address_version := 4; u_stream := 1;
     u_nonce_trials_per_byte := 1000; u_payload_length_extra_bytes := 1000; u_is_chan := false;
     u_unlocked_at := 0 |}.
Definition pipe_to : list Z :=
  match bm_address_encode 4 1 (u_ripe to_example) with Ok a => a | _ => [] end.
Definition pipe_key : bm_cached_pubkey :=
  {| c_ripe := u_ripe to_example; c_tag := replicate 32 0; c_address_version := 4; c_stream := 1;
     c_behavior_bitfield := 1; c_signing_pubkey := u_pub_signing to_example;
     c_encryption_pubkey := u_pub_encryption to_example; c_nonce_trials_per_byte := 2000;
     c_payload_length_extra_bytes := 500 |}.
Definition pipe_0 : pipe_state :=
  pl_send (pipeline_start 8 (bm_pubkey_cache_upsert empty_pubkey_db pipe_key 1) bm_messages_store_init_schema).
Definition pipe_random : send_random :=
  {| sr_random32 := Some (replicate 32 1); sr_dummy_priv := None; sr_len_seed := None;
     sr_message := fun _ => None; sr_ack_entropy := entropy_example; sr_msg_id := Some (replicate 32 2);
     sr_msg_entropy := entropy_example |}.
Definition pipe_send : cres (Z * pipe_state) :=
  bm_send_pipeline_send_message_async protocol_initial (fun _ _ => 0) true false [pipe_sender]
    bm_identity_store_init_schema pipe_0 (u_address pipe_sender) pipe_to (cstr "hi"%string)
    (cstr "there"%string) 3600 0 None 1700014400 1700000000 77 9 pipe_random.
Definition state_of (r : cres (Z * pipe_state)) : pipe_state := match r with Ok (_, s) => s | _ => pipe_0 end.
Definition first_job (s : pipe_state) : bm_pow_job := nth 0 (head (sp_queue s)) job_1.
(** The worker takes the first job and runs its callback. *)
Definition pipe_work (s : pipe_state) (nonce now : Z) : list Z * pipe_state * pipe_state :=
  let b := first_job s in
  let t := match worker_take (sp_queue s) with Some (_, q) => s <| sp_queue := q |> | None => s end in
  let o := match build_object (payload b) nonce with Ok o => o | _ => [] end in
  (o, t, match run_callback protocol_initial (fun _ _ => 0) true entropy_example t (user_data b) (Some o) now
         with Ok s => s | _ => t end).
Definition pipe_1 : pipe_state := state_of pipe_send.
Definition pipe_ack : list Z * pipe_state * pipe_state := pipe_work pipe_1 5 1700000010.
Definition pipe_msg : list Z * pipe_state * pipe_state := pipe_work pipe_ack.2 6 1700000020.

Lemma send_message_delivers_witness :
  sp_reports pipe_msg.2
  = sp_reports pipe_msg.1.2 ++ [{| rp_user := 77; rp_rc := 0; rp_object := Some pipe_msg.1.1;
                                   rp_now := 1700000020 |}]
  /\ sp_jobs pipe_msg.2 = delete 9 (sp_jobs pipe_msg.1.2).
Proof.
  edestruct (send_message_delivers protocol_initial (fun _ _ => 0) [pipe_sender]
    bm_identity_store_init_schema pipe_0 (u_address pipe_sender) pipe_to (cstr "hi"%string)
    (cstr "there"%string) 3600 0 None 1700014400 1700000000 77 9 pipe_random pipe_1 pipe_sender to_example
    [] 4 pipe_key pipe_ack.1.2 5 pipe_ack.1.1 entropy_example 1700000010 pipe_ack.2 (first_job pipe_1)
    (first_job pipe_ack.2) pipe_msg.1.2 6 pipe_msg.1.1 entropy_example 1700000020 pipe_msg.2)
    as (H1 & H2 & _); [..|exact (conj H1 H2)].
  - by vm_compute.
  - by vm_compute.
  - unfold identity_ok, is_u64. cbn -[blen toy_mul]. split_and!; (lia || by vm_compute).
  - split; by vm_compute.
  - by vm_compute.
  - by vm_compute.
  - exists 1. by vm_compute.
  - by vm_compute.
  - by vm_compute.
  - apply (bool_decide_unpack _). by vm_compute.
  - by vm_compute.
  - by vm_compute.
  - by vm_compute.
  - by vm_compute.
  - by vm_compute.
  - by vm_compute.
  - by vm_compute.
  - by intros iv [= <-].
  - by vm_compute.
  - by vm_compute.
  - by vm_compute.
  - unfold is_u64. lia.
  - by vm_compute.
  - by vm_compute.
Defined.

Lemma pipeline_reports_once_witness :
  let s := after_send (pipeline_start 8 (sp_pubkeys pipe_0) (sp_messages pipe_0)) 0 77 pipe_1 in
  [77] ≡ₚ map rp_user (sp_reports (pl_send s)) ++ waiting (sp_jobs (pl_send s))
  /\ length (in_flight s) = size (sp_jobs (pl_send s)).
Proof.
  intros s.
  destruct (pipeline_reports_once protocol_initial (fun _ _ => 0) 8 (sp_pubkeys pipe_0) (sp_messages pipe_0) s)
    as (H1 & H2 & _); [|exact (conj H1 H2)].
  apply rtc_once. eapply (pipe_message _ _ _ [pipe_sender] bm_identity_store_init_schema
    (u_address pipe_sender) pipe_to (cstr "hi"%string) (cstr "there"%string) 3600 0 None 1700014400
    1700000000 77 9 pipe_random).
  - by vm_compute.
  - by vm_compute.
Defined.
End PipelineWitnesses.
