(* ===== verification/Dandelion.v ===== *)
(** * infra/dandelion.c

    The propagation decision of the node (stem or fluff) and the table of object
    hashes it is taken from: an array of entries with an open-addressing index
    beside it.  Every critical section of the module's mutex is a function of the
    module's state (all operations are one, the reshuffle is two).  Random delays, the peer drawn by the peer registry and the
    object store's answers are arguments.

    A loop that would not end is [Ub], as in C. *)

From stdpp Require Import base tactics list numbers option relations.
From S2P Require Import Prelude.

Definition BM_DANDELION_EPOCH_SECONDS : Z := 600.
Definition BM_DANDELION_TIMEOUT_BASE_SECONDS : Z := 10.
Definition BM_DANDELION_ENTRY_PRUNE_AGE_SECONDS : Z := 300.
Definition BM_DANDELION_MAX_EXPIRE_PER_CALL : Z := 64.
Definition BM_DANDELION_INDEX_INITIAL_CAPACITY : Z := 128.
Definition BM_DANDELION_INDEX_EMPTY : Z := 2 ^ 64 - 1.
Definition BM_PEER_IP_STRLEN : Z := 64.

(** ** State *)

Record dandelion_entry := {
  hash : list Z;
  fluff_deadline : Z;
  fluffed_at : Z;
  learned_via_plain_inv : bool;
}.

(** [entries] holds the first [entry_count] elements of the C array, which has room
    for [entry_capacity]; [stem_ip] is the C string; the index has [index_capacity] = [blen index_slots] slots. *)
Record dandelion_state := {
  stem_ip : list Z;
  stem_port : Z;
  has_stem : bool;
  epoch_started : Z;
  entries : list dandelion_entry;
  entry_capacity : Z;
  index_slots : list Z;
}.

Inductive bm_propagation_mode :=
| BM_PROPAGATE_FLUFF
| BM_PROPAGATE_STEM
| BM_PROPAGATE_SKIP.

Definition entry_count (s : dandelion_state) : Z := Z.of_nat (length (entries s)).
Definition index_capacity (s : dandelion_state) : Z := blen (index_slots s).

Definition with_entries (s : dandelion_state) (es : list dandelion_entry) : dandelion_state :=
  {| stem_ip := stem_ip s; stem_port := stem_port s; has_stem := has_stem s;
     epoch_started := epoch_started s; entries := es; entry_capacity := entry_capacity s;
     index_slots := index_slots s |}.

Definition with_index (s : dandelion_state) (slots : list Z) : dandelion_state :=
  {| stem_ip := stem_ip s; stem_port := stem_port s; has_stem := has_stem s;
     epoch_started := epoch_started s; entries := entries s;
     entry_capacity := entry_capacity s; index_slots := slots |}.

Definition bm_dandelion_module_init : dandelion_state :=
  {| stem_ip := []; stem_port := 0; has_stem := false; epoch_started := 0;
     entries := []; entry_capacity := 0; index_slots := [] |}.

(** [g_state.entries[idx]] *)
Definition entry_at (es : list dandelion_entry) (idx : Z) : cres dandelion_entry :=
  if 0 <=? idx then match es !! Z.to_nat idx with Some e => Ok e | None => Ub end else Ub.

(** ** The index *)

(** The first eight bytes as an integer of the (little-endian) machine. *)
Definition index_key (h : list Z) : cres Z :=
  b ← rdn h 0 8; Ok (be_combine (reverse b)).

Definition next_slot (slots : list Z) (slot : Z) : Z := u64 (slot + 1) mod blen slots.

(** [while (slots[slot] != EMPTY) slot = (slot + 1) % capacity;] *)
Fixpoint probe_free (fuel : nat) (slots : list Z) (slot : Z) : cres Z :=
  match fuel with
  | O => Ub
  | S fuel =>
      v ← rd slots slot;
      if v =? BM_DANDELION_INDEX_EMPTY then Ok slot
      else probe_free fuel slots (next_slot slots slot)
  end.

(** Where [h] is entered: the loop and the store after it. *)
Definition index_put (slots : list Z) (h : list Z) (i : Z) : cres (list Z) :=
  k ← index_key h;
  if blen slots =? 0 then Ub else
  slot ← probe_free (length slots) slots (k mod blen slots);
  Ok (<[Z.to_nat slot := i]> slots).

Fixpoint rebuild_loop (slots : list Z) (i : Z) (es : list dandelion_entry) : cres (list Z) :=
  match es with
  | [] => Ok slots
  | e :: es => slots ← index_put slots (hash e) i; rebuild_loop slots (u64 (i + 1)) es
  end.

Definition index_rebuild (s : dandelion_state) (capacity : Z) : cres dandelion_state :=
  let slots := replicate (Z.to_nat capacity) BM_DANDELION_INDEX_EMPTY in
  slots ← rebuild_loop slots 0 (entries s);
  Ok (with_index s slots).

Definition index_ensure_capacity (s : dandelion_state) : cres dandelion_state :=
  if index_capacity s =? 0 then index_rebuild s BM_DANDELION_INDEX_INITIAL_CAPACITY else
  if u64 ((entry_count s + 1) * 2) >? index_capacity s
  then index_rebuild s (u64 (index_capacity s * 2))
  else Ok s.

Fixpoint lookup_loop (probes : nat) (s : dandelion_state) (h : list Z) (slot : Z) : cres Z :=
  match probes with
  | O => Ok BM_DANDELION_INDEX_EMPTY
  | S probes =>
      idx ← rd (index_slots s) slot;
      if idx =? BM_DANDELION_INDEX_EMPTY then Ok BM_DANDELION_INDEX_EMPTY else
      e ← entry_at (entries s) idx;
      if list_eqb (hash e) h then Ok idx
      else lookup_loop probes s h (next_slot (index_slots s) slot)
  end.

Definition index_lookup (s : dandelion_state) (h : list Z) : cres Z :=
  if index_capacity s =? 0 then Ok BM_DANDELION_INDEX_EMPTY else
  k ← index_key h;
  lookup_loop (length (index_slots s)) s h (k mod index_capacity s).

(** ** Entries *)

(** [delay]: the draw from [exponential_random].  The result is the position of
    the entry. *)
Definition find_or_create_entry (s : dandelion_state) (h : list Z) (now delay : Z)
  : cres (Z * dandelion_state) :=
  existing ← index_lookup s h;
  if negb (existing =? BM_DANDELION_INDEX_EMPTY) then Ok (existing, s) else
  let cap := if entry_count s >=? entry_capacity s then
               if entry_capacity s =? 0 then 64 else u64 (entry_capacity s * 2)
             else entry_capacity s in
  let new_index := entry_count s in
  if new_index >=? cap then Ub else
  h32 ← rdn h 0 32;
  t ← int64 (now + BM_DANDELION_TIMEOUT_BASE_SECONDS);
  deadline ← int64 (t + delay);
  let e := {| hash := h32; fluff_deadline := deadline; fluffed_at := 0;
              learned_via_plain_inv := false |} in
  let s := {| stem_ip := stem_ip s; stem_port := stem_port s; has_stem := has_stem s;
              epoch_started := epoch_started s; entries := entries s ++ [e];
              entry_capacity := cap; index_slots := index_slots s |} in
  s ← index_ensure_capacity s;
  if index_capacity s =? 0 then Ok (new_index, s) else
  slots ← index_put (index_slots s) h new_index;
  Ok (new_index, with_index s slots).

(** A store through the pointer the function above returns. *)
Definition set_entry (s : dandelion_state) (i : Z) (f : dandelion_entry -> dandelion_entry)
  : dandelion_state :=
  with_entries s (alter f (Z.to_nat i) (entries s)).

Definition mark_learned (e : dandelion_entry) : dandelion_entry :=
  {| hash := hash e; fluff_deadline := fluff_deadline e; fluffed_at := fluffed_at e;
     learned_via_plain_inv := true |}.

Definition mark_fluffed (now : Z) (e : dandelion_entry) : dandelion_entry :=
  {| hash := hash e; fluff_deadline := fluff_deadline e; fluffed_at := now;
     learned_via_plain_inv := learned_via_plain_inv e |}.

(** ** The module's operations *)

Definition bm_dandelion_note_source (s : dandelion_state) (h : list Z) (is_dinv : bool)
    (now delay : Z) : cres dandelion_state :=
  if is_dinv then Ok s else
  '(i, s) ← find_or_create_entry s h now delay;
  Ok (set_entry s i mark_learned).

(** The two critical sections of the reshuffle: is the epoch over (and then a new one
    starts now), and the outcome of the draw between them.  [picked]: what
    [bm_peer_registry_pick_random_dandelion_peer] found. *)
Definition reshuffle_begin (s : dandelion_state) (now : Z) : cres (bool * dandelion_state) :=
  current ← (if epoch_started s =? 0 then Ok false else
             d ← int64 (now - epoch_started s); Ok (d <? BM_DANDELION_EPOCH_SECONDS));
  if current : bool then Ok (false, s) else
  Ok (true, {| stem_ip := stem_ip s; stem_port := stem_port s; has_stem := has_stem s;
               epoch_started := now; entries := entries s; entry_capacity := entry_capacity s;
               index_slots := index_slots s |}).

Definition reshuffle_set (s : dandelion_state) (picked : option (list Z * Z)) : dandelion_state :=
  match picked with
  | Some (ip, port) =>
      {| stem_ip := take (Z.to_nat (BM_PEER_IP_STRLEN - 1)) ip; stem_port := port;
         has_stem := true; epoch_started := epoch_started s; entries := entries s;
         entry_capacity := entry_capacity s; index_slots := index_slots s |}
  | None =>
      {| stem_ip := stem_ip s; stem_port := stem_port s;
         has_stem := false; epoch_started := epoch_started s; entries := entries s;
         entry_capacity := entry_capacity s; index_slots := index_slots s |}
  end.

Definition bm_dandelion_maybe_reshuffle (s : dandelion_state) (picked : option (list Z * Z))
    (now : Z) : cres dandelion_state :=
  '(expired, s) ← reshuffle_begin s now;
  Ok (if expired : bool then reshuffle_set s picked else s).

(** [target_connection]: the address and port it resolves to; [None]: NULL. *)
Definition bm_dandelion_decide (s : dandelion_state) (h : list Z)
    (target_connection : option (list Z * Z)) (now delay : Z)
  : cres (bm_propagation_mode * dandelion_state) :=
  '(i, s) ← find_or_create_entry s h now delay;
  e ← entry_at (entries s) i;
  if negb (fluffed_at e =? 0) || (now >=? fluff_deadline e) || negb (has_stem s)
     || learned_via_plain_inv e
  then Ok (BM_PROPAGATE_FLUFF,
           if fluffed_at e =? 0 then set_entry s i (mark_fluffed now) else s)
  else
  let result := match target_connection with
                | Some (ip, port) =>
                    if (port =? stem_port s) && list_eqb ip (stem_ip s)
                    then BM_PROPAGATE_STEM else BM_PROPAGATE_SKIP
                | None => BM_PROPAGATE_SKIP
                end in
  Ok (result, s).

(** The loop over the entries that marks the expired ones: the entries after it
    and the hashes copied to [to_fluff], [count] of which are there before. *)
Fixpoint expire_loop (now count : Z) (es : list dandelion_entry)
  : list dandelion_entry * list (list Z) :=
  match es with
  | [] => ([], [])
  | e :: rest =>
      if count <? BM_DANDELION_MAX_EXPIRE_PER_CALL then
        if (fluffed_at e =? 0) && (now >=? fluff_deadline e) then
          let '(es', hs) := expire_loop now (count + 1) rest in
          (mark_fluffed now e :: es', hash e :: hs)
        else
          let '(es', hs) := expire_loop now count rest in (e :: es', hs)
      else (es, [])
  end.

(** The entries that are written back. *)
Fixpoint prune_loop (now : Z) (es : list dandelion_entry) : cres (list dandelion_entry) :=
  match es with
  | [] => Ok []
  | e :: rest =>
      old ← (if fluffed_at e =? 0 then Ok false else
             d ← int64 (now - fluffed_at e); Ok (d >? BM_DANDELION_ENTRY_PRUNE_AGE_SECONDS));
      rest ← prune_loop now rest;
      Ok (if old : bool then rest else e :: rest)
  end.

(** [object_pool]: [None] for a NULL database, else which objects it has.  The
    result is the number of expired hashes, those that are broadcast and the
    state. *)
Definition bm_dandelion_expire_and_refluff (s : dandelion_state)
    (object_pool : option (list Z -> bool)) (now : Z) : cres (Z * list (list Z) * dandelion_state) :=
  let '(es, to_fluff) := expire_loop now 0 (entries s) in
  kept ← prune_loop now es;
  let s' := with_entries s kept in
  s' ← (if negb (entry_count s' =? entry_count s) && (index_capacity s' >? 0)
        then index_rebuild s' (index_capacity s') else Ok s');
  let broadcast := match object_pool with
                   | None => []
                   | Some has => filter (fun h => has h = true) to_fluff
                   end in
  Ok (Z.of_nat (length to_fluff), broadcast, s').

Definition bm_dandelion_is_stemming (s : dandelion_state) (h : list Z) : cres bool :=
  idx ← index_lookup s h;
  if idx =? BM_DANDELION_INDEX_EMPTY then Ok false else
  e ← entry_at (entries s) idx;
  Ok (fluffed_at e =? 0).

(** ** Lemmas: the index

    Positions are [(k + p) mod cap] for the hash's key [k]. *)

Definition empty_at (slots : list Z) (i : Z) : Prop :=
  slots !! Z.to_nat i = Some BM_DANDELION_INDEX_EMPTY.
#[export] Instance empty_at_dec slots i : Decision (empty_at slots i).
Proof. unfold empty_at. apply _. Defined.
Definition pos (cap k p : Z) : Z := (k + p) mod cap.

(** The number of slots in use. *)
Definition used (slots : list Z) : Z :=
  Z.of_nat (length (filter (fun v => v <> BM_DANDELION_INDEX_EMPTY) slots)).

Lemma pos_range cap k p : 0 < cap -> 0 <= pos cap k p < cap.
Proof. apply Z.mod_pos_bound. Qed.

Lemma pos_0 cap k : pos cap (k mod cap) 0 = k mod cap.
Proof. unfold pos. by rewrite Z.add_0_r, Zmod_mod. Qed.

Lemma next_slot_pos slots k p :
  0 < blen slots < 2 ^ 63 -> next_slot slots (pos (blen slots) k p) = pos (blen slots) k (p + 1).
Proof.
  intros H. unfold next_slot. pose proof (pos_range (blen slots) k p).
  rewrite u64_small by (unfold is_u64; lia). unfold pos.
  rewrite Zplus_mod_idemp_l. f_equal. lia.
Qed.

Lemma slot_rd slots i : 0 <= i < blen slots -> exists v, rd slots i = Ok v /\ slots !! Z.to_nat i = Some v.
Proof. apply rd_in. Qed.

(** Every slot is met within [cap] probes. *)
Lemma pos_meets cap k t : 0 <= t < cap -> exists p, 0 <= p < cap /\ pos cap k p = t.
Proof.
  intros H. exists ((t - k) mod cap). split; [apply Z.mod_pos_bound; lia|]. unfold pos.
  rewrite Zplus_mod_idemp_r. replace (k + (t - k)) with t by lia. by apply Z.mod_small.
Qed.

Lemma used_lt_empty slots :
  used slots < blen slots -> exists t, 0 <= t < blen slots /\ empty_at slots t.
Proof.
  unfold used, empty_at. intros H.
  destruct (decide (BM_DANDELION_INDEX_EMPTY ∈ slots)) as [Hin|Hin].
  - apply list_elem_of_lookup in Hin as [i Hi]. pose proof (lookup_lt_Some _ _ _ Hi).
    exists (Z.of_nat i). rewrite Nat2Z.id. unfold blen. split; [lia|done].
  - exfalso. enough (E : filter (fun v => v <> BM_DANDELION_INDEX_EMPTY) slots = slots)
      by (rewrite E in H; unfold blen in H; lia).
    clear H. induction slots as [|v slots IH]; [done|]. apply not_elem_of_cons in Hin as [? ?].
    rewrite filter_cons, decide_True by done. by rewrite IH.
Qed.

Lemma used_insert slots t v :
  0 <= t -> empty_at slots t -> v <> BM_DANDELION_INDEX_EMPTY ->
  used (<[Z.to_nat t := v]> slots) = used slots + 1.
Proof.
  unfold used, empty_at. intros Ht He Hv. pose proof (lookup_lt_Some _ _ _ He).
  rewrite (insert_take_drop slots _ v) by done.
  rewrite <- (take_drop_middle slots (Z.to_nat t) _ He) at 3.
  rewrite !filter_app, !length_app, !filter_cons.
  rewrite decide_True by done. rewrite decide_False by (intros X; by apply X). simpl. lia.
Qed.

(** The probing loop stops at the first free slot behind the key's. *)
Lemma probe_free_spec slots k fuel p0 :
  0 < blen slots < 2 ^ 63 ->
  (exists p, p0 <= p < p0 + Z.of_nat fuel /\ empty_at slots (pos (blen slots) k p)) ->
  exists p, p0 <= p < p0 + Z.of_nat fuel
    /\ probe_free fuel slots (pos (blen slots) k p0) = Ok (pos (blen slots) k p)
    /\ empty_at slots (pos (blen slots) k p)
    /\ forall q, p0 <= q < p -> ~ empty_at slots (pos (blen slots) k q).
Proof.
  intros Hc. revert p0. induction fuel as [|fuel IH]; intros p0 (p & Hp & He); [lia|].
  destruct (slot_rd slots (pos (blen slots) k p0)) as (v & Hr & Hv); [apply pos_range; lia|].
  cbn [probe_free]. rewrite Hr, bind_ok.
  destruct (Z.eqb_spec v BM_DANDELION_INDEX_EMPTY) as [->|Hne].
  { exists p0. split_and!; [lia|lia|done|done|]. intros. lia. }
  assert (Hn : ~ empty_at slots (pos (blen slots) k p0)) by (unfold empty_at; congruence).
  assert (p <> p0) by (intros ->; done).
  rewrite next_slot_pos by done.
  destruct (IH (p0 + 1)) as (p' & Hp' & E & He' & Hq); [exists p; split; [lia|done]|].
  exists p'. split_and!; [lia|lia|done|done|]. intros q Hq'.
  destruct (decide (q = p0)) as [->|]; [done|]. apply Hq. lia.
Qed.

Definition key_of (h : list Z) : Z := be_combine (reverse (slice h 0 8)).

Lemma index_key_ok h : blen h = 32 -> index_key h = Ok (key_of h).
Proof. intros. unfold index_key. by rewrite rdn_ok by lia. Qed.

Lemma pos_mod cap k p : pos cap (k mod cap) p = pos cap k p.
Proof. unfold pos. by rewrite Zplus_mod_idemp_l. Qed.

(** The index holds every entry, behind used slots only. *)
Record index_ok (slots : list Z) (es : list dandelion_entry) : Prop := {
  slots_in : forall i v, slots !! i = Some v ->
    v = BM_DANDELION_INDEX_EMPTY \/ 0 <= v < Z.of_nat (length es);
  slots_find : forall i e, es !! i = Some e ->
    exists p, 0 <= p < blen slots
      /\ slots !! Z.to_nat (pos (blen slots) (key_of (hash e)) p) = Some (Z.of_nat i)
      /\ forall q, 0 <= q < p -> ~ empty_at slots (pos (blen slots) (key_of (hash e)) q);
}.

Lemma blen_insert (l : list Z) i v : blen (<[i := v]> l) = blen l.
Proof. unfold blen. by rewrite length_insert. Qed.

Lemma empty_at_insert slots t v i :
  v <> BM_DANDELION_INDEX_EMPTY -> ~ empty_at slots i -> ~ empty_at (<[t := v]> slots) i.
Proof.
  unfold empty_at. intros Hv Hi [(-> & -> & _)|[_ ?]]%list_lookup_insert_Some; done.
Qed.

(** Entering an entry (a new one at the end, or one again) in a table that is not
    full. *)
Lemma index_put_ok slots es es' e v :
  index_ok slots es -> 0 < blen slots < 2 ^ 63 -> used slots < blen slots ->
  (forall i x, es' !! i = Some x -> es !! i = Some x \/ i = v /\ x = e) ->
  (length es <= length es')%nat -> (v < length es')%nat -> Z.of_nat (length es') < 2 ^ 63 ->
  blen (hash e) = 32 ->
  exists slots', index_put slots (hash e) (Z.of_nat v) = Ok slots'
    /\ blen slots' = blen slots /\ used slots' = used slots + 1 /\ index_ok slots' es'.
Proof.
  intros I Hc Hu Hes Hlen Hv Hmax Hh. unfold index_put. rewrite index_key_ok, bind_ok by done.
  zdec. destruct (used_lt_empty slots Hu) as (t & Ht & He).
  destruct (pos_meets (blen slots) (key_of (hash e)) t Ht) as (p0 & Hp0 & <-).
  destruct (probe_free_spec slots (key_of (hash e)) (length slots) 0 Hc) as (p & Hp & E & Hf & Hq).
  { exists p0. unfold blen in *. split; [lia|done]. }
  replace (pos (blen slots) (key_of (hash e)) 0) with (key_of (hash e) mod blen slots) in E
    by (unfold pos; by rewrite Z.add_0_r).
  rewrite E, bind_ok. set (f := pos (blen slots) (key_of (hash e)) p) in *.
  assert (Hfr : 0 <= f < blen slots) by (apply pos_range; lia).
  assert (Hne : Z.of_nat v <> BM_DANDELION_INDEX_EMPTY) by (unfold BM_DANDELION_INDEX_EMPTY; lia).
  eexists. split; [done|]. rewrite blen_insert. split; [done|].
  split; [apply used_insert; [lia|done|done]|]. constructor.
  - intros i x [(_ & <- & _)|[_ Hx]]%list_lookup_insert_Some; [right; lia|].
    apply (slots_in _ _ I) in Hx. lia.
  - intros i x Hx. rewrite blen_insert. destruct (Hes i x Hx) as [Hold|[-> ->]].
    + destruct (slots_find _ _ I i x Hold) as (p' & Hp' & Hs & Hq'). exists p'.
      split_and!; [lia|lia| |].
      * rewrite list_lookup_insert_ne; [done|]. intros Eq. unfold empty_at in Hf.
        rewrite Eq, Hs in Hf. injection Hf as Hf. pose proof (lookup_lt_Some _ _ _ Hold).
        unfold BM_DANDELION_INDEX_EMPTY in Hf. lia.
      * intros q Hqq. by apply empty_at_insert, Hq'.
    + exists p. split_and!; [lia|unfold blen in *; lia| |].
      * apply list_lookup_insert_eq. unfold blen in *. lia.
      * intros q Hqq. apply empty_at_insert; [done|]. apply Hq. lia.
Qed.

(** ** Lookup *)

Definition distinct (es : list dandelion_entry) : Prop := NoDup (map hash es).

Lemma distinct_eq es i j e e' :
  distinct es -> es !! i = Some e -> es !! j = Some e' -> hash e = hash e' -> i = j.
Proof.
  intros D Hi Hj Hh. apply (NoDup_lookup (map hash es) i j (hash e)); [done| |].
  - by apply list_lookup_fmap_Some_2.
  - rewrite Hh. by apply list_lookup_fmap_Some_2.
Qed.

Lemma entry_at_ok es i e : es !! i = Some e -> entry_at es (Z.of_nat i) = Ok e.
Proof. intros H. unfold entry_at. zdec. by rewrite Nat2Z.id, H. Qed.

(** One probe of the lookup. *)
Lemma lookup_loop_step n s h k q :
  index_ok (index_slots s) (entries s) -> 0 < index_capacity s < 2 ^ 63 ->
  Z.of_nat (length (entries s)) < 2 ^ 63 ->
  ~ empty_at (index_slots s) (pos (index_capacity s) k q) ->
  exists i e, index_slots s !! Z.to_nat (pos (index_capacity s) k q) = Some (Z.of_nat i)
    /\ entries s !! i = Some e
    /\ lookup_loop (S n) s h (pos (index_capacity s) k q)
       = (if list_eqb (hash e) h then Ok (Z.of_nat i)
          else lookup_loop n s h (pos (index_capacity s) k (q + 1))).
Proof.
  intros I Hc Hm Hq. unfold index_capacity in *.
  destruct (slot_rd (index_slots s) (pos (blen (index_slots s)) k q)) as (v & Hr & Hv);
    [apply pos_range; lia|].
  destruct (slots_in _ _ I _ _ Hv) as [->|Hin]; [done|].
  destruct (lookup_lt_is_Some_2 (entries s) (Z.to_nat v)) as [e He]; [lia|].
  exists (Z.to_nat v), e. rewrite Z2Nat.id by lia. split_and!; [done|done|].
  cbn [lookup_loop]. rewrite Hr, bind_ok. rewrite (proj2 (Z.eqb_neq _ _))
    by (unfold BM_DANDELION_INDEX_EMPTY; lia).
  rewrite <- (Z2Nat.id v) at 1 by lia. rewrite (entry_at_ok _ _ e), bind_ok by done.
  by rewrite next_slot_pos.
Qed.

Lemma index_lookup_found s i e :
  index_ok (index_slots s) (entries s) -> distinct (entries s) -> 0 < index_capacity s < 2 ^ 63 ->
  Z.of_nat (length (entries s)) < 2 ^ 63 -> entries s !! i = Some e -> blen (hash e) = 32 ->
  index_lookup s (hash e) = Ok (Z.of_nat i).
Proof.
  intros I D Hc Hm Hi Hh. unfold index_lookup. zdec. rewrite index_key_ok, bind_ok by done.
  destruct (slots_find _ _ I i e Hi) as (p & Hp & Hs & Hq). fold (index_capacity s) in *.
  set (k := key_of (hash e)) in *.
  enough (L : forall n q, 0 <= q <= p -> p < q + Z.of_nat n ->
    lookup_loop n s (hash e) (pos (index_capacity s) k q) = Ok (Z.of_nat i)).
  { replace (k mod index_capacity s) with (pos (index_capacity s) k 0)
      by (unfold pos; by rewrite Z.add_0_r).
    apply L; [lia|]. unfold index_capacity, blen in *. lia. }
  induction n as [|n IH]; intros q Hqp Hn; [lia|].
  assert (Hne : ~ empty_at (index_slots s) (pos (index_capacity s) k q)).
  { destruct (decide (q = p)) as [->|]; [|apply Hq; lia]. unfold empty_at. rewrite Hs.
    intros [= Eq]. unfold BM_DANDELION_INDEX_EMPTY in Eq. pose proof (lookup_lt_Some _ _ _ Hi). lia. }
  destruct (lookup_loop_step n s (hash e) k q I Hc Hm Hne) as (j & x & Hj & Hx & ->).
  destruct (list_eqb (hash x) (hash e)) eqn:Eh.
  - apply list_eqb_eq in Eh. by rewrite (distinct_eq _ _ _ _ _ D Hx Hi Eh).
  - destruct (decide (q = p)) as [->|]; [|apply IH; lia]. exfalso. rewrite Hs in Hj.
    injection Hj as Hj. apply Nat2Z.inj in Hj as <-. rewrite Hi in Hx. injection Hx as <-.
    by rewrite list_eqb_refl in Eh.
Qed.

Lemma index_lookup_absent s h :
  index_ok (index_slots s) (entries s) -> index_capacity s < 2 ^ 63 ->
  Z.of_nat (length (entries s)) < 2 ^ 63 -> blen h = 32 -> (h ∉ map hash (entries s)) ->
  index_lookup s h = Ok BM_DANDELION_INDEX_EMPTY.
Proof.
  intros I Hc Hm Hh Ha. unfold index_lookup.
  destruct (Z.eqb_spec (index_capacity s) 0) as [|Hnz]; [done|].
  assert (Hc' : 0 < index_capacity s < 2 ^ 63)
    by (unfold index_capacity in *; pose proof (blen_nonneg (index_slots s)); lia).
  rewrite index_key_ok, bind_ok by done. set (k := key_of h).
  replace (k mod index_capacity s) with (pos (index_capacity s) k 0)
    by (unfold pos; by rewrite Z.add_0_r).
  generalize (length (index_slots s)) as n. intros n. generalize 0 as q.
  induction n as [|n IH]; intros q; [done|].
  destruct (decide (empty_at (index_slots s) (pos (index_capacity s) k q))) as [He|Hne].
  - cbn [lookup_loop]. pose proof (pos_range (index_capacity s) k q ltac:(lia)).
    by rewrite (rd_ok _ _ BM_DANDELION_INDEX_EMPTY) by (done || lia).
  - destruct (lookup_loop_step n s h k q I Hc' Hm Hne) as (j & x & Hj & Hx & ->).
    destruct (list_eqb (hash x) h) eqn:Eh; [|apply IH].
    apply list_eqb_eq in Eh as <-. exfalso. apply Ha.
    by apply list_elem_of_fmap_2, (list_elem_of_lookup_2 _ j).
Qed.

(** ** Rebuilding the index *)

Lemma index_ok_fresh n : index_ok (replicate n BM_DANDELION_INDEX_EMPTY) [].
Proof. constructor; [|done]. intros i v [-> _]%lookup_replicate_1. by left. Qed.

Lemma used_fresh n : used (replicate n BM_DANDELION_INDEX_EMPTY) = 0.
Proof.
  unfold used. induction n as [|n IH]; [done|]. cbn [replicate].
  rewrite filter_cons, decide_False by (intros X; by apply X). done.
Qed.

Lemma rebuild_loop_ok rest slots past :
  index_ok slots past -> used slots = Z.of_nat (length past) -> 0 < blen slots < 2 ^ 63 ->
  Z.of_nat (length (past ++ rest)) < blen slots ->
  Forall (fun e => blen (hash e) = 32) rest ->
  exists slots', rebuild_loop slots (Z.of_nat (length past)) rest = Ok slots'
    /\ blen slots' = blen slots /\ used slots' = Z.of_nat (length (past ++ rest))
    /\ index_ok slots' (past ++ rest).
Proof.
  revert slots past. induction rest as [|e rest IH]; intros slots past I Hu Hc Hlen Hf.
  - exists slots. rewrite app_nil_r. done.
  - inversion_clear Hf as [|? ? He Hr]. cbn [rebuild_loop]. rewrite length_app in Hlen. simpl in Hlen.
    destruct (index_put_ok slots past (past ++ [e]) e (length past) I Hc) as (sl & -> & Hb & Hu' & I').
    + lia.
    + intros i x Hx. apply lookup_app_Some in Hx as [?|[? Hx]]; [by left|right].
      apply list_lookup_singleton_Some in Hx as [? <-]. split; [lia|done].
    + rewrite length_app. lia.
    + rewrite length_app. simpl. lia.
    + rewrite length_app. simpl. lia.
    + done.
    + rewrite bind_ok. rewrite u64_small by (unfold is_u64; lia).
      destruct (IH sl (past ++ [e])) as (sl' & E & Hb' & Hu'' & I''); try done.
      * rewrite Hu', Hu, length_app. simpl. lia.
      * by rewrite Hb.
      * rewrite Hb, <- app_assoc, length_app. simpl. lia.
      * rewrite length_app in E. simpl in E. rewrite Nat2Z.inj_add in E. rewrite <- app_assoc in *.
        exists sl'. split_and!; [exact E|congruence|done|done].
Qed.

Lemma index_rebuild_ok s cap :
  0 < cap < 2 ^ 63 -> entry_count s < cap -> Forall (fun e => blen (hash e) = 32) (entries s) ->
  exists slots, index_rebuild s cap = Ok (with_index s slots) /\ blen slots = cap
    /\ used slots = entry_count s /\ index_ok slots (entries s).
Proof.
  intros Hc Hn Hf. unfold index_rebuild.
  set (fresh := replicate (Z.to_nat cap) BM_DANDELION_INDEX_EMPTY).
  assert (Hb : blen fresh = cap) by (unfold fresh; rewrite blen_replicate; lia).
  destruct (rebuild_loop_ok (entries s) fresh []) as (sl & E & Hb' & Hu & I); try done.
  - apply index_ok_fresh.
  - apply used_fresh.
  - lia.
  - rewrite Hb. done.
  - change (Z.of_nat (length [])) with 0 in E. rewrite E, bind_ok. exists sl.
    split_and!; [done|congruence|done|done].
Qed.

(** ** The invariant of the module *)

Definition entry_ok (e : dandelion_entry) : Prop :=
  blen (hash e) = 32 /\ 0 <= fluffed_at e < 2 ^ 62.

(** At most half of the slots are needed; one entry may be in the index twice. *)
Definition index_room (s : dandelion_state) : Prop :=
  index_capacity s = 0 /\ entries s = [] \/
  128 <= index_capacity s < 2 ^ 63 /\ (entry_count s + 1) * 2 <= index_capacity s
  /\ used (index_slots s) <= entry_count s + 1.

Record dandelion_inv (s : dandelion_state) : Prop := {
  inv_distinct : distinct (entries s);
  inv_entries : Forall entry_ok (entries s);
  inv_capacity : entry_count s <= entry_capacity s;
  inv_index : index_ok (index_slots s) (entries s);
  inv_room : index_room s;
  inv_epoch : 0 <= epoch_started s < 2 ^ 62;
}.

Lemma dandelion_inv_init : dandelion_inv bm_dandelion_module_init.
Proof.
  constructor; [constructor|constructor|done|apply (index_ok_fresh 0)|by left|done].
Qed.

(** Calls at times of this millennium, while the table fits in memory. *)
Definition call_ok (s : dandelion_state) (h : list Z) (now delay : Z) : Prop :=
  blen h = 32 /\ 0 < now < 2 ^ 61 /\ 0 <= delay < 2 ^ 32 /\ entry_count s < 2 ^ 60.

Definition new_entry (h : list Z) (now delay : Z) : dandelion_entry :=
  {| hash := h; fluff_deadline := now + 10 + delay; fluffed_at := 0;
     learned_via_plain_inv := false |}.

Lemma inv_hashes s : dandelion_inv s -> Forall (fun e => blen (hash e) = 32) (entries s).
Proof. intros I. eapply Forall_impl; [apply (inv_entries s I)|]. by intros e []. Qed.

Lemma inv_lookup_found s i e :
  dandelion_inv s -> entries s !! i = Some e -> index_lookup s (hash e) = Ok (Z.of_nat i).
Proof.
  intros I Hi. pose proof (Forall_lookup_1 _ _ _ _ (inv_hashes s I) Hi).
  pose proof (lookup_lt_Some _ _ _ Hi).
  destruct (inv_room s I) as [[_ He]|(Hc & Hn & _)]; [by rewrite He in Hi|].
  unfold entry_count in Hn.
  apply index_lookup_found; [apply inv_index|apply inv_distinct|lia|lia|done|done]; done.
Qed.

Lemma inv_lookup_absent s h :
  dandelion_inv s -> blen h = 32 -> (h ∉ map hash (entries s)) ->
  index_lookup s h = Ok BM_DANDELION_INDEX_EMPTY.
Proof.
  intros I Hh Ha. apply index_lookup_absent; [by apply inv_index| | |done|done];
    destruct (inv_room s I) as [[Hc He]|(Hc & Hn & _)]; unfold entry_count in *; try lia.
  rewrite He. simpl. lia.
Qed.

(** A hash is in the table at one position, or not at all. *)
Lemma hash_cases s h :
  (exists i e, entries s !! i = Some e /\ hash e = h) \/ (h ∉ map hash (entries s)).
Proof.
  destruct (decide (h ∈ map hash (entries s))) as [Hin|]; [left|by right].
  apply list_elem_of_fmap in Hin as (e & -> & [i Hi]%list_elem_of_lookup). eauto.
Qed.

(** Entering the entry just appended, whether a rebuild has entered it before or not. *)
Lemma index_put_new s e sl es :
  let s1 := with_entries s (entries s ++ [e]) in
  index_ok sl es -> es = entries s \/ es = entries s ++ [e] -> blen (hash e) = 32 ->
  entry_count s < 2 ^ 60 -> 128 <= blen sl < 2 ^ 63 -> (entry_count s + 2) * 2 <= blen sl ->
  used sl <= entry_count s + 1 ->
  exists slots, index_put sl (hash e) (entry_count s) = Ok slots
    /\ index_ok slots (entries s ++ [e]) /\ index_room (with_index s1 slots).
Proof.
  intros s1 Is Hes He Hn Hb Hh Hu.
  destruct (index_put_ok sl es (entries s ++ [e]) e (length (entries s)) Is)
    as (slots & E & Hb' & Hu' & Is'); try done.
  - lia.
  - unfold entry_count in *. lia.
  - intros i x Hx. destruct Hes as [->| ->]; [|by left].
    apply lookup_app_Some in Hx as [?|[? Hx]]; [by left|right].
    apply list_lookup_singleton_Some in Hx as [? <-]. split; [lia|done].
  - destruct Hes as [->| ->]; [|done]. rewrite length_app. lia.
  - rewrite length_app. simpl. lia.
  - unfold entry_count in *. rewrite length_app. simpl. lia.
  - exists slots. split_and!; [exact E|done|]. right. unfold index_capacity, entry_count in *.
    cbn [with_index with_entries s1 index_slots entries]. rewrite length_app. simpl. lia.
Qed.

(** Registration of the entry just appended, after the capacity check. *)
Lemma index_register s e :
  let s1 := with_entries s (entries s ++ [e]) in
  index_ok (index_slots s) (entries s) -> index_room s -> entry_count s < 2 ^ 60 ->
  Forall (fun e => blen (hash e) = 32) (entries s ++ [e]) ->
  exists s2 slots, index_ensure_capacity s1 = Ok (with_index s1 s2) /\ 0 < blen s2
    /\ index_put s2 (hash e) (entry_count s) = Ok slots
    /\ index_ok slots (entries s ++ [e]) /\ index_room (with_index s1 slots).
Proof.
  intros s1 I Room Hn Hf. assert (He : blen (hash e) = 32).
  { apply Forall_app in Hf as [_ Hf]. by inversion_clear Hf. }
  assert (Hn1 : entry_count s1 = entry_count s + 1).
  { unfold entry_count, s1. simpl. rewrite length_app. simpl. lia. }
  assert (Hn0 : 0 <= entry_count s) by (unfold entry_count; lia).
  unfold index_ensure_capacity. change (index_capacity s1) with (index_capacity s).
  destruct (Z.eqb_spec (index_capacity s) 0) as [Hz|Hz].
  - destruct Room as [[_ Hnil]|Room]; [|lia].
    assert (entry_count s = 0) by (unfold entry_count; by rewrite Hnil).
    destruct (index_rebuild_ok s1 128) as (sl & E & Hb & Hu & Is); [lia|lia|done|].
    destruct (index_put_new s e sl (entries s ++ [e])) as (slots & E' & Is' & R);
      [done|by right|done|lia|lia|lia|lia|].
    exists sl, slots. split_and!; [exact E|lia|done|done|done].
  - destruct Room as [[? _]|(Hc & Hl & Hu)]; [done|].
    rewrite (u64_small ((entry_count s1 + 1) * 2)) by (unfold is_u64; lia).
    destruct (Z.gtb_spec ((entry_count s1 + 1) * 2) (index_capacity s)).
    + rewrite u64_small by (unfold is_u64; lia).
      destruct (index_rebuild_ok s1 (index_capacity s * 2)) as (sl & E & Hb & Hu' & Is);
        [lia|lia|done|].
      destruct (index_put_new s e sl (entries s ++ [e])) as (slots & E' & Is' & R);
      [done|by right|done|lia|lia|lia|lia|].
      exists sl, slots. split_and!; [exact E|lia|done|done|done].
    + destruct (index_put_new s e (index_slots s) (entries s)) as (slots & E' & Is' & R);
        [done|by left|done|done|done|unfold index_capacity in *; lia|done|].
      exists (index_slots s), slots. split_and!; [done|unfold index_capacity in *; lia|done|done|done].
Qed.

Definition with_capacity (s : dandelion_state) (cap : Z) : dandelion_state :=
  {| stem_ip := stem_ip s; stem_port := stem_port s; has_stem := has_stem s;
     epoch_started := epoch_started s; entries := entries s; entry_capacity := cap;
     index_slots := index_slots s |}.


(** The array grows before it is full. *)
Lemma capacity_grows n cap :
  0 <= n <= cap -> n < 2 ^ 60 ->
  n < (if n >=? cap then if cap =? 0 then 64 else u64 (cap * 2) else cap).
Proof.
  intros. rewrite Z.geb_leb. destruct (Z.leb_spec cap n); [|done].
  destruct (Z.eqb_spec cap 0); [lia|]. rewrite u64_small by (unfold is_u64; lia). lia.
Qed.

(** The outcome of the table lookup: the entry that was there, or a new one. *)
Definition found_or_new (s : dandelion_state) (h : list Z) (now delay : Z) (i : nat)
    (s' : dandelion_state) : Prop :=
  (exists e, entries s !! i = Some e /\ hash e = h /\ s' = s)
  \/ (h ∉ map hash (entries s)) /\ i = length (entries s)
     /\ entries s' = entries s ++ [new_entry h now delay].

Lemma find_or_create_ok s h now delay :
  dandelion_inv s -> call_ok s h now delay ->
  exists i s', find_or_create_entry s h now delay = Ok (Z.of_nat i, s')
    /\ dandelion_inv s' /\ found_or_new s h now delay i s'
    /\ has_stem s' = has_stem s /\ stem_ip s' = stem_ip s /\ stem_port s' = stem_port s.
Proof.
  intros I (Hh & Hnow & Hdelay & Hn). unfold find_or_create_entry.
  destruct (hash_cases s h) as [(i & e & Hi & <-)|Ha].
  - rewrite (inv_lookup_found s i e I Hi), bind_ok.
    pose proof (lookup_lt_Some _ _ _ Hi).
    rewrite (proj2 (Z.eqb_neq _ _)) by (unfold BM_DANDELION_INDEX_EMPTY, entry_count in *; lia).
    exists i, s. split_and!; try done. left. eauto.
  - rewrite inv_lookup_absent, bind_ok by done. rewrite Z.eqb_refl. cbn [negb].
    pose proof (capacity_grows (entry_count s) (entry_capacity s)) as Hcap.
    pose proof (inv_capacity s I). specialize (Hcap ltac:(unfold entry_count in *; lia) Hn).
    set (cap := if entry_count s >=? entry_capacity s then _ else _) in *. zdec.
    rewrite rdn_ok, slice_all by lia. cbn_bind. unfold BM_DANDELION_TIMEOUT_BASE_SECONDS.
    rewrite int64_ok by lia. cbn_bind. rewrite int64_ok by lia. cbn_bind.
    fold (new_entry h now delay). set (e := new_entry h now delay).
    set (s1 := {| stem_ip := stem_ip s |}).
    assert (Hf : Forall entry_ok (entries s ++ [e])).
    { apply Forall_app. split; [apply (inv_entries s I)|]. constructor; [|constructor].
      split; [done|simpl; lia]. }
    destruct (index_register (with_capacity s cap) e) as (s2 & slots & E & Hb & E' & Is & Room);
      [apply (inv_index s I)|apply (inv_room s I)|done| |].
    { eapply Forall_impl; [exact Hf|]. by intros x []. }
    change (with_entries (with_capacity s cap) _) with s1 in *. rewrite E, bind_ok.
    unfold index_capacity at 1. cbn [with_index index_slots].
    rewrite (proj2 (Z.eqb_neq (blen s2) 0)) by lia.
    change (hash e) with h in E'. change (entry_count (with_capacity s cap)) with (entry_count s) in E'.
    rewrite E', bind_ok. exists (length (entries s)), (with_index s1 slots).
    split_and!; try done; [|right; done]. constructor; try done.
    + unfold distinct. cbn [with_index entries s1]. rewrite map_app. apply NoDup_app.
      split_and!; [apply (inv_distinct s I)| |apply NoDup_singleton].
      intros x Hx ->%list_elem_of_singleton. done.
    + unfold entry_count in *. cbn [with_index entries entry_capacity s1]. rewrite length_app.
      simpl. lia.
    + apply (inv_epoch s I).
Qed.

(** ** Changes of entries in place *)

Lemma index_ok_hashes slots es es' :
  map hash es' = map hash es -> index_ok slots es -> index_ok slots es'.
Proof.
  intros Hh [Hin Hfind]. assert (Hl : length es' = length es).
  { rewrite <- (length_map hash es'), <- (length_map hash es). by rewrite Hh. }
  constructor; [by rewrite Hl|]. intros i e' Hi.
  assert (Hi' : map hash es !! i = Some (hash e')) by (rewrite <- Hh; by apply list_lookup_fmap_Some_2).
  apply list_lookup_fmap_Some in Hi' as (e & -> & He). by apply Hfind.
Qed.

(** Entries changed without touching their hashes. *)
Lemma inv_same_hashes s es :
  dandelion_inv s -> map hash es = map hash (entries s) -> Forall entry_ok es ->
  dandelion_inv (with_entries s es).
Proof.
  intros I Hh Hf. assert (Hl : length es = length (entries s)).
  { rewrite <- (length_map hash es), <- (length_map hash (entries s)). by rewrite Hh. }
  destruct I as [D F C Ix R E]. constructor; cbn [with_entries entries index_slots]; try done.
  - unfold distinct. by rewrite Hh.
  - unfold entry_count in *. cbn [with_entries entries entry_capacity]. by rewrite Hl.
  - by eapply index_ok_hashes.
  - destruct R as [[? Hn]|(? & ? & ?)]; [left|right].
    + split; [done|]. cbn. rewrite Hn in Hl. by destruct es.
    + unfold entry_count in *. cbn [with_entries entries]. rewrite Hl. done.
Qed.

Lemma inv_set_entry s i f :
  dandelion_inv s -> (forall e, hash (f e) = hash e) -> (forall e, entry_ok e -> entry_ok (f e)) ->
  dandelion_inv (set_entry s i f).
Proof.
  intros I Hh Hf. apply inv_same_hashes; [done| |].
  - generalize (Z.to_nat i) as n. induction (entries s) as [|e es IH]; intros [|n]; simpl;
      [done|done|by rewrite Hh|f_equal; apply IH].
  - apply Forall_alter; [apply (inv_entries s I)|]. intros. by apply Hf.
Qed.

Lemma mark_fluffed_ok now e : 0 < now < 2 ^ 61 -> entry_ok e -> entry_ok (mark_fluffed now e).
Proof. intros ? [? ?]. split; [done|]. cbn. lia. Qed.

(** ** Expiry *)

Definition expired (now : Z) (e : dandelion_entry) : Prop :=
  fluffed_at e = 0 /\ fluff_deadline e <= now.
Definition stale (now : Z) (e : dandelion_entry) : Prop :=
  fluffed_at e <> 0 /\ BM_DANDELION_ENTRY_PRUNE_AGE_SECONDS < now - fluffed_at e.
#[export] Instance expired_dec now e : Decision (expired now e).
Proof. unfold expired. apply _. Defined.
#[export] Instance stale_dec now e : Decision (stale now e).
Proof. unfold stale. apply _. Defined.

Definition mark_in (now : Z) (hs : list (list Z)) (e : dandelion_entry) : dandelion_entry :=
  if decide (hash e ∈ hs) then mark_fluffed now e else e.

Definition due (now : Z) (es : list dandelion_entry) : list (list Z) :=
  map hash (filter (expired now) es).

Lemma due_in now es h : h ∈ due now es -> h ∈ map hash es.
Proof.
  unfold due. intros (e & -> & He)%list_elem_of_fmap. apply list_elem_of_filter in He as [_ He].
  by apply list_elem_of_fmap_2.
Qed.

Lemma mark_in_other now h hs es :
  (h ∉ map hash es) -> map (mark_in now (h :: hs)) es = map (mark_in now hs) es.
Proof.
  intros Hh. apply map_ext_in. intros e He%list_elem_of_In. unfold mark_in.
  assert (hash e <> h) by (intros <-; apply Hh; by apply list_elem_of_fmap_2).
  destruct (decide (hash e ∈ hs)) as [Hin|Hin]; case_decide as H'; try done.
  - exfalso. apply H'. by right.
  - apply elem_of_cons in H' as [?|?]; done.
Qed.

(** The marking loop: the first hashes that are due, up to the bound. *)
Lemma expire_loop_spec now es count :
  distinct es -> 0 <= count <= BM_DANDELION_MAX_EXPIRE_PER_CALL ->
  let hs := take (Z.to_nat (BM_DANDELION_MAX_EXPIRE_PER_CALL - count)) (due now es) in
  expire_loop now count es = (map (mark_in now hs) es, hs).
Proof.
  revert count. induction es as [|e es IH]; intros count D Hc; cbn [expire_loop].
  { unfold due. simpl. by rewrite take_nil. }
  apply NoDup_cons in D as [Hne D]. fold (distinct es) in D. cbv zeta.
  unfold due. rewrite filter_cons.
  destruct (Z.ltb_spec count BM_DANDELION_MAX_EXPIRE_PER_CALL) as [Hlt|].
  - destruct (decide (expired now e)) as [[Hz Hd]|Hx].
    + zdec. rewrite IH by (done || lia). cbn [map].
      replace (Z.to_nat (BM_DANDELION_MAX_EXPIRE_PER_CALL - count))
        with (S (Z.to_nat (BM_DANDELION_MAX_EXPIRE_PER_CALL - (count + 1)))) by lia.
      cbn [take]. rewrite mark_in_other by done.
      unfold mark_in at 2. by rewrite decide_True by left.
    + assert (E : (fluffed_at e =? 0) && (now >=? fluff_deadline e) = false).
      { apply not_true_iff_false. rewrite andb_true_iff, Z.eqb_eq, Z.geb_le. done. }
      rewrite E, IH by (done || lia). cbn [map]. unfold mark_in at 2.
      rewrite decide_False; [done|]. intros Hin%elem_of_take. destruct Hin as (i & Hi & _).
      apply Hne, (due_in now), (list_elem_of_lookup_2 _ i), Hi.
  - replace (Z.to_nat _) with 0%nat by lia. cbn [take]. f_equal.
    rewrite <- (map_id (e :: es)) at 1. apply map_ext. intros x. unfold mark_in.
    rewrite decide_False; [done|]. apply not_elem_of_nil.
Qed.

Lemma prune_loop_spec now es :
  0 < now < 2 ^ 61 -> Forall entry_ok es ->
  prune_loop now es = Ok (filter (fun e => ~ stale now e) es).
Proof.
  intros Hn. induction 1 as [|e es [_ Ht] _ IH]; cbn [prune_loop]; [done|].
  rewrite filter_cons. destruct (Z.eqb_spec (fluffed_at e) 0) as [Hz|Hz].
  - cbn_bind. rewrite IH, bind_ok. rewrite decide_True by (intros []; done). done.
  - rewrite int64_ok, IH by lia. cbn_bind. rewrite Z.gtb_ltb.
    destruct (Z.ltb_spec BM_DANDELION_ENTRY_PRUNE_AGE_SECONDS (now - fluffed_at e)).
    + rewrite decide_False; [done|]. intros Hs. apply Hs. by split.
    + rewrite decide_True; [done|]. intros [_ ?]. lia.
Qed.

Lemma mark_in_hashes now hs es : map hash (map (mark_in now hs) es) = map hash es.
Proof. rewrite map_map. apply map_ext. intros e. unfold mark_in. by case_decide. Qed.

Lemma mark_in_ok now hs es :
  0 < now < 2 ^ 61 -> Forall entry_ok es -> Forall entry_ok (map (mark_in now hs) es).
Proof.
  intros Hn Hf. apply Forall_map. eapply Forall_impl; [exact Hf|]. intros e He. unfold mark_in.
  simpl. case_decide; [by apply mark_fluffed_ok|done].
Qed.

Lemma filter_same_length {A} (P : A -> Prop) `{!forall x, Decision (P x)} (l : list A) :
  length (filter P l) = length l -> filter P l = l.
Proof.
  induction l as [|x l IH]; [done|]. rewrite filter_cons. case_decide; intros E.
  - f_equal. apply IH. by injection E.
  - simpl in E. pose proof (sublist_length _ _ (sublist_filter P l)). lia.
Qed.

(** Pruning keeps the invariant: the index is rebuilt when positions moved. *)
Lemma inv_prune s now es :
  dandelion_inv s -> map hash es = map hash (entries s) -> Forall entry_ok es ->
  let s' := with_entries s (filter (fun e => ~ stale now e) es) in
  exists s'', (if negb (entry_count s' =? entry_count s) && (index_capacity s' >? 0)
        then index_rebuild s' (index_capacity s') else Ok s') = Ok s''
    /\ dandelion_inv s'' /\ entries s'' = entries s'
    /\ has_stem s'' = has_stem s /\ stem_ip s'' = stem_ip s /\ stem_port s'' = stem_port s.
Proof.
  intros I Hh Hf s'. pose proof (inv_same_hashes s es I Hh Hf) as I1.
  assert (Hl : length es = length (entries s)).
  { rewrite <- (length_map hash es), <- (length_map hash (entries s)). by rewrite Hh. }
  assert (Hsub : filter (fun e => ~ stale now e) es `sublist_of` es) by apply sublist_filter.
  pose proof (sublist_length _ _ Hsub) as Hle.
  assert (Hd' : distinct (filter (fun e => ~ stale now e) es)).
  { eapply sublist_NoDup; [apply (inv_distinct _ I1)|]. by apply (fmap_sublist hash). }
  assert (Hf' : Forall entry_ok (filter (fun e => ~ stale now e) es))
    by (apply Forall_forall; intros e [_ He]%list_elem_of_filter; by eapply Forall_forall in Hf).
  destruct (Z.eqb_spec (entry_count s') (entry_count s)) as [Hc|Hc]; cbn [negb andb].
  - exists s'. split_and!; try done. unfold s'.
    rewrite filter_same_length; [done|]. unfold entry_count in Hc. simpl in Hc. lia.
  - destruct (inv_room _ I1) as [[_ Hnil]|(Hcap & Hroom & _)].
    { exfalso. apply Hc. simpl in Hnil. unfold entry_count, s'. simpl. by rewrite <- Hl, Hnil. }
    unfold index_capacity, entry_count in Hcap, Hroom. cbn [with_entries index_slots entries] in Hcap, Hroom.
    unfold index_capacity at 1. cbn [s' with_entries index_slots].
    rewrite Z.gtb_ltb, (proj2 (Z.ltb_lt 0 (blen (index_slots s)))) by lia.
    destruct (index_rebuild_ok s' (index_capacity s')) as (sl & E & Hb & Hu & Is).
    + unfold index_capacity. cbn. lia.
    + unfold index_capacity, entry_count. cbn [s' with_entries index_slots entries]. lia.
    + eapply Forall_impl; [exact Hf'|]. by intros e [].
    + exists (with_index s' sl). split_and!; try done. constructor; try done.
      * pose proof (inv_capacity _ I1) as Hca. unfold entry_count in *.
        cbn [s' with_index with_entries entries entry_capacity] in *. lia.
      * right. unfold index_capacity, entry_count in *.
        cbn [s' with_index with_entries entries index_slots] in *. lia.
      * apply (inv_epoch s I).
Qed.

(** ** The operations *)

(** The table without its index: the entry of a hash, and its position. *)
Fixpoint find_hash (es : list dandelion_entry) (h : list Z) : option dandelion_entry :=
  match es with
  | [] => None
  | e :: es => if list_eqb (hash e) h then Some e else find_hash es h
  end.

Fixpoint linear_search (es : list dandelion_entry) (h : list Z) (i : Z) : Z :=
  match es with
  | [] => BM_DANDELION_INDEX_EMPTY
  | e :: es => if list_eqb (hash e) h then i else linear_search es h (i + 1)
  end.

Definition entry_or_new (s : dandelion_state) (h : list Z) (now delay : Z) : dandelion_entry :=
  default (new_entry h now delay) (find_hash (entries s) h).

Lemma distinct_cons e es : distinct (e :: es) <-> (hash e ∉ map hash es) /\ distinct es.
Proof. apply NoDup_cons. Qed.

Lemma list_eqb_false a b : a <> b -> list_eqb a b = false.
Proof. intros. unfold list_eqb. by apply bool_decide_eq_false. Qed.

Lemma find_hash_found es i e :
  distinct es -> es !! i = Some e ->
  find_hash es (hash e) = Some e /\ forall k, linear_search es (hash e) k = k + Z.of_nat i.
Proof.
  revert i. induction es as [|x es IH]; intros i D Hi; [done|]. apply distinct_cons in D as [Hx D].
  destruct i as [|i]; simpl in *.
  - injection Hi as ->. rewrite list_eqb_refl. split; [done|]. intros. lia.
  - destruct (IH i D Hi) as [-> Hl]. rewrite list_eqb_false.
    + split; [done|]. intros k. rewrite Hl. lia.
    + intros Eq. apply Hx. rewrite Eq. apply list_elem_of_fmap_2. by eapply list_elem_of_lookup_2.
Qed.

Lemma find_hash_absent es h :
  (h ∉ map hash es) ->
  find_hash es h = None /\ forall k, linear_search es h k = BM_DANDELION_INDEX_EMPTY.
Proof.
  induction es as [|x es IH]; intros Ha; [done|]. simpl in *.
  apply not_elem_of_cons in Ha as [Hne Ha]. rewrite list_eqb_false by done.
  destruct (IH Ha) as [-> Hl]. by split.
Qed.

Lemma found_entry s h now delay i s' :
  dandelion_inv s -> found_or_new s h now delay i s' ->
  entries s' !! i = Some (entry_or_new s h now delay)
  /\ hash (entry_or_new s h now delay) = h.
Proof.
  unfold entry_or_new. intros I [(e & Hi & <- & ->)|(Ha & -> & ->)].
  - destruct (find_hash_found _ _ _ (inv_distinct s I) Hi) as [-> _]. done.
  - destruct (find_hash_absent _ _ Ha) as [-> _]. split; [|done].
    by rewrite lookup_app_r, Nat.sub_diag by lia.
Qed.

(** The decision for an entry. *)
Definition must_fluff (s : dandelion_state) (e : dandelion_entry) (now : Z) : bool :=
  negb (fluffed_at e =? 0) || (now >=? fluff_deadline e) || negb (has_stem s)
  || learned_via_plain_inv e.

Definition decision (s : dandelion_state) (e : dandelion_entry) (target : option (list Z * Z))
    (now : Z) : bm_propagation_mode :=
  if must_fluff s e now then BM_PROPAGATE_FLUFF else
  if bool_decide (target = Some (stem_ip s, stem_port s)) then BM_PROPAGATE_STEM
  else BM_PROPAGATE_SKIP.

Lemma decide_ok s h target now delay :
  dandelion_inv s -> call_ok s h now delay ->
  let e := entry_or_new s h now delay in
  exists i s1 s', bm_dandelion_decide s h target now delay = Ok (decision s e target now, s')
    /\ dandelion_inv s' /\ found_or_new s h now delay i s1 /\ has_stem s' = has_stem s
    /\ s' = (if must_fluff s e now && (fluffed_at e =? 0)
             then set_entry s1 (Z.of_nat i) (mark_fluffed now) else s1).
Proof.
  intros I C e. destruct (find_or_create_ok s h now delay I C) as
    (i & s1 & E & I1 & F & Hs & Hip & Hport). exists i, s1.
  destruct (found_entry s h now delay i s1 I F) as [He Hh]. fold e in He, Hh.
  unfold bm_dandelion_decide. rewrite E, bind_ok. rewrite (entry_at_ok _ _ e), bind_ok by done.
  rewrite Hs. fold (must_fluff s e now). unfold decision.
  assert (Im : dandelion_inv (set_entry s1 (Z.of_nat i) (mark_fluffed now))).
  { apply inv_set_entry; [done|done|]. intros x. apply mark_fluffed_ok. destruct C as (_ & ? & _). lia. }
  destruct (must_fluff s e now); cbn [andb].
  - eexists. split; [done|]. by destruct (fluffed_at e =? 0).
  - exists s1. split; [|done]. f_equal. f_equal. rewrite Hip, Hport.
    destruct target as [[ip port]|]; [|done].
    destruct (Z.eqb_spec port (stem_port s)) as [->|Hp]; cbn [andb].
    + unfold list_eqb. repeat case_bool_decide; naive_solver.
    + rewrite bool_decide_eq_false_2; [done|]. by intros [= _ ?].
Qed.

Lemma expire_ok s pool now :
  dandelion_inv s -> 0 < now < 2 ^ 61 ->
  let hs := take (Z.to_nat BM_DANDELION_MAX_EXPIRE_PER_CALL) (due now (entries s)) in
  exists s', bm_dandelion_expire_and_refluff s pool now
    = Ok (Z.of_nat (length hs),
          match pool with None => [] | Some has => filter (fun h => has h = true) hs end, s')
    /\ dandelion_inv s' /\ has_stem s' = has_stem s
    /\ entries s' = filter (fun e => ~ stale now e) (map (mark_in now hs) (entries s)).
Proof.
  intros I Hn hs. unfold bm_dandelion_expire_and_refluff.
  rewrite expire_loop_spec by (done || apply (inv_distinct s I) || lia).
  rewrite Z.sub_0_r. fold hs.
  rewrite prune_loop_spec by (done || (apply mark_in_ok; [done|apply (inv_entries s I)])).
  rewrite bind_ok. destruct (inv_prune s now (map (mark_in now hs) (entries s)) I) as
    (s'' & E & I' & He & Hs & _ & _).
  - apply mark_in_hashes.
  - apply mark_in_ok; [done|apply (inv_entries s I)].
  - cbv zeta in E. rewrite E, bind_ok. exists s''. done.
Qed.

Lemma note_source_ok s h is_dinv now delay :
  dandelion_inv s -> call_ok s h now delay ->
  exists s', bm_dandelion_note_source s h is_dinv now delay = Ok s' /\ dandelion_inv s'
    /\ (if is_dinv then s' = s else
        exists i s1, found_or_new s h now delay i s1 /\ s' = set_entry s1 (Z.of_nat i) mark_learned).
Proof.
  intros I C. unfold bm_dandelion_note_source. destruct is_dinv; [by exists s|].
  destruct (find_or_create_ok s h now delay I C) as (i & s1 & E & I1 & F & _).
  rewrite E, bind_ok. eexists. split; [done|]. split; [|eauto].
  apply inv_set_entry; [done|done|]. by intros e [].
Qed.

Lemma reshuffle_begin_ok s now :
  dandelion_inv s -> 0 < now < 2 ^ 61 ->
  exists b s', reshuffle_begin s now = Ok (b, s') /\ dandelion_inv s' /\ entries s' = entries s.
Proof.
  intros I Hn. unfold reshuffle_begin. pose proof (inv_epoch s I).
  assert (Iv : dandelion_inv {| stem_ip := stem_ip s; stem_port := stem_port s;
    has_stem := has_stem s; epoch_started := now; entries := entries s;
    entry_capacity := entry_capacity s; index_slots := index_slots s |}).
  { destruct I. constructor; try done. cbn. lia. }
  destruct (Z.eqb_spec (epoch_started s) 0); [|rewrite int64_ok by lia]; cbn_bind; [eauto|].
  destruct (_ <? _); eauto 6.
Qed.

Lemma reshuffle_set_ok s picked :
  dandelion_inv s ->
  dandelion_inv (reshuffle_set s picked) /\ entries (reshuffle_set s picked) = entries s.
Proof. intros []. destruct picked as [[ip port]|]; by split. Qed.

(** ** Sequences of calls *)

(** One critical section. *)
Inductive dandelion_step (now : Z) : dandelion_state -> dandelion_state -> Prop :=
| step_note s h is_dinv delay s' :
    call_ok s h now delay -> bm_dandelion_note_source s h is_dinv now delay = Ok s' ->
    dandelion_step now s s'
| step_reshuffle_begin s b s' :
    0 < now < 2 ^ 61 -> reshuffle_begin s now = Ok (b, s') -> dandelion_step now s s'
| step_reshuffle_set s picked :
    dandelion_step now s (reshuffle_set s picked)
| step_decide s h target delay mode s' :
    call_ok s h now delay -> bm_dandelion_decide s h target now delay = Ok (mode, s') ->
    dandelion_step now s s'
| step_expire s pool n broadcast s' :
    0 < now < 2 ^ 61 -> bm_dandelion_expire_and_refluff s pool now = Ok (n, broadcast, s') ->
    dandelion_step now s s'.

(** Calls made no later than [t]. *)
Definition calls_until (t : Z) : dandelion_state -> dandelion_state -> Prop :=
  rtc (fun s s' => exists now, now <= t /\ dandelion_step now s s').

Definition reachable (s : dandelion_state) : Prop :=
  exists t, calls_until t bm_dandelion_module_init s.

Lemma step_inv now s s' : dandelion_inv s -> dandelion_step now s s' -> dandelion_inv s'.
Proof.
  intros I St.
  destruct St as [s h d delay s' C E|s b' s' Hn E|s p|s h tg delay m s' C E|s pool n b s' Hn E].
  - destruct (note_source_ok _ h d now delay I C) as (x & Ex & Ix & _). congruence.
  - destruct (reshuffle_begin_ok _ now I Hn) as (y & x & Ex & Ix & _). congruence.
  - by apply reshuffle_set_ok.
  - destruct (decide_ok _ h tg now delay I C) as (i & y & x & Ex & Ix & _). congruence.
  - destruct (expire_ok _ pool now I Hn) as (x & Ex & Ix & _). congruence.
Qed.

Lemma calls_inv t s s' : dandelion_inv s -> calls_until t s s' -> dandelion_inv s'.
Proof.
  intros I R. induction R as [|a b c (now & _ & Hab) _ IH]; [done|]. apply IH. by eapply step_inv.
Qed.

Lemma reachable_inv s : reachable s -> dandelion_inv s.
Proof. intros [t R]. eapply calls_inv; [apply dandelion_inv_init|done]. Qed.

(** ** A fluffed entry stays *)

Definition fluffed (s : dandelion_state) (h : list Z) (f : Z) : Prop :=
  exists i e, entries s !! i = Some e /\ hash e = h /\ fluffed_at e = f.

(** Appending an entry and changing another field, or an entry not yet fluffed. *)
Lemma fluffed_set s h f s1 h' now delay i g :
  fluffed s h f -> found_or_new s h' now delay i s1 -> (forall e, hash (g e) = hash e) ->
  (forall e, entries s1 !! i = Some e -> fluffed_at e = f -> fluffed_at (g e) = f) ->
  fluffed (set_entry s1 (Z.of_nat i) g) h f.
Proof.
  intros (j & e & Hj & Hh & Hf) F Hg Hgf.
  assert (Hj1 : entries s1 !! j = Some e).
  { destruct F as [(? & _ & _ & ->)|(_ & _ & ->)]; [done|]. by apply lookup_app_l_Some. }
  unfold fluffed, set_entry. cbn [with_entries entries]. rewrite Nat2Z.id.
  destruct (decide (i = j)) as [->|Hne].
  - exists j, (g e). rewrite list_lookup_alter_eq, Hj1. split_and!; [done|by rewrite Hg|by apply Hgf].
  - exists j, e. by rewrite list_lookup_alter_ne by done.
Qed.

Lemma fluffed_found s h f s1 h' now delay i :
  fluffed s h f -> found_or_new s h' now delay i s1 -> fluffed s1 h f.
Proof.
  intros (j & e & Hj & Hh & Hf) [(? & _ & _ & ->)|(_ & _ & E)]; [by exists j, e|].
  exists j, e. rewrite E. split; [by apply lookup_app_l_Some|done].
Qed.

Lemma step_fluffed now s s' h f :
  dandelion_inv s -> dandelion_step now s s' -> fluffed s h f -> f <> 0 -> now <= f + 300 ->
  fluffed s' h f.
Proof.
  intros I St Hfl Hf Hnow.
  destruct St as [s h' d delay s' C E|s b' s' Hn E|s p|s h' tg delay m s' C E|s pool n b s' Hn E].
  - destruct (note_source_ok _ h' d now delay I C) as (x & Ex & _ & Hx).
    assert (x = s') as -> by congruence. destruct d; [by subst|].
    destruct Hx as (i & s1 & F & ->). by eapply fluffed_set.
  - destruct (reshuffle_begin_ok _ now I Hn) as (y & x & Ex & _ & Hx).
    assert (x = s') as -> by congruence. unfold fluffed. by rewrite Hx.
  - destruct (reshuffle_set_ok s p I) as [_ Hx]. unfold fluffed. by rewrite Hx.
  - destruct (decide_ok _ h' tg now delay I C) as (i & s1 & x & Ex & _ & F & _ & Hx).
    assert (x = s') as -> by congruence. rewrite Hx.
    destruct (found_entry s h' now delay i s1 I F) as [He _].
    destruct (must_fluff _ _ _ && _) eqn:Hm; [|by eapply fluffed_found].
    apply andb_true_iff in Hm as [_ Hm%Z.eqb_eq]. eapply fluffed_set; [done|done|done|].
    intros e Hi He0. rewrite He in Hi. injection Hi as <-. congruence.
  - destruct (expire_ok _ pool now I Hn) as (x & Ex & _ & _ & Hx).
    assert (x = s') as -> by congruence. destruct Hfl as (i & e & Hi & Hh & Hfe).
    assert (Hin : e ∈ entries s') .
    { rewrite Hx. apply list_elem_of_filter. split.
      - intros [_ Hs]. unfold BM_DANDELION_ENTRY_PRUNE_AGE_SECONDS in Hs. lia.
      - apply list_elem_of_fmap. exists e. split; [|by eapply list_elem_of_lookup_2].
        unfold mark_in. rewrite decide_False; [done|]. intros (k & Hk & _)%elem_of_take.
        apply list_elem_of_lookup_2, list_elem_of_fmap in Hk as (e' & Hee & Hk).
        apply list_elem_of_filter in Hk as [[Hz _] Hk]. apply list_elem_of_lookup in Hk as [j Hj].
        pose proof (distinct_eq _ _ _ _ _ (inv_distinct s I) Hi Hj Hee) as ->. congruence. }
    apply list_elem_of_lookup in Hin as [j Hj]. by exists j, e.
Qed.

Lemma calls_fluffed t s s' h f :
  dandelion_inv s -> calls_until t s s' -> fluffed s h f -> f <> 0 -> t <= f + 300 ->
  fluffed s' h f.
Proof.
  intros I R. induction R as [|a b c (now & Hn & Hab) _ IH]; [done|]. intros Hfl Hf Ht.
  apply IH; [by eapply step_inv| |done|done]. eapply step_fluffed; [done|done|done|done|lia].
Qed.

(** ** Properties *)

(** C33: After any sequence of calls, looking a hash up through the open-addressing
    index ends, stays inside the arrays and gives what a linear search of the entries
    gives: the position of the hash's entry, or the empty mark when it has none; a
    hash is being stemmed exactly when it has an entry that is not fluffed. *)
Theorem dandelion_index_linear (s : dandelion_state) (h : list Z) :
  reachable s -> blen h = 32 ->
  index_lookup s h = Ok (linear_search (entries s) h 0)
  /\ bm_dandelion_is_stemming s h
     = Ok (match find_hash (entries s) h with Some e => fluffed_at e =? 0 | None => false end).
Proof.
  intros I%reachable_inv Hh. unfold bm_dandelion_is_stemming.
  destruct (hash_cases s h) as [(i & e & Hi & <-)|Ha].
  - destruct (find_hash_found _ _ _ (inv_distinct s I) Hi) as [-> Hl].
    rewrite (inv_lookup_found s i e I Hi), Hl, bind_ok. split; [done|].
    rewrite (entry_at_ok _ _ e), bind_ok by done. pose proof (lookup_lt_Some _ _ _ Hi).
    destruct (inv_room s I) as [[_ He]|(? & ? & _)]; [by rewrite He in Hi|].
    unfold entry_count in *. by rewrite (proj2 (Z.eqb_neq _ _)) by (unfold BM_DANDELION_INDEX_EMPTY; lia).
  - destruct (find_hash_absent _ _ Ha) as [-> Hl]. by rewrite inv_lookup_absent, Hl, bind_ok by done.
Qed.

(** The decision for an object: fluff when its entry is fluffed already, its
    deadline has passed, there is no stem peer, or it was learned from an ordinary
    inv; otherwise stem towards the stem peer and nothing towards any other.  A
    hash that has no entry gets one with a deadline 10 seconds and the drawn delay
    ahead; the first fluff is recorded with its time. *)
Theorem bm_dandelion_decide_correct (s : dandelion_state) (h : list Z)
    (target : option (list Z * Z)) (now delay : Z) :
  reachable s -> call_ok s h now delay ->
  let e := entry_or_new s h now delay in
  let must := fluffed_at e <> 0 \/ fluff_deadline e <= now \/ has_stem s = false
              \/ learned_via_plain_inv e = true in
  exists mode s', bm_dandelion_decide s h target now delay = Ok (mode, s')
    /\ (mode = BM_PROPAGATE_FLUFF <-> must)
    /\ (mode = BM_PROPAGATE_STEM <-> ~ must /\ target = Some (stem_ip s, stem_port s))
    /\ (must -> fluffed s' h (if fluffed_at e =? 0 then now else fluffed_at e))
    /\ (~ must -> fluffed s' h 0).
Proof.
  intros I%reachable_inv C e must.
  destruct (decide_ok s h target now delay I C) as (i & s1 & s' & E & _ & F & _ & Hs').
  destruct (found_entry s h now delay i s1 I F) as [He Hh]. fold e in E, Hs', He, Hh.
  exists (decision s e target now), s'. split; [done|].
  assert (Hm : must_fluff s e now = true <-> must).
  { unfold must_fluff, must. rewrite !orb_true_iff, !negb_true_iff, Z.eqb_neq, Z.geb_le. tauto. }
  unfold decision. rewrite Hs'.
  destruct (must_fluff s e now) eqn:Hmf; cbn [andb].
  - assert must by (by apply Hm). split_and!; [done|split; [done|tauto]| |tauto]. intros _.
    destruct (Z.eqb_spec (fluffed_at e) 0); [|by exists i, e].
    exists i, (mark_fluffed now e). unfold set_entry. cbn. rewrite Nat2Z.id.
    by rewrite list_lookup_alter_eq, He.
  - assert (Hn : ~ must) by (rewrite <- Hm; done).
    assert (Hz : fluffed_at e = 0) by (unfold must in Hn; lia).
    split_and!; [by case_bool_decide|by case_bool_decide; intuition|tauto|]. intros _. by exists i, e.
Qed.

(** Fluffing is not taken back: an object fluffed at time f is still decided as
    fluff, and is not being stemmed, after any sequence of calls made until f + 300
    seconds, whatever peers are drawn and whatever entries come and go. *)
Theorem dandelion_fluff_stays (s s' : dandelion_state) (h : list Z) (f t now delay : Z)
    (target : option (list Z * Z)) :
  reachable s -> fluffed s h f -> f <> 0 -> calls_until t s s' -> t <= f + 300 ->
  call_ok s' h now delay ->
  bm_dandelion_is_stemming s' h = Ok false
  /\ exists s'', bm_dandelion_decide s' h target now delay = Ok (BM_PROPAGATE_FLUFF, s'').
Proof.
  intros I%reachable_inv Hfl Hf R Ht C. assert (I' : dandelion_inv s') by (by eapply calls_inv).
  destruct (calls_fluffed t s s' h f I R Hfl Hf Ht) as (i & e & Hi & <- & Hfe). split.
  - unfold bm_dandelion_is_stemming. rewrite (inv_lookup_found s' i e I' Hi), bind_ok.
    destruct (_ =? _); [done|]. rewrite (entry_at_ok _ _ e), bind_ok by done.
    by rewrite (proj2 (Z.eqb_neq _ _)) by lia.
  - destruct (decide_ok s' (hash e) target now delay I' C) as (j & s1 & s2 & E & _).
    exists s2. rewrite E. unfold decision, must_fluff, entry_or_new.
    destruct (find_hash_found _ _ _ (inv_distinct s' I') Hi) as [-> _]. simpl.
    by rewrite (proj2 (Z.eqb_neq _ _)) by lia.
Qed.

(** The periodic expiry fluffs the first 64 entries whose deadline has passed, in
    the order of the table, returns their number, announces exactly those among
    them whose object is in the pool, and removes the entries fluffed more than 300
    seconds ago; no other entry changes. *)
Theorem bm_dandelion_expire_correct (s : dandelion_state) (pool : option (list Z -> bool))
    (now : Z) :
  reachable s -> 0 < now < 2 ^ 61 ->
  let hs := take 64 (map hash (filter (expired now) (entries s))) in
  exists s', bm_dandelion_expire_and_refluff s pool now
    = Ok (Z.of_nat (length hs),
          match pool with None => [] | Some has => filter (fun h => has h = true) hs end, s')
    /\ entries s' = filter (fun e => ~ stale now e)
         (map (fun e => if decide (hash e ∈ hs) then mark_fluffed now e else e) (entries s))
    /\ reachable s'.
Proof.
  intros R Hn hs. pose proof (reachable_inv s R) as I.
  destruct (expire_ok s pool now I Hn) as (s' & E & _ & _ & He).
  exists s'. split_and!; [exact E|exact He|]. destruct R as [t R]. exists (Z.max t now).
  eapply rtc_r.
  - eapply rtc_subrel; [|exact R]. intros a b (n & ? & ?). exists n. split; [lia|done].
  - exists now. split; [lia|]. by eapply step_expire.
Qed.

(** ** Witnesses *)

Definition hash_a : list Z := replicate 32 5.
Definition hash_b : list Z := 5 :: replicate 31 7.

(** The state after a first decision, without a stem peer. *)
Definition after_first : dandelion_state :=
  match bm_dandelion_decide bm_dandelion_module_init hash_a None 100 5 with
  | Ok (_, s) => s
  | _ => bm_dandelion_module_init
  end.

Lemma after_first_step : dandelion_step 100 bm_dandelion_module_init after_first.
Proof.
  apply (step_decide 100 bm_dandelion_module_init hash_a None 5 BM_PROPAGATE_FLUFF).
  - by vm_compute.
  - by vm_compute.
Qed.

Lemma after_first_reachable : reachable after_first.
Proof. exists 100. apply rtc_once. exists 100. split; [lia|apply after_first_step]. Qed.

Lemma after_first_fluffed : fluffed after_first hash_a 100.
Proof.
  exists 0%nat, (mark_fluffed 100 (new_entry hash_a 100 5)). by vm_compute.
Qed.

Lemma dandelion_index_linear_witness :
  index_lookup after_first hash_b = Ok (linear_search (entries after_first) hash_b 0)
  /\ bm_dandelion_is_stemming after_first hash_b
     = Ok (match find_hash (entries after_first) hash_b with
           | Some e => fluffed_at e =? 0 | None => false end).
Proof. apply dandelion_index_linear; [apply after_first_reachable|done]. Defined.

Lemma bm_dandelion_decide_correct_witness :
  let e := entry_or_new after_first hash_b 110 7 in
  let must := fluffed_at e <> 0 \/ fluff_deadline e <= 110 \/ has_stem after_first = false
              \/ learned_via_plain_inv e = true in
  exists mode s', bm_dandelion_decide after_first hash_b None 110 7 = Ok (mode, s')
    /\ (mode = BM_PROPAGATE_FLUFF <-> must)
    /\ (mode = BM_PROPAGATE_STEM
        <-> ~ must /\ None = Some (stem_ip after_first, stem_port after_first))
    /\ (must -> fluffed s' hash_b (if fluffed_at e =? 0 then 110 else fluffed_at e))
    /\ (~ must -> fluffed s' hash_b 0).
Proof.
  apply (bm_dandelion_decide_correct after_first hash_b None 110 7);
    [apply after_first_reachable|by vm_compute].
Defined.

Lemma dandelion_fluff_stays_witness :
  bm_dandelion_is_stemming after_first hash_a = Ok false
  /\ exists s'', bm_dandelion_decide after_first hash_a None 120 5 = Ok (BM_PROPAGATE_FLUFF, s'').
Proof.
  apply (dandelion_fluff_stays after_first after_first hash_a 100 100 120 5 None);
    [apply after_first_reachable|apply after_first_fluffed|lia|apply rtc_refl|lia|by vm_compute].
Defined.

Lemma bm_dandelion_expire_correct_witness :
  let hs := take 64 (map hash (filter (expired 500) (entries after_first))) in
  exists s', bm_dandelion_expire_and_refluff after_first (Some (fun _ => true)) 500
    = Ok (Z.of_nat (length hs), filter (fun h => true = true) hs, s')
    /\ entries s' = filter (fun e => ~ stale 500 e)
         (map (fun e => if decide (hash e ∈ hs) then mark_fluffed 500 e else e)
            (entries after_first))
    /\ reachable s'.
Proof.
  apply (bm_dandelion_expire_correct after_first (Some (fun _ => true)) 500);
    [apply after_first_reachable|lia].
Defined.
