(* ===== verification/PeerManager.v ===== *)
(** * The table of known peers (core/peer_manager.c)

    Table [hosts] of peers.db, keyed by (ip_address, port, stream).  Ratings are IEEE
    binary64 numbers: [spec_float] of the Standard Library, with the operations at
    precision 53 and maximal exponent 1024 that SQLite and the C compiler use. *)

From Stdlib Require Import String SpecFloat.
From stdpp Require Import base tactics numbers option gmap sorting list.
From S2P Require Import Prelude Sql.

(** ** Ratings *)

Definition double_add : spec_float -> spec_float -> spec_float := SFadd 53 1024.
Definition double_sub : spec_float -> spec_float -> spec_float := SFsub 53 1024.

(** The literals 0.0, 0.1, 1.0, -1.0 and -0.5, correctly rounded. *)
Definition ZERO : spec_float := S754_zero false.
Definition TENTH : spec_float := S754_finite false 7205759403792794 (-56).
Definition ONE : spec_float := S754_finite false 4503599627370496 (-52).
Definition MINUS_ONE : spec_float := S754_finite true 4503599627370496 (-52).
Definition BM_PEER_CLEANUP_FORGET_RATING : spec_float := S754_finite true 4503599627370496 (-53).

(** SQL's MIN(a, b) and MAX(a, b) of two numbers: the second unless the first is strictly
    smaller (greater). *)
Definition sql_min (a b : spec_float) : spec_float := if SFltb a b then a else b.
Definition sql_max (a b : spec_float) : spec_float := if SFltb b a then a else b.

Definition rating_up (r : spec_float) : spec_float := sql_min ONE (double_add r TENTH).
Definition rating_down (r : spec_float) : spec_float := sql_max MINUS_ONE (double_sub r TENTH).

(** ** The table *)

Definition BM_PEER_CLEANUP_MAX_AGE_SECONDS : Z := 28 * 24 * 60 * 60.
Definition BM_PEER_CLEANUP_MIN_AGE_SECONDS : Z := 3 * 60 * 60.
Definition BM_PEER_SHARE_MAX_AGE_SECONDS : Z := 3 * 60 * 60.

Record bm_peer_entry := {
  pe_ip_address : list Z;
  pe_port : Z;
  pe_stream : Z;
  pe_services : Z;
  pe_last_seen : Z;
  pe_rating : spec_float;
  pe_source : list Z;
  pe_last_attempt : Z
}.

Abbreviation host_key := (list Z * Z * Z)%type.

Record host_row := {
  h_services : Z;
  h_last_seen : Z;
  h_rating : spec_float;
  h_source : list Z;
  h_is_self : bool;
  h_last_attempt : Z
}.
Abbreviation hosts := (gmap host_key host_row).

Definition bm_peer_manager_init_schema : hosts := ∅.

Definition entry_key (e : bm_peer_entry) : host_key := (pe_ip_address e, pe_port e, pe_stream e).

(** SQLite stores a NaN as NULL, which the column refuses. *)
Definition bm_peer_manager_upsert (db : hosts) (entry : bm_peer_entry) : cres hosts :=
  if SFeqb (pe_rating entry) (pe_rating entry) then
    Ok (upsert db (entry_key entry)
          {| h_services := s64 (pe_services entry); h_last_seen := pe_last_seen entry;
             h_rating := pe_rating entry; h_source := pe_source entry;
             h_is_self := false; h_last_attempt := 0 |}
          (fun old => {| h_services := s64 (pe_services entry); h_last_seen := pe_last_seen entry;
             h_rating := pe_rating entry; h_source := pe_source entry;
             h_is_self := h_is_self old; h_last_attempt := h_last_attempt old |}))
  else Err.

(** A row copied into a [struct bm_peer_entry]. *)
Definition read_host (with_attempt : bool) (kr : host_key * host_row) : bm_peer_entry :=
  {| pe_ip_address := text_field 64 kr.1.1.1; pe_port := kr.1.1.2; pe_stream := kr.1.2;
     pe_services := u64 (h_services kr.2); pe_last_seen := h_last_seen kr.2;
     pe_rating := h_rating kr.2; pe_source := text_field 16 (h_source kr.2);
     pe_last_attempt := if with_attempt then h_last_attempt kr.2 else 0 |}.

(** ORDER BY rating DESC LIMIT max_results; the loop stops at [max_results] too. *)
Definition best_hosts (db : hosts) (p : host_key -> host_row -> bool) (max_results : Z)
  : list (host_key * host_row) :=
  take (Z.to_nat max_results)
    (order_by (fun a b => SFleb (h_rating b.2) (h_rating a.2)) (select_where db p)).

Definition bm_peer_manager_list_top (db : hosts) (stream max_results : Z) : list bm_peer_entry :=
  map (read_host true)
    (best_hosts db (fun k r => (k.2 =? stream) && negb (h_is_self r)) max_results).

(** [LIKE '%.onion']: LIKE ignores the case of ASCII letters. *)
Definition ascii_lower (c : Z) : Z := if (65 <=? c) && (c <=? 90) then c + 32 else c.
Definition ONION_SUFFIX : list Z := cstr ".onion"%string.
Definition like_onion (ip : list Z) : bool :=
  list_eqb (map ascii_lower (drop (length ip - length ONION_SUFFIX) ip)) ONION_SUFFIX.

Definition shareable (stream oldest : Z) (k : host_key) (r : host_row) : bool :=
  (k.2 =? stream) && negb (h_is_self r) && SFleb ZERO (h_rating r)
  && (oldest <? h_last_seen r) && negb (like_onion k.1.1).

Definition bm_peer_manager_list_shareable (db : hosts) (stream now max_results : Z)
  : cres (list bm_peer_entry) :=
  oldest ← int64 (now - BM_PEER_SHARE_MAX_AGE_SECONDS);
  Ok (map (read_host false) (best_hosts db (shareable stream oldest) max_results)).

(** ** Where peers come from *)

(** [fgets(line, 256, f)]: at most 255 bytes, up to and with the first newline. *)
Fixpoint fgets (n : nat) (l : list Z) : list Z * list Z :=
  match n, l with
  | S n, c :: l => if c =? 10 then ([c], l) else let '(line, rest) := fgets n l in (c :: line, rest)
  | _, _ => ([], l)
  end.

(** [sscanf(p, "%63s %d", ip, &port) == 2]; a number that is no [int] is undefined. *)
Definition scan_node (p : list Z) : cres (list Z * Z) :=
  let '(ip, rest) := span 63 (fun c => negb (isspace c)) (skip_while isspace p) in
  if blen ip =? 0 then Err else
  let rest := skip_while isspace rest in
  let '(neg, rest) :=
    match rest with
    | c :: r => if c =? 45 then (true, r) else if c =? 43 then (false, r) else (false, rest)
    | [] => (false, rest)
    end in
  let '(ds, _) := span (length rest) isdigit rest in
  if blen ds =? 0 then Err else
  let v := if neg : bool then - digits_value ds else digits_value ds in
  if (- 2 ^ 31 <=? v) && (v <? 2 ^ 31) then Ok (ip, v) else Ub.

(** The node on a line, if it has one. *)
Definition observed_node (line : list Z) : cres (option (list Z * Z)) :=
  let p := skip_while (fun c => (c =? 32) || (c =? 9)) (c_string line) in
  match p with
  | [] => Ok None
  | c :: _ =>
      if (c =? 35) || (c =? 10) then Ok None else
      match scan_node p with
      | Ub => Ub
      | Err => Ok None
      | Ok (ip, port) => Ok (if (port <=? 0) || (65535 <? port) then None else Some (ip, port))
      end
  end.

Definition seed_entry (ip : list Z) (port now : Z) (source : list Z) : bm_peer_entry :=
  {| pe_ip_address := ip; pe_port := port; pe_stream := 1; pe_services := 1;
     pe_last_seen := now; pe_rating := ZERO; pe_source := source; pe_last_attempt := 0 |}.

(** The loop over the lines; [fuel] bounds their number. *)
Fixpoint load_lines (fuel : nat) (db : hosts) (now loaded : Z) (file : list Z) : cres (Z * hosts) :=
  match fuel, file with
  | S fuel, _ :: _ =>
      let '(line, rest) := fgets 255 file in
      node ← observed_node line;
      match node with
      | None => load_lines fuel db now loaded rest
      | Some (ip, port) =>
          match bm_peer_manager_upsert db (seed_entry ip port now (cstr "observed_seed"%string)) with
          | Ok db => load_lines fuel db now (loaded + 1) rest
          | Err => load_lines fuel db now loaded rest
          | Ub => Ub
          end
      end
  | _, _ => Ok (loaded, db)
  end.

(** [file] is the content of the file, [None] when it cannot be opened. *)
Definition bm_peer_manager_load_observed_nodes (db : hosts) (file : option (list Z)) (now : Z)
  : cres (Z * hosts) :=
  match file with
  | None => Ok (0, db)
  | Some f => load_lines (length f) db now 0 f
  end.

Definition MAINNET_SEEDS : list (list Z * Z) :=
  [(cstr "5.45.99.75"%string, 8444); (cstr "75.167.159.54"%string, 8444);
   (cstr "95.165.168.168"%string, 8444); (cstr "85.180.139.241"%string, 8444);
   (cstr "158.222.217.190"%string, 8080); (cstr "178.62.12.187"%string, 8448);
   (cstr "24.188.198.204"%string, 8111); (cstr "109.147.204.113"%string, 1195);
   (cstr "178.11.46.221"%string, 8444)].

Definition TESTNET_SEEDS : list (list Z * Z) :=
  [(cstr "46.62.252.34"%string, 8444); (cstr "5.78.198.100"%string, 8444)].

Fixpoint insert_seeds (db : hosts) (now : Z) (seeds : list (list Z * Z)) : cres hosts :=
  match seeds with
  | [] => Ok db
  | (ip, port) :: seeds =>
      db ← bm_peer_manager_upsert db (seed_entry ip port now (cstr "seed"%string));
      insert_seeds db now seeds
  end.

Definition bm_peer_manager_seed_bootstrap (db : hosts) (testnet : bool) (file : option (list Z))
    (now : Z) : cres hosts :=
  if (0 <? length (select_where db (fun _ r => negb (h_is_self r))))%nat then Ok db else
  db ← insert_seeds db now (if testnet then TESTNET_SEEDS else MAINNET_SEEDS);
  if testnet then Ok db else
  '(_, db) ← bm_peer_manager_load_observed_nodes db file now;
  Ok db.

Definition bm_peer_manager_upsert_learned (db : hosts) (ip : list Z) (port stream services last_seen : Z)
    (source : list Z) : hosts :=
  upsert db (ip, port, stream)
    {| h_services := s64 services; h_last_seen := last_seen; h_rating := ZERO; h_source := source;
       h_is_self := false; h_last_attempt := 0 |}
    (fun old => {| h_services := s64 services; h_last_seen := last_seen; h_rating := h_rating old;
       h_source := h_source old; h_is_self := h_is_self old; h_last_attempt := h_last_attempt old |}).

Definition bm_peer_manager_mark_self (db : hosts) (ip : list Z) (port stream now : Z) : hosts :=
  upsert db (ip, port, stream)
    {| h_services := 0; h_last_seen := now; h_rating := ZERO; h_source := cstr "self"%string;
       h_is_self := true; h_last_attempt := 0 |}
    (fun old => {| h_services := h_services old; h_last_seen := h_last_seen old;
       h_rating := h_rating old; h_source := h_source old; h_is_self := true;
       h_last_attempt := h_last_attempt old |}).

(** SQLite subtracts integers exactly, and in floating point past 64 bits: against the two
    ages the comparison is the exact one in both cases. *)
Definition forgotten (now : Z) (_ : host_key) (r : host_row) : bool :=
  (BM_PEER_CLEANUP_MAX_AGE_SECONDS <? now - h_last_seen r)
  || ((BM_PEER_CLEANUP_MIN_AGE_SECONDS <? now - h_last_seen r)
      && SFleb (h_rating r) BM_PEER_CLEANUP_FORGET_RATING).

Definition bm_peer_manager_cleanup (db : hosts) (now : Z) : Z * hosts :=
  (changes_of_delete db (forgotten now), delete_where db (forgotten now)).

(** ** What connections teach *)

Definition host_is (ip : list Z) (port stream : Z) (k : host_key) (_ : host_row) : bool :=
  bool_decide (k = (ip, port, stream)).

Definition record_outcome (success : bool) (now : Z) (r : host_row) : host_row :=
  {| h_services := h_services r; h_last_seen := if success then now else h_last_seen r;
     h_rating := if success then rating_up (h_rating r) else rating_down (h_rating r);
     h_source := h_source r; h_is_self := h_is_self r; h_last_attempt := h_last_attempt r |}.

Definition bm_peer_manager_record_result (db : hosts) (ip : list Z) (port stream : Z)
    (success : bool) (now : Z) : hosts :=
  update_where db (host_is ip port stream) (record_outcome success now).

Definition bm_peer_manager_record_attempt (db : hosts) (ip : list Z) (port stream now : Z) : hosts :=
  update_where db (host_is ip port stream)
    (fun r => {| h_services := h_services r; h_last_seen := h_last_seen r; h_rating := h_rating r;
       h_source := h_source r; h_is_self := h_is_self r; h_last_attempt := now |}).

(** ** Ratings that occur *)

#[global] Instance spec_float_eq_dec : EqDecision spec_float.
Proof. solve_decision. Defined.

(** Everything reachable from [todo] by successes and failures. *)
Fixpoint explore (fuel : nat) (seen todo : list spec_float) : list spec_float :=
  match fuel, todo with
  | S fuel, r :: todo =>
      if bool_decide (r ∈ seen) then explore fuel seen todo
      else explore fuel (r :: seen) (rating_up r :: rating_down r :: todo)
  | _, _ => seen
  end.

Definition ratings : list spec_float := Eval vm_compute in explore 1000 [] [ZERO].

(** A peer is forgettable after at most this many failures in a row. *)
Definition FAILURES : nat := 16.

Definition rating_bounds (r : spec_float) : bool :=
  SFleb MINUS_ONE r && SFleb r ONE && SFleb r r
  && SFleb (Nat.iter FAILURES rating_down r) BM_PEER_CLEANUP_FORGET_RATING.

Lemma ratings_closed :
  forallb (fun r => bool_decide (rating_up r ∈ ratings) && bool_decide (rating_down r ∈ ratings)
                    && rating_bounds r) ratings = true.
Proof. vm_compute. reflexivity. Qed.

Lemma ratings_total :
  forallb (fun a => forallb (fun b => SFleb a b || SFleb b a) ratings) ratings = true.
Proof. vm_compute. reflexivity. Qed.

Lemma ratings_trans :
  forallb (fun a => forallb (fun b =>
    if SFleb a b then forallb (fun c => implb (SFleb b c) (SFleb a c)) ratings else true)
    ratings) ratings = true.
Proof. vm_compute. reflexivity. Qed.

Lemma ratings_spec r :
  r ∈ ratings -> rating_up r ∈ ratings /\ rating_down r ∈ ratings /\ rating_bounds r = true.
Proof.
  intros Hr%list_elem_of_In. pose proof (proj1 (forallb_forall _ _) ratings_closed r Hr) as H.
  apply andb_true_iff in H as [[H1 H2]%andb_true_iff H3].
  by apply bool_decide_eq_true in H1, H2.
Qed.

Lemma ratings_le_total a b : a ∈ ratings -> b ∈ ratings -> SFleb a b = true \/ SFleb b a = true.
Proof.
  intros Ha%list_elem_of_In Hb%list_elem_of_In. apply orb_true_iff.
  by apply (proj1 (forallb_forall _ _) (proj1 (forallb_forall _ _) ratings_total a Ha)).
Qed.

Lemma ratings_le_trans a b c :
  a ∈ ratings -> b ∈ ratings -> c ∈ ratings ->
  SFleb a b = true -> SFleb b c = true -> SFleb a c = true.
Proof.
  intros Ha%list_elem_of_In Hb%list_elem_of_In Hc%list_elem_of_In Hab Hbc.
  pose proof (proj1 (forallb_forall _ _) (proj1 (forallb_forall _ _) ratings_trans a Ha) b Hb) as H.
  cbv beta in H. rewrite Hab in H. pose proof (proj1 (forallb_forall _ _) H c Hc) as H'.
  cbv beta in H'. by rewrite Hbc in H'.
Qed.

(** ** Histories of the table *)

(** The calls that change the table, as the node makes them. *)
Inductive peer_op :=
| OpSeed (testnet : bool) (file : option (list Z)) (now : Z)
| OpLearned (ip : list Z) (port stream services last_seen : Z) (source : list Z)
| OpMarkSelf (ip : list Z) (port stream now : Z)
| OpCleanup (now : Z)
| OpResult (ip : list Z) (port stream : Z) (success : bool) (now : Z)
| OpAttempt (ip : list Z) (port stream now : Z).

Definition peer_apply (db : hosts) (op : peer_op) : cres hosts :=
  match op with
  | OpSeed testnet file now => bm_peer_manager_seed_bootstrap db testnet file now
  | OpLearned ip port stream services last_seen source =>
      Ok (bm_peer_manager_upsert_learned db ip port stream services last_seen source)
  | OpMarkSelf ip port stream now => Ok (bm_peer_manager_mark_self db ip port stream now)
  | OpCleanup now => Ok (bm_peer_manager_cleanup db now).2
  | OpResult ip port stream success now =>
      Ok (bm_peer_manager_record_result db ip port stream success now)
  | OpAttempt ip port stream now => Ok (bm_peer_manager_record_attempt db ip port stream now)
  end.

Fixpoint peer_run (db : hosts) (ops : list peer_op) : cres hosts :=
  match ops with
  | [] => Ok db
  | op :: ops => db ← peer_apply db op; peer_run db ops
  end.

(** An invariant of a table that the inserts of seeds keep is kept by the bootstrap. *)
Section SeedInvariant.
Context (I : hosts -> Prop).
Hypothesis seed_step : forall db ip port now source,
  I db -> forall db', bm_peer_manager_upsert db (seed_entry ip port now source) = Ok db' -> I db'.

Lemma load_lines_inv fuel : forall db now n file n' db',
  I db -> load_lines fuel db now n file = Ok (n', db') -> I db'.
Proof.
  induction fuel as [|fuel IH]; intros db now n file n' db' Hi E; [by injection E as _ <-|].
  destruct file as [|c file]; [by injection E as _ <-|]. cbn [load_lines] in E.
  destruct (fgets 255 (c :: file)) as [line rest].
  apply bind_ok_inv in E as ([[ip port]|] & _ & E); [|by eapply IH].
  destruct (bm_peer_manager_upsert _ _) as [db1| |] eqn:E1; [|by eapply IH|done].
  eapply IH; [|exact E]. by eapply seed_step.
Qed.

Lemma insert_seeds_inv seeds : forall db now db', I db -> insert_seeds db now seeds = Ok db' -> I db'.
Proof.
  induction seeds as [|[ip port] seeds IH]; intros db now db' Hi E; [by injection E as <-|].
  cbn [insert_seeds] in E. apply bind_ok_inv in E as (db1 & E1 & E). eapply IH; [|exact E].
  by eapply seed_step.
Qed.

Lemma seed_bootstrap_inv db testnet file now db' :
  I db -> bm_peer_manager_seed_bootstrap db testnet file now = Ok db' -> I db'.
Proof.
  intros Hi. unfold bm_peer_manager_seed_bootstrap. case_match; [by intros [= <-]|]. intros E.
  apply bind_ok_inv in E as (db1 & E1 & E). apply insert_seeds_inv in E1; [|done].
  destruct testnet; [by injection E as <-|]. apply bind_ok_inv in E as ([n db2] & E2 & E).
  injection E as <-. unfold bm_peer_manager_load_observed_nodes in E2.
  destruct file; [by eapply load_lines_inv|by injection E2 as _ <-].
Qed.
End SeedInvariant.

Lemma peer_run_inv (I : hosts -> Prop) ops : forall db db',
  (forall db op db', op ∈ ops -> I db -> peer_apply db op = Ok db' -> I db') ->
  I db -> peer_run db ops = Ok db' -> I db'.
Proof.
  induction ops as [|op ops IH]; intros db db' Hs Hi E; [by injection E as <-|].
  cbn [peer_run] in E. apply bind_ok_inv in E as (db1 & E1 & E). eapply IH; [|by eapply Hs; [left|..]|exact E].
  intros db0 op0 db0' Hop. apply Hs. by right.
Qed.

Definition rated (db : hosts) : Prop := map_Forall (fun _ r => h_rating r ∈ ratings) db.

Lemma zero_rated : ZERO ∈ ratings.
Proof. refine (bool_decide_unpack _ _). vm_compute. exact I. Qed.

Lemma peer_apply_rated db op db' : rated db -> peer_apply db op = Ok db' -> rated db'.
Proof.
  intros Hr. destruct op; cbn [peer_apply]; intros E; try (injection E as <-).
  - eapply seed_bootstrap_inv; [|exact Hr|exact E]. clear. intros db ip port now source Hr db' E.
    unfold bm_peer_manager_upsert in E. case_match; [|done]. injection E as <-.
    apply upsert_Forall; [done|apply zero_rated|]. intros old _. apply zero_rated.
  - apply upsert_Forall; [done|apply zero_rated|done].
  - apply upsert_Forall; [done|apply zero_rated|done].
  - by apply delete_where_Forall.
  - apply update_where_Forall; [done|]. intros k old _ Ho. unfold record_outcome. cbn [h_rating].
    destruct (ratings_spec _ Ho) as (? & ? & _). by destruct success.
  - apply update_where_Forall; [done|]. done.
Qed.

Lemma peer_run_rated ops db : peer_run bm_peer_manager_init_schema ops = Ok db -> rated db.
Proof.
  apply peer_run_inv; [intros ? ? ? _; apply peer_apply_rated|apply map_Forall_empty].
Qed.

(** ** Candidates *)

Lemma best_hosts_spec db p n :
  rated db ->
  let r := best_hosts db p n in
  StronglySorted (fun a b => SFleb (h_rating b.2) (h_rating a.2) = true) r
  /\ Z.of_nat (length r) <= Z.max 0 n
  /\ (forall k h, (k, h) ∈ r -> db !! k = Some h /\ p k h = true)
  /\ (forall k h, db !! k = Some h -> p k h = true ->
        (k, h) ∈ r \/ forall k' h', (k', h') ∈ r -> SFleb (h_rating h) (h_rating h') = true).
Proof.
  intros Hr r. assert (Hin : forall kh, kh ∈ select_where db p -> h_rating kh.2 ∈ ratings).
  { intros [k h] [Hl _]%elem_of_select_where. by apply (Hr k h). }
  destruct (order_by_limit (fun a b : host_key * host_row => SFleb (h_rating b.2) (h_rating a.2))
    (Z.to_nat n) (select_where db p)) as (Hs & Hl & Hsub & Hbest).
  { intros x y Hx Hy. apply ratings_le_total; auto. }
  { intros x y z Hx Hy Hz Hxy Hyz.
    apply (ratings_le_trans _ (h_rating y.2)); auto. }
  unfold r, best_hosts. split_and!; [done|lia| |].
  - intros k h Hk. by apply elem_of_select_where, Hsub.
  - intros k h Hk Hp. destruct (Hbest (k, h)) as [?|[_ Hb]]; [by apply elem_of_select_where|by left|].
    right. intros k' h' Hk'. by apply (Hb (k', h')).
Qed.

(** The row of an address that was marked as the node's own, over every operation but the
    cleanup. *)
Definition is_own (me : host_key) (db : hosts) : Prop :=
  exists r, db !! me = Some r /\ h_is_self r = true.

Lemma upsert_own me db k r upd :
  (forall old, h_is_self (upd old) = h_is_self old \/ h_is_self (upd old) = true) ->
  is_own me db -> is_own me (upsert db k r upd).
Proof.
  intros Hu (o & Ho & Hs). unfold is_own. rewrite lookup_upsert. case_decide as Hk; [|by exists o].
  subst k. rewrite Ho. eexists. split; [done|]. destruct (Hu o); congruence.
Qed.

Lemma update_own me db p upd :
  (forall old, h_is_self (upd old) = h_is_self old) -> is_own me db -> is_own me (update_where db p upd).
Proof.
  intros Hu (o & Ho & Hs). unfold is_own. rewrite lookup_update_where, Ho. eexists. split; [done|].
  cbv beta. destruct (p me o); [by rewrite Hu|done].
Qed.

Lemma peer_apply_own me db op db' :
  (forall t, op <> OpCleanup t) -> is_own me db -> peer_apply db op = Ok db' -> is_own me db'.
Proof.
  intros Hop Hr. destruct op; cbn [peer_apply]; intros E; try (injection E as <-).
  - eapply seed_bootstrap_inv; [|exact Hr|exact E]. clear. intros db ip port now source Hr db' E.
    unfold bm_peer_manager_upsert in E. case_match; [|done]. injection E as <-.
    apply upsert_own; [by left|done].
  - apply upsert_own; [by left|done].
  - apply upsert_own; [by right|done].
  - by destruct (Hop now).
  - apply update_own; done.
  - apply update_own; done.
Qed.

Lemma text_field_whole n s t : text_field n s = t -> blen t < n - 1 -> s = t.
Proof.
  unfold text_field, blen. intros <- H. rewrite length_take in H. rewrite take_ge; [done|lia].
Qed.

(** A candidate is a row that is not the node's own. *)
Lemma candidate_not_own me db (p : host_key -> host_row -> bool) b e n :
  is_own me db -> blen me.1.1 < 63 -> (forall k h, p k h = true -> h_is_self h = false) ->
  e ∈ map (read_host b) (best_hosts db p n) -> entry_key e <> me.
Proof.
  intros (r & Hr & Hs) Hl Hp He Hk. apply list_elem_of_fmap in He as ([k h] & -> & Hin).
  apply elem_of_take in Hin as (i & Hin & _). apply list_elem_of_lookup_2 in Hin.
  rewrite order_by_perm in Hin. apply elem_of_select_where in Hin as [Hk1 Hp1].
  destruct k as [[ip port] st], me as [[mip mport] mst]. unfold entry_key, read_host in Hk.
  cbn [pe_ip_address pe_port pe_stream fst snd] in *. injection Hk as Ht -> ->.
  apply text_field_whole in Ht; [|done]. subst mip. apply Hp in Hp1. congruence.
Qed.

(** ** Properties *)

(** In every table the node can build up, whatever peers, gossip and connection results
    do, each rating lies between -1.0 and 1.0 in the double arithmetic of the database, and
    sixteen failures in a row bring any of them to the threshold at which the cleanup
    forgets the peer three hours after it was last seen. *)
Theorem peer_ratings_bounded ops db k r :
  peer_run bm_peer_manager_init_schema ops = Ok db -> db !! k = Some r ->
  SFleb MINUS_ONE (h_rating r) = true /\ SFleb (h_rating r) ONE = true
  /\ SFleb (Nat.iter 16 rating_down (h_rating r)) BM_PEER_CLEANUP_FORGET_RATING = true.
Proof.
  intros Hrun Hk. apply peer_run_rated in Hrun. apply Hrun, ratings_spec in Hk as (_ & _ & Hb).
  unfold rating_bounds in Hb. rewrite !andb_true_iff in Hb. tauto.
Qed.

(** [bm_peer_manager_list_top] gives the connector at most [max_results] peers of the
    stream that are not the node itself, best rating first, and leaves none out that is
    rated above one it returns; [bm_peer_manager_list_shareable] does the same for the peers
    to advertise: rated at least 0.0, seen in the last three hours, no onion address. *)
Theorem bm_peer_manager_lists_best ops db stream max now oldest :
  peer_run bm_peer_manager_init_schema ops = Ok db ->
  oldest = now - 10800 -> - 2 ^ 63 <= oldest < 2 ^ 63 ->
  let best (p : host_key -> host_row -> bool) b out :=
    exists rows, out = map (read_host b) rows
      /\ StronglySorted (fun x y => SFleb (h_rating y.2) (h_rating x.2) = true) rows
      /\ Z.of_nat (length rows) <= Z.max 0 max
      /\ (forall k h, (k, h) ∈ rows -> db !! k = Some h /\ p k h = true)
      /\ (forall k h, db !! k = Some h -> p k h = true ->
            (k, h) ∈ rows
            \/ forall k' h', (k', h') ∈ rows -> SFleb (h_rating h) (h_rating h') = true) in
  best (fun k r => (k.2 =? stream) && negb (h_is_self r)) true
    (bm_peer_manager_list_top db stream max)
  /\ exists out, bm_peer_manager_list_shareable db stream now max = Ok out
     /\ best (fun k r => (k.2 =? stream) && negb (h_is_self r) && SFleb ZERO (h_rating r)
                          && (oldest <? h_last_seen r) && negb (like_onion k.1.1)) false out.
Proof.
  intros Hrun%peer_run_rated -> Ho best. split.
  - eexists. split; [reflexivity|]. by apply best_hosts_spec.
  - eexists. split; [unfold bm_peer_manager_list_shareable, BM_PEER_SHARE_MAX_AGE_SECONDS;
      rewrite int64_ok by lia; reflexivity|].
    eexists. split; [reflexivity|]. by apply best_hosts_spec.
Qed.

(** Once its own address is marked, the node neither picks it as a peer to connect to
    nor advertises it, whatever is learnt or recorded about it afterwards, for as long as no
    cleanup runs. *)
Theorem peer_self_never_candidate ip port stream now ops db db' :
  blen ip < 63 -> (forall t, OpCleanup t ∉ ops) ->
  peer_run (bm_peer_manager_mark_self db ip port stream now) ops = Ok db' ->
  (forall s max e, e ∈ bm_peer_manager_list_top db' s max -> entry_key e <> (ip, port, stream))
  /\ (forall s max t out e, bm_peer_manager_list_shareable db' s t max = Ok out -> e ∈ out ->
        entry_key e <> (ip, port, stream)).
Proof.
  intros Hl Hops Hrun.
  assert (Hown : is_own (ip, port, stream) db').
  { revert Hrun. apply (peer_run_inv (is_own (ip, port, stream))).
    - intros db0 op db1 Hop. apply peer_apply_own. intros t ->. by apply (Hops t).
    - unfold is_own, bm_peer_manager_mark_self. rewrite lookup_upsert, decide_True by done.
      eexists. split; [done|]. by case_match. }
  split.
  - intros s max e He. eapply candidate_not_own in He; [done|exact Hown|exact Hl|].
    intros k h. rewrite andb_true_iff, negb_true_iff. tauto.
  - intros s max t out e Ho He. apply bind_ok_inv in Ho as (o & _ & Ho). injection Ho as <-.
    eapply candidate_not_own in He; [done|exact Hown|exact Hl|].
    intros k h. unfold shareable. rewrite !andb_true_iff, !negb_true_iff. tauto.
Qed.

(** The cleanup forgets the mark too: [bm_peer_manager_mark_self] leaves the time of an
    existing row as it is, so when the address was last heard of more than 28 days ago the
    cleanup removes the row that was just marked, and the next gossip about the address enters it as an ordinary peer
    that [bm_peer_manager_list_top] offers for connecting. *)
Theorem peer_self_forgotten db ip port stream r marked now services seen source max :
  db !! (ip, port, stream) = Some r -> now - h_last_seen r > 28 * 24 * 60 * 60 -> blen ip < 63 ->
  let db1 := (bm_peer_manager_cleanup (bm_peer_manager_mark_self db ip port stream marked) now).2 in
  let db2 := bm_peer_manager_upsert_learned db1 ip port stream services seen source in
  Z.of_nat (size db2) <= max ->
  exists e, e ∈ bm_peer_manager_list_top db2 stream max /\ entry_key e = (ip, port, stream).
Proof.
  intros Hr Hage Hl db1 db2 Hmax.
  assert (H1 : db1 !! (ip, port, stream) = None).
  { unfold db1, bm_peer_manager_cleanup, bm_peer_manager_mark_self. cbn [snd].
    rewrite lookup_delete_where, lookup_upsert, decide_True, Hr by done. cbn.
    unfold forgotten, BM_PEER_CLEANUP_MAX_AGE_SECONDS. cbn [h_last_seen].
    destruct (Z.ltb_spec (28 * 24 * 60 * 60) (now - h_last_seen r)); [done|lia]. }
  set (row := {| h_services := s64 services; h_last_seen := seen; h_rating := ZERO;
    h_source := source; h_is_self := false; h_last_attempt := 0 |}).
  assert (H2 : db2 !! (ip, port, stream) = Some row).
  { unfold db2, bm_peer_manager_upsert_learned. by rewrite lookup_upsert, decide_True, H1. }
  exists (read_host true ((ip, port, stream), row)). split.
  - apply list_elem_of_fmap. eexists. split; [done|]. unfold best_hosts.
    set (rows := select_where _ _).
    assert (Hn : (length (order_by (fun a b : host_key * host_row =>
        SFleb (h_rating b.2) (h_rating a.2)) rows) <= Z.to_nat max)%nat).
    { rewrite order_by_perm. unfold rows, select_where. rewrite length_filter, length_map_to_list. lia. }
    rewrite take_ge, order_by_perm by done. apply elem_of_select_where. cbn. by rewrite Z.eqb_refl.
  - unfold entry_key, read_host. cbn. unfold text_field. rewrite take_ge; [done|].
    unfold blen in Hl. lia.
Qed.

(** ** Witnesses *)

Definition own_ip : list Z := [97].
Definition peer_ops : list peer_op :=
  [OpLearned [98] 8444 1 1 1000 [115]; OpLearned own_ip 8444 1 1 900 [115];
   OpResult [97] 8444 1 true 1100; OpResult [98] 8444 1 false 1100; OpCleanup 9000].
Definition failed_row : host_row :=
  {| h_services := 1; h_last_seen := 1000; h_rating := rating_down ZERO;
     h_source := [115]; h_is_self := false; h_last_attempt := 0 |}.

Lemma peer_ratings_bounded_witness :
  SFleb MINUS_ONE (h_rating failed_row) = true
  /\ SFleb (Nat.iter 16 rating_down (h_rating failed_row)) BM_PEER_CLEANUP_FORGET_RATING = true.
Proof.
  epose proof (peer_ratings_bounded peer_ops ?[db] ([98], 8444, 1) failed_row eq_refl) as H.
  destruct H as (H1 & _ & H2).
  - vm_compute. reflexivity.
  - split; [exact H1|exact H2].
Defined.

Lemma bm_peer_manager_lists_best_witness :
  exists db rows, peer_run bm_peer_manager_init_schema peer_ops = Ok db
    /\ bm_peer_manager_list_top db 1 3 = map (read_host true) rows /\ Z.of_nat (length rows) <= 3.
Proof.
  destruct (peer_run bm_peer_manager_init_schema peer_ops) as [db| |] eqn:E; [|done|done].
  pose proof (bm_peer_manager_lists_best peer_ops db 1 3 9000 (-1800) E) as H. cbv zeta beta in H.
  destruct H as [(rows & Er & _ & L & _) _].
  - reflexivity.
  - lia.
  - exists db, rows. split; [reflexivity|]. split; [exact Er|exact L].
Defined.

Lemma peer_self_never_candidate_witness :
  exists db, peer_run (bm_peer_manager_mark_self ∅ own_ip 8444 1 5) (take 4 peer_ops) = Ok db
    /\ forall s max e, e ∈ bm_peer_manager_list_top db s max -> entry_key e <> (own_ip, 8444, 1).
Proof.
  destruct (peer_run (bm_peer_manager_mark_self ∅ own_ip 8444 1 5) (take 4 peer_ops))
    as [db| |] eqn:E; [|done|done].
  exists db. split; [reflexivity|].
  apply (peer_self_never_candidate own_ip 8444 1 5 (take 4 peer_ops) ∅ db).
  - by vm_compute.
  - intros t H. cbn [take peer_ops] in H. rewrite !elem_of_cons in H.
    by destruct H as [?|[?|[?|[?|?%not_elem_of_nil]]]].
  - exact E.
Defined.

Lemma peer_self_forgotten_witness :
  exists e, e ∈ bm_peer_manager_list_top
      (bm_peer_manager_upsert_learned
         (bm_peer_manager_cleanup
            (bm_peer_manager_mark_self
               (bm_peer_manager_mark_self ∅ own_ip 8444 1 5) own_ip 8444 1 3000000) 3000000).2
         own_ip 8444 1 1 3000000 (cstr "onionpeer"%string)) 1 10
    /\ entry_key e = (own_ip, 8444, 1).
Proof.
  eapply (peer_self_forgotten (bm_peer_manager_mark_self ∅ own_ip 8444 1 5) own_ip 8444 1
    {| h_services := 0; h_last_seen := 5; h_rating := ZERO; h_source := cstr "self"%string;
       h_is_self := true; h_last_attempt := 0 |}).
  - by vm_compute.
  - cbn [h_last_seen]. lia.
  - by vm_compute.
  - by vm_compute.
Defined.
