(* ===== verification/Config.v ===== *)
(** * Settings (core/config_store.c, core/config_file.c)

    The tables of config.db, and the reader of bitmessage.conf.  Character arrays and C
    strings are the characters before their NUL.  [atoi] and [atoll] of a number that their
    type cannot hold are undefined (C17, 7.22.1). *)

From Stdlib Require Import String.
From stdpp Require Import base tactics numbers option gmap list.
From S2P Require Import Prelude Json Sql PeerManager.

(** ** config.db *)

Module ConfigStore.

Record bm_socks_proxy_config := { sp_enabled : Z; sp_host : list Z; sp_port : Z }.

(** The tables; the CHECK constraint leaves each the single key 1.  The key of the onion
    service may be NULL. *)
Record config_db := {
  socks_proxy : gmap Z bm_socks_proxy_config;
  socks_proxy_clearnet : gmap Z bm_socks_proxy_config;
  tor_onion : gmap Z (option (list Z))
}.

#[export] Instance config_db_eta : RecordEta config_db := fun r =>
  {| socks_proxy := socks_proxy r; socks_proxy_clearnet := socks_proxy_clearnet r;
     tor_onion := tor_onion r |}.

Definition BM_SOCKS_HOST_SIZE : Z := 256.

Definition get_socks_proxy_from_table (table : gmap Z bm_socks_proxy_config) : bm_socks_proxy_config :=
  match table !! 1 with
  | None => {| sp_enabled := 0; sp_host := cstr "127.0.0.1"%string; sp_port := 9050 |}
  | Some row =>
      {| sp_enabled := sp_enabled row; sp_host := text_field BM_SOCKS_HOST_SIZE (sp_host row);
         sp_port := sp_port row |}
  end.

Definition set_socks_proxy_to_table (table : gmap Z bm_socks_proxy_config)
  (cfg : bm_socks_proxy_config) : gmap Z bm_socks_proxy_config :=
  upsert table 1 cfg (fun _ => cfg).

Definition bm_config_store_get_socks_proxy_onion (db : config_db) : bm_socks_proxy_config :=
  get_socks_proxy_from_table (socks_proxy db).

Definition bm_config_store_set_socks_proxy_onion (db : config_db) (cfg : bm_socks_proxy_config)
  : config_db :=
  db <| socks_proxy := set_socks_proxy_to_table (socks_proxy db) cfg |>.

Definition bm_config_store_get_socks_proxy_clearnet (db : config_db) : bm_socks_proxy_config :=
  get_socks_proxy_from_table (socks_proxy_clearnet db).

Definition bm_config_store_set_socks_proxy_clearnet (db : config_db) (cfg : bm_socks_proxy_config)
  : config_db :=
  db <| socks_proxy_clearnet := set_socks_proxy_to_table (socks_proxy_clearnet db) cfg |>.

(** The text left in [out], and whether a key was found. *)
Definition bm_config_store_get_tor_onion_key (db : config_db) (out_size : Z) : list Z * bool :=
  match tor_onion db !! 1 with
  | Some (Some key) => (text_field out_size key, true)
  | _ => ([], false)
  end.

Definition bm_config_store_set_tor_onion_key (db : config_db) (private_key : option (list Z))
  : config_db :=
  db <| tor_onion := upsert (tor_onion db) 1 private_key (fun _ => private_key) |>.

End ConfigStore.

(** ** bitmessage.conf *)

(** [strtol] in base 10 without its clamping: white space, a sign, digits. *)
Definition scan_int (s : list Z) : Z :=
  let s := skip_while isspace s in
  let '(neg, s) :=
    match s with
    | c :: r => if c =? 45 then (true, r) else if c =? 43 then (false, r) else (false, s)
    | [] => (false, s)
    end in
  let v := digits_value (span (length s) isdigit s).1 in
  if neg : bool then - v else v.

Definition atoi (s : list Z) : cres Z :=
  let v := scan_int s in if (- 2 ^ 31 <=? v) && (v <? 2 ^ 31) then Ok v else Ub.
Definition atoll (s : list Z) : cres Z := int64 (scan_int s).

Definition BM_CONFIG_FILE_STR_MAX : Z := 256.

Record bm_config_file := {
  testnet : Z;
  no_connect : Z;
  max_outbound_connections : Z;
  api_port : Z;
  inbound_port : Z;
  tor_control : Z;
  tor_control_socket : list Z;
  tor_control_host : list Z;
  tor_control_port : Z;
  tor_virtual_port : Z;
  onion_address : list Z;
  default_nonce_trials_per_byte : Z;
  default_payload_length_extra_bytes : Z;
  pq_enabled : Z
}.

#[export] Instance bm_config_file_eta : RecordEta bm_config_file := fun r =>
  {| testnet := testnet r; no_connect := no_connect r;
     max_outbound_connections := max_outbound_connections r; api_port := api_port r;
     inbound_port := inbound_port r; tor_control := tor_control r;
     tor_control_socket := tor_control_socket r; tor_control_host := tor_control_host r;
     tor_control_port := tor_control_port r; tor_virtual_port := tor_virtual_port r;
     onion_address := onion_address r;
     default_nonce_trials_per_byte := default_nonce_trials_per_byte r;
     default_payload_length_extra_bytes := default_payload_length_extra_bytes r;
     pq_enabled := pq_enabled r |}.

#[export] Instance bm_config_file_eq_dec : EqDecision bm_config_file.
Proof. solve_decision. Defined.

Definition set_defaults : bm_config_file :=
  {| testnet := 0; no_connect := 0; max_outbound_connections := 3; api_port := 8442;
     inbound_port := 0; tor_control := 0; tor_control_socket := cstr "/run/tor/control"%string;
     tor_control_host := cstr "127.0.0.1"%string; tor_control_port := 9051;
     tor_virtual_port := 8444; onion_address := [];
     default_nonce_trials_per_byte := 1000; default_payload_length_extra_bytes := 1000;
     pq_enabled := 0 |}.

(** White space at both ends goes. *)
Definition trim (s : list Z) : list Z :=
  rev (skip_while isspace (rev (skip_while isspace s))).

Definition copy_setting (value : list Z) : list Z := text_field BM_CONFIG_FILE_STR_MAX value.

(** The keys of one section.  A key that is not of the section ends in the warning, which
    changes nothing. *)
Definition apply_network (out : bm_config_file) (key value : list Z) : cres bm_config_file :=
  if list_eqb key (cstr "testnet"%string) then v ← atoi value; Ok (out <| testnet := v |>)
  else if list_eqb key (cstr "no_connect"%string) then v ← atoi value; Ok (out <| no_connect := v |>)
  else if list_eqb key (cstr "max_outbound_connections"%string) then
    v ← atoi value;
    if v <=? 0 then Ok out else Ok (out <| max_outbound_connections := v |>)
  else Ok out.

Definition apply_identity (out : bm_config_file) (key value : list Z) : cres bm_config_file :=
  if list_eqb key (cstr "default_nonce_trials_per_byte"%string) then
    v ← atoll value;
    if v <=? 0 then Ok out else Ok (out <| default_nonce_trials_per_byte := u64 v |>)
  else if list_eqb key (cstr "default_payload_length_extra_bytes"%string) then
    v ← atoll value;
    if v <=? 0 then Ok out else Ok (out <| default_payload_length_extra_bytes := u64 v |>)
  else Ok out.

Definition apply_tor (out : bm_config_file) (key value : list Z) : cres bm_config_file :=
  if list_eqb key (cstr "control"%string) then v ← atoi value; Ok (out <| tor_control := v |>)
  else if list_eqb key (cstr "control_socket"%string) then
    Ok (out <| tor_control_socket := copy_setting value |>)
  else if list_eqb key (cstr "control_host"%string) then
    Ok (out <| tor_control_host := copy_setting value |>)
  else if list_eqb key (cstr "control_port"%string) then
    v ← atoi value; Ok (out <| tor_control_port := v |>)
  else if list_eqb key (cstr "virtual_port"%string) then
    v ← atoi value; Ok (out <| tor_virtual_port := v |>)
  else if list_eqb key (cstr "onion_address"%string) then
    Ok (out <| onion_address := copy_setting value |>)
  else Ok out.

Definition apply_kv (out : bm_config_file) (section key value : list Z) : cres bm_config_file :=
  if list_eqb section (cstr "network"%string) then apply_network out key value
  else if list_eqb section (cstr "identity"%string) then apply_identity out key value
  else if list_eqb section (cstr "api"%string) then
    if list_eqb key (cstr "port"%string) then v ← atoi value; Ok (out <| api_port := v |>) else Ok out
  else if list_eqb section (cstr "inbound"%string) then
    if list_eqb key (cstr "port"%string) then v ← atoi value; Ok (out <| inbound_port := v |>) else Ok out
  else if list_eqb section (cstr "tor"%string) then apply_tor out key value
  else if list_eqb section (cstr "pq"%string) then
    if list_eqb key (cstr "enabled"%string) then v ← atoi value; Ok (out <| pq_enabled := v |>) else Ok out
  else Ok out.

(** [strchr(s, '=')]: what is before and after the first [=]. *)
Fixpoint split_eq (s : list Z) : option (list Z * list Z) :=
  match s with
  | [] => None
  | c :: s => if c =? 61 then Some ([], s) else
      match split_eq s with Some (a, b) => Some (c :: a, b) | None => None end
  end.

Definition SECTION_SIZE : Z := 64.
Definition LINE_SIZE : nat := 512.

(** One turn of the loop: the settings and the section after [line], as [fgets] left it. *)
Definition config_line (out : bm_config_file) (section line : list Z)
  : cres (bm_config_file * list Z) :=
  let trimmed := trim (c_string line) in
  match trimmed with
  | [] => Ok (out, section)
  | c :: inner =>
      if (c =? 35) || (c =? 59) then Ok (out, section) else
      if (c =? 91) && (default 0 (last trimmed) =? 93) then
        Ok (out, text_field SECTION_SIZE (removelast inner))
      else
        match split_eq trimmed with
        | None => Ok (out, section)
        | Some (key, value) =>
            out ← apply_kv out section (trim key) (trim value);
            Ok (out, section)
        end
  end.

(** The loop over the lines; [fuel] bounds their number. *)
Fixpoint config_lines (fuel : nat) (out : bm_config_file) (section file : list Z)
  : cres bm_config_file :=
  match fuel, file with
  | S fuel, _ :: _ =>
      let '(line, rest) := fgets (LINE_SIZE - 1) file in
      r ← config_line out section line;
      config_lines fuel r.1 r.2 rest
  | _, _ => Ok out
  end.

(** [file]: the bytes of the file, if it can be opened. *)
Definition bm_config_file_load (file : option (list Z)) : cres (bool * bm_config_file) :=
  match file with
  | None => Ok (false, set_defaults)
  | Some bytes =>
      out ← config_lines (length bytes) set_defaults [] bytes;
      Ok (true, out)
  end.

(** ** config.db: what is set is what is read *)

Import ConfigStore.

(** Setting one of the two proxies is read back, at the size of the array, and leaves the
    other and the key alone. *)
Lemma socks_proxy_settings (db : config_db) (cfg : bm_socks_proxy_config) :
  let db1 := bm_config_store_set_socks_proxy_onion db cfg in
  let db2 := bm_config_store_set_socks_proxy_clearnet db cfg in
  let kept := {| sp_enabled := sp_enabled cfg; sp_host := text_field 256 (sp_host cfg);
                 sp_port := sp_port cfg |} in
  bm_config_store_get_socks_proxy_onion db1 = kept
  /\ bm_config_store_get_socks_proxy_clearnet db1 = bm_config_store_get_socks_proxy_clearnet db
  /\ bm_config_store_get_socks_proxy_clearnet db2 = kept
  /\ bm_config_store_get_socks_proxy_onion db2 = bm_config_store_get_socks_proxy_onion db
  /\ tor_onion db1 = tor_onion db /\ tor_onion db2 = tor_onion db.
Proof.
  assert (Hset : forall t, get_socks_proxy_from_table (set_socks_proxy_to_table t cfg)
    = {| sp_enabled := sp_enabled cfg; sp_host := text_field 256 (sp_host cfg); sp_port := sp_port cfg |}).
  { intros t. unfold get_socks_proxy_from_table, set_socks_proxy_to_table.
    rewrite lookup_upsert, decide_True by done. by destruct (t !! 1). }
  repeat split; apply Hset.
Qed.

(** ** Text *)

Definition run_of_spaces (w : list Z) : Prop := Forall (fun c => isspace c = true) w.

(** No white space at either end. *)
Definition clean (s : list Z) : Prop :=
  s = [] \/ (exists a t, s = a :: t /\ isspace a = false) /\ (exists u b, s = u ++ [b] /\ isspace b = false).

Lemma skip_spaces w s : run_of_spaces w -> skip_while isspace (w ++ s) = skip_while isspace s.
Proof. induction 1 as [|c w Hc _ IH]; [done|]. cbn [app skip_while]. by rewrite Hc. Qed.

Lemma trim_pad s w : clean s -> run_of_spaces w -> trim (s ++ w) = s.
Proof.
  intros [->|[(a & t & Ha & Hsa) (u & b & Hb & Hsb)]] Hw; unfold trim.
  - cbn [app]. rewrite <- (app_nil_r w), skip_spaces by done. done.
  - assert (E : skip_while isspace (s ++ w) = s ++ w) by (rewrite Ha; cbn [app skip_while]; by rewrite Hsa).
    rewrite E, rev_app_distr, skip_spaces by (by apply Forall_rev).
    rewrite Hb, rev_app_distr. cbn [rev app skip_while]. rewrite Hsb. cbn [rev].
    by rewrite rev_involutive.
Qed.

Lemma skip_while_suffix p s : exists a, s = a ++ skip_while p s.
Proof.
  induction s as [|c s [a IH]]; [by exists []|]. cbn [skip_while]. destruct (p c).
  - exists (c :: a). cbn [app]. by f_equal.
  - by exists [].
Qed.

(** [infix s l]: [s] is a piece of [l]. *)
Definition infix (s l : list Z) : Prop := exists a b, l = a ++ s ++ b.

Lemma infix_refl l : infix l l.
Proof. exists [], []. by rewrite app_nil_r. Qed.
Lemma infix_app a s b : infix s (a ++ s ++ b).
Proof. by exists a, b. Qed.
Lemma infix_trans a b c : infix a b -> infix b c -> infix a c.
Proof.
  intros (x & y & ->) (z & w & ->). exists (z ++ x), (y ++ w). by rewrite !(assoc_L app).
Qed.
Lemma infix_skip_while p s : infix (skip_while p s) s.
Proof.
  destruct (skip_while_suffix p s) as [a Ha]. exists a, []. by rewrite app_nil_r.
Qed.
Lemma infix_cons c s : infix s (c :: s).
Proof. exists [c], []. by rewrite app_nil_r. Qed.
Lemma infix_rev s l : infix s l -> infix (rev s) (rev l).
Proof.
  intros (a & b & ->). exists (rev b), (rev a). by rewrite !rev_app_distr, (assoc_L app).
Qed.
Lemma infix_trim s : infix (trim s) s.
Proof.
  unfold trim. eapply infix_trans; [|apply (infix_skip_while isspace)].
  rewrite <- (rev_involutive (skip_while isspace s)) at 2. apply infix_rev, infix_skip_while.
Qed.
Lemma infix_c_string s : infix (c_string s) s.
Proof.
  assert (P : exists d, s = c_string s ++ d).
  { induction s as [|c s [d IH]]; [by exists []|]. cbn [c_string].
    destruct (c =? 0); [by eexists|]. exists d. cbn [app]. by f_equal. }
  destruct P as [d Hd]. by exists [], d.
Qed.
Lemma infix_span n p s : infix (span n p s).1 s.
Proof.
  assert (P : exists d, s = (span n p s).1 ++ d).
  { revert s. induction n as [|n IH]; intros s; [by exists s|]. destruct s as [|c s]; [by exists []|].
    cbn [span]. destruct (p c); [|by eexists]. specialize (IH s) as [d Hd].
    destruct (span n p s) as [w r]. exists d. cbn [fst app] in *. by f_equal. }
  destruct P as [d Hd]. by exists [], d.
Qed.
Create HintDb infix.
#[local] Hint Resolve infix_refl infix_skip_while infix_cons infix_trim infix_c_string infix_span : infix.

Lemma span_all p s n : (length s <= n)%nat -> Forall (fun c => p c = true) s -> span n p s = (s, []).
Proof.
  revert n. induction s as [|c s IH]; intros n Hn Hs; [by destruct n|].
  destruct n as [|n]; [simpl in Hn; lia|]. inversion Hs as [|?? Hc Hs']; subst. cbn [span]. rewrite Hc.
  cbn [length] in Hn. by rewrite IH by (done || lia).
Qed.

Lemma fgets_app n s : let '(line, rest) := fgets n s in s = line ++ rest.
Proof.
  revert s. induction n as [|n IH]; intros s; [done|]. destruct s as [|c s]; [done|]. cbn [fgets].
  destruct (c =? 10); [done|]. specialize (IH s). destruct (fgets n s). cbn [app]. by f_equal.
Qed.

Lemma fgets_progress n c s : (0 < n)%nat -> (length (fgets n (c :: s)).2 <= length s)%nat.
Proof.
  intros Hn. destruct n as [|n]; [lia|]. cbn [fgets]. destruct (c =? 10); [done|].
  pose proof (fgets_app n s) as E. destruct (fgets n s) as [line rest]. cbn [snd].
  subst s. rewrite length_app. lia.
Qed.

Lemma fgets_line n line rest :
  Forall (fun c => c <> 10) line -> (length line < n)%nat ->
  fgets n (line ++ 10 :: rest) = (line ++ [10], rest).
Proof.
  revert n. induction line as [|c line IH]; intros n Hl Hn; (destruct n as [|n]; [simpl in Hn; lia|]).
  - done.
  - inversion Hl as [|?? Hc Hl']; subst. cbn [app fgets length] in *.
    rewrite (proj2 (Z.eqb_neq c 10) Hc), IH by (done || lia). done.
Qed.

(** ** Whatever the file holds, the settings are usable *)

(** A run of digits that an [int] cannot hold. *)
Definition wide_number (l : list Z) : Prop :=
  exists s, infix s l /\ Forall (fun c => isdigit c = true) s /\ 2 ^ 31 <= digits_value s.

Definition int_range (z : Z) : Prop := - 2 ^ 31 <= z < 2 ^ 31.

(** The text of a setting fits its array. *)
Definition text_ok (s : list Z) : Prop := blen s < BM_CONFIG_FILE_STR_MAX.

(** Every number is an [int], connections are wanted, and neither difficulty is 0 (which
    would make [bm_pow_get_target] divide by zero). *)
Definition usable (c : bm_config_file) : Prop :=
  Forall int_range [testnet c; no_connect c; max_outbound_connections c; api_port c; inbound_port c;
                    tor_control c; tor_control_port c; tor_virtual_port c; pq_enabled c]
  /\ Forall text_ok [tor_control_socket c; tor_control_host c; onion_address c]
  /\ 0 < max_outbound_connections c
  /\ 0 < default_nonce_trials_per_byte c < 2 ^ 63
  /\ 0 < default_payload_length_extra_bytes c < 2 ^ 63.

(** What reading a piece [l] of the file may give. *)
Definition settings_from (l : list Z) (r : cres bm_config_file) : Prop :=
  match r with Ok c => usable c | Err => False | Ub => wide_number l end.

Lemma wide_number_infix a b : infix a b -> wide_number a -> wide_number b.
Proof. intros H (s & Hs & Hd). exists s. split; [by eapply infix_trans|done]. Qed.

Lemma settings_from_infix a b r : infix a b -> settings_from a r -> settings_from b r.
Proof. destruct r; simpl; auto. apply wide_number_infix. Qed.

Lemma span_digits n s : Forall (fun c => isdigit c = true) (span n isdigit s).1.
Proof.
  revert s. induction n as [|n IH]; intros s; [constructor|]. destruct s as [|c s]; [constructor|].
  cbn [span]. destruct (isdigit c) eqn:E; [|constructor]. specialize (IH s).
  destruct (span n isdigit s). by constructor.
Qed.

Lemma digits_value_nonneg s : Forall (fun c => isdigit c = true) s -> 0 <= digits_value s.
Proof.
  unfold digits_value. intros Hs.
  enough (H : forall a, 0 <= a -> 0 <= fold_left (fun a c => a * 10 + (c - 48)) s a) by by apply H.
  induction Hs as [|c s Hc _ IH]; intros a Ha; [done|]. cbn [fold_left]. apply IH.
  unfold isdigit in Hc. lia.
Qed.

(** A number outside [int] is written in the text. *)
Lemma scan_int_wide s : ~ int_range (scan_int s) -> wide_number s.
Proof.
  unfold scan_int, int_range. pose proof (infix_skip_while isspace s) as Hi.
  destruct (skip_while isspace s) as [|c r] eqn:E.
  - intros H. exfalso. apply H. by vm_compute.
  - assert (Hs : forall t (neg : bool), infix t s ->
      ~ - 2 ^ 31 <= (if neg then - digits_value (span (length t) isdigit t).1
                     else digits_value (span (length t) isdigit t).1) < 2 ^ 31 -> wide_number s).
    { intros t neg Ht H. exists (span (length t) isdigit t).1.
      pose proof (span_digits (length t) t) as Hd. pose proof (digits_value_nonneg _ Hd).
      split; [eapply infix_trans; [apply infix_span|done]|]. split; [done|]. destruct neg; lia. }
    assert (Hr : infix r s) by (eapply infix_trans; [apply infix_cons|exact Hi]).
    destruct (c =? 45); [apply (Hs r true Hr)|].
    destruct (c =? 43); [apply (Hs r false Hr)|apply (Hs (c :: r) false Hi)].
Qed.

Lemma atoi_cases s :
  (exists v, atoi s = Ok v /\ int_range v) \/ (atoi s = Ub /\ wide_number s).
Proof.
  unfold atoi. pose proof (scan_int_wide s) as H. unfold int_range in *.
  destruct (Z.leb_spec (- 2 ^ 31) (scan_int s)), (Z.ltb_spec (scan_int s) (2 ^ 31)); cbn [andb];
    first [left; eexists; split; [done|lia] | right; split; [done|apply H; lia]].
Qed.

Lemma atoll_cases s :
  (exists v, atoll s = Ok v /\ - 2 ^ 63 <= v < 2 ^ 63) \/ (atoll s = Ub /\ wide_number s).
Proof.
  unfold atoll, int64. pose proof (scan_int_wide s) as H. unfold int_range in *.
  destruct (Z.leb_spec (- 2 ^ 63) (scan_int s)), (Z.ltb_spec (scan_int s) (2 ^ 63)); cbn [andb];
    first [left; eexists; split; [done|lia] | right; split; [done|apply H; lia]].
Qed.

Lemma text_ok_copy s : text_ok (copy_setting s).
Proof.
  unfold text_ok, copy_setting, text_field, blen, BM_CONFIG_FILE_STR_MAX. rewrite length_take. lia.
Qed.

(** A setting that is a number: the parsed [int], where it matters, goes through [f]. *)
Lemma atoi_setting value (f : Z -> bm_config_file) :
  (forall v, int_range v -> usable (f v)) -> settings_from value (v ← atoi value; Ok (f v)).
Proof. intros Hf. destruct (atoi_cases value) as [(v & -> & Hv)|[-> Hw]]; [by apply Hf|done]. Qed.

Lemma positive_setting (read : list Z -> cres Z) value out (f : Z -> bm_config_file) (P : Z -> Prop) :
  (exists v, read value = Ok v /\ P v) \/ (read value = Ub /\ wide_number value) ->
  usable out -> (forall v, P v -> 0 < v -> usable (f v)) ->
  settings_from value (v ← read value; if v <=? 0 then Ok out else Ok (f v)).
Proof.
  intros [(v & -> & Hv)|[-> Hw]] Ho Hf; [|done]. rewrite bind_ok. cbv beta.
  destruct (Z.leb_spec v 0); [done|]. by apply Hf.
Qed.

(** Usability after one field of usable settings has changed. *)
Ltac usable_field :=
  repeat match goal with
  | H : usable _ |- _ => destruct H as (? & ? & ? & ? & ?)
  | H : Forall _ (_ :: _) |- _ => apply Forall_cons_1 in H as [? ?]
  end;
  unfold usable; split_and!; cbn;
  repeat first [apply Forall_nil_2 | apply Forall_cons_2];
  first [done | lia | apply text_ok_copy | (unfold u64; rewrite Z.mod_small; lia)].

Lemma apply_kv_usable out section key value :
  usable out -> settings_from value (apply_kv out section key value).
Proof.
  intros Ho. unfold apply_kv, apply_network, apply_identity, apply_tor.
  repeat match goal with |- context [list_eqb ?a ?b] => destruct (list_eqb a b) end;
    first
      [ exact Ho
      | apply atoi_setting; intros v Hv; usable_field
      | apply (positive_setting atoi _ _ _ int_range); [apply atoi_cases|done|intros v Hv Hp; usable_field]
      | apply (positive_setting atoll _ _ _ (fun v => - 2 ^ 63 <= v < 2 ^ 63));
          [apply atoll_cases|done|intros v Hv Hp; usable_field]
      | usable_field ].
Qed.

Lemma split_eq_infix s a b : split_eq s = Some (a, b) -> infix b s.
Proof.
  revert a. induction s as [|c s IH]; intros a E; [done|]. cbn [split_eq] in E.
  destruct (c =? 61); [simplify_eq; apply infix_cons|].
  destruct (split_eq s) as [[a' b']|]; [|done]. simplify_eq.
  eapply infix_trans; [by eapply IH|apply infix_cons].
Qed.

Lemma config_line_usable out section line :
  usable out ->
  match config_line out section line with
  | Ok (out, _) => usable out | Err => False | Ub => wide_number line
  end.
Proof.
  intros Ho. unfold config_line.
  assert (Ht : infix (trim (c_string line)) line)
    by (eapply infix_trans; [apply infix_trim|apply infix_c_string]).
  destruct (trim (c_string line)) as [|c inner]; [done|].
  destruct ((c =? 35) || (c =? 59)); [done|].
  destruct ((c =? 91) && (default 0 (last (c :: inner)) =? 93)); [done|].
  destruct (split_eq (c :: inner)) as [[k v]|] eqn:E; [|done].
  pose proof (apply_kv_usable out section (trim k) (trim v) Ho) as H.
  destruct (apply_kv out section (trim k) (trim v)); [done|done|]. cbn [settings_from] in H.
  apply (wide_number_infix (trim v)); [|done].
  eapply infix_trans; [apply infix_trim|]. eapply infix_trans; [by eapply split_eq_infix|done].
Qed.

Lemma config_lines_usable fuel out section file :
  usable out -> settings_from file (config_lines fuel out section file).
Proof.
  revert out section file. induction fuel as [|fuel IH]; intros out section file Ho; [done|].
  destruct file as [|c file]; [done|]. cbn [config_lines].
  pose proof (fgets_app (LINE_SIZE - 1) (c :: file)) as Hf.
  destruct (fgets (LINE_SIZE - 1) (c :: file)) as [line rest]. rewrite Hf.
  pose proof (config_line_usable out section line Ho) as H.
  destruct (config_line out section line) as [[out' section']| |]; [|done|]; simpl in *.
  - eapply settings_from_infix; [|by apply IH]. exists line, []. by rewrite app_nil_r.
  - eapply wide_number_infix; [|done]. by exists [], rest.
Qed.

Lemma usable_defaults : usable set_defaults.
Proof. unfold usable. split_and!; repeat first [apply Forall_nil_2 | apply Forall_cons_2]; by vm_compute. Qed.

(** C40: whatever bytes bitmessage.conf holds (or if it is absent), [bm_config_file_load] returns
    usable settings: numbers in the range of [int], texts that fit their arrays, at least one
    outbound connection and two positive difficulties.  The only exception is a file that spells a
    number no [int] can hold. *)
Theorem config_load_usable (file : option (list Z)) :
  match bm_config_file_load file with
  | Ok (found, c) => found = bool_decide (is_Some file) /\ usable c
  | Err => False
  | Ub => exists bytes, file = Some bytes /\ wide_number bytes
  end.
Proof.
  destruct file as [bytes|]; [|by split; [|apply usable_defaults]]. unfold bm_config_file_load.
  pose proof (config_lines_usable (length bytes) set_defaults [] bytes usable_defaults) as H.
  destruct (config_lines (length bytes) set_defaults [] bytes); [by split|done|]. by eexists.
Qed.

(** ** A file that writes out the settings is read back *)

Definition kv (k v : list Z) : list Z := k ++ cstr " = "%string ++ v.

Definition header (name : list Z) : list Z := cstr "["%string ++ name ++ cstr "]"%string.

(** The lines of a file that sets everything. *)
Definition config_text (c : bm_config_file) : list (list Z) :=
  [ header (cstr "network"%string);
    kv (cstr "testnet"%string) (fmt_lld (testnet c));
    kv (cstr "no_connect"%string) (fmt_lld (no_connect c));
    kv (cstr "max_outbound_connections"%string) (fmt_lld (max_outbound_connections c));
    header (cstr "identity"%string);
    kv (cstr "default_nonce_trials_per_byte"%string) (fmt_lld (default_nonce_trials_per_byte c));
    kv (cstr "default_payload_length_extra_bytes"%string)
      (fmt_lld (default_payload_length_extra_bytes c));
    header (cstr "api"%string);
    kv (cstr "port"%string) (fmt_lld (api_port c));
    header (cstr "inbound"%string);
    kv (cstr "port"%string) (fmt_lld (inbound_port c));
    header (cstr "tor"%string);
    kv (cstr "control"%string) (fmt_lld (tor_control c));
    kv (cstr "control_socket"%string) (tor_control_socket c);
    kv (cstr "control_host"%string) (tor_control_host c);
    kv (cstr "control_port"%string) (fmt_lld (tor_control_port c));
    kv (cstr "virtual_port"%string) (fmt_lld (tor_virtual_port c));
    kv (cstr "onion_address"%string) (onion_address c);
    header (cstr "pq"%string);
    kv (cstr "enabled"%string) (fmt_lld (pq_enabled c)) ].

Definition print_lines (lines : list (list Z)) : list Z := concat (map (fun l => l ++ [10]) lines).

(** A text that an INI line can carry: one line, no white space at its ends. *)
Definition plain (s : list Z) : Prop := clean s /\ Forall (fun c => c <> 10 /\ c <> 0) s.

Definition key_ok (k : list Z) : bool :=
  match k with a :: _ => negb (isspace a) && negb (existsb (Z.eqb a) [35; 59; 91]) | [] => false end
  && match last k with Some b => negb (isspace b) | None => false end
  && forallb (fun c => negb (existsb (Z.eqb c) [61; 10; 0])) k
  && (length k <=? 200)%nat.

(** *** The loop over lines *)

Definition load_from (out : bm_config_file) (section file : list Z) : cres bm_config_file :=
  config_lines (length file) out section file.

Lemma config_lines_fuel fuel out section file :
  (length file <= fuel)%nat -> config_lines fuel out section file = load_from out section file.
Proof.
  unfold load_from. revert fuel out section.
  induction file as [file IH] using (induction_ltof1 _ (@length Z)). intros fuel out section Hf.
  destruct file as [|c s]; [by destruct fuel|].
  destruct fuel as [|fuel]; [simpl in Hf; lia|]. cbn [length config_lines].
  pose proof (fgets_progress (LINE_SIZE - 1) c s ltac:(unfold LINE_SIZE; lia)) as Hp.
  destruct (fgets (LINE_SIZE - 1) (c :: s)) as [line rest]. cbn [snd length] in *.
  destruct (config_line out section line) as [[o sec]| |]; [|done|done]. rewrite !bind_ok.
  cbn [fst snd].
  etrans; [apply IH|symmetry; apply IH]; unfold ltof; cbn [length]; lia.
Qed.

Lemma load_line out section line rest :
  Forall (fun c => c <> 10) line -> (length line < 511)%nat ->
  load_from out section ((line ++ [10]) ++ rest)
  = r ← config_line out section (line ++ [10]); load_from r.1 r.2 rest.
Proof.
  intros Hl Hn. unfold load_from at 1. rewrite <- (assoc_L app).
  rewrite length_app. cbn [app length]. rewrite Nat.add_succ_r.
  destruct (line ++ 10 :: rest) as [|c s] eqn:E; [by destruct line|]. cbn [config_lines].
  rewrite <- E. rewrite fgets_line by (done || (unfold LINE_SIZE; lia)).
  destruct (config_line out section (line ++ [10])); [|done|done]. rewrite !bind_ok.
  apply config_lines_fuel. lia.
Qed.

Lemma c_string_id s : Forall (fun c => c <> 0) s -> c_string s = s.
Proof.
  induction 1 as [|c s Hc _ IH]; [done|]. cbn [c_string].
  by rewrite (proj2 (Z.eqb_neq c 0) Hc), IH.
Qed.

Lemma split_eq_first k v : Forall (fun c => c <> 61) k -> split_eq (k ++ 61 :: v) = Some (k, v).
Proof.
  induction 1 as [|c k Hc _ IH]; [done|]. cbn [app split_eq].
  by rewrite (proj2 (Z.eqb_neq c 61) Hc), IH.
Qed.

Lemma clean_skip s : clean s -> trim (32 :: s) = s.
Proof.
  intros Hs. rewrite <- (trim_pad s []) at 2 by (done || constructor).
  by rewrite app_nil_r.
Qed.

Lemma key_ok_spec k : key_ok k = true ->
  clean k /\ Forall (fun c => c <> 61 /\ c <> 10 /\ c <> 0) k /\ (length k <= 200)%nat
  /\ exists a t, k = a :: t /\ isspace a = false /\ a <> 35 /\ a <> 59 /\ a <> 91.
Proof.
  unfold key_ok. intros H. repeat apply andb_true_iff in H as [H ?].
  destruct k as [|a t]; [done|]. cbn [existsb] in H.
  destruct (last (a :: t)) as [b|] eqn:El; [|done].
  apply andb_true_iff in H as [Hs Hc]. apply negb_true_iff in Hs.
  rewrite !orb_false_r, negb_true_iff, !orb_false_iff, !Z.eqb_neq in Hc.
  split_and!.
  - right. split; [by exists a, t|]. apply last_Some in El as [u Hu]. exists u, b. split; [done|].
    by apply negb_true_iff.
  - match goal with E : forallb _ _ = true |- _ => rewrite forallb_forall in E end.
    apply Forall_forall. intros c Hin%list_elem_of_In.
    specialize (H1 c Hin). cbn [existsb] in H1.
    rewrite !orb_false_r, negb_true_iff, !orb_false_iff, !Z.eqb_neq in H1. tauto.
  - by apply Nat.leb_le.
  - exists a, t. tauto.
Qed.

Lemma clean_join k m v : clean k -> k <> [] -> (exists u b, m = u ++ [b] /\ isspace b = false) ->
  clean v -> clean (k ++ m ++ 32 :: v) \/ v = [] /\ clean (k ++ m).
Proof.
  intros [|[(a & t & Ha & Hsa) _]] Hk (u & b & -> & Hb) Hv; [done|].
  destruct Hv as [->|[_ (w & d & -> & Hd)]].
  - right. split; [done|]. right. split; [exists a, (t ++ u ++ [b]); by rewrite Ha|].
    exists (k ++ u), b. by rewrite (assoc_L app).
  - left. right. split; [exists a, (t ++ (u ++ [b]) ++ 32 :: w ++ [d]); by rewrite Ha|].
    exists (k ++ (u ++ [b]) ++ 32 :: w), d. split; [|done]. by rewrite <- !(assoc_L app).
Qed.

(** A line [k = v] applies the setting. *)
Lemma config_line_kv out section k v :
  key_ok k = true -> plain v ->
  config_line out section (kv k v ++ [10])
  = out ← apply_kv out section k v; Ok (out, section).
Proof.
  intros Hk [Hcv Hv]. pose proof (key_ok_spec k Hk) as (Hck & Hf & _ & a & t & Ha & _ & H1 & H2 & H3).
  assert (Hz : Forall (fun c => c <> 0) (kv k v ++ [10])).
  { unfold kv. rewrite !Forall_app. split_and!; [|by repeat constructor| |by repeat constructor].
    - eapply Forall_impl; [exact Hf|]. by intros ? (_ & _ & ?).
    - eapply Forall_impl; [exact Hv|]. by intros ? (_ & ?). }
  unfold config_line. rewrite (c_string_id _ Hz).
  assert (Ht : exists x, trim (kv k v ++ [10]) = (k ++ [32]) ++ 61 :: x /\ trim x = v).
  { destruct (clean_join k [32; 61] v Hck) as [Hc|[-> Hc]]; [by rewrite Ha|by exists [32], 61|done| |].
    - exists (32 :: v). split; [|by apply clean_skip].
      replace (kv k v) with (k ++ [32; 61] ++ 32 :: v) by done.
      rewrite trim_pad by (done || by repeat constructor). by rewrite <- (assoc_L app).
    - exists []. split; [|done]. replace (kv k [] ++ [10]) with ((k ++ [32; 61]) ++ [32; 10])
        by (unfold kv; cbn; by rewrite <- !(assoc_L app)).
      rewrite trim_pad by (done || by repeat constructor). by rewrite <- (assoc_L app). }
  destruct Ht as (x & Ex & Hx). rewrite Ex.
  assert (Es : split_eq ((k ++ [32]) ++ 61 :: x) = Some (k ++ [32], x)).
  { apply split_eq_first, Forall_app. split; [|by repeat constructor].
    eapply Forall_impl; [exact Hf|]. by intros ? (? & _). }
  rewrite Es. rewrite (trim_pad k [32]) by (done || by repeat constructor). rewrite Hx.
  rewrite Ha. cbn [app].
  rewrite (proj2 (Z.eqb_neq a 35)), (proj2 (Z.eqb_neq a 59)), (proj2 (Z.eqb_neq a 91)) by done.
  done.
Qed.

Lemma load_kv out section k v rest :
  key_ok k = true -> plain v -> blen v < 256 ->
  load_from out section (print_lines (kv k v :: rest))
  = out ← apply_kv out section k v; load_from out section (print_lines rest).
Proof.
  intros Hk Hv Hb. pose proof (key_ok_spec k Hk) as (_ & Hf & Hl & _).
  unfold print_lines. cbn [map concat]. rewrite load_line.
  - rewrite (config_line_kv _ _ _ _ Hk Hv). by destruct (apply_kv out section k v).
  - unfold kv. rewrite !Forall_app. split_and!; [|by repeat constructor|].
    + eapply Forall_impl; [exact Hf|]. by intros ? (_ & ? & _).
    + eapply Forall_impl; [exact (proj2 Hv)|]. by intros ? (? & _).
  - unfold kv. rewrite !length_app. unfold blen in Hb. cbn. lia.
Qed.

(** *** Numbers *)

Lemma fmt_lld_digits z : exists ds, Forall (fun c => isdigit c = true) ds /\ ds <> []
  /\ fmt_lld z = (if z <? 0 then [45] else []) ++ ds /\ (length ds <= 19)%nat
  /\ (Z.abs z < 10 ^ 19 -> digits_value ds = Z.abs z).
Proof.
  destruct (decimal_digits 19 (Z.abs z) []) as [[Hn Hd] Hl]; [lia|constructor|].
  exists (decimal 19 (Z.abs z) []). split_and!; [done|done|done|by rewrite Nat.add_0_r in Hl|].
  intros Hz. unfold digits_value. rewrite decimal_value; [done|]. change (Z.of_nat 19) with 19. lia.
Qed.

Lemma digit_not_space c : isdigit c = true -> isspace c = false /\ c <> 45 /\ c <> 43 /\ c <> 10 /\ c <> 0.
Proof. unfold isdigit, isspace. lia. Qed.

Lemma clean_solid s : Forall (fun c => isspace c = false) s -> clean s.
Proof.
  intros Hs. destruct s as [|a t]; [by left|]. right. split; [exists a, t; by inversion Hs|].
  destruct (exists_last (l := a :: t)) as (u & b & E); [done|]. exists u, b. split; [done|].
  rewrite E, Forall_app in Hs. destruct Hs as [_ Hb]. by inversion Hb.
Qed.

Lemma plain_fmt_lld z : plain (fmt_lld z) /\ blen (fmt_lld z) < 256.
Proof.
  destruct (fmt_lld_digits z) as (ds & Hd & _ & -> & Hl & _).
  assert (Ha : Forall (fun c => isspace c = false /\ c <> 10 /\ c <> 0) ((if z <? 0 then [45] else []) ++ ds)).
  { rewrite Forall_app. split; [destruct (z <? 0); by repeat constructor|].
    eapply Forall_impl; [exact Hd|]. intros c Hc. apply digit_not_space in Hc. tauto. }
  split; [split|].
  - apply clean_solid. eapply Forall_impl; [exact Ha|]. by intros ? [? _].
  - eapply Forall_impl; [exact Ha|]. by intros ? [_ ?].
  - unfold blen. rewrite length_app. destruct (z <? 0); cbn [length]; lia.
Qed.

Lemma scan_fmt_lld z : - 2 ^ 63 <= z < 2 ^ 63 -> scan_int (fmt_lld z) = z.
Proof.
  intros Hz. destruct (fmt_lld_digits z) as (ds & Hd & Hn & -> & Hl & Hv). specialize (Hv ltac:(lia)).
  unfold scan_int. destruct (Z.ltb_spec z 0).
  - cbn [app skip_while]. change (isspace 45) with false. cbv iota beta. change (45 =? 45) with true.
    cbv iota. rewrite span_all by done. cbn [fst]. lia.
  - cbn [app]. destruct ds as [|c ds]; [done|].
    inversion Hd as [|?? Hc _]; subst. destruct (digit_not_space c Hc) as (Hs & H45 & H43 & _).
    cbn [skip_while]. rewrite Hs, (proj2 (Z.eqb_neq c 45)), (proj2 (Z.eqb_neq c 43)) by done.
    rewrite span_all by done. cbn [fst]. lia.
Qed.

Lemma atoi_fmt z : int_range z -> atoi (fmt_lld z) = Ok z.
Proof.
  unfold int_range, atoi. intros Hz. rewrite scan_fmt_lld by lia. by zdec.
Qed.
Lemma atoll_fmt z : - 2 ^ 63 <= z < 2 ^ 63 -> atoll (fmt_lld z) = Ok z.
Proof. intros Hz. unfold atoll. rewrite scan_fmt_lld by done. by apply int64_ok. Qed.

Lemma load_section out section name rest :
  forallb (fun c => negb (existsb (Z.eqb c) [9; 10; 11; 12; 13; 32; 0])) name = true ->
  (length name < 64)%nat ->
  load_from out section (print_lines (header name :: rest))
  = load_from out name (print_lines rest).
Proof.
  intros Hn Hl. rewrite forallb_forall in Hn.
  assert (Hf : Forall (fun c => c <> 10 /\ c <> 0) name).
  { apply Forall_forall. intros c Hc%list_elem_of_In. specialize (Hn c Hc). cbn [existsb] in Hn. lia. }
  unfold print_lines. cbn [map concat]. rewrite load_line.
  - assert (E : config_line out section (header name ++ [10])
      = Ok (out, name)); [|by rewrite E].
    unfold config_line. rewrite c_string_id.
    2:{ unfold header. rewrite !Forall_app. split_and!; try by repeat constructor.
        eapply Forall_impl; [exact Hf|]. by intros ? [? ?]. }
    rewrite trim_pad; [|right; split; [by exists 91, (name ++ [93])|by exists (91 :: name), 93]|by repeat constructor].
    change (header name) with (91 :: name ++ [93]).
    change ((91 =? 35) || (91 =? 59)) with false. cbv iota.
    change (91 :: name ++ [93]) with ((91 :: name) ++ [93]). rewrite last_snoc.
    change ((91 =? 91) && (default 0 (Some 93) =? 93)) with true. cbv iota.
    change ((91 :: name) ++ [93]) with (91 :: name ++ [93]).
    rewrite removelast_last. unfold text_field, SECTION_SIZE. rewrite take_ge; [done|]. lia.
  - unfold header. rewrite !Forall_app. split_and!; try by repeat constructor.
    eapply Forall_impl; [exact Hf|]. by intros ? [? ?].
  - unfold header. rewrite !length_app. cbn. lia.
Qed.

Lemma copy_setting_id s : text_ok s -> copy_setting s = s.
Proof.
  unfold text_ok, copy_setting, text_field, blen, BM_CONFIG_FILE_STR_MAX. intros Hs.
  apply take_ge. lia.
Qed.

(** Decide the comparisons of literal texts. *)
Ltac decide_texts :=
  repeat match goal with |- context [list_eqb (cstr ?a) (cstr ?b)] =>
    let r := eval vm_compute in (list_eqb (cstr a) (cstr b)) in
    change (list_eqb (cstr a) (cstr b)) with r end;
  cbv iota.

(** Read one more line of a text that sets everything. *)
Ltac next_line :=
  first
    [ rewrite load_section by (reflexivity || (cbn; lia))
    | rewrite load_kv by first [reflexivity | apply plain_fmt_lld | done];
      cbv beta delta [apply_kv apply_network apply_identity apply_tor]; decide_texts;
      rewrite ?atoi_fmt, ?atoll_fmt by first [done | lia]; rewrite ?bind_ok; cbv beta;
      rewrite ?(proj2 (Z.leb_gt _ 0)), ?u64_small, ?copy_setting_id by first [done | (unfold is_u64; lia)];
      rewrite ?bind_ok; cbv beta iota ].

(** Every usable settings record whose texts fit on a line can be written as a
    bitmessage.conf that [bm_config_file_load] reads back to exactly that record: no setting is
    unreachable, masked by another key, or changed by the parsing of sections, keys, white space
    and numbers. *)
Theorem config_file_roundtrip (c : bm_config_file) :
  usable c -> Forall plain [tor_control_socket c; tor_control_host c; onion_address c] ->
  bm_config_file_load (Some (print_lines (config_text c))) = Ok (true, c).
Proof.
  intros Hu Hp. unfold bm_config_file_load.
  enough (E : load_from set_defaults [] (print_lines (config_text c)) = Ok c)
    by (unfold load_from in E; by rewrite E).
  destruct Hu as (Hi & Ht & Hm & Hn & He). rewrite !Forall_cons in *.
  destruct Hi as (? & ? & ? & ? & ? & ? & ? & ? & ? & _), Ht as (? & ? & ? & _), Hp as (? & ? & ? & _).
  unfold config_text. repeat next_line. by destruct c.
Qed.

Definition config_example : bm_config_file :=
  {| testnet := 1; no_connect := 0; max_outbound_connections := 8; api_port := 8443;
     inbound_port := -1; tor_control := 1; tor_control_socket := cstr "/var/run/tor control"%string;
     tor_control_host := cstr "::1"%string; tor_control_port := 9151; tor_virtual_port := 8445;
     onion_address := []; default_nonce_trials_per_byte := 2 ^ 40;
     default_payload_length_extra_bytes := 3000; pq_enabled := 0 |}.

Lemma config_file_roundtrip_witness :
  bm_config_file_load (Some (print_lines (config_text config_example))) = Ok (true, config_example).
Proof.
  apply config_file_roundtrip.
  - unfold usable. split_and!; repeat first [apply Forall_nil_2 | apply Forall_cons_2]; by vm_compute.
  - assert (P : forall s a b t, s = a :: t -> last s = Some b -> isspace a = false -> isspace b = false ->
      forallb (fun c => negb (existsb (Z.eqb c) [10; 0])) s = true -> plain s).
    { intros s a b t Hs Hb Ha Hsb Hf. split.
      - right. split; [by exists a, t|]. apply last_Some in Hb as [u Hu]. by exists u, b.
      - rewrite forallb_forall in Hf. apply Forall_forall. intros c Hc%list_elem_of_In.
        specialize (Hf c Hc). cbn [existsb] in Hf. lia. }
    repeat apply Forall_cons_2; [by eapply P|by eapply P|split; [by left|constructor]|constructor].
Defined.

(** ** What a comment can do

    A line of more than 511 bytes is read in pieces, and each piece is parsed as a line of its
    own: the end of a long comment is a setting. *)
Lemma config_long_comment :
  bm_config_file_load
    (Some (cstr "[api]"%string ++ [10] ++ cstr "#"%string ++ replicate 510 120
           ++ cstr "port = 1"%string ++ [10]))
  = Ok (true, set_defaults <| api_port := 1 |>).
Proof. by vm_compute. Qed.
