(* ===== verification/TorControl.v ===== *)
(** * The Tor control port (infra/tor_control.c)

    The client of the control protocol: authentication with the cookie file and the
    creation of the hidden service.  The kernel is the environment: what [read] will give
    and how much [write] will take are lists of answers kept with the socket. *)

From Stdlib Require Import String.
From stdpp Require Import base tactics numbers option list.
From S2P Require Import Prelude Sql Json Config.

Definition BM_TOR_CONTROL_MAX_LINES : nat := 16.
Definition BM_TOR_CONTROL_LINE_CAP : Z := 512.
Definition LINE_READER_SIZE : Z := 4096.

(** ** Opening a connection *)

(** What the calls made for one address of the list of [getaddrinfo] answer: [socket],
    [connect] (and whether errno is EINPROGRESS), [select], [getsockopt]. *)
Record connect_attempt := {
  at_socket : Z;
  at_connect : Z;
  at_in_progress : bool;
  at_select : Z;
  at_so_error : Z
}.

Definition connect_ok (a : connect_attempt) : bool :=
  (at_connect a =? 0)
  || (at_in_progress a && (0 <? at_select a) && (at_so_error a =? 0)).

(** The descriptor (-1 when no address can be reached) and the descriptors closed on the way. *)
Fixpoint connect_loop (addresses : list connect_attempt) (closed : list Z) : Z * list Z :=
  match addresses with
  | [] => (-1, closed)
  | a :: rest =>
      if at_socket a <? 0 then connect_loop rest closed
      else if connect_ok a then (at_socket a, closed)
      else connect_loop rest (closed ++ [at_socket a])
  end.

(** [addresses]: the answer of [getaddrinfo], [None] when it fails. *)
Definition connect_tcp_with_timeout (addresses : option (list connect_attempt)) : Z * list Z :=
  match addresses with None => (-1, []) | Some l => connect_loop l [] end.

(** [sun_path] has 108 bytes.  [reachable path]: the answer of [connect]. *)
Definition connect_unix (path : list Z) (socket : Z) (reachable : list Z -> bool) : Z * list Z :=
  if socket <? 0 then (-1, []) else
  if reachable (text_field 108 path) then (socket, []) else (-1, [socket]).

(** ** Input and output on the socket *)

(** [k_in]: what has arrived, as the pieces [read] will see ([[]] is the end of the stream, or
    the receive timeout); [k_out]: how much each [write] takes (0 or less is an error);
    [k_sent]: what has been written. *)
Record control_socket := {
  k_in : list (list Z);
  k_out : list Z;
  k_sent : list Z
}.
#[export] Instance control_socket_eta : RecordEta control_socket := fun r =>
  {| k_in := k_in r; k_out := k_out r; k_sent := k_sent r |}.

(** [read(fd, .., room)]; [None] when it returns 0 or less. *)
Definition k_read (room : Z) (s : control_socket) : option (list Z * control_socket) :=
  match k_in s with
  | [] | [] :: _ => None
  | chunk :: rest =>
      if blen chunk <=? room then Some (chunk, s <| k_in := rest |>)
      else Some (take (Z.to_nat room) chunk, s <| k_in := drop (Z.to_nat room) chunk :: rest |>)
  end.

(** The loop of [send_all_blocking]; each turn takes at least one byte, so [fuel] is the length. *)
Fixpoint send_loop (fuel : nat) (data : list Z) (s : control_socket) : bool * control_socket :=
  match data, fuel with
  | [], _ => (true, s)
  | _, O => (false, s)
  | _, S fuel =>
      match k_out s with
      | [] => (false, s)
      | n :: answers =>
          let s := s <| k_out := answers |> in
          if n <=? 0 then (false, s)
          else send_loop fuel (drop (Z.to_nat n) data)
                 (s <| k_sent := k_sent s ++ take (Z.to_nat n) data |>)
      end
  end.

Definition send_all_blocking (data : list Z) (s : control_socket) : bool * control_socket :=
  send_loop (length data) data s.

(** *** Lines *)

(** [buf[0..len)] and [start]. *)
Record line_reader := { lr_buf : list Z; lr_start : Z }.

Definition new_reader : line_reader := {| lr_buf := []; lr_start := 0 |}.

(** The position of the first CR LF of [l]. *)
Fixpoint find_crlf (l : list Z) : option Z :=
  match l with
  | c :: ((d :: _) as l') =>
      if (c =? 13) && (d =? 10) then Some 0 else option_map (Z.add 1) (find_crlf l')
  | _ => None
  end.

(** The text a line of [line_len] bytes leaves in an array of [out_cap]. *)
Definition cut_line (out_cap : Z) (line : list Z) : list Z :=
  if out_cap <=? blen line then take (Z.to_nat (out_cap - 1)) line else line.

(** [fuel] bounds the calls of [read]. *)
Fixpoint line_reader_next (fuel : nat) (out_cap : Z) (r : line_reader) (s : control_socket)
  : cres (list Z * line_reader * control_socket) :=
  let unread := drop (Z.to_nat (lr_start r)) (lr_buf r) in
  match find_crlf unread with
  | Some line_len =>
      Ok (cut_line out_cap (take (Z.to_nat line_len) unread),
          {| lr_buf := lr_buf r; lr_start := lr_start r + line_len + 2 |}, s)
  | None =>
      if LINE_READER_SIZE <=? blen unread then Err else
      match k_read (LINE_READER_SIZE - blen unread) s with
      | None => Err
      | Some (bytes, s) =>
          match fuel with
          | O => Ub
          | S fuel => line_reader_next fuel out_cap {| lr_buf := unread ++ bytes; lr_start := 0 |} s
          end
      end
  end.

(** *** Replies *)

Record reply_line := { rl_code : Z; rl_sep : Z; rl_text : list Z }.

Definition parse_reply_line (raw : list Z) : cres reply_line :=
  match raw with
  | a :: b :: c :: sep :: text =>
      if isdigit a && isdigit b && isdigit c then
        Ok {| rl_code := digits_value [a; b; c]; rl_sep := sep;
              rl_text := text_field BM_TOR_CONTROL_LINE_CAP text |}
      else Err
  | _ => Err
  end.

(** Enough reads for any line: each brings a byte, and the buffer has 4096. *)
Definition READ_FUEL : nat := Z.to_nat LINE_READER_SIZE.

(** [room]: the lines the array still has. *)
Fixpoint read_reply_lines (room : nat) (lines : list reply_line) (lr : line_reader)
  (s : control_socket) : cres (list reply_line * line_reader * control_socket) :=
  match room with
  | O => Err
  | S room =>
      r ← line_reader_next READ_FUEL BM_TOR_CONTROL_LINE_CAP lr s;
      let '(raw, lr, s) := r in
      line ← parse_reply_line (c_string raw);
      if rl_sep line =? 43 then Err else
      let lines := lines ++ [line] in
      if rl_sep line =? 32 then Ok (lines, lr, s) else read_reply_lines room lines lr s
  end.

Definition read_full_reply (lr : line_reader) (s : control_socket)
  : cres (list reply_line * line_reader * control_socket) :=
  read_reply_lines BM_TOR_CONTROL_MAX_LINES [] lr s.

Definition last_code (lines : list reply_line) : Z :=
  match last lines with Some l => rl_code l | None => 0 end.

(** [strncmp(text, prefix, strlen(prefix)) == 0] *)
Fixpoint starts_with (prefix text : list Z) : bool :=
  match prefix, text with
  | [], _ => true
  | p :: prefix, c :: text => (p =? c) && starts_with prefix text
  | _, _ => false
  end.

Fixpoint find_line_with_prefix (lines : list reply_line) (prefix : list Z) : option reply_line :=
  match lines with
  | [] => None
  | l :: lines => if starts_with prefix (rl_text l) then Some l else find_line_with_prefix lines prefix
  end.

(** [strstr(s, marker)]: what follows the first occurrence of [marker]. *)
Fixpoint after_marker (marker s : list Z) : option (list Z) :=
  if starts_with marker s then Some (drop (length marker) s) else
  match s with [] => None | _ :: s => after_marker marker s end.

(** [strchr(s, c)]: what precedes the first [c]. *)
Fixpoint before_char (c : Z) (s : list Z) : option (list Z) :=
  match s with
  | [] => None
  | d :: s => if d =? c then Some [] else option_map (cons d) (before_char c s)
  end.

Definition hex_digit (n : Z) : Z := if n <? 10 then 48 + n else 87 + n.

Definition hex_encode (data : list Z) (out_cap : Z) : cres (list Z) :=
  if out_cap <? blen data * 2 + 1 then Err else
  Ok (concat (map (fun b => [hex_digit (Z.land (Z.shiftr b 4) 15); hex_digit (Z.land b 15)]) data)).

Definition extract_cookie_file (auth_line_text : list Z) (out_cap : Z) : cres (list Z) :=
  match after_marker (cstr "COOKIEFILE="%string ++ [34]) auth_line_text with
  | None => Err
  | Some start =>
      match before_char 34 start with
      | None => Err
      | Some path => if out_cap <=? blen path then Err else Ok path
      end
  end.

Definition auth_methods_support_cookie (auth_line_text : list Z) : bool :=
  match after_marker (cstr "METHODS="%string) auth_line_text with
  | None => false
  | Some start =>
      let methods := take 127 (default start (before_char 32 start)) in
      match after_marker (cstr "COOKIE"%string) methods with Some _ => true | None => false end
  end.

(** ** The two exchanges *)

Record bm_tor_control_config := {
  control_socket_path : option (list Z);
  control_host : option (list Z);
  control_port : Z
}.

(** What the operating system answers to the attempts to connect, and the files it lets the
    process read. *)
Record tor_environment := {
  unix_socket : Z;
  unix_reachable : list Z -> bool;
  resolve : list Z -> Z -> option (list connect_attempt);
  read_file : list Z -> option (list Z)
}.

(** The descriptor of a connection to the control port, or -1, and what was closed. *)
Definition open_control (config : bm_tor_control_config) (env : tor_environment) : Z * list Z :=
  let '(fd, closed) :=
    match control_socket_path config with
    | Some path => connect_unix path (unix_socket env) (unix_reachable env)
    | None => (-1, [])
    end in
  if fd <? 0 then
    match control_host config with
    | None => (-1, closed)
    | Some host =>
        let '(fd, closed') := connect_tcp_with_timeout (resolve env host (control_port config)) in
        (fd, closed ++ closed')
    end
  else (fd, closed).

Definition CRLF : list Z := [13; 10].
Definition protocolinfo_cmd : list Z := cstr "PROTOCOLINFO 1"%string ++ CRLF.
Definition authenticate_cmd (cookie_hex : list Z) : list Z :=
  cstr "AUTHENTICATE "%string ++ cookie_hex ++ CRLF.

Definition COOKIE_SIZE : nat := 64.
Definition COOKIE_HEX_SIZE : Z := 129.
Definition AUTH_CMD_SIZE : Z := 149.
Definition COOKIE_PATH_SIZE : Z := 512.

(** The cookie the server asks for in its answer to PROTOCOLINFO, in hexadecimal. *)
Definition cookie_for (env : tor_environment) (lines : list reply_line) : cres (list Z) :=
  if negb (last_code lines =? 250) then Err else
  match find_line_with_prefix lines (cstr "AUTH "%string) with
  | None => Err
  | Some auth_line =>
      if negb (auth_methods_support_cookie (rl_text auth_line)) then Err else
      path ← extract_cookie_file (rl_text auth_line) COOKIE_PATH_SIZE;
      match read_file env path with
      | None => Err
      | Some content =>
          let cookie := take COOKIE_SIZE content in
          if blen cookie =? 0 then Err else
          match hex_encode cookie COOKIE_HEX_SIZE with
          | Ok hex => if AUTH_CMD_SIZE <=? blen (authenticate_cmd hex) then Ub else Ok hex
          | Err | Ub => Ub
          end
      end
  end.

(** The exchange on the open connection; the socket is as the calls left it. *)
Definition authenticate (env : tor_environment) (s : control_socket) : cres unit * control_socket :=
  let '(sent, s) := send_all_blocking protocolinfo_cmd s in
  if negb sent then (Err, s) else
  match read_full_reply new_reader s with
  | Err => (Err, s)
  | Ub => (Ub, s)
  | Ok (lines, lr, s) =>
      match cookie_for env lines with
      | Err => (Err, s)
      | Ub => (Ub, s)
      | Ok hex =>
          let '(sent, s) := send_all_blocking (authenticate_cmd hex) s in
          if negb sent then (Err, s) else
          match read_full_reply lr s with
          | Err => (Err, s)
          | Ub => (Ub, s)
          | Ok (lines, lr, s) => (if last_code lines =? 250 then Ok () else Err, s)
          end
      end
  end.

(** The descriptor or -1; the descriptors closed; the socket. *)
Definition bm_tor_control_connect_and_authenticate (config : bm_tor_control_config)
  (env : tor_environment) (s : control_socket) : cres Z * list Z * control_socket :=
  let '(fd, closed) := open_control config env in
  if fd <? 0 then (Ok (-1), closed, s) else
  match authenticate env s with
  | (Ok _, s) => (Ok fd, closed, s)
  | (Err, s) => (Ok (-1), closed ++ [fd], s)
  | (Ub, s) => (Ub, closed, s)
  end.

Definition add_onion_cmd (existing_private_key : option (list Z)) (virtual_port local_port : Z) : list Z :=
  cstr "ADD_ONION "%string ++ default (cstr "NEW:ED25519-V3"%string) existing_private_key
  ++ cstr " Port="%string ++ fmt_lld virtual_port ++ cstr ",127.0.0.1:"%string
  ++ fmt_lld local_port ++ CRLF.

Definition ADD_ONION_CMD_SIZE : Z := 512.

(** The onion address and, for a new service, its key, from the answer to ADD_ONION. *)
Definition onion_from_reply (lines : list reply_line) (existing_private_key : option (list Z))
  : cres (list Z * option (list Z)) :=
  if negb (last_code lines =? 250) then Err else
  match find_line_with_prefix lines (cstr "ServiceID="%string) with
  | None => Err
  | Some l =>
      let onion_address := drop 10 (rl_text l) ++ cstr ".onion"%string in
      match existing_private_key with
      | Some _ => Ok (onion_address, None)
      | None =>
          match find_line_with_prefix lines (cstr "PrivateKey="%string) with
          | None => Err
          | Some pk => Ok (onion_address, Some (drop 11 (rl_text pk)))
          end
      end
  end.

Definition bm_tor_control_add_onion (existing_private_key : option (list Z))
  (virtual_port local_port : Z) (s : control_socket)
  : cres (list Z * option (list Z)) * control_socket :=
  let cmd := add_onion_cmd existing_private_key virtual_port local_port in
  if ADD_ONION_CMD_SIZE <=? blen cmd then (Err, s) else
  let '(sent, s) := send_all_blocking cmd s in
  if negb sent then (Err, s) else
  match read_full_reply new_reader s with
  | Err => (Err, s)
  | Ub => (Ub, s)
  | Ok (lines, lr, s) => (onion_from_reply lines existing_private_key, s)
  end.

(** ** Lines do not depend on how they arrive *)

(** The bytes that will be read before the end of the stream. *)
Fixpoint until_end (chunks : list (list Z)) : list Z :=
  match chunks with [] | [] :: _ => [] | c :: chunks => c ++ until_end chunks end.

Definition unread (r : line_reader) : list Z := drop (Z.to_nat (lr_start r)) (lr_buf r).

Definition pending (r : line_reader) (s : control_socket) : list Z := unread r ++ until_end (k_in s).

Definition reader_ok (r : line_reader) : Prop :=
  0 <= lr_start r <= blen (lr_buf r) /\ blen (lr_buf r) <= LINE_READER_SIZE.

(** What a line is on the stream: it ends at the first CR LF, within the first 4096 bytes. *)
Definition next_line (out_cap : Z) (stream : list Z) : option (list Z * list Z) :=
  match find_crlf (take (Z.to_nat LINE_READER_SIZE) stream) with
  | None => None
  | Some k => Some (cut_line out_cap (take (Z.to_nat k) stream), drop (Z.to_nat (k + 2)) stream)
  end.

(** [s'] is [s] after some reading. *)
Definition only_read (s s' : control_socket) : Prop := k_out s' = k_out s /\ k_sent s' = k_sent s.

Lemma find_crlf_cons c d l :
  find_crlf (c :: d :: l) = if (c =? 13) && (d =? 10) then Some 0 else option_map (Z.add 1) (find_crlf (d :: l)).
Proof. done. Qed.

Lemma find_crlf_bound l k : find_crlf l = Some k -> 0 <= k /\ k + 2 <= blen l.
Proof.
  revert k. induction l as [|c l IH]; intros k E; [done|]. destruct l as [|d l]; [done|].
  rewrite find_crlf_cons in E. rewrite !blen_cons in *. pose proof (blen_nonneg l).
  destruct ((c =? 13) && (d =? 10)); [simplify_eq; lia|].
  destruct (find_crlf (d :: l)) as [j|] eqn:Ej; [|done]. cbn [option_map] in E. simplify_eq.
  specialize (IH j eq_refl). lia.
Qed.

Lemma find_crlf_app l x k : find_crlf l = Some k -> find_crlf (l ++ x) = Some k.
Proof.
  revert k. induction l as [|c l IH]; intros k E; [done|]. destruct l as [|d l]; [done|].
  cbn [app]. rewrite find_crlf_cons in E |- *.
  destruct ((c =? 13) && (d =? 10)); [done|].
  destruct (find_crlf (d :: l)) as [j|] eqn:Ej; [|done]. specialize (IH j eq_refl).
  cbn [app] in IH. by rewrite IH.
Qed.

Lemma find_crlf_line l x : Forall (fun c => c <> 13) l -> find_crlf (l ++ 13 :: 10 :: x) = Some (blen l).
Proof.
  induction 1 as [|c l Hc Hl IH]; [done|]. cbn [app]. rewrite blen_cons.
  destruct (l ++ 13 :: 10 :: x) as [|d y] eqn:E; [by destruct l|]. rewrite find_crlf_cons.
  rewrite (proj2 (Z.eqb_neq c 13) Hc). cbn [andb]. by rewrite IH.
Qed.

Lemma k_read_spec room s : 0 < room ->
  match k_read room s with
  | None => until_end (k_in s) = []
  | Some (bytes, s') =>
      until_end (k_in s) = bytes ++ until_end (k_in s') /\ 0 < blen bytes <= room /\ only_read s s'
  end.
Proof.
  intros Hr. unfold k_read. destruct (k_in s) as [|[|c l] rest] eqn:E; [done|done|].
  destruct (Z.leb_spec (blen (c :: l)) room) as [Hl|Hl].
  - split; [done|]. rewrite blen_cons in *. pose proof (blen_nonneg l). split; [lia|]. by split.
  - assert (Hd : drop (Z.to_nat room) (c :: l) <> []).
    { intros Hd. apply (f_equal length) in Hd. rewrite length_drop in Hd. unfold blen in Hl.
      simpl in *. lia. }
    cbn -[take drop]. split; [|split; [rewrite blen_take; lia|by split]].
    destruct (drop (Z.to_nat room) (c :: l)) as [|d t] eqn:Ed; [done|].
    cbn [until_end]. rewrite (assoc_L app), <- Ed, take_drop. done.
Qed.

Lemma pending_take r s : reader_ok r ->
  take (Z.to_nat LINE_READER_SIZE) (pending r s)
  = unread r ++ take (Z.to_nat (LINE_READER_SIZE - blen (unread r))) (until_end (k_in s)).
Proof.
  intros [Hs Hl]. assert (blen (unread r) <= LINE_READER_SIZE)
    by (unfold unread; rewrite blen_drop by lia; lia).
  unfold pending. rewrite take_app_ge by (unfold blen in *; lia).
  do 2 f_equal. unfold blen in *. lia.
Qed.

Lemma line_found out_cap r s k : reader_ok r -> find_crlf (unread r) = Some k ->
  let r' := {| lr_buf := lr_buf r; lr_start := lr_start r + k + 2 |} in
  next_line out_cap (pending r s)
  = Some (cut_line out_cap (take (Z.to_nat k) (unread r)), pending r' s) /\ reader_ok r'.
Proof.
  intros Hr Hk. destruct (find_crlf_bound _ _ Hk) as [Hk0 Hk2].
  assert (Hlen : blen (unread r) = blen (lr_buf r) - lr_start r)
    by (unfold unread; apply blen_drop; unfold reader_ok in Hr; lia).
  split; [|unfold reader_ok in *; cbn [lr_start lr_buf]; lia].
  unfold next_line. rewrite pending_take by done. rewrite (find_crlf_app _ _ _ Hk).
  unfold pending, unread at 4. cbn [lr_buf lr_start].
  rewrite take_app_le, drop_app_le by (unfold blen in *; lia).
  do 3 f_equal. unfold unread. rewrite drop_drop. f_equal. unfold reader_ok in Hr. lia.
Qed.

Lemma line_absent out_cap r s : reader_ok r -> find_crlf (unread r) = None ->
  LINE_READER_SIZE <= blen (unread r) \/ until_end (k_in s) = [] ->
  next_line out_cap (pending r s) = None.
Proof.
  intros Hr Hk H. unfold next_line. rewrite pending_take by done. destruct H as [H|H].
  - replace (Z.to_nat (LINE_READER_SIZE - blen (unread r))) with 0%nat by lia.
    by rewrite take_0, app_nil_r, Hk.
  - by rewrite H, take_nil, app_nil_r, Hk.
Qed.

Lemma line_reader_next_spec fuel out_cap r s :
  reader_ok r -> LINE_READER_SIZE - blen (unread r) <= Z.of_nat fuel ->
  match next_line out_cap (pending r s) with
  | None => line_reader_next fuel out_cap r s = Err
  | Some (line, rest) => exists r' s',
      line_reader_next fuel out_cap r s = Ok (line, r', s')
      /\ reader_ok r' /\ pending r' s' = rest /\ only_read s s'
  end.
Proof.
  revert r s. induction fuel as [|fuel IH]; intros r s Hr Hf; cbn [line_reader_next]; fold (unread r).
  all: destruct (find_crlf (unread r)) as [k|] eqn:Ek;
    [destruct (line_found out_cap r s k Hr Ek) as [-> Hr']; by eexists _, _|].
  all: destruct (Z.leb_spec LINE_READER_SIZE (blen (unread r))) as [Hfull|Hroom];
    [rewrite line_absent by auto; done|].
  - lia.
  - pose proof (k_read_spec (LINE_READER_SIZE - blen (unread r)) s ltac:(lia)) as Hk.
    destruct (k_read (LINE_READER_SIZE - blen (unread r)) s) as [[bytes s']|];
      [|rewrite line_absent by auto; done].
    destruct Hk as (Hin & Hb & Ho).
    set (r1 := {| lr_buf := unread r ++ bytes; lr_start := 0 |}).
    assert (Hu : unread r1 = unread r ++ bytes) by done.
    assert (Hp : pending r1 s' = pending r s)
      by (unfold pending; by rewrite Hu, Hin, <- (assoc_L app)).
    specialize (IH r1 s'). rewrite Hp, Hu, blen_app in IH.
    destruct (next_line out_cap (pending r s)) as [[line rest]|].
    + destruct IH as (r' & s'' & -> & Hr' & Hp' & Ho'); [unfold reader_ok, r1; cbn [lr_buf lr_start]; rewrite blen_app; pose proof (blen_nonneg (unread r)); lia|lia|].
      exists r', s''. split_and!; [done|done|done|]. unfold only_read in *. destruct Ho as [<- <-]. done.
    + apply IH; [unfold reader_ok, r1; cbn [lr_buf lr_start]; rewrite blen_app; pose proof (blen_nonneg (unread r)); lia|lia].
Qed.

(** ** Replies *)

(** The lines of a reply on the stream, and what follows it. *)
Fixpoint reply_of (room : nat) (lines : list reply_line) (stream : list Z)
  : option (list reply_line * list Z) :=
  match room with
  | O => None
  | S room =>
      match next_line BM_TOR_CONTROL_LINE_CAP stream with
      | None => None
      | Some (raw, rest) =>
          match parse_reply_line (c_string raw) with
          | Ok line =>
              if rl_sep line =? 43 then None
              else if rl_sep line =? 32 then Some (lines ++ [line], rest)
              else reply_of room (lines ++ [line]) rest
          | Err | Ub => None
          end
      end
  end.

Lemma parse_reply_line_safe raw : parse_reply_line raw <> Ub.
Proof.
  unfold parse_reply_line. destruct raw as [|a [|b [|c [|d t]]]]; try done. by case_match.
Qed.

Lemma read_reply_lines_spec room lines lr s :
  reader_ok lr ->
  match reply_of room lines (pending lr s) with
  | None => read_reply_lines room lines lr s = Err
  | Some (lines', rest) => exists lr' s',
      read_reply_lines room lines lr s = Ok (lines', lr', s')
      /\ reader_ok lr' /\ pending lr' s' = rest /\ only_read s s'
  end.
Proof.
  revert lines lr s. induction room as [|room IH]; intros lines lr s Hr; [done|].
  cbn [reply_of read_reply_lines].
  pose proof (line_reader_next_spec READ_FUEL BM_TOR_CONTROL_LINE_CAP lr s Hr) as Hn.
  pose proof (blen_nonneg (unread lr)).
  specialize (Hn ltac:(unfold READ_FUEL; rewrite Z2Nat.id; unfold LINE_READER_SIZE; lia)).
  destruct (next_line BM_TOR_CONTROL_LINE_CAP (pending lr s)) as [[raw rest]|]; [|by rewrite Hn].
  destruct Hn as (lr1 & s1 & -> & Hr1 & <- & Ho1). rewrite bind_ok. cbv beta iota.
  pose proof (parse_reply_line_safe (c_string raw)) as Hsafe.
  destruct (parse_reply_line (c_string raw)) as [line| |]; [|done|done]. rewrite bind_ok. cbv beta.
  destruct (rl_sep line =? 43); [done|]. cbv zeta.
  destruct (rl_sep line =? 32); [by exists lr1, s1|].
  specialize (IH (lines ++ [line]) lr1 s1 Hr1).
  destruct (reply_of room (lines ++ [line]) (pending lr1 s1)) as [[lines' rest']|]; [|done].
  destruct IH as (lr2 & s2 & E & Hr2 & Hp2 & Ho2). exists lr2, s2. split_and!; [done|done|done|].
  unfold only_read in *. destruct Ho1 as [<- <-]. done.
Qed.

Lemma read_full_reply_spec lr s :
  reader_ok lr ->
  match reply_of BM_TOR_CONTROL_MAX_LINES [] (pending lr s) with
  | None => read_full_reply lr s = Err
  | Some (lines, rest) => exists lr' s',
      read_full_reply lr s = Ok (lines, lr', s')
      /\ reader_ok lr' /\ pending lr' s' = rest /\ only_read s s'
  end.
Proof. apply read_reply_lines_spec. Qed.

Lemma reply_of_room room lines stream lines' rest :
  reply_of room lines stream = Some (lines', rest) ->
  (length lines' <= length lines + room)%nat /\ exists l, last lines' = Some l /\ rl_sep l = 32.
Proof.
  revert lines stream. induction room as [|room IH]; intros lines stream E; [done|].
  cbn [reply_of] in E.
  destruct (next_line BM_TOR_CONTROL_LINE_CAP stream) as [[raw r]|]; [|done].
  destruct (parse_reply_line (c_string raw)) as [line| |]; [|done|done].
  destruct (rl_sep line =? 43); [done|].
  destruct (Z.eqb_spec (rl_sep line) 32) as [Hs|_].
  - simplify_eq. rewrite length_app, last_snoc. cbn [length]. split; [lia|]. by exists line.
  - apply IH in E as [Hl ?]. rewrite length_app in Hl. cbn [length] in Hl. split; [lia|done].
Qed.

Lemma reader_ok_new : reader_ok new_reader.
Proof. by vm_compute. Qed.

(** [read_full_reply] always returns, and what it returns does not depend on how the control
    port's bytes were cut into [read]s, nor on what an earlier reply left in the buffer: with the
    same bytes to come, two calls give the same lines, or fail both; a reply it accepts has at most
    16 lines, the last of them with a space after its code, so [lines[line_count - 1]] exists. *)
Theorem read_full_reply_stream (lr lr' : line_reader) (s s' : control_socket) :
  reader_ok lr -> reader_ok lr' -> pending lr s = pending lr' s' ->
  match read_full_reply lr s, read_full_reply lr' s' with
  | Ok (lines, lr1, s1), Ok (lines', lr1', s1') =>
      lines = lines' /\ pending lr1 s1 = pending lr1' s1' /\ reader_ok lr1 /\ reader_ok lr1'
      /\ (0 < length lines <= BM_TOR_CONTROL_MAX_LINES)%nat
      /\ exists l, last lines = Some l /\ rl_sep l = 32
  | Err, Err => True
  | _, _ => False
  end.
Proof.
  intros Hr Hr' Hp.
  pose proof (read_full_reply_spec lr s Hr) as H. pose proof (read_full_reply_spec lr' s' Hr') as H'.
  rewrite <- Hp in H'.
  destruct (reply_of BM_TOR_CONTROL_MAX_LINES [] (pending lr s)) as [[lines rest]|] eqn:E;
    [|by rewrite H, H'].
  destruct H as (lr1 & s1 & -> & Hr1 & <- & _), H' as (lr1' & s1' & -> & Hr1' & Hp1 & _).
  apply reply_of_room in E as [Hl (l & Hlast & Hsep)].
  split_and!; [done|done|done|done| |cbn [length] in Hl; lia|by exists l].
  destruct lines; [done|cbn [length]; lia].
Qed.

(** A greeting in one piece, and the same one cut in the middle of its line ends. *)
Definition socket_example (chunks : list (list Z)) : control_socket :=
  {| k_in := chunks; k_out := [1000; 1000]; k_sent := [] |}.

Definition protocolinfo_reply : list Z :=
  cstr "250-PROTOCOLINFO 1"%string ++ CRLF
  ++ cstr "250-AUTH METHODS=COOKIE,SAFECOOKIE COOKIEFILE="%string ++ [34] ++ cstr "/run/tor/cookie"%string ++ [34] ++ CRLF
  ++ cstr "250-VERSION Tor"%string ++ CRLF ++ cstr "250 OK"%string ++ CRLF.

Lemma read_full_reply_stream_witness :
  match read_full_reply new_reader (socket_example [protocolinfo_reply]),
        read_full_reply new_reader (socket_example [take 19 protocolinfo_reply; drop 19 protocolinfo_reply]) with
  | Ok (lines, _, _), Ok (lines', _, _) => lines = lines' /\ length lines = 4%nat
  | _, _ => False
  end.
Proof.
  pose proof (read_full_reply_stream new_reader new_reader (socket_example [protocolinfo_reply])
    (socket_example [take 19 protocolinfo_reply; drop 19 protocolinfo_reply])
    reader_ok_new reader_ok_new ltac:(reflexivity)) as H.
  revert H. generalize (read_full_reply new_reader (socket_example [take 19 protocolinfo_reply; drop 19 protocolinfo_reply])).
  intros r. vm_compute (read_full_reply new_reader (socket_example [protocolinfo_reply])).
  destruct r as [[[lines' lr'] s']| |]; [|done|done]. intros [<- _]. done.
Defined.

(** ** What is sent, and when *)

(** Among the answers [outs] of [write] is a refusal, or there are fewer than [n]. *)
Definition refuses (outs : list Z) (n : nat) : Prop := Exists (fun k => k <= 0) outs \/ (length outs < n)%nat.

Lemma refuses_drop outs m n k : refuses (drop m outs) n -> (m + n <= k)%nat -> refuses outs k.
Proof.
  intros [H|H] Hk; [left|right; rewrite length_drop in H; lia].
  rewrite <- (take_drop m outs). apply Exists_app. by right.
Qed.

Lemma send_loop_spec fuel data s : (length data <= fuel)%nat ->
  let '(ok, s') := send_loop fuel data s in
  k_in s' = k_in s /\ (exists m, (m <= length data)%nat /\ k_out s' = drop m (k_out s))
  /\ exists sent, k_sent s' = k_sent s ++ sent /\ sent `prefix_of` data
    /\ (if ok then sent = data else sent <> data /\ refuses (k_out s) (length data)).
Proof.
  revert data s. induction fuel as [|fuel IH]; intros data s Hf.
  - destruct data; [|simpl in Hf; lia]. split; [done|]. split; [by exists 0%nat|]. exists []. by rewrite app_nil_r.
  - destruct data as [|c data]; [split; [done|]; split; [by exists 0%nat|]; exists []; by rewrite app_nil_r|].
    cbn [send_loop]. destruct (k_out s) as [|n answers] eqn:Eo.
    { split; [done|]. split; [exists 0%nat; split; [lia|by rewrite Eo]|]. exists []. rewrite app_nil_r.
      split_and!; [done|apply prefix_nil|done|right; simpl; lia]. }
    cbv zeta. destruct (Z.leb_spec n 0) as [Hn|Hn].
    { split; [done|]. split; [exists 1%nat; split; [simpl; lia|done]|]. exists []. rewrite app_nil_r.
      split_and!; [done|apply prefix_nil|done|left; by left]. }
    set (s1 := _ <| k_sent := _ |>).
    assert (Hlen : (length (drop (Z.to_nat n) (c :: data)) <= length data)%nat) by (rewrite length_drop; cbn [length]; lia).
    specialize (IH (drop (Z.to_nat n) (c :: data)) s1 ltac:(cbn [length] in *; lia)).
    destruct (send_loop fuel (drop (Z.to_nat n) (c :: data)) s1) as [ok s'].
    destruct IH as (-> & (m & Hm & Em) & sent & -> & Hp & Hok). split; [done|].
    split; [exists (S m); split; [cbn [length]; lia|exact Em]|].
    exists (take (Z.to_nat n) (c :: data) ++ sent). split; [by rewrite (assoc_L app)|]. split.
    + rewrite <- (take_drop (Z.to_nat n) (c :: data)) at 2. by apply prefix_app.
    + destruct ok; [by rewrite Hok, take_drop|]. destruct Hok as [Hne Hr]. split.
      * intros E. rewrite <- (take_drop (Z.to_nat n) (c :: data)) in E at 2. by apply app_inv_head in E.
      * apply (refuses_drop (n :: answers) 1 _ _ Hr). cbn [length]. lia.
Qed.

Lemma send_all_spec data s :
  let '(ok, s') := send_all_blocking data s in
  k_in s' = k_in s /\ (exists m, (m <= length data)%nat /\ k_out s' = drop m (k_out s))
  /\ exists sent, k_sent s' = k_sent s ++ sent /\ sent `prefix_of` data
    /\ (if ok then sent = data else sent <> data /\ refuses (k_out s) (length data)).
Proof. by apply send_loop_spec. Qed.

(** The digits of a byte give it back. *)
Definition hex_value (d : Z) : Z := if d <? 58 then d - 48 else d - 87.
Fixpoint unhex (l : list Z) : list Z :=
  match l with h :: d :: l => hex_value h * 16 + hex_value d :: unhex l | _ => [] end.

Lemma hex_digit_value n : 0 <= n < 16 -> hex_value (hex_digit n) = n.
Proof.
  intros Hn. unfold hex_value, hex_digit. destruct (Z.ltb_spec n 10).
  - destruct (Z.ltb_spec (48 + n) 58); lia.
  - destruct (Z.ltb_spec (87 + n) 58); lia.
Qed.

Lemma hex_encode_spec data out_cap hex : bytes_ok data -> hex_encode data out_cap = Ok hex ->
  unhex hex = data /\ blen hex = 2 * blen data.
Proof.
  unfold hex_encode. intros Hb E. destruct (out_cap <? blen data * 2 + 1); [done|].
  apply ok_inj in E as <-. induction Hb as [|b data Hb _ [IH1 IH2]]; [done|].
  cbn [map concat app unhex]. rewrite !blen_cons, IH1, IH2. unfold is_byte in Hb. split; [|lia].
  assert (E : Z.land b 15 = b mod 16) by (apply (Z.land_ones b 4); lia).
  assert (E' : Z.land (Z.shiftr b 4) 15 = b / 16).
  { change 15 with (Z.ones 4). rewrite Z.land_ones, Z.shiftr_div_pow2 by lia.
    apply Z.mod_small. split; [apply Z.div_pos; lia|apply Z.div_lt_upper_bound; lia]. }
  rewrite E, E', !hex_digit_value.
  - f_equal. pose proof (Z.div_mod b 16). lia.
  - apply Z.mod_pos_bound. lia.
  - split; [apply Z.div_pos; lia|apply Z.div_lt_upper_bound; lia].
Qed.

(** Files hold bytes. *)
Definition files_ok (env : tor_environment) : Prop :=
  forall path content, read_file env path = Some content -> bytes_ok content.

(** [hex] is the cookie that [lines] ask for: they accept the command, have an AUTH line that
    offers cookie authentication, and name a file whose first 64 bytes are what [hex] spells. *)
Definition cookie_requested (env : tor_environment) (lines : list reply_line) (hex : list Z) : Prop :=
  last_code lines = 250
  /\ exists l path content,
      l ∈ lines /\ starts_with (cstr "AUTH "%string) (rl_text l) = true
      /\ auth_methods_support_cookie (rl_text l) = true
      /\ extract_cookie_file (rl_text l) COOKIE_PATH_SIZE = Ok path
      /\ read_file env path = Some content /\ content <> []
      /\ unhex hex = take COOKIE_SIZE content.

Lemma find_line_spec lines prefix l : find_line_with_prefix lines prefix = Some l ->
  l ∈ lines /\ starts_with prefix (rl_text l) = true.
Proof.
  induction lines as [|x lines IH]; [done|]. cbn [find_line_with_prefix].
  destruct (starts_with prefix (rl_text x)) eqn:E.
  - intros [= <-]. split; [by left|done].
  - intros H. destruct (IH H). split; [by right|done].
Qed.

Lemma cookie_for_spec env lines : files_ok env ->
  match cookie_for env lines with
  | Ok hex => cookie_requested env lines hex
  | Err => True
  | Ub => False
  end.
Proof.
  intros Hf. unfold cookie_for. destruct (Z.eqb_spec (last_code lines) 250) as [Hc|]; [|done].
  cbn [negb]. destruct (find_line_with_prefix lines (cstr "AUTH "%string)) as [l|] eqn:El; [|done].
  apply find_line_spec in El as [Hin Hs].
  destruct (auth_methods_support_cookie (rl_text l)) eqn:Em; [|done]. cbn [negb].
  destruct (extract_cookie_file (rl_text l) COOKIE_PATH_SIZE) as [path| |] eqn:Ep; [|done|].
  2:{ unfold extract_cookie_file in Ep. repeat case_match; done. }
  rewrite bind_ok. cbv beta. destruct (read_file env path) as [content|] eqn:Er; [|done].
  cbv zeta. destruct (Z.eqb_spec (blen (take COOKIE_SIZE content)) 0) as [|Hn]; [done|].
  assert (Hl : blen (take COOKIE_SIZE content) <= 64)
    by (unfold blen, COOKIE_SIZE; rewrite length_take; lia).
  pose proof (hex_encode_spec (take COOKIE_SIZE content) COOKIE_HEX_SIZE) as Hx.
  destruct (hex_encode (take COOKIE_SIZE content) COOKIE_HEX_SIZE) as [hex| |] eqn:Eh.
  2, 3: unfold hex_encode, COOKIE_HEX_SIZE in Eh;
    destruct (Z.ltb_spec 129 (blen (take COOKIE_SIZE content) * 2 + 1)); [lia|done].
  destruct (Hx hex (bytes_ok_take _ _ (Hf _ _ Er)) eq_refl) as [Hu Hh].
  destruct (Z.leb_spec AUTH_CMD_SIZE (blen (authenticate_cmd hex))) as [Hbig|_].
  - unfold authenticate_cmd, AUTH_CMD_SIZE in Hbig. rewrite !blen_app, Hh in Hbig.
    change (blen (cstr "AUTHENTICATE "%string)) with 13 in Hbig. change (blen CRLF) with 2 in Hbig. lia.
  - split; [done|]. exists l, path, content. split_and!; try done.
    intros ->. by rewrite take_nil in Hn.
Qed.

(** The descriptors [socket] has given out, in order. *)
Fixpoint opened_loop (addresses : list connect_attempt) : list Z :=
  match addresses with
  | [] => []
  | a :: rest =>
      if at_socket a <? 0 then opened_loop rest
      else at_socket a :: (if connect_ok a then [] else opened_loop rest)
  end.

Definition opened_descriptors (config : bm_tor_control_config) (env : tor_environment) : list Z :=
  let tcp :=
    match control_host config with
    | None => []
    | Some host => match resolve env host (control_port config) with Some l => opened_loop l | None => [] end
    end in
  match control_socket_path config with
  | None => tcp
  | Some path =>
      if unix_socket env <? 0 then tcp else
      unix_socket env :: (if unix_reachable env (text_field 108 path) then [] else tcp)
  end.

(** The descriptors that are still open when the call returns [fd]. *)
Definition held (fd : Z) : list Z := if fd <? 0 then [] else [fd].

Lemma connect_loop_spec addresses closed :
  let '(fd, closed') := connect_loop addresses closed in
  closed' ++ held fd = closed ++ opened_loop addresses.
Proof.
  revert closed. induction addresses as [|a rest IH]; intros closed; [done|].
  cbn [connect_loop opened_loop]. destruct (at_socket a <? 0) eqn:Es; [apply IH|].
  destruct (connect_ok a); [unfold held; by rewrite Es|].
  specialize (IH (closed ++ [at_socket a])).
  destruct (connect_loop rest (closed ++ [at_socket a])) as [fd closed'].
  by rewrite IH, <- (assoc_L app).
Qed.

Lemma open_control_spec config env :
  let '(fd, closed) := open_control config env in
  closed ++ held fd = opened_descriptors config env.
Proof.
  unfold open_control, opened_descriptors.
  assert (Htcp : forall host closed,
    let '(fd, closed') := connect_tcp_with_timeout (resolve env host (control_port config)) in
    (closed ++ closed') ++ held fd
    = closed ++ match resolve env host (control_port config) with Some l => opened_loop l | None => [] end).
  { intros host closed. unfold connect_tcp_with_timeout.
    destruct (resolve env host (control_port config)) as [l|]; [|by rewrite !app_nil_r].
    pose proof (connect_loop_spec l []) as H. destruct (connect_loop l []) as [fd closed'].
    by rewrite <- (assoc_L app), H. }
  destruct (control_socket_path config) as [path|].
  - unfold connect_unix. destruct (unix_socket env <? 0) eqn:Es.
    + cbn. destruct (control_host config) as [host|]; [|done]. specialize (Htcp host []).
      destruct (connect_tcp_with_timeout _). apply Htcp.
    + destruct (unix_reachable env (text_field 108 path)); [cbv beta iota; rewrite Es; unfold held; by rewrite Es|].
      change (-1 <? 0) with true. cbv iota beta.
      destruct (control_host config) as [host|]; [|done]. specialize (Htcp host [unix_socket env]).
      destruct (connect_tcp_with_timeout _). apply Htcp.
  - change (-1 <? 0) with true. cbv iota beta. destruct (control_host config) as [host|]; [|done].
    specialize (Htcp host []). destruct (connect_tcp_with_timeout _). apply Htcp.
Qed.

(** The port has nothing to ask for a cookie with: no complete reply, or one that [cookie_for]
    takes none from. *)
Definition no_request (env : tor_environment) (stream : list Z) : Prop :=
  match reply_of BM_TOR_CONTROL_MAX_LINES [] stream with
  | Some (lines, _) => cookie_for env lines = Err
  | None => True
  end.

(** The port does not accept: no complete reply, or another code than 250. *)
Definition no_acceptance (stream : list Z) : Prop :=
  match reply_of BM_TOR_CONTROL_MAX_LINES [] stream with
  | Some (lines, _) => last_code lines <> 250
  | None => True
  end.

(** How far the exchange of [authenticate] got: [sent] on a stream of answers [stream], with the
    answers [outs] of [write]. *)
Inductive handshake (env : tor_environment) (outs stream sent : list Z) : cres unit -> Prop :=
| handshake_greeting :
    sent `prefix_of` protocolinfo_cmd ->
    refuses outs 165 \/ sent = protocolinfo_cmd /\ no_request env stream ->
    handshake env outs stream sent Err
| handshake_cookie lines rest hex auth :
    reply_of BM_TOR_CONTROL_MAX_LINES [] stream = Some (lines, rest) ->
    cookie_for env lines = Ok hex -> cookie_requested env lines hex ->
    sent = protocolinfo_cmd ++ auth -> auth `prefix_of` authenticate_cmd hex ->
    auth <> authenticate_cmd hex /\ refuses outs 165 \/ auth = authenticate_cmd hex /\ no_acceptance rest ->
    handshake env outs stream sent Err
| handshake_done lines rest hex lines' rest' :
    reply_of BM_TOR_CONTROL_MAX_LINES [] stream = Some (lines, rest) ->
    cookie_for env lines = Ok hex -> cookie_requested env lines hex ->
    sent = protocolinfo_cmd ++ authenticate_cmd hex ->
    reply_of BM_TOR_CONTROL_MAX_LINES [] rest = Some (lines', rest') -> last_code lines' = 250 ->
    handshake env outs stream sent (Ok ()).

(** A finished exchange is no failed one. *)
Lemma handshake_exclusive env outs stream sent :
  handshake env outs stream sent (Ok ()) -> handshake env outs stream sent Err -> False.
Proof.
  inversion 1 as [| |lines rest hex lines' rest' E1 E2 _ E3 E4 E5]; subst.
  inversion 1 as [Hp _|? ? ? ? F1 F2 _ F3 _ F4|]; subst.
  - apply prefix_length in Hp. unfold authenticate_cmd in Hp. rewrite !length_app in Hp. cbn in Hp. lia.
  - rewrite E1 in F1. injection F1 as <- <-. rewrite E2 in F2. injection F2 as <-. apply app_inv_head in F3 as <-.
    destruct F4 as [[F4 _]|[_ F4]]; [done|]. unfold no_acceptance in F4. by rewrite E4 in F4.
Qed.

Lemma cookie_for_size env lines hex : cookie_for env lines = Ok hex -> (length (authenticate_cmd hex) < 149)%nat.
Proof.
  unfold cookie_for. intros E. repeat (case_match; try done); apply bind_ok_inv in E as (path & _ & E).
  repeat (case_match; try done). injection E as <-. unfold AUTH_CMD_SIZE, blen in *. lia.
Qed.

Lemma authenticate_handshake env s : files_ok env ->
  let '(r, s') := authenticate env s in
  exists sent, k_sent s' = k_sent s ++ sent /\ handshake env (k_out s) (until_end (k_in s)) sent r.
Proof.
  intros Hf. unfold authenticate. pose proof (send_all_spec protocolinfo_cmd s) as H1.
  destruct (send_all_blocking protocolinfo_cmd s) as [[] s1];
    destruct H1 as (Hin1 & (m & Hm & Hout1) & sent & Hs1 & Hp & Hok); cbn [negb].
  2:{ exists sent. split; [done|]. apply handshake_greeting; [done|left].
      by apply (refuses_drop _ 0 _ 165 (proj2 Hok)); cbn; lia. }
  rewrite Hok in Hs1. clear Hok Hp. change (length protocolinfo_cmd) with 16%nat in Hm.
  pose proof (read_full_reply_spec new_reader s1 reader_ok_new) as H2.
  change (pending new_reader s1) with (until_end (k_in s1)) in H2. rewrite Hin1 in H2.
  destruct (reply_of BM_TOR_CONTROL_MAX_LINES [] (until_end (k_in s))) as [[lines rest]|] eqn:E1.
  2:{ rewrite H2. exists protocolinfo_cmd. split; [done|]. apply handshake_greeting; [done|right]. split; [done|].
      unfold no_request. by rewrite E1. }
  destruct H2 as (lr2 & s2 & -> & Hr2 & Hp2 & Hout2 & Hs2).
  pose proof (cookie_for_spec env lines Hf) as Hc.
  destruct (cookie_for env lines) as [hex| |] eqn:Ec; [| |done].
  2:{ exists protocolinfo_cmd. split; [by rewrite Hs2|]. apply handshake_greeting; [done|right]. split; [done|].
      unfold no_request. by rewrite E1. }
  pose proof (cookie_for_size _ _ _ Ec) as Hsize.
  pose proof (send_all_spec (authenticate_cmd hex) s2) as H3.
  destruct (send_all_blocking (authenticate_cmd hex) s2) as [[] s3];
    destruct H3 as (Hin3 & _ & auth & Hs3 & Hp3 & Hok3); cbn [negb].
  2:{ exists (protocolinfo_cmd ++ auth). split; [by rewrite Hs3, Hs2, Hs1, (assoc_L app)|].
      eapply handshake_cookie; try done. left. split; [apply Hok3|]. destruct Hok3 as [_ Hr].
      rewrite Hout2, Hout1 in Hr. apply (refuses_drop _ _ _ 165 Hr). lia. }
  rewrite Hok3 in Hs3. clear Hok3 Hp3.
  assert (Hsent : k_sent s3 = k_sent s ++ protocolinfo_cmd ++ authenticate_cmd hex)
    by (by rewrite Hs3, Hs2, Hs1, (assoc_L app)).
  pose proof (read_full_reply_spec lr2 s3 Hr2) as H4.
  assert (Hp4 : pending lr2 s3 = rest) by (rewrite <- Hp2; unfold pending; by rewrite Hin3).
  rewrite Hp4 in H4.
  assert (Herr : no_acceptance rest ->
    handshake env (k_out s) (until_end (k_in s)) (protocolinfo_cmd ++ authenticate_cmd hex) Err)
    by (intros Hno; eapply handshake_cookie; try done; by right).
  unfold no_acceptance in Herr.
  destruct (reply_of BM_TOR_CONTROL_MAX_LINES [] rest) as [[lines' rest']|] eqn:E2.
  2:{ rewrite H4. eexists. split; [exact Hsent|]. by apply Herr. }
  destruct H4 as (lr4 & s4 & -> & _ & _ & _ & Hs4).
  eexists. split; [by rewrite Hs4, Hsent|].
  destruct (Z.eqb_spec (last_code lines') 250); [by eapply handshake_done|by apply Herr].
Qed.

(** What every caller relies on. *)
Lemma control_connection config env s : files_ok env ->
  let '(r, closed, s') := bm_tor_control_connect_and_authenticate config env s in
  exists fd exchange, r = Ok fd /\ k_sent s' = k_sent s ++ exchange
  /\ closed ++ held fd = opened_descriptors config env.
Proof.
  intros Hf. unfold bm_tor_control_connect_and_authenticate.
  pose proof (open_control_spec config env) as Ho. destruct (open_control config env) as [fd closed].
  destruct (fd <? 0) eqn:Hfd.
  { exists (-1), []. rewrite app_nil_r. unfold held in Ho. by rewrite Hfd in Ho. }
  pose proof (authenticate_handshake env s Hf) as H.
  destruct (authenticate env s) as [[[]| |] s']; destruct H as (sent & Hs & Hh); [| |inversion Hh].
  - by exists fd, sent.
  - exists (-1), sent. unfold held in *. rewrite Hfd in Ho. rewrite Ho, app_nil_r. done.
Qed.

(** C12: [bm_tor_control_connect_and_authenticate] sends the cookie only to a control port that
    asked for it.  Whatever the port answers and however its bytes arrive, the call returns; what
    it has written is a part of PROTOCOLINFO, or PROTOCOLINFO and a part of AUTHENTICATE with the
    first 64 bytes, in hexadecimal, of the very file that the port named, in a complete and
    successful reply that offers cookie authentication; it stops short only when there is no such
    reply or [write] refuses.  It gives a descriptor, that of the connection, if and only if both
    were sent in full and the second accepted with 250, and every descriptor it opened is either
    that one or closed. *)
Theorem cookie_sent_on_request (config : bm_tor_control_config) (env : tor_environment)
  (s : control_socket) :
  files_ok env ->
  let '(r, closed, s') := bm_tor_control_connect_and_authenticate config env s in
  let handshake := handshake env (k_out s) (until_end (k_in s)) in
  let connection := (open_control config env).1 in
  exists fd sent, r = Ok fd /\ k_sent s' = k_sent s ++ sent
  /\ closed ++ held fd = opened_descriptors config env
  /\ (connection < 0 -> fd < 0 /\ sent = [])
  /\ (0 <= connection -> handshake sent (Ok ()) \/ handshake sent Err)
  /\ (0 <= fd <-> 0 <= connection /\ handshake sent (Ok ()))
  /\ (0 <= fd -> fd = connection).
Proof.
  intros Hf. unfold bm_tor_control_connect_and_authenticate.
  pose proof (open_control_spec config env) as Ho. destruct (open_control config env) as [fd closed]. cbn [fst].
  destruct (Z.ltb_spec fd 0) as [Hfd|Hfd].
  { exists (-1), []. rewrite app_nil_r. split_and!; [done|done| |done|lia|lia|lia].
    unfold held in *. rewrite (proj2 (Z.ltb_lt _ _) Hfd) in Ho. done. }
  unfold held in Ho. rewrite (proj2 (Z.ltb_ge _ _) Hfd) in Ho.
  pose proof (authenticate_handshake env s Hf) as H.
  destruct (authenticate env s) as [[[]| |] s']; destruct H as (sent & Hs & Hh); [| |inversion Hh].
  - exists fd, sent. unfold held. rewrite (proj2 (Z.ltb_ge _ _) Hfd). split_and!; [done..|lia|by left|done|done].
  - exists (-1), sent. rewrite Ho. cbn [held app]. rewrite app_nil_r.
    split_and!; [done..|lia|by right| |lia].
    split; [lia|]. intros [_ Hok]. destruct (handshake_exclusive _ _ _ _ Hok Hh).
Qed.

(** A Tor on this machine: no Unix socket, one refused address, one that answers. *)
Definition attempt_example (socket connect : Z) : connect_attempt :=
  {| at_socket := socket; at_connect := connect; at_in_progress := false; at_select := 0; at_so_error := 0 |}.

Definition env_example : tor_environment :=
  {| unix_socket := 5; unix_reachable := fun _ => false;
     resolve := fun _ _ => Some [attempt_example 6 (-1); attempt_example 7 0];
     read_file := fun path =>
       if list_eqb path (cstr "/run/tor/cookie"%string) then Some [0; 171; 205; 255] else None |}.

Definition control_example : bm_tor_control_config :=
  {| control_socket_path := Some (cstr "/run/tor/control"%string);
     control_host := Some (cstr "127.0.0.1"%string); control_port := 9051 |}.

Lemma cookie_sent_on_request_witness :
  let '(r, closed, s') := bm_tor_control_connect_and_authenticate control_example env_example
    (socket_example [protocolinfo_reply; cstr "250 OK"%string; CRLF]) in
  r = Ok 7 /\ closed = [5; 6]
  /\ exists sent, k_sent s' = sent
     /\ sent = cstr "PROTOCOLINFO 1"%string ++ CRLF ++ cstr "AUTHENTICATE 00abcdff"%string ++ CRLF.
Proof.
  assert (Hf : files_ok env_example).
  { intros path content. cbn [read_file env_example].
    destruct (list_eqb path (cstr "/run/tor/cookie"%string)); [|done]. intros [= <-].
    by repeat constructor. }
  pose proof (cookie_sent_on_request control_example env_example
    (socket_example [protocolinfo_reply; cstr "250 OK"%string; CRLF]) Hf) as H.
  set (t := bm_tor_control_connect_and_authenticate _ _ _) in *.
  vm_compute in t. subst t. cbv beta iota in H |- *.
  destruct H as (fd & sent & [= <-] & Hs & Hc & _). split_and!; [done|done|].
  exists sent. split; [exact Hs|]. exact (eq_sym Hs).
Defined.
