(* ===== verification/Network.v ===== *)
(** * Connections (infra/network.c)

    One connection: its send queue, its receive buffer, the pacing of a big inventory, and
    the limits on inbound connections.

    The operating system is the environment: a socket's answers to [send] and [epoll_ctl]
    are lists of the answers still to come, kept with the connection, and the bytes the
    kernel has taken are [sock_wire]; what [read] returns is an argument. *)

From Stdlib Require Import String.
From stdpp Require Import base tactics numbers option gmap sorting list.
From S2P Require Import Prelude Varint Openssl Hash Object Sql Protocol.

#[local] Arguments be_split : simpl never.

Definition INIT_RECV_BUFFER_SIZE : Z := 131072.
Definition MAX_RECV_BUFFER_SIZE : Z := 2 * (BM_MESSAGE_HEADER_SIZE + BM_MAX_MESSAGE_LENGTH).
Definition BM_SEND_STALL_TIMEOUT_SECONDS : Z := 120.
Definition BM_SEND_QUEUE_HARD_LIMIT_BYTES : Z := 16 * 1024 * 1024.
Definition BM_PEER_IP_STRLEN : Z := 64.
Definition BM_BIG_INV_CHUNK_SIZE : Z := 1000.
Definition BM_BIG_INV_CHUNK_INTERVAL_SECONDS : Z := 1.
Definition BM_INBOUND_ACCEPT_WINDOW_SECONDS : Z := 10.
Definition BM_INBOUND_ACCEPT_MAX_PER_WINDOW : Z := 20.

(** ** The connection *)

Inductive bm_fd_type := BM_FD_CLIENT_SOCKET | BM_FD_SERVER_SOCKET | BM_FD_LISTEN_SOCKET.
#[export] Instance bm_fd_type_eq_dec : EqDecision bm_fd_type.
Proof. solve_decision. Defined.

(** [data] from [off] on is still to be sent. *)
Record bm_send_chunk := { sc_data : list Z; sc_off : Z }.

(** What [send(fd, p, len, MSG_DONTWAIT | MSG_NOSIGNAL)] answers: at most [n] bytes of the
    [len] taken, or an error. *)
Inductive send_answer := SENT (n : Z) | EINTR | EAGAIN | EFATAL.

(** The fields under [send_lock], and the socket. *)
Record send_state := {
  send_queue : list bm_send_chunk; (** from [send_head] to [send_tail] *)
  send_queued_bytes : Z;
  last_write_progress : Z;
  bytes_sent : Z;
  epoll_registered : bool;
  send_out_armed : bool;
  sock_wire : list Z; (** what the kernel has taken *)
  sock_answers : list send_answer;
  ctl_answers : list bool (** whether [epoll_ctl] succeeds *)
}.
#[export] Instance send_state_eta : RecordEta send_state := fun s =>
  Build_send_state (send_queue s) (send_queued_bytes s) (last_write_progress s) (bytes_sent s)
    (epoll_registered s) (send_out_armed s) (sock_wire s) (sock_answers s) (ctl_answers s).

Record inv_state := {
  pending_inv_hashes : option (list (list Z)); (** [pending_inv_total] is the length *)
  pending_inv_sent : Z;
  pending_inv_last_chunk_time : Z
}.
#[export] Instance inv_state_eta : RecordEta inv_state := fun i =>
  Build_inv_state (pending_inv_hashes i) (pending_inv_sent i) (pending_inv_last_chunk_time i).

Record upload_state := {
  upload_pending : list (list Z); (** the [upload_pending_count] hashes from the head *)
  upload_sent : Z;
  upload_not_found : Z
}.
#[export] Instance upload_state_eta : RecordEta upload_state := fun u =>
  Build_upload_state (upload_pending u) (upload_sent u) (upload_not_found u).

Record bm_fd_data := {
  c_type : bm_fd_type;
  c_fd : Z;
  c_generation : Z;
  c_size : Z;
  c_recv : list Z; (** the [length] bytes received *)
  c_local_addr : sockaddr_storage;
  c_peer_addr : sockaddr_storage;
  c_logical_peer_ip : list Z;
  c_logical_peer_port : Z;
  c_services : Z;
  c_last_activity : Z;
  c_handshake_complete : bool;
  c_should_disconnect : bool;
  c_pending_eviction : bool;
  c_user_agent : option (list Z);
  c_bytes_received : Z;
  c_inv : inv_state;
  c_pending_verack_reply_at : Z;
  c_send : send_state;
  c_upload : upload_state
}.
#[export] Instance bm_fd_data_eta : RecordEta bm_fd_data := fun c =>
  Build_bm_fd_data (c_type c) (c_fd c) (c_generation c) (c_size c) (c_recv c) (c_local_addr c)
    (c_peer_addr c) (c_logical_peer_ip c) (c_logical_peer_port c) (c_services c) (c_last_activity c)
    (c_handshake_complete c) (c_should_disconnect c) (c_pending_eviction c) (c_user_agent c)
    (c_bytes_received c) (c_inv c) (c_pending_verack_reply_at c) (c_send c) (c_upload c).

(** A cleared [send_state] over a socket that will answer so. *)
Definition fresh_send (answers : list send_answer) (ctl : list bool) : send_state :=
  {| send_queue := []; send_queued_bytes := 0; last_write_progress := 0; bytes_sent := 0;
     epoll_registered := false; send_out_armed := false; sock_wire := []; sock_answers := answers;
     ctl_answers := ctl |}.

(** [local] and [peer] are the answers of [getsockname] and [getpeername], [None] for a
    failure. *)
Definition bm_fd_data_new (type : bm_fd_type) (fd now : Z) (local peer : option sockaddr_storage)
    (answers : list send_answer) (ctl : list bool) : cres bm_fd_data :=
  match local, (if decide (type = BM_FD_LISTEN_SOCKET) then Some AF_OTHER else peer) with
  | Some local, Some peer =>
      Ok {| c_type := type; c_fd := fd; c_generation := 0; c_size := INIT_RECV_BUFFER_SIZE;
            c_recv := []; c_local_addr := local; c_peer_addr := peer; c_logical_peer_ip := [];
            c_logical_peer_port := 0; c_services := 0; c_last_activity := now;
            c_handshake_complete := false; c_should_disconnect := false;
            c_pending_eviction := false; c_user_agent := None; c_bytes_received := 0;
            c_inv := {| pending_inv_hashes := None; pending_inv_sent := 0;
                        pending_inv_last_chunk_time := 0 |};
            c_pending_verack_reply_at := 0; c_send := fresh_send answers ctl;
            c_upload := {| upload_pending := []; upload_sent := 0; upload_not_found := 0 |} |}
  | _, _ => Err
  end.

(** ** Sending *)

Definition epoll_ctl (s : send_state) : bool * send_state :=
  match ctl_answers s with
  | a :: rest => (a, s <| ctl_answers := rest |>)
  | [] => (true, s)
  end.

Definition has_queue (s : send_state) : bool :=
  match send_queue s with [] => false | _ => true end.

Definition update_out_interest_locked (s : send_state) : send_state :=
  let want := has_queue s in
  if negb (epoll_registered s) || Bool.eqb want (send_out_armed s) then s else
  let '(ok, s) := epoll_ctl s in
  if ok then s <| send_out_armed := want |> else s.

(** The first [n] bytes of what is left of the chunk at the head have been taken. *)
Definition took (s : send_state) (c : bm_send_chunk) (rest : list bm_send_chunk) (n now : Z)
  : send_state :=
  let off := sc_off c + n in
  {| send_queue := if off =? blen (sc_data c) then rest
                   else {| sc_data := sc_data c; sc_off := off |} :: rest;
     send_queued_bytes := u64 (send_queued_bytes s - n);
     last_write_progress := now;
     bytes_sent := u64 (bytes_sent s + n);
     epoll_registered := epoll_registered s; send_out_armed := send_out_armed s;
     sock_wire := sock_wire s ++ slice (sc_data c) (sc_off c) n;
     sock_answers := sock_answers s; ctl_answers := ctl_answers s |}.

(** The loop, over the answers of the socket; a socket without an answer left would block.
    Whether it ended without a fatal error. *)
Fixpoint flush_loop (answers : list send_answer) (s : send_state) (now : Z) : bool * send_state :=
  match send_queue s with
  | [] => (true, s <| sock_answers := answers |>)
  | c :: rest =>
      match answers with
      | [] => (true, s <| sock_answers := [] |>)
      | SENT k :: answers =>
          let n := Z.min k (blen (sc_data c) - sc_off c) in
          if 0 <? n then flush_loop answers (took s c rest n now) now
          else (false, s <| sock_answers := answers |>)
      | EINTR :: answers => flush_loop answers s now
      | EAGAIN :: answers => (true, s <| sock_answers := answers |>)
      | EFATAL :: answers => (false, s <| sock_answers := answers |>)
      end
  end.

Definition flush_locked (s : send_state) (now : Z) : bool * send_state :=
  let '(ok, s) := flush_loop (sock_answers s) s now in
  if ok then (true, update_out_interest_locked s) else (false, s).

Definition enqueue (s : send_state) (data : list Z) (now : Z) : send_state :=
  s <| last_write_progress := if has_queue s then last_write_progress s else now |>
    <| send_queue := send_queue s ++ [{| sc_data := data; sc_off := 0 |}] |>
    <| send_queued_bytes := u64 (send_queued_bytes s + blen data) |>.

(** Whether the data was accepted and no write failed. *)
Definition bm_network_send (conn : bm_fd_data) (data : list Z) (now : Z) : bool * bm_fd_data :=
  if blen data =? 0 then (true, conn) else
  if u64 (send_queued_bytes (c_send conn) + blen data) >? BM_SEND_QUEUE_HARD_LIMIT_BYTES then
    (false, conn <| c_pending_eviction := true |>)
  else
  let '(ok, s) := flush_locked (enqueue (c_send conn) data now) now in
  let conn := conn <| c_send := s |> in
  if ok then (true, conn) else (false, conn <| c_pending_eviction := true |>).

Definition bm_network_flush (conn : bm_fd_data) (now : Z) : bool * bm_fd_data :=
  let '(ok, s) := flush_locked (c_send conn) now in (ok, conn <| c_send := s |>).

Definition bm_network_queued_bytes (conn : bm_fd_data) : Z := send_queued_bytes (c_send conn).

Definition bm_network_epoll_register (conn : bm_fd_data) : bool * bm_fd_data :=
  let want_out := has_queue (c_send conn) in
  let '(ok, s) := epoll_ctl (c_send conn) in
  if ok then (true, conn <| c_send := s <| epoll_registered := true |> <| send_out_armed := want_out |> |>)
  else (false, conn <| c_send := s |>).

Definition send_stalled (conn : bm_fd_data) (now : Z) : cres bool :=
  since ← int64 (now - last_write_progress (c_send conn));
  Ok ((0 <? send_queued_bytes (c_send conn)) && (BM_SEND_STALL_TIMEOUT_SECONDS <? since)).

(** ** Answers *)

(** [strncmp(a, b, n) == 0] on NUL-padded arrays and C strings. *)
Definition strncmp_eq (n : nat) (a b : list Z) : bool :=
  list_eqb (take n (c_string a)) (take n (c_string b)).

Section Replies.
Context `{OS : OpenSSL} (g : protocol_globals).

Definition send_header_only (conn : bm_fd_data) (command : list Z) (now : Z) : cres (bool * bm_fd_data) :=
  packet ← bm_create_packet g command [];
  Ok (bm_network_send conn packet now).

Definition bm_reply_verack (conn : bm_fd_data) (now : Z) : cres (bool * bm_fd_data) :=
  send_header_only conn (cstr "verack"%string) now.

Definition bm_reply_pong (conn : bm_fd_data) (now : Z) : cres (bool * bm_fd_data) :=
  send_header_only conn (cstr "pong"%string) now.

(** [clock] and [rnd] are what the message builder asks for: the time and the nonce. *)
Definition bm_post_version (conn : bm_fd_data) (user_agent_str : list Z) (version : Z)
    (peer_addr local_addr : sockaddr_storage) (now clock : Z) (rnd : option Z)
  : cres (bool * bm_fd_data) :=
  msg ← bm_new_version_message g user_agent_str version peer_addr local_addr clock rnd;
  Ok (bm_network_send conn msg now).

(** The dispatch of a thread without a handler; a failed reply is only logged. *)
Definition default_dispatch (conn : bm_fd_data) (msg : bm_message) (now : Z) : cres bm_fd_data :=
  let cmd_is c := strncmp_eq 12 (msg_command msg) c in
  if cmd_is (cstr "version"%string) then
    _ ← bm_parse_version_message (msg_payload msg) (msg_length msg);
    '(_, conn) ← bm_reply_verack conn now;
    Ok conn
  else if cmd_is (cstr "verack"%string) then Ok conn
  else if cmd_is (cstr "ping"%string) then
    '(_, conn) ← bm_reply_pong conn now;
    Ok conn
  else if cmd_is (cstr "addr"%string) then
    match bm_parse_addr_message (default [] (msg_payload msg)) with Ub => Ub | _ => Ok conn end
  else if cmd_is (cstr "inv"%string) then
    match bm_parse_inventory_message (default [] (msg_payload msg)) with Ub => Ub | _ => Ok conn end
  else Ok conn.
End Replies.

(** ** Receiving *)

(** What [read(fd, buf, sizeof(buf))] answers; it returns at most [sizeof(buf)] bytes. *)
Inductive read_answer := RDATA (bytes : list Z) | REOF | RAGAIN | RERROR.

(** [while (need > new_size) new_size *= 2], whose fuel is the width of [size_t]. *)
Fixpoint grow (fuel : nat) (size need : Z) : cres Z :=
  if need >? size then
    match fuel with O => Ub | S fuel => grow fuel (u64 (size * 2)) need end
  else Ok size.

(** 0 to go on, 1 for a closed peer, -1 for an error. *)
Inductive read_status := READ_OK | READ_CLOSED | READ_FAILED.

(** One successful [read]. *)
Definition recv_data (conn : bm_fd_data) (bytes : list Z) (now : Z) : cres (read_status * bm_fd_data) :=
  let n := blen bytes in
  let conn := conn <| c_last_activity := now |>
                <| c_bytes_received := u64 (c_bytes_received conn + n) |> in
  let need := blen (c_recv conn) + n in
  if need >? c_size conn then
    new_size ← grow 64 (c_size conn) need;
    if new_size >? MAX_RECV_BUFFER_SIZE then Ok (READ_FAILED, conn) else
    Ok (READ_OK, conn <| c_size := new_size |> <| c_recv := c_recv conn ++ bytes |>)
  else Ok (READ_OK, conn <| c_recv := c_recv conn ++ bytes |>).

Fixpoint recv_loop (answers : list read_answer) (conn : bm_fd_data) (now : Z)
  : cres (read_status * bm_fd_data) :=
  match answers with
  | [] | RAGAIN :: _ => Ok (READ_OK, conn)
  | RERROR :: _ => Ok (READ_FAILED, conn)
  | REOF :: _ => Ok (READ_CLOSED, conn)
  | RDATA bytes :: answers =>
      let bytes := take (Z.to_nat INIT_RECV_BUFFER_SIZE) bytes in
      if blen bytes =? 0 then Ok (READ_CLOSED, conn) else
      '(st, conn) ← recv_data conn bytes now;
      match st with READ_OK => recv_loop answers conn now | _ => Ok (st, conn) end
  end.

Section Receive.
Context `{OS : OpenSSL} (g : protocol_globals) {W : Type}.
(** [handler(conn, msg, user_data)] on the rest of the node's state. *)
Context (handler : bm_fd_data -> bm_message -> W -> cres (bm_fd_data * W)).

(** [memmove] of what follows the first [consumed] bytes. *)
Definition consume (conn : bm_fd_data) (consumed : Z) : cres bm_fd_data :=
  rest ← rdn (c_recv conn) consumed (blen (c_recv conn) - consumed);
  Ok (conn <| c_recv := rest |>).

(** The parse loop; running out of fuel stands for a loop that does not end. *)
Fixpoint parse_loop (fuel : nat) (conn : bm_fd_data) (w : W) : cres (read_status * bm_fd_data * W) :=
  match fuel with
  | O => Ub
  | S fuel =>
      result ← bm_parse_message g (c_recv conn);
      match result with
      | BM_PARSE_INCOMPLETE => Ok (READ_OK, conn, w)
      | BM_PARSE_BAD_CHECKSUM consumed | BM_PARSE_BAD_MAGIC consumed =>
          conn ← consume conn consumed;
          parse_loop fuel conn w
      | BM_PARSE_MESSAGE_TOO_LARGE => Ok (READ_FAILED, conn, w)
      | BM_PARSE_OK msg consumed =>
          conn ← consume conn consumed;
          '(conn, w) ← handler conn msg w;
          if c_should_disconnect conn then Ok (READ_FAILED, conn, w)
          else parse_loop fuel conn w
      end
  end.

Definition bm_network_handle_readable (answers : list read_answer) (conn : bm_fd_data) (now : Z) (w : W)
  : cres (read_status * bm_fd_data * W) :=
  '(st, conn) ← recv_loop answers conn now;
  match st with
  | READ_OK => parse_loop (S (length (c_recv conn))) conn w
  | _ => Ok (st, conn, w)
  end.
End Receive.

(** ** Inbound limits *)

Record bm_inbound_rate_limiter := { window_start : Z; count_in_window : Z }.

Definition bm_inbound_rate_limiter_init : bm_inbound_rate_limiter :=
  {| window_start := 0; count_in_window := 0 |}.

Definition bm_inbound_rate_limiter_allow (rl : bm_inbound_rate_limiter) (now : Z)
  : cres (bool * bm_inbound_rate_limiter) :=
  d ← int64 (now - window_start rl);
  let rl := if d >=? BM_INBOUND_ACCEPT_WINDOW_SECONDS
            then {| window_start := now; count_in_window := 0 |} else rl in
  let rl := {| window_start := window_start rl; count_in_window := count_in_window rl + 1 |} in
  Ok (count_in_window rl <=? BM_INBOUND_ACCEPT_MAX_PER_WINDOW, rl).

(** ** Addresses of peers *)

(** [inet_ntop] of an address family and its bytes: the text. *)
Class InetNtop := {
  inet_ntop4 : list Z -> list Z;
  inet_ntop6 : list Z -> list Z
}.

Section PeerAddress.
Context `{INP : InetNtop}.

(** The text and the port; no text when it does not fit with its NUL. *)
Definition bm_network_extract_ip_port (addr : sockaddr_storage) (out_ip_len : Z) : list Z * Z :=
  let fit s := if blen s <? out_ip_len then s else [] in
  match addr with
  | AF_INET sin_addr sin_port => (fit (inet_ntop4 sin_addr), be_combine sin_port)
  | AF_INET6 sin6_addr sin6_port => (fit (inet_ntop6 sin6_addr), be_combine sin6_port)
  | AF_OTHER => ([], 0)
  end.

Definition bm_network_resolve_peer_ip_port (conn : bm_fd_data) (out_ip_len : Z) : list Z * Z :=
  if negb (blen (c_logical_peer_ip conn) =? 0) then
    (text_field out_ip_len (c_logical_peer_ip conn), c_logical_peer_port conn)
  else bm_network_extract_ip_port (c_peer_addr conn) out_ip_len.
End PeerAddress.

(** [printf]'s %d. *)
Fixpoint decimal_digits (fuel : nat) (n : Z) (acc : list Z) : list Z :=
  let acc := (48 + n mod 10) :: acc in
  match fuel with
  | S fuel => if n <? 10 then acc else decimal_digits fuel (n / 10) acc
  | O => acc
  end.
Definition format_int (n : Z) : list Z :=
  if n <? 0 then 45 :: decimal_digits 10 (- n) [] else decimal_digits 10 n [].

Definition bm_network_format_host_port (host : list Z) (port out_len : Z) : list Z :=
  text_field out_len
    (if existsb (Z.eqb 58) host then [91] ++ host ++ [93; 58] ++ format_int port
     else host ++ [58] ++ format_int port).

(** ** The big inventory *)

Section BigInv.
Context `{OS : OpenSSL} (g : protocol_globals).

Definition send_inv_chunk (conn : bm_fd_data) (now : Z) : cres bm_fd_data :=
  match pending_inv_hashes (c_inv conn) with
  | None => Ub
  | Some hashes =>
      let sent := pending_inv_sent (c_inv conn) in
      let total := Z.of_nat (length hashes) in
      let remaining := u64 (total - sent) in
      let n := if remaining <? BM_BIG_INV_CHUNK_SIZE then remaining else BM_BIG_INV_CHUNK_SIZE in
      packet ← bm_create_inventory_message g (cstr "inv"%string)
                 (take (Z.to_nat n) (drop (Z.to_nat sent) hashes));
      let conn := conn <| c_inv := (c_inv conn) <| pending_inv_last_chunk_time := now |> |> in
      let '(ok, conn) := bm_network_send conn packet now in
      if ok then
        let sent := sent + n in
        Ok (conn <| c_inv := (c_inv conn) <| pending_inv_sent := sent |>
              <| pending_inv_hashes := if sent >=? total then None else Some hashes |> |>)
      else Ok (conn <| c_inv := (c_inv conn) <| pending_inv_hashes := None |> |>)
  end.

Definition bm_network_begin_big_inv (conn : bm_fd_data) (hashes : list (list Z)) (now : Z)
  : cres bm_fd_data :=
  send_inv_chunk
    (conn <| c_inv := (c_inv conn) <| pending_inv_hashes := Some hashes |> <| pending_inv_sent := 0 |> |>)
    now.
End BigInv.

(** ** The send queue is a byte stream *)

Definition chunk_rest (c : bm_send_chunk) : list Z := drop (Z.to_nat (sc_off c)) (sc_data c).
Definition chunk_ok (c : bm_send_chunk) : Prop := 0 <= sc_off c < blen (sc_data c).

(** What is queued and not yet taken by the kernel. *)
Definition queued (s : send_state) : list Z := concat (map chunk_rest (send_queue s)).

Record send_ok (s : send_state) : Prop := {
  so_chunks : Forall chunk_ok (send_queue s);
  so_queued : send_queued_bytes s = blen (queued s);
  so_limit : blen (queued s) <= BM_SEND_QUEUE_HARD_LIMIT_BYTES;
  so_sent : bytes_sent s = u64 (blen (sock_wire s))
}.

Lemma chunk_rest_cut c n :
  chunk_ok c -> 0 < n <= blen (sc_data c) - sc_off c ->
  chunk_rest c = slice (sc_data c) (sc_off c) n
                 ++ chunk_rest {| sc_data := sc_data c; sc_off := sc_off c + n |}.
Proof.
  intros [H1 H2] H. unfold chunk_rest, slice. cbn [sc_off sc_data].
  rewrite Z2Nat.inj_add, <- drop_drop by lia. by rewrite take_drop.
Qed.

Lemma blen_chunk_rest c : chunk_ok c -> blen (chunk_rest c) = blen (sc_data c) - sc_off c.
Proof. intros [H1 H2]. unfold chunk_rest, blen in *. rewrite length_drop. lia. Qed.

Lemma took_stream s c rest n now :
  send_queue s = c :: rest -> chunk_ok c -> 0 < n <= blen (sc_data c) - sc_off c ->
  sock_wire (took s c rest n now) ++ queued (took s c rest n now) = sock_wire s ++ queued s.
Proof.
  intros Eq Hc Hn. unfold queued, took. rewrite Eq. cbn [send_queue sock_wire map concat].
  rewrite (chunk_rest_cut c n), <- !app_assoc by done. do 2 f_equal.
  destruct (Z.eqb_spec (sc_off c + n) (blen (sc_data c))) as [E|E]; [|done].
  unfold chunk_rest at 2. cbn [sc_off sc_data]. rewrite E. unfold blen. by rewrite Nat2Z.id, drop_all.
Qed.

Lemma took_ok s c rest n now :
  send_queue s = c :: rest -> send_ok s -> 0 < n <= blen (sc_data c) - sc_off c ->
  send_ok (took s c rest n now).
Proof.
  intros Eq [Hc Hq Hl Hs] Hn. rewrite Eq in Hc. inv Hc. rename H1 into Hc1, H2 into Hc2.
  pose proof (took_stream s c rest n now Eq Hc1 Hn) as Hst.
  assert (Lw : blen (sock_wire (took s c rest n now)) = blen (sock_wire s) + n).
  { cbn. rewrite blen_app, blen_slice; destruct Hc1; lia. }
  assert (Lq : blen (queued (took s c rest n now)) = blen (queued s) - n).
  { apply (f_equal blen) in Hst. rewrite !blen_app in Hst. lia. }
  pose proof (blen_nonneg (queued (took s c rest n now))).
  split.
  - unfold took. cbn [send_queue]. case_match eqn:E; [done|]. constructor; [|done].
    unfold chunk_ok in *. cbn [sc_off sc_data]. apply Z.eqb_neq in E. lia.
  - rewrite Lq. cbn. rewrite Hq. unfold u64, BM_SEND_QUEUE_HARD_LIMIT_BYTES in *.
    apply Z.mod_small. lia.
  - lia.
  - rewrite Lw. cbn. rewrite Hs. unfold u64. by rewrite Zplus_mod_idemp_l.
Qed.

Lemma flush_loop_inv answers : forall s now ok s',
  send_ok s -> flush_loop answers s now = (ok, s') ->
  send_ok s' /\ sock_wire s' ++ queued s' = sock_wire s ++ queued s
  /\ epoll_registered s' = epoll_registered s /\ send_out_armed s' = send_out_armed s
  /\ ctl_answers s' = ctl_answers s /\ exists more, sock_wire s' = sock_wire s ++ more.
Proof.
  assert (stop : forall s a, send_ok s -> send_ok (s <| sock_answers := a |>)
    /\ sock_wire (s <| sock_answers := a |>) ++ queued (s <| sock_answers := a |>) = sock_wire s ++ queued s
    /\ epoll_registered (s <| sock_answers := a |>) = epoll_registered s
    /\ send_out_armed (s <| sock_answers := a |>) = send_out_armed s
    /\ ctl_answers (s <| sock_answers := a |>) = ctl_answers s
    /\ exists more, sock_wire (s <| sock_answers := a |>) = sock_wire s ++ more).
  { intros s a [? ? ? ?]. repeat split; try done. exists []. by rewrite app_nil_r. }
  induction answers as [|a answers IH]; intros s now ok s' Hs E; cbn [flush_loop] in E;
    destruct (send_queue s) as [|c rest] eqn:Eq; try (injection E as <- <-; by apply stop).
  destruct a as [k| | |]; try (injection E as <- <-; by apply stop); [|by eapply IH].
  destruct (Z.ltb_spec 0 (Z.min k (blen (sc_data c) - sc_off c))) as [Hn|Hn];
    [|injection E as <- <-; by apply stop].
  set (n := Z.min k (blen (sc_data c) - sc_off c)) in *.
  assert (Hn' : 0 < n <= blen (sc_data c) - sc_off c) by lia.
  pose proof (took_ok s c rest n now Eq Hs Hn') as Ht.
  assert (Hc : chunk_ok c) by (destruct Hs as [Hc _ _ _]; rewrite Eq in Hc; by inv Hc).
  destruct (IH _ _ _ _ Ht E) as (H1 & H2 & H3 & H4 & H5 & more & H6).
  split_and!; try done.
  - rewrite H2. by apply took_stream.
  - exists (slice (sc_data c) (sc_off c) n ++ more). rewrite H6. cbn. by rewrite <- app_assoc.
Qed.

(** With every [epoll_ctl] granted, EPOLLOUT is registered exactly when something waits. *)
Definition armed_ok (s : send_state) : Prop :=
  ctl_answers s = [] /\ (epoll_registered s = true -> send_out_armed s = has_queue s).

Lemma out_interest_inv s :
  send_ok s ->
  send_ok (update_out_interest_locked s)
  /\ sock_wire (update_out_interest_locked s) = sock_wire s
  /\ queued (update_out_interest_locked s) = queued s
  /\ (ctl_answers s = [] -> armed_ok (update_out_interest_locked s)).
Proof.
  intros [? ? ? ?]. unfold update_out_interest_locked.
  destruct (epoll_registered s) eqn:Er; cbn [negb orb]; [|repeat split; try done; congruence].
  destruct (Bool.eqb (has_queue s) (send_out_armed s)) eqn:Ea.
  { apply eqb_prop in Ea. by repeat split. }
  unfold epoll_ctl. destruct (ctl_answers s) as [|[] ctl] eqn:Ec; repeat split; try done.
Qed.

Lemma flush_locked_inv s now ok s' :
  send_ok s -> flush_locked s now = (ok, s') ->
  send_ok s' /\ sock_wire s' ++ queued s' = sock_wire s ++ queued s
  /\ (ctl_answers s = [] -> ok = true -> armed_ok s')
  /\ exists more, sock_wire s' = sock_wire s ++ more.
Proof.
  intros Hs E. unfold flush_locked in E. destruct (flush_loop _ s now) as [ok1 s1] eqn:E1.
  destruct (flush_loop_inv _ _ _ _ _ Hs E1) as (H1 & H2 & _ & _ & H5 & H6).
  destruct ok1; injection E as <- <-; [|by split_and!].
  destruct (out_interest_inv s1 H1) as (? & Hw & Hq & ?). rewrite Hw, Hq.
  split_and!; [done|done|intros; rewrite <- H5 in *; auto|done].
Qed.

(** A socket that keeps taking bytes is given everything that is queued. *)
Lemma flush_loop_drains answers : forall s now ok s',
  send_ok s -> Forall (fun a => exists k, a = SENT k /\ 0 < k) answers ->
  blen (queued s) <= Z.of_nat (length answers) ->
  flush_loop answers s now = (ok, s') -> ok = true /\ send_queue s' = [].
Proof.
  induction answers as [|a answers IH]; intros s now ok s' Hs Ha Hl E; cbn [flush_loop] in E;
    destruct (send_queue s) as [|c rest] eqn:Eq; try (injection E as <- <-; by cbn).
  - assert (Hc : chunk_ok c) by (destruct Hs as [Hc _ _ _]; rewrite Eq in Hc; by inv Hc).
    unfold queued in Hl. rewrite Eq in Hl. cbn [map concat] in Hl. rewrite blen_app, blen_chunk_rest in Hl by done.
    pose proof (blen_nonneg (concat (map chunk_rest rest))). destruct Hc. cbn in Hl. lia.
  - inv Ha. destruct H1 as (k & -> & Hk).
    assert (Hc : chunk_ok c) by (destruct Hs as [Hc _ _ _]; rewrite Eq in Hc; by inv Hc).
    set (n := Z.min k (blen (sc_data c) - sc_off c)) in *.
    assert (Hn : 0 < n <= blen (sc_data c) - sc_off c) by (destruct Hc; lia).
    destruct (Z.ltb_spec 0 n); [|lia].
    apply (IH (took s c rest n now) now ok s'); try done; [by apply took_ok|].
    pose proof (f_equal blen (took_stream s c rest n now Eq Hc Hn)) as L. rewrite !blen_app in L.
    assert (blen (sock_wire (took s c rest n now)) = blen (sock_wire s) + n).
    { cbn. rewrite blen_app, blen_slice; destruct Hc; lia. }
    cbn [length] in Hl. lia.
Qed.

Lemma enqueue_inv s data now :
  send_ok s -> 0 < blen data -> blen (queued s) + blen data <= BM_SEND_QUEUE_HARD_LIMIT_BYTES ->
  send_ok (enqueue s data now) /\ queued (enqueue s data now) = queued s ++ data
  /\ sock_wire (enqueue s data now) = sock_wire s /\ ctl_answers (enqueue s data now) = ctl_answers s.
Proof.
  intros [Hc Hq Hl Hs] Hd Hlim.
  assert (E : queued (enqueue s data now) = queued s ++ data).
  { unfold queued, enqueue. cbn [update_field send_queue]. rewrite map_app, concat_app. cbn. by rewrite app_nil_r. }
  pose proof (blen_nonneg (queued s)).
  split_and!; [|done|done|done]. split.
  - unfold enqueue. cbn [update_field send_queue]. apply Forall_app. split; [done|]. constructor; [|done].
    split; cbn; lia.
  - rewrite E, blen_app. unfold enqueue. cbn [update_field send_queued_bytes]. rewrite Hq.
    unfold u64, BM_SEND_QUEUE_HARD_LIMIT_BYTES in *. apply Z.mod_small. lia.
  - rewrite E, blen_app. lia.
  - done.
Qed.

(** Calls on one connection, from any thread: [send_lock] makes them a sequence. *)
Inductive send_op := OpSend (data : list Z) (now : Z) | OpFlush (now : Z) | OpRegister.

Definition send_apply (conn : bm_fd_data) (op : send_op) : bool * bm_fd_data :=
  match op with
  | OpSend data now => bm_network_send conn data now
  | OpFlush now => bm_network_flush conn now
  | OpRegister => bm_network_epoll_register conn
  end.

(** Whether all of them succeeded. *)
Fixpoint send_run (conn : bm_fd_data) (ops : list send_op) : bool * bm_fd_data :=
  match ops with
  | [] => (true, conn)
  | op :: ops =>
      let '(ok, conn) := send_apply conn op in
      let '(oks, conn) := send_run conn ops in (ok && oks, conn)
  end.

(** The stream the queue stands for: the messages, whole and in order, except those refused
    because they would take the queue over its limit. *)
Definition refused (conn : bm_fd_data) (data : list Z) : bool :=
  send_queued_bytes (c_send conn) + blen data >? BM_SEND_QUEUE_HARD_LIMIT_BYTES.

Fixpoint accepted (conn : bm_fd_data) (ops : list send_op) : list (list Z) :=
  match ops with
  | [] => []
  | op :: ops =>
      let rest := accepted (send_apply conn op).2 ops in
      match op with
      | OpSend data _ => if refused conn data then rest else data :: rest
      | _ => rest
      end
  end.

Definition op_ok (op : send_op) : Prop :=
  match op with OpSend data _ => blen data < 2 ^ 63 | _ => True end.

Lemma send_apply_inv conn op ok conn' :
  send_ok (c_send conn) -> op_ok op -> send_apply conn op = (ok, conn') ->
  let s := c_send conn in let s' := c_send conn' in
  send_ok s'
  /\ sock_wire s' ++ queued s' = sock_wire s ++ queued s
       ++ match op with OpSend data _ => if refused conn data then [] else data | _ => [] end
  /\ (armed_ok s -> ok = true -> armed_ok s')
  /\ exists more, sock_wire s' = sock_wire s ++ more.
Proof.
  intros Hs Hop E s s'. assert (same : exists more, sock_wire s = sock_wire s ++ more)
    by (exists []; by rewrite app_nil_r).
  pose proof Hs as [Hc Hq Hl Hb]. pose proof (blen_nonneg (queued s)) as Hq0. fold s in Hq, Hl.
  destruct op as [data now|now|]; cbn [send_apply] in E.
  - unfold bm_network_send, refused in *. fold s in E |- *. pose proof (blen_nonneg data).
    destruct (Z.eqb_spec (blen data) 0) as [Hz|Hz].
    { injection E as <- <-. assert (data = []) as -> by (apply nil_length_inv; unfold blen in Hz; lia).
      assert (E0 : forall b : bool, (if b then [] else []) = ([] : list Z)) by (by intros []).
      rewrite E0, app_nil_r. by split_and!. }
    unfold op_ok in Hop. unfold u64 in E. unfold BM_SEND_QUEUE_HARD_LIMIT_BYTES in Hl.
    rewrite Z.mod_small in E by lia.
    destruct (Z.gtb_spec (send_queued_bytes s + blen data) BM_SEND_QUEUE_HARD_LIMIT_BYTES).
    { injection E as <- <-. rewrite app_nil_r. by split_and!. }
    destruct (enqueue_inv s data now Hs) as (H1 & H2 & H3 & H4); [lia|lia|].
    destruct (flush_locked (enqueue s data now) now) as [ok1 s1] eqn:Ef.
    destruct (flush_locked_inv _ _ _ _ H1 Ef) as (H5 & H6 & H7 & H8). rewrite H2, H3, H4 in *.
    assert (Es : s' = s1) by (unfold s'; destruct ok1; by injection E as <- <-). rewrite Es.
    split_and!; try done. intros [Ha _] ->. apply H7; [done|]. by destruct ok1.
  - unfold bm_network_flush in E. fold s in E. destruct (flush_locked s now) as [ok1 s1] eqn:Ef.
    injection E as <- <-. destruct (flush_locked_inv _ _ _ _ Hs Ef) as (H5 & H6 & H7 & H8).
    rewrite app_nil_r. split_and!; try done. intros [Ha _] ->. by apply H7.
  - unfold bm_network_epoll_register, epoll_ctl in E. fold s in E. rewrite app_nil_r.
    unfold s'. clear s'.
    destruct (ctl_answers s) as [|[] ctl] eqn:Ec; injection E as <- <-;
      (split_and!; [by split|done| |done]); intros [Ha _] ?; try congruence; done.
Qed.

Lemma send_run_inv ops : forall conn ok conn',
  send_ok (c_send conn) -> Forall op_ok ops -> send_run conn ops = (ok, conn') ->
  let s := c_send conn in let s' := c_send conn' in
  send_ok s'
  /\ sock_wire s' ++ queued s' = sock_wire s ++ queued s ++ concat (accepted conn ops)
  /\ (armed_ok s -> ok = true -> armed_ok s')
  /\ exists more, sock_wire s' = sock_wire s ++ more.
Proof.
  induction ops as [|op ops IH]; intros conn ok conn' Hs Hops E s s'.
  { injection E as <- <-. cbn. rewrite app_nil_r. split_and!; try done. exists []. by rewrite app_nil_r. }
  inv Hops. cbn [send_run] in E. destruct (send_apply conn op) as [ok1 conn1] eqn:E1.
  destruct (send_run conn1 ops) as [ok2 conn2] eqn:E2. injection E as <- <-.
  destruct (send_apply_inv _ _ _ _ Hs H1 E1) as (S1 & W1 & A1 & m1 & M1).
  destruct (IH _ _ _ S1 H2 E2) as (S2 & W2 & A2 & m2 & M2).
  split_and!; [done| | |].
  - fold s'. unfold s' in *. rewrite W2, app_assoc, W1. cbn [accepted]. rewrite E1. cbn [snd].
    rewrite <- !app_assoc. do 2 f_equal. destruct op; [|done..]. by case_match.
  - intros Ha [-> ->]%andb_true_iff. auto.
  - exists (m1 ++ m2). unfold s'. by rewrite M2, M1, app_assoc.
Qed.

Lemma fresh_send_ok a ctl : send_ok (fresh_send a ctl).
Proof. split; cbn; try done. Qed.

(** ** Properties of sending *)

(** C5: the send queue implements a byte stream.  Whatever threads send, whenever the epoll
    thread flushes and however the kernel answers (partial writes, EINTR, EAGAIN, errors), a
    new connection has put on the wire a prefix of the accepted messages, whole and in order,
    the queue holds exactly the rest, at most 16 MiB, and both byte counters are right; and
    as long as nothing failed, a registered connection waits for EPOLLOUT exactly when
    something is queued, so that no wake-up is lost. *)
Theorem send_queue_refines_stream type fd now local peer answers conn ops ok conn' :
  bm_fd_data_new type fd now local peer answers [] = Ok conn ->
  Forall (fun op => match op with OpSend data _ => blen data < 2 ^ 63 | _ => True end) ops ->
  send_run conn ops = (ok, conn') ->
  let s := c_send conn' in
  sock_wire s ++ queued s = concat (accepted conn ops)
  /\ bm_network_queued_bytes conn' = blen (queued s)
  /\ blen (queued s) <= BM_SEND_QUEUE_HARD_LIMIT_BYTES
  /\ bytes_sent s = u64 (blen (sock_wire s))
  /\ (ok = true -> epoll_registered s = true -> send_out_armed s = has_queue s).
Proof.
  intros Hn Hops E s. assert (Hf : c_send conn = fresh_send answers []).
  { unfold bm_fd_data_new in Hn. repeat case_match; by simplify_eq. }
  destruct (send_run_inv ops conn ok conn') as (S & Wr & A & _); [|done|done|].
  { rewrite Hf. apply fresh_send_ok. }
  rewrite Hf in Wr, A. destruct S as [_ ? ? ?]. split_and!; try done.
  intros Hok. by destruct A as [_ ?].
Qed.

(** A peer that keeps reading gets everything: when the kernel takes at least one byte
    per call, one flush (the answer to one EPOLLOUT) of a reachable connection empties the
    queue, and the wire then carries every accepted message. *)
Theorem bm_network_flush_drains type fd now local peer answers conn ops ok conn' now' :
  bm_fd_data_new type fd now local peer answers [] = Ok conn -> Forall op_ok ops ->
  send_run conn ops = (ok, conn') ->
  Forall (fun a => exists k, a = SENT k /\ 0 < k) (sock_answers (c_send conn')) ->
  bm_network_queued_bytes conn' <= Z.of_nat (length (sock_answers (c_send conn'))) ->
  exists conn'', bm_network_flush conn' now' = (true, conn'')
    /\ bm_network_queued_bytes conn'' = 0
    /\ sock_wire (c_send conn'') = concat (accepted conn ops).
Proof.
  intros Hn Hops E Ha Hl. assert (Hf : c_send conn = fresh_send answers []).
  { unfold bm_fd_data_new in Hn. repeat case_match; by simplify_eq. }
  destruct (send_run_inv ops conn ok conn') as (S & Wr & _ & _); [|done|done|].
  { rewrite Hf. apply fresh_send_ok. }
  rewrite Hf in Wr. unfold bm_network_flush.
  destruct (flush_locked (c_send conn') now') as [ok1 s1] eqn:E1.
  destruct (flush_locked_inv _ _ _ _ S E1) as (S1 & W1 & _).
  unfold flush_locked in E1. destruct (flush_loop _ _ now') as [ok2 s2] eqn:E2.
  assert (Hl' : blen (queued (c_send conn')) <= Z.of_nat (length (sock_answers (c_send conn')))).
  { destruct S as [_ Hq _ _]. unfold bm_network_queued_bytes in Hl. lia. }
  destruct (flush_loop_drains _ _ _ _ _ S Ha Hl' E2) as [-> Hq].
  injection E1 as <- <-. set (s3 := update_out_interest_locked s2) in *.
  assert (Eq : queued s3 = []).
  { assert (Eq2 : queued s2 = []) by (unfold queued; by rewrite Hq).
    destruct (flush_loop_inv _ _ _ _ _ S E2) as (S2 & _).
    destruct (out_interest_inv s2 S2) as (_ & _ & Hq2 & _). unfold s3. congruence. }
  eexists. split; [reflexivity|]. destruct S1 as [_ Hqb _ _]. split.
  - unfold bm_network_queued_bytes. cbn [update_field c_send]. by rewrite Hqb, Eq.
  - cbn [update_field c_send]. rewrite Eq, app_nil_r in W1. by rewrite W1, Wr.
Qed.

(** ** Receiving: the stream alone decides *)

(** The read side of a connection, and the rest of it, which handlers use. *)
Definition core (conn : bm_fd_data) : bm_fd_data :=
  conn <| c_recv := [] |> <| c_size := 0 |> <| c_last_activity := 0 |> <| c_bytes_received := 0 |>.
Definition put_core (conn c : bm_fd_data) : bm_fd_data :=
  c <| c_recv := c_recv conn |> <| c_size := c_size conn |>
    <| c_last_activity := c_last_activity conn |> <| c_bytes_received := c_bytes_received conn |>.

Section Frames.
Context `{OSL : OpenSSLLaws} {W : Type} (enabled : bool).
Context (h : bm_fd_data -> bm_message -> W -> cres (bm_fd_data * W)).
Let g := bm_protocol_set_testnet enabled.

(** The handler that runs [h] on the rest of the connection. *)
Definition lift_handler (conn : bm_fd_data) (msg : bm_message) (w : W) : cres (bm_fd_data * W) :=
  '(c, w) ← h (core conn) msg w; Ok (put_core conn c, w).

(** Reference: a byte stream is cut into frames; a bad checksum drops a frame, a wrong
    magic one byte, an oversized frame or a handler that asks for it ends the connection. *)
Fixpoint frames_run (fuel : nat) (buf : list Z) (c : bm_fd_data) (w : W)
  : cres (read_status * list Z * bm_fd_data * W) :=
  match fuel with
  | O => Ub
  | S fuel =>
      result ← bm_parse_message g buf;
      match result with
      | BM_PARSE_INCOMPLETE => Ok (READ_OK, buf, c, w)
      | BM_PARSE_BAD_CHECKSUM n | BM_PARSE_BAD_MAGIC n => frames_run fuel (drop (Z.to_nat n) buf) c w
      | BM_PARSE_MESSAGE_TOO_LARGE => Ok (READ_FAILED, buf, c, w)
      | BM_PARSE_OK msg n =>
          '(c, w) ← h c msg w;
          let buf := drop (Z.to_nat n) buf in
          if c_should_disconnect c then Ok (READ_FAILED, buf, core c, w)
          else frames_run fuel buf (core c) w
      end
  end.

Definition frames (buf : list Z) (c : bm_fd_data) (w : W) := frames_run (S (length buf)) buf c w.

(** How many bytes a verdict takes from the buffer. *)
Definition verdict_takes (r : bm_parse_result) : option Z :=
  match r with
  | BM_PARSE_OK _ n | BM_PARSE_BAD_CHECKSUM n | BM_PARSE_BAD_MAGIC n => Some n
  | _ => None
  end.

Lemma parse_takes buf r n :
  bytes_ok buf -> bm_parse_message g buf = Ok r -> verdict_takes r = Some n -> 0 < n <= blen buf.
Proof.
  intros Hb E Hn. destruct (parse_message_verdict g (set_testnet_magic enabled) buf Hb) as (r' & E' & V).
  rewrite E in E'. injection E' as <-. destruct r; try done; injection Hn as ->; cbn in V; try lia.
  destruct V as (_ & _ & _ & -> & Hle & _). pose proof (blen_nonneg (default [] (msg_payload msg))). lia.
Qed.

(** A verdict other than "incomplete" stands when more bytes arrive. *)
Lemma rdn_app_more a b off n x : rdn a off n = Ok x -> rdn (a ++ b) off n = Ok x.
Proof.
  intros (-> & H0 & H1 & H2)%rdn_ok_inv. pose proof (blen_nonneg b).
  rewrite rdn_ok by (rewrite ?blen_app; lia). f_equal. unfold slice.
  rewrite drop_app_le by (unfold blen in *; lia).
  rewrite take_app_le; [done|]. rewrite length_drop. unfold blen in *. lia.
Qed.

Lemma parse_message_more a b r :
  bm_parse_message g a = Ok r -> r <> BM_PARSE_INCOMPLETE -> bm_parse_message g (a ++ b) = Ok r.
Proof.
  intros E Hr. unfold bm_parse_message in E. cbv zeta in E. pose proof (blen_nonneg b).
  destruct (Z.ltb_spec (blen a) BM_MESSAGE_HEADER_SIZE); [by injection E as <-|].
  apply bind_ok_inv in E as (magic & E1 & E).
  unfold bm_parse_message. cbv zeta. rewrite blen_app.
  destruct (Z.ltb_spec (blen a + blen b) BM_MESSAGE_HEADER_SIZE); [lia|].
  rewrite (rdn_app_more _ b _ _ _ E1). cbn_bind.
  destruct (negb (list_eqb magic (bm_magicbytes g))); [done|].
  unfold read_be32 in *. apply bind_ok_inv in E as (len & E2 & E).
  apply bind_ok_inv in E2 as (lb & E2 & E2'). rewrite (rdn_app_more _ b _ _ _ E2). cbn_bind.
  injection E2' as <-. destruct (be_combine lb >? BM_MAX_MESSAGE_LENGTH); [done|].
  destruct (Z.ltb_spec (blen a) (BM_MESSAGE_HEADER_SIZE + be_combine lb)); [by injection E as <-|].
  destruct (Z.ltb_spec (blen a + blen b) (BM_MESSAGE_HEADER_SIZE + be_combine lb)); [lia|].
  apply bind_ok_inv in E as (body & E3 & E). rewrite (rdn_app_more _ b _ _ _ E3). cbn_bind.
  apply bind_ok_inv in E as (sum & E4 & E). rewrite (rdn_app_more _ b _ _ _ E4). cbn_bind.
  destruct (negb (list_eqb (take 4 (bm_sha512 body)) sum)); [done|].
  apply bind_ok_inv in E as (cmd & E5 & E). rewrite (rdn_app_more _ b _ _ _ E5). cbn_bind. rewrite E4 in E. exact E.
Qed.

(** More fuel than bytes changes nothing. *)
Lemma frames_run_fuel f1 : forall f2 buf c w,
  bytes_ok buf -> (length buf < f1)%nat -> (length buf < f2)%nat ->
  frames_run f1 buf c w = frames_run f2 buf c w.
Proof.
  induction f1 as [|f1 IH]; intros f2 buf c w Hb H1 H2; [lia|]. destruct f2 as [|f2]; [lia|].
  cbn [frames_run]. destruct (bm_parse_message g buf) as [r| |] eqn:E; [|done|done]. cbn_bind.
  assert (step : forall n, verdict_takes r = Some n -> forall c w,
    frames_run f1 (drop (Z.to_nat n) buf) c w = frames_run f2 (drop (Z.to_nat n) buf) c w).
  { intros n Hn c' w'. apply (parse_takes _ _ _ Hb E) in Hn. unfold blen in Hn.
    apply IH; [by apply bytes_ok_drop|rewrite length_drop; lia..]. }
  destruct r; [|done|by apply step..|done].
  destruct (h c msg w) as [[c' w']| |]; [|done|done]. cbn_bind. destruct (c_should_disconnect c'); [done|].
  by apply step.
Qed.

(** Frames of a stream that arrives in two parts. *)
Lemma frames_app n : forall a b c w,
  length a = n -> bytes_ok a -> bytes_ok b ->
  frames (a ++ b) c w =
    '(st, rest, c, w) ← frames a c w;
    match st with READ_OK => frames (rest ++ b) c w | _ => Ok (st, rest ++ b, c, w) end.
Proof.
  induction n as [n IH] using lt_wf_ind. intros a b c w Ln Ha Hb.
  change (frames a c w) with (frames_run (S (length a)) a c w). cbn [frames_run].
  destruct (bm_parse_message g a) as [r| |] eqn:E.
  2,3: destruct (parse_message_verdict g (set_testnet_magic enabled) a Ha) as (r' & E' & _); congruence.
  cbn_bind. assert (r = BM_PARSE_INCOMPLETE \/ r <> BM_PARSE_INCOMPLETE) as [->|Hr]
    by (destruct r; [right; discriminate|left; reflexivity|right; discriminate..]); [done|].
  pose proof (parse_message_more a b r E Hr) as E'.
  change (frames (a ++ b) c w) with (frames_run (S (length (a ++ b))) (a ++ b) c w).
  cbn [frames_run]. rewrite E'. cbn_bind.
  assert (step : forall m, verdict_takes r = Some m -> forall c w,
    frames_run (length (a ++ b)) (drop (Z.to_nat m) (a ++ b)) c w =
    '(st, rest, c, w) ← frames_run (length a) (drop (Z.to_nat m) a) c w;
    match st with READ_OK => frames (rest ++ b) c w | _ => Ok (st, rest ++ b, c, w) end).
  { intros m Hm c' w'. apply (parse_takes _ _ _ Ha E) in Hm. unfold blen in Hm.
    assert (Ld : (length (drop (Z.to_nat m) a) < length a)%nat) by (rewrite length_drop; lia).
    assert (Hd : bytes_ok (drop (Z.to_nat m) a)) by (by apply bytes_ok_drop).
    rewrite drop_app_le by lia.
    rewrite (frames_run_fuel _ (S (length (drop (Z.to_nat m) a ++ b))));
      [|apply bytes_ok_app; done|rewrite !length_app; lia|lia].
    rewrite (frames_run_fuel (length a) (S (length (drop (Z.to_nat m) a)))) by (done || lia).
    eapply IH; [|reflexivity|done|done]. lia. }
  destruct r; [|done|by apply step..|done].
  destruct (h c msg w) as [[c' w']| |]; [|done|done]. cbn_bind.
  assert (Ht : 0 < consumed <= blen a) by (by apply (parse_takes a _ _ Ha E)). unfold blen in Ht.
  destruct (c_should_disconnect c'); [cbn_bind; by rewrite drop_app_le by lia|].
  by apply step.
Qed.
(** The parse loop on the connection is the reference on its buffer. *)
Lemma parse_loop_frames fuel : forall conn w,
  bytes_ok (c_recv conn) -> (length (c_recv conn) < fuel)%nat ->
  parse_loop g lift_handler fuel conn w =
    '(st, rest, c, w) ← frames (c_recv conn) (core conn) w;
    Ok (st, put_core (conn <| c_recv := rest |>) c, w).
Proof.
  induction fuel as [|fuel IH]; intros conn w Hb Hl; [lia|].
  unfold frames. cbn [parse_loop frames_run].
  destruct (bm_parse_message g (c_recv conn)) as [r| |] eqn:E; [|done|done]. cbn_bind.
  assert (step : forall n, verdict_takes r = Some n ->
    consume conn n = Ok (conn <| c_recv := drop (Z.to_nat n) (c_recv conn) |>)
    /\ bytes_ok (drop (Z.to_nat n) (c_recv conn))
    /\ (length (drop (Z.to_nat n) (c_recv conn)) < length (c_recv conn))%nat).
  { intros n Hn. apply (parse_takes _ _ _ Hb E) in Hn. unfold consume. rewrite rdn_ok by lia. cbn_bind.
    unfold blen in Hn. split_and!; [|by apply bytes_ok_drop|rewrite length_drop; lia].
    do 2 f_equal. unfold slice. rewrite take_ge; [done|]. rewrite length_drop. unfold blen. lia. }
  assert (go : forall n conn' w', verdict_takes r = Some n ->
    c_recv conn' = drop (Z.to_nat n) (c_recv conn) ->
    parse_loop g lift_handler fuel conn' w' =
    '(st, rest, c, w) ← frames_run (length (c_recv conn)) (drop (Z.to_nat n) (c_recv conn)) (core conn') w';
    Ok (st, put_core (conn' <| c_recv := rest |>) c, w)).
  { intros n conn' w' Hn Hc. destruct (step n Hn) as (_ & Hd & Ld).
    rewrite IH by (rewrite Hc; done || lia). rewrite Hc. unfold frames.
    by rewrite (frames_run_fuel _ (length (c_recv conn))) by (done || lia). }
  destruct r; [|by destruct conn| | |by destruct conn].
  - destruct (step consumed eq_refl) as (-> & _). cbn_bind. unfold lift_handler.
    change (core (conn <| c_recv := drop (Z.to_nat consumed) (c_recv conn) |>)) with (core conn).
    destruct (h (core conn) msg w) as [[c' w']| |]; [|done|done]. cbn_bind.
    change (c_should_disconnect (put_core _ c')) with (c_should_disconnect c').
    destruct (c_should_disconnect c'); [done|]. by rewrite (go consumed).
  - destruct (step consumed eq_refl) as (-> & _). cbn_bind. by rewrite (go consumed).
  - destruct (step consumed eq_refl) as (-> & _). cbn_bind. by rewrite (go consumed).
Qed.
End Frames.

(** *** The receive buffer *)

(** Its size is the initial one doubled at most six times: 8 MiB fit under the limit and
    16 MiB do not. *)
Definition RECV_CAPACITY : Z := 2 ^ 23.
Definition recv_ok (conn : bm_fd_data) : Prop :=
  (exists k, 0 <= k <= 6 /\ c_size conn = 2 ^ (17 + k)) /\ blen (c_recv conn) <= c_size conn.

Lemma recv_grow_spec fuel : forall k need,
  0 <= k <= 7 -> need <= 2 ^ 24 -> 7 - k <= Z.of_nat fuel ->
  exists k', k <= k' <= 7 /\ grow fuel (2 ^ (17 + k)) need = Ok (2 ^ (17 + k'))
    /\ need <= 2 ^ (17 + k') /\ (k < k' -> 2 ^ (17 + k' - 1) < need).
Proof.
  induction fuel as [|fuel IH]; intros k need Hk Hn Hf; cbn [grow];
    destruct (Z.gtb_spec need (2 ^ (17 + k))) as [Hg|Hg].
  - replace k with 7 in Hg by lia. lia.
  - exists k. split_and!; [lia..|done|lia|lia].
  - assert (k <> 7) by (intros ->; lia).
    assert (E : u64 (2 ^ (17 + k) * 2) = 2 ^ (17 + (k + 1))).
    { replace (17 + (k + 1)) with (Z.succ (17 + k)) by lia. rewrite Z.pow_succ_r by lia.
      unfold u64. rewrite Z.mod_small; [lia|]. split; [lia|].
      apply Z.le_lt_trans with (2 ^ 23 * 2); [|lia]. apply Z.mul_le_mono_nonneg_r; [lia|].
      apply Z.pow_le_mono_r; lia. }
    rewrite E. destruct (IH (k + 1) need) as (k' & ? & -> & ? & Hlt); [lia..|].
    exists k'. split_and!; [lia..|done|done|]. intros _. destruct (Z.eq_dec k' (k + 1)) as [->|].
    + by replace (17 + (k + 1) - 1) with (17 + k) by lia.
    + apply Hlt. lia.
  - exists k. split_and!; [lia..|done|lia|lia].
Qed.

Lemma pow_capacity k : 0 <= k <= 6 -> 2 ^ (17 + k) <= RECV_CAPACITY.
Proof. intros. unfold RECV_CAPACITY. apply Z.pow_le_mono_r; lia. Qed.

Lemma recv_data_spec conn bytes now :
  recv_ok conn -> blen bytes <= INIT_RECV_BUFFER_SIZE ->
  exists st conn', recv_data conn bytes now = Ok (st, conn')
    /\ core conn' = core conn /\ recv_ok conn'
    /\ (blen (c_recv conn) + blen bytes <= RECV_CAPACITY ->
          st = READ_OK /\ c_recv conn' = c_recv conn ++ bytes)
    /\ (RECV_CAPACITY < blen (c_recv conn) + blen bytes ->
          st = READ_FAILED /\ c_recv conn' = c_recv conn).
Proof.
  intros [(k & Hk & Hs) Hl] Hb. pose proof (pow_capacity k Hk) as Hc. unfold RECV_CAPACITY in *.
  unfold INIT_RECV_BUFFER_SIZE in Hb. pose proof (blen_nonneg bytes).
  unfold recv_data. cbn [update_field c_recv c_size]. rewrite Hs in *.
  destruct (Z.gtb_spec (blen (c_recv conn) + blen bytes) (2 ^ (17 + k))) as [Hg|Hg].
  - destruct (recv_grow_spec 64 k (blen (c_recv conn) + blen bytes)) as (k' & Hk' & -> & Hn & Hm); [lia..|].
    cbn_bind. assert (k < k') by (destruct (Z.eq_dec k k') as [<-|]; lia).
    unfold MAX_RECV_BUFFER_SIZE, BM_MESSAGE_HEADER_SIZE, BM_MAX_MESSAGE_LENGTH.
    destruct (Z.eq_dec k' 7) as [->|].
    + assert (2 ^ 23 < blen (c_recv conn) + blen bytes) by (by apply Hm).
      destruct (Z.gtb_spec (2 ^ (17 + 7)) (2 * (24 + 4 * 1024 * 1024))); [|lia].
      eexists _, _. split; [reflexivity|]. split; [done|].
      split; [split; [exists k; split; [done|exact Hs]|cbn [update_field c_recv c_size]; lia]|].
      split; [lia|done].
    + pose proof (pow_capacity k' ltac:(lia)) as Hc'. unfold RECV_CAPACITY in Hc'.
      destruct (Z.gtb_spec (2 ^ (17 + k')) (2 * (24 + 4 * 1024 * 1024))); [lia|].
      eexists _, _. split; [reflexivity|]. split; [done|].
      split; [split; [exists k'; split; [lia|reflexivity]|cbn [update_field c_recv c_size]; rewrite blen_app; lia]|].
      split; [done|lia].
  - eexists _, _. split; [reflexivity|]. split; [done|].
    split; [split; [exists k; split; [done|exact Hs]|cbn [update_field c_recv c_size]; rewrite blen_app, Hs; lia]|]. split; [done|lia].
Qed.

(** What one wake-up reads: blocks of at most [sizeof(buf)] bytes until EAGAIN. *)
Definition block_ok (b : list Z) : Prop := 0 < blen b <= INIT_RECV_BUFFER_SIZE.
Definition arrivals (blocks : list (list Z)) : list read_answer := map RDATA blocks ++ [RAGAIN].

Lemma recv_loop_spec blocks : forall conn now,
  recv_ok conn -> Forall block_ok blocks ->
  exists st conn', recv_loop (arrivals blocks) conn now = Ok (st, conn')
    /\ core conn' = core conn /\ recv_ok conn'
    /\ (blen (c_recv conn) + blen (concat blocks) <= RECV_CAPACITY ->
          st = READ_OK /\ c_recv conn' = c_recv conn ++ concat blocks)
    /\ (RECV_CAPACITY < blen (c_recv conn) + blen (concat blocks) -> st = READ_FAILED).
Proof.
  induction blocks as [|b blocks IH]; intros conn now Hr Hb; unfold arrivals; cbn [map app recv_loop concat].
  { exists READ_OK, conn. rewrite app_nil_r. split_and!; try done. intros Hc.
    destruct Hr as [(k & Hk & Hs) Hl]. pose proof (pow_capacity k Hk).
    change (blen []) with 0 in Hc. lia. }
  inv Hb. destruct H1 as [Hb0 Hb1]. rewrite take_ge by (unfold blen in *; lia).
  destruct (Z.eqb_spec (blen b) 0); [lia|]. rewrite blen_app.
  destruct (recv_data_spec conn b now Hr Hb1) as (st & conn1 & -> & Hc & Hr1 & Hok & Hfail). cbn_bind.
  pose proof (blen_nonneg (concat blocks)).
  destruct (Z.le_gt_cases (blen (c_recv conn) + blen b) RECV_CAPACITY) as [Hle|Hgt].
  - destruct (Hok Hle) as [-> Hrecv].
    destruct (IH conn1 now Hr1 H2) as (st & conn2 & E & Hc2 & Hr2 & Hok2 & Hfail2).
    unfold arrivals in E. rewrite E.
    rewrite Hrecv, blen_app in Hok2, Hfail2. exists st, conn2.
    split_and!; [done|congruence|done| |].
    + intros. destruct Hok2 as [-> ->]; [lia|]. by rewrite <- app_assoc.
    + intros. apply Hfail2. lia.
  - destruct (Hfail Hgt) as [-> _]. exists READ_FAILED, conn1. split_and!; [done|done|done|lia|done].
Qed.

Section Wakeups.
Context `{OSL : OpenSSLLaws} {W : Type} (enabled : bool).
Context (h : bm_fd_data -> bm_message -> W -> cres (bm_fd_data * W)).
Abbreviation g := (bm_protocol_set_testnet enabled).

(** Successive wake-ups of a connection: the blocks each finds, and the time. *)
Fixpoint wakeups (ws : list (list (list Z) * Z)) (conn : bm_fd_data) (w : W)
  : cres (read_status * bm_fd_data * W) :=
  match ws with
  | [] => Ok (READ_OK, conn, w)
  | (blocks, now) :: ws =>
      '(st, conn, w) ← bm_network_handle_readable g (lift_handler h) (arrivals blocks) conn now w;
      match st with READ_OK => wakeups ws conn w | _ => Ok (st, conn, w) end
  end.

(** Where the parser stands: nothing in the buffer can be decided yet. *)
Definition settled (buf : list Z) : Prop := bytes_ok buf /\ bm_parse_message g buf = Ok BM_PARSE_INCOMPLETE.

Lemma settled_short buf : settled buf -> blen buf < 24 + BM_MAX_MESSAGE_LENGTH.
Proof.
  intros [Hb E]. destruct (parse_message_verdict g (set_testnet_magic enabled) buf Hb) as (r & E' & V).
  rewrite E in E'. injection E' as <-.
  destruct V as [?|(len & _ & _ & ? & ?)]; unfold BM_MAX_MESSAGE_LENGTH in *; lia.
Qed.

Lemma frames_run_ends fuel : forall buf c w st rest c' w',
  bytes_ok buf -> core c = c -> frames_run enabled h fuel buf c w = Ok (st, rest, c', w') ->
  core c' = c' /\ blen rest <= blen buf /\ (st = READ_OK -> settled rest).
Proof.
  induction fuel as [|fuel IH]; intros buf c w st rest c' w' Hb Hc E; [done|]. cbn [frames_run] in E.
  apply bind_ok_inv in E as (r & Er & E).
  assert (step : forall n c1 w1, core c1 = c1 ->
    frames_run enabled h fuel (drop n buf) c1 w1 = Ok (st, rest, c', w') ->
    core c' = c' /\ blen rest <= blen buf /\ (st = READ_OK -> settled rest)).
  { intros n c1 w1 Hc1 E1. destruct (IH _ _ _ _ _ _ _ (bytes_ok_drop n _ Hb) Hc1 E1) as (? & Hl & ?).
    split_and!; [done| |done]. unfold blen in *. rewrite length_drop in Hl. lia. }
  destruct r; [|injection E as <- <- <- <-; by split_and!|eapply step; [exact Hc|exact E]..
    |injection E as <- <- <- <-; by split_and!].
  apply bind_ok_inv in E as ([c1 w1] & _ & E). cbv zeta beta iota in E.
  destruct (c_should_disconnect c1); [|eapply step; [|exact E]; done].
  injection E as <- <- <- <-. split_and!; [done| |done]. unfold blen. rewrite length_drop. lia.
Qed.

Lemma frames_run_ends' fuel : forall buf c w st rest c' w',
  bytes_ok buf -> frames_run enabled h fuel buf c w = Ok (st, rest, c', w') ->
  bytes_ok rest /\ blen rest <= blen buf.
Proof.
  induction fuel as [|fuel IH]; intros buf c w st rest c' w' Hb E; [done|]. cbn [frames_run] in E.
  apply bind_ok_inv in E as (r & Er & E).
  assert (Ld : forall n, blen (drop n buf) <= blen buf)
    by (intros n; unfold blen; rewrite length_drop; lia).
  assert (step : forall n c1 w1, frames_run enabled h fuel (drop n buf) c1 w1 = Ok (st, rest, c', w') ->
    bytes_ok rest /\ blen rest <= blen buf).
  { intros n c1 w1 E1. destruct (IH _ _ _ _ _ _ _ (bytes_ok_drop n _ Hb) E1) as [? Hl].
    split; [done|]. specialize (Ld n). lia. }
  destruct r; [|by injection E as <- <- <- <-|by eapply step..|by injection E as <- <- <- <-].
  apply bind_ok_inv in E as ([c1 w1] & _ & E). cbv zeta beta iota in E.
  destruct (c_should_disconnect c1); [|by eapply step].
  injection E as <- <- <- <-. split; [by apply bytes_ok_drop|apply Ld].
Qed.

Lemma wakeups_frames ws : forall conn w,
  recv_ok conn -> settled (c_recv conn) ->
  Forall (fun wu => Forall block_ok wu.1 /\ bytes_ok (concat wu.1)
    /\ blen (concat wu.1) <= BM_MAX_MESSAGE_LENGTH - 24) ws ->
  ('(st, conn, w) ← wakeups ws conn w; Ok (st, core conn, w))
  = ('(st, _, c, w) ← frames enabled h (c_recv conn ++ concat (map (fun wu => concat wu.1) ws)) (core conn) w;
     Ok (st, c, w)).
Proof.
  induction ws as [|[blocks now] ws IH]; intros conn w Hr Hs Hws; cbn [wakeups map concat].
  { cbn_bind. rewrite app_nil_r. unfold frames. cbn [frames_run]. by rewrite (proj2 Hs). }
  apply Forall_cons_1 in Hws as [(Hb & Hby & Hl) Hws]. cbn [fst] in *.
  assert (Hrest : bytes_ok (concat (map (fun wu => concat wu.1) ws))).
  { clear -Hws. induction Hws as [|x l (_ & Hx & _) _ IHl]; cbn [map concat]; [constructor|].
    apply bytes_ok_app. by split. }
  pose proof (settled_short _ Hs) as Hshort. unfold BM_MAX_MESSAGE_LENGTH in *.
  destruct (recv_loop_spec blocks conn now Hr Hb) as (st & conn1 & E1 & Hc1 & Hr1 & Hok & _).
  destruct Hok as [-> Hrecv]; [unfold RECV_CAPACITY; lia|].
  unfold bm_network_handle_readable. rewrite E1. cbn_bind.
  assert (Hb1 : bytes_ok (c_recv conn1)) by (rewrite Hrecv; apply bytes_ok_app; split; [apply Hs|done]).
  rewrite parse_loop_frames by (done || lia). cbn [fst]. rewrite app_assoc, <- Hrecv, Hc1.
  rewrite (frames_app enabled h _ (c_recv conn1) _ (core conn) w eq_refl) by done.
  destruct (frames enabled h (c_recv conn1) (core conn) w) as [[[[st rest] c'] w']| |] eqn:Ef; [|done|done].
  cbn_bind. destruct (frames_run_ends _ _ _ _ _ _ _ _ Hb1 eq_refl Ef) as (Hc' & Hle & Hset).
  destruct st; [|by cbn_bind; rewrite <- Hc'..].
  rewrite IH.
  - cbn [put_core update_field c_recv]. by rewrite <- Hc'.
  - destruct Hr1 as [Hk Hl1]. split; [exact Hk|]. cbn [put_core update_field c_recv c_size]. lia.
  - by apply Hset.
  - done.
Qed.

(** *** Any answers *)

Definition answer_ok (a : read_answer) : Prop :=
  match a with RDATA b => bytes_ok b | _ => True end.

Lemma recv_loop_any answers : forall conn now,
  recv_ok conn -> bytes_ok (c_recv conn) -> Forall answer_ok answers ->
  exists st conn', recv_loop answers conn now = Ok (st, conn') /\ recv_ok conn' /\ bytes_ok (c_recv conn').
Proof.
  induction answers as [|a answers IH]; intros conn now Hr Hb Ha; cbn [recv_loop]; [by eauto|].
  apply Forall_cons_1 in Ha as [Ha Has]. destruct a as [b| | |]; [|by eauto..].
  set (b' := take _ b). assert (Hb' : bytes_ok b') by (by apply Forall_take).
  assert (Lb : blen b' <= INIT_RECV_BUFFER_SIZE).
  { unfold b', blen. rewrite length_take. unfold INIT_RECV_BUFFER_SIZE. lia. }
  destruct (Z.eqb_spec (blen b') 0); [by eauto|].
  destruct (recv_data_spec conn b' now Hr Lb) as (st & conn1 & -> & _ & Hr1 & Hok & Hfail). cbn_bind.
  assert (Hb1 : bytes_ok (c_recv conn1)).
  { destruct (Z.le_gt_cases (blen (c_recv conn) + blen b') RECV_CAPACITY) as [Hle|Hgt].
    - destruct (Hok Hle) as [_ ->]. by apply bytes_ok_app.
    - by destruct (Hfail Hgt) as [_ ->]. }
  destruct st; [by apply IH|by eauto..].
Qed.

Lemma frames_run_total fuel : forall buf c w,
  (forall c msg w, exists r, h c msg w = Ok r) -> bytes_ok buf -> (length buf < fuel)%nat ->
  exists r, frames_run enabled h fuel buf c w = Ok r.
Proof.
  induction fuel as [|fuel IH]; intros buf c w Hh Hb Hl; [lia|]. cbn [frames_run].
  destruct (parse_message_verdict g (set_testnet_magic enabled) buf Hb) as (r & E & _).
  rewrite E. cbn_bind.
  assert (step : forall n c w, verdict_takes r = Some n ->
    exists r, frames_run enabled h fuel (drop (Z.to_nat n) buf) c w = Ok r).
  { intros n c1 w1 Hn. apply (parse_takes enabled _ _ _ Hb E) in Hn. unfold blen in Hn.
    apply IH; [done|by apply bytes_ok_drop|rewrite length_drop; lia]. }
  destruct r; [|by eauto|by apply step..|by eauto].
  destruct (Hh c msg w) as [[c1 w1] ->]. cbn_bind. destruct (c_should_disconnect c1); [by eauto|].
  by apply step.
Qed.

Lemma fresh_recv type fd now local peer answers ctl conn :
  bm_fd_data_new type fd now local peer answers ctl = Ok conn -> recv_ok conn /\ c_recv conn = [].
Proof.
  unfold bm_fd_data_new. intros Hn.
  repeat case_match; simplify_eq; (split; [split; [by exists 0|by vm_compute]|done]).
Qed.

(** ** Properties of receiving *)

(** C20: how TCP cuts the stream does not matter.  On a new connection, whatever handler
    runs (as long as it leaves the receive side alone), the successive wake-ups, with the
    blocks of bytes each happens to find, handle exactly the frames of the concatenated
    stream, in order, with the outcome of the reference that reads it at once: resumed after
    a frame with a bad checksum, resynchronised byte by byte after a wrong magic, ended by an
    oversized frame or by the handler (each wake-up bringing less than 4 MiB). *)
Theorem handle_readable_segmentation type fd now local peer answers ctl conn ws w :
  bm_fd_data_new type fd now local peer answers ctl = Ok conn ->
  Forall (fun wu => Forall block_ok wu.1 /\ bytes_ok (concat wu.1)
    /\ blen (concat wu.1) <= BM_MAX_MESSAGE_LENGTH - 24) ws ->
  ('(st, conn, w) ← wakeups ws conn w; Ok (st, core conn, w))
  = ('(st, _, c, w) ← frames enabled h (concat (map (fun wu => concat wu.1) ws)) (core conn) w;
     Ok (st, c, w)).
Proof.
  intros [Hr E]%fresh_recv Hws. rewrite wakeups_frames; [by rewrite E|done| |done].
  rewrite E. split; [constructor|done].
Qed.

(** C39: reading is bounded and always ends: whatever the kernel returns to [read], the loops
    of [bm_network_handle_readable] terminate without touching memory outside the receive
    buffer, and the buffer never grows past 8 MiB (for a handler that returns). *)
Theorem handle_readable_bounded conn answers now w :
  (forall c msg w, exists r, h c msg w = Ok r) ->
  recv_ok conn -> bytes_ok (c_recv conn) -> Forall answer_ok answers ->
  exists st conn' w',
    bm_network_handle_readable g (lift_handler h) answers conn now w = Ok (st, conn', w')
    /\ recv_ok conn' /\ bytes_ok (c_recv conn')
    /\ blen (c_recv conn') <= c_size conn' <= 8 * 1024 * 1024.
Proof.
  intros Hh Hr Hb Ha. unfold bm_network_handle_readable.
  destruct (recv_loop_any answers conn now Hr Hb Ha) as (st & conn1 & -> & Hr1 & Hb1). cbn_bind.
  assert (bound : forall c, recv_ok c -> blen (c_recv c) <= c_size c <= 8 * 1024 * 1024).
  { intros c [(k & Hk & Hs) Hl]. pose proof (pow_capacity k Hk) as Hp. unfold RECV_CAPACITY in Hp. lia. }
  destruct st; [|eexists _, _, _; split_and!; [done|done|done|apply bound; done..]..].
  rewrite parse_loop_frames by (done || lia).
  destruct (frames_run_total (S (length (c_recv conn1))) (c_recv conn1) (core conn1) w Hh Hb1) as [r E]; [lia|].
  unfold frames. rewrite E. destruct r as [[[st rest] c'] w']. cbn_bind.
  destruct (frames_run_ends' _ _ _ _ _ _ _ _ Hb1 E) as [Hbr Hle].
  assert (Hr2 : recv_ok (put_core (conn1 <| c_recv := rest |>) c')).
  { destruct Hr1 as [Hk Hl1]. split; [exact Hk|]. cbn [put_core update_field c_recv c_size]. lia. }
  eexists _, _, _. split; [reflexivity|]. split_and!; [done|done|apply bound; done..].
Qed.

(** What arrives together with the end of the stream is lost: when a wake-up finds data
    followed by EOF, [bm_network_handle_readable] returns before the parse loop, and no
    handler sees the messages, complete as they are. *)
Theorem handle_readable_eof_drops conn blocks more now w :
  recv_ok conn -> Forall block_ok blocks ->
  blen (c_recv conn) + blen (concat blocks) <= RECV_CAPACITY ->
  exists conn',
    bm_network_handle_readable g (lift_handler h) (map RDATA blocks ++ REOF :: more) conn now w
      = Ok (READ_CLOSED, conn', w)
    /\ c_recv conn' = c_recv conn ++ concat blocks.
Proof.
  intros Hr Hb Hl.
  assert (E : exists conn', recv_loop (map RDATA blocks ++ REOF :: more) conn now = Ok (READ_CLOSED, conn')
    /\ c_recv conn' = c_recv conn ++ concat blocks).
  { revert conn Hr Hl. induction Hb as [|b blocks [Hb0 Hb1] Hbs IH]; intros conn Hr Hl.
    - exists conn. by rewrite app_nil_r.
    - cbn [map app recv_loop concat] in *. rewrite blen_app in Hl. pose proof (blen_nonneg (concat blocks)).
      rewrite take_ge by (unfold blen in *; lia). destruct (Z.eqb_spec (blen b) 0); [lia|].
      destruct (recv_data_spec conn b now Hr Hb1) as (st & conn1 & -> & _ & Hr1 & Hok & _).
      destruct Hok as [-> Hrecv]; [lia|]. cbn_bind.
      destruct (IH conn1 Hr1) as (conn2 & -> & Hc2); [rewrite Hrecv, blen_app; lia|].
      exists conn2. split; [done|]. by rewrite Hc2, Hrecv, <- app_assoc. }
  destruct E as (conn' & E & Hc). exists conn'. split; [|done].
  unfold bm_network_handle_readable. by rewrite E.
Qed.
End Wakeups.

(** ** The rate of inbound connections *)

(** The verdicts on a sequence of connections, with their times. *)
Fixpoint rate_run (rl : bm_inbound_rate_limiter) (times : list Z) : cres (list (Z * bool)) :=
  match times with
  | [] => Ok []
  | now :: times =>
      '(allow, rl) ← bm_inbound_rate_limiter_allow rl now;
      rest ← rate_run rl times;
      Ok ((now, allow) :: rest)
  end.

(** How many were let in during the ten seconds from [t] on. *)
Definition let_in (t : Z) (l : list (Z * bool)) : Z :=
  Z.of_nat (length (filter (fun e => t <= e.1 < t + BM_INBOUND_ACCEPT_WINDOW_SECONDS /\ e.2 = true) l)).

Lemma let_in_cons t now allow l :
  let_in t ((now, allow) :: l)
  = (if decide (t <= now < t + 10 /\ allow = true) then 1 else 0) + let_in t l.
Proof.
  unfold let_in, BM_INBOUND_ACCEPT_WINDOW_SECONDS. rewrite filter_cons. cbn [fst snd].
  case_decide; cbn [length]; lia.
Qed.

Definition time_ok (t : Z) : Prop := 0 <= t < 2 ^ 62.

(** One connection: either it is counted in the current window, or it opens a new one. *)
Lemma rate_step s c now times l :
  time_ok s -> time_ok now ->
  rate_run {| window_start := s; count_in_window := c |} (now :: times) = Ok l ->
  exists l', l = (now, (if now - s <? 10 then c + 1 else 1) <=? 20) :: l'
    /\ rate_run {| window_start := if now - s <? 10 then s else now;
                   count_in_window := if now - s <? 10 then c + 1 else 1 |} times = Ok l'.
Proof.
  unfold time_ok. intros Hs Hn E. cbn [rate_run] in E. unfold bm_inbound_rate_limiter_allow in E.
  cbn [window_start] in E. rewrite int64_ok in E by lia. rewrite !bind_ok in E.
  unfold BM_INBOUND_ACCEPT_WINDOW_SECONDS, BM_INBOUND_ACCEPT_MAX_PER_WINDOW in E.
  destruct (Z.geb_spec (now - s) 10), (Z.ltb_spec (now - s) 10); try lia;
    cbv zeta beta iota in E; cbn [window_start count_in_window] in E;
    apply bind_ok_inv in E as (l' & E & E'); injection E' as <-; by exists l'.
Qed.

(** Connections after the ten seconds do not count. *)
Lemma rate_late times : forall rl t l,
  Forall (fun now => t + 10 <= now) times -> rate_run rl times = Ok l -> let_in t l = 0.
Proof.
  induction times as [|now times IH]; intros rl t l Ht E; cbn [rate_run] in E; [by injection E as <-|].
  apply Forall_cons_1 in Ht as [Hn Ht]. apply bind_ok_inv in E as ([allow rl'] & _ & E).
  apply bind_ok_inv in E as (l' & E & E'). injection E' as <-. rewrite let_in_cons, (IH _ _ _ Ht E).
  case_decide; lia.
Qed.

(** From a window that starts at [t] or later: what is left of it. *)
Lemma rate_same_window times : forall s c t l,
  time_ok s -> Forall time_ok times -> StronglySorted Z.le times -> t <= s ->
  rate_run {| window_start := s; count_in_window := c |} times = Ok l -> let_in t l <= Z.max 0 (20 - c).
Proof.
  induction times as [|now times IH]; intros s c t l Hs Ht Hso Hle E; [injection E as <-; change (let_in t []) with 0; lia|].
  apply Forall_cons_1 in Ht as [Hn Ht]. apply StronglySorted_cons in Hso as [Hlo Hso].
  apply rate_step in E as (l' & -> & E); [|done|done]. rewrite let_in_cons.
  destruct (Z.ltb_spec (now - s) 10).
  - specialize (IH _ _ t _ Hs Ht Hso Hle E). case_decide as Hd; [|lia]. destruct Hd as [_ Hd%Z.leb_le]. lia.
  - rewrite (rate_late times _ t l') with (2 := E)
      by (apply (Forall_impl (Z.le now)); [done|]; intros; lia).
    case_decide; lia.
Qed.

(** From a window that ends after [t]: what is left of it and the next one. *)
Lemma rate_two_windows times : forall s c t l,
  time_ok s -> Forall time_ok times -> StronglySorted Z.le times -> t < s + 10 ->
  rate_run {| window_start := s; count_in_window := c |} times = Ok l -> let_in t l <= Z.max 0 (20 - c) + 20.
Proof.
  induction times as [|now times IH]; intros s c t l Hs Ht Hso Hle E; [injection E as <-; change (let_in t []) with 0; lia|].
  apply Forall_cons_1 in Ht as [Hn Ht]. apply StronglySorted_cons in Hso as [Hlo Hso].
  apply rate_step in E as (l' & -> & E); [|done|done]. rewrite let_in_cons.
  destruct (Z.ltb_spec (now - s) 10).
  - specialize (IH _ _ t _ Hs Ht Hso Hle E). case_decide as Hd; [|lia]. destruct Hd as [_ Hd%Z.leb_le]. lia.
  - pose proof (rate_same_window _ _ _ t _ Hn Ht Hso ltac:(lia) E). case_decide; lia.
Qed.

Lemma rate_any_window times : forall s c t l,
  0 <= c -> time_ok s -> Forall time_ok times -> StronglySorted Z.le times ->
  rate_run {| window_start := s; count_in_window := c |} times = Ok l -> let_in t l <= 40.
Proof.
  induction times as [|now times IH]; intros s c t l Hc Hs Ht Hso E; [injection E as <-; change (let_in t []) with 0; lia|].
  destruct (Z.lt_ge_cases t (s + 10)).
  { pose proof (rate_two_windows _ _ _ t _ Hs Ht Hso ltac:(done) E). lia. }
  apply Forall_cons_1 in Ht as [Hn Ht]. apply StronglySorted_cons in Hso as [Hlo Hso].
  apply rate_step in E as (l' & -> & E); [|done|done]. rewrite let_in_cons.
  destruct (Z.ltb_spec (now - s) 10).
  - specialize (IH s (c + 1) t l' ltac:(lia) Hs Ht Hso E). case_decide; lia.
  - destruct (Z.lt_ge_cases t (now + 10)).
    + pose proof (rate_two_windows _ _ _ t _ Hn Ht Hso ltac:(done) E). case_decide; lia.
    + specialize (IH now 1 t l' ltac:(lia) Hn Ht Hso E). case_decide; lia.
Qed.

Lemma rate_run_total times : forall s c,
  time_ok s -> Forall time_ok times ->
  exists l, rate_run {| window_start := s; count_in_window := c |} times = Ok l.
Proof.
  induction times as [|now times IH]; intros s c Hs Ht; [by exists []|].
  apply Forall_cons_1 in Ht as [Hn Ht]. cbn [rate_run]. unfold bm_inbound_rate_limiter_allow.
  cbn [window_start]. unfold time_ok in Hs, Hn. rewrite int64_ok by lia. cbn_bind.
  destruct (_ >=? _); cbn [window_start count_in_window].
  - destruct (IH now (0 + 1) Hn Ht) as [l ->]. by eexists.
  - destruct (IH s (c + 1) Hs Ht) as [l ->]. by eexists.
Qed.

(** However inbound connections arrive, the fixed windows of the rate limiter let at
    most 40 of them in within any ten seconds (twice the 20 of a window, which is reached
    across the border of two windows), and the limiter never overflows. *)
Theorem inbound_rate_bounded times t :
  Forall (fun now => 0 <= now < 2 ^ 62) times -> StronglySorted Z.le times ->
  exists l, rate_run bm_inbound_rate_limiter_init times = Ok l
    /\ length l = length times /\ let_in t l <= 40.
Proof.
  intros Ht Hs. assert (H0 : time_ok 0) by (unfold time_ok; lia).
  destruct (rate_run_total times 0 0 H0 Ht) as [l E]. exists l. split; [exact E|].
  split; [|by apply (rate_any_window times 0 0)].
  clear -E. change bm_inbound_rate_limiter_init with (Build_bm_inbound_rate_limiter 0 0) in E.
  revert l E. generalize (Build_bm_inbound_rate_limiter 0 0).
  induction times as [|now times IH]; intros rl l E; cbn [rate_run] in E; [by injection E as <-|].
  apply bind_ok_inv in E as ([allow rl'] & _ & E). apply bind_ok_inv in E as (l' & E & E').
  injection E' as <-. cbn. f_equal. by apply (IH rl').
Qed.

(** ** The big inventory arrives whole *)

(** [l] in pieces of [n]. *)
Fixpoint chunks_of {A} (fuel n : nat) (l : list A) : list (list A) :=
  match fuel, l with
  | S fuel, _ :: _ => take n l :: chunks_of fuel n (drop n l)
  | _, _ => []
  end.

Lemma chunks_of_cons {A} f n (l : list A) :
  l <> [] -> chunks_of (S f) n l = take n l :: chunks_of f n (drop n l).
Proof. by destruct l. Qed.

Section BigInvLemmas.
Context `{OSL : OpenSSLLaws} (enabled : bool).
Abbreviation g := (bm_protocol_set_testnet enabled).

(** The frame that announces some hashes. *)
Definition inv_packet (hashes : list (list Z)) : list Z :=
  packet g (cstr "inv"%string) (varint_bytes (Z.of_nat (length hashes)) ++ concat hashes).

Lemma inv_message_eq hashes :
  Forall hash_ok hashes -> bm_create_inventory_message g (cstr "inv"%string) hashes = Ok (inv_packet hashes).
Proof.
  intros Hh. unfold bm_create_inventory_message. rewrite inventory_payload_eq by done. cbn_bind.
  apply create_packet_eq, set_testnet_magic.
Qed.

Lemma blen_inv_packet hashes :
  Forall hash_ok hashes -> Z.of_nat (length hashes) <= 1000 -> 0 < blen (inv_packet hashes) < 2 ^ 63.
Proof.
  intros Hh Hl. unfold inv_packet. rewrite blen_packet by apply set_testnet_magic.
  rewrite blen_app, blen_varint_bytes, blen_concat_hashes by done.
  pose proof (bm_varint_size_pos (Z.of_nat (length hashes))). lia.
Qed.

(** The stream of a connection: what it has been given to send. *)
Definition stream_of (conn : bm_fd_data) : list Z := sock_wire (c_send conn) ++ queued (c_send conn).

(** A send that does not evict the peer appends to the stream and changes nothing else. *)
Lemma network_send_spec conn data now ok conn' :
  send_ok (c_send conn) -> 0 < blen data < 2 ^ 63 -> bm_network_send conn data now = (ok, conn') ->
  send_ok (c_send conn') /\ conn' = conn <| c_send := c_send conn' |>
                                      <| c_pending_eviction := c_pending_eviction conn' |>
  /\ (ok = false -> c_pending_eviction conn' = true)
  /\ (ok = true -> stream_of conn' = stream_of conn ++ data
                   /\ c_pending_eviction conn' = c_pending_eviction conn).
Proof.
  intros Hs Hd E. pose proof (send_apply_inv conn (OpSend data now) ok conn' Hs) as Hinv.
  cbn [op_ok send_apply] in Hinv. destruct (Hinv ltac:(lia) E) as (H1 & H2 & _ & _). clear Hinv.
  split; [done|]. unfold stream_of. rewrite H2. unfold refused. clear H1 H2.
  destruct Hs as [_ Hq Hl _]. pose proof (blen_nonneg (queued (c_send conn))).
  unfold bm_network_send, BM_SEND_QUEUE_HARD_LIMIT_BYTES in *.
  destruct (Z.eqb_spec (blen data) 0); [lia|]. unfold u64 in E. rewrite Z.mod_small in E by lia.
  destruct (_ >? _); [injection E as <- <-; by destruct conn|].
  destruct (flush_locked _ now) as [ok1 s1]. rewrite <- app_assoc.
  destruct ok1; injection E as <- <-; by destruct conn.
Qed.

Lemma send_inv_chunk_spec conn now hashes sent :
  send_ok (c_send conn) -> Forall hash_ok hashes -> 0 <= sent < Z.of_nat (length hashes) ->
  Z.of_nat (length hashes) < 2 ^ 62 ->
  pending_inv_hashes (c_inv conn) = Some hashes -> pending_inv_sent (c_inv conn) = sent ->
  let part := take 1000 (drop (Z.to_nat sent) hashes) in
  exists conn', send_inv_chunk g conn now = Ok conn' /\ send_ok (c_send conn')
    /\ (c_pending_eviction conn' = true /\ pending_inv_hashes (c_inv conn') = None
        \/ stream_of conn' = stream_of conn ++ inv_packet part
           /\ pending_inv_sent (c_inv conn') = sent + Z.of_nat (length part)
           /\ pending_inv_hashes (c_inv conn')
              = if sent + Z.of_nat (length part) >=? Z.of_nat (length hashes) then None else Some hashes).
Proof.
  intros Hs Hh Hse Hlen Hp Es part. unfold send_inv_chunk. rewrite Hp, Es.
  assert (Hpart : Forall hash_ok part) by (by apply Forall_take, Forall_drop).
  set (remaining := u64 _). assert (Er : remaining = Z.of_nat (length hashes) - sent).
  { unfold remaining, u64. rewrite Z.mod_small; lia. }
  set (n := if remaining <? _ then _ else _).
  assert (En : n = Z.of_nat (length part) /\ take (Z.to_nat n) (drop (Z.to_nat sent) hashes) = part).
  { unfold n, part, BM_BIG_INV_CHUNK_SIZE. rewrite length_take, length_drop.
    destruct (Z.ltb_spec remaining 1000); (split; [lia|]); [|done].
    rewrite !take_ge by (rewrite length_drop; lia). done. }
  destruct En as [En ->]. rewrite inv_message_eq by done. cbn_bind.
  set (conn1 := conn <| c_inv := _ |>).
  assert (Lp : Z.of_nat (length part) <= 1000) by (unfold part; rewrite length_take; lia).
  destruct (bm_network_send conn1 (inv_packet part) now) as [ok conn2] eqn:E.
  destruct (network_send_spec conn1 _ now ok conn2 Hs (blen_inv_packet part Hpart Lp) E)
    as (Hs2 & Heq & Hf & Ht).
  destruct ok.
  - eexists. split; [reflexivity|]. split; [done|]. destruct (Ht eq_refl) as [Hst Hev].
    right. cbn [update_field c_inv pending_inv_sent pending_inv_hashes]. rewrite En.
    split_and!; [exact Hst|done|done].
  - eexists. split; [reflexivity|]. split; [done|]. left. cbn [update_field c_pending_eviction c_inv].
    by rewrite (Hf eq_refl).
Qed.

(** The sweeps that send the following chunks. *)
Fixpoint inv_sweeps (times : list Z) (conn : bm_fd_data) : cres bm_fd_data :=
  match times with
  | [] => Ok conn
  | now :: times =>
      match pending_inv_hashes (c_inv conn) with
      | None => Ok conn
      | Some _ => conn ← send_inv_chunk g conn now; inv_sweeps times conn
      end
  end.

Lemma inv_sweeps_spec times : forall conn hashes sent,
  send_ok (c_send conn) -> Forall hash_ok hashes -> 0 <= sent < Z.of_nat (length hashes) ->
  Z.of_nat (length hashes) < 2 ^ 62 ->
  pending_inv_hashes (c_inv conn) = Some hashes -> pending_inv_sent (c_inv conn) = sent ->
  Z.of_nat (length hashes) - sent <= 1000 * Z.of_nat (length times) ->
  exists conn', inv_sweeps times conn = Ok conn' /\ send_ok (c_send conn')
    /\ (c_pending_eviction conn' = false ->
        stream_of conn' = stream_of conn
          ++ concat (map inv_packet (chunks_of (length times) 1000 (drop (Z.to_nat sent) hashes)))
        /\ pending_inv_hashes (c_inv conn') = None).
Proof.
  induction times as [|now times IH]; intros conn hashes sent Hs Hh Hse Hlen Hp Es Ht;
    [cbn [length] in Ht; lia|].
  cbn [inv_sweeps]. rewrite Hp.
  destruct (send_inv_chunk_spec conn now hashes sent Hs Hh Hse Hlen Hp Es)
    as (conn1 & -> & Hs1 & [[He Hn]|(Hst & Hse1 & Hp1)]); cbn_bind.
  { destruct times; cbn [inv_sweeps]; rewrite ?Hn; exists conn1; split_and!; congruence || done. }
  set (part := take 1000 (drop (Z.to_nat sent) hashes)) in *.
  assert (Lp : (length part = Nat.min 1000 (length hashes - Z.to_nat sent))%nat)
    by (unfold part; by rewrite length_take, length_drop).
  cbn [length]. rewrite chunks_of_cons, drop_drop.
  2:{ intros Ed%(f_equal length). rewrite length_drop in Ed. cbn in Ed. lia. }
  fold part. cbn [map concat].
  destruct (Z.geb_spec (sent + Z.of_nat (length part)) (Z.of_nat (length hashes))) as [Hge|Hlt].
  - exists conn1. assert (Hnil : drop (Z.to_nat sent + 1000) hashes = []) by (apply drop_ge; lia).
    rewrite Hnil. assert (chunks_of (length times) 1000 ([] : list (list Z)) = []) as -> by (by destruct times).
    cbn [map concat]. rewrite app_nil_r.
    destruct times; cbn [inv_sweeps]; rewrite ?Hp1; by split_and!.
  - destruct (IH conn1 hashes (sent + Z.of_nat (length part)) Hs1 Hh) as (conn2 & E & Hs2 & H2);
      [lia|lia|done|done|cbn [length] in Ht; lia|].
    exists conn2. split_and!; [done|done|]. intros He. destruct (H2 He) as [Hst2 ->]. split; [|done].
    rewrite Hst2, Hst, <- app_assoc. do 2 f_equal.
    replace (Z.to_nat (sent + Z.of_nat (length part))) with (Z.to_nat sent + 1000)%nat by lia. done.
Qed.

(** The announcement of the whole inventory reaches the peer complete: for a connection
    that is not given up, the first chunk and the sweeps that follow put one [inv] frame
    per thousand hashes on the stream, with every hash exactly once and in order, behind
    what was queued before, and then nothing is pending. *)
Theorem big_inv_complete conn hashes now times :
  send_ok (c_send conn) -> Forall hash_ok hashes -> hashes <> [] ->
  Z.of_nat (length hashes) < 2 ^ 62 ->
  Z.of_nat (length hashes) <= 1000 * (1 + Z.of_nat (length times)) ->
  exists conn',
    (conn ← bm_network_begin_big_inv g conn hashes now; inv_sweeps times conn) = Ok conn'
    /\ (c_pending_eviction conn' = false ->
        sock_wire (c_send conn') ++ queued (c_send conn')
        = sock_wire (c_send conn) ++ queued (c_send conn)
          ++ concat (map inv_packet (chunks_of (S (length times)) 1000 hashes))
        /\ pending_inv_hashes (c_inv conn') = None)
    /\ concat (chunks_of (S (length times)) 1000 hashes) = hashes.
Proof.
  intros Hs Hh Hne Hlen Ht.
  set (conn0 := conn <| c_inv := (c_inv conn) <| pending_inv_hashes := Some hashes |>
                                    <| pending_inv_sent := 0 |> |>).
  destruct (inv_sweeps_spec (now :: times) conn0 hashes 0) as (conn' & E & _ & H');
    [done|done|destruct hashes; [done|cbn; lia]|done|done|done|cbn [length]; lia|].
  exists conn'. split; [exact E|]. split.
  - intros He. destruct (H' He) as [Hst Hp]. unfold stream_of in Hst. rewrite <- app_assoc in Hst. by split.
  - clear -Ht Hne. revert hashes Ht Hne. induction (length times) as [|n IH]; intros hashes Ht Hne.
    + destruct hashes; [done|]. cbn [chunks_of concat]. rewrite app_nil_r. apply take_ge. lia.
    + rewrite chunks_of_cons by done. cbn [concat].
      destruct (decide (drop 1000 hashes = [])) as [E|E].
      * rewrite E. rewrite <- (take_drop 1000 hashes) at 2. by rewrite E.
      * rewrite IH; [apply take_drop|rewrite length_drop; lia|done].
Qed.
End BigInvLemmas.

(** ** Witnesses *)

Section NetworkWitnesses.
#[local] Existing Instance toy_OpenSSL.
#[local] Existing Instance toy_OpenSSLLaws.

Definition example_conn : bm_fd_data :=
  match bm_fd_data_new BM_FD_CLIENT_SOCKET 7 1000 (Some AF_OTHER) (Some AF_OTHER)
          [SENT 2; EINTR; EAGAIN; SENT 9; SENT 9; SENT 1; SENT 9] [] with
  | Ok c => c
  | _ => {| c_type := BM_FD_LISTEN_SOCKET; c_fd := 0; c_generation := 0; c_size := 0; c_recv := [];
            c_local_addr := AF_OTHER; c_peer_addr := AF_OTHER; c_logical_peer_ip := [];
            c_logical_peer_port := 0; c_services := 0; c_last_activity := 0;
            c_handshake_complete := false; c_should_disconnect := false;
            c_pending_eviction := false; c_user_agent := None; c_bytes_received := 0;
            c_inv := Build_inv_state None 0 0; c_pending_verack_reply_at := 0;
            c_send := fresh_send [] []; c_upload := Build_upload_state [] 0 0 |}
  end.

Lemma example_conn_new :
  bm_fd_data_new BM_FD_CLIENT_SOCKET 7 1000 (Some AF_OTHER) (Some AF_OTHER)
    [SENT 2; EINTR; EAGAIN; SENT 9; SENT 9; SENT 1; SENT 9] [] = Ok example_conn.
Proof. reflexivity. Qed.

Definition example_ops : list send_op := [OpRegister; OpSend [1; 2; 3] 5; OpSend [4; 5] 6].

Lemma send_queue_refines_stream_witness :
  let conn' := (send_run example_conn (take 2 example_ops)).2 in
  sock_wire (c_send conn') ++ queued (c_send conn') = concat (accepted example_conn (take 2 example_ops))
  /\ sock_wire (c_send conn') = [1; 2] /\ send_out_armed (c_send conn') = true.
Proof.
  intros conn'.
  destruct (send_queue_refines_stream BM_FD_CLIENT_SOCKET 7 1000 (Some AF_OTHER) (Some AF_OTHER)
    [SENT 2; EINTR; EAGAIN; SENT 9; SENT 9; SENT 1; SENT 9] example_conn (take 2 example_ops) true conn')
    as (Hw & _ & _ & _ & Ha).
  - exact example_conn_new.
  - by repeat constructor.
  - reflexivity.
  - split; [exact Hw|]. split; [reflexivity|]. exact (Ha eq_refl eq_refl).
Defined.

Definition drain_conn : bm_fd_data :=
  (send_run example_conn (take 2 example_ops)).2.

Lemma bm_network_flush_drains_witness :
  exists conn'', bm_network_flush drain_conn 9 = (true, conn'')
    /\ sock_wire (c_send conn'') = concat (accepted example_conn (take 2 example_ops)).
Proof.
  destruct (bm_network_flush_drains BM_FD_CLIENT_SOCKET 7 1000 (Some AF_OTHER) (Some AF_OTHER)
    [SENT 2; EINTR; EAGAIN; SENT 9; SENT 9; SENT 1; SENT 9] example_conn (take 2 example_ops) true
    drain_conn 9) as (c & E & _ & Hw).
  - exact example_conn_new.
  - by repeat constructor.
  - reflexivity.
  - repeat constructor; eexists; (split; [reflexivity|lia]).
  - by vm_compute.
  - exists c. split; [exact E|exact Hw].
Defined.

(** A handler that records the messages. *)
Definition record_handler (c : bm_fd_data) (msg : bm_message) (w : list bm_message)
  : cres (bm_fd_data * list bm_message) := Ok (c, w ++ [msg]).

Definition verack_frame : list Z :=
  match bm_create_packet (bm_protocol_set_testnet false) (cstr "verack"%string) [] with Ok p => p | _ => [] end.

Definition example_wakeups : list (list (list Z) * Z) :=
  [([take 5 verack_frame; [0]], 10); ([drop 5 verack_frame; verack_frame], 11)].

Lemma handle_readable_segmentation_witness :
  ('(st, conn, w) ← wakeups false record_handler example_wakeups example_conn [];
   Ok (st, core conn, w))
  = ('(st, _, c, w) ← frames false record_handler (concat (map (fun wu => concat wu.1) example_wakeups))
       (core example_conn) []; Ok (st, c, w)).
Proof.
  apply (handle_readable_segmentation false record_handler BM_FD_CLIENT_SOCKET 7 1000 (Some AF_OTHER)
    (Some AF_OTHER) [SENT 2; EINTR; EAGAIN; SENT 9; SENT 9; SENT 1; SENT 9] []).
  - exact example_conn_new.
  - repeat constructor; cbn [fst].
    all: try (by vm_compute). all: apply (bool_decide_unpack _); by vm_compute.
Defined.

Lemma handle_readable_bounded_witness :
  exists st conn' w',
    bm_network_handle_readable (bm_protocol_set_testnet false) (lift_handler record_handler)
      [RDATA verack_frame; RAGAIN] example_conn 10 [] = Ok (st, conn', w')
    /\ c_size conn' <= 8 * 1024 * 1024.
Proof.
  destruct (handle_readable_bounded false record_handler example_conn [RDATA verack_frame; RAGAIN] 10 [])
    as (st & conn' & w' & E & _ & _ & _ & Hs).
  - intros c msg w. by eexists.
  - apply (fresh_recv _ _ _ _ _ _ _ _ example_conn_new).
  - constructor.
  - constructor; [|by repeat constructor]. change (bytes_ok verack_frame).
    apply (bool_decide_unpack _). by vm_compute.
  - exists st, conn', w'. split; [exact E|exact Hs].
Defined.

Lemma handle_readable_eof_drops_witness :
  exists conn',
    bm_network_handle_readable (bm_protocol_set_testnet false) (lift_handler record_handler)
      (map RDATA [verack_frame] ++ REOF :: []) example_conn 10 [] = Ok (READ_CLOSED, conn', []).
Proof.
  destruct (handle_readable_eof_drops false record_handler example_conn [verack_frame] [] 10 [])
    as (conn' & E & _).
  - apply (fresh_recv _ _ _ _ _ _ _ _ example_conn_new).
  - repeat constructor; by vm_compute.
  - by vm_compute.
  - exists conn'. exact E.
Defined.

Lemma inbound_rate_bounded_witness :
  exists l, rate_run bm_inbound_rate_limiter_init [5; 5; 6; 20] = Ok l /\ let_in 5 l <= 40.
Proof.
  destruct (inbound_rate_bounded [5; 5; 6; 20] 5) as (l & E & _ & H).
  - repeat constructor; lia.
  - repeat constructor; lia.
  - exists l. split; [exact E|exact H].
Defined.

Lemma big_inv_complete_witness :
  exists conn',
    (conn ← bm_network_begin_big_inv (bm_protocol_set_testnet false) example_conn [replicate 32 1] 9;
     inv_sweeps false [] conn) = Ok conn'
    /\ concat (chunks_of 1 1000 [replicate 32 1]) = [replicate 32 1].
Proof.
  destruct (big_inv_complete false example_conn [replicate 32 1] 9 []) as (conn' & E & _ & Hc).
  - apply fresh_send_ok.
  - constructor; [|constructor]. split; [reflexivity|]. apply (bool_decide_unpack _). by vm_compute.
  - done.
  - cbn. lia.
  - cbn. lia.
  - exists conn'. split; [exact E|exact Hc].
Defined.
End NetworkWitnesses.
