(* ===== verification/PeerRegistry.v ===== *)
(** * The registry of connections (infra/peer_registry.c)

    Connections live in a heap, from addresses to [bm_fd_data]; the registry borrows
    addresses.  Reading an address that is not allocated is undefined. *)

From Stdlib Require Import String.
From stdpp Require Import base tactics numbers option gmap sorting list.
From S2P Require Import Prelude Varint Openssl Hash Object Sql Protocol Dandelion Network.

#[local] Arguments be_split : simpl never.

Abbreviation conn_heap := (gmap Z bm_fd_data).

Definition deref (heap : conn_heap) (p : Z) : cres bm_fd_data :=
  match heap !! p with Some c => Ok c | None => Ub end.

Record bm_peer_registry := {
  conns : list Z; (** [conns[0 .. count)] *)
  capacity : Z;
  next_generation : Z
}.
#[export] Instance bm_peer_registry_eta : RecordEta bm_peer_registry := fun r =>
  Build_bm_peer_registry (conns r) (capacity r) (next_generation r).

Definition bm_peer_registry_init : bm_peer_registry :=
  {| conns := []; capacity := 0; next_generation := 1 |}.

Definition bm_peer_registry_destroy (reg : bm_peer_registry) : bm_peer_registry :=
  reg <| conns := [] |> <| capacity := 0 |>.

Definition bm_peer_registry_count (reg : bm_peer_registry) : Z := Z.of_nat (length (conns reg)).

Definition bm_peer_registry_add (reg : bm_peer_registry) (heap : conn_heap) (conn : Z)
  : cres (bm_peer_registry * conn_heap) :=
  let reg := if bm_peer_registry_count reg >=? capacity reg
             then reg <| capacity := if capacity reg =? 0 then 8 else capacity reg * 2 |> else reg in
  c ← deref heap conn;
  Ok (reg <| next_generation := u64 (next_generation reg + 1) |> <| conns := conns reg ++ [conn] |>,
      <[conn := c <| c_generation := next_generation reg |>]> heap).

(** The first position of a pointer. *)
Fixpoint position (p : Z) (l : list Z) : option nat :=
  match l with
  | [] => None
  | q :: l => if q =? p then Some O else S <$> position p l
  end.

(** [conns[i] = conns[count - 1]; count--] *)
Definition swap_remove (i : nat) (l : list Z) : list Z :=
  match last l with
  | Some q => take (length l - 1) (<[i := q]> l)
  | None => l
  end.

Definition bm_peer_registry_remove (reg : bm_peer_registry) (conn : Z) : bm_peer_registry :=
  match position conn (conns reg) with
  | Some i => reg <| conns := swap_remove i (conns reg) |>
  | None => reg
  end.

Definition bm_peer_registry_evict_if_current (reg : bm_peer_registry) (heap : conn_heap)
    (conn generation : Z) : cres (bool * conn_heap) :=
  match position conn (conns reg) with
  | None => Ok (false, heap)
  | Some _ =>
      c ← deref heap conn;
      if c_generation c =? generation
      then Ok (true, <[conn := c <| c_pending_eviction := true |>]> heap)
      else Ok (false, heap)
  end.

Fixpoint count_types (heap : conn_heap) (type : bm_fd_type) (l : list Z) : cres Z :=
  match l with
  | [] => Ok 0
  | p :: l =>
      c ← deref heap p;
      n ← count_types heap type l;
      Ok (if bool_decide (c_type c = type) then n + 1 else n)
  end.
Definition bm_peer_registry_count_by_type (reg : bm_peer_registry) (heap : conn_heap)
    (type : bm_fd_type) : cres Z := count_types heap type (conns reg).

Section HasPeer.
Context `{INP : InetNtop}.

Fixpoint has_peer_loop (heap : conn_heap) (ip : list Z) (port : Z) (l : list Z) : cres bool :=
  match l with
  | [] => Ok false
  | p :: l =>
      c ← deref heap p;
      let '(current_ip, current_port) := bm_network_resolve_peer_ip_port c Network.BM_PEER_IP_STRLEN in
      if (current_port =? port) && list_eqb current_ip ip then Ok true
      else has_peer_loop heap ip port l
  end.
Definition bm_peer_registry_has_peer (reg : bm_peer_registry) (heap : conn_heap) (ip : list Z) (port : Z)
  : cres bool := has_peer_loop heap ip port (conns reg).
End HasPeer.

(** A callback over pointers, in a state; [for_each] runs over a snapshot of the pointers. *)
Fixpoint fold_conns {S} (callback : Z -> S -> cres S) (l : list Z) (s : S) : cres S :=
  match l with
  | [] => Ok s
  | p :: l => s ← callback p s; fold_conns callback l s
  end.
Definition bm_peer_registry_for_each {S} (reg : bm_peer_registry) (callback : Z -> S -> cres S) (s : S)
  : cres S := fold_conns callback (conns reg) s.

(** The same, with the lock held throughout. *)
Definition bm_peer_registry_for_each_locked {S} (reg : bm_peer_registry) (callback : Z -> S -> cres S) (s : S)
  : cres S := fold_conns callback (conns reg) s.

(** ** Broadcast *)

Section Broadcast.
Context `{OS : OpenSSL} `{INP : InetNtop} (g : protocol_globals).
(** [time(NULL)] at each decision, in their order, and the random delay of a new hash. *)
Context (clock : nat -> Z) (delay : list Z -> Z).

Definition bm_decide_propagation (d : dandelion_state) (object_hash : list Z) (conn : bm_fd_data) (now : Z)
  : cres (bm_propagation_mode * dandelion_state) :=
  bm_dandelion_decide d object_hash
    (Some (bm_network_resolve_peer_ip_port conn Network.BM_PEER_IP_STRLEN)) now (delay object_hash).

(** The hashes to announce and the ones to pass along the stem; [n] counts the decisions. *)
Fixpoint decide_all (n : nat) (d : dandelion_state) (conn : bm_fd_data) (hashes : list (list Z))
  : cres (list (list Z) * list (list Z) * dandelion_state) :=
  match hashes with
  | [] => Ok ([], [], d)
  | h :: hashes =>
      '(mode, d) ← bm_decide_propagation d h conn (clock n);
      '(fluff, stem, d) ← decide_all (S n) d conn hashes;
      Ok match mode with
         | BM_PROPAGATE_FLUFF => (h :: fluff, stem, d)
         | BM_PROPAGATE_STEM => (fluff, h :: stem, d)
         | BM_PROPAGATE_SKIP => (fluff, stem, d)
         end
  end.

(** One announcement, if there is anything to announce. *)
Definition queue_hashes (conn : bm_fd_data) (command : list Z) (hashes : list (list Z)) (now : Z)
  : cres (bool * bm_fd_data) :=
  if (0 <? length hashes)%nat then
    packet ← bm_create_inventory_message g command hashes;
    Ok (bm_network_send conn packet now)
  else Ok (true, conn).

(** The bits of the result are only counted for the log. *)
Definition queue_inv_for_conn (n : nat) (d : dandelion_state) (conn : bm_fd_data)
    (hashes : list (list Z)) (now : Z) : cres (bm_fd_data * dandelion_state) :=
  '(fluff, stem, d) ← decide_all n d conn hashes;
  '(ok, conn) ← queue_hashes conn (cstr "inv"%string) fluff now;
  if ok : bool then
    '(_, conn) ← queue_hashes conn (cstr "dinv"%string) stem now;
    Ok (conn, d)
  else Ok (conn, d).

Fixpoint broadcast_loop (n : nat) (l : list Z) (except : option Z) (hashes : list (list Z)) (now : Z)
    (s : conn_heap * dandelion_state) : cres (conn_heap * dandelion_state) :=
  match l with
  | [] => Ok s
  | p :: l =>
      if bool_decide (Some p = except) then broadcast_loop n l except hashes now s else
      conn ← deref s.1 p;
      if bool_decide (c_type conn = BM_FD_LISTEN_SOCKET) then broadcast_loop n l except hashes now s else
        '(conn, d) ← queue_inv_for_conn n s.2 conn hashes now;
        broadcast_loop (n + length hashes) l except hashes now (<[p := conn]> s.1, d)
  end.

Definition bm_peer_registry_broadcast_inv (reg : bm_peer_registry) (heap : conn_heap) (d : dandelion_state)
    (hashes : list (list Z)) (except : option Z) (now : Z) : cres (conn_heap * dandelion_state) :=
  if (0 <? length hashes)%nat
  then broadcast_loop 0 (conns reg) except hashes now (heap, d)
  else Ok (heap, d).

(** ** A random stem *)

Definition stem_candidate (conn : bm_fd_data) : bool :=
  bool_decide (c_type conn = BM_FD_CLIENT_SOCKET)
  && negb (Z.land (c_services conn) BM_SERVICE_NODE_DANDELION =? 0).

(** Reservoir sampling; [draw n] is the random byte at the [n]-th candidate. *)
Fixpoint pick_loop (draw : Z -> Z) (heap : conn_heap) (l : list Z) (eligible_seen : Z)
    (chosen : option (list Z * Z)) : cres (option (list Z * Z)) :=
  match l with
  | [] => Ok chosen
  | p :: l =>
      conn ← deref heap p;
      if stem_candidate conn then
        let n := eligible_seen + 1 in
        pick_loop draw heap l n
          (if u8 (draw n) mod n =? 0
           then Some (bm_network_resolve_peer_ip_port conn Network.BM_PEER_IP_STRLEN) else chosen)
      else pick_loop draw heap l eligible_seen chosen
  end.

Definition bm_peer_registry_pick_random_dandelion_peer (reg : bm_peer_registry) (heap : conn_heap)
    (draw : Z -> Z) : cres (option (list Z * Z)) :=
  pick_loop draw heap (conns reg) 0 None.
End Broadcast.

(** ** The array *)

Lemma position_spec p l : forall i,
  position p l = Some i <-> exists l1 l2, l = l1 ++ p :: l2 /\ length l1 = i /\ p ∉ l1.
Proof.
  induction l as [|q l IH]; intros i; cbn [position].
  { split; [done|]. intros (l1 & l2 & E & _). by destruct l1. }
  destruct (Z.eqb_spec q p) as [->|Hq].
  - split; [intros [= <-]; exists [], l; split_and!; [done|done|apply not_elem_of_nil]|].
    intros (l1 & l2 & E & Hl & Hn). destruct l1 as [|x l1]; [by rewrite <- Hl|].
    injection E as -> E. exfalso. apply Hn. by left.
  - rewrite fmap_Some. split.
    + intros (j & Hj & ->). apply IH in Hj as (l1 & l2 & -> & <- & Hn).
      exists (q :: l1), l2. split_and!; [done|done|]. rewrite elem_of_cons. intros [?|?]; congruence || done.
    + intros (l1 & l2 & E & Hl & Hn). destruct l1 as [|x l1]; injection E as -> E; [done|].
      exists (length l1). split; [|by rewrite <- Hl]. apply IH. exists l1, l2. split_and!; [done|done|].
      intros Hin. apply Hn. by right.
Qed.

Lemma position_None p l : position p l = None <-> p ∉ l.
Proof.
  induction l as [|q l IH]; cbn [position]; [split; [intros _; apply not_elem_of_nil|done]|].
  rewrite elem_of_cons. destruct (Z.eqb_spec q p) as [->|Hq]; [split; [done|tauto]|].
  rewrite fmap_None, IH. split; [intros ? [?|?]; congruence || done|tauto].
Qed.

(** Filling the hole with the last entry removes exactly that pointer. *)
Lemma swap_remove_perm l1 p l2 : l1 ++ p :: l2 ≡ₚ p :: swap_remove (length l1) (l1 ++ p :: l2).
Proof.
  unfold swap_remove. destruct l2 as [|x l2 _] using rev_ind.
  - rewrite last_snoc, length_app, insert_app_r_alt by done. rewrite Nat.sub_diag. cbn [insert list_insert length].
    replace (length l1 + 1 - 1)%nat with (length l1) by lia. rewrite take_app_length.
    symmetry. apply Permutation_cons_append.
  - rewrite app_comm_cons, app_assoc, last_snoc. rewrite length_app. cbn [length].
    rewrite <- app_assoc, insert_app_r_alt by done. rewrite Nat.sub_diag. cbn [app insert list_insert].
    replace (l1 ++ x :: l2 ++ [x]) with ((l1 ++ x :: l2) ++ [x]) by (by rewrite <- app_assoc).
    rewrite take_app_length' by (rewrite !length_app; cbn [length]; lia).
    rewrite <- Permutation_middle. apply perm_skip, Permutation_app_head.
    symmetry. apply Permutation_cons_append.
Qed.

Lemma registry_remove_spec reg p :
  NoDup (conns reg) ->
  let reg' := bm_peer_registry_remove reg p in
  NoDup (conns reg') /\ (length (conns reg') <= length (conns reg))%nat
  /\ (forall q, q ∈ conns reg' <-> q ∈ conns reg /\ q <> p)
  /\ capacity reg' = capacity reg /\ next_generation reg' = next_generation reg.
Proof.
  intros Hn reg'. unfold reg', bm_peer_registry_remove. destruct (position p (conns reg)) as [i|] eqn:E.
  - apply position_spec in E as (l1 & l2 & E & <- & Hp). cbn [update_field conns capacity next_generation].
    rewrite E in *. pose proof (swap_remove_perm l1 p l2) as Hperm.
    revert Hperm. generalize (swap_remove (length l1) (l1 ++ p :: l2)). intros r Hperm. rewrite Hperm in Hn.
    apply NoDup_cons in Hn as [Hni Hn]. split_and!; [done| | |done|done].
    + apply Permutation_length in Hperm. cbn [length] in Hperm. lia.
    + intros q. rewrite Hperm, elem_of_cons. split; [intros ?; split; [by right|congruence]|].
      by intros [[?|?] ?].
  - apply position_None in E. split_and!; try done. intros q. split; [|tauto].
    intros Hq. split; [done|]. by intros ->.
Qed.

(** ** Histories *)

Abbreviation reg_state := (bm_peer_registry * conn_heap)%type.

(** What happens to connections: one is allocated at [p] and registered; the one at [p] is
    closed (removed and freed, by the epoll thread); its fields change; some thread asks to
    evict it. *)
Inductive reg_event :=
| EvAdd (p : Z) (c : bm_fd_data)
| EvClose (p : Z)
| EvTouch (p : Z) (f : bm_fd_data -> bm_fd_data)
| EvEvict (p generation : Z).

Definition reg_apply (s : reg_state) (e : reg_event) : cres reg_state :=
  match e with
  | EvAdd p c =>
      match s.2 !! p with
      | Some _ => Err (* [malloc] returns no address that is in use *)
      | None => bm_peer_registry_add s.1 (<[p := c]> s.2) p
      end
  | EvClose p =>
      match s.2 !! p with
      | Some _ => Ok (bm_peer_registry_remove s.1 p, delete p s.2)
      | None => Err
      end
  | EvTouch p f =>
      match s.2 !! p with
      | Some c => Ok (s.1, <[p := (f c) <| c_generation := c_generation c |>]> s.2)
      | None => Err
      end
  | EvEvict p generation =>
      '(_, heap) ← bm_peer_registry_evict_if_current s.1 s.2 p generation;
      Ok (s.1, heap)
  end.

Fixpoint reg_run (s : reg_state) (es : list reg_event) : cres reg_state :=
  match es with
  | [] => Ok s
  | e :: es => s ← reg_apply s e; reg_run s es
  end.

(** The registry holds exactly the connections that are allocated, each once, within its
    array, with generations below the next one. *)
Record reg_ok (s : reg_state) : Prop := {
  ro_nodup : NoDup (conns s.1);
  ro_live : forall p, p ∈ conns s.1 <-> is_Some (s.2 !! p);
  ro_cap : bm_peer_registry_count s.1 <= capacity s.1;
  ro_gen : forall p c, s.2 !! p = Some c -> 0 < c_generation c < next_generation s.1
}.

(** Adds left before the counter would wrap. *)
Definition gen_room (s : reg_state) (n : nat) : Prop :=
  0 < next_generation s.1 /\ next_generation s.1 + Z.of_nat n < 2 ^ 64.

Lemma reg_init_ok : reg_ok (bm_peer_registry_init, ∅).
Proof.
  split; cbn.
  - constructor.
  - intros p. rewrite lookup_empty. split; [by intros ?%not_elem_of_nil|by intros [??]].
  - unfold bm_peer_registry_count. cbn. lia.
  - intros p c. by rewrite lookup_empty.
Qed.

Lemma registry_add_spec reg heap p c reg' heap' :
  heap !! p = Some c -> bm_peer_registry_add reg heap p = Ok (reg', heap') ->
  conns reg' = conns reg ++ [p] /\ next_generation reg' = u64 (next_generation reg + 1)
  /\ heap' = <[p := c <| c_generation := next_generation reg |>]> heap
  /\ (0 <= capacity reg -> bm_peer_registry_count reg <= capacity reg ->
      bm_peer_registry_count reg' <= capacity reg').
Proof.
  intros Hp E. unfold bm_peer_registry_add, deref in E. rewrite Hp in E. cbn in E. injection E as <- <-.
  unfold bm_peer_registry_count.
  destruct (Z.geb_spec (Z.of_nat (length (conns reg))) (capacity reg));
    cbn [update_field conns capacity next_generation]; (split_and!; [done|done|done|]); intros;
    rewrite length_app; cbn [length]; [destruct (Z.eqb_spec (capacity reg) 0)|]; lia.
Qed.

Lemma registry_evict_spec reg heap p gen :
  (forall q, q ∈ conns reg <-> is_Some (heap !! q)) ->
  bm_peer_registry_evict_if_current reg heap p gen
  = match heap !! p with
    | Some c => if c_generation c =? gen then Ok (true, <[p := c <| c_pending_eviction := true |>]> heap)
                else Ok (false, heap)
    | None => Ok (false, heap)
    end.
Proof.
  intros Hl. unfold bm_peer_registry_evict_if_current, deref.
  destruct (position p (conns reg)) as [i|] eqn:E.
  - apply position_spec in E as (l1 & l2 & E & _ & _).
    destruct (proj1 (Hl p)) as [c ->]; [rewrite E; set_solver|done].
  - apply position_None in E. destruct (heap !! p) eqn:Ep; [|done]. exfalso. apply E, Hl. by eexists.
Qed.

(** A change of the fields of a live connection that keeps its generation. *)
Lemma reg_ok_touch reg heap p c c' :
  reg_ok (reg, heap) -> heap !! p = Some c -> c_generation c' = c_generation c ->
  reg_ok (reg, <[p := c']> heap).
Proof.
  intros [Hn Hl Hc Hg] Hp Hgen. split; cbn [fst snd] in *; [done| |done|].
  - intros q. rewrite Hl, lookup_insert_is_Some. destruct (decide (p = q)) as [->|]; [|tauto].
    split; [by left|]. intros _. by eexists.
  - intros q d. rewrite lookup_insert_Some. intros [[<- <-]|[_ Hq]]; [rewrite Hgen; by apply (Hg p)|by apply (Hg q)].
Qed.

Lemma reg_apply_ok s e s' n :
  reg_ok s -> gen_room s (S n) -> reg_apply s e = Ok s' ->
  reg_ok s' /\ gen_room s' n /\ next_generation s.1 <= next_generation s'.1.
Proof.
  intros Hs Hr E. destruct s as [reg heap]. pose proof Hs as [Hn Hl Hc Hg]. unfold gen_room in *.
  cbn [fst snd] in *. destruct e as [p c|p|p f|p gen]; cbn [reg_apply fst snd] in E.
  - destruct (heap !! p) eqn:Hp; [done|]. destruct s' as [reg' heap'].
    apply (registry_add_spec _ _ _ c) in E as (Ec & Eg & -> & Hcap); [|by rewrite lookup_insert_eq].
    assert (Eg' : next_generation reg' = next_generation reg + 1).
    { rewrite Eg. unfold u64. rewrite Z.mod_small; lia. }
    cbn [fst snd]. rewrite Eg'. split; [|lia]. split; cbn [fst snd].
    + rewrite Ec. apply NoDup_app. split_and!; [done| |apply NoDup_singleton].
      intros q Hq ->%list_elem_of_singleton. apply Hl in Hq. rewrite Hp in Hq. by destruct Hq.
    + intros q. rewrite Ec, elem_of_app, list_elem_of_singleton, Hl, insert_insert_eq, lookup_insert_is_Some.
      destruct (decide (p = q)) as [->|]; [|naive_solver]. split; [by left|by right].
    + apply Hcap; [|done]. unfold bm_peer_registry_count in Hc. lia.
    + intros q d. rewrite insert_insert_eq, lookup_insert_Some, Eg'.
      intros [[_ <-]|[_ Hq]]; [cbn; lia|]. apply Hg in Hq. lia.
  - destruct (heap !! p) eqn:Hp; [|done]. injection E as <-.
    destruct (registry_remove_spec reg p Hn) as (Hn' & Hle & Hin & Ecap & Egen).
    cbn [fst snd]. rewrite Egen. split; [|lia]. split; cbn [fst snd].
    + done.
    + intros q. rewrite Hin, Hl, lookup_delete_is_Some. naive_solver.
    + unfold bm_peer_registry_count in *. lia.
    + intros q d [_ Hq]%lookup_delete_Some. rewrite Egen. by apply Hg in Hq.
  - destruct (heap !! p) eqn:Hp; [|done]. injection E as <-. cbn [fst]. split; [|lia].
    by eapply reg_ok_touch.
  - rewrite registry_evict_spec in E by done. destruct (heap !! p) as [c|] eqn:Hp.
    + destruct (c_generation c =? gen); cbn in E; injection E as <-; (split; [|cbn; lia]); [|done].
      by eapply reg_ok_touch.
    + cbn in E. injection E as <-. split; [done|cbn; lia].
Qed.

Lemma reg_run_ok es : forall s s',
  reg_ok s -> gen_room s (length es) -> reg_run s es = Ok s' ->
  reg_ok s' /\ next_generation s.1 <= next_generation s'.1.
Proof.
  induction es as [|e es IH]; intros s s' Hs Hr E; cbn [reg_run] in E; [injection E as <-; by split|].
  apply bind_ok_inv in E as (s1 & E1 & E). destruct (reg_apply_ok _ _ _ _ Hs Hr E1) as (H1 & H2 & H3).
  destruct (IH _ _ H1 H2 E) as [? ?]. split; [done|lia].
Qed.

(** The connection at [p] keeps its generation until it is closed. *)
Lemma reg_apply_keeps s e s' p c :
  reg_ok s -> s.2 !! p = Some c -> e <> EvClose p -> reg_apply s e = Ok s' ->
  exists c', s'.2 !! p = Some c' /\ c_generation c' = c_generation c.
Proof.
  intros Hs Hp He E. destruct s as [reg heap], s' as [reg' heap']. pose proof Hs as [_ Hl _ _]. cbn [fst snd] in *.
  destruct e as [q d|q|q f|q gen]; cbn [reg_apply fst snd] in E.
  - destruct (heap !! q) eqn:Hq; [done|]. assert (q <> p) by congruence.
    apply (registry_add_spec _ _ _ d) in E as (_ & _ & -> & _); [|by rewrite lookup_insert_eq].
    exists c. by rewrite !lookup_insert_ne.
  - destruct (heap !! q) eqn:Hq; [|done]. injection E as <- <-. assert (q <> p) by congruence.
    exists c. by rewrite lookup_delete_ne.
  - destruct (heap !! q) as [d|] eqn:Hq; [|done]. injection E as <- <-.
    destruct (decide (q = p)) as [->|]; [|exists c; by rewrite lookup_insert_ne].
    rewrite lookup_insert_eq. simplify_eq. by eexists.
  - rewrite registry_evict_spec in E by done. destruct (heap !! q) as [d|] eqn:Hq.
    + destruct (c_generation d =? gen); cbn in E; injection E as <- <-; [|by exists c].
      destruct (decide (q = p)) as [->|]; [|exists c; by rewrite lookup_insert_ne].
      rewrite lookup_insert_eq. simplify_eq. by eexists.
    + cbn in E. injection E as <- <-. by exists c.
Qed.

(** After it was closed, whatever lives at [p] is younger. *)
Definition younger (gen p : Z) (s : reg_state) : Prop :=
  forall c, s.2 !! p = Some c -> gen < c_generation c.

Lemma reg_apply_younger s e s' gen p :
  reg_ok s -> gen < next_generation s.1 -> younger gen p s \/ e = EvClose p ->
  reg_apply s e = Ok s' -> younger gen p s'.
Proof.
  intros Hs Hgen Hy E. destruct s as [reg heap], s' as [reg' heap']. pose proof Hs as [_ Hl _ _].
  unfold younger in *. cbn [fst snd] in *. intros c Hc.
  destruct e as [q d|q|q f|q g0]; cbn [reg_apply fst snd] in E.
  - destruct (heap !! q) eqn:Hq; [done|]. destruct Hy as [Hy|]; [|done].
    apply (registry_add_spec _ _ _ d) in E as (_ & _ & -> & _); [|by rewrite lookup_insert_eq].
    rewrite insert_insert_eq in Hc. apply lookup_insert_Some in Hc as [[_ <-]|[_ Hc]]; [done|by apply Hy].
  - destruct (heap !! q) eqn:Hq; [|done]. injection E as <- <-.
    apply lookup_delete_Some in Hc as [Hne Hc]. destruct Hy as [Hy|[= ->]]; [by apply Hy|done].
  - destruct Hy as [Hy|]; [|done]. destruct (heap !! q) as [d|] eqn:Hq; [|done]. injection E as <- <-.
    apply lookup_insert_Some in Hc as [[-> <-]|[_ Hc]]; [by apply (Hy d)|by apply Hy].
  - destruct Hy as [Hy|]; [|done]. rewrite registry_evict_spec in E by done.
    destruct (heap !! q) as [d|] eqn:Hq; [|cbn in E; injection E as <- <-; by apply Hy].
    destruct (c_generation d =? g0); cbn in E; injection E as <- <-; [|by apply Hy].
    apply lookup_insert_Some in Hc as [[-> <-]|[_ Hc]]; [by apply (Hy d)|by apply Hy].
Qed.

Definition closes (p : Z) (e : reg_event) : bool :=
  match e with EvClose q => q =? p | _ => false end.

Lemma closes_true p e : closes p e = true <-> e = EvClose p.
Proof. destruct e; cbn; try done. rewrite Z.eqb_eq. naive_solver. Qed.

Lemma reg_run_younger es : forall s s' gen p,
  reg_ok s -> gen_room s (length es) -> gen < next_generation s.1 -> younger gen p s ->
  reg_run s es = Ok s' -> younger gen p s'.
Proof.
  induction es as [|e es IH]; intros s s' gen p Hs Hr Hg Hy E; cbn [reg_run] in E; [by injection E as <-|].
  apply bind_ok_inv in E as (s1 & E1 & E). destruct (reg_apply_ok _ _ _ _ Hs Hr E1) as (H1 & H2 & H3).
  apply (IH s1); try done; [lia|]. eapply reg_apply_younger; [exact Hs|done|by left|exact E1].
Qed.

Lemma reg_run_history es : forall s s' p c,
  reg_ok s -> gen_room s (length es) -> s.2 !! p = Some c -> reg_run s es = Ok s' ->
  if existsb (closes p) es then younger (c_generation c) p s'
  else exists c', s'.2 !! p = Some c' /\ c_generation c' = c_generation c.
Proof.
  induction es as [|e es IH]; intros s s' p c Hs Hr Hp E; cbn [reg_run existsb] in *;
    [injection E as <-; by exists c|].
  apply bind_ok_inv in E as (s1 & E1 & E). destruct (reg_apply_ok _ _ _ _ Hs Hr E1) as (H1 & H2 & H3).
  pose proof (ro_gen _ Hs _ _ Hp) as Hg. destruct (closes p e) eqn:Hc; cbn [orb].
  - apply closes_true in Hc. apply (reg_run_younger es s1); try done; [lia|].
    eapply reg_apply_younger; [exact Hs|lia|by right|exact E1].
  - assert (He : e <> EvClose p) by (intros He%closes_true; congruence).
    destruct (reg_apply_keeps _ _ _ _ _ Hs Hp He E1) as (c1 & Hp1 & <-). by apply (IH s1).
Qed.

(** ** Properties of the registry *)

(** C38: the registry lists exactly the allocated connections, each once, within its array,
    through every history of accepts, closes and evictions; and evicting by address and
    generation is safe against reuse of the address: a thread that remembers a connection
    marks it for closing if and only if that very connection has not been closed in the
    meantime, and otherwise changes nothing, even when another connection lives there. *)
Theorem registry_evict_aba before after reg heap p c reg' heap' :
  Z.of_nat (length before + length after) < 2 ^ 63 ->
  reg_run (bm_peer_registry_init, ∅) before = Ok (reg, heap) -> heap !! p = Some c ->
  reg_run (reg, heap) after = Ok (reg', heap') ->
  NoDup (conns reg') /\ (forall q, q ∈ conns reg' <-> is_Some (heap' !! q))
  /\ bm_peer_registry_count reg' <= capacity reg'
  /\ bm_peer_registry_evict_if_current reg' heap' p (c_generation c)
     = Ok (if existsb (closes p) after then (false, heap')
           else (true, alter (fun c' => c' <| c_pending_eviction := true |>) p heap')).
Proof.
  intros Hlen E1 Hp E2.
  assert (Hr0 : gen_room (bm_peer_registry_init, ∅) (length before + length after)).
  { unfold gen_room. cbn. lia. }
  assert (E : reg_run (bm_peer_registry_init, ∅) before = Ok (reg, heap) ->
    reg_ok (reg, heap) /\ gen_room (reg, heap) (length after)).
  { clear -Hr0. revert Hr0. generalize (reg_init_ok). generalize (bm_peer_registry_init, (∅ : conn_heap)).
    induction before as [|e es IH]; intros s Hs Hr E; cbn [reg_run] in E; [by injection E as ->|].
    apply bind_ok_inv in E as (s1 & E1 & E). cbn [length] in Hr.
    destruct (reg_apply_ok _ _ _ _ Hs Hr E1) as (H1 & H2 & _). by apply (IH s1). }
  destruct (E E1) as [Hs Hr]. clear E.
  pose proof (reg_run_history after _ _ p c Hs Hr Hp E2) as Hh. cbn [snd] in Hh.
  destruct (reg_run_ok after _ _ Hs Hr E2) as [[Hn Hl Hc _] _]. cbn [fst snd] in *.
  split_and!; [done|done|done|]. rewrite registry_evict_spec by done.
  destruct (existsb (closes p) after).
  - destruct (heap' !! p) as [c'|] eqn:Hp'; [|done]. specialize (Hh c' Hp').
    destruct (Z.eqb_spec (c_generation c') (c_generation c)); [lia|done].
  - destruct Hh as (c' & Hp' & Hg). rewrite Hp', Hg, Z.eqb_refl. do 2 f_equal.
    apply map_eq. intros q. destruct (decide (q = p)) as [->|].
    + by rewrite lookup_insert_eq, lookup_alter_eq, Hp'.
    + by rewrite lookup_insert_ne, lookup_alter_ne.
Qed.

(** ** What a broadcast sends *)

(** The stem is not moved by a decision, and only its peer is given a hash in stem phase. *)
Definition same_stem (s s' : dandelion_state) : Prop :=
  stem_ip s' = stem_ip s /\ stem_port s' = stem_port s /\ has_stem s' = has_stem s.

Lemma index_ensure_stem s s' : index_ensure_capacity s = Ok s' -> same_stem s s'.
Proof.
  unfold index_ensure_capacity, index_rebuild. intros E.
  case_match; [|case_match]; [apply bind_ok_inv in E as (slots & _ & E)..|]; by apply ok_inj in E as <-.
Qed.

Lemma find_or_create_stem s h now delay i s' :
  find_or_create_entry s h now delay = Ok (i, s') -> same_stem s s'.
Proof.
  unfold find_or_create_entry. intros E. apply bind_ok_inv in E as (ex & _ & E).
  case_match; [by injection E as _ <-|]. cbv zeta in E. case_match; [done|].
  apply bind_ok_inv in E as (h32 & _ & E). apply bind_ok_inv in E as (t & _ & E).
  apply bind_ok_inv in E as (dl & _ & E). apply bind_ok_inv in E as (s1 & E3 & E).
  assert (Hs : same_stem s s1).
  { by apply index_ensure_stem in E3. }
  case_match; [by injection E as _ <-|]. apply bind_ok_inv in E as (slots & _ & E).
  injection E as _ <-. exact Hs.
Qed.

Lemma decide_stem_only s h target now delay mode s' :
  bm_dandelion_decide s h target now delay = Ok (mode, s') ->
  same_stem s s' /\ (mode = BM_PROPAGATE_STEM ->
                     has_stem s = true /\ target = Some (stem_ip s, stem_port s)).
Proof.
  unfold bm_dandelion_decide. intros E. apply bind_ok_inv in E as ([i s1] & E1 & E).
  apply find_or_create_stem in E1 as (H1 & H2 & H3). apply bind_ok_inv in E as (e & _ & E).
  destruct (_ || _ || negb (has_stem s1) || _) eqn:Eo; injection E as <- <-.
  - split; [by destruct (fluffed_at e =? 0)|done].
  - split; [done|]. rewrite !orb_false_iff in Eo. destruct Eo as [[_ Hst%negb_false_iff] _].
    destruct target as [[ip port]|]; [|done].
    destruct (Z.eqb_spec port (stem_port s1)); [|done]. destruct (list_eqb ip (stem_ip s1)) eqn:Ei; [|done].
    apply list_eqb_eq in Ei. intros _. split; congruence.
Qed.

Section BroadcastLemmas.
Context `{OSL : OpenSSLLaws} `{INP : InetNtop} (enabled : bool).
Context (clock : nat -> Z) (delay : list Z -> Z).
Abbreviation g := (bm_protocol_set_testnet enabled).

Lemma decide_all_spec hashes : forall n d conn fluff stem d',
  decide_all clock delay n d conn hashes = Ok (fluff, stem, d') ->
  same_stem d d' /\ sublist fluff hashes /\ sublist stem hashes
  /\ (length fluff + length stem <= length hashes)%nat
  /\ (stem <> [] -> has_stem d = true /\ bm_network_resolve_peer_ip_port conn 64 = (stem_ip d, stem_port d)).
Proof.
  induction hashes as [|h hashes IH]; intros n d conn fluff stem d' E; cbn [decide_all] in E.
  { injection E as <- <- <-. split_and!; try done; constructor. }
  apply bind_ok_inv in E as ([mode d1] & E1 & E). apply decide_stem_only in E1 as [(S1 & S2 & S3) Hst].
  apply bind_ok_inv in E as ([[fl st] d2] & E2 & E). apply IH in E2 as ((T1 & T2 & T3) & Hf & Hs & Hl & Hne).
  rewrite S1, S2, S3 in Hne. assert (same_stem d d2) by (unfold same_stem; split_and!; congruence).
  destruct mode; injection E as <- <- <-; (split_and!;
    [done|by constructor|by constructor|cbn [length]; lia|]); intros Hn; try (by apply Hne).
  destruct Hst as [? Ht]; [done|]. split; [done|]. by injection Ht.
Qed.

(** The frames that announce hashes under a command; none for no hashes. *)
Definition announcement (command : list Z) (hashes : list (list Z)) : list Z :=
  if (0 <? length hashes)%nat
  then packet g command (varint_bytes (Z.of_nat (length hashes)) ++ concat hashes) else [].

Lemma queue_hashes_spec conn command hashes now ok conn' :
  send_ok (c_send conn) -> Forall hash_ok hashes -> Z.of_nat (length hashes) < 2 ^ 56 ->
  queue_hashes g conn command hashes now = Ok (ok, conn') ->
  send_ok (c_send conn') /\ c_generation conn' = c_generation conn /\ c_type conn' = c_type conn
  /\ (ok = false -> c_pending_eviction conn' = true)
  /\ (ok = true -> stream_of conn' = stream_of conn ++ announcement command hashes
                   /\ c_pending_eviction conn' = c_pending_eviction conn).
Proof.
  intros Hs Hh Hl E. unfold queue_hashes, announcement in *. destruct (0 <? length hashes)%nat eqn:E0.
  - unfold bm_create_inventory_message in E. rewrite inventory_payload_eq in E by done.
    rewrite bind_ok in E. rewrite create_packet_eq in E by apply set_testnet_magic. rewrite bind_ok in E.
    apply ok_inj in E. set (pk := packet _ _ _) in *.
    assert (Lp : 0 < blen pk < 2 ^ 63).
    { unfold pk. rewrite blen_packet by apply set_testnet_magic.
      rewrite blen_app, blen_varint_bytes, blen_concat_hashes by done.
      pose proof (bm_varint_size_pos (Z.of_nat (length hashes))). lia. }
    destruct (network_send_spec conn pk now ok conn' Hs Lp E) as (H1 & Heq & H2 & H3).
    split_and!; [done|by rewrite Heq|by rewrite Heq|done|done].
  - injection E as <- <-. rewrite app_nil_r. by split_and!.
Qed.

(** One connection gets the announced hashes in an [inv] and the stem ones in a [dinv]. *)
Lemma queue_inv_spec n d conn hashes now conn' d' :
  send_ok (c_send conn) -> Forall hash_ok hashes -> Z.of_nat (length hashes) < 2 ^ 56 ->
  queue_inv_for_conn g clock delay n d conn hashes now = Ok (conn', d') ->
  send_ok (c_send conn') /\ c_generation conn' = c_generation conn /\ c_type conn' = c_type conn
  /\ same_stem d d'
  /\ exists fluff stem, sublist fluff hashes /\ sublist stem hashes
    /\ (length fluff + length stem <= length hashes)%nat
    /\ (stem <> [] -> has_stem d = true
          /\ bm_network_resolve_peer_ip_port conn 64 = (stem_ip d, stem_port d))
    /\ (c_pending_eviction conn' = false -> c_pending_eviction conn = false
        /\ stream_of conn' = stream_of conn ++ announcement (cstr "inv"%string) fluff
                             ++ announcement (cstr "dinv"%string) stem).
Proof.
  intros Hs Hh Hl E. unfold queue_inv_for_conn in E. apply bind_ok_inv in E as ([[fl st] d1] & E1 & E).
  apply decide_all_spec in E1 as (Hst & Hf & Hs1 & Hln & Hne).
  assert (Forall_sub : forall l, sublist l hashes -> Forall hash_ok l).
  { intros l Hsub. rewrite Forall_forall in *. intros x Hx. apply Hh.
    eapply elem_of_submseteq; [exact Hx|by apply sublist_submseteq]. }
  apply bind_ok_inv in E as ([ok conn1] & E1 & E).
  destruct (queue_hashes_spec _ _ _ _ _ _ Hs (Forall_sub _ Hf) ltac:(lia) E1) as (H1 & H2 & H3 & H4 & H5).
  destruct ok.
  - destruct (H5 eq_refl) as [Hw1 He1]. apply bind_ok_inv in E as ([ok2 conn2] & E2 & E).
    injection E as <- <-.
    destruct (queue_hashes_spec _ _ _ _ _ _ H1 (Forall_sub _ Hs1) ltac:(lia) E2) as (J1 & J2 & J3 & J4 & J5).
    split_and!; [done|congruence|congruence|done|]. exists fl, st. split_and!; [done..|].
    intros He. destruct ok2; [|by rewrite J4 in He]. destruct (J5 eq_refl) as [Hw2 He2].
    split; [congruence|]. by rewrite Hw2, Hw1, <- app_assoc.
  - injection E as <- <-. split_and!; [done|done|done|done|]. exists fl, st. split_and!; [done..|].
    intros He. by rewrite H4 in He.
Qed.

(** The connections that a broadcast leaves out. *)
Definition left_out (except : option Z) (p : Z) (c : bm_fd_data) : Prop :=
  Some p = except \/ c_type c = BM_FD_LISTEN_SOCKET.

(** The most that one connection has been told, under a stem. *)
Definition told_at_most (d : dandelion_state) (hashes : list (list Z)) (c c' : bm_fd_data) : Prop :=
  exists fluff stem, sublist fluff hashes /\ sublist stem hashes
    /\ (length fluff + length stem <= length hashes)%nat
    /\ (stem <> [] -> has_stem d = true
          /\ bm_network_resolve_peer_ip_port c 64 = (stem_ip d, stem_port d))
    /\ (c_pending_eviction c' = false -> c_pending_eviction c = false
        /\ stream_of c' = stream_of c ++ announcement (cstr "inv"%string) fluff
                           ++ announcement (cstr "dinv"%string) stem).

Lemma broadcast_loop_spec l : forall n except hashes now heap d heap' d',
  NoDup l -> Forall hash_ok hashes -> Z.of_nat (length hashes) < 2 ^ 56 ->
  map_Forall (fun _ c => send_ok (c_send c)) heap ->
  broadcast_loop g clock delay n l except hashes now (heap, d) = Ok (heap', d') ->
  same_stem d d' /\ map_Forall (fun _ c => send_ok (c_send c)) heap'
  /\ forall p c, heap !! p = Some c -> exists c', heap' !! p = Some c'
    /\ c_generation c' = c_generation c /\ c_type c' = c_type c
    /\ (p ∉ l \/ left_out except p c -> c' = c)
    /\ (p ∈ l -> ~ left_out except p c -> told_at_most d hashes c c').
Proof.
  induction l as [|q l IH]; intros n except hashes now heap d heap' d' Hn Hh Hl Hs E;
    cbn [broadcast_loop] in E.
  { injection E as <- <-. split; [done|]. split; [done|]. intros p c Hp. exists c. split_and!; try done.
    by intros ?%not_elem_of_nil. }
  apply NoDup_cons in Hn as [Hq Hn]. cbn [fst snd] in E.
  assert (skip : (forall c, heap !! q = Some c -> left_out except q c) ->
    broadcast_loop g clock delay n l except hashes now (heap, d) = Ok (heap', d') ->
    same_stem d d' /\ map_Forall (fun _ c => send_ok (c_send c)) heap'
    /\ forall p c, heap !! p = Some c -> exists c', heap' !! p = Some c'
      /\ c_generation c' = c_generation c /\ c_type c' = c_type c
      /\ (p ∉ q :: l \/ left_out except p c -> c' = c)
      /\ (p ∈ q :: l -> ~ left_out except p c -> told_at_most d hashes c c')).
  { intros Hlo0 E0. destruct (IH _ _ _ _ _ _ _ _ Hn Hh Hl Hs E0) as (H1 & H2 & H3). split_and!; [done|done|].
    intros p c Hp. destruct (H3 p c Hp) as (c' & Hp' & Hg & Ht & Hout & Hin). exists c'.
    split_and!; [done|done|done| |].
    + intros [Hnp|Hlo]; apply Hout; [left; set_solver|by right].
    + intros [->|Hpl]%elem_of_cons Hlo; [|by apply Hin]. by destruct Hlo; apply Hlo0. }
  destruct (bool_decide (Some q = except)) eqn:Eo1.
  { apply bool_decide_eq_true in Eo1. apply skip; [by left|done]. }
  apply bool_decide_eq_false in Eo1. apply bind_ok_inv in E as (cq & Eq & E).
  unfold deref in Eq. destruct (heap !! q) as [c0|] eqn:Hc0; [|done]. injection Eq as <-.
  destruct (bool_decide (c_type c0 = BM_FD_LISTEN_SOCKET)) eqn:Eo2.
  { apply bool_decide_eq_true in Eo2. apply skip; [|done]. intros c Hc. simplify_eq. by right. }
  apply bool_decide_eq_false in Eo2.
  - apply bind_ok_inv in E as ([c1 d1] & E1 & E).
    destruct (queue_inv_spec _ _ _ _ _ _ _ (Hs _ _ Hc0) Hh Hl E1) as (Q1 & Q2 & Q3 & Q4 & Q5).
    assert (Hs1 : map_Forall (fun _ c => send_ok (c_send c)) (<[q := c1]> heap)).
    { by apply map_Forall_insert_2. }
    destruct (IH _ _ _ _ _ _ _ _ Hn Hh Hl Hs1 E) as ((S1 & S2 & S3) & H2 & H3).
    destruct Q4 as (T1 & T2 & T3).
    split_and!; [unfold same_stem; split_and!; congruence|done|].
    intros p c Hp. destruct (decide (p = q)) as [->|Hpq].
    + simplify_eq. destruct (H3 q c1) as (c' & Hp' & Hg & Ht & Hout & _); [by rewrite lookup_insert_eq|].
      rewrite Hout in * by (by left). exists c1. split_and!; [done|done|done| |done].
      intros [Hx|[Hx|Hx]]; [set_solver|done|done].
    + destruct (H3 p c) as (c' & Hp' & Hg & Ht & Hout & Hin); [by rewrite lookup_insert_ne|].
      exists c'. split_and!; [done|done|done| |].
      * intros [Hnp|Hlo]; apply Hout; [left; set_solver|by right].
      * intros [->|Hpl]%elem_of_cons Hlo; [done|]. destruct (Hin Hpl Hlo) as (fl & st & ? & ? & ? & Hst & ?).
        exists fl, st. split_and!; try done. intros Hne. rewrite <- T1, <- T2, <- T3. by apply Hst.
Qed.

(** A broadcast of inventory hashes reaches every registered connection except the one
    it came from and the listening ones, which it leaves alone: each is sent, behind what
    was queued, at most one [inv] with hashes in their order and at most one [dinv], no hash
    in both, unless the connection is given up; and only the chosen stem peer is ever sent a
    [dinv], so no one else learns a hash in its stem phase. *)
Theorem broadcast_inv_spec es reg heap d hashes except now heap' d' :
  Z.of_nat (length es) < 2 ^ 63 ->
  reg_run (bm_peer_registry_init, ∅) es = Ok (reg, heap) ->
  map_Forall (fun _ c => send_ok (c_send c)) heap ->
  Forall hash_ok hashes -> Z.of_nat (length hashes) < 2 ^ 56 ->
  bm_peer_registry_broadcast_inv g clock delay reg heap d hashes except now = Ok (heap', d') ->
  forall p c, heap !! p = Some c ->
  exists c', heap' !! p = Some c' /\ send_ok (c_send c')
    /\ (left_out except p c \/ hashes = [] -> c' = c)
    /\ (~ left_out except p c -> hashes <> [] -> told_at_most d hashes c c').
Proof.
  intros Hlen Erun Hs Hh Hl E p c Hp.
  assert (Hr : gen_room (bm_peer_registry_init, ∅) (length es)) by (unfold gen_room; cbn; lia).
  destruct (reg_run_ok es _ _ reg_init_ok Hr Erun) as [[Hn Hlive _ _] _]. cbn [fst snd] in *.
  unfold bm_peer_registry_broadcast_inv in E. destruct hashes as [|h0 hs].
  { injection E as <- <-. exists c. split_and!; [done|by apply (Hs p)|done|done]. }
  cbn [length] in E. change (0 <? S (length hs))%nat with true in E. cbv iota in E.
  destruct (broadcast_loop_spec _ _ _ _ _ _ _ _ _ Hn Hh Hl Hs E) as (_ & Hs' & Hcs).
  destruct (Hcs p c Hp) as (c' & Hp' & _ & _ & Hout & Hin).
  exists c'. split_and!; [done|by apply (Hs' p)| |].
  - intros [?|?]; [|done]. apply Hout. by right.
  - intros Hlo _. apply Hin; [|done]. apply Hlive. by eexists.
Qed.
End BroadcastLemmas.

(** ** A stem is chosen among the candidates *)

Section PickLemmas.
Context `{INP : InetNtop}.

Lemma pick_loop_spec draw heap l : forall n chosen,
  0 <= n -> Forall (fun p => is_Some (heap !! p)) l ->
  exists r, pick_loop draw heap l n chosen = Ok r
    /\ (r = chosen \/ exists p c, p ∈ l /\ heap !! p = Some c /\ stem_candidate c = true
                        /\ r = Some (bm_network_resolve_peer_ip_port c 64))
    /\ (n = 0 -> (exists p c, p ∈ l /\ heap !! p = Some c /\ stem_candidate c = true) -> is_Some r)
    /\ (is_Some chosen -> is_Some r).
Proof.
  induction l as [|p l IH]; intros n chosen Hn Hl; cbn [pick_loop].
  { exists chosen. split_and!; [done|by left| |done]. intros _ (p & c & ?%not_elem_of_nil & _). done. }
  apply Forall_cons_1 in Hl as [[c Hp] Hl]. unfold deref. rewrite Hp. cbn_bind.
  assert (more : forall r, (exists q d, q ∈ l /\ heap !! q = Some d /\ stem_candidate d = true /\
      r = Some (bm_network_resolve_peer_ip_port d 64)) ->
    exists q d, q ∈ p :: l /\ heap !! q = Some d /\ stem_candidate d = true /\
      r = Some (bm_network_resolve_peer_ip_port d 64)).
  { intros r (q & d & Hq & ?). exists q, d. split; [by right|done]. }
  destruct (stem_candidate c) eqn:Ec.
  - destruct (IH (n + 1) (if u8 (draw (n + 1)) mod (n + 1) =? 0
      then Some (bm_network_resolve_peer_ip_port c Network.BM_PEER_IP_STRLEN) else chosen))
      as (r & -> & Hr & _ & Hs); [lia|done|]. exists r. split; [done|]. split_and!.
    + destruct Hr as [->|Hr]; [|right; by apply more].
      destruct (_ =? 0); [|by left]. right. exists p, c. split_and!; [by left|done|done|done].
    + intros -> _. apply Hs. change (0 + 1) with 1. rewrite Z.mod_1_r. by eexists.
    + intros Hc. apply Hs. destruct (_ =? 0); [by eexists|done].
  - destruct (IH n chosen Hn Hl) as (r & -> & Hr & Hz & Hs). exists r. split; [done|]. split_and!.
    + destruct Hr as [->|Hr]; [by left|right; by apply more].
    + intros Hn0 (q & d & [->|Hq]%elem_of_cons & Hd & Hcd); [congruence|]. apply Hz; [done|]. by exists q, d.
    + done.
Qed.
End PickLemmas.

(** ** Witnesses *)

Definition toy_ntop : InetNtop := {| inet_ntop4 := fun a => a; inet_ntop6 := fun a => a |}.

Section RegistryWitnesses.
#[local] Existing Instance toy_OpenSSL.
#[local] Existing Instance toy_OpenSSLLaws.
#[local] Existing Instance toy_ntop.

Definition two_conns : list reg_event := [EvAdd 100 example_conn; EvAdd 200 example_conn].
Definition two_state : reg_state :=
  match reg_run (bm_peer_registry_init, ∅) two_conns with Ok s => s | _ => (bm_peer_registry_init, ∅) end.

(** The address is reused by another connection; the old generation no longer evicts. *)
Lemma registry_evict_aba_witness :
  exists reg' heap',
    reg_run two_state [EvClose 100; EvAdd 100 example_conn] = Ok (reg', heap')
    /\ bm_peer_registry_evict_if_current reg' heap' 100 1 = Ok (false, heap').
Proof.
  destruct (reg_run two_state [EvClose 100; EvAdd 100 example_conn]) as [[reg' heap']| |] eqn:E;
    [|by vm_compute in E|by vm_compute in E].
  exists reg', heap'. split; [reflexivity|].
  destruct (registry_evict_aba two_conns [EvClose 100; EvAdd 100 example_conn] two_state.1 two_state.2 100
    (example_conn <| c_generation := 1 |>) reg' heap') as (_ & _ & _ & H).
  - cbn. lia.
  - reflexivity.
  - reflexivity.
  - exact E.
  - exact H.
Defined.

Lemma broadcast_inv_spec_witness :
  exists heap' d' c',
    bm_peer_registry_broadcast_inv (bm_protocol_set_testnet false) (fun _ => 1000) (fun _ => 5)
      two_state.1 two_state.2 bm_dandelion_module_init [replicate 32 1] (Some 100) 1000 = Ok (heap', d')
    /\ heap' !! 200 = Some c'
    /\ told_at_most false bm_dandelion_module_init [replicate 32 1] (example_conn <| c_generation := 2 |>) c'.
Proof.
  destruct (bm_peer_registry_broadcast_inv (bm_protocol_set_testnet false) (fun _ => 1000) (fun _ => 5)
      two_state.1 two_state.2 bm_dandelion_module_init [replicate 32 1] (Some 100) 1000)
    as [[heap' d']| |] eqn:E; [|by vm_compute in E|by vm_compute in E].
  destruct (broadcast_inv_spec false (fun _ => 1000) (fun _ => 5) two_conns two_state.1 two_state.2
    bm_dandelion_module_init [replicate 32 1] (Some 100) 1000 heap' d') with (p := 200)
    (c := example_conn <| c_generation := 2 |>) as (c' & Hc' & _ & _ & Ht).
  - cbn. lia.
  - reflexivity.
  - intros q c Hq.
    assert (Hc : c = example_conn <| c_generation := 1 |> \/ c = example_conn <| c_generation := 2 |>).
    { change two_state.2 with (<[200 := example_conn <| c_generation := 2 |>]> (<[200 := example_conn]>
        (<[100 := example_conn <| c_generation := 1 |>]> (<[100 := example_conn]> (∅ : conn_heap))))) in Hq.
      rewrite !insert_insert_eq, !lookup_insert_Some, lookup_empty in Hq. clear E.
      destruct Hq as [[_ <-]|[_ [[_ <-]|[_ Hq]]]]; [by right|by left|discriminate]. }
    destruct Hc as [-> | ->]; apply fresh_send_ok.
  - constructor; [|constructor]. split; [reflexivity|]. apply (bool_decide_unpack _). by vm_compute.
  - cbn. lia.
  - exact E.
  - reflexivity.
  - exists heap', d', c'. split; [reflexivity|]. split; [exact Hc'|]. apply Ht; [|done].
    intros [H|H]; discriminate.
Defined.
End RegistryWitnesses.
