(* ===== verification/EventLoop.v ===== *)
(** * The epoll thread (infra/network.c)

    Accepting, closing and sweeping connections, and one turn of [bm_network_epoll_thread],
    over the heap of connections, the registry and the peers table.  The command handler,
    the refill of uploads and the callback after a sweep are arguments, as they are in
    [struct bm_epoll_thread_args]; [W] is the state they work on. *)

From Stdlib Require Import String.
From stdpp Require Import base tactics numbers option gmap sorting list.
From S2P Require Import Prelude Varint Openssl Hash Object Sql PeerManager Protocol Dandelion Network PeerRegistry.

#[local] Arguments be_split : simpl never.

Definition BM_MAX_INBOUND_CONNECTIONS : Z := 64.
Definition BM_HANDSHAKE_TIMEOUT_SECONDS : Z := 20.
Definition BM_IDLE_PING_TIMEOUT_SECONDS : Z := 300.

(** What the thread works on: [args->registry], the connections, [args->inbound_rate_limiter]
    and [args->peers_db]. *)
Record net_state := {
  ns_reg : bm_peer_registry;
  ns_heap : conn_heap;
  ns_limiter : bm_inbound_rate_limiter;
  ns_peers : hosts
}.
#[export] Instance net_state_eta : RecordEta net_state := fun s =>
  Build_net_state (ns_reg s) (ns_heap s) (ns_limiter s) (ns_peers s).

(** ** Accepting *)

(** A connection that [accept] returns: its descriptor, the address [calloc] will give its
    [bm_fd_data], and what the system calls on it answer. *)
Record incoming := {
  in_fd : Z;
  in_ptr : Z;
  in_local : option sockaddr_storage;
  in_peer : option sockaddr_storage;
  in_answers : list send_answer;
  in_ctl : list bool
}.

(** One turn of the loop; a refused connection is closed and leaves no trace. *)
Definition accept_one (s : net_state) (i : incoming) (now clock : Z) : cres net_state :=
  '(allow, rl) ← bm_inbound_rate_limiter_allow (ns_limiter s) now;
  let s := s <| ns_limiter := rl |> in
  if negb allow then Ok s else
  inbound ← bm_peer_registry_count_by_type (ns_reg s) (ns_heap s) BM_FD_SERVER_SOCKET;
  if inbound >=? BM_MAX_INBOUND_CONNECTIONS then Ok s else
  match bm_fd_data_new BM_FD_SERVER_SOCKET (in_fd i) clock (in_local i) (in_peer i)
          (in_answers i) (in_ctl i) with
  | Ub => Ub
  | Err => Ok s
  | Ok conn =>
      let '(ok, conn) := bm_network_epoll_register conn in
      if ok : bool then
        '(reg, heap) ← bm_peer_registry_add (ns_reg s) (<[in_ptr i := conn]> (ns_heap s)) (in_ptr i);
        Ok (s <| ns_reg := reg |> <| ns_heap := heap |>)
      else Ok s
  end.

(** Until [accept] has no more; [clock] is the time at each. *)
Fixpoint bm_network_handle_accept (s : net_state) (l : list incoming) (now clock : Z) : cres net_state :=
  match l with
  | [] => Ok s
  | i :: l => s ← accept_one s i now clock; bm_network_handle_accept s l now clock
  end.

(** ** Closing *)

Section Loop.
Context `{OS : OpenSSL} `{INP : InetNtop} (g : protocol_globals) {W : Type}.
Context (handler : Z -> bm_fd_data -> bm_message -> net_state * W -> cres (bm_fd_data * (net_state * W))).
Context (refill : bm_fd_data -> Z -> W -> cres (bm_fd_data * W)).
Context (on_sweep : Z -> net_state * W -> cres (net_state * W)).

Definition close_connection (s : net_state) (p : Z) : cres net_state :=
  conn ← deref (ns_heap s) p;
  let '(ip, port) := bm_network_resolve_peer_ip_port conn Network.BM_PEER_IP_STRLEN in
  let peers := if bool_decide (c_type conn = BM_FD_CLIENT_SOCKET) && negb (blen ip =? 0)
               then bm_peer_manager_record_result (ns_peers s) ip port 1 false 0 else ns_peers s in
  Ok (s <| ns_peers := peers |> <| ns_reg := bm_peer_registry_remove (ns_reg s) p |>
        <| ns_heap := delete p (ns_heap s) |>).

(** ** Sweeping *)

Definition store (s : net_state) (p : Z) (conn : bm_fd_data) : net_state :=
  s <| ns_heap := <[p := conn]> (ns_heap s) |>.

(** The next chunk of a big inventory, when it is due and the queue is empty. *)
Definition sweep_inv (conn : bm_fd_data) (now : Z) : cres bm_fd_data :=
  match pending_inv_hashes (c_inv conn) with
  | None => Ok conn
  | Some _ =>
      d ← int64 (now - pending_inv_last_chunk_time (c_inv conn));
      if (d >=? BM_BIG_INV_CHUNK_INTERVAL_SECONDS) && (bm_network_queued_bytes conn =? 0)
      then send_inv_chunk g conn now else Ok conn
  end.

Definition run_refill (conn : bm_fd_data) (now : Z) (w : W) : cres (bm_fd_data * W) :=
  if (0 <? length (upload_pending (c_upload conn)))%nat then refill conn now w else Ok (conn, w).

Definition idle_sweep_one (now p : Z) (sw : net_state * W) : cres (net_state * W) :=
  let '(s, w) := sw in
  conn ← deref (ns_heap s) p;
  if bool_decide (c_type conn = BM_FD_LISTEN_SOCKET) then Ok (s, w) else
  if c_pending_eviction conn then s ← close_connection s p; Ok (s, w) else
  stalled ← send_stalled conn now;
  if stalled : bool then s ← close_connection s p; Ok (s, w) else
  conn ← sweep_inv conn now;
  '(conn, w) ← run_refill conn now w;
  let s := store s p conn in
  idle_seconds ← int64 (now - c_last_activity conn);
  if negb (c_handshake_complete conn) then
    if idle_seconds >? BM_HANDSHAKE_TIMEOUT_SECONDS
    then s ← close_connection s p; Ok (s, w) else Ok (s, w)
  else if idle_seconds >? BM_IDLE_PING_TIMEOUT_SECONDS then
    '(ok, conn) ← send_header_only g conn (cstr "ping"%string) now;
    Ok (store s p (if ok : bool then conn <| c_last_activity := now |> else conn), w)
  else Ok (s, w).

Definition bm_network_idle_sweep (now : Z) (sw : net_state * W) : cres (net_state * W) :=
  bm_peer_registry_for_each (ns_reg sw.1) (idle_sweep_one now) sw.

(** ** The loop *)

(** An event of [epoll_wait]: the connection, whether EPOLLOUT and whether one of EPOLLIN,
    EPOLLERR and EPOLLHUP is set, what [accept] or [read] will answer, and the time of the
    reads. *)
Record epoll_event := {
  ev_ptr : Z;
  ev_out : bool;
  ev_in : bool;
  ev_incoming : list incoming;
  ev_reads : list read_answer;
  ev_clock : Z
}.

(** The read side of an event. *)
Definition event_in (e : epoll_event) (sw : net_state * W) : cres (net_state * W) :=
  let p := ev_ptr e in
  if ev_in e then
    conn ← deref (ns_heap sw.1) p;
    '(st, conn, (s, w)) ←
      bm_network_handle_readable g (handler p) (ev_reads e) conn (ev_clock e) sw;
    let s := store s p conn in
    match st with
    | READ_OK => Ok (s, w)
    | _ => s ← close_connection s p; Ok (s, w)
    end
  else Ok sw.

Definition handle_event (now : Z) (e : epoll_event) (sw : net_state * W) : cres (net_state * W) :=
  let '(s, w) := sw in
  let p := ev_ptr e in
  conn ← deref (ns_heap s) p;
  if bool_decide (c_type conn = BM_FD_LISTEN_SOCKET) then
    s ← bm_network_handle_accept s (ev_incoming e) now (ev_clock e); Ok (s, w)
  else if ev_out e then
    let '(ok, conn) := bm_network_flush conn now in
    if ok : bool then
      '(conn, w) ← run_refill conn now w;
      event_in e (store s p conn, w)
    else s ← close_connection (store s p conn) p; Ok (s, w)
  else event_in e (s, w).

Fixpoint handle_events (now : Z) (es : list epoll_event) (sw : net_state * W) : cres (net_state * W) :=
  match es with
  | [] => Ok sw
  | e :: es => sw ← handle_event now e sw; handle_events now es sw
  end.

(** One turn of [bm_network_epoll_thread] after [epoll_wait] has returned [es]. *)
Definition epoll_turn (now : Z) (es : list epoll_event) (sw : net_state * W) : cres (net_state * W) :=
  sw ← handle_events now es sw;
  sw ← bm_network_idle_sweep now sw;
  on_sweep now sw.
End Loop.

(** ** A sweep closes exactly the dead connections *)

Lemma network_send_frame conn data now :
  let c := (bm_network_send conn data now).2 in
  c = conn <| c_send := c_send c |> <| c_pending_eviction := c_pending_eviction c |>.
Proof.
  unfold bm_network_send. destruct (_ =? 0); [by destruct conn|].
  destruct (_ >? _); [by destruct conn|]. destruct (flush_locked _ now) as [[] s]; by destruct conn.
Qed.

(** The fields that decide whether a connection is dead, and their times. *)
Definition sweep_ok (c : bm_fd_data) : Prop :=
  time_ok (c_last_activity c) /\ time_ok (last_write_progress (c_send c))
  /\ time_ok (pending_inv_last_chunk_time (c_inv c))
  /\ match pending_inv_hashes (c_inv c) with Some hs => Forall hash_ok hs | None => True end.

Definition stalled (now : Z) (c : bm_fd_data) : bool :=
  (0 <? send_queued_bytes (c_send c)) && (120 <? now - last_write_progress (c_send c)).
Definition dead (now : Z) (c : bm_fd_data) : bool :=
  negb (bool_decide (c_type c = BM_FD_LISTEN_SOCKET))
  && (c_pending_eviction c || stalled now c
      || negb (c_handshake_complete c) && (20 <? now - c_last_activity c)).

(** What sweeping leaves as it is. *)
Definition same_life (c c' : bm_fd_data) : Prop :=
  c_type c' = c_type c /\ c_handshake_complete c' = c_handshake_complete c
  /\ c_last_activity c' = c_last_activity c /\ c_generation c' = c_generation c
  /\ c_recv c' = c_recv c.

Lemma same_life_send conn data now : same_life conn (bm_network_send conn data now).2.
Proof. rewrite network_send_frame. done. Qed.

Lemma same_life_trans a b c : same_life a b -> same_life b c -> same_life a c.
Proof. unfold same_life. intuition congruence. Qed.

Section SweepLemmas.
Context `{OSL : OpenSSLLaws} `{INP : InetNtop} (enabled : bool) {W : Type}.
Abbreviation g := (bm_protocol_set_testnet enabled).
Context (refill : bm_fd_data -> Z -> W -> cres (bm_fd_data * W)).
Hypothesis refill_ok : forall conn now w,
  exists conn' w', refill conn now w = Ok (conn', w') /\ same_life conn conn'.

Lemma send_inv_chunk_total conn now hs :
  pending_inv_hashes (c_inv conn) = Some hs -> Forall hash_ok hs ->
  exists conn', send_inv_chunk g conn now = Ok conn' /\ same_life conn conn'.
Proof.
  intros Hp Hh. unfold send_inv_chunk. rewrite Hp. set (part := take _ _).
  rewrite inv_message_eq by (by apply Forall_take, Forall_drop). cbn_bind.
  set (conn1 := conn <| c_inv := _ |>).
  pose proof (same_life_send conn1 (inv_packet enabled part) now) as Hl.
  destruct (bm_network_send conn1 (inv_packet enabled part) now) as [ok conn2]. cbn [snd] in Hl.
  destruct ok; eexists; (split; [reflexivity|exact Hl]).
Qed.

Lemma sweep_inv_total conn now :
  time_ok now -> sweep_ok conn -> exists conn', sweep_inv g conn now = Ok conn' /\ same_life conn conn'.
Proof.
  intros Hn (_ & _ & Ht & Hh). unfold sweep_inv. destruct (pending_inv_hashes (c_inv conn)) as [hs|] eqn:Hp;
    [|by exists conn]. unfold time_ok in *. rewrite int64_ok by lia. cbn_bind.
  destruct (_ && _); [by eapply send_inv_chunk_total|by exists conn].
Qed.

Lemma run_refill_total conn now w :
  exists conn' w', run_refill refill conn now w = Ok (conn', w') /\ same_life conn conn'.
Proof.
  unfold run_refill. destruct (0 <? _)%nat; [apply refill_ok|by exists conn, w].
Qed.

Lemma close_connection_spec s p c :
  ns_heap s !! p = Some c ->
  exists s', close_connection s p = Ok s' /\ ns_heap s' = delete p (ns_heap s)
    /\ ns_reg s' = bm_peer_registry_remove (ns_reg s) p /\ ns_limiter s' = ns_limiter s.
Proof.
  intros Hp. unfold close_connection, deref. rewrite Hp. cbn_bind.
  destruct (bm_network_resolve_peer_ip_port c _). eexists. by split_and!.
Qed.

Lemma idle_sweep_one_spec now p s w c :
  time_ok now -> ns_heap s !! p = Some c -> sweep_ok c ->
  exists s' w', idle_sweep_one g refill now p (s, w) = Ok (s', w') /\ ns_limiter s' = ns_limiter s
    /\ (forall q, q <> p -> ns_heap s' !! q = ns_heap s !! q)
    /\ (if dead now c
        then ns_heap s' !! p = None /\ ns_reg s' = bm_peer_registry_remove (ns_reg s) p
        else (exists c', ns_heap s' !! p = Some c' /\ c_type c' = c_type c
                /\ c_handshake_complete c' = c_handshake_complete c)
             /\ ns_reg s' = ns_reg s).
Proof.
  intros Hn Hp Hok. pose proof Hok as (Ha & Hw & _ & _). unfold idle_sweep_one, deref. rewrite Hp. cbn_bind.
  unfold dead. destruct (bool_decide (c_type c = BM_FD_LISTEN_SOCKET)); cbn [negb andb].
  { exists s, w. split_and!; try done. by exists c. }
  assert (closed : forall s1 (w1 : W), ns_heap s1 !! p <> None -> ns_limiter s1 = ns_limiter s ->
    ns_reg s1 = ns_reg s -> (forall q, q <> p -> ns_heap s1 !! q = ns_heap s !! q) ->
    exists s' w', (s ← close_connection s1 p; Ok (s, w1)) = Ok (s', w') /\ ns_limiter s' = ns_limiter s
      /\ (forall q, q <> p -> ns_heap s' !! q = ns_heap s !! q)
      /\ ns_heap s' !! p = None /\ ns_reg s' = bm_peer_registry_remove (ns_reg s) p).
  { intros s1 w1 Hp1 Hl1 Hr1 Hq1. destruct (ns_heap s1 !! p) as [c1|] eqn:E1; [|done].
    destruct (close_connection_spec s1 p c1 E1) as (s2 & -> & Hh & Hr & Hl). exists s2, w1. split; [done|].
    rewrite Hh, Hr, Hl, Hr1. split_and!; [done| |apply lookup_delete_eq|done].
    intros q Hq. rewrite lookup_delete_ne by done. by apply Hq1. }
  destruct (c_pending_eviction c); cbn [orb]; [apply closed; congruence|].
  unfold send_stalled. unfold time_ok in *. rewrite int64_ok by lia. cbn_bind.
  unfold BM_SEND_STALL_TIMEOUT_SECONDS, BM_HANDSHAKE_TIMEOUT_SECONDS, BM_IDLE_PING_TIMEOUT_SECONDS.
  unfold stalled. destruct (_ && (120 <? _)); cbn [orb]; [apply closed; congruence|].
  destruct (sweep_inv_total c now Hn Hok) as (c1 & -> & L1). cbn_bind.
  destruct (run_refill_total c1 now w) as (c2 & w2 & -> & L2). cbn_bind.
  pose proof (same_life_trans _ _ _ L1 L2) as (Ht & Hhs & Hla & _).
  rewrite Hla, Hhs, int64_ok by lia. cbn_bind.
  assert (kept : forall c', c_type c' = c_type c2 -> c_handshake_complete c' = c_handshake_complete c2 ->
    ns_limiter (store s p c') = ns_limiter s
    /\ (forall q, q <> p -> ns_heap (store s p c') !! q = ns_heap s !! q)
    /\ (exists c'', ns_heap (store s p c') !! p = Some c'' /\ c_type c'' = c_type c
          /\ c_handshake_complete c'' = c_handshake_complete c) /\ ns_reg (store s p c') = ns_reg s).
  { intros c' Ht' Hh'. split_and!; [done| | |done].
    - intros q Hq. cbn. by rewrite lookup_insert_ne.
    - exists c'. cbn. rewrite lookup_insert_eq. split_and!; congruence. }
  destruct (c_handshake_complete c); cbn [negb andb].
  - destruct (_ >? 300).
    + unfold send_header_only. rewrite create_packet_eq by apply set_testnet_magic. cbn_bind.
      pose proof (same_life_send c2 (packet g (cstr "ping"%string) []) now) as (T3 & H3 & _).
      destruct (bm_network_send c2 _ now) as [ok c3]. cbn [snd] in *. cbn_bind.
      eexists _, _. split; [reflexivity|].
      change (store (store s p c2) p ?x) with (s <| ns_heap := <[p := x]> (<[p := c2]> (ns_heap s)) |>).
      rewrite insert_insert_eq. apply kept; destruct ok; done.
    + eexists _, _. split; [reflexivity|]. by apply kept.
  - destruct (Z.gtb_spec (now - c_last_activity c) 20), (Z.ltb_spec 20 (now - c_last_activity c)); try lia.
    + apply closed; try done.
      * cbn. by rewrite lookup_insert_eq.
      * intros q Hq. cbn. by rewrite lookup_insert_ne.
    + eexists _, _. split; [reflexivity|]. by apply kept.
Qed.

Lemma sweep_fold now l : forall s w,
  time_ok now -> NoDup l -> NoDup (conns (ns_reg s)) ->
  (forall p, p ∈ l -> exists c, ns_heap s !! p = Some c /\ sweep_ok c) ->
  exists s' w', fold_conns (idle_sweep_one g refill now) l (s, w) = Ok (s', w')
    /\ ns_limiter s' = ns_limiter s /\ NoDup (conns (ns_reg s'))
    /\ (forall q, q ∉ l -> ns_heap s' !! q = ns_heap s !! q)
    /\ (forall p c, p ∈ l -> ns_heap s !! p = Some c ->
          if dead now c then ns_heap s' !! p = None
          else exists c', ns_heap s' !! p = Some c' /\ c_type c' = c_type c
                 /\ c_handshake_complete c' = c_handshake_complete c)
    /\ (forall q, q ∈ conns (ns_reg s') <-> q ∈ conns (ns_reg s)
          /\ ~ (q ∈ l /\ exists c, ns_heap s !! q = Some c /\ dead now c = true)).
Proof.
  induction l as [|p l IH]; intros s w Hn Hnd Hreg Hl; cbn [fold_conns].
  { exists s, w. split_and!; try done; [by intros ? ? ?%not_elem_of_nil|]. intros q.
    split; [|tauto]. intros Hq. split; [done|]. by intros [?%not_elem_of_nil _]. }
  apply NoDup_cons in Hnd as [Hpl Hnd]. destruct (Hl p) as (c & Hp & Hok); [by left|].
  destruct (idle_sweep_one_spec now p s w c Hn Hp Hok) as (s1 & w1 & -> & L1 & Hq1 & Hd1). cbn_bind.
  assert (Hreg1 : NoDup (conns (ns_reg s1)) /\ forall q, q ∈ conns (ns_reg s1) <->
    q ∈ conns (ns_reg s) /\ (dead now c = true -> q <> p)).
  { destruct (dead now c); destruct Hd1 as [_ ->].
    - destruct (registry_remove_spec (ns_reg s) p Hreg) as (? & _ & Hin & _). split; [done|].
      intros q. rewrite Hin. tauto.
    - split; [done|]. intros q. split; [done|tauto]. }
  destruct Hreg1 as [Hreg1 Hin1].
  destruct (IH s1 w1 Hn Hnd Hreg1) as (s2 & w2 & -> & L2 & Hreg2 & Hq2 & Hd2 & Hin2).
  { intros q Hq. rewrite Hq1 by (intros ->; done). apply Hl. by right. }
  exists s2, w2. split_and!; [done|congruence|done| | |].
  - intros q [Hqp Hql]%not_elem_of_cons. by rewrite Hq2, Hq1.
  - intros q d [->|Hq]%elem_of_cons Hd.
    + assert (d = c) as -> by congruence. rewrite Hq2 by done. destruct (dead now c); tauto.
    + apply Hd2; [done|]. rewrite Hq1; [done|]. by intros ->.
  - intros q. rewrite Hin2, Hin1, elem_of_cons. split.
    + intros [[Hc Hdp] Hnot]. split; [done|]. intros [[->|Hq] (d & Hd & Hdd)].
      * assert (d = c) as -> by congruence. by apply Hdp.
      * apply Hnot. split; [done|]. exists d. rewrite Hq1 by (by intros ->). done.
    + intros [Hc Hnot]. split_and!; [done| |].
      * intros Hdd ->. apply Hnot. split; [by left|]. by exists c.
      * intros [Hq (d & Hd & Hdd)]. apply Hnot. split; [by right|]. exists d.
        rewrite Hq1 in Hd by (by intros ->). done.
Qed.

(** One sweep of the epoll thread always completes, without touching a connection it has
    freed, and closes exactly the dead ones: marked for eviction, not one byte sent of a
    non-empty queue for 120 seconds, or no handshake after 20 seconds of silence.  Every
    other connection stays allocated and registered with its state of the handshake, and no
    connection outside the registry is touched. *)
Theorem idle_sweep_closes_dead s w now :
  time_ok now -> NoDup (conns (ns_reg s)) ->
  (forall p, p ∈ conns (ns_reg s) -> exists c, ns_heap s !! p = Some c /\ sweep_ok c) ->
  exists s' w', bm_network_idle_sweep g refill now (s, w) = Ok (s', w')
    /\ (forall p c, ns_heap s !! p = Some c -> p ∈ conns (ns_reg s) ->
          if dead now c then ns_heap s' !! p = None /\ ~ (p ∈ conns (ns_reg s'))
          else p ∈ conns (ns_reg s')
               /\ exists c', ns_heap s' !! p = Some c' /\ c_type c' = c_type c
                    /\ c_handshake_complete c' = c_handshake_complete c)
    /\ (forall p, p ∉ conns (ns_reg s) ->
          ns_heap s' !! p = ns_heap s !! p /\ ~ (p ∈ conns (ns_reg s'))).
Proof.
  intros Hn Hnd Hl. unfold bm_network_idle_sweep, bm_peer_registry_for_each. cbn [fst].
  destruct (sweep_fold now (conns (ns_reg s)) s w Hn Hnd Hnd Hl)
    as (s' & w' & E & _ & _ & Hq & Hd & Hin). exists s', w'. split_and!; [done| |].
  - intros p c Hp Hpc. specialize (Hd p c Hpc Hp). destruct (dead now c) eqn:Edead.
    + split; [done|]. rewrite Hin. intros [_ Hnot]. apply Hnot. split; [done|]. by exists c.
    + split; [|done]. apply Hin. split; [done|]. intros [_ (d & Hd' & Hdd)].
      assert (d = c) as -> by congruence. congruence.
  - intros p Hp. split; [by apply Hq|rewrite Hin; tauto].
Qed.
End SweepLemmas.

(** ** At most 64 inbound connections *)

Lemma count_types_insert heap type l p c :
  p ∉ l -> count_types (<[p := c]> heap) type l = count_types heap type l.
Proof.
  induction l as [|q l IH]; intros Hp; cbn [count_types]; [done|].
  apply not_elem_of_cons in Hp as [Hq Hp]. unfold deref. rewrite lookup_insert_ne by done.
  destruct (heap !! q); [|done]. cbn_bind. by rewrite IH.
Qed.

Lemma count_types_snoc heap type l p c :
  heap !! p = Some c -> count_types heap type (l ++ [p])
  = (n ← count_types heap type l; Ok (if bool_decide (c_type c = type) then n + 1 else n)).
Proof.
  intros Hp. induction l as [|q l IH]; cbn [app count_types].
  - unfold deref. rewrite Hp. by cbn_bind.
  - unfold deref in *. destruct (heap !! q) as [d|]; [|done]. cbn_bind. rewrite IH.
    destruct (count_types heap type l) as [n| |]; [|done|done]. cbn_bind. do 2 case_bool_decide; f_equal; lia.
Qed.

Definition inbound_ok (s : net_state) : Prop :=
  exists n, bm_peer_registry_count_by_type (ns_reg s) (ns_heap s) BM_FD_SERVER_SOCKET = Ok n
    /\ n <= BM_MAX_INBOUND_CONNECTIONS.

Lemma accept_one_inbound s i now clock s' :
  inbound_ok s -> in_ptr i ∉ conns (ns_reg s) -> accept_one s i now clock = Ok s' ->
  inbound_ok s' /\ (forall q, q ∈ conns (ns_reg s') -> q ∈ conns (ns_reg s) \/ q = in_ptr i).
Proof.
  intros (n & Hn & Hle) Hp E. unfold accept_one in E. apply bind_ok_inv in E as ([allow rl] & _ & E).
  assert (same : inbound_ok (s <| ns_limiter := rl |>)) by (by exists n).
  destruct allow; cbn [negb] in E; [|injection E as <-; by split; [|left]].
  cbn [update_field ns_reg ns_heap] in E. rewrite Hn in E. rewrite bind_ok in E.
  destruct (Z.geb_spec n BM_MAX_INBOUND_CONNECTIONS); [injection E as <-; by split; [|left]|].
  destruct (bm_fd_data_new _ _ _ _ _ _ _) as [conn| |] eqn:En; [|injection E as <-; by split; [|left]|done].
  destruct (bm_network_epoll_register conn) as [[] conn1] eqn:Er;
    [|injection E as <-; by split; [|left]].
  assert (Ht : c_type conn1 = BM_FD_SERVER_SOCKET).
  { assert (c_type conn = BM_FD_SERVER_SOCKET).
    { unfold bm_fd_data_new in En. repeat case_match; by simplify_eq. }
    unfold bm_network_epoll_register in Er. destruct (epoll_ctl _) as [[] ?]; inversion Er; subst; done. }
  apply bind_ok_inv in E as ([reg heap] & E1 & E). injection E as <-.
  apply (registry_add_spec _ _ _ conn1) in E1 as (Ec & _ & -> & _); [|apply lookup_insert_eq].
  unfold inbound_ok, bm_peer_registry_count_by_type. cbn [update_field ns_reg ns_heap].
  rewrite Ec, insert_insert_eq. split.
  - exists (n + 1). split; [|lia].
    rewrite (count_types_snoc _ _ _ _ (conn1 <| c_generation := next_generation (ns_reg s) |>))
      by apply lookup_insert_eq.
    rewrite count_types_insert by done. unfold bm_peer_registry_count_by_type in Hn. rewrite Hn. cbn_bind.
    cbn [update_field c_type]. rewrite Ht. done.
  - intros q Hq. rewrite elem_of_app, list_elem_of_singleton in Hq. done.
Qed.

(** However many connections a peer or a crowd opens, the node never serves more than
    64 inbound ones at a time. *)
Theorem handle_accept_inbound_bounded l : forall s now clock s',
  inbound_ok s -> NoDup (map in_ptr l) -> (forall i, i ∈ l -> in_ptr i ∉ conns (ns_reg s)) ->
  bm_network_handle_accept s l now clock = Ok s' ->
  exists n, bm_peer_registry_count_by_type (ns_reg s') (ns_heap s') BM_FD_SERVER_SOCKET = Ok n /\ n <= 64.
Proof.
  induction l as [|i l IH]; intros s now clock s' Hs Hnd Hf E; cbn [bm_network_handle_accept] in E.
  { injection E as <-. exact Hs. }
  apply bind_ok_inv in E as (s1 & E1 & E). cbn [map] in Hnd. apply NoDup_cons in Hnd as [Hi Hnd].
  destruct (accept_one_inbound s i now clock s1 Hs) as [H1 H2]; [apply Hf; by left|done|].
  apply (IH s1 now clock); try done. intros j Hj Hin. apply H2 in Hin as [Hin|Heq].
  - by apply (Hf j); [right|].
  - apply Hi. rewrite <- Heq. apply list_elem_of_fmap. by exists j.
Qed.

(** ** Witnesses *)

Section LoopWitnesses.
#[local] Existing Instance toy_OpenSSL.
#[local] Existing Instance toy_OpenSSLLaws.
#[local] Existing Instance toy_ntop.

Definition no_refill (c : bm_fd_data) (now : Z) (w : unit) : cres (bm_fd_data * unit) := Ok (c, w).

Definition example_net : net_state :=
  {| ns_reg := two_state.1; ns_heap := two_state.2; ns_limiter := bm_inbound_rate_limiter_init;
     ns_peers := bm_peer_manager_init_schema |}.

Lemma idle_sweep_closes_dead_witness :
  exists s' w', bm_network_idle_sweep (bm_protocol_set_testnet false) no_refill 1021 (example_net, tt)
      = Ok (s', w') /\ ns_heap s' !! 100 = None.
Proof.
  destruct (idle_sweep_closes_dead false no_refill) with (s := example_net) (w := tt) (now := 1021)
    as (s' & w' & E & Hd & _).
  - intros conn now w. exists conn, w. by split.
  - unfold time_ok. lia.
  - apply (bool_decide_unpack _). by vm_compute.
  - intros p Hp. change (p ∈ [100; 200]) in Hp. rewrite !elem_of_cons in Hp.
    destruct Hp as [->|[->|Hp%not_elem_of_nil]]; [| |done].
    + exists (example_conn <| c_generation := 1 |>). split; [reflexivity|].
      unfold sweep_ok, time_ok; split_and!; cbn [update_field c_last_activity]; by vm_compute.
    + exists (example_conn <| c_generation := 2 |>). split; [reflexivity|].
      unfold sweep_ok, time_ok; split_and!; cbn [update_field c_last_activity]; by vm_compute.
  - exists s', w'. split; [exact E|].
    destruct (Hd 100 (example_conn <| c_generation := 1 |>)) as [H _]; [reflexivity| |exact H].
    change (100 ∈ [100; 200]). by left.
Defined.

Definition visitor : incoming :=
  {| in_fd := 9; in_ptr := 300; in_local := Some AF_OTHER; in_peer := Some AF_OTHER;
     in_answers := []; in_ctl := [] |}.

Lemma handle_accept_inbound_bounded_witness :
  exists s' n, bm_network_handle_accept example_net [visitor] 1000 1000 = Ok s'
    /\ bm_peer_registry_count_by_type (ns_reg s') (ns_heap s') BM_FD_SERVER_SOCKET = Ok n /\ n <= 64.
Proof.
  destruct (bm_network_handle_accept example_net [visitor] 1000 1000) as [s'| |] eqn:E;
    [|by vm_compute in E|by vm_compute in E].
  destruct (handle_accept_inbound_bounded [visitor] example_net 1000 1000 s') as (n & Hn & Hle).
  - exists 0. split; [reflexivity|done].
  - apply NoDup_singleton.
  - intros i ->%list_elem_of_singleton. apply (bool_decide_unpack _). by vm_compute.
  - exact E.
  - exists s', n. split; [reflexivity|]. split; [exact Hn|exact Hle].
Defined.
End LoopWitnesses.
