(* ===== verification/PeerConnector.v ===== *)
(** * Outbound connections (infra/peer_connector.c)

    The SOCKS5 handshake, the choice of a candidate, and the loop that opens connections up to
    the limit.  The kernel is the environment: the answers of the calls on a new socket are
    lists, random words and times are arguments.  The epoll thread runs at the same time: what it
    does between two steps of this thread is an argument too. *)

From Stdlib Require Import String SpecFloat.
From stdpp Require Import base tactics numbers option gmap sorting list.
From S2P Require Import Prelude Varint Openssl Hash Object Sql Json PeerManager Protocol Dandelion Network PeerRegistry EventLoop.
From S2P Require Import Config TorControl.

#[local] Arguments be_split : simpl never.

Import ConfigStore.

Definition MAX_CANDIDATES : Z := 256.

(** ** Connecting *)

(** The same loop over the addresses of [getaddrinfo] as in tor_control.c. *)
Definition connect_with_timeout (addresses : option (list connect_attempt)) : Z * list Z :=
  match addresses with None => (-1, []) | Some l => connect_loop l [] end.

(** What a call of [recv] gives: bytes (none at the end of the stream), EAGAIN with the answer of
    the [select] that follows, or another error; and of [send]: how much it takes. *)
Inductive recv_answer := RECEIVED (bytes : list Z) | RECV_AGAIN (ready : bool) | RECV_FAILED.
Inductive sent_answer := TAKEN (n : Z) | SEND_AGAIN (ready : bool) | SEND_FAILED.

Record proxy_socket := {
  px_in : list recv_answer;
  px_out : list sent_answer;
  px_sent : list Z
}.
#[export] Instance proxy_socket_eta : RecordEta proxy_socket := fun r =>
  {| px_in := px_in r; px_out := px_out r; px_sent := px_sent r |}.

Fixpoint socks5_send_loop (answers : list sent_answer) (data : list Z) (sent : list Z)
  : bool * list sent_answer * list Z :=
  match data with
  | [] => (true, answers, sent)
  | _ =>
      match answers with
      | TAKEN n :: answers =>
          if 0 <? n then socks5_send_loop answers (drop (Z.to_nat n) data) (sent ++ take (Z.to_nat n) data)
          else (false, answers, sent)
      | SEND_AGAIN true :: answers => socks5_send_loop answers data sent
      | SEND_AGAIN false :: answers | SEND_FAILED :: answers => (false, answers, sent)
      | [] => (false, [], sent)
      end
  end.

Definition socks5_send_all (data : list Z) (s : proxy_socket) : bool * proxy_socket :=
  let '(ok, answers, sent) := socks5_send_loop (px_out s) data (px_sent s) in
  (ok, s <| px_out := answers |> <| px_sent := sent |>).

(** [got]: what is in the buffer; [need]: the bytes missing. *)
Fixpoint socks5_recv_loop (answers : list recv_answer) (got : list Z) (need : Z)
  : bool * list Z * list recv_answer :=
  if need <=? 0 then (true, got, answers) else
  match answers with
  | RECEIVED [] :: answers => (false, got, answers)
  | RECEIVED bytes :: answers =>
      if blen bytes <=? need then socks5_recv_loop answers (got ++ bytes) (need - blen bytes)
      else (true, got ++ take (Z.to_nat need) bytes, RECEIVED (drop (Z.to_nat need) bytes) :: answers)
  | RECV_AGAIN true :: answers => socks5_recv_loop answers got need
  | RECV_AGAIN false :: answers | RECV_FAILED :: answers => (false, got, answers)
  | [] => (false, got, [])
  end.

(** [socks5_recv_all(sock, buf, len)] into an array of [size] bytes, which must hold all that
    arrives. *)
Definition socks5_recv_all (size len : Z) (s : proxy_socket) : cres (bool * list Z * proxy_socket) :=
  let '(ok, got, answers) := socks5_recv_loop (px_in s) [] len in
  if size <? blen got then Ub else Ok (ok, got, s <| px_in := answers |>).

Definition SOCKS5_DISCARD_SIZE : Z := 256.

(** The length of BND.ADDR: fixed by the type, or in the next byte. *)
Definition bnd_addr_len (atyp : Z) (s : proxy_socket) : cres (option Z * proxy_socket) :=
  if atyp =? 1 then Ok (Some 4, s)
  else if atyp =? 4 then Ok (Some 16, s)
  else if atyp =? 3 then
    '(ok, len_byte, s) ← socks5_recv_all 1 1 s;
    if ok : bool then n ← rd len_byte 0; Ok (Some n, s) else Ok (None, s)
  else Ok (None, s).

Definition socks5_request (dest_host : list Z) (dest_port : Z) : list Z :=
  [5; 1; 0; 3; u8 (blen dest_host)] ++ dest_host
  ++ [Z.land (Z.shiftr dest_port 8) 255; Z.land dest_port 255].

(** The reply to CONNECT; [true] when it grants the connection. *)
Definition socks5_reply (s : proxy_socket) : cres (bool * proxy_socket) :=
  '(ok, reply_head, s) ← socks5_recv_all 4 4 s;
  if negb ok then Ok (false, s) else
  ver ← rd reply_head 0;
  rep ← rd reply_head 1;
  if negb ((ver =? 5) && (rep =? 0)) then Ok (false, s) else
  atyp ← rd reply_head 3;
  '(len, s) ← bnd_addr_len atyp s;
  match len with
  | None => Ok (false, s)
  | Some len =>
      '(ok, _, s) ← socks5_recv_all SOCKS5_DISCARD_SIZE (len + 2) s;
      Ok (ok, s)
  end.

(** [true] when the function returns 0. *)
Definition socks5_connect (dest_host : list Z) (dest_port : Z) (s : proxy_socket)
  : cres (bool * proxy_socket) :=
  if (blen dest_host =? 0) || (255 <? blen dest_host) then Ok (false, s) else
  let '(ok, s) := socks5_send_all [5; 1; 0] s in
  if negb ok then Ok (false, s) else
  '(ok, method_resp, s) ← socks5_recv_all 2 2 s;
  if negb ok then Ok (false, s) else
  ver ← rd method_resp 0;
  method ← rd method_resp 1;
  if negb ((ver =? 5) && (method =? 0)) then Ok (false, s) else
  let '(ok, s) := socks5_send_all (socks5_request dest_host dest_port) s in
  if negb ok then Ok (false, s) else socks5_reply s.

(** Ends with ".onion" and has something before. *)
Definition is_onion_host (host : list Z) : bool :=
  (6 <? blen host) && list_eqb (drop (length host - 6) host) (cstr ".onion"%string).

(** [resolve]: [getaddrinfo]; [proxy]: the conversation with the proxy.  The descriptor or -1,
    and the descriptors closed. *)
Definition open_peer_connection (ip : list Z) (port : Z) (socks_proxy : bm_socks_proxy_config)
  (resolve : list Z -> Z -> option (list connect_attempt)) (proxy : proxy_socket)
  : cres (Z * list Z * proxy_socket) :=
  if negb (sp_enabled socks_proxy =? 0) then
    let '(sock, closed) := connect_with_timeout (resolve (sp_host socks_proxy) (sp_port socks_proxy)) in
    if sock <? 0 then Ok (-1, closed, proxy) else
    '(ok, proxy) ← socks5_connect ip port proxy;
    if ok : bool then Ok (sock, closed, proxy) else Ok (-1, closed ++ [sock], proxy)
  else
    let '(sock, closed) := connect_with_timeout (resolve ip port) in Ok (sock, closed, proxy).

(** ** Choosing a candidate *)

Definition CHOOSE_CANDIDATE_MAX_ATTEMPTS : nat := 50.
(** 0.05 *)
Definition CHOOSE_CANDIDATE_BASE_PROB : spec_float := S754_finite false 7205759403792794 (-57).
Definition BM_PEER_LOW_RATING_COOLDOWN_SECONDS : Z := 1800.

Definition double_of_Z (z : Z) : spec_float := binary_normalize 53 1024 z 0 false.
Definition double_div : spec_float -> spec_float -> spec_float := SFdiv 53 1024.

(** [r]: the random word. *)
Definition uniform_random (r : Z) : spec_float := double_div (double_of_Z r) (double_of_Z (2 ^ 32)).

Section Connector.
Context `{OS : OpenSSL} `{INP : InetNtop} (g : protocol_globals).

(** [draws]: the random words of each attempt, for the index and for the decision. *)
Fixpoint choose_loop (n : nat) (attempt : nat) (candidates : list bm_peer_entry)
  (reg : bm_peer_registry) (heap : conn_heap) (draws : nat -> Z * Z) (now : Z) : cres (option nat) :=
  match n with
  | O => Ok None
  | S n =>
      let idx := Z.to_nat (fst (draws attempt) mod Z.of_nat (length candidates)) in
      match candidates !! idx with
      | None => Ub
      | Some c =>
          connected ← bm_peer_registry_has_peer reg heap (pe_ip_address c) (pe_port c);
          if connected : bool then choose_loop n (S attempt) candidates reg heap draws now else
          cooling ← (if SFltb (pe_rating c) ZERO then
                       since ← int64 (now - pe_last_attempt c);
                       Ok (since <? BM_PEER_LOW_RATING_COOLDOWN_SECONDS)
                     else Ok false);
          if cooling : bool then choose_loop n (S attempt) candidates reg heap draws now else
          if SFleb ONE (pe_rating c) then Ok (Some idx) else
          let prob := double_div CHOOSE_CANDIDATE_BASE_PROB (double_sub ONE (pe_rating c)) in
          if SFltb (uniform_random (snd (draws attempt))) prob then Ok (Some idx)
          else choose_loop n (S attempt) candidates reg heap draws now
      end
  end.

Definition bm_peer_connector_choose_candidate_index (candidates : list bm_peer_entry)
  (reg : bm_peer_registry) (heap : conn_heap) (max_attempts : nat) (draws : nat -> Z * Z) (now : Z)
  : cres (option nat) :=
  if (length candidates =? 0)%nat then Ok None
  else choose_loop max_attempts 0 candidates reg heap draws now.

(** ** One round of connecting *)

(** What one turn of the loop meets: the stop flag, the time, the random words, the network, the
    address of the new [bm_fd_data] and the calls on its socket, the nonce and the times of the
    version message; [tn_registered] and [tn_greeted] are what the epoll thread does after the
    connection has been registered with epoll, and after its version message has been sent. *)
Record turn_env := {
  tn_stop : bool;
  tn_now : Z;
  tn_draws : nat -> Z * Z;
  tn_resolve : list Z -> Z -> option (list connect_attempt);
  tn_proxy : proxy_socket;
  tn_ptr : Z;
  tn_local : option sockaddr_storage;
  tn_peer : option sockaddr_storage;
  tn_answers : list send_answer;
  tn_ctl : list bool;
  tn_clock : Z;
  tn_nonce : option Z;
  tn_registered : net_state -> cres net_state;
  tn_greeted : net_state -> cres net_state
}.

Record connector_config := {
  cc_max_outbound : Z;
  cc_user_agent : list Z;
  cc_testnet : bool;
  cc_observed_nodes : option (list Z)
}.

(** The local copy of candidate [i] after a failure: [fmax(-1.0, rating - 0.1)]. *)
Definition demote (i : nat) (candidates : list bm_peer_entry) : list bm_peer_entry :=
  alter (fun c => {| pe_ip_address := pe_ip_address c; pe_port := pe_port c; pe_stream := pe_stream c;
                     pe_services := pe_services c; pe_last_seen := pe_last_seen c;
                     pe_rating := rating_down (pe_rating c); pe_source := pe_source c;
                     pe_last_attempt := pe_last_attempt c |}) i candidates.

Definition attempted (i : nat) (now : Z) (candidates : list bm_peer_entry) : list bm_peer_entry :=
  alter (fun c => {| pe_ip_address := pe_ip_address c; pe_port := pe_port c; pe_stream := pe_stream c;
                     pe_services := pe_services c; pe_last_seen := pe_last_seen c;
                     pe_rating := pe_rating c; pe_source := pe_source c;
                     pe_last_attempt := now |}) i candidates.

(** A failed attempt: the peer's rating goes down in the table. *)
Definition record_failure (s : net_state) (c : bm_peer_entry) : net_state :=
  s <| ns_peers := bm_peer_manager_record_result (ns_peers s) (pe_ip_address c) (pe_port c) 1 false 0 |>.

(** From an open socket to a registered connection that has been sent a version message.
    [false]: the socket is closed and the connection freed. *)
Definition greet_peer (config : connector_config) (c : bm_peer_entry) (sock : Z) (t : turn_env)
  (s : net_state) : cres (bool * net_state) :=
  let p := tn_ptr t in
  match bm_fd_data_new BM_FD_CLIENT_SOCKET sock (tn_now t) (tn_local t) (tn_peer t) (tn_answers t) (tn_ctl t) with
  | Ub => Ub
  | Err => Ok (false, s)
  | Ok conn =>
      let conn := conn <| c_logical_peer_ip := text_field Network.BM_PEER_IP_STRLEN (pe_ip_address c) |>
                       <| c_logical_peer_port := pe_port c |> in
      let '(ok, conn) := bm_network_epoll_register conn in
      if negb ok then Ok (false, s) else
      s ← tn_registered t (s <| ns_heap := <[p := conn]> (ns_heap s) |>);
      conn ← deref (ns_heap s) p;
      match bm_post_version g conn (cc_user_agent config) 3 (c_peer_addr conn) bm_unspecified_ipv4_address
              (tn_now t) (tn_clock t) (tn_nonce t) with
      | Ub => Ub
      | Err | Ok (false, _) => Ok (false, s <| ns_heap := delete p (ns_heap s) |>)
      | Ok (true, conn) =>
          s ← tn_greeted t (s <| ns_heap := <[p := conn]> (ns_heap s) |>);
          '(reg, heap) ← bm_peer_registry_add (ns_reg s) (ns_heap s) p;
          Ok (true, s <| ns_reg := reg |> <| ns_heap := heap |>)
      end
  end.

(** The loop's variables. *)
Record connect_state := {
  cs_net : net_state;
  cs_candidates : list bm_peer_entry;
  cs_connected : Z;
  cs_closed : list Z
}.

(** One turn; [None]: the loop ends. *)
Definition connect_turn (config : connector_config) (onion clearnet : bm_socks_proxy_config)
  (t : turn_env) (st : connect_state) : cres (option connect_state) :=
  let s := cs_net st in
  if tn_stop t then Ok None else
  i ← bm_peer_connector_choose_candidate_index (cs_candidates st) (ns_reg s) (ns_heap s)
        CHOOSE_CANDIDATE_MAX_ATTEMPTS (tn_draws t) (tn_now t);
  match i with
  | None => Ok None
  | Some i =>
      match cs_candidates st !! i with
      | None => Ub
      | Some c =>
          let candidates := attempted i (tn_now t) (cs_candidates st) in
          let s := s <| ns_peers := bm_peer_manager_record_attempt (ns_peers s) (pe_ip_address c) (pe_port c) 1 (tn_now t) |> in
          let socks_proxy := if is_onion_host (pe_ip_address c) then onion else clearnet in
          '(sock, closed, _) ← open_peer_connection (pe_ip_address c) (pe_port c) socks_proxy (tn_resolve t) (tn_proxy t);
          if sock <? 0 then
            Ok (Some {| cs_net := record_failure s c; cs_candidates := demote i candidates;
                        cs_connected := cs_connected st; cs_closed := cs_closed st ++ closed |})
          else
            '(ok, s) ← greet_peer config c sock t s;
            if ok : bool then
              Ok (Some {| cs_net := s; cs_candidates := candidates;
                          cs_connected := cs_connected st + 1; cs_closed := cs_closed st ++ closed |})
            else
              Ok (Some {| cs_net := record_failure s c; cs_candidates := demote i candidates;
                          cs_connected := cs_connected st; cs_closed := cs_closed st ++ closed ++ [sock] |})
      end
  end.

(** [while (connected < want)], over what the turns will meet. *)
Fixpoint connect_turns (config : connector_config) (onion clearnet : bm_socks_proxy_config) (want : Z)
  (turns : list turn_env) (st : connect_state) : cres connect_state :=
  if want <=? cs_connected st then Ok st else
  match turns with
  | [] => Ok st
  | t :: turns =>
      r ← connect_turn config onion clearnet t st;
      match r with
      | None => Ok st
      | Some st => connect_turns config onion clearnet want turns st
      end
  end.

(** The number of new connections, the state, the descriptors closed. *)
Definition bm_peer_connector_connect_initial (config : connector_config) (db : config_db) (now : Z)
  (turns : list turn_env) (s : net_state) : cres (Z * net_state * list Z) :=
  let '(_, peers) := bm_peer_manager_cleanup (ns_peers s) now in
  peers ← (match bm_peer_manager_seed_bootstrap peers (cc_testnet config) (cc_observed_nodes config) now with
           | Ok db => Ok db | Err => Ok peers | Ub => Ub end);
  let s := s <| ns_peers := peers |> in
  let onion := bm_config_store_get_socks_proxy_onion db in
  let clearnet := bm_config_store_get_socks_proxy_clearnet db in
  already_connected ← bm_peer_registry_count_by_type (ns_reg s) (ns_heap s) BM_FD_CLIENT_SOCKET;
  if cc_max_outbound config <=? s32 already_connected then Ok (0, s, []) else
  let want := cc_max_outbound config - s32 already_connected in
  let candidates := bm_peer_manager_list_top (ns_peers s) 1 MAX_CANDIDATES in
  st ← connect_turns config onion clearnet want turns
         {| cs_net := s; cs_candidates := candidates; cs_connected := 0; cs_closed := [] |};
  Ok (cs_connected st, cs_net st, cs_closed st).

End Connector.

(** ** The SOCKS5 handshake *)

(** The bytes that will be received before the stream ends or fails. *)
Fixpoint arriving (answers : list recv_answer) : list Z :=
  match answers with
  | RECEIVED [] :: _ => []
  | RECEIVED bytes :: answers => bytes ++ arriving answers
  | RECV_AGAIN true :: answers => arriving answers
  | _ => []
  end.

Lemma socks5_recv_loop_spec answers got need : 0 <= need ->
  let '(ok, got', rest) := socks5_recv_loop answers got need in
  if need <=? blen (arriving answers)
  then ok = true /\ got' = got ++ take (Z.to_nat need) (arriving answers)
       /\ arriving rest = drop (Z.to_nat need) (arriving answers)
  else ok = false /\ got' = got ++ arriving answers.
Proof.
  revert got need. induction answers as [|a answers IH]; intros got need Hn; cbn [socks5_recv_loop];
    (destruct (Z.leb_spec need 0) as [H0|H0];
     [replace need with 0 by lia; rewrite (proj2 (Z.leb_le 0 _) (blen_nonneg _)); by rewrite take_0, app_nil_r|]).
  - cbn [arriving]. rewrite blen_nil, (proj2 (Z.leb_gt _ _)) by lia. by rewrite app_nil_r.
  - destruct a as [[|b bytes]|[]|]; cbn [arriving];
      try (rewrite blen_nil, (proj2 (Z.leb_gt _ _)) by lia; by rewrite app_nil_r); [|by apply IH].
    destruct (Z.leb_spec (blen (b :: bytes)) need) as [Hb|Hb].
    + specialize (IH (got ++ b :: bytes) (need - blen (b :: bytes)) ltac:(lia)).
      destruct (socks5_recv_loop answers (got ++ b :: bytes) (need - blen (b :: bytes))) as [[ok got'] rest].
      change (b :: bytes ++ arriving answers) with ((b :: bytes) ++ arriving answers).
      rewrite blen_app. pose proof (blen_nonneg (arriving answers)).
      assert (Hk : Z.to_nat need = (length (b :: bytes) + Z.to_nat (need - blen (b :: bytes)))%nat)
        by (unfold blen in *; lia).
      destruct (Z.leb_spec need (blen (b :: bytes) + blen (arriving answers))) as [Hle|Hle].
      * rewrite (proj2 (Z.leb_le _ _)) in IH by lia. destruct IH as (-> & -> & ->).
        rewrite Hk, take_app_add, drop_app_add by done. by rewrite (assoc_L app).
      * rewrite (proj2 (Z.leb_gt _ _)) in IH by lia. destruct IH as (-> & ->). by rewrite (assoc_L app).
    + change (b :: bytes ++ arriving answers) with ((b :: bytes) ++ arriving answers).
      rewrite blen_app. pose proof (blen_nonneg (arriving answers)).
      rewrite (proj2 (Z.leb_le _ _)) by lia. split; [done|].
      rewrite take_app_le, drop_app_le by (unfold blen in *; lia). split; [done|].
      destruct (drop (Z.to_nat need) (b :: bytes)) as [|d t] eqn:Ed; [|by cbn [arriving]].
      apply (f_equal length) in Ed. rewrite length_drop in Ed. unfold blen in Hb. cbn [length] in *. lia.
Qed.

(** [size]: the array. *)
Lemma recv_all_spec size len s : 0 <= len ->
  match socks5_recv_all size len s with
  | Ok (true, got, s') =>
      arriving (px_in s) = got ++ arriving (px_in s') /\ blen got = len
      /\ px_out s' = px_out s /\ px_sent s' = px_sent s
  | Ok (false, _, s') => px_sent s' = px_sent s
  | Err => False
  | Ub => size < len /\ size < blen (arriving (px_in s))
  end.
Proof.
  intros Hl. unfold socks5_recv_all. pose proof (socks5_recv_loop_spec (px_in s) [] len Hl) as H.
  destruct (socks5_recv_loop (px_in s) [] len) as [[ok got] rest].
  destruct (Z.leb_spec len (blen (arriving (px_in s)))) as [Hle|Hle].
  - destruct H as (-> & Hg & Hr). cbn [app] in Hg.
    assert (Hb : blen got = len) by (rewrite Hg; by apply blen_take).
    destruct (Z.ltb_spec size (blen got)); [lia|]. cbn. rewrite Hr, Hg, take_drop. by rewrite <- Hg.
  - destruct H as (-> & ->). cbn [app].
    destruct (Z.ltb_spec size (blen (arriving (px_in s)))); [lia|done].
Qed.

Lemma socks5_send_spec data s :
  let '(ok, s') := socks5_send_all data s in
  px_in s' = px_in s /\ exists sent, px_sent s' = px_sent s ++ sent /\ sent `prefix_of` data
    /\ (ok = true -> sent = data).
Proof.
  unfold socks5_send_all.
  assert (H : forall answers data sent,
    let '(ok, answers', sent') := socks5_send_loop answers data sent in
    exists x, sent' = sent ++ x /\ x `prefix_of` data /\ (ok = true -> x = data)).
  { intros answers. induction answers as [|a answers IH]; intros [|c d] sent; cbn [socks5_send_loop];
      try (exists []; rewrite app_nil_r; split_and!; [done|apply prefix_nil|done]).
    destruct a as [n|[]|]; try (exists []; rewrite app_nil_r; split_and!; [done|apply prefix_nil|done]).
    - destruct (0 <? n); [|exists []; rewrite app_nil_r; split_and!; [done|apply prefix_nil|done]].
      specialize (IH (drop (Z.to_nat n) (c :: d)) (sent ++ take (Z.to_nat n) (c :: d))).
      destruct (socks5_send_loop answers _ _) as [[ok answers'] sent'].
      destruct IH as (x & -> & Hp & Hok). exists (take (Z.to_nat n) (c :: d) ++ x).
      split; [by rewrite (assoc_L app)|]. split.
      + rewrite <- (take_drop (Z.to_nat n) (c :: d)) at 2. by apply prefix_app.
      + intros E. rewrite (Hok E). apply take_drop.
    - apply IH. }
  specialize (H (px_out s) data (px_sent s)).
  destruct (socks5_send_loop (px_out s) data (px_sent s)) as [[ok answers] sent]. by split.
Qed.

(** A granting reply to CONNECT (RFC 1928, 6): version, REP 0, a reserved byte, the bound address by
    type, and its port. *)
Definition connect_reply (reply : list Z) : Prop :=
  exists rsv atyp addr port, reply = [5; 0; rsv; atyp] ++ addr ++ port /\ blen port = 2
  /\ (atyp = 1 /\ blen addr = 4 \/ atyp = 4 /\ blen addr = 16
      \/ atyp = 3 /\ exists n name, addr = n :: name /\ blen name = n).

(** The beginning of a reply whose domain name has 255 bytes. *)
Definition longest_name (stream : list Z) : Prop :=
  exists rsv rest, stream = [5; 0; rsv; 3; 255] ++ rest /\ 257 <= blen rest.

Lemma len4 (l : list Z) : blen l = 4 -> exists a b c d, l = [a; b; c; d].
Proof. unfold blen. destruct l as [|a [|b [|c [|d [|]]]]]; cbn [length]; try lia. by eexists _, _, _, _. Qed.
Lemma len2 (l : list Z) : blen l = 2 -> exists a b, l = [a; b].
Proof. unfold blen. destruct l as [|a [|b [|]]]; cbn [length]; try lia. by eexists _, _. Qed.
Lemma len1 (l : list Z) : blen l = 1 -> exists a, l = [a].
Proof. unfold blen. destruct l as [|a [|]]; cbn [length]; try lia. by eexists. Qed.

(** What follows the four bytes of the head of a granting reply. *)
Lemma bnd_addr_len_spec atyp s : bytes_ok (arriving (px_in s)) ->
  match bnd_addr_len atyp s with
  | Ok (Some len, s') => exists pre, arriving (px_in s) = pre ++ arriving (px_in s')
      /\ px_sent s' = px_sent s
      /\ (atyp = 1 /\ len = 4 /\ pre = [] \/ atyp = 4 /\ len = 16 /\ pre = []
          \/ atyp = 3 /\ pre = [len] /\ 0 <= len < 256)
  | Ok (None, s') => px_sent s' = px_sent s
  | Err | Ub => False
  end.
Proof.
  intros Hb. unfold bnd_addr_len. destruct (Z.eqb_spec atyp 1) as [->|]; [exists []; naive_solver|].
  destruct (Z.eqb_spec atyp 4) as [->|]; [exists []; naive_solver|].
  destruct (Z.eqb_spec atyp 3) as [->|]; [|done].
  pose proof (recv_all_spec 1 1 s ltac:(lia)) as H.
  destruct (socks5_recv_all 1 1 s) as [[[[] got] s']| |]; [|done|done|lia]. rewrite bind_ok. cbv beta iota.
  destruct H as (Ha & Hg & _ & Hs). apply len1 in Hg as [nb ->]. cbn [app] in Ha.
  change (rd [nb] 0) with (Ok nb). rewrite bind_ok. exists [nb]. split; [done|]. split; [done|].
  right. right. rewrite Ha in Hb.
  inversion Hb as [|? ? Hnb _]; subst. unfold is_byte in Hnb. split_and!; (done || lia).
Qed.

Lemma socks5_reply_spec s : bytes_ok (arriving (px_in s)) ->
  match socks5_reply s with
  | Ok (true, s') => px_sent s' = px_sent s
      /\ exists reply, connect_reply reply /\ arriving (px_in s) = reply ++ arriving (px_in s')
  | Ok (false, s') => px_sent s' = px_sent s
  | Err => False
  | Ub => longest_name (arriving (px_in s))
  end.
Proof.
  intros Hb. unfold socks5_reply. pose proof (recv_all_spec 4 4 s ltac:(lia)) as H.
  destruct (socks5_recv_all 4 4 s) as [[[[] head] s1]| |]; [|done|done|lia]. rewrite bind_ok. cbv beta iota.
  destruct H as (Ha & Hh & _ & Hs1). cbn [negb].
  apply len4 in Hh as (ver & rep & rsv & atyp & ->).
  change (rd [ver; rep; rsv; atyp] 0) with (Ok ver). change (rd [ver; rep; rsv; atyp] 1) with (Ok rep).
  change (rd [ver; rep; rsv; atyp] 3) with (Ok atyp). rewrite !bind_ok.
  destruct (Z.eqb_spec ver 5) as [->|]; [|done]. destruct (Z.eqb_spec rep 0) as [->|]; [|done].
  cbn [andb negb].
  assert (Hb1 : bytes_ok (arriving (px_in s1))) by (rewrite Ha in Hb; by apply bytes_ok_app in Hb as [_ ?]).
  pose proof (bnd_addr_len_spec atyp s1 Hb1) as H2.
  destruct (bnd_addr_len atyp s1) as [[[len|] s2]| |]; [|by rewrite bind_ok, H2|done|done].
  rewrite bind_ok. cbv beta iota. destruct H2 as (pre & Ha2 & Hs2 & Hcase).
  assert (Hlen : 0 <= len < 256) by lia.
  pose proof (recv_all_spec SOCKS5_DISCARD_SIZE (len + 2) s2 ltac:(lia)) as H3.
  unfold SOCKS5_DISCARD_SIZE in *.
  destruct (socks5_recv_all 256 (len + 2) s2) as [[[[] got] s3]| |]; [| |done|].
  - rewrite bind_ok. destruct H3 as (Ha3 & Hg & _ & Hs3). split; [congruence|].
    exists ([5; 0; rsv; atyp] ++ pre ++ got). split; [|by rewrite Ha, Ha2, Ha3, <- !(assoc_L app)].
    destruct (split_at_blen got len) as (addr & port & -> & Haddr & _); [lia|].
    rewrite blen_app in Hg. exists rsv, atyp, (pre ++ addr), port.
    rewrite <- !(assoc_L app). split; [done|]. split; [lia|].
    destruct Hcase as [(-> & -> & ->)|[(-> & -> & ->)|(-> & -> & _)]]; cbn [app];
      [by left|by right; left|right; right]. split; [done|]. by exists len, addr.
  - rewrite bind_ok. congruence.
  - assert (E : len = 255) by lia. subst len.
    destruct Hcase as [(? & ? & ?)|[(? & ? & ?)|(-> & -> & _)]]; [lia|lia|].
    exists rsv, (arriving (px_in s2)). rewrite Ha, Ha2. split; [done|lia].
Qed.

(** C11: [socks5_connect] reports success only when the proxy granted the connection that was asked
    for.  For any bytes from the proxy, in any pieces: on success the greeting and the request for
    [dest_host] and [dest_port] were sent in full, the answer was "no authentication" and then a
    granting reply, and exactly these bytes were consumed, so that what follows belongs to the peer;
    on failure no more than that was sent, and the request only to a proxy that accepted the
    greeting.  The one exception is a reply whose bound address is a name of 255 bytes: its 257 bytes
    with the port overflow the 256 bytes of [discard]. *)
Theorem socks5_connect_verdict (dest_host : list Z) (dest_port : Z) (s : proxy_socket) :
  bytes_ok (arriving (px_in s)) ->
  match socks5_connect dest_host dest_port s with
  | Ok (granted, s') => exists sent, px_sent s' = px_sent s ++ sent
      /\ if granted : bool then
           1 <= blen dest_host <= 255 /\ sent = [5; 1; 0] ++ socks5_request dest_host dest_port
           /\ exists reply, connect_reply reply
              /\ arriving (px_in s) = [5; 0] ++ reply ++ arriving (px_in s')
         else
           sent `prefix_of` [5; 1; 0]
           \/ exists request rest, arriving (px_in s) = [5; 0] ++ rest
              /\ sent = [5; 1; 0] ++ request /\ request `prefix_of` socks5_request dest_host dest_port
  | Err => False
  | Ub => exists rest, arriving (px_in s) = [5; 0] ++ rest /\ longest_name rest
  end.
Proof.
  intros Hb. unfold socks5_connect. pose proof (blen_nonneg dest_host) as Hn0.
  destruct (Z.eqb_spec (blen dest_host) 0) as [|Hn]; cbn [orb];
    [exists []; rewrite app_nil_r; split; [done|left; apply prefix_nil]|].
  destruct (Z.ltb_spec 255 (blen dest_host)) as [|Hh];
    [exists []; rewrite app_nil_r; split; [done|left; apply prefix_nil]|].
  pose proof (socks5_send_spec [5; 1; 0] s) as H.
  destruct (socks5_send_all [5; 1; 0] s) as [[] s1]; destruct H as (Hin1 & sent & Hs1 & Hp & Hok); cbn [negb];
    [|exists sent; by split; [|left]].
  rewrite (Hok eq_refl) in Hs1. clear Hok Hp sent. rewrite <- Hin1 in *.
  pose proof (recv_all_spec 2 2 s1 ltac:(lia)) as H.
  destruct (socks5_recv_all 2 2 s1) as [[[[] resp] s2]| |]; [| |done|lia]; rewrite bind_ok; cbv beta iota; cbn [negb];
    [|exists [5; 1; 0]; split; [congruence|by left]].
  destruct H as (Ha & Hr & _ & Hs2). apply len2 in Hr as (ver & method & ->).
  change (rd [ver; method] 0) with (Ok ver). change (rd [ver; method] 1) with (Ok method). rewrite !bind_ok.
  assert (Hgreet : exists sent, px_sent s2 = px_sent s ++ sent /\ sent = [5; 1; 0])
    by (exists [5; 1; 0]; split; [congruence|done]).
  destruct (Z.eqb_spec ver 5) as [->|]; [|destruct Hgreet as (x & ? & ->); eexists; split; [done|by left]].
  destruct (Z.eqb_spec method 0) as [->|]; [|destruct Hgreet as (x & ? & ->); eexists; split; [done|by left]].
  cbn [andb negb].
  pose proof (socks5_send_spec (socks5_request dest_host dest_port) s2) as H.
  destruct (socks5_send_all (socks5_request dest_host dest_port) s2) as [[] s3];
    destruct H as (Hin3 & req & Hs3 & Hp & Hok); cbn [negb].
  2:{ exists ([5; 1; 0] ++ req). split; [by rewrite Hs3, Hs2, Hs1, (assoc_L app)|]. right.
      by eexists req, _. }
  rewrite (Hok eq_refl) in Hs3. rewrite <- Hin3 in Ha.
  assert (Hsent : px_sent s3 = px_sent s ++ [5; 1; 0] ++ socks5_request dest_host dest_port)
    by (by rewrite Hs3, Hs2, Hs1, (assoc_L app)).
  pose proof (socks5_reply_spec s3) as H4.
  destruct (socks5_reply s3) as [[[] s4]| |].
  - destruct H4 as (Hs4 & reply & Hrep & Ha4); [rewrite Ha in Hb; by apply bytes_ok_app in Hb as [_ ?]|].
    eexists. split; [by rewrite Hs4|]. split; [lia|]. split; [done|]. exists reply. split; [done|].
    by rewrite Ha, Ha4.
  - eexists. split; [rewrite H4; [done|rewrite Ha in Hb; by apply bytes_ok_app in Hb as [_ ?]]|].
    right. by eexists _, _.
  - apply H4. rewrite Ha in Hb. by apply bytes_ok_app in Hb as [_ ?].
  - exists (arriving (px_in s3)). split; [done|]. apply H4.
    rewrite Ha in Hb. by apply bytes_ok_app in Hb as [_ ?].
Qed.

(** ** The candidate chosen *)

Section ConnectorLemmas.
Context `{OS : OpenSSL} `{INP : InetNtop} (g : protocol_globals).

(** A candidate that an attempt with the random word [w] takes: not connected, not cooling down,
    and rated 1 or lucky. *)
Definition taken (reg : bm_peer_registry) (heap : conn_heap) (now : Z) (c : bm_peer_entry) (w : Z) : Prop :=
  bm_peer_registry_has_peer reg heap (pe_ip_address c) (pe_port c) = Ok false
  /\ (SFltb (pe_rating c) ZERO = true -> BM_PEER_LOW_RATING_COOLDOWN_SECONDS <= now - pe_last_attempt c)
  /\ (SFleb ONE (pe_rating c) = true
      \/ SFltb (uniform_random w)
           (double_div CHOOSE_CANDIDATE_BASE_PROB (double_sub ONE (pe_rating c))) = true).

(** The candidate drawn by attempt [k]. *)
Definition drawn (candidates : list bm_peer_entry) (draws : nat -> Z * Z) (k : nat) : nat :=
  Z.to_nat (fst (draws k) mod Z.of_nat (length candidates)).

(** Attempt [k] takes its candidate. *)
Definition attempt_takes candidates reg heap draws now (k : nat) : Prop :=
  exists c, candidates !! drawn candidates draws k = Some c /\ taken reg heap now c (snd (draws k)).

Lemma choose_loop_spec n attempt candidates reg heap draws now r :
  choose_loop n attempt candidates reg heap draws now = Ok r ->
  match r with
  | Some i => exists k, (attempt <= k < attempt + n)%nat /\ i = drawn candidates draws k
      /\ attempt_takes candidates reg heap draws now k
      /\ forall j, (attempt <= j < k)%nat -> ~ attempt_takes candidates reg heap draws now j
  | None => forall j, (attempt <= j < attempt + n)%nat -> ~ attempt_takes candidates reg heap draws now j
  end.
Proof.
  revert attempt. induction n as [|n IH]; intros attempt E; cbn [choose_loop] in E.
  { injection E as <-. intros j Hj. lia. }
  fold (drawn candidates draws attempt) in E.
  destruct (candidates !! drawn candidates draws attempt) as [c|] eqn:Ec; [|done].
  apply bind_ok_inv in E as (connected & Ehas & E).
  assert (Hskip : choose_loop n (S attempt) candidates reg heap draws now = Ok r ->
    ~ attempt_takes candidates reg heap draws now attempt ->
    match r with
    | Some i => exists k, (attempt <= k < attempt + S n)%nat /\ i = drawn candidates draws k
        /\ attempt_takes candidates reg heap draws now k
        /\ forall j, (attempt <= j < k)%nat -> ~ attempt_takes candidates reg heap draws now j
    | None => forall j, (attempt <= j < attempt + S n)%nat -> ~ attempt_takes candidates reg heap draws now j
    end).
  { intros E' Hno. specialize (IH (S attempt) E'). destruct r as [i|].
    - destruct IH as (k & Hk & Hi & Ht & Hj). exists k. split; [lia|]. split_and!; [done|done|].
      intros j Hjk. destruct (decide (j = attempt)) as [->|]; [done|]. apply Hj. lia.
    - intros j Hj. destruct (decide (j = attempt)) as [->|]; [done|]. apply IH. lia. }
  assert (Hnot : ~ taken reg heap now c (snd (draws attempt)) -> ~ attempt_takes candidates reg heap draws now attempt)
    by (intros Hn (c' & Hc' & Ht); simplify_eq; done).
  destruct connected; [apply Hskip; [done|]; apply Hnot; intros (Hf & _); congruence|].
  apply bind_ok_inv in E as (cooling & Ecool & E).
  assert (Hcool : cooling = true <-> SFltb (pe_rating c) ZERO = true
    /\ now - pe_last_attempt c < BM_PEER_LOW_RATING_COOLDOWN_SECONDS).
  { destruct (SFltb (pe_rating c) ZERO); [|injection Ecool as <-; naive_solver].
    apply bind_ok_inv in Ecool as (since & Es & Ecool). injection Ecool as <-.
    unfold int64 in Es. destruct (_ && _); [|done]. injection Es as <-. rewrite Z.ltb_lt. naive_solver. }
  destruct cooling.
  { apply Hskip; [done|]. apply Hnot. intros (_ & Hc & _).
    destruct (proj1 Hcool eq_refl) as [Hneg Hlt]. specialize (Hc Hneg). lia. }
  assert (Hwarm : SFltb (pe_rating c) ZERO = true -> BM_PEER_LOW_RATING_COOLDOWN_SECONDS <= now - pe_last_attempt c).
  { intros Hneg. destruct (Z.le_gt_cases BM_PEER_LOW_RATING_COOLDOWN_SECONDS (now - pe_last_attempt c)); [done|].
    by discriminate (proj2 Hcool (conj Hneg H)). }
  assert (Htake : r = Some (drawn candidates draws attempt) -> taken reg heap now c (snd (draws attempt)) ->
    match r with
    | Some i => exists k, (attempt <= k < attempt + S n)%nat /\ i = drawn candidates draws k
        /\ attempt_takes candidates reg heap draws now k
        /\ forall j, (attempt <= j < k)%nat -> ~ attempt_takes candidates reg heap draws now j
    | None => forall j, (attempt <= j < attempt + S n)%nat -> ~ attempt_takes candidates reg heap draws now j
    end).
  { intros -> Ht. exists attempt. split; [lia|]. split; [done|]. split; [by exists c|]. intros j Hj. lia. }
  destruct (SFleb ONE (pe_rating c)) eqn:Eone.
  { injection E as <-. apply Htake; [done|]. split_and!; [done|done|by left]. }
  cbv zeta in E. destruct (SFltb _ _) eqn:Eprob in E.
  { injection E as <-. apply Htake; [done|]. split_and!; [done|done|by right]. }
  apply Hskip; [done|]. apply Hnot. intros (_ & _ & [?|?]); congruence.
Qed.

(** [bm_peer_connector_choose_candidate_index] takes the candidate of the first of at most
    [max_attempts] random draws that is acceptable: not connected already, not within 30 minutes of
    its last attempt while its rating is negative, and rated at least 1 or lucky at probability
    0.05 / (1 - rating); it gives none exactly when no draw is acceptable.  The index it gives is
    one of the array. *)
Theorem choose_candidate_first_taken candidates reg heap max_attempts draws now r :
  bm_peer_connector_choose_candidate_index candidates reg heap max_attempts draws now = Ok r ->
  match r with
  | Some i => (i < length candidates)%nat
      /\ exists k, (k < max_attempts)%nat /\ i = drawn candidates draws k
         /\ attempt_takes candidates reg heap draws now k
         /\ forall j, (j < k)%nat -> ~ attempt_takes candidates reg heap draws now j
  | None => forall j, (j < max_attempts)%nat -> ~ attempt_takes candidates reg heap draws now j
  end.
Proof.
  unfold bm_peer_connector_choose_candidate_index. destruct (Nat.eqb_spec (length candidates) 0) as [H0|_].
  { intros [= <-] j _ (c & Hc & _). apply lookup_lt_Some in Hc. lia. }
  intros E. apply choose_loop_spec in E. destruct r as [i|].
  - destruct E as (k & Hk & -> & Ht & Hj). destruct Ht as (c & Hc & Ht).
    split; [by apply lookup_lt_Some in Hc|]. exists k. split; [lia|]. split; [done|].
    split; [by exists c|]. intros j Hjk. apply Hj. lia.
  - intros j Hj. apply E. lia.
Qed.
End ConnectorLemmas.

(** ** The limit on outbound connections *)

Section OutboundLimit.
Context `{OS : OpenSSL} `{INP : InetNtop} (g : protocol_globals) (config : connector_config).

Abbreviation outbound s n := (bm_peer_registry_count_by_type (ns_reg s) (ns_heap s) BM_FD_CLIENT_SOCKET = Ok n).

(** What the epoll thread may do meanwhile: it opens no outbound connections and registers none that
    this thread has just created. *)
Definition no_outbound (p : Z) (f : net_state -> cres net_state) : Prop :=
  forall s s' n, f s = Ok s' -> outbound s n -> p ∉ conns (ns_reg s) ->
    (exists n', outbound s' n' /\ n' <= n)
    /\ (forall q, q ∈ conns (ns_reg s') -> q ∈ conns (ns_reg s))
    /\ (forall c c', ns_heap s !! p = Some c -> ns_heap s' !! p = Some c' -> c_type c' = c_type c).

Definition turn_ok (t : turn_env) : Prop :=
  no_outbound (tn_ptr t) (tn_registered t) /\ no_outbound (tn_ptr t) (tn_greeted t).

Lemma epoll_register_type conn ok conn' :
  bm_network_epoll_register conn = (ok, conn') -> c_type conn' = c_type conn.
Proof.
  unfold bm_network_epoll_register. destruct (epoll_ctl _) as [[] ?]; intros E; inversion E; subst; done.
Qed.

Lemma outbound_insert s p conn n :
  outbound s n -> p ∉ conns (ns_reg s) -> outbound (s <| ns_heap := <[p := conn]> (ns_heap s) |>) n.
Proof.
  intros Hn Hp. unfold bm_peer_registry_count_by_type in *. cbn [update_field ns_reg ns_heap].
  by rewrite count_types_insert.
Qed.

Lemma count_types_delete heap type l p : p ∉ l -> count_types (delete p heap) type l = count_types heap type l.
Proof.
  induction l as [|q l IH]; intros Hp; cbn [count_types]; [done|].
  apply not_elem_of_cons in Hp as [Hq Hp]. unfold deref. rewrite lookup_delete_ne by done.
  destruct (heap !! q); [|done]. cbn_bind. by rewrite IH.
Qed.

(** One greeting adds at most the new connection. *)
Lemma greet_peer_outbound c sock t s ok s' n :
  turn_ok t -> tn_ptr t ∉ conns (ns_reg s) -> outbound s n ->
  greet_peer g config c sock t s = Ok (ok, s') ->
  (exists n', outbound s' n' /\ n' <= n + (if ok : bool then 1 else 0))
  /\ (forall q, q ∈ conns (ns_reg s') -> q ∈ conns (ns_reg s) \/ q = tn_ptr t).
Proof.
  intros [Hr Hg] Hp Hn E. unfold greet_peer in E. cbv zeta in E. set (p := tn_ptr t) in *.
  assert (Hstay : (exists n', outbound s n' /\ n' <= n + 0) /\ (forall q, q ∈ conns (ns_reg s) -> q ∈ conns (ns_reg s) \/ q = p))
    by (split; [exists n; split; [done|lia]|by left]).
  destruct (bm_fd_data_new _ _ _ _ _ _ _) as [conn| |] eqn:En; [|by injection E as <- <-|done].
  assert (Ht0 : c_type conn = BM_FD_CLIENT_SOCKET)
    by (unfold bm_fd_data_new in En; repeat case_match; by simplify_eq).
  set (conn0 := conn <| c_logical_peer_ip := _ |> <| c_logical_peer_port := _ |>) in E.
  destruct (bm_network_epoll_register conn0) as [[] conn1] eqn:Er; cbn [negb] in E; [|by injection E as <- <-].
  assert (Ht1 : c_type conn1 = BM_FD_CLIENT_SOCKET)
    by (rewrite (epoll_register_type _ _ _ Er); exact Ht0).
  apply bind_ok_inv in E as (s1 & E1 & E).
  destruct (Hr _ _ n E1 (outbound_insert s p conn1 n Hn Hp) Hp) as ((n1 & Hn1 & Hle1) & Hsub1 & Hty1).
  apply bind_ok_inv in E as (conn2 & Ed & E). unfold deref in Ed.
  destruct (ns_heap s1 !! p) as [conn2'|] eqn:Eh; [|done]. injection Ed as ->.
  specialize (Hty1 conn1 conn2 (lookup_insert_eq _ _ _) eq_refl).
  assert (Hp1 : p ∉ conns (ns_reg s1)) by (intros Hin; by apply Hp, Hsub1).
  destruct (bm_post_version _ _ _ _ _ _ _ _ _) as [[[] conn3]| |] eqn:Ep.
  - apply bind_ok_inv in E as (s2 & E2 & E).
    destruct (Hg _ _ n1 E2 (outbound_insert s1 p conn3 n1 Hn1 Hp1) Hp1) as ((n2 & Hn2 & Hle2) & Hsub2 & Hty2).
    assert (Ht3 : c_type conn3 = BM_FD_CLIENT_SOCKET).
    { unfold bm_post_version in Ep. inv_bind Ep. injection Ep as Ep.
      pose proof (same_life_send conn2 a (tn_now t)) as (Hl & _). rewrite Ep in Hl. cbn [snd] in Hl. congruence. }
    apply bind_ok_inv in E as ([reg heap] & E3 & E). injection E as <- <-.
    assert (Hp2 : p ∉ conns (ns_reg s2)) by (intros Hin; by apply Hp1, Hsub2).
    destruct (ns_heap s2 !! p) as [conn4|] eqn:Eh2;
      [|unfold bm_peer_registry_add, deref in E3; rewrite Eh2 in E3; by destruct (_ >=? _)].
    specialize (Hty2 conn3 conn4 (lookup_insert_eq _ _ _) eq_refl).
    apply (registry_add_spec _ _ _ conn4) in E3 as (Ec & _ & -> & _); [|done].
    cbn [update_field ns_reg ns_heap]. split.
    + exists (n2 + 1). split; [|lia]. unfold bm_peer_registry_count_by_type in *. cbn [update_field ns_reg ns_heap].
      rewrite Ec, (count_types_snoc _ _ _ _ _ (lookup_insert_eq _ _ _)), count_types_insert, Hn2 by done.
      cbn_bind. cbn [update_field c_type]. rewrite bool_decide_true by congruence. done.
    + intros q. rewrite Ec, elem_of_app, list_elem_of_singleton. intros [Hq| ->]; [|by right].
      left. by apply Hsub1, Hsub2.
  - injection E as <- <-. cbn [update_field ns_reg ns_heap].
    split; [|intros q Hq; left; by apply Hsub1].
    exists n1. split; [|lia]. unfold bm_peer_registry_count_by_type in *. cbn [update_field ns_reg ns_heap].
    by rewrite count_types_delete.
  - injection E as <- <-. cbn [update_field ns_reg ns_heap].
    split; [|intros q Hq; left; by apply Hsub1].
    exists n1. split; [|lia]. unfold bm_peer_registry_count_by_type in *. cbn [update_field ns_reg ns_heap].
    by rewrite count_types_delete.
  - done.
Qed.

Lemma connect_turn_outbound onion clearnet t st st' n :
  turn_ok t -> tn_ptr t ∉ conns (ns_reg (cs_net st)) -> outbound (cs_net st) n ->
  connect_turn g config onion clearnet t st = Ok (Some st') ->
  (exists n', outbound (cs_net st') n' /\ n' - n <= cs_connected st' - cs_connected st)
  /\ 0 <= cs_connected st' - cs_connected st <= 1
  /\ (forall q, q ∈ conns (ns_reg (cs_net st')) -> q ∈ conns (ns_reg (cs_net st)) \/ q = tn_ptr t).
Proof.
  intros Ht Hp Hn E. unfold connect_turn in E. cbv zeta in E. destruct (tn_stop t); [done|].
  apply bind_ok_inv in E as (i & _ & E). destruct i as [i|]; [|done].
  destruct (cs_candidates st !! i) as [c|]; [|done].
  apply bind_ok_inv in E as ([[sock closed] px] & _ & E). cbv beta iota in E.
  destruct (sock <? 0).
  { injection E as <-. cbn. split; [exists n; split; [done|lia]|]. split; [lia|by left]. }
  apply bind_ok_inv in E as ([ok s'] & E1 & E).
  match type of E1 with greet_peer _ _ _ _ _ ?s0 = _ => set (s1 := s0) in E1 end.
  destruct (greet_peer_outbound c sock t s1 ok s' n Ht Hp Hn E1) as ((n' & Hn' & Hle) & Hsub).
  destruct ok; injection E as <-; cbn -[Z.add Z.sub];
    (split; [exists n'; split; [done|lia]|]; split; [lia|exact Hsub]).
Qed.

(** The turns of a round: each creates its own connection. *)
Definition turns_ok (turns : list turn_env) (registered : list Z) : Prop :=
  Forall turn_ok turns /\ NoDup (map tn_ptr turns) /\ Forall (fun t => tn_ptr t ∉ registered) turns.

Lemma connect_turns_outbound onion clearnet want turns : forall st st' n,
  turns_ok turns (conns (ns_reg (cs_net st))) -> outbound (cs_net st) n ->
  connect_turns g config onion clearnet want turns st = Ok st' ->
  (exists n', outbound (cs_net st') n' /\ n' - n <= cs_connected st' - cs_connected st)
  /\ cs_connected st <= cs_connected st' /\ (cs_connected st' <= want \/ cs_connected st' = cs_connected st).
Proof.
  induction turns as [|t turns IH]; intros st st' n (Ht & Hnd & Hf) Hn E; cbn [connect_turns] in E;
    (destruct (Z.leb_spec want (cs_connected st)) as [Hw|Hw];
     [injection E as <-; split; [exists n; split; [done|lia]|]; split; [lia|by right]|]).
  { injection E as <-. split; [exists n; split; [done|lia]|]. split; [lia|by right]. }
  apply bind_ok_inv in E as (r & E1 & E). destruct r as [st1|].
  2:{ injection E as <-. split; [exists n; split; [done|lia]|]. split; [lia|by right]. }
  apply Forall_cons in Ht as [Ht Hts]. apply Forall_cons in Hf as [Hf Hfs].
  cbn [map] in Hnd. apply NoDup_cons in Hnd as [Hnew Hnd].
  destruct (connect_turn_outbound onion clearnet t st st1 n Ht Hf Hn E1) as ((n1 & Hn1 & Hle1) & Hc1 & Hsub1).
  destruct (IH st1 st' n1) as ((n2 & Hn2 & Hle2) & Hc2 & Hc3); [|done|done|].
  - split_and!; [done|done|]. apply Forall_forall. intros t' Hin Hreg. apply Hsub1 in Hreg as [Hreg|Heq].
    + rewrite Forall_forall in Hfs. by apply (Hfs t').
    + apply Hnew. rewrite <- Heq. apply list_elem_of_fmap. by exists t'.
  - split; [exists n2; split; [done|lia]|]. split; [lia|]. lia.
Qed.

(** [bm_peer_connector_connect_initial] keeps the limit on outbound connections.  A round that
    starts with [n] of them ends with no more than [max_outbound] (or [n], if there were more
    already), whatever the table of peers, the proxies, the network and the random words are, and
    whatever the epoll thread does meanwhile short of opening outbound connections itself; and it
    reports no more new connections than there was room for. *)
Theorem connect_initial_bounded (db : config_db) (now : Z) (turns : list turn_env) (s : net_state)
  (n connected : Z) (s' : net_state) (closed : list Z) :
  turns_ok turns (conns (ns_reg s)) -> outbound s n -> 0 <= n < 2 ^ 31 ->
  bm_peer_connector_connect_initial g config db now turns s = Ok (connected, s', closed) ->
  0 <= connected <= Z.max 0 (cc_max_outbound config - n)
  /\ exists n', outbound s' n' /\ n' <= Z.max n (cc_max_outbound config).
Proof.
  intros Hts Hn Hr E. unfold bm_peer_connector_connect_initial in E.
  destruct (bm_peer_manager_cleanup (ns_peers s) now) as [cleaned peers].
  apply bind_ok_inv in E as (peers' & _ & E). cbv zeta in E.
  change (ns_reg (s <| ns_peers := peers' |>)) with (ns_reg s) in E.
  change (ns_heap (s <| ns_peers := peers' |>)) with (ns_heap s) in E.
  rewrite Hn, bind_ok in E.
  assert (Hs32 : s32 n = n) by (unfold s32; rewrite Z.mod_small; lia). rewrite !Hs32 in E.
  destruct (Z.leb_spec (cc_max_outbound config) n) as [Hm|Hm].
  { injection E as <- <- <-. split; [lia|]. exists n. split; [exact Hn|lia]. }
  apply bind_ok_inv in E as (st & E & E'). injection E' as <- <- <-.
  match type of E with connect_turns _ _ _ _ _ _ ?st0 = _ =>
    destruct (connect_turns_outbound _ _ _ _ st0 _ n Hts Hn E) as ((n' & Hn' & Hle) & Hc & Hw) end.
  cbn [cs_connected] in *. split; [lia|]. exists n'. split; [done|]. lia.
Qed.
End OutboundLimit.

(** ** A round ends *)

Section RoundEnds.
Context `{OS : OpenSSL} `{INP : InetNtop} (g : protocol_globals) (config : connector_config).

(** The failures after which a rating is negative. *)
Fixpoint patience (fuel : nat) (r : spec_float) : nat :=
  match fuel with
  | O => O
  | S fuel => if SFltb r ZERO then O else S (patience fuel (rating_down r))
  end.

Definition PATIENCE : nat := 12.

Lemma patience_down :
  forallb (fun r => if SFltb r ZERO then SFltb (rating_down r) ZERO
                    else Nat.eqb (patience PATIENCE r) (S (patience PATIENCE (rating_down r))))
    ratings = true.
Proof. vm_compute. reflexivity. Qed.

Lemma patience_le fuel r : (patience fuel r <= fuel)%nat.
Proof.
  revert r. induction fuel as [|fuel IH]; intros r; cbn [patience]; [lia|].
  destruct (SFltb r ZERO); [lia|]. specialize (IH (rating_down r)). lia.
Qed.

(** How often a candidate can still fail within 30 minutes of the time [T]. *)
Definition chances (T : Z) (c : bm_peer_entry) : nat :=
  if SFltb (pe_rating c) ZERO then (if T <=? pe_last_attempt c then O else 1%nat)
  else patience PATIENCE (pe_rating c).

Definition total_chances (T : Z) (l : list bm_peer_entry) : nat := sum_list_with (chances T) l.

Definition all_rated (l : list bm_peer_entry) : Prop := Forall (fun c => pe_rating c ∈ ratings) l.

(** The turns that the loop can still make. *)
Definition turns_left (T want : Z) (st : connect_state) : nat :=
  total_chances T (cs_candidates st) + Z.to_nat (want - cs_connected st).

(** The clock during a round. *)
Definition in_window (T : Z) (t : turn_env) : Prop := T <= tn_now t < T + BM_PEER_LOW_RATING_COOLDOWN_SECONDS.

Lemma total_chances_le T l : (total_chances T l <= PATIENCE * length l)%nat.
Proof.
  unfold total_chances. induction l as [|c l IH]; [done|]. cbn [sum_list_with length].
  assert (chances T c <= PATIENCE)%nat.
  { unfold chances. destruct (SFltb _ _); [unfold PATIENCE; destruct (_ <=? _); lia|apply patience_le]. }
  lia.
Qed.

Lemma sum_alter (f : bm_peer_entry -> nat) g' (l : list bm_peer_entry) i c :
  l !! i = Some c -> (sum_list_with f (alter g' i l) + f c = sum_list_with f l + f (g' c))%nat.
Proof.
  revert i. induction l as [|d l IH]; intros [|i] Hi; [done..| |].
  - cbn in *. simplify_eq. lia.
  - cbn [lookup list_lookup] in Hi. specialize (IH i Hi). cbn in *. lia.
Qed.

Lemma alter_here (f : bm_peer_entry -> bm_peer_entry) (l : list bm_peer_entry) (i : nat) c :
  l !! i = Some c -> alter f i l !! i = Some (f c).
Proof. intros Hi. by rewrite list_lookup_alter, decide_True, Hi by done. Qed.

Lemma rated_alter g' l i :
  (forall c, pe_rating c ∈ ratings -> pe_rating (g' c) ∈ ratings) -> all_rated l -> all_rated (alter g' i l).
Proof.
  unfold all_rated. intros Hg Hl. apply Forall_alter; [done|]. intros c Hc _. apply Hg.
  rewrite Forall_lookup in Hl. by apply (Hl i).
Qed.

Lemma chosen_taken candidates reg heap n draws now i :
  bm_peer_connector_choose_candidate_index candidates reg heap n draws now = Ok (Some i) ->
  exists c w, candidates !! i = Some c /\ taken reg heap now c w.
Proof.
  unfold bm_peer_connector_choose_candidate_index. destruct (length candidates =? 0)%nat; [done|].
  intros E. apply choose_loop_spec in E as (k & _ & -> & (c & Hc & Ht) & _). by eexists c, _.
Qed.

(** A candidate that is taken has a chance left; trying it takes none away from the others, and
    failing takes one from it. *)
Lemma attempt_chances T now reg heap c w :
  T <= now < T + BM_PEER_LOW_RATING_COOLDOWN_SECONDS -> pe_rating c ∈ ratings -> taken reg heap now c w ->
  forall tried failed,
  pe_rating tried = pe_rating c -> pe_last_attempt tried = now ->
  pe_rating failed = rating_down (pe_rating c) -> pe_last_attempt failed = now ->
  (chances T tried <= chances T c)%nat /\ (chances T failed < chances T c)%nat.
Proof.
  intros Hw Hr (_ & Hcool & _) tried failed Ht1 Ht2 Hf1 Hf2. unfold chances.
  rewrite Ht1, Ht2, Hf1, Hf2. rewrite (proj2 (Z.leb_le T now)) by lia.
  apply list_elem_of_In in Hr. pose proof (proj1 (forallb_forall _ _) patience_down _ Hr) as Hp. cbv beta in Hp.
  destruct (SFltb (pe_rating c) ZERO).
  - rewrite Hp. specialize (Hcool eq_refl). rewrite (proj2 (Z.leb_gt T (pe_last_attempt c))) by lia. lia.
  - apply Nat.eqb_eq in Hp. rewrite Hp. split; [done|]. destruct (SFltb (rating_down _) _); lia.
Qed.

Lemma connect_turn_progress onion clearnet T want t st st' :
  in_window T t -> all_rated (cs_candidates st) -> cs_connected st < want ->
  connect_turn g config onion clearnet t st = Ok (Some st') ->
  all_rated (cs_candidates st') /\ (turns_left T want st' < turns_left T want st)%nat.
Proof.
  intros Hw Hr Hc E. unfold connect_turn in E. cbv zeta in E. destruct (tn_stop t); [done|].
  apply bind_ok_inv in E as (i & Ei & E). destruct i as [i|]; [|done].
  destruct (chosen_taken _ _ _ _ _ _ _ Ei) as (c & w & Hic & Htaken). rewrite Hic in E.
  assert (Hrc : pe_rating c ∈ ratings) by (unfold all_rated in Hr; rewrite Forall_lookup in Hr; by apply (Hr i)).
  set (tried := attempted i (tn_now t) (cs_candidates st)) in *.
  assert (Hrt : all_rated tried) by (by apply rated_alter).
  assert (Hrf : all_rated (demote i tried)) by (apply rated_alter; [intros d Hd; by apply (ratings_spec _ Hd)|done]).
  set (mark := fun c => {| pe_ip_address := pe_ip_address c; pe_port := pe_port c; pe_stream := pe_stream c;
    pe_services := pe_services c; pe_last_seen := pe_last_seen c; pe_rating := pe_rating c;
    pe_source := pe_source c; pe_last_attempt := tn_now t |}).
  assert (Ect : tried !! i = Some (mark c)) by (apply alter_here, Hic).
  pose proof (sum_alter (chances T) mark (cs_candidates st) i c Hic) as S1.
  change (sum_list_with (chances T) (alter mark i (cs_candidates st))) with (total_chances T tried) in S1.
  fold (total_chances T (cs_candidates st)) in S1.
  set (ct := mark c) in *. assert (Hct1 : pe_rating ct = pe_rating c) by done.
  assert (Hct2 : pe_last_attempt ct = tn_now t) by done. clearbody ct.
  pose proof (attempt_chances T (tn_now t) _ _ c w Hw Hrc Htaken ct
    {| pe_ip_address := pe_ip_address ct; pe_port := pe_port ct; pe_stream := pe_stream ct;
       pe_services := pe_services ct; pe_last_seen := pe_last_seen ct;
       pe_rating := rating_down (pe_rating ct); pe_source := pe_source ct;
       pe_last_attempt := pe_last_attempt ct |} Hct1 Hct2) as Hch.
  cbn [pe_rating pe_last_attempt] in Hch. rewrite Hct1 in Hch. specialize (Hch eq_refl Hct2) as [Hch1 Hch2].
  pose proof (sum_alter (chances T) (fun c => {| pe_ip_address := pe_ip_address c; pe_port := pe_port c;
    pe_stream := pe_stream c; pe_services := pe_services c; pe_last_seen := pe_last_seen c;
    pe_rating := rating_down (pe_rating c); pe_source := pe_source c; pe_last_attempt := pe_last_attempt c |})
    tried i ct Ect) as S2. rewrite <- Hct1 in Hch2. fold (demote i tried) in S2. fold (total_chances T (demote i tried)) in S2.
  fold (total_chances T tried) in S2.
  apply bind_ok_inv in E as ([[sock closed] px] & _ & E). cbv beta iota in E.
  destruct (sock <? 0).
  { injection E as <-. split; [exact Hrf|]. unfold turns_left. cbn [cs_candidates cs_connected]. lia. }
  apply bind_ok_inv in E as ([ok s'] & _ & E). destruct ok; injection E as <-; unfold turns_left; cbn [cs_candidates cs_connected].
  - split; [exact Hrt|]. lia.
  - split; [exact Hrf|]. lia.
Qed.

(** C10: a round of connecting ends by itself.  Even if every attempt fails, with ratings as the table
    of peers can hold them and a clock that stays within 30 minutes, [connect_initial]'s loop makes
    at most 12 turns for each candidate and one for each connection wanted, and then leaves because
    there are enough connections, because it is told to stop, or because 50 draws found no
    candidate: the local copy of the ratings goes down with each failure until the candidate is
    cooling down. *)
Theorem connect_round_terminates (onion clearnet : bm_socks_proxy_config) (T want : Z)
  (turns : list turn_env) (st st' : connect_state) :
  all_rated (cs_candidates st) -> Forall (in_window T) turns ->
  (PATIENCE * length (cs_candidates st) + Z.to_nat (want - cs_connected st) <= length turns)%nat ->
  connect_turns g config onion clearnet want turns st = Ok st' ->
  want <= cs_connected st'
  \/ exists t, t ∈ turns /\ connect_turn g config onion clearnet t st' = Ok None.
Proof.
  intros Hr Hw Hlen. pose proof (total_chances_le T (cs_candidates st)) as Hle.
  assert (Hl : (turns_left T want st <= length turns)%nat) by (unfold turns_left; lia).
  clear Hle Hlen. revert st Hr Hl. induction Hw as [|t turns Ht Hts IH]; intros st Hr Hl E; cbn [connect_turns] in E;
    (destruct (Z.leb_spec want (cs_connected st)) as [Hwant|Hwant]; [left; by injection E as <-|]).
  - unfold turns_left in Hl. cbn [length] in Hl. lia.
  - apply bind_ok_inv in E as (r & E1 & E). destruct r as [st1|].
    + destruct (connect_turn_progress onion clearnet T want t st st1 Ht Hr Hwant E1) as [Hr1 Hl1].
      cbn [length] in Hl. destruct (IH st1 Hr1 ltac:(lia) E) as [|(t' & Hin & Ht')]; [by left|].
      right. exists t'. split; [by right|done].
    + injection E as <-. right. exists t. split; [by left|done].
Qed.
End RoundEnds.

(** ** The epoll thread can free a connection that is being opened *)

Section Race.
Context `{OS : OpenSSL} `{INP : InetNtop} (g : protocol_globals).

(** The connection is registered with epoll before the version message is sent and before it is
    in the registry, and no lock or reference holds it.  So when the peer hangs up at once and the
    epoll thread handles that first, [close_connection] frees the [bm_fd_data] and this thread goes
    on to use it: for every candidate whose socket opens and can be registered, [greet_peer] accesses
    freed memory. *)
Theorem greet_peer_use_after_free (config : connector_config) (c : bm_peer_entry) (sock : Z)
  (t : turn_env) (s : net_state) (conn : bm_fd_data) :
  bm_fd_data_new BM_FD_CLIENT_SOCKET sock (tn_now t) (tn_local t) (tn_peer t) (tn_answers t) (tn_ctl t) = Ok conn ->
  head (tn_ctl t) = Some true ->
  (forall s, tn_registered t s = close_connection s (tn_ptr t)) ->
  greet_peer g config c sock t s = Ub.
Proof.
  intros En Hctl Hhang. unfold greet_peer. rewrite En.
  set (conn0 := conn <| c_logical_peer_ip := _ |> <| c_logical_peer_port := _ |>).
  assert (Hans : ctl_answers (c_send conn0) = tn_ctl t)
    by (unfold bm_fd_data_new in En; repeat case_match; by simplify_eq).
  destruct (bm_network_epoll_register conn0) as [ok conn1] eqn:Er.
  assert (ok = true) as ->.
  { unfold bm_network_epoll_register, epoll_ctl in Er. rewrite Hans in Er.
    destruct (tn_ctl t) as [|b l]; [done|]. cbn in Hctl. simplify_eq/=. congruence. }
  cbn [negb]. rewrite Hhang.
  set (s1 := s <| ns_heap := _ |>).
  destruct (close_connection_spec s1 (tn_ptr t) conn1) as (s2 & -> & Hh & _).
  { unfold s1. cbn [update_field ns_heap]. apply lookup_insert_eq. }
  rewrite bind_ok. unfold deref. by rewrite Hh, lookup_delete_eq.
Qed.
End Race.

(** ** Witnesses *)

Section ConnectorWitnesses.
#[local] Existing Instance toy_OpenSSL.
#[local] Existing Instance toy_OpenSSLLaws.
#[local] Existing Instance toy_ntop.

Definition proxy_example : proxy_socket :=
  {| px_in := [RECV_AGAIN true; RECEIVED [5]; RECEIVED [0; 5; 0; 0]; RECEIVED ([1; 127; 0; 0; 1; 31; 144] ++ [77])];
     px_out := [TAKEN 3; SEND_AGAIN true; TAKEN 4; TAKEN 100]; px_sent := [] |}.

Lemma socks5_connect_verdict_witness :
  exists s', socks5_connect (cstr "abc.onion"%string) 8444 proxy_example = Ok (true, s')
  /\ px_sent s' = [5; 1; 0] ++ [5; 1; 0; 3; 9] ++ cstr "abc.onion"%string ++ [32; 252]
  /\ arriving (px_in s') = [77].
Proof.
  assert (Hb : bytes_ok (arriving (px_in proxy_example))) by (by apply (bool_decide_unpack _); vm_compute).
  pose proof (socks5_connect_verdict (cstr "abc.onion"%string) 8444 proxy_example Hb) as H.
  set (r := socks5_connect _ _ _) in *. vm_compute in r. subst r. cbv beta iota in H |- *.
  destruct H as (sent & Hs & _ & Hsent & _). eexists. split; [reflexivity|].
  split; [rewrite Hs, Hsent; reflexivity|reflexivity].
Defined.

(** A reply to CONNECT with a bound name of 255 bytes. *)
Lemma socks5_reply_overflow :
  socks5_connect (cstr "abc.onion"%string) 8444
    {| px_in := [RECEIVED [5; 0]; RECEIVED ([5; 0; 0; 3; 255] ++ replicate 257 97)];
       px_out := [TAKEN 3; TAKEN 300]; px_sent := [] |} = Ub.
Proof. by vm_compute. Qed.

Definition candidate_example (ip : list Z) (rating : spec_float) (last_attempt : Z) : bm_peer_entry :=
  {| pe_ip_address := ip; pe_port := 8444; pe_stream := 1; pe_services := 1; pe_last_seen := 0;
     pe_rating := rating; pe_source := []; pe_last_attempt := last_attempt |}.

(** One peer cools down, the next is rated 1; the draws are the first, the first again, the second. *)
Definition candidates_example : list bm_peer_entry :=
  [candidate_example (cstr "203.0.113.1"%string) MINUS_ONE 1000;
   candidate_example (cstr "203.0.113.2"%string) ONE 0].
Definition draws_example (k : nat) : Z * Z := (if (k <? 2)%nat then 4 else 7, 0).

Lemma choose_candidate_first_taken_witness :
  bm_peer_connector_choose_candidate_index candidates_example bm_peer_registry_init ∅
    CHOOSE_CANDIDATE_MAX_ATTEMPTS draws_example 2000 = Ok (Some 1%nat)
  /\ ~ attempt_takes candidates_example bm_peer_registry_init ∅ draws_example 2000 1.
Proof.
  assert (E : bm_peer_connector_choose_candidate_index candidates_example bm_peer_registry_init ∅
    CHOOSE_CANDIDATE_MAX_ATTEMPTS draws_example 2000 = Ok (Some 1%nat)) by (vm_compute; reflexivity).
  split; [exact E|].
  destruct (choose_candidate_first_taken _ _ _ _ _ _ _ E) as (_ & k & _ & Hi & _ & Hj).
  apply Hj. unfold drawn in Hi. destruct k as [|[|k]]; [vm_compute in Hi; done|vm_compute in Hi; done|lia].
Defined.

Definition turn_example (ip : list Z) (port : Z) (meanwhile : net_state -> cres net_state) : turn_env :=
  {| tn_stop := false; tn_now := 1700000000; tn_draws := fun _ => (0, 0);
     tn_resolve := fun _ _ => Some [attempt_example 9 0]; tn_proxy := proxy_example; tn_ptr := 500;
     tn_local := Some (AF_INET [10; 0; 0; 1] [32; 252]); tn_peer := Some (AF_INET [203; 0; 113; 42] [32; 252]);
     tn_answers := [SENT 1000]; tn_ctl := [true]; tn_clock := 1700000000; tn_nonce := Some 7;
     tn_registered := meanwhile; tn_greeted := fun s => Ok s |}.

Definition idle_net : net_state :=
  {| ns_reg := bm_peer_registry_init; ns_heap := ∅; ns_limiter := bm_inbound_rate_limiter_init;
     ns_peers := bm_peer_manager_init_schema |}.

Definition round_example : connector_config :=
  {| cc_max_outbound := 1; cc_user_agent := cstr "/CBitmessage:1/"%string; cc_testnet := false;
     cc_observed_nodes := None |}.

Definition no_proxies : config_db :=
  {| socks_proxy := ∅; socks_proxy_clearnet := ∅; tor_onion := ∅ |}.

Lemma connect_initial_bounded_witness :
  exists connected s' closed,
    bm_peer_connector_connect_initial (bm_protocol_set_testnet false) round_example no_proxies 1700000000
      [turn_example [] 0 (fun s => Ok s)] idle_net = Ok (connected, s', closed)
    /\ connected <= 1.
Proof.
  assert (Hq : forall p, no_outbound p (fun s => Ok s)).
  { intros p s s' n [= <-] Hn Hp. split; [exists n; split; [done|lia]|]. split; [done|].
    intros c c' H1 H2. by simplify_eq. }
  assert (E : match bm_peer_connector_connect_initial (bm_protocol_set_testnet false) round_example no_proxies 1700000000
      [turn_example [] 0 (fun s => Ok s)] idle_net with Ok (1, _, _) => True | _ => False end)
    by (vm_compute; exact I).
  destruct (bm_peer_connector_connect_initial (bm_protocol_set_testnet false) round_example no_proxies 1700000000
      [turn_example [] 0 (fun s => Ok s)] idle_net) as [[[connected s'] closed]| |] eqn:Ec; [|destruct E|destruct E].
  exists connected, s', closed. split; [reflexivity|].
  assert (Ht : turns_ok [turn_example [] 0 (fun s => Ok s)] (conns (ns_reg idle_net))).
  { split; [constructor; [split; apply Hq|constructor]|]. split; [apply NoDup_singleton|].
    constructor; [apply not_elem_of_nil|constructor]. }
  destruct (connect_initial_bounded (bm_protocol_set_testnet false) round_example no_proxies 1700000000 _ idle_net 0
    connected s' closed Ht eq_refl ltac:(lia) Ec) as [H _]. cbn in H. lia.
Defined.

(** Nobody can be reached. *)
Definition dead_turn : turn_env :=
  {| tn_stop := false; tn_now := 1700000000; tn_draws := fun _ => (0, 0);
     tn_resolve := fun _ _ => None; tn_proxy := proxy_example; tn_ptr := 500; tn_local := None; tn_peer := None;
     tn_answers := []; tn_ctl := []; tn_clock := 1700000000; tn_nonce := None;
     tn_registered := fun s => Ok s; tn_greeted := fun s => Ok s |}.

Definition round_start : connect_state :=
  {| cs_net := idle_net; cs_candidates := [candidate_example (cstr "203.0.113.42"%string) ONE 0];
     cs_connected := 0; cs_closed := [] |}.

Lemma connect_round_terminates_witness :
  let proxy := bm_config_store_get_socks_proxy_onion no_proxies in
  exists st', connect_turns (bm_protocol_set_testnet false) round_example proxy proxy 1 (replicate 13 dead_turn) round_start = Ok st'
  /\ cs_connected st' = 0
  /\ exists t, t ∈ replicate 13 dead_turn
     /\ connect_turn (bm_protocol_set_testnet false) round_example proxy proxy t st' = Ok None.
Proof.
  intros proxy.
  assert (E : match connect_turns (bm_protocol_set_testnet false) round_example proxy proxy 1 (replicate 13 dead_turn) round_start
    with Ok st' => cs_connected st' =? 0 | _ => false end = true) by (vm_compute; reflexivity).
  destruct (connect_turns (bm_protocol_set_testnet false) round_example proxy proxy 1 (replicate 13 dead_turn) round_start)
    as [st'| |] eqn:Ec; [|discriminate E|discriminate E].
  exists st'. split; [reflexivity|]. apply Z.eqb_eq in E. split; [exact E|].
  destruct (connect_round_terminates (bm_protocol_set_testnet false) round_example proxy proxy 1700000000 1
    (replicate 13 dead_turn) round_start st') as [H|H]; [| | |exact Ec|lia|exact H].
  - clear. unfold all_rated. constructor; [by apply (bool_decide_unpack _); vm_compute|constructor].
  - clear. apply Forall_replicate. by vm_compute.
  - clear. by apply Nat.leb_le; vm_compute.
Defined.

Lemma greet_peer_use_after_free_witness :
  greet_peer (bm_protocol_set_testnet false) round_example
    (candidate_example (cstr "203.0.113.42"%string) ONE 0) 9
    (turn_example [] 0 (fun s => close_connection s 500)) idle_net = Ub.
Proof. by eapply greet_peer_use_after_free. Defined.
End ConnectorWitnesses.
