(* ===== verification/ObjectSync.v ===== *)
(** * infra/object_sync.c

    The handlers of received commands, over the connections and the registry of EventLoop.v
    and the state of [bm_object_sync_ctx]: the pool of objects, the propagation table, the
    jobs of the proof-of-work queue and what the send pipeline owns (the queue itself, the
    cache of public keys and the messages).  [bm_object_sync_dispatch] is a command handler
    of the epoll thread, [bm_object_sync_refill_uploads] its refill of uploads and
    [bm_object_sync_on_network_sweep] its callback after a sweep.

    The registry, the table of peers and the proof-of-work queue are present (main.c sets
    them) and the build is the one without BM_HAVE_PQ.  The log is not represented, nor are
    the two fields of a connection ([disconnect_reason], [disconnect_log_quiet]) that only
    the log reads. *)

From Stdlib Require Import String.
From stdpp Require Import base tactics numbers option gmap sorting list.
From S2P Require Import Prelude Queue Varint Base58 Openssl Hash Address Object Sql ObjectStore MessagesStore.
From S2P Require Import Protocol Crypto MessageBuilder IdentityStore Keyring TrialDecrypt BroadcastDecrypt.
From S2P Require Import PubkeyCache Pow PowQueue SendPipeline Dandelion PeerManager Network PeerRegistry EventLoop.

#[local] Arguments be_split : simpl never.

Definition BM_MAX_INVENTORY_ITEMS : Z := 50000.
Definition BM_MAX_OBJECT_PAYLOAD_SIZE : Z := 2 ^ 18.
Definition BM_OBJECT_SYNC_GC_INTERVAL_SECONDS : Z := 300.
Definition BM_OBJECT_EXPIRE_GRACE_PERIOD_SECONDS : Z := 3600.
Definition BM_OBJECT_GC_GRACE_PERIOD_SECONDS : Z := 3 * 60 * 60.
Definition BM_OBJECT_SYNC_RESEND_CHECK_INTERVAL_SECONDS : Z := 300.
Definition BM_NETWORK_MIN_NONCE_TRIALS_PER_BYTE : Z := 1000.
Definition BM_NETWORK_MIN_PAYLOAD_LENGTH_EXTRA_BYTES : Z := 1000.
Definition BM_PUBKEY_RESPONSE_TTL_SECONDS : Z := 28 * 24 * 60 * 60.
Definition BM_TIME_OFFSET_LOG_INTERVAL_SECONDS : Z := 600.
Definition BM_POW_QUEUE_FULL_LOG_INTERVAL_SECONDS : Z := 600.
Definition BM_ONIONPEER_ANNOUNCE_TTL_SECONDS : Z := 2 * 24 * 60 * 60.
Definition BM_ONIONPEER_REANNOUNCE_INTERVAL_SECONDS : Z := 7380.
Definition BM_ADDR_SHARE_MAX_COUNT : Z := 500.
Definition BM_VERACK_REPLY_DELAY_SECONDS : Z := 5.
Definition BM_UPLOAD_REFILL_THRESHOLD_BYTES : Z := 2 * 1024 * 1024.
Definition BM_MIN_PROTOCOL_VERSION : Z := 3.
Definition BM_MAX_TIME_OFFSET_SECONDS : Z := 3600.

(** ** Data *)

(** The jobs behind a proof of work of this file. *)
Inductive sync_job :=
| pubkey_response_job (id : list Z) (address_version stream expires_time : Z)
| onionpeer_job (onion_address : list Z) (port stream expires_time : Z).

(** The argument of [done] for a resend. *)
Record resend_job := { rj_to_address : list Z; rj_attempt : Z }.

(** [x_send]: the queue, the tables of identity.db and messages.db, the jobs of the send
    pipeline; [x_jobs], [x_resends]: the heap of this file's jobs; [x_turn]: the number of
    commands handled, which tells apart what the environment answers to each. *)
Record bm_object_sync_ctx := {
  x_pool : object_pool;
  x_send : pipe_state;
  x_keyring : bm_keyring_t;
  x_identities : identity_db;
  x_dandelion : dandelion_state;
  x_jobs : gmap Z sync_job;
  x_resends : gmap Z resend_job;
  x_user_agent : option (list Z);
  x_last_gc : Z;
  x_last_resend_check : Z;
  x_last_onion_announce : Z;
  x_time_offset_log_throttle : bm_log_throttle;
  x_pow_queue_full_log_throttle : bm_log_throttle;
  x_turn : nat
}.
#[export] Instance bm_object_sync_ctx_eta : RecordEta bm_object_sync_ctx := fun x =>
  Build_bm_object_sync_ctx (x_pool x) (x_send x) (x_keyring x) (x_identities x) (x_dandelion x) (x_jobs x)
    (x_resends x) (x_user_agent x) (x_last_gc x) (x_last_resend_check x) (x_last_onion_announce x)
    (x_time_offset_log_throttle x) (x_pow_queue_full_log_throttle x) (x_turn x).

Definition bm_object_sync_ctx_init (pool : object_pool) (send : pipe_state) (keyring : bm_keyring_t)
    (ids : identity_db) (d : dandelion_state) (user_agent : option (list Z)) : bm_object_sync_ctx :=
  {| x_pool := pool; x_send := send; x_keyring := keyring; x_identities := ids; x_dandelion := d;
     x_jobs := ∅; x_resends := ∅; x_user_agent := user_agent; x_last_gc := 0; x_last_resend_check := 0;
     x_last_onion_announce := 0; x_time_offset_log_throttle := throttle_start;
     x_pow_queue_full_log_throttle := throttle_start; x_turn := 0 |}.

Abbreviation x_messages x := (sp_messages (x_send x)).
Abbreviation x_pubkeys x := (sp_pubkeys (x_send x)).
Definition with_messages (x : bm_object_sync_ctx) (m : messages_db) : bm_object_sync_ctx :=
  x <| x_send := (x_send x) <| sp_messages := m |> |>.
Definition with_pubkeys (x : bm_object_sync_ctx) (pk : pubkey_db) : bm_object_sync_ctx :=
  x <| x_send := (x_send x) <| sp_pubkeys := pk |> |>.
Definition with_inbox_of (x : bm_object_sync_ctx) (i : inbox) : bm_object_sync_ctx :=
  with_messages x (with_inbox (x_messages x) i).

(** What the environment answers while a command is handled: [time(NULL)] at the handler's
    first call, in each helper, in the SQL of peer_manager.c, at a send, and before the two periodic jobs; the clock
    readings and the random delays of the propagation; random bytes; and the addresses
    [malloc] gives. *)
Record sync_env := {
  en_now : Z;
  en_ack : Z;
  en_getpubkey : Z;
  en_onionpeer : Z;
  en_store : Z;
  en_record : Z;
  en_send : Z;
  en_gc : Z;
  en_resend : Z;
  en_clock : nat -> Z;
  en_delay : list Z -> Z;
  en_pubkey : entropy;
  en_version_nonce : option Z;
  en_job : Z;
  en_resends : nat -> Z * Z * send_random
}.

(** [inet_pton(AF_INET, text)]: the four bytes. *)
Class InetPton := { inet_pton4 : list Z -> option (list Z) }.

Section Sync.
Context `{OS : OpenSSL} `{BN : BigNum} `{INP : InetNtop} `{IPT : InetPton} (g : protocol_globals).
Context (solve : list Z -> Z -> Z).

Abbreviation SW := (net_state * bm_object_sync_ctx)%type.

(** ** Housekeeping *)

(** The number of deleted objects. *)
Definition bm_object_sync_gc (x : bm_object_sync_ctx) (now : Z) : Z * bm_object_sync_ctx :=
  let x := x <| x_last_gc := now |> in
  let '(deleted, pool) := bm_object_store_delete_expired (x_pool x) (now - BM_OBJECT_GC_GRACE_PERIOD_SECONDS) in
  (deleted, x <| x_pool := pool |>).

Definition maybe_run_gc (x : bm_object_sync_ctx) (now : Z) : bm_object_sync_ctx :=
  if now - x_last_gc x >=? BM_OBJECT_SYNC_GC_INTERVAL_SECONDS then (bm_object_sync_gc x now).2 else x.

(** [bm_peer_registry_broadcast_inv] of one hash. *)
Definition announce (e : sync_env) (sx : SW) (hash : list Z) (except : option Z) (now : Z) : cres SW :=
  let '(s, x) := sx in
  '(heap, d) ← bm_peer_registry_broadcast_inv g (en_clock e) (en_delay e) (ns_reg s) (ns_heap s)
                 (x_dandelion x) [hash] except now;
  Ok (s <| ns_heap := heap |>, x <| x_dandelion := d |>).

Definition pool_insert (x : bm_object_sync_ctx) (hash : list Z) (object_type stream : Z) (object : list Z)
    (expires_time now : Z) : cres bm_object_sync_ctx :=
  pool ← bm_object_store_insert (x_pool x) hash (s32 object_type) (s32 stream) object (s64 expires_time) now;
  Ok (x <| x_pool := pool |>).

(** ** Resending *)

(** [done] of a resend that was accepted. *)
Definition resend_done (e : sync_env) (sx : SW) (user rc : Z) (object : option (list Z)) (now : Z) : cres SW :=
  let '(s, x) := sx in
  match x_resends x !! user with
  | None => Ub
  | Some _ =>
      sx ← (match object with
            | Some object =>
                if negb (rc =? 0) then Ok (s, x) else
                match bm_object_parse_header object with
                | Ub => Ub
                | Err => Ok (s, x)
                | Ok hdr =>
                    let hash := bm_inventory_hash object in
                    if bm_object_store_has (x_pool x) hash then Ok (s, x) else
                    x ← pool_insert x hash (object_type hdr) (stream hdr) object (expires_time hdr) now;
                    announce e (s, x) hash None now
                end
            | None => Ok (s, x)
            end);
      Ok (sx.1, sx.2 <| x_resends := delete user (x_resends sx.2) |>)
  end.

(** One candidate; the [i]-th answers of the environment are the two addresses and the
    random bytes. *)
Definition resend_one (e : sync_env) (now : Z) (i : nat) (c : bm_sent_resend_candidate) (x : bm_object_sync_ctx)
  : cres bm_object_sync_ctx :=
  let new_resend_count := rc_resend_count c + 1 in
  let next_resend_time := now + BM_RESEND_INITIAL_INTERVAL_SECONDS * 2 ^ new_resend_count in
  let '(job, p, rnd) := en_resends e i in
  let x := x <| x_resends := <[job := {| rj_to_address := rc_to_address c; rj_attempt := new_resend_count |}]>
                               (x_resends x) |> in
  '(rc, send) ← bm_send_pipeline_send_message_async g solve true false (x_keyring x) (x_identities x) (x_send x)
                  (rc_from_address c) (rc_to_address c) (rc_subject c) (rc_body c) (u64 (rc_ttl c))
                  (rc_ack_stealth_level c) (Some (rc_msg_id c)) next_resend_time now job p rnd;
  let x := x <| x_send := send |> in
  Ok (if rc =? 0 then x else x <| x_resends := delete job (x_resends x) |>).

Fixpoint resend_loop (e : sync_env) (now : Z) (i : nat) (l : list bm_sent_resend_candidate)
    (x : bm_object_sync_ctx) : cres bm_object_sync_ctx :=
  match l with
  | [] => Ok x
  | c :: l => x ← resend_one e now i c x; resend_loop e now (S i) l x
  end.

(** The number of candidates. *)
Definition bm_object_sync_check_resends (e : sync_env) (x : bm_object_sync_ctx) (now : Z)
  : cres (Z * bm_object_sync_ctx) :=
  let x := x <| x_last_resend_check := now |> in
  let candidates := bm_messages_store_list_resend_candidates (x_messages x) now BM_RESEND_MAX_ATTEMPTS in
  x ← resend_loop e now 0 candidates x;
  Ok (Z.of_nat (length candidates), x).

Definition maybe_run_resend_check (e : sync_env) (x : bm_object_sync_ctx) (now : Z) : cres bm_object_sync_ctx :=
  if now - x_last_resend_check x >=? BM_OBJECT_SYNC_RESEND_CHECK_INTERVAL_SECONDS
  then '(_, x) ← bm_object_sync_check_resends e x now; Ok x else Ok x.

(** ** Objects *)

Definition object_pow_is_valid (object : list Z) (hdr : bm_object_header) (now : Z) : cres bool :=
  let payload_no_nonce := drop 8 object in
  let ttl := if expires_time hdr >? u64 now then u64 (expires_time hdr - u64 now) else 0 in
  target ← bm_pow_get_target (blen payload_no_nonce) ttl BM_NETWORK_MIN_NONCE_TRIALS_PER_BYTE
             BM_NETWORK_MIN_PAYLOAD_LENGTH_EXTRA_BYTES;
  value ← bm_pow_trial_value (nonce hdr) (bm_sha512 payload_no_nonce);
  Ok (value <=? target).

(** [(int64_t)hdr.expires_time < now - BM_OBJECT_EXPIRE_GRACE_PERIOD_SECONDS] *)
Definition expired_for_good (hdr : bm_object_header) (now : Z) : bool :=
  s64 (expires_time hdr) <? now - BM_OBJECT_EXPIRE_GRACE_PERIOD_SECONDS.

Definition validate_and_store_ack (e : sync_env) (sx : SW) (except : option Z) (ack_payload : list Z) : cres SW :=
  let '(s, x) := sx in
  match bm_parse_message g ack_payload with
  | Ub => Ub
  | Err => Ok (s, x)
  | Ok (BM_PARSE_OK msg consumed) =>
      if negb (consumed =? blen ack_payload) || negb (strncmp_eq 12 (msg_command msg) (cstr "object"%string))
      then Ok (s, x) else
      let object := default [] (Protocol.msg_payload msg) in
      match bm_object_parse_header object with
      | Ub => Ub
      | Err => Ok (s, x)
      | Ok hdr =>
          let now := en_ack e in
          if expired_for_good hdr now then Ok (s, x) else
          valid ← object_pow_is_valid object hdr now;
          if negb valid then Ok (s, x) else
          let hash := bm_inventory_hash object in
          let already_known := bm_object_store_has (x_pool x) hash in
          x ← pool_insert x hash (object_type hdr) (stream hdr) object (expires_time hdr) now;
          if already_known then Ok (s, x) else announce e (s, x) hash except now
      end
  | Ok _ => Ok (s, x)
  end.

(** ** Answers to getpubkey *)

(** The [user_data] of this file's proofs of work: the code no callback of the send
    pipeline has. *)
Definition sync_user (p : Z) : Z := p * 4 + 3.

Definition pubkey_response_done (e : sync_env) (sx : SW) (p : Z) (object : option (list Z)) (now : Z) : cres SW :=
  let '(s, x) := sx in
  match x_jobs x !! p with
  | Some (pubkey_response_job id address_version stream expires_time) =>
      sx ← (match object with
            | None => Ok (s, x)
            | Some object =>
                let hash := bm_inventory_hash object in
                if bm_object_store_has (x_pool x) hash then Ok (s, x) else
                x ← pool_insert x hash BM_OBJECT_PUBKEY stream object expires_time now;
                let x := with_pubkeys x (bm_pubkey_cache_set_self_response_id (x_pubkeys x) id address_version
                                           stream hash (s64 expires_time)) in
                announce e (s, x) hash None now
            end);
      Ok (sx.1, sx.2 <| x_jobs := delete p (x_jobs sx.2) |>)
  | _ => Ub
  end.

(** Whether an answer made earlier was announced again. *)
Definition reuse_cached_pubkey_response (e : sync_env) (sx : SW) (id : list Z) (address_version stream now : Z)
  : cres (bool * SW) :=
  let '(s, x) := sx in
  match bm_pubkey_cache_get_self_response_id (x_pubkeys x) id address_version stream now with
  | None => Ok (false, (s, x))
  | Some cached_hash =>
      if negb (bm_object_store_has (x_pool x) cached_hash) then Ok (false, (s, x)) else
      sx ← announce e (s, x) cached_hash None now;
      Ok (true, sx)
  end.

(** A job of this file put on the heap and its proof of work into the queue; the code. *)
Definition submit_job (x : bm_object_sync_ctx) (p : Z) (job : sync_job) (payload : list Z) (target : Z)
    (key : list Z) : Z * bm_object_sync_ctx :=
  let x := x <| x_jobs := <[p := job]> (x_jobs x) |> in
  let '(rc, q) := bm_pow_queue_submit false (sp_queue (x_send x)) payload target (Some key) (sync_user p) in
  let x := x <| x_send := (x_send x) <| sp_queue := q |> |> in
  (rc, if negb (rc =? 0) then x <| x_jobs := delete p (x_jobs x) |> else x).

Definition submit_pubkey_response (e : sync_env) (x : bm_object_sync_ctx) (payload : list Z) (target : Z)
    (id : list Z) (address_version stream expires_time : Z) (key : list Z) (now : Z)
  : cres bm_object_sync_ctx :=
  let '(rc, x) := submit_job x (en_job e) (pubkey_response_job id address_version stream expires_time) payload
                    target key in
  if rc <? 0 then
    '(_, t) ← bm_log_throttle_check (x_pow_queue_full_log_throttle x) now BM_POW_QUEUE_FULL_LOG_INTERVAL_SECONDS;
    Ok (x <| x_pow_queue_full_log_throttle := t |>)
  else Ok x.

(** The identity a request is about. *)
Definition requested_identity (kr : bm_keyring_t) (hdr : bm_object_header) (body : list Z)
  : cres (option bm_unlocked_identity) :=
  if (version hdr <? 2) || (version hdr >? 4) then Ok None else
  if version hdr <=? 3 then
    if blen body <? BM_RIPE_LEN then Ok None else
    ripe ← rdn body 0 BM_RIPE_LEN;
    match bm_keyring_find_by_ripe_version kr ripe (version hdr) (stream hdr) with
    | Some id => Ok (Some id)
    | None => Ok (if version hdr =? 3 then bm_keyring_find_by_ripe_version kr ripe 4 (stream hdr) else None)
    end
  else
    if blen body <? 32 then Ok None else
    tag ← rdn body 0 32;
    found ← bm_keyring_find_by_tag kr tag;
    Ok (match found with
        | Some id => if negb (u_address_version id =? version hdr) || negb (u_stream id =? stream hdr)
                     then None else Some id
        | None => None
        end).

Definition response_info (id : bm_unlocked_identity) (version : Z) : bm_identity_info :=
  {| id_address_version := version; id_stream := u_stream id; id_pub_signing := u_pub_signing id;
     id_pub_encryption := u_pub_encryption id; id_priv_signing := u_priv_signing id;
     id_nonce_trials_per_byte := u_nonce_trials_per_byte id;
     id_payload_length_extra_bytes := u_payload_length_extra_bytes id; id_does_ack := true |}.

Definition build_response (e : sync_env) (info : bm_identity_info) (ripe : list Z) (expires_time : Z)
  : cres (list Z) :=
  if id_address_version info =? 2 then bm_build_pubkey_v2 info expires_time
  else if id_address_version info =? 3 then bm_build_pubkey_v3 info expires_time (e_sign (en_pubkey e))
  else bm_build_pubkey_v4 info ripe expires_time (en_pubkey e).

Definition handle_incoming_getpubkey (e : sync_env) (sx : SW) (hdr : bm_object_header) (object : list Z)
  : cres SW :=
  let '(s, x) := sx in
  found ← requested_identity (x_keyring x) hdr (drop (Z.to_nat (header_len hdr)) object);
  match found with
  | None => Ok (s, x)
  | Some id =>
      if u_is_chan id then Ok (s, x) else
      let ripe := u_ripe id in
      let info := response_info id (version hdr) in
      let now := en_getpubkey e in
      '(reused, (s, x)) ← reuse_cached_pubkey_response e (s, x) ripe (version hdr) (u_stream id) now;
      if reused : bool then Ok (s, x) else
      let expires_time := u64 (now + BM_PUBKEY_RESPONSE_TTL_SECONDS) in
      match build_response e info ripe expires_time with
      | Ub => Ub
      | Err => Ok (s, x)
      | Ok payload =>
          target ← bm_pow_get_target (blen payload) BM_PUBKEY_RESPONSE_TTL_SECONDS
                     (u_nonce_trials_per_byte id) (u_payload_length_extra_bytes id);
          let key := [80; u8 (version hdr)] ++ be_split 8 (u_stream id) ++ ripe in
          x ← submit_pubkey_response e x payload target ripe (version hdr) (u_stream id) expires_time key now;
          Ok (s, x)
      end
  end.

(** ** Broadcasts *)

(** The subscriptions in turn, until one of them opens the object. *)
Fixpoint broadcast_subscriptions (subs : list (list Z * list Z)) (db : inbox) (object : list Z) (now : Z)
  : cres inbox :=
  match subs with
  | [] => Ok db
  | (address, _) :: subs =>
      match bm_address_decode address with
      | Ub => Ub
      | Err => broadcast_subscriptions subs db object now
      | Ok (candidate_version, candidate_stream, candidate_ripe) =>
          match bm_trial_decrypt_broadcast_and_store db object candidate_version candidate_stream
                  candidate_ripe now with
          | Ub => Ub
          | Err => broadcast_subscriptions subs db object now
          | Ok db => Ok db
          end
      end
  end.

Definition handle_incoming_broadcast (e : sync_env) (x : bm_object_sync_ctx) (object : list Z)
  : cres bm_object_sync_ctx :=
  i ← broadcast_subscriptions (bm_messages_store_list_subscriptions (x_messages x)) (m_inbox (x_messages x))
        object (en_store e);
  Ok (with_inbox_of x i).

(** ** Onion peers *)

Definition ALPHABET : list Z := cstr "abcdefghijklmnopqrstuvwxyz234567"%string.

(** [while (bits >= 5)]; at most 12 bits are in the buffer, so two rounds are enough. *)
Fixpoint base32_flush (fuel : nat) (buffer bits : Z) (out : list Z) (out_len : Z) : cres (Z * list Z * Z) :=
  if bits >=? 5 then
    match fuel with
    | O => Ub
    | S fuel =>
        let bits := bits - 5 in
        c ← rd ALPHABET (Z.land (Z.shiftr buffer bits) 31);
        out ← wr out out_len [c];
        base32_flush fuel buffer bits out (out_len + 1)
    end
  else Ok (bits, out, out_len).

Fixpoint base32_encode_loop (data : list Z) (buffer bits : Z) (out : list Z) (out_len : Z)
  : cres (Z * Z * list Z * Z) :=
  match data with
  | [] => Ok (buffer, bits, out, out_len)
  | d :: data =>
      let buffer := u64 (Z.lor (Z.shiftl buffer 8) d) in
      '(bits, out, out_len) ← base32_flush 2 buffer (bits + 8) out out_len;
      base32_encode_loop data buffer bits out out_len
  end.

(** The block [out] after writing and the length written. *)
Definition base32_encode_lower (data out : list Z) : cres (list Z * Z) :=
  '(buffer, bits, out, out_len) ← base32_encode_loop data 0 0 out 0;
  if bits >? 0 then
    c ← rd ALPHABET (Z.land (u64 (Z.shiftl buffer (5 - bits))) 31);
    out ← wr out out_len [c];
    Ok (out, out_len + 1)
  else Ok (out, out_len).

Definition V3_ONION_KEY_LEN : Z := 35.

(** The address and the port an onionpeer object names. *)
Definition onion_of (body : list Z) : cres (list Z * Z) :=
  '(port_len, port) ← bm_varint_decode body (blen body);
  if (port =? 0) || (port >? 65535) then Err else
  let host := drop (Z.to_nat port_len) body in
  if negb (blen host =? 6 + V3_ONION_KEY_LEN) then Err else
  prefix ← rdn host 0 6;
  if negb (list_eqb prefix ONIONCAT_PREFIX) then Err else
  key ← rdn host 6 V3_ONION_KEY_LEN;
  '(onion_address, b32_len) ← base32_encode_lower key (malloc (56 + 6 + 1));
  onion_address ← wr onion_address b32_len (cstr ".onion"%string ++ [0]);
  Ok (c_string onion_address, port).

Definition handle_incoming_onionpeer (e : sync_env) (sx : SW) (hdr : bm_object_header) (object : list Z)
  : cres SW :=
  let '(s, x) := sx in
  match onion_of (drop (Z.to_nat (header_len hdr)) object) with
  | Ub => Ub
  | Err => Ok (s, x)
  | Ok (onion_address, port) =>
      Ok (s <| ns_peers := bm_peer_manager_upsert_learned (ns_peers s) onion_address port (s32 (stream hdr)) 1
                             (en_onionpeer e) (cstr "onionpeer_obj"%string) |>, x)
  end.

Definition onionpeer_done (e : sync_env) (sx : SW) (p : Z) (object : option (list Z)) (now : Z) : cres SW :=
  let '(s, x) := sx in
  match x_jobs x !! p with
  | Some (onionpeer_job _ _ stream expires_time) =>
      sx ← (match object with
            | None => Ok (s, x)
            | Some object =>
                let hash := bm_inventory_hash object in
                if bm_object_store_has (x_pool x) hash then Ok (s, x) else
                x ← pool_insert x hash BM_OBJECT_ONIONPEER stream object expires_time now;
                announce e (s, x) hash None now
            end);
      Ok (sx.1, sx.2 <| x_jobs := delete p (x_jobs sx.2) |>)
  | _ => Ub
  end.

(** [Err]: -1, the object could not be built; [p]: the address of the job. *)
Definition bm_object_sync_announce_onion_peer (x : bm_object_sync_ctx) (onion_address : list Z) (port now p : Z)
  : cres bm_object_sync_ctx :=
  let expires_time := u64 (now + BM_ONIONPEER_ANNOUNCE_TTL_SECONDS) in
  payload ← bm_build_onionpeer onion_address (u16 port) 1 expires_time;
  target ← bm_pow_get_target (blen payload) BM_ONIONPEER_ANNOUNCE_TTL_SECONDS
             BM_NETWORK_MIN_NONCE_TRIALS_PER_BYTE BM_NETWORK_MIN_PAYLOAD_LENGTH_EXTRA_BYTES;
  Ok (submit_job x p (onionpeer_job (text_field 64 onion_address) port 1 expires_time) payload target [79]).2.

Definition bm_object_sync_validate_onion_address (onion_address : option (list Z)) (port : Z) : cres unit :=
  match onion_address with
  | None | Some [] => Err
  | Some a => _ ← bm_build_onionpeer a (u16 port) 1 0; Ok ()
  end.

Definition bm_object_sync_maybe_reannounce_onion_peer (sx : SW) (onion_address : option (list Z))
    (port now p : Z) : cres SW :=
  let '(s, x) := sx in
  match onion_address with
  | None | Some [] => Ok (s, x)
  | Some a =>
      if negb (x_last_onion_announce x =? 0)
         && (now - x_last_onion_announce x <? BM_ONIONPEER_REANNOUNCE_INTERVAL_SECONDS) then Ok (s, x) else
      if bm_peer_registry_count (ns_reg s) =? 0 then Ok (s, x) else
      let x := x <| x_last_onion_announce := now |> in
      match bm_object_sync_announce_onion_peer x a port now p with
      | Ub => Ub
      | Err => Ok (s, x)
      | Ok x => Ok (s, x)
      end
  end.

(** ** A received object *)

(** The outstanding requests in turn, until one of them opens the key. *)
Fixpoint parse_pubkey_v4_any (object : list Z) (pending : list (list Z * Z * Z)) : cres bm_cached_pubkey :=
  match pending with
  | [] => Err
  | (ripe, address_version, stream) :: pending =>
      match bm_parse_pubkey_v4 object ripe address_version stream with
      | Err => parse_pubkey_v4_any object pending
      | r => r
      end
  end.

Definition handle_incoming_pubkey (e : sync_env) (x : bm_object_sync_ctx) (hdr : bm_object_header)
    (object : list Z) : cres bm_object_sync_ctx :=
  let parsed := if version hdr =? 2 then bm_parse_pubkey_v2 object
                else if version hdr =? 3 then bm_parse_pubkey_v3 object
                else if version hdr =? 4
                then parse_pubkey_v4_any object (bm_pubkey_cache_list_pending_requests (x_pubkeys x))
                else Err in
  match parsed with
  | Ub => Ub
  | Err => Ok x
  | Ok cached =>
      Ok (with_pubkeys x (bm_pubkey_cache_clear_request
                            (bm_pubkey_cache_upsert (x_pubkeys x) cached (en_now e)) (c_ripe cached)))
  end.

Definition handle_incoming_msg (e : sync_env) (sx : SW) (conn : Z) (object : list Z) : cres SW :=
  let '(s, x) := sx in
  match bm_trial_decrypt_and_store (x_keyring x) (m_inbox (x_messages x)) object (en_store e) with
  | Ub => Ub
  | Err => Ok (s, x)
  | Ok (i, ack) =>
      let x := with_inbox_of x i in
      match ack with
      | Some ack_payload =>
          if blen ack_payload >? 0 then validate_and_store_ack e (s, x) (Some conn) ack_payload else Ok (s, x)
      | None => Ok (s, x)
      end
  end.

(** What is done with a new object, by its type. *)
Definition process_object (e : sync_env) (sx : SW) (conn : Z) (hdr : bm_object_header) (object : list Z)
  : cres SW :=
  let '(s, x) := sx in
  if object_type hdr =? BM_OBJECT_MSG then handle_incoming_msg e (s, x) conn object
  else if object_type hdr =? BM_OBJECT_PUBKEY then
    x ← handle_incoming_pubkey e x hdr object; Ok (s, x)
  else if object_type hdr =? BM_OBJECT_GETPUBKEY then handle_incoming_getpubkey e (s, x) hdr object
  else if object_type hdr =? BM_OBJECT_BROADCAST then
    x ← handle_incoming_broadcast e x object; Ok (s, x)
  else if object_type hdr =? BM_OBJECT_ONIONPEER then handle_incoming_onionpeer e (s, x) hdr object
  else Ok (s, x).

Definition handle_object (e : sync_env) (sx : SW) (conn : Z) (object : list Z) : cres SW :=
  let '(s, x) := sx in
  if blen object >? BM_MAX_OBJECT_PAYLOAD_SIZE then Ok (s, x) else
  match bm_object_parse_header object with
  | Ub => Ub
  | Err => Ok (s, x)
  | Ok hdr =>
      let now0 := en_now e in
      if expired_for_good hdr now0 then Ok (s, x) else
      valid ← object_pow_is_valid object hdr now0;
      if negb valid then Ok (s, x) else
      let hash := bm_inventory_hash object in
      let x := with_messages x (bm_messages_store_try_mark_ack_received (x_messages x) hash).2 in
      if bm_object_store_has (x_pool x) hash then Ok (s, x) else
      x ← pool_insert x hash (object_type hdr) (stream hdr) object (expires_time hdr) now0;
      sx ← announce e (s, x) hash (Some conn) now0;
      process_object e sx conn hdr object
  end.

(** ** Inventory *)

Definition send_to (s : net_state) (p : Z) (packet : list Z) (now : Z) : cres net_state :=
  conn ← deref (ns_heap s) p;
  Ok (store s p (bm_network_send conn packet now).2).

Definition on_conn (s : net_state) (p : Z) (f : bm_fd_data -> cres bm_fd_data) : cres net_state :=
  conn ← deref (ns_heap s) p;
  conn ← f conn;
  Ok (store s p conn).

(** The items the pool does not have; the source of each is noted. *)
Fixpoint missing_items (e : sync_env) (x : bm_object_sync_ctx) (is_dinv : bool) (items : list (list Z))
  : cres (list (list Z) * bm_object_sync_ctx) :=
  match items with
  | [] => Ok ([], x)
  | h :: items =>
      if bm_object_store_has (x_pool x) h then missing_items e x is_dinv items else
      d ← bm_dandelion_note_source (x_dandelion x) h is_dinv (en_now e) (en_delay e h);
      '(missing, x) ← missing_items e (x <| x_dandelion := d |>) is_dinv items;
      Ok (h :: missing, x)
  end.

Definition handle_inv (e : sync_env) (sx : SW) (p : Z) (msg : bm_message) : cres SW :=
  let '(s, x) := sx in
  match bm_parse_inventory_message (default [] (Protocol.msg_payload msg)) with
  | Ub => Ub
  | Err => Ok (s, x)
  | Ok items =>
      if Z.of_nat (length items) >? BM_MAX_INVENTORY_ITEMS then Ok (s, x) else
      let is_dinv := strncmp_eq 12 (msg_command msg) (cstr "dinv"%string) in
      '(missing, x) ← missing_items e x is_dinv items;
      match missing with
      | [] => Ok (s, x)
      | _ =>
          match bm_create_inventory_message g (cstr "getdata"%string) missing with
          | Ub => Ub
          | Err => Ok (s, x)
          | Ok packet => s ← send_to s p packet (en_send e); Ok (s, x)
          end
      end
  end.

(** ** Uploads *)

Definition upload_pending_append (conn : bm_fd_data) (items : list (list Z)) : bm_fd_data :=
  conn <| c_upload := (c_upload conn) <| upload_pending := upload_pending (c_upload conn) ++ items |> |>.

(** The loop over the hashes from the head, [l]. *)
Fixpoint refill_loop (pool : object_pool) (l : list (list Z)) (conn : bm_fd_data) (now : Z) : cres bm_fd_data :=
  let set_pending conn l := conn <| c_upload := (c_upload conn) <| upload_pending := l |> |> in
  match l with
  | [] => Ok (set_pending conn [])
  | hash :: rest =>
      if c_pending_eviction conn || (bm_network_queued_bytes conn >=? BM_UPLOAD_REFILL_THRESHOLD_BYTES)
      then Ok (set_pending conn l) else
      match bm_object_store_get pool hash with
      | Ub => Ub
      | Err =>
          refill_loop pool rest
            (conn <| c_upload := (c_upload conn) <| upload_not_found := upload_not_found (c_upload conn) + 1 |> |>)
            now
      | Ok payload =>
          match bm_create_packet g (cstr "object"%string) payload with
          | Ub => Ub
          | Err => refill_loop pool rest conn now
          | Ok packet =>
              let '(ok, conn) := bm_network_send conn packet now in
              if ok : bool then
                refill_loop pool rest
                  (conn <| c_upload := (c_upload conn) <| upload_sent := upload_sent (c_upload conn) + 1 |> |>) now
              else Ok (set_pending conn [])
          end
      end
  end.

Definition bm_object_sync_refill_uploads (conn : bm_fd_data) (now : Z) (x : bm_object_sync_ctx)
  : cres (bm_fd_data * bm_object_sync_ctx) :=
  match upload_pending (c_upload conn) with
  | [] => Ok (conn, x)
  | l =>
      conn ← refill_loop (x_pool x) l conn now;
      match upload_pending (c_upload conn) with
      | [] => Ok (conn <| c_upload := (c_upload conn) <| upload_sent := 0 |> <| upload_not_found := 0 |> |>, x)
      | _ => Ok (conn, x)
      end
  end.

Definition handle_getdata (e : sync_env) (sx : SW) (p : Z) (msg : bm_message) : cres SW :=
  let '(s, x) := sx in
  match bm_parse_inventory_message (default [] (Protocol.msg_payload msg)) with
  | Ub => Ub
  | Err => Ok (s, x)
  | Ok items =>
      if Z.of_nat (length items) >? BM_MAX_INVENTORY_ITEMS then Ok (s, x) else
      conn ← deref (ns_heap s) p;
      let pending_before := Z.of_nat (length (upload_pending (c_upload conn))) in
      let room := if pending_before <? BM_MAX_INVENTORY_ITEMS then BM_MAX_INVENTORY_ITEMS - pending_before else 0 in
      let accepted := if Z.of_nat (length items) <? room then Z.of_nat (length items) else room in
      let conn := upload_pending_append conn (take (Z.to_nat accepted) items) in
      '(conn, x) ← bm_object_sync_refill_uploads conn (en_send e) x;
      Ok (store s p conn, x)
  end.

(** ** The handshake *)

Definition record_outbound_success (e : sync_env) (s : net_state) (conn : bm_fd_data) : net_state :=
  if bool_decide (c_type conn = BM_FD_CLIENT_SOCKET) then
    let '(ip, port) := bm_network_resolve_peer_ip_port conn Network.BM_PEER_IP_STRLEN in
    if blen ip =? 0 then s
    else s <| ns_peers := bm_peer_manager_record_result (ns_peers s) ip port 1 true (en_record e) |>
  else s.

Definition OLD_PROTOCOL : list Z := cstr "Your is using an old protocol. Closing connection."%string.
Definition FUTURE_TIME : list Z :=
  cstr "Your time is too far in the future compared to mine. Closing connection."%string.
Definition PAST_TIME : list Z :=
  cstr "Your time is too far in the past compared to mine. Closing connection."%string.

(** An error message, and the connection marked for closing. *)
Definition refuse_peer (s : net_state) (p : Z) (text : list Z) (now : Z) : cres net_state :=
  on_conn s p (fun conn =>
    match bm_create_error_message g 2 0 text with
    | Ub => Ub
    | Err => Ok (conn <| c_should_disconnect := true |>)
    | Ok packet => Ok ((bm_network_send conn packet now).2 <| c_should_disconnect := true |>)
    end).

(** The version is acceptable: the peer's fields, the verack, and for an inbound peer our
    own version. *)
Definition accept_version (e : sync_env) (sx : SW) (p : Z) (ver : bm_version_message) : cres SW :=
  let '(s, x) := sx in
  s ← on_conn s p (fun conn =>
        Ok (conn <| c_services := v_services ver |> <| c_user_agent := Some (c_string (v_user_agent ver)) |>));
  conn ← deref (ns_heap s) p;
  let s := record_outbound_success e s conn in
  s ← on_conn s p (fun conn => '(_, conn) ← bm_reply_verack g conn (en_send e); Ok conn);
  s ← on_conn s p (fun conn =>
        match x_user_agent x with
        | Some user_agent =>
            if bool_decide (c_type conn = BM_FD_SERVER_SOCKET) then
              '(_, conn) ← bm_post_version g conn user_agent 3 (c_peer_addr conn) bm_unspecified_ipv4_address
                             (en_send e) (en_send e) (en_version_nonce e);
              Ok conn
            else Ok conn
        | None => Ok conn
        end);
  Ok (s, x).

(** Whether the peer was refused, and the state. *)
Definition handle_version (e : sync_env) (sx : SW) (p : Z) (msg : bm_message) : cres (bool * SW) :=
  let '(s, x) := sx in
  ver ← bm_parse_version_message (Protocol.msg_payload msg) (msg_length msg);
  if v_version ver <? BM_MIN_PROTOCOL_VERSION then
    s ← refuse_peer s p OLD_PROTOCOL (en_send e); Ok (true, (s, x))
  else
    let now := en_now e in
    time_offset ← int64 (s64 (v_timestamp ver) - now);
    if (time_offset >? BM_MAX_TIME_OFFSET_SECONDS) || (time_offset <? - BM_MAX_TIME_OFFSET_SECONDS) then
      '(_, t) ← bm_log_throttle_check (x_time_offset_log_throttle x) now BM_TIME_OFFSET_LOG_INTERVAL_SECONDS;
      let x := x <| x_time_offset_log_throttle := t |> in
      s ← refuse_peer s p (if time_offset >? 0 then FUTURE_TIME else PAST_TIME) now;
      Ok (true, (s, x))
    else sx ← accept_version e (s, x) p ver; Ok (false, sx).

Definition handle_verack (e : sync_env) (sx : SW) (p : Z) : cres SW :=
  let '(s, x) := sx in
  s ← on_conn s p (fun conn => Ok (conn <| c_handshake_complete := true |>));
  conn ← deref (ns_heap s) p;
  let s := record_outbound_success e s conn in
  s ← on_conn s p (fun conn =>
        Ok (conn <| c_pending_verack_reply_at := c_last_activity conn + BM_VERACK_REPLY_DELAY_SECONDS |>));
  Ok (s, x).

(** ** Addresses *)

Definition IPV4_MAPPED_PREFIX : list Z := replicate 10 0 ++ [255; 255].

Definition is_routable_ipv4_peer_address (v4 : list Z) : cres bool :=
  a ← rd v4 0;
  b ← rd v4 1;
  Ok (negb ((a =? 0) || (a =? 10) || (a =? 127) || (a =? 169) && (b =? 254)
            || (a =? 172) && (b >=? 16) && (b <=? 31) || (a =? 192) && (b =? 168) || (a >=? 224))).

(** Whether an entry is kept, at the time [now]. *)
Definition addr_entry_ok (a : bm_address_info) (now : Z) : cres bool :=
  if (ai_port a =? 0) || negb (list_eqb (take 12 (ai_ip a)) IPV4_MAPPED_PREFIX) then Ok false else
  routable ← is_routable_ipv4_peer_address (drop 12 (ai_ip a));
  Ok (routable && negb (s64 (ai_time a) >? now)).

Fixpoint learn_addresses (db : hosts) (l : list bm_address_info) (now : Z) : cres hosts :=
  match l with
  | [] => Ok db
  | a :: l =>
      ok ← addr_entry_ok a now;
      learn_addresses
        (if ok : bool then
           bm_peer_manager_upsert_learned db (inet_ntop4 (drop 12 (ai_ip a))) (ai_port a) (s32 (ai_stream a))
             (ai_services a) (s64 (ai_time a)) (cstr "addr_msg"%string)
         else db) l now
  end.

Definition handle_addr (e : sync_env) (sx : SW) (msg : bm_message) : cres SW :=
  let '(s, x) := sx in
  match bm_parse_addr_message (default [] (Protocol.msg_payload msg)) with
  | Ub => Ub
  | Err => Ok (s, x)
  | Ok (count, addresses) =>
      let n := if count >? BM_MAX_INVENTORY_ITEMS then BM_MAX_INVENTORY_ITEMS else count in
      peers ← learn_addresses (ns_peers s) (take (Z.to_nat n) addresses) (en_now e);
      Ok (s <| ns_peers := peers |>, x)
  end.

(** The entries that are IPv4 addresses. *)
Definition shared_address (c : bm_peer_entry) : option bm_address_info :=
  v4 ← inet_pton4 (pe_ip_address c);
  Some {| ai_time := u64 (pe_last_seen c); ai_stream := u32 (pe_stream c); ai_services := pe_services c;
          ai_ip := IPV4_MAPPED_PREFIX ++ v4; ai_port := u16 (pe_port c) |}.

Definition send_addr_reply (e : sync_env) (s : net_state) (p : Z) : cres net_state :=
  match bm_peer_manager_list_shareable (ns_peers s) 1 (en_now e) BM_ADDR_SHARE_MAX_COUNT with
  | Ub => Ub
  | Err => Ok s
  | Ok candidates =>
      match omap shared_address candidates with
      | [] => Ok s
      | addresses =>
          match bm_create_addr_message g addresses with
          | Ub => Ub
          | Err => Ok s
          | Ok packet => send_to s p packet (en_send e)
          end
      end
  end.

(** The hashes that are not in their stem phase. *)
Fixpoint plain_hashes (d : dandelion_state) (hashes : list (list Z)) : cres (list (list Z)) :=
  match hashes with
  | [] => Ok []
  | h :: hashes =>
      stemming ← bm_dandelion_is_stemming d h;
      plain ← plain_hashes d hashes;
      Ok (if stemming : bool then plain else h :: plain)
  end.

Definition send_big_inv (e : sync_env) (sx : SW) (p : Z) : cres net_state :=
  let '(s, x) := sx in
  plain ← plain_hashes (x_dandelion x)
            (bm_object_store_list_hashes_by_stream (x_pool x) (x_pool x) 1 (en_now e));
  match plain with
  | [] => Ok s
  | _ => on_conn s p (fun conn => bm_network_begin_big_inv g conn plain (en_send e))
  end.

Definition send_verack_reply (e : sync_env) (sx : SW) (p : Z) : cres net_state :=
  let '(s, x) := sx in
  s ← send_addr_reply e s p;
  send_big_inv e (s, x) p.

Definition flush_verack_reply_one (e : sync_env) (now : Z) (p : Z) (sx : SW) : cres SW :=
  let '(s, x) := sx in
  conn ← deref (ns_heap s) p;
  if negb (c_pending_verack_reply_at conn =? 0) && (now >=? c_pending_verack_reply_at conn) then
    s ← send_verack_reply e (s, x) p;
    s ← on_conn s p (fun conn => Ok (conn <| c_pending_verack_reply_at := 0 |>));
    Ok (s, x)
  else Ok (s, x).

Definition bm_object_sync_flush_pending_verack_replies (e : sync_env) (now : Z) (sx : SW) : cres SW :=
  bm_peer_registry_for_each_locked (ns_reg sx.1) (flush_verack_reply_one e now) sx.

Definition bm_object_sync_on_network_sweep (e : sync_env) (now : Z) (sx : SW) : cres SW :=
  bm_object_sync_flush_pending_verack_replies e now sx.

(** ** Errors *)

(** A varint at the pointer, and what remains behind it; 0 bytes read is [None]. *)
Definition next_varint (p : list Z) : cres (option (Z * list Z)) :=
  match bm_varint_decode p (blen p) with
  | Ub => Ub
  | Err => Ok None
  | Ok (consumed, v) => Ok (Some (v, drop (Z.to_nat consumed) p))
  end.

(** [fatal], and the text that is logged. *)
Definition parse_error_message (payload : list Z) : cres (Z * option (list Z)) :=
  r ← next_varint payload;
  match r with
  | None => Ok (0, None)
  | Some (fatal, p) =>
      r ← next_varint p;
      match r with
      | None => Ok (fatal, None)
      | Some (_, p) =>
          r ← next_varint p;
          match r with
          | None => Ok (fatal, None)
          | Some (vector_len, p) =>
              if negb (vector_len <=? blen p) then Ok (fatal, None) else
              r ← next_varint (drop (Z.to_nat vector_len) p);
              match r with
              | None => Ok (fatal, None)
              | Some (text_len, p) =>
                  if negb (text_len <=? blen p) then Ok (fatal, None) else
                  text ← rdn p 0 text_len;
                  Ok (fatal, Some text)
              end
          end
      end
  end.

Definition handle_error (e : sync_env) (sx : SW) (p : Z) (msg : bm_message) : cres SW :=
  let '(s, x) := sx in
  '(fatal, _) ← parse_error_message (default [] (Protocol.msg_payload msg));
  conn ← deref (ns_heap s) p;
  if (fatal >=? 1) && bool_decide (c_type conn = BM_FD_CLIENT_SOCKET) then
    let '(ip, port) := bm_network_resolve_peer_ip_port conn Network.BM_PEER_IP_STRLEN in
    Ok (if blen ip =? 0 then s
        else s <| ns_peers := bm_peer_manager_record_result (ns_peers s) ip port 1 false (en_record e) |>, x)
  else Ok (s, x).

(** ** Dispatch *)

(** Whether the peer was refused, in which case the periodic jobs are not run. *)
Definition dispatch_command (e : sync_env) (p : Z) (msg : bm_message) (sx : SW) : cres (bool * SW) :=
  let cmd_is c := strncmp_eq 12 (msg_command msg) c in
  let on sx := Ok (false, sx) in
  let '(s, x) := sx in
  if cmd_is (cstr "version"%string) then handle_version e (s, x) p msg
  else if cmd_is (cstr "verack"%string) then sx ← handle_verack e (s, x) p; on sx
  else if cmd_is (cstr "ping"%string) then
    s ← on_conn s p (fun conn => '(_, conn) ← bm_reply_pong g conn (en_send e); Ok conn); on (s, x)
  else if cmd_is (cstr "pong"%string) then on (s, x)
  else if cmd_is (cstr "addr"%string) then sx ← handle_addr e (s, x) msg; on sx
  else if cmd_is (cstr "inv"%string) || cmd_is (cstr "dinv"%string) then sx ← handle_inv e (s, x) p msg; on sx
  else if cmd_is (cstr "getdata"%string) then sx ← handle_getdata e (s, x) p msg; on sx
  else if cmd_is (cstr "object"%string) then
    sx ← handle_object e (s, x) p (default [] (Protocol.msg_payload msg)); on sx
  else if cmd_is (cstr "error"%string) then sx ← handle_error e (s, x) p msg; on sx
  else on (s, x).

(** The handler of the epoll thread: [conn] is the connection at [p], in whose buffer the
    message was found. *)
Definition bm_object_sync_dispatch (env : nat -> sync_env) (p : Z) (conn : bm_fd_data) (msg : bm_message) (sx : SW)
  : cres (bm_fd_data * SW) :=
  let '(s, x) := sx in
  let e := env (x_turn x) in
  '(refused, (s, x)) ← dispatch_command e p msg (store s p conn, x <| x_turn := S (x_turn x) |>);
  conn ← deref (ns_heap s) p;
  if refused : bool then Ok (conn, (s, x)) else
  let x := maybe_run_gc x (en_gc e) in
  x ← maybe_run_resend_check e x (en_resend e);
  Ok (conn, (s, x)).

(** ** Objects of the node itself *)

(** An item of the broadcast thread. *)
Definition broadcast_item (e : sync_env) (sx : SW) (object : list Z) : cres SW :=
  let '(s, x) := sx in
  match bm_object_parse_header object with
  | Ub => Ub
  | Err => Ok (s, x)
  | Ok hdr =>
      let hash := bm_inventory_hash object in
      let already_known := bm_object_store_has (x_pool x) hash in
      x ← pool_insert x hash (object_type hdr) (stream hdr) object (expires_time hdr) (en_now e);
      if already_known then Ok (s, x) else announce e (s, x) hash None (en_now e)
  end.

(** The reports the send pipeline makes to resends; those to other callers are not this
    file's. *)
Fixpoint run_reports (e : sync_env) (l : list send_report) (sx : SW) : cres SW :=
  match l with
  | [] => Ok sx
  | r :: l =>
      sx ← match x_resends sx.2 !! rp_user r with
           | Some _ => resend_done e sx (rp_user r) (rp_rc r) (rp_object r) (rp_now r)
           | None => Ok sx
           end;
      run_reports e l sx
  end.

(** The callback of a finished proof of work, on the worker of the queue. *)
Definition pow_callback (e : sync_env) (rnd : entropy) (sx : SW) (user : Z) (object : option (list Z)) (now : Z)
  : cres SW :=
  let '(s, x) := sx in
  match user_callback user with
  | None =>
      match x_jobs x !! user_job user with
      | Some (pubkey_response_job _ _ _ _) => pubkey_response_done e (s, x) (user_job user) object now
      | Some (onionpeer_job _ _ _ _) => onionpeer_done e (s, x) (user_job user) object now
      | None => Ub
      end
  | Some _ =>
      send ← run_callback g solve true rnd (x_send x) user object now;
      run_reports e (drop (length (sp_reports (x_send x))) (sp_reports send)) (s, x <| x_send := send |>)
  end.

(** ** Decrypting the pool again *)

(** The number of messages and the inbox. *)
Fixpoint backfill_loop (pool : object_pool) (decrypt : inbox -> list Z -> cres (inbox * option (list Z)))
    (hashes : list (list Z)) (i : inbox) : cres (Z * inbox) :=
  match hashes with
  | [] => Ok (0, i)
  | h :: hashes =>
      match bm_object_store_get pool h with
      | Ub => Ub
      | Err => backfill_loop pool decrypt hashes i
      | Ok payload =>
          match decrypt i payload with
          | Ub => Ub
          | Err => backfill_loop pool decrypt hashes i
          | Ok (i, _) => '(n, i) ← backfill_loop pool decrypt hashes i; Ok (n + 1, i)
          end
      end
  end.

(** The identities in turn, until one of them opens the object. *)
Fixpoint decrypt_single_any (identities : list bm_unlocked_identity) (now : Z) (i : inbox) (object : list Z)
  : cres (inbox * option (list Z)) :=
  match identities with
  | [] => Err
  | id :: identities =>
      match bm_trial_decrypt_and_store_single id i object now with
      | Err => decrypt_single_any identities now i object
      | r => r
      end
  end.

Definition bm_object_sync_backfill_trial_decrypt_addresses (pool : object_pool) (i : inbox) (kr : bm_keyring_t)
    (addresses : list (list Z)) (now : Z) : cres (Z * inbox) :=
  let hashes := bm_object_store_list_hashes_by_type pool pool BM_OBJECT_MSG in
  match omap (bm_keyring_find_by_address kr) addresses with
  | [] => Ok (0, i)
  | identities => backfill_loop pool (decrypt_single_any identities now) hashes i
  end.

(** [clock]: the time at the storing of a message. *)
Definition bm_object_sync_backfill_trial_decrypt (pool : object_pool) (i : inbox) (kr : bm_keyring_t)
    (address_filter : option (list Z)) (now clock : Z) : cres (Z * inbox) :=
  match address_filter with
  | Some a => bm_object_sync_backfill_trial_decrypt_addresses pool i kr [a] now
  | None =>
      backfill_loop pool (fun i object => bm_trial_decrypt_and_store kr i object clock)
        (bm_object_store_list_hashes_by_type pool pool BM_OBJECT_MSG) i
  end.
End Sync.
