(* ===== verification/PqDelivery.v ===== *)
(** * Post-quantum messages in the node (core/trial_decrypt.c, core/broadcast_decrypt.c,
    core/send_pipeline.c, infra/object_sync.c)

    The parts of these files that are compiled with BM_HAVE_PQ only: what is done with received
    objects of version 5 identities, and how messages and broadcasts of such identities are
    prepared.  The database of identities is always given.  Clearing and freeing of memory are
    not represented. *)

From Stdlib Require Import String.
From stdpp Require Import base tactics numbers option gmap list relations.
From S2P Require Import Prelude Queue Varint Base58 Openssl Hash Address Object PqHybrid AddressV5 PqObject Sql.
From S2P Require Import ObjectStore MessagesStore Protocol Crypto MessageBuilder IdentityStore Keyring PqStores.
From S2P Require Import PqKeyring TrialDecrypt BroadcastDecrypt PubkeyCache Pow PowQueue SendPipeline Dandelion.
From S2P Require Import PeerManager Network PeerRegistry EventLoop ObjectSync.

#[local] Arguments be_split : simpl never.

Definition BM_PQ_PUBKEY_RESPONSE_TTL_SECONDS : Z := 7 * 24 * 60 * 60.

(** The keyring and the tables of the post-quantum identities. *)
Record pq_node := { pn_keyring : pq_keyring; pn_db : pq_db }.
#[export] Instance pq_node_eta : RecordEta pq_node := fun n => Build_pq_node (pn_keyring n) (pn_db n).

(** A result that is not looked at: the state stays when the call failed. *)
Definition or_same {A} (old : A) (r : cres A) : cres A :=
  match r with Ok a => Ok a | Err => Ok old | Ub => Ub end.

Section PqDelivery.
Context `{OS : OpenSSL} `{OSV : OpenSSLVault} `{PQ : PqOpenSSL} `{BN : BigNum}.

(** ** Receiving *)

(** Subject and body; the array has a NUL behind the [message_len] bytes. *)
Definition pq_text (encoding : Z) (message : list Z) : cres (option (list Z) * option (list Z)) :=
  if encoding =? 2 then decode_simple (message ++ [0]) 0 (blen message)
  else
    subject ← dup_bytes_as_cstr [] 0 0;
    body ← dup_bytes_as_cstr (message ++ [0]) 0 (blen message);
    Ok (subject, body).

(** The ack when the message could be opened and was stored, and the new state. *)
Definition bm_pq_trial_decrypt_and_store (n : pq_node) (address : option (list Z)) (db : inbox) (object : list Z)
  (now : Z) (meanwhile : nat -> pq_keyring -> pq_keyring) : cres (option (option (list Z)) * pq_node * inbox) :=
  '(r, kr) ← bm_pq_keyring_open_msg (pn_keyring n) address object meanwhile;
  let n := n <| pn_keyring := kr |> in
  match r with
  | None => Ok (None, n, db)
  | Some (parsed, to_address) =>
      match bm_pqv5_address_encode (pm_from_address_version parsed) (pm_from_stream parsed) (pm_from_id parsed) with
      | Ub => Ub
      | Err => Ok (None, n, db)
      | Ok from =>
          if negb (blen from <? BM_ADDRESS_STR_MAX) then Ok (None, n, db) else
          '(subject, body) ← pq_text (pm_encoding parsed) (pm_message parsed);
          let decoded :=
            {| dm_from_address_version := pm_from_address_version parsed; dm_from_stream := pm_from_stream parsed;
               dm_from_address := text_field BM_ADDRESS_STR_MAX from;
               dm_to_address := text_field BM_ADDRESS_STR_MAX to_address; dm_subject := subject; dm_body := body;
               dm_ack_payload := if blen (pm_ack parsed) >? 0 then Some (pm_ack parsed) else None |} in
          match store_decoded_msg db object decoded now with
          | Ub => Ub
          | Err => Ok (None, n, db)
          | Ok (db, ack) =>
              pdb ← or_same (pn_db n)
                (bm_pq_pubkey_cache_store_sender (pn_db n) (pm_from_address_version parsed) (pm_from_stream parsed)
                   (pm_from_id parsed) (pm_bitfield parsed) (pm_from_sig_pk parsed) (pm_from_kem_pk parsed)
                   (pm_nonce_trials_per_byte parsed) (pm_payload_length_extra_bytes parsed) now);
              Ok (Some ack, n <| pn_db := pdb |>, db)
          end
      end
  end.

Definition bm_pq_trial_decrypt_broadcast_and_store (pdb : pq_db) (db : inbox) (object : list Z)
  (candidate_version candidate_stream : Z) (candidate_id : list Z) (now : Z) : cres (pq_db * inbox) :=
  parsed ← bm_pq_parse_broadcast object candidate_version candidate_stream candidate_id;
  from ← bm_pqv5_address_encode candidate_version candidate_stream candidate_id;
  if negb (blen from <? BM_ADDRESS_STR_MAX) then Err else
  '(subject, body) ← pq_text (pb_encoding parsed) (pb_message parsed);
  let msg_id := bm_inventory_hash object in
  db ← bm_messages_store_insert_inbox db msg_id from from subject body now;
  pdb ← or_same pdb
    (bm_pq_pubkey_cache_store_sender pdb candidate_version candidate_stream candidate_id (pb_bitfield parsed)
       (pb_from_sig_pk parsed) (pb_from_kem_pk parsed) (pb_nonce_trials_per_byte parsed)
       (pb_payload_length_extra_bytes parsed) now);
  Ok (pdb, db).

(** ** Objects handled by infra/object_sync.c *)

Definition handle_incoming_pubkey_v5 (pdb : pq_db) (hdr : bm_object_header) (object : list Z) (now : Z) : cres pq_db :=
  let body_len := blen object - header_len hdr in
  if body_len <? 32 then Ok pdb else
  tag ← rdn object (header_len hdr) 32;
  match bm_pq_pubkey_cache_find_request pdb tag with
  | Ub => Ub
  | Err => Ok pdb
  | Ok (address_version, stream, id) =>
      match bm_pq_parse_pubkey object address_version stream id with
      | Ub => Ub
      | Err => Ok pdb
      | Ok parsed =>
          match bm_pq_pubkey_cache_upsert pdb id parsed now with
          | Ub => Ub
          | Err => Ok pdb
          | Ok pdb => Ok (bm_pq_pubkey_cache_clear_request pdb tag)
          end
      end
  end.

(** The subscriptions in turn, until one of them opens the object. *)
Fixpoint pq_broadcast_subscriptions (subs : list (list Z * list Z)) (pdb : pq_db) (db : inbox) (object : list Z)
  (now : Z) : cres (pq_db * inbox) :=
  match subs with
  | [] => Ok (pdb, db)
  | (address, _) :: subs =>
      match bm_pqv5_address_decode address with
      | Ub => Ub
      | Err => pq_broadcast_subscriptions subs pdb db object now
      | Ok (version, stream, id) =>
          match bm_pq_trial_decrypt_broadcast_and_store pdb db object version stream id now with
          | Ub => Ub
          | Err => pq_broadcast_subscriptions subs pdb db object now
          | Ok r => Ok r
          end
      end
  end.

(** One round over the hashes of the pool with the tag; [Err] when none of them gave the key. *)
Fixpoint resolve_loop (hashes : list (list Z)) (pool : object_pool) (pdb : pq_db) (address_version stream : Z)
  (id tag : list Z) (now : Z) : cres pq_db :=
  match hashes with
  | [] => Err
  | h :: hashes =>
      match bm_object_store_get pool h with
      | Ub => Ub
      | Err => resolve_loop hashes pool pdb address_version stream id tag now
      | Ok object =>
          match (parsed ← bm_pq_parse_pubkey object address_version stream id;
                 bm_pq_pubkey_cache_upsert pdb id parsed now) with
          | Ub => Ub
          | Err => resolve_loop hashes pool pdb address_version stream id tag now
          | Ok pdb => Ok (bm_pq_pubkey_cache_clear_request pdb tag)
          end
      end
  end.

Definition bm_object_sync_resolve_pq_pubkey_from_pool (pool : object_pool) (pdb : pq_db) (address_version stream : Z)
  (id : list Z) (now : Z) : cres pq_db :=
  '(_, tag) ← bm_pqv5_derive_secret_and_tag address_version stream id;
  let tag_offset := 8 + 8 + 4 + bm_varint_size BM_PQ_PUBKEY_OBJECT_VERSION + bm_varint_size stream in
  resolve_loop (bm_object_store_list_hashes_by_tag pool BM_OBJECT_PUBKEY tag_offset tag) pool pdb address_version
    stream id tag now.

(** ** Sending *)

Definition is_v5_address (address : list Z) : cres bool :=
  match bm_pqv5_address_decode address with Ok _ => Ok true | Err => Ok false | Ub => Ub end.

Definition build_simple_message (subject body : list Z) : cres (list Z) :=
  let subject_len := blen subject in
  let body_len := blen body in
  let len := 8 + subject_len + 6 + body_len in
  message ← wr (malloc len) 0 (cstr "Subject:"%string);
  message ← wr message 8 subject;
  message ← wr message (8 + subject_len) (10 :: cstr "Body:"%string);
  wr message (8 + subject_len + 6) body.

(** The fields of [struct send_msg_job] that [prepare_pq_msg] sets. *)
Record pq_send_job := {
  pj_from : bm_pqv5_identity;
  pj_from_nonce_trials : Z;
  pj_from_extra_bytes : Z;
  pj_to_id : list Z;
  pj_to_kem_pk : list Z;
  pj_to_stream : Z;
  pj_is_self : bool;
  pj_required_nonce_trials : Z;
  pj_required_extra_bytes : Z
}.

(** An unlocked identity with the key it signs with; the rest of the struct is zero. *)
Definition signing_identity (pub : bm_pq_identity_public) (sig_sk : list Z) : bm_pqv5_identity := {|
  pi_version := pu_address_version pub; pi_stream := pu_stream pub; pi_sig_pk := pu_sig_pk pub; pi_sig_sk := sig_sk;
  pi_kem_pk := pu_kem_pk pub; pi_kem_sk := replicate 2432 0; pi_id := pu_id pub; pi_sig_nonce := 0;
  pi_kem_nonce := 0; pi_seeds := {| sig_seed := replicate 32 0; kem_seed := replicate 32 0 |} |}.

(** An unlocked identity and its key for signing, if the keyring gives it out. *)
Definition pq_sender (kr : pq_keyring) (address : list Z) (meanwhile : pq_keyring -> pq_keyring)
  : cres (option (bm_pq_identity_public * bm_pqv5_identity) * pq_keyring) :=
  match bm_pq_keyring_find_by_address kr address with
  | None => Ok (None, kr)
  | Some from =>
      '(keys, kr) ← bm_pq_keyring_get_secret_keys kr address meanwhile;
      Ok (match keys with
          | Some (sig_sk, _) => Some (from, signing_identity from sig_sk)
          | None => None
          end, kr)
  end.

(** The key for the recipient and its demands, and whether it is one of the own identities. *)
Definition pq_recipient (pdb : pq_db) (to_address : list Z) (to_version to_stream : Z) (to_id : list Z)
  : cres (bool * list Z * Z * Z) :=
  match bm_pq_identity_store_load pdb to_address with
  | Ub => Ub
  | Ok to_row => Ok (true, pr_kem_pk to_row, pr_nonce_trials_per_byte to_row, pr_payload_length_extra_bytes to_row)
  | Err =>
      to_key ← bm_pq_pubkey_cache_lookup pdb to_version to_stream to_id;
      Ok (false, pp_kem_pk to_key, pp_nonce_trials_per_byte to_key, pp_payload_length_extra_bytes to_key)
  end.

Definition prepare_pq_msg (n : pq_node) (from_address to_address : list Z) (meanwhile : pq_keyring -> pq_keyring)
  : cres (option pq_send_job * pq_node) :=
  match bm_pqv5_address_decode to_address with
  | Ub => Ub
  | Err => Ok (None, n)
  | Ok (to_version, to_stream, to_id) =>
      '(sender, kr) ← pq_sender (pn_keyring n) from_address meanwhile;
      let n := n <| pn_keyring := kr |> in
      match sender with
      | None => Ok (None, n)
      | Some (from, pq_from) =>
          match pq_recipient (pn_db n) to_address to_version to_stream to_id with
          | Ub => Ub
          | Err => Ok (None, n)
          | Ok (is_self, kem_pk, to_nonce_trials, to_extra_bytes) =>
              Ok (Some {| pj_from := pq_from; pj_from_nonce_trials := pu_nonce_trials_per_byte from;
                          pj_from_extra_bytes := pu_payload_length_extra_bytes from; pj_to_id := to_id;
                          pj_to_kem_pk := kem_pk; pj_to_stream := to_stream; pj_is_self := is_self;
                          pj_required_nonce_trials :=
                            if to_nonce_trials >? pu_nonce_trials_per_byte from then to_nonce_trials
                            else pu_nonce_trials_per_byte from;
                          pj_required_extra_bytes :=
                            if to_extra_bytes >? pu_payload_length_extra_bytes from then to_extra_bytes
                            else pu_payload_length_extra_bytes from |}, n)
          end
      end
  end.

(** [build_msg_payload] of a job of a version 5 identity. *)
Definition build_pq_msg_payload (job : pq_send_job) (subject body ack_packet : list Z) (expires_time : Z)
  (rnd : object_random) : cres (list Z) :=
  message ← build_simple_message subject body;
  bm_pq_build_msg
    {| ps_identity := pj_from job; ps_bitfield := 1; ps_nonce_trials_per_byte := pj_from_nonce_trials job;
       ps_payload_length_extra_bytes := pj_from_extra_bytes job |}
    (pj_to_stream job) (pj_to_id job) (pj_to_kem_pk job) 2 message ack_packet expires_time rnd.

(** The payload and its target, if it could be built, and the keyring. *)
Definition build_pq_broadcast (kr : pq_keyring) (from_address subject body : list Z) (ttl_seconds now : Z)
  (rnd : object_random) (meanwhile : pq_keyring -> pq_keyring) : cres (option (list Z * Z) * pq_keyring) :=
  message ← build_simple_message subject body;
  '(sender, kr) ← pq_sender kr from_address meanwhile;
  match sender with
  | None => Ok (None, kr)
  | Some (from, identity) =>
      match bm_pq_build_broadcast
              {| ps_identity := identity; ps_bitfield := 1; ps_nonce_trials_per_byte := pu_nonce_trials_per_byte from;
                 ps_payload_length_extra_bytes := pu_payload_length_extra_bytes from |}
              2 message (u64 (now + ttl_seconds)) rnd with
      | Ub => Ub
      | Err => Ok (None, kr)
      | Ok payload =>
          target ← bm_pow_get_target (blen payload) ttl_seconds (pu_nonce_trials_per_byte from)
                     (pu_payload_length_extra_bytes from);
          Ok (Some (payload, target), kr)
      end
  end.
End PqDelivery.

Section PqSync.
Context `{OS : OpenSSL} `{OSV : OpenSSLVault} `{PQ : PqOpenSSL} `{BN : BigNum} `{INP : InetNtop}.
Context (g : protocol_globals).

Abbreviation SW := (net_state * bm_object_sync_ctx)%type.

Definition handle_incoming_broadcast_v6 (x : bm_object_sync_ctx) (n : pq_node) (object : list Z) (now : Z)
  : cres (bm_object_sync_ctx * pq_node) :=
  '(pdb, i) ← pq_broadcast_subscriptions (bm_messages_store_list_subscriptions (x_messages x)) (pn_db n)
                (m_inbox (x_messages x)) object now;
  Ok (with_inbox_of x i, n <| pn_db := pdb |>).

(** [rnd] and [meanwhile]: random bytes of the answer, and the other threads while the key for
    signing is expanded. *)
Definition handle_incoming_getpubkey_v5 (e : sync_env) (sx : SW) (n : pq_node) (hdr : bm_object_header)
  (object : list Z) (rnd : object_random) (meanwhile : pq_keyring -> pq_keyring) : cres (SW * pq_node) :=
  let '(s, x) := sx in
  let now := en_getpubkey e in
  let body_len := blen object - header_len hdr in
  if body_len <? 32 then Ok ((s, x), n) else
  tag ← rdn object (header_len hdr) 32;
  match bm_pq_keyring_find_by_tag (pn_keyring n) tag with
  | None => Ok ((s, x), n)
  | Some pub =>
      if negb (pu_address_version pub =? BM_PQV5_ADDRESS_VERSION) || negb (pu_stream pub =? stream hdr)
      then Ok ((s, x), n) else
      '(reused, (s, x)) ← reuse_cached_pubkey_response g e (s, x) (pu_id pub) (pu_address_version pub) (pu_stream pub) now;
      if reused : bool then Ok ((s, x), n) else
      '(keys, kr) ← bm_pq_keyring_get_secret_keys (pn_keyring n) (pu_address pub) meanwhile;
      let n := n <| pn_keyring := kr |> in
      match keys with
      | None => Ok ((s, x), n)
      | Some (sig_sk, _) =>
          let info :=
            {| ps_identity := signing_identity pub sig_sk; ps_bitfield := 1;
               ps_nonce_trials_per_byte := pu_nonce_trials_per_byte pub;
               ps_payload_length_extra_bytes := pu_payload_length_extra_bytes pub |} in
          let expires_time := u64 (now + BM_PQ_PUBKEY_RESPONSE_TTL_SECONDS) in
          match bm_pq_build_pubkey info expires_time rnd with
          | Ub => Ub
          | Err => Ok ((s, x), n)
          | Ok payload =>
              target ← bm_pow_get_target (blen payload) BM_PQ_PUBKEY_RESPONSE_TTL_SECONDS
                         (pu_nonce_trials_per_byte pub) (pu_payload_length_extra_bytes pub);
              x ← submit_pubkey_response e x payload target (pu_id pub) (pu_address_version pub) (pu_stream pub)
                    expires_time (81 :: pu_tag pub) now;
              Ok ((s, x), n)
          end
      end
  end.

(** What [process_object] does with a message of version 2. *)
Definition handle_incoming_msg_v5 (e : sync_env) (sx : SW) (n : pq_node) (conn : Z) (object : list Z)
  (meanwhile : nat -> pq_keyring -> pq_keyring) : cres (SW * pq_node) :=
  let '(s, x) := sx in
  '(decrypted, n, i) ← bm_pq_trial_decrypt_and_store n None (m_inbox (x_messages x)) object (en_now e) meanwhile;
  match decrypted with
  | None => Ok ((s, x), n)
  | Some ack =>
      let x := with_inbox_of x i in
      match ack with
      | Some ack_payload =>
          if blen ack_payload >? 0
          then sx ← validate_and_store_ack g e (s, x) (Some conn) ack_payload; Ok (sx, n)
          else Ok ((s, x), n)
      | None => Ok ((s, x), n)
      end
  end.

(** [process_object] with BM_HAVE_PQ; [pq_enabled] is the setting of that name. *)
Definition process_object_pq (pq_enabled : bool) (e : sync_env) (sx : SW) (n : pq_node) (conn : Z)
  (hdr : bm_object_header) (object : list Z) (rnd : object_random) (meanwhile : nat -> pq_keyring -> pq_keyring)
  : cres (SW * pq_node) :=
  let '(s, x) := sx in
  if (object_type hdr =? BM_OBJECT_MSG) && (version hdr =? BM_PQ_MSG_OBJECT_VERSION) then
    if pq_enabled then handle_incoming_msg_v5 e (s, x) n conn object meanwhile else Ok ((s, x), n)
  else if (object_type hdr =? BM_OBJECT_PUBKEY) && (version hdr =? BM_PQ_PUBKEY_OBJECT_VERSION) then
    if pq_enabled then
      pdb ← handle_incoming_pubkey_v5 (pn_db n) hdr object (en_now e);
      Ok ((s, x), n <| pn_db := pdb |>)
    else Ok ((s, x), n)
  else if (object_type hdr =? BM_OBJECT_GETPUBKEY) && (version hdr =? BM_PQ_GETPUBKEY_OBJECT_VERSION) then
    if pq_enabled then handle_incoming_getpubkey_v5 e (s, x) n hdr object rnd (meanwhile 0%nat) else Ok ((s, x), n)
  else if (object_type hdr =? BM_OBJECT_BROADCAST) && (version hdr =? BM_PQ_BROADCAST_OBJECT_VERSION) then
    if pq_enabled then
      '(x, n) ← handle_incoming_broadcast_v6 x n object (en_now e);
      Ok ((s, x), n)
    else Ok ((s, x), n)
  else
    sx ← process_object g e (s, x) conn hdr object;
    Ok (sx, n).
End PqSync.

(** ** Lemmas *)

Lemma build_simple_message_eq subject body : build_simple_message subject body = Ok (simple_message subject body).
Proof.
  unfold build_simple_message, simple_message. pose proof (blen_nonneg subject). pose proof (blen_nonneg body).
  change (blen (cstr "Subject:"%string)) with 8.
  assert (L8 : blen (cstr "Subject:"%string) = 8) by done. assert (L6 : blen (10 :: cstr "Body:"%string) = 6) by done.
  rewrite wr_malloc_start, bind_ok by lia. rewrite wr_malloc, bind_ok by lia.
  rewrite wr_malloc, bind_ok by (rewrite ?blen_app; lia). rewrite wr_malloc_last by (rewrite ?blen_app; lia).
  by rewrite <- !app_assoc.
Qed.

(** What a text looks like that is read back as it was sent. *)
Definition text_ok (subject body : list Z) : Prop :=
  (10 ∉ subject) /\ blen subject <= 500 /\ blen body < 2 ^ 30 /\ c_string subject = subject /\ c_string body = body.

Lemma pq_text_simple subject body :
  text_ok subject body -> pq_text 2 (simple_message subject body) = Ok (Some subject, Some body).
Proof.
  intros (Hn & Hs & Hb & _). unfold pq_text. rewrite Z.eqb_refl.
  by apply (decode_simple_message [] subject body [0]); [done|done|lia|done|done].
Qed.

Section PqDeliveryLemmas.
Context `{OSL : OpenSSLLaws} `{OSVL : OpenSSLVaultLaws} `{PQL : PqOpenSSLLaws} `{BNL : BigNumLaws}.

Lemma find_pub_entry kr a u :
  bm_pq_keyring_find_by_address kr a = Some u -> exists e, find_locked kr a = Some e /\ u = copy_public e.
Proof. unfold bm_pq_keyring_find_by_address. destruct (find_locked kr a) as [e|]; [|done]. intros [= <-]. eauto. Qed.

Lemma found_entry_ok kr a e :
  ring_ok kr -> find_locked kr a = Some e -> pq_entry_ok e /\ a = q_address e.
Proof.
  intros Hr [Hin Hs]%find_pq_Some. pose proof (ring_entry_ok _ _ Hr Hin) as He. split; [done|].
  apply same_address_short; [|done]. by destruct He as (_ & _ & _ & _ & ? & _).
Qed.

(** The sender that [pq_sender] prepares can sign for its address. *)
Lemma pq_sender_ok kr a m from id kr' :
  ring_ok kr -> leaves_alone a m -> pq_sender kr a m = Ok (Some (from, id), kr') ->
  signer id /\ bm_pqv5_address_decode a = Ok (BM_PQV5_ADDRESS_VERSION, pi_stream id, pi_id id)
  /\ is_u64 (pi_stream id) /\ is_u64 (pu_nonce_trials_per_byte from) /\ is_u64 (pu_payload_length_extra_bytes from)
  /\ blen a < BM_ADDRESS_STR_MAX.
Proof.
  intros Hr Hm E. unfold pq_sender in E. destruct (bm_pq_keyring_find_by_address kr a) as [u|] eqn:Eu; [|done].
  apply find_pub_entry in Eu as (e & Hf & ->). destruct (found_entry_ok _ _ _ Hr Hf) as [He Ha].
  apply bind_ok_inv in E as ([keys kr1] & Eg & E). destruct keys as [[ssk ksk]|]; [|done].
  apply ok_inj in E as [= <- <- <-].
  destruct (get_keys_of_entry _ _ _ _ _ _ _ Hr Hf Hm Eg) as (i & Hi & Es & Ek & <- & _).
  destruct He as (Hd & (Hv & Ht & Hx) & Hid & _ & Hl & _). subst a.
  destruct (bm_pqv5_address_decode_sound (q_address e)) as [_ Hsound]. destruct (Hsound _ _ _ Hd) as (_ & Hs & _).
  split_and!; [|done|done|done|done|exact Hl]. pose proof (made_parts _ Hi) as (L1 & _ & L2 & _ & Hii & _).
  destruct Hi as (_ & Hsig & _ & Hc). unfold signer. cbn. rewrite <- Es, <- Ek. split_and!; [done|by eexists|done|].
  rewrite Hc, Hii, Hid, Es, Ek. done.
Qed.

(** A prepared job is addressed to the address, from a sender that can sign for its own. *)
Lemma prepare_ok n from_address to_address m job n' :
  ring_ok (pn_keyring n) -> leaves_alone from_address m ->
  prepare_pq_msg n from_address to_address m = Ok (Some job, n') ->
  sender_ok {| ps_identity := pj_from job; ps_bitfield := 1; ps_nonce_trials_per_byte := pj_from_nonce_trials job;
               ps_payload_length_extra_bytes := pj_from_extra_bytes job |}
  /\ blen from_address < BM_ADDRESS_STR_MAX
  /\ bm_pqv5_address_decode to_address = Ok (BM_PQV5_ADDRESS_VERSION, pj_to_stream job, pj_to_id job)
  /\ is_u64 (pj_to_stream job) /\ blen (pj_to_id job) = BM_PQV5_ID_LEN.
Proof.
  intros Hr Hm E. unfold prepare_pq_msg in E. destruct (bm_pqv5_address_decode_sound to_address) as [_ Hsound].
  destruct (bm_pqv5_address_decode to_address) as [[[v s] tid]| |] eqn:Ed; [|done|done].
  destruct (Hsound _ _ _ eq_refl) as (-> & Hs & Hl & _). apply bind_ok_inv in E as ([sender kr] & Ep & E).
  destruct sender as [[from id]|]; [|done]. destruct (pq_sender_ok _ _ _ _ _ _ Hr Hm Ep) as (Hsig & _ & U1 & U2 & U3 & Hfl).
  destruct (pq_recipient _ _ _ _ _) as [[[[self kpk] t] x]| |]; [|done|done]. apply ok_inj in E as [= <- <-].
  by split_and!.
Qed.

(** Trying an object for one unlocked address whose keys the keyring gives out. *)
Lemma open_msg_single kr a m e object sig_sk kem_sk kr1 out :
  find_locked kr a = Some e -> a = q_address e -> (forall j, leaves_alone a (m j)) ->
  bm_pq_keyring_get_secret_keys kr a (fun kr => kr) = Ok (Some (sig_sk, kem_sk), kr1) ->
  bm_pq_parse_msg object kem_sk = Ok out -> pm_from_address_version out = BM_PQV5_ADDRESS_VERSION ->
  pm_to_id out = q_id e ->
  exists kr', bm_pq_keyring_open_msg kr (Some a) object m = Ok (Some (out, a), kr').
Proof.
  intros Hf Ha Hm Eg Hp Hv Ht.
  destruct (expand_pending_gives kr a e (fun j => m (S j)) _ _ _ Hf (fun j => Hm (S j)) Eg)
    as (kr2 & e' & Ee & Hf' & Hx & <- & Hid & Had).
  exists (m 0%nat kr2). unfold bm_pq_keyring_open_msg. rewrite Ee, bind_ok.
  rewrite (open_loop_single _ a e' _ out); [|by rewrite Hm|done|done|done|congruence].
  rewrite bind_ok. by rewrite Had, <- Ha.
Qed.

Lemma stored_sender_lookup (pdb : pq_db) (v s bf t x now : Z) (spk kpk id : list Z) :
  blen id = BM_PQV5_ID_LEN -> is_u32 bf -> blen spk = BM_PQV5_SIG_PK_LEN -> blen kpk = BM_PQV5_KEM_PK_LEN ->
  is_u64 t -> is_u64 x ->
  exists pdb', or_same pdb (bm_pq_pubkey_cache_store_sender pdb v s id bf spk kpk t x now) = Ok pdb'
    /\ bm_pq_pubkey_cache_lookup pdb' v s id
       = Ok {| pp_address_version := v; pp_stream := s; pp_bitfield := bf; pp_sig_pk := spk; pp_kem_pk := kpk;
               pp_nonce_trials_per_byte := t; pp_payload_length_extra_bytes := x |}.
Proof.
  intros Hi Hb Hs Hk Ht Hx. destruct (pq_store_sender_lookup pdb v s id bf spk kpk t x now Hi Hb Hs Hk Ht Hx)
    as (pdb' & -> & Hl & _). by exists pdb'.
Qed.

(** A built pubkey object: the header, the tag, the sealed part. *)
Lemma built_pubkey_parts from expires_time rnd akpk aksk payload (id := ps_identity from) :
  sender_ok from ->
  bm_pqv5_address_kem_keypair (pi_version id) (pi_stream id) (pi_id id) = Ok (akpk, aksk) ->
  mlkem_agrees akpk aksk (or_seal rnd) -> bm_pq_build_pubkey from expires_time rnd = Ok payload ->
  exists sealed, payload = tagged_plain expires_time PQ_OBJECT_PUBKEY BM_PQ_PUBKEY_OBJECT_VERSION id ++ sealed.
Proof.
  intros Hok Hk Hag E. rewrite (build_pubkey_wst from expires_time rnd akpk aksk Hok Hk) in E. fold id in E.
  pose proof Hok as (Hmade & _). pose proof Hmade as (_ & [sgseed Hsig] & _). fold id in Hsig.
  pose proof (signer_parts _ Hmade) as (_ & _ & _ & _ & Hidl). fold id in Hidl.
  unfold bm_pqv5_address_kem_keypair in Hk. rewrite derive_v5_eq, bind_ok in Hk by done.
  apply (sign_and_seal_wst _ _ _ _ _ _ _ aksk _ _ _ Hsig Hk Hag) in E as (sealed & _ & -> & _). by exists sealed.
Qed.

(** With a nonce in front it is an object that is read as a pubkey of version 5 with the tag. *)
Lemma tagged_object_parse n e t v id sealed (object := be_split 8 n ++ tagged_plain e t v id ++ sealed) :
  is_u64 n -> is_u64 e -> is_u32 t -> is_u64 v -> is_u64 (pi_stream id) -> blen (pi_id id) = BM_PQV5_ID_LEN ->
  exists hdr, bm_object_parse_header object = Ok hdr /\ object_type hdr = t /\ version hdr = v
    /\ stream hdr = pi_stream id /\ expires_time hdr = e
    /\ 32 <= blen object - header_len hdr
    /\ rdn object (header_len hdr) 32 = Ok (v5_tag (pi_version id) (pi_stream id) (pi_id id)).
Proof.
  intros Hn He Ht Hv Hs Hid.
  assert (Eo : object = Object.header_bytes n e t v (pi_stream id)
                 ++ v5_tag (pi_version id) (pi_stream id) (pi_id id) ++ sealed).
  { unfold object, tagged_plain, PqObject.header_bytes, Object.header_bytes. by rewrite <- !app_assoc. }
  assert (Hl : blen (Object.header_bytes n e t v (pi_stream id)) = 20 + bm_varint_size v + bm_varint_size (pi_stream id)).
  { unfold Object.header_bytes. rewrite !blen_app, !blen_be_split, !blen_varint_bytes. lia. }
  pose proof (blen_v5_tag (pi_version id) (pi_stream id) (pi_id id)) as Htl. pose proof (blen_nonneg sealed).
  eexists. rewrite Eo. split; [by apply parse_header_bytes|]. cbn. split_and!; [done|done|done|done| |].
  - rewrite !blen_app, Hl, Htl. lia.
  - apply rdn_app_mid; [done|done].
Qed.
End PqDeliveryLemmas.

(** ** Properties *)

Section PqDeliveryProperties.
Context `{OSL : OpenSSLLaws} `{OSVL : OpenSSLVaultLaws} `{PQL : PqOpenSSLLaws} `{BNL : BigNumLaws}.

(** C30: A message between two post-quantum identities, end to end.  The sender's node prepares the
    message with [prepare_pq_msg] and builds it; the recipient's node has the identity of the
    address unlocked, with the public key the sender used, and tries the object, behind any
    proof-of-work nonce, for that address.  Let the subject be one line of at most 500 bytes, the
    body shorter than a gigabyte, and neither hold a NUL (of another subject the recipient keeps less);
    and let the object not be in the inbox yet.  Then the subject and the body are in the inbox,
    from the sender's address to that address, the ack is handed to the caller, and the
    sender's keys are known, so that an answer needs no getpubkey.  Other threads may do anything
    on either side that leaves the two identities alone. *)
Theorem pq_message_delivered (ns ns' nr : pq_node) (from_address to_address : list Z)
  (ms : pq_keyring -> pq_keyring) (mr : nat -> pq_keyring -> pq_keyring) (job : pq_send_job)
  (subject body ack nonce payload sig_sk kem_sk : list Z) (expires_time now : Z) (rnd : object_random)
  (u : bm_pq_identity_public) (kr1 : pq_keyring) (db : inbox) :
  rtc ring_step [] (pn_keyring ns) -> rtc ring_step [] (pn_keyring nr) ->
  leaves_alone from_address ms -> (forall j, leaves_alone to_address (mr j)) ->
  prepare_pq_msg ns from_address to_address ms = Ok (Some job, ns') ->
  bm_pqv5_address_encode (pi_version (pj_from job)) (pi_stream (pj_from job)) (pi_id (pj_from job)) = Ok from_address ->
  text_ok subject body -> blen ack < 2 ^ 31 -> blen nonce = 8 ->
  build_pq_msg_payload job subject body ack expires_time rnd = Ok payload ->
  bm_pq_keyring_find_by_address (pn_keyring nr) to_address = Some u -> pu_kem_pk u = pj_to_kem_pk job ->
  bm_pq_keyring_get_secret_keys (pn_keyring nr) to_address (fun kr => kr) = Ok (Some (sig_sk, kem_sk), kr1) ->
  mlkem_agrees (pj_to_kem_pk job) kem_sk (or_seal rnd) ->
  db !! bm_inventory_hash (nonce ++ payload) = None ->
  exists nr' db',
    bm_pq_trial_decrypt_and_store nr (Some to_address) db (nonce ++ payload) now mr
      = Ok (Some (if blen ack >? 0 then Some ack else None), nr', db')
    /\ db' !! bm_inventory_hash (nonce ++ payload)
       = Some {| ib_to_address := to_address; ib_from_address := from_address; ib_subject := subject;
                 ib_body := body; ib_received_time := now; ib_read := 0; ib_folder := INBOX |}
    /\ bm_pq_pubkey_cache_lookup (pn_db nr') BM_PQV5_ADDRESS_VERSION (pi_stream (pj_from job)) (pi_id (pj_from job))
       = Ok {| pp_address_version := BM_PQV5_ADDRESS_VERSION; pp_stream := pi_stream (pj_from job); pp_bitfield := 1;
               pp_sig_pk := pi_sig_pk (pj_from job); pp_kem_pk := pi_kem_pk (pj_from job);
               pp_nonce_trials_per_byte := pj_from_nonce_trials job;
               pp_payload_length_extra_bytes := pj_from_extra_bytes job |}.
Proof.
  intros Ss Sr Hms Hmr Eprep Eenc Htext Hack Hn Ebuild Efind Hpk Eget Hag Hnew.
  assert (Hempty : ring_ok []) by (split; [constructor|apply NoDup_nil_2]).
  pose proof (ring_steps_ok _ _ Ss Hempty) as Hrs. pose proof (ring_steps_ok _ _ Sr Hempty) as Hrr.
  destruct (prepare_ok _ _ _ _ _ _ Hrs Hms Eprep) as (Hsok & Hfl & Hdec & Hts & Htl).
  set (from := {| ps_identity := pj_from job; ps_bitfield := 1 |}) in *.
  destruct (find_pub_entry _ _ _ Efind) as (e & Hf & ->). destruct (found_entry_ok _ _ _ Hrr Hf) as [He Ha].
  destruct (get_keys_of_entry _ _ _ _ _ _ _ Hrr Hf (fun kr => eq_refl) Eget) as (i & Hi & _ & Hki & _ & Hks).
  pose proof He as (Hd & _ & _ & _ & Hl & _). rewrite <- Ha, Hdec in Hd. injection Hd as Hst Hid.
  unfold build_pq_msg_payload in Ebuild. rewrite build_simple_message_eq, bind_ok in Ebuild. fold from in Ebuild.
  cbn in Hpk. destruct Hi as (_ & _ & Hkem & _). rewrite Hki, Hks, Hpk in Hkem.
  pose proof Htext as (_ & Hs5 & Hb30 & Hcs & Hcb).
  pose proof (bm_pq_msg_roundtrip from (pj_to_stream job) (pj_to_id job) (kem_seed (pi_seeds i)) (pj_to_kem_pk job) kem_sk 2
    (simple_message subject body) ack expires_time rnd nonce payload Hsok Hts Htl) as Hp.
  destruct (open_msg_single (pn_keyring nr) to_address mr e (nonce ++ payload) sig_sk kem_sk kr1
    (msg_of from (pj_to_id job) 2 (simple_message subject body) ack)) as (kr2 & Eo);
    [done|done|done|exact Eget| |by destruct Hsok as ((Hv & _) & _)|exact Hid|].
  { apply Hp; try done.
    unfold simple_message. rewrite !blen_app. change (blen (cstr "Subject:"%string)) with 8.
    change (blen (10 :: cstr "Body:"%string)) with 6. lia. }
  pose proof Hsok as (Hsigner & U1 & U2 & U3 & U4). pose proof (signer_parts _ Hsigner) as (L1 & _ & L2 & _ & L3).
  pose proof Hsigner as (Hv & _). cbn in Hv, U1, U2, U3, U4, L1, L2, L3.
  destruct (stored_sender_lookup (pn_db nr) BM_PQV5_ADDRESS_VERSION (pi_stream (pj_from job)) 1 (pj_from_nonce_trials job)
    (pj_from_extra_bytes job) now (pi_sig_pk (pj_from job)) (pi_kem_pk (pj_from job)) (pi_id (pj_from job)))
    as (pdb & Est & Hlk); try done.
  unfold bm_pq_trial_decrypt_and_store. rewrite Eo, bind_ok. cbn [msg_of from ps_identity ps_bitfield
    ps_nonce_trials_per_byte ps_payload_length_extra_bytes pm_from_address_version pm_from_stream pm_from_id
    pm_encoding pm_message pm_ack pm_bitfield pm_from_sig_pk pm_from_kem_pk pm_nonce_trials_per_byte
    pm_payload_length_extra_bytes].
  rewrite Eenc. zdec. cbn [negb]. rewrite pq_text_simple, bind_ok by done.
  unfold store_decoded_msg, bm_messages_store_insert_inbox. cbn [dm_subject dm_body]. rewrite !bind_ok.
  cbn [dm_to_address dm_from_address dm_ack_payload]. rewrite !text_field_short by first [exact Hfl|rewrite Ha; exact Hl].
  rewrite Hv. change (pn_db (nr <| pn_keyring := kr2 |>)) with (pn_db nr). rewrite Est, bind_ok.
  eexists _, _. split; [reflexivity|]. split; [|exact Hlk].
  rewrite lookup_insert_or_ignore, decide_True, Hnew by done. by rewrite Hcs, Hcb.
Qed.

(** A key that was asked for is learned.  The request of the address is on record; the pubkey
    object that the owner builds, with any proof-of-work nonce in front, is opened for that
    address, its keys and parameters are then what [prepare_pq_msg] finds for the address, and
    the request is off the record. *)
Theorem pq_pubkey_learned (pdb pdb1 : pq_db) (from : bm_pq_sender_info) (n expires_time requested now : Z)
  (rnd : object_random) (akpk aksk payload : list Z) :
  let id := ps_identity from in
  let tag := v5_tag (pi_version id) (pi_stream id) (pi_id id) in
  sender_ok from -> is_u64 n -> is_u64 expires_time ->
  bm_pqv5_address_kem_keypair (pi_version id) (pi_stream id) (pi_id id) = Ok (akpk, aksk) ->
  mlkem_agrees akpk aksk (or_seal rnd) ->
  bm_pq_build_pubkey from expires_time rnd = Ok payload ->
  (forall r, pq_pubkey_requests pdb !! tag = Some r ->
     qr_id r = pi_id id /\ qr_address_version r = s64 (pi_version id) /\ qr_stream r = s64 (pi_stream id)) ->
  bm_pq_pubkey_cache_record_request pdb (pi_version id) (pi_stream id) (pi_id id) requested = Ok pdb1 ->
  exists hdr pdb2,
    bm_object_parse_header (be_split 8 n ++ payload) = Ok hdr
    /\ handle_incoming_pubkey_v5 pdb1 hdr (be_split 8 n ++ payload) now = Ok pdb2
    /\ bm_pq_pubkey_cache_lookup pdb2 (pi_version id) (pi_stream id) (pi_id id) = Ok (pubkey_of from)
    /\ bm_pq_pubkey_cache_find_request pdb2 tag = Err.
Proof.
  intros id tag Hok Hn He Hk Hag Eb Hone Erec.
  pose proof Hok as (Hsigner & U1 & U2 & U3 & U4). fold id in Hsigner, U1.
  pose proof (signer_parts _ Hsigner) as (L1 & _ & L2 & _ & L3). fold id in L1, L2, L3.
  assert (Hv : is_u64 (pi_version id)) by (destruct Hsigner as (-> & _); done).
  destruct (pq_request_recorded pdb (pi_version id) (pi_stream id) (pi_id id) requested requested 0) as (pdb' & E & Ef & _);
    [done|done|done|lia|done|]. rewrite E in Erec. apply ok_inj in Erec as ->.
  destruct (built_pubkey_parts from expires_time rnd akpk aksk payload Hok Hk Hag Eb) as [sealed Ep].
  pose proof (bm_pq_pubkey_roundtrip from expires_time rnd akpk aksk (be_split 8 n) payload Hok eq_refl Hk Hag Eb) as Hp.
  destruct (tagged_object_parse n expires_time PQ_OBJECT_PUBKEY BM_PQ_PUBKEY_OBJECT_VERSION id sealed)
    as (hdr & Eh & _ & _ & _ & _ & Hlen & Htag); [done|done|done|done|done|done|]. fold id in Hp, Ep. rewrite <- Ep in Eh, Hlen, Htag.
  destruct (pq_store_sender_lookup pdb1 (pi_version id) (pi_stream id) (pi_id id) (ps_bitfield from) (pi_sig_pk id)
    (pi_kem_pk id) (ps_nonce_trials_per_byte from) (ps_payload_length_extra_bytes from) now) as (pdb2 & Est & Hlk & Hfr & _);
    [done|done|done|done|done|done|].
  exists hdr, pdb2. split; [done|]. split; [|by split].
  unfold handle_incoming_pubkey_v5. zdec. rewrite Htag, bind_ok. fold tag in Ef |- *. rewrite Ef, Hp.
  unfold bm_pq_pubkey_cache_store_sender in Est. rewrite (rdn_all (pi_sig_pk id)), (rdn_all (pi_kem_pk id)), !bind_ok in Est by done.
  unfold pubkey_of. fold id. apply bind_ok_inv in Est as (pdb3 & -> & Est).
  rewrite derive_v5_eq, bind_ok in Est by done. apply ok_inj in Est as <-. done.
Qed.
End PqDeliveryProperties.

(** ** Witnesses *)

#[local] Existing Instance toy_OpenSSL.
#[local] Existing Instance toy_OpenSSLLaws.
#[local] Existing Instance toy_Pq.
#[local] Existing Instance toy_PqLaws.
#[local] Existing Instance toy_vault.
#[local] Existing Instance toy_OpenSSLVaultLaws.


(** The sender's node: its identity stored and unlocked, and the recipient's key known. *)
Definition pq_sender_stored : list Z * pq_db :=
  match bm_pq_keyring_create_identity pq_db_empty (v5_identity_of 0) None pq_pass 1000 1000 pq_seeds_random 5 with
  | Ok r => r
  | _ => ([], pq_db_empty)
  end.
Definition pq_sender_ring : pq_keyring :=
  match unlocked_entry bm_identity_store_init_schema pq_sender_stored.2 pq_sender_stored.1 pq_pass 6 with
  | Ok e => [e]
  | _ => []
  end.
Definition pq_sender_node : pq_node := {|
  pn_keyring := pq_sender_ring;
  pn_db := ok_or pq_db_empty (bm_pq_pubkey_cache_upsert pq_sender_stored.2 (pi_id (v5_identity_of 2))
    {| pp_address_version := 5; pp_stream := 1; pp_bitfield := 1; pp_sig_pk := pi_sig_pk (v5_identity_of 2);
       pp_kem_pk := pi_kem_pk (v5_identity_of 2); pp_nonce_trials_per_byte := 1000;
       pp_payload_length_extra_bytes := 1000 |} 5) |}.
Definition pq_recipient_node : pq_node := {| pn_keyring := pq_ring; pn_db := pq_stored.2 |}.

Definition pq_prepared : option pq_send_job * pq_node :=
  ok_or (None, pq_sender_node) (prepare_pq_msg pq_sender_node pq_sender_stored.1 pq_stored.1 pq_idle).
Definition pq_job : pq_send_job :=
  match pq_prepared.1 with
  | Some job => job
  | None => {| pj_from := v5_identity_of 0; pj_from_nonce_trials := 0; pj_from_extra_bytes := 0; pj_to_id := [];
               pj_to_kem_pk := []; pj_to_stream := 0; pj_is_self := false; pj_required_nonce_trials := 0;
               pj_required_extra_bytes := 0 |}
  end.
Definition pq_sent : list Z :=
  ok_or [] (build_pq_msg_payload pq_job [72; 105] [111; 107] [1; 2; 3] 5000 pq_random_example).

Lemma pq_sender_ring_reached : rtc ring_step [] pq_sender_ring.
Proof.
  apply rtc_once. unfold pq_sender_ring.
  destruct (unlocked_entry bm_identity_store_init_schema pq_sender_stored.2 pq_sender_stored.1 pq_pass 6) as [e| |] eqn:E.
  - by apply (step_unlock [] _ _ _ _ _ _ E).
  - apply (step_clear []).
  - apply (step_clear []).
Qed.
Definition pq_recipient_public : bm_pq_identity_public :=
  default {| pu_address := []; pu_address_version := 0; pu_stream := 0; pu_id := []; pu_tag := []; pu_sig_pk := [];
             pu_kem_pk := []; pu_nonce_trials_per_byte := 0; pu_payload_length_extra_bytes := 0 |}
    (bm_pq_keyring_find_by_address pq_ring pq_stored.1).

Lemma pq_message_delivered_witness :
  exists nr' db',
    bm_pq_trial_decrypt_and_store pq_recipient_node (Some pq_stored.1) ∅ (pq_nonce_example ++ pq_sent) 9 (fun _ => pq_idle)
      = Ok (Some (Some [1; 2; 3]), nr', db').
Proof.
  destruct (pq_message_delivered pq_sender_node pq_prepared.2 pq_recipient_node pq_sender_stored.1 pq_stored.1 pq_idle
    (fun _ => pq_idle) pq_job [72; 105] [111; 107] [1; 2; 3] pq_nonce_example pq_sent (pi_sig_sk (v5_identity_of 2))
    (pi_kem_sk (v5_identity_of 2)) 5000 9 pq_random_example
    pq_recipient_public (ok_or (None, []) (bm_pq_keyring_get_secret_keys pq_ring pq_stored.1 pq_idle)).2 ∅)
    as (nr' & db' & H & _).
  - apply pq_sender_ring_reached.
  - apply pq_ring_reached.
  - intros kr. reflexivity.
  - intros j kr. reflexivity.
  - vm_compute. reflexivity.
  - vm_compute. reflexivity.
  - unfold text_ok. split_and!; [by apply (bool_decide_unpack _); vm_compute|by vm_compute|by vm_compute|done|done].
  - by vm_compute.
  - done.
  - vm_compute. reflexivity.
  - vm_compute. reflexivity.
  - vm_compute. reflexivity.
  - vm_compute. reflexivity.
  - apply toy_mlkem_agrees. vm_compute. reflexivity.
  - done.
  - exists nr', db'. exact H.
Defined.

Definition pq_asked : pq_db :=
  ok_or pq_db_empty (bm_pq_pubkey_cache_record_request pq_db_empty 5 1 (pi_id (v5_identity_of 0)) 5).

Lemma pq_pubkey_learned_witness :
  exists hdr pdb2,
    handle_incoming_pubkey_v5
      pq_asked hdr (be_split 8 7 ++ pq_pubkey_example) 9 = Ok pdb2
    /\ bm_pq_pubkey_cache_lookup pdb2 (pi_version (ps_identity pq_from_example))
         (pi_stream (ps_identity pq_from_example)) (pi_id (ps_identity pq_from_example)) = Ok (pubkey_of pq_from_example).
Proof.
  destruct (pq_pubkey_learned pq_db_empty pq_asked
    pq_from_example 7 5000 5 9 pq_random_example pq_address_keys.1 pq_address_keys.2 pq_pubkey_example)
    as (hdr & pdb2 & _ & H2 & H3 & _).
  - apply pq_from_example_ok.
  - unfold is_u64; lia.
  - unfold is_u64; lia.
  - vm_compute. reflexivity.
  - apply toy_mlkem_agrees. vm_compute. reflexivity.
  - vm_compute. reflexivity.
  - intros r Hr. exfalso. revert Hr. unfold pq_db_empty. cbn [pq_pubkey_requests]. by rewrite lookup_empty.
  - vm_compute. reflexivity.
  - exists hdr, pdb2. split; [exact H2|exact H3].
Defined.
