(* ===== verification/Startup.v ===== *)
(** * Start-up (main.c)

    How the settings of bitmessage.conf, the environment and config.db become the
    configuration the threads are started with, and how the hidden service comes up.  The
    build is the one without BM_HAVE_PQ; opening the databases and sockets, and the threads
    themselves, are arguments or left out. *)

From Stdlib Require Import String.
From stdpp Require Import base tactics numbers option gmap list.
From S2P Require Import Prelude Varint Openssl Hash Object Sql Json Pow PeerManager Network ObjectSync.
From S2P Require Import Config TorControl.

Import ConfigStore.

(** ** Environment variables override the file *)

Section Environment.
(** [getenv] *)
Variable env : list Z -> option (list Z).

Definition env_flag_or (env_name : list Z) (file_value : Z) : Z :=
  match env env_name with
  | Some v => if list_eqb v (cstr "1"%string) then 1 else 0
  | None => file_value
  end.

Definition env_or_int (env_name : list Z) (file_value : Z) : cres Z :=
  match env env_name with Some v => atoi v | None => Ok file_value end.

Definition env_or_str (env_name : list Z) (file_value : option (list Z)) : option (list Z) :=
  match env env_name with Some v => Some v | None => file_value end.

(** [strtoull] in base 10: a value out of range becomes ULLONG_MAX, a sign negates modulo 2^64. *)
Definition strtoull (s : list Z) : Z :=
  let v := scan_int s in if 2 ^ 64 <=? Z.abs v then 2 ^ 64 - 1 else u64 v.

Definition env_or_u64 (env_name : list Z) (file_value : Z) : Z :=
  match env env_name with Some v => strtoull v | None => file_value end.

(** What [main] takes from the two sources; the limit on connections is only read when the node
    connects. *)
Record startup_config := {
  su_api_port : Z;
  su_default_nonce_trials_per_byte : Z;
  su_default_payload_length_extra_bytes : Z;
  su_testnet : Z;
  su_pq_enabled : Z;
  su_inbound_port : Z;
  su_virtual_port : Z;
  su_manual_onion_address : option (list Z);
  su_tor_control : Z;
  su_no_connect : Z;
  su_max_outbound : Z;
  su_observed_nodes_path : option (list Z)
}.

Definition startup_settings (cfg : bm_config_file) : cres startup_config :=
  api_port ← env_or_int (cstr "BM_API_PORT"%string) (api_port cfg);
  inbound_port ← env_or_int (cstr "BM_INBOUND_PORT"%string) (inbound_port cfg);
  virtual_port ← env_or_int (cstr "BM_TOR_VIRTUAL_PORT"%string) (tor_virtual_port cfg);
  let no_connect := env_flag_or (cstr "BM_NO_CONNECT"%string) (no_connect cfg) in
  max_outbound ← (if no_connect =? 0 then env_or_int (cstr "BM_MAX_OUTBOUND"%string) (max_outbound_connections cfg)
                  else Ok (max_outbound_connections cfg));
  Ok {| su_api_port := api_port;
        su_default_nonce_trials_per_byte :=
          env_or_u64 (cstr "BM_DEFAULT_NONCE_TRIALS_PER_BYTE"%string) (default_nonce_trials_per_byte cfg);
        su_default_payload_length_extra_bytes :=
          env_or_u64 (cstr "BM_DEFAULT_PAYLOAD_LENGTH_EXTRA_BYTES"%string)
            (default_payload_length_extra_bytes cfg);
        su_testnet := env_flag_or (cstr "BM_TESTNET"%string) (testnet cfg);
        su_pq_enabled := 0;
        su_inbound_port := inbound_port;
        su_virtual_port := virtual_port;
        su_manual_onion_address :=
          env_or_str (cstr "BM_ONION_ADDRESS"%string)
            (match onion_address cfg with [] => None | a => Some a end);
        su_tor_control := env_flag_or (cstr "BM_TOR_CONTROL"%string) (tor_control cfg);
        su_no_connect := no_connect;
        su_max_outbound := max_outbound;
        su_observed_nodes_path :=
          env_or_str (cstr "BM_SEEDS_FILE"%string) (Some (cstr "seeds/observed_nodes.txt"%string)) |}.

Definition control_settings (cfg : bm_config_file) : cres bm_tor_control_config :=
  port ← env_or_int (cstr "BM_TOR_CONTROL_PORT"%string) (tor_control_port cfg);
  Ok {| control_socket_path := env_or_str (cstr "BM_TOR_CONTROL_SOCKET"%string) (Some (tor_control_socket cfg));
        control_host := env_or_str (cstr "BM_TOR_CONTROL_HOST"%string) (Some (tor_control_host cfg));
        control_port := port |}.

(** ** The hidden service *)

(** [self_onion_address]: 64 cells on the stack, of which only the first is set (to NUL). *)
Definition fresh_onion_array : list Z := 0 :: malloc (BM_PEER_IP_STRLEN - 1).

(** [strncpy(array, s, n)]: [n] bytes, those of [s] and then NULs; [s] cut to [n]. *)
Definition strncpy (array s : list Z) (n : Z) : cres (list Z) :=
  let text := take (Z.to_nat n) s in
  wr array 0 (text ++ replicate (Z.to_nat (n - blen text)) 0).

(** Reading an array as a string: up to its first NUL; undefined if it has none, or if a cell
    before it was never written. *)
Fixpoint string_in (array : list Z) : cres (list Z) :=
  match array with
  | [] => Ub
  | c :: array =>
      if c =? 0 then Ok [] else if c =? uninit then Ub else s ← string_in array; Ok (c :: s)
  end.

Definition BM_TOR_ONION_KEY_MAX_LEN : Z := 160.

(** What the start of the hidden service works on: the tables of known peers and of settings,
    the connection kept open to the control port (-1: none), the address array, the descriptors
    closed, and the socket. *)
Record onion_state := {
  os_peers : hosts;
  os_config : config_db;
  os_control_fd : Z;
  os_self : list Z;
  os_closed : list Z;
  os_socket : control_socket
}.
#[local] Instance onion_state_eta : RecordEta onion_state := fun r =>
  {| os_peers := os_peers r; os_config := os_config r; os_control_fd := os_control_fd r;
     os_self := os_self r; os_closed := os_closed r; os_socket := os_socket r |}.

(** The branch for BM_TOR_CONTROL: authenticate, then create the service with the stored key
    or, without one, with a new key that is stored. *)
Definition start_tor_control (config : bm_tor_control_config) (tor : tor_environment)
  (virtual_port inbound_port now : Z) (st : onion_state) : cres onion_state :=
  let '(r, closed, s) := bm_tor_control_connect_and_authenticate config tor (os_socket st) in
  fd ← r;
  let st := st <| os_control_fd := fd |> <| os_closed := os_closed st ++ closed |> <| os_socket := s |> in
  if fd <? 0 then Ok st else
  let '(key, has_existing_key) := bm_config_store_get_tor_onion_key (os_config st) BM_TOR_ONION_KEY_MAX_LEN in
  match bm_tor_control_add_onion (if has_existing_key : bool then Some key else None)
          virtual_port inbound_port (os_socket st) with
  | (Ub, _) => Ub
  | (Err, s) =>
      Ok (st <| os_control_fd := -1 |> <| os_closed := os_closed st ++ [fd] |> <| os_socket := s |>)
  | (Ok (onion_address, new_private_key), s) =>
      let st := st <| os_socket := s |> in
      let st := match new_private_key with
                | Some k => st <| os_config := bm_config_store_set_tor_onion_key (os_config st) (Some k) |>
                | None => st end in
      let st := st <| os_peers := bm_peer_manager_mark_self (os_peers st) onion_address virtual_port 1 now |> in
      self ← strncpy (os_self st) onion_address (BM_PEER_IP_STRLEN - 1);
      Ok (st <| os_self := self |>)
  end.

(** [listening]: the inbound port could be opened. *)
Definition start_onion (cfg : bm_config_file) (su : startup_config) (tor : tor_environment)
  (listening : bool) (now : Z) (st : onion_state) : cres onion_state :=
  if negb listening then Ok st else
  match su_manual_onion_address su with
  | Some a =>
      match bm_object_sync_validate_onion_address (Some a) (su_virtual_port su) with
      | Ub => Ub
      | Err => Ok st
      | Ok _ =>
          let st := st <| os_peers := bm_peer_manager_mark_self (os_peers st) a (su_virtual_port su) 1 now |> in
          let text := text_field BM_PEER_IP_STRLEN a in
          self ← wr (os_self st) 0 (text ++ [0]);
          Ok (st <| os_self := self |>)
      end
  | None =>
      if su_tor_control su =? 0 then Ok st else
      config ← control_settings cfg;
      start_tor_control config tor (su_virtual_port su) (su_inbound_port su) now st
  end.

End Environment.

#[local] Arguments bm_tor_control_add_onion : simpl never.
#[local] Arguments bm_config_store_set_tor_onion_key : simpl never.
#[local] Arguments bm_config_store_get_tor_onion_key : simpl never.
#[local] Arguments bm_peer_manager_mark_self : simpl never.
#[local] Arguments strncpy : simpl never.
#[local] Arguments add_onion_cmd : simpl never.

(** ** The key of the hidden service *)

(** The key the next start will ask for. *)
Definition service_key (db : config_db) : option (list Z) :=
  let '(key, found) := bm_config_store_get_tor_onion_key db BM_TOR_ONION_KEY_MAX_LEN in
  if found : bool then Some key else None.

Lemma service_key_set db k :
  service_key (bm_config_store_set_tor_onion_key db (Some k)) = Some (text_field BM_TOR_ONION_KEY_MAX_LEN k).
Proof.
  unfold service_key, bm_config_store_get_tor_onion_key, bm_config_store_set_tor_onion_key. cbn.
  rewrite lookup_upsert, decide_True by done. by destruct (tor_onion db !! 1).
Qed.

Lemma add_onion_spec key vp lp s :
  let '(r, s') := bm_tor_control_add_onion key vp lp s in
  match r with
  | Ub => False
  | Err => True
  | Ok (onion_address, new_key) =>
      k_sent s' = k_sent s ++ add_onion_cmd key vp lp
      /\ (is_Some new_key <-> key = None)
  end.
Proof.
  unfold bm_tor_control_add_onion.
  destruct (ADD_ONION_CMD_SIZE <=? blen (add_onion_cmd key vp lp)); [done|].
  pose proof (send_all_spec (add_onion_cmd key vp lp) s) as H.
  destruct (send_all_blocking (add_onion_cmd key vp lp) s) as [[] s1];
    destruct H as (Hin & _ & sent & Hs & _ & Hok); cbn [negb]; [|done].
  rewrite Hok in Hs.
  pose proof (read_full_reply_spec new_reader s1 reader_ok_new) as H.
  destruct (reply_of BM_TOR_CONTROL_MAX_LINES [] (pending new_reader s1)) as [[lines rest]|];
    [|by rewrite H].
  destruct H as (lr & s2 & -> & _ & _ & _ & Hs2). unfold onion_from_reply.
  destruct (negb (last_code lines =? 250)); [done|].
  destruct (find_line_with_prefix lines (cstr "ServiceID="%string)) as [l|]; [|done].
  destruct key as [key|].
  - rewrite Hs2. split; [done|]. split; [by intros []|done].
  - destruct (find_line_with_prefix lines (cstr "PrivateKey="%string)) as [pk|]; [|done].
    rewrite Hs2. split; [done|]. split; [done|by eexists].
Qed.

(** The onion address survives restarts.  When the service comes up (a control connection is
    held), ADD_ONION was sent in full, with the stored key if there is one and asking for a new key
    otherwise; a stored key is kept as it is, and a new key is stored, so that the next start sends
    ADD_ONION with that key (cut to 159 characters); the node's own address is marked in the table of
    peers.  When it does not come up, neither table has changed and no descriptor is left open. *)
Theorem onion_key_persists (config : bm_tor_control_config) (tor : tor_environment)
  (virtual_port inbound_port now : Z) (st st' : onion_state) :
  files_ok tor ->
  start_tor_control config tor virtual_port inbound_port now st = Ok st' ->
  if os_control_fd st' <? 0 then
    os_config st' = os_config st /\ os_peers st' = os_peers st
    /\ os_closed st' = os_closed st ++ opened_descriptors config tor
  else
    (exists exchange, k_sent (os_socket st') =
       k_sent (os_socket st) ++ exchange
       ++ add_onion_cmd (service_key (os_config st)) virtual_port inbound_port)
    /\ match service_key (os_config st) with
       | Some key => os_config st' = os_config st
       | None => exists key, service_key (os_config st') = Some (text_field BM_TOR_ONION_KEY_MAX_LEN key)
       end
    /\ exists a r, os_peers st' !! (a, virtual_port, 1) = Some r /\ h_is_self r = true.
Proof.
  intros Hf. unfold start_tor_control.
  pose proof (control_connection config tor (os_socket st) Hf) as H.
  destruct (bm_tor_control_connect_and_authenticate config tor (os_socket st)) as [[r closed] s].
  destruct H as (fd & exchange & -> & Hs & Hc). rewrite bind_ok. cbv beta zeta.
  destruct st as [peers cdb fd0 self closed0 sock]. cbn in Hs |- *.
  destruct (fd <? 0) eqn:Hfd.
  { intros [= <-]. cbn. rewrite Hfd. unfold held in Hc. rewrite Hfd, app_nil_r in Hc. by rewrite Hc. }
  unfold service_key at 1 2.
  destruct (bm_config_store_get_tor_onion_key cdb BM_TOR_ONION_KEY_MAX_LEN) as [key has].
  set (stored := if has then Some key else None).
  pose proof (add_onion_spec stored virtual_port inbound_port s) as Ha.
  destruct (bm_tor_control_add_onion stored virtual_port inbound_port s) as [[[a new]| |] s'].
  - destruct Ha as [Hs' Hnew].
    assert (Hmark : exists r, bm_peer_manager_mark_self peers a virtual_port 1 now !! (a, virtual_port, 1) = Some r
      /\ h_is_self r = true).
    { unfold bm_peer_manager_mark_self. rewrite lookup_upsert, decide_True by done.
      destruct (peers !! _); by eexists. }
    destruct Hmark as (row & Hrow).
    destruct new as [k|]; cbn; (destruct (strncpy self a (BM_PEER_IP_STRLEN - 1)) as [self'| |]; [|done|done]);
      rewrite bind_ok; intros [= <-]; cbn; rewrite Hfd;
      (split; [exists exchange; by rewrite Hs', Hs, (assoc_L app)|]); (split; [|by exists a, row]).
    + destruct has; [by destruct Hnew as [Hnew _]; specialize (Hnew ltac:(by eexists))|].
      exists k. apply service_key_set.
    + destruct has; [done|]. by destruct Hnew as [_ Hnew]; destruct (Hnew eq_refl).
  - intros [= <-]. cbn. unfold held in Hc. rewrite Hfd in Hc. by rewrite <- (assoc_L app), Hc.
  - done.
Qed.

Definition onion_example : list Z := cstr "2gzyxa5ihm7nsggfxnu52rck2vv4rvmdlkiu3zzui5du4xyclen53wid"%string.

Definition add_onion_reply (service_id : list Z) : list Z :=
  cstr "250-ServiceID="%string ++ service_id ++ CRLF
  ++ cstr "250-PrivateKey=ED25519-V3:c2VjcmV0"%string ++ CRLF ++ cstr "250 OK"%string ++ CRLF.

(** A first start: no key is stored, the port answers in three pieces. *)
Definition first_start (service_id : list Z) : onion_state :=
  {| os_peers := ∅;
     os_config := {| socks_proxy := ∅; socks_proxy_clearnet := ∅; tor_onion := ∅ |};
     os_control_fd := -1; os_self := fresh_onion_array; os_closed := [];
     os_socket := {| k_in := [protocolinfo_reply; cstr "250 OK"%string ++ CRLF; add_onion_reply service_id];
                     k_out := [1000; 1000; 1000]; k_sent := [] |} |}.

Lemma onion_key_persists_witness :
  exists st', start_tor_control control_example env_example 8444 8448 1700000000 (first_start onion_example)
    = Ok st' /\ os_control_fd st' = 7 /\ is_Some (service_key (os_config st')).
Proof.
  assert (Hf : files_ok env_example).
  { intros path content. cbn [read_file env_example].
    destruct (list_eqb path (cstr "/run/tor/cookie"%string)); [|done]. intros [= <-].
    by repeat constructor. }
  assert (E : match start_tor_control control_example env_example 8444 8448 1700000000 (first_start onion_example) with
    | Ok st' => os_control_fd st' = 7 | _ => False end) by (vm_compute; reflexivity).
  destruct (start_tor_control control_example env_example 8444 8448 1700000000 (first_start onion_example))
    as [st'| |] eqn:Es; [|done|done].
  exists st'. split; [done|]. split; [done|].
  pose proof (onion_key_persists control_example env_example 8444 8448 1700000000 _ st' Hf Es) as H.
  rewrite E in H. change (7 <? 0) with false in H. cbv iota in H. destruct H as (_ & [k Hk] & _).
  rewrite Hk. by eexists.
Defined.

(** ** The array for the node's own address *)

Lemma string_in_app s rest :
  Forall (fun c => 0 < c) s -> string_in (s ++ 0 :: rest) = Ok s.
Proof.
  induction 1 as [|c s Hc _ IH]; [done|]. cbn [app string_in]. unfold uninit.
  destruct (Z.eqb_spec c 0); [lia|]. destruct (Z.eqb_spec c (-1)); [lia|].
  by rewrite IH, bind_ok.
Qed.

(** [strncpy] of [sizeof - 1] bytes ends an address of up to 62 characters, which is what a
    version 3 onion address has ... *)
Lemma onion_array_terminated (address : list Z) :
  Forall (fun c => 0 < c) address -> blen address <= 62 ->
  (array ← strncpy fresh_onion_array address (BM_PEER_IP_STRLEN - 1); string_in array) = Ok address.
Proof.
  intros Ha Hl. unfold strncpy. rewrite take_ge by (unfold blen, BM_PEER_IP_STRLEN in *; lia).
  unfold BM_PEER_IP_STRLEN in *. destruct (Z.to_nat (64 - 1 - blen address)) as [|n] eqn:En; [lia|].
  cbn [replicate]. unfold wr. rewrite blen_app, blen_cons, blen_replicate.
  change (blen fresh_onion_array) with 64. zdec. rewrite bind_ok.
  rewrite <- (assoc_L app). cbn [app]. apply string_in_app. done.
Qed.

(** ... but the array of [main] is not cleared before, so that after a longer answer of the control
    port its last byte is still what the stack held, and using it as a string reads on. *)
Lemma onion_array_unterminated :
  match start_tor_control control_example env_example 8444 8448 1700000000
          (first_start (replicate 70 97)) with
  | Ok st => os_control_fd st = 7 /\ string_in (os_self st) = Ub
  | _ => False
  end.
Proof. vm_compute. split; reflexivity. Qed.

(** ** Difficulties *)

(** bitmessage.conf cannot set a difficulty of zero, the environment can: the daemon then starts
    with it, and the target of any proof of work at that difficulty divides by zero. *)
Lemma environment_zero_difficulty :
  let env name :=
    if list_eqb name (cstr "BM_DEFAULT_NONCE_TRIALS_PER_BYTE"%string) then Some (cstr "0"%string) else None in
  exists su, startup_settings env set_defaults = Ok su
  /\ su_default_nonce_trials_per_byte su = 0
  /\ bm_pow_get_target 500 345600 (su_default_nonce_trials_per_byte su)
       (su_default_payload_length_extra_bytes su) = Ub.
Proof. eexists. split; [by vm_compute|]. by vm_compute. Qed.

(** Without such variables the settings of the file are what the daemon runs with, and the
    difficulties are positive. *)
Lemma startup_difficulties env cfg su :
  usable cfg -> startup_settings env cfg = Ok su ->
  env (cstr "BM_DEFAULT_NONCE_TRIALS_PER_BYTE"%string) = None ->
  env (cstr "BM_DEFAULT_PAYLOAD_LENGTH_EXTRA_BYTES"%string) = None ->
  0 < su_default_nonce_trials_per_byte su < 2 ^ 63
  /\ 0 < su_default_payload_length_extra_bytes su < 2 ^ 63.
Proof.
  intros (_ & _ & _ & Hn & He) E H1 H2. unfold startup_settings in E.
  inv_bind E. inv_bind E. inv_bind E. inv_bind E. injection E as <-.
  cbn [su_default_nonce_trials_per_byte su_default_payload_length_extra_bytes].
  unfold env_or_u64. by rewrite H1, H2.
Qed.
