(* ===== verification/PoolSafety.v ===== *)
(** * What enters the pool of objects

    Every object that infra/object_sync.c takes from a peer, directly or as the ack inside a
    message, has passed validation, for any bytes that arrive in any turn of the event loop
    (EventLoop.v with the handlers of ObjectSync.v). *)

From Stdlib Require Import String.
From stdpp Require Import base tactics numbers option gmap sorting list.
From S2P Require Import Prelude Queue Varint Base58 Openssl Hash Address Object Sql ObjectStore MessagesStore.
From S2P Require Import Protocol Crypto MessageBuilder IdentityStore Keyring TrialDecrypt BroadcastDecrypt.
From S2P Require Import PubkeyCache Pow PowQueue SendPipeline Dandelion PeerManager Network PeerRegistry EventLoop.
From S2P Require Import ObjectSync.

#[local] Arguments be_split : simpl never.

(** ** An invariant of what the handlers work on is one of the event loop *)

Section LoopInvariant.
Context `{OS : OpenSSL} `{INP : InetNtop} (g : protocol_globals) {W : Type} (I : W -> Prop).
Context (handler : Z -> bm_fd_data -> bm_message -> net_state * W -> cres (bm_fd_data * (net_state * W))).
Context (refill : bm_fd_data -> Z -> W -> cres (bm_fd_data * W)).
Context (on_sweep : Z -> net_state * W -> cres (net_state * W)).
Hypothesis handler_inv : forall p conn msg s w conn' s' w',
  handler p conn msg (s, w) = Ok (conn', (s', w')) -> I w -> I w'.
Hypothesis refill_inv : forall conn now w conn' w', refill conn now w = Ok (conn', w') -> I w -> I w'.
Hypothesis on_sweep_inv : forall now s w s' w', on_sweep now (s, w) = Ok (s', w') -> I w -> I w'.

Lemma parse_loop_inv p fuel conn s w st conn' s' w' :
  parse_loop g (handler p) fuel conn (s, w) = Ok (st, conn', (s', w')) -> I w -> I w'.
Proof.
  revert conn s w. induction fuel as [|fuel IH]; intros conn s w E Hi; [done|]. cbn [parse_loop] in E.
  inv_bind E. destruct a as [msg consumed| | | |].
  - inv_bind E. inv_bind E. destruct a0 as [c1 [s1 w1]]. apply handler_inv in E2; [|done].
    destruct (c_should_disconnect c1); [by injection E as <- <- <- <-|by eapply IH].
  - by injection E as <- <- <- <-.
  - inv_bind E. by eapply IH.
  - inv_bind E. by eapply IH.
  - by injection E as <- <- <- <-.
Qed.

Lemma handle_readable_inv p answers conn now s w st conn' s' w' :
  bm_network_handle_readable g (handler p) answers conn now (s, w) = Ok (st, conn', (s', w')) -> I w -> I w'.
Proof.
  unfold bm_network_handle_readable. intros E Hi. inv_bind E. destruct a as [st1 c1].
  destruct st1; [by eapply parse_loop_inv|by injection E as <- <- <- <-..].
Qed.

Lemma run_refill_inv conn now w conn' w' : run_refill refill conn now w = Ok (conn', w') -> I w -> I w'.
Proof. unfold run_refill. destruct (0 <? _)%nat; [apply refill_inv|by intros [= <- <-]]. Qed.

Lemma event_in_inv e s w s' w' : event_in g handler e (s, w) = Ok (s', w') -> I w -> I w'.
Proof.
  unfold event_in. intros E Hi. destruct (ev_in e); [|by injection E as <- <-]. inv_bind E. inv_bind E.
  destruct a0 as [[st c1] [s1 w1]]. apply handle_readable_inv in E1; [|done].
  destruct st; [by injection E as <- <-|..]; inv_bind E; by injection E as <- <-.
Qed.

Lemma handle_event_inv now e s w s' w' : handle_event g handler refill now e (s, w) = Ok (s', w') -> I w -> I w'.
Proof.
  unfold handle_event. intros E Hi. inv_bind E. case_bool_decide.
  { inv_bind E. by injection E as <- <-. }
  destruct (ev_out e); [|by eapply event_in_inv].
  destruct (bm_network_flush a now) as [[] c1].
  - inv_bind E. destruct a0 as [c2 w2]. apply run_refill_inv in E1; [|done]. by eapply event_in_inv.
  - inv_bind E. by injection E as <- <-.
Qed.

Lemma handle_events_inv now es s w s' w' :
  handle_events g handler refill now es (s, w) = Ok (s', w') -> I w -> I w'.
Proof.
  revert s w. induction es as [|e es IH]; intros s w E Hi; cbn [handle_events] in E; [by injection E as <- <-|].
  inv_bind E. destruct a as [s1 w1]. apply handle_event_inv in E0; [|done]. by eapply IH.
Qed.

Lemma idle_sweep_one_inv now p s w s' w' : idle_sweep_one g refill now p (s, w) = Ok (s', w') -> I w -> I w'.
Proof.
  unfold idle_sweep_one. intros E Hi. inv_bind E. case_bool_decide; [by injection E as <- <-|].
  destruct (c_pending_eviction a); [inv_bind E; by injection E as <- <-|]. inv_bind E.
  destruct a0; [inv_bind E; by injection E as <- <-|]. inv_bind E. inv_bind E. destruct a1 as [c2 w2].
  apply run_refill_inv in E3; [|done]. inv_bind E.
  destruct (negb _); [destruct (_ >? _); [inv_bind E|]; by injection E as <- <-|].
  destruct (_ >? _); [|by injection E as <- <-]. inv_bind E. destruct a2. by injection E as <- <-.
Qed.

Lemma fold_conns_inv (f : Z -> net_state * W -> cres (net_state * W)) l s w s' w' :
  (forall p s w s' w', f p (s, w) = Ok (s', w') -> I w -> I w') ->
  fold_conns f l (s, w) = Ok (s', w') -> I w -> I w'.
Proof.
  intros Hf. revert s w. induction l as [|p l IH]; intros s w E Hi; cbn [fold_conns] in E;
    [by injection E as <- <-|].
  inv_bind E. destruct a as [s1 w1]. apply Hf in E0; [|done]. by eapply IH.
Qed.

Lemma epoll_turn_inv now es s w s' w' :
  epoll_turn g handler refill on_sweep now es (s, w) = Ok (s', w') -> I w -> I w'.
Proof.
  unfold epoll_turn. intros E Hi. inv_bind E. destruct a as [s1 w1]. apply handle_events_inv in E0; [|done].
  inv_bind E. destruct a as [s2 w2]. eapply fold_conns_inv in E1;
    [|intros ????? H; by eapply idle_sweep_one_inv|done].
  by eapply on_sweep_inv.
Qed.
End LoopInvariant.


(** ** The objects of the pool *)

(** [run_cases]: every branch of an operation that is known to have returned. *)
Ltac run_step :=
  match goal with
  | sx : (_ * _)%type |- _ => destruct sx
  | H : Ub = Ok _ |- _ => discriminate H
  | H : Err = Ok _ |- _ => discriminate H
  | H : Ok _ = Ok _ |- _ => apply ok_inj in H
  | H : negb _ = false |- _ => apply negb_false_iff in H
  | H : (_, _) = (_, _) |- _ => apply pair_equal_spec in H as [? ?]
  | H : ?a = ?x |- _ => is_var x; subst x
  | H : ?x = _ |- _ => is_var x; subst x
  | H : (mbind _ _) = Ok _ |- _ => inv_bind H
  | H : match ?x with _ => _ end = Ok _ |- _ => destruct x eqn:?
  end.
Ltac run_cases := repeat run_step.

(** A row whose key is the hash of its object, an object with a header, a proof of work the
    network accepts and not expired for good when it was received. *)
Definition admissible `{OpenSSL} `{BigNum} (hash : list Z) (r : object_row) : Prop :=
  hash = bm_inventory_hash (o_payload r) /\
  exists hdr, bm_object_parse_header (o_payload r) = Ok hdr /\
    expired_for_good hdr (o_received r) = false /\
    object_pow_is_valid (o_payload r) hdr (o_received r) = Ok true /\
    o_type r = s32 (object_type hdr) /\ o_stream r = s32 (stream hdr) /\
    o_expires r = s64 (expires_time hdr).

Section Pool.
Context `{OS : OpenSSL} `{BN : BigNum} `{INP : InetNtop} `{IPT : InetPton} (g : protocol_globals).
Context (solve : list Z -> Z -> Z).

Abbreviation SW := (net_state * bm_object_sync_ctx)%type.

Definition pool_ok (x : bm_object_sync_ctx) : Prop := map_Forall admissible (x_pool x).

Lemma pool_insert_ok x payload hdr now x' :
  bm_object_parse_header payload = Ok hdr -> expired_for_good hdr now = false ->
  object_pow_is_valid payload hdr now = Ok true ->
  pool_insert x (bm_inventory_hash payload) (object_type hdr) (stream hdr) payload (expires_time hdr) now = Ok x' ->
  pool_ok x -> pool_ok x'.
Proof.
  intros Hh He Hp E Hx. unfold pool_insert in E. inv_bind E. unfold bm_object_store_insert in E0.
  run_cases. intros h r. change (insert_or_ignore (x_pool x) (bm_inventory_hash payload)
    {| o_type := s32 (object_type hdr); o_stream := s32 (stream hdr); o_payload := payload;
       o_expires := s64 (expires_time hdr); o_received := now; o_processed := 0 |} !! h = Some r -> admissible h r).
  rewrite lookup_insert_or_ignore. case_decide as Hk; [|by apply Hx].
  intros [= <-]. subst h. destruct (x_pool x !! _) as [r|] eqn:Er; [by apply Hx|]. split; [done|by exists hdr].
Qed.

Lemma announce_pool e s x h ex now s' x' :
  announce g e (s, x) h ex now = Ok (s', x') -> pool_ok x -> pool_ok x'.
Proof. unfold announce. intros E. by run_cases. Qed.

Lemma gc_pool x now : pool_ok x -> pool_ok (bm_object_sync_gc x now).2.
Proof. intros Hx. by apply delete_where_Forall. Qed.

Lemma maybe_run_gc_pool x now : pool_ok x -> pool_ok (maybe_run_gc x now).
Proof. unfold maybe_run_gc. intros Hx. case_match; [by apply gc_pool|done]. Qed.

Lemma resend_loop_pool e now i l x x' : resend_loop g solve e now i l x = Ok x' -> pool_ok x -> pool_ok x'.
Proof.
  revert i x. induction l as [|c l IH]; intros i x E Hx; cbn [resend_loop] in E; [by run_cases|].
  inv_bind E. eapply IH; [done|]. unfold resend_one in E0. run_cases; by case_match.
Qed.

Lemma maybe_run_resend_check_pool e x now x' :
  maybe_run_resend_check g solve e x now = Ok x' -> pool_ok x -> pool_ok x'.
Proof.
  unfold maybe_run_resend_check, bm_object_sync_check_resends. intros E Hx. run_cases; [|done].
  by eapply resend_loop_pool.
Qed.

Lemma validate_and_store_ack_pool e s x ex ack s' x' :
  validate_and_store_ack g e (s, x) ex ack = Ok (s', x') -> pool_ok x -> pool_ok x'.
Proof.
  unfold validate_and_store_ack. intros E Hx. run_cases; try done.
  - by eapply pool_insert_ok.
  - eapply announce_pool; [done|]. by eapply pool_insert_ok.
Qed.

Lemma reuse_pool e s x id v st now b s' x' :
  reuse_cached_pubkey_response g e (s, x) id v st now = Ok (b, (s', x')) -> pool_ok x -> pool_ok x'.
Proof.
  unfold reuse_cached_pubkey_response. intros E Hx. run_cases; try done. by eapply announce_pool.
Qed.

Lemma submit_job_pool x p job payload target key : x_pool (submit_job x p job payload target key).2 = x_pool x.
Proof. unfold submit_job. repeat case_match; done. Qed.

Lemma submit_pubkey_response_pool e x payload target id v st t key now x' :
  submit_pubkey_response e x payload target id v st t key now = Ok x' -> pool_ok x -> pool_ok x'.
Proof.
  unfold submit_pubkey_response, pool_ok. intros E Hx.
  destruct (submit_job _ _ _ _ _ _) as [rc x1] eqn:Ej. apply (f_equal (fun r => x_pool r.2)) in Ej.
  rewrite submit_job_pool in Ej. cbn [snd] in Ej. rewrite Ej in Hx. by run_cases.
Qed.

Lemma handle_incoming_getpubkey_pool e s x hdr object s' x' :
  handle_incoming_getpubkey g e (s, x) hdr object = Ok (s', x') -> pool_ok x -> pool_ok x'.
Proof.
  unfold handle_incoming_getpubkey. intros E Hx. run_cases; try done; try by eapply reuse_pool.
  eapply submit_pubkey_response_pool; [done|]. by eapply reuse_pool.
Qed.

Lemma process_object_pool e s x p hdr object s' x' :
  process_object g e (s, x) p hdr object = Ok (s', x') -> pool_ok x -> pool_ok x'.
Proof.
  unfold process_object. intros E Hx.
  destruct (_ =? _); [|destruct (_ =? _); [|destruct (_ =? _); [|destruct (_ =? _); [|destruct (_ =? _)]]]].
  - unfold handle_incoming_msg in E. run_cases; try done. by eapply validate_and_store_ack_pool.
  - unfold handle_incoming_pubkey in E. run_cases; subst; done.
  - by eapply handle_incoming_getpubkey_pool.
  - unfold handle_incoming_broadcast in E. by run_cases.
  - unfold handle_incoming_onionpeer in E. by run_cases.
  - by run_cases.
Qed.

Lemma handle_object_pool e s x p object s' x' :
  handle_object g e (s, x) p object = Ok (s', x') -> pool_ok x -> pool_ok x'.
Proof.
  unfold handle_object. intros E Hx. run_cases; try done.
  eapply process_object_pool; [done|]. eapply announce_pool; [done|]. by eapply pool_insert_ok.
Qed.

Lemma missing_items_pool e b l x m x' : missing_items e x b l = Ok (m, x') -> x_pool x' = x_pool x.
Proof.
  revert x m. induction l as [|h l IH]; intros x m E; cbn [missing_items] in E; [by run_cases|].
  run_cases; [by eapply IH|]. match goal with H : missing_items _ _ _ _ = _ |- _ => by apply IH in H end.
Qed.

Lemma handle_inv_pool e s x p msg s' x' :
  handle_inv g e (s, x) p msg = Ok (s', x') -> pool_ok x -> pool_ok x'.
Proof.
  unfold handle_inv, pool_ok. intros E Hx. run_cases; try done.
  all: by erewrite missing_items_pool.
Qed.

Lemma refill_uploads_world conn now x conn' x' :
  bm_object_sync_refill_uploads g conn now x = Ok (conn', x') -> x' = x.
Proof. unfold bm_object_sync_refill_uploads. intros E. by run_cases. Qed.

Lemma dispatch_command_pool e p msg s x b s' x' :
  dispatch_command g e p msg (s, x) = Ok (b, (s', x')) -> pool_ok x -> pool_ok x'.
Proof.
  unfold dispatch_command. intros E Hx.
  repeat match type of E with (if ?c then _ else _) = _ => destruct c end.
  - unfold handle_version, accept_version in E. by run_cases.
  - unfold handle_verack in E. by run_cases.
  - by run_cases.
  - by run_cases.
  - unfold handle_addr in E. by run_cases.
  - run_cases. by eapply handle_inv_pool.
  - unfold handle_getdata in E. run_cases; try done.
    all: match goal with H : bm_object_sync_refill_uploads _ _ _ _ = _ |- _ =>
           by apply refill_uploads_world in H as -> end.
  - run_cases. by eapply handle_object_pool.
  - unfold handle_error in E. by run_cases.
  - by run_cases.
Qed.

Lemma dispatch_pool env p conn msg s x conn' s' x' :
  bm_object_sync_dispatch g solve env p conn msg (s, x) = Ok (conn', (s', x')) -> pool_ok x -> pool_ok x'.
Proof.
  unfold bm_object_sync_dispatch. intros E Hx. run_cases.
  - by eapply dispatch_command_pool.
  - eapply maybe_run_resend_check_pool; [done|]. apply maybe_run_gc_pool. by eapply dispatch_command_pool.
Qed.

Lemma on_network_sweep_world e now s x s' x' :
  bm_object_sync_on_network_sweep g e now (s, x) = Ok (s', x') -> x' = x.
Proof.
  unfold bm_object_sync_on_network_sweep, bm_object_sync_flush_pending_verack_replies,
    bm_peer_registry_for_each_locked. cbn [fst].
  generalize (conns (ns_reg s)). intros l. revert s.
  induction l as [|p l IH]; intros s E; cbn [fold_conns] in E; [by run_cases|].
  inv_bind E. unfold flush_verack_reply_one in E0. run_cases; by eapply IH.
Qed.

(** A turn of the epoll thread: what [epoll_wait] returned and what the environment answers. *)
Record sync_turn := {
  tu_now : Z;
  tu_events : list epoll_event;
  tu_env : nat -> sync_env;
  tu_sweep : sync_env
}.

(** The thread of main.c: the handlers of this file in the loop of network.c. *)
Fixpoint run_turns (l : list sync_turn) (sx : SW) : cres SW :=
  match l with
  | [] => Ok sx
  | t :: l =>
      sx ← epoll_turn g (bm_object_sync_dispatch g solve (tu_env t)) (bm_object_sync_refill_uploads g)
             (bm_object_sync_on_network_sweep g (tu_sweep t)) (tu_now t) (tu_events t) sx;
      run_turns l sx
  end.

(** C4: Whatever peers send in any number of turns of the epoll thread, directly or as the
    ack inside a message, an object enters the pool only if it was validated: its header
    parses, its proof of work satisfies the network's target at the time it was received, it
    had not been expired for more than an hour, and it is filed under its own hash with its
    own type, stream and expiry. *)
Theorem pool_validated l s x s' x' :
  run_turns l (s, x) = Ok (s', x') ->
  map_Forall admissible (x_pool x) -> map_Forall admissible (x_pool x').
Proof.
  revert s x. induction l as [|t l IH]; intros s x E Hx; cbn [run_turns] in E; [by run_cases|].
  inv_bind E. destruct a as [s1 x1]. eapply IH; [done|].
  eapply (epoll_turn_inv g pool_ok) in E0; [done|..|done].
  - intros p conn msg s2 x2 conn' s3 x3 E1 H. by eapply dispatch_pool.
  - intros conn now x2 conn' x3 E1 H. by apply refill_uploads_world in E1 as ->.
  - intros now s2 x2 s3 x3 E1 H. by apply on_network_sweep_world in E1 as ->.
Qed.
End Pool.

(** ** A node *)

Section NodeExample.
#[local] Existing Instance toy_OpenSSL.
#[local] Existing Instance toy_OpenSSLLaws.
#[local] Existing Instance toy_ntop.

Definition toy_pton : InetPton := {| inet_pton4 := fun a => if blen a =? 4 then Some a else None |}.
#[local] Existing Instance toy_pton.

Definition example_g : protocol_globals := bm_protocol_set_testnet false.
Definition example_net_0 : net_state :=
  {| ns_reg := two_state.1; ns_heap := two_state.2; ns_limiter := bm_inbound_rate_limiter_init;
     ns_peers := bm_peer_manager_init_schema |}.
Definition example_x : bm_object_sync_ctx :=
  bm_object_sync_ctx_init bm_object_store_init_schema pipe_0 [pipe_sender] bm_identity_store_init_schema
    bm_dandelion_module_init (Some (cstr "/node/"%string)).
Definition example_env (t : Z) : sync_env :=
  {| en_now := t; en_ack := t; en_getpubkey := t; en_onionpeer := t; en_store := t; en_record := t;
     en_send := t; en_gc := t; en_resend := t; en_clock := fun _ => t; en_delay := fun _ => 5;
     en_pubkey := entropy_example; en_version_nonce := Some 3; en_job := 9;
     en_resends := fun i => (Z.of_nat i, 1000 + Z.of_nat i, pipe_random) |}.

(** An object of a type the node does not know, and its packet. *)
Definition example_object : list Z := be_split 8 5 ++ be_split 8 2000 ++ be_split 4 7 ++ [1; 1; 42].
Definition packet_of (command : list Z) (payload : list Z) : list Z :=
  match bm_create_packet example_g command payload with Ok p => p | _ => [] end.

Definition read_event (p t : Z) (bytes : list Z) : epoll_event :=
  {| ev_ptr := p; ev_out := false; ev_in := true; ev_incoming := []; ev_reads := [RDATA bytes; RAGAIN];
     ev_clock := t |}.
Definition turn_with (t : Z) (es : list epoll_event) : sync_turn :=
  {| tu_now := t; tu_events := es; tu_env := fun _ => example_env t; tu_sweep := example_env t |}.

Definition example_turns : list sync_turn :=
  [turn_with 1001 [read_event 100 1001 (packet_of (cstr "object"%string) example_object)]].

Lemma pool_validated_witness :
  exists s' x', run_turns example_g (fun _ _ => 0) example_turns (example_net_0, example_x) = Ok (s', x')
    /\ is_Some (x_pool x' !! bm_inventory_hash example_object) /\ map_Forall admissible (x_pool x').
Proof.
  destruct (run_turns example_g (fun _ _ => 0) example_turns (example_net_0, example_x))
    as [[s' x']| |] eqn:E; [|by vm_compute in E|by vm_compute in E].
  exists s', x'. split_and!; [done| |].
  - apply bm_object_store_has_spec.
    assert (H : ('(_, x) ← run_turns example_g (fun _ _ => 0) example_turns (example_net_0, example_x);
                 Ok (bm_object_store_has (x_pool x) (bm_inventory_hash example_object))) = Ok true)
      by by vm_compute.
    rewrite E in H. by apply ok_inj in H.
  - apply (pool_validated example_g (fun _ _ => 0) example_turns example_net_0 example_x s' x' E).
    apply map_Forall_empty.
Defined.
End NodeExample.
