(* ===== verification/Uploads.v ===== *)
(** * Uploads: serving getdata

    What a peer asked for is remembered per connection and sent as its send queue drains.
    First the array behind [upload_pending] (object_sync.c's [upload_pending_append] with its
    [memmove] and [realloc]) as a refinement of the list that Network.v and ObjectSync.v work
    with; then what [bm_object_sync_refill_uploads] and [handle_getdata] send. *)

From Stdlib Require Import String.
From stdpp Require Import base tactics numbers option gmap sorting list.
From S2P Require Import Prelude Queue Varint Base58 Openssl Hash Address Object Sql ObjectStore MessagesStore.
From S2P Require Import Protocol Crypto MessageBuilder IdentityStore Keyring TrialDecrypt BroadcastDecrypt.
From S2P Require Import PubkeyCache Pow PowQueue SendPipeline Dandelion PeerManager Network PeerRegistry EventLoop.
From S2P Require Import ObjectSync PoolSafety.

#[local] Arguments be_split : simpl never.

(** ** The array *)

(** [upload_pending] with [upload_pending_cap] elements, [upload_pending_head] and
    [upload_pending_count]; an element that was never written is [[]]. *)
Record upload_array := { ua_block : list (list Z); ua_head : nat; ua_count : nat }.

Definition ua_cap (a : upload_array) : nat := length (ua_block a).
Definition upload_array_new : upload_array := {| ua_block := []; ua_head := 0; ua_count := 0 |}.

(** [memcpy] of [items] to [block + off]. *)
Definition write_items (block : list (list Z)) (off : nat) (items : list (list Z)) : cres (list (list Z)) :=
  if (off + length items <=? length block)%nat
  then Ok (take off block ++ items ++ drop (off + length items) block) else Ub.

(** [while (cap < need) cap *= 2;] *)
Fixpoint grow_cap (fuel : nat) (cap need : Z) : cres Z :=
  if cap <? need then
    match fuel with O => Ub | S fuel => grow_cap fuel (cap * 2) need end
  else Ok cap.

Definition upload_array_append (a : upload_array) (items : list (list Z)) : cres upload_array :=
  let n := length items in
  if (n =? 0)%nat then Ok a else
  a ← (if (0 <? ua_head a)%nat && (ua_cap a <? ua_head a + ua_count a + n)%nat then
         block ← write_items (ua_block a) 0 (take (ua_count a) (drop (ua_head a) (ua_block a)));
         Ok {| ua_block := block; ua_head := 0; ua_count := ua_count a |}
       else Ok a);
  let need := (ua_head a + ua_count a + n)%nat in
  block ← (if (ua_cap a <? need)%nat then
             cap ← grow_cap 64 (if (0 <? ua_cap a)%nat then Z.of_nat (ua_cap a) else 64) (Z.of_nat need);
             Ok (ua_block a ++ replicate (Z.to_nat cap - ua_cap a) [])
           else Ok (ua_block a));
  block ← write_items block (ua_head a + ua_count a) items;
  Ok {| ua_block := block; ua_head := ua_head a; ua_count := ua_count a + n |}.

(** The hash at the head, taken. *)
Definition upload_array_take (a : upload_array) : cres (list Z * upload_array) :=
  match ua_block a !! ua_head a with
  | Some h => Ok (h, {| ua_block := ua_block a; ua_head := S (ua_head a); ua_count := Nat.pred (ua_count a) |})
  | None => Ub
  end.

(** The end of a refill; [dropped]: a send failed. *)
Definition upload_array_settle (a : upload_array) (dropped : bool) : upload_array :=
  let count := if dropped then 0%nat else ua_count a in
  {| ua_block := ua_block a; ua_head := if (count =? 0)%nat then 0 else ua_head a; ua_count := count |}.

(** The operations of object_sync.c on one connection: a getdata, a turn of the refill's
    loop, the end of the refill. *)
Inductive upload_op := UpGetdata (items : list (list Z)) | UpTake | UpSettle (dropped : bool).

(** [accepted] of handle_getdata *)
Definition upload_room (pending : nat) (items : list (list Z)) : list (list Z) :=
  take (Z.to_nat (if Z.of_nat pending <? BM_MAX_INVENTORY_ITEMS
                  then BM_MAX_INVENTORY_ITEMS - Z.of_nat pending else 0)) items.

(** The hashes taken and the array. *)
Fixpoint upload_array_run (a : upload_array) (ops : list upload_op) : cres (list (list Z) * upload_array) :=
  match ops with
  | [] => Ok ([], a)
  | UpGetdata items :: ops =>
      a ← upload_array_append a (upload_room (ua_count a) items);
      upload_array_run a ops
  | UpTake :: ops =>
      if (ua_count a =? 0)%nat then upload_array_run a ops else
      '(h, a) ← upload_array_take a;
      '(out, a) ← upload_array_run a ops;
      Ok (h :: out, a)
  | UpSettle dropped :: ops => upload_array_run (upload_array_settle a dropped) ops
  end.

(** The same on the list of hashes that are left. *)
Fixpoint upload_list_run (l : list (list Z)) (ops : list upload_op) : list (list Z) * list (list Z) :=
  match ops with
  | [] => ([], l)
  | UpGetdata items :: ops => upload_list_run (l ++ upload_room (length l) items) ops
  | UpTake :: ops =>
      match l with
      | [] => upload_list_run [] ops
      | h :: l => let '(out, l) := upload_list_run l ops in (h :: out, l)
      end
  | UpSettle dropped :: ops => upload_list_run (if dropped then [] else l) ops
  end.

(** The array holds the list; the array is empty or has 64, 128, ... elements, 65536 at most. *)
Record array_holds (a : upload_array) (l : list (list Z)) : Prop := {
  ah_block : exists pre post, ua_block a = pre ++ l ++ post /\ ua_head a = length pre;
  ah_count : ua_count a = length l;
  ah_few : Z.of_nat (length l) <= 50000;
  ah_cap : ua_cap a = 0%nat \/ exists k, 6 <= k <= 16 /\ Z.of_nat (ua_cap a) = 2 ^ k
}.

Lemma upload_room_fits k items :
  Z.of_nat k <= 50000 -> Z.of_nat k + Z.of_nat (length (upload_room k items)) <= 50000.
Proof.
  intros H. unfold upload_room, BM_MAX_INVENTORY_ITEMS. rewrite length_take.
  destruct (Z.ltb_spec (Z.of_nat k) 50000); lia.
Qed.

Lemma write_items_mid pre old post items :
  length old = length items -> write_items (pre ++ old ++ post) (length pre) items = Ok (pre ++ items ++ post).
Proof.
  intros H. unfold write_items. rewrite !length_app.
  destruct (Nat.leb_spec (length pre + length items) (length pre + (length old + length post))); [|lia].
  rewrite take_app_length, <- H, <- drop_drop, drop_app_length, drop_app_length. done.
Qed.

Lemma grow_cap_enough fuel : forall k need,
  6 <= k <= 16 -> 16 - k <= Z.of_nat fuel -> need <= 2 ^ 16 ->
  exists k', grow_cap fuel (2 ^ k) need = Ok (2 ^ k') /\ k <= k' <= 16 /\ need <= 2 ^ k'.
Proof.
  induction fuel as [|fuel IH]; intros k need Hk Hf Hn; cbn [grow_cap]; destruct (Z.ltb_spec (2 ^ k) need).
  - assert (k = 16) as -> by lia. lia.
  - exists k. split_and!; [done|lia..].
  - assert (k <> 16) by (intros ->; lia). replace (2 ^ k * 2) with (2 ^ (k + 1)) by (rewrite Z.pow_add_r; lia).
    destruct (IH (k + 1) need) as (k' & E & ? & ?); [lia..|]. exists k'. split_and!; [done|lia..].
  - exists k. split_and!; [done|lia..].
Qed.

(** Room in the array for [need] elements in all. *)
Lemma room_made (block : list (list Z)) (need : nat) :
  (length block = 0%nat \/ exists k, 6 <= k <= 16 /\ Z.of_nat (length block) = 2 ^ k) ->
  Z.of_nat need <= 50000 -> (length block < need)%nat ->
  exists more, (cap ← grow_cap 64 (if (0 <? length block)%nat then Z.of_nat (length block) else 64) (Z.of_nat need);
                Ok (block ++ replicate (Z.to_nat cap - length block) [])) = Ok (block ++ more)
    /\ (need <= length (block ++ more))%nat
    /\ exists k, 6 <= k <= 16 /\ Z.of_nat (length (block ++ more)) = 2 ^ k.
Proof.
  intros Hb Hn Hlt.
  assert (exists k, 6 <= k <= 16 /\ (if (0 <? length block)%nat then Z.of_nat (length block) else 64) = 2 ^ k
            /\ Z.of_nat (length block) <= 2 ^ k) as (k & Hk & -> & Hle).
  { destruct Hb as [Hb|(k & Hk & Hb)].
    - exists 6. rewrite Hb. cbn. lia.
    - exists k. pose proof (Z.pow_pos_nonneg 2 k). destruct (Nat.ltb_spec 0 (length block)); lia. }
  destruct (grow_cap_enough 64 k (Z.of_nat need)) as (k' & -> & Hk' & Hn'); [lia..|]. cbn_bind.
  pose proof (Z.pow_le_mono_r 2 k k'). exists (replicate (Z.to_nat (2 ^ k') - length block) []).
  rewrite length_app, length_replicate. split_and!; [done|lia|]. exists k'. split; [lia|]. lia.
Qed.

Lemma append_holds a l items :
  array_holds a l -> Z.of_nat (length l) + Z.of_nat (length items) <= 50000 ->
  exists a', upload_array_append a items = Ok a' /\ array_holds a' (l ++ items).
Proof.
  intros [(pre & post & Hb & Hh) Hc Hf Hcap] Hn. unfold upload_array_append.
  destruct (Nat.eqb_spec (length items) 0) as [H0|H0].
  { apply nil_length_inv in H0 as ->. rewrite app_nil_r. exists a. split; [done|]. constructor; eauto. }
  set (moved := if (_ && _)%bool then _ else _).
  assert (exists pre' post', moved = Ok {| ua_block := pre' ++ l ++ post'; ua_head := length pre'; ua_count := length l |}
    /\ length (pre' ++ l ++ post') = ua_cap a
    /\ ((length pre' + length l + length items <= ua_cap a)%nat \/ pre' = [])) as (pre' & post' & -> & Hlen & Hfit).
  { unfold moved. destruct (Nat.ltb_spec 0 (ua_head a)); cbn [andb];
      [destruct (Nat.ltb_spec (ua_cap a) (ua_head a + ua_count a + length items))|].
    - rewrite Hb, Hc, Hh, drop_app_length, take_app_length.
      unfold write_items. cbn [Nat.add]. rewrite !length_app.
      destruct (Nat.leb_spec (length l) (length pre + (length l + length post))); [|lia]. cbn_bind.
      exists [], (drop (length l) (pre ++ l ++ post)). cbn [app length take]. split_and!; [done| |by right].
      unfold ua_cap. rewrite Hb, !length_app, length_drop, !length_app. lia.
    - exists pre, post. destruct a. cbn in *. subst. split_and!; [done..|left]. unfold ua_cap in *. cbn in *. lia.
    - exists pre, post. destruct a. cbn in *. subst. split_and!; [done..|right]. destruct pre; [done|cbn in *; lia]. }
  cbn_bind. cbn [ua_head ua_count ua_block]. unfold ua_cap. cbn [ua_block]. rewrite Hlen.
  set (need := (length pre' + length l + length items)%nat).
  set (grown := if (ua_cap a <? need)%nat then _ else _).
  assert (exists post2, grown = Ok (pre' ++ l ++ post2) /\ (need <= length (pre' ++ l ++ post2))%nat
    /\ exists k, 6 <= k <= 16 /\ Z.of_nat (length (pre' ++ l ++ post2)) = 2 ^ k) as (post2 & -> & Hneed & Hcap2).
  { unfold grown. destruct (Nat.ltb_spec (ua_cap a) need) as [Hlt|Hge].
    - assert (pre' = []) as -> by (destruct Hfit; [lia|done]).
      destruct (room_made ([] ++ l ++ post') need) as (more & E & H1 & H2); [rewrite Hlen; exact Hcap| |lia|].
      { unfold need. cbn [length]. lia. }
      rewrite Hlen in E. exists (post' ++ more). rewrite E. cbn [app] in *. rewrite <- !app_assoc in *. done.
    - exists post'. split_and!; [done|lia|]. rewrite Hlen. destruct Hcap as [Hcap|]; [lia|done]. }
  cbn_bind. set (m := length items).
  assert (Hm : (m <= length post2)%nat) by (rewrite !length_app in Hneed; unfold need in Hneed; lia).
  rewrite <- (take_drop m post2), (app_assoc pre' l), <- length_app.
  rewrite (write_items_mid _ _ _ items) by (rewrite length_take; lia). cbn_bind.
  eexists. split; [reflexivity|]. constructor; cbn [ua_block ua_head ua_count].
  - exists pre', (drop m post2). by rewrite <- !app_assoc.
  - by rewrite length_app.
  - rewrite length_app. lia.
  - right. destruct Hcap2 as (k & Hk & E). exists k. split; [done|]. unfold ua_cap. cbn [ua_block].
    rewrite <- E. rewrite !length_app, length_drop. lia.
Qed.

Lemma take_holds a h l :
  array_holds a (h :: l) -> exists a', upload_array_take a = Ok (h, a') /\ array_holds a' l.
Proof.
  intros [(pre & post & Hb & Hh) Hc Hf Hcap]. unfold upload_array_take.
  assert (ua_block a !! ua_head a = Some h) as ->.
  { rewrite Hb, Hh, lookup_app_r, Nat.sub_diag by lia. done. }
  eexists. split; [reflexivity|].
  constructor; cbn [ua_block ua_head ua_count].
  - exists (pre ++ [h]), post. rewrite Hb, length_app, <- app_assoc. cbn. split; [done|lia].
  - by rewrite Hc.
  - cbn [length] in Hf. lia.
  - exact Hcap.
Qed.

Lemma settle_holds a l dropped :
  array_holds a l -> array_holds (upload_array_settle a dropped) (if dropped then [] else l).
Proof.
  intros [(pre & post & Hb & Hh) Hc Hf Hcap]. unfold upload_array_settle.
  constructor; cbn [ua_block ua_head ua_count].
  - destruct dropped; cbn [Nat.eqb]; [by exists [], (ua_block a)|].
    destruct (Nat.eqb_spec (ua_count a) 0) as [E|]; [|by exists pre, post].
    assert (l = []) as -> by (apply nil_length_inv; congruence). by exists [], (ua_block a).
  - by destruct dropped.
  - destruct dropped; [cbn|]; lia.
  - exact Hcap.
Qed.

Lemma upload_array_run_holds ops : forall a l, array_holds a l ->
  exists out a', upload_array_run a ops = Ok (out, a') /\ upload_list_run l ops = (out, (upload_list_run l ops).2)
    /\ array_holds a' (upload_list_run l ops).2.
Proof.
  induction ops as [|op ops IH]; intros a l H; cbn [upload_array_run upload_list_run].
  { by exists [], a. }
  pose proof (ah_count _ _ H) as Hc. destruct op as [items| |dropped].
  - rewrite Hc. destruct (append_holds a l (upload_room (length l) items) H) as (a' & -> & H').
    { apply upload_room_fits, (ah_few _ _ H). }
    cbn_bind. by apply IH.
  - rewrite Hc. destruct l as [|h l]; cbn [length Nat.eqb]; [by apply IH|].
    destruct (take_holds _ _ _ H) as (a' & -> & H'). cbn_bind.
    destruct (IH _ _ H') as (out & a2 & -> & E & H2). cbn_bind. exists (h :: out), a2.
    destruct (upload_list_run l ops) as [out' l']. cbn [snd] in *. injection E as ->. done.
  - apply IH. by apply settle_holds.
Qed.

(** C14: however getdata requests, transmissions and the ends of refills interleave, the array
    behind the pending uploads of a connection is never read or written outside its bounds,
    gives out exactly the hashes of a first-in first-out list of at most 50000 requests, and
    never grows beyond 65536 elements. *)
Theorem upload_array_refines_list (ops : list upload_op) :
  exists out a, upload_array_run upload_array_new ops = Ok (out, a)
    /\ upload_list_run [] ops = (out, take (ua_count a) (drop (ua_head a) (ua_block a)))
    /\ Z.of_nat (ua_count a) <= BM_MAX_INVENTORY_ITEMS /\ Z.of_nat (ua_cap a) <= 65536.
Proof.
  destruct (upload_array_run_holds ops upload_array_new []) as (out & a & -> & E & H).
  { constructor; [by exists [], []|done|cbn; lia|by left]. }
  exists out, a. destruct H as [(pre & post & Hb & Hh) Hc Hf Hcap]. split_and!; [done| |unfold BM_MAX_INVENTORY_ITEMS; lia|].
  - by rewrite E, Hb, Hc, Hh, drop_app_length, take_app_length.
  - destruct Hcap as [->|(k & Hk & ->)]; [cbn; lia|]. change 65536 with (2 ^ 16).
    apply Z.pow_le_mono_r; lia.
Qed.

(** ** What is sent *)

Section Refill.
Context `{OS : OpenSSL} `{OSL : !OpenSSLLaws} `{BN : BigNum} `{INP : InetNtop} `{IPT : InetPton}.
Context (enabled : bool).
Abbreviation g := (bm_protocol_set_testnet enabled).

Definition object_packet (payload : list Z) : list Z := packet g (cstr "object"%string) payload.

(** The packets for the requested hashes that are in the pool. *)
Definition answers_to (pool : object_pool) (l : list (list Z)) : list Z :=
  concat (map object_packet (omap (fun h => o_payload <$> pool !! h) l)).

(** A bound on the objects of the pool. *)
Definition objects_within (B : Z) (pool : object_pool) : Prop :=
  map_Forall (fun _ r => blen (o_payload r) <= B) pool.

Lemma send_queue_growth conn data now ok conn' :
  send_ok (c_send conn) -> 0 < blen data < 2 ^ 63 -> bm_network_send conn data now = (ok, conn') ->
  bm_network_queued_bytes conn' <= bm_network_queued_bytes conn + blen data.
Proof.
  intros Hs Hd E. pose proof (send_apply_inv conn (OpSend data now) ok conn' Hs) as H.
  cbn [op_ok send_apply] in H. destruct (H ltac:(lia) E) as (H1 & H2 & _ & more & H3).
  unfold bm_network_queued_bytes. rewrite (so_queued _ H1), (so_queued _ Hs).
  apply (f_equal blen) in H2. rewrite H3, !blen_app in H2. pose proof (blen_nonneg more).
  destruct (refused conn data); rewrite ?blen_nil in H2; pose proof (blen_nonneg data); lia.
Qed.

Definition THRESHOLD : Z := BM_UPLOAD_REFILL_THRESHOLD_BYTES.

(** What a refill leaves behind. *)
Record refilled (B : Z) (pool : object_pool) (l : list (list Z)) (conn conn' : bm_fd_data) : Prop := {
  rf_send : send_ok (c_send conn');
  rf_queue : bm_network_queued_bytes conn' <= Z.max (bm_network_queued_bytes conn) (THRESHOLD + 24 + B);
  rf_evicted : c_pending_eviction conn' = true -> upload_pending (c_upload conn') = [];
  rf_sent : c_pending_eviction conn' = false -> exists k,
      upload_pending (c_upload conn') = drop k l
      /\ stream_of conn' = stream_of conn ++ answers_to pool (take k l)
      /\ (drop k l = [] \/ THRESHOLD <= bm_network_queued_bytes conn')
}.

Lemma refill_loop_spec B pool now l : forall conn,
  send_ok (c_send conn) -> c_pending_eviction conn = false -> objects_within B pool -> B < 2 ^ 62 ->
  exists conn', refill_loop g pool l conn now = Ok conn' /\ refilled B pool l conn conn'.
Proof.
  induction l as [|h l IH]; intros conn Hs He Hp HB; cbn [refill_loop].
  { eexists. split; [reflexivity|]. split; [exact Hs| |done|].
    - change (bm_network_queued_bytes conn <= Z.max (bm_network_queued_bytes conn) (THRESHOLD + 24 + B)). lia.
    - intros _. exists 0%nat. cbn. rewrite app_nil_r. split_and!; [done..|by left]. }
  rewrite He. cbn [orb].
  destruct (Z.geb_spec (bm_network_queued_bytes conn) BM_UPLOAD_REFILL_THRESHOLD_BYTES) as [Hge|Hlt].
  { eexists. split; [reflexivity|]. split; [exact Hs| |intros Hn; exfalso; exact (eq_true_false_abs _ Hn He)|].
    - change (bm_network_queued_bytes conn <= Z.max (bm_network_queued_bytes conn) (THRESHOLD + 24 + B)). lia.
    - intros _. exists 0%nat. cbn. rewrite app_nil_r. split_and!; [done..|right]. exact Hge. }
  unfold bm_object_store_get. destruct (pool !! h) as [r|] eqn:Er.
  - rewrite create_packet_eq by apply set_testnet_magic. fold (object_packet (o_payload r)).
    specialize (Hp _ _ Er) as Hr. cbn beta in Hr. pose proof (blen_nonneg (o_payload r)).
    assert (Hlen : blen (object_packet (o_payload r)) = 24 + blen (o_payload r)) by (apply blen_packet, set_testnet_magic).
    assert (Hd : 0 < blen (object_packet (o_payload r)) < 2 ^ 63) by lia.
    destruct (bm_network_send conn (object_packet (o_payload r)) now) as [ok conn1] eqn:E.
    destruct (network_send_spec conn _ now ok conn1 Hs Hd E) as (Hs1 & _ & Hf & Ht).
    pose proof (send_queue_growth conn _ now ok conn1 Hs Hd E) as Hq.
    unfold THRESHOLD in *. destruct ok.
    + destruct (Ht eq_refl) as [Hst Hev].
      destruct (IH (conn1 <| c_upload := (c_upload conn1) <| upload_sent := upload_sent (c_upload conn1) + 1 |> |>))
        as (conn' & E' & [R1 R2 R3 R4]); [exact Hs1|exact (eq_trans Hev He)|done|done|].
      exists conn'. split; [exact E'|]. split; [done| |done|].
      * change (bm_network_queued_bytes (_ <| c_upload := _ |>)) with (bm_network_queued_bytes conn1) in R2.
        unfold THRESHOLD in *. lia.
      * intros Hn. destruct (R4 Hn) as (k & Hk1 & Hk2 & Hk3). exists (S k). cbn [drop take].
        split_and!; [done| |done]. rewrite Hk2. change (stream_of (_ <| c_upload := _ |>)) with (stream_of conn1).
        rewrite Hst, <- app_assoc. f_equal. unfold answers_to. cbn [omap list_omap]. rewrite Er. done.
    + eexists. split; [reflexivity|]. split; [exact Hs1| |done|].
      * change (bm_network_queued_bytes conn1 <= Z.max (bm_network_queued_bytes conn)
                  (BM_UPLOAD_REFILL_THRESHOLD_BYTES + 24 + B)). lia.
      * intros Hn. specialize (Hf eq_refl). change (c_pending_eviction conn1 = false) in Hn. congruence.
  - destruct (IH (conn <| c_upload := (c_upload conn)
                            <| upload_not_found := upload_not_found (c_upload conn) + 1 |> |>))
      as (conn' & E' & [R1 R2 R3 R4]); [exact Hs|exact He|done|done|].
    exists conn'. split; [exact E'|]. split; [done|exact R2|done|].
    intros Hn. destruct (R4 Hn) as (k & Hk1 & Hk2 & Hk3). exists (S k). cbn [drop take].
    split_and!; [done| |done]. rewrite Hk2. change (stream_of (_ <| c_upload := _ |>)) with (stream_of conn).
    f_equal. unfold answers_to. cbn [omap list_omap]. rewrite Er. done.
Qed.

Lemma refill_uploads_spec B conn now x :
  send_ok (c_send conn) -> c_pending_eviction conn = false -> objects_within B (x_pool x) -> B < 2 ^ 62 ->
  exists conn', bm_object_sync_refill_uploads g conn now x = Ok (conn', x)
    /\ refilled B (x_pool x) (upload_pending (c_upload conn)) conn conn'.
Proof.
  intros Hs He Hp HB. unfold bm_object_sync_refill_uploads.
  destruct (refill_loop_spec B (x_pool x) now (upload_pending (c_upload conn)) conn Hs He Hp HB)
    as (conn' & E & R). destruct (upload_pending (c_upload conn)) as [|h l] eqn:El.
  - exists conn. split; [done|]. split; [done|lia|done|]. intros _. exists 0%nat.
    rewrite El, take_0. cbn. rewrite app_nil_r. split_and!; [done..|by left].
  - rewrite E. cbn_bind. destruct (upload_pending (c_upload conn')) as [|h' l'] eqn:El'; [|by exists conn'].
    eexists. split; [reflexivity|]. destruct R as [R1 R2 R3 R4].
    split; [exact R1|exact R2|intros _; exact El'|exact R4].
Qed.

(** C8: a getdata that asks for at most 50000 objects queues its requests behind those still
    pending, never more than 50000 in all, and the requests are answered in their order: what
    the connection is given to send grows by exactly the packets of the next requests that are
    in the pool, until no request is left or 2 MB are queued.  The queue never grows beyond
    that and one object. *)
Theorem getdata_served (e : sync_env) (s : net_state) (x : bm_object_sync_ctx) (p B : Z) (conn : bm_fd_data)
    (msg : bm_message) (items : list (list Z)) :
  ns_heap s !! p = Some conn -> send_ok (c_send conn) -> c_pending_eviction conn = false ->
  Z.of_nat (length (upload_pending (c_upload conn))) <= BM_MAX_INVENTORY_ITEMS ->
  map_Forall (fun _ r => blen (o_payload r) <= B) (x_pool x) -> B < 2 ^ 62 ->
  bm_parse_inventory_message (default [] (Protocol.msg_payload msg)) = Ok items ->
  Z.of_nat (length items) <= BM_MAX_INVENTORY_ITEMS ->
  let asked := upload_pending (c_upload conn)
               ++ take (Z.to_nat BM_MAX_INVENTORY_ITEMS - length (upload_pending (c_upload conn))) items in
  exists conn', handle_getdata g e (s, x) p msg = Ok (store s p conn', x)
    /\ (c_pending_eviction conn' = false -> exists k,
          upload_pending (c_upload conn') = drop k asked
          /\ stream_of conn' = stream_of conn ++ answers_to (x_pool x) (take k asked)
          /\ (drop k asked = [] \/ 2 * 1024 * 1024 <= bm_network_queued_bytes conn'))
    /\ bm_network_queued_bytes conn' <= Z.max (bm_network_queued_bytes conn) (2 * 1024 * 1024 + 24 + B)
    /\ Z.of_nat (length (upload_pending (c_upload conn'))) <= BM_MAX_INVENTORY_ITEMS.
Proof.
  intros Hp Hs He Hl Hpool HB Hi Hn asked. unfold handle_getdata. rewrite Hi.
  destruct (Z.gtb_spec (Z.of_nat (length items)) BM_MAX_INVENTORY_ITEMS); [lia|].
  unfold deref. rewrite Hp. cbn_bind. set (pending := upload_pending (c_upload conn)) in *.
  set (room := if _ <? _ then _ else 0). set (accepted := if _ <? room then _ else _).
  assert (Ha : take (Z.to_nat accepted) items = take (Z.to_nat BM_MAX_INVENTORY_ITEMS - length pending) items).
  { unfold accepted, room. destruct (Z.ltb_spec (Z.of_nat (length pending)) BM_MAX_INVENTORY_ITEMS).
    - destruct (Z.ltb_spec (Z.of_nat (length items)) (BM_MAX_INVENTORY_ITEMS - Z.of_nat (length pending))).
      + rewrite !take_ge by lia. done.
      + f_equal. lia.
    - replace (Z.to_nat BM_MAX_INVENTORY_ITEMS - length pending)%nat with 0%nat by lia.
      destruct (Z.ltb_spec (Z.of_nat (length items)) 0); [lia|done]. }
  rewrite Ha. set (conn1 := upload_pending_append conn _).
  destruct (refill_uploads_spec B conn1 (en_send e) x Hs He Hpool HB) as (conn' & -> & [R1 R2 R3 R4]).
  cbn_bind. exists conn'. change (upload_pending (c_upload conn1)) with asked in *.
  assert (Hlen : Z.of_nat (length asked) <= BM_MAX_INVENTORY_ITEMS).
  { unfold asked. fold pending. rewrite length_app, length_take. lia. }
  split_and!; [done|exact R4|exact R2|].
  destruct (c_pending_eviction conn'); [by rewrite R3|].
  destruct (R4 eq_refl) as (k & -> & _). rewrite length_drop. lia.
Qed.
End Refill.

(** ** A peer asks for two objects, one of which the node has *)

Section UploadWitness.
#[local] Existing Instance toy_OpenSSL.
#[local] Existing Instance toy_OpenSSLLaws.
#[local] Existing Instance toy_ntop.

Definition example_pool : object_pool :=
  {[ bm_inventory_hash example_object :=
       {| o_type := 7; o_stream := 1; o_payload := example_object; o_expires := 2000; o_received := 1000;
          o_processed := 0 |} ]}.
Definition example_getdata : bm_message :=
  let payload := [2] ++ replicate 32 9 ++ bm_inventory_hash example_object in
  {| msg_command := cstr "getdata"%string ++ replicate 5 0; msg_length := blen payload; msg_checksum := 0;
     Protocol.msg_payload := Some payload |}.

Definition served : cres (net_state * bm_object_sync_ctx) :=
  handle_getdata example_g (example_env 1001) (example_net_0, example_x <| x_pool := example_pool |>) 100
    example_getdata.

Lemma getdata_served_witness :
  exists conn', served = Ok (store example_net_0 100 conn', example_x <| x_pool := example_pool |>)
    /\ Z.of_nat (length (upload_pending (c_upload conn'))) <= BM_MAX_INVENTORY_ITEMS
    /\ (forall r, served = Ok r ->
         exists c, ns_heap r.1 !! 100 = Some c /\ upload_pending (c_upload c) = []
                   /\ stream_of c = object_packet false example_object).
Proof.
  destruct (getdata_served false (example_env 1001) example_net_0 (example_x <| x_pool := example_pool |>) 100 100
    (example_conn <| c_generation := 1 |>) example_getdata
    [replicate 32 9; bm_inventory_hash example_object]) as (conn' & E & _ & _ & Hl).
  - by vm_compute.
  - apply fresh_send_ok.
  - done.
  - done.
  - change (map_Forall (fun _ r => blen (o_payload r) <= 100) example_pool).
    apply map_Forall_singleton. by vm_compute.
  - lia.
  - by vm_compute.
  - by vm_compute.
  - exists conn'. split; [exact E|]. split; [exact Hl|]. intros r Er. clear E.
    assert (H : match served with
                | Ok (s, _) => match ns_heap s !! 100 with
                               | Some c => (length (upload_pending (c_upload c)) =? 0)%nat
                                           && list_eqb (stream_of c) (object_packet false example_object)
                               | None => false
                               end
                | _ => false
                end = true) by (vm_compute; reflexivity).
    rewrite Er in H. destruct r as [s x]. cbn [fst]. destruct (ns_heap s !! 100) as [c|]; [|done].
    apply andb_true_iff in H as [H1 H2]. exists c. split; [done|]. split; [|by apply list_eqb_eq].
    by apply nil_length_inv, Nat.eqb_eq.
Defined.
End UploadWitness.
