(* ===== verification/Delivery.v ===== *)
(** * Delivery: what a received object sets in motion

    [handle_object] of object_sync.c on objects that validate: the announcement to the other
    peers always completes (the propagation table, the registry and the connections stay
    consistent), a message that the keyring opens lands in the inbox and its ack in the pool,
    and an ack that comes back marks the sent message. *)

From Stdlib Require Import String.
From stdpp Require Import base tactics numbers option gmap sorting list.
From S2P Require Import Prelude Queue Varint Base58 Openssl Hash Address Object Sql ObjectStore MessagesStore.
From S2P Require Import Protocol Crypto MessageBuilder IdentityStore Keyring TrialDecrypt BroadcastDecrypt.
From S2P Require Import PubkeyCache Pow PowQueue SendPipeline Dandelion PeerManager Network PeerRegistry EventLoop.
From S2P Require Import ObjectSync PoolSafety.

#[local] Arguments be_split : simpl never.

(** ** An announcement completes *)

Section Announce.
Context `{OS : OpenSSL} `{OSL : !OpenSSLLaws} `{BN : BigNum} `{INP : InetNtop} `{IPT : InetPton}.
Context (enabled : bool).
Abbreviation g := (bm_protocol_set_testnet enabled).

Definition known (d : dandelion_state) (h : list Z) : Prop := h ∈ map hash (entries d).

(** Times and delays of the environment. *)
Definition env_times (e : sync_env) : Prop :=
  (forall n, 0 < en_clock e n < 2 ^ 61) /\ (forall h, 0 <= en_delay e h < 2 ^ 32).

(** The table has at most [M] entries, that of [h] included. *)
Record room (h : list Z) (M : Z) (d : dandelion_state) : Prop := {
  rm_inv : dandelion_inv d;
  rm_count : entry_count d <= M;
  rm_new : ~ known d h -> entry_count d < M
}.

Lemma set_entry_hashes s i now : map hash (entries (set_entry s i (mark_fluffed now))) = map hash (entries s).
Proof.
  unfold set_entry. cbn [with_entries entries]. generalize (Z.to_nat i) as n.
  induction (entries s) as [|e es IH]; intros [|n]; simpl; [done..|]. f_equal. apply IH.
Qed.

Lemma room_call h M d now delay :
  room h M d -> hash_ok h -> 0 < now < 2 ^ 61 -> 0 <= delay < 2 ^ 32 -> M < 2 ^ 60 -> call_ok d h now delay.
Proof. intros [_ Hc _] [Hh _] ???. unfold call_ok. split_and!; try done; lia. Qed.

(** The entry of a hash, in a table that changed. *)
Lemma find_hash_app es e h : find_hash (es ++ [e]) h = match find_hash es h with Some x => Some x | None => find_hash [e] h end.
Proof. induction es as [|x es IH]; [done|]. cbn [app find_hash]. by destruct (list_eqb (hash x) h). Qed.

Lemma find_hash_marked es i e now h :
  es !! i = Some e -> hash e <> h -> find_hash (alter (mark_fluffed now) i es) h = find_hash es h.
Proof.
  revert i. induction es as [|x es IH]; intros [|i] Hi Hne; try done.
  - injection Hi as ->. change (alter (mark_fluffed now) 0%nat (e :: es)) with (mark_fluffed now e :: es).
    cbn [find_hash]. by rewrite !list_eqb_false.
  - change (alter (mark_fluffed now) (S i) (x :: es)) with (x :: alter (mark_fluffed now) i es).
    cbn [find_hash]. by rewrite (IH i).
Qed.

(** A decision: its mode, the entry it leaves for the hash, and the entries of the others. *)
Lemma decide_entry h M d target now delay :
  room h M d -> call_ok d h now delay ->
  let e := entry_or_new d h now delay in
  exists d', bm_dandelion_decide d h target now delay = Ok (decision d e target now, d') /\ room h M d'
    /\ same_stem d d' /\ (forall h', h' <> h -> find_hash (entries d') h' = find_hash (entries d) h')
    /\ find_hash (entries d') h
       = Some (if must_fluff d e now && (fluffed_at e =? 0) then mark_fluffed now e else e).
Proof.
  intros [I Hc Hn] C e. destruct (decide_ok d h target now delay I C) as (i & s1 & s' & E & I' & F & _ & Es').
  fold e in E, Es'. destruct (found_entry d h now delay i s1 I F) as [He Hh]. fold e in He, Hh.
  exists s'. split; [exact E|].
  assert (Eh : map hash (entries s') = map hash (entries s1)).
  { rewrite Es'. destruct (_ && _); [apply set_entry_hashes|done]. }
  assert (En : entry_count s' = entry_count s1).
  { unfold entry_count. apply (f_equal length) in Eh. rewrite !length_map in Eh. lia. }
  assert (K : known s1 h /\ entry_count s1 <= M).
  { unfold known. destruct F as [(e' & Hi & <- & ->)|(Ha & -> & Ea)].
    - split; [|done]. apply list_elem_of_fmap. exists e'. split; [done|]. by eapply list_elem_of_lookup_2.
    - specialize (Hn Ha). unfold entry_count in *. rewrite Ea, map_app, length_app. cbn.
      split; [|lia]. apply elem_of_app. right. by left. }
  destruct K as [K1 K2].
  assert (Hlast : entries s' !! i = Some (if must_fluff d e now && (fluffed_at e =? 0) then mark_fluffed now e else e)).
  { rewrite Es'. destruct (_ && _); [|done]. unfold set_entry. cbn [with_entries entries].
    by rewrite Nat2Z.id, list_lookup_alter_eq, He. }
  split_and!.
  - split; [done|lia|]. intros Hk. by destruct Hk; unfold known; rewrite Eh.
  - by apply decide_stem_only in E as [? _].
  - intros h' Hne. transitivity (find_hash (entries s1) h').
    + rewrite Es'. destruct (_ && _); [|done]. unfold set_entry. cbn [with_entries entries]. rewrite Nat2Z.id.
      apply (find_hash_marked _ _ e); [done|congruence].
    + destruct F as [(e' & _ & _ & ->)|(_ & _ & Ea)]; [done|]. rewrite Ea, find_hash_app.
      destruct (find_hash (entries d) h'); [done|]. cbn [find_hash new_entry hash]. by rewrite list_eqb_false.
  - destruct (find_hash_found _ _ _ (inv_distinct _ I') Hlast) as [Hf _]. rewrite <- Hf at 1.
    f_equal. rewrite <- Hh at 1. by destruct (_ && _).
Qed.

(** How a hash spreads to the peer at address [target], whose turn is the [n]-th, from a table
    [d]: the entry the table has for it, or gets at the first turn, decides; once it is due, in
    the clear for this peer and all behind it, until then to the stem peer only. *)
Definition spread (clock : nat -> Z) (delay : list Z -> Z) (d : dandelion_state) (h : list Z) (n : nat)
  (target : list Z * Z) : bm_propagation_mode :=
  let e := entry_or_new d h (clock 0%nat) (delay h) in
  if existsb (fun k => must_fluff d e (clock k)) (seq 0 (S n)) then BM_PROPAGATE_FLUFF
  else if bool_decide (target = (stem_ip d, stem_port d)) then BM_PROPAGATE_STEM else BM_PROPAGATE_SKIP.

(** What one connection is told of [h] at its turn: an [inv], a [dinv] or nothing is queued. *)
Definition told (clock : nat -> Z) (delay : list Z -> Z) (now : Z) (d : dandelion_state) (h : list Z) (n : nat)
  (c c' : bm_fd_data) : Prop :=
  c' = match spread clock delay d h n (bm_network_resolve_peer_ip_port c Network.BM_PEER_IP_STRLEN) with
       | BM_PROPAGATE_FLUFF => (bm_network_send c (announcement enabled (cstr "inv"%string) [h]) now).2
       | BM_PROPAGATE_STEM => (bm_network_send c (announcement enabled (cstr "dinv"%string) [h]) now).2
       | BM_PROPAGATE_SKIP => c
       end.

(** The table [d] that the first [n] turns of a broadcast of [h] make of [d0]. *)
Definition tracked (clock : nat -> Z) (delay : list Z -> Z) (d0 : dandelion_state) (h : list Z) (n : nat)
  (d : dandelion_state) : Prop :=
  let e0 := entry_or_new d0 h (clock 0%nat) (delay h) in
  same_stem d0 d /\ (forall h', h' <> h -> find_hash (entries d) h' = find_hash (entries d0) h')
  /\ match n with
     | O => find_hash (entries d) h = find_hash (entries d0) h
     | S _ => exists e, find_hash (entries d) h = Some e
         /\ if existsb (fun k => must_fluff d0 e0 (clock k)) (seq 0 n) then fluffed_at e <> 0 else e = e0
     end.

Lemma tracked_start clock delay d h : tracked clock delay d h 0 d.
Proof. by split_and!. Qed.

Lemma tracked_step clock delay d0 h M n d target :
  (forall k, 0 < clock k) -> room h M d -> call_ok d h (clock n) (delay h) -> tracked clock delay d0 h n d ->
  exists d', bm_dandelion_decide d h (Some target) (clock n) (delay h) = Ok (spread clock delay d0 h n target, d')
    /\ room h M d' /\ tracked clock delay d0 h (S n) d'.
Proof.
  intros Hk R C (St & Ho & Hn). destruct (decide_entry h M d (Some target) (clock n) (delay h) R C)
    as (d' & E & R' & St' & Ho' & He'). set (e := entry_or_new d h (clock n) (delay h)) in *.
  set (e0 := entry_or_new d0 h (clock 0%nat) (delay h)).
  pose proof (Hk n) as Hn0.
  assert (Hm : must_fluff d e (clock n) = existsb (fun k => must_fluff d0 e0 (clock k)) (seq 0 (S n))
               /\ (must_fluff d e (clock n) = false -> e = e0)).
  { assert (Hs : forall x t, must_fluff d x t = must_fluff d0 x t) by (intros; unfold must_fluff; destruct St as (_ & _ & S3); by rewrite S3).
    rewrite seq_S, existsb_app. cbn [existsb]. rewrite orb_false_r. change (0 + n)%nat with n. rewrite Hs. destruct n as [|n].
    - assert (e = e0) as -> by (unfold e, e0, entry_or_new; by rewrite Hn). by split.
    - destruct Hn as (x & Hx & Hc). assert (e = x) as -> by (unfold e, entry_or_new; by rewrite Hx).
      fold e0 in Hc. destruct (existsb _ (seq 0 (S n))); [|subst; by split].
      assert (must_fluff d0 x (clock (S n)) = true) as ->; [|by split].
      unfold must_fluff. by rewrite (proj2 (Z.eqb_neq _ _)) by done. }
  destruct Hm as [Hm He]. exists d'. split_and!; [|done|].
  - rewrite E. unfold decision, spread. fold e0. rewrite <- Hm. destruct (must_fluff d e (clock n)); [done|].
    destruct St as (<- & <- & _). by repeat case_bool_decide; naive_solver.
  - split; [|split; [intros h' Hne; by rewrite Ho', Ho|]].
    { destruct St as (? & ? & ?), St' as (? & ? & ?). unfold same_stem. split_and!; congruence. }
    eexists. split; [exact He'|]. fold e0. rewrite <- Hm. destruct (must_fluff d e (clock n)); [|by apply He]. cbn [andb].
    destruct (Z.eqb_spec (fluffed_at e) 0); [cbn; lia|done].
Qed.

Lemma queue_hashes_one conn command h now : hash_ok h ->
  queue_hashes g conn command [h] now = Ok (bm_network_send conn (announcement enabled command [h]) now).
Proof.
  intros Hh. unfold queue_hashes, announcement. cbn [length]. change (0 <? 1)%nat with true. cbv iota.
  unfold bm_create_inventory_message. rewrite inventory_payload_eq, bind_ok by (by constructor).
  by rewrite create_packet_eq, bind_ok by apply set_testnet_magic.
Qed.

Lemma queue_inv_told clock delay n M d0 d conn h now :
  hash_ok h -> (forall k, 0 < clock k) -> room h M d -> call_ok d h (clock n) (delay h) -> tracked clock delay d0 h n d ->
  exists conn' d', queue_inv_for_conn g clock delay n d conn [h] now = Ok (conn', d')
    /\ told clock delay now d0 h n conn conn' /\ room h M d' /\ tracked clock delay d0 h (S n) d'.
Proof.
  intros Hh Hk R C T. unfold queue_inv_for_conn. cbn [decide_all]. unfold bm_decide_propagation.
  destruct (tracked_step clock delay d0 h M n d (bm_network_resolve_peer_ip_port conn Network.BM_PEER_IP_STRLEN) Hk R C T)
    as (d' & -> & R' & T'). cbn_bind. unfold told.
  destruct (spread clock delay d0 h n _); cbn_bind.
  - rewrite (queue_hashes_one conn _ h now Hh). cbn_bind.
    destruct (bm_network_send _ _ _) as [[] c1]; cbn_bind; by eexists _, _.
  - change (queue_hashes g conn (cstr "inv"%string) [] now) with (Ok (true, conn) : cres (bool * bm_fd_data)). cbn_bind.
    rewrite (queue_hashes_one conn _ h now Hh). cbn_bind. destruct (bm_network_send _ _ _) as [ok c1]. cbn_bind. by eexists _, _.
  - by eexists _, _.
Qed.

(** The turn of the connection [p] in a broadcast along [l]. *)
Fixpoint turn (heap : conn_heap) (except : option Z) (l : list Z) (p : Z) : nat :=
  match l with
  | [] => 0
  | q :: l =>
      if bool_decide (q = p) then 0
      else if bool_decide (Some q = except) || bool_decide (c_type <$> heap !! q = Some BM_FD_LISTEN_SOCKET)
      then turn heap except l p else S (turn heap except l p)
  end%nat.

Lemma turn_ext heap heap' except l p :
  (forall q, q ∈ l -> c_type <$> heap !! q = c_type <$> heap' !! q) -> turn heap except l p = turn heap' except l p.
Proof.
  induction l as [|q l IH]; intros Ht; [done|]. cbn [turn]. rewrite Ht by (by left). rewrite IH; [done|].
  intros q' Hq'. apply Ht. by right.
Qed.

Lemma broadcast_loop_told clock delay h M now except d0 l : forall n heap d,
  hash_ok h -> (forall k, 0 < clock k) -> room h M d -> (forall k d, room h M d -> call_ok d h (clock k) (delay h)) ->
  tracked clock delay d0 h n d -> NoDup l ->
  (forall p, p ∈ l -> is_Some (heap !! p)) ->
  map_Forall (fun _ c => send_ok (c_send c)) heap ->
  exists heap' d', broadcast_loop g clock delay n l except [h] now (heap, d) = Ok (heap', d')
    /\ room h M d' /\ (exists n', tracked clock delay d0 h n' d')
    /\ forall p c, heap !! p = Some c -> exists c', heap' !! p = Some c' /\ c_type c' = c_type c
         /\ (p ∉ l \/ left_out except p c -> c' = c)
         /\ (p ∈ l -> ~ left_out except p c -> told clock delay now d0 h (n + turn heap except l p) c c').
Proof.
  intros n heap d Hh Hk. revert n heap d. induction l as [|q l IH]; intros n heap d R C T Hnd Hl Hs; cbn [broadcast_loop].
  { exists heap, d. split_and!; [done|done|by exists n|]. intros p c Hp. exists c. split_and!; try done. by intros ?%not_elem_of_nil. }
  apply NoDup_cons in Hnd as [Hq Hnd].
  assert (Hl' : forall p, p ∈ l -> is_Some (heap !! p)) by (intros p Hp; apply Hl; by right).
  destruct (Hl q) as [cq Hcq]; [by left|].
  assert (skip : left_out except q cq ->
    (bool_decide (Some q = except) || bool_decide (c_type <$> heap !! q = Some BM_FD_LISTEN_SOCKET)) = true ->
    exists heap' d', broadcast_loop g clock delay n l except [h] now (heap, d) = Ok (heap', d')
      /\ room h M d' /\ (exists n', tracked clock delay d0 h n' d')
      /\ forall p c, heap !! p = Some c -> exists c', heap' !! p = Some c' /\ c_type c' = c_type c
           /\ (p ∉ q :: l \/ left_out except p c -> c' = c)
           /\ (p ∈ q :: l -> ~ left_out except p c ->
               told clock delay now d0 h (n + turn heap except (q :: l) p) c c')).
  { intros Hlo Ho. destruct (IH n heap d R C T Hnd Hl' Hs) as (heap' & d' & E & R' & T' & Hp').
    exists heap', d'. split_and!; [done|done|done|]. intros p c Hp. destruct (Hp' p c Hp) as (c' & H1 & H2 & H3 & H4).
    exists c'. split_and!; [done|done| |].
    - intros [Hnp|?]; apply H3; [left; set_solver|by right].
    - intros [->|Hpl]%elem_of_cons Hlo'; [simplify_eq; done|]. cbn [turn]. rewrite Ho.
      rewrite bool_decide_eq_false_2 by set_solver. by apply H4. }
  destruct (bool_decide (Some q = except)) eqn:E1.
  { apply skip; [by left; apply bool_decide_eq_true in E1|done]. }
  cbn [fst snd orb]. unfold deref. rewrite Hcq. cbn_bind. cbn [fmap option_fmap option_map] in skip.
  destruct (bool_decide (c_type cq = BM_FD_LISTEN_SOCKET)) eqn:E2.
  { apply bool_decide_eq_true in E2. apply skip; [by right|]. rewrite Hcq. cbn. rewrite bool_decide_eq_true_2; [done|]. by rewrite E2. }
  clear skip. apply bool_decide_eq_false in E1, E2.
  destruct (queue_inv_told clock delay n M d0 d cq h now Hh Hk R (C n d R) T) as (c1 & d1 & Eq & Hto & R1 & T1).
  destruct (queue_inv_spec enabled clock delay n d cq [h] now c1 d1 (Hs _ _ Hcq) ltac:(by constructor) ltac:(done) Eq)
    as (Hs1 & _ & Hty & _).
  rewrite Eq. cbn_bind. cbn [length]. replace (n + 1)%nat with (S n) by lia.
  assert (Hheap : forall p, c_type <$> (<[q := c1]> heap) !! p = c_type <$> heap !! p).
  { intros p. destruct (decide (p = q)) as [->|]; [rewrite lookup_insert_eq, Hcq; cbn; by rewrite Hty|by rewrite lookup_insert_ne]. }
  destruct (IH (S n) (<[q := c1]> heap) d1 R1 C T1 Hnd) as (heap' & d' & E & R' & T' & Hp').
  { intros p Hp. destruct (decide (p = q)) as [->|]; [rewrite lookup_insert_eq; by eexists|rewrite lookup_insert_ne by done; by apply Hl']. }
  { by apply map_Forall_insert_2. }
  exists heap', d'. split_and!; [done|done|done|]. intros p c Hp. destruct (decide (p = q)) as [->|Hne].
  - simplify_eq. destruct (Hp' q c1) as (c' & H1 & H2 & H3 & _); [by rewrite lookup_insert_eq|].
    rewrite (H3 (or_introl Hq)) in *. exists c1. split_and!; [done|done| |].
    + intros [Hx|[Hx|Hx]]; [set_solver|congruence|done].
    + intros _ _. cbn [turn]. by rewrite bool_decide_eq_true_2, Nat.add_0_r by done.
  - destruct (Hp' p c) as (c' & H1 & H2 & H3 & H4); [by rewrite lookup_insert_ne|]. exists c'. split_and!; [done|done| |].
    + intros [Hnp|?]; apply H3; [left; set_solver|by right].
    + intros [->|Hpl]%elem_of_cons Hlo; [done|]. cbn [turn]. rewrite Hcq. cbn [fmap option_fmap option_map].
      rewrite !bool_decide_eq_false_2 by first [done | congruence]. cbn [orb].
      rewrite <- (turn_ext (<[q := c1]> heap) heap) by done.
      replace (n + S (turn (<[q := c1]> heap) except l p))%nat with (S n + turn (<[q := c1]> heap) except l p)%nat by lia.
      by apply H4.
Qed.

(** What the handlers rely on: the registered connections are allocated and in order, and
    the propagation table is consistent and holds at most [M] hashes. *)
Record node_ok (M : Z) (s : net_state) (d : dandelion_state) : Prop := {
  no_nodup : NoDup (conns (ns_reg s));
  no_live : forall p, p ∈ conns (ns_reg s) -> is_Some (ns_heap s !! p);
  no_send : map_Forall (fun _ c => send_ok (c_send c)) (ns_heap s);
  no_table : dandelion_inv d;
  no_room : entry_count d <= M
}.

(** A broadcast of one hash from a node whose table is [d0] for it. *)
Definition told_by (e : sync_env) (now : Z) (d0 : dandelion_state) (h : list Z) (except : option Z) (s : net_state)
  (heap' : conn_heap) : Prop :=
  forall p c, ns_heap s !! p = Some c -> exists c', heap' !! p = Some c' /\ c_type c' = c_type c
    /\ (p ∈ conns (ns_reg s) -> ~ left_out except p c ->
        told (en_clock e) (en_delay e) now d0 h (turn (ns_heap s) except (conns (ns_reg s)) p) c c').

Lemma announce_total e M s x h except now :
  node_ok M s (x_dandelion x) -> env_times e -> hash_ok h -> M < 2 ^ 59 ->
  exists heap' d', announce g e (s, x) h except now = Ok (s <| ns_heap := heap' |>, x <| x_dandelion := d' |>)
    /\ node_ok (M + 1) (s <| ns_heap := heap' |>) d' /\ same_stem (x_dandelion x) d'
    /\ (forall h', h' <> h -> find_hash (entries d') h' = find_hash (entries (x_dandelion x)) h')
    /\ told_by e now (x_dandelion x) h except s heap'.
Proof.
  intros [Hn Hl Hs Hd Hc] [He1 He2] Hh HM.
  assert (R : room h (M + 1) (x_dandelion x)) by (split; [done|lia|intros _; lia]).
  unfold announce, bm_peer_registry_broadcast_inv. cbn [length]. change (0 <? 1)%nat with true. cbv iota.
  destruct (broadcast_loop_told (en_clock e) (en_delay e) h (M + 1) now except (x_dandelion x) (conns (ns_reg s)) 0
    (ns_heap s) (x_dandelion x) Hh (fun k => proj1 (He1 k)) R) as (heap' & d' & E & R' & (n' & T1 & T2 & _) & Hp).
  { intros k d Rd. apply (room_call h (M + 1)); try done. lia. }
  { apply tracked_start. }
  { done. }
  { done. }
  { done. }
  rewrite E. cbn_bind. exists heap', d'. split; [done|].
  destruct (broadcast_loop_spec enabled (en_clock e) (en_delay e) _ _ _ _ _ _ _ _ _ Hn
    ltac:(constructor; [exact Hh|constructor]) ltac:(done) Hs E) as (_ & H2 & _).
  split_and!; [|exact T1|exact T2|].
  - split; [done| |done|apply R'|apply R'].
    intros p Hpl. destruct (Hl p Hpl) as [c Hc']. destruct (Hp p c Hc') as (c' & Hc2 & _). by exists c'.
  - intros p c Hpc. destruct (Hp p c Hpc) as (c' & Hc' & Ht & _ & Hin). by exists c'.
Qed.

(** The table matters through its stem and its entry for the hash only. *)
Lemma told_ext clock delay now d d' h n c c' :
  same_stem d d' -> find_hash (entries d') h = find_hash (entries d) h ->
  told clock delay now d' h n c c' -> told clock delay now d h n c c'.
Proof.
  intros (H1 & H2 & H3) Hf. unfold told, spread, entry_or_new, must_fluff. by rewrite Hf, H1, H2, H3.
Qed.

(** What the peer reads: behind what was queued, the announcement, unless the connection is given up. *)
Lemma told_stream clock delay now d h n c c' :
  send_ok (c_send c) -> hash_ok h -> told clock delay now d h n c c' ->
  c_pending_eviction c' = true
  \/ stream_of c' = stream_of c
       ++ match spread clock delay d h n (bm_network_resolve_peer_ip_port c Network.BM_PEER_IP_STRLEN) with
          | BM_PROPAGATE_FLUFF => announcement enabled (cstr "inv"%string) [h]
          | BM_PROPAGATE_STEM => announcement enabled (cstr "dinv"%string) [h]
          | BM_PROPAGATE_SKIP => []
          end.
Proof.
  intros Hs Hh. unfold told. destruct (spread _ _ _ _ _ _); intros ->; [| |right; by rewrite app_nil_r].
  all: match goal with |- context [bm_network_send ?c0 (announcement _ ?cmd _) ?t] =>
         pose proof (queue_hashes_one c0 cmd h t Hh) as Hq; destruct (bm_network_send c0 (announcement _ cmd _) t) as [ok c1];
         cbn [snd] end.
  all: destruct (queue_hashes_spec enabled _ _ [h] _ _ _ Hs ltac:(by constructor) ltac:(done) Hq) as (_ & _ & _ & H1 & H2).
  all: destruct ok; [right; by apply H2|left; by apply H1].
Qed.
End Announce.

(** ** A message *)

Section Message.
Context `{OS : OpenSSL} `{OSL : !OpenSSLLaws} `{BN : BigNum} `{INP : InetNtop} `{IPT : InetPton}.
Context (enabled : bool).
Abbreviation g := (bm_protocol_set_testnet enabled).

(** An object that passes validation at [now] and whose hash the pool does not have. *)
Record valid_new (x : bm_object_sync_ctx) (object : list Z) (hdr : bm_object_header) (now : Z) : Prop := {
  vn_header : bm_object_parse_header object = Ok hdr;
  vn_alive : expired_for_good hdr now = false;
  vn_pow : object_pow_is_valid object hdr now = Ok true;
  vn_new : x_pool x !! bm_inventory_hash object = None
}.

Lemma header_not_empty object hdr : bm_object_parse_header object = Ok hdr -> 20 <= blen object.
Proof.
  unfold bm_object_parse_header. destruct (Z.ltb_spec (blen object) (8 + 8 + 4)); [done|lia].
Qed.

Definition row_of (object : list Z) (hdr : bm_object_header) (now : Z) : object_row :=
  {| o_type := s32 (object_type hdr); o_stream := s32 (stream hdr); o_payload := object;
     o_expires := s64 (expires_time hdr); o_received := now; o_processed := 0 |}.

Lemma pool_insert_new x object hdr now :
  x_pool x !! bm_inventory_hash object = None -> blen object < 2 ^ 31 ->
  pool_insert x (bm_inventory_hash object) (object_type hdr) (stream hdr) object (expires_time hdr) now
  = Ok (x <| x_pool := <[bm_inventory_hash object := row_of object hdr now]> (x_pool x) |>).
Proof.
  intros Hn Hl. unfold pool_insert. rewrite insert_ok by done. cbn_bind. unfold insert_or_ignore.
  by rewrite Hn.
Qed.

Lemma has_new x h : x_pool x !! h = None -> bm_object_store_has (x_pool x) h = false.
Proof. unfold bm_object_store_has. by intros ->. Qed.

Lemma hash_is_hash object : hash_ok (bm_inventory_hash object).
Proof. exact (inventory_hash_32 object). Qed.

(** The ack inside a message. *)
Lemma ack_entered e M s x except ack packet hdr :
  node_ok M s (x_dandelion x) -> env_times e -> M < 2 ^ 59 ->
  bm_create_packet g (cstr "object"%string) ack = Ok packet -> blen ack <= BM_MAX_MESSAGE_LENGTH ->
  valid_new x ack hdr (en_ack e) ->
  exists heap' d', validate_and_store_ack g e (s, x) except packet
    = Ok (s <| ns_heap := heap' |>,
          x <| x_pool := <[bm_inventory_hash ack := row_of ack hdr (en_ack e)]> (x_pool x) |>
            <| x_dandelion := d' |>)
    /\ told_by enabled e (en_ack e) (x_dandelion x) (bm_inventory_hash ack) except s heap'.
Proof.
  intros Hn He HM Hp Hl [Hh Ha Hpow Hnew].
  pose proof (header_not_empty _ _ Hh). rewrite create_packet_eq in Hp by apply set_testnet_magic.
  injection Hp as <-. unfold validate_and_store_ack.
  rewrite <- (app_nil_r (packet _ _ _)), parse_packet by (done || apply set_testnet_magic).
  rewrite app_nil_r, blen_packet by apply set_testnet_magic. rewrite Z.eqb_refl. cbn [msg_command Protocol.msg_payload].
  change (strncmp_eq 12 (command_field (cstr "object"%string)) (cstr "object"%string)) with true.
  cbn [negb orb]. destruct (Z.gtb_spec (blen ack) 0); [|lia]. change (default [] (Some ack)) with ack. cbv zeta.
  rewrite Hh, Ha, Hpow. cbn_bind. cbn [negb]. rewrite has_new by done.
  rewrite pool_insert_new by (done || unfold BM_MAX_MESSAGE_LENGTH in *; lia). cbn_bind.
  set (x1 := x <| x_pool := _ |>).
  destruct (announce_total enabled e M s x1 (bm_inventory_hash ack) except (en_ack e) Hn He (hash_is_hash ack) HM)
    as (heap' & d' & E & _ & _ & _ & H'). exists heap', d'. split; [exact E|exact H'].
Qed.

(** C3: a message that reaches its recipient ends in the inbox and answers its sender.  When a
    peer hands the node a valid new object that the keyring opens, and the ack inside is a
    valid new object too, [handle_object] always completes: the message is in the inbox under
    the object's hash with its sender, recipient, subject and body, the object and the ack are
    in the pool, and the object and then the ack are announced to the other peers: each in an
    [inv] to every one of them when its stem phase is over, until then in a [dinv] to the stem
    peer and to nobody else. *)
Theorem message_received (e : sync_env) (M : Z) (s : net_state) (x : bm_object_sync_ctx) (p : Z)
    (object ack packet subject body : list Z) (hdr hdr_ack : bm_object_header) (out : bm_decoded_msg) :
  node_ok M s (x_dandelion x) -> env_times e -> M < 2 ^ 58 ->
  blen object <= BM_MAX_OBJECT_PAYLOAD_SIZE -> valid_new x object hdr (en_now e) ->
  object_type hdr = BM_OBJECT_MSG -> bm_trial_decrypt_msg (x_keyring x) object = Ok out ->
  dm_subject out = Some subject -> dm_body out = Some body ->
  dm_ack_payload out = Some packet -> bm_create_packet g (cstr "object"%string) ack = Ok packet ->
  blen ack <= BM_MAX_MESSAGE_LENGTH -> valid_new x ack hdr_ack (en_ack e) ->
  bm_inventory_hash ack <> bm_inventory_hash object ->
  m_inbox (x_messages x) !! bm_inventory_hash object = None ->
  exists s' x', handle_object g e (s, x) p object = Ok (s', x')
    /\ m_inbox (x_messages x') !! bm_inventory_hash object
       = Some {| ib_to_address := dm_to_address out; ib_from_address := dm_from_address out;
                 ib_subject := c_string subject; ib_body := c_string body; ib_received_time := en_store e;
                 ib_read := 0; ib_folder := INBOX |}
    /\ (exists r, x_pool x' !! bm_inventory_hash object = Some r /\ o_payload r = object)
    /\ (exists r, x_pool x' !! bm_inventory_hash ack = Some r /\ o_payload r = ack)
    /\ forall q c, ns_heap s !! q = Some c -> q ∈ conns (ns_reg s) -> q <> p -> c_type c <> BM_FD_LISTEN_SOCKET ->
         let told := fun now h => told enabled (en_clock e) (en_delay e) now (x_dandelion x) h
                                    (turn (ns_heap s) (Some p) (conns (ns_reg s)) q) in
         exists c1 c', told (en_now e) (bm_inventory_hash object) c c1
           /\ told (en_ack e) (bm_inventory_hash ack) c1 c' /\ ns_heap s' !! q = Some c'.
Proof.
  intros Hn He HM Hl [Hh Ha Hpow Hnew] Ht Hd Hsu Hbo Hak Hp Hla Va Hne Hib.
  unfold handle_object. zdec. rewrite Hh, Ha, Hpow. cbn_bind. cbn [negb].
  set (x1 := with_messages x _).
  assert (Hib1 : m_inbox (x_messages x1) = m_inbox (x_messages x)).
  { unfold x1, bm_messages_store_try_mark_ack_received. by destruct (find_ack _ _). }
  change (x_pool x1) with (x_pool x). rewrite (has_new x) by done.
  rewrite (pool_insert_new x1) by (done || unfold BM_MAX_OBJECT_PAYLOAD_SIZE in *; lia). cbn_bind.
  set (x2 := x1 <| x_pool := _ |>).
  destruct (announce_total enabled e M s x2 (bm_inventory_hash object) (Some p) (en_now e) Hn He
    (hash_is_hash object) ltac:(lia)) as (h1 & d1 & -> & Hn1 & Hst1 & Hfh1 & Hc1). cbn_bind.
  unfold process_object. rewrite Ht. change (BM_OBJECT_MSG =? BM_OBJECT_MSG) with true. cbv iota.
  unfold handle_incoming_msg, bm_trial_decrypt_and_store.
  change (x_keyring (x2 <| x_dandelion := d1 |>)) with (x_keyring x). rewrite Hd. cbn_bind.
  unfold store_decoded_msg, bm_messages_store_insert_inbox. rewrite Hsu, Hbo. cbn_bind. rewrite Hak.
  change (m_inbox (x_messages (x2 <| x_dandelion := d1 |>))) with (m_inbox (x_messages x1)). rewrite Hib1.
  set (row := {| ib_to_address := _ |}). set (x3 := with_inbox_of _ _).
  pose proof (header_not_empty _ _ (vn_header _ _ _ _ Va)) as H20.
  assert (Hpl : blen packet = 24 + blen ack).
  { rewrite create_packet_eq in Hp by apply set_testnet_magic. injection Hp as <-.
    by rewrite blen_packet by apply set_testnet_magic. }
  destruct (Z.gtb_spec (blen packet) 0); [|lia].
  destruct (ack_entered e (M + 1) (s <| ns_heap := h1 |>) x3 (Some p) ack packet hdr_ack) as
    (h2 & d2 & -> & Hc2); [exact Hn1|done|lia|done|done| |].
  { destruct Va as [V1 V2 V3 V4]. split; [done..|].
    change (x_pool x3) with (<[bm_inventory_hash object := row_of object hdr (en_now e)]> (x_pool x)).
    by rewrite lookup_insert_ne. }
  eexists _, _. split; [reflexivity|]. split_and!.
  - change (insert_or_ignore (m_inbox (x_messages x)) (bm_inventory_hash object) row
              !! bm_inventory_hash object = Some row).
    rewrite lookup_insert_or_ignore, decide_True, Hib by done. done.
  - exists (row_of object hdr (en_now e)). split; [|done].
    change (<[bm_inventory_hash ack := row_of ack hdr_ack (en_ack e)]>
              (<[bm_inventory_hash object := row_of object hdr (en_now e)]> (x_pool x))
              !! bm_inventory_hash object = Some (row_of object hdr (en_now e))).
    by rewrite lookup_insert_ne, lookup_insert_eq.
  - exists (row_of ack hdr_ack (en_ack e)). split; [|done].
    change (<[bm_inventory_hash ack := row_of ack hdr_ack (en_ack e)]> (x_pool x3)
              !! bm_inventory_hash ack = Some (row_of ack hdr_ack (en_ack e))).
    by rewrite lookup_insert_eq.
  - intros q c Hq Hin Hqp Hlt. destruct (Hc1 q c Hq) as (c1 & Hq1 & Ht1 & Hto1).
    destruct (Hc2 q c1 Hq1) as (c2 & Hq2 & Ht2 & Hto2). exists c1, c2.
    split_and!; [|eapply told_ext; [exact Hst1|by apply Hfh1|]|exact Hq2].
    + apply Hto1; [done|]. intros [[= ->]|?]; done.
    + rewrite <- (turn_ext h1 (ns_heap s)).
      * apply Hto2; [done|]. rewrite Ht1 in *. intros [[= ->]|?]; congruence.
      * intros q' Hq'. destruct (no_live _ _ _ Hn q' Hq') as [c' Eq].
        destruct (Hc1 q' c' Eq) as (c'' & -> & Hty & _). rewrite Eq. cbn. by rewrite Hty.
Qed.
End Message.

(** ** An ack that comes back *)

Section Ack.
Context `{OS : OpenSSL} `{BN : BigNum} `{INP : InetNtop} `{IPT : InetPton} (g : protocol_globals).

Abbreviation sent_of x := (m_sent (x_messages x)).

Lemma announce_sent e s x h ex now s' x' : announce g e (s, x) h ex now = Ok (s', x') -> sent_of x' = sent_of x.
Proof. unfold announce. intros E. by run_cases. Qed.

Lemma pool_insert_sent x h ty st o t now x' : pool_insert x h ty st o t now = Ok x' -> sent_of x' = sent_of x.
Proof. unfold pool_insert. intros E. by run_cases. Qed.

Lemma validate_and_store_ack_sent e s x ex ack s' x' :
  validate_and_store_ack g e (s, x) ex ack = Ok (s', x') -> sent_of x' = sent_of x.
Proof.
  unfold validate_and_store_ack. intros E. run_cases; try done.
  - by eapply pool_insert_sent.
  - etransitivity; [by eapply announce_sent|]. by eapply pool_insert_sent.
Qed.

Lemma submit_job_sent x p job payload target key : sent_of (submit_job x p job payload target key).2 = sent_of x.
Proof. unfold submit_job. repeat case_match; done. Qed.

Lemma handle_incoming_getpubkey_sent e s x hdr object s' x' :
  handle_incoming_getpubkey g e (s, x) hdr object = Ok (s', x') -> sent_of x' = sent_of x.
Proof.
  unfold handle_incoming_getpubkey, reuse_cached_pubkey_response, submit_pubkey_response. intros E.
  run_cases; try done; try by eapply announce_sent.
  all: match goal with H : submit_job ?x ?p ?j ?d ?t ?k = _ |- _ =>
         pose proof (submit_job_sent x p j d t k) as Hsj; rewrite H in Hsj end.
  all: cbn [snd] in *; done.
Qed.

Lemma process_object_sent e s x p hdr object s' x' :
  process_object g e (s, x) p hdr object = Ok (s', x') -> sent_of x' = sent_of x.
Proof.
  unfold process_object. intros E.
  destruct (_ =? _); [|destruct (_ =? _); [|destruct (_ =? _); [|destruct (_ =? _); [|destruct (_ =? _)]]]].
  - unfold handle_incoming_msg in E. run_cases; try done. by eapply validate_and_store_ack_sent in E.
  - unfold handle_incoming_pubkey in E. run_cases; subst; done.
  - by eapply handle_incoming_getpubkey_sent.
  - unfold handle_incoming_broadcast in E. by run_cases.
  - unfold handle_incoming_onionpeer in E. by run_cases.
  - by run_cases.
Qed.

(** C13: an ack that a peer delivers completes the message it acknowledges, also when the pool
    knows the object already: after a valid object whose hash is that of the ack of a sent
    message, and of no other ack, every message with this ack is marked as acknowledged and
    every other one is as before. *)
Theorem ack_completes_message (e : sync_env) (s s' : net_state) (x x' : bm_object_sync_ctx) (p : Z)
    (object : list Z) (hdr : bm_object_header) (id : list Z) (row : sent_row) :
  handle_object g e (s, x) p object = Ok (s', x') ->
  0 < blen object <= BM_MAX_OBJECT_PAYLOAD_SIZE -> bm_object_parse_header object = Ok hdr ->
  expired_for_good hdr (en_now e) = false -> object_pow_is_valid object hdr (en_now e) = Ok true ->
  sent_of x !! id = Some row -> s_ack_data row = object -> s_status row <> ACKRECEIVED ->
  (forall k r, sent_of x !! k = Some r -> bm_inventory_hash (s_ack_data r) = bm_inventory_hash object ->
    s_ack_data r = object) ->
  forall k, sent_of x' !! k
    = (fun r => if list_eqb (s_ack_data r) object then set_status ACKRECEIVED r else r) <$> sent_of x !! k.
Proof.
  intros E Hl Hh Ha Hp Hid Hack Hst Hone k. unfold handle_object in E.
  destruct (Z.gtb_spec (blen object) BM_MAX_OBJECT_PAYLOAD_SIZE); [lia|]. rewrite Hh, Ha, Hp in E.
  rewrite bind_ok in E. cbn [negb] in E. set (db := x_messages x) in *.
  set (x1 := with_messages x _) in E.
  assert (Hm : sent_of x1 !! k = (fun r => if list_eqb (s_ack_data r) object then set_status ACKRECEIVED r else r)
                                   <$> m_sent db !! k).
  { pose proof (lookup_mark_ack db (bm_inventory_hash object) k) as L.
    change (sent_of x1) with (m_sent (bm_messages_store_try_mark_ack_received db (bm_inventory_hash object)).2).
    rewrite L. destruct (find_ack _ _) as [ack|] eqn:Ef.
    - destruct (find_ack_some _ _ _ Ef) as (k' & r & Hin & Hr & Hlen & Hhash).
      apply elem_of_select_where in Hin as [Hk _]. rewrite <- Hr in Hhash.
      by rewrite <- Hr, (Hone k' r Hk Hhash).
    - exfalso. apply (find_ack_none _ _ id row Ef); [|rewrite Hack; lia|by rewrite Hack].
      apply elem_of_select_where. split; [done|]. by apply negb_true_iff, list_eqb_neq. }
  rewrite <- Hm. destruct (bm_object_store_has _ _); [by run_cases|].
  inv_bind E. inv_bind E. destruct a0 as [s2 x2].
  rewrite (process_object_sent _ _ _ _ _ _ _ _ E). rewrite (announce_sent _ _ _ _ _ _ _ _ E1).
  by rewrite (pool_insert_sent _ _ _ _ _ _ _ _ E0).
Qed.
End Ack.

(** ** Witnesses *)

Section DeliveryWitnesses.
#[local] Existing Instance toy_OpenSSL.
#[local] Existing Instance toy_OpenSSLLaws.
#[local] Existing Instance toy_ntop.
#[local] Existing Instance toy_pton.

Definition ack_example : list Z :=
  be_split 8 1 ++ be_split 8 2000 ++ be_split 4 BM_OBJECT_MSG ++ [1; 1] ++ replicate 32 0.
Definition ack_packet_example : list Z := packet_of (cstr "object"%string) ack_example.
Definition msg_example : list Z :=
  be_split 8 7 ++
  ok_or [] (bm_build_msg from_example 1 (u_ripe to_example) (toy_mul (replicate 32 9)) (cstr "hi"%string)
              (cstr "there"%string) (Some ack_packet_example) (blen ack_packet_example) 2000 entropy_example).
Definition no_header : bm_object_header :=
  {| nonce := 0; expires_time := 0; object_type := 0; version := 0; stream := 0; header_len := 0 |}.
Definition reader_x : bm_object_sync_ctx := example_x <| x_keyring := [to_example] |>.
Definition no_msg : bm_decoded_msg :=
  {| dm_from_address_version := 0; dm_from_stream := 0; dm_from_address := []; dm_to_address := [];
     dm_subject := None; dm_body := None; dm_ack_payload := None |}.
Definition msg_out_example : bm_decoded_msg := ok_or no_msg (bm_trial_decrypt_msg [to_example] msg_example).

Lemma two_conns_ok : node_ok 0 example_net_0 (x_dandelion reader_x).
Proof.
  assert (Hh : ns_heap example_net_0
               = <[200 := example_conn <| c_generation := 2 |>]> (<[200 := example_conn]>
                   (<[100 := example_conn <| c_generation := 1 |>]> (<[100 := example_conn]> (∅ : conn_heap)))))
    by reflexivity.
  split.
  - change (NoDup [100; 200]). by repeat constructor; set_solver.
  - intros p Hp. change (p ∈ [100; 200]) in Hp. rewrite !elem_of_cons, elem_of_nil in Hp. rewrite Hh.
    destruct Hp as [->|[->|[]]].
    + rewrite !lookup_insert_ne by done. rewrite lookup_insert_eq. by eexists.
    + rewrite lookup_insert_eq. by eexists.
  - rewrite Hh. repeat (apply map_Forall_insert_2; [apply fresh_send_ok|]). apply map_Forall_empty.
  - apply dandelion_inv_init.
  - done.
Qed.

Lemma example_env_times : env_times (example_env 1001).
Proof. split; intros; cbn; lia. Qed.

Lemma message_received_witness :
  exists s' x', handle_object example_g (example_env 1001) (example_net_0, reader_x) 100 msg_example = Ok (s', x')
    /\ (exists row, m_inbox (x_messages x') !! bm_inventory_hash msg_example = Some row
          /\ ib_subject row = cstr "hi"%string /\ ib_body row = cstr "there"%string)
    /\ (exists r, x_pool x' !! bm_inventory_hash ack_example = Some r /\ o_payload r = ack_example).
Proof.
  destruct (message_received false (example_env 1001) 0 example_net_0 reader_x 100 msg_example ack_example
    ack_packet_example (cstr "hi"%string) (cstr "there"%string)
    (ok_or no_header (bm_object_parse_header msg_example))
    (ok_or no_header (bm_object_parse_header ack_example)) msg_out_example)
    as (s' & x' & E & Hi & _ & Ha & _).
  - exact two_conns_ok.
  - exact example_env_times.
  - lia.
  - by vm_compute.
  - split; by vm_compute.
  - by vm_compute.
  - by vm_compute.
  - by vm_compute.
  - by vm_compute.
  - by vm_compute.
  - by vm_compute.
  - by vm_compute.
  - split; by vm_compute.
  - by vm_compute.
  - by vm_compute.
  - exists s', x'. split; [exact E|]. split; [|exact Ha]. eexists. split; [exact Hi|]. by split; vm_compute.
Defined.

(** A sent message that waits for the ack. *)
Definition waiting_db : messages_db :=
  bm_messages_store_insert_sent bm_messages_store_init_schema (replicate 32 2) ack_example (cstr "to"%string)
    (cstr "from"%string) (cstr "hi"%string) (cstr "there"%string) MessagesStore.SENT 0 1000 3600 9000.
Definition waiting_x : bm_object_sync_ctx := with_messages reader_x waiting_db.
Definition waiting_row : sent_row :=
  {| s_ack_data := ack_example; s_to_address := cstr "to"%string; s_from_address := cstr "from"%string;
     s_subject := cstr "hi"%string; s_body := cstr "there"%string; s_status := MessagesStore.SENT;
     s_ack_stealth_level := 0; s_sent_time := 1000; s_ttl := 3600; s_resend_count := 0;
     s_next_resend_time := 9000; s_folder := MessagesStore.SENT |}.

Lemma ack_completes_message_witness :
  exists s' x', handle_object example_g (example_env 1001) (example_net_0, waiting_x) 100 ack_example = Ok (s', x')
    /\ m_sent (x_messages x') !! replicate 32 2 = Some (set_status ACKRECEIVED waiting_row).
Proof.
  destruct (handle_object example_g (example_env 1001) (example_net_0, waiting_x) 100 ack_example)
    as [[s' x']| |] eqn:E; [|by vm_compute in E|by vm_compute in E].
  exists s', x'. split; [done|].
  rewrite (ack_completes_message example_g (example_env 1001) example_net_0 s' waiting_x x' 100 ack_example
    (ok_or no_header (bm_object_parse_header ack_example)) (replicate 32 2) waiting_row E).
  - clear E. by vm_compute.
  - clear E. split; by vm_compute.
  - clear E. by vm_compute.
  - clear E. by vm_compute.
  - clear E. by vm_compute.
  - clear E. by vm_compute.
  - done.
  - clear E. by vm_compute.
  - clear E. intros k r Hk _.
    assert (Hm : m_sent (x_messages waiting_x) = {[ replicate 32 2 := waiting_row ]}) by reflexivity.
    rewrite Hm in Hk. by apply lookup_singleton_Some in Hk as [_ <-].
Defined.
End DeliveryWitnesses.
