(* ===== verification/SyncFacts.v ===== *)
(** * The handshake, inventories and onion peers

    Properties of the command handlers of object_sync.c that do not concern the pool: which
    peers are refused and what they are sent, what an inventory is answered with, and that the
    onion peers the node announces are understood by the nodes that hear of them. *)

From Stdlib Require Import String.
From stdpp Require Import base tactics numbers option gmap sorting list.
From S2P Require Import Prelude Queue Varint Base58 Openssl Hash Address Object Sql ObjectStore MessagesStore.
From S2P Require Import Protocol Crypto MessageBuilder IdentityStore Keyring TrialDecrypt BroadcastDecrypt.
From S2P Require Import PubkeyCache Pow PowQueue SendPipeline Dandelion PeerManager Network PeerRegistry EventLoop.
From S2P Require Import ObjectSync PoolSafety.

#[local] Arguments be_split : simpl never.

(** ** One connection *)

Lemma on_conn_eq s p f c c' : ns_heap s !! p = Some c -> f c = Ok c' -> on_conn s p f = Ok (store s p c').
Proof. intros Hp Hf. unfold on_conn, deref. rewrite Hp. cbn_bind. by rewrite Hf. Qed.

Lemma store_eq s p c : ns_heap (store s p c) !! p = Some c.
Proof. apply lookup_insert_eq. Qed.

Lemma store_ne s p q c : q <> p -> ns_heap (store s p c) !! q = ns_heap s !! q.
Proof. intros. by apply lookup_insert_ne. Qed.

Lemma store_store s p c c' : store (store s p c) p c' = store s p c'.
Proof. unfold store. cbn [ns_heap update_field]. by rewrite insert_insert_eq. Qed.

(** A send that does not end in the eviction of the peer puts [data] behind what was sent. *)
Definition sends (c : bm_fd_data) (data : list Z) (c' : bm_fd_data) : Prop :=
  send_ok (c_send c') /\ (c_pending_eviction c' = false ->
                          c_pending_eviction c = false /\ stream_of c' = stream_of c ++ data).

Lemma network_send_sends c data now :
  send_ok (c_send c) -> 0 < blen data < 2 ^ 63 ->
  let c' := (bm_network_send c data now).2 in
  sends c data c' /\ c' = c <| c_send := c_send c' |> <| c_pending_eviction := c_pending_eviction c' |>.
Proof.
  intros Hs Hd c'. unfold c'. destruct (bm_network_send c data now) as [ok c1] eqn:E.
  destruct (network_send_spec c data now ok c1 Hs Hd E) as (H1 & H2 & H3 & H4). cbn [snd].
  split; [|exact H2]. split; [exact H1|]. intros Hn. destruct ok; [|by rewrite H3 in Hn].
  destruct (H4 eq_refl) as [H5 H6]. split; [congruence|done].
Qed.

(** ** Version *)

Section Version.
Context `{OS : OpenSSL} `{OSL : !OpenSSLLaws} `{BN : BigNum} `{INP : InetNtop} `{IPT : InetPton}.
Context (enabled : bool).
Abbreviation g := (bm_protocol_set_testnet enabled).

(** The error message for a refused peer: fatal, no ban, no vector. *)
Definition error_packet (text : list Z) : list Z :=
  packet g (cstr "error"%string) ([2; 0; 0; blen text] ++ text).

#[local] Ltac sizes S2 S0 Hs := rewrite ?blen_app, ?blen_varint_bytes, ?S2, ?S0, ?Hs; lia.

Lemma error_message_eq text :
  blen text < 253 -> bm_create_error_message g 2 0 text = Ok (error_packet text).
Proof.
  intros Hl. unfold bm_create_error_message. pose proof (blen_nonneg text).
  assert (Hs : bm_varint_size (blen text) = 1) by (unfold bm_varint_size; zdec; done).
  assert (Hv : varint_bytes (blen text) = [blen text]) by (unfold varint_bytes, u8; zdec; by rewrite Z.mod_small by lia).
  assert (S2 : bm_varint_size 2 = 1) by done. assert (S0 : bm_varint_size 0 = 1) by done.
  rewrite varint_encode_malloc_start by sizes S2 S0 Hs. cbn_bind.
  rewrite varint_encode_malloc by sizes S2 S0 Hs. cbn_bind.
  rewrite varint_encode_malloc by sizes S2 S0 Hs. cbn_bind.
  rewrite varint_encode_malloc by sizes S2 S0 Hs. cbn_bind.
  rewrite wr_malloc_last by sizes S2 S0 Hs. cbn_bind. rewrite Hv.
  rewrite create_packet_eq by apply set_testnet_magic. done.
Qed.

Lemma blen_error_packet text : blen text < 253 -> 0 < blen (error_packet text) < 2 ^ 63.
Proof.
  intros. unfold error_packet. rewrite blen_packet by apply set_testnet_magic.
  rewrite blen_app. pose proof (blen_nonneg text). change (blen [2; 0; 0; blen text]) with 4. lia.
Qed.

Lemma record_outbound_heap e s conn : ns_heap (record_outbound_success e s conn) = ns_heap s.
Proof. unfold record_outbound_success. repeat case_match; done. Qed.

(** The answer to a peer that is refused. *)
Lemma refuse_peer_spec s p c text now :
  ns_heap s !! p = Some c -> send_ok (c_send c) -> blen text < 253 ->
  exists c', refuse_peer g s p text now = Ok (store s p (c' <| c_should_disconnect := true |>))
    /\ sends c (error_packet text) c'
    /\ c' = c <| c_send := c_send c' |> <| c_pending_eviction := c_pending_eviction c' |>.
Proof.
  intros Hp Hs Ht. destruct (network_send_sends c (error_packet text) now Hs (blen_error_packet text Ht)) as [H1 H2].
  eexists. split; [|exact (conj H1 H2)]. apply (on_conn_eq _ _ _ c); [done|]. by rewrite error_message_eq.
Qed.

(** Why a version is refused. *)
Definition refusal (ver : bm_version_message) (now : Z) : option (list Z) :=
  let offset := s64 (v_timestamp ver) - now in
  if v_version ver <? 3 then Some OLD_PROTOCOL
  else if offset >? 3600 then Some FUTURE_TIME
  else if offset <? -3600 then Some PAST_TIME
  else None.

(** What an accepted peer is sent: a verack, and by the node that was called its version. *)
Definition greeting (ua : option (list Z)) (e : sync_env) (c : bm_fd_data) : list Z :=
  packet g (cstr "verack"%string) [] ++
  match ua with
  | Some ua =>
      if bool_decide (c_type c = BM_FD_SERVER_SOCKET) then
        packet g (cstr "version"%string)
          (version_payload ua 3 (en_send e) (default 0 (en_version_nonce e)) (c_peer_addr c)
             bm_unspecified_ipv4_address)
      else []
  | None => []
  end.

Lemma accept_version_spec e s x p c ver :
  ns_heap s !! p = Some c -> send_ok (c_send c) -> sockaddr_ok (c_peer_addr c) ->
  (forall ua, x_user_agent x = Some ua -> blen ua < 2 ^ 62) ->
  exists s' c', accept_version g e (s, x) p ver = Ok (s', x) /\ ns_heap s' !! p = Some c'
    /\ (forall q, q <> p -> ns_heap s' !! q = ns_heap s !! q)
    /\ c_should_disconnect c' = c_should_disconnect c /\ c_services c' = v_services ver
    /\ c_user_agent c' = Some (c_string (v_user_agent ver)) /\ c_type c' = c_type c
    /\ sends c (greeting (x_user_agent x) e c) c'.
Proof.
  intros Hp Hs Ha Hua. unfold accept_version.
  set (c1 := c <| c_services := v_services ver |> <| c_user_agent := Some (c_string (v_user_agent ver)) |>).
  rewrite (on_conn_eq s p _ c c1 Hp) by done. cbn_bind.
  unfold deref at 1. rewrite store_eq. cbn_bind.
  set (s1 := record_outbound_success e _ _).
  assert (Hp1 : ns_heap s1 !! p = Some c1) by (unfold s1; rewrite record_outbound_heap; apply store_eq).
  assert (Hne : forall q, q <> p -> ns_heap s1 !! q = ns_heap s !! q)
    by (intros q Hq; unfold s1; rewrite record_outbound_heap; by apply store_ne).
  set (vp := packet g (cstr "verack"%string) []).
  assert (Hlen : 0 < blen vp < 2 ^ 63) by (unfold vp; rewrite blen_packet by apply set_testnet_magic; rewrite blen_nil; lia).
  destruct (network_send_sends c1 vp (en_send e) Hs Hlen) as [S2 E2].
  set (c2 := (bm_network_send c1 vp (en_send e)).2) in *.
  rewrite (on_conn_eq s1 p _ c1 c2 Hp1).
  2: { unfold bm_reply_verack, send_header_only. rewrite create_packet_eq by apply set_testnet_magic. cbn_bind.
       fold vp. unfold c2. by destruct (bm_network_send c1 vp (en_send e)). }
  cbn_bind. assert (T2 : c_type c2 = c_type c /\ c_peer_addr c2 = c_peer_addr c /\
    c_should_disconnect c2 = c_should_disconnect c /\ c_services c2 = v_services ver
    /\ c_user_agent c2 = Some (c_string (v_user_agent ver))) by (rewrite E2; by split_and!).
  destruct T2 as (T2 & A2 & D2 & V2 & U2). destruct S2 as [S2 S2'].
  assert (Hdone : greeting (x_user_agent x) e c = vp ->
    exists s' c', Ok (store s1 p c2, x) = Ok (s', x) /\ ns_heap s' !! p = Some c'
      /\ (forall q, q <> p -> ns_heap s' !! q = ns_heap s !! q)
      /\ c_should_disconnect c' = c_should_disconnect c /\ c_services c' = v_services ver
      /\ c_user_agent c' = Some (c_string (v_user_agent ver)) /\ c_type c' = c_type c
      /\ sends c (greeting (x_user_agent x) e c) c').
  { intros Hg. exists (store s1 p c2), c2. split_and!; try done; [apply store_eq| |].
    - intros q Hq. rewrite store_ne by done. by apply Hne.
    - rewrite Hg. by split. }
  destruct (x_user_agent x) as [ua|] eqn:Eua.
  2: { rewrite (on_conn_eq (store s1 p c2) p _ c2 c2 (store_eq _ _ _)) by done. cbn_bind.
       rewrite store_store. apply Hdone. cbn. by rewrite app_nil_r. }
  destruct (bool_decide (c_type c = BM_FD_SERVER_SOCKET)) eqn:Et.
  2: { rewrite (on_conn_eq (store s1 p c2) p _ c2 c2 (store_eq _ _ _)) by by rewrite T2, Et. cbn_bind.
       rewrite store_store. apply Hdone. unfold greeting. by rewrite Et, app_nil_r. }
  set (vm := packet g (cstr "version"%string) (version_payload ua 3 (en_send e) (default 0 (en_version_nonce e))
               (c_peer_addr c) bm_unspecified_ipv4_address)).
  assert (Hunspec : sockaddr_ok bm_unspecified_ipv4_address) by (split_and!; try done; apply (bool_decide_unpack _); by vm_compute).
  assert (Hvm : 0 < blen vm < 2 ^ 63).
  { unfold vm. rewrite blen_packet by apply set_testnet_magic.
    rewrite blen_version_payload by done. unfold bm_version_payload_size, bm_varstr_size.
    pose proof (bm_varint_size_pos (blen ua)). pose proof (blen_nonneg ua). specialize (Hua ua eq_refl). lia. }
  destruct (network_send_sends c2 vm (en_send e) S2 Hvm) as [S3 E3].
  set (c3 := (bm_network_send c2 vm (en_send e)).2) in *.
  rewrite (on_conn_eq (store s1 p c2) p _ c2 c3 (store_eq _ _ _)).
  2: { rewrite T2, Et. unfold bm_post_version. rewrite A2.
       rewrite new_version_message_eq by (done || apply set_testnet_magic). cbn_bind. fold vm. unfold c3.
       by destruct (bm_network_send c2 vm (en_send e)). }
  cbn_bind. rewrite store_store. exists (store s1 p c3), c3. destruct S3 as [S3 S3'].
  split_and!; [done|apply store_eq| |by rewrite E3|by rewrite E3|by rewrite E3|by rewrite E3|].
  - intros q Hq. rewrite store_ne by done. by apply Hne.
  - unfold greeting. rewrite Et. fold vp vm. split; [done|]. intros Hn. destruct (S3' Hn) as [Hn2 ->].
    destruct (S2' Hn2) as [Hn1 ->]. split; [done|]. by rewrite <- app_assoc.
Qed.
(** C7: the handshake with a peer whose version parses, while its clock is within [int64_t] of
    ours: a peer of protocol version 1 or 2, or whose clock is more than an hour ahead or
    behind, is sent exactly the error that says so and is disconnected, and nothing of what
    it announced is kept; any other peer keeps its connection, its services and user agent
    are noted, and it is sent a verack, followed by our own version if it was the one that
    called.  No other connection is touched. *)
Theorem version_verdict (e : sync_env) (s : net_state) (x : bm_object_sync_ctx) (p : Z) (c : bm_fd_data)
    (msg : bm_message) (ver : bm_version_message) :
  ns_heap s !! p = Some c -> send_ok (c_send c) -> sockaddr_ok (c_peer_addr c) ->
  (forall ua, x_user_agent x = Some ua -> blen ua < 2 ^ 62) ->
  bm_parse_version_message (Protocol.msg_payload msg) (msg_length msg) = Ok ver ->
  0 <= en_now e < 2 ^ 62 -> 0 <= last_emit (x_time_offset_log_throttle x) < 2 ^ 62 ->
  - 2 ^ 63 <= s64 (v_timestamp ver) - en_now e < 2 ^ 63 ->
  exists refused s' x' c', handle_version g e (s, x) p msg = Ok (refused, (s', x'))
    /\ ns_heap s' !! p = Some c' /\ (forall q, q <> p -> ns_heap s' !! q = ns_heap s !! q)
    /\ match refusal ver (en_now e) with
       | Some text =>
           refused = true /\ c_should_disconnect c' = true /\ c_services c' = c_services c
           /\ c_user_agent c' = c_user_agent c /\ ns_peers s' = ns_peers s /\ sends c (error_packet text) c'
       | None =>
           refused = false /\ c_should_disconnect c' = c_should_disconnect c
           /\ c_services c' = v_services ver /\ c_user_agent c' = Some (c_string (v_user_agent ver))
           /\ sends c (greeting (x_user_agent x) e c) c'
       end.
Proof.
  intros Hp Hs Ha Hua Hv Hnow Hlast Hoff. unfold handle_version. rewrite Hv. cbn_bind.
  unfold refusal, BM_MIN_PROTOCOL_VERSION, BM_MAX_TIME_OFFSET_SECONDS. change (Z.opp 3600) with (-3600).
  assert (Href : forall text now (x1 : bm_object_sync_ctx), blen text < 253 ->
    exists refused s' x' c', (s ← refuse_peer g s p text now; Ok (true, (s, x1))) = Ok (refused, (s', x'))
      /\ ns_heap s' !! p = Some c' /\ (forall q, q <> p -> ns_heap s' !! q = ns_heap s !! q)
      /\ refused = true /\ c_should_disconnect c' = true /\ c_services c' = c_services c
      /\ c_user_agent c' = c_user_agent c /\ ns_peers s' = ns_peers s /\ sends c (error_packet text) c').
  { intros text now x1 Ht. destruct (refuse_peer_spec s p c text now Hp Hs Ht) as (c' & -> & [H1 H2] & H3).
    cbn_bind. eexists _, _, _, _. split; [reflexivity|]. split; [apply store_eq|].
    split_and!; try done; [|by rewrite H3|by rewrite H3]. intros q Hq. by apply store_ne. }
  destruct (Z.ltb_spec (v_version ver) 3).
  { edestruct (Href OLD_PROTOCOL (en_send e) x) as (r & s' & x' & c' & -> & ? & ? & ? & ? & ? & ? & ? & ?);
      [by vm_compute|]. by exists r, s', x', c'. }
  rewrite int64_ok by done. cbn_bind. set (off := s64 _ - _) in *.
  assert (Hthr : exists a t, bm_log_throttle_check (x_time_offset_log_throttle x) (en_now e)
                               BM_TIME_OFFSET_LOG_INTERVAL_SECONDS = Ok (a, t)).
  { unfold bm_log_throttle_check. rewrite int64_ok by lia. destruct (negb _); cbn_bind; [by eexists _, _|].
    destruct (_ || _); by eexists _, _. }
  destruct Hthr as (a & t & Ethr).
  destruct (Z.gtb_spec off 3600); [|destruct (Z.ltb_spec off (-3600))]; cbn [orb].
  - rewrite Ethr. cbn_bind. destruct (Z.gtb_spec off 0); [|lia].
    edestruct (Href FUTURE_TIME (en_now e)) as (r & s' & x' & c' & -> & ? & ? & ? & ? & ? & ? & ? & ?);
      [by vm_compute|]. by exists r, s', x', c'.
  - rewrite Ethr. cbn_bind. destruct (Z.gtb_spec off 0); [lia|].
    edestruct (Href PAST_TIME (en_now e)) as (r & s' & x' & c' & -> & ? & ? & ? & ? & ? & ? & ? & ?);
      [by vm_compute|]. by exists r, s', x', c'.
  - destruct (accept_version_spec e s x p c ver Hp Hs Ha Hua) as (s' & c' & -> & K1 & K2 & K3 & K4 & K5 & _ & K6).
    cbn_bind. by exists false, s', x, c'.
Qed.

(** The difference of the clocks is computed in [int64_t]: a peer that announces the time
    2^63 makes the subtraction overflow. *)
Theorem version_timestamp_overflow (e : sync_env) (sx : net_state * bm_object_sync_ctx) (p : Z) (msg : bm_message)
    (ver : bm_version_message) :
  bm_parse_version_message (Protocol.msg_payload msg) (msg_length msg) = Ok ver ->
  3 <= v_version ver -> v_timestamp ver = 2 ^ 63 -> 0 < en_now e ->
  handle_version g e sx p msg = Ub.
Proof.
  intros Hv H3 Ht Hn. destruct sx as [s x]. unfold handle_version. rewrite Hv. cbn_bind.
  unfold BM_MIN_PROTOCOL_VERSION. destruct (Z.ltb_spec (v_version ver) 3); [lia|]. rewrite Ht.
  change (s64 (2 ^ 63)) with (- 2 ^ 63). unfold int64. zdec. done.
Qed.
End Version.

(** ** Inventories *)

Section Inventory.
Context `{OS : OpenSSL} `{OSL : !OpenSSLLaws} `{BN : BigNum} `{INP : InetNtop} `{IPT : InetPton}.
Context (enabled : bool).
Abbreviation g := (bm_protocol_set_testnet enabled).

(** The hash was seen in a plain [inv], so that the node does not stem it. *)
Definition learned (d : dandelion_state) (h : list Z) : Prop :=
  exists en, en ∈ entries d /\ hash en = h /\ learned_via_plain_inv en = true.

Lemma learned_set s i h : learned s h -> learned (set_entry s i mark_learned) h.
Proof.
  intros (en & Hin & Hh & Hl). apply list_elem_of_lookup in Hin as [k Hk].
  destruct (decide (k = Z.to_nat i)) as [->|].
  - exists (mark_learned en). split; [|by split]. apply list_elem_of_lookup. exists (Z.to_nat i).
    unfold set_entry. cbn [with_entries entries]. by rewrite list_lookup_alter_eq, Hk.
  - exists en. split; [|by split]. apply list_elem_of_lookup. exists k.
    unfold set_entry. cbn [with_entries entries]. by rewrite list_lookup_alter_ne.
Qed.

Lemma note_source_learned d h is_dinv now delay :
  dandelion_inv d -> call_ok d h now delay ->
  exists d', bm_dandelion_note_source d h is_dinv now delay = Ok d' /\ dandelion_inv d'
    /\ entry_count d' <= entry_count d + 1 /\ (is_dinv = false -> learned d' h)
    /\ forall h', learned d h' -> learned d' h'.
Proof.
  intros I C. destruct (note_source_ok d h is_dinv now delay I C) as (d' & E & I' & Hd).
  exists d'. split; [done|]. split; [done|]. destruct is_dinv; [subst; split_and!; [lia|done|done]|].
  destruct Hd as (i & s1 & F & ->). destruct (found_entry d h now delay i s1 I F) as [He Hh].
  assert (Hc : entry_count (set_entry s1 (Z.of_nat i) mark_learned) = entry_count s1).
  { unfold entry_count, set_entry. cbn [with_entries entries]. by rewrite length_alter. }
  rewrite Hc. split_and!.
  - destruct F as [(en & Hi & _ & ->)|(_ & _ & Ea)]; [lia|]. unfold entry_count. rewrite Ea, length_app. cbn. lia.
  - intros _. exists (mark_learned (entry_or_new d h now delay)). split; [|by split].
    apply list_elem_of_lookup. exists i. unfold set_entry. cbn [with_entries entries]. rewrite Nat2Z.id.
    by rewrite list_lookup_alter_eq, He.
  - intros h' (en & Hin & Hh' & Hl). apply learned_set. exists en. split; [|by split].
    destruct F as [(? & _ & _ & ->)|(_ & _ & ->)]; [done|]. apply elem_of_app. by left.
Qed.

Lemma missing_items_ok e is_dinv items : forall x M,
  dandelion_inv (x_dandelion x) -> entry_count (x_dandelion x) + Z.of_nat (length items) <= M -> M < 2 ^ 60 ->
  Forall hash_ok items -> 0 < en_now e < 2 ^ 61 -> (forall h, 0 <= en_delay e h < 2 ^ 32) ->
  exists d', missing_items e x is_dinv items
      = Ok (filter (fun h => x_pool x !! h = None) items, x <| x_dandelion := d' |>)
    /\ dandelion_inv d' /\ (forall h, learned (x_dandelion x) h -> learned d' h)
    /\ (is_dinv = false -> forall h, h ∈ items -> x_pool x !! h = None -> learned d' h).
Proof.
  induction items as [|h items IH]; intros x M I Hc HM Hh Hn Hd; cbn [missing_items].
  { exists (x_dandelion x). split_and!; [by destruct x|done|done|]. by intros _ h ?%not_elem_of_nil. }
  apply Forall_cons_1 in Hh as [[H32 _] Hh]. cbn [length] in Hc. rewrite filter_cons.
  unfold bm_object_store_has. destruct (x_pool x !! h) as [r|] eqn:Er.
  - rewrite decide_False by done. destruct (IH x M I) as (d' & -> & I' & L1 & L2); [lia|done..|].
    exists d'. split_and!; [done..|]. intros Hf h' [->|Hin]%elem_of_cons Hp; [congruence|by apply L2].
  - rewrite decide_True by done.
    destruct (note_source_learned (x_dandelion x) h is_dinv (en_now e) (en_delay e h) I) as
      (d1 & -> & I1 & C1 & L0 & Lk); [pose proof (Hd h); unfold call_ok; split_and!; (done || lia)|].
    cbn_bind. set (x1 := x <| x_dandelion := d1 |>).
    destruct (IH x1 M I1) as (d' & -> & I' & L1 & L2); [change (x_dandelion x1) with d1; lia|done..|].
    cbn_bind. exists d'. split_and!; [done|done|by intros h' ?%Lk%L1|].
    intros Hf h' [->|Hin]%elem_of_cons Hp; [by apply L1, L0|by apply L2].
Qed.

Definition getdata_packet (hashes : list (list Z)) : list Z :=
  packet g (cstr "getdata"%string) (varint_bytes (Z.of_nat (length hashes)) ++ concat hashes).

(** C9: a peer's inventory of at most 50000 hashes is answered with one getdata for exactly
    the hashes the pool does not have, in their order, and with nothing if it has them all; a
    larger inventory is ignored.  The pool and the other connections are as before, and a
    missing hash announced by an [inv] (not a [dinv]) is remembered as public, so that the
    node will not stem it. *)
Theorem inv_requests_missing (e : sync_env) (s : net_state) (x : bm_object_sync_ctx) (p : Z) (c : bm_fd_data)
    (msg : bm_message) (items : list (list Z)) :
  ns_heap s !! p = Some c -> send_ok (c_send c) ->
  dandelion_inv (x_dandelion x) -> entry_count (x_dandelion x) < 2 ^ 59 ->
  0 < en_now e < 2 ^ 61 -> (forall h, 0 <= en_delay e h < 2 ^ 32) ->
  bytes_ok (default [] (Protocol.msg_payload msg)) ->
  bm_parse_inventory_message (default [] (Protocol.msg_payload msg)) = Ok items ->
  let missing := filter (fun h => x_pool x !! h = None) items in
  exists s' x' c', handle_inv g e (s, x) p msg = Ok (s', x')
    /\ x_pool x' = x_pool x /\ ns_heap s' !! p = Some c'
    /\ (forall q, q <> p -> ns_heap s' !! q = ns_heap s !! q)
    /\ (if Z.of_nat (length items) >? 50000 then c' = c else
        match missing with [] => c' = c | _ => sends c (getdata_packet missing) c' end)
    /\ (Z.of_nat (length items) <= 50000 ->
        strncmp_eq 12 (msg_command msg) (cstr "dinv"%string) = false ->
        forall h, h ∈ missing -> learned (x_dandelion x') h).
Proof.
  intros Hp Hs I Hc Hn Hd Hb Hi missing.
  destruct (bm_parse_inventory_message_sound (default [] (Protocol.msg_payload msg)) Hb) as [_ Hok].
  destruct (Hok items Hi) as [Hh _]. clear Hok. unfold handle_inv. rewrite Hi. unfold BM_MAX_INVENTORY_ITEMS.
  destruct (Z.gtb_spec (Z.of_nat (length items)) 50000) as [|Hle].
  { exists s, x, c. split_and!; try done. lia. }
  destruct (missing_items_ok e (strncmp_eq 12 (msg_command msg) (cstr "dinv"%string)) items x (2 ^ 59 + 50000) I)
    as (d' & -> & I' & _ & L); [lia|lia|done..|].
  cbn_bind. fold missing.
  assert (Hlearn : strncmp_eq 12 (msg_command msg) (cstr "dinv"%string) = false ->
                   forall h, h ∈ missing -> learned d' h).
  { intros Hdinv h [Hnone Hin]%list_elem_of_filter. by apply L. }
  destruct missing as [|m0 ms] eqn:Em; [by exists s, (x <| x_dandelion := d' |>), c|].
  assert (Hm : Forall hash_ok (m0 :: ms)).
  { rewrite <- Em. unfold missing. apply Forall_forall. intros h [_ Hin]%list_elem_of_filter.
    by eapply Forall_forall in Hh. }
  assert (Hml : Z.of_nat (length (m0 :: ms)) <= 50000).
  { rewrite <- Em. unfold missing. pose proof (length_filter (fun h => x_pool x !! h = None) items). lia. }
  unfold bm_create_inventory_message. rewrite inventory_payload_eq by done. cbn_bind.
  rewrite create_packet_eq by apply set_testnet_magic. fold (getdata_packet (m0 :: ms)).
  assert (Hlen : 0 < blen (getdata_packet (m0 :: ms)) < 2 ^ 63).
  { unfold getdata_packet. rewrite blen_packet by apply set_testnet_magic.
    rewrite blen_app, blen_varint_bytes, blen_concat_hashes by done.
    pose proof (bm_varint_size_pos (Z.of_nat (length (m0 :: ms)))). lia. }
  destruct (network_send_sends c (getdata_packet (m0 :: ms)) (en_send e) Hs Hlen) as [S _].
  unfold send_to, deref. rewrite Hp. cbn_bind.
  eexists _, (x <| x_dandelion := d' |>), _. split; [reflexivity|]. split_and!; [done|apply store_eq| |exact S|done].
  intros q Hq. by apply store_ne.
Qed.
End Inventory.

(** ** Witnesses *)

Section SyncWitnesses.
#[local] Existing Instance toy_OpenSSL.
#[local] Existing Instance toy_OpenSSLLaws.
#[local] Existing Instance toy_ntop.
#[local] Existing Instance toy_pton.

(** The version of a peer at the time [t]. *)
Definition peer_version (t : Z) : bm_message :=
  let payload := version_payload (cstr "/peer/"%string) 3 t 7 (AF_INET [10; 0; 0; 1] [32; 252])
                   bm_unspecified_ipv4_address in
  {| msg_command := cstr "version"%string ++ replicate 5 0; msg_length := blen payload; msg_checksum := 0;
     Protocol.msg_payload := Some payload |}.
Definition version_of (t : Z) : bm_version_message :=
  match bm_parse_version_message (Protocol.msg_payload (peer_version t)) (msg_length (peer_version t)) with
  | Ok v => v
  | _ => {| v_version := 0; v_services := 0; v_timestamp := 0; v_addr_recv := []; v_addr_from := [];
            v_nonce := 0; v_user_agent := []; v_stream_numbers := [] |}
  end.

(** A peer whose clock is two hours ahead. *)
Lemma version_verdict_witness :
  exists s' x' c', handle_version example_g (example_env 1001) (example_net_0, example_x) 100 (peer_version 8201)
      = Ok (true, (s', x'))
    /\ ns_heap s' !! 100 = Some c' /\ c_should_disconnect c' = true
    /\ sends (example_conn <| c_generation := 1 |>) (error_packet false FUTURE_TIME) c'.
Proof.
  destruct (version_verdict false (example_env 1001) example_net_0 example_x 100
    (example_conn <| c_generation := 1 |>) (peer_version 8201) (version_of 8201))
    as (refused & s' & x' & c' & E & Hc & _ & H).
  - by vm_compute.
  - apply fresh_send_ok.
  - done.
  - intros ua [= <-]. by vm_compute.
  - by vm_compute.
  - cbn. lia.
  - cbn. lia.
  - split; by vm_compute.
  - change (refusal (version_of 8201) (en_now (example_env 1001))) with (Some FUTURE_TIME) in H.
    destruct H as (-> & Hd & _ & _ & _ & Hs). exists s', x', c'. split_and!; [exact E|exact Hc|exact Hd|exact Hs].
Defined.

Lemma version_timestamp_overflow_witness :
  handle_version example_g (example_env 1001) (example_net_0, example_x) 100 (peer_version (2 ^ 63)) = Ub.
Proof.
  apply (version_timestamp_overflow false (example_env 1001) (example_net_0, example_x) 100
    (peer_version (2 ^ 63)) (version_of (2 ^ 63))).
  - by vm_compute.
  - by vm_compute.
  - by vm_compute.
  - cbn. lia.
Defined.

Definition inv_example : bm_message :=
  let payload := [2] ++ replicate 32 9 ++ bm_inventory_hash example_object in
  {| msg_command := cstr "inv"%string ++ replicate 9 0; msg_length := blen payload; msg_checksum := 0;
     Protocol.msg_payload := Some payload |}.
Definition stocked_x : bm_object_sync_ctx :=
  example_x <| x_pool := {[ bm_inventory_hash example_object :=
    {| o_type := 7; o_stream := 1; o_payload := example_object; o_expires := 2000; o_received := 1000;
       o_processed := 0 |} ]} |>.

Lemma inv_requests_missing_witness :
  exists s' x' c', handle_inv example_g (example_env 1001) (example_net_0, stocked_x) 100 inv_example = Ok (s', x')
    /\ ns_heap s' !! 100 = Some c'
    /\ sends (example_conn <| c_generation := 1 |>) (getdata_packet false [replicate 32 9]) c'
    /\ learned (x_dandelion x') (replicate 32 9).
Proof.
  destruct (inv_requests_missing false (example_env 1001) example_net_0 stocked_x 100
    (example_conn <| c_generation := 1 |>) inv_example [replicate 32 9; bm_inventory_hash example_object])
    as (s' & x' & c' & E & _ & Hc & _ & H & L).
  - by vm_compute.
  - apply fresh_send_ok.
  - apply dandelion_inv_init.
  - by vm_compute.
  - cbn. lia.
  - intros h. cbn. lia.
  - apply (bool_decide_unpack _). by vm_compute.
  - by vm_compute.
  - assert (Hm : filter (fun h => x_pool stocked_x !! h = None)
                   [replicate 32 9; bm_inventory_hash example_object] = [replicate 32 9]) by reflexivity.
    rewrite Hm in H, L. exists s', x', c'. split_and!; [exact E|exact Hc|exact H|].
    apply L; [by vm_compute|by vm_compute|by left].
Defined.
End SyncWitnesses.
