(* ===== verification/Onion.v ===== *)
(** * Onion peers

    What [bm_build_onionpeer] (message_builder.c) puts into an onionpeer object is what
    [handle_incoming_onionpeer] (object_sync.c) of the nodes that receive it reads: the two
    base32 routines are inverse to each other. *)

From Stdlib Require Import String.
From stdpp Require Import base tactics numbers option gmap sorting list.
From S2P Require Import Prelude Queue Varint Base58 Openssl Hash Address Object Sql ObjectStore MessagesStore.
From S2P Require Import Protocol Crypto MessageBuilder IdentityStore Keyring TrialDecrypt BroadcastDecrypt.
From S2P Require Import PubkeyCache Pow PowQueue SendPipeline Dandelion PeerManager Network PeerRegistry EventLoop.
From S2P Require Import ObjectSync PoolSafety.

#[local] Arguments be_split : simpl never.

(** ** Digits *)

Definition digit (v : Z) : Prop := 0 <= v < 32.

(** The character of a digit. *)
Definition symbol (v : Z) : Z := if v <? 26 then v + 97 else v - 26 + 50.

Definition b32 (l : list Z) : Z := fold_left (fun a v => a * 32 + v) l 0.

Lemma b32_snoc l v : b32 (l ++ [v]) = b32 l * 32 + v.
Proof. unfold b32. by rewrite fold_left_app. Qed.

Lemma b32_acc l : forall a, fold_left (fun a v => a * 32 + v) l a = a * 32 ^ Z.of_nat (length l) + b32 l.
Proof.
  unfold b32. induction l as [|v l IH]; intros a; cbn [fold_left length]; [lia|].
  rewrite IH, (IH (0 * 32 + v)), Nat2Z.inj_succ, Z.pow_succ_r by lia. lia.
Qed.

Lemma b32_cons v l : b32 (v :: l) = v * 32 ^ Z.of_nat (length l) + b32 l.
Proof. unfold b32 at 1. cbn [fold_left]. by rewrite b32_acc. Qed.

Lemma b32_inj l : forall l', Forall digit l -> Forall digit l' -> length l = length l' -> b32 l = b32 l' -> l = l'.
Proof.
  induction l as [|v l IH] using rev_ind; intros l' Hl Hl' Hlen E.
  { by destruct l'. }
  destruct l' as [|v' l' _] using rev_ind; [rewrite length_app in Hlen; cbn in Hlen; lia|].
  apply Forall_app in Hl as [Hl [Hv _]%Forall_cons_1]. apply Forall_app in Hl' as [Hl' [Hv' _]%Forall_cons_1].
  rewrite !length_app in Hlen. cbn in Hlen. rewrite !b32_snoc in E. unfold digit in Hv, Hv'.
  f_equal; [apply IH; try done; lia|]. f_equal. lia.
Qed.

Lemma alphabet_symbol v : digit v -> rd ALPHABET v = Ok (symbol v).
Proof.
  intros Hv. rewrite <- (Z2Nat.id v) by (unfold digit in Hv; lia).
  assert (Hn : (Z.to_nat v < 32)%nat) by (unfold digit in Hv; lia). revert Hn. generalize (Z.to_nat v). intros n Hn.
  do 32 (destruct n as [|n]; [by vm_compute|]). lia.
Qed.

Lemma symbol_not_0 v : digit v -> symbol v <> 0.
Proof. unfold symbol, digit. destruct (Z.ltb_spec v 26); lia. Qed.

(** What the reader of a character computes. *)
Definition symbol_value (c : Z) : cres Z :=
  if (97 <=? c) && (c <=? 122) then Ok (c - 97)
  else if (50 <=? c) && (c <=? 55) then Ok (c - 50 + 26) else Err.

Lemma symbol_value_symbol v : digit v -> symbol_value (symbol v) = Ok v.
Proof. unfold symbol_value, symbol, digit. intros H. destruct (Z.ltb_spec v 26); zdec; f_equal; lia. Qed.

Lemma symbol_value_inv c v : symbol_value c = Ok v -> digit v /\ symbol v = c.
Proof.
  unfold symbol_value, symbol, digit. intros E.
  destruct (Z.leb_spec 97 c), (Z.leb_spec c 122); cbn [andb] in E;
    try (destruct (Z.leb_spec 50 c), (Z.leb_spec c 55); cbn [andb] in E; try done);
    apply ok_inj in E as <-; zdec; lia.
Qed.

(** ** Decoding *)

(** A buffer that has taken a digit, and the bits that are read back from it. *)
Lemma buffer_push V k d : 0 <= V -> 0 < k < 64 -> 0 <= d < 2 ^ k ->
  u64 (Z.lor (Z.shiftl (u64 V) k) d) = u64 (V * 2 ^ k + d).
Proof.
  intros HV Hk Hd. rewrite lor_shiftl_add by lia. unfold u64.
  rewrite <- Zplus_mod_idemp_l, Zmult_mod_idemp_l, Zplus_mod_idemp_l. done.
Qed.

Lemma buffer_bits V b k : 0 <= V -> 0 <= b -> 0 < k -> b + k <= 64 ->
  Z.land (Z.shiftr (u64 V) b) (Z.ones k) = (V / 2 ^ b) mod 2 ^ k.
Proof.
  intros HV Hb Hk Hs. rewrite Z.land_ones, Z.shiftr_div_pow2 by lia. unfold u64.
  apply Z.bits_inj'. intros n Hn. rewrite !Z.testbit_mod_pow2, !Z.div_pow2_bits, Z.testbit_mod_pow2 by lia.
  destruct (Z.ltb_spec n k); [|done]. destruct (Z.ltb_spec (n + b) 64); [done|lia].
Qed.

(** Taking the top [k] of [b + k] bits. *)
Lemma top_bits W b k : 0 <= W -> 0 <= b -> 0 <= k ->
  W / 2 ^ (b + k) * 2 ^ k + (W / 2 ^ b) mod 2 ^ k = W / 2 ^ b.
Proof.
  intros. rewrite Z.pow_add_r, <- Z.div_div by lia. pose proof (Z.div_mod (W / 2 ^ b) (2 ^ k)). lia.
Qed.

Lemma shift_div V k b d : 0 <= V -> 0 <= k -> 0 <= b -> 0 <= d < 2 ^ k -> (V * 2 ^ k + d) / 2 ^ (b + k) = V / 2 ^ b.
Proof.
  intros. rewrite Z.add_comm with (n := b), Z.pow_add_r, <- Z.div_div by lia.
  f_equal. rewrite Z.add_comm, Z.div_add, Z.div_small by lia. lia.
Qed.

(** The state of the decoder after reading digits of the value [V]: [done] written, [bits]
    bits not yet. *)
Record decoded (V : Z) (done : list Z) (bits : Z) : Prop := {
  dc_value : 0 <= V;
  dc_bytes : bytes_ok done;
  dc_bits : 0 <= bits < 8;
  dc_done : be_combine done = V / 2 ^ bits
}.

Lemma base32_decode_spec vs : forall done m V bits,
  Forall digit vs -> decoded V done bits -> bits + 5 * Z.of_nat (length vs) < 8 * m + 8 -> 0 <= m ->
  exists done' bits', base32_decode_loop (map symbol vs) (done ++ malloc m) (u64 V) bits (blen done)
      = Ok (done' ++ malloc (m - (blen done' - blen done)), blen done')
    /\ decoded (V * 32 ^ Z.of_nat (length vs) + b32 vs) done' bits'
    /\ 8 * blen done' + bits' = 8 * blen done + bits + 5 * Z.of_nat (length vs).
Proof.
  induction vs as [|v vs IH]; intros done m V bits Hd [HV Hb Hbits Hc] Hm Hm0; cbn [map base32_decode_loop].
  { exists done, bits. replace (m - (blen done - blen done)) with m by lia. split; [done|].
    cbn [length]. unfold b32. cbn [fold_left]. rewrite Z.mul_1_r, Z.add_0_r. split; [done|lia]. }
  apply Forall_cons_1 in Hd as [Hv Hd]. cbn [length] in Hm. fold (symbol_value (symbol v)).
  rewrite symbol_value_symbol by done. cbn_bind. unfold digit in Hv.
  rewrite buffer_push by lia. set (V1 := V * 2 ^ 5 + v).
  assert (HV1 : V1 * 32 ^ Z.of_nat (length vs) + b32 vs = V * 32 ^ Z.of_nat (length (v :: vs)) + b32 (v :: vs)).
  { rewrite b32_cons. cbn [length]. rewrite Nat2Z.inj_succ, Z.pow_succ_r by lia. unfold V1. lia. }
  rewrite <- HV1. cbn [length]. rewrite Nat2Z.inj_succ.
  destruct (Z.geb_spec (bits + 5) 8) as [H8|H8].
  - set (b2 := bits + 5 - 8). change 255 with (Z.ones 8). rewrite buffer_bits by (unfold V1, b2; lia).
    set (byte := (V1 / 2 ^ b2) mod 2 ^ 8).
    assert (Hbyte : is_byte byte) by (unfold byte, is_byte; apply Z.mod_pos_bound; lia).
    rewrite wr_malloc by (rewrite ?blen_cons, ?blen_nil; lia). cbn_bind.
    change (blen [byte]) with 1.
    destruct (IH (done ++ [byte]) (m - 1) V1 b2 Hd) as (done' & bits' & E & D & L).
    + split; [unfold V1; lia|apply bytes_ok_app; split; [done|by constructor]|unfold b2; lia|].
      assert (Hq : V1 / 2 ^ (b2 + 8) = V / 2 ^ bits).
      { unfold V1, b2. replace (bits + 5 - 8 + 8) with (bits + 5) by lia. by apply shift_div; lia. }
      rewrite be_combine_snoc, Hc. unfold byte. pose proof (top_bits V1 b2 8) as Ht. rewrite Hq in Ht.
      etransitivity; [|apply Ht; unfold V1, b2; lia]. done.
    + unfold b2. lia.
    + lia.
    + rewrite blen_app in E, L. change (blen [byte]) with 1 in E, L. rewrite E.
      exists done', bits'. split; [|split; [done|unfold b2 in L; lia]]. do 4 f_equal. lia.
  - destruct (IH done m V1 (bits + 5) Hd) as (done' & bits' & E & D & L); [|lia|lia|].
    { split; [unfold V1; lia|done|lia|]. rewrite Hc. unfold V1. by rewrite shift_div by lia. }
    rewrite E. exists done', bits'. split; [done|]. split; [done|lia].
Qed.

Lemma base32_decode_inv cs : forall out buffer bits n r,
  base32_decode_loop cs out buffer bits n = Ok r -> exists vs, Forall digit vs /\ cs = map symbol vs.
Proof.
  induction cs as [|c cs IH]; intros out buffer bits n r E; [by exists []|]. cbn [base32_decode_loop] in E.
  inv_bind E. apply symbol_value_inv in E0 as [Hv Hc].
  assert (exists vs, Forall digit vs /\ cs = map symbol vs) as (vs & Hvs & ->).
  { destruct (_ >=? 8); [inv_bind E|]; by eapply IH. }
  exists (a :: vs). split; [by constructor|]. cbn. by rewrite Hc.
Qed.

(** ** Encoding *)

(** The state of the encoder after bytes of the value [V]: [ds] written as characters. *)
Record encoded (V : Z) (ds : list Z) (bits : Z) : Prop := {
  ec_value : 0 <= V;
  ec_digits : Forall digit ds;
  ec_bits : 0 <= bits;
  ec_done : b32 ds = V / 2 ^ bits
}.

Definition text_of (ds : list Z) (m : Z) : list Z := map symbol ds ++ malloc m.

Lemma blen_symbols ds : blen (map symbol ds) = Z.of_nat (length ds).
Proof. unfold blen. by rewrite length_map. Qed.

Lemma base32_flush_spec fuel : forall V ds bits m,
  encoded V ds bits -> bits < 5 * Z.of_nat fuel + 5 -> bits <= 59 -> bits <= 5 * m + 4 ->
  exists ds' bits', base32_flush fuel (u64 V) bits (text_of ds m) (Z.of_nat (length ds))
      = Ok (bits', text_of ds' (m - (Z.of_nat (length ds') - Z.of_nat (length ds))), Z.of_nat (length ds'))
    /\ encoded V ds' bits' /\ bits' < 5
    /\ 5 * Z.of_nat (length ds') + bits' = 5 * Z.of_nat (length ds) + bits.
Proof.
  induction fuel as [|fuel IH]; intros V ds bits m [HV Hd Hb Hc] Hf H59 Hm; cbn [base32_flush];
    (destruct (Z.geb_spec bits 5); [try lia|]).
  1,3: exists ds, bits; replace (m - (Z.of_nat (length ds) - Z.of_nat (length ds))) with m by lia;
    split_and!; try done; lia.
  change 31 with (Z.ones 5). rewrite buffer_bits by lia. set (v := (V / 2 ^ (bits - 5)) mod 2 ^ 5).
  assert (Hv : digit v) by (unfold v, digit; apply Z.mod_pos_bound; lia).
  rewrite alphabet_symbol by done. cbn_bind. unfold text_of at 1.
  rewrite wr_malloc by (rewrite ?blen_symbols, ?blen_cons, ?blen_nil; lia). cbn_bind.
  change (blen [symbol v]) with 1.
  destruct (IH V (ds ++ [v]) (bits - 5) (m - 1)) as (ds' & bits' & E & D & H5 & L); [|lia..|].
  { split; [done|apply Forall_app; split; [done|by constructor]|lia|].
    rewrite b32_snoc, Hc. unfold v. change 32 with (2 ^ 5).
    replace bits with (bits - 5 + 5) at 1 by lia. by apply top_bits; lia. }
  unfold text_of in E at 1. rewrite map_app, length_app in E. cbn [map length] in E.
  rewrite Nat2Z.inj_add in E. change (Z.of_nat 1) with 1 in E. rewrite E.
  rewrite length_app in L. cbn [length] in L.
  exists ds', bits'. split; [|split_and!; try done; lia]. do 3 f_equal. unfold text_of. do 2 f_equal. lia.
Qed.

Lemma base32_encode_spec data : forall V ds bits m,
  bytes_ok data -> encoded V ds bits -> bits < 5 -> 8 * blen data + bits <= 5 * m + 4 ->
  exists ds' bits', base32_encode_loop data (u64 V) bits (text_of ds m) (Z.of_nat (length ds))
      = Ok (u64 (V * 256 ^ blen data + be_combine data), bits',
            text_of ds' (m - (Z.of_nat (length ds') - Z.of_nat (length ds))), Z.of_nat (length ds'))
    /\ encoded (V * 256 ^ blen data + be_combine data) ds' bits' /\ bits' < 5
    /\ 5 * Z.of_nat (length ds') + bits' = 5 * Z.of_nat (length ds) + bits + 8 * blen data.
Proof.
  induction data as [|d data IH]; intros V ds bits m Hb [HV Hd Hbits Hc] H5 Hm; cbn [base32_encode_loop].
  { exists ds, bits. replace (m - (Z.of_nat (length ds) - Z.of_nat (length ds))) with m by lia.
    rewrite blen_nil. unfold be_combine. cbn [be_combine_acc]. rewrite Z.mul_1_r, Z.add_0_r.
    split_and!; try done; lia. }
  apply bytes_ok_cons in Hb as [Hd0 Hb]. unfold is_byte in Hd0. rewrite blen_cons in Hm |- *.
  pose proof (blen_nonneg data). rewrite buffer_push by lia. set (V1 := V * 2 ^ 8 + d).
  assert (HV1 : V * 256 ^ (1 + blen data) + be_combine (d :: data) = V1 * 256 ^ blen data + be_combine data).
  { rewrite be_combine_cons, Z.pow_add_r by lia. unfold V1. lia. }
  rewrite HV1. destruct (base32_flush_spec 2 V1 ds (bits + 8) m) as (d1 & b1 & -> & D1 & H1 & L1); [|lia..|].
  { split; [unfold V1; lia|done|lia|]. rewrite Hc. unfold V1. by rewrite shift_div by lia. }
  cbn_bind. destruct (IH V1 d1 b1 (m - (Z.of_nat (length d1) - Z.of_nat (length ds))) Hb D1) as
    (d2 & b2 & -> & D2 & H2 & L2); [lia|lia|].
  exists d2, b2. split; [|split_and!; try done; lia]. do 3 f_equal. unfold text_of. do 2 f_equal. lia.
Qed.

(** ** The object *)

(** An address is 56 characters of base32, which stand for a key of 35 bytes, and a suffix. *)
Definition onion_key (a vs key : list Z) : Prop :=
  Forall digit vs /\ length vs = 56%nat /\ a = map symbol vs ++ cstr ".onion"%string
  /\ bytes_ok key /\ blen key = 35 /\ be_combine key = b32 vs.

Lemma key_decoded vs :
  Forall digit vs -> length vs = 56%nat ->
  exists key, base32_decode_loop (map symbol vs) (malloc 35) 0 0 0 = Ok (key, 35)
    /\ bytes_ok key /\ blen key = 35 /\ be_combine key = b32 vs.
Proof.
  intros Hd Hl. destruct (base32_decode_spec vs [] 35 0 0 Hd) as (key & bits & E & [HV Hb Hbits Hc] & L);
    [split; [lia|constructor|lia|done]|rewrite Hl; lia|lia|].
  rewrite blen_nil, Hl in *. assert (bits = 0 /\ blen key = 35) as [-> Hk] by lia.
  exists key. change (u64 0) with 0 in E. rewrite app_nil_l, Hk in E.
  change (35 - (35 - 0)) with 0 in E. rewrite app_nil_r in E.
  split_and!; [exact E|done|done|]. rewrite Hc, Z.mul_0_l, Z.add_0_l. change (2 ^ 0) with 1. apply Z.div_1_r.
Qed.

Lemma build_onionpeer_inv a port stream expires payload :
  bm_build_onionpeer a port stream expires = Ok payload ->
  exists vs key, onion_key a vs key
    /\ payload = common_header expires BM_OBJECT_ONIONPEER 1 stream ++ varint_bytes port ++ ONIONCAT_PREFIX ++ key.
Proof.
  unfold bm_build_onionpeer. intros E. destruct (Z.eqb_spec (blen a) (56 + 6)) as [Hl|]; [|done].
  cbn [negb] in E. inv_bind E. destruct (list_eqb a0 _) eqn:Es; [|done]. apply list_eqb_eq in Es. cbn [negb] in E.
  inv_bind E. destruct a1 as [key n]. unfold base32_decode_lower in E1. inv_bind E1.
  destruct (base32_decode_inv _ _ _ _ _ _ E1) as (vs & Hd & Hvs).
  apply rdn_ok_inv in E0 as (Hsl & _). apply rdn_ok_inv in E2 as (Hsl2 & _).
  assert (Ha : a = a1 ++ a0).
  { rewrite Hsl, Hsl2. rewrite <- (take_drop 56 a) at 1. unfold slice. f_equal.
    symmetry. apply take_ge. unfold blen in Hl. rewrite length_drop. change (Z.to_nat 56) with 56%nat. lia. }
  assert (Hvl : length vs = 56%nat).
  { apply (f_equal length) in Hvs. rewrite length_map in Hvs. rewrite <- Hvs, Hsl2.
    pose proof (blen_slice a 0 56). unfold blen in *. lia. }
  destruct (key_decoded vs Hd Hvl) as (k & Ek & Hb & Hk & Hc). rewrite Hvs, Ek in E1.
  injection E1 as <- <-. change (negb (35 =? 35)) with false in E. cbv iota in E.
  exists vs, k. split; [by rewrite Ha, Hvs, Es|]. revert E.
  assert (Hy : (b ← append_common_header bb_init expires BM_OBJECT_ONIONPEER 1 stream;
                b ← bb_append_varint b port; b ← bb_append b ONIONCAT_PREFIX 6; b ← bb_append b k 35;
                Ok (bb_take b))
               = Ok (common_header expires BM_OBJECT_ONIONPEER 1 stream ++ varint_bytes port
                     ++ ONIONCAT_PREFIX ++ k)).
  { bb_step. bb_step. eapply yields_bind; [by apply yields_data|]. intros c1 Hc1.
    eapply yields_bind; [by apply yields_data|]. intros c2 Hc2.
    by rewrite (bb_holds_take _ _ Hc2), <- !app_assoc. }
  rewrite Hy. by intros [= <-].
Qed.

Lemma c_string_app_0 l rest : (0 ∉ l) -> c_string (l ++ 0 :: rest) = l.
Proof.
  induction l as [|c l IH]; intros H; [done|]. apply not_elem_of_cons in H as [Hc H]. cbn [app c_string].
  destruct (Z.eqb_spec c 0); [congruence|]. by rewrite IH.
Qed.

Lemma key_encoded vs key a :
  onion_key a vs key ->
  exists block, base32_encode_lower key (malloc 63) = Ok (block, 56)
    /\ wr block 56 (cstr ".onion"%string ++ [0]) = Ok (a ++ [0]).
Proof.
  intros (Hd & Hl & -> & Hb & Hk & Hc). unfold base32_encode_lower.
  destruct (base32_encode_spec key 0 [] 0 63 Hb) as (ds & bits & E & [HV Hds Hbits Hdone] & H5 & L);
    [split; [lia|constructor|lia|done]|lia|lia|].
  change (u64 0) with 0 in E. unfold text_of in E. cbn [map app length] in E. change (Z.of_nat 0) with 0 in E.
  rewrite E. cbn_bind. cbn [length] in L. rewrite Hk in *. assert (bits = 0 /\ length ds = 56%nat) as [-> Hlen] by lia.
  assert (ds = vs) as ->.
  { apply b32_inj; [done|done|congruence|]. rewrite Hdone, <- Hc, Z.mul_0_l, Z.add_0_l.
    change (2 ^ 0) with 1. apply Z.div_1_r. }
  rewrite Hl. change (0 >? 0) with false. cbv iota. eexists. split; [reflexivity|].
  change (Z.of_nat 56) with 56. change (63 - (56 - 0)) with 7.
  rewrite wr_malloc_last; [by rewrite app_assoc|by rewrite blen_symbols, Hl|done].
Qed.

Lemma onion_of_key vs key a port :
  onion_key a vs key -> 0 < port <= 65535 ->
  onion_of (varint_bytes port ++ ONIONCAT_PREFIX ++ key) = Ok (a, port).
Proof.
  intros K Hp. pose proof K as (Hd & Hl & Ha & Hb & Hk & _). unfold onion_of.
  pose proof (bm_varint_size_pos port). pose proof (blen_nonneg (ONIONCAT_PREFIX ++ key)).
  rewrite varint_decode_cases by (unfold is_u64; rewrite ?blen_app, ?blen_varint_bytes in *; lia). cbn_bind.
  destruct (Z.eqb_spec port 0); [lia|]. destruct (Z.gtb_spec port 65535); [lia|]. cbn [orb].
  rewrite drop_app_blen by (by rewrite blen_varint_bytes). unfold V3_ONION_KEY_LEN.
  rewrite blen_app, Hk. change (blen ONIONCAT_PREFIX + 35 =? 6 + 35) with true. cbn [negb].
  rewrite rdn_prefix by done. cbn_bind. rewrite list_eqb_refl. cbn [negb].
  rewrite rdn_suffix by (done || by rewrite Hk). cbn_bind. change (56 + 6 + 1) with 63.
  destruct (key_encoded vs key a K) as (block & -> & Hw). cbn_bind. rewrite Hw. cbn_bind.
  rewrite c_string_app_0; [done|]. rewrite Ha. rewrite not_elem_of_app. split.
  - intros (v & Hv & Hin)%list_elem_of_fmap. eapply Forall_forall in Hd; [|exact Hin].
    by apply (symbol_not_0 v Hd).
  - apply (bool_decide_unpack _). by vm_compute.
Qed.

Section Announced.
Context `{OS : OpenSSL} `{INP : InetNtop} `{BN : BigNum} `{IPT : InetPton}.

(** C18: an onion peer that a node announces is found by every node that receives the object:
    what [bm_build_onionpeer] makes for an address and a port, with any nonce in front, is an
    onionpeer object from which [handle_incoming_onionpeer] enters exactly this address and
    this port into the table of peers, and changes nothing else. *)
Theorem onionpeer_learned (e : sync_env) (s : net_state) (x : bm_object_sync_ctx) (a payload : list Z)
    (port stream expires n : Z) :
  bm_build_onionpeer a port stream expires = Ok payload ->
  0 < port <= 65535 -> is_u64 stream -> is_u64 expires -> is_u64 n ->
  exists hdr, bm_object_parse_header (be_split 8 n ++ payload) = Ok hdr
    /\ object_type hdr = BM_OBJECT_ONIONPEER
    /\ handle_incoming_onionpeer e (s, x) hdr (be_split 8 n ++ payload)
       = Ok (s <| ns_peers := bm_peer_manager_upsert_learned (ns_peers s) a port (s32 stream) 1
                               (en_onionpeer e) (cstr "onionpeer_obj"%string) |>, x).
Proof.
  intros E Hp Hs He Hn. destruct (build_onionpeer_inv _ _ _ _ _ E) as (vs & key & K & ->).
  destruct (common_header_reads expires BM_OBJECT_ONIONPEER 1 stream
    (varint_bytes port ++ ONIONCAT_PREFIX ++ key) He ltac:(by vm_compute) ltac:(by vm_compute) Hs n Hn)
    as (hdr & Hh & _ & _ & Ht & _ & Hst & Hbody).
  exists hdr. split; [done|]. split; [done|]. unfold handle_incoming_onionpeer.
  rewrite Hbody, (onion_of_key vs key a port K Hp), Hst. done.
Qed.
End Announced.

Section OnionWitness.
#[local] Existing Instance toy_OpenSSL.
#[local] Existing Instance toy_ntop.
#[local] Existing Instance toy_pton.

Definition onion_example : list Z :=
  cstr "abcdefghijklmnopqrstuvwxyz234567abcdefghijklmnopqrstuvwx.onion"%string.
Definition onion_payload_example : list Z :=
  match bm_build_onionpeer onion_example 8444 1 2000 with Ok p => p | _ => [] end.

Lemma onionpeer_learned_witness :
  exists hdr, bm_object_parse_header (be_split 8 77 ++ onion_payload_example) = Ok hdr
    /\ object_type hdr = BM_OBJECT_ONIONPEER
    /\ handle_incoming_onionpeer (example_env 1001) (example_net_0, example_x) hdr
         (be_split 8 77 ++ onion_payload_example)
       = Ok (example_net_0 <| ns_peers := bm_peer_manager_upsert_learned (ns_peers example_net_0) onion_example
               8444 (s32 1) 1 1001 (cstr "onionpeer_obj"%string) |>, example_x).
Proof.
  apply (onionpeer_learned (example_env 1001) example_net_0 example_x onion_example onion_payload_example
    8444 1 2000 77).
  - by vm_compute.
  - lia.
  - unfold is_u64. lia.
  - unfold is_u64. lia.
  - unfold is_u64. lia.
Defined.
End OnionWitness.
