(* ===== verification/Api.v ===== *)
(** * The API server: parameters, state and the sends (core/api_server.c)

    JSON trees are those of the cJSON library, the class [CJson]; its functions that take a
    pointer return NULL or false for NULL, which the helpers here write out.  A reply of a
    handler that waits for a proof of work is a placeholder in the C tree; here it is the
    reply [Pending] with the slot, and the tree is made when the answer is. *)

From Stdlib Require Import String SpecFloat.
From stdpp Require Import base tactics numbers option gmap list.
From S2P Require Import Prelude Queue Varint Json Base58 Openssl Hash Address Object Sql ObjectStore MessagesStore.
From S2P Require Import Protocol Crypto MessageBuilder IdentityStore Keyring TrialDecrypt BroadcastDecrypt PubkeyCache.
From S2P Require Import Pow PowQueue SendPipeline Dandelion PeerManager Network PeerRegistry EventLoop ObjectSync Config.

#[local] Arguments be_split : simpl never.

(** ** cJSON *)

(** The functions of the library that the server calls.  [children] are the elements of an
    array or the members of an object, in their order: [cJSON_GetArraySize] counts them,
    [cJSON_GetArrayItem] takes one. *)
Class CJson := {
  cJSON : Type;
  cJSON_ParseWithLength : list Z -> option cJSON;
  cJSON_PrintUnformatted : cJSON -> option (list Z);
  cJSON_IsArray : cJSON -> bool;
  cJSON_IsObject : cJSON -> bool;
  cJSON_IsString : cJSON -> bool;
  cJSON_IsNumber : cJSON -> bool;
  cJSON_IsBool : cJSON -> bool;
  cJSON_IsTrue : cJSON -> bool;
  valuestring : cJSON -> list Z;
  valuedouble : cJSON -> spec_float;
  children : cJSON -> list cJSON;
  cJSON_GetObjectItemCaseSensitive : cJSON -> list Z -> option cJSON;
  cJSON_CreateNull : cJSON;
  cJSON_CreateBool : bool -> cJSON;
  cJSON_CreateNumber : spec_float -> cJSON;
  cJSON_CreateString : list Z -> cJSON;
  cJSON_CreateArray : cJSON;
  cJSON_CreateObject : cJSON;
  cJSON_AddItemToArray : cJSON -> cJSON -> cJSON;
  cJSON_AddItemToObject : cJSON -> list Z -> cJSON -> cJSON;
}.

(** What the documentation of the library says of the trees it creates. *)
Class CJsonLaws `{CJson} : Prop := {
  IsString_create s : cJSON_IsString (cJSON_CreateString s) = true;
  valuestring_create s : valuestring (cJSON_CreateString s) = s;
  IsNumber_create d : cJSON_IsNumber (cJSON_CreateNumber d) = true;
  valuedouble_create d : valuedouble (cJSON_CreateNumber d) = d;
  IsTrue_create b : cJSON_IsTrue (cJSON_CreateBool b) = b;
  IsArray_create : cJSON_IsArray cJSON_CreateArray = true;
  children_create : children cJSON_CreateArray = [];
  IsArray_add a x : cJSON_IsArray (cJSON_AddItemToArray a x) = cJSON_IsArray a;
  children_add a x : cJSON_IsArray a = true -> children (cJSON_AddItemToArray a x) = children a ++ [x];
  IsObject_create : cJSON_IsObject cJSON_CreateObject = true;
  get_create k : cJSON_GetObjectItemCaseSensitive cJSON_CreateObject k = None;
  IsObject_add o k x : cJSON_IsObject (cJSON_AddItemToObject o k x) = cJSON_IsObject o;
  get_add o k x k' : cJSON_IsObject o = true ->
    cJSON_GetObjectItemCaseSensitive (cJSON_AddItemToObject o k x) k'
    = match cJSON_GetObjectItemCaseSensitive o k' with
      | Some v => Some v
      | None => if list_eqb k k' then Some x else None
      end;
}.

(** ** Numbers *)

(** The integral part of a double; infinities and NaN have none. *)
Definition trunc_double (d : spec_float) : cres Z :=
  match d with
  | S754_zero _ => Ok 0
  | S754_finite s m e =>
      let a := if 0 <=? e then Z.shiftl (Z.pos m) e else Z.shiftr (Z.pos m) (- e) in
      Ok (if s then - a else a)
  | _ => Ub
  end.

(** The conversions to [uint64_t] (also [size_t]) and to [int]: undefined when the type
    cannot hold the integral part (C17, 6.3.1.4). *)
Definition to_uint64 (d : spec_float) : cres Z :=
  z ← trunc_double d;
  if (0 <=? z) && (z <? 2 ^ 64) then Ok z else Ub.
Definition to_int (d : spec_float) : cres Z :=
  z ← trunc_double d;
  if (- 2 ^ 31 <=? z) && (z <? 2 ^ 31) then Ok z else Ub.

Definition of_integer (z : Z) : spec_float := binary_normalize 53 1024 z 0 false.

(** ** Text *)

Definition constant_time_equal (a b : list Z) : cres bool :=
  if negb (blen a =? blen b) then Ok false else
  diff ← ct_diff a b 0 (length a) 0;
  Ok (diff =? 0).

Definition hex_encode (data : list Z) : list Z :=
  concat (map (fun b => [hex_char (Z.shiftr b 4); hex_char (Z.land b 15)]) data).

Definition is_space (c : Z) : bool := (c =? 32) || (9 <=? c) && (c <=? 13).

Fixpoint skip_space (s : list Z) : list Z :=
  match s with c :: s' => if is_space c then skip_space s' else s | [] => [] end.

Definition is_hex (c : Z) : bool :=
  (48 <=? c) && (c <=? 57) || (97 <=? c) && (c <=? 102) || (65 <=? c) && (c <=? 70).
Definition hex_value (c : Z) : Z := if c <=? 57 then c - 48 else if c <=? 70 then c - 55 else c - 87.

(** [sscanf(s, "%2x", &byte)]: white space, then at most two characters, among them perhaps
    a sign or the start of a prefix 0x; [None]: not one conversion. *)
Definition scan_2x (s : list Z) : option Z :=
  match skip_space s with
  | c0 :: rest =>
      if (c0 =? 43) || (c0 =? 45) then
        match rest with
        | c1 :: _ => if is_hex c1 then Some (if c0 =? 43 then hex_value c1 else u32 (- hex_value c1)) else None
        | [] => None
        end
      else if is_hex c0 then
        match rest with
        | c1 :: _ =>
            if is_hex c1 then Some (16 * hex_value c0 + hex_value c1)
            else if (c0 =? 48) && ((c1 =? 120) || (c1 =? 88)) then None
            else Some (hex_value c0)
        | [] => Some (hex_value c0)
        end
      else None
  | [] => None
  end.

Fixpoint hex_pairs (n : nat) (hex : list Z) : cres (list Z) :=
  match n with
  | O => Ok []
  | S n =>
      byte ← or_err (scan_2x hex);
      out ← hex_pairs n (drop 2 hex);
      Ok (u8 byte :: out)
  end.

Definition hex_decode_fixed (hex : list Z) (out_len : Z) : cres (list Z) :=
  if negb (blen hex =? out_len * 2) then Err else hex_pairs (Z.to_nat out_len) hex.

Lemma hex_digit d : 0 <= d < 16 ->
  is_hex (hex_char d) = true /\ hex_value (hex_char d) = d /\ is_space (hex_char d) = false
  /\ (hex_char d =? 43) = false /\ (hex_char d =? 45) = false.
Proof. intros. unfold hex_char, is_hex, hex_value, is_space. split_and!; repeat case_match; lia. Qed.

Lemma scan_2x_digits hi lo rest : 0 <= hi < 16 -> 0 <= lo < 16 ->
  scan_2x (hex_char hi :: hex_char lo :: rest) = Some (16 * hi + lo).
Proof.
  intros (H1 & H2 & H3 & H4 & H5)%hex_digit (L1 & L2 & _)%hex_digit. unfold scan_2x. cbn [skip_space].
  by rewrite H3, H4, H5, H1, L1, H2, L2.
Qed.

Lemma hex_pairs_encode data : bytes_ok data -> hex_pairs (length data) (hex_encode data) = Ok data.
Proof.
  induction 1 as [|b data Hb _ IH]; [done|]. unfold hex_encode in *. cbn [length map concat app hex_pairs].
  unfold is_byte in Hb.
  assert (Hh : Z.shiftr b 4 = b / 16) by (by rewrite Z.shiftr_div_pow2 by lia).
  assert (Hl : Z.land b 15 = b mod 16) by (change 15 with (Z.ones 4); apply Z.land_ones; lia).
  pose proof (Z.div_mod b 16 ltac:(lia)) as Hd. pose proof (Z.mod_pos_bound b 16 ltac:(lia)).
  rewrite Hh, Hl, scan_2x_digits by lia. cbn [or_err]. rewrite bind_ok, skipn_cons, skipn_cons, skipn_O, IH, bind_ok.
  unfold u8. by rewrite <- Hd, Z.mod_small by lia.
Qed.

(** What is encoded is read back. *)
Lemma hex_roundtrip data : bytes_ok data -> hex_decode_fixed (hex_encode data) (blen data) = Ok data.
Proof.
  intros H. unfold hex_decode_fixed.
  assert (blen (hex_encode data) = blen data * 2) as ->.
  { unfold hex_encode. clear H. induction data as [|b data IH]; [done|]. cbn [map concat app]. rewrite !blen_cons, IH. lia. }
  rewrite Z.eqb_refl. unfold blen. rewrite Nat2Z.id. by apply hex_pairs_encode.
Qed.

(** But a text that is no hexadecimal at all is read too: [sscanf] is content with one digit, and
    takes white space and a sign. *)
Lemma hex_decode_fixed_lax :
  hex_decode_fixed (cstr "1g 2-3"%string) 3 = Ok [1; 2; 253].
Proof. by vm_compute. Qed.

Section Params.
Context `{CJ : CJson}.

Definition param_at (params : option cJSON) (i : nat) : option cJSON :=
  match params with
  | Some p => if cJSON_IsArray p then children p !! i else None
  | None => None
  end.

Definition json_cstr (v : option cJSON) : option (list Z) :=
  match v with Some v => if cJSON_IsString v then Some (valuestring v) else None | None => None end.

Definition json_num (v : option cJSON) : spec_float :=
  match v with Some v => if cJSON_IsNumber v then valuedouble v else S754_zero false | None => S754_zero false end.

Definition json_obj_get (obj : option cJSON) (key : list Z) : option cJSON :=
  obj ≫= fun o => cJSON_GetObjectItemCaseSensitive o key.

Definition json_str (s : list Z) : cJSON := cJSON_CreateString s.

Definition param_str (params : option cJSON) (i : nat) : option (list Z) := json_cstr (param_at params i).

(** [cJSON_CreateArray] and [cJSON_AddItemToArray] for each item; the same for an object. *)
Definition json_array (items : list cJSON) : cJSON := fold_left cJSON_AddItemToArray items cJSON_CreateArray.
Definition json_object (members : list (list Z * cJSON)) : cJSON :=
  fold_left (fun o kx => cJSON_AddItemToObject o kx.1 kx.2) members cJSON_CreateObject.
End Params.

(** ** The state of the server *)

(** The settings that do not change; [has_pow_queue], [has_broadcast_queue]: not NULL. *)
Record bm_api_server_config := {
  username : option (list Z);
  password : option (list Z);
  has_pow_queue : bool;
  has_broadcast_queue : bool;
  api_default_nonce_trials_per_byte : Z;
  api_default_payload_length_extra_bytes : Z
}.

(** A send whose answer is waited for; [sl_state]: NULL outside a request. *)
Record api_send_slot := {
  sl_state : option Z;
  sl_done : bool;
  sl_rc : Z;
  sl_object_len : Z;
  sl_inv_hash : list Z
}.

(** The sends of one HTTP request; [as_slots] are pointers to its slots. *)
Record api_async_state := {
  as_outstanding : Z;
  as_suspended : bool;
  as_connection : option Z;
  as_slots : list Z
}.
#[export] Instance api_async_state_eta : RecordEta api_async_state := fun a =>
  Build_api_async_state (as_outstanding a) (as_suspended a) (as_connection a) (as_slots a).

(** The slots and states that are allocated, [current_async_state],
    [api_suspended_connections], the connections for which [MHD_resume_connection] was called,
    and the objects pushed to the broadcast queue. *)
Record api_async := {
  sv_slots : gmap Z api_send_slot;
  sv_states : gmap Z api_async_state;
  sv_current : option Z;
  sv_suspended_connections : Z;
  sv_resumed : list Z;
  sv_broadcast : list (list Z)
}.
#[export] Instance api_async_eta : RecordEta api_async := fun a =>
  Build_api_async (sv_slots a) (sv_states a) (sv_current a) (sv_suspended_connections a) (sv_resumed a) (sv_broadcast a).

(** What the handlers read and write: the keyring, the databases (those that may be NULL are
    options), the send pipeline with the tables of messages and keys it writes to, the
    registry with the connections, and the waiting requests. *)
Record api_state := {
  a_keyring : bm_keyring_t;
  a_identities : identity_db;
  a_pipe : pipe_state;
  a_pool : option object_pool;
  a_config : option ConfigStore.config_db;
  a_peers : option hosts;
  a_registry : option (bm_peer_registry * conn_heap);
  a_async : api_async
}.
#[export] Instance api_state_eta : RecordEta api_state := fun a =>
  Build_api_state (a_keyring a) (a_identities a) (a_pipe a) (a_pool a) (a_config a) (a_peers a) (a_registry a) (a_async a).

Definition a_messages (s : api_state) : messages_db := sp_messages (a_pipe s).
Definition with_messages_of (s : api_state) (m : messages_db) : api_state :=
  s <| a_pipe := (a_pipe s) <| sp_messages := m |> |>.
Definition with_pubkeys_of (s : api_state) (pk : pubkey_db) : api_state :=
  s <| a_pipe := (a_pipe s) <| sp_pubkeys := pk |> |>.

(** What a call of a handler draws from outside: the time at its calls of [time] in turn, random
    bytes, the addresses that allocation gives, the byte counters of the network, and the
    fuel for the search of a deterministic address. *)
Record api_env := {
  en_time : nat -> Z;
  en_wrap : nat -> wrap_random;
  en_bulk : nat -> bulk_random;
  en_vault_salt : list Z;
  en_vault_nonce : list Z;
  en_send : send_random;
  en_broadcast : entropy;
  en_slot : Z;
  en_job : Z;
  en_stats : Z * Z;
  en_fuel : nat
}.

(** ** Sends *)

Section Sends.
Context `{OS : OpenSSL} (cfg : bm_api_server_config).

(** The callback of a getpubkey request, which also hands on the objects of the sends. *)
Definition getpubkey_request_done (a : api_async) (object : option (list Z)) : api_async :=
  match object with
  | None => a
  | Some object => if has_broadcast_queue cfg then a <| sv_broadcast := sv_broadcast a ++ [object] |> else a
  end.

Definition deref_slot (a : api_async) (p : Z) : cres api_send_slot :=
  match sv_slots a !! p with Some slot => Ok slot | None => Ub end.
Definition deref_state (a : api_async) (p : Z) : cres api_async_state :=
  match sv_states a !! p with Some st => Ok st | None => Ub end.

(** The part of [api_send_done] under the lock: the result in the slot, and whether the
    connection is to be resumed. *)
Definition settle_slot (st : api_async_state) : bool * api_async_state :=
  let st := st <| as_outstanding := as_outstanding st - 1 |> in
  ((as_outstanding st =? 0) && as_suspended st, st).

Definition api_send_done (a : api_async) (p rc : Z) (object : option (list Z)) : cres api_async :=
  slot ← deref_slot a p;
  inv_hash ← (if rc =? 0 then match object with Some object => Ok (bm_inventory_hash object) | None => Ub end
              else Ok (sl_inv_hash slot));
  let a := if rc =? 0 then getpubkey_request_done a object else a in
  let slot := {| sl_state := sl_state slot; sl_done := true; sl_rc := rc;
                 sl_object_len := blen (default [] object); sl_inv_hash := inv_hash |} in
  match sl_state slot with
  | None => Ok (a <| sv_slots := <[p := slot]> (sv_slots a) |>)
  | Some sp =>
      st ← deref_state a sp;
      let '(resume, st) := settle_slot st in
      let a := a <| sv_slots := <[p := slot]> (sv_slots a) |> <| sv_states := <[sp := st]> (sv_states a) |> in
      if resume then
        match as_connection st with
        | Some connection => Ok (a <| sv_resumed := sv_resumed a ++ [connection] |>)
        | None => Ub
        end
      else Ok a
  end.

(** [p]: the address of the new slot. *)
Definition send_slot_begin (a : api_async) (p : Z) : cres api_async :=
  let slot := {| sl_state := sv_current a; sl_done := false; sl_rc := 0; sl_object_len := 0;
                 sl_inv_hash := replicate 32 0 |} in
  let a := a <| sv_slots := <[p := slot]> (sv_slots a) |> in
  match sv_current a with
  | None => Ok a
  | Some sp =>
      st ← deref_state a sp;
      Ok (a <| sv_states := <[sp := st <| as_outstanding := as_outstanding st + 1 |>]> (sv_states a) |>)
  end.

(** Whether the pipeline gets the queue. *)
Definition send_slot_queue (slot : api_send_slot) : bool :=
  match sl_state slot with Some _ => has_pow_queue cfg | None => false end.

(** The answer of a send: made at once, or a placeholder. *)
Inductive send_reply :=
| Send_failed (error : list Z)
| Send_sent (object_len : Z) (inv_hash : list Z)
| Send_pending (slot : Z).

Definition BM_API_SEND_FAILED_AFTER_QUEUED : list Z :=
  cstr "send failed after its PoW was queued (is the daemon shutting down?)"%string.

Definition send_slot_end (a : api_async) (p submit_rc : Z) (fail_msg : list Z) : cres (send_reply * api_async) :=
  slot ← deref_slot a p;
  if negb (submit_rc =? 0) then
    a ← (match sl_state slot with
         | None => Ok a
         | Some sp =>
             st ← deref_state a sp;
             Ok (a <| sv_states := <[sp := st <| as_outstanding := as_outstanding st - 1 |>]> (sv_states a) |>)
         end);
    Ok (Send_failed fail_msg, a <| sv_slots := delete p (sv_slots a) |>)
  else
    match sl_state slot with
    | None =>
        Ok (if sl_rc slot =? 0 then Send_sent (sl_object_len slot) (sl_inv_hash slot)
            else Send_failed BM_API_SEND_FAILED_AFTER_QUEUED,
            a <| sv_slots := delete p (sv_slots a) |>)
    | Some sp =>
        st ← deref_state a sp;
        Ok (Send_pending p, a <| sv_states := <[sp := st <| as_slots := as_slots st ++ [p] |>]> (sv_states a) |>)
    end.

(** The calls of [done] that the pipeline made between two states, delivered in their order. *)
Fixpoint deliver (a : api_async) (reports : list send_report) : cres api_async :=
  match reports with
  | [] => Ok a
  | r :: reports =>
      a ← api_send_done a (rp_user r) (rp_rc r) (rp_object r);
      deliver a reports
  end.
Definition new_reports (before after : pipe_state) : list send_report :=
  drop (length (sp_reports before)) (sp_reports after).
End Sends.

(** ** A JSON library of the laws *)

(** The trees, with a text form that is as plain as can be: a letter for the kind, then a byte
    for a count or a number. *)
Inductive toy_json :=
| TNull
| TBool (b : bool)
| TNum (d : spec_float)
| TStr (s : list Z)
| TArr (l : list toy_json)
| TObj (l : list (list Z * toy_json)).

Definition toy_children (t : toy_json) : list toy_json :=
  match t with TArr l => l | TObj l => map snd l | _ => [] end.

Fixpoint toy_find (l : list (list Z * toy_json)) (k : list Z) : option toy_json :=
  match l with
  | [] => None
  | (k', v) :: l => if list_eqb k' k then Some v else toy_find l k
  end.

(** The members of an object, from its keys and values in turn. *)
Fixpoint toy_members (l : list toy_json) : list (list Z * toy_json) :=
  match l with
  | TStr k :: v :: l => (k, v) :: toy_members l
  | _ => []
  end.

(** n is null, b a boolean, # a number, s a string, a an array, o an object. *)
Fixpoint toy_parse (fuel : nat) (s : list Z) : option (toy_json * list Z) :=
  match fuel with
  | O => None
  | S fuel =>
      let fix elements n s :=
        match n with
        | O => Some ([], s)
        | S n =>
            match toy_parse fuel s with
            | Some (x, s) => match elements n s with Some (l, s) => Some (x :: l, s) | None => None end
            | None => None
            end
        end in
      match s with
      | [] => None
      | c :: s =>
          if c =? 110 then Some (TNull, s) else
          match s with
          | [] => None
          | n :: s =>
              if c =? 98 then Some (TBool (negb (n =? 0)), s)
              else if c =? 35 then Some (TNum (of_integer n), s)
              else if c =? 115 then Some (TStr (take (Z.to_nat n) s), drop (Z.to_nat n) s)
              else if c =? 97
              then match elements (Z.to_nat n) s with Some (l, s) => Some (TArr l, s) | None => None end
              else if c =? 111
              then match elements (Z.to_nat (2 * n)) s with
                   | Some (l, s) => Some (TObj (toy_members l), s) | None => None end
              else None
          end
      end
  end.

Definition toy_text (t : toy_json) : list Z :=
  match t with TStr s => s | TArr _ => cstr "array"%string | TObj _ => cstr "object"%string | _ => cstr "value"%string end.

Definition toy_CJson : CJson := {|
  cJSON := toy_json;
  cJSON_ParseWithLength s := fst <$> toy_parse (length s) s;
  cJSON_PrintUnformatted t := Some (toy_text t);
  cJSON_IsArray t := match t with TArr _ => true | _ => false end;
  cJSON_IsObject t := match t with TObj _ => true | _ => false end;
  cJSON_IsString t := match t with TStr _ => true | _ => false end;
  cJSON_IsNumber t := match t with TNum _ => true | _ => false end;
  cJSON_IsBool t := match t with TBool _ => true | _ => false end;
  cJSON_IsTrue t := match t with TBool b => b | _ => false end;
  valuestring t := match t with TStr s => s | _ => [] end;
  valuedouble t := match t with TNum d => d | _ => S754_zero false end;
  children := toy_children;
  cJSON_GetObjectItemCaseSensitive t k := match t with TObj l => toy_find l k | _ => None end;
  cJSON_CreateNull := TNull;
  cJSON_CreateBool := TBool;
  cJSON_CreateNumber := TNum;
  cJSON_CreateString := TStr;
  cJSON_CreateArray := TArr [];
  cJSON_CreateObject := TObj [];
  cJSON_AddItemToArray a x := match a with TArr l => TArr (l ++ [x]) | _ => a end;
  cJSON_AddItemToObject o k x := match o with TObj l => TObj (l ++ [(k, x)]) | _ => o end
|}.

Lemma toy_find_app l k x k' :
  toy_find (l ++ [(k, x)]) k' = match toy_find l k' with Some v => Some v | None => if list_eqb k k' then Some x else None end.
Proof. induction l as [|[k0 v] l IH]; [done|]. cbn. by destruct (list_eqb k0 k'). Qed.

Definition toy_CJsonLaws : CJsonLaws (H := toy_CJson).
Proof.
  split; try done; cbn.
  - by intros [].
  - by intros [].
  - by intros [].
  - intros [] k x k' Hk; try done. apply toy_find_app.
Qed.
