(* ===== verification/ApiHandlers.v ===== *)
(** * The API server: the methods (core/api_server.c)

    A handler takes the parameters and the state and gives its reply: a result, the slot of a
    send that is not finished, or an error message.  Clearing of secrets is not represented;
    the build is the one without BM_HAVE_PQ. *)

From Stdlib Require Import String SpecFloat.
From stdpp Require Import base tactics numbers option gmap list.
From S2P Require Import Prelude Queue Varint Json Base58 Openssl Hash Address Object Sql ObjectStore MessagesStore.
From S2P Require Import Protocol Crypto MessageBuilder IdentityStore Keyring TrialDecrypt BroadcastDecrypt PubkeyCache.
From S2P Require Import Pow PowQueue SendPipeline Dandelion PeerManager Network PeerRegistry EventLoop ObjectSync Config Api.

#[local] Arguments be_split : simpl never.

Definition BM_GETPUBKEY_NONCE_TRIALS_PER_BYTE : Z := 1000.
Definition BM_GETPUBKEY_PAYLOAD_LENGTH_EXTRA_BYTES : Z := 1000.
Definition BM_GETPUBKEY_REQUEST_TTL_SECONDS : Z := 2 * 24 * 60 * 60.
Definition BM_GETPUBKEY_REQUEST_COOLDOWN_SECONDS : Z := 10 * 60.
Definition BM_API_UNLOCK_ADDRESSES_MAX : Z := BM_KEYRING_UNLOCK_ALL_MAX_IDENTITIES.
Definition BM_API_CONVERT_V3_DEFAULT_LIMIT : Z := 1000.
Definition BM_API_CONVERT_V3_MAX_LIMIT : Z := BM_KEYRING_UNLOCK_ALL_MAX_IDENTITIES.
Definition BM_MAX_SUBJECT_PLUS_BODY_LEN : Z := Z.shiftl 1 18 - 500.

(** The [user_data] of the proof of work of a getpubkey request (see [user_callback]). *)
Definition GETPUBKEY_USER : Z := 3.

Section Handlers.
Context `{OS : OpenSSL} `{OSV : OpenSSLVault} `{BN : BigNum} `{INP : InetNtop} `{CJ : CJson}.
Context (g : protocol_globals) (solve : list Z -> Z -> Z) (cfg : bm_api_server_config).

Inductive reply :=
| Result (v : cJSON)
| Pending (slot : Z)
| Failed (error : list Z).

Definition fail (error : string) (s : api_state) : cres (reply * api_state) := Ok (Failed (cstr error), s).
Definition result_bool (b : bool) : reply := Result (cJSON_CreateBool b).
Definition key_bool (key : string) (b : bool) : list Z * cJSON := (cstr key, cJSON_CreateBool b).
Definition key_str (key : string) (v : list Z) : list Z * cJSON := (cstr key, json_str v).
Definition key_num (key : string) (n : Z) : list Z * cJSON := (cstr key, cJSON_CreateNumber (of_integer n)).

(** ** Unlocking *)

(** The decryption again of the pool, for the addresses just unlocked: how many messages are
    new, and the inbox. *)
Definition backfill (s : api_state) (kr : bm_keyring_t) (addresses : list (list Z)) (now : Z)
  : cres (Z * api_state) :=
  match a_pool s with
  | None => Ok (0, s)
  | Some pool =>
      '(n, i) ← bm_object_sync_backfill_trial_decrypt_addresses pool (m_inbox (a_messages s)) kr addresses now;
      Ok (n, with_messages_of s (with_inbox (a_messages s) i))
  end.

Definition h_unlockAddress (e : api_env) (params : option cJSON) (s : api_state) : cres (reply * api_state) :=
  match param_str params 0, param_str params 1 with
  | Some address, Some passphrase =>
      match bm_keyring_unlock (a_keyring s) (a_identities s) address passphrase (en_time e 0) with
      | Ub => Ub
      | Err => Ok (result_bool false, s)
      | Ok kr =>
          '(_, s) ← backfill (s <| a_keyring := kr |>) kr [address] (en_time e 1);
          Ok (result_bool true, s)
      end
  | _, _ => fail "unlockAddress requires [address, passphrase]" s
  end.

Definition h_unlockAllAddresses (e : api_env) (params : option cJSON) (s : api_state) : cres (reply * api_state) :=
  match param_str params 0 with
  | None => fail "unlockAllAddresses requires [passphrase]" s
  | Some passphrase =>
      '(results, kr, db) ← bm_keyring_unlock_all passphrase (en_time e 0) (a_keyring s) (a_identities s) (en_bulk e);
      let s := s <| a_keyring := kr |> <| a_identities := db |> in
      match results with
      | None =>
          Ok (Failed (cstr "unlockAllAddresses refused: "%string
                      ++ fmt_lld (Z.of_nat (length (bm_identity_store_list db)))
                      ++ cstr " identities exceeds the limit of "%string
                      ++ fmt_lld BM_KEYRING_UNLOCK_ALL_MAX_IDENTITIES
                      ++ cstr " (trial decryption of every incoming msg would stall the network thread); unlock the addresses you need with unlockAddresses"%string), s)
      | Some results =>
          Ok (Result (json_array (map (fun r =>
                json_object [key_str "address" (ua_address r); key_bool "unlocked" (ua_unlocked r)]) results)), s)
      end
  end.

Definition unlock_entry (r : bm_unlock_all_entry) : cJSON :=
  json_object ([key_str "address" (ua_address r); key_bool "unlocked" (ua_unlocked r)]
    ++ if ua_unlocked r then []
       else [key_str "error" (if ua_not_found r then cstr "address not found"%string
                              else cstr "passphrase mismatch"%string)]).

(** The addresses that are now unlocked. *)
Definition unlocked_of (addresses : list (list Z)) (results : list bm_unlock_all_entry) : list (list Z) :=
  map fst (filter (fun ar => ua_unlocked ar.2 = true) (zip addresses results)).

Definition h_unlockAddresses (e : api_env) (params : option cJSON) (s : api_state) : cres (reply * api_state) :=
  match param_at params 0, param_str params 1 with
  | Some addresses_v, Some passphrase =>
      if negb (cJSON_IsArray addresses_v)
      then fail "unlockAddresses requires [addresses, passphrase, backfill(optional)]" s else
      if match param_at params 2 with Some v => negb (cJSON_IsBool v) | None => false end
      then fail "backfill must be a boolean" s else
      if Z.of_nat (length (children addresses_v)) >? BM_API_UNLOCK_ADDRESSES_MAX
      then Ok (Failed (cstr "unlockAddresses accepts at most "%string ++ fmt_lld BM_API_UNLOCK_ADDRESSES_MAX
                       ++ cstr " addresses per call"%string), s) else
      match mapM (fun item => json_cstr (Some item)) (children addresses_v) with
      | None => fail "addresses must be an array of strings" s
      | Some addresses =>
          '(results, kr, db) ← bm_keyring_unlock_addresses passphrase (en_time e 0) (a_keyring s) (a_identities s)
                                 (imap (fun i a => (a, en_bulk e i)) addresses);
          let s := s <| a_keyring := kr |> <| a_identities := db |> in
          let out := [(cstr "results"%string, json_array (map unlock_entry results))] in
          if match param_at params 2 with Some v => cJSON_IsTrue v | None => false end then
            '(n, s) ← backfill s kr (unlocked_of addresses results) (en_time e 1);
            Ok (Result (json_object (out ++ [key_num "backfilledMessages" (if n >? 0 then n else 0)])), s)
          else Ok (Result (json_object out), s)
      end
  | _, _ => fail "unlockAddresses requires [addresses, passphrase, backfill(optional)]" s
  end.

(** ** Identities *)

Definition h_exportAddress (e : api_env) (params : option cJSON) (s : api_state) : cres (reply * api_state) :=
  match param_str params 0, param_str params 1 with
  | Some address, Some passphrase =>
      match bm_keyring_export (a_identities s) address passphrase with
      | Ub => Ub
      | Err => fail "export failed (wrong passphrase or address not found)" s
      | Ok (priv_signing, priv_encryption) =>
          match (signing_wif ← bm_address_encode_wif priv_signing;
                 encryption_wif ← bm_address_encode_wif priv_encryption;
                 Ok (signing_wif, encryption_wif)) with
          | Ub => Ub
          | Err => fail "WIF encoding failed" s
          | Ok (signing_wif, encryption_wif) =>
              Ok (Result (json_object [key_str "signingWIF" signing_wif; key_str "encryptionWIF" encryption_wif]), s)
          end
      end
  | _, _ => fail "exportAddress requires [address, passphrase]" s
  end.

Definition h_lockAddress (e : api_env) (params : option cJSON) (s : api_state) : cres (reply * api_state) :=
  match param_str params 0 with
  | None => fail "lockAddress requires [address]" s
  | Some address =>
      let '(found, kr) := bm_keyring_lock (a_keyring s) address in
      Ok (result_bool found, s <| a_keyring := kr |>)
  end.

Definition h_lockAllAddresses (e : api_env) (params : option cJSON) (s : api_state) : cres (reply * api_state) :=
  Ok (result_bool true, s <| a_keyring := bm_keyring_lock_all (a_keyring s) |>).

Definition h_deleteAddress (e : api_env) (params : option cJSON) (s : api_state) : cres (reply * api_state) :=
  match param_str params 0 with
  | None => fail "deleteAddress requires [address]" s
  | Some address =>
      let '(kr, db) := bm_keyring_delete_identity (a_keyring s) (a_identities s) address in
      Ok (result_bool true, s <| a_keyring := kr |> <| a_identities := db |>)
  end.

(** Whether it was converted, the members added to the entry, and the state. *)
Definition convert_one_v3_to_v4 (now : Z) (rnd : wrap_random) (s : api_state) (session : bm_keyring_convert_session)
  (v3_address : list Z) : cres (bool * list (list Z * cJSON) * bm_keyring_convert_session * api_state) :=
  '(rc, c) ← bm_keyring_ensure_v4_sibling now rnd (a_keyring s) (a_identities s) v3_address session;
  let s := s <| a_keyring := cv_keyring c |> <| a_identities := cv_db c |> in
  let failed err := Ok (false, [key_str "error" (cstr err)], cv_session c, s) in
  match rc with
  | CONVERT_ERR_NOT_FOUND => failed "address not found"%string
  | CONVERT_ERR_NOT_V3 => failed "not a v3 address"%string
  | CONVERT_ERR_PASSPHRASE => failed "wrong passphrase"%string
  | CONVERT_FAILED => failed "failed to prepare the v4 sibling"%string
  | CONVERT_OK =>
      let s := with_messages_of s (bm_messages_store_rename_own_address (a_messages s) v3_address (cv_v4_address c)) in
      let '(kr, db) := bm_keyring_delete_identity (a_keyring s) (a_identities s) v3_address in
      Ok (true, [key_str "v4Address" (cv_v4_address c); key_bool "created" (cv_created c)], cv_session c,
          s <| a_keyring := kr |> <| a_identities := db |>)
  end.

Definition h_convertAddressToV4 (e : api_env) (params : option cJSON) (s : api_state) : cres (reply * api_state) :=
  match param_str params 0, param_str params 1 with
  | Some address, Some passphrase =>
      '(ok, members, _, s) ← convert_one_v3_to_v4 (en_time e 0) (en_wrap e 0) s
                               (bm_keyring_convert_session_init passphrase) address;
      let result := json_object (key_str "v3Address" address :: members) in
      if ok : bool then Ok (Result result, s)
      else
        match json_cstr (json_obj_get (Some result) (cstr "error"%string)) with
        | Some error => Ok (Failed error, s)
        | None => Ub
        end
  | _, _ => fail "convertAddressToV4 requires [v3Address, passphrase]" s
  end.

(** The entries of both lists, the number of conversions, and what was read past. *)
Record convert_progress := {
  cp_converted : list cJSON;
  cp_failed : list cJSON;
  cp_done : Z;
  cp_offset : Z;
  cp_session : bm_keyring_convert_session;
  cp_tried : nat
}.

Definition convert_begin (passphrase : list Z) : convert_progress :=
  {| cp_converted := []; cp_failed := []; cp_done := 0; cp_offset := 0;
     cp_session := bm_keyring_convert_session_init passphrase; cp_tried := 0 |}.

(** One row that was listed; the time and the random bytes of a row are those of its turn. *)
Fixpoint convert_rows (e : api_env) (rows : list bm_identity_summary) (s : api_state) (p : convert_progress)
  : cres (convert_progress * api_state) :=
  match rows with
  | [] => Ok (p, s)
  | row :: rows =>
      '(ok, members, session, s) ← convert_one_v3_to_v4 (en_time e (cp_tried p)) (en_wrap e (cp_tried p)) s
                                     (cp_session p) (sm_address row);
      let entry := json_object (key_str "v3Address" (sm_address row) :: members) in
      convert_rows e rows s
        (if ok : bool
         then {| cp_converted := cp_converted p ++ [entry]; cp_failed := cp_failed p; cp_done := cp_done p + 1;
                 cp_offset := cp_offset p; cp_session := session; cp_tried := S (cp_tried p) |}
         else {| cp_converted := cp_converted p; cp_failed := cp_failed p ++ [entry]; cp_done := cp_done p;
                 cp_offset := cp_offset p + 1; cp_session := session; cp_tried := S (cp_tried p) |})
  end.

(** The loop over the pages of at most [limit - done] rows; [None]: the fuel is used up. *)
Fixpoint convert_loop (fuel : nat) (e : api_env) (limit : Z) (s : api_state) (p : convert_progress)
  : option (cres (convert_progress * api_state)) :=
  match fuel with
  | O => None
  | S fuel =>
      if cp_done p <? limit then
        let rows := bm_identity_store_list_by_version (a_identities s) 3 (limit - cp_done p) (cp_offset p) in
        match convert_rows e rows s p with
        | Ok (p, s) => match rows with [] => Some (Ok (p, s)) | _ => convert_loop fuel e limit s p end
        | r => Some r
        end
      else Some (Ok (p, s))
  end.

(** The limit of the parameters, [Err] for a value that is refused. *)
Definition convert_limit (limit_v : option cJSON) : cres Z :=
  match limit_v with
  | None => Ok BM_API_CONVERT_V3_DEFAULT_LIMIT
  | Some v =>
      let d := json_num limit_v in
      if negb (cJSON_IsNumber v) || SFltb d (of_integer 1) || SFltb (of_integer BM_API_CONVERT_V3_MAX_LIMIT) d then Err
      else to_uint64 d
  end.

(** Every turn but the last one reads a row of version 3 that is converted or read past, and there
    are no more than the database has. *)
Definition convert_fuel (s : api_state) : nat := S (S (size (identities (a_identities s)))).

Definition h_convertV3AddressesToV4 (e : api_env) (params : option cJSON) (s : api_state) : cres (reply * api_state) :=
  match param_str params 0 with
  | None => fail "convertV3AddressesToV4 requires [passphrase, limit(optional)]" s
  | Some passphrase =>
      match convert_limit (param_at params 1) with
      | Ub => Ub
      | Err => Ok (Failed (cstr "limit must be a number between 1 and "%string ++ fmt_lld BM_API_CONVERT_V3_MAX_LIMIT), s)
      | Ok limit =>
          '(p, s) ← default Ub (convert_loop (convert_fuel s) e limit s (convert_begin passphrase));
          Ok (Result (json_object
                [(cstr "converted"%string, json_array (cp_converted p)); (cstr "failed"%string, json_array (cp_failed p));
                 key_num "remaining" (bm_identity_store_count_by_version (a_identities s) 3)]), s)
      end
  end.

Definition h_listAddresses (e : api_env) (params : option cJSON) (s : api_state) : cres (reply * api_state) :=
  let entry l :=
    json_object
      [key_str "address" (sm_address l); key_str "label" (sm_label l); key_bool "enabled" (negb (sm_enabled l =? 0));
       key_bool "unlocked" (match bm_keyring_find_by_address (a_keyring s) (sm_address l) with
                            | Some _ => true | None => false end);
       key_bool "isChan" (negb (sm_is_chan l =? 0))] in
  Ok (Result (json_array (map entry (bm_identity_store_list (a_identities s)))), s).

(** The row of a generated address, kept under a pass phrase of its own; [None]: it could not be
    stored. *)
Definition store_generated (e : api_env) (s : api_state) (gen : bm_generated_address) (address : list Z)
  (label : option (list Z)) (version stream : Z) (store_passphrase : list Z) : cres (option identity_db) :=
  match bm_keyring_create_identity (a_identities s) address (Some (default [] label)) version stream
          (pub_signing gen) (pub_encryption gen) (priv_signing gen) (priv_encryption gen) store_passphrase
          (api_default_nonce_trials_per_byte cfg) (api_default_payload_length_extra_bytes cfg) (en_wrap e 0) (en_time e 0) with
  | Ub => Ub
  | Err => Ok None
  | Ok db => Ok (Some db)
  end.

(** The search of the deterministic address with the fuel of the call. *)
Definition generate (e : api_env) (passphrase : list Z) (null_bytes : Z) : cres bm_generated_address :=
  gen ← bm_address_generate_deterministic (en_fuel e) passphrase (Z.to_nat null_bytes);
  match gen with Some gen => Ok gen | None => Ub end.

Definition h_createDeterministicAddress (e : api_env) (params : option cJSON) (s : api_state)
  : cres (reply * api_state) :=
  match param_str params 0, param_at params 1, param_at params 2, param_at params 3, param_str params 5 with
  | Some passphrase, Some version_v, Some stream_v, Some null_bytes_v, Some store_passphrase =>
      version ← to_uint64 (json_num (Some version_v));
      stream ← to_uint64 (json_num (Some stream_v));
      null_bytes ← to_int (json_num (Some null_bytes_v));
      if (version <? 3) || (version >? 4) then fail "addressVersion must be 3 or 4" s else
      match generate e passphrase null_bytes with
      | Ub => Ub
      | Err => fail "address generation failed" s
      | Ok gen =>
          match bm_address_encode version stream (gen_ripe gen) with
          | Ub => Ub
          | Err => fail "address encoding failed" s
          | Ok address =>
              stored ← store_generated e s gen address (param_str params 4) version (s32 stream) store_passphrase;
              match stored with
              | None => fail "failed to store identity (duplicate address?)" s
              | Some db => Ok (Result (json_str address), s <| a_identities := db |>)
              end
          end
      end
  | _, _, _, _, _ =>
      fail "createDeterministicAddress requires [passphrase, addressVersion, stream, ripeNullBytes, label, storePassphrase]" s
  end.

Definition h_setAddressLabel (e : api_env) (params : option cJSON) (s : api_state) : cres (reply * api_state) :=
  match param_str params 0, param_str params 1 with
  | Some address, Some label =>
      match bm_identity_store_update_label (a_identities s) address label with
      | Ub => Ub
      | Err => fail "address not found" s
      | Ok db => Ok (result_bool true, s <| a_identities := db |>)
      end
  | _, _ => fail "setAddressLabel requires [address, label]" s
  end.

(** The checks that importAddress and importAddressesBulk make of an address and its two WIF
    texts, with what each says when it fails. *)
Inductive import_check :=
| Import_ok (version stream : Z) (pub_signing pub_encryption priv_signing priv_encryption : list Z)
| Import_bad_address | Import_bad_wif | Import_no_public_key | Import_other_keys.

Definition both (a b : cres (list Z)) : cres (option (list Z * list Z)) :=
  match a with
  | Ub => Ub
  | Err => Ok None
  | Ok x => match b with Ub => Ub | Err => Ok None | Ok y => Ok (Some (x, y)) end
  end.

Definition check_import (address signing_wif encryption_wif : list Z) : cres import_check :=
  match bm_address_decode address with
  | Ub => Ub
  | Err => Ok Import_bad_address
  | Ok (version, stream, ripe_from_address) =>
      privs ← both (bm_address_decode_wif signing_wif) (bm_address_decode_wif encryption_wif);
      match privs with
      | None => Ok Import_bad_wif
      | Some (priv_signing, priv_encryption) =>
          pubs ← both (bm_address_get_public_key priv_signing) (bm_address_get_public_key priv_encryption);
          match pubs with
          | None => Ok Import_no_public_key
          | Some (pub_signing, pub_encryption) =>
              ripe_computed ← bm_address_calc_ripe pub_signing pub_encryption;
              Ok (if list_eqb ripe_computed ripe_from_address
                  then Import_ok version stream pub_signing pub_encryption priv_signing priv_encryption
                  else Import_other_keys)
          end
      end
  end.

(** [v != NULL ? (uint64_t)json_num(v) : default] *)
Definition number_or (v : option cJSON) (default : Z) : cres Z :=
  match v with Some _ => to_uint64 (json_num v) | None => Ok default end.

Definition is_true (v : option cJSON) : bool := match v with Some v => cJSON_IsTrue v | None => false end.

Definition h_importAddress (e : api_env) (params : option cJSON) (s : api_state) : cres (reply * api_state) :=
  match param_str params 0, param_str params 1, param_str params 2, param_str params 4 with
  | Some address, Some signing_wif, Some encryption_wif, Some store_passphrase =>
      checked ← check_import address signing_wif encryption_wif;
      match checked with
      | Import_bad_address => fail "invalid address" s
      | Import_bad_wif => fail "invalid WIF (signingWIF/encryptionWIF)" s
      | Import_no_public_key => fail "failed to derive public key from WIF" s
      | Import_other_keys => fail "WIF keys do not match the given address" s
      | Import_ok version stream pub_signing pub_encryption priv_signing priv_encryption =>
          nonce_trials ← number_or (param_at params 5) (api_default_nonce_trials_per_byte cfg);
          payload_extra ← number_or (param_at params 6) (api_default_payload_length_extra_bytes cfg);
          '(stored, db) ← bm_keyring_import_identity (a_identities s) address (Some (default [] (param_str params 3)))
                            version (s32 stream) pub_signing pub_encryption priv_signing priv_encryption store_passphrase
                            nonce_trials payload_extra (en_vault_salt e) (en_vault_nonce e) (en_wrap e 0) (en_time e 0);
          if negb stored then
            fail "failed to store identity (duplicate address, or storePassphrase does not match the existing vault passphrase?)"
              (s <| a_identities := db |>)
          else
            let db := if is_true (param_at params 7) then bm_keyring_mark_as_chan db address else db in
            Ok (result_bool true, s <| a_identities := db |>)
      end
  | _, _, _, _ =>
      fail "importAddress requires [address, signingWIF, encryptionWIF, label, storePassphrase, nonceTrialsPerByte?, payloadLengthExtraBytes?]" s
  end.

(** One entry of importAddressesBulk: what went wrong, if anything, and the database. *)
Definition import_entry (e : api_env) (i : nat) (db : identity_db) (master_kek : list Z) (entry : option cJSON)
  : cres (option string * identity_db) :=
  match json_cstr (json_obj_get entry (cstr "address"%string)), json_cstr (json_obj_get entry (cstr "signingWIF"%string)),
        json_cstr (json_obj_get entry (cstr "encryptionWIF"%string)) with
  | Some address, Some signing_wif, Some encryption_wif =>
      checked ← check_import address signing_wif encryption_wif;
      match checked with
      | Import_bad_address => Ok (Some "invalid address"%string, db)
      | Import_bad_wif => Ok (Some "invalid WIF"%string, db)
      | Import_no_public_key => Ok (Some "failed to derive public key from WIF"%string, db)
      | Import_other_keys => Ok (Some "WIF keys do not match the given address"%string, db)
      | Import_ok version stream pub_signing pub_encryption priv_signing priv_encryption =>
          nonce_trials ← number_or (json_obj_get entry (cstr "nonceTrialsPerByte"%string)) (api_default_nonce_trials_per_byte cfg);
          payload_extra ← number_or (json_obj_get entry (cstr "payloadLengthExtraBytes"%string))
                            (api_default_payload_length_extra_bytes cfg);
          match bm_keyring_import_identity_with_master_kek db address
                  (Some (default [] (json_cstr (json_obj_get entry (cstr "label"%string))))) version (s32 stream)
                  pub_signing pub_encryption priv_signing priv_encryption master_kek nonce_trials payload_extra
                  (en_wrap e i) (en_time e i) with
          | Ub => Ub
          | Err => Ok (Some "failed to store identity (duplicate address?)"%string, db)
          | Ok db => Ok (None, if is_true (json_obj_get entry (cstr "isChan"%string))
                               then bm_keyring_mark_as_chan db address else db)
          end
      end
  | _, _, _ => Ok (Some "missing address/signingWIF/encryptionWIF"%string, db)
  end.

Fixpoint import_entries (e : api_env) (i : nat) (db : identity_db) (master_kek : list Z) (entries : list cJSON)
  : cres (list cJSON * identity_db) :=
  match entries with
  | [] => Ok ([], db)
  | entry :: entries =>
      '(err, db) ← import_entry e i db master_kek (Some entry);
      let address := default (cstr "(missing)"%string) (json_cstr (json_obj_get (Some entry) (cstr "address"%string))) in
      let result :=
        json_object ([key_str "address" address; key_bool "success" (match err with None => true | Some _ => false end)]
          ++ match err with None => [] | Some err => [key_str "error" (cstr err)] end) in
      '(results, db) ← import_entries e (S i) db master_kek entries;
      Ok (result :: results, db)
  end.

Definition h_importAddressesBulk (e : api_env) (params : option cJSON) (s : api_state) : cres (reply * api_state) :=
  match param_at params 0, param_str params 1 with
  | Some entries, Some store_passphrase =>
      if negb (cJSON_IsArray entries) then fail "importAddressesBulk requires [entries, storePassphrase]" s else
      match bm_keyring_resolve_or_create_vault_master_kek (a_identities s) store_passphrase (en_vault_salt e)
              (en_vault_nonce e) with
      | Ub => Ub
      | Err => fail "storePassphrase does not match the existing vault passphrase" s
      | Ok (master_kek, db) =>
          '(results, db) ← import_entries e 0 db master_kek (children entries);
          Ok (Result (json_array results), s <| a_identities := db |>)
      end
  | _, _ => fail "importAddressesBulk requires [entries, storePassphrase]" s
  end.

Definition h_joinChan (e : api_env) (params : option cJSON) (s : api_state) : cres (reply * api_state) :=
  match param_str params 0, param_str params 2 with
  | Some passphrase, Some store_passphrase =>
      match generate e passphrase 1 with
      | Ub => Ub
      | Err => fail "address generation failed" s
      | Ok gen =>
          match bm_address_encode 4 1 (gen_ripe gen) with
          | Ub => Ub
          | Err => fail "address encoding failed" s
          | Ok address =>
              stored ← store_generated e s gen address (param_str params 1) 4 1 store_passphrase;
              match stored with
              | None => fail "failed to store chan identity (already joined this chan?)" s
              | Some db =>
                  Ok (Result (json_str address), s <| a_identities := bm_keyring_mark_as_chan db address |>)
              end
          end
      end
  | _, _ => fail "joinChan requires [passphrase, label, storePassphrase]" s
  end.

(** ** Keys and sends *)

Definition h_cachePubkey (e : api_env) (params : option cJSON) (s : api_state) : cres (reply * api_state) :=
  match param_str params 0, param_str params 1, param_str params 2 with
  | Some address, Some signing_hex, Some encryption_hex =>
      match bm_address_decode address with
      | Ub => Ub
      | Err => fail "invalid address" s
      | Ok (version, stream, ripe) =>
          keys ← both (hex_decode_fixed signing_hex 65) (hex_decode_fixed encryption_hex 65);
          match keys with
          | None => fail "pubkeys must be exactly 130 hex characters (65 bytes) each" s
          | Some (signing_pubkey, encryption_pubkey) =>
              let entry :=
                {| c_ripe := ripe; c_tag := replicate 32 0; c_address_version := version; c_stream := stream;
                   c_behavior_bitfield := 0; c_signing_pubkey := signing_pubkey;
                   c_encryption_pubkey := encryption_pubkey; c_nonce_trials_per_byte := 0;
                   c_payload_length_extra_bytes := 0 |} in
              Ok (result_bool true,
                  with_pubkeys_of s (bm_pubkey_cache_upsert (sp_pubkeys (a_pipe s)) entry (en_time e 0)))
          end
      end
  | _, _, _ =>
      fail "cachePubkey requires [address, signingPubkeyHex, encryptionPubkeyHex] (each 130 hex characters, 65 bytes, 0x04||X||Y)" s
  end.

(** The message when the text is too long. *)
Definition check_subject_body_length (subject body : list Z) (limit : Z) : option (list Z) :=
  let total := blen subject + blen body in
  if total <=? limit then None
  else Some (cstr "Message is too long. subject + body = "%string ++ fmt_lld total
             ++ cstr " bytes, but the maximum is "%string ++ fmt_lld limit ++ cstr " bytes."%string).

(** The proof of work of a getpubkey request, on the queue or at once. *)
Definition submit_getpubkey (s : api_state) (payload : list Z) (target : Z) (key : list Z) : cres api_state :=
  if has_pow_queue cfg then
    let '(_, q) := bm_pow_queue_submit false (sp_queue (a_pipe s)) payload target (Some key) GETPUBKEY_USER in
    Ok (s <| a_pipe := (a_pipe s) <| sp_queue := q |> |>)
  else
    object ← build_object payload (solve payload target);
    Ok (s <| a_async := getpubkey_request_done cfg (a_async s) (Some object) |>).

(** The request that sendMessage makes for a recipient whose key is not cached. *)
Definition request_pubkey_if_unknown (e : api_env) (s : api_state) (to_address : list Z) : cres api_state :=
  match bm_address_decode to_address with
  | Ub => Ub
  | Err => Ok s
  | Ok (to_version, to_stream, to_ripe) =>
      match bm_pubkey_cache_lookup_by_ripe (sp_pubkeys (a_pipe s)) to_ripe with
      | Ub => Ub
      | Ok _ => Ok s
      | Err =>
          let now := en_time e 0 in
          recent ← bm_pubkey_cache_has_recent_request (sp_pubkeys (a_pipe s)) to_ripe now BM_GETPUBKEY_REQUEST_COOLDOWN_SECONDS;
          if (recent : bool) then Ok s else
          match bm_build_getpubkey to_version to_stream to_ripe (u64 (now + BM_GETPUBKEY_REQUEST_TTL_SECONDS)) with
          | Ub => Ub
          | Err => Ok s
          | Ok getpubkey_payload =>
              gp_target ← bm_pow_get_target (blen getpubkey_payload) BM_GETPUBKEY_REQUEST_TTL_SECONDS
                            BM_GETPUBKEY_NONCE_TRIALS_PER_BYTE BM_GETPUBKEY_PAYLOAD_LENGTH_EXTRA_BYTES;
              s ← submit_getpubkey s getpubkey_payload gp_target (71 :: to_ripe);
              Ok (with_pubkeys_of s (bm_pubkey_cache_record_request (sp_pubkeys (a_pipe s)) to_ripe to_version to_stream now))
          end
      end
  end.

(** From [send_slot_begin] to [send_slot_end] around a call of the send pipeline, whose calls
    of [done] on this thread reach the slot before it is ended. *)
Definition send_through_slot (e : api_env) (s : api_state) (fail_msg : list Z)
  (send : bool -> pipe_state -> Z -> cres (Z * pipe_state)) : cres (reply * api_state) :=
  a ← send_slot_begin (a_async s) (en_slot e);
  slot ← deref_slot a (en_slot e);
  '(rc, pipe) ← send (send_slot_queue cfg slot) (a_pipe s) (en_slot e);
  a ← deliver cfg a (new_reports (a_pipe s) pipe);
  '(r, a) ← send_slot_end a (en_slot e) rc fail_msg;
  let s := s <| a_pipe := pipe |> <| a_async := a |> in
  Ok (match r with
      | Send_failed error => Failed error
      | Send_pending p => Pending p
      | Send_sent object_len inv_hash =>
          Result (json_object [key_num "objectLength" object_len; key_str "inventoryHash" (hex_encode inv_hash)])
      end, s).

Definition SEND_FAILED : list Z :=
  cstr "send failed (is fromAddress unlocked? is toAddress valid? if the recipient's key was not yet cached, a getpubkey request was broadcast automatically; retry sendMessage once it has been received, or supply it directly via cachePubkey. Otherwise the PoW queue may be full)"%string.

Definition h_sendMessage (e : api_env) (params : option cJSON) (s : api_state) : cres (reply * api_state) :=
  match param_str params 0, param_str params 1, param_str params 2, param_str params 3 with
  | Some from_address, Some to_address, Some subject, Some body =>
      match check_subject_body_length subject body BM_MAX_SUBJECT_PLUS_BODY_LEN with
      | Some error => Ok (Failed error, s)
      | None =>
          s ← request_pubkey_if_unknown e s to_address;
          ttl_seconds ← number_or (param_at params 4) (2 * 24 * 60 * 60);
          ack_stealth_level ← (match param_at params 5 with Some v => to_int (json_num (Some v)) | None => Ok 1 end);
          let now := en_time e 1 in
          send_through_slot e s SEND_FAILED (fun queued pipe slot =>
            bm_send_pipeline_send_message_async g solve queued false (a_keyring s) (a_identities s) pipe from_address
              to_address subject body ttl_seconds ack_stealth_level None (now + BM_RESEND_INITIAL_INTERVAL_SECONDS)
              now slot (en_job e) (en_send e))
      end
  | _, _, _, _ =>
      fail "sendMessage requires [fromAddress, toAddress, subject, body, ttlSeconds?, ackStealthLevel?]. The recipient's public key is always resolved from pubkey_cache; register it first via cachePubkey if needed." s
  end.

Definition h_sendBroadcast (e : api_env) (params : option cJSON) (s : api_state) : cres (reply * api_state) :=
  match param_str params 0, param_str params 1, param_str params 2 with
  | Some from_address, Some subject, Some body =>
      match check_subject_body_length subject body BM_MAX_SUBJECT_PLUS_BODY_LEN with
      | Some error => Ok (Failed error, s)
      | None =>
          ttl_seconds ← number_or (param_at params 3) (2 * 24 * 60 * 60);
          send_through_slot e s (cstr "broadcast failed (is fromAddress unlocked? or the PoW queue may be full)"%string)
            (fun queued pipe slot =>
               bm_send_pipeline_send_broadcast_async solve queued false (a_keyring s) pipe from_address subject body
                 ttl_seconds (en_time e 0) slot (en_job e) (en_broadcast e))
      end
  | _, _, _ => fail "sendBroadcast requires [fromAddress, subject, body, ttlSeconds?]" s
  end.

(** ** Subscriptions and the address book *)

Definition check_known_address (address : list Z) : cres bool :=
  match bm_address_decode address with Ub => Ub | Err => Ok false | Ok _ => Ok true end.

Definition h_addSubscription (e : api_env) (params : option cJSON) (s : api_state) : cres (reply * api_state) :=
  match param_str params 0 with
  | None => fail "addSubscription requires [address, label?]" s
  | Some address =>
      known ← check_known_address address;
      if negb known then fail "invalid address" s else
      Ok (result_bool true,
          with_messages_of s (bm_messages_store_add_subscription (a_messages s) address (default [] (param_str params 1))))
  end.

Definition h_removeSubscription (e : api_env) (params : option cJSON) (s : api_state) : cres (reply * api_state) :=
  match param_str params 0 with
  | None => fail "removeSubscription requires [address]" s
  | Some address =>
      Ok (result_bool true, with_messages_of s (bm_messages_store_remove_subscription (a_messages s) address))
  end.

Definition labelled (l : list Z * list Z) : cJSON := json_object [key_str "address" l.1; key_str "label" l.2].

Definition h_listSubscriptions (e : api_env) (params : option cJSON) (s : api_state) : cres (reply * api_state) :=
  Ok (Result (json_array (map labelled (bm_messages_store_list_subscriptions (a_messages s)))), s).

Definition h_addAddressBookEntry (e : api_env) (params : option cJSON) (s : api_state) : cres (reply * api_state) :=
  match param_str params 0, param_str params 1 with
  | Some address, Some label =>
      known ← check_known_address address;
      if negb known then fail "invalid address" s else
      match bm_messages_store_add_address_book_entry (a_messages s) address label with
      | Ub => Ub
      | Err => fail "address already exists in address book" s
      | Ok m => Ok (result_bool true, with_messages_of s m)
      end
  | _, _ => fail "addAddressBookEntry requires [address, label]" s
  end.

Definition h_deleteAddressBookEntry (e : api_env) (params : option cJSON) (s : api_state) : cres (reply * api_state) :=
  match param_str params 0 with
  | None => fail "deleteAddressBookEntry requires [address]" s
  | Some address =>
      Ok (result_bool true, with_messages_of s (bm_messages_store_remove_address_book_entry (a_messages s) address))
  end.

Definition h_listAddressBookEntries (e : api_env) (params : option cJSON) (s : api_state) : cres (reply * api_state) :=
  Ok (Result (json_array (map labelled (bm_messages_store_list_address_book (a_messages s)))), s).

(** ** Settings and peers *)

Definition get_socks_proxy_common (getter : ConfigStore.config_db -> ConfigStore.bm_socks_proxy_config) (s : api_state)
  : cres (reply * api_state) :=
  match a_config s with
  | None => fail "config store is not available" s
  | Some db =>
      let proxy := getter db in
      Ok (Result (json_object
            [key_bool "enabled" (negb (ConfigStore.sp_enabled proxy =? 0)); key_str "host" (ConfigStore.sp_host proxy);
             key_num "port" (ConfigStore.sp_port proxy)]), s)
  end.

Definition set_socks_proxy_common
  (setter : ConfigStore.config_db -> ConfigStore.bm_socks_proxy_config -> ConfigStore.config_db) (usage_error : string)
  (params : option cJSON) (s : api_state) : cres (reply * api_state) :=
  match a_config s with
  | None => fail "config store is not available" s
  | Some db =>
      match param_at params 0, param_str params 1, param_at params 2 with
      | Some enabled_v, Some host, Some port_v =>
          let enabled := if SFeqb (json_num (Some enabled_v)) (S754_zero false) then 0 else 1 in
          if (blen host =? 0) || (blen host >=? ConfigStore.BM_SOCKS_HOST_SIZE)
          then fail "host must be non-empty and shorter than 256 bytes" s else
          port ← to_int (json_num (Some port_v));
          if (port <=? 0) || (port >? 65535) then fail "port must be between 1 and 65535" s else
          let db := setter db {| ConfigStore.sp_enabled := enabled; ConfigStore.sp_host := host;
                                 ConfigStore.sp_port := port |} in
          Ok (result_bool true, s <| a_config := Some db |>)
      | _, _, _ => fail usage_error s
      end
  end.

Definition h_getSocksProxyOnion (e : api_env) (params : option cJSON) (s : api_state) : cres (reply * api_state) :=
  get_socks_proxy_common ConfigStore.bm_config_store_get_socks_proxy_onion s.
Definition h_setSocksProxyOnion (e : api_env) (params : option cJSON) (s : api_state) : cres (reply * api_state) :=
  set_socks_proxy_common ConfigStore.bm_config_store_set_socks_proxy_onion
    "setSocksProxyOnion requires [enabled, host, port]" params s.
Definition h_getSocksProxyClearnet (e : api_env) (params : option cJSON) (s : api_state) : cres (reply * api_state) :=
  get_socks_proxy_common ConfigStore.bm_config_store_get_socks_proxy_clearnet s.
Definition h_setSocksProxyClearnet (e : api_env) (params : option cJSON) (s : api_state) : cres (reply * api_state) :=
  set_socks_proxy_common ConfigStore.bm_config_store_set_socks_proxy_clearnet
    "setSocksProxyClearnet requires [enabled, host, port]" params s.

Definition h_addPeer (e : api_env) (params : option cJSON) (s : api_state) : cres (reply * api_state) :=
  match a_peers s with
  | None => fail "peer store is not available" s
  | Some db =>
      match param_str params 0, param_at params 1 with
      | Some ip_address, Some port_v =>
          if (blen ip_address =? 0) || (blen ip_address >=? 64)
          then fail "ipAddress must be non-empty and shorter than 64 bytes" s else
          port ← to_int (json_num (Some port_v));
          if (port <=? 0) || (port >? 65535) then fail "port must be between 1 and 65535" s else
          stream ← (match param_at params 2 with Some v => to_int (json_num (Some v)) | None => Ok 1 end);
          Ok (result_bool true,
              s <| a_peers := Some (bm_peer_manager_upsert_learned db ip_address port stream 1 (en_time e 0)
                                      (cstr "manual"%string)) |>)
      | _, _ => fail "addPeer requires [ipAddress, port, stream?]" s
      end
  end.

(** The two arrays, with a connection added to one of them. *)
Definition list_connections_one (heap : conn_heap) (p : Z) (ctx : cJSON * cJSON) : cres (cJSON * cJSON) :=
  conn ← deref heap p;
  if bool_decide (c_type conn = BM_FD_LISTEN_SOCKET) then Ok ctx else
  let '(ip, port) := bm_network_resolve_peer_ip_port conn Network.BM_PEER_IP_STRLEN in
  let entry :=
    json_object
      [key_str "host" ip; key_num "port" port; key_num "fd" (c_fd conn);
       key_bool "fullyEstablished" (c_handshake_complete conn);
       key_str "userAgent" (default [] (c_user_agent conn));
       key_num "sentBytes" (bytes_sent (c_send conn)); key_num "receivedBytes" (c_bytes_received conn)] in
  let '(inbound, outbound) := ctx in
  Ok (if bool_decide (c_type conn = BM_FD_SERVER_SOCKET) then (cJSON_AddItemToArray inbound entry, outbound)
      else (inbound, cJSON_AddItemToArray outbound entry)).

Definition h_listConnections (e : api_env) (params : option cJSON) (s : api_state) : cres (reply * api_state) :=
  match a_registry s with
  | None => fail "connection registry is not available" s
  | Some (reg, heap) =>
      '(inbound, outbound) ← bm_peer_registry_for_each_locked reg (list_connections_one heap)
                               (cJSON_CreateArray, cJSON_CreateArray);
      Ok (Result (json_object [(cstr "inbound"%string, inbound); (cstr "outbound"%string, outbound)]), s)
  end.

Definition h_getNetworkStats (e : api_env) (params : option cJSON) (s : api_state) : cres (reply * api_state) :=
  Ok (Result (json_object [key_num "sentBytes" (en_stats e).1; key_num "receivedBytes" (en_stats e).2]), s).

(** ** Messages *)

Definition inbox_entry (m : bm_inbox_message) : cJSON :=
  json_object
    [key_str "msgId" (hex_encode (im_msg_id m)); key_str "toAddress" (im_to_address m);
     key_str "fromAddress" (im_from_address m); key_str "subject" (im_subject m); key_str "body" (im_body m);
     key_num "receivedTime" (im_received_time m); key_bool "read" (negb (im_read m =? 0));
     key_str "folder" (im_folder m)].

Definition h_getInboxMessages (e : api_env) (params : option cJSON) (s : api_state) : cres (reply * api_state) :=
  Ok (Result (json_array (map inbox_entry (bm_messages_store_list_inbox (a_messages s) (param_str params 0)))), s).

Definition sent_entry (m : bm_sent_message) : cJSON :=
  json_object
    [key_str "msgId" (hex_encode (sm_msg_id m)); key_str "toAddress" (sm_to_address m);
     key_str "fromAddress" (sm_from_address m); key_str "subject" (sm_subject m); key_str "body" (sm_body m);
     key_str "status" (sm_status m); key_num "sentTime" (sm_sent_time m); key_num "ttl" (sm_ttl m);
     key_num "resendCount" (sm_resend_count m)].

Definition h_getSentMessages (e : api_env) (params : option cJSON) (s : api_state) : cres (reply * api_state) :=
  Ok (Result (json_array (map sent_entry (bm_messages_store_list_sent (a_messages s)))), s).

Definition h_trashMessage (e : api_env) (params : option cJSON) (s : api_state) : cres (reply * api_state) :=
  match param_str params 0 with
  | None => fail "trashMessage requires [msgId]" s
  | Some msg_id_hex =>
      match hex_decode_fixed msg_id_hex 32 with
      | Ub => Ub
      | Err => fail "msgId must be a 64-character hex string" s
      | Ok msg_id =>
          let m := bm_messages_store_trash_inbox_message (a_messages s) msg_id in
          Ok (result_bool true, with_messages_of s (bm_messages_store_trash_sent_message m msg_id))
      end
  end.
End Handlers.

(** ** Conversions of numbers *)

(** A port that [int] cannot hold is undefined before its range is looked at. *)
Lemma addPeer_port_undefined `{CJ : CJson} e params s db ip port_v :
  a_peers s = Some db -> param_str params 0 = Some ip -> 0 < blen ip < 64 ->
  param_at params 1 = Some port_v -> cJSON_IsNumber port_v = true -> valuedouble port_v = of_integer (10 ^ 10) ->
  h_addPeer e params s = Ub.
Proof.
  intros Hdb Hip Hl Hp Hn Hd. unfold h_addPeer. rewrite Hdb, Hip, Hp. zdec. cbn [orb]. unfold json_num. by rewrite Hn, Hd.
Qed.
