(* ===== verification/ApiRpc.v ===== *)
(** * The API server: JSON-RPC and HTTP (core/api_server.c)

    The dispatch of requests and batches, the answers of requests that wait for proofs of
    work, and the handler that libmicrohttpd calls.  An answer is a response with its id and
    its body; the tree of a body that waits is made when its slot is settled. *)

From Stdlib Require Import String Ascii SpecFloat.
From stdpp Require Import base tactics numbers option gmap list relations.
From S2P Require Import Prelude Queue Varint Json Base58 Openssl Hash Address Object Sql ObjectStore MessagesStore.
From S2P Require Import Protocol Crypto MessageBuilder IdentityStore Keyring TrialDecrypt BroadcastDecrypt PubkeyCache.
From S2P Require Import Pow PowQueue SendPipeline Dandelion PeerManager Network PeerRegistry EventLoop ObjectSync Config.
From S2P Require Import Api ApiHandlers.

Definition MAX_REQUEST_SIZE : Z := 1 * 1024 * 1024.
Definition BM_JSONRPC_ERR_PARSE : Z := -32700.
Definition BM_JSONRPC_ERR_INVALID_REQUEST : Z := -32600.
Definition BM_JSONRPC_ERR_METHOD_NOT_FOUND : Z := -32601.
Definition BM_JSONRPC_ERR_SERVER : Z := -32000.
Definition BM_JSONRPC_MAX_BATCH_SIZE : Z := 256.

(** ** Waiting requests *)

(** [calloc] of the state of a request, which becomes [current_async_state]. *)
Definition async_begin (a : api_async) (sp : Z) : api_async :=
  a <| sv_states := <[sp := {| as_outstanding := 0; as_suspended := false; as_connection := None; as_slots := [] |}]>
                      (sv_states a) |>
    <| sv_current := Some sp |>.

(** After the body was processed: whether the connection is suspended. *)
Definition async_processed (a : api_async) (sp connection : Z) : cres (bool * api_async) :=
  let a := a <| sv_current := None |> in
  st ← deref_state a sp;
  if as_outstanding st >? 0 then
    Ok (true, a <| sv_states := <[sp := st <| as_suspended := true |> <| as_connection := Some connection |>]> (sv_states a) |>
                <| sv_suspended_connections := sv_suspended_connections a + 1 |>)
  else Ok (false, a).

(** The start of [finish_async_response]. *)
Definition async_resumed (a : api_async) (sp : Z) : cres api_async :=
  st ← deref_state a sp;
  if as_suspended st then
    Ok (a <| sv_states := <[sp := st <| as_suspended := false |>]> (sv_states a) |>
          <| sv_suspended_connections := sv_suspended_connections a - 1 |>)
  else Ok a.

(** [free] of each slot; freeing what is not allocated is undefined. *)
Fixpoint free_slots (slots : gmap Z api_send_slot) (ps : list Z) : cres (gmap Z api_send_slot) :=
  match ps with
  | [] => Ok slots
  | p :: ps => match slots !! p with Some _ => free_slots (delete p slots) ps | None => Ub end
  end.

Definition api_async_state_free (a : api_async) (sp : Z) : cres api_async :=
  st ← deref_state a sp;
  slots ← free_slots (sv_slots a) (as_slots st);
  Ok (a <| sv_slots := slots |> <| sv_states := delete sp (sv_states a) |>).

(** ** JSON-RPC *)

Section Rpc.
Context `{OS : OpenSSL} `{OSV : OpenSSLVault} `{BN : BigNum} `{INP : InetNtop} `{CJ : CJson}.
Context (g : protocol_globals) (solve : list Z -> Z -> Z) (cfg : bm_api_server_config).

Abbreviation handler := (api_env -> option cJSON -> api_state -> cres (reply * api_state)).

Definition METHODS : list (list Z * handler) :=
  [(cstr "unlockAddress", h_unlockAddress); (cstr "unlockAllAddresses", h_unlockAllAddresses);
   (cstr "unlockAddresses", h_unlockAddresses); (cstr "exportAddress", h_exportAddress);
   (cstr "lockAddress", h_lockAddress); (cstr "lockAllAddresses", h_lockAllAddresses);
   (cstr "deleteAddress", h_deleteAddress); (cstr "convertAddressToV4", h_convertAddressToV4);
   (cstr "convertV3AddressesToV4", h_convertV3AddressesToV4); (cstr "listAddresses", h_listAddresses);
   (cstr "createDeterministicAddress", h_createDeterministicAddress cfg); (cstr "setAddressLabel", h_setAddressLabel);
   (cstr "importAddress", h_importAddress cfg); (cstr "importAddressesBulk", h_importAddressesBulk cfg);
   (cstr "joinChan", h_joinChan cfg); (cstr "cachePubkey", h_cachePubkey);
   (cstr "sendMessage", h_sendMessage g solve cfg); (cstr "sendBroadcast", h_sendBroadcast solve cfg);
   (cstr "getInboxMessages", h_getInboxMessages); (cstr "getSentMessages", h_getSentMessages);
   (cstr "trashMessage", h_trashMessage); (cstr "addSubscription", h_addSubscription);
   (cstr "removeSubscription", h_removeSubscription); (cstr "listSubscriptions", h_listSubscriptions);
   (cstr "addAddressBookEntry", h_addAddressBookEntry); (cstr "deleteAddressBookEntry", h_deleteAddressBookEntry);
   (cstr "listAddressBookEntries", h_listAddressBookEntries); (cstr "getSocksProxyOnion", h_getSocksProxyOnion);
   (cstr "setSocksProxyOnion", h_setSocksProxyOnion); (cstr "getSocksProxyClearnet", h_getSocksProxyClearnet);
   (cstr "setSocksProxyClearnet", h_setSocksProxyClearnet); (cstr "addPeer", h_addPeer);
   (cstr "listConnections", h_listConnections); (cstr "getNetworkStats", h_getNetworkStats)]%string.

Fixpoint find_method (methods : list (list Z * handler)) (name : list Z) : option handler :=
  match methods with
  | [] => None
  | (n, h) :: methods => if list_eqb n name then Some h else find_method methods name
  end.

Inductive rpc_body :=
| Body_error (code : Z) (message : list Z)
| Body_result (result : cJSON)
| Body_pending (slot : Z).

Record rpc_response := { rs_id : cJSON; rs_body : rpc_body }.

(** The id that [build_response] gives: strings and numbers as they are, else null. *)
Definition response_id (id : option cJSON) : cJSON :=
  match id with
  | Some v => if cJSON_IsString v || cJSON_IsNumber v then v else cJSON_CreateNull
  | None => cJSON_CreateNull
  end.

Definition rpc_error (id : option cJSON) (code : Z) (message : string) : rpc_response :=
  {| rs_id := response_id id; rs_body := Body_error code (cstr message) |}.

Definition reply_body (r : reply) : rpc_body :=
  match r with
  | Result v => Body_result v
  | Pending p => Body_pending p
  | Failed error => Body_error BM_JSONRPC_ERR_SERVER error
  end.

Definition process_one_request (e : api_env) (req : cJSON) (s : api_state)
  : cres (option rpc_response * api_state) :=
  if negb (cJSON_IsObject req)
  then Ok (Some (rpc_error None BM_JSONRPC_ERR_INVALID_REQUEST "Invalid request: not a JSON object"), s) else
  let id := json_obj_get (Some req) (cstr "id"%string) in
  let answer r := match id with Some _ => Some r | None => None end in
  match json_cstr (json_obj_get (Some req) (cstr "method"%string)) with
  | None => Ok (answer (rpc_error id BM_JSONRPC_ERR_INVALID_REQUEST "Invalid request: missing method"), s)
  | Some method =>
      match find_method METHODS method with
      | Some handler =>
          '(r, s) ← handler e (json_obj_get (Some req) (cstr "params"%string)) s;
          Ok (answer {| rs_id := response_id id; rs_body := reply_body r |}, s)
      | None => Ok (answer (rpc_error id BM_JSONRPC_ERR_METHOD_NOT_FOUND "Method not found"), s)
      end
  end.

(** The requests of a batch in turn, with the surroundings of each. *)
Fixpoint process_batch (e : nat -> api_env) (i : nat) (reqs : list cJSON) (s : api_state)
  : cres (list rpc_response * api_state) :=
  match reqs with
  | [] => Ok ([], s)
  | req :: reqs =>
      '(resp, s) ← process_one_request (e i) req s;
      '(responses, s) ← process_batch e (S i) reqs s;
      Ok (match resp with Some r => r :: responses | None => responses end, s)
  end.

Inductive rpc_answer :=
| No_answer
| Answer (r : rpc_response)
| Answers (rs : list rpc_response).

Definition process_jsonrpc_request (e : nat -> api_env) (body : list Z) (s : api_state)
  : cres (rpc_answer * api_state) :=
  match cJSON_ParseWithLength body with
  | None => Ok (Answer (rpc_error None BM_JSONRPC_ERR_PARSE "Parse error: invalid JSON"), s)
  | Some root =>
      if negb (cJSON_IsArray root) then
        '(resp, s) ← process_one_request (e 0%nat) root s;
        Ok (match resp with Some r => Answer r | None => No_answer end, s)
      else
        let count := Z.of_nat (length (children root)) in
        if count =? 0
        then Ok (Answer (rpc_error None BM_JSONRPC_ERR_INVALID_REQUEST "Invalid request: empty batch"), s) else
        if count >? BM_JSONRPC_MAX_BATCH_SIZE
        then Ok (Answer {| rs_id := cJSON_CreateNull;
                           rs_body := Body_error BM_JSONRPC_ERR_INVALID_REQUEST
                             (cstr "Invalid request: batch too large (max "%string
                              ++ fmt_lld BM_JSONRPC_MAX_BATCH_SIZE ++ cstr " requests)"%string) |}, s) else
        '(responses, s) ← process_batch e 0 (children root) s;
        Ok (match responses with [] => No_answer | _ => Answers responses end, s)
  end.

(** ** The tree of an answer *)

Definition error_object (code : Z) (message : list Z) : cJSON :=
  json_object [key_num "code" code; key_str "message" message].

Definition send_result (object_len : Z) (inv_hash : list Z) : cJSON :=
  json_object [key_num "objectLength" object_len; key_str "inventoryHash" (hex_encode inv_hash)].

(** The response object; the error that replaces the result of a failed send comes last. *)
Definition response_tree (slots : gmap Z api_send_slot) (r : rpc_response) : cres cJSON :=
  let head := key_str "jsonrpc" (cstr "2.0"%string) in
  let id := (cstr "id"%string, rs_id r) in
  match rs_body r with
  | Body_error code message => Ok (json_object [head; (cstr "error"%string, error_object code message); id])
  | Body_result result => Ok (json_object [head; (cstr "result"%string, result); id])
  | Body_pending p =>
      match slots !! p with
      | None => Ub
      | Some slot =>
          Ok (if sl_rc slot =? 0
              then json_object [head; (cstr "result"%string, send_result (sl_object_len slot) (sl_inv_hash slot)); id]
              else json_object [head; id; (cstr "error"%string,
                                           error_object BM_JSONRPC_ERR_SERVER BM_API_SEND_FAILED_AFTER_QUEUED)])
      end
  end.

Fixpoint response_trees (slots : gmap Z api_send_slot) (rs : list rpc_response) : cres (list cJSON) :=
  match rs with
  | [] => Ok []
  | r :: rs => t ← response_tree slots r; ts ← response_trees slots rs; Ok (t :: ts)
  end.

Definition answer_tree (slots : gmap Z api_send_slot) (a : rpc_answer) : cres (option cJSON) :=
  match a with
  | No_answer => Ok None
  | Answer r => t ← response_tree slots r; Ok (Some t)
  | Answers rs => ts ← response_trees slots rs; Ok (Some (json_array ts))
  end.

(** ** HTTP *)

(** What is queued on a connection: the status, the content type and the text; 401 with the
    challenge of the library; [Refused]: MHD_NO, the connection is closed. *)
Inductive http_reply :=
| Http_reply (status : Z) (content_type : option (list Z)) (text : list Z)
| Http_unauthorized
| Http_refused.

(** A line of text. *)
Definition queue_text_response (status : Z) (body : string) : http_reply :=
  Http_reply status (Some (cstr "text/plain"%string)) (cstr body ++ [10]).

Definition queue_jsonrpc_response (tree : option cJSON) : http_reply :=
  match tree with
  | None => Http_reply 204 None []
  | Some tree =>
      match cJSON_PrintUnformatted tree with
      | None => Http_refused
      | Some text => Http_reply 200 (Some (cstr "application/json"%string)) text
      end
  end.

Definition check_basic_auth (info : option (list Z * option (list Z))) : cres bool :=
  match username cfg with
  | None => Ok true
  | Some expected_username =>
      match info with
      | None => Ok false
      | Some (name, pass) =>
          ok_name ← constant_time_equal name expected_username;
          ok_pass ← constant_time_equal (default [] pass) (default [] (password cfg));
          Ok (ok_name && ok_pass)
      end
  end.

(** The request as it was received so far; [rq_block]: the block of [body_cap] bytes. *)
Record api_request_ctx := {
  rq_block : list Z;
  rq_body_len : Z;
  rq_body_cap : Z;
  rq_too_large : bool;
  rq_async : option Z;
  rq_tree : rpc_answer
}.
#[export] Instance api_request_ctx_eta : RecordEta api_request_ctx := fun c =>
  Build_api_request_ctx (rq_block c) (rq_body_len c) (rq_body_cap c) (rq_too_large c) (rq_async c) (rq_tree c).

Definition new_request_ctx : api_request_ctx :=
  {| rq_block := []; rq_body_len := 0; rq_body_cap := 0; rq_too_large := false; rq_async := None;
     rq_tree := No_answer |}.

(** A piece of the body. *)
Definition body_append (ctx : api_request_ctx) (upload : list Z) : cres api_request_ctx :=
  let chunk := blen upload in
  if rq_too_large ctx || (rq_body_len ctx + chunk >? MAX_REQUEST_SIZE) then Ok (ctx <| rq_too_large := true |>) else
  ctx ← (if rq_body_len ctx + chunk + 1 >? rq_body_cap ctx then
           let cap := if rq_body_cap ctx =? 0 then 4096 else rq_body_cap ctx in
           new_cap ← double_until (Z.to_nat MAX_REQUEST_SIZE) cap (rq_body_len ctx + chunk + 1);
           Ok (ctx <| rq_block := rq_block ctx ++ malloc (new_cap - rq_body_cap ctx) |> <| rq_body_cap := new_cap |>)
         else Ok ctx);
  block ← wr (rq_block ctx) (rq_body_len ctx) upload;
  Ok (ctx <| rq_block := block |> <| rq_body_len := rq_body_len ctx + chunk |>).

(** What libmicrohttpd is told: a response was queued; go on; the connection is suspended. *)
Inductive access_result := Queued (r : http_reply) | Go_on | Suspended.

Definition finish_async_response (s : api_state) (sp : Z) (tree : rpc_answer) : cres (http_reply * api_state) :=
  a ← async_resumed (a_async s) sp;
  t ← answer_tree (sv_slots a) tree;
  Ok (queue_jsonrpc_response t, s <| a_async := a |>).

(** The end of [api_access_handler]: the body is processed, and answered unless it has to wait. *)
Definition respond (e : nat -> api_env) (sp connection : Z) (body : list Z) (ctx : api_request_ctx) (s : api_state)
  : cres (access_result * option api_request_ctx * api_state) :=
  '(tree, s) ← process_jsonrpc_request e body (s <| a_async := async_begin (a_async s) sp |>);
  '(suspended, a) ← async_processed (a_async s) sp connection;
  let s := s <| a_async := a |> in
  let ctx := ctx <| rq_tree := tree |> <| rq_async := Some sp |> in
  if (suspended : bool) then Ok (Suspended, Some ctx, s) else
  '(r, s) ← finish_async_response s sp tree;
  Ok (Queued r, Some (ctx <| rq_tree := No_answer |>), s).

(** [info]: the credentials of the request; [upload]: [upload_data]; [sp]: the address of a new
    state. *)
Definition api_access_handler (e : nat -> api_env) (sp : Z) (method : list Z) (info : option (list Z * option (list Z)))
  (connection : Z) (upload : list Z) (req_cls : option api_request_ctx) (s : api_state)
  : cres (access_result * option api_request_ctx * api_state) :=
  match req_cls with
  | None =>
      if negb (list_eqb method (cstr "POST"%string)) then Ok (Queued (queue_text_response 405 "POST only"), None, s) else
      ok ← check_basic_auth info;
      if negb ok then Ok (Queued Http_unauthorized, None, s) else
      Ok (Go_on, Some new_request_ctx, s)
  | Some ctx =>
      if blen upload >? 0 then
        ctx ← body_append ctx upload;
        Ok (Go_on, Some ctx, s)
      else
        match rq_async ctx with
        | Some sp =>
            '(r, s) ← finish_async_response s sp (rq_tree ctx);
            Ok (Queued r, Some (ctx <| rq_tree := No_answer |>), s)
        | None =>
            if rq_too_large ctx then Ok (Queued (queue_text_response 413 "request body too large"), Some ctx, s) else
            body ← rdn (rq_block ctx) 0 (rq_body_len ctx);
            respond e sp connection body ctx s
        end
  end.

Definition api_request_completed (req_cls : option api_request_ctx) (s : api_state) : cres api_state :=
  match req_cls ≫= rq_async with
  | None => Ok s
  | Some sp => a ← api_async_state_free (a_async s) sp; Ok (s <| a_async := a |>)
  end.

(** The calls for one request: the headers, the pieces of the body, and the end of the body,
    until something is queued. *)
Fixpoint feed (e : nat -> api_env) (sp : Z) (method : list Z) (info : option (list Z * option (list Z))) (connection : Z)
  (pieces : list (list Z)) (ctx : option api_request_ctx) (s : api_state)
  : cres (access_result * option api_request_ctx * api_state) :=
  match pieces with
  | [] => api_access_handler e sp method info connection [] ctx s
  | p :: pieces =>
      '(r, ctx, s) ← api_access_handler e sp method info connection p ctx s;
      match r with
      | Go_on => feed e sp method info connection pieces ctx s
      | _ => Ok (r, ctx, s)
      end
  end.

Definition serve_request (e : nat -> api_env) (sp : Z) (method : list Z) (info : option (list Z * option (list Z)))
  (connection : Z) (pieces : list (list Z)) (s : api_state)
  : cres (access_result * option api_request_ctx * api_state) :=
  '(r, ctx, s) ← api_access_handler e sp method info connection [] None s;
  match r with
  | Go_on => feed e sp method info connection pieces ctx s
  | _ => Ok (r, ctx, s)
  end.
End Rpc.

(** ** Lemmas *)

Lemma constant_time_equal_spec a b : bytes_ok a -> bytes_ok b -> constant_time_equal a b = Ok (list_eqb a b).
Proof.
  intros Ha Hb. unfold constant_time_equal. destruct (Z.eqb_spec (blen a) (blen b)) as [El|Nl]; cbn [negb].
  - destruct (ct_diff_spec [] [] a b 0 (length a) 0) as (d & E & _ & Hz); try done; [unfold blen in El; lia|].
    rewrite !app_nil_l in E. rewrite E, bind_ok. f_equal. apply eq_bool_prop_intro.
    rewrite !Is_true_true, Z.eqb_eq, list_eqb_eq, Hz. naive_solver.
  - f_equal. symmetry. apply not_true_iff_false. rewrite list_eqb_eq. by intros ->.
Qed.

Section RpcLemmas.
Context `{OS : OpenSSL} `{OSV : OpenSSLVault} `{BN : BigNum} `{INP : InetNtop} `{CJ : CJson}.
Context (g : protocol_globals) (solve : list Z -> Z -> Z) (cfg : bm_api_server_config).

(** The credentials are those of the configuration. *)
Definition authorised (info : option (list Z * option (list Z))) : bool :=
  match username cfg with
  | None => true
  | Some u =>
      match info with
      | None => false
      | Some (name, pass) => list_eqb name u && list_eqb (default [] pass) (default [] (password cfg))
      end
  end.

Definition credentials_ok (info : option (list Z * option (list Z))) : Prop :=
  from_option bytes_ok True (username cfg) /\ bytes_ok (default [] (password cfg))
  /\ (forall name pass, info = Some (name, pass) -> bytes_ok name /\ bytes_ok (default [] pass)).

Lemma check_basic_auth_spec info : credentials_ok info -> check_basic_auth cfg info = Ok (authorised info).
Proof.
  intros (Hu & Hp & Hi). unfold check_basic_auth, authorised. destruct (username cfg) as [u|]; [|done].
  destruct info as [[name pass]|]; [|done]. destruct (Hi _ _ eq_refl) as [Hn Hq].
  by rewrite !constant_time_equal_spec.
Qed.

(** The context has received [body]. *)
Definition received (ctx : api_request_ctx) (body : list Z) : Prop :=
  rq_too_large ctx = false /\ rq_async ctx = None /\ rq_body_len ctx = blen body
  /\ rq_body_cap ctx = blen (rq_block ctx) /\ blen body <= MAX_REQUEST_SIZE
  /\ (rq_body_cap ctx = 0 \/ 4096 <= rq_body_cap ctx) /\ exists rest, rq_block ctx = body ++ malloc rest.

Lemma received_new : received new_request_ctx [].
Proof. split_and!; try done; [by left|]. by exists 0. Qed.

Lemma body_append_received ctx body upload :
  received ctx body -> 0 < blen upload -> blen body + blen upload <= MAX_REQUEST_SIZE ->
  exists ctx', body_append ctx upload = Ok ctx' /\ received ctx' (body ++ upload).
Proof.
  intros (Ht & Ha & Hl & Hc & _ & Hcap & rest & Hb) Hu Hm. pose proof (blen_nonneg body).
  unfold body_append. rewrite Ht, Hl. zdec. cbn [orb].
  assert (Hgrow : exists block,
    (if rq_body_cap ctx <? blen body + blen upload + 1
     then new_cap ← double_until (Z.to_nat MAX_REQUEST_SIZE) (if rq_body_cap ctx =? 0 then 4096 else rq_body_cap ctx)
                      (blen body + blen upload + 1);
          Ok (ctx <| rq_block := rq_block ctx ++ malloc (new_cap - rq_body_cap ctx) |> <| rq_body_cap := new_cap |>)
     else Ok ctx) = Ok (ctx <| rq_block := block |> <| rq_body_cap := blen block |>)
    /\ blen body + blen upload < blen block /\ 4096 <= blen block /\ exists rest, block = body ++ malloc rest).
  { destruct (Z.ltb_spec (rq_body_cap ctx) (blen body + blen upload + 1)).
    - set (cap := if _ =? 0 then 4096 else _).
      assert (Hcap' : 4096 <= cap /\ rq_body_cap ctx <= cap).
      { unfold cap. destruct (Z.eqb_spec (rq_body_cap ctx) 0); lia. }
      destruct (double_until_spec (Z.to_nat MAX_REQUEST_SIZE) cap (blen body + blen upload + 1)) as (c & -> & H1 & H2);
        [lia|unfold MAX_REQUEST_SIZE in *; lia|].
      rewrite bind_ok. exists (rq_block ctx ++ malloc (c - rq_body_cap ctx)).
      assert (Hbl : blen (rq_block ctx ++ malloc (c - rq_body_cap ctx)) = c)
        by (rewrite blen_app, blen_malloc by lia; lia).
      rewrite Hbl. split_and!; [done|lia|lia|].
      assert (0 <= rest \/ rest < 0) as [Hr|Hr] by lia.
      + exists (rest + (c - rq_body_cap ctx)). by rewrite Hb, <- app_assoc, malloc_app by lia.
      + exists (c - rq_body_cap ctx). rewrite Hb, (malloc_nil rest) by lia. by rewrite app_nil_r.
    - exists (rq_block ctx). split_and!; [|lia|lia|by exists rest]. by rewrite <- Hc; destruct ctx. }
  destruct Hgrow as (block & -> & H1 & H2 & rest' & ->). rewrite bind_ok. cbn [rq_block update_field].
  assert (Hr : 0 <= rest').
  { destruct (Z.le_gt_cases 0 rest'); [done|]. rewrite (malloc_nil rest'), app_nil_r in H1 by lia. lia. }
  rewrite blen_app, blen_malloc in H1, H2 by lia. cbn. rewrite wr_malloc, bind_ok by lia.
  eexists. split; [reflexivity|]. split_and!; cbn; try done; rewrite ?blen_app, ?blen_malloc by lia; try lia.
  by exists (rest' - blen upload).
Qed.

Lemma body_append_full ctx upload :
  rq_too_large ctx = true \/ MAX_REQUEST_SIZE < rq_body_len ctx + blen upload ->
  body_append ctx upload = Ok (ctx <| rq_too_large := true |>).
Proof.
  intros H. unfold body_append. destruct (rq_too_large ctx); [done|]. destruct H; [done|]. by zdec.
Qed.

Lemma feed_full e sp method info connection pieces ctx s :
  Forall (fun p => 0 < blen p) pieces -> rq_too_large ctx = true -> rq_async ctx = None ->
  feed g solve cfg e sp method info connection pieces (Some ctx) s
  = Ok (Queued (queue_text_response 413 "request body too large"), Some ctx, s).
Proof.
  intros Hp Ht Ha. induction Hp as [|p pieces Hp _ IH]; cbn [feed api_access_handler].
  - change (blen [] >? 0) with false. by rewrite Ha, Ht.
  - zdec. rewrite body_append_full, bind_ok by (by left). cbn.
    replace (ctx <| rq_too_large := true |>) with ctx by (destruct ctx; cbn in *; by subst). exact IH.
Qed.

Lemma feed_body e sp method info connection pieces ctx s body :
  Forall (fun p => 0 < blen p) pieces -> received ctx body ->
  exists ctx',
    feed g solve cfg e sp method info connection pieces (Some ctx) s
    = if blen body + blen (concat pieces) >? MAX_REQUEST_SIZE
      then Ok (Queued (queue_text_response 413 "request body too large"), Some ctx', s)
      else respond g solve cfg e sp connection (body ++ concat pieces) ctx' s.
Proof.
  intros Hp. revert ctx body. induction Hp as [|p pieces Hp Hps IH]; intros ctx body Hr.
  - exists ctx. pose proof Hr as (Ht & Ha & Hl & Hc & Hm & _ & rest & Hb).
    cbn [feed api_access_handler concat]. change (blen [] >? 0) with false. change (blen (@nil Z)) with 0.
    rewrite Ha, Ht, app_nil_r. zdec. by rewrite Hl, Hb, rdn_prefix, bind_ok.
  - pose proof Hr as (Ht & Ha & Hl & _). cbn [feed api_access_handler concat]. zdec. rewrite blen_app.
    pose proof (blen_nonneg (concat pieces)).
    destruct (Z.le_gt_cases (blen body + blen p) MAX_REQUEST_SIZE) as [Hm|Hm].
    + destruct (body_append_received _ _ _ Hr Hp Hm) as (ctx1 & -> & Hr1). rewrite bind_ok. cbn.
      destruct (IH ctx1 (body ++ p) Hr1) as (ctx' & E). exists ctx'.
      by rewrite E, blen_app, <- app_assoc, Z.gtb_ltb, Z.add_assoc.
    + rewrite body_append_full, bind_ok by (right; lia). cbn. zdec. eexists. by rewrite feed_full.
Qed.
End RpcLemmas.

(** ** Properties *)

Section RpcProperties.
Context `{OS : OpenSSL} `{OSV : OpenSSLVault} `{BN : BigNum} `{INP : InetNtop} `{CJ : CJson}.
Context (g : protocol_globals) (solve : list Z -> Z -> Z) (cfg : bm_api_server_config).

(** C26: Who gets through to the methods.  However the body is cut into pieces: a request that is
    no POST, one without exactly the configured credentials, and one of more than a megabyte are
    answered with 405, 401 and 413 and nothing of the node changes; any other is processed
    once, with the whole body as it was sent, and the buffer it was collected in is never left. *)
Theorem request_admitted (e : nat -> api_env) (sp : Z) (method : list Z) (info : option (list Z * option (list Z)))
  (connection : Z) (pieces : list (list Z)) (s : api_state) :
  credentials_ok cfg info -> Forall (fun p => 0 < blen p) pieces ->
  exists ctx,
    serve_request g solve cfg e sp method info connection pieces s
    = if negb (list_eqb method (cstr "POST"%string))
      then Ok (Queued (queue_text_response 405 "POST only"), None, s)
      else if negb (authorised cfg info) then Ok (Queued Http_unauthorized, None, s)
      else if blen (concat pieces) >? MAX_REQUEST_SIZE
      then Ok (Queued (queue_text_response 413 "request body too large"), Some ctx, s)
      else respond g solve cfg e sp connection (concat pieces) ctx s.
Proof.
  intros Hc Hp.
  destruct (feed_body g solve cfg e sp method info connection pieces new_request_ctx s [] Hp received_new) as (ctx & E).
  exists ctx. unfold serve_request. cbn [api_access_handler].
  destruct (list_eqb method (cstr "POST"%string)); cbn [negb]; [|by rewrite bind_ok].
  rewrite check_basic_auth_spec, bind_ok by done. destruct (authorised cfg info); cbn [negb]; by rewrite bind_ok.
Qed.

(** The id under which a request is answered; [None]: a notification. *)
Definition answer_id (req : cJSON) : option cJSON :=
  if cJSON_IsObject req
  then (fun id => response_id (Some id)) <$> cJSON_GetObjectItemCaseSensitive req (cstr "id"%string)
  else Some cJSON_CreateNull.

Lemma one_request_id e req s r s' :
  process_one_request g solve cfg e req s = Ok (r, s') -> rs_id <$> r = answer_id req.
Proof.
  unfold process_one_request, answer_id, json_obj_get. destruct (cJSON_IsObject req); cbn [negb]; [|by intros [= <- <-]].
  cbn [mbind option_bind]. destruct (json_cstr _) as [method|].
  - destruct (find_method _ method) as [h|].
    + intros H. apply bind_ok_inv in H as ([r1 s1] & _ & H). injection H as <- <-.
      by destruct (cJSON_GetObjectItemCaseSensitive req _).
    + intros [= <- <-]. by destruct (cJSON_GetObjectItemCaseSensitive req _).
  - intros [= <- <-]. by destruct (cJSON_GetObjectItemCaseSensitive req _).
Qed.

Lemma batch_ids e i reqs s rs s' :
  process_batch g solve cfg e i reqs s = Ok (rs, s') -> map rs_id rs = omap answer_id reqs.
Proof.
  revert i s rs s'. induction reqs as [|req reqs IH]; intros i s rs s' H; cbn [process_batch] in H.
  - by injection H as <- <-.
  - apply bind_ok_inv in H as ([r s1] & H1 & H). apply bind_ok_inv in H as ([rs1 s2] & H2 & H).
    injection H as <- <-. apply one_request_id in H1. apply IH in H2. cbn [omap list_omap]. rewrite <- H1, <- H2.
    by destruct r.
Qed.

(** C27: What is answered to a body, of whatever methods.  Text that is no JSON, an empty batch and
    one of more than 256 requests get one error with a null id, and nothing is called.  A
    request gets one response with its id, none if it has no id; a batch gets, in their order, the
    responses of its requests that have one, and nothing when there are none. *)
Theorem jsonrpc_answers (e : nat -> api_env) (body : list Z) (s : api_state) (ans : rpc_answer) (s' : api_state) :
  process_jsonrpc_request g solve cfg e body s = Ok (ans, s') ->
  match cJSON_ParseWithLength body with
  | None => ans = Answer (rpc_error None BM_JSONRPC_ERR_PARSE "Parse error: invalid JSON") /\ s' = s
  | Some root =>
      if cJSON_IsArray root then
        if bool_decide (1 <= length (children root) <= 256)%nat then
          match omap answer_id (children root) with
          | [] => ans = No_answer
          | ids => exists rs, ans = Answers rs /\ map rs_id rs = ids
          end
        else
          (exists message, ans = Answer {| rs_id := cJSON_CreateNull;
                                           rs_body := Body_error BM_JSONRPC_ERR_INVALID_REQUEST message |}) /\ s' = s
      else
        match answer_id root with
        | None => ans = No_answer
        | Some id => exists r, ans = Answer r /\ rs_id r = id
        end
  end.
Proof.
  unfold process_jsonrpc_request. destruct (cJSON_ParseWithLength body) as [root|]; [|by intros [= <- <-]].
  destruct (cJSON_IsArray root); cbn [negb].
  - unfold BM_JSONRPC_MAX_BATCH_SIZE. destruct (Z.eqb_spec (Z.of_nat (length (children root))) 0) as [E0|N0].
    { intros [= <- <-]. rewrite bool_decide_eq_false_2 by lia. split; [by eexists|done]. }
    destruct (Z.gtb_spec (Z.of_nat (length (children root))) 256).
    { intros [= <- <-]. rewrite bool_decide_eq_false_2 by lia. split; [by eexists|done]. }
    rewrite bool_decide_eq_true_2 by lia. intros H1. apply bind_ok_inv in H1 as ([rs s1] & H1 & H2).
    apply batch_ids in H1. destruct (omap answer_id (children root)) as [|id ids].
    + apply map_eq_nil in H1 as ->. by injection H2 as <- <-.
    + destruct rs as [|r rs]; [done|]. injection H2 as <- <-. by eexists.
  - intros H1. apply bind_ok_inv in H1 as ([r s1] & H1 & H2). injection H2 as <- <-. apply one_request_id in H1.
    rewrite <- H1. destruct r as [r|]; [by eexists|done].
Qed.
End RpcProperties.

(** ** Witnesses *)

Section RpcWitnesses.
#[local] Existing Instance toy_OpenSSL.
#[local] Existing Instance toy_vault.
#[local] Existing Instance toy_ntop.
#[local] Existing Instance toy_CJson.

Definition api_env_0 : api_env :=
  {| en_time := fun _ => 1700000000;
     en_wrap := fun _ => {| wr_salt := replicate 16 1; wr_nonce_signing := replicate 12 2;
                            wr_nonce_encryption := replicate 12 3 |};
     en_bulk := fun _ => {| bk_vault_salt := replicate 16 1; bk_canary_nonce := replicate 12 2;
                            bk_wrap := {| wr_salt := replicate 16 1; wr_nonce_signing := replicate 12 2;
                                          wr_nonce_encryption := replicate 12 3 |} |};
     en_vault_salt := replicate 16 1; en_vault_nonce := replicate 12 2; en_send := pipe_random;
     en_broadcast := entropy_example; en_slot := 70; en_job := 80; en_stats := (12, 34); en_fuel := 0 |}.
Definition api_state_0 : api_state :=
  {| a_keyring := []; a_identities := bm_identity_store_init_schema; a_pipe := pipe_0; a_pool := None;
     a_config := None; a_peers := None; a_registry := None;
     a_async := {| sv_slots := ∅; sv_states := ∅; sv_current := None; sv_suspended_connections := 0;
                   sv_resumed := []; sv_broadcast := [] |} |}.
Definition api_config_0 : bm_api_server_config :=
  {| username := Some (cstr "bm"%string); password := Some (cstr "secret"%string); has_pow_queue := true;
     has_broadcast_queue := true; api_default_nonce_trials_per_byte := 1000;
     api_default_payload_length_extra_bytes := 1000 |}.

(** The text of a member whose value is a string, and of a call without an id. *)
Definition toy_string (s : string) : list Z := 115 :: blen (cstr s) :: cstr s.
Definition notification_text : list Z := [111; 1] ++ toy_string "method" ++ toy_string "lockAllAddresses".
(** A batch: getNetworkStats with the id 7, a notification, and no request at all. *)
Definition batch_text : list Z :=
  [97; 3; 111; 2] ++ toy_string "id" ++ [35; 7] ++ toy_string "method" ++ toy_string "getNetworkStats"
  ++ notification_text ++ [110].

Definition answered (r : cres (rpc_answer * api_state)) : rpc_answer * api_state :=
  match r with Ok p => p | _ => (No_answer, api_state_0) end.
Definition batch_answer : rpc_answer * api_state :=
  answered (process_jsonrpc_request protocol_initial (fun _ _ => 0) api_config_0 (fun _ => api_env_0) batch_text api_state_0).

Lemma cstr_bytes s : bytes_ok (cstr s).
Proof.
  unfold cstr. induction (list_ascii_of_string s) as [|a l IH]; constructor; [|done].
  pose proof (N_ascii_bounded a). unfold is_byte. lia.
Qed.

Lemma jsonrpc_answers_witness : exists rs,
  batch_answer.1 = Answers rs /\ map rs_id rs = [TNum (of_integer 7); TNull].
Proof.
  pose proof (jsonrpc_answers protocol_initial (fun _ _ => 0) api_config_0 (fun _ => api_env_0) batch_text
    api_state_0 batch_answer.1 batch_answer.2) as H.
  exact (H ltac:(vm_compute; reflexivity)).
Defined.

Lemma request_admitted_witness : exists ctx,
  serve_request protocol_initial (fun _ _ => 0) api_config_0 (fun _ => api_env_0) 60 (cstr "POST"%string)
    (Some (cstr "bm"%string, Some (cstr "secret"%string))) 5 [take 9 batch_text; drop 9 batch_text] api_state_0
  = respond protocol_initial (fun _ _ => 0) api_config_0 (fun _ => api_env_0) 60 5 batch_text ctx api_state_0.
Proof.
  edestruct (request_admitted protocol_initial (fun _ _ => 0) api_config_0 (fun _ => api_env_0) 60 (cstr "POST"%string)
    (Some (cstr "bm"%string, Some (cstr "secret"%string))) 5 [take 9 batch_text; drop 9 batch_text] api_state_0)
    as (ctx & E).
  - split_and!; [apply cstr_bytes|apply cstr_bytes|]. intros n p [= <- <-]. split; apply cstr_bytes.
  - repeat constructor.
  - exists ctx. rewrite E. reflexivity.
Defined.
End RpcWitnesses.
