(* ===== verification/ApiAsync.v ===== *)
(** * The API server: requests that wait for proofs of work (core/api_server.c)

    One thread, that of libmicrohttpd, runs the handlers; the workers of the proof-of-work
    queue report the sends of any request at any time.  The steps of both are the operations
    of the server on its slots and states, in any order that the calls of the program allow. *)

From stdpp Require Import base tactics numbers option gmap list relations.
From S2P Require Import Prelude Queue Varint Json Base58 Openssl Hash Address Object Sql ObjectStore MessagesStore.
From S2P Require Import Protocol Crypto MessageBuilder IdentityStore Keyring TrialDecrypt BroadcastDecrypt PubkeyCache.
From S2P Require Import Pow PowQueue SendPipeline Dandelion PeerManager Network PeerRegistry EventLoop ObjectSync Config.
From S2P Require Import Api ApiHandlers ApiRpc.

(** Where the thread of the server is: between requests; in one; between [send_slot_begin]
    and the call of the pipeline; between its return and [send_slot_end]. *)
Inductive api_thread :=
| Idle
| Processing (sp : Z)
| Begun (sp p : Z)
| Accepted (sp p : Z).

(** [sy_pending]: the sends not reported yet, with the request of each; [sy_answered]: the
    requests whose response is queued and that are not completed. *)
Record async_system := {
  sy_async : api_async;
  sy_thread : api_thread;
  sy_pending : gmap Z Z;
  sy_answered : gset Z
}.

Definition thread_state (t : api_thread) : option Z :=
  match t with Idle => None | Processing sp | Begun sp _ | Accepted sp _ => Some sp end.
Definition thread_slot (t : api_thread) : option Z :=
  match t with Begun _ p | Accepted _ p => Some p | _ => None end.

Definition async_system_init : async_system :=
  {| sy_async := {| sv_slots := ∅; sv_states := ∅; sv_current := None; sv_suspended_connections := 0;
                    sv_resumed := []; sv_broadcast := [] |};
     sy_thread := Idle; sy_pending := ∅; sy_answered := ∅ |}.

(** The steps.  [Start] and [Begin] name the address that allocation gives; [Accept] and
    [Refuse] are the two answers of the pipeline; [Work] is the report of a worker; [Finish]
    the end of a body that came over a connection; [Resume] the call of the handler for a
    connection that was resumed; [Complete] the end of the request. *)
Inductive async_event :=
| Start (sp : Z)
| Begin (p : Z)
| Accept
| Refuse
| Register
| Work (p rc : Z) (object : option (list Z))
| Finish (connection : Z)
| Resume (sp connection : Z)
| Complete (sp : Z).

Section System.
Context `{OS : OpenSSL} (cfg : bm_api_server_config).

Definition suspended_on (a : api_async) (sp connection : Z) : Prop :=
  exists st, sv_states a !! sp = Some st /\ as_suspended st = true /\ as_connection st = Some connection.

(** What can happen, by the order of the calls; nothing of this looks at what the workers did.  A
    connection has one request at a time, and a report of success has its object.  Only requests
    that were answered are completed: one whose connection breaks before is not represented. *)
Definition enabled (ev : async_event) (v : async_system) : Prop :=
  match ev with
  | Start sp => sy_thread v = Idle /\ sv_states (sy_async v) !! sp = None
  | Begin p => (exists sp, sy_thread v = Processing sp) /\ sv_slots (sy_async v) !! p = None
  | Accept | Refuse => exists sp p, sy_thread v = Begun sp p
  | Register => exists sp p, sy_thread v = Accepted sp p
  | Work p rc object =>
      is_Some (sy_pending v !! p) /\ (forall sp, sy_thread v <> Begun sp p) /\ (rc = 0 -> is_Some object)
  | Finish connection =>
      (exists sp, sy_thread v = Processing sp) /\ forall sp, ~ suspended_on (sy_async v) sp connection
  | Resume sp connection =>
      sy_thread v = Idle /\ connection ∈ sv_resumed (sy_async v) /\ suspended_on (sy_async v) sp connection
  | Complete sp => sy_thread v = Idle /\ sp ∈ sy_answered v
  end.

Definition run_event (ev : async_event) (v : async_system) : cres async_system :=
  let a := sy_async v in
  match ev, sy_thread v with
  | Start sp, _ => Ok {| sy_async := async_begin a sp; sy_thread := Processing sp; sy_pending := sy_pending v;
                         sy_answered := sy_answered v |}
  | Begin p, Processing sp =>
      a ← send_slot_begin a p;
      Ok {| sy_async := a; sy_thread := Begun sp p; sy_pending := <[p := sp]> (sy_pending v); sy_answered := sy_answered v |}
  | Accept, Begun sp p =>
      Ok {| sy_async := a; sy_thread := Accepted sp p; sy_pending := sy_pending v; sy_answered := sy_answered v |}
  | Refuse, Begun sp p =>
      '(_, a) ← send_slot_end a p (-1) [];
      Ok {| sy_async := a; sy_thread := Processing sp; sy_pending := delete p (sy_pending v); sy_answered := sy_answered v |}
  | Register, Accepted sp p =>
      '(_, a) ← send_slot_end a p 0 [];
      Ok {| sy_async := a; sy_thread := Processing sp; sy_pending := sy_pending v; sy_answered := sy_answered v |}
  | Work p rc object, t =>
      a ← api_send_done cfg a p rc object;
      Ok {| sy_async := a; sy_thread := t; sy_pending := delete p (sy_pending v); sy_answered := sy_answered v |}
  | Finish connection, Processing sp =>
      '(suspended, a) ← async_processed a sp connection;
      if suspended : bool
      then Ok {| sy_async := a; sy_thread := Idle; sy_pending := sy_pending v; sy_answered := sy_answered v |}
      else
        a ← async_resumed a sp;
        Ok {| sy_async := a; sy_thread := Idle; sy_pending := sy_pending v; sy_answered := {[sp]} ∪ sy_answered v |}
  | Resume sp connection, _ =>
      a ← async_resumed a sp;
      Ok {| sy_async := a <| sv_resumed := filter (fun c => c <> connection) (sv_resumed a) |>; sy_thread := Idle;
            sy_pending := sy_pending v; sy_answered := {[sp]} ∪ sy_answered v |}
  | Complete sp, _ =>
      a ← api_async_state_free a sp;
      Ok {| sy_async := a; sy_thread := Idle; sy_pending := sy_pending v; sy_answered := sy_answered v ∖ {[sp]} |}
  | _, _ => Err
  end.

Definition async_step (v v' : async_system) : Prop := exists ev, enabled ev v /\ run_event ev v = Ok v'.
Definition async_reachable (v : async_system) : Prop := rtc async_step async_system_init v.

(** The sends of a request that are not reported. *)
Definition waiting (pending : gmap Z Z) (sp : Z) : nat := size (filter (fun kv => kv.2 = sp) pending).

(** ** The invariant *)

Record async_inv (v : async_system) : Prop := {
  inv_current : sv_current (sy_async v) = thread_state (sy_thread v);
  inv_thread sp : thread_state (sy_thread v) = Some sp ->
    exists st, sv_states (sy_async v) !! sp = Some st /\ as_suspended st = false /\ (sp ∉ sy_answered v);
  inv_begun sp p : sy_thread v = Begun sp p -> sy_pending v !! p = Some sp;
  inv_flight p sp : thread_slot (sy_thread v) = Some p -> thread_state (sy_thread v) = Some sp ->
    exists slot, sv_slots (sy_async v) !! p = Some slot /\ sl_state slot = Some sp;
  inv_unregistered p sp st : thread_slot (sy_thread v) = Some p -> sv_states (sy_async v) !! sp = Some st -> p ∉ as_slots st;
  inv_pending p sp : sy_pending v !! p = Some sp ->
    exists slot, sv_slots (sy_async v) !! p = Some slot /\ sl_state slot = Some sp;
  inv_slot p slot : sv_slots (sy_async v) !! p = Some slot ->
    exists sp st, sl_state slot = Some sp /\ sv_states (sy_async v) !! sp = Some st
      /\ (p ∈ as_slots st \/ thread_slot (sy_thread v) = Some p)
      /\ (sy_pending v !! p = None -> sl_done slot = true);
  inv_state sp st : sv_states (sy_async v) !! sp = Some st ->
    as_outstanding st = Z.of_nat (waiting (sy_pending v) sp) /\ NoDup (as_slots st)
    /\ forall p, p ∈ as_slots st -> exists slot, sv_slots (sy_async v) !! p = Some slot /\ sl_state slot = Some sp;
  inv_phase sp st : sv_states (sy_async v) !! sp = Some st ->
    if as_suspended st
    then (sp ∉ sy_answered v) /\ exists c, as_connection st = Some c
         /\ (as_outstanding st = 0 <-> c ∈ sv_resumed (sy_async v))
    else thread_state (sy_thread v) = Some sp \/ sp ∈ sy_answered v /\ as_outstanding st = 0;
  inv_answered sp : sp ∈ sy_answered v -> is_Some (sv_states (sy_async v) !! sp);
  inv_connection sp sp' c : suspended_on (sy_async v) sp c -> suspended_on (sy_async v) sp' c -> sp = sp';
  inv_resumed : NoDup (sv_resumed (sy_async v))
    /\ forall c, c ∈ sv_resumed (sy_async v) -> exists sp, suspended_on (sy_async v) sp c;
  inv_count : sv_suspended_connections (sy_async v)
    = Z.of_nat (size (filter (fun kv => as_suspended kv.2 = true) (sv_states (sy_async v))))
}.

Lemma async_inv_init : async_inv async_system_init.
Proof.
  split; cbn; try done.
  - intros sp sp' c (st & H & _). done.
  - split; [constructor|]. by intros c ?%not_elem_of_nil.
Qed.

(** ** Counting *)

Lemma size_filter_split `(P : Z * A -> Prop) `{!forall kv, Decision (P kv)} (m : gmap Z A) k x : m !! k = Some x ->
  size (filter P m) = ((if decide (P (k, x)) then 1 else 0) + size (filter P (delete k m)))%nat.
Proof.
  intros E. rewrite <- (insert_delete_id m k x E) at 1. case_decide.
  - rewrite map_filter_insert_True by done. rewrite map_size_insert_None; [done|].
    by rewrite map_filter_delete, lookup_delete_eq.
  - rewrite map_filter_insert_False by done. by rewrite delete_delete_eq.
Qed.

Lemma size_filter_insert `(P : Z * A -> Prop) `{!forall kv, Decision (P kv)} (m : gmap Z A) k x :
  size (filter P (<[k := x]> m)) = ((if decide (P (k, x)) then 1 else 0) + size (filter P (delete k m)))%nat.
Proof. by rewrite (size_filter_split P _ k x), delete_insert_eq by apply lookup_insert_eq. Qed.

Lemma unreported_insert m p sp sp' : m !! p = None ->
  waiting (<[p := sp]> m) sp' = ((if decide (sp = sp') then 1 else 0) + waiting m sp')%nat.
Proof. intros E. unfold waiting. by rewrite size_filter_insert, delete_id. Qed.

Lemma unreported_delete m p sp sp' : m !! p = Some sp ->
  waiting m sp' = ((if decide (sp = sp') then 1 else 0) + waiting (delete p m) sp')%nat.
Proof. intros E. unfold waiting. by rewrite (size_filter_split _ _ _ _ E). Qed.

Lemma unreported_zero m sp : waiting m sp = 0%nat <-> forall p, m !! p <> Some sp.
Proof.
  split.
  - intros E p H. rewrite (unreported_delete m p sp sp H) in E. by rewrite decide_True in E.
  - intros H. unfold waiting. apply map_size_empty_iff, map_empty. intros p. apply map_lookup_filter_None.
    right. cbn. intros sp' E ->. by apply (H p).
Qed.

(** ** What the operations do *)

Definition new_slot (sp : Z) : api_send_slot :=
  {| sl_state := Some sp; sl_done := false; sl_rc := 0; sl_object_len := 0; sl_inv_hash := replicate 32 0 |}.

Lemma send_slot_begin_in a p sp st : sv_current a = Some sp -> sv_states a !! sp = Some st ->
  send_slot_begin a p
  = Ok (a <| sv_slots := <[p := new_slot sp]> (sv_slots a) |>
          <| sv_states := <[sp := st <| as_outstanding := as_outstanding st + 1 |>]> (sv_states a) |>).
Proof.
  intros Hc Hs. unfold send_slot_begin, deref_state, new_slot. rewrite Hc. unfold update_field. cbn -[replicate]. by rewrite Hc, Hs.
Qed.

Lemma send_slot_end_in a p rc msg slot sp st :
  sv_slots a !! p = Some slot -> sl_state slot = Some sp -> sv_states a !! sp = Some st ->
  exists r, send_slot_end a p rc msg
  = Ok (r, if rc =? 0
           then a <| sv_states := <[sp := st <| as_slots := as_slots st ++ [p] |>]> (sv_states a) |>
           else a <| sv_states := <[sp := st <| as_outstanding := as_outstanding st - 1 |>]> (sv_states a) |>
                  <| sv_slots := delete p (sv_slots a) |>).
Proof.
  intros Hp Hs Hst. unfold send_slot_end, deref_slot, deref_state. rewrite Hp, bind_ok, Hs.
  unfold update_field. destruct (rc =? 0); cbn; rewrite Hst; by eexists.
Qed.

Lemma async_processed_in a sp connection st : sv_states a !! sp = Some st ->
  async_processed a sp connection
  = Ok (as_outstanding st >? 0,
        let a := a <| sv_current := None |> in
        if as_outstanding st >? 0
        then a <| sv_states := <[sp := st <| as_suspended := true |> <| as_connection := Some connection |>]> (sv_states a) |>
               <| sv_suspended_connections := sv_suspended_connections a + 1 |>
        else a).
Proof.
  intros E. unfold async_processed, deref_state, update_field. cbn. rewrite E, bind_ok. by destruct (_ >? _).
Qed.

Lemma async_resumed_in a sp st : sv_states a !! sp = Some st ->
  async_resumed a sp
  = Ok (if as_suspended st
        then a <| sv_states := <[sp := st <| as_suspended := false |>]> (sv_states a) |>
               <| sv_suspended_connections := sv_suspended_connections a - 1 |>
        else a).
Proof. intros E. unfold async_resumed, deref_state. rewrite E, bind_ok. by destruct (as_suspended st). Qed.

Lemma free_slots_in slots ps : NoDup ps -> (forall p, p ∈ ps -> is_Some (slots !! p)) ->
  exists slots', free_slots slots ps = Ok slots'
    /\ forall p, slots' !! p = if decide (p ∈ ps) then None else slots !! p.
Proof.
  intros Hnd. revert slots. induction Hnd as [|q ps Hq _ IH]; intros slots Hall; cbn.
  - exists slots. split; [done|]. intros p. rewrite decide_False; [done|]. apply not_elem_of_nil.
  - destruct (Hall q) as [x ->]; [by left|]. destruct (IH (delete q slots)) as (slots' & E & Hs).
    { intros p Hp. rewrite lookup_delete_ne by (by intros ->). apply Hall. by right. }
    exists slots'. split; [done|]. intros p. rewrite Hs. destruct (decide (p = q)) as [->|Hne].
    + rewrite decide_False by done. rewrite lookup_delete_eq. by rewrite decide_True by by left.
    + rewrite lookup_delete_ne by done. apply decide_ext. rewrite elem_of_cons. naive_solver.
Qed.

Definition done_slot (slot : api_send_slot) (rc : Z) (object : option (list Z)) : api_send_slot :=
  {| sl_state := sl_state slot; sl_done := true; sl_rc := rc; sl_object_len := blen (default [] object);
     sl_inv_hash := if rc =? 0 then bm_inventory_hash (default [] object) else sl_inv_hash slot |}.

Lemma api_send_done_in a p rc object slot sp st :
  sv_slots a !! p = Some slot -> sl_state slot = Some sp -> sv_states a !! sp = Some st ->
  (rc = 0 -> is_Some object) -> (as_suspended st = true -> is_Some (as_connection st)) ->
  exists broadcast, api_send_done cfg a p rc object
  = Ok (a <| sv_broadcast := broadcast |>
          <| sv_slots := <[p := done_slot slot rc object]> (sv_slots a) |>
          <| sv_states := <[sp := st <| as_outstanding := as_outstanding st - 1 |>]> (sv_states a) |>
          <| sv_resumed := sv_resumed a ++
               (if (as_outstanding st - 1 =? 0) && as_suspended st then option_list (as_connection st) else []) |>).
Proof.
  intros Hp Hs Hst Ho Hcon. unfold api_send_done, deref_slot, deref_state, settle_slot. rewrite Hp, bind_ok.
  set (a1 := if rc =? 0 then getpubkey_request_done cfg a object else a).
  assert (exists b, a1 = a <| sv_broadcast := b |>) as (b & ->).
  { unfold a1, getpubkey_request_done. destruct (rc =? 0); [|by exists (sv_broadcast a); destruct a].
    destruct object, (has_broadcast_queue cfg); (by eexists) || by exists (sv_broadcast a); destruct a. }
  exists b. unfold done_slot, update_field. destruct (Z.eqb_spec rc 0) as [->|].
  - destruct (Ho eq_refl) as [o ->]. cbn -[blen]. rewrite Hs, Hst. cbn -[blen].
    destruct (_ && _) eqn:E; [|by rewrite app_nil_r]. apply andb_true_iff in E as [_ E].
    by destruct (Hcon E) as [c ->].
  - rewrite bind_ok. cbn -[blen]. rewrite Hs, Hst. cbn -[blen].
    destruct (_ && _) eqn:E; [|by rewrite app_nil_r]. apply andb_true_iff in E as [_ E].
    by destruct (Hcon E) as [c ->].
Qed.

(** ** Every event is defined and keeps the invariant *)

Ltac lookups :=
  repeat match goal with
  | H : <[_ := _]> _ !! _ = Some _ |- _ => apply lookup_insert_Some in H as [[? ?]|[? ?]]; simplify_eq
  | H : delete _ _ !! _ = Some _ |- _ => apply lookup_delete_Some in H as [? ?]
  end.

(** A state that is changed in none of the fields of the suspension. *)
Lemma suspended_on_update a a' sp st st' : sv_states a !! sp = Some st -> sv_states a' = <[sp := st']> (sv_states a) ->
  as_suspended st' = as_suspended st -> as_connection st' = as_connection st ->
  forall sp' c, suspended_on a' sp' c <-> suspended_on a sp' c.
Proof.
  intros E E' Hs Hc sp' c. unfold suspended_on. rewrite E'. destruct (decide (sp' = sp)) as [->|Hne].
  - rewrite lookup_insert_eq, E. split; intros (x & [= <-] & H1 & H2); eexists; (split_and!; [done|congruence|congruence]).
  - by rewrite lookup_insert_ne by done.
Qed.

(** Then the clauses on the suspended connections are kept. *)
Lemma suspension_update v a' sp st st' : async_inv v -> sv_states (sy_async v) !! sp = Some st ->
  sv_states a' = <[sp := st']> (sv_states (sy_async v)) ->
  as_suspended st' = as_suspended st -> as_connection st' = as_connection st ->
  (forall sp1 sp2 c, suspended_on a' sp1 c -> suspended_on a' sp2 c -> sp1 = sp2)
  /\ (forall c, c ∈ sv_resumed (sy_async v) -> exists sp', suspended_on a' sp' c).
Proof.
  intros I E E' Hs Hc. pose proof (suspended_on_update _ _ _ _ _ E E' Hs Hc) as Hsus. split.
  - intros sp1 sp2 c. rewrite !Hsus. apply (inv_connection v I).
  - intros c (sp' & H)%(proj2 (inv_resumed v I)). exists sp'. by apply Hsus.
Qed.

Lemma suspended_count_update (m : gmap Z api_async_state) sp st st' : m !! sp = Some st ->
  as_suspended st' = as_suspended st ->
  size (filter (fun kv => as_suspended kv.2 = true) (<[sp := st']> m))
  = size (filter (fun kv => as_suspended kv.2 = true) m).
Proof.
  intros E Hs. rewrite size_filter_insert, (size_filter_split _ m sp st E). cbn. by rewrite Hs.
Qed.

Definition keeps (ev : async_event) : Prop := forall v,
  async_inv v -> enabled ev v -> exists v', run_event ev v = Ok v' /\ async_inv v'.

Lemma keeps_start sp : keeps (Start sp).
Proof.
  intros v I [Ht Hn]. eexists. split; [reflexivity|].
  assert (Hz : waiting (sy_pending v) sp = 0%nat).
  { apply unreported_zero. intros p (slot & E & Es)%(inv_pending v I). apply (inv_slot v I) in E as (sp' & st & E' & Hs & _).
    congruence. }
  assert (Ha : sp ∉ sy_answered v) by (intros [? ?]%(inv_answered v I); congruence).
  destruct I as [_ _ _ _ _ Ip Is It Iph Ia Ic Ir In]. rewrite Ht in *. split; cbn; try done.
  - intros sp' [= <-]. rewrite lookup_insert_eq. by eexists.
  - intros p slot E. destruct (Is p slot E) as (sp' & st & E1 & E2 & [E3|E3] & E4); [|done].
    exists sp', st. rewrite lookup_insert_ne by congruence. auto.
  - intros sp' st E. lookups; [|by apply It]. cbn. rewrite Hz. split_and!; [done|constructor|]. by intros p ?%not_elem_of_nil.
  - intros sp' st E. lookups; [by left|]. specialize (Iph _ _ H0). destruct (as_suspended st); [done|]. by destruct Iph; [|right].
  - intros sp' ?%Ia. by apply lookup_insert_is_Some'; right.
  - intros sp1 sp2 c (st1 & E1 & E1' & E1'') (st2 & E2 & E2' & E2''). cbn in *. lookups; try done.
    apply (Ic sp1 sp2 c); [by exists st1|by exists st2].
  - destruct Ir as [Hr1 Hr2]. split; [done|]. intros c Hc. destruct (Hr2 c Hc) as (sp' & st & E & E').
    exists sp', st. cbn. rewrite lookup_insert_ne by congruence. done.
  - rewrite size_filter_insert, delete_id by done. rewrite decide_False by done. done.
Qed.

Lemma keeps_begin p : keeps (Begin p).
Proof.
  intros v I [[sp Ht] Hp]. pose proof (inv_current v I) as Hcur. rewrite Ht in Hcur. cbn in Hcur.
  destruct (inv_thread v I sp) as (st & Est & Hsus & Hans); [by rewrite Ht|].
  assert (Hpn : sy_pending v !! p = None).
  { destruct (sy_pending v !! p) as [sp'|] eqn:E; [|done]. apply (inv_pending v I) in E as (slot & E & _). congruence. }
  unfold run_event. rewrite Ht, (send_slot_begin_in _ _ _ _ Hcur Est), bind_ok. eexists. split; [reflexivity|].
  pose proof I as [Icur Ith _ _ _ Ip Is It Iph Ia Ic Ir In]. rewrite Ht in Icur, Ith, Is, Iph. split; cbn; try done.
  - intros sp' [= <-]. rewrite lookup_insert_eq. by eexists.
  - intros sp' p' [= <- <-]. by rewrite lookup_insert_eq.
  - intros p' sp' [= <-] [= <-]. rewrite lookup_insert_eq. by eexists.
  - intros p' sp' st' [= <-] E Hin. lookups;
      (edestruct It as (_ & _ & Hall); [eassumption|]); edestruct Hall as (? & ? & _); [exact Hin|congruence|exact Hin|congruence].
  - intros p' sp' E. lookups; [rewrite lookup_insert_eq; by eexists|]. rewrite lookup_insert_ne by done. by apply Ip.
  - intros p' slot E. lookups.
    + exists sp. rewrite lookup_insert_eq. eexists. split_and!; [done|done|by right|]. by rewrite lookup_insert_eq.
    + destruct (Is p' slot ltac:(done)) as (sp' & st' & E1 & E2 & [E3|E3] & E4); [|done].
      exists sp'. rewrite (lookup_insert_ne (sy_pending v)) by done. destruct (decide (sp = sp')) as [->|].
      * rewrite lookup_insert_eq. eexists. split_and!; [done|done|left; cbn; congruence|done].
      * rewrite lookup_insert_ne by done. eexists. by split_and!; [| |left|].
  - intros sp' st' E. rewrite unreported_insert by done. lookups; cbn.
    + destruct (It _ _ Est) as (-> & Hnd & Hall). rewrite decide_True by done. split_and!; [lia|done|].
      intros p' Hin. destruct (Hall _ Hin) as (slot & E & Es). exists slot. by rewrite lookup_insert_ne by congruence.
    + destruct (It _ _ ltac:(eassumption)) as (-> & Hnd & Hall). rewrite decide_False by done. split_and!; [lia|done|].
      intros p' Hin. destruct (Hall _ Hin) as (slot & E & Es). exists slot. by rewrite lookup_insert_ne by congruence.
  - intros sp' st' E. lookups; cbn; [rewrite Hsus; by left|]. by apply Iph.
  - intros sp' Hin. destruct (decide (sp = sp')) as [->|]; [done|]. rewrite lookup_insert_ne by done. by apply Ia.
  - eapply suspension_update; done.
  - split; [apply Ir|]. eapply suspension_update; done.
  - by rewrite (suspended_count_update _ sp st).
Qed.

Lemma keeps_accept : keeps Accept.
Proof.
  intros v I (sp & p & Ht). unfold run_event. rewrite Ht. eexists. split; [reflexivity|].
  destruct I as [Icur Ith Ib If Iu Ip Is It Iph Ia Ic Ir In]. rewrite Ht in *. by split.
Qed.
Lemma keeps_refuse : keeps Refuse.
Proof.
  intros v I (sp & p & Ht). pose proof I as [Icur Ith Ib If Iu Ip Is It Iph Ia Ic Ir In]. unfold run_event.
  rewrite Ht in *. destruct (Ith sp eq_refl) as (st & Est & Hsus & Hans).
  destruct (If p sp eq_refl eq_refl) as (slot & Ep & Esl). pose proof (Ib sp p eq_refl) as Hpend.
  destruct (send_slot_end_in (sy_async v) p (-1) [] slot sp st Ep Esl Est) as (r & ->). rewrite bind_ok.
  eexists. split; [reflexivity|]. split; cbn; try done.
  - intros sp' [= <-]. rewrite lookup_insert_eq. by eexists.
  - intros p' sp' E. lookups. destruct (Ip _ _ ltac:(eassumption)) as (slot' & E1 & E2). exists slot'.
    by rewrite lookup_delete_ne.
  - intros p' slot' E. lookups. destruct (Is p' slot' ltac:(done)) as (sp' & st' & E1 & E2 & [E3|[= <-]] & E4); [|done].
    exists sp'. rewrite lookup_delete_ne by done. destruct (decide (sp = sp')) as [->|].
    + rewrite lookup_insert_eq. eexists. split_and!; [done|done|left; cbn; congruence|done].
    + rewrite lookup_insert_ne by done. eexists. by split_and!; [| |left|].
  - intros sp' st' E. pose proof (unreported_delete _ _ _ sp' Hpend) as Hw.
    assert (Hall : forall st0 p', sv_states (sy_async v) !! sp' = Some st0 -> p' ∈ as_slots st0 ->
      exists slot', delete p (sv_slots (sy_async v)) !! p' = Some slot' /\ sl_state slot' = Some sp').
    { intros st0 p' E0 Hin. destruct (It _ _ E0) as (_ & _ & H1). destruct (H1 _ Hin) as (slot' & E1 & E2).
      exists slot'. rewrite lookup_delete_ne; [done|]. intros ->. by apply (Iu p' sp' st0). }
    lookups; cbn.
    + destruct (It _ _ Est) as (Ho & Hnd & _). rewrite decide_True in Hw by done. split_and!; [lia|done|eauto].
    + destruct (It _ _ ltac:(eassumption)) as (Ho & Hnd & _). rewrite decide_False in Hw by done. split_and!; [lia|done|eauto].
  - intros sp' st' E. lookups; cbn; [rewrite Hsus; by left|]. by apply Iph.
  - intros sp' Hin. destruct (decide (sp = sp')) as [->|]; [done|]. rewrite lookup_insert_ne by done. by apply Ia.
  - eapply suspension_update; done.
  - split; [apply Ir|]. eapply suspension_update; done.
  - by rewrite (suspended_count_update _ sp st).
Qed.

Lemma keeps_register : keeps Register.
Proof.
  intros v I (sp & p & Ht). pose proof I as [Icur Ith Ib If Iu Ip Is It Iph Ia Ic Ir In]. unfold run_event.
  rewrite Ht in *. destruct (Ith sp eq_refl) as (st & Est & Hsus & Hans).
  destruct (If p sp eq_refl eq_refl) as (slot & Ep & Esl).
  destruct (send_slot_end_in (sy_async v) p 0 [] slot sp st Ep Esl Est) as (r & ->). rewrite bind_ok.
  eexists. split; [reflexivity|]. split; cbn; try done.
  - intros sp' [= <-]. rewrite lookup_insert_eq. by eexists.
  - intros p' slot' E. destruct (Is p' slot' E) as (sp' & st' & E1 & E2 & E3 & E4).
    exists sp'. destruct (decide (sp = sp')) as [->|Hne].
    + rewrite lookup_insert_eq. eexists. split_and!; [done|done| |done]. left. cbn.
      rewrite elem_of_app, list_elem_of_singleton. destruct E3 as [|[= <-]]; [left; congruence|by right].
    + rewrite lookup_insert_ne by done. eexists. split_and!; [done|done| |done]. left.
      destruct E3 as [|[= <-]]; [done|]. congruence.
  - intros sp' st' E. lookups; cbn; [|by apply It].
    destruct (It _ _ Est) as (Ho & Hnd & Hall). split_and!; [done| |].
    + apply NoDup_app. split_and!; [done| |apply NoDup_singleton]. intros x Hx ->%list_elem_of_singleton.
      eapply Iu; eauto.
    + intros p' [Hin|Hin]%elem_of_app; [by apply Hall|]. apply list_elem_of_singleton in Hin as ->. by exists slot.
  - intros sp' st' E. lookups; cbn; [rewrite Hsus; by left|]. by apply Iph.
  - intros sp' Hin. destruct (decide (sp = sp')) as [->|]; [done|]. rewrite lookup_insert_ne by done. by apply Ia.
  - eapply suspension_update; done.
  - split; [apply Ir|]. eapply suspension_update; done.
  - by rewrite (suspended_count_update _ sp st).
Qed.

(** The connections that a report resumes. *)
Definition woken (st : api_async_state) : list Z :=
  if (as_outstanding st - 1 =? 0) && as_suspended st then option_list (as_connection st) else [].

Lemma elem_of_woken v sp st c : async_inv v -> sv_states (sy_async v) !! sp = Some st -> c ∈ woken st ->
  as_outstanding st = 1 /\ suspended_on (sy_async v) sp c /\ woken st = [c].
Proof.
  intros I E. pose proof (inv_phase v I _ _ E) as Hph. unfold woken.
  destruct (Z.eqb_spec (as_outstanding st - 1) 0); [|by intros ?%not_elem_of_nil].
  destruct (as_suspended st) eqn:Es; [|by intros ?%not_elem_of_nil]. destruct Hph as (_ & c' & Ec & _). rewrite Ec. cbn.
  intros ->%list_elem_of_singleton. split_and!; [lia|by exists st|done].
Qed.

Lemma woken_resumed v sp st : async_inv v -> sv_states (sy_async v) !! sp = Some st -> 1 <= as_outstanding st ->
  NoDup (sv_resumed (sy_async v) ++ woken st)
  /\ forall sp' st' c, sv_states (sy_async v) !! sp' = Some st' -> as_suspended st' = true -> as_connection st' = Some c ->
     (c ∈ sv_resumed (sy_async v) ++ woken st
      <-> if decide (sp' = sp) then as_outstanding st - 1 = 0 else c ∈ sv_resumed (sy_async v)).
Proof.
  intros I E Hout.
  assert (Hnew : forall c, suspended_on (sy_async v) sp c -> c ∉ sv_resumed (sy_async v)).
  { intros c (st0 & E0 & Es & Ec) Hin. simplify_eq. pose proof (inv_phase v I _ _ E) as Hph. rewrite Es in Hph.
    destruct Hph as (_ & c' & Ec' & Hc'). simplify_eq. apply Hc' in Hin. lia. }
  split.
  - apply NoDup_app. split_and!; [apply (inv_resumed v I)| |].
    + intros c Hc Hw. apply (elem_of_woken v sp st c I E) in Hw as (_ & Hs & _). by apply (Hnew c).
    + unfold woken. destruct (_ && _); [|constructor]. destruct (as_connection st); [apply NoDup_singleton|constructor].
  - intros sp' st' c E' Es Ec. assert (Hs : suspended_on (sy_async v) sp' c) by by exists st'. rewrite elem_of_app.
    case_decide as Hd.
    + subst sp'. simplify_eq. split.
      * intros [Hin|Hw]; [by apply Hnew in Hin|]. apply (elem_of_woken v sp st c I E) in Hw. lia.
      * intros H0. right. unfold woken. rewrite H0, Es, Ec. by apply list_elem_of_singleton.
    + split; [|by left]. intros [|Hw]; [done|]. apply (elem_of_woken v sp st c I E) in Hw as (_ & Hs' & _).
      by destruct Hd; eapply (inv_connection v I).
Qed.

Lemma run_work v p rc object :
  run_event (Work p rc object) v
  = (a ← api_send_done cfg (sy_async v) p rc object;
     Ok {| sy_async := a; sy_thread := sy_thread v; sy_pending := delete p (sy_pending v); sy_answered := sy_answered v |}).
Proof. unfold run_event. by destruct (sy_thread v). Qed.

Lemma keeps_work p rc object : keeps (Work p rc object).
Proof.
  intros v I ((sp & Hpend) & Hnb & Ho). pose proof I as [Icur Ith Ib If Iu Ip Is It Iph Ia Ic Ir In].
  destruct (Ip p sp Hpend) as (slot & Ep & Esl). destruct (Is p slot Ep) as (sp0 & st & E1 & Est & Hreg & _).
  assert (sp0 = sp) as -> by congruence. pose proof (Iph sp st Est) as Hph. destruct (It _ _ Est) as (Hout & Hnd & Hall).
  destruct (api_send_done_in (sy_async v) p rc object slot sp st Ep Esl Est Ho) as (b & E).
  { intros Hs. rewrite Hs in Hph. destruct Hph as (_ & c & -> & _). done. }
  assert (Hw : as_outstanding st = 1 + Z.of_nat (waiting (delete p (sy_pending v)) sp)).
  { rewrite Hout, (unreported_delete _ _ _ sp Hpend), decide_True by done. lia. }
  destruct (woken_resumed v sp st I Est ltac:(lia)) as [Hnd' Hres]. fold (woken st) in E.
  eexists. split; [by rewrite run_work, E, bind_ok|]. split; cbn; try done.
  - intros sp' H. destruct (Ith sp' H) as (st' & E1' & E2' & E3'). destruct (decide (sp = sp')) as [->|].
    + simplify_eq. rewrite lookup_insert_eq. by eexists.
    + rewrite lookup_insert_ne by done. by eexists.
  - intros sp' p' H. rewrite lookup_delete_ne; [by apply Ib|]. intros ->. by apply (Hnb sp').
  - intros p' sp' H1 H2. destruct (If p' sp' H1 H2) as (slot' & E1' & E2'). destruct (decide (p = p')) as [->|].
    + rewrite lookup_insert_eq. eexists. split; [done|]. cbn. congruence.
    + rewrite lookup_insert_ne by done. by eexists.
  - intros p' sp' st' H1 H2. lookups; cbn; by eapply Iu.
  - intros p' sp' H. lookups. rewrite lookup_insert_ne by done. by apply Ip.
  - intros p' slot' H. lookups; cbn.
    + exists sp. rewrite lookup_insert_eq. eexists. by split_and!.
    + destruct (Is p' slot' ltac:(done)) as (sp' & st' & E1' & E2' & E3' & E4'). exists sp'.
      rewrite lookup_delete_ne by done. destruct (decide (sp = sp')) as [->|].
      * simplify_eq. rewrite lookup_insert_eq. eexists. by split_and!.
      * rewrite lookup_insert_ne by done. eexists. by split_and!.
  - intros sp' st' H. pose proof (unreported_delete _ _ _ sp' Hpend) as Hw'.
    assert (Hslots : forall st0 p', sv_states (sy_async v) !! sp' = Some st0 -> p' ∈ as_slots st0 ->
      exists slot', <[p := done_slot slot rc object]> (sv_slots (sy_async v)) !! p' = Some slot' /\ sl_state slot' = Some sp').
    { intros st0 p' E0 Hin. destruct (It _ _ E0) as (_ & _ & H1). destruct (H1 _ Hin) as (slot' & E1' & E2').
      destruct (decide (p = p')) as [->|]; [|rewrite lookup_insert_ne by done; by eexists].
      rewrite lookup_insert_eq. eexists. split; [done|]. cbn. congruence. }
    lookups; cbn.
    + split_and!; [lia|done|eauto].
    + destruct (It _ _ ltac:(eassumption)) as (Ho' & Hnd'' & _). rewrite decide_False in Hw' by done. split_and!; [lia|done|eauto].
  - intros sp' st' H. lookups; cbn.
    + destruct (as_suspended st) eqn:Es.
      * destruct Hph as (Hna & c & Ec & _). split; [done|]. exists c. split; [done|].
        rewrite (Hres _ _ _ Est Es Ec), decide_True by done. done.
      * destruct Hph as [|[? ?]]; [by left|lia].
    + pose proof (Iph sp' st' ltac:(done)) as Hph'. destruct (as_suspended st') eqn:Es; [|done].
      destruct Hph' as (Hna & c & Ec & Hc). split; [done|]. exists c. split; [done|].
      rewrite (Hres _ _ _ ltac:(eassumption) Es Ec), decide_False by congruence. done.
  - intros sp' H. apply lookup_insert_is_Some'. right. by apply Ia.
  - eapply suspension_update; done.
  - split; [done|]. intros c [Hc|Hc]%elem_of_app; [eapply suspension_update; done|].
    apply (elem_of_woken v sp st c I Est) in Hc as (_ & (st0 & E0 & Es & Ec) & _). simplify_eq. exists sp.
    eexists. cbn. rewrite lookup_insert_eq. by split_and!.
  - by rewrite (suspended_count_update _ sp st).
Qed.

Lemma keeps_finish c : keeps (Finish c).
Proof.
  intros v I ((sp & Ht) & Hfree). pose proof I as [Icur Ith Ib If Iu Ip Is It Iph Ia Ic Ir In].
  unfold run_event. rewrite Ht in *. destruct (Ith sp eq_refl) as (st & Est & Hsus & Hans).
  destruct (It _ _ Est) as (Ho & Hnd & Hall). rewrite (async_processed_in _ _ _ _ Est), bind_ok.
  destruct (Z.gtb_spec (as_outstanding st) 0) as [Hpos|Hzero].
  - eexists. split; [reflexivity|]. split; cbn; try done.
    + intros p slot E. destruct (Is p slot E) as (sp' & st' & E1 & E2 & [E3|] & E4); [|done]. exists sp'.
      destruct (decide (sp = sp')) as [->|]; [|rewrite lookup_insert_ne by done; eexists; by split_and!; [| |left|]].
      simplify_eq. rewrite lookup_insert_eq. eexists. by split_and!; [| |left|].
    + intros sp' st' E. lookups; [exact (It _ _ Est)|by apply It].
    + intros sp' st' E. lookups; cbn.
      * split; [done|]. exists c. split; [done|]. split; [lia|]. intros Hc.
        destruct (proj2 Ir c Hc) as (sp2 & H2). by apply Hfree in H2.
      * specialize (Iph sp' st' ltac:(done)). destruct (as_suspended st'); [done|]. destruct Iph as [[= ->]|]; [done|by right].
    + intros sp' H. apply lookup_insert_is_Some'. right. by apply Ia.
    + intros sp1 sp2 c' (st1 & E1 & S1 & C1) (st2 & E2 & S2 & C2). cbn in E1, E2. lookups; cbn in *; simplify_eq; try done.
      * exfalso. apply (Hfree sp1). by exists st1.
      * exfalso. apply (Hfree sp2). by exists st2.
      * apply (Ic sp1 sp2 c'); [by exists st1|by exists st2].
    + split; [apply Ir|]. intros c' Hc. destruct (proj2 Ir c' Hc) as (sp' & st' & E' & S' & C').
      exists sp', st'. cbn. rewrite lookup_insert_ne; [done|]. congruence.
    + rewrite In, size_filter_insert, (size_filter_split _ _ _ _ Est). cbn. rewrite Hsus. cbn.
      repeat case_decide; try done. lia.
  - rewrite (async_resumed_in _ _ st) by done. rewrite bind_ok, Hsus. eexists. split; [reflexivity|]. split; cbn; try done.
    + intros sp' st' E. specialize (Iph sp' st' E). destruct (as_suspended st') eqn:Es.
      * destruct Iph as [Hn Hc]. split; [|done]. intros [->%elem_of_singleton|]%elem_of_union; [congruence|done].
      * right. destruct Iph as [[= ->]|[? ?]]; [|split; [set_solver|done]]. simplify_eq. split; [set_solver|lia].
    + intros sp' [->%elem_of_singleton|]%elem_of_union; [by eexists|by apply Ia].
Qed.

Lemma keeps_resume sp c : keeps (Resume sp c).
Proof.
  intros v I (Ht & Hc & st & Est & Hsus & Hcon). pose proof I as [Icur Ith Ib If Iu Ip Is It Iph Ia Ic Ir In].
  unfold run_event. rewrite Ht in *. rewrite (async_resumed_in _ _ _ Est), bind_ok, Hsus.
  pose proof (Iph _ _ Est) as Hph. rewrite Hsus in Hph. destruct Hph as (Hans & c' & Hcon' & Hzero). simplify_eq.
  apply Hzero in Hc as Hout. destruct (It _ _ Est) as (Ho & Hnd & Hall).
  eexists. split; [reflexivity|]. split; cbn; try done.
  - intros p slot E. destruct (Is p slot E) as (sp' & st' & E1 & E2 & E3 & E4). exists sp'.
    destruct (decide (sp = sp')) as [->|]; [|rewrite lookup_insert_ne by done; eexists; by split_and!].
    simplify_eq. rewrite lookup_insert_eq. eexists. by split_and!.
  - intros sp' st' E. lookups; [exact (It _ _ Est)|by apply It].
  - intros sp' st' E. lookups; cbn; [right; split; [set_solver|done]|].
    specialize (Iph sp' st' ltac:(done)). destruct (as_suspended st') eqn:Es.
    + destruct Iph as (Hn & c1 & Ec & Hz). split; [set_solver|]. exists c1. split; [done|]. rewrite list_elem_of_filter, Hz.
      split; [|tauto]. intros H1. split; [|done]. intros Heq. assert (sp' = sp); [|done].
      apply (Ic sp' sp c1); [by exists st'|exists st; split_and!; congruence].
    + destruct Iph as [|[? ?]]; [done|]. right. split; [set_solver|done].
  - intros sp' [->%elem_of_singleton|H]%elem_of_union; apply lookup_insert_is_Some'; [by left|right; by apply Ia].
  - intros sp1 sp2 c1 (st1 & E1 & S1 & C1) (st2 & E2 & S2 & C2). cbn in E1, E2. lookups; cbn in *; try done.
    apply (Ic sp1 sp2 c1); [by exists st1|by exists st2].
  - split; [apply NoDup_filter, Ir|]. intros c1 [Hne H1]%list_elem_of_filter.
    destruct (proj2 Ir c1 H1) as (sp' & st' & E' & S' & C'). exists sp', st'. cbn. rewrite lookup_insert_ne; [done|].
    intros ->. congruence.
  - rewrite In, size_filter_insert, (size_filter_split _ _ _ _ Est). cbn. rewrite Hsus.
    repeat case_decide; try done. lia.
Qed.

Lemma keeps_complete sp : keeps (Complete sp).
Proof.
  intros v I (Ht & Hans). pose proof I as [Icur Ith Ib If Iu Ip Is It Iph Ia Ic Ir In].
  rewrite Ht in Icur, Ith, Ib, Is, Iph, If, Iu. destruct (Ia sp Hans) as [st Est]. destruct (It _ _ Est) as (Ho & Hnd & Hall).
  assert (Hsus : as_suspended st = false /\ as_outstanding st = 0).
  { specialize (Iph _ _ Est). destruct (as_suspended st); [naive_solver|]. destruct Iph as [|[? ?]]; done. }
  destruct Hsus as [Hsus Hout].
  destruct (free_slots_in (sv_slots (sy_async v)) (as_slots st) Hnd) as (slots & E & Hs).
  { intros p Hp. destruct (Hall p Hp) as (slot & -> & _). done. }
  assert (Hkeep : forall p slot, sv_slots (sy_async v) !! p = Some slot -> sl_state slot <> Some sp -> slots !! p = Some slot).
  { intros p slot E1 E2. rewrite Hs. case_decide as Hin; [|done]. destruct (Hall p Hin) as (? & ? & ?). congruence. }
  unfold run_event, api_async_state_free, deref_state. rewrite Est, bind_ok, E, bind_ok. cbn.
  eexists. split; [reflexivity|]. split; cbn; try done.
  - intros p sp' Hp. destruct (Ip p sp' Hp) as (slot & E1 & E2). exists slot. split; [|done]. apply Hkeep; [done|].
    rewrite E2. intros [= ->]. assert (waiting (sy_pending v) sp = 0%nat) as Hz by lia. by apply (proj1 (unreported_zero _ _) Hz p).
  - intros p slot E1. rewrite Hs in E1. case_decide as Hin; [done|].
    destruct (Is p slot E1) as (sp' & st' & E2 & E3 & [E4|] & E5); [|done]. exists sp', st'.
    rewrite lookup_delete_ne by congruence. by split_and!; [| |left|].
  - intros sp' st' E1. lookups. destruct (It _ _ ltac:(eassumption)) as (H1 & H2 & H3). split_and!; [done|done|].
    intros p Hp. destruct (H3 p Hp) as (slot & E2 & E3). exists slot. split; [|done]. apply Hkeep; [done|congruence].
  - intros sp' st' E1. lookups. specialize (Iph _ _ ltac:(eassumption)). destruct (as_suspended st').
    + destruct Iph as [? ?]. split; [set_solver|done].
    + destruct Iph as [|[? ?]]; [done|]. right. split; [set_solver|done].
  - intros sp' [H1 H2]%elem_of_difference. rewrite lookup_delete_ne by set_solver. by apply Ia.
  - intros sp1 sp2 c1 (st1 & E1 & S1 & C1) (st2 & E2 & S2 & C2). cbn in E1, E2. lookups.
    apply (Ic sp1 sp2 c1); [by exists st1|by exists st2].
  - split; [apply Ir|]. intros c1 H1. destruct (proj2 Ir c1 H1) as (sp' & st' & E' & S' & C'). exists sp', st'. cbn.
    rewrite lookup_delete_ne; [done|]. congruence.
  - rewrite In, (size_filter_split _ _ _ _ Est). cbn. rewrite Hsus, decide_False by done. done.
Qed.

Lemma keeps_event ev : keeps ev.
Proof.
  destruct ev; [apply keeps_start|apply keeps_begin|apply keeps_accept|apply keeps_refuse|apply keeps_register
    |apply keeps_work|apply keeps_finish|apply keeps_resume|apply keeps_complete].
Qed.

Lemma async_reachable_inv v : async_reachable v -> async_inv v.
Proof.
  unfold async_reachable. intros H. remember async_system_init as v0. assert (I : async_inv v0) by (subst; apply async_inv_init).
  clear Heqv0. induction H as [|v1 v2 v3 (ev & Hen & E) _ IH]; [done|]. apply IH.
  destruct (keeps_event ev v1 I Hen) as (v' & E' & I'). congruence.
Qed.

Lemma resumed_when_done v sp c : async_inv v -> suspended_on (sy_async v) sp c ->
  c ∈ sv_resumed (sy_async v) <-> forall p, sy_pending v !! p <> Some sp.
Proof.
  intros I (st & Est & Hs & Hc). pose proof (inv_phase v I _ _ Est) as Hph. rewrite Hs in Hph.
  destruct Hph as (_ & c' & Hc' & Hz). simplify_eq. rewrite <- Hz, <- unreported_zero.
  destruct (inv_state v I _ _ Est) as (-> & _). lia.
Qed.

Lemma answered_waiting v sp : async_inv v -> sp ∈ sy_answered v ->
  exists st, sv_states (sy_async v) !! sp = Some st /\ as_suspended st = false /\ waiting (sy_pending v) sp = 0%nat.
Proof.
  intros I Ha. destruct (inv_answered v I _ Ha) as [st Est]. exists st. split; [done|].
  pose proof (inv_phase v I _ _ Est) as Hph. destruct (inv_state v I _ _ Est) as (Ho & _).
  destruct (as_suspended st); [by destruct Hph|]. split; [done|]. destruct Hph as [Ht|[_ H0]]; [|lia].
  destruct (inv_thread v I _ Ht) as (? & _ & _ & []). done.
Qed.

Lemma answered_done v sp p : async_inv v -> sp ∈ sy_answered v ->
  exists st, sv_states (sy_async v) !! sp = Some st
    /\ (p ∈ as_slots st -> exists slot, sv_slots (sy_async v) !! p = Some slot /\ sl_done slot = true).
Proof.
  intros I Ha. destruct (answered_waiting v sp I Ha) as (st & Est & _ & Hw). exists st. split; [done|]. intros Hp.
  destruct (inv_state v I _ _ Est) as (_ & _ & Hall). destruct (Hall p Hp) as (slot & Ep & Es). exists slot. split; [done|].
  destruct (inv_slot v I _ _ Ep) as (_ & _ & _ & _ & _ & Hd). apply Hd.
  destruct (sy_pending v !! p) as [sp1|] eqn:E; [|done]. apply (inv_pending v I) in E as H1.
  destruct H1 as (slot1 & E1 & E2). simplify_eq. by apply (proj1 (unreported_zero _ _) Hw) in E.
Qed.

Lemma quiescent_count v : async_inv v -> sy_pending v = ∅ -> (forall sp c, ~ enabled (Resume sp c) v) -> sy_thread v = Idle ->
  sv_suspended_connections (sy_async v) = 0.
Proof.
  intros I Hp Hr Ht. rewrite (inv_count v I). rewrite (proj2 (map_size_empty_iff _)); [done|].
  apply map_empty. intros sp. apply map_lookup_filter_None. right. cbn. intros st Est Hs.
  pose proof (inv_phase v I _ _ Est) as Hph. rewrite Hs in Hph. destruct Hph as (_ & c & Hc & _).
  assert (Hsus : suspended_on (sy_async v) sp c) by by exists st. apply (Hr sp c). split_and!; [done| |done].
  apply (resumed_when_done v sp c I Hsus). intros p. by rewrite Hp.
Qed.

(** ** Properties *)

(** C24: The memory of the waiting requests.  In whatever order requests come and end and the workers
    report, a report even before the handler has noted its send, no step touches a slot
    or a state that is not allocated, frees one twice, or resumes a connection that is not
    suspended: every step that can happen is defined. *)
Theorem async_safe (v : async_system) (ev : async_event) :
  async_reachable v -> enabled ev v -> exists v', run_event ev v = Ok v'.
Proof.
  intros Hr Hen. destruct (keeps_event ev v (async_reachable_inv v Hr) Hen) as (v' & E & _). by exists v'.
Qed.

(** C25: No answer too early, no answer lost.  A suspended connection is resumed, and once, exactly when the
    last send of its request is reported; a response is made of slots that are all settled; and
    when no report is missing and no connection is left to serve, none is suspended, which
    the shutdown waits for. *)
Theorem async_answers (v : async_system) :
  async_reachable v ->
  NoDup (sv_resumed (sy_async v))
  /\ (forall sp c, suspended_on (sy_async v) sp c ->
        (c ∈ sv_resumed (sy_async v) <-> forall p, sy_pending v !! p <> Some sp))
  /\ (forall sp p, sp ∈ sy_answered v -> exists st, sv_states (sy_async v) !! sp = Some st
        /\ (p ∈ as_slots st -> exists slot, sv_slots (sy_async v) !! p = Some slot /\ sl_done slot = true))
  /\ (sy_pending v = ∅ -> (forall sp c, ~ enabled (Resume sp c) v) -> sy_thread v = Idle ->
        sv_suspended_connections (sy_async v) = 0).
Proof.
  intros Hr. pose proof (async_reachable_inv v Hr) as I. split_and!.
  - apply (inv_resumed v I).
  - intros sp c. by apply resumed_when_done.
  - intros sp p. by apply answered_done.
  - by apply quiescent_count.
Qed.
End System.

(** ** Witnesses *)

Section AsyncWitnesses.
#[local] Existing Instance toy_OpenSSL.

(** Two sends of one request; the first is reported before the handler has noted it. *)
Definition async_run : list async_event :=
  [Start 1; Begin 10; Accept; Work 10 0 (Some [1; 2; 3]); Register; Begin 11; Accept; Register; Finish 5].

Fixpoint run_events (evs : list async_event) (v : async_system) : async_system :=
  match evs with
  | [] => v
  | ev :: evs => match run_event api_config_0 ev v with Ok v' => run_events evs v' | _ => v end
  end.
Definition async_waiting : async_system := run_events async_run async_system_init.
Definition async_woken : async_system := run_events [Work 11 (-1) None] async_waiting.

Ltac enabled_step ev :=
  eapply rtc_l; [exists ev; split; [|vm_compute; reflexivity]|].

Lemma none_suspended a c : bool_decide (map_Forall (fun _ st => as_suspended st = false) (sv_states a)) = true ->
  forall sp, ~ suspended_on a sp c.
Proof. intros H%bool_decide_eq_true sp (st & E & Hs & _). apply H in E. congruence. Qed.

Lemma async_waiting_reachable : async_reachable api_config_0 async_waiting.
Proof.
  unfold async_reachable.
  enabled_step (Start 1); [by split|].
  enabled_step (Begin 10); [split; [by eexists|done]|].
  enabled_step Accept; [by do 2 eexists|].
  enabled_step (Work 10 0 (Some [1; 2; 3])); [split_and!; [by eexists|done|by eexists]|].
  enabled_step Register; [by do 2 eexists|].
  enabled_step (Begin 11); [split; [by eexists|done]|].
  enabled_step Accept; [by do 2 eexists|].
  enabled_step Register; [by do 2 eexists|].
  enabled_step (Finish 5).
  { split; [by eexists|]. apply none_suspended. vm_compute. reflexivity. }
  match goal with |- rtc _ ?v _ => assert (v = async_waiting) as -> by (vm_compute; reflexivity) end. apply rtc_refl.
Qed.

(** The worker that reports the second send runs safely; then the connection is resumed. *)
Lemma async_safe_witness : exists v', run_event api_config_0 (Work 11 (-1) None) async_waiting = Ok v'.
Proof.
  apply (async_safe api_config_0 async_waiting (Work 11 (-1) None) async_waiting_reachable).
  split_and!; [eexists; vm_compute; reflexivity|intros sp; vm_compute; discriminate|discriminate].
Defined.

Lemma async_answers_witness :
  5 ∈ sv_resumed (sy_async async_woken) <-> forall p, sy_pending async_woken !! p <> Some 1.
Proof.
  destruct (async_answers api_config_0 async_woken) as (_ & H & _).
  - unfold async_reachable. eapply rtc_r; [exact async_waiting_reachable|]. exists (Work 11 (-1) None). split.
    + split_and!; [eexists; vm_compute; reflexivity|intros sp; vm_compute; discriminate|discriminate].
    + vm_compute. reflexivity.
  - apply (H 1 5). eexists. split_and!; vm_compute; reflexivity.
Defined.
End AsyncWitnesses.
