(* ===== verification/ApiConvert.v ===== *)
(** * The API server: the conversion of all version 3 addresses (core/api_server.c)

    The loop of convertV3AddressesToV4 reads pages of a table from which its own body removes
    rows.  It ends, and what is neither converted nor reported as failed was beyond the limit. *)

From stdpp Require Import base tactics numbers option gmap list.
From S2P Require Import Prelude Queue Varint Json Base58 Openssl Hash Address Object Sql ObjectStore MessagesStore.
From S2P Require Import Protocol Crypto MessageBuilder IdentityStore Keyring TrialDecrypt BroadcastDecrypt PubkeyCache.
From S2P Require Import Pow PowQueue SendPipeline Dandelion PeerManager Network PeerRegistry EventLoop ObjectSync Config.
From S2P Require Import Api ApiHandlers ApiRpc.

#[local] Arguments be_split : simpl never.

(** ** The version 3 rows *)

Definition is_v3 (r : bm_identity_row) : bool := r_address_version r =? 3.

Definition v3_at (db : identity_db) (a : list Z) : bool := from_option is_v3 false (identities db !! a).

(** The same version 3 rows, by address. *)
Definition same_v3 (db db' : identity_db) : Prop := forall a, v3_at db' a = v3_at db a.

Definition v3_rows (db : identity_db) : gmap (list Z) bm_identity_row :=
  filter (fun kr => is_v3 kr.2 = true) (identities db).
Definition v3_count (db : identity_db) : nat := size (v3_rows db).

Lemma v3_rows_lookup db a : is_Some (v3_rows db !! a) <-> v3_at db a = true.
Proof.
  unfold v3_rows, v3_at, is_Some. setoid_rewrite map_lookup_filter_Some. cbn.
  destruct (identities db !! a) as [r|]; cbn; naive_solver.
Qed.

Lemma v3_count_same db db' : same_v3 db db' -> v3_count db' = v3_count db.
Proof.
  intros H. unfold v3_count. rewrite <- !size_dom. f_equal. apply set_eq. intros a.
  rewrite !elem_of_dom, !v3_rows_lookup. by rewrite H.
Qed.

Lemma v3_count_delete db a : v3_at db a = true -> S (v3_count (bm_identity_store_delete db a)) = v3_count db.
Proof.
  intros H. unfold v3_count.
  assert (v3_rows (bm_identity_store_delete db a) = delete a (v3_rows db)) as ->.
  { apply map_eq. intros b. apply option_eq. intros r. unfold v3_rows. rewrite lookup_delete_Some, !map_lookup_filter_Some.
    cbn. rewrite lookup_delete_where. destruct (identities db !! b) as [r'|]; cbn; [|naive_solver].
    destruct (list_eqb b a) eqn:E; [apply list_eqb_eq in E as ->|]; cbn; [naive_solver|].
    assert (a <> b) by (intros ->; by rewrite list_eqb_refl in E). naive_solver. }
  apply v3_rows_lookup in H as [r Hr]. rewrite map_size_delete, Hr. cbn.
  assert (size (v3_rows db) <> 0%nat); [|lia]. rewrite map_size_empty_iff. intros E. by rewrite E, lookup_empty in Hr.
Qed.

Lemma select_where_count `{Countable K} {R} (t : gmap K R) (p : K -> R -> bool) :
  length (select_where t p) = size (filter (fun kr => p kr.1 kr.2 = true) t).
Proof.
  unfold select_where. rewrite map_filter_alt, map_size_list_to_map; [done|].
  eapply sublist_NoDup; [apply (NoDup_fst_map_to_list t)|]. apply fmap_sublist, sublist_filter.
Qed.

Lemma count_by_version_v3 db : bm_identity_store_count_by_version db 3 = Z.of_nat (v3_count db).
Proof. unfold bm_identity_store_count_by_version. by rewrite select_where_count. Qed.

Lemma list_by_version_length db limit offset : 0 <= offset < 2 ^ 63 -> 0 < limit < 2 ^ 63 ->
  Z.of_nat (length (bm_identity_store_list_by_version db 3 limit offset))
  = Z.min limit (Z.max 0 (Z.of_nat (v3_count db) - offset)).
Proof.
  intros Ho Hl. unfold bm_identity_store_list_by_version, limit_offset. rewrite !s64_small by lia.
  destruct (Z.ltb_spec limit 0); [lia|]. rewrite length_map, length_take, length_drop, order_by_perm.
  rewrite select_where_count. change (size _) with (v3_count db). lia.
Qed.

(** ** One conversion *)

Lemma same_v3_refl db : same_v3 db db.
Proof. by intros a. Qed.
Lemma same_v3_trans db1 db2 db3 : same_v3 db1 db2 -> same_v3 db2 db3 -> same_v3 db1 db3.
Proof. intros H1 H2 a. by rewrite H2. Qed.

Lemma same_v3_update db p upd db' :
  identities db' = update_where (identities db) p upd -> (forall r, r_address_version (upd r) = r_address_version r) ->
  same_v3 db db'.
Proof.
  intros E Hu a. unfold v3_at. rewrite E, lookup_update_where. destruct (identities db !! a) as [r|]; [|done]. cbn.
  destruct (p a r); [|done]. unfold is_v3. by rewrite Hu.
Qed.

Lemma same_v3_insert db row db' :
  bm_identity_store_insert db row = Ok db' -> r_address_version row = 4 -> same_v3 db db'.
Proof.
  unfold bm_identity_store_insert. destruct (identities db !! r_address row) eqn:E; [done|]. intros [= <-] Hv a.
  unfold v3_at, update_field. cbn. destruct (decide (r_address row = a)) as [<-|].
  - rewrite lookup_insert_eq, E. cbn. unfold is_v3. cbn. by rewrite Hv.
  - by rewrite lookup_insert_ne.
Qed.

Section Convert.
Context `{OS : OpenSSL} `{OSV : OpenSSLVault} `{BN : BigNum} (now : Z) (rnd : wrap_random).

Lemma same_v3_complete c v3 v4 v4' c' : complete_sibling c v3 v4 = (v4', c') -> same_v3 (cv_db c) (cv_db c').
Proof.
  unfold complete_sibling. set (db := if _ : bool then _ else cv_db c). intros H.
  assert (H1 : same_v3 (cv_db c) db).
  { unfold db. destruct (_ && _); [|apply same_v3_refl]. unfold bm_identity_store_update_label.
    destruct (identities (cv_db c) !! _); [|apply same_v3_refl]. by eapply same_v3_update. }
  clearbody db. destruct (negb (r_is_chan v3 =? 0) && _); injection H as _ <-; [|done].
  eapply same_v3_trans; [exact H1|]. by eapply same_v3_update.
Qed.

Lemma same_v3_store c v3 ps pe db : store_sibling now rnd c v3 ps pe = Ok db -> same_v3 (cv_db c) db.
Proof.
  assert (Hnew : forall address label stream pub1 pub2 p1 p2 algo salt params kek n1 n2 db,
    store_new_identity_with_kek (cv_db c) address label 4 stream pub1 pub2 p1 p2 algo salt params kek n1 n2 rnd now = Ok db ->
    same_v3 (cv_db c) db).
  { intros * H. unfold store_new_identity_with_kek in H. destruct (bm_keyring_internal_wrap _ _ p1 _); try done.
    destruct (bm_keyring_internal_wrap _ _ p2 _); try done. by apply same_v3_insert in H. }
  unfold store_sibling, bm_keyring_import_identity_with_master_kek, bm_keyring_create_identity. destruct (list_eqb _ _).
  - destruct (cs_master_kek _); try done. intros (k & _ & H)%bind_ok_inv. by apply Hnew in H.
  - intros ([] & _ & H)%bind_ok_inv. by apply Hnew in H.
Qed.

Lemma same_v3_create c v3 ps pe v4 c' : create_sibling now rnd c v3 ps pe = Ok (v4, c') -> same_v3 (cv_db c) (cv_db c').
Proof.
  unfold create_sibling. destruct (store_sibling _ _ _ _ _ _) as [db| |] eqn:E; [|intros [= _ <-]; apply same_v3_refl|done].
  apply same_v3_store in E. destruct (bm_identity_store_load _ _) as [r| |]; [|by intros [= _ <-]|done].
  destruct (_ =? 0); intros [= _ <-]; [done|]. eapply same_v3_trans; [exact E|]. by eapply same_v3_update.
Qed.

Lemma same_v3_unlock c v3 v4 ps pe rc c' : unlock_sibling now c v3 v4 ps pe = Ok (rc, c') -> cv_db c' = cv_db c.
Proof.
  unfold unlock_sibling. repeat case_match; try by intros [= _ <-].
  by intros (kr & _ & [= _ <-])%bind_ok_inv.
Qed.

Lemma same_v3_with_keys c v3 ps pe rc c' : sibling_with_keys now rnd c v3 ps pe = Ok (rc, c') -> same_v3 (cv_db c) (cv_db c').
Proof.
  unfold sibling_with_keys. intros (ripe & _ & H)%bind_ok_inv.
  destruct (bm_address_encode _ _ _) as [addr| |]; [|injection H as _ <-; apply same_v3_refl|done].
  destruct (bm_identity_store_load _ _) as [v4| |].
  - destruct (_ || _); [injection H as _ <-; apply same_v3_refl|]. destruct (complete_sibling _ _ _) as [v4' c1] eqn:E.
    apply same_v3_complete in E. apply same_v3_unlock in H as ->. exact E.
  - apply bind_ok_inv in H as ([v4 c1] & E%same_v3_create & H). destruct v4; [|by injection H as _ <-].
    apply same_v3_unlock in H as ->. exact E.
  - done.
Qed.

(** The rows of version 3 stay, and a success was about one of them. *)
Lemma ensure_v4_sibling_v3 kr db a s rc c : bm_keyring_ensure_v4_sibling now rnd kr db a s = Ok (rc, c) ->
  same_v3 db (cv_db c) /\ (rc = CONVERT_OK -> v3_at db a = true).
Proof.
  unfold bm_keyring_ensure_v4_sibling. destruct (bm_identity_store_load db a) as [v3| |] eqn:El;
    [|intros [= <- <-]; by split; [apply same_v3_refl|]|done].
  destruct (Z.eqb_spec (r_address_version v3) 3) as [Hv|]; cbn [negb]; [|intros [= <- <-]; by split; [apply same_v3_refl|]].
  destruct (convert_kek db v3 s) as [kek s1]. destruct kek as [kek| |];
    [|intros [= <- <-]; by split; [apply same_v3_refl|]|done].
  destruct (unwrap_both _ _ _) as [[ps pe]| |]; [|intros [= <- <-]; by split; [apply same_v3_refl|]|done].
  intros H%same_v3_with_keys. split; [exact H|]. intros _. unfold bm_identity_store_load in El. unfold v3_at.
  destruct (identities db !! a) as [r|]; [|done]. cbn. unfold is_v3.
  repeat (case_match; [done|]). injection El as <-. by apply Z.eqb_eq.
Qed.
End Convert.

(** ** Rows and pages *)

Section Loop.
Context `{OS : OpenSSL} `{OSV : OpenSSLVault} `{BN : BigNum} `{CJ : CJson} (e : api_env).

Abbreviation rows_left s := (v3_count (a_identities s)).

Lemma convert_one_count now rnd s session a ok members session' s' :
  convert_one_v3_to_v4 now rnd s session a = Ok (ok, members, session', s') ->
  (rows_left s' + (if ok : bool then 1 else 0) = rows_left s)%nat.
Proof.
  unfold convert_one_v3_to_v4. intros ([rc c] & E & H)%bind_ok_inv.
  destruct (ensure_v4_sibling_v3 _ _ _ _ _ _ _ _ E) as [Hs Hok]. pose proof (v3_count_same _ _ Hs) as Hc.
  destruct rc; try (injection H as <- <- <- <-; cbn; lia).
  injection H as <- <- <- <-. cbn. specialize (Hok eq_refl). rewrite <- Hs in Hok. apply v3_count_delete in Hok. cbn in *. lia.
Qed.

(** The tallies: what is done and what is read past count the two lists. *)
Definition tallied (p : convert_progress) : Prop :=
  cp_done p = Z.of_nat (length (cp_converted p)) /\ cp_offset p = Z.of_nat (length (cp_failed p)).

(** A row is either gone or read past. *)
Lemma convert_rows_count rows s p p' s' : tallied p ->
  convert_rows e rows s p = Ok (p', s') ->
  tallied p'
  /\ Z.of_nat (rows_left s') + cp_done p' = Z.of_nat (rows_left s) + cp_done p
  /\ cp_done p' + cp_offset p' = cp_done p + cp_offset p + Z.of_nat (length rows)
  /\ cp_done p <= cp_done p' /\ cp_offset p <= cp_offset p'.
Proof.
  revert s p. induction rows as [|row rows IH]; intros s p Ht H; cbn in H.
  - injection H as <- <-. cbn. split_and!; (done || lia).
  - apply bind_ok_inv in H as ([[[ok members] session] s1] & E & H). apply convert_one_count in E.
    destruct Ht as [T1 T2]. destruct ok; apply IH in H as (T & H1 & H2 & H3 & H4); cbn in *.
    1, 3: split_and!; (done || lia). all: split; cbn; rewrite ?length_app; cbn; lia.
Qed.

(** Every turn but the last treats a row. *)
Lemma convert_loop_ends fuel limit s p : tallied p -> cp_done p <= limit < 2 ^ 63 ->
  cp_offset p <= Z.of_nat (rows_left s) < 2 ^ 63 ->
  Z.of_nat (rows_left s) - cp_offset p + 2 <= Z.of_nat fuel ->
  exists r, convert_loop fuel e limit s p = Some r
    /\ forall p' s', r = Ok (p', s') ->
         tallied p' /\ cp_done p' <= limit
         /\ Z.of_nat (rows_left s') + cp_done p' = Z.of_nat (rows_left s) + cp_done p
         /\ (cp_done p' = limit \/ Z.of_nat (rows_left s') = cp_offset p').
Proof.
  revert s p. induction fuel as [|fuel IH]; intros s p Ht Hl Ho Hf; [lia|]. cbn [convert_loop].
  destruct (Z.ltb_spec (cp_done p) limit); [|eexists; split; [done|]; intros p' s' [= <- <-]; split_and!; (done || lia)].
  pose proof Ht as [T1 T2].
  pose proof (list_by_version_length (a_identities s) (limit - cp_done p) (cp_offset p) ltac:(lia) ltac:(lia)) as Hlen.
  set (rows := bm_identity_store_list_by_version _ _ _ _) in *.
  destruct (convert_rows e rows s p) as [[p1 s1]| |] eqn:E; [|by eexists|by eexists].
  apply convert_rows_count in E as (T & H1 & H2 & H3 & H4); [|done].
  destruct rows as [|row rows].
  - eexists. split; [done|]. cbn in *. intros p' s' [= <- <-]. split_and!; (done || lia).
  - cbn [length] in *. destruct (IH s1 p1) as (r & Er & Hr); [done|lia|lia|lia|]. exists r. split; [done|].
    intros p' s' E. destruct (Hr p' s' E) as (A & B & C & D). split_and!; (done || lia).
Qed.

(** ** Property *)

(** C28: The conversion of all version 3 addresses.  Its loop ends, at the latest after one turn for each
    address, although its pages move while it removes rows.  As many addresses are gone as
    are reported as converted, which are not more than the limit; and unless the limit was reached,
    as many are left as are reported as failed: the moving pages skipped none. *)
Theorem convert_v3_complete (limit : Z) (s : api_state) (passphrase : list Z) :
  0 <= limit < 2 ^ 63 -> bm_identity_store_count_by_version (a_identities s) 3 < 2 ^ 63 ->
  exists r, convert_loop (convert_fuel s) e limit s (convert_begin passphrase) = Some r
    /\ forall p s', r = Ok (p, s') ->
         Z.of_nat (length (cp_converted p)) <= limit
         /\ bm_identity_store_count_by_version (a_identities s') 3 + Z.of_nat (length (cp_converted p))
            = bm_identity_store_count_by_version (a_identities s) 3
         /\ (Z.of_nat (length (cp_converted p)) = limit
             \/ bm_identity_store_count_by_version (a_identities s') 3 = Z.of_nat (length (cp_failed p))).
Proof.
  intros Hl Hc. rewrite count_by_version_v3 in Hc.
  destruct (convert_loop_ends (convert_fuel s) limit s (convert_begin passphrase)) as (r & E & H); cbn; [done|lia|lia| |].
  { unfold convert_fuel, v3_count. unfold v3_rows.
    epose proof (map_size_filter (fun kr : list Z * bm_identity_row => is_v3 kr.2 = true) (identities (a_identities s))). lia. }
  exists r. split; [done|]. intros p s' Er. destruct (H p s' Er) as ([T1 T2] & H1 & H2 & H3).
  rewrite !count_by_version_v3. cbn in *. rewrite T1, T2 in *. split_and!; lia.
Qed.
End Loop.

(** ** Witness *)

Section ConvertWitness.
#[local] Existing Instance toy_OpenSSL.
#[local] Existing Instance toy_vault.
#[local] Existing Instance toy_CJson.

Definition convert_state_0 : api_state := api_state_0 <| a_identities := ring_db |>.

Lemma convert_v3_complete_witness : exists p s',
  convert_loop (convert_fuel convert_state_0) api_env_0 10 convert_state_0 (convert_begin ring_pass) = Some (Ok (p, s'))
  /\ length (cp_converted p) = 1%nat /\ length (cp_failed p) = 0%nat
  /\ (Z.of_nat (length (cp_converted p)) = 10
      \/ bm_identity_store_count_by_version (a_identities s') 3 = Z.of_nat (length (cp_failed p))).
Proof.
  destruct (convert_v3_complete api_env_0 10 convert_state_0 ring_pass) as (r & E & H); [done|by vm_compute|].
  assert (Hr : match convert_loop (convert_fuel convert_state_0) api_env_0 10 convert_state_0 (convert_begin ring_pass) with
               | Some (Ok (p, _)) => (length (cp_converted p) =? 1)%nat && (length (cp_failed p) =? 0)%nat | _ => false end = true)
    by (vm_compute; reflexivity).
  rewrite E in Hr. destruct r as [[p s']| |]; [|discriminate Hr|discriminate Hr].
  apply andb_true_iff in Hr as [H1%Nat.eqb_eq H2%Nat.eqb_eq]. destruct (H p s' eq_refl) as (_ & _ & H3).
  exists p, s'. exact (conj E (conj H1 (conj H2 H3))).
Defined.
End ConvertWitness.
