(* ===== verification/HttpClient.v ===== *)
(** * The HTTP client of the command line (cli/http_client.c)

    One request over one connection.  What the kernel does is an argument: whether it connects,
    how much of the request [write] takes, and into which pieces [read] cuts the answer.  The
    base64 encoder of OpenSSL is the class [Base64]. *)

From Stdlib Require Import String.
From stdpp Require Import base tactics numbers option list.
From S2P Require Import Prelude Json Sql PeerManager Config.

#[local] Arguments be_split : simpl never.

(** [EVP_EncodeBlock]: the text without its NUL. *)
Class Base64 := { EVP_EncodeBlock : list Z -> list Z }.

Class Base64Laws `{Base64} : Prop := {
  encode_length s : blen (EVP_EncodeBlock s) = 4 * ((blen s + 2) / 3);
  encode_no_nul s : Forall (fun c => c <> 0) (EVP_EncodeBlock s);
}.

(** What the kernel answers.  [ka_size i]: how much the [i]-th [read] would like to give. *)
Record kernel_answers := {
  ka_connected : bool;
  ka_written : Z;
  ka_stream : list Z;
  ka_size : nat -> Z
}.

(** [strstr]: the text from the first occurrence on. *)
Fixpoint strstr (s needle : list Z) : option (list Z) :=
  if list_eqb (take (length needle) s) needle then Some s else
  match s with [] => None | _ :: s => strstr s needle end.

Definition crlf : list Z := [13; 10].

Section Http.
Context `{B64 : Base64}.

(** The header line of the credentials, built in arrays of 256, 384 and 512 bytes. *)
Definition auth_header (username password : option (list Z)) : cres (list Z) :=
  match username with
  | None => Ok []
  | Some username =>
      let credentials := text_field 256 (username ++ [58] ++ default [] password) in
      encoded ← wr (malloc 384) 0 (EVP_EncodeBlock credentials);
      encoded ← wr encoded (blen (EVP_EncodeBlock credentials)) [0];
      Ok (text_field 512 (cstr "Authorization: Basic "%string ++ c_string encoded ++ crlf))
  end.

(** The text that [snprintf] writes, if there is room. *)
Definition request_text (host auth body : list Z) : list Z :=
  cstr "POST / HTTP/1.1"%string ++ crlf ++ cstr "Host: "%string ++ host ++ crlf ++ auth
  ++ cstr "Content-Type: application/json"%string ++ crlf ++ cstr "Connection: close"%string ++ crlf
  ++ cstr "Content-Length: "%string ++ fmt_lld (blen body) ++ crlf ++ crlf ++ body.

(** The bytes given to [write]: as many as the text has, from the block it was written to. *)
Definition request_bytes (host auth body : list Z) : cres (list Z) :=
  let text := request_text host auth body in
  let request_cap := blen host + blen body + blen auth + 256 in
  request ← wr (malloc request_cap) 0 (text_field request_cap text ++ [0]);
  rdn request 0 (blen text).

(** The loop over [read]; [fuel] bounds the number of its turns. *)
Fixpoint read_loop (fuel : nat) (size : nat -> Z) (i : nat) (resp : list Z) (len cap : Z) (stream : list Z)
  : cres (list Z * Z) :=
  match fuel with
  | O => Ub
  | S fuel =>
      let '(resp, cap) := if len + 4096 >? cap then (resp ++ malloc cap, cap * 2) else (resp, cap) in
      match stream with
      | [] => Ok (resp, len)
      | _ =>
          let n := Z.max 1 (Z.min (size i) (Z.min (cap - len - 1) (blen stream))) in
          resp ← wr resp len (take (Z.to_nat n) stream);
          read_loop fuel size (S i) resp (len + n) cap (drop (Z.to_nat n) stream)
      end
  end.

(** The answer in the buffer: its body and its status. *)
Definition parse_response (resp : list Z) (len : Z) : cres (option (list Z) * Z) :=
  if (len <? 12) || negb (list_eqb (take 9 resp) (cstr "HTTP/1.1 "%string)) then Ok (None, 0) else
  status ← atoi (c_string (drop 9 resp));
  Ok (drop 4 <$> strstr (c_string resp) (crlf ++ crlf), status).

(** The body of the answer, its status, and what [write] took of the request. *)
Definition bm_http_post_json (host : list Z) (username password : option (list Z)) (body : list Z) (k : kernel_answers)
  : cres (option (list Z) * Z * list Z) :=
  if negb (ka_connected k) then Ok (None, 0, []) else
  auth ← auth_header username password;
  request ← request_bytes host auth body;
  let written := take (Z.to_nat (ka_written k)) request in
  if negb (ka_written k =? blen request) then Ok (None, 0, written) else
  '(resp, len) ← read_loop (S (length (ka_stream k))) (ka_size k) 0 (malloc 65536) 0 65536 (ka_stream k);
  resp ← wr resp len [0];
  '(answer, status) ← parse_response resp len;
  Ok (answer, status, written).
End Http.

(** ** Lemmas *)

Lemma strstr_first s t :
  strstr (s ++ [13; 10; 13]) (crlf ++ crlf) = None -> strstr (s ++ crlf ++ crlf ++ t) (crlf ++ crlf) = Some (crlf ++ crlf ++ t).
Proof.
  induction s as [|c s IH]; intros H; [done|]. cbn [strstr app] in *.
  assert (E : take (length (crlf ++ crlf)) (c :: s ++ crlf ++ crlf ++ t) = take (length (crlf ++ crlf)) (c :: s ++ [13; 10; 13])).
  { change (length (crlf ++ crlf)) with 4%nat. by do 4 (destruct s as [|? s]; [done|]). }
  rewrite E. destruct (list_eqb _ _); [done|]. by apply IH.
Qed.

Lemma text_field_fits n s : blen s < n -> text_field n s = s.
Proof. intros. unfold text_field, blen in *. apply take_ge. lia. Qed.

Lemma c_string_stop a t : Forall (fun c => c <> 0) a -> c_string (a ++ 0 :: t) = a.
Proof.
  induction 1 as [|c a Hc _ IH]; [done|]. cbn [app c_string]. rewrite (proj2 (Z.eqb_neq c 0)) by done. by rewrite IH.
Qed.

Lemma c_string_end a t : c_string (a ++ 0 :: t) = c_string a.
Proof. induction a as [|c a IH]; [done|]. cbn [app c_string]. by rewrite IH. Qed.

Section HttpLemmas.
Context `{BL : Base64Laws}.

(** The arrays are large enough for any credentials, of which 255 bytes count. *)
Lemma auth_header_ok username password :
  auth_header username password
  = Ok (match username with
        | None => []
        | Some u => cstr "Authorization: Basic "%string
                      ++ EVP_EncodeBlock (take 255 (u ++ [58] ++ default [] password)) ++ crlf
        end).
Proof.
  destruct username as [u|]; [|done]. unfold auth_header. change (text_field 256 ?s) with (take 255 s).
  set (cred := take 255 _). pose proof (encode_length cred) as Hl. pose proof (encode_no_nul cred) as Hz.
  assert (Hc : blen cred <= 255) by (unfold cred, blen; rewrite length_take; lia).
  assert (blen (EVP_EncodeBlock cred) <= 340).
  { rewrite Hl. pose proof (Z.div_le_mono (blen cred + 2) 257 3 ltac:(lia) ltac:(lia)). change (257 / 3) with 85 in *. lia. }
  pose proof (blen_nonneg (EVP_EncodeBlock cred)).
  rewrite wr_malloc_start, bind_ok, wr_malloc, bind_ok by (rewrite ?blen_cons, ?blen_nil; lia).
  rewrite <- app_assoc. cbn [app]. rewrite c_string_stop by done. f_equal. apply text_field_fits.
  rewrite !blen_app. change (blen (cstr _)) with 21. change (blen crlf) with 2. lia.
Qed.

(** The block of the request is large enough, and all of it is written. *)
Lemma request_bytes_ok host auth body : request_bytes host auth body = Ok (request_text host auth body).
Proof.
  unfold request_bytes. set (text := request_text host auth body). set (cap := _ + 256).
  assert (Hf : blen (fmt_lld (blen body)) <= 20) by (unfold blen at 1; pose proof (fmt_lld_text (blen body)); lia).
  assert (Ht : blen text < cap).
  { unfold text, request_text, cap. rewrite !blen_app. change (blen crlf) with 2. repeat change (blen (cstr _)) with 15.
    assert (blen (cstr "POST / HTTP/1.1") + blen (cstr "Host: ") + blen (cstr "Content-Type: application/json")
            + blen (cstr "Connection: close") + blen (cstr "Content-Length: ") = 84)%string by (vm_compute; reflexivity). lia. }
  pose proof (blen_nonneg text). rewrite text_field_fits by done.
  rewrite wr_malloc_start, bind_ok by (rewrite blen_app, blen_cons, blen_nil; lia).
  rewrite <- app_assoc. by apply rdn_prefix.
Qed.

(** However the answer is cut, the buffer grows with it. *)
Lemma read_loop_ok fuel size i data len cap stream :
  (length stream < fuel)%nat -> len = blen data -> len < cap -> 4096 <= cap ->
  exists rest, 1 <= rest /\ read_loop fuel size i (data ++ malloc (cap - len)) len cap stream
    = Ok ((data ++ stream) ++ malloc rest, len + blen stream).
Proof.
  revert i data len cap stream. induction fuel as [|fuel IH]; intros i data len cap stream Hf Hl Hc Hcap; [lia|].
  cbn [read_loop]. pose proof (blen_nonneg data).
  assert (Hg : exists cap', (if len + 4096 >? cap then ((data ++ malloc (cap - len)) ++ malloc cap, cap * 2)
                             else (data ++ malloc (cap - len), cap)) = (data ++ malloc (cap' - len), cap')
                            /\ len + 4096 <= cap').
  { destruct (Z.gtb_spec (len + 4096) cap); [|by exists cap].
    exists (cap * 2). split; [|lia]. f_equal. rewrite <- app_assoc, <- malloc_app by lia. do 2 f_equal. lia. }
  destruct Hg as (cap' & -> & Hcap'). destruct stream as [|c s] eqn:Es.
  { exists (cap' - len). rewrite blen_nil, app_nil_r, Z.add_0_r. split; [lia|done]. }
  rewrite <- Es in *. assert (Hs : 0 < blen stream) by (subst; rewrite blen_cons; pose proof (blen_nonneg s); lia).
  set (n := Z.max 1 (Z.min (size i) (Z.min (cap' - len - 1) (blen stream)))).
  assert (Hn : 1 <= n <= blen stream /\ n < cap' - len) by (unfold n; lia).
  pose proof (take_drop (Z.to_nat n) stream) as Htd.
  assert (Ht : blen (take (Z.to_nat n) stream) = n) by (apply blen_take; lia).
  rewrite wr_malloc, bind_ok by lia. rewrite Ht.
  destruct (IH (S i) (data ++ take (Z.to_nat n) stream) (len + n) cap' (drop (Z.to_nat n) stream)) as (rest & Hr & E);
    [unfold blen in *; rewrite length_drop; lia|rewrite blen_app; lia|lia|lia|].
  exists rest. split; [done|]. replace (cap' - len - n) with (cap' - (len + n)) by lia. rewrite E.
  rewrite <- (app_assoc data), Htd. do 2 f_equal. rewrite blen_drop by lia. lia.
Qed.

(** A call ends, whatever the kernel does, unless the number after HTTP/1.1 fits no [int]. *)
Lemma http_post_total host username password body k status :
  atoi (c_string (drop 9 (ka_stream k))) = Ok status -> exists r, bm_http_post_json host username password body k = Ok r.
Proof.
  intros Ha. unfold bm_http_post_json. destruct (ka_connected k); cbn [negb]; [|by eexists].
  rewrite auth_header_ok, bind_ok, request_bytes_ok, bind_ok. destruct (_ =? _); cbn [negb]; [|by eexists].
  destruct (read_loop_ok (S (length (ka_stream k))) (ka_size k) 0 [] 0 65536 (ka_stream k)) as (rest & Hr & E); [lia|done|lia|lia|].
  cbn [app] in E. rewrite Z.sub_0_r in E. rewrite E, bind_ok. cbv beta iota.
  rewrite wr_malloc, bind_ok by (rewrite ?blen_cons, ?blen_nil; lia). unfold parse_response.
  destruct (Z.ltb_spec (0 + blen (ka_stream k)) 12); [by eexists|]. destruct (negb _); [by eexists|]. cbn [orb].
  rewrite <- (app_assoc (ka_stream k)), drop_app_le by (unfold blen in *; lia). cbn [app].
  rewrite !c_string_end, Ha, !bind_ok. by eexists.
Qed.

(** The text of the whole request. *)
Definition whole_request (host : list Z) (username password : option (list Z)) (body : list Z) : cres (list Z) :=
  auth ← auth_header username password;
  Ok (request_text host auth body).

(** What reaches a kernel that connects is the request, up to what [write] takes. *)
Lemma http_post_written host username password body k answer status written :
  bm_http_post_json host username password body k = Ok (answer, status, written) -> ka_connected k = true ->
  exists request, whole_request host username password body = Ok request
    /\ written = take (Z.to_nat (ka_written k)) request.
Proof.
  unfold bm_http_post_json, whole_request. intros E Hc. rewrite Hc in E. cbn [negb] in E.
  rewrite auth_header_ok, bind_ok, request_bytes_ok, bind_ok in E. rewrite auth_header_ok, bind_ok.
  eexists. split; [done|]. destruct (negb _); [by injection E as _ _ <-|].
  by apply bind_ok_inv in E as ([? ?] & _ & (? & _ & ([? ?] & _ & [= _ _ <-])%bind_ok_inv)%bind_ok_inv).
Qed.

(** A response that comes while the connection is up is given to the caller: its status, and its
    body, whatever the pieces it comes in; and the whole request was written. *)
Theorem http_post_answered (host body head answer : list Z) (username password : option (list Z)) (k : kernel_answers)
  (status : Z) :
  ka_connected k = true ->
  (forall auth, auth_header username password = Ok auth -> ka_written k = blen (request_text host auth body)) ->
  ka_stream k = cstr "HTTP/1.1 "%string ++ head ++ crlf ++ crlf ++ answer ->
  Forall (fun c => c <> 0) (ka_stream k) ->
  strstr (cstr "HTTP/1.1 "%string ++ head ++ [13; 10; 13]) (crlf ++ crlf) = None ->
  atoi (head ++ crlf ++ crlf ++ answer) = Ok status ->
  exists request, whole_request host username password body = Ok request
    /\ bm_http_post_json host username password body k = Ok (Some answer, status, request).
Proof.
  intros Hcon Hw Hs Hz Hh Ha. unfold whole_request. rewrite auth_header_ok, bind_ok. eexists. split; [done|]. unfold bm_http_post_json. rewrite Hcon. cbn [negb]. specialize (Hw _ (auth_header_ok _ _)).
  rewrite auth_header_ok, bind_ok, request_bytes_ok, bind_ok, Hw, Z.eqb_refl. cbn [negb].
  destruct (read_loop_ok (S (length (ka_stream k))) (ka_size k) 0 [] 0 65536 (ka_stream k)) as (rest & Hr & E); [lia|done|lia|lia|].
  cbn [app] in E. rewrite Z.sub_0_r in E. rewrite E, bind_ok. cbv beta iota.
  rewrite wr_malloc, bind_ok by (rewrite ?blen_cons, ?blen_nil; lia). unfold parse_response.
  rewrite <- (app_assoc (ka_stream k)). cbn [app]. rewrite (c_string_stop (ka_stream k)) by done. rewrite Hs in *.
  assert (Hlen : 12 <= blen (cstr "HTTP/1.1 "%string ++ head ++ crlf ++ crlf ++ answer)).
  { rewrite !blen_app. change (blen (cstr _)) with 9. change (blen crlf) with 2.
    pose proof (blen_nonneg head). pose proof (blen_nonneg answer). lia. }
  zdec. cbn [orb]. change (take 9 _) with (cstr "HTTP/1.1 "%string). rewrite list_eqb_refl. cbn [negb].
  change (drop 9 _) with ((head ++ crlf ++ crlf ++ answer) ++ 0 :: malloc (rest - blen [0])).
  apply Forall_app in Hz as [_ Hz]. rewrite c_string_stop, Ha, bind_ok by done.
  rewrite (app_assoc (cstr _) head) in *. rewrite (strstr_first _ _ Hh), bind_ok. cbv beta iota. rewrite take_ge by (unfold blen; lia). done.
Qed.
End HttpLemmas.
