(* ===== verification/Client.v ===== *)
(** * The command-line client (cli/main.c)

    A command makes one call of the API server or, for those that read a file, a series of
    calls.  The answers of the server, the contents of the files and what the kernel does
    are arguments; a run collects the bodies of the requests it makes, and [written_for] says what of
    such a request reaches the kernel.  Messages for the user, which gettext translates, and the counts in
    them of what succeeded are not represented, the text of a result is. *)

From Stdlib Require Import String.
From stdpp Require Import base tactics numbers option list.
From S2P Require Import Prelude Json Sql PeerManager Config HttpClient.

Record bm_cli_env := {
  env_host : list Z;
  env_port : Z;
  env_user : option (list Z);
  env_pass : option (list Z)
}.

(** The environment, at the start of [main]. *)
Definition read_env (getenv : list Z -> option (list Z)) : cres bm_cli_env :=
  port ← match getenv (cstr "BM_API_PORT"%string) with Some port_str => atoi port_str | None => Ok 8442 end;
  Ok {| env_host := default (cstr "127.0.0.1"%string) (getenv (cstr "BM_API_HOST"%string)); env_port := port;
        env_user := getenv (cstr "BM_API_USER"%string); env_pass := getenv (cstr "BM_API_PASS"%string) |}.

(** Lower case in the C locale, which the client keeps for LC_CTYPE of ASCII letters. *)
Definition tolower (c : Z) : Z := if (65 <=? c) && (c <=? 90) then c + 32 else c.
Definition strcasecmp_eq (a b : list Z) : bool := list_eqb (map tolower a) (map tolower b).

Definition blank (c : Z) : bool := (c =? 32) || (c =? 9).
Definition trim_inplace (s : list Z) : list Z :=
  rev (skip_while (fun c => blank c || (c =? 13)) (rev (skip_while blank s))).

(** The line in the array: what [fgets] read, to its first NUL or newline. *)
Fixpoint line_text (l : list Z) : list Z :=
  match l with c :: l => if (c =? 0) || (c =? 10) then [] else c :: line_text l | [] => [] end.

Definition starts_with (p s : list Z) : bool := list_eqb (take (length p) s) p.

Definition KEYS_DAT_LINE_MAX : nat := 4096.
Definition KEYS_DAT_FIELD_MAX : Z := 256.
Definition KEYS_DAT_ADDRESS_MAX : Z := 64.
Definition KEYS_DAT_BATCH_SIZE : nat := 300.
Definition UNLOCK_ADDRESSES_BATCH_SIZE : nat := 1000.
Definition BM_BODY_READ_CHUNK : Z := 65536.
Definition BM_MAX_SUBJECT_PLUS_BODY_LEN : Z := Z.shiftl 1 18 - 500.
Definition EXIT_SUCCESS : Z := 0.
Definition EXIT_FAILURE : Z := 1.

(** The lines that [fgets] makes of a file, trimmed; [fuel] bounds their number. *)
Fixpoint read_lines (fuel : nat) (file : list Z) : list (list Z) :=
  match fuel, file with
  | S fuel, _ :: _ =>
      let '(line, rest) := fgets (KEYS_DAT_LINE_MAX - 1) file in
      trim_inplace (line_text line) :: read_lines fuel rest
  | _, _ => []
  end.
Definition file_lines (file : list Z) : list (list Z) := read_lines (length file) file.

Section Client.
Context `{CD : CDouble} `{B64 : Base64}.
Context (env : bm_cli_env) (kernel : nat -> list Z -> kernel_answers).

(** ** Calls *)

(** The requests made so far, in order: their bodies, also of those that did not get through. *)
Abbreviation calls := (list (list Z)).

Inductive rpc_outcome :=
| No_connection
| No_authentication
| Not_json (status : Z)
| Error_answer (message : option (list Z))
| Response (v : bm_json_value).

Definition key (k : string) : list Z := cstr k.

Definition request_tree (method : list Z) (params : bm_json_value) : bm_json_value :=
  let req := bm_json_new_object in
  let req := bm_json_object_set req (key "jsonrpc") (bm_json_new_string (cstr "2.0"%string)) in
  let req := bm_json_object_set req (key "method") (bm_json_new_string method) in
  let req := bm_json_object_set req (key "params") params in
  bm_json_object_set req (key "id") (bm_json_new_number (of_llong 1)).

Definition call_rpc_raw (w : calls) (method : list Z) (params : bm_json_value) : cres (rpc_outcome * calls) :=
  body ← bm_json_serialize (Some (request_tree method params));
  '(resp, status, _) ← bm_http_post_json (env_host env) (env_user env) (env_pass env) body (kernel (length w) body);
  let w := w ++ [body] in
  match resp with
  | None => Ok (No_connection, w)
  | Some resp =>
      if status =? 401 then Ok (No_authentication, w) else
      match bm_json_parse resp with
      | Ub => Ub
      | Err => Ok (Not_json status, w)
      | Ok v =>
          match bm_json_object_get (Some v) (key "error") with
          | Some error => Ok (Error_answer (bm_json_as_string (bm_json_object_get (Some error) (key "message"))), w)
          | None => Ok (Response v, w)
          end
      end
  end.

(** What [write] took of the [i]-th request, when its body is [body]. *)
Definition written_for (i : nat) (body : list Z) : cres (list Z) :=
  '(_, _, written) ← bm_http_post_json (env_host env) (env_user env) (env_pass env) body (kernel i body);
  Ok written.

(** A run: its exit status, the text of the result that is printed, and the requests made. *)
Record run := { r_status : Z; r_printed : option (list Z); r_calls : calls }.

Definition stop : cres run := Ok {| r_status := EXIT_FAILURE; r_printed := None; r_calls := [] |}.

Definition call_rpc (method : string) (params : list bm_json_value) : cres run :=
  '(outcome, w) ← call_rpc_raw [] (cstr method) (BM_JSON_ARRAY params);
  match outcome with
  | Response v =>
      text ← bm_json_serialize (bm_json_object_get (Some v) (key "result"));
      Ok {| r_status := EXIT_SUCCESS; r_printed := Some text; r_calls := w |}
  | _ => Ok {| r_status := EXIT_FAILURE; r_printed := None; r_calls := w |}
  end.

(** ** keys.dat *)

Record keys_dat_entry := {
  kd_address : list Z;
  kd_label : list Z;
  kd_signing_wif : list Z;
  kd_encryption_wif : list Z;
  kd_nonce_trials_per_byte : Z;
  kd_payload_length_extra_bytes : Z;
  kd_has_signing : bool;
  kd_has_encryption : bool;
  kd_is_chan : bool
}.
#[local] Instance keys_dat_entry_eta : RecordEta keys_dat_entry := fun e =>
  Build_keys_dat_entry (kd_address e) (kd_label e) (kd_signing_wif e) (kd_encryption_wif e) (kd_nonce_trials_per_byte e)
    (kd_payload_length_extra_bytes e) (kd_has_signing e) (kd_has_encryption e) (kd_is_chan e).

Definition no_entry : keys_dat_entry :=
  {| kd_address := []; kd_label := []; kd_signing_wif := []; kd_encryption_wif := []; kd_nonce_trials_per_byte := 0;
     kd_payload_length_extra_bytes := 0; kd_has_signing := false; kd_has_encryption := false; kd_is_chan := false |}.

(** The members that are set in the object of one entry. *)
Definition entry_json (e : keys_dat_entry) : bm_json_value :=
  let number n := bm_json_new_number (of_llong (if n >? 0 then n else 1000)) in
  let entry := bm_json_new_object in
  let entry := bm_json_object_set entry (key "address") (bm_json_new_string (kd_address e)) in
  let entry := bm_json_object_set entry (key "signingWIF") (bm_json_new_string (kd_signing_wif e)) in
  let entry := bm_json_object_set entry (key "encryptionWIF") (bm_json_new_string (kd_encryption_wif e)) in
  let entry := bm_json_object_set entry (key "label") (bm_json_new_string (kd_label e)) in
  let entry := bm_json_object_set entry (key "nonceTrialsPerByte") (number (kd_nonce_trials_per_byte e)) in
  let entry := bm_json_object_set entry (key "payloadLengthExtraBytes") (number (kd_payload_length_extra_bytes e)) in
  if kd_is_chan e then bm_json_object_set entry (key "isChan") (bm_json_new_bool 1) else entry.

Definition json_is_true (v : option bm_json_value) : bool :=
  match v with Some (BM_JSON_BOOL b) => b | _ => false end.

(** How many items of an answer have [true] under [k], and how many have not. *)
Definition tally (k : string) (items : list bm_json_value) (good bad : Z) : Z * Z :=
  fold_left (fun acc item => if json_is_true (bm_json_object_get (Some item) (key k))
                             then (acc.1 + 1, acc.2) else (acc.1, acc.2 + 1)) items (good, bad).

(** One batch: the counts of imported and failed entries, and the requests made. *)
Definition flush_keys_dat_batch (batch : list keys_dat_entry) (store_passphrase : list Z) (acc : Z * Z * calls)
  : cres (Z * Z * calls) :=
  match batch with
  | [] => Ok acc
  | _ =>
      let '(imported, failed, w) := acc in
      let params := BM_JSON_ARRAY [BM_JSON_ARRAY (map entry_json batch); bm_json_new_string store_passphrase] in
      '(outcome, w) ← call_rpc_raw w (cstr "importAddressesBulk"%string) params;
      Ok (match outcome with
          | Response v =>
              match bm_json_object_get (Some v) (key "result") with
              | Some (BM_JSON_ARRAY items) => (tally "success" items imported failed, w)
              | _ => (imported, failed + Z.of_nat (length batch), w)
              end
          | _ => (imported, failed + Z.of_nat (length batch), w)
          end)
  end.

(** A section header: the address between the brackets, when it is one. *)
Fixpoint until (stop : Z) (s : list Z) : option (list Z) :=
  match s with [] => None | c :: s => if c =? stop then Some [] else match until stop s with Some r => Some (c :: r) | None => None end end.
Definition section_address (trimmed : list Z) : option (list Z) :=
  match until 93 trimmed with
  | Some (_ :: name) => if starts_with (cstr "BM-"%string) name then Some (text_field KEYS_DAT_ADDRESS_MAX name) else None
  | _ => None
  end.

(** Key and value of a line, both trimmed. *)
Definition key_value (trimmed : list Z) : option (list Z * list Z) :=
  match split_eq trimmed with
  | Some (k, v) => Some (trim_inplace k, trim_inplace v)
  | None => None
  end.

Definition field (v : list Z) : list Z := text_field KEYS_DAT_FIELD_MAX v.

Definition apply_key (cur : keys_dat_entry) (k v : list Z) : cres keys_dat_entry :=
  if strcasecmp_eq k (key "label") then Ok (cur <| kd_label := field v |>)
  else if strcasecmp_eq k (key "privsigningkey")
  then Ok (cur <| kd_signing_wif := field v |> <| kd_has_signing := true |>)
  else if strcasecmp_eq k (key "privencryptionkey")
  then Ok (cur <| kd_encryption_wif := field v |> <| kd_has_encryption := true |>)
  else if strcasecmp_eq k (key "noncetrialsperbyte") then n ← atoll v; Ok (cur <| kd_nonce_trials_per_byte := n |>)
  else if strcasecmp_eq k (key "payloadlengthextrabytes")
  then n ← atoll v; Ok (cur <| kd_payload_length_extra_bytes := n |>)
  else if strcasecmp_eq k (key "chan") then Ok (cur <| kd_is_chan := strcasecmp_eq v (key "true") |>)
  else Ok cur.

(** ** Batches

    Both series of calls collect what they send in an array, for which a call is made when it is full and
    once more at the end.  [flush]: the call; its accumulator carries the counts. *)
Definition push_batch {A} (size : nat) (flush : list A -> Z * Z * calls -> cres (Z * Z * calls)) (x : A)
  (st : list A * (Z * Z * calls)) : cres (list A * (Z * Z * calls)) :=
  let batch := st.1 ++ [x] in
  if (size <=? length batch)%nat then acc ← flush batch st.2; Ok ([], acc) else Ok (batch, st.2).

(** ** import-keys-dat *)

(** [im_cur]: the entry of the section that is open, if it is that of an address. *)
Record import_state := {
  im_cur : option keys_dat_entry;
  im_batch : list keys_dat_entry * (Z * Z * calls);
  im_skipped_no_keys : Z
}.

Definition complete (e : keys_dat_entry) : bool := kd_has_signing e && kd_has_encryption e.

(** A section ends with the next header. *)
Definition close_section (pass : list Z) (st : import_state) : cres import_state :=
  match im_cur st with
  | None => Ok st
  | Some cur =>
      if complete cur then
        b ← push_batch KEYS_DAT_BATCH_SIZE (fun batch => flush_keys_dat_batch batch pass) cur (im_batch st);
        Ok {| im_cur := im_cur st; im_batch := b; im_skipped_no_keys := im_skipped_no_keys st |}
      else Ok {| im_cur := im_cur st; im_batch := im_batch st; im_skipped_no_keys := im_skipped_no_keys st + 1 |}
  end.

Definition open_section (trimmed : list Z) : option keys_dat_entry :=
  match section_address trimmed with Some a => Some (no_entry <| kd_address := a |>) | None => None end.

Definition is_comment (c : Z) : bool := (c =? 35) || (c =? 59).

Definition import_line (pass : list Z) (st : import_state) (trimmed : list Z) : cres import_state :=
  match trimmed with
  | [] => Ok st
  | c :: _ =>
      if is_comment c then Ok st else
      if c =? 91 then
        st ← close_section pass st;
        Ok {| im_cur := open_section trimmed; im_batch := im_batch st; im_skipped_no_keys := im_skipped_no_keys st |}
      else
        match im_cur st, key_value trimmed with
        | Some cur, Some (k, v) =>
            cur ← apply_key cur k v;
            Ok {| im_cur := Some cur; im_batch := im_batch st; im_skipped_no_keys := im_skipped_no_keys st |}
        | _, _ => Ok st
        end
  end.

Fixpoint import_lines (pass : list Z) (st : import_state) (lines : list (list Z)) : cres import_state :=
  match lines with
  | [] => Ok st
  | l :: lines => st ← import_line pass st l; import_lines pass st lines
  end.

(** The last section, which no header ends, goes to the last batch without a look at its size. *)
Definition close_last (st : import_state) : import_state :=
  match im_cur st with
  | None => st
  | Some cur =>
      if complete cur
      then {| im_cur := im_cur st; im_batch := ((im_batch st).1 ++ [cur], (im_batch st).2);
              im_skipped_no_keys := im_skipped_no_keys st |}
      else {| im_cur := im_cur st; im_batch := im_batch st; im_skipped_no_keys := im_skipped_no_keys st + 1 |}
  end.

(** The counts that are printed: succeeded, failed, skipped; and the requests made. *)
Definition import_counts (file pass : list Z) : cres (Z * Z * Z * calls) :=
  st ← import_lines pass {| im_cur := None; im_batch := ([], (0, 0, [])); im_skipped_no_keys := 0 |} (file_lines file);
  let st := close_last st in
  '(imported, failed, w) ← flush_keys_dat_batch (im_batch st).1 pass (im_batch st).2;
  Ok (imported, failed, im_skipped_no_keys st, w).

Definition exit_of (failed : Z) : Z := if failed =? 0 then EXIT_SUCCESS else EXIT_FAILURE.

(** [file]: what the file of the path holds, if it can be opened. *)
Definition import_keys_dat (file : option (list Z)) (store_passphrase : list Z) : cres run :=
  match file with
  | None => stop
  | Some file =>
      '(_, failed, _, w) ← import_counts file store_passphrase;
      Ok {| r_status := exit_of failed; r_printed := None; r_calls := w |}
  end.

(** ** unlock-addresses *)

Definition flush_unlock_addresses_batch (passphrase : list Z) (backfill : bool) (batch : list (list Z))
  (acc : Z * Z * calls) : cres (Z * Z * calls) :=
  match batch with
  | [] => Ok acc
  | _ =>
      let '(unlocked, failed, w) := acc in
      let params := BM_JSON_ARRAY [BM_JSON_ARRAY (map bm_json_new_string batch); bm_json_new_string passphrase;
                                   bm_json_new_bool (if backfill then 1 else 0)] in
      '(outcome, w) ← call_rpc_raw w (cstr "unlockAddresses"%string) params;
      Ok (match outcome with
          | Response v =>
              match bm_json_object_get (bm_json_object_get (Some v) (key "result")) (key "results") with
              | Some (BM_JSON_ARRAY items) => (tally "unlocked" items unlocked failed, w)
              | _ => (unlocked, failed + Z.of_nat (length batch), w)
              end
          | _ => (unlocked, failed + Z.of_nat (length batch), w)
          end)
  end.

Definition is_address_line (trimmed : list Z) : bool := match trimmed with [] => false | c :: _ => negb (c =? 35) end.

Fixpoint unlock_lines (passphrase : list Z) (backfill : bool) (st : list (list Z) * (Z * Z * calls)) (lines : list (list Z))
  : cres (list (list Z) * (Z * Z * calls)) :=
  match lines with
  | [] => Ok st
  | l :: lines =>
      st ← (if is_address_line l
            then push_batch UNLOCK_ADDRESSES_BATCH_SIZE (flush_unlock_addresses_batch passphrase backfill) l st
            else Ok st);
      unlock_lines passphrase backfill st lines
  end.

Definition unlock_counts (file passphrase : list Z) (backfill : bool) : cres (Z * Z * calls) :=
  st ← unlock_lines passphrase backfill ([], (0, 0, [])) (file_lines file);
  flush_unlock_addresses_batch passphrase backfill st.1 st.2.

Definition unlock_addresses_from_file (file : option (list Z)) (passphrase : list Z) (backfill : bool) : cres run :=
  match file with
  | None => stop
  | Some file =>
      '(_, failed, w) ← unlock_counts file passphrase backfill;
      Ok {| r_status := exit_of failed; r_printed := None; r_calls := w |}
  end.

(** ** fix-labels-from-keys-dat *)

Definition set_address_label (address label : list Z) (acc : Z * Z * calls) : cres (Z * Z * calls) :=
  let '(fixed, failed, w) := acc in
  '(outcome, w) ← call_rpc_raw w (cstr "setAddressLabel"%string)
                    (BM_JSON_ARRAY [bm_json_new_string address; bm_json_new_string label]);
  Ok (match outcome with Response _ => (fixed + 1, failed, w) | _ => (fixed, failed + 1, w) end).

(** The open section: its address and its label, empty while there is none. *)
Definition flush_label (cur : option (list Z * list Z)) (acc : Z * Z * calls) : cres (Z * Z * calls) :=
  match cur with
  | Some (address, c :: label) => set_address_label address (c :: label) acc
  | _ => Ok acc
  end.

Fixpoint fix_lines (cur : option (list Z * list Z)) (acc : Z * Z * calls) (lines : list (list Z)) : cres (Z * Z * calls) :=
  match lines with
  | [] => flush_label cur acc
  | trimmed :: lines =>
      match trimmed with
      | [] => fix_lines cur acc lines
      | c :: _ =>
          if is_comment c then fix_lines cur acc lines else
          if c =? 91 then
            acc ← flush_label cur acc;
            fix_lines (match section_address trimmed with Some a => Some (a, []) | None => None end) acc lines
          else
            match cur, key_value trimmed with
            | Some (address, label), Some (k, v) =>
                fix_lines (Some (address, if strcasecmp_eq k (key "label") then field v else label)) acc lines
            | _, _ => fix_lines cur acc lines
            end
      end
  end.

Definition fix_labels_from_keys_dat (file : option (list Z)) : cres run :=
  match file with
  | None => stop
  | Some file =>
      '(_, failed, w) ← fix_lines None (0, 0, []) (file_lines file);
      Ok {| r_status := exit_of failed; r_printed := None; r_calls := w |}
  end.

(** ** --body-file *)

(** The loop over [fread]; [fuel] bounds the number of its turns.  [error]: [ferror] at the end. *)
Fixpoint read_stream_loop (fuel : nat) (buf : list Z) (len cap : Z) (bytes : list Z) (error : bool)
  : cres (list Z * Z) :=
  match fuel with
  | O => Ub
  | S fuel =>
      let '(buf, cap) := if len + BM_BODY_READ_CHUNK + 1 >? cap then (buf ++ malloc cap, cap * 2) else (buf, cap) in
      let n := Z.min BM_BODY_READ_CHUNK (blen bytes) in
      buf ← wr buf len (take (Z.to_nat n) bytes);
      let len := len + n in
      if n <? BM_BODY_READ_CHUNK then if error then Err else Ok (buf, len)
      else if len >? BM_MAX_SUBJECT_PLUS_BODY_LEN then Ok (buf, len)
      else read_stream_loop fuel buf len cap (drop (Z.to_nat n) bytes) error
  end.

(** The text read; a NUL in it is an error. *)
Definition read_stream_all (bytes : list Z) (error : bool) : cres (list Z) :=
  let cap := BM_BODY_READ_CHUNK + 1 in
  '(buf, len) ← read_stream_loop (S (length bytes)) (malloc cap) 0 cap bytes error;
  buf ← wr buf len [0];
  if negb (blen (c_string buf) =? len) then Err else Ok (c_string buf).

(** A file: its bytes and whether reading it fails at the end; standard input has no path. *)
Context (files : option (list Z) -> option (list Z * bool)).

Definition load_body_file (path : list Z) : cres (list Z) :=
  match files (if list_eqb path (cstr "-"%string) then None else Some path) with
  | None => Err
  | Some (bytes, error) => read_stream_all bytes error
  end.

Definition BODY_FILE : list Z := cstr "--body-file"%string.

(** The first place of the option at or behind [i]. *)
Fixpoint find_option (i : nat) (argv : list (list Z)) : option nat :=
  match argv with
  | [] => None
  | a :: argv => if list_eqb a BODY_FILE then Some i else find_option (S i) argv
  end.

(** [Ok None]: the option is not there; [Err]: the error was printed. *)
Definition apply_body_file_option (argv : list (list Z)) (subject_index body_index : nat) : cres (option (list (list Z))) :=
  match find_option 2 (drop 2 argv) with
  | None => Ok None
  | Some opt_index =>
      match argv !! S opt_index with
      | None => Err
      | Some path =>
          let rest := take opt_index argv ++ drop (opt_index + 2) argv in
          if (length rest <? body_index)%nat then Err else
          body ← load_body_file path;
          match rest !! subject_index with
          | None => Ub
          | Some subject =>
              if blen subject + blen body >? BM_MAX_SUBJECT_PLUS_BODY_LEN then Err else
              Ok (Some (take body_index rest ++ [body] ++ drop body_index rest))
          end
      end
  end.

(** ** Commands *)

(** [strtod] with its end pointer and [errno]: the number, if it is the whole text and in range. *)
Context (strtod_whole : list Z -> option double).

Definition parse_number_arg (s : list Z) : cres double := or_err (strtod_whole s).

Section Command.
Context (argv : list (list Z)).

Definition arg (i : nat) : list Z := default [] (argv !! i).
Definition str (i : nat) : bm_json_value := bm_json_new_string (arg i).
(** [atof] *)
Definition num (i : nat) : bm_json_value := bm_json_new_number (strtod (arg i)).

(** The optional numbers of a send, from the argument [i] on. *)
Fixpoint send_numbers (n i : nat) : cres (list bm_json_value) :=
  match n with
  | O => Ok []
  | S n =>
      if (i <? length argv)%nat then
        d ← parse_number_arg (arg i);
        rest ← send_numbers n (S i);
        Ok (bm_json_new_number d :: rest)
      else Ok []
  end.

Definition call_send (method : string) (params : list bm_json_value) (n i : nat) : cres run :=
  match send_numbers n i with
  | Ub => Ub
  | Err => stop
  | Ok numbers => call_rpc method (params ++ numbers)
  end.

(** [argc] within the bounds, else the usage of the command. *)
Definition with_args (lo hi : nat) (k : cres run) : cres run :=
  if (length argv <? lo)%nat || (hi <? length argv)%nat then stop else k.

(** A parameter for an argument that may be missing. *)
Definition optional (i : nat) (v : bm_json_value) : list bm_json_value := if (i <? length argv)%nat then [v] else [].

Definition cmd_is (c : string) : bool := list_eqb (arg 1) (cstr c).

(** The commands from list-addresses to fix-labels-from-keys-dat; [next]: the comparisons behind them. *)
Definition identity_commands (next : cres run) : cres run :=
  (if cmd_is "list-addresses" then call_rpc "listAddresses" [] else
  if cmd_is "create-address"
  then with_args 8 8 (call_rpc "createDeterministicAddress" [str 2; num 3; num 4; num 5; str 6; str 7]) else
  if cmd_is "import-address"
  then with_args 7 9 (call_rpc "importAddress" ([str 2; str 3; str 4; str 5; str 6] ++ optional 7 (num 7) ++ optional 8 (num 8)))
  else
  if cmd_is "import-keys-dat" then with_args 4 4 (import_keys_dat (fst <$> files (Some (arg 2))) (arg 3)) else
  if cmd_is "set-label" then with_args 4 4 (call_rpc "setAddressLabel" [str 2; str 3]) else
  if cmd_is "fix-labels-from-keys-dat" then with_args 3 3 (fix_labels_from_keys_dat (fst <$> files (Some (arg 2)))) else next)%string.

(** From join-chan to cache-pubkey. *)
Definition key_commands (next : cres run) : cres run :=
  (if cmd_is "join-chan" then with_args 5 5 (call_rpc "joinChan" [str 2; str 3; str 4]) else
  if cmd_is "unlock" then with_args 4 4 (call_rpc "unlockAddress" [str 2; str 3]) else
  if cmd_is "export-address" then with_args 4 4 (call_rpc "exportAddress" [str 2; str 3]) else
  if cmd_is "unlock-all" then with_args 3 3 (call_rpc "unlockAllAddresses" [str 2]) else
  if cmd_is "unlock-addresses" then
    let backfill := (3 <=? length argv)%nat && list_eqb (arg 2) (cstr "--backfill") in
    let first := if backfill then 3%nat else 2%nat in
    with_args (first + 2) (first + 2)
      (unlock_addresses_from_file
         (fst <$> files (if list_eqb (arg first) (cstr "-") then None else Some (arg first))) (arg (S first)) backfill) else
  if cmd_is "lock" then with_args 3 3 (call_rpc "lockAddress" [str 2]) else
  if cmd_is "lock-all" then call_rpc "lockAllAddresses" [] else
  if cmd_is "delete" then with_args 3 3 (call_rpc "deleteAddress" [str 2]) else
  if cmd_is "convert-to-v4" then with_args 4 4 (call_rpc "convertAddressToV4" [str 2; str 3]) else
  if cmd_is "convert-all-v3-to-v4" then with_args 3 4 (call_rpc "convertV3AddressesToV4" (str 2 :: optional 3 (num 3))) else
  if cmd_is "cache-pubkey" then with_args 5 5 (call_rpc "cachePubkey" [str 2; str 3; str 4]) else next)%string.

(** From send-message to list-subscriptions. *)
Definition message_commands (next : cres run) : cres run :=
  (if cmd_is "send-message" then with_args 6 8 (call_send "sendMessage" [str 2; str 3; str 4; str 5] 2 6) else
  if cmd_is "get-inbox" then with_args 0 3 (call_rpc "getInboxMessages" (optional 2 (str 2))) else
  if cmd_is "get-sent" then with_args 2 2 (call_rpc "getSentMessages" []) else
  if cmd_is "trash-message" then with_args 3 3 (call_rpc "trashMessage" [str 2]) else
  if cmd_is "send-broadcast" then with_args 5 6 (call_send "sendBroadcast" [str 2; str 3; str 4] 1 5) else
  if cmd_is "add-subscription"
  then with_args 3 4 (call_rpc "addSubscription"
                        [str 2; bm_json_new_string (if (length argv =? 4)%nat then arg 3 else [])]) else
  if cmd_is "remove-subscription" then with_args 3 3 (call_rpc "removeSubscription" [str 2]) else
  if cmd_is "list-subscriptions" then call_rpc "listSubscriptions" [] else next)%string.

(** From add-address-book-entry to get-network-stats. *)
Definition network_commands (next : cres run) : cres run :=
  (if cmd_is "add-address-book-entry" then with_args 4 4 (call_rpc "addAddressBookEntry" [str 2; str 3]) else
  if cmd_is "delete-address-book-entry" then with_args 3 3 (call_rpc "deleteAddressBookEntry" [str 2]) else
  if cmd_is "list-address-book-entries" then call_rpc "listAddressBookEntries" [] else
  if cmd_is "get-socks-proxy-onion" then call_rpc "getSocksProxyOnion" [] else
  if cmd_is "set-socks-proxy-onion" then with_args 5 5 (call_rpc "setSocksProxyOnion" [num 2; str 3; num 4]) else
  if cmd_is "get-socks-proxy-clearnet" then call_rpc "getSocksProxyClearnet" [] else
  if cmd_is "set-socks-proxy-clearnet" then with_args 5 5 (call_rpc "setSocksProxyClearnet" [num 2; str 3; num 4]) else
  if cmd_is "add-peer" then with_args 4 5 (call_rpc "addPeer" ([str 2; num 3] ++ optional 4 (num 4))) else
  if cmd_is "list-connections" then call_rpc "listConnections" [] else
  if cmd_is "get-network-stats" then call_rpc "getNetworkStats" [] else next)%string.

(** From the comparison with list-addresses on. *)
Definition dispatch : cres run := identity_commands (key_commands (message_commands (network_commands stop))).
End Command.

(** What is printed without a call ends a run with success. *)
Definition informed : cres run := Ok {| r_status := EXIT_SUCCESS; r_printed := None; r_calls := [] |}.

(** [argv] has the name of the program, at least. *)
Definition main (argv : list (list Z)) : cres run :=
  if (length argv <? 2)%nat then stop else
  let cmd := arg argv 1 in
  let cmd_is c := list_eqb cmd (cstr c) in
  if cmd_is "--version"%string || cmd_is "-v"%string || cmd_is "--help"%string || cmd_is "-h"%string then informed else
  if cmd_is "send-message"%string || cmd_is "send-broadcast"%string then
    let is_send_message := cmd_is "send-message"%string in
    match apply_body_file_option argv (if is_send_message then 4 else 3)%nat (if is_send_message then 5 else 4)%nat with
    | Ub => Ub
    | Err => stop
    | Ok new_argv => dispatch (default argv new_argv)
    end
  else dispatch argv.
End Client.

(** ** What a keys.dat file says

    The specification of the import: the sections of the addresses with the settings in them, and
    the object that stands for a section in a request.  It has no state that lines fill, no flags
    and no batches. *)

Section KeysDat.
Context `{CD : CDouble}.

(** An address, with the keys and values of its section in order. *)
Abbreviation section := (list Z * list (list Z * list Z))%type.

Definition header_line (line : list Z) : bool := match line with c :: _ => c =? 91 | [] => false end.

(** What a line that is no header sets. *)
Definition settings_of (line : list Z) : list (list Z * list Z) :=
  match line with [] => [] | c :: _ => if is_comment c then [] else option_list (key_value line) end.

(** The settings up to the next header. *)
Fixpoint settings (lines : list (list Z)) : list (list Z * list Z) :=
  match lines with
  | [] => []
  | l :: lines => if header_line l then [] else settings_of l ++ settings lines
  end.

Fixpoint address_sections (lines : list (list Z)) : list section :=
  match lines with
  | [] => []
  | l :: lines =>
      (if header_line l then match section_address l with Some a => [(a, settings lines)] | None => [] end else [])
      ++ address_sections lines
  end.

(** The value of a setting: the last one, where the case of the key does not count. *)
Definition setting (name : string) (s : section) : option (list Z) :=
  last (map snd (filter (fun kv => strcasecmp_eq kv.1 (key name) = true) s.2)).

(** Both private keys are there. *)
Definition with_keys (s : section) : bool :=
  bool_decide (is_Some (setting "privsigningkey"%string s)) && bool_decide (is_Some (setting "privencryptionkey"%string s)).

(** A text, cut to the length of its array, and a number, 0 if there is none. *)
Definition text_setting (name : string) (s : section) : list Z := default [] (field <$> setting name s).
Definition number_setting (name : string) (s : section) : Z :=
  match atoll <$> setting name s with Some (Ok n) => n | _ => 0 end.

(** A difficulty that is not positive becomes the default one. *)
Definition difficulty (name : string) (s : section) : bm_json_value :=
  BM_JSON_NUMBER (of_llong (if number_setting name s >? 0 then number_setting name s else 1000)).

Definition chan_setting (s : section) : bool :=
  match setting "chan"%string s with Some v => strcasecmp_eq v (key "true"%string) | None => false end.

Definition section_json (s : section) : bm_json_value :=
  BM_JSON_OBJECT
    ([(key "address", BM_JSON_STRING (cstring s.1));
      (key "signingWIF", BM_JSON_STRING (cstring (text_setting "privsigningkey" s)));
      (key "encryptionWIF", BM_JSON_STRING (cstring (text_setting "privencryptionkey" s)));
      (key "label", BM_JSON_STRING (cstring (text_setting "label" s)));
      (key "nonceTrialsPerByte", difficulty "noncetrialsperbyte" s);
      (key "payloadLengthExtraBytes", difficulty "payloadlengthextrabytes" s)]%string
     ++ if chan_setting s then [(key "isChan"%string, BM_JSON_BOOL true)] else []).

(** The body of the request that imports the sections of these objects. *)
Definition import_request (pass : list Z) (objects : list bm_json_value) : cres (list Z) :=
  bm_json_serialize (Some (BM_JSON_OBJECT
    [(key "jsonrpc", BM_JSON_STRING (cstr "2.0"));
     (key "method", BM_JSON_STRING (cstr "importAddressesBulk"));
     (key "params", BM_JSON_ARRAY [BM_JSON_ARRAY objects; BM_JSON_STRING (cstring pass)]);
     (key "id", BM_JSON_NUMBER (of_llong 1))]))%string.

(** The numbers fit 64 bits, each of them since the import reads them all. *)
Definition numeric (k : list Z) : bool :=
  strcasecmp_eq k (key "noncetrialsperbyte"%string) || strcasecmp_eq k (key "payloadlengthextrabytes"%string).
Definition numbers_fit (s : section) : Prop :=
  Forall (fun kv => numeric kv.1 = true -> exists n, atoll kv.2 = Ok n) s.2.

(** What is sent of the section is text that JSON can carry. *)
Definition writable (s : section) : Prop := with_keys s = true -> json_ok (section_json s).
End KeysDat.

(** ** Batches: lemmas *)

Section Batches.
Context {A : Type} (size : nat) (flush : list A -> Z * Z * list (list Z) -> cres (Z * Z * list (list Z))).
Context (body : list A -> cres (list Z)).

(** [w]: the bodies of batches of at most [size] that make up [xs], in order, none empty. *)
Definition in_batches (xs : list A) (w : list (list Z)) : Prop :=
  exists cs, concat cs = xs /\ Forall (fun c => (0 < length c <= size)%nat) cs /\ Forall2 (fun c b => body c = Ok b) cs w.

(** What was pushed so far went into a call or is in the array. *)
Definition collected (st : list A * (Z * Z * list (list Z))) (xs : list A) : Prop :=
  (length st.1 < size)%nat /\ exists ys, xs = ys ++ st.1 /\ in_batches ys st.2.2.

Hypothesis size_pos : (0 < size)%nat.
Hypothesis flush_nil : forall acc, flush [] acc = Ok acc.
Hypothesis flush_sends : forall batch i f w acc, batch <> [] -> flush batch (i, f, w) = Ok acc ->
  exists b, body batch = Ok b /\ acc.2 = w ++ [b].

Lemma collected_nil : collected ([], (0, 0, [])) [].
Proof. split; [done|]. exists []. split; [done|]. exists []. by repeat constructor. Qed.

Lemma flush_in_batches ys batch i f w acc : (length batch <= size)%nat -> in_batches ys w ->
  flush batch (i, f, w) = Ok acc -> in_batches (ys ++ batch) acc.2.
Proof.
  intros Hl (cs & <- & Hc & Hw) E. destruct batch as [|x batch].
  { rewrite flush_nil in E. injection E as <-. rewrite app_nil_r. by exists cs. }
  apply flush_sends in E as (b & Hb & ->); [|done]. exists (cs ++ [x :: batch]). split_and!.
  - rewrite concat_app. cbn. by rewrite app_nil_r.
  - apply Forall_app. split; [done|]. apply Forall_singleton. cbn in *. lia.
  - apply Forall2_app; [done|]. by repeat constructor.
Qed.

Lemma push_collected x st st' xs : collected st xs -> push_batch size flush x st = Ok st' -> collected st' (xs ++ [x]).
Proof.
  destruct st as [batch [[i f] w]]. intros (Hl & ys & -> & Hb) E. unfold push_batch in E. cbn [fst snd] in *.
  assert (Hlen : length (batch ++ [x]) = S (length batch)) by (rewrite length_app; cbn; lia).
  destruct (Nat.leb_spec size (length (batch ++ [x]))).
  - apply bind_ok_inv in E as (acc & E & [= <-]). split; [done|]. exists ((ys ++ batch) ++ [x]). split; [by rewrite app_nil_r|].
    rewrite <- app_assoc. eapply flush_in_batches; [|exact Hb|exact E]. lia.
  - injection E as <-. split; [cbn; lia|]. exists ys. split; [cbn; by rewrite app_assoc|done].
Qed.
End Batches.

(** ** The calls *)

Lemma cstring_bytes s : Forall json_byte s -> Forall json_byte (cstring s).
Proof. induction 1 as [|c s Hc _ IH]; cbn; [done|]. destruct (c =? 0); by constructor. Qed.

Section ClientLemmas.
Context `{CD : CDouble} `{B64 : Base64}.
Context (env : bm_cli_env) (kernel : nat -> list Z -> kernel_answers).

Definition call_body (method : list Z) (params : bm_json_value) : cres (list Z) :=
  bm_json_serialize (Some (request_tree method params)).

Lemma call_rpc_raw_sent w method params outcome w' :
  call_rpc_raw env kernel w method params = Ok (outcome, w') -> exists b, call_body method params = Ok b /\ w' = w ++ [b].
Proof.
  unfold call_rpc_raw. intros (b & Hb & H)%bind_ok_inv. exists b. split; [done|].
  apply bind_ok_inv in H as ([[resp status] ?] & _ & H). destruct resp as [resp|]; [|by injection H as _ <-].
  destruct (status =? 401); [by injection H as _ <-|].
  destruct (bm_json_parse resp) as [v| |]; [|by injection H as _ <-|done].
  by destruct (bm_json_object_get (Some v) _); injection H as _ <-.
Qed.

Definition import_body (pass : list Z) (batch : list keys_dat_entry) : cres (list Z) :=
  call_body (cstr "importAddressesBulk"%string)
    (BM_JSON_ARRAY [BM_JSON_ARRAY (map entry_json batch); bm_json_new_string pass]).
Definition unlock_body (pass : list Z) (backfill : bool) (batch : list (list Z)) : cres (list Z) :=
  call_body (cstr "unlockAddresses"%string)
    (BM_JSON_ARRAY [BM_JSON_ARRAY (map bm_json_new_string batch); bm_json_new_string pass;
                    bm_json_new_bool (if backfill then 1 else 0)]).

Lemma flush_import_sends pass batch i f w acc : batch <> [] ->
  flush_keys_dat_batch env kernel batch pass (i, f, w) = Ok acc -> exists b, import_body pass batch = Ok b /\ acc.2 = w ++ [b].
Proof.
  destruct batch as [|e batch]; [done|]. intros _. unfold flush_keys_dat_batch.
  intros ([outcome w'] & (b & Hb & ->)%call_rpc_raw_sent & [= <-])%bind_ok_inv. exists b. split; [exact Hb|].
  by repeat case_match.
Qed.

Lemma flush_unlock_sends pass backfill batch i f w acc : batch <> [] ->
  flush_unlock_addresses_batch env kernel pass backfill batch (i, f, w) = Ok acc ->
  exists b, unlock_body pass backfill batch = Ok b /\ acc.2 = w ++ [b].
Proof.
  destruct batch as [|e batch]; [done|]. intros _. unfold flush_unlock_addresses_batch.
  intros ([outcome w'] & (b & Hb & ->)%call_rpc_raw_sent & [= <-])%bind_ok_inv. exists b. split; [exact Hb|].
  by repeat case_match.
Qed.

(** ** The sections of keys.dat *)

(** The entries of the sections, the open one first, without a word on batches. *)
Fixpoint sections (cur : option keys_dat_entry) (lines : list (list Z)) : cres (list keys_dat_entry) :=
  match lines with
  | [] => Ok (option_list cur)
  | [] :: lines => sections cur lines
  | (c :: l) :: lines =>
      if is_comment c then sections cur lines
      else if c =? 91 then es ← sections (open_section (c :: l)) lines; Ok (option_list cur ++ es)
      else
        match cur, key_value (c :: l) with
        | Some e, Some (k, v) => e ← apply_key e k v; sections (Some e) lines
        | _, _ => sections cur lines
        end
  end.

Abbreviation import_collected pass := (collected KEYS_DAT_BATCH_SIZE (import_body pass)).

Lemma close_section_collected pass st st' xs :
  import_collected pass (im_batch st) xs -> close_section env kernel pass st = Ok st' ->
  import_collected pass (im_batch st') (xs ++ filter (fun e => complete e = true) (option_list (im_cur st)))
  /\ im_skipped_no_keys st'
     = im_skipped_no_keys st + Z.of_nat (length (filter (fun e => complete e = false) (option_list (im_cur st)))).
Proof.
  intros Hc E. unfold close_section in E. destruct (im_cur st) as [cur|].
  - change (option_list (Some cur)) with [cur]. rewrite !filter_cons, !filter_nil. destruct (complete cur) eqn:Ec;
      repeat case_decide; try done; cbn.
    + apply bind_ok_inv in E as (b & E & [= <-]). cbn. split; [|lia].
      refine (push_collected _ _ _ _ _ _ cur _ _ _ Hc E); [unfold KEYS_DAT_BATCH_SIZE; lia|done|].
      intros *. apply flush_import_sends.
    + injection E as <-. cbn. rewrite app_nil_r. split; [done|lia].
  - injection E as <-. change (option_list (@None keys_dat_entry)) with (@nil keys_dat_entry). rewrite !filter_nil, app_nil_r. cbn. split; [done|lia].
Qed.

Lemma close_last_collected pass st xs : import_collected pass (im_batch st) xs ->
  exists ys, in_batches KEYS_DAT_BATCH_SIZE (import_body pass) ys (im_batch (close_last st)).2.2
    /\ (length (im_batch (close_last st)).1 <= KEYS_DAT_BATCH_SIZE)%nat
    /\ ys ++ (im_batch (close_last st)).1 = xs ++ filter (fun e => complete e = true) (option_list (im_cur st))
    /\ im_skipped_no_keys (close_last st)
       = im_skipped_no_keys st + Z.of_nat (length (filter (fun e => complete e = false) (option_list (im_cur st)))).
Proof.
  intros (Hl & ys & -> & Hb). exists ys. unfold close_last. destruct (im_cur st) as [cur|].
  - change (option_list (Some cur)) with [cur]. rewrite !filter_cons, !filter_nil. destruct (complete cur) eqn:Ec;
      repeat case_decide; try done; cbn.
    + rewrite length_app, <- app_assoc. cbn. split_and!; (done || lia).
    + rewrite app_nil_r. split_and!; (done || lia).
  - change (option_list (@None keys_dat_entry)) with (@nil keys_dat_entry). rewrite !filter_nil, app_nil_r. cbn. split_and!; (done || lia).
Qed.

Lemma import_lines_sections pass lines st st' xs :
  import_collected pass (im_batch st) xs -> import_lines env kernel pass st lines = Ok st' ->
  exists es ys, sections (im_cur st) lines = Ok es
    /\ in_batches KEYS_DAT_BATCH_SIZE (import_body pass) ys (im_batch (close_last st')).2.2
    /\ (length (im_batch (close_last st')).1 <= KEYS_DAT_BATCH_SIZE)%nat
    /\ ys ++ (im_batch (close_last st')).1 = xs ++ filter (fun e => complete e = true) es
    /\ im_skipped_no_keys (close_last st')
       = im_skipped_no_keys st + Z.of_nat (length (filter (fun e => complete e = false) es)).
Proof.
  revert st xs. induction lines as [|l lines IH]; intros st xs Hc E; cbn [import_lines] in E.
  { injection E as <-. destruct (close_last_collected pass st xs Hc) as (ys & H). by exists (option_list (im_cur st)), ys. }
  apply bind_ok_inv in E as (st1 & E1 & E). unfold import_line in E1. destruct l as [|c l]; cbn [sections].
  { injection E1 as <-. by eapply IH. }
  destruct (is_comment c); [injection E1 as <-; by eapply IH|]. destruct (c =? 91).
  - apply bind_ok_inv in E1 as (st2 & E2 & [= <-]). destruct (close_section_collected pass st st2 xs Hc E2) as [Hc2 Hs2].
    edestruct IH with (2 := E) as (es & ys & Hes & H1 & H2 & H3 & H4); [exact Hc2|]. cbn [im_cur im_skipped_no_keys] in *. rewrite Hes, bind_ok.
    exists (option_list (im_cur st) ++ es), ys. split; [done|]. rewrite !filter_app, length_app. split_and!; [done|done| |lia].
    by rewrite H3, app_assoc.
  - destruct (im_cur st) as [cur|] eqn:Ecur; [|injection E1 as <-; rewrite <- Ecur; by eapply IH].
    destruct (key_value (c :: l)) as [[k v]|]; [|injection E1 as <-; rewrite <- Ecur; by eapply IH].
    apply bind_ok_inv in E1 as (cur' & -> & [= <-]). rewrite bind_ok. eapply (IH {| im_cur := Some cur'; im_batch := im_batch st; im_skipped_no_keys := im_skipped_no_keys st |} xs Hc E).
Qed.

Lemma unlock_lines_collected pass backfill lines st st' xs :
  collected UNLOCK_ADDRESSES_BATCH_SIZE (unlock_body pass backfill) st xs ->
  unlock_lines env kernel pass backfill st lines = Ok st' ->
  collected UNLOCK_ADDRESSES_BATCH_SIZE (unlock_body pass backfill) st' (xs ++ filter (fun l => is_address_line l = true) lines).
Proof.
  revert st xs. induction lines as [|l lines IH]; intros st xs Hc E; cbn [unlock_lines] in E.
  { injection E as <-. by rewrite filter_nil, app_nil_r. }
  rewrite filter_cons. destruct (is_address_line l); repeat case_decide; try done.
  - apply bind_ok_inv in E as (st1 & E1 & E). rewrite cons_middle, app_assoc. eapply IH; [|exact E].
    refine (push_collected _ _ _ _ _ _ l _ _ _ Hc E1); [unfold UNLOCK_ADDRESSES_BATCH_SIZE; lia|done|].
    intros *. apply flush_unlock_sends.
  - rewrite bind_ok in E. by eapply IH.
Qed.

(** ** The entries against what the file says *)

(** [e] has what was set so far. *)
Definition entry_of (s : list Z * list (list Z * list Z)) (e : keys_dat_entry) : Prop :=
  kd_address e = s.1 /\ kd_label e = text_setting "label" s
  /\ kd_signing_wif e = text_setting "privsigningkey" s /\ kd_encryption_wif e = text_setting "privencryptionkey" s
  /\ kd_nonce_trials_per_byte e = number_setting "noncetrialsperbyte" s
  /\ kd_payload_length_extra_bytes e = number_setting "payloadlengthextrabytes" s
  /\ kd_has_signing e = bool_decide (is_Some (setting "privsigningkey" s))
  /\ kd_has_encryption e = bool_decide (is_Some (setting "privencryptionkey" s))
  /\ kd_is_chan e = chan_setting s.

Lemma setting_snoc name a ps k v :
  setting name (a, ps ++ [(k, v)]) = if strcasecmp_eq k (key name) then Some v else setting name (a, ps).
Proof.
  unfold setting. cbn [snd]. rewrite filter_app, filter_cons, filter_nil. cbn [fst].
  destruct (strcasecmp_eq k (key name)); repeat case_decide; try done.
  - rewrite map_app. cbn. by rewrite last_snoc.
  - by rewrite app_nil_r.
Qed.

#[local] Ltac compute_keys := repeat match goal with
  | |- context [list_eqb (map tolower (key ?x)) (map tolower (key ?y))] =>
      let b := eval vm_compute in (list_eqb (map tolower (key x)) (map tolower (key y))) in
      change (list_eqb (map tolower (key x)) (map tolower (key y))) with b
  end.

Lemma apply_key_entry a ps e k v : entry_of (a, ps) e -> numbers_fit (a, ps ++ [(k, v)]) ->
  exists e', apply_key e k v = Ok e' /\ entry_of (a, ps ++ [(k, v)]) e'.
Proof.
  intros He (_ & [Hn _]%Forall_cons)%Forall_app. cbn [fst snd] in Hn. unfold entry_of, text_setting, number_setting, chan_setting in *.
  unfold apply_key, numeric, strcasecmp_eq in *. rewrite !setting_snoc. unfold strcasecmp_eq. set (lk := map tolower k) in *.
  destruct (list_eqb lk (map tolower (key "label"))) eqn:E1; [|destruct (list_eqb lk (map tolower (key "privsigningkey"))) eqn:E2;
    [|destruct (list_eqb lk (map tolower (key "privencryptionkey"))) eqn:E3;
      [|destruct (list_eqb lk (map tolower (key "noncetrialsperbyte"))) eqn:E4;
        [|destruct (list_eqb lk (map tolower (key "payloadlengthextrabytes"))) eqn:E5;
          [|destruct (list_eqb lk (map tolower (key "chan"))) eqn:E6]]]]].
  all: clearbody lk; try (match goal with E : list_eqb ?l _ = true |- _ => apply list_eqb_eq in E; subst l end; compute_keys).
  all: try (destruct Hn as (n & Hn); [reflexivity|]; cbn [fmap option_fmap option_map]; rewrite ?Hn, ?bind_ok).
  all: destruct He as (? & ? & ? & ? & ? & ? & ? & ? & ?); eexists; split; [reflexivity|]; split_and!; first [assumption|reflexivity].
Qed.

(** The sections that follow an open one. *)
Definition and_sections (cur : option (list Z * list (list Z * list Z))) (lines : list (list Z))
  : list (list Z * list (list Z * list Z)) :=
  match cur with Some (a, ps) => [(a, ps ++ settings lines)] | None => [] end ++ address_sections lines.

Definition open_entry (cur : option (list Z * list (list Z * list Z))) (e : option keys_dat_entry) : Prop :=
  match cur, e with Some s, Some e => entry_of s e | None, None => True | _, _ => False end.

Lemma sections_entries lines cur e : open_entry cur e -> Forall numbers_fit (and_sections cur lines) ->
  exists es, sections e lines = Ok es /\ Forall2 entry_of (and_sections cur lines) es.
Proof.
  revert cur e. induction lines as [|l lines IH]; intros cur e He Hn.
  { exists (option_list e). split; [done|]. destruct cur as [[a ps]|], e as [e|]; try done; unfold and_sections; cbn.
    rewrite app_nil_r. by apply Forall2_cons_2. }
  unfold and_sections in *. cbn [settings address_sections sections] in *. destruct l as [|c l]; [by apply IH|].
  unfold header_line, settings_of in *. destruct (is_comment c) eqn:Ec.
  { destruct (Z.eqb_spec c 91) as [->|]; [done|]. cbn [app] in *. by apply IH. }
  destruct (c =? 91).
  - apply Forall_app in Hn as [Hc Hn].
    destruct (IH ((fun a => (a, [])) <$> section_address (c :: l)) (open_section (c :: l))) as (es & -> & Hes).
    + unfold open_section. destruct (section_address _); [|done]. done.
    + by destruct (section_address _).
    + rewrite bind_ok. eexists. split; [done|]. apply Forall2_app.
      * destruct cur as [[a ps]|], e as [e|]; try done. rewrite app_nil_r. by apply Forall2_cons_2.
      * by destruct (section_address _).
  - cbn [app] in *. destruct cur as [[a ps]|], e as [e|]; try done; [|by apply (IH None None)].
    destruct (key_value (c :: l)) as [[k v]|]; [|cbn [option_list app] in *; by apply (IH (Some (a, ps)) (Some e))].
    cbn [option_list] in *. rewrite app_assoc in *.
    destruct (apply_key_entry a ps e k v) as (e' & -> & He'); [done| |rewrite bind_ok; by apply (IH (Some (_, _)) (Some _))].
    apply Forall_app in Hn as [[Hn _]%Forall_cons _]. unfold numbers_fit in Hn. cbn [snd] in Hn. by apply Forall_app in Hn as [Hn _].
Qed.

Lemma entry_of_spec s e : entry_of s e -> complete e = with_keys s /\ entry_json e = section_json s.
Proof.
  intros (Ha & Hl & Hs & Hx & Hn & Hp & Hhs & Hhx & Hc). unfold complete, with_keys. rewrite Hhs, Hhx. split; [done|].
  unfold entry_json, section_json, difficulty. rewrite Ha, Hl, Hs, Hx, Hn, Hp, Hc. by destruct (chan_setting s).
Qed.

Lemma entries_spec ss es : Forall2 entry_of ss es ->
  map entry_json (filter (fun e => complete e = true) es) = map section_json (filter (fun s => with_keys s = true) ss)
  /\ length (filter (fun e => complete e = false) es) = length (filter (fun s => with_keys s = false) ss).
Proof.
  induction 1 as [|s e ss es (Hc & Hj)%entry_of_spec _ [IH1 IH2]]; [done|]. rewrite !filter_cons, Hc.
  destruct (with_keys s); repeat case_decide; try done; cbn [map length]; by rewrite ?Hj, ?IH1, ?IH2.
Qed.

(** ** Calls that return

    The number after HTTP/1.1 of every answer fits an [int], and the values of a request can be
    written. *)
Context `{BL : !Base64Laws, CDL : !CDoubleLaws}.

Definition statuses_ok : Prop := forall i body, exists status, atoi (c_string (drop 9 (ka_stream (kernel i body)))) = Ok status.

Lemma json_ok_array items : json_ok (BM_JSON_ARRAY items) <-> Forall json_ok items.
Proof. cbn [json_ok]. induction items; cbn; [done|]. rewrite Forall_cons. tauto. Qed.

Lemma call_rpc_raw_total w method params : statuses_ok -> plain_double (of_llong 1) -> Forall json_byte method -> json_ok params ->
  exists outcome b, call_rpc_raw env kernel w method params = Ok (outcome, w ++ [b]).
Proof.
  intros Hk H1 Hm Hp. unfold call_rpc_raw.
  assert (Ht : json_ok (request_tree method params)) by (cbn; split_and!; (done || by_bytes || by apply cstring_bytes)).
  unfold bm_json_serialize. destruct (serialize_appends _ Ht sb_null [] sb_holds_null) as (sb & -> & _). cbn_bind.
  set (body := cstring _). destruct (Hk (length w) body) as [status Hs].
  destruct (http_post_total (env_host env) (env_user env) (env_pass env) body _ status Hs) as [[[resp st] ?] ->]. rewrite bind_ok.
  destruct resp as [resp|]; [|by eauto]. destruct (st =? 401); [by eauto|].
  pose proof (bm_json_parse_total resp) as Hsafe. destruct (bm_json_parse resp) as [v| |]; [|by eauto|done].
  destruct (bm_json_object_get (Some v) _); by eauto.
Qed.

Lemma flush_import_total pass batch acc : statuses_ok -> plain_double (of_llong 1) -> Forall json_byte pass ->
  Forall (fun e => json_ok (entry_json e)) batch -> exists acc', flush_keys_dat_batch env kernel batch pass acc = Ok acc'.
Proof.
  intros Hk H1 Hp Hb. destruct batch as [|e batch]; [by eexists|]. destruct acc as [[i f] w]. unfold flush_keys_dat_batch.
  set (params := BM_JSON_ARRAY _). assert (Hparams : json_ok params).
  { apply json_ok_array, Forall_cons. split; [by apply json_ok_array, Forall_map|]. apply Forall_singleton. by apply cstring_bytes. }
  clearbody params. destruct (call_rpc_raw_total w (cstr "importAddressesBulk"%string) params Hk H1) as (outcome & b & ->);
    [by_bytes|done|]. rewrite bind_ok. by eexists.
Qed.

Lemma import_lines_total pass lines st es : statuses_ok -> plain_double (of_llong 1) -> Forall json_byte pass ->
  sections (im_cur st) lines = Ok es -> Forall (fun e => complete e = true -> json_ok (entry_json e)) es -> Forall (fun e => json_ok (entry_json e)) (im_batch st).1 ->
  exists st', import_lines env kernel pass st lines = Ok st' /\ Forall (fun e => json_ok (entry_json e)) (im_batch (close_last st')).1.
Proof.
  intros Hk H1 Hp. revert st es. induction lines as [|l lines IH]; intros st es Hes Hw Hb; cbn [import_lines sections] in *.
  { injection Hes as <-. exists st. split; [done|]. unfold close_last. destruct (im_cur st) as [cur|]; [|done].
    destruct (complete cur) eqn:Ec; [|done]. cbn. apply Forall_app. split; [done|]. apply Forall_singleton.
    by apply Forall_singleton in Hw as Hw%(fun H => H Ec). }
  destruct l as [|c l]; cbn [import_line]; [rewrite bind_ok; by eapply IH|].
  destruct (is_comment c); [rewrite bind_ok; by eapply IH|]. destruct (c =? 91).
  - apply bind_ok_inv in Hes as (es' & Hes & [= <-]). apply Forall_app in Hw as [Hc Hw].
    assert (exists st1, close_section env kernel pass st = Ok st1 /\ Forall (fun e => json_ok (entry_json e)) (im_batch st1).1) as (st1 & -> & Hb1).
    { unfold close_section. destruct (im_cur st) as [cur|]; [|by eauto]. destruct (complete cur) eqn:Ec; [|by eauto].
      apply Forall_singleton in Hc as Hc%(fun H => H Ec). unfold push_batch.
      assert (Hb' : Forall (fun e => json_ok (entry_json e)) ((im_batch st).1 ++ [cur])) by (apply Forall_app; by rewrite Forall_singleton).
      destruct (_ <=? _)%nat; [|rewrite bind_ok; by eexists].
      destruct (flush_import_total pass _ (im_batch st).2 Hk H1 Hp Hb') as [acc ->]. rewrite !bind_ok. eexists. split; [done|]. by constructor. }
    rewrite !bind_ok. by eapply IH.
  - destruct (im_cur st) as [cur|] eqn:Ecur; [|rewrite bind_ok; eapply IH; [by rewrite Ecur|done|done]].
    destruct (key_value (c :: l)) as [[k v]|]; [|rewrite bind_ok; eapply IH; [by rewrite Ecur|done|done]].
    apply bind_ok_inv in Hes as (cur' & -> & Hes). rewrite !bind_ok. by eapply IH.
Qed.

Lemma entries_writable ss es : Forall2 entry_of ss es -> Forall writable ss ->
  Forall (fun e => complete e = true -> json_ok (entry_json e)) es.
Proof.
  induction 1 as [|s e ss es (Hc & Hj)%entry_of_spec _ IH]; [done|]. intros [Hs Hss]%Forall_cons. constructor; [|by apply IH].
  by rewrite Hc, Hj.
Qed.

Lemma import_body_request pass batch : import_body pass batch = import_request pass (map entry_json batch).
Proof. unfold import_body, call_body, import_request, request_tree. cbn [bm_json_object_set bm_json_new_object app]. done. Qed.

Lemma in_batches_map {A B} size (f : A -> B) body body' xs w : (forall c, body c = body' (map f c)) ->
  in_batches size body xs w -> in_batches size body' (map f xs) w.
Proof.
  intros Hbody (cs & <- & Hc & Hw). exists (map (map f) cs). split_and!.
  - symmetry. apply concat_map.
  - apply Forall_map. eapply Forall_impl; [exact Hc|]. intros c. by rewrite length_map.
  - apply Forall2_fmap_l. eapply Forall2_impl; [exact Hw|]. intros c b H. exact (eq_trans (eq_sym (Hbody c)) H).
Qed.

Lemma written_for_ok i body : statuses_ok -> exists request written,
  whole_request (env_host env) (env_user env) (env_pass env) body = Ok request
  /\ written_for env kernel i body = Ok written
  /\ written = if ka_connected (kernel i body) then take (Z.to_nat (ka_written (kernel i body))) request else [].
Proof.
  intros Hk. unfold written_for. destruct (Hk i body) as [status Hs].
  destruct (http_post_total (env_host env) (env_user env) (env_pass env) body _ status Hs) as [[[resp st] written] E]. rewrite E, bind_ok.
  destruct (ka_connected (kernel i body)) eqn:Hc.
  - destruct (http_post_written _ _ _ _ _ _ _ _ E Hc) as (request & H1 & H2). by exists request, written.
  - unfold bm_http_post_json in E. rewrite Hc in E. injection E as <- <- <-.
    unfold whole_request. rewrite auth_header_ok, bind_ok. by do 2 eexists.
Qed.

(** ** Bodies from files *)

Lemma read_stream_loop_ok fuel data len cap bytes :
  (length bytes < fuel)%nat -> len = blen data -> len < cap -> BM_BODY_READ_CHUNK < cap ->
  exists taken m, 1 <= m /\ (taken = bytes \/ BM_MAX_SUBJECT_PLUS_BODY_LEN < len + blen taken)
    /\ (exists rest, bytes = taken ++ rest)
    /\ read_stream_loop fuel (data ++ malloc (cap - len)) len cap bytes false = Ok ((data ++ taken) ++ malloc m, len + blen taken).
Proof.
  revert data len cap bytes. induction fuel as [|fuel IH]; intros data len cap bytes Hf Hl Hc Hcap; [lia|].
  cbn [read_stream_loop]. pose proof (blen_nonneg data). pose proof (blen_nonneg bytes). unfold BM_BODY_READ_CHUNK in *.
  assert (Hg : exists cap', (if len + 65536 + 1 >? cap then ((data ++ malloc (cap - len)) ++ malloc cap, cap * 2)
                             else (data ++ malloc (cap - len), cap)) = (data ++ malloc (cap' - len), cap')
                            /\ len + 65536 < cap').
  { destruct (Z.gtb_spec (len + 65536 + 1) cap); [|exists cap; split; [done|lia]].
    exists (cap * 2). split; [|lia]. f_equal. rewrite <- app_assoc, <- malloc_app by lia. do 2 f_equal. lia. }
  destruct Hg as (cap' & -> & Hcap'). set (n := Z.min 65536 (blen bytes)).
  assert (Hn : 0 <= n <= blen bytes /\ n <= 65536) by (unfold n; lia).
  pose proof (take_drop (Z.to_nat n) bytes) as Htd.
  assert (Ht : blen (take (Z.to_nat n) bytes) = n) by (apply blen_take; lia).
  rewrite wr_malloc, bind_ok by lia. rewrite Ht. destruct (Z.ltb_spec n 65536) as [Hs|Hs].
  { exists bytes, (cap' - len - n). assert (n = blen bytes) as Hnb by (unfold n in *; lia).
    rewrite take_ge by (unfold blen in *; lia). rewrite Hnb. split_and!; [lia|by left|by exists []; rewrite app_nil_r|done]. }
  assert (Hrest : exists rest, bytes = take (Z.to_nat n) bytes ++ rest) by by exists (drop (Z.to_nat n) bytes).
  destruct (Z.gtb_spec (len + n) BM_MAX_SUBJECT_PLUS_BODY_LEN) as [Hm|Hm].
  { exists (take (Z.to_nat n) bytes), (cap' - len - n). rewrite Ht. split_and!; [lia|right; lia|done|done]. }
  destruct (IH (data ++ take (Z.to_nat n) bytes) (len + n) cap' (drop (Z.to_nat n) bytes)) as (taken & m & Hm1 & H1 & (rest & Hr) & E);
    [unfold blen in *; rewrite length_drop; lia|rewrite blen_app; lia|lia|lia|].
  exists (take (Z.to_nat n) bytes ++ taken), m. rewrite blen_app, Ht.
  replace (cap' - len - n) with (cap' - (len + n)) by lia. rewrite E. split_and!; [done| | |].
  - destruct H1 as [->|H1]; [left; done|right; lia].
  - exists rest. by rewrite <- app_assoc, <- Hr.
  - rewrite <- (app_assoc data). do 2 f_equal. lia.
Qed.

(** A text that is small enough is read as it is, one that is not is too long for any subject. *)
Lemma read_stream_all_ok bytes : Forall (fun c => c <> 0) bytes ->
  exists body, read_stream_all bytes false = Ok body
    /\ (body = bytes \/ BM_MAX_SUBJECT_PLUS_BODY_LEN < blen body /\ BM_MAX_SUBJECT_PLUS_BODY_LEN < blen bytes).
Proof.
  intros Hz. unfold read_stream_all.
  destruct (read_stream_loop_ok (S (length bytes)) [] 0 (BM_BODY_READ_CHUNK + 1) bytes) as (taken & m & Hm & Ht & (rest & Hr) & E);
    [lia|done|unfold BM_BODY_READ_CHUNK; lia|lia|].
  cbn [app] in E. rewrite Z.sub_0_r in E. rewrite E, bind_ok. cbv beta iota.
  rewrite wr_malloc, bind_ok by (rewrite ?blen_cons, ?blen_nil; lia). rewrite <- app_assoc. cbn [app].
  assert (Hzt : Forall (fun c => c <> 0) taken) by (rewrite Hr in Hz; by apply Forall_app in Hz as [? _]).
  rewrite c_string_stop by done. rewrite Z.add_0_l, Z.eqb_refl. exists taken. split; [done|].
  destruct Ht as [Ht|Ht]; [by left|]. right. rewrite Hr, blen_app. pose proof (blen_nonneg rest). lia.
Qed.

Lemma find_option_app i pre path post : BODY_FILE ∉ pre ->
  find_option i (pre ++ BODY_FILE :: path :: post) = Some (i + length pre)%nat.
Proof.
  revert i. induction pre as [|a pre IH]; intros i Hp; cbn [app find_option].
  - rewrite list_eqb_refl. cbn. f_equal. lia.
  - apply not_elem_of_cons in Hp as [Ha Hp]. destruct (list_eqb a BODY_FILE) eqn:E; [apply list_eqb_eq in E; congruence|].
    rewrite IH by done. cbn. f_equal. lia.
Qed.
End ClientLemmas.

(** ** Properties *)

Section ClientProperties.
Context `{CD : CDouble} `{B64 : Base64} `{BL : !Base64Laws, CDL : !CDoubleLaws}.
Context (env : bm_cli_env) (kernel : nat -> list Z -> kernel_answers).

(** C35: The import of a keys.dat file whose numbers fit 64 bits and whose texts JSON can carry.
    However the kernel cuts and ends the calls, and whatever the server answers with a status
    number that fits an [int], the command comes to its end.  The requests it makes, whether they
    get through or not, carry exactly the sections of an address that have both private keys,
    each with the last value of every setting, in the order of the file and each once, 300 in a
    request at most and none in an empty one; the sections counted as skipped are the other ones.
    Of each of them the kernel has as much as [write] took, and nothing if it did not connect. *)
Theorem keys_dat_imported (file pass : list Z) :
  let ss := address_sections (file_lines file) in
  statuses_ok kernel -> plain_double (of_llong 1) -> Forall json_byte pass -> Forall numbers_fit ss -> Forall writable ss ->
  exists imported failed skipped w,
    import_counts env kernel file pass = Ok (imported, failed, skipped, w)
    /\ in_batches KEYS_DAT_BATCH_SIZE (import_request pass) (map section_json (filter (fun s => with_keys s = true) ss)) w
    /\ skipped = Z.of_nat (length (filter (fun s => with_keys s = false) ss))
    /\ forall i body, w !! i = Some body -> exists request written,
         whole_request (env_host env) (env_user env) (env_pass env) body = Ok request
         /\ written_for env kernel i body = Ok written
         /\ written = if ka_connected (kernel i body) then take (Z.to_nat (ka_written (kernel i body))) request else [].
Proof.
  intros ss Hk H1 Hp Hn Hw.
  destruct (sections_entries (file_lines file) None None) as (es & Hes & Hss); [done|done|]. change (and_sections _ _) with ss in Hss.
  destruct (entries_spec _ _ Hss) as [Hj Hlen].
  unfold import_counts. set (st0 := Build_import_state _ _ _).
  destruct (import_lines_total env kernel pass (file_lines file) st0 es Hk H1 Hp Hes) as (st & E & Hb); [by eapply entries_writable|constructor|].
  destruct (flush_import_total env kernel pass _ (im_batch (close_last st)).2 Hk H1 Hp Hb) as [[[i f] w] Ef].
  rewrite E, bind_ok. cbv zeta. rewrite Ef, bind_ok. do 4 eexists. split; [done|].
  apply (import_lines_sections env kernel pass _ _ _ []) in E as (es' & ys & Hes' & Hi & Hl & Hx & Hs);
    [|apply (collected_nil _ _); unfold KEYS_DAT_BATCH_SIZE; lia].
  cbn [im_cur st0] in Hes'. rewrite Hes in Hes'. injection Hes' as <-. rewrite <- Hj, <- Hlen.
  split_and!; [|exact Hs|by intros; apply written_for_ok].
  apply (in_batches_map _ _ (import_body pass)); [apply import_body_request|]. rewrite app_nil_l in Hx. rewrite <- Hx. destruct (im_batch (close_last st)) as [batch [[i0 f0] w0]]. cbn [fst snd] in *.
  change w with (i, f, w).2.
  eapply (flush_in_batches KEYS_DAT_BATCH_SIZE (fun batch => flush_keys_dat_batch env kernel batch pass));
    [| | |exact Hl|exact Hi|exact Ef]; [unfold KEYS_DAT_BATCH_SIZE; lia|done|].
  intros *. apply flush_import_sends.
Qed.

(** The same for a list of addresses to unlock: the lines that are neither empty nor comments,
    in batches of at most 1000. *)
Theorem addresses_unlocked (file pass : list Z) (backfill : bool) (unlocked failed : Z) (w : list (list Z)) :
  unlock_counts env kernel file pass backfill = Ok (unlocked, failed, w) ->
  in_batches UNLOCK_ADDRESSES_BATCH_SIZE (unlock_body pass backfill)
    (filter (fun l => is_address_line l = true) (file_lines file)) w.
Proof.
  unfold unlock_counts. intros ([batch [[i f] w0]] & E & H)%bind_ok_inv.
  eapply unlock_lines_collected in E; [|apply (collected_nil _ _); unfold UNLOCK_ADDRESSES_BATCH_SIZE; lia].
  destruct E as (Hl & ys & Hx & Hb). rewrite app_nil_l in Hx. rewrite Hx. cbn [fst snd] in *.
  change w with (unlocked, failed, w).2.
  eapply (flush_in_batches UNLOCK_ADDRESSES_BATCH_SIZE); [| | | |exact Hb|exact H]; [unfold UNLOCK_ADDRESSES_BATCH_SIZE; lia|done| |lia].
  intros *. apply flush_unlock_sends.
Qed.

(** --body-file.  The arguments are those without the option and its path, with the text of the file
    at the place of the body, wherever the option stood; a file that is too long with its
    subject is refused before anything is sent. *)
Theorem body_file_inserted (files : option (list Z) -> option (list Z * bool)) (a0 a1 : list Z) (pre post : list (list Z))
  (path bytes subject : list Z) (subject_index body_index : nat) :
  (BODY_FILE ∉ pre) -> path <> cstr "-"%string -> files (Some path) = Some (bytes, false) -> Forall (fun c => c <> 0) bytes ->
  let rest := a0 :: a1 :: pre ++ post in
  (body_index <= length rest)%nat -> rest !! subject_index = Some subject ->
  apply_body_file_option files (a0 :: a1 :: pre ++ BODY_FILE :: path :: post) subject_index body_index
  = if blen subject + blen bytes <=? BM_MAX_SUBJECT_PLUS_BODY_LEN
    then Ok (Some (take body_index rest ++ [bytes] ++ drop body_index rest)) else Err.
Proof.
  intros Hp Hpath Hf Hz rest Hb Hs. unfold apply_body_file_option. change (drop 2 _) with (pre ++ BODY_FILE :: path :: post).
  rewrite find_option_app by done.
  assert (E1 : (a0 :: a1 :: pre ++ BODY_FILE :: path :: post) !! S (2 + length pre) = Some path).
  { change (S (2 + length pre)) with (S (S (S (length pre)))). rewrite !lookup_cons.
    rewrite lookup_app_r by lia. by replace (S (length pre) - length pre)%nat with 1%nat by lia. }
  assert (E2 : take (2 + length pre) (a0 :: a1 :: pre ++ BODY_FILE :: path :: post)
               ++ drop (2 + length pre + 2) (a0 :: a1 :: pre ++ BODY_FILE :: path :: post) = rest).
  { replace (2 + length pre + 2)%nat with (S (S (length pre + 2))) by lia. cbn [plus take drop app]. unfold rest. do 2 f_equal.
    rewrite take_app_length. f_equal. rewrite drop_app_ge by lia. by replace (length pre + 2 - length pre)%nat with 2%nat by lia. }
  rewrite E1, E2. destruct (Nat.ltb_spec (length rest) body_index); [lia|]. unfold load_body_file.
  assert (list_eqb path (cstr "-"%string) = false) as -> by (apply not_true_iff_false; by rewrite list_eqb_eq).
  rewrite Hf. destruct (read_stream_all_ok bytes Hz) as (body & -> & Hbody). rewrite bind_ok, Hs.
  destruct Hbody as [->|[H1 H2]]; [by rewrite Z.gtb_ltb, Z.leb_antisym; destruct (_ <? _)|].
  pose proof (blen_nonneg subject). by zdec.
Qed.
End ClientProperties.

(** ** Witness *)

Section ClientWitnesses.

(** The numbers 1 and 1000, as their texts. *)
Definition small_double : CDouble := {|
  double := list Z;
  strtod := fun l => l;
  to_llong := fun d => Ok (if list_eqb d [49] then 1 else 1000);
  of_llong := fmt_lld;
  double_eqb := list_eqb;
  fmt_17g := fun d => d;
  double_zero := [48];
  plain_double := fun d => d = [49] \/ d = [49; 48; 48; 48];
|}.

Lemma small_double_laws : CDoubleLaws (H := small_double).
Proof.
  constructor; cbn.
  - intros d [->| ->]; [by exists 1|by exists 1000].
  - intros d [->| ->]; (split; [|split; [simpl; lia|done]]).
    + exists false, [49], None, None. split_and!; try done. by repeat constructor.
    + exists false, [49; 48; 48; 48], None, None. split_and!; try done. by repeat constructor.
Qed.

(** Four letters for every three bytes that were begun. *)
Definition toy_base64 : Base64 := {| EVP_EncodeBlock := fun s => replicate (Z.to_nat (4 * ((blen s + 2) / 3))) 65 |}.

Lemma toy_base64_laws : Base64Laws (H := toy_base64).
Proof.
  constructor; intros s; cbn.
  - unfold blen at 1. rewrite length_replicate. pose proof (blen_nonneg s). rewrite Z2Nat.id; [done|].
    pose proof (Z.div_pos (blen s + 2) 3). lia.
  - by apply Forall_replicate.
Qed.

#[local] Existing Instance small_double.
#[local] Existing Instance small_double_laws.
#[local] Existing Instance toy_base64.
#[local] Existing Instance toy_base64_laws.

Definition client_env_0 : bm_cli_env := {| env_host := cstr "127.0.0.1"%string; env_port := 8442; env_user := Some [117]; env_pass := None |}.
(** A server that takes the whole request and answers an object. *)
Definition ok_server (i : nat) (body : list Z) : kernel_answers :=
  {| ka_connected := true;
     ka_written := match whole_request (env_host client_env_0) (env_user client_env_0) (env_pass client_env_0) body with
                   | Ok request => blen request | _ => -1 end;
     ka_stream := cstr "HTTP/1.1 200 OK"%string ++ crlf ++ crlf ++ cstr "{}"%string; ka_size := fun _ => 1 |}.

Definition text_lines (ls : list string) : list Z := concat (map (fun l => cstr l ++ [10]) ls).
Definition keys_file : list Z := text_lines
  ["[bitmessagesettings]"; "port = 8444"; "[BM-2cA]"; "label = first"; "privsigningkey = 5Js"; "privencryptionkey = 5Je";
   "; a comment"; "[BM-2cB]"; "label = no keys"; "[BM-2cC]"; "chan = true"; "PrivSigningKey=5Ks"; "privencryptionkey=5Ke"]%string.

Definition keys_sections : list (list Z * list (list Z * list Z)) := Eval vm_compute in address_sections (file_lines keys_file).

Example keys_sections_kept : map fst (filter (fun s => with_keys s = true) keys_sections) = [cstr "BM-2cA"; cstr "BM-2cC"]%string
  /\ length keys_sections = 3%nat.
Proof. by vm_compute. Qed.

Lemma keys_dat_imported_witness : let ss := address_sections (file_lines keys_file) in
  exists imported failed skipped w,
    import_counts client_env_0 ok_server keys_file [112] = Ok (imported, failed, skipped, w)
    /\ in_batches KEYS_DAT_BATCH_SIZE (import_request [112]) (map section_json (filter (fun s => with_keys s = true) ss)) w
    /\ skipped = Z.of_nat (length (filter (fun s => with_keys s = false) ss))
    /\ forall i body, w !! i = Some body -> exists request written,
         whole_request (env_host client_env_0) (env_user client_env_0) (env_pass client_env_0) body = Ok request
         /\ written_for client_env_0 ok_server i body = Ok written
         /\ written = if ka_connected (ok_server i body) then take (Z.to_nat (ka_written (ok_server i body))) request else [].
Proof.
  apply (keys_dat_imported client_env_0 ok_server keys_file [112]).
  - intros i body. exists 200. vm_compute. reflexivity.
  - by left.
  - by_bytes.
  - replace (address_sections _) with keys_sections by (vm_compute; reflexivity). unfold keys_sections.
    repeat constructor; intros Hc; by vm_compute in Hc.
  - replace (address_sections _) with keys_sections by (vm_compute; reflexivity). unfold keys_sections.
    repeat constructor; intros Hc; (by vm_compute in Hc) || (cbn; split_and!; (done || by_bytes || by right)).
Defined.
End ClientWitnesses.
