(* ===== verification/ClientServer.v ===== *)
(** * The client against the server (cli/main.c, core/api_server.c)

    The names of the methods are written twice, in the commands of the client and in the table
    of the server. *)

From Stdlib Require Import String.
From stdpp Require Import base tactics numbers option gmap list.
From S2P Require Import Prelude Queue Varint Json Base58 Openssl Hash Address Object Sql ObjectStore MessagesStore.
From S2P Require Import Protocol Crypto MessageBuilder IdentityStore Keyring TrialDecrypt BroadcastDecrypt PubkeyCache.
From S2P Require Import Pow PowQueue SendPipeline Dandelion PeerManager Network PeerRegistry EventLoop ObjectSync Config.
From S2P Require Import Api ApiHandlers.
From S2P Require Import ApiRpc HttpClient Client.

(** The names in the table. *)
Definition METHOD_NAMES : list (list Z) :=
  [cstr "unlockAddress"; cstr "unlockAllAddresses"; cstr "unlockAddresses"; cstr "exportAddress";
   cstr "lockAddress"; cstr "lockAllAddresses"; cstr "deleteAddress"; cstr "convertAddressToV4";
   cstr "convertV3AddressesToV4"; cstr "listAddresses"; cstr "createDeterministicAddress";
   cstr "setAddressLabel"; cstr "importAddress"; cstr "importAddressesBulk"; cstr "joinChan";
   cstr "cachePubkey"; cstr "sendMessage"; cstr "sendBroadcast"; cstr "getInboxMessages";
   cstr "getSentMessages"; cstr "trashMessage"; cstr "addSubscription"; cstr "removeSubscription";
   cstr "listSubscriptions"; cstr "addAddressBookEntry"; cstr "deleteAddressBookEntry";
   cstr "listAddressBookEntries"; cstr "getSocksProxyOnion"; cstr "setSocksProxyOnion";
   cstr "getSocksProxyClearnet"; cstr "setSocksProxyClearnet"; cstr "addPeer"; cstr "listConnections";
   cstr "getNetworkStats"]%string.

Section ClientServer.
Context `{OS : OpenSSL} `{OSV : OpenSSLVault} `{BN : BigNum} `{INP : InetNtop} `{CJ : CJson}.
Context (g : protocol_globals) (solve : list Z -> Z -> Z) (cfg : bm_api_server_config).
Context `{CD : CDouble} `{B64 : Base64}.
Context (env : bm_cli_env) (kernel : nat -> list Z -> kernel_answers).

Definition known (method : list Z) : Prop := is_Some (find_method (METHODS g solve cfg) method).

(** [b] is the text of a call of one of the methods of the server. *)
Definition served (b : list Z) : Prop := exists method params, call_body method params = Ok b /\ known method.

Lemma method_names : map fst (METHODS g solve cfg) = METHOD_NAMES.
Proof. reflexivity. Qed.

(** A name is in the table. *)
Definition named (name : string) : bool := existsb (fun n => list_eqb n (cstr name)) METHOD_NAMES.

Lemma known_name name : named name = true -> known (cstr name).
Proof.
  unfold named, known. rewrite <- method_names.
  induction (METHODS g solve cfg) as [|[n h] ms IH]; cbn [map fst existsb find_method]; [done|].
  destruct (list_eqb n (cstr name)); [by eexists|exact IH].
Qed.

Lemma call_rpc_served method params r : call_rpc env kernel method params = Ok r -> known (cstr method) -> Forall served (r_calls r).
Proof.
  unfold call_rpc. intros ([outcome w] & (b & Hb & ->)%call_rpc_raw_sent & H)%bind_ok_inv Hm.
  assert (Hs : Forall served ([] ++ [b])) by (apply Forall_singleton; exists (cstr method), (BM_JSON_ARRAY params); split; [exact Hb|exact Hm]).
  destruct outcome; try (by injection H as <-). by apply bind_ok_inv in H as (text & _ & [= <-]).
Qed.

Lemma in_batches_served {A} size (body : list A -> cres (list Z)) xs w :
  in_batches size body xs w -> (forall c b, body c = Ok b -> served b) -> Forall served w.
Proof.
  intros (cs & _ & _ & H2) Hb. apply Forall_lookup. intros i b Hi.
  destruct (Forall2_lookup_r _ _ _ _ _ H2 Hi) as (c & _ & Hc). by eapply Hb.
Qed.

Lemma flush_label_served cur acc acc' : flush_label env kernel cur acc = Ok acc' -> Forall served acc.2 -> Forall served acc'.2.
Proof.
  unfold flush_label, set_address_label. intros E Hs. destruct cur as [[address [|c label]]|]; [by injection E as <-| |by injection E as <-].
  destruct acc as [[i f] w]. apply bind_ok_inv in E as ([outcome w'] & (b & Hb & ->)%call_rpc_raw_sent & E).
  assert (Forall served (w ++ [b])).
  { apply Forall_app. split; [done|]. apply Forall_singleton. eexists _, _. split; [exact Hb|]. apply known_name; vm_compute; reflexivity. }
  by destruct outcome; injection E as <-.
Qed.

Lemma fix_lines_served lines cur acc acc' :
  fix_lines env kernel cur acc lines = Ok acc' -> Forall served acc.2 -> Forall served acc'.2.
Proof.
  revert cur acc. induction lines as [|l lines IH]; intros cur acc E Hs; cbn [fix_lines] in E; [by eapply flush_label_served|].
  destruct l as [|c l]; [by eapply IH|]. destruct (is_comment c); [by eapply IH|]. destruct (c =? 91).
  - apply bind_ok_inv in E as (acc1 & E1 & E). eapply IH; [exact E|]. by eapply flush_label_served.
  - destruct cur as [[a label]|]; [|by eapply IH]. destruct (key_value _) as [[k v]|]; by eapply IH.
Qed.

Lemma import_served file pass r : import_keys_dat env kernel file pass = Ok r -> Forall served (r_calls r).
Proof.
  unfold import_keys_dat. destruct file as [file|]; [|by intros [= <-]].
  intros ([[[i f] s] w] & E & [= <-])%bind_ok_inv. cbn [r_calls]. unfold import_counts in E.
  apply bind_ok_inv in E as (st & E & H).
  apply (import_lines_sections env kernel pass _ _ _ []) in E as (es & ys & _ & Hb & Hl & _ & _);
    [|apply (collected_nil _ _); unfold KEYS_DAT_BATCH_SIZE; lia].
  apply bind_ok_inv in H as ([[i' f'] w'] & E & [= <- <- <- <-]).
  destruct (im_batch (close_last st)) as [batch [[i0 f0] w0]]. cbn [fst snd] in *. change w' with (i', f', w').2.
  eapply (in_batches_served KEYS_DAT_BATCH_SIZE (import_body pass));
    [eapply (flush_in_batches KEYS_DAT_BATCH_SIZE (fun batch => flush_keys_dat_batch env kernel batch pass));
       [unfold KEYS_DAT_BATCH_SIZE; lia|done|intros *; apply flush_import_sends|exact Hl|exact Hb|exact E]|].
  intros c b Hc. unfold import_body in Hc. eexists _, _. split; [exact Hc|]. apply known_name; vm_compute; reflexivity.
Qed.

Lemma unlock_served file pass backfill r :
  unlock_addresses_from_file env kernel file pass backfill = Ok r -> Forall served (r_calls r).
Proof.
  unfold unlock_addresses_from_file. destruct file as [file|]; [|by intros [= <-]].
  intros ([[i f] w] & E & [= <-])%bind_ok_inv. cbn [r_calls]. unfold unlock_counts in E.
  apply bind_ok_inv in E as ([batch [[i0 f0] w0]] & E & H).
  eapply unlock_lines_collected in E; [|apply (collected_nil _ _); unfold UNLOCK_ADDRESSES_BATCH_SIZE; lia].
  destruct E as (Hl & ys & _ & Hb). cbn [fst snd] in *. change w with (i, f, w).2.
  eapply (in_batches_served UNLOCK_ADDRESSES_BATCH_SIZE (unlock_body pass backfill));
    [eapply (flush_in_batches UNLOCK_ADDRESSES_BATCH_SIZE (flush_unlock_addresses_batch env kernel pass backfill));
       [unfold UNLOCK_ADDRESSES_BATCH_SIZE; lia|done|intros *; apply flush_unlock_sends| |exact Hb|exact H]; lia|].
  intros c b Hc. unfold unlock_body in Hc. eexists _, _. split; [exact Hc|]. apply known_name; vm_compute; reflexivity.
Qed.

Lemma fix_served file r : fix_labels_from_keys_dat env kernel file = Ok r -> Forall served (r_calls r).
Proof.
  unfold fix_labels_from_keys_dat. destruct file as [file|]; [|by intros [= <-]].
  intros ([[i f] w] & E & [= <-])%bind_ok_inv. by eapply (fix_lines_served _ _ (0, 0, []) (i, f, w)).
Qed.

Context (files : option (list Z) -> option (list Z * bool)) (strtod_whole : list Z -> option double).

(** Every run that [m] may give only sends such calls. *)
Definition serves (m : cres run) : Prop := forall r, m = Ok r -> Forall served (r_calls r).

Lemma serves_silent status text : serves (Ok {| r_status := status; r_printed := text; r_calls := [] |}).
Proof. by intros r [= <-]. Qed.

Lemma serves_call method params :
  named method = true -> serves (call_rpc env kernel method params).
Proof. intros Hm r H. eapply call_rpc_served; [exact H|by apply known_name]. Qed.

Lemma serves_send argv method params n i :
  named method = true ->
  serves (call_send env kernel strtod_whole argv method params n i).
Proof. intros Hm. unfold call_send. destruct (send_numbers _ _ _ _); [by apply serves_call|apply serves_silent|by intros r]. Qed.

Lemma serves_if (b : bool) m n : serves m -> serves n -> serves (if b then m else n).
Proof. by destruct b. Qed.

Lemma serves_args argv lo hi m : serves m -> serves (with_args argv lo hi m).
Proof. unfold with_args. intros. by apply serves_if; [apply serves_silent|]. Qed.

#[local] Opaque call_rpc call_send with_args import_keys_dat unlock_addresses_from_file fix_labels_from_keys_dat.

Lemma dispatch_serves argv : serves (dispatch env kernel files strtod_whole argv).
Proof.
  unfold dispatch, identity_commands, key_commands, message_commands, network_commands. cbv zeta.
  repeat (apply serves_if; [try apply serves_args;
    first [apply serves_call; vm_compute; reflexivity | apply serves_send; vm_compute; reflexivity
          | intros r; apply import_served | intros r; apply unlock_served | intros r; apply fix_served]|]).
  apply serves_silent.
Qed.

(** Whatever the command line, the files and the answers are, a run of the client only calls
    methods that the server has in its table. *)
Theorem client_calls_served (argv : list (list Z)) (r : run) :
  main env kernel files strtod_whole argv = Ok r -> Forall served (r_calls r).
Proof.
  revert r. change (serves (main env kernel files strtod_whole argv)). unfold main. cbv zeta.
  apply serves_if; [apply serves_silent|]. apply serves_if; [apply serves_silent|]. apply serves_if; [|apply dispatch_serves].
  destruct (apply_body_file_option _ _ _ _); [apply dispatch_serves|apply serves_silent|by intros r].
Qed.
End ClientServer.
